(* ===== verification/_CoqProject ===== *)
-Q . S2P
Prelude.v
GoStrings.v
Encoding.v
GoFloat.v
GoFloatInt.v
GoSort.v
Breaker.v
Config.v
Api.v
Assemble.v
Execute.v
Route.v
Hedge.v
Health.v
Regex.v
Lru.v
CacheKeys.v
Policy.v
Auth.v
Pipeline.v
Cache.v
RateLimit.v
Budget.v
BudgetStage.v
AgentRun.v
Fuzzy.v
AgentStage.v
Detect.v
Redact.v
Guard.v
Threads.v
AdminStore.v
AdminAuth.v
AdminLogin.v
AdminSessions.v
AdminAccounts.v
Sse.v
Mcp.v
McpProxy.v
SmartRoute.v
Overrides.v
Serve.v
Stream.v
ChatHandler.v
Embeddings.v
Provider.v
OpenAI.v
Anthropic.v
Gemini.v
Registry.v
Envelope.v
Credentials.v
Control.v
KeyCache.v
Purge.v
ConfigTools.v
Reload.v
Workers.v
Gossip.v
Stats.v
Evidence.v
Judge.v
Erasure.v
KeyStore.v
ControlPlane.v
MemStore.v
Cli.v
CliRemote.v
CliRoutes.v
CliLocal.v
CliData.v
Scrubber.v
SemanticIndex.v
Telemetry.v
BenchTools.v
MockLLM.v
Queries.v
Endpoints.v
Migrations.v
