(* ===== verification/Prelude.v ===== *)
(** * ProofGate: a verification development of the gateway core

    ProofGate (src/) is a gateway in front of language-model providers.  A chat
    request is authenticated, resolved to a route, passed through a pipeline of
    stages (guard, rate limit, budget, agent run, cache), executed against the
    targets of a plan with retries, failover, circuit breakers and hedging, and
    its answer, streamed or not, passed back through the stages.  This library
    models the code that decides these things and proves what it promises.

    ** Parts and files

    - [Prelude]: notations, tactics ([go_case], [zbool]), 64-bit integers, time,
      list lemmas and [reachable], the sequences of atomic operations by which
      every structure that is shared between goroutines is specified.
    - [GoStrings], [Encoding], [GoFloat], [GoFloatInt], [GoSort], [Regex]: the part of Go's
      standard library the program uses.  Strings are byte strings; [float64] is
      the Standard Library's executable IEEE-754 specification, every operation
      in the order of the source; [GoFloatInt] shows that integers below 2^53 are
      exact in it, with strconv's ParseFloat; [Regex] is a leftmost-first backtracking matcher; [Mcp] has
      path.Match.
    - [Breaker] (internal/router/breaker.go): one breaker per target.
      [breaker_invariant], [half_open_single_probe], [threshold_trips],
      [OpenFor_honoured].
    - [Config] (internal/config/config.go): the configuration, its defaults and
      its validation.  [Parse_sound] lists what an accepted configuration
      guarantees, [applyDefaults_idempotent].
    - [Api], [Assemble] (internal/api): wire types, token estimates, errors, and
      the stream assembler with [chunks_roundtrip].
    - [Execute] (internal/router/execute.go): the retry and failover loop over an
      abstract world of upstream calls, clock, sleep and randomness.  Attempts
      are bounded, failover is complete, client errors are not retried.
    - [Route] (route.go, capabilities.go): resolution and plans.
      [configured_routes_are_servable] composes [Config] with [Route].
    - [Hedge] (hedge.go): the race of two calls as a machine driven by the events
      its [select] receives.
    - [Health] (internal/health/tracker.go): averages and the degradation state
      machine; [degraded_needs_strikes], [degraded_lasts].
    - [Lru], [Policy], [Auth] (internal/auth, internal/store/policy.go): the
      bounded cache refines a map with expiry and keeps what is in use; the
      middleware is sound ([auth_sound]) and evictions are effective.  [Auth.Handler] is a
      request that is alone; [Auth.request_step] and [Auth.lookup_step] are its operations one
      by one, and [handler_alone] relates them.
    - [CacheKeys], [Cache] (internal/cache): which requests are cached, under
      which keys, and the stage with its background writers.
      [exact_key_separates], [exact_hit_repeats_answer].
    - [Pipeline] (internal/pipeline): calls, stages as records of hooks over a
      world, and the order in which hooks run.
    - [RateLimit] (internal/ratelimit), [Budget] and [BudgetStage]
      (internal/budget), [AgentRun], [Fuzzy] and [AgentStage]
      (internal/agentrun): the Lua scripts run by Redis, the backends, and the
      stages that charge an estimate before a call and correct it afterwards.
      The [_net_charge] theorems state that a call is charged exactly what it
      used; the others bound what can be admitted.
    - [Detect], [Redact], [Guard] (internal/guard): detection of personal data,
      reversible redaction, restoration of streams, the guard stage.
    - [Threads]: programs over the commands of an environment, the machine that
      interleaves any number of them with failures and the passing of time, and
      the weakest-precondition rules for what every interleaving keeps.
    - [AdminStore], [AdminAuth] (internal/adminauth, internal/store/admin_users.go,
      internal/server/admin_auth.go, admin_cp.go): the admin listener as such
      programs over Redis and the account table.  [AdminLogin]: password guesses
      are bounded; [AdminSessions]: a session that is gone stays gone;
      [AdminAccounts]: accounts change only through an administrator.
    - [Sse] (internal/sse): reading and writing server-sent events.
    - [Mcp], [McpProxy] (internal/mcpproxy): the proxy of tool servers.  The check for
      repeated keys is equivalent to one on JSON values ([duplicate_keys_rejected]),
      only permitted messages are forwarded ([mcp_forwards_only_allowed]) and a key
      sees the tools it may call ([tool_lists_filtered]).

    - [SmartRoute] (internal/smartroute): the rules, the nearest-neighbour vote and
      the stage that chooses a cheap or a strong target.  [smart_route_sound],
      [smart_decision_recorded].
    - [Overrides], [Endpoints.ClientIP] (internal/server/overrides.go, client_ip.go): live
      patches of the configuration keep it valid; the client's address cannot be
      forged through well-behaved proxies.
    - [Serve], [Stream], [ChatHandler] (internal/server: exec.go, stream.go, chat.go,
      respond.go, chat_internal.go): a request from its body to its reply.
      [ChatHandler.Chat] composes [Route], [Pipeline], [Execute], [Hedge] and
      [Budget] as the handler does: [chat_answer_sound] traces an answer to the
      target that gave it and its price, [chat_unwinds_stages] shows that every
      request leaves the stages whose check it passed, [route_access_sound] composes
      [Config], [Route] and the rights of keys, [streamed_text_restored] composes
      [Guard], [Redact], [Assemble] and the relay.
    - [Embeddings] (internal/server: embeddings.go, embed_internal.go): the other
      endpoint, written against the interfaces of [RateLimit] and [Budget];
      [embeddings_net_charge].
    - [Provider], [OpenAI], [Anthropic], [Gemini]
      (internal/provider, internal/httpx): requests with their credentials, failures,
      the loop that receives from an event stream, and the translations.
      [anthropic_stream_is_chat] and [gemini_stream_is_chat] compose [Sse], the
      adapters and [Assemble]: a streamed answer assembles to the one that would have
      come in one piece; [toAnthropic_faithful], [toGemini_faithful].
    - [Registry] (registry.go, server/runtime.go): [accepted_config_builds] composes
      [Config], [Route] and the adapters.
    - [Envelope], [Credentials], [KeyCache] (internal/secrets, internal/store/credentials.go,
      the key set-up of cmd/proofgate/main.go, cmd/proofgatectl/credentials.go): provider
      credentials at rest and in use.  A sealed credential opens under its provider only
      ([sealed_credential_opens]), rewrapping the table loses nothing whichever statement
      fails ([rewrap_loses_nothing]), and the cache of opened credentials, whose loads and
      purges interleave, holds only current ones ([cached_credentials_are_current]).
    - [Control], [Purge], [Reload.Replica] (internal/control, internal/cache/purge.go, the
      subscriptions of main.go): messages between replicas, and what they make a replica
      forget; [published_invalidations_apply] composes the bus with [Auth] and [KeyCache],
      [tenant_purge_exact] shows that purging a tenant removes its keys and no other's.
    - [ConfigTools], [Reload] (internal/config: lint.go, redact.go, watch.go; main.go): the
      configuration shown without its secrets ([Redact_hides_secrets]) and replaced while the
      gateway runs ([running_config_valid] composes [Config], [Overrides], [Registry]).
    - [Gossip] (internal/health: gossip.go, redis.go, prober.go): how replicas share what
      [Health] keeps; [gossip_needs_the_secret], [broadcast_is_merged].
    - [Workers] (internal/proof/leader.go, internal/analytics/batcher.go): the election of the
      replica that evaluates, [lease_holders_unique], and rows on their way to ClickHouse,
      [batcher_conserves_rows].
    - [Stats], [Evidence] (internal/stats, internal/proof): estimators, the calibration of
      thresholds, the monitors and the overrides they write; [rollback_takes_effect].  [Judge]:
      the model that judges samples, its spend and the workers that write labels
      ([label_pass_bounded]).  [Queries] (proof/store.go): what the workers and reports read,
      over the tables ([unlabelled_rows], [curve_points]).
    - [Erasure] (store/erasure.go): a tenant in three stores; [tenant_erasure_exact].
    - [KeyStore], [ControlPlane], [MemStore] (internal/store, internal/server/admin_cp.go,
      internal/adminauth/store.go): tenants and keys ([revoked_key_is_refused], over the requests
      and lookups in flight of [Auth]), the handlers of
      the control plane ([set_credential_effective]), and the store of sessions in memory.
    - [Migrations] (store/migrate.go, analytics/clickhouse.go): [migrations_once_in_order],
      [retention_configured].  [Endpoints] (server: probes.go, models.go, routes.go):
      [readiness_bounded], [listed_models_resolve].
    - [Scrubber], [Telemetry] (internal/telemetry, internal/analytics, internal/app): log records
      without secrets, collectors, spans and usage rows ([calls_accounted_once],
      [batch_all_or_nothing]) and the order of all stages.  [SemanticIndex] (cache: semantic.go,
      embedder.go): the vector index, whose nearest entry belongs to the tenant that asks
      ([nearest_is_own]), and the list of embeddings.
    - [Cli], [CliRemote], [CliRoutes], [CliLocal], [CliData] (cmd/proofgatectl): profiles and
      sessions, the commands against a server and the routes they meet ([commands_reach_routes]
      composes them with [ControlPlane]), those on the database, exports and labels.
    - [BenchTools], [MockLLM] (cmd/loadgen, chaos,
      replay, benchreport, routeeval, cacheeval; internal/mockllm): what the measuring tools
      compute, and the provider that stands in for a real one.

    ** How the code is represented

    A struct is a record and keeps its field names (with a prefix where names
    would clash); a method is a function of the same name that takes and returns
    the state.  A nil pointer, slice or interface is [None] where the code tests
    for it, a panic is [None] as a result.  An interface of the program
    ([ExactStore], [KeyLookup], [Ledger], [Backend], [RunStore], [FuzzyStore],
    [Embedder], ...) is a type class over a world; the Redis implementations are
    its instances, with Lua scripts as functions on the keys they touch and
    numbers as Lua and Redis keep them.  Operations that hold a mutex, and Lua
    scripts, are atomic steps; what several clients do is a [reachable] sequence
    of such steps.  The clock is an argument of each operation that reads it.

    ** Parameters

    Third-party and external code is a parameter with the documented behaviour
    the theorems need as named hypotheses: SHA-256 (the length of its digest
    only: separation is stated up to an explicit collision), JSON encoding ([RPCJson]
    where the code works on raw JSON), the
    token buckets of golang.org/x/time/rate, bcrypt, the vector index, upstream calls,
    random numbers (math/rand's draws), AES-GCM (a class with its laws) and HMAC, the Vault server,
    Redis publish/subscribe and SCAN, the search of RediSearch by its documented reading of a tag
    filter, PostgreSQL's syntax of a uuid and its collation, the model and the JSON reader of the
    judge, the terminal and the exchanges of the command line, and of package net the address and URL parsers.  What the network decides about a stream (after how many chunks the
    client is found gone, at which write its socket is closed) and in which order
    the two calls of a hedged race complete are arguments of the handlers: the
    theorems hold for all of them.  A call takes its effect when it completes.  [sort.Slice]
    is not stable: it is any function that returns a sorted permutation.

    ** Fuel

    [process_loop] (Redact) and the buffer scans get one unit more than the bytes
    in the buffer, and every round consumes one; [evict_loop] (Lru) gets the
    length of the list it shortens; [digits_of] one more than the binary
    logarithm of the number; [next_loop] (Sse) two more than the bytes left
    ([Next_total]); [recv_loop] (Provider) one more than the bytes left and [drain]
    two ([drain_total]); [relay_events] (McpProxy) two more than the bytes of the reply;
    [checkObject] and [checkArray] one more than the tokens they may read; the loops
    of [Match] (Mcp) and [redis_match] (Purge) one more than the pattern; [chunks_of] (Purge) the length
    of its list and [receive_all] (Workers) one more than the rows in the queue; the attempt loop runs on the number of attempts
    itself; the regular expression matcher recurses on the pattern and on the
    remaining text.  The theorems are about the results, not about runs that
    happen to end: with this fuel each function returns what the loop computes.

    ** Not modelled

    The text of SQL inside the databases: the tables, constraints and queries the program relies
    on are written out over lists of rows ([Credentials], [AdminStore], [KeyStore], [Erasure],
    [Evidence], [Queries]).  The set-up of processes, pools, listeners, HTTP transports and
    exporters; flags, files and printing of the commands; the Go collectors of Prometheus and
    OpenTelemetry.  Decoding of request bodies is modelled where the code looks at raw JSON
    ([Encoding], [Mcp]) and a parameter elsewhere.
    Matching is on bytes: case folding of the few non-ASCII
    letters that fold to ASCII, and Unicode white space, are outside the model. *)

From Stdlib Require Export ZArith Lia Ascii String Sorting.Permutation Sorting.Sorted.
From stdpp Require Export base tactics option list gmap strings numbers sorting.

Open Scope Z_scope.

(** ** Hint databases and tactics of the development *)

Create HintDb go discriminated.
Create HintDb golen.

(** Case analysis on the first [match] or [if] of the goal or of the context,
    then the equations are simplified.  Repeated by [go_cases]. *)
Ltac go_case :=
  match goal with
  | |- context [decide ?P] => destruct (decide P)
  | |- context [if ?b then _ else _] => destruct b eqn:?
  | |- context [match ?x with _ => _ end] => destruct x eqn:?
  | H : context [decide ?P] |- _ => destruct (decide P)
  | H : context [if ?b then _ else _] |- _ => destruct b eqn:?
  | H : context [match ?x with _ => _ end] |- _ => destruct x eqn:?
  end.

Ltac go_cases := repeat (go_case; simplify_eq/=).

(** Turn the boolean comparisons on [Z] into inequalities. *)
Ltac zbool :=
  repeat match goal with
  | H : _ && _ = true |- _ => apply andb_true_iff in H as [? ?]
  | H : _ || _ = false |- _ => apply orb_false_iff in H as [? ?]
  | H : negb _ = true |- _ => apply negb_true_iff in H
  | H : negb _ = false |- _ => apply negb_false_iff in H
  | H : (_ <? _)%Z = true |- _ => apply Z.ltb_lt in H
  | H : (_ <? _)%Z = false |- _ => apply Z.ltb_ge in H
  | H : (_ <=? _)%Z = true |- _ => apply Z.leb_le in H
  | H : (_ <=? _)%Z = false |- _ => apply Z.leb_gt in H
  | H : (_ =? _)%Z = true |- _ => apply Z.eqb_eq in H
  | H : (_ =? _)%Z = false |- _ => apply Z.eqb_neq in H
  end.

Ltac zlia := zbool; lia.

(** ** Machine integers *)

(** Two's complement wrap-around of a 64-bit signed integer (Go's [int] and
    [int64] on the 64-bit platforms the program is built for). *)
Definition wrap64 (z : Z) : Z := (z + 2 ^ 63) mod 2 ^ 64 - 2 ^ 63.

Definition int64_min : Z := - 2 ^ 63.
Definition int64_max : Z := 2 ^ 63 - 1.

Definition in_int64 (z : Z) : Prop := int64_min <= z <= int64_max.

Lemma wrap64_range z : in_int64 (wrap64 z).
Proof.
  unfold in_int64, wrap64, int64_min, int64_max.
  pose proof (Z.mod_pos_bound (z + 2 ^ 63) (2 ^ 64)). lia.
Qed.

Lemma wrap64_id z : in_int64 z -> wrap64 z = z.
Proof.
  unfold in_int64, wrap64, int64_min, int64_max. intros H.
  rewrite Z.mod_small; lia.
Qed.

(** ** Time *)

(** A [time.Time] is the number of nanoseconds since Go's zero time (January 1,
    year 1 UTC), so that [IsZero] is a test against 0; a [time.Duration] is a
    number of nanoseconds. *)
Abbreviation Time := Z (only parsing).
Abbreviation Duration := Z (only parsing).

Definition is_zero_time (t : Time) : bool := t =? 0.

Definition microsecond : Duration := 1000.
Definition millisecond : Duration := 1000000.
Definition second : Duration := 1000000000.
Definition minute : Duration := 60 * second.
Definition hour : Duration := 60 * minute.

(** [Time.Sub] saturates at the limits of a [Duration]. *)
Definition time_sub (a b : Time) : Duration :=
  Z.max int64_min (Z.min int64_max (a - b)).

(** ** Lists *)

Section Lists.
Context {A : Type}.

(** Removing the elements that were already seen, first occurrence kept. *)
Fixpoint dedup_from `{EqDecision A} (seen l : list A) : list A :=
  match l with
  | [] => []
  | x :: l' => if decide (x ∈ seen) then dedup_from seen l'
               else x :: dedup_from (x :: seen) l'
  end.

Lemma dedup_from_elem `{EqDecision A} l seen x :
  x ∈ dedup_from seen l <-> x ∈ l /\ x ∉ seen.
Proof.
  revert seen; induction l as [|y l IH]; intros seen; simpl; [set_solver|].
  destruct (decide (y ∈ seen)).
  - rewrite IH, elem_of_cons. naive_solver.
  - rewrite elem_of_cons, IH, !elem_of_cons. destruct (decide (x = y)); naive_solver.
Qed.

Lemma dedup_from_NoDup `{EqDecision A} l seen : NoDup (dedup_from seen l).
Proof.
  revert seen; induction l as [|y l IH]; intros seen; simpl; [constructor|].
  case_decide; [apply IH|]. constructor; [|apply IH].
  rewrite dedup_from_elem, elem_of_cons. naive_solver.
Qed.

(** The list monad's running state: [fold] with an accumulator, as a [for]
    loop over a slice. *)
Definition for_range {S : Type} (l : list A) (s : S) (body : S -> A -> S) : S :=
  fold_left body l s.

(** Permutation by a three-way partition. *)
Lemma Permutation_filter_split (P : A -> Prop) `{!forall x, Decision (P x)} (l : list A) :
  filter P l ++ filter (fun x => ~ P x) l ≡ₚ l.
Proof.
  induction l as [|x l IH]; [done|].
  destruct (decide (P x)).
  - rewrite !filter_cons. rewrite decide_True by done.
    rewrite (decide_False (P := ~ P x)) by tauto. simpl. by f_equiv.
  - rewrite !filter_cons. rewrite decide_False by done.
    rewrite (decide_True (P := ~ P x)) by tauto.
    rewrite <- Permutation_middle. by f_equiv.
Qed.
End Lists.

(** ** Sequences of operations

    Every mutex-protected structure of the program is used by concurrent callers;
    an execution is a sequence of atomic operations in the order in which they
    take the lock.  [reachable step s0] are the states such sequences reach. *)
Section Reachable.
Context {S : Type} (step : S -> S -> Prop).

Inductive reachable (s0 : S) : S -> Prop :=
| reach_refl : reachable s0 s0
| reach_step s s' : reachable s0 s -> step s s' -> reachable s0 s'.

(** Rule induction in the form used by the invariant theorems. *)
Lemma reachable_invariant (I : S -> Prop) s0 s :
  I s0 -> (forall s s', I s -> step s s' -> I s') -> reachable s0 s -> I s.
Proof. intros H0 Hstep Hr. induction Hr; eauto. Qed.

Lemma reachable_trans s0 s1 s2 :
  reachable s0 s1 -> reachable s1 s2 -> reachable s0 s2.
Proof. intros H1 H2; induction H2; eauto using reachable. Qed.
End Reachable.

#[export] Hint Constructors reachable : go.
#[export] Hint Resolve wrap64_range : go.
