(* ===== verification/GoStrings.v ===== *)
(** * Go strings

    A Go string is a sequence of bytes, here a [string] of 8-bit [ascii]
    characters.  The operations of packages [strings] and [strconv] that the
    program uses, with the lemmas the components share. *)

From S2P Require Import Prelude.

Open Scope string_scope.
Open Scope list_scope.
Open Scope Z_scope.

(** ** Bytes *)

Definition byte_at (n : Z) : ascii := ascii_of_N (Z.to_N n).
Definition byte_val (c : ascii) : Z := Z.of_N (N_of_ascii c).
Definition chr (n : Z) : string := String (byte_at n) EmptyString.

Definition newline : string := chr 10.
Definition nul : string := chr 0.

Definition byte_in (lo hi : Z) (c : ascii) : bool :=
  (lo <=? byte_val c) && (byte_val c <=? hi).

Definition is_digit (c : ascii) : bool := byte_in 48 57 c.
Definition is_lower (c : ascii) : bool := byte_in 97 122 c.
Definition is_upper (c : ascii) : bool := byte_in 65 90 c.
(** Go's [\s] in a regexp: tab, newline, form feed, carriage return, space. *)
Definition is_re_space (c : ascii) : bool :=
  let v := byte_val c in
  (v =? 9) || (v =? 10) || (v =? 12) || (v =? 13) || (v =? 32).
(** ASCII white space of [unicode.IsSpace] and [bytes.TrimSpace]. *)
Definition is_space (c : ascii) : bool :=
  let v := byte_val c in ((9 <=? v) && (v <=? 13)) || (v =? 32).

Definition lower_byte (c : ascii) : ascii :=
  if is_upper c then byte_at (byte_val c + 32) else c.

(** ** Slicing *)

Definition slen (s : string) : Z := Z.of_nat (String.length s).

Fixpoint stake (n : nat) (s : string) : string :=
  match n, s with
  | S n', String c s' => String c (stake n' s')
  | _, _ => EmptyString
  end.

Fixpoint sdrop (n : nat) (s : string) : string :=
  match n, s with
  | S n', String _ s' => sdrop n' s'
  | _, _ => s
  end.

(** [s[i:j]]; the callers establish [0 <= i <= j <= len s], Go panics otherwise. *)
Definition slice (i j : nat) (s : string) : string := stake (j - i) (sdrop i s).

Fixpoint smap (f : ascii -> ascii) (s : string) : string :=
  match s with
  | EmptyString => EmptyString
  | String c s' => String (f c) (smap f s')
  end.

Fixpoint sforall (p : ascii -> bool) (s : string) : bool :=
  match s with
  | EmptyString => true
  | String c s' => p c && sforall p s'
  end.

Fixpoint scontains_byte (c : ascii) (s : string) : bool :=
  match s with
  | EmptyString => false
  | String d s' => Ascii.eqb c d || scontains_byte c s'
  end.

Definition bytes_of (s : string) : list ascii := list_ascii_of_string s.

(** ** Package strings *)

Fixpoint has_prefix (p s : string) : bool :=
  match p, s with
  | EmptyString, _ => true
  | String _ _, EmptyString => false
  | String a p', String b s' => Ascii.eqb a b && has_prefix p' s'
  end.

(** [strings.Index]: the offset of the first occurrence. *)
Fixpoint index (sub s : string) : option nat :=
  if has_prefix sub s then Some 0%nat
  else match s with
       | EmptyString => None
       | String _ s' => option_map S (index sub s')
       end.

Definition contains (s sub : string) : bool :=
  match index sub s with Some _ => true | None => false end.

(** [strings.Cut]: around the first occurrence of the separator. *)
Definition cut (s sep : string) : string * string * bool :=
  match index sep s with
  | Some i => (stake i s, sdrop (i + String.length sep) s, true)
  | None => (s, EmptyString, false)
  end.

(** [strings.Split] with a one-byte separator. *)
Fixpoint split_byte (sep : ascii) (s : string) : list string :=
  match s with
  | EmptyString => [EmptyString]
  | String c s' =>
      if Ascii.eqb c sep then EmptyString :: split_byte sep s'
      else match split_byte sep s' with
           | [] => [String c EmptyString]
           | w :: ws => String c w :: ws
           end
  end.

Fixpoint join (sep : string) (l : list string) : string :=
  match l with
  | [] => EmptyString
  | [w] => w
  | w :: l' => w +:+ sep +:+ join sep l'
  end.

Fixpoint concat_strings (l : list string) : string :=
  match l with
  | [] => EmptyString
  | w :: l' => w +:+ concat_strings l'
  end.

(** [strings.ReplaceAll] with a non-empty pattern: leftmost, non-overlapping.
    [skip] counts the bytes of the current match still to be consumed. *)
Fixpoint replace_from (old new : string) (skip : nat) (s : string) : string :=
  match s with
  | EmptyString => EmptyString
  | String c s' =>
      match skip with
      | S k => replace_from old new k s'
      | O => if has_prefix old s
             then new +:+ replace_from old new (String.length old - 1) s'
             else String c (replace_from old new 0 s')
      end
  end.

Definition replace_all (s old new : string) : string := replace_from old new 0 s.

Fixpoint trim_left (p : ascii -> bool) (s : string) : string :=
  match s with
  | EmptyString => EmptyString
  | String c s' => if p c then trim_left p s' else s
  end.

Fixpoint trim_right (p : ascii -> bool) (s : string) : string :=
  match s with
  | EmptyString => EmptyString
  | String c s' =>
      match trim_right p s' with
      | EmptyString => if p c then EmptyString else String c EmptyString
      | t => String c t
      end
  end.

Definition trim_space (s : string) : string := trim_right is_space (trim_left is_space s).

Definition trim_prefix (s p : string) : string :=
  if has_prefix p s then sdrop (String.length p) s else s.

Definition lower_ascii (s : string) : string := smap lower_byte s.

(** ** Package strconv *)

Definition digit_char (d : Z) : ascii := byte_at (48 + d).

(** Decimal digits, most significant first; [fuel] bounds the digit count. *)
Fixpoint digits_of (fuel : nat) (z : Z) (acc : string) : string :=
  match fuel with
  | O => acc
  | S f => let acc' := String (digit_char (z mod 10)) acc in
           if z <? 10 then acc' else digits_of f (z / 10) acc'
  end.

Definition utoa (z : Z) : string :=
  digits_of (S (Z.to_nat (Z.log2 z))) z EmptyString.

Definition itoa (z : Z) : string :=
  if z <? 0 then "-" +:+ utoa (- z) else utoa z.

(** [fmt]'s [%q] ([strconv.Quote]) on text whose non-ASCII runes are printable. *)
Definition hex_digit (d : Z) : ascii := if d <? 10 then byte_at (48 + d) else byte_at (87 + d).
Definition dquote : string := chr 34.
Definition backslash : string := chr 92.

Definition quote_byte (c : ascii) : string :=
  let v := byte_val c in
  if (v =? 34) || (v =? 92) then backslash +:+ String c ""
  else if v =? 7 then backslash +:+ "a" else if v =? 8 then backslash +:+ "b"
  else if v =? 12 then backslash +:+ "f" else if v =? 10 then backslash +:+ "n"
  else if v =? 13 then backslash +:+ "r" else if v =? 9 then backslash +:+ "t"
  else if v =? 11 then backslash +:+ "v"
  else if (v <? 32) || (v =? 127)
       then backslash +:+ "x" +:+ String (hex_digit (v / 16)) (String (hex_digit (v mod 16)) "")
  else String c "".

Definition go_quote (s : string) : string :=
  dquote +:+ concat_strings (map quote_byte (bytes_of s)) +:+ dquote.

(** ** Package net/http *)

(** [http.Header]: keys in canonical form, the first letter of every word
    between dashes upper case and the rest lower case. *)
Fixpoint canonical_from (up : bool) (s : string) : string :=
  match s with
  | EmptyString => EmptyString
  | String c s' =>
      String (if up then (if is_lower c then byte_at (byte_val c - 32) else c) else lower_byte c)
             (canonical_from (Ascii.eqb c "-") s')
  end.
Definition CanonicalHeaderKey (s : string) : string := canonical_from true s.

Definition header_set (h : gmap string string) (k v : string) : gmap string string :=
  <[CanonicalHeaderKey k := v]> h.
Definition header_get (h : gmap string string) (k : string) : string :=
  default "" (h !! CanonicalHeaderKey k).

Example itoa_0 : itoa 0 = "0". Proof. reflexivity. Qed.
Example itoa_neg : itoa (-1203) = "-1203". Proof. reflexivity. Qed.
Example itoa_big : itoa 9223372036854775807 = "9223372036854775807". Proof. reflexivity. Qed.
Example replace_ex : replace_all "aXbXX" "X" "yy" = "ayybyyyy". Proof. reflexivity. Qed.
Example split_ex : split_byte (byte_at 44) "a,,b" = ["a"; ""; "b"]. Proof. reflexivity. Qed.
Example trim_ex : trim_space "  a b " = "a b". Proof. reflexivity. Qed.

(** ** Lemmas *)

Lemma sapp_nil_r s : s +:+ "" = s.
Proof. induction s as [|c s IH]; [done|]. change (String c (s +:+ "") = String c s). by rewrite IH. Qed.

Lemma sapp_cons c s t : String c s +:+ t = String c (s +:+ t).
Proof. done. Qed.

Lemma sapp_nil_l t : "" +:+ t = t.
Proof. done. Qed.

Lemma sapp_assoc s t u : (s +:+ t) +:+ u = s +:+ (t +:+ u).
Proof. induction s as [|c s IH]; [done|]. by rewrite !sapp_cons, IH. Qed.

Lemma slength_app s t : String.length (s +:+ t) = (String.length s + String.length t)%nat.
Proof. induction s as [|c s IH]; [done|]. rewrite sapp_cons. simpl. by rewrite IH. Qed.

Lemma slen_app s t : slen (s +:+ t) = slen s + slen t.
Proof. unfold slen. rewrite slength_app. lia. Qed.

Lemma slen_nonneg s : 0 <= slen s.
Proof. unfold slen. lia. Qed.

Lemma sapp_inj_l s t u : s +:+ t = s +:+ u -> t = u.
Proof. induction s as [|c s IH]; [done|]. rewrite !sapp_cons. intros [=]. auto. Qed.

Lemma stake_sdrop n s : stake n s +:+ sdrop n s = s.
Proof.
  revert s; induction n as [|n IH]; intros [|c s]; [done..|].
  simpl. by rewrite sapp_cons, IH.
Qed.

Lemma stake_app_length s t : stake (String.length s) (s +:+ t) = s.
Proof. induction s as [|c s IH]; [by destruct t|]. rewrite sapp_cons; simpl. by rewrite IH. Qed.

Lemma sdrop_app_length s t : sdrop (String.length s) (s +:+ t) = t.
Proof. induction s as [|c s IH]; [done|]. by rewrite sapp_cons. Qed.

Lemma sdrop_app_ge s t n :
  sdrop (String.length s + n) (s +:+ t) = sdrop n t.
Proof. induction s as [|c s IH]; [done|]. by rewrite sapp_cons. Qed.

Lemma slength_stake n s : String.length (stake n s) = Nat.min n (String.length s).
Proof. revert s; induction n as [|n IH]; intros [|c s]; simpl; [done..|]. by rewrite IH. Qed.

Lemma slength_sdrop n s : String.length (sdrop n s) = (String.length s - n)%nat.
Proof. revert s; induction n as [|n IH]; intros [|c s]; simpl; [done..|]. by rewrite IH. Qed.

Lemma sdrop_nil n : sdrop n "" = "".
Proof. by destruct n. Qed.

Lemma sdrop_sdrop n m s : sdrop n (sdrop m s) = sdrop (m + n) s.
Proof.
  revert s; induction m as [|m IH]; intros s; [done|].
  destruct s as [|c s]; simpl; [by rewrite sdrop_nil|apply IH].
Qed.

Lemma stake_all n s : (String.length s <= n)%nat -> stake n s = s.
Proof.
  revert s; induction n as [|n IH]; intros [|c s]; simpl; intros; try done; [lia|].
  rewrite IH; [done|lia].
Qed.

Lemma has_prefix_app p s : has_prefix p s = true <-> exists t, s = p +:+ t.
Proof.
  revert s; induction p as [|a p IH]; intros s; simpl.
  - split; eauto.
  - destruct s as [|b s].
    + split; [done|]. intros [t Ht]. by rewrite sapp_cons in Ht.
    + rewrite andb_true_iff, Ascii.eqb_eq, IH. split.
      * intros [-> [t ->]]. by exists t.
      * intros [t Ht]. rewrite sapp_cons in Ht. simplify_eq. eauto.
Qed.

Lemma has_prefix_refl p t : has_prefix p (p +:+ t) = true.
Proof. apply has_prefix_app. eauto. Qed.

Lemma has_prefix_app_l p s t : has_prefix p s = true -> has_prefix p (s +:+ t) = true.
Proof. rewrite !has_prefix_app. intros [u ->]. rewrite sapp_assoc. eauto. Qed.

(** A found index splits the string at an occurrence. *)
Lemma index_Some sub s i :
  index sub s = Some i -> s = stake i s +:+ sub +:+ sdrop (i + String.length sub) s.
Proof.
  revert i; induction s as [|c s IH]; intros i; simpl.
  - destruct sub; simpl; [|done]. intros [= <-]. done.
  - destruct (has_prefix sub (String c s)) eqn:Hp.
    + intros [= <-]. apply has_prefix_app in Hp as [t Ht].
      simpl. rewrite Ht. by rewrite sdrop_app_length.
    + destruct (index sub s) as [j|] eqn:Hj; [|done]. intros [= <-].
      simpl. rewrite sapp_cons. f_equal. by apply IH.
Qed.

(** ** One-byte search, used by the streaming code *)

Lemma index_byte_None c s :
  index (String c "") s = None <-> scontains_byte c s = false.
Proof.
  induction s as [|d s IH]; simpl; [done|].
  destruct (Ascii.eqb c d) eqn:E; simpl; [done|].
  rewrite <- IH. destruct (index (String c "") s); done.
Qed.

Lemma index_byte_Some c s i :
  index (String c "") s = Some i ->
  exists a b, s = a +:+ String c b /\ scontains_byte c a = false /\ String.length a = i.
Proof.
  revert i; induction s as [|d s IH]; intros i; simpl; [done|].
  destruct (Ascii.eqb c d) eqn:E; simpl.
  - intros [= <-]. apply Ascii.eqb_eq in E as ->. by exists "", s.
  - destruct (index (String c "") s) as [j|] eqn:Hj; [|done].
    intros [= <-]. destruct (IH j eq_refl) as (a & b & -> & Ha & Hl).
    exists (String d a), b. split; [done|]. simpl. by rewrite E, Ha, Hl.
Qed.

Lemma index_byte_app c a b :
  scontains_byte c a = false ->
  index (String c "") (a +:+ String c b) = Some (String.length a).
Proof.
  induction a as [|d a IH]; intros Ha.
  - rewrite sapp_nil_l. simpl. by rewrite Ascii.eqb_refl.
  - apply orb_false_iff in Ha as [Hd Ha].
    rewrite sapp_cons. simpl. rewrite Hd. simpl. by rewrite IH.
Qed.

Lemma scontains_byte_app c s t :
  scontains_byte c (s +:+ t) = scontains_byte c s || scontains_byte c t.
Proof.
  induction s as [|d s IH]; [done|]. rewrite sapp_cons; simpl.
  by rewrite IH, orb_assoc.
Qed.

Lemma concat_strings_app l k :
  concat_strings (l ++ k) = concat_strings l +:+ concat_strings k.
Proof. induction l as [|w l IH]; [done|]. simpl. by rewrite IH, sapp_assoc. Qed.

Lemma sforall_app p s t : sforall p (s +:+ t) = sforall p s && sforall p t.
Proof. induction s as [|d s IH]; [done|]. rewrite sapp_cons; simpl. by rewrite IH, andb_assoc. Qed.

(** ** Decimal numbers *)

Definition digit_of_byte (c : ascii) : Z := byte_val c - 48.

Fixpoint parse_dec (s : string) (a : Z) : Z :=
  match s with EmptyString => a | String c s' => parse_dec s' (a * 10 + digit_of_byte c) end.

Lemma byte_val_at n : 0 <= n < 256 -> byte_val (byte_at n) = n.
Proof.
  intros H. unfold byte_val, byte_at. rewrite N_ascii_embedding by lia. lia.
Qed.

Lemma digits_of_parse fuel : forall z acc, 0 <= z < 10 ^ Z.of_nat fuel ->
  parse_dec (digits_of fuel z acc) 0 = parse_dec acc z.
Proof.
  induction fuel as [|f IH]; intros z acc Hz; [simpl in Hz; by replace z with 0 by lia|].
  assert (digit_of_byte (digit_char (z mod 10)) = z mod 10) as Hd.
  { unfold digit_of_byte, digit_char. pose proof (Z.mod_pos_bound z 10). rewrite byte_val_at by lia. lia. }
  cbn [digits_of]. destruct (Z.ltb_spec z 10).
  - cbn [parse_dec]. rewrite Hd, Z.mod_small by lia. done.
  - rewrite IH.
    + cbn [parse_dec]. rewrite Hd. f_equal. pose proof (Z.div_mod z 10). lia.
    + split; [apply Z.div_pos; lia|]. apply Z.div_lt_upper_bound; [lia|].
      rewrite Nat2Z.inj_succ, Z.pow_succ_r in Hz by lia. lia.
Qed.

Lemma utoa_parse z : 0 <= z -> parse_dec (utoa z) 0 = z.
Proof.
  intros H. unfold utoa. rewrite digits_of_parse; [done|]. split; [done|].
  rewrite Nat2Z.inj_succ, Z2Nat.id by apply Z.log2_nonneg.
  destruct (Z.eq_dec z 0) as [->|]; [simpl; lia|].
  pose proof (Z.log2_spec z ltac:(lia)). eapply Z.lt_le_trans; [apply H0|].
  apply Z.pow_le_mono_l. lia.
Qed.

Lemma utoa_inj a b : 0 <= a -> 0 <= b -> utoa a = utoa b -> a = b.
Proof. intros Ha Hb E. rewrite <- (utoa_parse a), <- (utoa_parse b), E by done. done. Qed.

Lemma digits_of_digits fuel : forall z acc, sforall is_digit acc = true -> sforall is_digit (digits_of fuel z acc) = true.
Proof.
  induction fuel as [|f IH]; intros z acc Ha; cbn [digits_of]; [done|].
  assert (sforall is_digit (String (digit_char (z mod 10)) acc) = true) as Hd.
  { cbn [sforall]. rewrite Ha, andb_true_r. unfold is_digit, byte_in, digit_char.
    pose proof (Z.mod_pos_bound z 10). rewrite byte_val_at by lia.
    apply andb_true_iff; rewrite !Z.leb_le; lia. }
  destruct (z <? 10); auto.
Qed.

Lemma utoa_digits z : sforall is_digit (utoa z) = true.
Proof. by apply digits_of_digits. Qed.

Lemma sforall_impl (p q : ascii -> bool) s : (forall c, p c = true -> q c = true) -> sforall p s = true -> sforall q s = true.
Proof.
  intros H. induction s as [|c s IH]; simpl; [done|]. rewrite !andb_true_iff. intros [? ?]; auto.
Qed.

#[export] Hint Rewrite sapp_nil_r sapp_nil_l sapp_cons sapp_assoc : gostr.
#[export] Hint Rewrite slength_app slength_stake slength_sdrop : golen.
Ltac gostr := autorewrite with gostr.

(** ** UTF-8 (unicode/utf8) *)

(** The length in bytes of the first rune of a non-empty string: 1 where the bytes
    are not valid UTF-8. *)
Definition cont (lo hi : Z) (s : string) (n : nat) : bool :=
  match String.get n s with Some c => byte_in lo hi c | None => false end.

Definition rune_size (s : string) : nat :=
  match s with
  | EmptyString => O
  | String c _ =>
      let v := byte_val c in
      let tail lo hi n := cont lo hi s 1 && forallb (cont 128 191 s) (seq 2 (n - 2)) in
      if byte_in 194 223 c then if tail 128 191 2%nat then 2%nat else 1%nat
      else if v =? 224 then if tail 160 191 3%nat then 3%nat else 1%nat
      else if v =? 237 then if tail 128 159 3%nat then 3%nat else 1%nat
      else if byte_in 225 239 c then if tail 128 191 3%nat then 3%nat else 1%nat
      else if v =? 240 then if tail 144 191 4%nat then 4%nat else 1%nat
      else if v =? 244 then if tail 128 143 4%nat then 4%nat else 1%nat
      else if byte_in 241 243 c then if tail 128 191 4%nat then 4%nat else 1%nat
      else 1%nat
  end.

Fixpoint rune_count (fuel : nat) (s : string) : Z :=
  match fuel, s with
  | S f, String _ _ => 1 + rune_count f (sdrop (rune_size s) s)
  | _, _ => 0
  end.

Definition RuneCountInString (s : string) : Z := rune_count (String.length s) s.

Definition RuneError : Z := 65533.

(** [utf8.DecodeRuneInString] of a non-empty string: the rune and its size. *)
Definition decode_rune (s : string) : Z * nat :=
  let b n := match String.get n s with Some c => byte_val c | None => 0 end in
  match rune_size s with
  | 1%nat => ((if b 0%nat <? 128 then b 0%nat else RuneError), 1%nat)
  | 2%nat => ((b 0%nat - 192) * 64 + (b 1%nat - 128), 2%nat)
  | 3%nat => ((b 0%nat - 224) * 4096 + (b 1%nat - 128) * 64 + (b 2%nat - 128), 3%nat)
  | n => ((b 0%nat - 240) * 262144 + (b 1%nat - 128) * 4096 + (b 2%nat - 128) * 64 + (b 3%nat - 128), n)
  end.

(** [strings.HasSuffix] *)
Fixpoint has_suffix_at (suf s : string) : bool :=
  String.eqb s suf || match s with EmptyString => false | String _ s' => has_suffix_at suf s' end.

Definition has_suffix (suf s : string) : bool := has_suffix_at suf s.

(** [strconv.Atoi]; [None] is any of its errors. *)
Definition Atoi (s : string) : option Z :=
  let '(neg, d) := match s with
                   | String c s' => if Ascii.eqb c "-" then (true, s') else if Ascii.eqb c "+" then (false, s') else (false, s)
                   | EmptyString => (false, s)
                   end in
  if String.eqb d "" || negb (sforall is_digit d) then None
  else let n := if neg then - parse_dec d 0 else parse_dec d 0 in
       if (int64_min <=? n) && (n <=? int64_max) then Some n else None.

Lemma digits_of_nonempty f : forall z acc, acc <> "" -> digits_of f z acc <> "".
Proof. induction f as [|f IH]; intros z acc H; cbn; [done|]. destruct (z <? 10); [done|]. by apply IH. Qed.

Lemma utoa_nonempty z : utoa z <> "".
Proof. unfold utoa. cbn [digits_of]. destruct (z <? 10); [done|]. by apply digits_of_nonempty. Qed.

(** What [fmt.Sprint] writes of a non-negative number, [Atoi] reads. *)
Lemma Atoi_itoa n : in_int64 n -> 0 <= n -> Atoi (itoa n) = Some n.
Proof.
  intros [H1 H2] H. unfold itoa. replace (n <? 0) with false by (symmetry; apply Z.ltb_ge; lia).
  pose proof (utoa_digits n) as Hd. pose proof (utoa_parse n H) as Hp. pose proof (utoa_nonempty n) as Hne. unfold Atoi.
  destruct (utoa n) as [|c s]; [done|]. cbn [sforall] in Hd. apply andb_true_iff in Hd as [Hc Hd].
  destruct (Ascii.eqb_spec c "-") as [->|_]; [done|]. destruct (Ascii.eqb_spec c "+") as [->|_]; [done|].
  cbn [String.eqb sforall orb]. rewrite Hc, Hd, Hp. cbn [andb negb].
  replace (int64_min <=? n) with true by (symmetry; apply Z.leb_le; lia).
  by replace (n <=? int64_max) with true by (symmetry; apply Z.leb_le; lia).
Qed.

(** ** Splitting and joining, trimming *)

Lemma split_byte_app c s t : split_byte c (s +:+ String c t) = split_byte c s ++ split_byte c t.
Proof.
  induction s as [|x s IH]; [simpl; by rewrite Ascii.eqb_refl|]. rewrite sapp_cons. cbn [split_byte]. rewrite IH.
  destruct (Ascii.eqb x c); [done|]. by destruct (split_byte c s) eqn:E; [destruct s; simpl in E; repeat case_match|].
Qed.

Lemma split_byte_one c s : scontains_byte c s = false -> split_byte c s = [s].
Proof.
  induction s as [|x s IH]; [done|]. cbn [scontains_byte split_byte]. rewrite orb_false_iff. intros [Hx Hs].
  rewrite Ascii.eqb_sym in Hx. rewrite Hx, IH by done. done.
Qed.

Lemma split_nonempty c s : split_byte c s <> [].
Proof. destruct s as [|d s]; simpl; [done|]. destruct (Ascii.eqb d c); [done|]. by destruct (split_byte c s). Qed.

Lemma join_split c s : join (String c "") (split_byte c s) = s.
Proof.
  induction s as [|d s IH]; [done|]. cbn [split_byte].
  destruct (Ascii.eqb_spec d c) as [->|].
  - pose proof (split_nonempty c s). destruct (split_byte c s) as [|w ws] eqn:E; [done|]. rewrite <- E in *.
    change (join (String c "") ("" :: split_byte c s)) with
      (match split_byte c s with [] => "" | _ => "" +:+ String c "" +:+ join (String c "") (split_byte c s) end).
    by rewrite E, <- E, IH.
  - destruct (split_byte c s) as [|w ws]; [by destruct s|]. destruct ws; simpl in *; by rewrite <- IH.
Qed.

Lemma join_app c l l' : l <> [] -> l' <> [] -> join c (l ++ l') = join c l +:+ c +:+ join c l'.
Proof.
  intros Hl Hl'. induction l as [|x l IH]; [done|]. destruct l as [|y l]; [by destruct l'|].
  change ((x :: y :: l) ++ l') with (x :: (y :: l) ++ l'). change (join c (x :: y :: l)) with (x +:+ c +:+ join c (y :: l)).
  rewrite !sapp_assoc, <- IH by done. done.
Qed.

(** Parts without the separator come back. *)
Lemma split_join c l : l <> [] -> Forall (fun s => scontains_byte c s = false) l -> split_byte c (join (String c "") l) = l.
Proof.
  intros Hl H. induction H as [|x l Hx H IH]; [done|]. destruct l as [|y l]; [by apply split_byte_one|].
  change (join (String c "") (x :: y :: l)) with (x +:+ String c (join (String c "") (y :: l))).
  rewrite split_byte_app, split_byte_one, IH by done. done.
Qed.

Lemma sforall_no_byte p c s : p c = false -> sforall p s = true -> scontains_byte c s = false.
Proof.
  intros Hc. induction s as [|d s IH]; [done|]. cbn [sforall scontains_byte]. intros [Hd Hs]%andb_true_iff.
  rewrite IH by done. destruct (Ascii.eqb_spec c d) as [->|]; [congruence|done].
Qed.

Lemma trim_right_all p s : sforall p s = true -> trim_right p s = "".
Proof. induction s as [|c s IH]; [done|]. cbn [sforall trim_right]. intros [Hc Hs]%andb_true_iff. by rewrite IH, Hc. Qed.

Lemma trim_right_stop p s d t : p d = false -> sforall p t = true -> trim_right p (s +:+ String d t) = s +:+ String d "".
Proof.
  intros Hd Ht. induction s as [|c s IH].
  - rewrite !sapp_nil_l. cbn [trim_right]. by rewrite trim_right_all, Hd.
  - rewrite !sapp_cons. cbn [trim_right]. rewrite IH. by destruct s.
Qed.

(** A text whose ends are not white space, with white space after it. *)
Lemma trim_space_tight s c m d : is_space c = false -> is_space d = false -> s = String c m -> (exists m', s = m' +:+ String d "") ->
  forall t, sforall is_space t = true -> trim_space (s +:+ t) = s.
Proof.
  intros Hc Hd E [m' Em] t Ht. unfold trim_space.
  assert (trim_left is_space (s +:+ t) = s +:+ t) as -> by (rewrite E, sapp_cons; cbn [trim_left]; by rewrite Hc).
  rewrite Em, sapp_assoc. change (String d "" +:+ t) with (String d t). by apply trim_right_stop.
Qed.

(** ** Occurrences *)

Lemma contains_iff s sub : contains s sub = true <-> exists a b, s = a +:+ sub +:+ b.
Proof.
  unfold contains. split.
  - destruct (index sub s) as [i|] eqn:E; [|done]. apply index_Some in E. eauto.
  - intros (a & b & ->). assert (exists i, index sub (a +:+ sub +:+ b) = Some i) as [i ->]; [|done].
    induction a as [|c a [i IH]].
    + exists 0%nat. change ("" +:+ sub +:+ b) with (sub +:+ b). pose proof (has_prefix_refl sub b) as H.
      destruct (sub +:+ b) as [|c t] eqn:E; cbn [index]; [|by rewrite H]. destruct sub; [done|by destruct b].
    + rewrite sapp_cons. cbn [index]. destruct (has_prefix sub _); [by eexists|]. rewrite IH. by eexists.
Qed.

(** A byte that the text sought does not hold separates what it is sought in. *)
Lemma contains_separated x c y sub : sub <> "" -> scontains_byte c sub = false -> contains (x +:+ String c y) sub = contains x sub || contains y sub.
Proof.
  intros Hne Hc. apply eq_true_iff_eq. rewrite orb_true_iff, !contains_iff. split.
  - intros (a & b & E). revert a E. induction x as [|d x IH]; intros a E.
    + destruct a as [|e a].
      * destruct sub as [|e sub]; [done|]. injection E as -> _. cbn in Hc. by rewrite Ascii.eqb_refl in Hc.
      * injection E as _ E. right. by exists a, b.
    + destruct a as [|e a].
      * left. revert E. rewrite sapp_nil_l. clear IH. intros E. exists "". change ("" +:+ sub +:+ ?b) with (sub +:+ b).
        assert (forall s t, s +:+ String c y = sub +:+ t -> scontains_byte c sub = false -> exists b, s = sub +:+ b) as Hp.
        { clear. induction sub as [|e sub IH]; intros s t E Hc; [by exists s|]. cbn in Hc. apply orb_false_iff in Hc as [He Hc].
          destruct s as [|e' s]; [injection E as <- _; by rewrite Ascii.eqb_refl in He|]. injection E as -> E. destruct (IH s t E Hc) as [b' ->]. by exists b'. }
        by apply (Hp (String d x) b).
      * injection E as -> E. destruct (IH a E) as [(a' & b' & ->)|H]; [left; exists (String e a'), b'; done|by right].
  - intros [(a & b & ->)|(a & b & ->)].
    + exists a, (b +:+ String c y). by rewrite !sapp_assoc.
    + exists (x +:+ String c a), b. by rewrite !sapp_assoc, sapp_cons.
Qed.

Lemma contains_app_false s t sub : contains (s +:+ t) sub = false -> contains s sub = false /\ contains t sub = false.
Proof.
  intros H. rewrite <- !not_true_iff_false, !contains_iff in *. split; intros (a & b & ->); apply H.
  - exists a, (b +:+ t). by rewrite !sapp_assoc.
  - exists (s +:+ a), b. by rewrite !sapp_assoc.
Qed.
