(* ===== verification/Encoding.v ===== *)
(** * Encodings: base64, hexadecimal, and decoded JSON *)

From S2P Require Import Prelude GoStrings.

Open Scope string_scope.
Open Scope list_scope.
Open Scope Z_scope.

(** ** encoding/base64 and encoding/hex

    Hexadecimal, and [base64.StdEncoding]: encoding with padding, and decoding that
    skips line ends, requires the padding and accepts nothing after it.  Decoding an
    encoding gives the bytes back. *)

Definition std_char (n : Z) : ascii :=
  if n <? 26 then byte_at (65 + n) else if n <? 52 then byte_at (71 + n) else if n <? 62 then byte_at (n - 4)
  else if n =? 62 then "+"%char else "/"%char.

Definition std_value (c : ascii) : option Z :=
  let v := byte_val c in
  if byte_in 65 90 c then Some (v - 65) else if byte_in 97 122 c then Some (v - 71)
  else if byte_in 48 57 c then Some (v + 4) else if v =? 43 then Some 62 else if v =? 47 then Some 63 else None.

Definition pad : ascii := "="%char.

(** [StdEncoding.EncodeToString] *)
Fixpoint EncodeToString (s : string) : string :=
  match s with
  | EmptyString => ""
  | String a EmptyString =>
      let x := byte_val a * 65536 in
      String (std_char (x / 262144)) (String (std_char (x / 4096 mod 64)) (String pad (String pad "")))
  | String a (String b EmptyString) =>
      let x := (byte_val a * 256 + byte_val b) * 256 in
      String (std_char (x / 262144)) (String (std_char (x / 4096 mod 64)) (String (std_char (x / 64 mod 64)) (String pad "")))
  | String a (String b (String c s')) =>
      let x := (byte_val a * 256 + byte_val b) * 256 + byte_val c in
      String (std_char (x / 262144)) (String (std_char (x / 4096 mod 64)) (String (std_char (x / 64 mod 64))
        (String (std_char (x mod 64)) (EncodeToString s'))))
  end.

(** A quantum of four digits; without the trailing ones their bits are zero. *)
Definition quantum (a b c d : ascii) : option Z :=
  match std_value a, std_value b, std_value c, std_value d with
  | Some a, Some b, Some c, Some d => Some (((a * 64 + b) * 64 + c) * 64 + d)
  | _, _, _, _ => None
  end.

Fixpoint decode_quanta (s : string) : option string :=
  match s with
  | EmptyString => Some ""
  | String a (String b (String c (String d r))) =>
      if Ascii.eqb d pad then
        if negb (String.eqb r "") then None
        else if Ascii.eqb c pad then option_map (fun x => String (byte_at (x / 65536)) "") (quantum a b "A" "A")
        else option_map (fun x => String (byte_at (x / 65536)) (String (byte_at (x / 256 mod 256)) "")) (quantum a b c "A")
      else
        match quantum a b c d, decode_quanta r with
        | Some x, Some t => Some (String (byte_at (x / 65536)) (String (byte_at (x / 256 mod 256)) (String (byte_at (x mod 256)) t)))
        | _, _ => None
        end
  | _ => None
  end.

Definition is_line_end (c : ascii) : bool := (byte_val c =? 10) || (byte_val c =? 13).

Fixpoint drop_line_ends (s : string) : string :=
  match s with
  | EmptyString => ""
  | String c s' => if is_line_end c then drop_line_ends s' else String c (drop_line_ends s')
  end.

(** [StdEncoding.DecodeString]; its error is a [CorruptInputError]. *)
Definition DecodeString (s : string) : option string := decode_quanta (drop_line_ends s).

Example DecodeString_ex : map DecodeString ["Zg=="; "Zm9v" +:+ newline +:+ "Zm8="; "Zg"; "Zg==Zg=="; "Z*=="; "" ; "Zh=="] =
  [Some "f"; Some "foofo"; None; None; None; Some ""; Some "f"].
Proof. reflexivity. Qed.

(** *** Round trip *)

Lemma byte_val_range c : 0 <= byte_val c < 256.
Proof.
  unfold byte_val. pose proof (N_ascii_bounded c). lia.
Qed.

Lemma byte_at_val c : byte_at (byte_val c) = c.
Proof. unfold byte_at, byte_val. rewrite N2Z.id. apply ascii_N_embedding. Qed.

Lemma std_digits n : 0 <= n < 64 -> std_value (std_char n) = Some n /\ std_char n <> pad /\ is_line_end (std_char n) = false.
Proof.
  intros H.
  assert (forallb (fun k => let n := Z.of_nat k in bool_decide (std_value (std_char n) = Some n) && negb (Ascii.eqb (std_char n) pad)
    && negb (is_line_end (std_char n))) (seq 0 64) = true) as Hall by (vm_compute; reflexivity).
  rewrite forallb_forall in Hall. specialize (Hall (Z.to_nat n)). rewrite in_seq in Hall. specialize (Hall ltac:(lia)).
  rewrite Z2Nat.id in Hall by lia. apply andb_true_iff in Hall as [[H1 H2]%andb_true_iff H3].
  apply bool_decide_eq_true in H1. rewrite negb_true_iff in H2, H3. split_and!; [done| |done].
  intros Heq. rewrite Heq, Ascii.eqb_refl in H2. done.
Qed.

Lemma std_digit_quantum x : 0 <= x < 16777216 ->
  quantum (std_char (x / 262144)) (std_char (x / 4096 mod 64)) (std_char (x / 64 mod 64)) (std_char (x mod 64)) = Some x.
Proof.
  intros H. unfold quantum.
  rewrite !(fun n H => proj1 (std_digits n H)) by (Z.to_euclidean_division_equations; lia).
  f_equal. Z.to_euclidean_division_equations; lia.
Qed.

(** Induction three bytes at a time. *)
Lemma triples_ind (P : string -> Prop) : P "" -> (forall a, P (String a "")) -> (forall a b, P (String a (String b ""))) ->
  (forall a b c s, P s -> P (String a (String b (String c s)))) -> forall s, P s.
Proof.
  intros H0 H1 H2 H3 s.
  assert (P s /\ (forall a, P (String a s)) /\ (forall a b, P (String a (String b s)))) as H; [|apply H].
  induction s as [|c s (IH0 & IH1 & IH2)]; [done|]. split_and!; auto.
Qed.

Ltac b64_ranges :=
  repeat match goal with
  | c : ascii |- _ => lazymatch goal with H : 0 <= byte_val c < 256 |- _ => fail | _ => pose proof (byte_val_range c) end
  end.

Lemma drop_line_ends_encoded s : drop_line_ends (EncodeToString s) = EncodeToString s.
Proof.
  induction s as [|a|a b|a b c s IH] using triples_ind; [done|..]; cbn [EncodeToString drop_line_ends]; b64_ranges;
    rewrite !(fun n H => proj2 (proj2 (std_digits n H))) by (Z.to_euclidean_division_equations; lia); [done|done|by rewrite IH].
Qed.

Lemma base64_roundtrip s : DecodeString (EncodeToString s) = Some s.
Proof.
  unfold DecodeString. rewrite drop_line_ends_encoded.
  induction s as [|a|a b|a b c s IH] using triples_ind; [done|..]; cbn [EncodeToString decode_quanta]; b64_ranges.
  - rewrite !Ascii.eqb_refl. cbn [negb String.eqb].
    replace "A"%char with (std_char 0) at 1 2 by reflexivity.
    set (x := byte_val a * 65536). pose proof (std_digit_quantum x ltac:(lia)) as Hq.
    replace (x / 64 mod 64) with 0 in Hq by (Z.to_euclidean_division_equations; lia).
    replace (x mod 64) with 0 in Hq by (Z.to_euclidean_division_equations; lia). rewrite Hq. cbn [option_map].
    replace (x / 65536) with (byte_val a) by (Z.to_euclidean_division_equations; lia). by rewrite byte_at_val.
  - set (x := (byte_val a * 256 + byte_val b) * 256). pose proof (std_digit_quantum x ltac:(lia)) as Hq.
    rewrite Ascii.eqb_refl. cbn [negb String.eqb].
    destruct (Ascii.eqb_spec (std_char (x / 64 mod 64)) pad) as [He|_];
      [exfalso; eapply (std_digits (x / 64 mod 64)); [Z.to_euclidean_division_equations; lia|done]|].
    replace "A"%char with (std_char 0) by reflexivity.
    replace (x mod 64) with 0 in Hq by (Z.to_euclidean_division_equations; lia). rewrite Hq. cbn [option_map].
    replace (x / 65536) with (byte_val a) by (Z.to_euclidean_division_equations; lia).
    replace (x / 256 mod 256) with (byte_val b) by (Z.to_euclidean_division_equations; lia). by rewrite !byte_at_val.
  - set (x := (byte_val a * 256 + byte_val b) * 256 + byte_val c). pose proof (std_digit_quantum x ltac:(lia)) as Hq.
    destruct (Ascii.eqb_spec (std_char (x mod 64)) pad) as [He|_];
      [exfalso; eapply (std_digits (x mod 64)); [Z.to_euclidean_division_equations; lia|done]|].
    rewrite Hq, IH.
    replace (x / 65536) with (byte_val a) by (Z.to_euclidean_division_equations; lia).
    replace (x / 256 mod 256) with (byte_val b) by (Z.to_euclidean_division_equations; lia).
    replace (x mod 256) with (byte_val c) by (Z.to_euclidean_division_equations; lia). by rewrite !byte_at_val.
Qed.

(** *** Hexadecimal *)

(** [hex.DecodeString] *)
Definition hex_val (c : ascii) : option Z :=
  let v := byte_val c in
  if byte_in 48 57 c then Some (v - 48)
  else if byte_in 97 102 c then Some (v - 87)
  else if byte_in 65 70 c then Some (v - 55) else None.

Fixpoint hex_decode (s : string) : option string :=
  match s with
  | EmptyString => Some EmptyString
  | String a (String b s') =>
      match hex_val a, hex_val b, hex_decode s' with
      | Some x, Some y, Some t => Some (String (byte_at (16 * x + y)) t)
      | _, _, _ => None
      end
  | _ => None
  end.

(** [hex.EncodeToString] *)
Fixpoint hex_encode (s : string) : string :=
  match s with
  | EmptyString => EmptyString
  | String c s' => String (hex_digit (byte_val c / 16)) (String (hex_digit (byte_val c mod 16)) (hex_encode s'))
  end.

Lemma hex_digit_val d : 0 <= d < 16 -> hex_val (hex_digit d) = Some d.
Proof.
  intros H. assert (forallb (fun d => bool_decide (hex_val (hex_digit d) = Some d)) (map Z.of_nat (seq 0 16)) = true) as F by reflexivity.
  rewrite forallb_forall in F. specialize (F d). rewrite bool_decide_eq_true in F. apply F.
  apply in_map_iff. exists (Z.to_nat d). split; [lia|]. apply in_seq. lia.
Qed.

Lemma hex_roundtrip s : hex_decode (hex_encode s) = Some s.
Proof.
  induction s as [|c s IH]; [done|]. cbn [hex_encode hex_decode].
  pose proof (byte_val_range c) as Hc.
  rewrite !hex_digit_val, IH by (Z.to_euclidean_division_equations; lia).
  do 2 f_equal. rewrite <- Z.div_mod by lia. apply byte_at_val.
Qed.

(** ** JSON values

    What encoding/json decodes into an [any]: scalars, strings, arrays and objects,
    whose keys are kept as a list, with the induction principle that goes through
    the lists. *)

Inductive jval := JScalar (text : string) | JStr (s : string) | JArr (l : list jval) | JObj (l : list (string * jval)).

Section JvalInd.
Context (P : jval -> Prop) (Hscalar : forall t, P (JScalar t)) (Hstr : forall s, P (JStr s))
  (Harr : forall l, Forall P l -> P (JArr l)) (Hobj : forall l, Forall (fun kv => P kv.2) l -> P (JObj l)).

Fixpoint jval_nested (v : jval) : P v :=
  match v with
  | JScalar t => Hscalar t
  | JStr s => Hstr s
  | JArr l => Harr l ((fix go l : Forall P l := match l with [] => Forall_nil_2 _ | v :: l => Forall_cons_2 _ v l (jval_nested v) (go l) end) l)
  | JObj l => Hobj l ((fix go l : Forall (fun kv => P kv.2) l :=
      match l with [] => Forall_nil_2 _ | kv :: l => Forall_cons_2 _ kv l (jval_nested kv.2) (go l) end) l)
  end.
End JvalInd.
