(* ===== verification/GoFloat.v ===== *)
(** * float64

    Go's [float64] is IEEE-754 binary64.  The values and operations are those of
    the Standard Library's executable specification [SpecFloat] (53 bits of
    precision, maximal exponent 1024), so that every rounding of the program is
    the rounding of the model. *)

From Stdlib Require Export SpecFloat.
From S2P Require Import Prelude GoStrings.

Open Scope string_scope.
Open Scope list_scope.
Open Scope Z_scope.

Definition float64 := spec_float.

#[export] Instance float64_eq_dec : EqDecision spec_float.
Proof. solve_decision. Defined.

(** ** Operations *)

Definition f_of_Z (z : Z) : spec_float := binary_normalize 53 1024 z 0 false.
Definition fadd : spec_float -> spec_float -> spec_float := SFadd 53 1024.
Definition fsub : spec_float -> spec_float -> spec_float := SFsub 53 1024.
Definition fmul : spec_float -> spec_float -> spec_float := SFmul 53 1024.
Definition fdiv : spec_float -> spec_float -> spec_float := SFdiv 53 1024.
Definition fsqrt : spec_float -> spec_float := SFsqrt 53 1024.
Definition fabs : spec_float -> spec_float := SFabs.
Definition fltb : spec_float -> spec_float -> bool := SFltb.
Definition fleb : spec_float -> spec_float -> bool := SFleb.
Definition feqb : spec_float -> spec_float -> bool := SFeqb.
Definition fgtb (x y : spec_float) : bool := SFltb y x.
Definition fgeb (x y : spec_float) : bool := SFleb y x.

Definition f0 : spec_float := S754_zero false.
Definition f1 : spec_float := f_of_Z 1.

(** The decimal literal [n/d] of the source, [n] and [d] exact: the IEEE
    division rounds correctly, as the compiler's conversion does. *)
Definition f_lit (n d : Z) : spec_float := fdiv (f_of_Z n) (f_of_Z d).

Definition is_nan (x : spec_float) : bool :=
  match x with S754_nan => true | _ => false end.
Definition is_inf (x : spec_float) : bool :=
  match x with S754_infinity _ => true | _ => false end.
Definition is_neg (x : spec_float) : bool :=
  match x with
  | S754_zero s | S754_infinity s | S754_finite s _ _ => s
  | S754_nan => false
  end.

(** [math.Max] and [math.Min], special cases included. *)
Definition math_Max (x y : spec_float) : spec_float :=
  match x, y with
  | S754_infinity false, _ | _, S754_infinity false => S754_infinity false
  | S754_nan, _ | _, S754_nan => S754_nan
  | S754_zero sx, S754_zero sy => if sx then y else x
  | _, _ => if fgtb x y then x else y
  end.

Definition math_Min (x y : spec_float) : spec_float :=
  match x, y with
  | S754_infinity true, _ | _, S754_infinity true => S754_infinity true
  | S754_nan, _ | _, S754_nan => S754_nan
  | S754_zero sx, S754_zero sy => if sx then x else y
  | _, _ => if fltb x y then x else y
  end.

(** ** Integers from floats *)

(** The value of a finite float is [num/den] with [den] a power of two. *)
Definition f_num (x : spec_float) : Z :=
  match x with
  | S754_finite s m e => let v := Zpos m * 2 ^ Z.max 0 e in if s then - v else v
  | _ => 0
  end.
Definition f_den (x : spec_float) : Z :=
  match x with S754_finite _ _ e => 2 ^ Z.max 0 (- e) | _ => 1 end.

(** Conversion of an integral value to [int64]: outside the range (and for NaN
    and infinities, which the callers map to [None]) the result is the one of
    the amd64 instruction, the most negative integer. *)
Definition int64_of (z : option Z) : Z :=
  match z with
  | Some v => if (int64_min <=? v) && (v <=? int64_max) then v else int64_min
  | None => int64_min
  end.

Definition f_integral (x : spec_float) (f : Z -> Z -> Z) : option Z :=
  match x with
  | S754_nan | S754_infinity _ => None
  | _ => Some (f (f_num x) (f_den x))
  end.

(** [int64(x)]: truncation towards zero. *)
Definition f_to_int64 (x : spec_float) : Z := int64_of (f_integral x Z.quot).
(** [int64(math.Round(x))]: half away from zero. *)
Definition round_half_away (n d : Z) : Z :=
  Z.sgn n * ((2 * Z.abs n + d) / (2 * d)).
Definition f_round_int64 (x : spec_float) : Z := int64_of (f_integral x round_half_away).
(** [int64(math.Ceil(x))]. *)
Definition f_ceil_int64 (x : spec_float) : Z := int64_of (f_integral x (fun n d => - ((- n) / d))).

(** [d.Seconds()] *)
Definition Seconds (d : Duration) : spec_float :=
  fadd (f_of_Z (Z.quot d second)) (fdiv (f_of_Z (Z.rem d second)) (f_of_Z 1000000000)).

(** ** [fmt.Sprintf("%.nf", x)]: the exact value rounded half to even. *)

Definition round_half_even (n d : Z) : Z :=
  let q := n / d in let r := n mod d in
  if 2 * r <? d then q else if d <? 2 * r then q + 1
  else if Z.even q then q else q + 1.

Fixpoint pad_left (n : nat) (s : string) : string :=
  match n with
  | O => s
  | S n' => pad_left n' (String (byte_at 48) s)
  end.

Definition format_fixed (prec : nat) (x : spec_float) : string :=
  match x with
  | S754_nan => "NaN"
  | S754_infinity s => if s then "-Inf" else "+Inf"
  | _ =>
      let p := 10 ^ Z.of_nat prec in
      let v := round_half_even (Z.abs (f_num x) * p) (f_den x) in
      let frac := utoa (v mod p) in
      let sign := if is_neg x then "-" else "" in
      sign +:+ utoa (v / p) +:+
      match prec with
      | O => ""
      | _ => "." +:+ pad_left (prec - String.length frac) frac
      end
  end.

Example fmt_1 : format_fixed 6 (f_lit 5 2) = "2.500000". Proof. vm_compute. reflexivity. Qed.
Example fmt_2 : format_fixed 2 (f_lit (-1) 3) = "-0.33". Proof. vm_compute. reflexivity. Qed.
Example lit_70 : f_lit 70 100 = S754_finite false 6305039478318694 (-53). Proof. vm_compute. reflexivity. Qed.
Example round_ex : map f_round_int64 [f_lit 5 2; f_lit (-5) 2; f_lit 1 3] = [3; -3; 0].
Proof. vm_compute. reflexivity. Qed.

(** ** Ordering

    On non-NaN values the comparison is the lexicographic order of a rank, so
    that [fltb] is a strict weak order. *)

Definition f_rank (x : spec_float) : Z * Z * Z :=
  match x with
  | S754_zero _ | S754_nan => (0, 0, 0)
  | S754_infinity s => (if s then -2 else 2, 0, 0)
  | S754_finite s m e => if s then (-1, - e, - Zpos m) else (1, e, Zpos m)
  end.

Definition rank_lt (a b : Z * Z * Z) : Prop :=
  let '(a1, a2, a3) := a in let '(b1, b2, b3) := b in
  a1 < b1 \/ a1 = b1 /\ (a2 < b2 \/ a2 = b2 /\ a3 < b3).

Lemma fltb_rank x y :
  is_nan x = false -> is_nan y = false ->
  fltb x y = true <-> rank_lt (f_rank x) (f_rank y).
Proof.
  unfold fltb, SFltb.
  destruct x as [sx|sx| |sx mx ex], y as [sy|sy| |sy my ey]; simpl; try done;
    intros _ _; try (destruct sx); try (destruct sy); simpl;
    try (split; [done|lia]); try (split; [lia|done]).
  - destruct (Z.compare_spec ex ey) as [->|?|?].
    + destruct (Pos.compare_cont Eq mx my) eqn:E;
        change (Pos.compare_cont Eq mx my) with (Pos.compare mx my) in E;
        destruct (Pos.compare_spec mx my); simplify_eq/=; (split; [|lia]); intros; try done; lia.
    + split; [done|lia].
    + split; [lia|done].
  - destruct (Z.compare_spec ex ey) as [->|?|?].
    + destruct (Pos.compare_cont Eq mx my) eqn:E;
        change (Pos.compare_cont Eq mx my) with (Pos.compare mx my) in E;
        destruct (Pos.compare_spec mx my); simplify_eq/=; (split; [|lia]); intros; try done; lia.
    + split; [lia|done].
    + split; [done|lia].
Qed.

Lemma rank_lt_irrefl a : ~ rank_lt a a.
Proof. destruct a as [[? ?] ?]; simpl; lia. Qed.

Lemma rank_lt_trans a b c : rank_lt a b -> rank_lt b c -> rank_lt a c.
Proof. destruct a as [[? ?] ?], b as [[? ?] ?], c as [[? ?] ?]; simpl; lia. Qed.

Lemma rank_nlt_trans a b c : ~ rank_lt b a -> ~ rank_lt c b -> ~ rank_lt c a.
Proof. destruct a as [[? ?] ?], b as [[? ?] ?], c as [[? ?] ?]; simpl; lia. Qed.

Lemma rank_total a b : rank_lt a b \/ ~ rank_lt a b.
Proof. destruct a as [[? ?] ?], b as [[? ?] ?]; simpl; lia. Qed.

Lemma fltb_irrefl x : fltb x x = false.
Proof.
  destruct (is_nan x) eqn:N; [by destruct x|].
  destruct (fltb x x) eqn:E; [|done].
  apply fltb_rank in E; [|done..]. by apply rank_lt_irrefl in E.
Qed.

Lemma fltb_trans x y z : fltb x y = true -> fltb y z = true -> fltb x z = true.
Proof.
  intros H1 H2.
  assert (is_nan x = false /\ is_nan y = false /\ is_nan z = false) as (?&?&?).
  { unfold fltb, SFltb in *. by destruct x, y, z. }
  apply fltb_rank; [done..|]. apply fltb_rank in H1, H2; [|done..].
  eauto using rank_lt_trans.
Qed.

Lemma fltb_asym x y : fltb x y = true -> fltb y x = false.
Proof.
  intros H. destruct (fltb y x) eqn:E; [|done].
  pose proof (fltb_trans _ _ _ H E) as C. by rewrite fltb_irrefl in C.
Qed.

(** Incomparability is transitive away from NaN. *)
Lemma fltb_false_trans x y z :
  is_nan x = false -> is_nan y = false -> is_nan z = false ->
  fltb y x = false -> fltb z y = false -> fltb z x = false.
Proof.
  intros Hx Hy Hz H1 H2. apply not_true_iff_false. apply not_true_iff_false in H1, H2.
  rewrite fltb_rank in H1, H2 |- * by done. eauto using rank_nlt_trans.
Qed.

Lemma fleb_fltb x y : is_nan x = false -> is_nan y = false -> fleb x y = negb (fltb y x).
Proof.
  unfold fleb, fltb, SFleb, SFltb.
  destruct x as [sx|sx| |sx mx ex], y as [sy|sy| |sy my ey]; simpl; try done; intros _ _;
    try (destruct sx); try (destruct sy); simpl; try done;
    rewrite (Z.compare_antisym ex ey); destruct (ex ?= ey); simpl; try done;
    change (Pos.compare_cont Eq mx my) with (Pos.compare mx my);
    change (Pos.compare_cont Eq my mx) with (Pos.compare my mx);
    rewrite (Pos.compare_antisym mx my); by destruct (Pos.compare mx my).
Qed.
