(* ===== verification/GoFloatInt.v ===== *)
(** * float64 and the integers and texts it stands for

    Integers below 2^53 are exact; strconv.ParseFloat. *)

From S2P Require Import Prelude GoStrings GoFloat.

Open Scope string_scope.
Open Scope list_scope.
Open Scope Z_scope.

(** ** Integers as float64

    Redis scripts and token counts do integer arithmetic in binary64.  Below
    2^53 it is exact: on [f_of_Z] addition, subtraction and comparison are those
    of the integers. *)

Definition exact_int (z : Z) : Prop := Z.abs z < 2 ^ 53.

(** *** The primitives of [SpecFloat] on exact values *)

Lemma digits_log2 p : Zpos (digits2_pos p) = Z.log2 (Zpos p) + 1.
Proof.
  assert (digits2_pos p = Pos.size p) as -> by (induction p; simpl; congruence).
  destruct p; simpl; lia.
Qed.

Lemma iter_xO m d : Zpos (Pos.iter xO m d) = Zpos m * 2 ^ Zpos d.
Proof.
  revert m. induction d as [|d IH] using Pos.peano_ind; intros m; [simpl; lia|].
  rewrite Pos.iter_succ, Pos2Z.inj_succ, Z.pow_succ_r by lia.
  rewrite (Pos2Z.inj_xO (Pos.iter _ _ _)), IH. lia.
Qed.

Lemma shl_align_value mx ex ez :
  ez <= ex -> Zpos (shl_align mx ex ez).1 = Zpos mx * 2 ^ (ex - ez).
Proof.
  intros H. unfold shl_align. destruct (ez - ex) as [|d|d] eqn:E; simpl.
  - replace (ex - ez) with 0 by lia. lia.
  - lia.
  - rewrite iter_xO. by replace (ex - ez) with (Zpos d) by lia.
Qed.

Lemma iter_pos_swap {A} (f : A -> A) n x : iter_pos f n (f x) = f (iter_pos f n x).
Proof. revert x. induction n; intros x; simpl; rewrite ?IHn; done. Qed.

Lemma iter_pos_S {A} (f : A -> A) n x : iter_pos f (Pos.succ n) x = iter_pos f n (f x).
Proof. revert x. induction n; intros x; simpl; rewrite ?IHn, ?iter_pos_swap; done. Qed.

Lemma shr_exact n q :
  iter_pos shr_1 n {| shr_m := Zpos (Pos.iter xO q n); shr_r := false; shr_s := false |} =
  {| shr_m := Zpos q; shr_r := false; shr_s := false |}.
Proof.
  induction n as [|n IH] using Pos.peano_ind; [done|].
  rewrite iter_pos_S, Pos.iter_succ. simpl. apply IH.
Qed.

(** The float of a positive integer below 2^53: 53 significant bits. *)
Definition fcan (sx : bool) (v : positive) : spec_float :=
  S754_finite sx (Z.to_pos (Zpos v * 2 ^ (52 - Z.log2 (Zpos v)))) (Z.log2 (Zpos v) - 52).

Definition fcanZ (z : Z) : spec_float :=
  match z with Z0 => S754_zero false | Zpos v => fcan false v | Zneg v => fcan true v end.

Lemma log2_bound v : Zpos v < 2 ^ 53 -> 0 <= Z.log2 (Zpos v) <= 52.
Proof.
  intros H. pose proof (Z.log2_nonneg (Zpos v)).
  assert (Z.log2 (Zpos v) < 53) by (apply Z.log2_lt_pow2; lia). lia.
Qed.

Lemma mantissa_log2 v : Zpos v < 2 ^ 53 ->
  Z.log2 (Zpos v * 2 ^ (52 - Z.log2 (Zpos v))) = 52 /\ 0 < Zpos v * 2 ^ (52 - Z.log2 (Zpos v)).
Proof.
  intros H. pose proof (log2_bound v H). split.
  - rewrite Z.log2_mul_pow2 by lia. lia.
  - apply Z.mul_pos_pos; [lia|]. apply Z.pow_pos_nonneg; lia.
Qed.

Lemma fexp_53 e : -1021 <= e -> fexp 53 1024 e = e - 53.
Proof. intros. unfold fexp, emin. lia. Qed.

Lemma shr_fexp_log2 m e :
  shr_fexp 53 1024 (Zpos m) e loc_Exact =
  shr {| shr_m := Zpos m; shr_r := false; shr_s := false |} e (fexp 53 1024 (Z.log2 (Zpos m) + 1 + e) - e).
Proof. by rewrite <- digits_log2. Qed.

Lemma round_aux_53 sx m e :
  Z.log2 (Zpos m) = 52 -> -1000 <= e <= 900 ->
  binary_round_aux 53 1024 sx (Zpos m) e loc_Exact = S754_finite sx m e.
Proof.
  intros Hm He. unfold binary_round_aux, shr_fexp. cbn [Zdigits2 shr_record_of_loc].
  rewrite digits_log2, Hm, fexp_53 by lia.
  replace (52 + 1 + e - 53 - e) with 0 by lia.
  cbn [shr shr_m loc_of_shr_record round_nearest_even Zdigits2].
  rewrite digits_log2, Hm, fexp_53 by lia.
  replace (52 + 1 + e - 53 - e) with 0 by lia. cbn [shr shr_m].
  destruct (Z.leb_spec e (1024 - 53)); [done|lia].
Qed.

Lemma binary_round_exact sx v k p :
  Zpos v < 2 ^ 53 -> 0 <= k <= 900 -> Zpos p = Zpos v * 2 ^ k ->
  binary_round 53 1024 sx p (- k) = fcan sx v.
Proof.
  intros Hv Hk Hp. pose proof (log2_bound v Hv) as Hl. pose proof (mantissa_log2 v Hv) as [Hm Hm0].
  assert (Z.log2 (Zpos p) = Z.log2 (Zpos v) + k) as Hlp by (rewrite Hp, Z.log2_mul_pow2; lia).
  unfold binary_round. rewrite digits_log2, Hlp, fexp_53 by lia.
  replace (Z.log2 (Zpos v) + k + 1 + - k - 53) with (Z.log2 (Zpos v) - 52) by lia.
  set (E := Z.log2 (Zpos v) - 52) in *. unfold fcan. fold E.
  destruct (shl_align p (- k) E) as [mz ez] eqn:Ea. unfold shl_align in Ea.
  destruct (E - - k) as [|n|d] eqn:Ed; injection Ea as <- <-.
  - rewrite <- round_aux_53 by (rewrite ?Z2Pos.id by lia; (lia || done)).
    replace (- k) with E by lia. rewrite Z2Pos.id, Hp by lia. do 3 f_equal. lia.
  - (* digits to drop: zeros *)
    assert (Zpos p = Zpos (Pos.iter xO (Z.to_pos (Zpos v * 2 ^ (52 - Z.log2 (Zpos v)))) n)) as Ep.
    { rewrite iter_xO, Z2Pos.id, Hp, <- Z.mul_assoc, <- Z.pow_add_r by lia. f_equal. f_equal. lia. }
    set (m := Z.to_pos (Zpos v * 2 ^ (52 - Z.log2 (Zpos v)))) in *.
    assert (Z.log2 (Zpos m) = 52) as Hm' by (unfold m; rewrite Z2Pos.id by lia; done).
    unfold binary_round_aux.
    rewrite shr_fexp_log2, Hlp, fexp_53 by lia.
    replace (Z.log2 (Zpos v) + k + 1 + - k - 53 - - k) with (Zpos n) by lia.
    cbn [shr]. rewrite Ep, shr_exact.
    cbn [shr_m loc_of_shr_record round_nearest_even].
    rewrite shr_fexp_log2, Hm', fexp_53 by lia.
    replace (- k + Zpos n) with E by lia.
    replace (52 + 1 + E - 53 - E) with 0 by lia. cbn [shr shr_m].
    destruct (Z.leb_spec E (1024 - 53)); [done|lia].
  - rewrite <- round_aux_53 by (rewrite ?Z2Pos.id by lia; (lia || done)).
    f_equal. rewrite iter_xO, Z2Pos.id, Hp by lia.
    rewrite <- Z.mul_assoc, <- Z.pow_add_r by lia. f_equal. f_equal. lia.
Qed.

Lemma normalize_exact z k :
  exact_int z -> 0 <= k <= 900 -> binary_normalize 53 1024 (z * 2 ^ k) (- k) false = fcanZ z.
Proof.
  unfold exact_int. intros Hz Hk. assert (0 < 2 ^ k) by (apply Z.pow_pos_nonneg; lia).
  destruct z as [|v|v]; [done| |].
  - destruct (Zpos v * 2 ^ k) as [|p|p] eqn:E; [lia| |lia]. by apply binary_round_exact.
  - destruct (Zneg v * 2 ^ k) as [|p|p] eqn:E; [lia|lia|]. apply binary_round_exact; lia.
Qed.

Lemma f_of_Z_can z : exact_int z -> f_of_Z z = fcanZ z.
Proof.
  intros H. unfold f_of_Z. rewrite <- (normalize_exact z 0 H) by lia.
  f_equal. lia.
Qed.

(** *** Arithmetic *)

Lemma aligned_value sx v ez :
  Zpos v < 2 ^ 53 -> ez <= Z.log2 (Zpos v) - 52 ->
  cond_Zopp sx (Zpos (shl_align (Z.to_pos (Zpos v * 2 ^ (52 - Z.log2 (Zpos v)))) (Z.log2 (Zpos v) - 52) ez).1) =
  (cond_Zopp sx (Zpos v)) * 2 ^ (- ez).
Proof.
  intros Hv Hez. pose proof (log2_bound v Hv). pose proof (mantissa_log2 v Hv) as [_ Hm].
  rewrite shl_align_value, Z2Pos.id, <- Z.mul_assoc, <- Z.pow_add_r by lia.
  replace (52 - Z.log2 (Zpos v) + (Z.log2 (Zpos v) - 52 - ez)) with (- ez) by lia.
  destruct sx; unfold cond_Zopp; lia.
Qed.

(** A finite sum or difference of two aligned mantissas. *)
Lemma combine_exact (op : Z -> Z -> Z) sx v sy w :
  (forall a b k, op (a * k) (b * k) = op a b * k) ->
  Zpos v < 2 ^ 53 -> Zpos w < 2 ^ 53 ->
  exact_int (op (cond_Zopp sx (Zpos v)) (cond_Zopp sy (Zpos w))) ->
  let ez := Z.min (Z.log2 (Zpos v) - 52) (Z.log2 (Zpos w) - 52) in
  binary_normalize 53 1024
    (op (cond_Zopp sx (Zpos (shl_align (Z.to_pos (Zpos v * 2 ^ (52 - Z.log2 (Zpos v)))) (Z.log2 (Zpos v) - 52) ez).1))
        (cond_Zopp sy (Zpos (shl_align (Z.to_pos (Zpos w * 2 ^ (52 - Z.log2 (Zpos w)))) (Z.log2 (Zpos w) - 52) ez).1)))
    ez false = fcanZ (op (cond_Zopp sx (Zpos v)) (cond_Zopp sy (Zpos w))).
Proof.
  intros Hop Hv Hw He ez. pose proof (log2_bound v Hv). pose proof (log2_bound w Hw).
  rewrite !aligned_value, Hop by lia.
  replace ez with (- (- ez)) at 2 by lia. apply normalize_exact; [done|lia].
Qed.

Lemma fcanZ_opp v s : fcan s v = fcanZ (cond_Zopp s (Zpos v)).
Proof. by destruct s. Qed.

Lemma fadd_exact a b : exact_int a -> exact_int b -> exact_int (a + b) ->
  fadd (f_of_Z a) (f_of_Z b) = f_of_Z (a + b).
Proof.
  intros Ha Hb Hab. rewrite !f_of_Z_can by done.
  assert (forall sx v sy w, Zpos v < 2 ^ 53 -> Zpos w < 2 ^ 53 ->
    exact_int (cond_Zopp sx (Zpos v) + cond_Zopp sy (Zpos w)) ->
    fadd (fcan sx v) (fcan sy w) = fcanZ (cond_Zopp sx (Zpos v) + cond_Zopp sy (Zpos w))) as Hfin.
  { intros. unfold fadd, SFadd, fcan. apply (combine_exact Z.add); try done. intros; lia. }
  unfold exact_int in *.
  destruct a as [|v|v], b as [|w|w]; try done.
  - exact (Hfin false v false w ltac:(lia) ltac:(lia) Hab).
  - exact (Hfin false v true w ltac:(lia) ltac:(lia) Hab).
  - exact (Hfin true v false w ltac:(lia) ltac:(lia) Hab).
  - exact (Hfin true v true w ltac:(lia) ltac:(lia) Hab).
Qed.

Lemma fsub_exact a b : exact_int a -> exact_int b -> exact_int (a - b) ->
  fsub (f_of_Z a) (f_of_Z b) = f_of_Z (a - b).
Proof.
  intros Ha Hb Hab. rewrite !f_of_Z_can by done.
  assert (forall sx v sy w, Zpos v < 2 ^ 53 -> Zpos w < 2 ^ 53 ->
    exact_int (cond_Zopp sx (Zpos v) - cond_Zopp sy (Zpos w)) ->
    fsub (fcan sx v) (fcan sy w) = fcanZ (cond_Zopp sx (Zpos v) - cond_Zopp sy (Zpos w))) as Hfin.
  { intros. unfold fsub, SFsub, fcan. apply (combine_exact Z.sub); try done. intros; lia. }
  unfold exact_int in *.
  destruct a as [|v|v], b as [|w|w]; try done.
  - exact (Hfin false v false w ltac:(lia) ltac:(lia) Hab).
  - exact (Hfin false v true w ltac:(lia) ltac:(lia) Hab).
  - exact (Hfin true v false w ltac:(lia) ltac:(lia) Hab).
  - exact (Hfin true v true w ltac:(lia) ltac:(lia) Hab).
Qed.

(** *** Comparison *)

Lemma fcan_rank v w : Zpos v < 2 ^ 53 -> Zpos w < 2 ^ 53 ->
  Zpos v < Zpos w ->
  Z.log2 (Zpos v) < Z.log2 (Zpos w) \/
  Z.log2 (Zpos v) = Z.log2 (Zpos w) /\
  Zpos v * 2 ^ (52 - Z.log2 (Zpos v)) < Zpos w * 2 ^ (52 - Z.log2 (Zpos w)).
Proof.
  intros Hv Hw H. pose proof (Z.log2_le_mono (Zpos v) (Zpos w)).
  pose proof (log2_bound v Hv).
  destruct (Z.eq_dec (Z.log2 (Zpos v)) (Z.log2 (Zpos w))) as [E|]; [|lia].
  right. split; [done|]. rewrite <- E. apply Z.mul_lt_mono_pos_r; [|lia].
  apply Z.pow_pos_nonneg; lia.
Qed.

Lemma fcanZ_nan z : is_nan (fcanZ z) = false.
Proof. by destruct z. Qed.

Lemma fltb_fcanZ a b : exact_int a -> exact_int b -> a < b -> fltb (fcanZ a) (fcanZ b) = true.
Proof.
  unfold exact_int. intros Ha Hb H. apply fltb_rank; [apply fcanZ_nan..|].
  destruct a as [|v|v], b as [|w|w]; cbn [f_rank fcanZ fcan rank_lt]; try lia.
  - pose proof (mantissa_log2 v ltac:(lia)). pose proof (mantissa_log2 w ltac:(lia)).
    pose proof (fcan_rank v w ltac:(lia) ltac:(lia) ltac:(lia)). rewrite !Z2Pos.id by lia. lia.
  - pose proof (mantissa_log2 v ltac:(lia)). pose proof (mantissa_log2 w ltac:(lia)).
    pose proof (fcan_rank w v ltac:(lia) ltac:(lia) ltac:(lia)). rewrite !Z2Pos.id by lia. lia.
Qed.

Lemma fltb_exact a b : exact_int a -> exact_int b -> fltb (f_of_Z a) (f_of_Z b) = (a <? b).
Proof.
  intros Ha Hb. rewrite !f_of_Z_can by done. destruct (Z.ltb_spec a b) as [H|H].
  - by apply fltb_fcanZ.
  - destruct (Z.eq_dec a b) as [->|]; [apply fltb_irrefl|].
    apply fltb_asym, fltb_fcanZ; [done..|lia].
Qed.

Lemma fgtb_exact a b : exact_int a -> exact_int b -> fgtb (f_of_Z a) (f_of_Z b) = (b <? a).
Proof. intros. by apply fltb_exact. Qed.

Lemma fleb_exact a b : exact_int a -> exact_int b -> fleb (f_of_Z a) (f_of_Z b) = (a <=? b).
Proof.
  intros Ha Hb. rewrite fleb_fltb, fltb_exact by (rewrite ?f_of_Z_can by done; auto using fcanZ_nan).
  rewrite Z.ltb_antisym, negb_involutive. done.
Qed.

(** The integer back from its float. *)
Lemma fcanZ_integral z : exact_int z -> f_num (fcanZ z) = z * f_den (fcanZ z) /\ 0 < f_den (fcanZ z).
Proof.
  unfold exact_int. intros H. destruct z as [|v|v]; cbn [fcanZ fcan f_num f_den]; [lia| |];
    pose proof (mantissa_log2 v ltac:(lia)); pose proof (log2_bound v ltac:(lia));
    rewrite Z2Pos.id by lia;
    (replace (Z.max 0 (Z.log2 (Zpos v) - 52)) with 0 by lia);
    (replace (Z.max 0 (- (Z.log2 (Zpos v) - 52))) with (52 - Z.log2 (Zpos v)) by lia);
    (split; [lia|apply Z.pow_pos_nonneg; lia]).
Qed.

Lemma f_to_int64_exact z : exact_int z -> f_to_int64 (f_of_Z z) = z.
Proof.
  intros H. rewrite f_of_Z_can by done. unfold f_to_int64, f_integral.
  pose proof (fcanZ_integral z H) as [Hn Hd].
  assert (Z.quot (f_num (fcanZ z)) (f_den (fcanZ z)) = z) as E by (rewrite Hn, Z.quot_mul; lia).
  assert (int64_of (Some z) = z) as Hz.
  { unfold int64_of, exact_int, int64_min, int64_max in *.
    destruct (Z.leb_spec (- 2 ^ 63) z), (Z.leb_spec z (2 ^ 63 - 1)); simpl; lia. }
  destruct (fcanZ z) eqn:Ef; rewrite ?E; try done; by destruct z.
Qed.

Lemma f_ceil_int64_exact z : exact_int z -> f_ceil_int64 (f_of_Z z) = z.
Proof.
  intros H. rewrite f_of_Z_can by done. unfold f_ceil_int64, f_integral.
  pose proof (fcanZ_integral z H) as [Hn Hd].
  assert (- (- f_num (fcanZ z) / f_den (fcanZ z)) = z) as E.
  { rewrite Hn, Zopp_mult_distr_l, Z.div_mul by lia. lia. }
  assert (int64_of (Some z) = z) as Hz.
  { unfold int64_of, exact_int, int64_min, int64_max in *.
    destruct (Z.leb_spec (- 2 ^ 63) z), (Z.leb_spec z (2 ^ 63 - 1)); simpl; lia. }
  destruct (fcanZ z) eqn:Ef; rewrite ?E; try done; by destruct z.
Qed.

(** A whole number of seconds is exact. *)
Lemma Seconds_whole k : exact_int k -> Seconds (k * second) = f_of_Z k.
Proof.
  intros Hk. unfold Seconds. rewrite Z.quot_mul, Z.rem_mul by done.
  change (fdiv (f_of_Z 0) (f_of_Z 1000000000)) with (f_of_Z 0).
  rewrite fadd_exact by (done || (rewrite ?Z.add_0_r; done)). by rewrite Z.add_0_r.
Qed.

(** *** Signs of quotients *)

(** A float with the full 53 bits in a moderate exponent range. *)
Definition normal (x : spec_float) : Prop :=
  exists m e, x = S754_finite false m e /\ Z.log2 (Zpos m) = 52 /\ -400 <= e <= 400.

Lemma fcanZ_normal z : 0 < z -> exact_int z -> normal (fcanZ z).
Proof.
  unfold exact_int. intros H0 H. destruct z as [|v|v]; [lia| |lia].
  pose proof (mantissa_log2 v ltac:(lia)) as [Hm Hp]. pose proof (log2_bound v ltac:(lia)).
  do 2 eexists. split; [done|]. rewrite Z2Pos.id by lia. split; [done|lia].
Qed.

(** Rounding a quotient of 53 or 54 bits: a positive float of 53 bits. *)
Lemma round_aux_normal q e l :
  2 ^ 52 <= Zpos q < 2 ^ 54 -> -900 <= e <= 800 ->
  exists m e', binary_round_aux 53 1024 false (Zpos q) e l = S754_finite false m e' /\
    Z.log2 (Zpos m) = 52 /\ e <= e' <= e + 2.
Proof.
  intros Hq He.
  (* after the first shift: 53 bits and any location *)
  assert (exists m1 e1 l1, shr_fexp 53 1024 (Zpos q) e l = (l1, e1) /\ shr_m l1 = Zpos m1 /\
    Z.log2 (Zpos m1) = 52 /\ e <= e1 <= e + 1) as (m1 & e1 & l1 & E1 & Em & Hm1 & He1).
  { assert (Z.log2 (Zpos q) = 52 \/ Z.log2 (Zpos q) = 53) as Hl.
    { assert (52 <= Z.log2 (Zpos q)) by (apply Z.log2_le_pow2; lia).
      assert (Z.log2 (Zpos q) < 54) by (apply Z.log2_lt_pow2; lia). lia. }
    unfold shr_fexp. cbn [Zdigits2]. rewrite digits_log2.
    destruct Hl as [Hl|Hl]; rewrite Hl, fexp_53 by lia.
    - replace (52 + 1 + e - 53 - e) with 0 by lia. cbn [shr].
      exists q, e. eexists. split; [done|]. split; [by destruct l as [|[]]|]. split; [done|lia].
    - replace (53 + 1 + e - 53 - e) with 1 by lia. cbn [shr iter_pos].
      destruct q as [p|p|]; [| |done].
      + exists p, (e + 1). eexists. split; [done|]. split; [by destruct l as [|[]]|].
        change (Zpos p~1) with (2 * Zpos p + 1) in Hl. rewrite Z.log2_succ_double in Hl by lia. split; lia.
      + exists p, (e + 1). eexists. split; [done|]. split; [by destruct l as [|[]]|].
        change (Zpos p~0) with (2 * Zpos p) in Hl. rewrite Z.log2_double in Hl by lia. split; lia. }
  unfold binary_round_aux. rewrite E1, Em.
  set (r := round_nearest_even (Zpos m1) (loc_of_shr_record l1)).
  assert (Zpos m1 <= r <= Zpos m1 + 1) as Hr.
  { unfold r, round_nearest_even. repeat case_match; lia. }
  assert (2 ^ 52 <= Zpos m1 < 2 ^ 53) as Hb.
  { pose proof (Z.log2_spec (Zpos m1) ltac:(lia)) as Hs. rewrite Hm1 in Hs. exact Hs. }
  destruct r as [|p|p] eqn:Ep; [lia| |lia].
  rewrite shr_fexp_log2.
  destruct (Z.eq_dec (Zpos p) (2 ^ 53)) as [E|N].
  - assert (p = Z.to_pos (2 ^ 53)) as -> by (rewrite <- E; done).
    change (Z.log2 (Zpos (Z.to_pos (2 ^ 53)))) with 53. rewrite fexp_53 by lia.
    replace (53 + 1 + e1 - 53 - e1) with 1 by lia. cbn [shr iter_pos].
    change (shr_m _) with (Zpos (Z.to_pos (2 ^ 52))).
    destruct (Z.leb_spec (e1 + 1) (1024 - 53)); [|lia].
    do 2 eexists. split; [done|]. split; [done|lia].
  - assert (Z.log2 (Zpos p) = 52) as Hp.
    { apply Z.log2_unique; [lia|]. change (2 ^ Z.succ 52) with (2 ^ 53). lia. }
    rewrite Hp, fexp_53 by lia. replace (52 + 1 + e1 - 53 - e1) with 0 by lia. cbn [shr shr_m].
    destruct (Z.leb_spec e1 (1024 - 53)); [|lia].
    do 2 eexists. split; [done|]. split; [done|lia].
Qed.

Lemma fdiv_normal x y : normal x -> normal y -> exists m e, fdiv x y = S754_finite false m e /\
  Z.log2 (Zpos m) = 52 /\ exists mx ex my ey, x = S754_finite false mx ex /\ y = S754_finite false my ey /\
    ex - ey - 53 <= e <= ex - ey - 51.
Proof.
  intros (mx & ex & -> & Hmx & Hex) (my & ey & -> & Hmy & Hey).
  unfold fdiv, SFdiv. cbn [xorb].
  assert (2 ^ 52 <= Zpos mx < 2 ^ 53) as Hbx
    by (pose proof (Z.log2_spec (Zpos mx) ltac:(lia)) as Hs; rewrite Hmx in Hs; exact Hs).
  assert (2 ^ 52 <= Zpos my < 2 ^ 53) as Hby
    by (pose proof (Z.log2_spec (Zpos my) ltac:(lia)) as Hs; rewrite Hmy in Hs; exact Hs).
  unfold SFdiv_core_binary. cbn [Zdigits2]. rewrite !digits_log2, Hmx, Hmy, fexp_53 by lia.
  replace (Z.min (52 + 1 + ex - (52 + 1 + ey) - 53) (ex - ey)) with (ex - ey - 53) by lia.
  replace (ex - ey - (ex - ey - 53)) with 53 by lia. cbn iota.
  rewrite Z.shiftl_mul_pow2 by lia.
  destruct (Z.div_eucl (Zpos mx * 2 ^ 53) (Zpos my)) as [q r] eqn:E.
  pose proof (Z_div_mod (Zpos mx * 2 ^ 53) (Zpos my) ltac:(lia)) as Hd. rewrite E in Hd. destruct Hd as [Hq Hr].
  assert (2 ^ 52 <= q < 2 ^ 54) as Hqb by nia.
  destruct q as [|q|q]; [lia| |lia].
  destruct (round_aux_normal q (ex - ey - 53) (new_location (Zpos my) r) Hqb ltac:(lia)) as (m & e & -> & Hm & He).
  exists m, e. split; [done|]. split; [done|]. exists mx, ex, my, ey. split; [done|]. split; [done|lia].
Qed.

Lemma exact_int_le a b : 0 <= a <= b -> exact_int b -> exact_int a.
Proof. unfold exact_int. lia. Qed.

#[export] Hint Resolve exact_int_le : go.

(** ** strconv.ParseFloat

    The syntax of Go's floating-point literals (sign, decimal or hexadecimal
    digits, one point, an exponent, underscores between digits) and the names of
    the infinities and of NaN; the value is the correctly rounded quotient of two
    integers.  [None] is a syntax or a range error. *)

(** *** The nearest float of a quotient

    The quotient is computed to at least 66 bits, with one more bit that says
    whether it is exact: rounding that is rounding the quotient. *)
Definition f_of_ratio (n d : Z) : spec_float :=
  let s := 66 + Z.max 0 (Z.log2 d - Z.log2 n) in
  let q := Z.shiftl n s / d in
  let sticky := if Z.shiftl n s mod d =? 0 then 0 else 1 in
  binary_normalize 53 1024 (2 * q + sticky) (- s - 1) false.

Example ratio_ex : map (fun '(n, d) => feqb (f_of_ratio n d) (f_lit n d)) [(1, 3); (2, 3); (12345, 1000); (1, 10 ^ 20); (7, 1)] =
  [true; true; true; true; true].
Proof. vm_compute. reflexivity. Qed.

(** *** Syntax *)

(** [underscoreOK]: an underscore follows a digit (or the base prefix) and is
    followed by one. *)
Fixpoint underscore_scan (hex : bool) (saw : ascii) (s : string) : bool :=
  match s with
  | EmptyString => negb (Ascii.eqb saw "_")
  | String c s' =>
      if is_digit c || hex && byte_in 97 102 (lower_byte c) then underscore_scan hex "0" s'
      else if Ascii.eqb c "_" then if Ascii.eqb saw "0" then underscore_scan hex "_" s' else false
      else if Ascii.eqb saw "_" then false else underscore_scan hex "!" s'
  end.

Definition drop_sign (s : string) : string :=
  match s with String c s' => if Ascii.eqb c "-" || Ascii.eqb c "+" then s' else s | EmptyString => s end.

Definition underscoreOK (s : string) : bool :=
  match drop_sign s with
  | String c (String p s') =>
      if Ascii.eqb c "0" && (Ascii.eqb (lower_byte p) "b" || Ascii.eqb (lower_byte p) "o" || Ascii.eqb (lower_byte p) "x")
      then underscore_scan (Ascii.eqb (lower_byte p) "x") "0" s'
      else underscore_scan false "^" (String c (String p s'))
  | s' => underscore_scan false "^" s'
  end.

Definition hex_digit_val_of (c : ascii) : Z := if is_digit c then digit_of_byte c else byte_val (lower_byte c) - 87.

(** The digits before the exponent: their value, how many follow the point,
    whether a digit was seen, and the rest. *)
Fixpoint read_digits (base : Z) (s : string) (m frac : Z) (dot digits : bool) : Z * Z * bool * string :=
  match s with
  | EmptyString => (m, frac, digits, s)
  | String c s' =>
      if Ascii.eqb c "_" then read_digits base s' m frac dot digits
      else if Ascii.eqb c "." then if dot then (m, frac, digits, s) else read_digits base s' m frac true digits
      else if is_digit c || (base =? 16) && byte_in 97 102 (lower_byte c)
      then read_digits base s' (m * base + hex_digit_val_of c) (if dot then frac + 1 else frac) dot true
      else (m, frac, digits, s)
  end.

(** The digits of an exponent; it stops growing at 10000. *)
Fixpoint read_exponent (s : string) (e : Z) : Z * string :=
  match s with
  | EmptyString => (e, s)
  | String c s' =>
      if Ascii.eqb c "_" then read_exponent s' e
      else if is_digit c then read_exponent s' (if e <? 10000 then e * 10 + digit_of_byte c else e)
      else (e, s)
  end.

(** An exponent after [expChar]: [None] is a syntax error. *)
Definition read_exp_part (expChar : ascii) (s : string) : option (option Z * string) :=
  match s with
  | String c s' =>
      if Ascii.eqb (lower_byte c) expChar then
        let neg := match s' with String d _ => Ascii.eqb d "-" | EmptyString => false end in
        match drop_sign s' with
        | String d t => if is_digit d then let '(e, r) := read_exponent (String d t) 0 in Some (Some (if neg then - e else e), r) else None
        | EmptyString => None
        end
      else Some (None, s)
  | EmptyString => Some (None, s)
  end.

Definition signed (neg : bool) (x : spec_float) : spec_float := if neg then SFopp x else x.

(** [m * base^e] with its sign; an infinite result is a range error. *)
Definition scaled (neg : bool) (base m e : Z) : option spec_float :=
  if m =? 0 then Some (S754_zero neg)
  else
    let x := if 0 <=? e then f_of_ratio (m * base ^ e) 1 else f_of_ratio m (base ^ (- e)) in
    if is_inf x then None else Some (signed neg x).

Definition read_float (s : string) : option spec_float :=
  let neg := match s with String c _ => Ascii.eqb c "-" | EmptyString => false end in
  let body := drop_sign s in
  let hex := match body with String a (String b (String _ _)) => Ascii.eqb a "0" && Ascii.eqb (lower_byte b) "x" | _ => false end in
  let '(m, frac, digits, r) := read_digits (if hex then 16 else 10) (if hex then sdrop 2 body else body) 0 0 false false in
  if negb digits then None
  else
    match read_exp_part (if hex then "p" else "e") r with
    | Some (e, "") =>
        if scontains_byte "_" s && negb (underscoreOK s) then None
        else
          match hex, e with
          | true, None => None
          | true, Some e => scaled neg 2 m (e - 4 * frac)
          | false, _ => scaled neg 10 m (default 0 e - frac)
          end
    | _ => None
    end.

Definition ParseFloat (s : string) : option spec_float :=
  let l := lower_ascii s in
  let neg := match s with String c _ => Ascii.eqb c "-" | EmptyString => false end in
  if String.eqb l "nan" then Some S754_nan
  else if String.eqb (drop_sign l) "inf" || String.eqb (drop_sign l) "infinity" then Some (S754_infinity neg)
  else read_float s.

Example ParseFloat_ex :
  map ParseFloat ["1.5"; "-0"; "+Inf"; "NaN"; "+nan"; "1_000"; "_1"; "1__0"; "0x1p-2"; "0x1"; "1e400"; ".5e1"; "1e"; "."; ""; "1 "] =
  [Some (f_lit 3 2); Some (S754_zero true); Some (S754_infinity false); Some S754_nan; None; Some (f_of_Z 1000); None; None;
   Some (f_lit 1 4); None; None; Some (f_of_Z 5); None; None; None; None].
Proof. vm_compute. reflexivity. Qed.

Example ParseFloat_rounding : map ParseFloat ["0.1"; "120.456"; "9007199254740993"; "9007199254740992.99999"; "4.9e-324"; "2.4703282292062327e-324"] =
  [Some (f_lit 1 10); Some (f_lit 120456 1000); Some (f_of_Z 9007199254740992); Some (f_of_Z 9007199254740992);
   Some (S754_finite false 1 (-1074)); Some (S754_zero false)].
Proof. vm_compute. reflexivity. Qed.
