(* ===== verification/GoSort.v ===== *)
(** * Stable sorting

    [sort.SliceStable]: the result of a stable sort is determined by the input
    and the [less] function when [less] is a strict weak order, so that any
    stable algorithm models it; here insertion from the right. *)

From S2P Require Import Prelude.

Section Sort.
Context {A : Type} (less : A -> A -> bool).

Fixpoint insert_stable (x : A) (l : list A) : list A :=
  match l with
  | [] => [x]
  | y :: l' => if less y x then y :: insert_stable x l' else x :: y :: l'
  end.

Definition stable_sort (l : list A) : list A := foldr insert_stable [] l.

Lemma insert_stable_perm x l : insert_stable x l ≡ₚ x :: l.
Proof.
  induction l as [|y l IH]; simpl; [done|].
  destruct (less y x); [|done]. rewrite IH. apply Permutation_swap.
Qed.

Lemma stable_sort_perm l : stable_sort l ≡ₚ l.
Proof. induction l as [|x l IH]; simpl; [done|]. by rewrite insert_stable_perm, IH. Qed.

(** [ok] are the elements on which [less] is a strict weak order. *)
Context (ok : A -> Prop)
  (Hasym : forall x y, ok x -> ok y -> less x y = true -> less y x = false)
  (Htrans : forall x y z, ok x -> ok y -> ok z ->
     less y x = false -> less z y = false -> less z x = false).

Definition nle (x y : A) : Prop := less y x = false.

Lemma insert_stable_sorted x l :
  ok x -> Forall ok l -> StronglySorted nle l -> StronglySorted nle (insert_stable x l).
Proof using Hasym Htrans.
  intros Hx Hl Hs. induction Hs as [|y l Hs IH Hall]; simpl; [repeat constructor|].
  apply Forall_cons in Hl as [Hy Hl]. destruct (less y x) eqn:E.
  - constructor; [by apply IH|]. rewrite insert_stable_perm. constructor; [|done].
    by apply Hasym.
  - constructor; [by constructor|]. constructor; [done|].
    rewrite Forall_forall in Hall, Hl |- *. intros z Hz.
    apply (Htrans x y z); auto. by apply Hall.
Qed.

Lemma stable_sort_sorted l : Forall ok l -> StronglySorted nle (stable_sort l).
Proof using Hasym Htrans.
  induction 1 as [|x l Hx Hl IH]; simpl; [constructor|].
  apply insert_stable_sorted; [done| |done]. by rewrite stable_sort_perm.
Qed.

(** Stability: a class of mutually incomparable elements keeps its order. *)
Lemma insert_stable_class (P : A -> Prop) `{!forall x, Decision (P x)} x l :
  (P x -> forall y, P y -> less y x = false) ->
  filter P (insert_stable x l) = filter P (x :: l).
Proof.
  intros Hc. induction l as [|y l IH]; cbn [insert_stable]; [done|].
  destruct (less y x) eqn:E; [|done].
  rewrite !filter_cons in *. rewrite IH.
  destruct (decide (P x)), (decide (P y)); try done.
  by rewrite (Hc p y p0) in E.
Qed.

Lemma stable_sort_class (P : A -> Prop) `{!forall x, Decision (P x)} l :
  (forall x y, P x -> P y -> less y x = false) ->
  filter P (stable_sort l) = filter P l.
Proof.
  intros Hc. induction l as [|x l IH]; simpl; [done|].
  rewrite insert_stable_class by auto. rewrite !filter_cons, IH. done.
Qed.
End Sort.

Lemma StronglySorted_filter {A} (R : A -> A -> Prop) (P : A -> Prop) `{!forall x, Decision (P x)} l :
  StronglySorted R l -> StronglySorted R (filter P l).
Proof.
  induction 1 as [|x l Hs IH Hall]; [constructor|]. rewrite filter_cons.
  case_decide; [|done]. constructor; [done|].
  rewrite Forall_forall in Hall |- *. intros y [_ Hy]%list_elem_of_filter. auto.
Qed.
