(* ===== verification/Breaker.v ===== *)
(** * Circuit breakers (src/internal/router/breaker.go)

    One breaker per target, in a map filled lazily.  The injected clock [now] is
    an argument of every operation that reads it.  All operations hold the
    mutex for their whole body, so an execution is a sequence of operations. *)

From S2P Require Import Prelude GoStrings.

Open Scope string_scope.
Open Scope list_scope.
Open Scope Z_scope.

(** ** Data *)

(** [router.Target] *)
Record Target := mkTarget { Provider : string; Model : string }.

#[export] Instance Target_eq_dec : EqDecision Target.
Proof. solve_decision. Defined.

#[export] Instance Target_countable : Countable Target.
Proof.
  apply (inj_countable' (fun t => (Provider t, Model t)) (fun p => mkTarget p.1 p.2)).
  by intros [].
Defined.

Record breakerState := mkBreakerState {
  failures : Z;
  openUntil : Time;
  probing : bool
}.

Definition zero_breaker : breakerState := mkBreakerState 0 0 false.

Record Breakers := mkBreakers {
  threshold : Z;
  openFor : Duration;
  bm : gmap Target breakerState
}.

Definition NewBreakers (th : Z) (d : Duration) : Breakers := mkBreakers th d ∅.

Definition set_state (b : Breakers) (t : Target) (s : breakerState) : Breakers :=
  mkBreakers (threshold b) (openFor b) (<[t := s]> (bm b)).

(** [get]: lazily creates the state of a target. *)
Definition Breakers_get (b : Breakers) (t : Target) : breakerState * Breakers :=
  match bm b !! t with
  | Some s => (s, b)
  | None => (zero_breaker, set_state b t zero_breaker)
  end.

(** ** Operations *)

Definition Breakers_Allow (now : Time) (b : Breakers) (t : Target) : bool * Breakers :=
  let '(s, b) := Breakers_get b t in
  if is_zero_time (openUntil s) then (true, b)
  else if (now <? openUntil s) || probing s then (false, b)
  else (true, set_state b t (mkBreakerState (failures s) (openUntil s) true)).

Definition Breakers_Success (b : Breakers) (t : Target) : Breakers :=
  let '(_, b) := Breakers_get b t in set_state b t zero_breaker.

Definition Breakers_Failure (now : Time) (b : Breakers) (t : Target) : Breakers :=
  let '(s, b) := Breakers_get b t in
  let f := failures s + 1 in
  if probing s || (threshold b <=? f)
  then set_state b t (mkBreakerState f (now + openFor b) false)
  else set_state b t (mkBreakerState f (openUntil s) (probing s)).

Definition Breakers_OpenFor (now : Time) (b : Breakers) (t : Target) (d : Duration) : Breakers :=
  if d <=? 0 then b
  else
    let '(s, b) := Breakers_get b t in
    let until := now + d in
    if openUntil s <? until
    then set_state b t (mkBreakerState (failures s) until false)
    else b.

Definition Breakers_State (now : Time) (b : Breakers) (t : Target) : string * Breakers :=
  let '(s, b) := Breakers_get b t in
  (if is_zero_time (openUntil s) then "closed"
   else if probing s then "half-open"
   else if now <? openUntil s then "open"
   else "half-open", b).

Definition Breakers_open (now : Time) (b : Breakers) (t : Target) : bool * Breakers :=
  let '(s, b) := Breakers_get b t in
  (negb (is_zero_time (openUntil s)) && ((now <? openUntil s) || probing s), b).

(** ** Executions *)

Inductive breaker_op :=
| OpAllow (t : Target)
| OpSuccess (t : Target)
| OpFailure (t : Target)
| OpOpenFor (t : Target) (d : Duration).

Definition apply_op (now : Time) (o : breaker_op) (b : Breakers) : Breakers :=
  match o with
  | OpAllow t => (Breakers_Allow now b t).2
  | OpSuccess t => Breakers_Success b t
  | OpFailure t => Breakers_Failure now b t
  | OpOpenFor t d => Breakers_OpenFor now b t d
  end.

(** The clock never runs backwards; between two operations it may advance. *)
Inductive breaker_step : Time * Breakers -> Time * Breakers -> Prop :=
| BStep now now' b o : now <= now' -> breaker_step (now, b) (now', apply_op now' o b).

(** The admissions of target [t] in a timed sequence of operations. *)
Fixpoint admissions (t : Target) (ops : list (Time * breaker_op)) (b : Breakers) : list bool :=
  match ops with
  | [] => []
  | (now, o) :: ops' =>
      let rest := admissions t ops' (apply_op now o b) in
      match o with
      | OpAllow t' => if decide (t' = t) then (Breakers_Allow now b t).1 :: rest else rest
      | _ => rest
      end
  end.

Definition run_ops (ops : list (Time * breaker_op)) (b : Breakers) : Breakers :=
  fold_left (fun b o => apply_op o.1 o.2 b) ops b.

(** Operations that resolve an outstanding probe of [t]. *)
Definition resolves (t : Target) (o : breaker_op) : bool :=
  match o with
  | OpAllow _ => false
  | OpSuccess t' | OpFailure t' => bool_decide (t' = t)
  | OpOpenFor t' d => bool_decide (t' = t) && (0 <? d)
  end.

(** ** The state of one target *)

Definition state_of (b : Breakers) (t : Target) : breakerState := default zero_breaker (bm b !! t).

Definition is_closed (s : breakerState) : bool := is_zero_time (openUntil s).

Lemma state_of_set b t s t' :
  state_of (set_state b t s) t' = if decide (t = t') then s else state_of b t'.
Proof. unfold state_of, set_state; simpl. rewrite lookup_insert. by case_decide. Qed.

Lemma get_state b t :
  (Breakers_get b t).1 = state_of b t /\
  (forall t', state_of (Breakers_get b t).2 t' = state_of b t') /\
  threshold (Breakers_get b t).2 = threshold b /\ openFor (Breakers_get b t).2 = openFor b.
Proof.
  unfold Breakers_get. destruct (bm b !! t) as [s|] eqn:E; simpl; unfold state_of at 1; rewrite ?E;
    repeat split; try done.
  intros t'. rewrite state_of_set. case_decide as D; [subst|done].
  unfold state_of. by rewrite E.
Qed.

(** The per-target transition of each operation, on which all proofs rest. *)
Definition allow_state (now : Time) (s : breakerState) : bool * breakerState :=
  if is_closed s then (true, s)
  else if (now <? openUntil s) || probing s then (false, s)
  else (true, mkBreakerState (failures s) (openUntil s) true).

Definition step_state (th : Z) (d : Duration) (now : Time) (o : breaker_op) (t : Target)
    (s : breakerState) : breakerState :=
  match o with
  | OpAllow t' => if decide (t' = t) then (allow_state now s).2 else s
  | OpSuccess t' => if decide (t' = t) then zero_breaker else s
  | OpFailure t' =>
      if decide (t' = t) then
        if probing s || (th <=? failures s + 1)
        then mkBreakerState (failures s + 1) (now + d) false
        else mkBreakerState (failures s + 1) (openUntil s) (probing s)
      else s
  | OpOpenFor t' d' =>
      if decide (t' = t) then
        if (0 <? d') && (openUntil s <? now + d')
        then mkBreakerState (failures s) (now + d') false else s
      else s
  end.

Lemma Allow_fst now b t : (Breakers_Allow now b t).1 = (allow_state now (state_of b t)).1.
Proof.
  unfold Breakers_Allow, allow_state, is_closed.
  destruct (Breakers_get b t) as [s b'] eqn:G.
  destruct (get_state b t) as (E & _). rewrite G in E; simpl in E; subst.
  by repeat case_match.
Qed.

Lemma apply_op_config now o b :
  threshold (apply_op now o b) = threshold b /\ openFor (apply_op now o b) = openFor b.
Proof.
  destruct o as [t|t|t|t d]; simpl;
    unfold Breakers_Allow, Breakers_Success, Breakers_Failure, Breakers_OpenFor;
    destruct (get_state b t) as (_ & _ & H1 & H2);
    destruct (Breakers_get b t) as [s b'] eqn:G; simpl in *; go_cases; done.
Qed.

Lemma apply_op_state now o b t :
  state_of (apply_op now o b) t = step_state (threshold b) (openFor b) now o t (state_of b t).
Proof.
  destruct o as [t'|t'|t'|t' d]; simpl;
    unfold Breakers_Allow, Breakers_Success, Breakers_Failure, Breakers_OpenFor, allow_state, is_closed;
    destruct (get_state b t') as (H0 & H & H1 & H2);
    destruct (Breakers_get b t') as [s b'] eqn:G; simpl in *; subst.
  - case_decide as D; subst; repeat case_match; simpl; rewrite ?state_of_set, ?H; try done;
      by repeat case_decide.
  - rewrite state_of_set, H. by repeat case_decide.
  - rewrite H1, H2. case_decide as D; subst; case_match; rewrite state_of_set, H; by repeat case_decide.
  - rewrite (Z.leb_antisym 0 d). case_decide as D; subst;
      destruct (0 <? d); simpl; try done; repeat case_match; rewrite ?state_of_set, ?H;
      by repeat case_decide.
Qed.

(** ** Properties *)

(** Well-formedness of a breaker state at time [now]. *)
Definition breaker_wf (th : Z) (now : Time) (s : breakerState) : Prop :=
  0 <= failures s /\
  (is_closed s = true -> failures s < th /\ probing s = false) /\
  (probing s = true -> openUntil s <> 0 /\ openUntil s <= now).

Lemma is_closed_spec s : is_closed s = true <-> openUntil s = 0.
Proof. unfold is_closed, is_zero_time. apply Z.eqb_eq. Qed.

Lemma is_closed_false s : is_closed s = false <-> openUntil s <> 0.
Proof. unfold is_closed, is_zero_time. apply Z.eqb_neq. Qed.

Lemma step_state_wf th d now now' o t s :
  1 <= th -> 0 <= d -> 0 < now -> now <= now' ->
  breaker_wf th now s -> breaker_wf th now' (step_state th d now' o t s).
Proof.
  intros Hth Hd Hn Hle (Hf & Hc & Hp).
  unfold breaker_wf in *. rewrite is_closed_spec in *.
  destruct o; simpl; unfold allow_state; repeat case_decide; repeat case_match; simpl in *;
    rewrite ?is_closed_spec, ?is_closed_false in *; zbool;
    repeat split; intros; try discriminate; try tauto; try lia;
    try (destruct (Hp ltac:(done)); lia).
Qed.

Lemma allow_state_probing s now : probing s = true -> is_closed s = false ->
  allow_state now s = (false, s).
Proof. intros Hp Hc. unfold allow_state. by rewrite Hc, Hp, orb_true_r. Qed.

Lemma step_state_unresolved th d now o t s :
  resolves t o = false -> is_closed s = false ->
  is_closed (step_state th d now o t s) = false /\
  (probing s = true -> step_state th d now o t s = s).
Proof.
  intros Hr Hc. destruct o as [t'|t'|t'|t' d']; simpl in *.
  - case_decide; [|done]. split.
    + unfold allow_state. rewrite Hc. by case_match.
    + intros Hp. by rewrite allow_state_probing.
  - by rewrite decide_False by (by apply bool_decide_eq_false in Hr).
  - by rewrite decide_False by (by apply bool_decide_eq_false in Hr).
  - case_decide; [|done]. apply andb_false_iff in Hr as [Hr|Hr].
    + by apply bool_decide_eq_false in Hr.
    + by rewrite Hr.
Qed.

Definition count_true (l : list bool) : nat := length (filter (fun x => x = true) l).

Lemma count_true_cons x l : count_true (x :: l) = ((if x then 1 else 0) + count_true l)%nat.
Proof. unfold count_true. rewrite filter_cons. by destruct x. Qed.

Lemma unresolved_admissions t ops b :
  is_closed (state_of b t) = false ->
  Forall (fun o => resolves t o.2 = false) ops ->
  (count_true (admissions t ops b) <= if probing (state_of b t) then 0 else 1)%nat.
Proof.
  revert b; induction ops as [|[now o] ops IH]; intros b Hc Hr; [unfold count_true; simpl; lia|].
  apply Forall_cons in Hr as [Ho Hr]; simpl in Ho.
  pose proof (apply_op_state now o b t) as E.
  destruct (step_state_unresolved (threshold b) (openFor b) now o t (state_of b t) Ho Hc) as [Hc' Hp'].
  rewrite <- E in Hc'. specialize (IH _ Hc' Hr).
  assert (count_true (admissions t ops (apply_op now o b)) <=
          if probing (state_of b t) then 0 else 1)%nat as Hrest.
  { destruct (probing (state_of b t)) eqn:Hpb.
    - by rewrite E, Hp', Hpb in IH.
    - destruct (probing (state_of (apply_op now o b) t)); lia. }
  destruct o as [t'| | |]; simpl in *; try done.
  case_decide as D; [subst t'|done].
  rewrite count_true_cons, Allow_fst. rewrite E in IH.
  unfold allow_state in *. rewrite Hc in *.
  destruct (now <? _), (probing (state_of b t)); simpl in *; lia.
Qed.

Lemma run_ops_app ops ops' b : run_ops (ops ++ ops') b = run_ops ops' (run_ops ops b).
Proof. unfold run_ops. by rewrite fold_left_app. Qed.

Lemma run_ops_config ops b :
  threshold (run_ops ops b) = threshold b /\ openFor (run_ops ops b) = openFor b.
Proof.
  revert b; induction ops as [|[now o] ops IH]; intros b; [done|].
  change (run_ops ((now, o) :: ops) b) with (run_ops ops (apply_op now o b)).
  destruct (IH (apply_op now o b)) as [-> ->]. apply apply_op_config.
Qed.

(** State after consecutive failures of a target that was in its initial state. *)
Lemma run_failures t ts b :
  state_of b t = zero_breaker -> 1 <= threshold b -> 0 <= openFor b ->
  Forall (fun now => 0 < now) ts ->
  let b' := run_ops (map (fun now => (now, OpFailure t)) ts) b in
  probing (state_of b' t) = false /\
  failures (state_of b' t) = Z.of_nat (length ts) /\
  openUntil (state_of b' t) =
    (if (threshold b <=? Z.of_nat (length ts))%Z then default 0 (last ts) + openFor b else 0).
Proof.
  intros H0 Hth Hd Hpos b'. subst b'.
  induction ts as [|now ts IH] using rev_ind.
  - unfold run_ops, map, fold_left. rewrite H0. cbn -[Z.leb].
    change (Z.of_nat 0) with 0. by destruct (Z.leb_spec (threshold b) 0); [lia|].
  - apply Forall_app in Hpos as [Hpos Hnow]. apply Forall_singleton in Hnow.
    destruct (IH Hpos) as (Hp & Hf & Ho). clear IH.
    rewrite map_app, run_ops_app, last_snoc, length_app.
    set (b1 := run_ops _ b) in *. destruct (run_ops_config (map (fun now => (now, OpFailure t)) ts) b) as [Ct Cd].
    fold b1 in Ct, Cd.
    change (run_ops (map (fun now => (now, OpFailure t)) [now]) b1) with (apply_op now (OpFailure t) b1).
    rewrite apply_op_state. simpl. rewrite decide_True by done.
    rewrite Hp, Hf, Ho, Ct, Cd. simpl.
    replace (Z.of_nat (length ts + 1)) with (Z.of_nat (length ts) + 1) by lia.
    destruct (Z.leb_spec (threshold b) (Z.of_nat (length ts) + 1)); simpl; [done|].
    destruct (Z.leb_spec (threshold b) (Z.of_nat (length ts))); [lia|done].
Qed.

(** In every state that any interleaving of operations can reach, each
    breaker is well formed: failures are counted, a closed breaker is below the
    threshold and has no probe, and a probe is outstanding only after the
    opening interval has expired. *)
Theorem breaker_invariant (th : Z) (d : Duration) (now0 now : Time) (b : Breakers) (t : Target)
  (Hth : 1 <= th) (Hd : 0 <= d) (Hnow : 0 < now0)
  (Hreach : reachable breaker_step (now0, NewBreakers th d) (now, b)) :
  breaker_wf th now (state_of b t).
Proof.
  pose (I := fun p : Time * Breakers =>
    0 < p.1 /\ threshold p.2 = th /\ openFor p.2 = d /\
  forall t, breaker_wf th p.1 (state_of p.2 t)).
  assert (I (now, b)) as HI; [|by apply HI].
  apply (reachable_invariant breaker_step I (now0, NewBreakers th d)); [..|done].
  - repeat split; simpl; try done; try lia; unfold state_of; simpl; rewrite ?lookup_empty; simpl; lia.
  - intros [n s] [n' s'] (Hn & <- & <- & Hwf) Hs. inversion Hs; subst; simpl in *.
    destruct (apply_op_config n' o s) as [E1 E2].
    split; [simpl; lia|]. split; [exact E1|]. split; [exact E2|].
    intros t'. simpl. rewrite apply_op_state.
    apply (step_state_wf _ _ n n'); auto.
Qed.

(** C21. A half-open breaker admits exactly one probe: over any sequence of
    operations on any targets in which no call on [t] resolves, at most one
    request for [t] is admitted, none if a probe is already out, and the first
    request that arrives after the opening interval is admitted. *)
Theorem half_open_single_probe (t : Target) (ops : list (Time * breaker_op)) (b : Breakers)
  (Hopen : is_closed (state_of b t) = false)
  (Hunres : Forall (fun o => resolves t o.2 = false) ops) :
  (count_true (admissions t ops b) <= if probing (state_of b t) then 0 else 1)%nat /\
  (forall now, probing (state_of b t) = false -> openUntil (state_of b t) <= now ->
     (Breakers_Allow now b t).1 = true).
Proof.
  split; [by apply unresolved_admissions|].
  intros now Hp Ht. rewrite Allow_fst. unfold allow_state. rewrite Hopen, Hp.
  by destruct (Z.ltb_spec now (openUntil (state_of b t))); [lia|].
Qed.

(** Consecutive failures trip the breaker exactly at the threshold: below it
    every call is admitted, from it on a call is admitted exactly when the
    opening interval counted from the last failure is over. *)
Theorem threshold_trips (t : Target) (ts : list Time) (b : Breakers) (now : Time)
  (Hfresh : state_of b t = zero_breaker) (Hth : 1 <= threshold b) (Hd : 0 <= openFor b)
  (Hpos : Forall (fun n => 0 < n) ts) :
  let b' := run_ops (map (fun n => (n, OpFailure t)) ts) b in
  (Breakers_Allow now b' t).1 =
    if threshold b <=? Z.of_nat (length ts)
    then default 0 (last ts) + openFor b <=? now else true.
Proof.
  intros b'. destruct (run_failures t ts b Hfresh Hth Hd Hpos) as (Hp & _ & Ho).
  fold b' in Hp, Ho. rewrite Allow_fst. unfold allow_state, is_closed, is_zero_time.
  rewrite Hp, Ho, orb_false_r.
  destruct (Z.leb_spec (threshold b) (Z.of_nat (length ts))) as [L|]; [|done].
  destruct (last ts) as [x|] eqn:El.
  - assert (0 < x) by (apply last_Some_elem_of in El; by eapply Forall_forall in Hpos).
    simpl. destruct (Z.eqb_spec (x + openFor b) 0); [lia|].
    destruct (Z.ltb_spec now (x + openFor b)), (Z.leb_spec (x + openFor b) now); simpl; lia.
  - apply last_None in El as ->. simpl in L. lia.
Qed.

(** A Retry-After is honoured: after [OpenFor] with a positive duration, no
    request for the target is admitted before the interval is over, whatever
    other operations run, unless a call on the target resolves. *)
Theorem OpenFor_honoured (t : Target) (d : Duration) (now : Time) (b : Breakers)
  (ops : list (Time * breaker_op)) (later : Time)
  (Hd : 0 < d) (Hnow : 0 < now) (Hlater : later < now + d)
  (Hops : Forall (fun o => resolves t o.2 = false /\ o.1 < now + d) ops) :
  (Breakers_Allow later (run_ops ops (Breakers_OpenFor now b t d)) t).1 = false.
Proof.
  assert (now + d <= openUntil (state_of (Breakers_OpenFor now b t d) t)) as H0.
  { change (Breakers_OpenFor now b t d) with (apply_op now (OpOpenFor t d) b).
    rewrite apply_op_state; simpl. rewrite decide_True by done.
    destruct (Z.ltb_spec 0 d); [|lia]. simpl.
    destruct (Z.ltb_spec (openUntil (state_of b t)) (now + d)); simpl; lia. }
  revert H0. generalize (Breakers_OpenFor now b t d) as b0.
  induction ops as [|[n o] ops IH]; intros b0 H0.
  - simpl. rewrite Allow_fst. unfold allow_state.
    rewrite (proj2 (is_closed_false _)) by lia.
    by destruct (Z.ltb_spec later (openUntil (state_of b0 t))); [|lia].
  - apply Forall_cons in Hops as [[Hr Hlt] Hops]; simpl in *.
    apply IH; [done|]. rewrite apply_op_state.
    destruct o as [t'|t'|t'|t' d']; simpl in *; case_decide; try done;
      try (by apply bool_decide_eq_false in Hr).
    + unfold allow_state. rewrite (proj2 (is_closed_false _)) by lia.
      by destruct (Z.ltb_spec n (openUntil (state_of b0 t))); [|lia].
    + rewrite bool_decide_true in Hr by done. simpl in Hr. by rewrite Hr.
Qed.

(** ** Witnesses *)

Definition demo_target : Target := mkTarget "openai" "gpt-4o".

Lemma breaker_invariant_witness :
  breaker_wf 2 20 (state_of (apply_op 20 (OpFailure demo_target) (NewBreakers 2 5)) demo_target).
Proof.
  apply (breaker_invariant 2 5 10 20); [lia..|].
  eapply reach_step; [apply reach_refl|]. apply BStep. lia.
Defined.

Definition demo_open : Breakers :=
  run_ops [(10, OpFailure demo_target); (11, OpFailure demo_target)] (NewBreakers 2 5).

Definition demo_calls : list (Time * breaker_op) :=
  [(20, OpAllow demo_target); (21, OpAllow demo_target)].

Lemma half_open_single_probe_witness :
  admissions demo_target demo_calls demo_open = [true; false] /\
  (count_true (admissions demo_target demo_calls demo_open) <= 1)%nat.
Proof.
  split; [vm_compute; reflexivity|].
  apply (half_open_single_probe demo_target demo_calls demo_open);
    [vm_compute; reflexivity | repeat constructor].
Defined.

Lemma threshold_trips_witness :
  (Breakers_Allow 15 (run_ops (map (fun n => (n, OpFailure demo_target)) [10; 11]) (NewBreakers 2 5))
     demo_target).1 = false.
Proof.
  rewrite (threshold_trips demo_target [10; 11] (NewBreakers 2 5) 15);
    [reflexivity | reflexivity | simpl; lia | simpl; lia | repeat constructor].
Defined.

Lemma OpenFor_honoured_witness :
  (Breakers_Allow 14 (run_ops [(12, OpAllow demo_target)]
     (Breakers_OpenFor 10 (NewBreakers 2 5) demo_target 5)) demo_target).1 = false.
Proof.
  apply (OpenFor_honoured demo_target 5 10 (NewBreakers 2 5) [(12, OpAllow demo_target)] 14);
    [lia | lia | lia | repeat constructor].
Defined.
