(* ===== verification/Config.v ===== *)
(** * Gateway configuration (src/internal/config/config.go)

    The configuration types, [applyEnvOverrides], [applyDefaults] and [validate].
    An error of [validate] is kept as its format string and arguments.  Parsing
    of URLs, CIDR blocks and addresses by package [net] is an argument of the
    definitions that use it, as is the process environment. *)

From S2P Require Import Prelude GoStrings GoFloat Breaker.

Open Scope string_scope.
Open Scope list_scope.
Open Scope Z_scope.

(** ** Types *)

Record MCPServerConfig := mkMCPServerConfig {
  ms_Name : string; ms_URL : string; ms_Headers : gmap string string }.

Record ServerConfig := mkServerConfig {
  sv_Addr : string;
  sv_AdminAddr : string;
  sv_MetricsAddr : string;
  sv_EnablePprof : bool;
  sv_MaxRequestBodyBytes : Z;
  sv_MaxUpstreamResponseBytes : Z;
  sv_ReadHeaderTimeout : Duration;
  sv_ReadTimeout : Duration;
  sv_IdleTimeout : Duration;
  sv_DrainTimeout : Duration;
  sv_TrustedProxies : list string }.

Record DatabaseConfig := mkDatabaseConfig { db_URL : string; db_MaxConns : Z }.
Record RedisConfig := mkRedisConfig { rd_URL : string }.

Record BatcherConfig := mkBatcherConfig {
  bc_Capacity : Z; bc_BatchSize : Z; bc_FlushInterval : Duration }.

Record AnalyticsConfig := mkAnalyticsConfig {
  an_ClickHouseDSN : string;
  an_UsageBatcher : BatcherConfig;
  an_MCPBatcher : BatcherConfig;
  an_FlushTimeout : Duration;
  an_TextTTLHours : Z;
  an_TTLDays : Z;
  an_StoreText : string }.

Record TelemetryConfig := mkTelemetryConfig {
  tl_OTLPEndpoint : string; tl_ServiceName : string; tl_SampleRate : spec_float }.

Record BreakersConfig := mkBreakersConfig { bk_Threshold : Z; bk_Cooldown : Duration }.

Record AuthConfig := mkAuthConfig {
  au_CacheTTL : Duration; au_NegativeCacheTTL : Duration; au_MaxCachedKeys : Z }.

Record MCPProxyConfig := mkMCPProxyConfig {
  mp_MaxRequestBodyBytes : Z; mp_RequestTimeout : Duration }.

Record ProviderConfig := mkProviderConfig {
  pv_Name : string;
  pv_Type : string;
  pv_BaseURL : string;
  pv_APIKeyEnv : string;
  pv_APIKeyDB : bool;
  pv_Headers : gmap string string;
  pv_AllowInsecureBaseURL : bool }.

(** [previous_keks] nests the record in a list. *)
Inductive SecretsConfig := mkSecretsConfig {
  sc_KEK : string;
  sc_LocalKEKFile : string;
  sc_VaultAddr : string;
  sc_VaultKey : string;
  sc_VaultAuth : string;
  sc_VaultRole : string;
  sc_VaultTokenFile : string;
  sc_CacheTTL : Duration;
  sc_PreviousKEKs : list SecretsConfig }.

Record Price := mkPrice {
  pr_Input : spec_float; pr_Output : spec_float; pr_CachedInput : spec_float }.

Definition zero_price : Price := mkPrice f0 f0 f0.

Record RetryConfig := mkRetryConfig { rt_MaxAttempts : Z; rt_BaseDelay : Duration }.

Record CacheConfig := mkCacheConfig {
  cc_Mode : string;
  cc_Exact : bool;
  cc_ExactRaw : option bool;
  cc_Semantic : bool;
  cc_Threshold : spec_float;
  cc_TTL : Duration;
  cc_Version : Z;
  cc_EmbeddingRoute : string;
  cc_PerUser : bool;
  cc_MaxEntryBytes : Z;
  cc_AcknowledgeUncalibrated : bool;
  cc_AllowClientKey : bool;
  cc_AuditSampleRate : spec_float }.

Record InjectionGuardConfig := mkInjectionGuardConfig {
  ig_Enabled : bool; ig_Threshold : spec_float; ig_Action : string }.
Record PIIGuardConfig := mkPIIGuardConfig { pg_Enabled : bool; pg_Mode : string }.
Record GuardConfig := mkGuardConfig {
  gc_Injection : InjectionGuardConfig; gc_PII : PIIGuardConfig }.

Record SmartRouteConfig := mkSmartRouteConfig {
  sr_Mode : string;
  sr_CheapTarget : string;
  sr_StrongTarget : string;
  sr_MaxTokensForCheap : Z;
  sr_KNNEnabled : bool;
  sr_KNNRoute : string;
  sr_KNNK : Z;
  sr_ConfidenceThreshold : spec_float }.

Record HedgeConfig := mkHedgeConfig {
  hg_Enabled : bool; hg_Delay : Duration; hg_MaxExtra : spec_float }.

(** [TargetConfig] has the fields of [router.Target]. *)
Record RouteConfig := mkRouteConfig {
  rc_Name : string;
  rc_Targets : list Target;
  rc_Strategy : string;
  rc_Retry : RetryConfig;
  rc_Timeout : Duration;
  rc_Deadline : Duration;
  rc_FirstTokenTimeout : Duration;
  rc_StreamIdleTimeout : Duration;
  rc_Embeddings : bool;
  rc_Cache : CacheConfig;
  rc_Guard : GuardConfig;
  rc_SmartRoute : SmartRouteConfig;
  rc_Hedge : HedgeConfig }.

Record Defaults := mkDefaults {
  df_MaxTokensReserve : Z;
  df_DefaultMaxTokens : Z;
  df_AgentRunTTL : Duration;
  df_AgentLoopRepeats : Z;
  df_AgentLoopWindow : Z;
  df_AgentFuzzyThreshold : spec_float;
  df_EmbedderCacheSize : Z }.

Record SLO := mkSLO { slo_TTFTMs : spec_float; slo_MinTPS : spec_float; slo_MaxErrorRate : spec_float }.

Record HealthConfig := mkHealthConfig {
  hc_Alpha : spec_float;
  hc_Breaches : Z;
  hc_Recover : Duration;
  hc_MinSamples : Z;
  hc_ProbeInterval : Duration;
  hc_ProbeTimeout : Duration;
  hc_GossipAddr : string;
  hc_GossipPeers : list string;
  hc_ShareMode : string;
  hc_GossipSecret : string;
  hc_AllowUnsignedGossip : bool }.

Record CapabilityConfig := mkCapabilityConfig {
  cb_MaxContextTokens : Z; cb_SupportsVision : bool; cb_SupportsTools : option bool }.

Record AdminChatConfig := mkAdminChatConfig {
  ac_RPM : Z; ac_TPM : Z; ac_BudgetUSD : spec_float; ac_AllowedRoutes : list string }.

Record AdminAuthConfig := mkAdminAuthConfig {
  aa_Enabled : bool;
  aa_MaxLoginAttempts : Z;
  aa_LockoutDuration : Duration;
  aa_SessionIdleTimeout : Duration;
  aa_SessionAbsTimeout : Duration;
  aa_Chat : AdminChatConfig }.

Record BudgetConfig := mkBudgetConfig { bu_Reserve : string; bu_RequirePricing : option bool }.

Record ProofConfig := mkProofConfig {
  pf_MinThreshold : spec_float;
  pf_MonitorInterval : Duration;
  pf_RollbackThreshold : spec_float;
  pf_MinPairs : Z;
  pf_ShadowConsent : bool;
  pf_AllowedJudgeProviders : list string }.

Record Config := mkConfig {
  Server : ServerConfig;
  Database : DatabaseConfig;
  Redis : RedisConfig;
  Analytics : AnalyticsConfig;
  Telemetry : TelemetryConfig;
  BreakersC : BreakersConfig;
  Auth : AuthConfig;
  AdminAuth : AdminAuthConfig;
  MCP : MCPProxyConfig;
  Providers : list ProviderConfig;
  Pricing : gmap string Price;
  Budget : BudgetConfig;
  Proof : ProofConfig;
  Routes : list RouteConfig;
  Capabilities : gmap string CapabilityConfig;
  DefaultsC : Defaults;
  SLOs : gmap string SLO;
  Health : HealthConfig;
  MCPServers : list MCPServerConfig;
  MCPInsecureHosts : list string;
  Secrets : SecretsConfig;
  WatcherInterval : Duration;
  OverrideInterval : Duration }.

(** ** Small helpers *)

(** ASCII case folding, as far as the comparisons with ASCII literals need it. *)
Definition equal_fold (s t : string) : bool := String.eqb (lower_ascii s) (lower_ascii t).

Definition BudgetConfig_IsReserveStrict (b : BudgetConfig) : bool :=
  negb (String.eqb (lower_ascii (bu_Reserve b)) "off").

Definition BudgetConfig_IsRequirePricing (b : BudgetConfig) : bool :=
  match bu_RequirePricing b with None => true | Some v => v end.

(** ** applyEnvOverrides *)

Section Env.
(** [os.Getenv] (the empty string when unset) and [strconv.Atoi]. *)
Context (getenv : string -> string) (atoi : string -> option Z).

Definition env_if_empty (name cur : string) : string :=
  if negb (String.eqb (getenv name) "") && String.eqb cur "" then getenv name else cur.
Definition env_override (name cur : string) : string :=
  if negb (String.eqb (getenv name) "") then getenv name else cur.
Definition env_int (name : string) (cur : Z) : Z :=
  if negb (String.eqb (getenv name) "")
  then match atoi (getenv name) with Some n => n | None => cur end else cur.
Definition env_flag (name : string) (cur : bool) : bool :=
  if String.eqb (getenv name) "1" || equal_fold (getenv name) "true" then true else cur.

Definition applyEnvOverrides (c : Config) : Config :=
  let an := Analytics c in
  let sv := Server c in
  let he := Health c in
  mkConfig
    (mkServerConfig
       (env_override "PROOFGATE_ADDR" (sv_Addr sv))
       (env_override "PROOFGATE_ADMIN_ADDR" (sv_AdminAddr sv))
       (env_override "PROOFGATE_METRICS_ADDR" (sv_MetricsAddr sv))
       (env_flag "PROOFGATE_ENABLE_PPROF" (sv_EnablePprof sv))
       (sv_MaxRequestBodyBytes sv) (sv_MaxUpstreamResponseBytes sv) (sv_ReadHeaderTimeout sv)
       (sv_ReadTimeout sv) (sv_IdleTimeout sv) (sv_DrainTimeout sv) (sv_TrustedProxies sv))
    (mkDatabaseConfig (env_if_empty "DATABASE_URL" (db_URL (Database c))) (db_MaxConns (Database c)))
    (mkRedisConfig (env_if_empty "REDIS_URL" (rd_URL (Redis c))))
    (mkAnalyticsConfig (env_if_empty "CLICKHOUSE_DSN" (an_ClickHouseDSN an))
       (an_UsageBatcher an) (an_MCPBatcher an) (an_FlushTimeout an)
       (env_int "PROOFGATE_ANALYTICS_TEXT_TTL_HOURS" (an_TextTTLHours an))
       (env_int "PROOFGATE_ANALYTICS_TTL_DAYS" (an_TTLDays an))
       (env_override "PROOFGATE_ANALYTICS_STORE_TEXT" (an_StoreText an)))
    (mkTelemetryConfig (env_if_empty "OTEL_EXPORTER_OTLP_ENDPOINT" (tl_OTLPEndpoint (Telemetry c)))
       (tl_ServiceName (Telemetry c)) (tl_SampleRate (Telemetry c)))
    (BreakersC c) (Auth c) (AdminAuth c) (MCP c) (Providers c) (Pricing c) (Budget c) (Proof c)
    (Routes c) (Capabilities c) (DefaultsC c) (SLOs c)
    (mkHealthConfig (hc_Alpha he) (hc_Breaches he) (hc_Recover he) (hc_MinSamples he)
       (hc_ProbeInterval he) (hc_ProbeTimeout he) (hc_GossipAddr he) (hc_GossipPeers he)
       (env_override "PROOFGATE_HEALTH_SHARE_MODE" (hc_ShareMode he))
       (env_override "PROOFGATE_GOSSIP_SECRET" (hc_GossipSecret he))
       (env_flag "PROOFGATE_GOSSIP_ALLOW_UNSIGNED" (hc_AllowUnsignedGossip he)))
    (MCPServers c) (MCPInsecureHosts c) (Secrets c) (WatcherInterval c) (OverrideInterval c).

(** ** applyDefaults *)

Definition orz (x d : Z) : Z := if x =? 0 then d else x.
Definition ors (x d : string) : string := if String.eqb x "" then d else x.
Definition orf (x d : spec_float) : spec_float := if feqb x f0 then d else x.

Definition default_server (s : ServerConfig) : ServerConfig :=
  mkServerConfig (ors (sv_Addr s) ":8080") (ors (sv_AdminAddr s) "127.0.0.1:9090")
    (ors (sv_MetricsAddr s) "127.0.0.1:9091") (sv_EnablePprof s)
    (orz (sv_MaxRequestBodyBytes s) (Z.shiftl 10 20)) (orz (sv_MaxUpstreamResponseBytes s) (Z.shiftl 32 20))
    (orz (sv_ReadHeaderTimeout s) (10 * second)) (orz (sv_ReadTimeout s) (15 * second))
    (orz (sv_IdleTimeout s) (120 * second)) (orz (sv_DrainTimeout s) (30 * second)) (sv_TrustedProxies s).

Definition default_batcher (cap size : Z) (b : BatcherConfig) : BatcherConfig :=
  mkBatcherConfig (orz (bc_Capacity b) cap) (orz (bc_BatchSize b) size) (orz (bc_FlushInterval b) second).

Definition default_analytics (a : AnalyticsConfig) : AnalyticsConfig :=
  mkAnalyticsConfig (an_ClickHouseDSN a)
    (default_batcher 50000 5000 (an_UsageBatcher a)) (default_batcher 20000 2000 (an_MCPBatcher a))
    (orz (an_FlushTimeout a) (10 * second)) (orz (an_TextTTLHours a) 72) (orz (an_TTLDays a) 30)
    (ors (an_StoreText a) "hash").

Definition default_cache (c : CacheConfig) : CacheConfig :=
  mkCacheConfig (ors (cc_Mode c) "off") (match cc_ExactRaw c with None => true | Some b => b end)
    (cc_ExactRaw c) (cc_Semantic c) (orf (cc_Threshold c) (f_lit 95 100)) (orz (cc_TTL c) (24 * hour))
    (orz (cc_Version c) 1) (cc_EmbeddingRoute c) (cc_PerUser c) (orz (cc_MaxEntryBytes c) (Z.shiftl 64 10))
    (cc_AcknowledgeUncalibrated c) (cc_AllowClientKey c) (cc_AuditSampleRate c).

Definition default_route (r : RouteConfig) : RouteConfig :=
  let timeout := orz (rc_Timeout r) (120 * second) in
  mkRouteConfig (rc_Name r) (rc_Targets r) (ors (rc_Strategy r) "fallback")
    (mkRetryConfig (orz (rt_MaxAttempts (rc_Retry r)) 2) (orz (rt_BaseDelay (rc_Retry r)) (200 * millisecond)))
    timeout (orz (rc_Deadline r) (90 * second))
    (if rc_FirstTokenTimeout r =? 0
     then if (0 <? timeout) && (timeout <? 15 * second) then timeout else 15 * second
     else rc_FirstTokenTimeout r)
    (orz (rc_StreamIdleTimeout r) (30 * second)) (rc_Embeddings r) (default_cache (rc_Cache r))
    (rc_Guard r) (rc_SmartRoute r)
    (mkHedgeConfig (hg_Enabled (rc_Hedge r)) (hg_Delay (rc_Hedge r)) (orf (hg_MaxExtra (rc_Hedge r)) (f_lit 10 100))).

Definition default_defaults (d : Defaults) : Defaults :=
  mkDefaults (orz (df_MaxTokensReserve d) 4096) (orz (df_DefaultMaxTokens d) 1024)
    (orz (df_AgentRunTTL d) hour) (orz (df_AgentLoopRepeats d) 3) (orz (df_AgentLoopWindow d) 20)
    (orf (df_AgentFuzzyThreshold d) (f_lit 95 100)) (orz (df_EmbedderCacheSize d) 10000).

Definition default_admin_auth (a : AdminAuthConfig) : AdminAuthConfig :=
  mkAdminAuthConfig (aa_Enabled a) (orz (aa_MaxLoginAttempts a) 5) (orz (aa_LockoutDuration a) (15 * minute))
    (orz (aa_SessionIdleTimeout a) (30 * minute)) (orz (aa_SessionAbsTimeout a) (12 * hour))
    (mkAdminChatConfig (orz (ac_RPM (aa_Chat a)) 60) (orz (ac_TPM (aa_Chat a)) 100000)
       (orf (ac_BudgetUSD (aa_Chat a)) (f_of_Z 10)) (ac_AllowedRoutes (aa_Chat a))).

Definition default_proof (p : ProofConfig) : ProofConfig :=
  mkProofConfig (orf (pf_MinThreshold p) (f_lit 86 100)) (orz (pf_MonitorInterval p) (60 * second))
    (orf (pf_RollbackThreshold p) (f_lit (-5) 100)) (orz (pf_MinPairs p) 50) (pf_ShadowConsent p)
    (pf_AllowedJudgeProviders p).

Definition default_health (redis_url : string) (h : HealthConfig) : HealthConfig :=
  mkHealthConfig (orf (hc_Alpha h) (f_lit 2 10)) (orz (hc_Breaches h) 3) (orz (hc_Recover h) (30 * second))
    (orz (hc_MinSamples h) 10) (orz (hc_ProbeInterval h) (10 * second)) (orz (hc_ProbeTimeout h) (10 * second))
    (hc_GossipAddr h) (hc_GossipPeers h)
    (ors (hc_ShareMode h)
       (if negb (String.eqb redis_url "") || negb (String.eqb (getenv "REDIS_URL") "") then "redis"
        else if negb (String.eqb (hc_GossipAddr h) "") then "gossip" else "none"))
    (hc_GossipSecret h) (hc_AllowUnsignedGossip h).

Definition default_secrets (s : SecretsConfig) : SecretsConfig :=
  mkSecretsConfig (ors (sc_KEK s) "local") (sc_LocalKEKFile s) (sc_VaultAddr s) (sc_VaultKey s) (sc_VaultAuth s)
    (sc_VaultRole s)
    (if String.eqb (sc_VaultAuth s) "kubernetes" && String.eqb (sc_VaultTokenFile s) ""
     then "/var/run/secrets/kubernetes.io/serviceaccount/token" else sc_VaultTokenFile s)
    (orz (sc_CacheTTL s) (60 * second)) (sc_PreviousKEKs s).

Definition applyDefaults (c : Config) : Config :=
  mkConfig (default_server (Server c))
    (mkDatabaseConfig (db_URL (Database c)) (orz (db_MaxConns (Database c)) 20))
    (Redis c) (default_analytics (Analytics c))
    (mkTelemetryConfig (tl_OTLPEndpoint (Telemetry c)) (ors (tl_ServiceName (Telemetry c)) "proofgate")
       (orf (tl_SampleRate (Telemetry c)) f1))
    (mkBreakersConfig (orz (bk_Threshold (BreakersC c)) 5) (orz (bk_Cooldown (BreakersC c)) (30 * second)))
    (mkAuthConfig (orz (au_CacheTTL (Auth c)) (30 * second)) (orz (au_NegativeCacheTTL (Auth c)) (5 * second))
       (orz (au_MaxCachedKeys (Auth c)) 100000))
    (default_admin_auth (AdminAuth c))
    (mkMCPProxyConfig (orz (mp_MaxRequestBodyBytes (MCP c)) (Z.shiftl 4 20)) (orz (mp_RequestTimeout (MCP c)) (60 * second)))
    (Providers c) (Pricing c)
    (mkBudgetConfig (ors (bu_Reserve (Budget c)) "strict") (bu_RequirePricing (Budget c)))
    (default_proof (Proof c)) (map default_route (Routes c)) (Capabilities c)
    (default_defaults (DefaultsC c)) (SLOs c) (default_health (rd_URL (Redis c)) (Health c))
    (MCPServers c) (MCPInsecureHosts c) (default_secrets (Secrets c))
    (orz (WatcherInterval c) (5 * second)) (orz (OverrideInterval c) (10 * second)).
End Env.

(** ** validate *)

(** An error of the joined list: the format string of the message and its
    arguments. *)
Record cfg_error := mkCfgError { ce_format : string; ce_args : list string }.

Definition check (bad : bool) (fmt : string) (args : list string) : list cfg_error :=
  if bad then [mkCfgError fmt args] else [].

(** Membership of a value in the cases of a switch. *)
Definition one_of (s : string) (l : list string) : bool := existsb (String.eqb s) l.

Record parsed_url := mkUrl { url_scheme : string; url_hostname : string }.

Section Validate.
(** Package [net]: [net.SplitHostPort] (the host), [net.ParseIP] with the tests
    the code makes on its result, [net.ParseCIDR]; package [net/url]: [url.Parse]. *)
Context {IP IPNet : Type}
  (split_host_port : string -> option string) (parse_ip : string -> option IP)
  (ip_is_v4 ip_is_loopback : IP -> bool) (parse_cidr : string -> option IPNet)
  (url_parse : string -> option parsed_url).

(** [strings.Trim(host, "[]")] *)
Definition is_bracket (c : ascii) : bool := Ascii.eqb c (byte_at 91) || Ascii.eqb c (byte_at 93).
Definition trim_brackets (s : string) : string := trim_right is_bracket (trim_left is_bracket s).

Definition IsLoopbackAddr (addr : string) : bool :=
  if String.eqb addr "" then false
  else
    let host := trim_brackets (match split_host_port addr with Some h => h | None => addr end) in
    if String.eqb host "" then false
    else if equal_fold host "localhost" then true
    else match parse_ip host with Some ip => ip_is_loopback ip | None => false end.

(** [Left cidr] is the error's argument. *)
Fixpoint parse_proxies (l : list string) : string + list IPNet :=
  match l with
  | [] => inr []
  | c :: l' =>
      let cidr := trim_space c in
      if String.eqb cidr "" then parse_proxies l'
      else
        let cidr := if contains cidr "/" then cidr
                    else match parse_ip cidr with
                         | Some ip => cidr +:+ (if ip_is_v4 ip then "/32" else "/128")
                         | None => cidr
                         end in
        match parse_cidr cidr with
        | None => inl cidr
        | Some n => match parse_proxies l' with inl e => inl e | inr ns => inr (n :: ns) end
        end
  end.

Definition ParsedTrustedProxies (s : ServerConfig) : string + list IPNet :=
  parse_proxies (sv_TrustedProxies s).

Definition batcher_bad (b : BatcherConfig) : bool :=
  (bc_Capacity b <? 0) || (bc_BatchSize b <? 0) || (bc_FlushInterval b <? 0).

Definition validate_limits (c : Config) : list cfg_error :=
  let sv := Server c in let an := Analytics c in let aa := AdminAuth c in
  let he := Health c in let df := DefaultsC c in
  check (sv_MaxRequestBodyBytes sv <? 0) "server.max_request_body_bytes must be >= 0" [] ++
  check (sv_MaxUpstreamResponseBytes sv <? 0) "server.max_upstream_response_bytes must be >= 0" [] ++
  check (sv_ReadHeaderTimeout sv <? 0) "server.read_header_timeout must be >= 0" [] ++
  check (sv_IdleTimeout sv <? 0) "server.idle_timeout must be >= 0" [] ++
  match ParsedTrustedProxies sv with
  | inl e => [mkCfgError "server.trusted_proxies: invalid trusted_proxy CIDR %q: %w" [e]]
  | inr _ => []
  end ++
  check (sv_DrainTimeout sv <? 0) "server.drain_timeout must be >= 0" [] ++
  check (db_MaxConns (Database c) <? 0) "database.max_conns must be >= 0" [] ++
  check (batcher_bad (an_UsageBatcher an)) "analytics.usage_batcher parameters must be >= 0" [] ++
  check (batcher_bad (an_MCPBatcher an)) "analytics.mcp_batcher parameters must be >= 0" [] ++
  check (an_FlushTimeout an <? 0) "analytics.flush_timeout must be >= 0" [] ++
  check (an_TextTTLHours an <? 0) "analytics.text_ttl_hours must be >= 0" [] ++
  check (an_TTLDays an <? 0) "analytics.ttl_days must be >= 0" [] ++
  check (negb (one_of (an_StoreText an) [""; "full"; "hash"; "none"]))
    "analytics.store_text must be one of: full, hash, none (got %q)" [an_StoreText an] ++
  check (bk_Threshold (BreakersC c) <? 0) "breakers.threshold must be >= 0" [] ++
  check (bk_Cooldown (BreakersC c) <? 0) "breakers.cooldown must be >= 0" [] ++
  check (fltb (tl_SampleRate (Telemetry c)) f0 || fgtb (tl_SampleRate (Telemetry c)) f1)
    "telemetry.sample_rate must be between 0.0 and 1.0 (got %v)" [] ++
  check ((au_CacheTTL (Auth c) <? 0) || (au_NegativeCacheTTL (Auth c) <? 0) || (au_MaxCachedKeys (Auth c) <? 0))
    "auth settings must be >= 0" [] ++
  check (mp_MaxRequestBodyBytes (MCP c) <? 0) "mcp.max_request_body_bytes must be >= 0" [] ++
  check (mp_RequestTimeout (MCP c) <? 0) "mcp.request_timeout must be >= 0" [] ++
  check ((df_MaxTokensReserve df <? 0) || (df_DefaultMaxTokens df <? 0) || (df_EmbedderCacheSize df <? 0))
    "defaults limits must be >= 0" [] ++
  check ((df_AgentLoopRepeats df <? 0) || (df_AgentLoopWindow df <? 0)) "defaults.agent_loop settings must be >= 0" [] ++
  check (fltb (df_AgentFuzzyThreshold df) f0 || fgtb (df_AgentFuzzyThreshold df) f1)
    "defaults.agent_fuzzy_threshold must be between 0 and 1.0" [] ++
  check (hc_ProbeTimeout he <? 0) "health.probe_timeout must be >= 0" [] ++
  check (equal_fold (hc_ShareMode he) "gossip" && String.eqb (hc_GossipSecret he) "" && negb (hc_AllowUnsignedGossip he))
    "gossip_secret is required when share_mode=gossip (set gossip_allow_unsigned=true to override)" [] ++
  check (aa_SessionIdleTimeout aa <? minute) "admin_auth.session_idle_timeout minimum is 1m" [] ++
  check (aa_SessionAbsTimeout aa <? aa_SessionIdleTimeout aa)
    "admin_auth.session_absolute_timeout must be >= session_idle_timeout" [] ++
  check (aa_MaxLoginAttempts aa <? 1) "admin_auth.max_login_attempts must be >= 1" [] ++
  check (aa_LockoutDuration aa <? minute) "admin_auth.lockout_duration minimum is 1m" [] ++
  check ((WatcherInterval c <? 0) || (OverrideInterval c <? 0))
    "watcher_interval and override_interval must be >= 0" [] ++
  check (bool_decide (Providers c = [])) "at least one provider is required" [] ++
  check (bool_decide (Routes c = [])) "at least one route is required" [].

Definition host_is_local (name h : string) : bool :=
  one_of h ["localhost"; "127.0.0.1"; "::1"] || has_suffix ".local" h || contains h "docker" ||
  has_prefix "mock" name || contains h "ollama" || negb (contains h ".").

Definition validate_base_url (p : ProviderConfig) : list cfg_error :=
  let name := pv_Name p in
  if String.eqb (pv_BaseURL p) "" then [mkCfgError "provider %q: base_url is required" [name]]
  else match url_parse (pv_BaseURL p) with
  | None => [mkCfgError "provider %q: base_url %q is invalid: %w" [name; pv_BaseURL p]]
  | Some u =>
      let isLoopback := host_is_local name (url_hostname u) in
      (if negb (one_of (url_scheme u) ["http"; "https"])
       then [mkCfgError "provider %q: base_url %q must have http or https scheme" [name; pv_BaseURL p]]
       else check (String.eqb (url_scheme u) "http" && negb isLoopback && negb (pv_AllowInsecureBaseURL p))
              "provider %q: base_url %q must use https unless loopback or allow_insecure_base_url is true"
              [name; pv_BaseURL p]) ++
      check (negb isLoopback && String.eqb (pv_APIKeyEnv p) "" && negb (pv_APIKeyDB p))
        "provider %q: external providers require api_key_env or api_key_db" [name]
  end.

(** The loop over the providers; [seen] are the names of the map [provs]. *)
Fixpoint validate_providers (seen : list string) (l : list ProviderConfig) : list cfg_error :=
  match l with
  | [] => []
  | p :: l' =>
      check (bool_decide (pv_Name p ∈ seen)) "duplicate provider %q" [pv_Name p] ++
      check (negb (one_of (pv_Type p) ["openai"; "anthropic"; "gemini"]))
        "provider %q: unknown type %q" [pv_Name p; pv_Type p] ++
      validate_base_url p ++
      check (negb (String.eqb (pv_APIKeyEnv p) "") && pv_APIKeyDB p)
        "provider %q: api_key_env and api_key_db are mutually exclusive" [pv_Name p] ++
      validate_providers (pv_Name p :: seen) l'
  end.

(** The key check shared by the pricing and the SLO tables. *)
Definition validate_key (what : string) (provs : list string) (key : string) : list cfg_error :=
  let '(p, m, ok) := cut key "/" in
  if negb ok || String.eqb p "" || String.eqb m ""
  then [mkCfgError (what +:+ " %q: key must be 'provider/model'") [key]]
  else check (negb (bool_decide (p ∈ provs))) (what +:+ " %q: unknown provider %q") [key; p].

Definition map_keys {V} (m : gmap string V) : list string := map fst (map_to_list m).

Definition validate_route_fields (r : RouteConfig) : list cfg_error :=
  let n := rc_Name r in
  check (bool_decide (rc_Targets r = [])) "route %q: needs at least one target" [n] ++
  check (negb (one_of (rc_Strategy r) ["fallback"; "cheapest"])) "route %q: unknown strategy %q" [n; rc_Strategy r] ++
  check (rt_MaxAttempts (rc_Retry r) <? 0) "route %q: retry.max_attempts must be >= 0" [n] ++
  check (rt_BaseDelay (rc_Retry r) <? 0) "route %q: retry.base_delay must be >= 0" [n] ++
  check (rc_Timeout r <? 0) "route %q: timeout must be >= 0" [n] ++
  check (rc_Deadline r <? 0) "route %q: deadline must be >= 0" [n] ++
  check (rc_FirstTokenTimeout r <? 0) "route %q: first_token_timeout must be >= 0" [n] ++
  check (rc_StreamIdleTimeout r <? 0) "route %q: stream_idle_timeout must be >= 0" [n] ++
  check (hg_Enabled (rc_Hedge r) && (fltb (hg_MaxExtra (rc_Hedge r)) f0 || fgtb (hg_MaxExtra (rc_Hedge r)) f1))
    "route %q: hedge.max_extra must be in [0, 1]" [n] ++
  check (cc_MaxEntryBytes (rc_Cache r) <? 0) "route %q: cache.max_entry_bytes must be >= 0" [n] ++
  check (negb (one_of (ig_Action (gc_Injection (rc_Guard r))) [""; "block"; "warn"]))
    "route %q: unknown injection guard action %q" [n; ig_Action (gc_Injection (rc_Guard r))] ++
  check (negb (one_of (pg_Mode (gc_PII (rc_Guard r))) [""; "redact"; "mask"]))
    "route %q: unknown pii guard mode %q" [n; pg_Mode (gc_PII (rc_Guard r))] ++
  check (negb (one_of (sr_Mode (rc_SmartRoute r)) [""; "off"; "shadow"; "on"]))
    "route %q: unknown smart_route mode %q" [n; sr_Mode (rc_SmartRoute r)].

Definition validate_target (provs : list string) (pricing : gmap string Price) (r : RouteConfig)
    (t : Target) : list cfg_error :=
  check (negb (bool_decide (Provider t ∈ provs))) "route %q: unknown provider %q" [rc_Name r; Provider t] ++
  check (String.eqb (rc_Strategy r) "cheapest" &&
         negb (bool_decide (is_Some (pricing !! (Provider t +:+ "/" +:+ Model t)))))
    "route %q: strategy cheapest needs pricing for %s/%s" [rc_Name r; Provider t; Model t].

Definition validate_route_cache (embed_routes : list string) (r : RouteConfig) : list cfg_error :=
  let cc := rc_Cache r in let n := rc_Name r in
  check (negb (one_of (cc_Mode cc) ["off"; "on"; "shadow"])) "route %q: unknown cache mode %q" [n; cc_Mode cc] ++
  check (fleb (cc_Threshold cc) f0 || fgtb (cc_Threshold cc) f1) "route %q: cache threshold must be in (0, 1]" [n] ++
  (if cc_Semantic cc then
     if String.eqb (cc_EmbeddingRoute cc) ""
     then [mkCfgError "route %q: semantic cache needs embedding_route" [n]]
     else check (negb (bool_decide (cc_EmbeddingRoute cc ∈ embed_routes)))
            "route %q: embedding_route %q must name a route with embeddings: true" [n; cc_EmbeddingRoute cc]
   else []).

Fixpoint validate_routes (provs embed_routes : list string) (pricing : gmap string Price)
    (seen : list string) (l : list RouteConfig) : list cfg_error :=
  match l with
  | [] => []
  | r :: l' =>
      check (String.eqb (rc_Name r) "" || contains (rc_Name r) "/")
        "route name %q must be non-empty and contain no '/'" [rc_Name r] ++
      check (bool_decide (rc_Name r ∈ seen)) "duplicate route %q" [rc_Name r] ++
      validate_route_fields r ++
      concat (map (validate_target provs pricing r) (rc_Targets r)) ++
      validate_route_cache embed_routes r ++
      validate_routes provs embed_routes pricing (rc_Name r :: seen) l'
  end.

(** [^[a-z0-9_-]{1,32}$] *)
Definition mcp_name_byte (c : ascii) : bool :=
  is_lower c || is_digit c || Ascii.eqb c (byte_at 95) || Ascii.eqb c (byte_at 45).
Definition mcpNameRe (s : string) : bool :=
  (1 <=? slen s) && (slen s <=? 32) && sforall mcp_name_byte s.

Definition validate_mcp_url (insecure : list string) (s : MCPServerConfig) : list cfg_error :=
  match url_parse (ms_URL s) with
  | None => [mkCfgError "mcp server %q: invalid url %q: %w" [ms_Name s; ms_URL s]]
  | Some u =>
      if String.eqb (url_scheme u) "https" then []
      else if String.eqb (url_scheme u) "http"
      then check (negb (String.eqb (url_hostname u) "localhost") && negb (has_suffix ".local" (url_hostname u)) &&
                  negb (bool_decide (url_hostname u ∈ insecure)))
             "mcp server %q: url must be https (http allowed only for localhost, .local or mcp_insecure_hosts)"
             [ms_Name s]
      else [mkCfgError "mcp server %q: url must have https or http scheme" [ms_Name s]]
  end.

Fixpoint validate_mcp (insecure seen : list string) (l : list MCPServerConfig) : list cfg_error :=
  match l with
  | [] => []
  | s :: l' =>
      check (negb (mcpNameRe (ms_Name s))) "mcp server name %q must match ^[a-z0-9_-]{1,32}$" [ms_Name s] ++
      check (bool_decide (ms_Name s ∈ seen)) "duplicate mcp server %q" [ms_Name s] ++
      validate_mcp_url insecure s ++
      validate_mcp insecure (ms_Name s :: seen) l'
  end.

Definition provider_names (c : Config) : list string := map pv_Name (Providers c).
Definition embedding_routes (c : Config) : list string :=
  map rc_Name (filter (fun r => rc_Embeddings r = true) (Routes c)).

(** [validate]: the empty list is the nil error. *)
Definition validate (c : Config) : list cfg_error :=
  let provs := provider_names c in
  validate_limits c ++
  validate_providers [] (Providers c) ++
  concat (map (validate_key "pricing" provs) (map_keys (Pricing c))) ++
  check (fltb (hc_Alpha (Health c)) f0 || fgtb (hc_Alpha (Health c)) f1) "health.alpha must be in [0, 1]" [] ++
  check (negb (one_of (hc_ShareMode (Health c)) [""; "none"; "redis"; "gossip"]))
    "health.share_mode must be one of: none, redis, gossip (got %q)" [hc_ShareMode (Health c)] ++
  concat (map (validate_key "slo" provs) (map_keys (SLOs c))) ++
  validate_routes provs (embedding_routes c) (Pricing c) [] (Routes c) ++
  validate_mcp (MCPInsecureHosts c) [] (MCPServers c).
End Validate.

(** [Parse] after the YAML decoder. *)
Definition Parse_decoded {IP IPNet : Type} (getenv : string -> string) (atoi : string -> option Z)
    (parse_ip : string -> option IP) (ip_is_v4 : IP -> bool) (parse_cidr : string -> option IPNet)
    (url_parse : string -> option parsed_url) (c : Config) : list cfg_error + Config :=
  let c := applyDefaults getenv (applyEnvOverrides getenv atoi c) in
  match validate parse_ip ip_is_v4 parse_cidr url_parse c with
  | [] => inr c
  | errs => inl errs
  end.

(** ** Lemmas *)

Lemma check_nil b f args : check b f args = [] <-> b = false.
Proof. by destruct b. Qed.

Lemma one_of_elem s l : one_of s l = true <-> s ∈ l.
Proof.
  unfold one_of. rewrite existsb_exists. split.
  - intros (x & Hx & E). apply String.eqb_eq in E as ->. by apply list_elem_of_In.
  - intros H. exists s. rewrite String.eqb_refl. split; [by apply list_elem_of_In|done].
Qed.

Lemma concat_map_nil {A B} (f : A -> list B) l :
  concat (map f l) = [] <-> Forall (fun x => f x = []) l.
Proof.
  induction l as [|x l IH]; simpl; [by split; constructor|].
  rewrite Forall_cons, <- IH. split; [apply app_eq_nil|by intros [-> ->]].
Qed.

(** Split a hypothesis that says a concatenation of checks is empty. *)
Ltac split_nil :=
  repeat match goal with
  | H : _ ++ _ = [] |- _ => apply app_eq_nil in H as [? H]
  | H : check _ _ _ = [] |- _ => apply check_nil in H
  end.

Lemma orz_idem x d : d <> 0 -> orz (orz x d) d = orz x d.
Proof. unfold orz. intros Hd. destruct (Z.eqb_spec x 0); [by destruct (Z.eqb_spec d 0)|by destruct (Z.eqb_spec x 0)]. Qed.

Lemma ors_idem x d : d <> "" -> ors (ors x d) d = ors x d.
Proof. unfold ors. intros Hd. destruct (String.eqb_spec x ""); [by destruct (String.eqb_spec d "")|by destruct (String.eqb_spec x "")]. Qed.

Lemma orf_idem x d : feqb d f0 = false -> orf (orf x d) d = orf x d.
Proof. unfold orf. intros Hd. destruct (feqb x f0) eqn:E; [by rewrite Hd|by rewrite E]. Qed.

Lemma orz_pos x d : 0 < d -> 0 <= orz x d -> 0 < orz x d.
Proof. unfold orz. destruct (Z.eqb_spec x 0); lia. Qed.

Ltac dflt := rewrite ?orz_idem, ?ors_idem, ?orf_idem by (first [discriminate | done | lia | vm_compute; congruence]).

Lemma default_cache_idem c : default_cache (default_cache c) = default_cache c.
Proof. unfold default_cache; simpl. by dflt. Qed.

Lemma default_route_idem r : default_route (default_route r) = default_route r.
Proof.
  unfold default_route; simpl. rewrite default_cache_idem. dflt. f_equal.
  set (t := orz (rc_Timeout r) (120 * second)).
  destruct (Z.eqb_spec (rc_FirstTokenTimeout r) 0) as [E|E]; [|by destruct (Z.eqb_spec (rc_FirstTokenTimeout r) 0)].
  destruct (Z.ltb_spec 0 t); simpl; [|done].
  destruct (Z.ltb_spec t (15 * second)); [|done].
  by destruct (Z.eqb_spec t 0); [lia|].
Qed.

Lemma default_secrets_idem s : default_secrets (default_secrets s) = default_secrets s.
Proof.
  destruct s. unfold default_secrets; simpl. dflt. f_equal.
  destruct (String.eqb _ "kubernetes"); simpl; [|done].
  by apply (ors_idem _ "/var/run/secrets/kubernetes.io/serviceaccount/token").
Qed.

Lemma default_health_idem getenv u h :
  default_health getenv u (default_health getenv u h) = default_health getenv u h.
Proof.
  unfold default_health; simpl. dflt. f_equal. apply ors_idem. by repeat case_match.
Qed.

(** What [validate] guarantees of a route the router will serve. *)
Definition route_sound (c : Config) (r : RouteConfig) : Prop :=
  rc_Name r <> "" /\ contains (rc_Name r) "/" = false /\
  rc_Targets r <> [] /\
  rc_Strategy r ∈ ["fallback"; "cheapest"] /\
  0 <= rt_MaxAttempts (rc_Retry r) /\ 0 <= rt_BaseDelay (rc_Retry r) /\ 0 <= rc_Deadline r /\
  Forall (fun t => Provider t ∈ provider_names c /\
    (rc_Strategy r = "cheapest" -> is_Some (Pricing c !! (Provider t +:+ "/" +:+ Model t)))) (rc_Targets r).

Lemma validate_target_nil provs pricing r t :
  validate_target provs pricing r t = [] ->
  Provider t ∈ provs /\
  (rc_Strategy r = "cheapest" -> is_Some (pricing !! (Provider t +:+ "/" +:+ Model t))).
Proof.
  unfold validate_target. intros H. split_nil. split.
  - by apply negb_false_iff, bool_decide_eq_true in H0.
  - intros Hs. rewrite Hs in H. simpl in H.
    by apply negb_false_iff, bool_decide_eq_true in H.
Qed.

Lemma validate_routes_nil c embed seen l :
  validate_routes (provider_names c) embed (Pricing c) seen l = [] ->
  Forall (route_sound c) l /\ NoDup (map rc_Name l) /\
  Forall (fun r => rc_Name r ∉ seen) l.
Proof.
  revert seen; induction l as [|r l IH]; intros seen H; simpl in H; [repeat constructor|].
  unfold validate_route_fields in H. split_nil.
  destruct (IH (rc_Name r :: seen) H) as (Hall & Hnd & Hseen).
  repeat match goal with
  | H : _ || _ = false |- _ => apply orb_false_iff in H as [? ?]
  | H : bool_decide _ = false |- _ => apply bool_decide_eq_false in H
  | H : negb _ = false |- _ => apply negb_false_iff in H
  | H : concat _ = [] |- _ => apply concat_map_nil in H
  | H : one_of _ _ = true |- _ => apply one_of_elem in H
  | H : String.eqb _ _ = false |- _ => apply String.eqb_neq in H
  | H : (_ <? _) = false |- _ => apply Z.ltb_ge in H
  end.
  split; [constructor; [|done]|split; [constructor|constructor]].
  - repeat split; try done. eapply Forall_impl; [eassumption|]. intros t. apply validate_target_nil.
  - intros Hin. apply list_elem_of_In, in_map_iff in Hin as (r' & E & Hin%list_elem_of_In).
    eapply Forall_forall in Hseen; [|exact Hin]. apply Hseen. rewrite E. constructor.
  - done.
  - done.
  - eapply Forall_impl; [exact Hseen|]. intros r' Hr' Hin. apply Hr'. by constructor.
Qed.

(** ** Properties *)

(** Defaults are applied once and for all: applying them to a configuration
    that already has them changes nothing. *)
Theorem applyDefaults_idempotent (getenv : string -> string) (c : Config) :
  applyDefaults getenv (applyDefaults getenv c) = applyDefaults getenv c.
Proof.
  unfold applyDefaults, default_server, default_analytics, default_batcher, default_admin_auth,
    default_proof, default_defaults; simpl.
  rewrite default_health_idem, default_secrets_idem. dflt.
  rewrite map_map. f_equal. apply map_ext. intros r. apply default_route_idem.
Qed.

Section Parsed.
Context {IP IPNet : Type} (getenv : string -> string) (atoi : string -> option Z)
  (parse_ip : string -> option IP) (ip_is_v4 : IP -> bool) (parse_cidr : string -> option IPNet)
  (url_parse : string -> option parsed_url).

Lemma Parse_validates c c' :
  Parse_decoded getenv atoi parse_ip ip_is_v4 parse_cidr url_parse c = inr c' ->
  c' = applyDefaults getenv (applyEnvOverrides getenv atoi c) /\
  validate parse_ip ip_is_v4 parse_cidr url_parse c' = [].
Proof.
  unfold Parse_decoded. intros H.
  destruct (validate _ _ _ _ _) eqn:E in H; [|done]. by simplify_eq.
Qed.

(** C33. A configuration that [Parse] accepts is one the router, the breakers and
    the login throttle can rely on: the breaker threshold and cooldown are
    positive, every retry policy allows an attempt, at least one attempt to log
    in is allowed, the session timeouts are ordered, route names are unique and
    free of '/', and every route has a target, every target a known provider and,
    for the cheapest strategy, a price. *)
Theorem Parse_sound (c c' : Config)
  (Hparse : Parse_decoded getenv atoi parse_ip ip_is_v4 parse_cidr url_parse c = inr c') :
  1 <= bk_Threshold (BreakersC c') /\ 0 < bk_Cooldown (BreakersC c') /\
  Forall (fun r => 1 <= rt_MaxAttempts (rc_Retry r)) (Routes c') /\
  1 <= aa_MaxLoginAttempts (AdminAuth c') /\
  minute <= aa_SessionIdleTimeout (AdminAuth c') <= aa_SessionAbsTimeout (AdminAuth c') /\
  Routes c' <> [] /\ NoDup (map rc_Name (Routes c')) /\ Forall (route_sound c') (Routes c').
Proof.
  apply Parse_validates in Hparse as [Hc Hv].
  unfold validate, validate_limits in Hv. split_nil.
  match goal with H : validate_routes _ _ _ _ _ = [] |- _ => apply validate_routes_nil in H as (Hall & Hnd & _) end.
  assert (Forall (fun r => 1 <= rt_MaxAttempts (rc_Retry r)) (Routes c')) as Hretry.
  { rewrite Forall_forall in Hall |- *. intros r Hr. destruct (Hall r Hr) as (_&_&_&_&Hm&_).
    rewrite Hc in Hr. apply list_elem_of_In, in_map_iff in Hr as (r0 & <- & _).
    simpl in *. pose proof (orz_pos (rt_MaxAttempts (rc_Retry r0)) 2). lia. }
  assert (0 <= bk_Threshold (BreakersC c') -> 1 <= bk_Threshold (BreakersC c')) as Hth.
  { rewrite Hc; simpl. pose proof (orz_pos (bk_Threshold (BreakersC c)) 5). lia. }
  assert (0 <= bk_Cooldown (BreakersC c') -> 0 < bk_Cooldown (BreakersC c')) as Hcool.
  { rewrite Hc; simpl. apply orz_pos. unfold second; lia. }
  repeat match goal with
  | H : (_ <? _) = false |- _ => apply Z.ltb_ge in H
  | H : bool_decide (Routes _ = []) = false |- _ => apply bool_decide_eq_false in H
  end.
  repeat split; auto; lia.
Qed.
End Parsed.

(** The documented trace sampling ratio 0.0 cannot be configured: a sampling
    rate of zero is replaced by 1.0, so every trace is sampled. *)
Theorem sample_rate_zero_becomes_one (getenv : string -> string) (c : Config)
  (Hzero : tl_SampleRate (Telemetry c) = f_of_Z 0) :
  tl_SampleRate (Telemetry (applyDefaults getenv c)) = f_of_Z 1.
Proof. simpl. rewrite Hzero. reflexivity. Qed.

(** ** Witnesses *)

Definition demo_cache_cfg : CacheConfig :=
  mkCacheConfig "" false None false f0 0 0 "" false 0 false false f0.

Definition demo_route_cfg : RouteConfig :=
  mkRouteConfig "chat" [demo_target] "" (mkRetryConfig 0 0) 0 0 0 0 false demo_cache_cfg
    (mkGuardConfig (mkInjectionGuardConfig false f0 "") (mkPIIGuardConfig false ""))
    (mkSmartRouteConfig "" "" "" 0 false "" 0 f0) (mkHedgeConfig false 0 f0).

(** The smallest configuration file: one provider and one route. *)
Definition demo_config : Config :=
  mkConfig (mkServerConfig "" "" "" false 0 0 0 0 0 0 []) (mkDatabaseConfig "" 0) (mkRedisConfig "")
    (mkAnalyticsConfig "" (mkBatcherConfig 0 0 0) (mkBatcherConfig 0 0 0) 0 0 0 "")
    (mkTelemetryConfig "" "" f0) (mkBreakersConfig 0 0) (mkAuthConfig 0 0 0)
    (mkAdminAuthConfig false 0 0 0 0 (mkAdminChatConfig 0 0 f0 [])) (mkMCPProxyConfig 0 0)
    [mkProviderConfig "openai" "openai" "https://api.openai.com/v1" "OPENAI_API_KEY" false ∅ false]
    ∅ (mkBudgetConfig "" None) (mkProofConfig f0 0 f0 0 false []) [demo_route_cfg] ∅
    (mkDefaults 0 0 0 0 0 f0 0) ∅ (mkHealthConfig f0 0 0 0 0 0 "" [] "" "" false) [] []
    (mkSecretsConfig "" "" "" "" "" "" "" 0 []) 0 0.

Definition demo_url (s : string) : option parsed_url :=
  Some (mkUrl "https" "api.openai.com").

Lemma Parse_sound_witness :
  1 <= bk_Threshold (BreakersC (applyDefaults (fun _ => "") demo_config)).
Proof.
  apply (Parse_sound (IP := unit) (IPNet := unit) (fun _ => "") (fun _ => None) (fun _ => None)
    (fun _ => true) (fun _ => None) demo_url demo_config).
  vm_compute. reflexivity.
Defined.

Lemma sample_rate_zero_becomes_one_witness :
  tl_SampleRate (Telemetry (applyDefaults (fun _ => "") demo_config)) = f_of_Z 1.
Proof. apply (sample_rate_zero_becomes_one (fun _ => "") demo_config). reflexivity. Defined.
