(* ===== verification/Api.v ===== *)
(** * Wire types and request arithmetic (src/internal/api)

    The OpenAI-compatible types ([types.go], [content.go]), the client-facing
    errors ([errors.go]), the token estimates ([estimate.go]) and the stream
    assembler with its inverse ([assemble.go]).  A pointer field is an [option],
    a [json.RawMessage] the string of its bytes. *)

From S2P Require Import Prelude GoStrings GoFloat.

Open Scope string_scope.
Open Scope list_scope.
Open Scope Z_scope.

(** ** Types *)

Record ImageURL := mkImageURL { iu_URL : string; iu_Detail : string }.

Record ContentPart := mkContentPart {
  cp_Type : string;
  cp_Text : string;
  cp_ImageURL : option ImageURL
}.

(** [Parts = None] is the nil slice: the content is then the plain [Text]. *)
Record Content := mkContent { c_Text : string; c_Parts : option (list ContentPart) }.

Definition text_content (s : string) : Content := mkContent s None.

Record FunctionCall := mkFunctionCall { fc_Name : string; fc_Arguments : string }.

Record ToolCall := mkToolCall {
  tc_Index : option Z;
  tc_ID : string;
  tc_Type : string;
  tc_Function : FunctionCall
}.

Record Message := mkMessage {
  m_Role : string;
  m_Content : Content;
  m_Name : string;
  m_ToolCalls : list ToolCall;
  m_ToolCallID : string
}.

Record FunctionDef := mkFunctionDef { fd_Name : string; fd_Description : string; fd_Parameters : string }.
Record Tool := mkTool { t_Type : string; t_Function : FunctionDef }.

Record StreamOptions := mkStreamOptions { so_IncludeUsage : bool }.

Record ChatRequest := mkChatRequest {
  r_Model : string;
  r_Messages : list Message;
  r_Stream : bool;
  r_StreamOptions : option StreamOptions;
  r_MaxTokens : option Z;
  r_MaxCompletionTokens : option Z;
  r_Temperature : option spec_float;
  r_TopP : option spec_float;
  r_Stop : list string;
  r_Tools : list Tool;
  r_ToolChoice : string;
  r_ResponseFormat : string;
  r_Seed : option Z;
  r_User : string;
  r_N : option Z;
  r_PresencePenalty : option spec_float;
  r_FrequencyPenalty : option spec_float;
  r_ParallelToolCalls : option bool;
  r_ReasoningEffort : string;
  r_Logprobs : option bool;
  r_TopLogprobs : option Z
}.

Record PromptTokensDetails := mkPromptTokensDetails { ptd_CachedTokens : Z }.

Record Usage := mkUsage {
  u_PromptTokens : Z;
  u_CompletionTokens : Z;
  u_TotalTokens : Z;
  u_PromptTokensDetails : option PromptTokensDetails
}.

Definition zero_usage : Usage := mkUsage 0 0 0 None.

Record Choice := mkChoice { ch_Index : Z; ch_Message : Message; ch_FinishReason : string }.

Record ChatResponse := mkChatResponse {
  cr_ID : string;
  cr_Object : string;
  cr_Created : Z;
  cr_Model : string;
  cr_Choices : list Choice;
  cr_Usage : option Usage
}.

Record ChunkDelta := mkChunkDelta {
  cd_Role : string;
  cd_Content : string;
  cd_ToolCalls : list ToolCall
}.

Record ChunkChoice := mkChunkChoice {
  cc_Index : Z;
  cc_Delta : ChunkDelta;
  cc_FinishReason : option string
}.

Record ChatChunk := mkChatChunk {
  ck_ID : string;
  ck_Object : string;
  ck_Created : Z;
  ck_Model : string;
  ck_Choices : list ChunkChoice;
  ck_Usage : option Usage
}.

Record EmbeddingRequest := mkEmbeddingRequest {
  eq_Model : string; eq_Input : list string; eq_EncodingFormat : string; eq_Dimensions : option Z; eq_User : string }.
Record Embedding := mkEmbedding { em_Object : string; em_Index : Z; em_Embedding : list spec_float }.
Record EmbeddingResponse := mkEmbeddingResponse { er_Object : string; er_Data : list Embedding; er_Model : string; er_Usage : Usage }.

(** A request with only a model and messages, for the concrete inputs. *)
Definition plain_request (model : string) (msgs : list Message) : ChatRequest :=
  mkChatRequest model msgs false None None None None None [] [] "" "" None "" None None None None "" None None.

Definition plain_message (role text : string) : Message :=
  mkMessage role (text_content text) "" [] "".

(** ** content.go *)

Definition Content_PlainText (c : Content) : string :=
  match c_Parts c with
  | None => c_Text c
  | Some parts =>
      join newline (map cp_Text (filter (fun p => cp_Type p = "text") parts))
  end.

(** ** types.go *)

Definition Usage_CachedTokens (u : Usage) : Z :=
  match u_PromptTokensDetails u with None => 0 | Some d => ptd_CachedTokens d end.

Definition tool_call_text (tc : ToolCall) : string :=
  " [tool_call " +:+ fc_Name (tc_Function tc) +:+ " " +:+ fc_Arguments (tc_Function tc) +:+ "]".

Definition message_text (m : Message) : string :=
  m_Role m +:+ ": " +:+ Content_PlainText (m_Content m) +:+
  concat_strings (map tool_call_text (m_ToolCalls m)).

Definition ChatRequest_PromptText (r : ChatRequest) : string :=
  join newline (map message_text (r_Messages r)).

Definition positive_ptr (p : option Z) : option Z :=
  match p with Some v => if 0 <? v then Some v else None | None => None end.

Definition ChatRequest_EffectiveMaxTokens (r : ChatRequest) (def : Z) : Z :=
  match positive_ptr (r_MaxCompletionTokens r) with
  | Some v => v
  | None => match positive_ptr (r_MaxTokens r) with Some v => v | None => def end
  end.

(** ** estimate.go *)

Definition EstimateTokens (s : string) : Z := Z.quot (slen s + 3) 4.

Definition EstimatePromptTokens (r : ChatRequest) : Z :=
  EstimateTokens (ChatRequest_PromptText r) + 4 * Z.of_nat (length (r_Messages r)).

Lemma EstimateTokens_ceil s : EstimateTokens s = - ((- slen s) / 4).
Proof.
  unfold EstimateTokens. pose proof (slen_nonneg s).
  rewrite Z.quot_div_nonneg by lia. Z.to_euclidean_division_equations. lia.
Qed.

Lemma EstimateTokens_nonneg s : 0 <= EstimateTokens s.
Proof. unfold EstimateTokens. pose proof (slen_nonneg s). apply Z.quot_pos; lia. Qed.

Lemma EstimatePromptTokens_nonneg r : 0 <= EstimatePromptTokens r.
Proof. unfold EstimatePromptTokens. pose proof (EstimateTokens_nonneg (ChatRequest_PromptText r)). lia. Qed.

#[export] Hint Resolve EstimateTokens_nonneg EstimatePromptTokens_nonneg slen_nonneg : go.

(** ** errors.go *)

Record ApiError := mkApiError {
  ae_Status : Z;
  ae_Message : string;
  ae_Type : string;
  ae_Code : string;
  ae_RetryAfter : Duration
}.

Definition api_error (status : Z) (msg ty code : string) : ApiError :=
  mkApiError status msg ty code 0.

Definition ApiError_Error (e : ApiError) : string := ae_Code e +:+ ": " +:+ ae_Message e.

Definition BadRequest (msg : string) : ApiError :=
  api_error 400 msg "invalid_request_error" "invalid_request".
Definition Unauthorized : ApiError :=
  api_error 401 "invalid or missing API key" "authentication_error" "unauthorized".
Definition Forbidden (code msg : string) : ApiError :=
  api_error 403 msg "permission_error" code.
Definition RateLimited (code : string) (retryAfter : Duration) : ApiError :=
  if String.eqb code "request_too_large"
  then api_error 413 "request needs more tokens than the per-minute limit" "invalid_request_error" code
  else mkApiError 429 "rate limit exceeded" "rate_limit_error" code retryAfter.
Definition BudgetExceeded (msg : string) : ApiError :=
  api_error 402 msg "insufficient_quota" "budget_exceeded".
Definition Upstream (msg : string) : ApiError :=
  api_error 502 msg "api_error" "upstream_error".
Definition NoHealthyTarget : ApiError :=
  api_error 503 "no healthy target for this route" "api_error" "no_healthy_target".
Definition GatewayTimeout (msg : string) : ApiError :=
  api_error 504 (if String.eqb msg "" then "gateway timeout" else msg) "api_error" "gateway_timeout".
Definition Internal : ApiError :=
  api_error 500 "internal error" "api_error" "internal_error".

(** [provider.Error] (src/internal/provider/provider.go) *)
Record ProviderError := mkProviderError {
  pe_Provider : string;
  pe_Status : Z;
  pe_Message : string;
  pe_Retryable : bool;
  pe_RetryAfter : Duration
}.

Definition ProviderError_Error (e : ProviderError) : string :=
  pe_Provider e +:+ ": " +:+ itoa (pe_Status e) +:+ " " +:+ pe_Message e.

Definition RetryableStatus (status : Z) : bool :=
  existsb (Z.eqb status) [408; 409; 429; 500; 502; 503; 504; 529].

(** The errors that flow through the gateway; [errors.As] finds the first
    constructor of the wanted type, and no code of the gateway wraps one of the
    first two in the other. *)
Inductive go_error :=
| ErrProvider (e : ProviderError)
| ErrApi (e : ApiError)
| ErrDeadlineExceeded
| ErrCanceled
| ErrOther (msg : string).

(** The [error] interface's [Error()] string. *)
Definition error_string (e : go_error) : string :=
  match e with
  | ErrProvider p => ProviderError_Error p
  | ErrApi a => ApiError_Error a
  | ErrDeadlineExceeded => "context deadline exceeded"
  | ErrCanceled => "context canceled"
  | ErrOther m => m
  end.

(** [WriteError]: the status, the Retry-After header and the body's error.
    [Duration.Seconds] is the float sum of the whole seconds and the rest. *)
Definition Duration_Seconds (d : Duration) : spec_float :=
  fadd (f_of_Z (Z.quot d second)) (fdiv (f_of_Z (Z.rem d second)) (f_of_Z 1000000000)).

Definition WriteError (err : go_error) : Z * option string * ApiError :=
  let e := match err with ErrApi e => e | _ => Internal end in
  (ae_Status e,
   if 0 <? ae_RetryAfter e
   then Some (itoa (f_ceil_int64 (Duration_Seconds (ae_RetryAfter e)))) else None,
   e).

Example WriteError_retry :
  (WriteError (ErrApi (RateLimited "rate_limited" 1500000000))).1 = (429, Some "2").
Proof. vm_compute. reflexivity. Qed.
