(* ===== verification/Assemble.v ===== *)
(** * Stream assembler and its inverse (src/internal/api/assemble.go)

    [Assembler.Add] folds streamed chunks into one response,
    [ChunksFromResponse] shreds a response into chunks.  An index expression
    that would panic is [None]. *)

From S2P Require Import Prelude GoStrings GoFloat Api.

Open Scope string_scope.
Open Scope list_scope.
Open Scope Z_scope.

Record Assembler := mkAssembler {
  a_id : string;
  a_model : string;
  a_created : Z;
  a_text : string;
  a_tools : list ToolCall;
  a_finish : string;
  a_usage : option Usage
}.

Definition empty_assembler : Assembler := mkAssembler "" "" 0 "" [] "" None.

Definition blank_tool : ToolCall := mkToolCall None "" "function" (mkFunctionCall "" "").

(** [for len(a.tools) <= i { append }] *)
Definition grow_tools (tools : list ToolCall) (i : nat) : list ToolCall :=
  tools ++ replicate (S i - length tools) blank_tool.

Definition merge_tool (old tc : ToolCall) : ToolCall :=
  mkToolCall (tc_Index old)
    (if String.eqb (tc_ID tc) "" then tc_ID old else tc_ID tc)
    (tc_Type old)
    (mkFunctionCall
       (if String.eqb (fc_Name (tc_Function tc)) "" then fc_Name (tc_Function old)
        else fc_Name (tc_Function tc))
       (fc_Arguments (tc_Function old) +:+ fc_Arguments (tc_Function tc))).

Definition add_tool (tools : list ToolCall) (tc : ToolCall) : option (list ToolCall) :=
  let i := default 0 (tc_Index tc) in
  if i <? 0 then None
  else let tools := grow_tools tools (Z.to_nat i) in
       Some (alter (fun old => merge_tool old tc) (Z.to_nat i) tools).

Fixpoint add_tools (tools : list ToolCall) (tcs : list ToolCall) : option (list ToolCall) :=
  match tcs with
  | [] => Some tools
  | tc :: tcs' => add_tool tools tc ≫= fun tools' => add_tools tools' tcs'
  end.

Definition add_choice (a : Assembler) (ch : ChunkChoice) : option Assembler :=
  if negb (cc_Index ch =? 0) then Some a
  else
    tools ← add_tools (a_tools a) (cd_ToolCalls (cc_Delta ch));
    Some (mkAssembler (a_id a) (a_model a) (a_created a)
            (a_text a +:+ cd_Content (cc_Delta ch)) tools
            (match cc_FinishReason ch with Some f => f | None => a_finish a end)
            (a_usage a)).

Fixpoint add_choices (a : Assembler) (chs : list ChunkChoice) : option Assembler :=
  match chs with
  | [] => Some a
  | ch :: chs' => add_choice a ch ≫= fun a' => add_choices a' chs'
  end.

Definition Assembler_Add (a : Assembler) (c : ChatChunk) : option Assembler :=
  let a := if negb (String.eqb (ck_ID c) "") && String.eqb (a_id a) ""
           then mkAssembler (ck_ID c) (ck_Model c) (ck_Created c) (a_text a) (a_tools a) (a_finish a) (a_usage a)
           else a in
  let a := match ck_Usage c with
           | Some u => mkAssembler (a_id a) (a_model a) (a_created a) (a_text a) (a_tools a) (a_finish a) (Some u)
           | None => a
           end in
  add_choices a (ck_Choices c).

Fixpoint Assembler_AddAll (a : Assembler) (cs : list ChatChunk) : option Assembler :=
  match cs with
  | [] => Some a
  | c :: cs' => Assembler_Add a c ≫= fun a' => Assembler_AddAll a' cs'
  end.

Definition Assembler_Text (a : Assembler) : string := a_text a.

Definition Assembler_Response (a : Assembler) : ChatResponse :=
  mkChatResponse (a_id a) "chat.completion" (a_created a) (a_model a)
    [mkChoice 0 (mkMessage "assistant" (text_content (a_text a)) "" (a_tools a) "") (a_finish a)]
    (a_usage a).

(** The [for len(text) > 0 || first] loop; [fuel] is at least the number of
    bytes plus one, so it never runs out ([text_deltas_fuel]). *)
Fixpoint text_deltas (fuel n : nat) (first : bool) (text : string) : list ChunkDelta :=
  match fuel with
  | O => []
  | S fuel' =>
      if negb (String.eqb text "") || first
      then mkChunkDelta (if first then "assistant" else "") (stake n text) []
             :: text_deltas fuel' n false (sdrop n text)
      else []
  end.

Definition base_chunk (r : ChatResponse) (chs : list ChunkChoice) (u : option Usage) : ChatChunk :=
  mkChatChunk (cr_ID r) "chat.completion.chunk" (cr_Created r) (cr_Model r) chs u.

Definition mk_chunk (r : ChatResponse) (d : ChunkDelta) (finish : option string) : ChatChunk :=
  base_chunk r [mkChunkChoice 0 d finish] None.

Definition indexed_tool (i : nat) (tc : ToolCall) : ToolCall :=
  mkToolCall (Some (Z.of_nat i)) (tc_ID tc) (tc_Type tc) (tc_Function tc).

Definition ChunksFromResponse (r : ChatResponse) (chunkChars : Z) : list ChatChunk :=
  let n := if chunkChars <=? 0 then 64 else chunkChars in
  match cr_Choices r with
  | [] => []
  | ch :: _ =>
      let text := Content_PlainText (m_Content (ch_Message ch)) in
      map (fun d => mk_chunk r d None) (text_deltas (S (String.length text)) (Z.to_nat n) true text)
      ++ imap (fun i tc => mk_chunk r (mkChunkDelta "" "" [indexed_tool i tc]) None)
           (m_ToolCalls (ch_Message ch))
      ++ [mk_chunk r (mkChunkDelta "" "" []) (Some (ch_FinishReason ch))]
      ++ match cr_Usage r with Some u => [base_chunk r [] (Some u)] | None => [] end
  end.

(** ** Lemmas *)

Lemma AddAll_app a cs cs' :
  Assembler_AddAll a (cs ++ cs') = Assembler_AddAll a cs ≫= fun a' => Assembler_AddAll a' cs'.
Proof.
  revert a; induction cs as [|c cs IH]; intros a; [done|]. simpl.
  destruct (Assembler_Add a c) as [a'|]; simpl; [apply IH|done].
Qed.

(** More fuel than bytes changes nothing. *)
Lemma text_deltas_fuel f1 f2 n first text :
  (0 < n)%nat -> (String.length text < f1)%nat -> (String.length text < f2)%nat ->
  text_deltas f1 n first text = text_deltas f2 n first text.
Proof.
  intros Hn. revert f2 first text. induction f1 as [|f1 IH]; intros [|f2] first text H1 H2; [lia..|].
  simpl. destruct (negb (String.eqb text "") || first); [|done]. f_equal.
  destruct text as [|c text]; [rewrite sdrop_nil; by destruct f1, f2|].
  simpl in *. apply IH; rewrite slength_sdrop; simpl; lia.
Qed.

Lemma text_deltas_content fuel n first text :
  (String.length text < fuel)%nat -> (0 < n)%nat ->
  concat_strings (map cd_Content (text_deltas fuel n first text)) = text /\
  Forall (fun d => cd_ToolCalls d = [] /\ (String.length (cd_Content d) <= n)%nat)
    (text_deltas fuel n first text).
Proof.
  revert first text; induction fuel as [|fuel IH]; intros first text Hf Hn; [lia|]. simpl.
  destruct (negb (String.eqb text "") || first) eqn:E; simpl.
  - assert (concat_strings (map cd_Content (text_deltas fuel n false (sdrop n text))) = sdrop n text /\
      Forall (fun d => cd_ToolCalls d = [] /\ (String.length (cd_Content d) <= n)%nat)
        (text_deltas fuel n false (sdrop n text))) as [Hc Hall].
    { destruct text as [|c text].
      - rewrite sdrop_nil. destruct fuel; simpl; auto.
      - apply IH; [|done]. rewrite slength_sdrop. simpl in *. lia. }
    split; [by rewrite Hc, stake_sdrop|]. constructor; [|done]. simpl.
    split; [done|]. rewrite slength_stake. lia.
  - apply orb_false_iff in E as [E ->]. apply negb_false_iff, String.eqb_eq in E. by subst.
Qed.

(** The assembler state after some text and tool calls of response [r]. *)
Definition asm_state (r : ChatResponse) (text : string) (tools : list ToolCall) (fin : string)
    (u : option Usage) : Assembler :=
  mkAssembler (cr_ID r) (cr_Model r) (cr_Created r) text tools fin u.

Section Roundtrip.
Context (r : ChatResponse) (Hid : cr_ID r <> "").

Lemma id_eqb : String.eqb (cr_ID r) "" = false.
Proof using Hid. by apply String.eqb_neq. Qed.

Lemma Add_first d fin :
  cd_ToolCalls d = [] ->
  Assembler_Add empty_assembler (mk_chunk r d fin) =
    Some (asm_state r (cd_Content d) [] (default "" fin) None).
Proof using Hid.
  intros Hd. unfold Assembler_Add, mk_chunk, base_chunk; simpl. rewrite id_eqb; simpl.
  unfold add_choice; simpl. rewrite Hd; simpl. by destruct fin.
Qed.

Lemma Add_text t ts u d fin :
  cd_ToolCalls d = [] ->
  Assembler_Add (asm_state r t ts "" u) (mk_chunk r d fin) =
    Some (asm_state r (t +:+ cd_Content d) ts (default "" fin) u).
Proof using Hid.
  intros Hd. unfold Assembler_Add, mk_chunk, base_chunk; simpl. rewrite id_eqb; simpl.
  unfold add_choice; simpl. rewrite Hd; simpl. by destruct fin.
Qed.

Lemma AddAll_text t ts u ds :
  Forall (fun d => cd_ToolCalls d = []) ds ->
  Assembler_AddAll (asm_state r t ts "" u) (map (fun d => mk_chunk r d None) ds) =
    Some (asm_state r (t +:+ concat_strings (map cd_Content ds)) ts "" u).
Proof using Hid.
  revert t; induction ds as [|d ds IH]; intros t Hall; simpl.
  - by rewrite sapp_nil_r.
  - apply Forall_cons in Hall as [Hd Hall]. rewrite Add_text by done. simpl.
    rewrite IH by done. by rewrite sapp_assoc.
Qed.

Lemma AddAll_text_first ds :
  ds <> [] -> Forall (fun d => cd_ToolCalls d = []) ds ->
  Assembler_AddAll empty_assembler (map (fun d => mk_chunk r d None) ds) =
    Some (asm_state r (concat_strings (map cd_Content ds)) [] "" None).
Proof using Hid.
  destruct ds as [|d ds]; [done|]. intros _ [Hd Hall]%Forall_cons.
  cbn [map Assembler_AddAll]. rewrite Add_first by done. cbn [mbind option_bind].
  by rewrite (AddAll_text _ _ _ _ Hall).
Qed.

Definition assembled_tool (tc : ToolCall) : ToolCall :=
  mkToolCall None (tc_ID tc) "function" (tc_Function tc).

Lemma eqb_empty_if s : (if String.eqb s "" then "" else s) = s.
Proof. destruct (String.eqb_spec s ""); congruence. Qed.

Lemma add_tool_next ts tc :
  add_tool ts (indexed_tool (length ts) tc) = Some (ts ++ [assembled_tool tc]).
Proof.
  unfold add_tool; simpl. destruct (Z.ltb_spec (Z.of_nat (length ts)) 0); [lia|].
  rewrite Nat2Z.id. unfold grow_tools.
  replace (S (length ts) - length ts)%nat with 1%nat by lia. simpl.
  f_equal. rewrite <- (Nat.add_0_r (length ts)) at 1.
  rewrite alter_app_r. simpl. unfold merge_tool, assembled_tool; simpl.
  rewrite !eqb_empty_if. by destruct (tc_Function tc).
Qed.

Lemma Add_tool t ts tc :
  Assembler_Add (asm_state r t ts "" None)
    (mk_chunk r (mkChunkDelta "" "" [indexed_tool (length ts) tc]) None) =
  Some (asm_state r t (ts ++ [assembled_tool tc]) "" None).
Proof using Hid.
  unfold Assembler_Add, mk_chunk, base_chunk; simpl. rewrite id_eqb; simpl.
  unfold add_choice; simpl. rewrite add_tool_next. simpl. by rewrite sapp_nil_r.
Qed.

Lemma AddAll_tools t ts tcs :
  Assembler_AddAll (asm_state r t ts "" None)
    (imap (fun i tc => mk_chunk r (mkChunkDelta "" "" [indexed_tool (length ts + i) tc]) None) tcs) =
  Some (asm_state r t (ts ++ map assembled_tool tcs) "" None).
Proof using Hid.
  revert ts; induction tcs as [|tc tcs IH]; intros ts; simpl.
  - by rewrite app_nil_r.
  - rewrite Nat.add_0_r, Add_tool. simpl. specialize (IH (ts ++ [assembled_tool tc])).
    rewrite length_app in IH. simpl in IH. rewrite <- app_assoc in IH. simpl in IH.
    rewrite <- IH. f_equal. apply imap_ext. intros i tc' _. simpl.
    by replace (length ts + S i)%nat with (length ts + 1 + i)%nat by lia.
Qed.
End Roundtrip.

(** Shredding a response and reassembling it gives the response back: for
    any chunk size, reassembling the chunks of a response (with a non-empty id)
    never panics and yields its id, model, creation time, usage, the whole text
    of its first choice, its finish reason and its tool calls in order (their
    type normalised to function). *)
Theorem chunks_roundtrip (r : ChatResponse) (ch : Choice) (rest : list Choice) (n : Z)
  (Hid : cr_ID r <> "") (Hch : cr_Choices r = ch :: rest) :
  option_map Assembler_Response (Assembler_AddAll empty_assembler (ChunksFromResponse r n)) =
  Some (mkChatResponse (cr_ID r) "chat.completion" (cr_Created r) (cr_Model r)
          [mkChoice 0 (mkMessage "assistant"
             (text_content (Content_PlainText (m_Content (ch_Message ch)))) ""
             (map assembled_tool (m_ToolCalls (ch_Message ch))) "") (ch_FinishReason ch)]
          (cr_Usage r)).
Proof.
  unfold ChunksFromResponse. rewrite Hch.
  set (text := Content_PlainText _). set (k := Z.to_nat _).
  assert (0 < k)%nat as Hk by (subst k; destruct (Z.leb_spec n 0); lia).
  destruct (text_deltas_content (S (String.length text)) k true text ltac:(lia) Hk) as [Hc Hall].
  rewrite AddAll_app, (AddAll_text_first r Hid), Hc;
    [|simpl; by rewrite orb_true_r|eapply Forall_impl; [exact Hall|]; by intros ? []].
  cbn [mbind option_bind]. rewrite AddAll_app.
  pose proof (AddAll_tools r Hid text [] (m_ToolCalls (ch_Message ch))) as Ht. simpl in Ht.
  rewrite Ht. cbn [mbind option_bind app Assembler_AddAll].
  rewrite (Add_text r Hid) by done. simpl. rewrite sapp_nil_r.
  destruct (cr_Usage r) as [u|] eqn:Eu; simpl; [|done].
  unfold Assembler_Add; simpl. by rewrite (id_eqb r Hid).
Qed.

(** The chunks carry at most the requested number of bytes each. *)
Theorem chunks_bounded (r : ChatResponse) (n : Z) (c : ChatChunk) (k : ChunkChoice)
  (Hn : 0 < n) (Hc : c ∈ ChunksFromResponse r n) (Hk : k ∈ ck_Choices c) :
  slen (cd_Content (cc_Delta k)) <= n.
Proof.
  unfold ChunksFromResponse in Hc. destruct (cr_Choices r) as [|ch rest]; [by apply not_elem_of_nil in Hc|].
  set (text := Content_PlainText _) in *. destruct (Z.leb_spec n 0); [lia|].
  rewrite !elem_of_app in Hc. destruct Hc as [Hc|[Hc|[Hc|Hc]]].
  - apply list_elem_of_In, in_map_iff in Hc as (d & <- & Hd). simpl in Hk.
    apply list_elem_of_singleton in Hk as ->. simpl.
    destruct (text_deltas_content (S (String.length text)) (Z.to_nat n) true text ltac:(lia) ltac:(lia)) as [_ Hall].
    apply list_elem_of_In in Hd. eapply Forall_forall in Hall as [_ Hl]; [|done]. unfold slen. lia.
  - apply elem_of_lookup_imap in Hc as (i & tc & -> & _). simpl in Hk.
    apply list_elem_of_singleton in Hk as ->. simpl. unfold slen; simpl; lia.
  - apply list_elem_of_singleton in Hc as ->. simpl in Hk.
    apply list_elem_of_singleton in Hk as ->. simpl. unfold slen; simpl; lia.
  - destruct (cr_Usage r); [|by apply not_elem_of_nil in Hc].
    apply list_elem_of_singleton in Hc as ->. simpl in Hk. by apply not_elem_of_nil in Hk.
Qed.

Definition demo_response : ChatResponse :=
  mkChatResponse "chatcmpl-1" "chat.completion" 1700000000 "gpt-4o"
    [mkChoice 0 (mkMessage "assistant" (text_content "hello, world") ""
       [mkToolCall None "call_1" "function" (mkFunctionCall "f" "{}")] "") "tool_calls"]
    (Some (mkUsage 3 4 7 None)).

Lemma chunks_roundtrip_witness :
  length (ChunksFromResponse demo_response 5) = 6%nat /\
  option_map Assembler_Response
    (Assembler_AddAll empty_assembler (ChunksFromResponse demo_response 5)) = Some demo_response.
Proof.
  split; [vm_compute; reflexivity|].
  rewrite (chunks_roundtrip demo_response
    (mkChoice 0 (mkMessage "assistant" (text_content "hello, world") ""
       [mkToolCall None "call_1" "function" (mkFunctionCall "f" "{}")] "") "tool_calls") [] 5);
    [reflexivity | discriminate | reflexivity].
Defined.
