(* ===== verification/Execute.v ===== *)
(** * Plan execution with retries and failover (src/internal/router/execute.go)

    [Execute] is written in state-passing style over an abstract world [W]: the
    attempt, the context, the clock, the timer and the random generator are
    arguments.  The breakers are explicit state; [None] is the nil [*Breakers]. *)

From S2P Require Import Prelude GoStrings GoFloat Breaker Api.

Open Scope string_scope.
Open Scope list_scope.
Open Scope Z_scope.

Record RetryPolicy := mkRetryPolicy { MaxAttempts : Z; BaseDelay : Duration }.

(** [router.Result] *)
Record Result := mkResult { res_Target : Target; res_Attempts : Z }.

Definition zero_result : Result := mkResult (mkTarget "" "") 0.

Inductive decision := done | retrySame | nextTarget.

#[export] Instance decision_eq_dec : EqDecision decision.
Proof. solve_decision. Defined.

(** [classify]: the routing decision, and whether the breaker counts a failure. *)
Definition classify (err : go_error) : decision * bool :=
  match err with
  | ErrProvider pe =>
      if pe_Status pe =? 429 then (nextTarget, false)
      else if (pe_Status pe =? 401) || (pe_Status pe =? 403) then (nextTarget, true)
      else if pe_Retryable pe then (retrySame, true)
      else (done, false)
  | ErrApi _ => (done, false)
  | _ => (retrySame, true)
  end.

(** The ceiling of the jittered back-off: [base << n] wraps at 64 bits. *)
Definition backoff_ceiling (base : Duration) (n : Z) : Duration :=
  Z.min (wrap64 (Z.shiftl base n)) (2 * second).

Section Execute.
Context {W : Type}
  (fn : W -> Target -> option go_error * W)        (* one upstream call *)
  (ctx_err : W -> option go_error)                 (* ctx.Err() *)
  (now : W -> Time)
  (sleep : W -> Duration -> bool * W)              (* true: interrupted by the context *)
  (rand_Int64N : W -> Z -> Z * W).

Definition backoff (w : W) (base : Duration) (n : Z) : Duration * W :=
  let ceiling := backoff_ceiling base n in
  if ceiling <=? 0 then (0, w) else rand_Int64N w (ceiling + 1).

(** The variables of [Execute] that the loops update. *)
Record xstate := mkXstate {
  x_res : Result;
  x_lastErr : go_error;
  x_shortest : Duration;
  x_br : option Breakers;
  x_w : W
}.

Definition set_w (s : xstate) (w : W) : xstate :=
  mkXstate (x_res s) (x_lastErr s) (x_shortest s) (x_br s) w.
Definition set_br (s : xstate) (b : option Breakers) : xstate :=
  mkXstate (x_res s) (x_lastErr s) (x_shortest s) b (x_w s).

Definition timeout_message (lastErr : go_error) : string :=
  "gateway timeout: plan deadline exceeded (last attempt: " +:+ error_string lastErr +:+ ")".

(** The closure [checkCtx]. *)
Definition checkCtx (s : xstate) : option go_error :=
  match ctx_err (x_w s) with
  | None => None
  | Some ErrDeadlineExceeded => Some (ErrApi (GatewayTimeout (timeout_message (x_lastErr s))))
  | Some err => Some err
  end.

(** Record an attempt on [t]. *)
Definition bump (s : xstate) (t : Target) : xstate :=
  mkXstate (mkResult t (res_Attempts (x_res s) + 1)) (x_lastErr s) (x_shortest s) (x_br s) (x_w s).

(** Bookkeeping after a failed attempt: the last error and its Retry-After. *)
Definition record_error (s : xstate) (t : Target) (err : go_error) : xstate :=
  match err with
  | ErrProvider pe =>
      if 0 <? pe_RetryAfter pe then
        mkXstate (x_res s) err
          (if (x_shortest s =? 0) || (pe_RetryAfter pe <? x_shortest s) then pe_RetryAfter pe else x_shortest s)
          (option_map (fun b => Breakers_OpenFor (now (x_w s)) b t (pe_RetryAfter pe)) (x_br s)) (x_w s)
      else mkXstate (x_res s) err (x_shortest s) (x_br s) (x_w s)
  | _ => mkXstate (x_res s) err (x_shortest s) (x_br s) (x_w s)
  end.

Inductive flow :=
| Return (err : option go_error)  (* return res, err *)
| NextTarget.                     (* leave the inner loop *)

(** The inner loop over the attempts on one target; [k] attempts are left, the
    current one is number [n]. *)
Fixpoint attempts (rp : RetryPolicy) (t : Target) (k : nat) (n : Z) (s : xstate) : flow * xstate :=
  match k with
  | O => (NextTarget, s)
  | S k' =>
      match checkCtx s with
      | Some err => (Return (Some err), s)
      | None =>
          let s := bump s t in
          let '(r, w) := fn (x_w s) t in
          let s := set_w s w in
          match r with
          | None => (Return None, set_br s (option_map (fun b => Breakers_Success b t) (x_br s)))
          | Some err =>
              let s := record_error s t err in
              match checkCtx s with
              | Some err' => (Return (Some err'), s)
              | None =>
                  let '(d, breakerFail) := classify err in
                  let s := if breakerFail
                           then set_br s (option_map (fun b => Breakers_Failure (now (x_w s)) b t) (x_br s))
                           else s in
                  match d with
                  | done => (Return (Some err), s)
                  | nextTarget => (NextTarget, s)
                  | retrySame =>
                      match k' with
                      | O => (NextTarget, s)
                      | S _ =>
                          let '(d, w) := backoff (x_w s) (BaseDelay rp) n in
                          let '(interrupted, w) := sleep w d in
                          let s := set_w s w in
                          if interrupted then (Return (checkCtx s), s)
                          else attempts rp t k' (n + 1) s
                      end
                  end
              end
          end
      end
  end.

Definition maxAttempts (rp : RetryPolicy) : Z := Z.max (MaxAttempts rp) 1.

(** [br != nil && !br.Allow(t)]; the breaker is asked even for the last target. *)
Definition ask_breaker (s : xstate) (t : Target) : bool * xstate :=
  match x_br s with
  | None => (true, s)
  | Some b => let '(ok, b') := Breakers_Allow (now (x_w s)) b t in (ok, set_br s (Some b'))
  end.

Fixpoint run_plan (rp : RetryPolicy) (plan : list Target) (s : xstate) : flow * xstate :=
  match plan with
  | [] => (NextTarget, s)
  | t :: rest =>
      let '(ok, s) := ask_breaker s t in
      if negb ok && negb (bool_decide (rest = [])) then run_plan rp rest s
      else match attempts rp t (Z.to_nat (maxAttempts rp)) 0 s with
           | (Return err, s') => (Return err, s')
           | (NextTarget, s') => run_plan rp rest s'
           end
  end.

(** The shortest Retry-After is injected into the surfaced error. *)
Definition inject_retry (shortest : Duration) (err : go_error) : go_error :=
  if 0 <? shortest then
    match err with
    | ErrProvider pe => ErrProvider (mkProviderError (pe_Provider pe) (pe_Status pe) (pe_Message pe) (pe_Retryable pe) shortest)
    | ErrApi ae => ErrApi (mkApiError (ae_Status ae) (ae_Message ae) (ae_Type ae) (ae_Code ae) shortest)
    | e => e
    end
  else err.

Definition init_xstate (br : option Breakers) (w : W) : xstate :=
  mkXstate zero_result (ErrApi NoHealthyTarget) 0 br w.

(** [Execute]: the result, the error ([None] is nil) and the final state. *)
Definition Execute (plan : list Target) (rp : RetryPolicy) (br : option Breakers) (w : W)
  : Result * option go_error * xstate :=
  match run_plan rp plan (init_xstate br w) with
  | (Return err, s) => (x_res s, err, s)
  | (NextTarget, s) => (x_res s, Some (inject_retry (x_shortest s) (x_lastErr s)), s)
  end.

(** ** Lemmas *)

Lemma record_error_res s t e : x_res (record_error s t e) = x_res s.
Proof. destruct e; simpl; try done. by case_match. Qed.

Lemma attempts_bound rp t k n s :
  let s' := (attempts rp t k n s).2 in
  res_Attempts (x_res s) <= res_Attempts (x_res s') <= res_Attempts (x_res s) + Z.of_nat k.
Proof.
  revert n s; induction k as [|k IH]; intros n s; simpl; [lia|].
  destruct (checkCtx s); simpl; [lia|].
  destruct (fn (x_w s) t) as [[err|] w]; simpl; [|lia].
  set (s1 := record_error _ t err).
  assert (res_Attempts (x_res s1) = res_Attempts (x_res s) + 1) as H1
    by (subst s1; rewrite record_error_res; reflexivity).
  destruct (checkCtx s1); simpl; [lia|].
  destruct (classify err) as [d f].
  set (s2 := if f then _ else _).
  assert (res_Attempts (x_res s2) = res_Attempts (x_res s) + 1) as H2 by (subst s2; by destruct f).
  destruct d; simpl; [lia| |lia].
  destruct k as [|k']; simpl; [lia|].
  destruct (backoff (x_w s2) (BaseDelay rp) n) as [dl w1].
  destruct (sleep w1 dl) as [i w2]. destruct i; simpl; [lia|].
  specialize (IH (n + 1) (set_w s2 w2)). simpl in IH. lia.
Qed.

Lemma ask_breaker_res s t : x_res (ask_breaker s t).2 = x_res s /\ x_w (ask_breaker s t).2 = x_w s.
Proof. unfold ask_breaker. destruct (x_br s); simpl; [|done]. by destruct (Breakers_Allow _ _ _). Qed.

Lemma maxAttempts_pos rp : 1 <= maxAttempts rp.
Proof. unfold maxAttempts. lia. Qed.

Lemma run_plan_bound rp plan s :
  let s' := (run_plan rp plan s).2 in
  res_Attempts (x_res s) <= res_Attempts (x_res s') <=
  res_Attempts (x_res s) + maxAttempts rp * Z.of_nat (length plan).
Proof.
  revert s; induction plan as [|t plan IH]; intros s; cbn [run_plan]; [simpl; lia|].
  pose proof (maxAttempts_pos rp). destruct (ask_breaker_res s t) as [Ha _].
  destruct (ask_breaker s t) as [ok s1] eqn:E. simpl in Ha.
  assert (Z.of_nat (length (t :: plan)) = 1 + Z.of_nat (length plan)) as -> by (simpl length; lia).
  destruct (negb ok && _).
  - specialize (IH s1). rewrite Ha in IH. simpl in *. lia.
  - pose proof (attempts_bound rp t (Z.to_nat (maxAttempts rp)) 0 s1) as Hb. rewrite Ha in Hb.
    destruct (attempts _ _ _ _ _) as [f s2]. simpl in Hb.
    destruct f; simpl; [lia|]. specialize (IH s2). simpl in IH. lia.
Qed.

(** An attempt is made whenever the inner loop is entered with a live context. *)
Lemma attempts_progress rp t k n s :
  ctx_err (x_w s) = None ->
  res_Attempts (x_res s) + 1 <= res_Attempts (x_res (attempts rp t (S k) n s).2).
Proof.
  intros Hctx. cbn [attempts]. unfold checkCtx at 1. rewrite Hctx.
  destruct (fn (x_w (bump s t)) t) as [[err|] w]; [|simpl; lia].
  set (s1 := record_error _ t err).
  assert (res_Attempts (x_res s1) = res_Attempts (x_res s) + 1) as H1
    by (subst s1; rewrite record_error_res; reflexivity).
  destruct (checkCtx s1); [simpl; lia|].
  destruct (classify err) as [d f].
  set (s2 := if f then _ else _).
  assert (res_Attempts (x_res s2) = res_Attempts (x_res s) + 1) as H2 by (subst s2; by destruct f).
  destruct d; [simpl; lia| |simpl; lia].
  destruct k as [|k']; [simpl; lia|].
  destruct (backoff (x_w s2) (BaseDelay rp) n) as [dl w1].
  destruct (sleep w1 dl) as [i w2]. destruct i; [simpl; lia|].
  pose proof (attempts_bound rp t (S k') (n + 1) (set_w s2 w2)) as B. simpl in B. simpl. lia.
Qed.
End Execute.

(** ** Properties *)

(** The number of upstream calls of one request is bounded by the retry
    policy times the length of the plan, whatever the upstreams, the clock, the
    context and the breakers do. *)
Theorem Execute_attempts_bounded {W : Type} (fn : W -> Target -> option go_error * W)
  (ctx_err : W -> option go_error) (now : W -> Time) (sleep : W -> Duration -> bool * W)
  (rand : W -> Z -> Z * W) (plan : list Target) (rp : RetryPolicy) (br : option Breakers) (w : W) :
  let '(res, err, s) := Execute fn ctx_err now sleep rand plan rp br w in
  0 <= res_Attempts res <= maxAttempts rp * Z.of_nat (length plan).
Proof.
  unfold Execute.
  pose proof (run_plan_bound fn ctx_err now sleep rand rp plan (init_xstate br w)) as H.
  destruct (run_plan _ _ _ _ _ _ _ _) as [[err|] s]; simpl in H; lia.
Qed.

(** Tripped breakers never leave a request without an attempt: with a
    non-empty plan and a live context at least one upstream call is made, even
    when every breaker refuses. *)
Theorem Execute_last_resort {W : Type} (fn : W -> Target -> option go_error * W)
  (ctx_err : W -> option go_error) (now : W -> Time) (sleep : W -> Duration -> bool * W)
  (rand : W -> Z -> Z * W) (plan : list Target) (rp : RetryPolicy) (br : option Breakers) (w : W)
  (Hplan : plan <> []) (Hlive : ctx_err w = None) :
  let '(res, err, s) := Execute fn ctx_err now sleep rand plan rp br w in
  1 <= res_Attempts res.
Proof.
  unfold Execute.
  assert (forall s, ctx_err (x_w s) = None ->
    res_Attempts (x_res s) + 1 <=
    res_Attempts (x_res (run_plan fn ctx_err now sleep rand rp plan s).2)) as Hp.
  { clear Hlive. induction plan as [|t rest IH]; intros s Hs; [done|]. cbn [run_plan].
    destruct (ask_breaker_res now s t) as [Ha Hw]. destruct (ask_breaker now s t) as [ok s1]; simpl in Ha, Hw.
    destruct (negb ok && negb (bool_decide (rest = []))) eqn:E.
    - apply andb_true_iff in E as [_ E]. apply negb_true_iff, bool_decide_eq_false in E.
      rewrite <- Ha. apply IH; [done|by rewrite Hw].
    - pose proof (maxAttempts_pos rp).
      destruct (Z.to_nat (maxAttempts rp)) as [|k] eqn:Ek; [lia|].
      pose proof (attempts_progress fn ctx_err now sleep rand rp t k 0 s1) as Hpr.
      rewrite Hw, Ha in Hpr. specialize (Hpr Hs).
      destruct (attempts _ _ _ _ _ _ _ _ _ _) as [f s2]; simpl in Hpr.
      destruct f; simpl; [lia|].
      pose proof (run_plan_bound fn ctx_err now sleep rand rp rest s2) as B. simpl in B. lia. }
  specialize (Hp (init_xstate br w) Hlive). simpl in Hp.
  destruct (run_plan _ _ _ _ _ _ _ _) as [[err|] s]; simpl in *; lia.
Qed.

Section Failover.
Context {W : Type} (fn : W -> Target -> option go_error * W)
  (ctx_err : W -> option go_error) (now : W -> Time) (sleep : W -> Duration -> bool * W)
  (rand : W -> Z -> Z * W) (behaviour : Target -> option go_error)
  (Hlive : forall w, ctx_err w = None) (Hsleep : forall w d, (sleep w d).1 = false)
  (Hfn : forall w t, (fn w t).1 = behaviour t).

Lemma checkCtx_live s : checkCtx ctx_err s = None.
Proof using Hlive. unfold checkCtx. by rewrite Hlive. Qed.

(** The breaker state of a target that is not touched. *)
Definition br_closed (s : xstate (W := W)) (t : Target) : Prop :=
  match x_br s with Some b => is_closed (state_of b t) = true | None => True end.

Lemma br_closed_op s s' t n o :
  x_br s' = option_map (fun b => apply_op n o b) (x_br s) ->
  (forall d b, step_state (threshold b) d n o t (state_of b t) = state_of b t) ->
  br_closed s t -> br_closed s' t.
Proof.
  unfold br_closed. intros -> Hs. destruct (x_br s) as [b|]; simpl; [|done].
  by rewrite apply_op_state, Hs.
Qed.

Lemma record_error_closed s t p e : t <> p -> br_closed s t -> br_closed (record_error now s p e) t.
Proof.
  intros Hne Hc. destruct e as [pe| | | |]; simpl; try done.
  destruct (0 <? pe_RetryAfter pe) eqn:E; [|done].
  apply (br_closed_op s _ t (now (x_w s)) (OpOpenFor p (pe_RetryAfter pe))); [done| |done].
  intros d b. simpl. by rewrite decide_False.
Qed.

Lemma failure_closed s t p (f : bool) :
  t <> p -> br_closed s t ->
  br_closed (if f then set_br s (option_map (fun b => Breakers_Failure (now (x_w s)) b p) (x_br s)) else s) t.
Proof.
  intros Hne Hc. destruct f; [|done].
  apply (br_closed_op s _ t (now (x_w s)) (OpFailure p)); [done| |done].
  intros d b. simpl. by rewrite decide_False.
Qed.

(** The errors for which another attempt is pointless: the gateway's own, and a
    provider's that is neither transient, nor a rate limit, nor about the
    credentials. *)
Definition non_retryable (e : go_error) : Prop :=
  match e with
  | ErrApi _ => True
  | ErrProvider pe => pe_Retryable pe = false /\ pe_Status pe <> 429 /\ pe_Status pe <> 401 /\ pe_Status pe <> 403
  | _ => False
  end.

Lemma classify_done e : (classify e).1 = done <-> non_retryable e.
Proof.
  destruct e as [pe| | | |]; simpl; try by split.
  destruct (Z.eqb_spec (pe_Status pe) 429), (Z.eqb_spec (pe_Status pe) 401),
    (Z.eqb_spec (pe_Status pe) 403), (pe_Retryable pe); simpl; intuition congruence.
Qed.

(** A target whose calls fail in a way that allows failover is left behind. *)
Lemma attempts_failing rp p e k n s t :
  behaviour p = Some e -> ~ non_retryable e -> t <> p -> br_closed s t ->
  let r := attempts fn ctx_err now sleep rand rp p k n s in
  r.1 = NextTarget /\ br_closed r.2 t.
Proof using Hlive Hsleep Hfn.
  intros Hp Hd Hne. rewrite <- classify_done in Hd. revert n s. induction k as [|k IH]; intros n s Hc; simpl; [done|].
  rewrite checkCtx_live.
  destruct (fn (x_w s) p) as [r w] eqn:F.
  pose proof (Hfn (x_w s) p) as Hr. rewrite F in Hr; simpl in Hr. rewrite Hr, Hp.
  rewrite checkCtx_live.
  set (s1 := record_error now _ p e).
  assert (br_closed s1 t) as H1 by (by apply record_error_closed).
  destruct (classify e) as [d f] eqn:Hcl. simpl in Hd.
  pose proof (failure_closed s1 t p f Hne H1) as H2.
  set (s2 := if f then _ else _) in *.
  destruct d; [done| |done].
  destruct k as [|k']; [done|].
  destruct (backoff rand (x_w s2) (BaseDelay rp) n) as [dl w1].
  pose proof (Hsleep w1 dl) as Hs. destruct (sleep w1 dl) as [i w2]; simpl in Hs; subst i.
  by apply IH.
Qed.

Lemma ask_breaker_closed s t p : br_closed s t -> br_closed (ask_breaker now s p).2 t /\
  (p = t -> (ask_breaker now s p).1 = true).
Proof.
  unfold br_closed, ask_breaker. destruct (x_br s) as [b|] eqn:Eb; simpl; [|by rewrite Eb].
  intros Hc. pose proof (Allow_fst (now (x_w s)) b p) as Ha.
  pose proof (apply_op_state (now (x_w s)) (OpAllow p) b t) as Hs. simpl in Hs.
  destruct (Breakers_Allow (now (x_w s)) b p) as [ok b']; simpl in *. split.
  - rewrite Hs. case_decide; [|done]. unfold allow_state. by rewrite Hc.
  - intros ->. rewrite Ha. unfold allow_state. by rewrite Hc.
Qed.

Lemma run_plan_failover rp pre t post s :
  Forall (fun p => exists e, behaviour p = Some e /\ ~ non_retryable e) pre ->
  behaviour t = None -> t ∉ pre -> br_closed s t ->
  let r := run_plan fn ctx_err now sleep rand rp (pre ++ t :: post) s in
  r.1 = Return None /\ res_Target (x_res r.2) = t.
Proof using Hlive Hsleep Hfn.
  intros Hpre Ht. revert s. induction pre as [|p pre IH]; intros s Hnin Hc; cbn [app run_plan].
  - destruct (ask_breaker_closed s t t Hc) as [Hc' Ha]. specialize (Ha eq_refl).
    destruct (ask_breaker now s t) as [ok s1]; simpl in *. subst ok. simpl.
    pose proof (maxAttempts_pos rp). destruct (Z.to_nat (maxAttempts rp)) as [|k] eqn:Ek; [lia|].
    cbn [attempts]. rewrite checkCtx_live.
    destruct (fn (x_w (bump s1 t)) t) as [r w] eqn:F.
    pose proof (Hfn (x_w (bump s1 t)) t) as Hr. rewrite F in Hr; simpl in Hr.
    by rewrite Hr, Ht.
  - apply Forall_cons in Hpre as [(e & He & Hd) Hpre].
    assert (t <> p) as Hne by (intros ->; apply Hnin; constructor).
    destruct (ask_breaker_closed s t p Hc) as [Hc' _].
    destruct (ask_breaker now s p) as [ok s1]; simpl in Hc'.
    destruct (negb ok && _).
    + apply IH; [done| |done]. intros Hin. apply Hnin. by constructor.
    + destruct (attempts_failing rp p e (Z.to_nat (maxAttempts rp)) 0 s1 t He Hd Hne Hc') as [Hf Hc2].
      destruct (attempts _ _ _ _ _ _ _ _ _ _) as [f s2]; simpl in Hf, Hc2; subst f.
      apply IH; [done| |done]. intros Hin. apply Hnin. by constructor.
Qed.

(** C20. Failover is complete: if the context stays alive, every target before [t]
    in the plan fails with an error that allows failover, [t] itself serves
    requests and its breaker is closed, then the request succeeds on [t]. *)
Theorem Execute_failover (rp : RetryPolicy) (pre post : list Target) (t : Target)
  (br : option Breakers) (w : W)
  (Hpre : Forall (fun p => exists e, behaviour p = Some e /\ ~ non_retryable e) pre)
  (Ht : behaviour t = None) (Hnin : t ∉ pre)
  (Hbr : match br with Some b => is_closed (state_of b t) = true | None => True end) :
  let '(res, err, s) := Execute fn ctx_err now sleep rand (pre ++ t :: post) rp br w in
  err = None /\ res_Target res = t.
Proof using Hlive Hsleep Hfn.
  unfold Execute.
  destruct (run_plan_failover rp pre t post (init_xstate br w) Hpre Ht Hnin Hbr) as [Hf Hr].
  destruct (run_plan _ _ _ _ _ _ _ _) as [f s]; simpl in *. by subst f.
Qed.

(** The gateway's own validation errors and non-retryable provider errors
    are never retried or failed over: if the first call fails with such an
    error, that error is returned after exactly one attempt. *)
Theorem Execute_no_failover (rp : RetryPolicy) (t : Target) (rest : list Target)
  (br : option Breakers) (w : W) (e : go_error)
  (He : behaviour t = Some e) (Hd : non_retryable e)
  (Hbr : match br with Some b => is_closed (state_of b t) = true | None => True end) :
  let '(res, err, s) := Execute fn ctx_err now sleep rand (t :: rest) rp br w in
  err = Some e /\ res = mkResult t 1.
Proof using Hlive Hfn.
  unfold Execute. cbn [run_plan].
  destruct (ask_breaker_closed (init_xstate br w) t t Hbr) as [_ Ha]. specialize (Ha eq_refl).
  pose proof (ask_breaker_res now (init_xstate br w) t) as [Hres _].
  destruct (ask_breaker now (init_xstate br w) t) as [ok s1]; simpl in *. subst ok. simpl.
  pose proof (maxAttempts_pos rp). destruct (Z.to_nat (maxAttempts rp)) as [|k] eqn:Ek; [lia|].
  cbn [attempts]. rewrite checkCtx_live.
  destruct (fn (x_w (bump s1 t)) t) as [r w'] eqn:F.
  pose proof (Hfn (x_w (bump s1 t)) t) as Hr. rewrite F in Hr; simpl in Hr.
  rewrite Hr, He, checkCtx_live.
  apply classify_done in Hd. destruct (classify e) as [d f] eqn:Hcl. simpl in Hd. subst d. split; [done|].
  destruct f; simpl; rewrite record_error_res; simpl; by rewrite Hres.
Qed.

(** A probe that ends in a client error is never resolved: when the call that
    a half-open breaker let through fails with an error that is neither a
    breaker failure nor carries a Retry-After, the breaker keeps its probe
    outstanding and refuses every later request for the target, at any time and
    whatever happens to other targets. *)
Theorem Execute_leaves_probe_outstanding (rp : RetryPolicy) (t : Target) (rest : list Target)
  (b : Breakers) (w : W) (pe : ProviderError) (ops : list (Time * breaker_op)) (later : Time)
  (He : behaviour t = Some (ErrProvider pe))
  (Hclient : non_retryable (ErrProvider pe))
  (Hra : pe_RetryAfter pe <= 0)
  (Hopen : is_closed (state_of b t) = false) (Hexpired : openUntil (state_of b t) <= now w)
  (Hprobe : probing (state_of b t) = false)
  (Hops : Forall (fun o => resolves t o.2 = false) ops) :
  let '(_, err, s) := Execute fn ctx_err now sleep rand (t :: rest) rp (Some b) w in
  err = Some (ErrProvider pe) /\
  match x_br s with
  | Some b' => count_true (admissions t ops b') = 0%nat /\ (Breakers_Allow later b' t).1 = false
  | None => False
  end.
Proof using Hlive Hfn.
  destruct Hclient as (Hnr & H429 & H401 & H403).
  unfold Execute. cbn [run_plan]. unfold ask_breaker; cbn [init_xstate x_br x_w].
  pose proof (Allow_fst (now w) b t) as Ha.
  pose proof (apply_op_state (now w) (OpAllow t) b t) as Hs. simpl in Hs. rewrite decide_True in Hs by done.
  unfold allow_state in Ha, Hs. rewrite Hopen, Hprobe, orb_false_r in Ha, Hs.
  destruct (Z.ltb_spec (now w) (openUntil (state_of b t))); [lia|].
  destruct (Breakers_Allow (now w) b t) as [ok b']; simpl in Ha, Hs. subst ok. simpl.
  pose proof (maxAttempts_pos rp). destruct (Z.to_nat (maxAttempts rp)) as [|k] eqn:Ek; [lia|].
  cbn [attempts]. rewrite checkCtx_live.
  destruct (fn _ t) as [r w'] eqn:F.
  match type of F with fn ?x t = _ => pose proof (Hfn x t) as Hr end. rewrite F in Hr; simpl in Hr.
  rewrite Hr, He, checkCtx_live. unfold classify.
  apply Z.eqb_neq in H429, H401, H403. rewrite H429, H401, H403, Hnr. simpl.
  destruct (Z.ltb_spec 0 (pe_RetryAfter pe)); [lia|]. simpl. split; [done|].
  assert (is_closed (state_of b' t) = false) as Hc by (by rewrite Hs).
  split.
  - pose proof (unresolved_admissions t ops b' Hc Hops) as U. rewrite Hs in U. simpl in U. lia.
  - rewrite Allow_fst, allow_state_probing; [done| |done]. by rewrite Hs.
Qed.
End Failover.

(** The jittered back-off lies between zero and two seconds for every base
    delay and attempt number, overflow of the shift included. *)
Theorem backoff_bounded {W : Type} (rand : W -> Z -> Z * W) (w : W) (base : Duration) (n : Z)
  (Hrand : forall w m, 0 < m -> 0 <= (rand w m).1 < m) :
  0 <= (backoff rand w base n).1 <= 2 * second.
Proof.
  unfold backoff. destruct (Z.leb_spec (backoff_ceiling base n) 0) as [|Hc]; simpl; [unfold second; lia|].
  specialize (Hrand w (backoff_ceiling base n + 1) ltac:(lia)).
  unfold backoff_ceiling in *. lia.
Qed.

(** ** Witnesses *)

Definition spare_target : Target := mkTarget "anthropic" "claude".
Definition bad_request_error : ProviderError := mkProviderError "openai" 400 "bad request" false 0.

Lemma bad_request_non_retryable : non_retryable (ErrProvider bad_request_error).
Proof. repeat split; discriminate. Qed.

Definition overloaded_error : ProviderError := mkProviderError "openai" 503 "overloaded" true 0.

(** A world that is a clock; upstream calls take no time. *)
Definition demo_fn (beh : Target -> option go_error) (w : Time) (t : Target) : option go_error * Time := (beh t, w).
Definition demo_sleep (w : Time) (d : Duration) : bool * Time := (false, w + d).
Definition demo_rand (w : Time) (n : Z) : Z * Time := (0, w).

Definition demo_behaviour (t : Target) : option go_error :=
  if decide (t = demo_target) then Some (ErrProvider overloaded_error) else None.
Definition client_error_behaviour (t : Target) : option go_error :=
  if decide (t = demo_target) then Some (ErrProvider bad_request_error) else None.

Lemma Execute_last_resort_witness :
  let '(res, err, s) := Execute (demo_fn demo_behaviour) (fun _ => None) id demo_sleep demo_rand
    [demo_target] (mkRetryPolicy 2 1000) (Some demo_open) 12 in
  1 <= res_Attempts res.
Proof.
  apply (Execute_last_resort (demo_fn demo_behaviour) (fun _ => None) id demo_sleep demo_rand
    [demo_target] (mkRetryPolicy 2 1000) (Some demo_open) 12); [discriminate | reflexivity].
Defined.

Lemma Execute_failover_witness :
  let '(res, err, s) := Execute (demo_fn demo_behaviour) (fun _ => None) id demo_sleep demo_rand
    ([demo_target] ++ [spare_target]) (mkRetryPolicy 2 1000) (Some (NewBreakers 5 30)) 12 in
  err = None /\ res_Target res = spare_target.
Proof.
  apply (Execute_failover (demo_fn demo_behaviour) (fun _ => None) id demo_sleep demo_rand demo_behaviour
    ltac:(reflexivity) ltac:(reflexivity) ltac:(reflexivity)
    (mkRetryPolicy 2 1000) [demo_target] [] spare_target (Some (NewBreakers 5 30)) 12).
  - repeat constructor. exists (ErrProvider overloaded_error). split; [reflexivity|intros [H _]; discriminate].
  - reflexivity.
  - intros H. apply list_elem_of_singleton in H. discriminate.
  - reflexivity.
Defined.

Lemma Execute_no_failover_witness :
  (Execute (demo_fn client_error_behaviour) (fun _ => None) id demo_sleep demo_rand
    [demo_target; spare_target] (mkRetryPolicy 2 1000) None 12).1 =
  (mkResult demo_target 1, Some (ErrProvider bad_request_error)).
Proof.
  pose proof (Execute_no_failover (demo_fn client_error_behaviour) (fun _ => None) id demo_sleep demo_rand
    client_error_behaviour ltac:(reflexivity) ltac:(reflexivity) (mkRetryPolicy 2 1000) demo_target
    [spare_target] None 12 (ErrProvider bad_request_error) eq_refl bad_request_non_retryable I) as H.
  destruct (Execute _ _ _ _ _ _ _ _ _) as [[res err] s]. destruct H as [-> ->]. reflexivity.
Defined.

Lemma Execute_leaves_probe_outstanding_witness :
  let '(_, err, s) := Execute (demo_fn client_error_behaviour) (fun _ => None) id demo_sleep demo_rand
    [demo_target; spare_target] (mkRetryPolicy 2 1000) (Some demo_open) 20 in
  err = Some (ErrProvider bad_request_error) /\
  match x_br s with
  | Some b' => count_true (admissions demo_target demo_calls b') = 0%nat /\
               (Breakers_Allow 1000000 b' demo_target).1 = false
  | None => False
  end.
Proof.
  apply (Execute_leaves_probe_outstanding (demo_fn client_error_behaviour) (fun _ => None) id demo_sleep
    demo_rand client_error_behaviour ltac:(reflexivity) ltac:(reflexivity) (mkRetryPolicy 2 1000)
    demo_target [spare_target] demo_open 20 bad_request_error demo_calls 1000000).
  - reflexivity.
  - exact bad_request_non_retryable.
  - discriminate.
  - vm_compute; reflexivity.
  - vm_compute; discriminate.
  - vm_compute; reflexivity.
  - repeat constructor.
Defined.

Lemma backoff_bounded_witness : 0 <= (backoff demo_rand 5 200000000 3).1 <= 2 * second.
Proof. apply backoff_bounded. intros w m Hm. simpl. lia. Defined.
