(* ===== verification/Route.v ===== *)
(** * Routing plans (src/internal/router/route.go, capabilities.go)

    Targets and routes, the router built from the configuration, model
    resolution and the ordered plan.  The breakers the router shares with the
    executor are passed explicitly, with the time at which the plan is made. *)

From S2P Require Import Prelude GoStrings GoFloat GoSort Breaker Config Api.
From S2P Require Import Execute.

Open Scope string_scope.
Open Scope list_scope.
Open Scope Z_scope.

(** ** Targets *)

Definition Target_String (t : Target) : string := Provider t +:+ "/" +:+ Model t.

Definition ParseTarget (s : string) : option Target :=
  let '(p, m, ok) := cut s "/" in
  if negb ok || String.eqb p "" || String.eqb m "" then None else Some (mkTarget p m).

(** ** Capabilities *)

Record Capability := mkCapability {
  MaxContextTokens : Z;
  SupportsVision : bool;
  SupportsTools : option bool
}.

Definition is_vision_part (p : ContentPart) : bool :=
  String.eqb (cp_Type p) "image_url" || bool_decide (is_Some (cp_ImageURL p)).

Definition HasVisionContent (req : option ChatRequest) : bool :=
  match req with
  | None => false
  | Some r => existsb (fun m => match c_Parts (m_Content m) with
                                | None => false
                                | Some ps => existsb is_vision_part ps
                                end) (r_Messages r)
  end.

Definition message_uses_tools (m : Message) : bool :=
  String.eqb (m_Role m) "tool" || negb (bool_decide (m_ToolCalls m = [])).

Definition HasToolContent (req : option ChatRequest) : bool :=
  match req with
  | None => false
  | Some r =>
      negb (bool_decide (r_Tools r = [])) || negb (String.eqb (r_ToolChoice r) "") ||
      existsb message_uses_tools (r_Messages r)
  end.

Definition Compatible (req : option ChatRequest) (cap : Capability) : bool :=
  match req with
  | None => true
  | Some r =>
      if (0 <? MaxContextTokens cap) &&
         (MaxContextTokens cap <? EstimatePromptTokens r + ChatRequest_EffectiveMaxTokens r 0) then false
      else if HasVisionContent req && negb (SupportsVision cap) then false
      else if HasToolContent req &&
              match SupportsTools cap with Some b => negb b | None => false end then false
      else true
  end.

(** ** Routes and the router *)

Record Route := mkRoute {
  ro_Name : string;
  ro_Targets : list Target;
  ro_Strategy : string;
  ro_Retry : RetryPolicy;
  ro_Timeout : Duration;
  ro_Deadline : Duration;
  ro_FirstTokenTimeout : Duration;
  ro_StreamIdleTimeout : Duration;
  ro_Embeddings : bool;
  ro_Cache : CacheConfig;
  ro_Guard : GuardConfig;
  ro_SmartRoute : SmartRouteConfig;
  ro_Hedge : HedgeConfig
}.

(** The breakers of [router.Router] are passed to the operations instead. *)
Record Router := mkRouter {
  rr_routes : gmap string Route;
  rr_order : list Route;
  rr_providers : gset string;
  rr_pricing : gmap string Price;
  rr_capabilities : gmap string Capability;
  rr_degraded : option (Target -> bool)
}.

Definition route_of_config (rc : RouteConfig) : Route :=
  let deadline := if rc_Deadline rc <=? 0 then 90 * second else rc_Deadline rc in
  let ftt := if rc_FirstTokenTimeout rc <=? 0 then 15 * second else rc_FirstTokenTimeout rc in
  mkRoute (rc_Name rc) (rc_Targets rc) (rc_Strategy rc)
    (mkRetryPolicy (rt_MaxAttempts (rc_Retry rc)) (rt_BaseDelay (rc_Retry rc)))
    (rc_Timeout rc) deadline ftt (rc_StreamIdleTimeout rc) (rc_Embeddings rc)
    (rc_Cache rc) (rc_Guard rc) (rc_SmartRoute rc) (rc_Hedge rc).

Definition capability_of_config (c : CapabilityConfig) : Capability :=
  mkCapability (cb_MaxContextTokens c) (cb_SupportsVision c) (cb_SupportsTools c).

(** [New]: a later route of the same name replaces the map entry. *)
Definition add_route (r : Router) (rc : RouteConfig) : Router :=
  let rt := route_of_config rc in
  mkRouter (<[ro_Name rt := rt]> (rr_routes r)) (rr_order r ++ [rt]) (rr_providers r)
    (rr_pricing r) (rr_capabilities r) (rr_degraded r).

Definition New (cfg : Config) : Router :=
  for_range (Routes cfg)
    (mkRouter ∅ [] (list_to_set (map pv_Name (Providers cfg))) (Pricing cfg)
       (capability_of_config <$> Capabilities cfg) None)
    add_route.

Definition SetHealth (r : Router) (degraded : option (Target -> bool)) : Router :=
  mkRouter (rr_routes r) (rr_order r) (rr_providers r) (rr_pricing r) (rr_capabilities r) degraded.

Definition SetCapabilities (r : Router) (caps : gmap string Capability) : Router :=
  mkRouter (rr_routes r) (rr_order r) (rr_providers r) (rr_pricing r) caps (rr_degraded r).

Definition Router_Routes (r : Router) : list Route := rr_order r.

Definition Router_Targets (r : Router) : list Target :=
  dedup_from [] (concat (map ro_Targets (rr_order r))).

(** ** Resolution *)

Definition empty_cache_config : CacheConfig :=
  mkCacheConfig "" false None false f0 0 0 "" false 0 false false f0.
Definition empty_guard_config : GuardConfig :=
  mkGuardConfig (mkInjectionGuardConfig false f0 "") (mkPIIGuardConfig false "").
Definition empty_smart_route_config : SmartRouteConfig :=
  mkSmartRouteConfig "" "" "" 0 false "" 0 f0.
Definition empty_hedge_config : HedgeConfig := mkHedgeConfig false 0 f0.

Definition direct_route (model : string) (t : Target) : Route :=
  mkRoute model [t] "fallback" (mkRetryPolicy 2 (200 * millisecond)) (120 * second) (90 * second)
    (15 * second) (30 * second) true empty_cache_config empty_guard_config
    empty_smart_route_config empty_hedge_config.

Definition Resolve (r : Router) (model : string) (allowDirect : bool) : ApiError + Route :=
  match rr_routes r !! model with
  | Some rt => inr rt
  | None =>
      match ParseTarget model with
      | Some t =>
          if negb allowDirect
          then inl (Forbidden "route_forbidden" "direct targets are not allowed for this key; use a route name")
          else if negb (bool_decide (Provider t ∈ rr_providers r))
          then inl (BadRequest ("unknown provider " +:+ go_quote (Provider t)))
          else inr (direct_route model t)
      | None => inl (BadRequest ("unknown route " +:+ go_quote model))
      end
  end.

(** ** Ordering *)

(** A missing price is the zero [Price]. *)
Definition blendedPrice (r : Router) (t : Target) : spec_float :=
  let p := default zero_price (rr_pricing r !! Target_String t) in
  fdiv (fadd (fmul (f_of_Z 3) (pr_Input p)) (pr_Output p)) (f_of_Z 4).

(** One iteration of the loop of [Order]: the three slices and the breakers,
    in which [open] creates the missing states. *)
Definition order_step (now : Time) (degraded : option (Target -> bool))
    (st : list Target * list Target * list Target * option Breakers) (t : Target)
    : list Target * list Target * list Target * option Breakers :=
  let '(healthy, slow, opn, br) := st in
  let '(is_open, br) := match br with
                        | Some b => let '(o, b) := Breakers_open now b t in (o, Some b)
                        | None => (false, None)
                        end in
  if is_open then (healthy, slow, opn ++ [t], br)
  else if match degraded with Some f => f t | None => false end then (healthy, slow ++ [t], opn, br)
  else (healthy ++ [t], slow, opn, br).

Definition Order (r : Router) (now : Time) (br : option Breakers) (plan : list Target)
    : list Target * option Breakers :=
  let '(healthy, slow, opn, br) := for_range plan ([], [], [], br) (order_step now (rr_degraded r)) in
  ((healthy ++ slow) ++ opn, br).

Definition plan_keeps (r : Router) (req : option ChatRequest) (t : Target) : bool :=
  match req with
  | Some _ =>
      if bool_decide (rr_capabilities r = ∅) then true
      else match rr_capabilities r !! Target_String t with
           | Some cap => Compatible req cap
           | None => true
           end
  | None => true
  end.

(** The plan before the health tiers. *)
Definition base_plan (r : Router) (rt : Route) (req : option ChatRequest) : list Target :=
  let plan := filter (fun t => plan_keeps r req t = true) (ro_Targets rt) in
  let plan := match plan with [] => ro_Targets rt | _ => plan end in
  if String.eqb (ro_Strategy rt) "cheapest"
  then stable_sort (fun a b => fltb (blendedPrice r a) (blendedPrice r b)) plan
  else plan.

Definition Plan (r : Router) (now : Time) (br : option Breakers) (rt : Route)
    (req : option ChatRequest) : list Target * option Breakers :=
  Order r now br (base_plan r rt req).

(** ** Lemmas *)

(** The tier of a target: 0 healthy, 1 degraded, 2 open. *)
Definition tier (r : Router) (now : Time) (br : option Breakers) (t : Target) : Z :=
  let is_open := match br with
                 | Some b => let s := state_of b t in
                             negb (is_closed s) && ((now <? openUntil s) || probing s)
                 | None => false
                 end in
  if is_open then 2
  else if match rr_degraded r with Some f => f t | None => false end then 1 else 0.

Lemma open_state now b t :
  (Breakers_open now b t).1 =
    (let s := state_of b t in negb (is_closed s) && ((now <? openUntil s) || probing s)) /\
  (forall t', state_of (Breakers_open now b t).2 t' = state_of b t').
Proof.
  unfold Breakers_open. destruct (get_state b t) as (H1 & H2 & _).
  destruct (Breakers_get b t) as [s b']; simpl in *. by subst.
Qed.

Lemma order_loop r now plan h s o br br0 :
  (forall t, tier r now br t = tier r now br0 t) ->
  exists br',
    for_range plan (h, s, o, br) (order_step now (rr_degraded r)) =
      (h ++ filter (fun t => tier r now br0 t = 0) plan,
       s ++ filter (fun t => tier r now br0 t = 1) plan,
       o ++ filter (fun t => tier r now br0 t = 2) plan, br').
Proof.
  unfold for_range. revert h s o br. induction plan as [|t plan IH]; intros h s o br Ht; cbn [fold_left].
  - exists br. by rewrite !app_nil_r.
  - set (br1 := match br with Some b => Some (Breakers_open now b t).2 | None => None end).
    assert (forall t', tier r now br1 t' = tier r now br0 t') as Ht1.
    { intros t'. rewrite <- Ht. unfold tier, br1. destruct br as [b|]; [|done].
      destruct (open_state now b t) as [_ E]. by rewrite E. }
    assert (order_step now (rr_degraded r) (h, s, o, br) t =
      if decide (tier r now br0 t = 2) then (h, s, o ++ [t], br1)
      else if decide (tier r now br0 t = 1) then (h, s ++ [t], o, br1)
      else (h ++ [t], s, o, br1)) as ->.
    { unfold order_step. rewrite <- !Ht. unfold tier, br1. destruct br as [b|].
      - destruct (open_state now b t) as [E _]. destruct (Breakers_open now b t) as [io b']; simpl in *.
        rewrite <- E. by destruct io, (match rr_degraded r with Some f => f t | None => false end).
      - by destruct (match rr_degraded r with Some f => f t | None => false end). }
    assert (tier r now br0 t = 0 \/ tier r now br0 t = 1 \/ tier r now br0 t = 2) as Hcases.
    { unfold tier. repeat case_match; auto. }
    rewrite !filter_cons.
    destruct Hcases as [E|[E|E]]; rewrite E; simpl;
      match goal with |- context [fold_left _ plan (?h', ?s', ?o', br1)] =>
        destruct (IH h' s' o' br1 Ht1) as [br' ->] end;
      exists br'; by rewrite <- ?app_assoc.
Qed.

Lemma Order_tiers r now br plan :
  (Order r now br plan).1 =
    filter (fun t => tier r now br t = 0) plan ++
    filter (fun t => tier r now br t = 1) plan ++
    filter (fun t => tier r now br t = 2) plan.
Proof.
  unfold Order. destruct (order_loop r now plan [] [] [] br br) as [br' ->]; [done|].
  simpl. by rewrite <- app_assoc.
Qed.

Lemma Order_perm r now br plan : (Order r now br plan).1 ≡ₚ plan.
Proof.
  rewrite Order_tiers. induction plan as [|t plan IH]; [done|].
  rewrite !filter_cons.
  assert (tier r now br t = 0 \/ tier r now br t = 1 \/ tier r now br t = 2) as Hcases.
  { unfold tier. repeat case_match; auto. }
  destruct Hcases as [E|[E|E]]; rewrite E; simpl.
  - apply perm_skip, IH.
  - rewrite <- Permutation_middle. apply perm_skip, IH.
  - rewrite (app_assoc (filter _ plan)), <- Permutation_middle, <- app_assoc. apply perm_skip, IH.
Qed.

Lemma base_plan_perm r rt req :
  base_plan r rt req ≡ₚ
    match filter (fun t => plan_keeps r req t = true) (ro_Targets rt) with
    | [] => ro_Targets rt
    | l => l
    end.
Proof.
  unfold base_plan. destruct (String.eqb _ _); [rewrite stable_sort_perm|]; by case_match.
Qed.

Lemma add_routes_lookup rcs r :
  NoDup (map rc_Name rcs) ->
  (forall rc, rc ∈ rcs -> rr_routes (for_range rcs r add_route) !! rc_Name rc = Some (route_of_config rc)) /\
  (forall n, n ∉ map rc_Name rcs -> rr_routes (for_range rcs r add_route) !! n = rr_routes r !! n).
Proof.
  unfold for_range. revert r; induction rcs as [|rc rcs IH]; intros r Hnd; simpl.
  - split; [intros ? H; by apply not_elem_of_nil in H|done].
  - apply NoDup_cons in Hnd as [Hn Hnd]. destruct (IH (add_route r rc) Hnd) as [IH1 IH2]. split.
    + intros rc' [->|H]%elem_of_cons; [|by apply IH1].
      rewrite IH2 by done. simpl. by rewrite lookup_insert_eq.
    + intros n H. rewrite not_elem_of_cons in H. destruct H as [H1 H2].
      rewrite IH2 by done. simpl. by rewrite lookup_insert_ne by congruence.
Qed.

(** ** Properties *)

(** Health ordering is a stable partition: the plan is the healthy targets,
    then the degraded ones, then those with an open breaker, each group in the
    order of the input; no target is lost or duplicated. *)
Theorem Order_stable_tiers (r : Router) (now : Time) (br : option Breakers) (plan : list Target) :
  (Order r now br plan).1 =
    filter (fun t => tier r now br t = 0) plan ++
    filter (fun t => tier r now br t = 1) plan ++
    filter (fun t => tier r now br t = 2) plan /\
  (Order r now br plan).1 ≡ₚ plan.
Proof. split; [apply Order_tiers|apply Order_perm]. Qed.

(** The plan of a request is a permutation of the capable targets of the
    route, or of all its targets when none is capable, so that it is empty only
    if the route is; with the cheapest strategy and no NaN price the targets of
    each health tier come in non-decreasing price. *)
Theorem Plan_correct (r : Router) (now : Time) (br : option Breakers) (rt : Route)
  (req : option ChatRequest)
  (Hnan : forall t, t ∈ ro_Targets rt -> is_nan (blendedPrice r t) = false) :
  (Plan r now br rt req).1 ≡ₚ
    match filter (fun t => plan_keeps r req t = true) (ro_Targets rt) with
    | [] => ro_Targets rt | l => l
    end /\
  ((Plan r now br rt req).1 = [] -> ro_Targets rt = []) /\
  (ro_Strategy rt = "cheapest" -> forall k,
     StronglySorted (fun a b => fltb (blendedPrice r b) (blendedPrice r a) = false)
       (filter (fun t => tier r now br t = k) (base_plan r rt req))).
Proof.
  unfold Plan. split; [|split].
  - by rewrite Order_perm, base_plan_perm.
  - intros E. pose proof (Order_perm r now br (base_plan r rt req)) as P. rewrite E in P.
    rewrite base_plan_perm in P. destruct (filter _ (ro_Targets rt)); by apply Permutation_nil in P.
  - intros Hs k.
    assert (Forall (fun t => is_nan (blendedPrice r t) = false) (base_plan r rt req)) as Hall.
    { rewrite base_plan_perm. apply Forall_forall. intros t Ht. apply Hnan.
      destruct (filter _ (ro_Targets rt)) eqn:E; [done|].
      rewrite <- E in Ht. by apply list_elem_of_filter in Ht as [_ Ht]. }
    apply StronglySorted_filter.
    unfold base_plan in *. rewrite Hs in *. simpl in *.
    apply (stable_sort_sorted (fun a b => fltb (blendedPrice r a) (blendedPrice r b))
      (fun t => is_nan (blendedPrice r t) = false)).
    + intros x y _ _. apply fltb_asym.
    + intros x y z. apply fltb_false_trans.
    + by rewrite stable_sort_perm in Hall.
Qed.

(** Target identifiers round-trip: printing then parsing gives the target
    back whenever the provider has no '/' and both parts are non-empty (the
    model may contain '/'), and every string that parses prints as itself. *)
Theorem ParseTarget_roundtrip (t : Target) (s : string)
  (Hp : Provider t <> "") (Hm : Model t <> "") (Hslash : contains (Provider t) "/" = false) :
  ParseTarget (Target_String t) = Some t /\
  (forall t', ParseTarget s = Some t' -> Target_String t' = s).
Proof.
  split.
  - unfold ParseTarget, cut, Target_String.
    assert (index "/" (Provider t +:+ "/" +:+ Model t) = Some (String.length (Provider t))) as ->.
    { apply index_byte_app. apply index_byte_None. unfold contains in Hslash.
      by destruct (index "/" (Provider t)). }
    rewrite stake_app_length, sdrop_app_ge.
    change (sdrop (String.length "/") ("/" +:+ Model t)) with (Model t).
    apply String.eqb_neq in Hp, Hm. rewrite Hp. simpl. rewrite Hm. by destruct t.
  - intros t'. unfold ParseTarget, cut. destruct (index "/" s) as [i|] eqn:E; [|done].
    simpl. destruct (String.eqb (stake i s) "" || _); [done|]. intros [= <-].
    unfold Target_String; simpl. symmetry. exact (index_Some "/" s i E).
Qed.

(** A key without direct access can only reach configured routes, and a key
    with it only configured routes or a single target of a known provider. *)
Theorem Resolve_authorised (r : Router) (model : string) (allowDirect : bool) (rt : Route)
  (Hres : Resolve r model allowDirect = inr rt) :
  rr_routes r !! model = Some rt \/
  (allowDirect = true /\ exists t, ro_Targets rt = [t] /\ Target_String t = model /\
     Provider t ∈ rr_providers r).
Proof.
  unfold Resolve in Hres. destruct (rr_routes r !! model) as [rt'|]; [by left; simplify_eq|].
  destruct (ParseTarget model) as [t|] eqn:E; [|done].
  destruct allowDirect; simpl in Hres; [|done].
  case_bool_decide as Hin; simpl in Hres; [|done]. simplify_eq. right. split; [done|].
  exists t. split; [done|]. split; [|done].
  unfold ParseTarget in E. destruct (cut model "/") as [[p m] ok] eqn:C.
  unfold cut in C. destruct (index "/" model) as [i|] eqn:Ei; [|by simplify_eq/=].
  injection C as <- <- <-. simpl in E.
  destruct (String.eqb _ _ || _); simplify_eq. symmetry. exact (index_Some "/" model i Ei).
Qed.

(** End to end: for a configuration that the gateway accepts, every
    configured route name resolves, for every key, to that route, and its plan
    is non-empty at any time, for any request and any breaker state. *)
Theorem configured_routes_are_servable {IP IPNet : Type} (getenv : string -> string)
  (atoi : string -> option Z) (parse_ip : string -> option IP) (ip_is_v4 : IP -> bool)
  (parse_cidr : string -> option IPNet) (url_parse : string -> option parsed_url)
  (c c' : Config) (rc : RouteConfig) (allowDirect : bool) (now : Time)
  (br : option Breakers) (req : option ChatRequest)
  (Hparse : Parse_decoded getenv atoi parse_ip ip_is_v4 parse_cidr url_parse c = inr c')
  (Hrc : rc ∈ Routes c') :
  Resolve (New c') (rc_Name rc) allowDirect = inr (route_of_config rc) /\
  (Plan (New c') now br (route_of_config rc) req).1 <> [].
Proof.
  apply Parse_validates in Hparse as [_ Hv].
  unfold validate, validate_limits in Hv. split_nil.
  match goal with H : validate_routes _ _ _ _ _ = [] |- _ => apply validate_routes_nil in H as (Hall & Hnd & _) end.
  split.
  - unfold Resolve, New.
    match goal with |- context [for_range _ ?r0 _] => destruct (add_routes_lookup (Routes c') r0 Hnd) as [Hl _] end.
    by rewrite (Hl rc Hrc).
  - intros E. eapply Forall_forall in Hall as (_ & _ & Ht & _); [|exact Hrc]. apply Ht.
    unfold Plan in E. pose proof (Order_perm (New c') now br (base_plan (New c') (route_of_config rc) req)) as P.
    rewrite E, base_plan_perm in P. simpl in P.
    destruct (filter _ (rc_Targets rc)); by apply Permutation_nil in P.
Qed.

(** ** Witnesses *)

Definition demo_router : Router := New (applyDefaults (fun _ => "") demo_config).

Definition cheap_router : Router :=
  SetHealth (mkRouter ∅ [] ∅ (<["openai/gpt-4o" := mkPrice (f_of_Z 3) (f_of_Z 10) f0]>
    (<["anthropic/claude" := mkPrice (f_of_Z 1) (f_of_Z 5) f0]> ∅)) ∅ None) None.

Definition cheap_route : Route :=
  mkRoute "cheap" [demo_target; spare_target] "cheapest" (mkRetryPolicy 2 0) 0 0 0 0 false
    empty_cache_config empty_guard_config empty_smart_route_config empty_hedge_config.

Lemma Plan_correct_witness :
  (Plan cheap_router 12 (Some demo_open) cheap_route None).1 = [spare_target; demo_target] /\
  (Plan cheap_router 12 (Some demo_open) cheap_route None).1 ≡ₚ [demo_target; spare_target].
Proof.
  split; [vm_compute; reflexivity|].
  apply (Plan_correct cheap_router 12 (Some demo_open) cheap_route None).
  intros t Ht. apply elem_of_cons in Ht as [->|Ht]; [vm_compute; reflexivity|].
  apply list_elem_of_singleton in Ht as ->. vm_compute; reflexivity.
Defined.

Lemma ParseTarget_roundtrip_witness :
  ParseTarget (Target_String (mkTarget "openrouter" "meta/llama-3")) = Some (mkTarget "openrouter" "meta/llama-3").
Proof.
  apply (ParseTarget_roundtrip (mkTarget "openrouter" "meta/llama-3") "");
    [discriminate | discriminate | reflexivity].
Defined.

Lemma Resolve_authorised_witness :
  rr_routes demo_router !! "openai/gpt-4o" = Some (direct_route "openai/gpt-4o" demo_target) \/
  (true = true /\ exists t, ro_Targets (direct_route "openai/gpt-4o" demo_target) = [t] /\
     Target_String t = "openai/gpt-4o" /\ Provider t ∈ rr_providers demo_router).
Proof.
  apply (Resolve_authorised demo_router "openai/gpt-4o" true (direct_route "openai/gpt-4o" demo_target)).
  vm_compute. reflexivity.
Defined.

Lemma configured_routes_are_servable_witness :
  (Plan demo_router 5 None (route_of_config (default_route demo_route_cfg)) None).1 <> [].
Proof.
  apply (configured_routes_are_servable (IP := unit) (IPNet := unit) (fun _ => "") (fun _ => None)
    (fun _ => None) (fun _ => true) (fun _ => None) demo_url demo_config
    (applyDefaults (fun _ => "") demo_config) (default_route demo_route_cfg) false 5 None None).
  - vm_compute. reflexivity.
  - constructor.
Defined.
