(* ===== verification/Hedge.v ===== *)
(** * Tail-latency hedging (src/internal/router/hedge.go)

    The hedge budget, and the race of [ExecuteHedged] as a machine driven by the
    events its [select] receives: the timer, the completion of one of the two
    calls, the end of the context.  The values of the calls are of type [T]. *)

From S2P Require Import Prelude GoStrings GoFloat Breaker Api Execute.

Open Scope string_scope.
Open Scope list_scope.
Open Scope Z_scope.

(** ** The budget *)

Record HedgeBudget := mkHedgeBudget {
  maxExtra : spec_float;
  requests : spec_float;
  hedges : spec_float
}.

Definition NewHedgeBudget (m : spec_float) : HedgeBudget := mkHedgeBudget m f0 f0.

Definition HedgeBudget_decay (b : HedgeBudget) : HedgeBudget :=
  if fgtb (requests b) (f_of_Z 1000)
  then mkHedgeBudget (maxExtra b) (f_of_Z 1000) (fmul (hedges b) (fdiv (f_of_Z 1000) (requests b)))
  else b.

Definition HedgeBudget_Request (b : HedgeBudget) : HedgeBudget :=
  HedgeBudget_decay (mkHedgeBudget (maxExtra b) (fadd (requests b) f1) (hedges b)).

Definition HedgeBudget_Allow (b : HedgeBudget) : bool * HedgeBudget :=
  if fgtb (fadd (hedges b) f1) (fmul (maxExtra b) (requests b)) then (false, b)
  else (true, mkHedgeBudget (maxExtra b) (requests b) (fadd (hedges b) f1)).

(** Hedges admitted when every one of [n] requests asks for a hedge. *)
Fixpoint hedge_all (n : nat) (b : HedgeBudget) : Z :=
  match n with
  | O => 0
  | S n' => let '(ok, b') := HedgeBudget_Allow (HedgeBudget_Request b) in
            (if ok then 1 else 0) + hedge_all n' b'
  end.

(** About one request in ten is hedged, also past the sliding window. *)
Example hedge_share : hedge_all 2000 (NewHedgeBudget (f_lit 10 100)) = 199.
Proof. vm_compute. reflexivity. Qed.

(** ** The race *)

Definition boolInt (b : bool) : Z := if b then 1 else 0.

Section Race.
Context {T : Type} (p0 p1 : Target) (tail : list Target).

(** [Primary] is the call launched on [plan[0]] with [ctxA], [Secondary] the one
    on [plan[1]] with [ctxB]. *)
Inductive side := Primary | Secondary.

Inductive event :=
| TimerFired (allowed : bool)                (* the answer of allow(), if it is asked *)
| Completed (who : side) (r : go_error + T)
| CtxDone (err : go_error).

Record hstate := mkHstate {
  h_timer : bool;              (* the timer has fired *)
  h_hedged : bool;
  h_pending : Z;
  h_doneA : bool;              (* results already received *)
  h_doneB : bool;
  h_lastErr : option go_error;
  h_cancelledA : bool;
  h_cancelledB : bool;
  h_br : option Breakers
}.

Definition init_hstate (br : option Breakers) : hstate :=
  mkHstate false false 1 false false None false false br.

Definition target_of (who : side) : Target :=
  match who with Primary => p0 | Secondary => p1 end.

(** The events that can occur: each channel delivers once, and only a call that
    was launched completes. *)
Definition enabled (st : hstate) (ev : event) : bool :=
  match ev with
  | TimerFired _ => negb (h_timer st)
  | Completed Primary _ => negb (h_doneA st)
  | Completed Secondary _ => h_hedged st && negb (h_doneB st)
  | CtxDone _ => true
  end.

Inductive outcome :=
| Won (v : T) (res : Result) (hedged : bool) (drain : Z)  (* [drain] late results are released *)
| Failed (res : Result) (hedged : bool) (err : go_error)
| Linear (rest : list Target) (hedged : bool).            (* continue with run(rest) *)

Definition received (st : hstate) (who : side) : hstate :=
  match who with
  | Primary => mkHstate (h_timer st) (h_hedged st) (h_pending st) true (h_doneB st) (h_lastErr st)
                 (h_cancelledA st) (h_cancelledB st) (h_br st)
  | Secondary => mkHstate (h_timer st) (h_hedged st) (h_pending st) (h_doneA st) true (h_lastErr st)
                   (h_cancelledA st) (h_cancelledB st) (h_br st)
  end.

Definition cancel (st : hstate) (a b : bool) : hstate :=
  mkHstate (h_timer st) (h_hedged st) (h_pending st) (h_doneA st) (h_doneB st) (h_lastErr st)
    (h_cancelledA st || a) (h_cancelledB st || b) (h_br st).

(** [finish]: the other context is chosen by comparing the winner's target with
    [plan[0]]; the deferred cancels do nothing once [won] is set. *)
Definition finish (st : hstate) (t : Target) (v : T) : hstate * outcome :=
  let st := if decide (t = p0) then cancel st false true else cancel st true false in
  let st := mkHstate (h_timer st) (h_hedged st) (h_pending st) (h_doneA st) (h_doneB st) (h_lastErr st)
              (h_cancelledA st) (h_cancelledB st) (option_map (fun b => Breakers_Success b t) (h_br st)) in
  (st, Won v (mkResult t (if h_hedged st then 2 else 1)) (h_hedged st) (h_pending st - 1)).

Definition timeout_error (lastErr : option go_error) : go_error :=
  ErrApi (GatewayTimeout (match lastErr with
    | Some e => timeout_message e
    | None => "gateway timeout: plan deadline exceeded"
    end)).

(** A failed call: the breaker is told, and with no call pending the race is
    over. *)
Definition on_failure (now : Time) (st : hstate) (t : Target) (err : go_error) : hstate * option outcome :=
  let br := if (classify err).2 then option_map (fun b => Breakers_Failure now b t) (h_br st) else h_br st in
  let st := mkHstate (h_timer st) (h_hedged st) (h_pending st - 1) (h_doneA st) (h_doneB st) (Some err)
              (h_cancelledA st) (h_cancelledB st) br in
  if h_pending st =? 0 then
    let rest := if h_hedged st then tail else p1 :: tail in
    let st := cancel st true true in
    match rest with
    | [] => (st, Some (Failed (mkResult t 2) (h_hedged st) err))
    | _ => if decide ((classify err).1 = done)
           then (st, Some (Failed (mkResult t 0) (h_hedged st) err))
           else (st, Some (Linear rest (h_hedged st)))
    end
  else (st, None).

Definition hedge_step (now : Time) (st : hstate) (ev : event) : hstate * option outcome :=
  match ev with
  | TimerFired allowed =>
      let fire := negb (h_hedged st) && allowed in
      (mkHstate true (h_hedged st || fire) (if fire then h_pending st + 1 else h_pending st)
         (h_doneA st) (h_doneB st) (h_lastErr st) (h_cancelledA st) (h_cancelledB st) (h_br st), None)
  | Completed who (inr v) =>
      let '(st, o) := finish (received st who) (target_of who) v in (st, Some o)
  | Completed who (inl err) => on_failure now (received st who) (target_of who) err
  | CtxDone err =>
      let st := cancel st true true in
      match err with
      | ErrDeadlineExceeded => (st, Some (Failed zero_result (h_hedged st) (timeout_error (h_lastErr st))))
      | _ => (st, Some (Failed zero_result (h_hedged st) err))
      end
  end.

(** A run of the race: enabled events until an outcome. *)
Inductive race : hstate -> list (Time * event) -> hstate -> option outcome -> Prop :=
| race_nil st : race st [] st None
| race_more st now ev st1 evs st2 o :
    enabled st ev = true -> hedge_step now st ev = (st1, None) ->
    race st1 evs st2 o -> race st ((now, ev) :: evs) st2 o
| race_end st now ev st1 o :
    enabled st ev = true -> hedge_step now st ev = (st1, Some o) ->
    race st [(now, ev)] st1 (Some o).

Lemma race_app st evs st1 evs' st2 o :
  race st evs st1 None -> race st1 evs' st2 o -> race st (evs ++ evs') st2 o.
Proof.
  intros H. remember None as o0 eqn:E. induction H; intros H2; simpl; [done| |done].
  eapply race_more; eauto.
Qed.

(** The loop invariant: the pending counter counts the launched calls whose
    result has not arrived, and nothing is cancelled while the race is on. *)
Definition race_inv (st : hstate) : Prop :=
  h_pending st = boolInt (negb (h_doneA st)) + boolInt (h_hedged st && negb (h_doneB st)) /\
  1 <= h_pending st /\
  (h_doneB st = true -> h_hedged st = true) /\
  (h_hedged st = true -> h_timer st = true) /\
  h_cancelledA st = false /\ h_cancelledB st = false.

Lemma race_inv_init br : race_inv (init_hstate br).
Proof. unfold race_inv; simpl. repeat split; try done; lia. Qed.

Lemma race_inv_step now st ev st1 :
  race_inv st -> enabled st ev = true -> hedge_step now st ev = (st1, None) -> race_inv st1.
Proof.
  intros (Hp & H1 & HB & HT & HcA & HcB) He Hs.
  destruct ev as [allowed|who r|err]; simpl in *.
  - simplify_eq. unfold race_inv; simpl. apply negb_true_iff in He.
    destruct (h_hedged st) eqn:Eh; [by rewrite HT in He|].
    destruct (h_doneB st); [by discriminate HB|].
    destruct allowed; simpl in *; repeat split; try done; lia.
  - destruct r as [err|v]; [|by simplify_eq].
    unfold on_failure in Hs. unfold race_inv, boolInt in *.
    destruct who; simpl in *.
    + apply negb_true_iff in He. rewrite He in *. simpl in *.
      destruct (Z.eqb_spec (h_pending st - 1) 0) as [E|E].
      * destruct (h_hedged st); [destruct tail|]; simpl in *;
          repeat case_decide; simplify_eq.
      * simplify_eq; simpl. rewrite HcA, HcB. repeat split; try done;
        destruct (h_hedged st), (h_doneB st); simpl in *; lia.
    + apply andb_true_iff in He as [Eh Ed]. apply negb_true_iff in Ed. rewrite Eh, Ed in *. simpl in *.
      destruct (Z.eqb_spec (h_pending st - 1) 0) as [E|E].
      * destruct tail; simpl in *; repeat case_decide; simplify_eq.
      * simplify_eq; simpl. rewrite HcA, HcB. repeat split; try done; auto;
        destruct (h_doneA st); simpl in *; lia.
  - destruct err; simplify_eq.
Qed.

Lemma race_inv_run st evs st' o : race st evs st' o -> race_inv st -> o = None -> race_inv st'.
Proof. induction 1; intros; simplify_eq; eauto using race_inv_step. Qed.

(** Facts about the outcome of a run from a state satisfying the invariant. *)
Definition outcome_ok (br : option Breakers) (st : hstate) (o : outcome) : Prop :=
  match o with
  | Won v res hedged drain =>
      hedged = h_hedged st /\ 0 <= drain <= 1 /\
      (res = mkResult p0 (1 + boolInt hedged) \/ res = mkResult p1 2 /\ hedged = true)
  | Failed res hedged err => h_cancelledA st = true /\ h_cancelledB st = true
  | Linear rest hedged =>
      rest = (if hedged then tail else p1 :: tail) /\ rest <> [] /\
      h_cancelledA st = true /\ h_cancelledB st = true
  end.

Lemma step_outcome_ok now st ev st1 o br :
  race_inv st -> enabled st ev = true -> hedge_step now st ev = (st1, Some o) -> outcome_ok br st1 o.
Proof.
  intros (Hp & H1 & HB & HT & HcA & HcB) He Hs.
  destruct ev as [allowed|who r|err]; simpl in *; [done| |].
  - destruct r as [err|v].
    + unfold on_failure in Hs. unfold outcome_ok. destruct who; simpl in *;
        destruct (Z.eqb_spec (h_pending st - 1) 0); try done;
        destruct (h_hedged st); simpl in *; try destruct tail; simpl in *;
        repeat case_decide; simplify_eq; simpl; rewrite ?orb_true_r; auto.
    + destruct who; simpl in *.
      * rewrite decide_True in Hs by done. simplify_eq; simpl. unfold boolInt in *.
        apply negb_true_iff in He. rewrite He in Hp. simpl in Hp.
        destruct (h_hedged st), (h_doneB st); simpl in *; repeat split; auto; try lia.
      * apply andb_true_iff in He as [Eh Ed]. apply negb_true_iff in Ed. rewrite Eh, Ed in *. simpl in Hp.
        case_decide; simplify_eq; simpl; rewrite ?Eh; unfold boolInt in *;
          destruct (h_doneA st); simpl in *; repeat split; auto; try lia.
  - destruct err; simplify_eq; simpl; by rewrite !orb_true_r.
Qed.

(** A race makes at most two calls, the second only after the timer fired
    and the budget allowed it, and it always has a call to wait for: as long as
    it has not returned, at least one launched call is outstanding and no
    context is cancelled. *)
Theorem hedge_race_progress (br : option Breakers) (evs : list (Time * event)) (st : hstate)
  (Hrun : race (init_hstate br) evs st None) :
  race_inv st /\ h_pending st <= 2 /\
  (h_hedged st = true -> exists now, (now, TimerFired true) ∈ evs).
Proof.
  pose proof (race_inv_run _ _ _ _ Hrun (race_inv_init br) eq_refl) as Hinv.
  split; [done|]. split.
  - destruct Hinv as (-> & _). unfold boolInt. repeat case_match; lia.
  - assert (forall st0, race st0 evs st None -> h_hedged st0 = false -> h_hedged st = true ->
      exists now, (now, TimerFired true) ∈ evs) as Hgen.
    { clear. intros st0 Hr. remember None as o eqn:Eo. induction Hr as [st0|st0 now ev st1 evs st2 o He Hs Hr IH|];
        [congruence| |done].
      intros H0 H2. destruct (h_hedged st1) eqn:E1.
      - exists now. destruct ev as [[]|who [err|v]|err]; simpl in *; simplify_eq; try constructor;
          simpl in *; try congruence;
          try (unfold on_failure in Hs; destruct who; simpl in *; repeat case_match; simplify_eq; simpl in *; congruence).
        + rewrite H0 in E1. done.
        + destruct err; simplify_eq.
      - destruct (IH Eo eq_refl H2) as [n Hn]. exists n. by constructor. }
    intros Hh. by apply (Hgen _ Hrun).
Qed.

(** The first success wins: a successful completion ends the race at once
    with that call's value, at its target; the result reports two attempts
    exactly when a hedge was launched, and one late result at most is left to
    be released. *)
Theorem hedge_first_success_wins (br : option Breakers) (evs : list (Time * event)) (st : hstate)
  (now : Time) (who : side) (v : T)
  (Hrun : race (init_hstate br) evs st None) (Hen : enabled st (Completed who (inr v)) = true) :
  exists st' res drain,
    race (init_hstate br) (evs ++ [(now, Completed who (inr v))]) st' (Some (Won v res (h_hedged st) drain)) /\
    res_Target res = target_of who /\ res_Attempts res = 1 + boolInt (h_hedged st) /\ 0 <= drain <= 1.
Proof.
  pose proof (race_inv_run _ _ _ _ Hrun (race_inv_init br) eq_refl) as Hinv.
  destruct (hedge_step now st (Completed who (inr v))) as [st' o] eqn:Hs.
  assert (exists res drain, o = Some (Won v res (h_hedged st) drain) /\ res_Target res = target_of who /\
    res_Attempts res = 1 + boolInt (h_hedged st)) as (res & drain & -> & Ht & Ha).
  { simpl in Hs. unfold finish in Hs. destruct who; simpl in *; case_decide; simplify_eq; simpl;
      do 2 eexists; (split; [done|]); split; try done; by destruct (h_hedged st). }
  exists st', res, drain. split; [|split; [done|split; [done|]]].
  - eapply race_app; [exact Hrun|]. by apply race_end.
  - destruct (step_outcome_ok now st _ _ _ br Hinv Hen Hs) as (_ & Hd & _). done.
Qed.

(** When the two first targets differ, the winner's own context is not
    cancelled by the race, so its (possibly streaming) response stays usable. *)
Theorem hedge_winner_not_cancelled (br : option Breakers) (evs : list (Time * event)) (st st' : hstate)
  (now : Time) (who : side) (v : T) (o : outcome)
  (Hdistinct : p0 <> p1) (Hrun : race (init_hstate br) evs st None)
  (Hstep : hedge_step now st (Completed who (inr v)) = (st', Some o)) :
  match who with Primary => h_cancelledA st' = false | Secondary => h_cancelledB st' = false end.
Proof.
  pose proof (race_inv_run _ _ _ _ Hrun (race_inv_init br) eq_refl) as (_ & _ & _ & _ & HcA & HcB).
  simpl in Hstep. unfold finish in Hstep. destruct who; simpl in *; case_decide; simplify_eq; simpl;
    rewrite ?HcA, ?HcB; done.
Qed.
End Race.

(** With the same target twice at the head of the plan the hedge cancels
    itself: when the secondary call wins, the context that is cancelled is its
    own. *)
Theorem hedge_duplicate_target_cancels_winner {T : Type} (p : Target) (tail : list Target)
  (now : Time) (br : option Breakers) (v : T) :
  let st := (hedge_step (T := T) p p tail now (init_hstate br) (TimerFired true)).1 in
  let '(st', o) := hedge_step p p tail now st (Completed Secondary (inr v)) in
  enabled (T := T) st (Completed Secondary (inr v)) = true /\
  h_cancelledB st' = true /\ h_cancelledA st' = false /\
  o = Some (Won v (mkResult p 2) true 1).
Proof. simpl. unfold finish. by rewrite decide_True. Qed.

(** A hedged execution whose only call fails with a client error reports
    zero attempts for it, where [Execute] reports one. *)
Theorem hedge_client_error_reports_zero_attempts {T : Type} (p0 p1 : Target) (tail : list Target)
  (now : Time) (br : option Breakers) (err : go_error)
  (Hclient : (classify err).1 = done) :
  exists st, hedge_step (T := T) p0 p1 tail now (init_hstate br) (Completed Primary (inl err)) =
    (st, Some (Failed (mkResult p0 0) false err)).
Proof. eexists. simpl. unfold on_failure; simpl. by rewrite decide_True. Qed.

(** ** Witnesses *)

Definition hedge_events : list (Time * event (T := string)) :=
  [(1, TimerFired true); (2, Completed Primary (inl (ErrProvider overloaded_error)))].

Definition hedged_state : hstate :=
  (hedge_step (T := string) demo_target spare_target [] 2
    (hedge_step (T := string) demo_target spare_target [] 1 (init_hstate None) (TimerFired true)).1
    (Completed Primary (inl (ErrProvider overloaded_error)))).1.

Lemma hedge_race_progress_witness :
  race_inv hedged_state /\ h_pending hedged_state <= 2.
Proof.
  destruct (hedge_race_progress (T := string) demo_target spare_target [] None hedge_events hedged_state)
    as (H1 & H2 & _); [|by split].
  eapply race_more; [reflexivity|reflexivity|].
  eapply race_more; [reflexivity|reflexivity|]. apply race_nil.
Defined.

Lemma hedge_first_success_wins_witness :
  exists st' res drain,
    race demo_target spare_target [] (init_hstate None)
      ([(1, TimerFired true)] ++ [(3, Completed Secondary (inr "hi"))]) st' (Some (Won "hi" res true drain)) /\
    res_Target res = spare_target /\ res_Attempts res = 2 /\ 0 <= drain <= 1.
Proof.
  apply (hedge_first_success_wins (T := string) demo_target spare_target [] None [(1, TimerFired true)]
    (hedge_step (T := string) demo_target spare_target [] 1 (init_hstate None) (TimerFired true)).1 3 Secondary "hi").
  - eapply race_more; [reflexivity|reflexivity|]. apply race_nil.
  - reflexivity.
Defined.

Lemma hedge_winner_not_cancelled_witness :
  h_cancelledB (hedge_step demo_target spare_target [] 3
    (hedge_step (T := string) demo_target spare_target [] 1 (init_hstate None) (TimerFired true)).1
    (Completed Secondary (inr "hi"))).1 = false.
Proof.
  eapply (hedge_winner_not_cancelled (T := string) demo_target spare_target [] None [(1, TimerFired true)] _ _ 3
    Secondary "hi").
  - discriminate.
  - eapply race_more; [reflexivity|reflexivity|]. apply race_nil.
  - reflexivity.
Defined.

Lemma hedge_client_error_witness :
  exists st, hedge_step (T := string) demo_target spare_target [] 1 (init_hstate None)
    (Completed Primary (inl (ErrProvider bad_request_error))) =
    (st, Some (Failed (mkResult demo_target 0) false (ErrProvider bad_request_error))).
Proof. apply hedge_client_error_reports_zero_attempts. reflexivity. Defined.
