(* ===== verification/Health.v ===== *)
(** * Provider health (src/internal/health/tracker.go)

    Moving averages of latency, throughput and errors per target, and the state
    machine that marks a target degraded and lets it recover.  The averages are
    the binary64 operations of the source in their order (no fused multiply-add,
    as on amd64).  The clock is an argument, one for each place that reads it. *)

From S2P Require Import Prelude GoStrings GoFloat Breaker Config Route.

Open Scope string_scope.
Open Scope list_scope.
Open Scope Z_scope.

(** ** Data *)

Inductive Outcome := Unknown | OK | Failed.

Record Sample := mkSample {
  sa_Target : Target;
  sa_TTFT : Duration;
  sa_Tokens : Z;
  sa_Gen : Duration;
  sa_Outcome : Outcome
}.

Record Stats := mkStats {
  TTFTMs : spec_float;
  TTFTDevMs : spec_float;
  TPS : spec_float;
  ErrRate : spec_float;
  TTFTN : Z;
  TPSN : Z;
  ErrN : Z;
  Degraded : bool;
  Since : Time;
  Reason : string
}.

Record entry := mkEntryH { en_Stats : Stats; breaches : Z; lastBreach : Time }.

Definition zero_stats : Stats := mkStats f0 f0 f0 f0 0 0 0 false 0 "".
Definition zero_entry : entry := mkEntryH zero_stats 0 0.

Record Tracker := mkTracker {
  tk_cfg : HealthConfig;
  tk_slos : gmap string SLO;
  tk_m : gmap Target entry;
  tk_known : gset Target
}.

Definition NewTracker (cfg : HealthConfig) (slos : gmap string SLO) : Tracker := mkTracker cfg slos ∅ ∅.
Definition SetTargets (targets : list Target) (t : Tracker) : Tracker :=
  mkTracker (tk_cfg t) (tk_slos t) (tk_m t) (list_to_set targets).
Definition SetSLOs (s : gmap string SLO) (t : Tracker) : Tracker := mkTracker (tk_cfg t) s (tk_m t) (tk_known t).

Definition tracker_get (t : Tracker) (tg : Target) : entry := default zero_entry (tk_m t !! tg).
Definition tracker_put (t : Tracker) (tg : Target) (e : entry) : Tracker :=
  mkTracker (tk_cfg t) (tk_slos t) (<[tg := e]> (tk_m t)) (tk_known t).

(** ** Averages *)

Definition ewma (old x a : spec_float) (n : Z) : spec_float :=
  if n =? 0 then x else fadd (fmul (fsub f1 a) old) (fmul a x).

(** [d.Microseconds()] *)
Definition Microseconds (d : Duration) : Z := Z.quot d microsecond.

Definition observe_ttft (a : spec_float) (ttft : Duration) (e : Stats) : Stats :=
  if 0 <? ttft then
    let x := fdiv (f_of_Z (Microseconds ttft)) (f_of_Z 1000) in
    let '(ms, dev) :=
      if TTFTN e =? 0 then (x, f0)
      else (fadd (fmul (fsub f1 a) (TTFTMs e)) (fmul a x),
            fadd (fmul (fsub f1 a) (TTFTDevMs e)) (fmul a (fabs (fsub x (TTFTMs e))))) in
    mkStats ms dev (TPS e) (ErrRate e) (TTFTN e + 1) (TPSN e) (ErrN e) (Degraded e) (Since e) (Reason e)
  else e.

Definition observe_tps (a : spec_float) (tokens : Z) (gen : Duration) (e : Stats) : Stats :=
  if (0 <? tokens) && (0 <? gen) then
    mkStats (TTFTMs e) (TTFTDevMs e) (ewma (TPS e) (fdiv (f_of_Z tokens) (Seconds gen)) a (TPSN e)) (ErrRate e)
      (TTFTN e) (TPSN e + 1) (ErrN e) (Degraded e) (Since e) (Reason e)
  else e.

Definition observe_outcome (a : spec_float) (o : Outcome) (e : Stats) : Stats :=
  match o with
  | Unknown => e
  | _ =>
      let x := match o with Failed => f1 | _ => f0 end in
      mkStats (TTFTMs e) (TTFTDevMs e) (TPS e) (ewma (ErrRate e) x a (ErrN e))
        (TTFTN e) (TPSN e) (ErrN e + 1) (Degraded e) (Since e) (Reason e)
  end.

(** ** The state machine *)

Definition set_degraded (e : Stats) (d : bool) (since : Time) (reason : string) : Stats :=
  mkStats (TTFTMs e) (TTFTDevMs e) (TPS e) (ErrRate e) (TTFTN e) (TPSN e) (ErrN e) d since reason.

(** Which objectives are breached. *)
Definition slo_reasons (min : Z) (slo : SLO) (e : Stats) : list string :=
  (if fgtb (slo_TTFTMs slo) f0 && (min <=? TTFTN e) && fgtb (TTFTMs e) (slo_TTFTMs slo) then ["ttft"] else []) ++
  (if fgtb (slo_MinTPS slo) f0 && (Z.quot min 2 + 1 <=? TPSN e) && fltb (TPS e) (slo_MinTPS slo) then ["tokens_per_sec"] else []) ++
  (if fgtb (slo_MaxErrorRate slo) f0 && (min <=? ErrN e) && fgtb (ErrRate e) (slo_MaxErrorRate slo) then ["error_rate"] else []).

(** Whether there are enough samples to confirm a healthy state. *)
Definition confirmed (min : Z) (slo : SLO) (e : Stats) : bool :=
  (fgtb (slo_TTFTMs slo) f0 && (min <=? TTFTN e)) || (fgtb (slo_MaxErrorRate slo) f0 && (min <=? ErrN e)) ||
  (fgtb (slo_MinTPS slo) f0 && (Z.quot min 2 + 1 <=? TPSN e)).

Definition evaluate (cfg : HealthConfig) (slo : option SLO) (now : Time) (e : entry) : entry :=
  match slo with
  | None => e
  | Some slo =>
      let min := hc_MinSamples cfg in
      let reasons := slo_reasons min slo (en_Stats e) in
      match reasons with
      | _ :: _ =>
          let b := breaches e + 1 in
          let st := if negb (Degraded (en_Stats e)) && (hc_Breaches cfg <=? b)
                    then set_degraded (en_Stats e) true now (join "," reasons) else en_Stats e in
          mkEntryH st b now
      | [] =>
          let b := if confirmed min slo (en_Stats e) then 0 else breaches e in
          let st := if Degraded (en_Stats e) && (hc_Recover cfg <=? time_sub now (lastBreach e))
                    then set_degraded (en_Stats e) false now "" else en_Stats e in
          mkEntryH st b (lastBreach e)
      end
  end.

Definition slo_of (t : Tracker) (tg : Target) : option SLO := tk_slos t !! Target_String tg.

(** The averages after a sample, before the evaluation. *)
Definition observed (cfg : HealthConfig) (s : Sample) (e : entry) : entry :=
  let a := hc_Alpha cfg in
  mkEntryH (observe_outcome a (sa_Outcome s) (observe_tps a (sa_Tokens s) (sa_Gen s) (observe_ttft a (sa_TTFT s) (en_Stats e))))
    (breaches e) (lastBreach e).

Definition Observe (now : Time) (s : Sample) (t : Tracker) : Tracker :=
  let tg := sa_Target s in
  tracker_put t tg (evaluate (tk_cfg t) (slo_of t tg) now (observed (tk_cfg t) s (tracker_get t tg))).

(** ** Merging a peer's statistics *)

Definition maxCount : Z := 1000000.
Definition gossipAlpha : spec_float := f_lit 1 10.
Definition gossipKeep : spec_float := f_lit 9 10.       (* the constant 1-gossipAlpha *)

Definition bad_float (x : spec_float) : bool := is_nan x || is_inf x.

(** The validation of a peer's statistics. *)
Definition peer_valid (p : Stats) : bool :=
  negb (bad_float (TTFTMs p) || bad_float (TTFTDevMs p) || bad_float (TPS p) || bad_float (ErrRate p)) &&
  negb (fltb (TTFTMs p) f0 || fltb (TTFTDevMs p) f0 || fltb (TPS p) f0 || fltb (ErrRate p) f0 ||
        (TTFTN p <? 0) || (TPSN p <? 0) || (ErrN p <? 0) ||
        (maxCount <? TTFTN p) || (maxCount <? TPSN p) || (maxCount <? ErrN p)).

Definition blend (old x : spec_float) : spec_float := fadd (fmul gossipKeep old) (fmul gossipAlpha x).

Definition merge_ttft (p e : Stats) : Stats :=
  if 0 <? TTFTN p then
    let '(ms, dev, n) :=
      if TTFTN e =? 0 then (TTFTMs p, TTFTDevMs p, TTFTN p)
      else (blend (TTFTMs e) (TTFTMs p), blend (TTFTDevMs e) (TTFTDevMs p), TTFTN e + TTFTN p) in
    mkStats ms dev (TPS e) (ErrRate e) n (TPSN e) (ErrN e) (Degraded e) (Since e) (Reason e)
  else e.

Definition merge_tps (p e : Stats) : Stats :=
  if 0 <? TPSN p then
    let '(v, n) := if TPSN e =? 0 then (TPS p, TPSN p) else (blend (TPS e) (TPS p), TPSN e + TPSN p) in
    mkStats (TTFTMs e) (TTFTDevMs e) v (ErrRate e) (TTFTN e) n (ErrN e) (Degraded e) (Since e) (Reason e)
  else e.

Definition merge_err (p e : Stats) : Stats :=
  if 0 <? ErrN p then
    let rate := if fgtb (ErrRate p) f1 then f1 else ErrRate p in
    let '(v, n) := if ErrN e =? 0 then (rate, ErrN p) else (blend (ErrRate e) rate, ErrN e + ErrN p) in
    mkStats (TTFTMs e) (TTFTDevMs e) (TPS e) v (TTFTN e) (TPSN e) n (Degraded e) (Since e) (Reason e)
  else e.

(** A degraded peer counts as a breach of a healthy entry. *)
Definition merge_degraded (cfg : HealthConfig) (now : Time) (p : Stats) (e : entry) : entry :=
  if Degraded p && negb (Degraded (en_Stats e)) then
    let b := breaches e + 1 in
    if hc_Breaches cfg <=? b then mkEntryH (set_degraded (en_Stats e) true now "peer_degraded") b now
    else mkEntryH (en_Stats e) b (lastBreach e)
  else e.

Definition merged (cfg : HealthConfig) (now : Time) (p : Stats) (e : entry) : entry :=
  merge_degraded cfg now p (mkEntryH (merge_err p (merge_tps p (merge_ttft p (en_Stats e)))) (breaches e) (lastBreach e)).

Definition peer_accepted (t : Tracker) (tg : Target) (p : Stats) : bool :=
  (bool_decide (tk_known t = ∅) || bool_decide (tg ∈ tk_known t)) && peer_valid p.

Definition Merge (now now' : Time) (tg : Target) (peer : Stats) (t : Tracker) : Tracker :=
  if negb (bool_decide (tk_known t = ∅)) && negb (bool_decide (tg ∈ tk_known t)) then t
  else if negb (peer_valid peer) then t
  else tracker_put t tg (evaluate (tk_cfg t) (slo_of t tg) now' (merged (tk_cfg t) now peer (tracker_get t tg))).

(** ** Queries *)

Definition Tracker_Degraded (t : Tracker) (tg : Target) : bool :=
  match tk_m t !! tg with Some e => Degraded (en_Stats e) | None => false end.

(** [Stats] creates the entry it reads. *)
Definition Tracker_Stats (tg : Target) (t : Tracker) : Stats * Tracker :=
  (en_Stats (tracker_get t tg), tracker_put t tg (tracker_get t tg)).

Definition Snapshot (t : Tracker) : gmap string Stats :=
  list_to_map (map (fun ke => (Target_String ke.1, en_Stats ke.2)) (map_to_list (tk_m t))).

(** The targets in the order [order] in which the map is visited. *)
Definition DegradedTargets (t : Tracker) (order : list Target) : list Target :=
  filter (fun tg => Tracker_Degraded t tg = true) order.

Definition HedgeDelay (t : Tracker) (tg : Target) (def : Duration) : Duration :=
  match tk_m t !! tg with
  | None => def
  | Some e =>
      if TTFTN (en_Stats e) <? hc_MinSamples (tk_cfg t) then def
      else
        let d := f_to_int64 (fmul (fadd (TTFTMs (en_Stats e)) (fmul (f_of_Z 2) (TTFTDevMs (en_Stats e)))) (f_of_Z millisecond)) in
        Z.min (Z.max d (50 * millisecond)) (5 * second)
  end.

(** ** Runs *)

Inductive health_op := OpObserve (s : Sample) | OpMerge (tg : Target) (peer : Stats).

(** An operation with the two times its clock shows. *)
Definition health_apply (o : Time * Time * health_op) (t : Tracker) : Tracker :=
  match o.2 with
  | OpObserve s => Observe o.1.2 s t
  | OpMerge tg p => Merge o.1.1 o.1.2 tg p t
  end.

Definition health_run (ops : list (Time * Time * health_op)) (t : Tracker) : Tracker :=
  for_range ops t (fun t o => health_apply o t).

Definition op_target (o : health_op) : Target := match o with OpObserve s => sa_Target s | OpMerge tg _ => tg end.

Lemma health_apply_config o t : tk_cfg (health_apply o t) = tk_cfg t /\ tk_slos (health_apply o t) = tk_slos t /\
  tk_known (health_apply o t) = tk_known t.
Proof.
  destruct o as [[n n'] [s|tg p]]; cbn [health_apply snd fst]; [done|]. unfold Merge.
  destruct (negb _ && _); [done|]. by destruct (negb (peer_valid p)).
Qed.

Lemma health_run_config ops : forall t, tk_cfg (health_run ops t) = tk_cfg t.
Proof.
  unfold health_run, for_range. induction ops as [|o ops IH]; intros t; simpl; [done|]. rewrite IH. apply health_apply_config.
Qed.

Lemma get_put t tg tg' e : tracker_get (tracker_put t tg' e) tg = if decide (tg = tg') then e else tracker_get t tg.
Proof.
  unfold tracker_get, tracker_put. simpl. destruct (decide (tg = tg')) as [->|]; [by rewrite lookup_insert_eq|by rewrite lookup_insert_ne].
Qed.

Lemma Tracker_Degraded_get t tg : Tracker_Degraded t tg = Degraded (en_Stats (tracker_get t tg)).
Proof. unfold Tracker_Degraded, tracker_get. by destruct (tk_m t !! tg). Qed.

Lemma Merge_accepted now now' tg p t :
  Merge now now' tg p t =
    if peer_accepted t tg p
    then tracker_put t tg (evaluate (tk_cfg t) (slo_of t tg) now' (merged (tk_cfg t) now p (tracker_get t tg))) else t.
Proof.
  unfold Merge, peer_accepted.
  by destruct (bool_decide (tk_known t = ∅)), (bool_decide (tg ∈ tk_known t)), (peer_valid p).
Qed.

(** What an operation does to the entry of one target. *)
Lemma health_apply_get o t tg :
  tracker_get (health_apply o t) tg =
  match o.2 with
  | OpObserve s => if decide (tg = sa_Target s)
      then evaluate (tk_cfg t) (slo_of t tg) o.1.2 (observed (tk_cfg t) s (tracker_get t tg)) else tracker_get t tg
  | OpMerge tg' p => if decide (tg = tg' /\ peer_accepted t tg' p = true)
      then evaluate (tk_cfg t) (slo_of t tg) o.1.2 (merged (tk_cfg t) o.1.1 p (tracker_get t tg)) else tracker_get t tg
  end.
Proof.
  destruct o as [[n n'] [s|tg' p]]; unfold health_apply; cbn [fst snd].
  - unfold Observe. rewrite get_put. by case_decide; subst.
  - rewrite Merge_accepted. destruct (peer_accepted t tg' p); [|by rewrite decide_False by naive_solver].
    rewrite get_put. destruct (decide (tg = tg')) as [->|]; [by rewrite decide_True|by rewrite decide_False by tauto].
Qed.

(** *** The averages never touch the state *)

Lemma observed_state cfg s e : Degraded (en_Stats (observed cfg s e)) = Degraded (en_Stats e) /\
  breaches (observed cfg s e) = breaches e /\ lastBreach (observed cfg s e) = lastBreach e.
Proof.
  split; [|done]. unfold observed. cbn [en_Stats].
  assert (forall a d x, Degraded (observe_ttft a d x) = Degraded x) as H1.
  { intros a d x. unfold observe_ttft. destruct (0 <? d); [|done]. by destruct (TTFTN x =? 0). }
  assert (forall a n d x, Degraded (observe_tps a n d x) = Degraded x) as H2.
  { intros a n d x. unfold observe_tps. by destruct (_ && _). }
  assert (forall a o x, Degraded (observe_outcome a o x) = Degraded x) as H3 by (by intros a [] x).
  by rewrite H3, H2, H1.
Qed.

Lemma merge_state p e : Degraded (merge_err p (merge_tps p (merge_ttft p e))) = Degraded e.
Proof.
  unfold merge_err, merge_tps, merge_ttft.
  destruct (0 <? ErrN p), (0 <? TPSN p), (0 <? TTFTN p); simpl; try done.
  all: repeat match goal with |- context [if ?b then (_, _) else (_, _)] => destruct b; simpl end; try done.
  all: repeat match goal with |- context [if ?b then _ else _] => destruct b; simpl end; done.
Qed.

Lemma merged_state cfg now p e :
  let e' := merged cfg now p e in
  (Degraded (en_Stats e') = Degraded (en_Stats e) \/
   Degraded (en_Stats e) = false /\ Degraded p = true /\ Degraded (en_Stats e') = true /\ hc_Breaches cfg <= breaches e') /\
  breaches e' = breaches e + (if Degraded p && negb (Degraded (en_Stats e)) then 1 else 0) /\
  (lastBreach e' = lastBreach e \/ Degraded (en_Stats e) = false).
Proof.
  unfold merged, merge_degraded. simpl. rewrite merge_state.
  destruct (Degraded p) eqn:Ep, (Degraded (en_Stats e)) eqn:Ee; simpl; rewrite ?merge_state, ?Ee; try (split_and!; [by left|lia|by left]).
  destruct (Z.leb_spec (hc_Breaches cfg) (breaches e + 1)); simpl; rewrite ?merge_state, ?Ee.
  - split_and!; [right; by split_and!|lia|by right].
  - split_and!; [by left|lia|by left].
Qed.

(** Whether the evaluation of [e] is a breach. *)
Definition is_breach (cfg : HealthConfig) (slo : option SLO) (e : Stats) : bool :=
  match slo with Some slo => bool_decide (slo_reasons (hc_MinSamples cfg) slo e <> []) | None => false end.

Lemma evaluate_state cfg slo now e :
  let e' := evaluate cfg slo now e in
  breaches e' <= Z.max 0 (breaches e) + Z.b2z (is_breach cfg slo (en_Stats e)) /\
  (Degraded (en_Stats e) = false -> Degraded (en_Stats e') = true ->
     is_breach cfg slo (en_Stats e) = true /\ hc_Breaches cfg <= breaches e + 1 /\ lastBreach e' = now) /\
  (Degraded (en_Stats e) = true -> Degraded (en_Stats e') = false ->
     is_breach cfg slo (en_Stats e) = false /\ hc_Recover cfg <= time_sub now (lastBreach e)) /\
  lastBreach e' = if is_breach cfg slo (en_Stats e) then now else lastBreach e.
Proof.
  unfold evaluate, is_breach. destruct slo as [slo|]; simpl; [|split_and!; try done; try lia; congruence].
  destruct (slo_reasons _ _ _) as [|r rs]; simpl.
  - destruct (confirmed _ _ _), (Degraded (en_Stats e)) eqn:Ed, (Z.leb_spec (hc_Recover cfg) (time_sub now (lastBreach e)));
      simpl; rewrite ?Ed; split_and!; try done; lia.
  - destruct (Degraded (en_Stats e)) eqn:Ed, (Z.leb_spec (hc_Breaches cfg) (breaches e + 1)); simpl; rewrite ?Ed;
      split_and!; try done; lia.
Qed.

(** The strikes an operation adds against a target: a breached evaluation, and a
    degraded peer that is accepted. *)
Definition strikes (t : Tracker) (tg : Target) (o : Time * Time * health_op) : Z :=
  match o.2 with
  | OpObserve s =>
      if decide (tg = sa_Target s)
      then Z.b2z (is_breach (tk_cfg t) (slo_of t tg) (en_Stats (observed (tk_cfg t) s (tracker_get t tg)))) else 0
  | OpMerge tg' p =>
      if decide (tg = tg' /\ peer_accepted t tg' p = true)
      then Z.b2z (is_breach (tk_cfg t) (slo_of t tg) (en_Stats (merged (tk_cfg t) o.1.1 p (tracker_get t tg)))) +
           Z.b2z (Degraded p && negb (Degraded (en_Stats (tracker_get t tg))))
      else 0
  end.

Fixpoint total_strikes (t : Tracker) (tg : Target) (ops : list (Time * Time * health_op)) : Z :=
  match ops with
  | [] => 0
  | o :: ops' => strikes t tg o + total_strikes (health_apply o t) tg ops'
  end.

(** What is known of an entry after [n] strikes. *)
Definition strikes_inv (cfg : HealthConfig) (n : Z) (e : entry) : Prop :=
  0 <= n /\ breaches e <= n /\ (Degraded (en_Stats e) = true -> Z.max 1 (hc_Breaches cfg) <= n).

Lemma evaluate_strikes cfg slo now e n : strikes_inv cfg n e ->
  strikes_inv cfg (n + Z.b2z (is_breach cfg slo (en_Stats e))) (evaluate cfg slo now e).
Proof.
  intros (Hn & Hb & Hd). destruct (evaluate_state cfg slo now e) as (H1 & H2 & H3 & H4).
  set (k := is_breach cfg slo (en_Stats e)) in *. assert (0 <= Z.b2z k) by (destruct k; simpl; lia).
  split_and!; [lia|lia|]. intros Hdeg. destruct (Degraded (en_Stats e)) eqn:E.
  - specialize (Hd eq_refl). lia.
  - destruct (H2 eq_refl Hdeg) as (Hk & Hc & _). rewrite Hk in *. simpl. lia.
Qed.

Lemma merged_strikes cfg now p e n : strikes_inv cfg n e ->
  strikes_inv cfg (n + Z.b2z (Degraded p && negb (Degraded (en_Stats e)))) (merged cfg now p e).
Proof.
  intros (Hn & Hb & Hd). destruct (merged_state cfg now p e) as (H1 & H2 & _).
  set (k := Degraded p && negb (Degraded (en_Stats e))) in *.
  assert (Z.b2z k = if k then 1 else 0) as Ek by (by destruct k).
  split_and!; [destruct k; simpl; lia|lia|]. intros Hdeg. destruct H1 as [H1|(E & Ep & _ & Hc)].
  - rewrite H1 in Hdeg. specialize (Hd Hdeg). destruct k; simpl; lia.
  - assert (k = true) as Hk by (unfold k; by rewrite E, Ep). rewrite Hk in *. simpl. lia.
Qed.

Lemma strikes_step o t tg n : strikes_inv (tk_cfg t) n (tracker_get t tg) ->
  strikes_inv (tk_cfg t) (n + strikes t tg o) (tracker_get (health_apply o t) tg).
Proof.
  intros Hi. rewrite health_apply_get. unfold strikes. destruct o as [[n1 n2] [s|tg' p]]; cbn [fst snd].
  - destruct (decide _); [|by rewrite Z.add_0_r]. apply evaluate_strikes.
    destruct (observed_state (tk_cfg t) s (tracker_get t tg)) as (E1 & E2 & E3). destruct Hi as (Hn & Hb & Hd).
    split_and!; [done|by rewrite E2|by rewrite E1].
  - destruct (decide _); [|by rewrite Z.add_0_r]. rewrite Z.add_assoc.
    rewrite <- (Z.add_assoc n), (Z.add_comm (Z.b2z _) (Z.b2z _)), Z.add_assoc.
    by apply evaluate_strikes, merged_strikes.
Qed.

(** A target is marked degraded only on sufficient evidence: on a fresh
    tracker at least [breaches] strikes, breached evaluations of its own
    objectives or reports of degraded peers that passed validation, are needed;
    operations on other targets and rejected reports never count. *)
Theorem degraded_needs_strikes (cfg : HealthConfig) (slos : gmap string SLO) (targets : list Target) (tg : Target)
  (ops : list (Time * Time * health_op)) :
  let t := SetTargets targets (NewTracker cfg slos) in
  Tracker_Degraded (health_run ops t) tg = true -> Z.max 1 (hc_Breaches cfg) <= total_strikes t tg ops.
Proof.
  intros t. rewrite Tracker_Degraded_get.
  assert (forall ops t n, strikes_inv (tk_cfg t) n (tracker_get t tg) ->
    strikes_inv (tk_cfg t) (n + total_strikes t tg ops) (tracker_get (health_run ops t) tg)) as H.
  { clear. unfold health_run, for_range. induction ops as [|o ops IH]; intros t n Hi; simpl; [by rewrite Z.add_0_r|].
    rewrite Z.add_assoc. pose proof (health_apply_config o t) as (Hc & _). rewrite <- Hc. apply IH. rewrite Hc. by apply strikes_step. }
  specialize (H ops t 0). destruct H as (_ & _ & Hd); [|exact Hd].
  unfold t, tracker_get. simpl. rewrite lookup_empty. by split_and!.
Qed.

(** Hysteresis: a degraded target stays degraded for the whole recovery time
    after its last breach, whatever happens in between. *)
Theorem degraded_lasts (t : Tracker) (tg : Target) (ops : list (Time * Time * health_op))
  (Hdeg : Tracker_Degraded t tg = true) (Hrec : int64_min < hc_Recover (tk_cfg t))
  (Htimes : Forall (fun o => lastBreach (tracker_get t tg) <= o.1.2 < lastBreach (tracker_get t tg) + hc_Recover (tk_cfg t)) ops) :
  Tracker_Degraded (health_run ops t) tg = true.
Proof.
  rewrite Tracker_Degraded_get in *. set (tb := lastBreach (tracker_get t tg)) in *.
  assert (tb <= lastBreach (tracker_get t tg)) as Hlb by done. clearbody tb.
  revert t Hdeg Hrec Htimes Hlb. unfold health_run, for_range. induction ops as [|o ops IH]; intros t Hdeg Hrec Htimes Hlb; simpl; [done|].
  apply Forall_cons in Htimes as [Ho Hops]. pose proof (health_apply_config o t) as (Hc & _).
  assert (forall e, Degraded (en_Stats e) = true -> tb <= lastBreach e ->
    Degraded (en_Stats (evaluate (tk_cfg t) (slo_of t tg) o.1.2 e)) = true /\
    tb <= lastBreach (evaluate (tk_cfg t) (slo_of t tg) o.1.2 e)) as He.
  { intros e Hd Hb. destruct (evaluate_state (tk_cfg t) (slo_of t tg) o.1.2 e) as (_ & _ & H3 & H4).
    split; [|rewrite H4; destruct (is_breach _ _ _); lia].
    destruct (Degraded (en_Stats (evaluate _ _ _ e))) eqn:E; [done|]. destruct (H3 Hd eq_refl) as [_ Hr].
    unfold time_sub in Hr. lia. }
  assert (Degraded (en_Stats (tracker_get (health_apply o t) tg)) = true /\ tb <= lastBreach (tracker_get (health_apply o t) tg)) as [H1 H2].
  { rewrite health_apply_get. destruct o as [[n1 n2] [s|tg' p]]; cbn [fst snd] in *; case_decide; try done; apply He.
    - by rewrite (proj1 (observed_state _ _ _)).
    - by destruct (observed_state (tk_cfg t) s (tracker_get t tg)) as (_ & _ & ->).
    - destruct (merged_state (tk_cfg t) n1 p (tracker_get t tg)) as ([E|(E & _)] & _ & _); [by rewrite E|congruence].
    - destruct (merged_state (tk_cfg t) n1 p (tracker_get t tg)) as (_ & _ & [->|E]); [done|congruence]. }
  apply IH; [done|by rewrite Hc|by rewrite Hc|done].
Qed.

(** A degraded entry without objectives of its own never recovers: it was marked
    by peers, and the evaluation returns before its recovery test. *)
Lemma no_objective_no_recovery (t : Tracker) (tg : Target) (ops : list (Time * Time * health_op)) :
  Tracker_Degraded t tg = true -> slo_of t tg = None -> Tracker_Degraded (health_run ops t) tg = true.
Proof.
  rewrite !Tracker_Degraded_get. revert t. unfold health_run, for_range. induction ops as [|o ops IH]; intros t Hdeg Hslo; simpl; [done|].
  pose proof (health_apply_config o t) as (_ & Hs & _). apply IH; [|unfold slo_of in *; by rewrite Hs].
  rewrite health_apply_get, Hslo. destruct o as [[n1 n2] [s|tg' p]]; cbn [fst snd evaluate] in *; case_decide; try done.
  - by rewrite (proj1 (observed_state _ _ _)).
  - destruct (merged_state (tk_cfg t) n1 p (tracker_get t tg)) as ([E|(E & _)] & _ & _); [by rewrite E|congruence].
Qed.

(** The hedging delay is sane whatever the measurements are, NaN and overflow
    included: the default without enough samples, else between 50 ms and 5 s. *)
Theorem HedgeDelay_bounded (t : Tracker) (tg : Target) (def : Duration) :
  HedgeDelay t tg def = def \/ 50 * millisecond <= HedgeDelay t tg def <= 5 * second.
Proof.
  unfold HedgeDelay. destruct (tk_m t !! tg) as [e|]; [|by left]. destruct (_ <? _); [by left|].
  right. unfold millisecond, second. lia.
Qed.

(** ** Witnesses *)

Definition demo_slo : SLO := mkSLO (f_of_Z 100) f0 f0.
Definition demo_health : HealthConfig := mkHealthConfig (f_lit 5 10) 2 60 1 0 0 "" [] "" "" false.
Definition slow_sample : Sample := mkSample demo_target (500 * millisecond) 0 0 OK.
Definition fast_sample : Sample := mkSample demo_target (1 * millisecond) 0 0 OK.
Definition demo_tracker : Tracker := NewTracker demo_health {[Target_String demo_target := demo_slo]}.
Definition slow_ops : list (Time * Time * health_op) := [((10, 10), OpObserve slow_sample); ((11, 11), OpObserve slow_sample)].
Definition slow_tracker : Tracker := health_run slow_ops demo_tracker.

Lemma degraded_needs_strikes_witness :
  Tracker_Degraded (health_run slow_ops (SetTargets [] demo_tracker)) demo_target = true /\
  Z.max 1 2 <= total_strikes (SetTargets [] demo_tracker) demo_target slow_ops.
Proof.
  split; [vm_compute; reflexivity|].
  apply (degraded_needs_strikes demo_health {[Target_String demo_target := demo_slo]} [] demo_target slow_ops).
  vm_compute. reflexivity.
Defined.

Lemma degraded_lasts_witness :
  Tracker_Degraded (health_run [((12, 12), OpObserve fast_sample); ((60, 70), OpObserve fast_sample)] slow_tracker) demo_target = true.
Proof.
  apply (degraded_lasts slow_tracker demo_target [((12, 12), OpObserve fast_sample); ((60, 70), OpObserve fast_sample)]);
    [vm_compute; reflexivity|vm_compute; reflexivity|].
  repeat constructor; vm_compute; (reflexivity || discriminate).
Defined.

(** Three fast samples later, after the recovery time, the target recovers. *)
Example recovery_ex :
  Tracker_Degraded (health_run [((100, 100), OpObserve fast_sample); ((101, 101), OpObserve fast_sample);
    ((102, 102), OpObserve fast_sample); ((165, 165), OpObserve fast_sample)] slow_tracker) demo_target = false.
Proof. vm_compute. reflexivity. Qed.
