(* ===== verification/Regex.v ===== *)
(** * Regular expressions

    The part of package regexp the program uses: leftmost-first matching on
    bytes (the patterns of the program match ASCII only).  [ends r s] lists the
    states in which a match of [r] started in [s] can end, in the order of
    preference of a backtracking search, which is the one Go documents. *)

From S2P Require Import Prelude GoStrings.

Open Scope string_scope.
Open Scope list_scope.
Open Scope Z_scope.

(** The byte before the position, and the text after it. *)
Abbreviation mstate := (option ascii * string)%type (only parsing).

Inductive re :=
| Eps
| Chr (p : ascii -> bool)
| Cat (r1 r2 : re)
| Or (r1 r2 : re)
| Rep (greedy : bool) (min : nat) (extra : option nat) (r : re)   (* min to min+extra times *)
| WordB.                                                          (* \b *)

(** ** Building patterns *)

Definition is_alpha (c : ascii) : bool := is_lower c || is_upper c.
Definition is_alnum (c : ascii) : bool := is_alpha c || is_digit c.
Definition is_word (c : ascii) : bool := is_alnum c || Ascii.eqb c "_".
Definition one_of_bytes (s : string) (c : ascii) : bool := scontains_byte c s.

(** A literal, and one matched without regard to ASCII case. *)
Fixpoint lit (s : string) : re :=
  match s with EmptyString => Eps | String c s' => Cat (Chr (Ascii.eqb c)) (lit s') end.
Fixpoint ilit (s : string) : re :=
  match s with
  | EmptyString => Eps
  | String c s' => Cat (Chr (fun x => Ascii.eqb (lower_byte c) (lower_byte x))) (ilit s')
  end.

Fixpoint cats (l : list re) : re := match l with [] => Eps | [r] => r | r :: l' => Cat r (cats l') end.
Fixpoint ors (l : list re) : re := match l with [] => Eps | [r] => r | r :: l' => Or r (ors l') end.
Definition star (r : re) : re := Rep true 0 None r.
Definition plus (r : re) : re := Rep true 1 None r.
Definition opt (r : re) : re := Rep true 0 (Some 1%nat) r.
Definition times (n : nat) (r : re) : re := Rep true n (Some O) r.
Definition digit : re := Chr is_digit.
Definition space : re := Chr is_re_space.

(** ** Matching *)

Definition progress (s s' : mstate) : bool := Nat.ltb (String.length s'.2) (String.length s.2).

Fixpoint iter_min (f : mstate -> list mstate) (n : nat) (s : mstate) : list mstate :=
  match n with
  | O => [s]
  | S n' => flat_map (iter_min f n') (f s)
  end.

Fixpoint iter_more (f : mstate -> list mstate) (greedy : bool) (n : nat) (s : mstate) : list mstate :=
  match n with
  | O => [s]
  | S n' =>
      let more := flat_map (iter_more f greedy n') (List.filter (progress s) (f s)) in
      if greedy then more ++ [s] else s :: more
  end.

Definition word_at (o : option ascii) : bool := match o with Some c => is_word c | None => false end.
Definition next_byte (s : string) : option ascii := match s with String c _ => Some c | _ => None end.

Fixpoint ends (r : re) (s : mstate) : list mstate :=
  match r with
  | Eps => [s]
  | Chr p => match s.2 with String c rest => if p c then [(Some c, rest)] else [] | EmptyString => [] end
  | Cat r1 r2 => flat_map (ends r2) (ends r1 s)
  | Or r1 r2 => ends r1 s ++ ends r2 s
  | Rep greedy mn extra r =>
      flat_map (fun s' => iter_more (ends r) greedy
                            (match extra with Some k => k | None => S (String.length s'.2) end) s')
               (iter_min (ends r) mn s)
  | WordB => if xorb (word_at s.1) (word_at (next_byte s.2)) then [s] else []
  end.

(** The length of the preferred match at a position. *)
Definition match_here (r : re) (s : mstate) : option nat :=
  match ends r s with
  | [] => None
  | s' :: _ => Some (String.length s.2 - String.length s'.2)%nat
  end.

(** The last byte of a non-empty text, or the given one. *)
Fixpoint last_byte (prev : option ascii) (s : string) : option ascii :=
  match s with EmptyString => prev | String c s' => last_byte (Some c) s' end.

(** [FindAllStringIndex(text, -1)] for a pattern without empty matches: the
    successive leftmost matches as (start, end). *)
Fixpoint find_from (r : re) (fuel pos : nat) (s : mstate) : list (nat * nat) :=
  match fuel with
  | O => []
  | S fuel' =>
      match match_here r s with
      | Some (S k) =>
          let n := S k in
          (pos, pos + n)%nat :: find_from r fuel' (pos + n) (last_byte s.1 (stake n s.2), sdrop n s.2)
      | _ =>
          match s.2 with
          | EmptyString => []
          | String c rest => find_from r fuel' (S pos) (Some c, rest)
          end
      end
  end.

Definition FindAll (r : re) (text : string) : list (nat * nat) :=
  find_from r (S (String.length text)) 0 (None, text).

(** [MatchString] *)
Fixpoint match_from (r : re) (prev : option ascii) (s : string) : bool :=
  match ends r (prev, s) with
  | _ :: _ => true
  | [] => match s with EmptyString => false | String c s' => match_from r (Some c) s' end
  end.
Definition MatchString (r : re) (text : string) : bool := match_from r None text.

Example findall_ex : FindAll (cats [WordB; times 3 digit; lit "-"; plus digit; WordB]) "x 123-45, 1234-5 678-9" =
  [(2, 8); (17, 22)]%nat.
Proof. vm_compute. reflexivity. Qed.
Example lazy_ex : FindAll (Cat (Rep false 1 None (Chr is_alpha)) (lit "b")) "aabab" = [(0, 3); (3, 5)]%nat.
Proof. vm_compute. reflexivity. Qed.

(** ** What a match consumes *)

(** Every byte class of the pattern is contained in [P]. *)
Fixpoint within (P : ascii -> bool) (r : re) : Prop :=
  match r with
  | Chr p => forall c, p c = true -> P c = true
  | Cat r1 r2 | Or r1 r2 => within P r1 /\ within P r2
  | Rep _ _ _ r => within P r
  | _ => True
  end.

Definition consumed (P : ascii -> bool) (s s' : mstate) : Prop :=
  exists w, s.2 = w +:+ s'.2 /\ sforall P w = true.

Lemma consumed_refl P s : consumed P s s.
Proof. by exists "". Qed.

Lemma consumed_trans P s1 s2 s3 : consumed P s1 s2 -> consumed P s2 s3 -> consumed P s1 s3.
Proof.
  intros (w1 & E1 & H1) (w2 & E2 & H2). exists (w1 +:+ w2). rewrite sapp_assoc, <- E2. split; [done|].
  by rewrite sforall_app, H1, H2.
Qed.

Lemma iter_min_consumed P f n : (forall s s', In s' (f s) -> consumed P s s') ->
  forall s s', In s' (iter_min f n s) -> consumed P s s'.
Proof.
  intros Hf. induction n as [|n IH]; intros s s'; simpl.
  - intros [<-|[]]. apply consumed_refl.
  - rewrite in_flat_map. intros (s1 & H1 & H2). eapply consumed_trans; eauto.
Qed.

Lemma iter_more_consumed P f g n : (forall s s', In s' (f s) -> consumed P s s') ->
  forall s s', In s' (iter_more f g n s) -> consumed P s s'.
Proof.
  intros Hf. induction n as [|n IH]; intros s s'; cbn [iter_more].
  - intros [<-|[]]. apply consumed_refl.
  - assert (In s' (flat_map (iter_more f g n) (List.filter (progress s) (f s))) -> consumed P s s') as Hm.
    { rewrite in_flat_map. intros (s1 & [H1 _]%filter_In & H2). eapply consumed_trans; eauto. }
    destruct g; [rewrite in_app_iff; intros [H|[<-|[]]]|intros [<-|H]]; auto using consumed_refl.
Qed.

Lemma ends_consumed P r : within P r -> forall s s', In s' (ends r s) -> consumed P s s'.
Proof.
  induction r as [|p|r1 IH1 r2 IH2|r1 IH1 r2 IH2|g mn ex r IH|]; cbn [ends within].
  - intros _ s s' [<-|[]]. apply consumed_refl.
  - intros Hp [o [|c rest]] s'; simpl; [done|]. destruct (p c) eqn:E; [|done].
    intros [<-|[]]. exists (String c ""). simpl. by rewrite Hp.
  - intros [W1 W2] s s'. rewrite in_flat_map. intros (s1 & H1 & H2). eapply consumed_trans; eauto.
  - intros [W1 W2] s s'. rewrite in_app_iff. intros [H|H]; eauto.
  - intros W s s'. rewrite in_flat_map. intros (s1 & H1 & H2).
    eapply consumed_trans; [eapply iter_min_consumed|eapply iter_more_consumed]; eauto.
  - intros _ s s'. case_match; [|done]. intros [<-|[]]. apply consumed_refl.
Qed.

Definition chunk (text : string) (ab : nat * nat) : string := slice ab.1 ab.2 text.

(** The matches are in order, disjoint, inside the text, not empty, and contain
    only bytes of the pattern. *)
Inductive located (P : ascii -> bool) (text : string) : nat -> list (nat * nat) -> Prop :=
| located_nil from : located P text from []
| located_cons from a b l :
    (from <= a < b)%nat -> (b <= String.length text)%nat -> sforall P (chunk text (a, b)) = true ->
    located P text b l -> located P text from ((a, b) :: l).

Lemma located_weaken P text from from' l : (from' <= from)%nat -> located P text from l -> located P text from' l.
Proof. intros H Hl. destruct Hl; constructor; auto; lia. Qed.

Lemma find_from_located P r text : within P r -> forall fuel pos s,
  s.2 = sdrop pos text -> (pos <= String.length text)%nat -> located P text pos (find_from r fuel pos s).
Proof.
  intros W. induction fuel as [|fuel IH]; intros pos s Hs Hp; cbn [find_from]; [constructor|].
  assert (located P text pos match s.2 with
    | "" => [] | String c rest => find_from r fuel (S pos) (Some c, rest) end) as Hskip.
  { destruct s.2 as [|c rest] eqn:E; [constructor|].
    assert (String.length (sdrop pos text) = S (String.length rest)) as Hl by by rewrite <- Hs.
    rewrite slength_sdrop in Hl.
    apply (located_weaken _ _ (S pos)); [lia|]. apply IH; [|lia]. cbn [snd].
    replace (S pos) with (pos + 1)%nat by lia. rewrite <- sdrop_sdrop, <- Hs. done. }
  unfold match_here. destruct (ends r s) as [|s' l] eqn:Ee; [exact Hskip|].
  destruct (String.length s.2 - String.length s'.2)%nat as [|k] eqn:Ek; [exact Hskip|].
  destruct (ends_consumed P r W s s') as (w & Hw & HP); [rewrite Ee; by left|].
  assert (String.length w = S k) as Hlw.
  { rewrite Hw, slength_app in Ek. lia. }
  assert (S k <= String.length text - pos)%nat.
  { rewrite <- slength_sdrop, <- Hs, Hw, slength_app. lia. }
  constructor; [lia|lia| |].
  - unfold chunk, slice. cbn [fst snd]. replace (pos + S k - pos)%nat with (String.length w) by lia.
    rewrite <- Hs, Hw, stake_app_length. done.
  - apply IH; [|lia]. cbn [snd]. by rewrite Hs, sdrop_sdrop.
Qed.

Lemma FindAll_located P r text : within P r -> located P text 0 (FindAll r text).
Proof. intros W. apply find_from_located; [done|done|lia]. Qed.

(** Deciding [within] by running through the bytes. *)
Definition all_bytes : list ascii := map ascii_of_nat (seq 0 256).

Lemma in_all_bytes c : In c all_bytes.
Proof.
  unfold all_bytes. apply in_map_iff. exists (nat_of_ascii c). split; [apply ascii_nat_embedding|].
  apply in_seq. pose proof (nat_ascii_bounded c). lia.
Qed.

Fixpoint withinb (P : ascii -> bool) (r : re) : bool :=
  match r with
  | Chr p => forallb (fun c => implb (p c) (P c)) all_bytes
  | Cat r1 r2 | Or r1 r2 => withinb P r1 && withinb P r2
  | Rep _ _ _ r => withinb P r
  | _ => true
  end.

Lemma withinb_within P r : withinb P r = true -> within P r.
Proof.
  induction r as [|p|r1 IH1 r2 IH2|r1 IH1 r2 IH2|g mn ex r IH|]; cbn [within withinb]; try done.
  - rewrite forallb_forall. intros H c Hc. specialize (H c (in_all_bytes c)). by rewrite Hc in H.
  - rewrite andb_true_iff. intros []; auto.
  - rewrite andb_true_iff. intros []; auto.
Qed.
