(* ===== verification/Lru.v ===== *)
(** * The bounded cache of the authentication layer (src/internal/auth/lru.go)

    The index map and the eviction list share their items; an element of the list
    is the key under which the map holds the item.  The clock is an argument of
    the two operations that read it. *)

From S2P Require Import Prelude GoStrings.

Open Scope string_scope.
Open Scope list_scope.
Open Scope Z_scope.

Section Lru.
Context {V : Type}.

Record lruItem := mkItem { li_key : string; li_val : V; li_expires : Time }.

Record LRUCache := mkLRU {
  lc_capacity : Z;
  lc_ttl : Duration;
  lc_items : gmap string lruItem;
  lc_evictList : list string          (* the front is the most recently used *)
}.

Definition NewLRU (capacity : Z) (ttl : Duration) : LRUCache :=
  mkLRU (if capacity <=? 0 then 1000 else capacity) ttl ∅ [].

Definition with_lists (c : LRUCache) (m : gmap string lruItem) (l : list string) : LRUCache :=
  mkLRU (lc_capacity c) (lc_ttl c) m l.

(** [list.MoveToFront] and [list.Remove] of the element that holds [key]. *)
Definition move_to_front (key : string) (l : list string) : list string := key :: filter (fun k => k <> key) l.
Definition list_remove (key : string) (l : list string) : list string := filter (fun k => k <> key) l.

Definition evictElement (c : LRUCache) (key : string) : LRUCache :=
  with_lists c (delete key (lc_items c)) (list_remove key (lc_evictList c)).

Definition evictOldest (c : LRUCache) : LRUCache :=
  match last (lc_evictList c) with Some key => evictElement c key | None => c end.

Definition LRU_Get (now : Time) (key : string) (c : LRUCache) : option V * LRUCache :=
  match lc_items c !! key with
  | None => (None, c)
  | Some item =>
      if (0 <? lc_ttl c) && (li_expires item <? now) then (None, evictElement c key)
      else (Some (li_val item), with_lists c (lc_items c) (move_to_front key (lc_evictList c)))
  end.

(** The eviction loop; every round shortens the list, so that its length is fuel
    enough. *)
Fixpoint evict_loop (fuel : nat) (c : LRUCache) : LRUCache :=
  match fuel with
  | O => c
  | S fuel => if lc_capacity c <=? Z.of_nat (length (lc_evictList c)) then evict_loop fuel (evictOldest c) else c
  end.

Definition LRU_Set (now : Time) (key : string) (val : V) (c : LRUCache) : LRUCache :=
  let expires := if 0 <? lc_ttl c then now + lc_ttl c else 0 in
  match lc_items c !! key with
  | Some item => with_lists c (<[key := mkItem (li_key item) val expires]> (lc_items c)) (move_to_front key (lc_evictList c))
  | None =>
      let c := evict_loop (length (lc_evictList c)) c in
      with_lists c (<[key := mkItem key val expires]> (lc_items c)) (key :: lc_evictList c)
  end.

Definition LRU_Len (c : LRUCache) : Z := Z.of_nat (length (lc_evictList c)).

Definition LRU_Remove (key : string) (c : LRUCache) : LRUCache :=
  match lc_items c !! key with Some _ => evictElement c key | None => c end.

(** [RemoveWhere]: the range over the map with deletions of the current key, in
    the order [order] in which the map is visited. *)
Definition remove_step (predicate : string -> V -> bool) (st : LRUCache * Z) (key : string) : LRUCache * Z :=
  match lc_items st.1 !! key with
  | Some item => if predicate key (li_val item) then (evictElement st.1 key, st.2 + 1) else st
  | None => st
  end.

Definition LRU_RemoveWhere (predicate : string -> V -> bool) (order : list string) (c : LRUCache) : LRUCache * Z :=
  for_range order (c, 0) (remove_step predicate).

Definition LRU_Purge (c : LRUCache) : LRUCache := with_lists c ∅ [].

(** ** Invariant: the map and the list hold the same keys, within capacity *)

Definition lru_wf (c : LRUCache) : Prop :=
  1 <= lc_capacity c /\ NoDup (lc_evictList c) /\
  (forall k, k ∈ lc_evictList c <-> is_Some (lc_items c !! k)) /\
  (forall k i, lc_items c !! k = Some i -> li_key i = k) /\
  Z.of_nat (length (lc_evictList c)) <= lc_capacity c.

(** The invariant as a test, for concrete caches. *)
Definition lru_wfb (c : LRUCache) : bool :=
  (1 <=? lc_capacity c) && bool_decide (NoDup (lc_evictList c)) &&
  bool_decide (dom (lc_items c) = (list_to_set (lc_evictList c) : gset string)) &&
  forallb (fun ki => String.eqb (li_key ki.2) ki.1) (map_to_list (lc_items c)) &&
  (Z.of_nat (length (lc_evictList c)) <=? lc_capacity c).

Lemma lru_wfb_sound c : lru_wfb c = true -> lru_wf c.
Proof.
  unfold lru_wfb, lru_wf. rewrite !andb_true_iff, !bool_decide_eq_true, forallb_forall, !Z.leb_le.
  intros [[[[H1 H2] H3] H4] H5]. split; [done|]. split; [done|]. split; [|split; [|done]].
  - intros k. rewrite <- (elem_of_dom (D := gset string)), H3, elem_of_list_to_set. done.
  - intros k i Hk. apply String.eqb_eq. apply (H4 (k, i)). apply list_elem_of_In. by apply elem_of_map_to_list.
Qed.

Lemma NewLRU_wf capacity ttl : lru_wf (NewLRU capacity ttl).
Proof.
  unfold NewLRU, lru_wf. simpl. split_and!; [destruct (Z.leb_spec capacity 0); lia|constructor| |done|destruct (Z.leb_spec capacity 0); lia].
  intros k. rewrite lookup_empty. split; [intros []%not_elem_of_nil|intros [? [=]]].
Qed.

Lemma list_remove_NoDup k l : NoDup l -> NoDup (list_remove k l).
Proof. apply NoDup_filter. Qed.

Lemma elem_list_remove k k' l : k' ∈ list_remove k l <-> k' <> k /\ k' ∈ l.
Proof. unfold list_remove. by rewrite list_elem_of_filter. Qed.

Lemma length_list_remove k l : NoDup l -> k ∈ l -> S (length (list_remove k l)) = length l.
Proof.
  induction 1 as [|x l Hx Hl IH]; intros Hk; [by apply not_elem_of_nil in Hk|].
  unfold list_remove in *. rewrite filter_cons. apply elem_of_cons in Hk as [->|Hk].
  - rewrite decide_False by tauto. simpl. f_equal.
    clear IH Hl. induction l as [|y l IH]; [done|]. rewrite filter_cons.
    apply not_elem_of_cons in Hx as [Hne Hx]. rewrite decide_True by congruence. simpl. by rewrite IH.
  - rewrite decide_True by (intros ->; done). simpl. by rewrite IH.
Qed.

Lemma length_list_remove_le k l : (length (list_remove k l) <= length l)%nat.
Proof. apply length_filter. Qed.

Lemma evictElement_wf c k : lru_wf c -> lru_wf (evictElement c k).
Proof.
  intros (Hc & Hd & Hk & Hi & Hl). unfold evictElement, lru_wf; simpl. split_and!; [done|by apply list_remove_NoDup| | |].
  - intros k'. rewrite elem_list_remove, Hk. destruct (decide (k' = k)) as [->|].
    + rewrite lookup_delete_eq. split; [naive_solver|intros [? [=]]].
    + rewrite lookup_delete_ne by done. naive_solver.
  - intros k' i. rewrite lookup_delete_Some. naive_solver.
  - pose proof (length_list_remove_le k (lc_evictList c)). lia.
Qed.

Lemma move_to_front_wf c m k : lru_wf c -> k ∈ lc_evictList c ->
  dom m = dom (lc_items c) -> (forall k i, m !! k = Some i -> li_key i = k) ->
  lru_wf (with_lists c m (move_to_front k (lc_evictList c))).
Proof.
  intros (Hc & Hd & Hk & Hi & Hl) Hin Hdom Hm. unfold with_lists, move_to_front, lru_wf; simpl.
  fold (list_remove k (lc_evictList c)). split_and!; [done| | |done|].
  - constructor; [|by apply list_remove_NoDup]. rewrite elem_list_remove. tauto.
  - intros k'. rewrite elem_of_cons, elem_list_remove.
    rewrite <- (elem_of_dom (D := gset string)), Hdom, elem_of_dom, <- Hk.
    destruct (decide (k' = k)) as [->|]; naive_solver.
  - pose proof (length_list_remove k _ Hd Hin). lia.
Qed.

Lemma evictOldest_spec c : lru_wf c -> lc_evictList c <> [] ->
  exists k, lru_wf (evictOldest c) /\ evictOldest c = evictElement c k /\ last (lc_evictList c) = Some k /\
  S (length (lc_evictList (evictOldest c))) = length (lc_evictList c).
Proof.
  intros Hwf Hne. unfold evictOldest. destruct (last (lc_evictList c)) as [k|] eqn:E.
  - exists k. split; [by apply evictElement_wf|]. split_and!; [done..|]. simpl. apply length_list_remove; [apply Hwf|].
    by apply last_Some_elem_of.
  - by apply last_None in E.
Qed.

Lemma evict_loop_wf fuel c : lru_wf c -> (length (lc_evictList c) <= fuel)%nat ->
  let c' := evict_loop fuel c in
  lru_wf c' /\ Z.of_nat (length (lc_evictList c')) < lc_capacity c' /\
  lc_capacity c' = lc_capacity c /\ lc_ttl c' = lc_ttl c /\ lc_items c' ⊆ lc_items c.
Proof.
  revert c. induction fuel as [|fuel IH]; intros c Hwf Hf; simpl.
  - destruct Hwf as (Hc & Hrest). split_and!; try done. lia.
  - destruct (Z.leb_spec (lc_capacity c) (Z.of_nat (length (lc_evictList c)))) as [Hle|Hlt]; [|split_and!; done || lia].
    assert (lc_evictList c <> []) as Hne by (destruct Hwf as (Hc & _); destruct (lc_evictList c); simpl in *; [lia|done]).
    destruct (evictOldest_spec c Hwf Hne) as (k & Hwf' & He & _ & Hlen).
    destruct (IH (evictOldest c) Hwf' ltac:(lia)) as (H1 & H2 & H3 & H4 & H5).
    split_and!; [done..|by rewrite H3, He|by rewrite H4, He|]. etrans; [done|]. rewrite He. simpl. apply delete_subseteq.
Qed.

(** ** Operations and their abstract effect *)

Inductive lru_op :=
| OpGet (k : string) | OpSet (k : string) (v : V) | OpRemove (k : string)
| OpRemoveWhere (p : string -> V -> bool) (order : list string) | OpPurge.

Definition lru_apply (now : Time) (o : lru_op) (c : LRUCache) : LRUCache :=
  match o with
  | OpGet k => (LRU_Get now k c).2
  | OpSet k v => LRU_Set now k v c
  | OpRemove k => LRU_Remove k c
  | OpRemoveWhere p order => (LRU_RemoveWhere p order c).1
  | OpPurge => LRU_Purge c
  end.

Definition lru_run (ops : list (Time * lru_op)) (c : LRUCache) : LRUCache :=
  for_range ops c (fun c o => lru_apply o.1 o.2 c).

(** The specification: what was last stored under each key, and when. *)
Definition spec_apply (now : Time) (o : lru_op) (m : gmap string (V * Time)) : gmap string (V * Time) :=
  match o with
  | OpGet _ => m
  | OpSet k v => <[k := (v, now)]> m
  | OpRemove k => delete k m
  | OpRemoveWhere p order => for_range order m (fun m k =>
      match m !! k with Some (v, _) => if p k v then delete k m else m | None => m end)
  | OpPurge => ∅
  end.

Definition spec_run (ops : list (Time * lru_op)) (m : gmap string (V * Time)) : gmap string (V * Time) :=
  for_range ops m (fun m o => spec_apply o.1 o.2 m).

Definition expiry (ttl : Duration) (t : Time) : Time := if 0 <? ttl then t + ttl else 0.

(** The cache holds a part of the specification's map. *)
Definition lru_refines (c : LRUCache) (m : gmap string (V * Time)) : Prop :=
  lru_wf c /\ forall k i, lc_items c !! k = Some i ->
    exists t, m !! k = Some (li_val i, t) /\ li_expires i = expiry (lc_ttl c) t.

Lemma evict_refines c m k : lru_refines c m -> lru_refines (evictElement c k) m.
Proof.
  intros [Hwf Hm]. split; [by apply evictElement_wf|]. intros k' i. simpl. rewrite lookup_delete_Some. naive_solver.
Qed.

Lemma evict_refines_delete c m k : lru_refines c m -> lru_refines (evictElement c k) (delete k m).
Proof.
  intros [Hwf Hm]. split; [by apply evictElement_wf|]. intros k' i. simpl. rewrite lookup_delete_Some.
  intros [Hne Hk]. rewrite lookup_delete_ne by done. auto.
Qed.

Lemma get_refines c m now k : lru_refines c m -> lru_refines (LRU_Get now k c).2 m.
Proof.
  intros [Hwf Hm]. unfold LRU_Get. destruct (lc_items c !! k) as [i|] eqn:E; [|done].
  destruct (_ && _); [by apply evict_refines|]. split; [|done].
  apply move_to_front_wf; [done| |done|apply Hwf]. by apply Hwf; eauto.
Qed.

Lemma insert_wf c k i : lru_wf c -> Z.of_nat (length (lc_evictList c)) < lc_capacity c -> lc_items c !! k = None ->
  li_key i = k -> lru_wf (with_lists c (<[k := i]> (lc_items c)) (k :: lc_evictList c)).
Proof.
  intros (Hc & Hd & Hk & Hi & Hl) Hlen Hnone Hkey. unfold lru_wf; simpl. split_and!; [done| | | |lia].
  - constructor; [|done]. rewrite Hk, Hnone. by intros [? [=]].
  - intros k'. rewrite elem_of_cons, Hk. destruct (decide (k' = k)) as [->|].
    + rewrite lookup_insert_eq. naive_solver.
    + rewrite lookup_insert_ne by done. naive_solver.
  - intros k' i'. rewrite lookup_insert_Some. naive_solver.
Qed.

Lemma update_wf c k i i' : lru_wf c -> lc_items c !! k = Some i -> li_key i' = li_key i ->
  dom (<[k := i']> (lc_items c)) = dom (lc_items c) /\
  forall k0 i0, <[k := i']> (lc_items c) !! k0 = Some i0 -> li_key i0 = k0.
Proof.
  intros Hwf Hk Hi. split.
  - rewrite dom_insert_L. apply (elem_of_dom_2 (D := gset string)) in Hk. set_solver.
  - intros k0 i0. rewrite lookup_insert_Some. intros [[<- <-]|[Hne H0]]; [|by apply Hwf]. rewrite Hi. by apply Hwf in Hk.
Qed.

Lemma evict_loop_none c k : lru_wf c -> lc_items c !! k = None ->
  lc_items (evict_loop (length (lc_evictList c)) c) !! k = None.
Proof.
  intros Hwf E. destruct (evict_loop_wf _ c Hwf (Nat.le_refl _)) as (_ & _ & _ & _ & Hsub).
  destruct (lc_items (evict_loop _ c) !! k) eqn:Ek; [|done]. eapply lookup_weaken in Hsub; [|done]. congruence.
Qed.

Lemma set_wf c now k v : lru_wf c -> lru_wf (LRU_Set now k v c).
Proof.
  intros Hwf. unfold LRU_Set. destruct (lc_items c !! k) as [i|] eqn:E.
  - apply move_to_front_wf; [done|by apply Hwf; eauto|eapply update_wf; eauto..].
  - pose proof (evict_loop_none c k Hwf E). destruct (evict_loop_wf _ c Hwf (Nat.le_refl _)) as (Hwf' & Hlen & _).
    by apply insert_wf.
Qed.

Lemma set_lookup now k v c : lru_wf c -> forall k' i, lc_items (LRU_Set now k v c) !! k' = Some i ->
  (k' = k /\ li_val i = v /\ li_expires i = expiry (lc_ttl c) now) \/ lc_items c !! k' = Some i.
Proof.
  intros Hwf k' i. unfold LRU_Set. fold (expiry (lc_ttl c) now).
  destruct (evict_loop_wf _ c Hwf (Nat.le_refl _)) as (_ & _ & _ & _ & Hsub).
  destruct (lc_items c !! k) as [i0|] eqn:E; simpl; rewrite lookup_insert_Some.
  - intros [[<- <-]|[Hne Hk]]; [by left|by right].
  - intros [[<- <-]|[Hne Hk]]; [by left|right]. by eapply lookup_weaken.
Qed.

Lemma set_refines c m now k v : lru_refines c m -> lru_refines (LRU_Set now k v c) (<[k := (v, now)]> m).
Proof.
  intros [Hwf Hm]. split; [by apply set_wf|]. unfold LRU_Set. fold (expiry (lc_ttl c) now).
  assert (forall c', lc_items c' ⊆ lc_items c -> lc_ttl c' = lc_ttl c -> forall i, li_val i = v ->
    li_expires i = expiry (lc_ttl c) now -> forall k' i', <[k := i]> (lc_items c') !! k' = Some i' ->
    exists t, <[k := (v, now)]> m !! k' = Some (li_val i', t) /\ li_expires i' = expiry (lc_ttl c') t) as H.
  { intros c' Hsub Httl i <- He k' i'. rewrite Httl, lookup_insert_Some. intros [[<- <-]|[Hne Hx]].
    - exists now. by rewrite lookup_insert_eq.
    - rewrite lookup_insert_ne by done. apply Hm. by eapply lookup_weaken. }
  destruct (lc_items c !! k) as [i|] eqn:E; [by apply (H c)|].
  destruct (evict_loop_wf _ c Hwf (Nat.le_refl _)) as (_ & _ & _ & Httl & Hsub).
  rewrite <- Httl in *. by apply (H (evict_loop _ c)).
Qed.

Lemma remove_refines c m k : lru_refines c m -> lru_refines (LRU_Remove k c) (delete k m).
Proof.
  intros [Hwf Hm]. unfold LRU_Remove. destruct (lc_items c !! k) as [i|] eqn:E; [by apply evict_refines_delete|].
  split; [done|]. intros k' i' Hk. destruct (decide (k' = k)) as [->|]; [congruence|]. rewrite lookup_delete_ne by done. auto.
Qed.

Lemma remove_where_refines p order : forall c n m, lru_refines c m ->
  lru_refines (for_range order (c, n) (remove_step p)).1
    (for_range order m (fun m k => match m !! k with Some (v, _) => if p k v then delete k m else m | None => m end)).
Proof.
  unfold for_range. induction order as [|k order IH]; intros c n m H; [done|]. simpl.
  unfold remove_step at 2. simpl. destruct H as [Hwf Hm] eqn:EH. destruct (lc_items c !! k) as [i|] eqn:E.
  - destruct (Hm k i E) as (t & Ht & Hx). rewrite Ht. destruct (p k (li_val i)); apply IH; [|done].
    by apply evict_refines_delete.
  - apply IH. destruct (m !! k) as [[v t]|]; [|done]. destruct (p k v); [|done].
    split; [done|]. intros k' i' Hk. destruct (decide (k' = k)) as [->|]; [congruence|]. rewrite lookup_delete_ne by done. auto.
Qed.

Lemma purge_refines c m : lru_refines c m -> lru_refines (LRU_Purge c) ∅.
Proof.
  intros [(Hc & _) _]. split; [|intros k i; simpl; by rewrite lookup_empty].
  unfold lru_wf; simpl. split_and!; [done|constructor| |done|lia].
  intros k. rewrite lookup_empty. split; [intros []%not_elem_of_nil|intros [? [=]]].
Qed.

Lemma apply_refines now o c m : lru_refines c m -> lru_refines (lru_apply now o c) (spec_apply now o m).
Proof.
  intros H. destruct o; simpl; eauto using get_refines, set_refines, remove_refines, purge_refines.
  by apply remove_where_refines.
Qed.

Lemma run_refines ops : forall c m, lru_refines c m -> lru_refines (lru_run ops c) (spec_run ops m).
Proof.
  unfold lru_run, spec_run, for_range. induction ops as [|o ops IH]; intros c m H; simpl; [done|].
  apply IH. by apply apply_refines.
Qed.

(** Predicate removal leaves no visited key that satisfies the predicate, and
    touches no other key. *)
Lemma remove_where_lookup p order : forall c n k, NoDup order ->
  lc_items (for_range order (c, n) (remove_step p)).1 !! k =
    match lc_items c !! k with
    | Some i => if bool_decide (k ∈ order) && p k (li_val i) then None else Some i
    | None => None
    end.
Proof.
  unfold for_range. induction order as [|k0 order IH]; intros c n k Hd; cbn [fold_left fst].
  { rewrite bool_decide_eq_false_2 by apply not_elem_of_nil. by destruct (lc_items c !! k). }
  apply NoDup_cons in Hd as [Hk0 Hd]. unfold remove_step at 2. cbn [fst snd].
  destruct (lc_items c !! k0) as [i0|] eqn:E0; [destruct (p k0 (li_val i0)) eqn:Ep|]; rewrite IH by done; cbn [evictElement with_lists lc_items].
  - destruct (decide (k = k0)) as [->|Hne].
    + rewrite lookup_delete_eq, E0, bool_decide_eq_true_2, Ep by (apply elem_of_cons; by left). done.
    + rewrite lookup_delete_ne by done. destruct (lc_items c !! k); [|done].
      rewrite (bool_decide_ext (k ∈ k0 :: order) (k ∈ order)); [done|]. rewrite elem_of_cons. naive_solver.
  - destruct (decide (k = k0)) as [->|Hne].
    + rewrite E0. rewrite Ep, !andb_false_r. done.
    + destruct (lc_items c !! k); [|done].
      rewrite (bool_decide_ext (k ∈ k0 :: order) (k ∈ order)); [done|]. rewrite elem_of_cons. naive_solver.
  - destruct (decide (k = k0)) as [->|Hne]; [by rewrite E0|].
    destruct (lc_items c !! k); [|done].
    rewrite (bool_decide_ext (k ∈ k0 :: order) (k ∈ order)); [done|]. rewrite elem_of_cons. naive_solver.
Qed.

(** ** Retention *)

(** [key] is kept, and only keys of [S] were used since. *)
Definition kept (S : gset string) (key : string) (v : V) (e : Time) (c : LRUCache) : Prop :=
  lru_wf c /\ Z.of_nat (size S) < lc_capacity c /\
  exists pre post, lc_evictList c = pre ++ key :: post /\ Forall (fun k => k ∈ S) pre /\
    exists i, lc_items c !! key = Some i /\ li_val i = v /\ li_expires i = e.

Lemma NoDup_in_set (l : list string) (S : gset string) : NoDup l -> Forall (fun k => k ∈ S) l -> (length l <= size S)%nat.
Proof.
  intros Hd HF. replace (length l) with (size (list_to_set l : gset string)).
  - apply subseteq_size. intros x. rewrite elem_of_list_to_set. by rewrite Forall_forall in HF; apply HF.
  - clear HF. induction Hd as [|x l Hx Hd IH]; [done|]. simpl. rewrite size_union by set_solver.
    rewrite size_singleton, IH. done.
Qed.

(** The keys an operation uses. *)
Definition uses (S : gset string) (o : lru_op) : Prop :=
  match o with OpGet k | OpSet k _ | OpRemove k => k ∈ S | _ => False end.

Lemma kept_remove S key v e c k : kept S key v e c -> k ∈ S -> key ∉ S -> kept S key v e (evictElement c k).
Proof.
  intros (Hwf & Hs & pre & post & El & Hpre & i & Hi & Hv & He) Hk Hkey.
  split; [by apply evictElement_wf|]. split; [done|]. simpl. rewrite El. unfold list_remove.
  rewrite filter_app, filter_cons, decide_True by (intros ->; done).
  eexists _, _. split; [done|]. split.
  - apply Forall_forall. intros x Hx. apply list_elem_of_filter in Hx as [_ Hx]. rewrite Forall_forall in Hpre. auto.
  - exists i. rewrite lookup_delete_ne by (intros ->; done). done.
Qed.

Lemma kept_front S key v e c k : kept S key v e c -> k ∈ S -> key ∉ S -> is_Some (lc_items c !! k) ->
  forall m, dom m = dom (lc_items c) -> (forall k i, m !! k = Some i -> li_key i = k) -> m !! key = lc_items c !! key ->
  kept S key v e (with_lists c m (move_to_front k (lc_evictList c))).
Proof.
  intros (Hwf & Hs & pre & post & El & Hpre & i & Hi & Hv & He) Hk Hkey Hin m Hdom Hm Hmk.
  split; [apply move_to_front_wf; [done|by apply Hwf|done..]|]. split; [done|]. simpl. rewrite El. unfold move_to_front.
  rewrite filter_app, filter_cons, decide_True by (intros ->; done).
  exists (k :: filter (fun x => x <> k) pre), (filter (fun x => x <> k) post). split; [done|]. split.
  - constructor; [done|]. apply Forall_forall. intros x Hx. apply list_elem_of_filter in Hx as [_ Hx].
    rewrite Forall_forall in Hpre. auto.
  - exists i. by rewrite Hmk.
Qed.

(** The eviction loop that makes room for a new key of [S] spares [key]. *)
Lemma kept_evict_loop fuel : forall S key v e c k, kept S key v e c -> k ∈ S -> key ∉ S -> lc_items c !! k = None ->
  kept S key v e (evict_loop fuel c).
Proof.
  induction fuel as [|fuel IH]; intros S key v e c k H Hk Hkey Hnone; [done|]. simpl.
  destruct (Z.leb_spec (lc_capacity c) (Z.of_nat (length (lc_evictList c)))) as [Hle|]; [|done].
  destruct H as (Hwf & Hs & pre & post & El & Hpre & i & Hi & Hv & He).
  assert (lc_evictList c <> []) as Hne by (rewrite El; by destruct pre).
  destruct (evictOldest_spec c Hwf Hne) as (k' & Hwf' & Eo & Hlast & _). rewrite Eo in *.
  apply (IH S key v e _ k); [|done|done|by simpl; rewrite lookup_delete_None; right].
  assert (NoDup (pre ++ key :: post)) as Hd by (rewrite <- El; apply Hwf).
  assert (post <> []) as Hpost.
  { intros ->. apply NoDup_app in Hd as (Hd & _ & _).
    assert (length (k :: pre) <= size S)%nat as Hlen.
    { apply NoDup_in_set; [|by constructor]. constructor; [|done]. intros Hin.
      assert (k ∈ lc_evictList c) as Hx by (rewrite El; set_solver). apply Hwf in Hx. rewrite Hnone in Hx. by destruct Hx. }
    rewrite El, length_app in Hle. simpl in *. lia. }
  destruct (exists_last Hpost) as (post' & x & ->).
  assert (k' = x) as ->.
  { rewrite El in Hlast. replace (pre ++ key :: post' ++ [x]) with ((pre ++ key :: post') ++ [x]) in Hlast
      by by rewrite <- app_assoc. rewrite last_snoc in Hlast. congruence. }
  assert (x <> key /\ x ∉ pre) as [Hxk Hxp].
  { apply NoDup_app in Hd as (_ & Hd1 & Hd2). apply NoDup_cons in Hd2 as [Hd2 _]. split; [set_solver|].
    intros Hx. apply (Hd1 x Hx). set_solver. }
  split; [done|]. split; [done|]. simpl. rewrite El. unfold list_remove.
  rewrite filter_app, filter_cons, decide_True by done.
  exists pre, (filter (fun k => k <> x) (post' ++ [x])). split; [|split; [done|]].
  - f_equal. rewrite <- (app_nil_r pre) at 2. clear - Hxp. induction pre as [|y pre IH]; [done|].
    apply not_elem_of_cons in Hxp as [Hy Hxp]. rewrite filter_cons, decide_True by done. simpl. by rewrite IH.
  - exists i. by rewrite lookup_delete_ne.
Qed.

Lemma kept_apply S key v e now o c : kept S key v e c -> uses S o -> key ∉ S -> kept S key v e (lru_apply now o c).
Proof.
  intros H Hu Hkey. destruct o as [k|k v'|k|p order|]; simpl in *; try done.
  - unfold LRU_Get. destruct (lc_items c !! k) as [i|] eqn:E; [|done].
    destruct (_ && _); [by apply kept_remove|]. apply kept_front; eauto. apply H.
  - unfold LRU_Set. destruct (lc_items c !! k) as [i|] eqn:E.
    + destruct (update_wf c k i (mkItem (li_key i) v' (if 0 <? lc_ttl c then now + lc_ttl c else 0)) (proj1 H) E eq_refl).
      apply kept_front; eauto. rewrite lookup_insert_ne; [done|by intros ->].
    + pose proof (set_wf c now k v' (proj1 H)) as Hwf. unfold LRU_Set in Hwf. rewrite E in Hwf.
      destruct (kept_evict_loop (length (lc_evictList c)) S key v e c k H Hu Hkey E)
        as (_ & Hs & pre & post & El & Hpre & i & Hi & Hv & He).
      split; [done|]. split; [done|]. exists (k :: pre), post. simpl. rewrite El. split; [done|]. split; [by constructor|].
      exists i. rewrite lookup_insert_ne; [done|by intros ->].
  - unfold LRU_Remove. destruct (lc_items c !! k); [|done]. by apply kept_remove.
Qed.

Lemma kept_run ops : forall S key v e c, kept S key v e c -> Forall (fun o => uses S o.2) ops -> key ∉ S ->
  kept S key v e (lru_run ops c).
Proof.
  unfold lru_run, for_range. induction ops as [|o ops IH]; intros S key v e c H Ho Hkey; simpl; [done|].
  apply Forall_cons in Ho as [Ho Hops]. apply IH; [|done|done]. by apply kept_apply.
Qed.

Lemma evict_loop_config fuel : forall c, lc_capacity (evict_loop fuel c) = lc_capacity c /\ lc_ttl (evict_loop fuel c) = lc_ttl c.
Proof.
  induction fuel as [|fuel IH]; intros c; simpl; [done|]. destruct (_ <=? _); [|done].
  destruct (IH (evictOldest c)) as [-> ->]. unfold evictOldest. by destruct (last _).
Qed.

Lemma set_config now k v c : lc_capacity (LRU_Set now k v c) = lc_capacity c /\ lc_ttl (LRU_Set now k v c) = lc_ttl c.
Proof. unfold LRU_Set. destruct (lc_items c !! k); [done|]. simpl. apply evict_loop_config. Qed.

(** A key that was just stored is kept. *)
Lemma set_kept S key v t c : lru_wf c -> Z.of_nat (size S) < lc_capacity c ->
  kept S key v (expiry (lc_ttl c) t) (LRU_Set t key v c).
Proof.
  intros Hwf Hs. destruct (set_config t key v c) as [Hcap _]. split; [by apply set_wf|]. split; [by rewrite Hcap|].
  unfold LRU_Set. fold (expiry (lc_ttl c) t). destruct (lc_items c !! key) as [i|] eqn:E; simpl.
  all: eexists [], _; split; [done|]; split; [constructor|]; eexists; split; [apply lookup_insert_eq|done].
Qed.

Lemma run_config ops : forall c, lc_capacity (lru_run ops c) = lc_capacity c /\ lc_ttl (lru_run ops c) = lc_ttl c.
Proof.
  assert (forall p order c n, lc_capacity (for_range order (c, n) (remove_step p)).1 = lc_capacity c /\
      lc_ttl (for_range order (c, n) (remove_step p)).1 = lc_ttl c) as Hwhere.
  { intros p order. unfold for_range. induction order as [|k order IH]; intros c n; simpl; [done|].
    unfold remove_step at 2 4. simpl. destruct (lc_items c !! k) as [i|]; [destruct (p k (li_val i))|]; by destruct (IH (evictElement c k) (n + 1)), (IH c n). }
  unfold lru_run, for_range. induction ops as [|[now o] ops IH]; intros c; simpl; [done|].
  destruct (IH (lru_apply now o c)) as [-> ->].
  destruct o as [k|k v|k|p order|]; simpl; try done.
  - unfold LRU_Get. destruct (lc_items c !! k); [|done]. by destruct (_ && _).
  - apply set_config.
  - unfold LRU_Remove. by destruct (lc_items c !! k).
  - apply Hwhere.
Qed.
End Lru.

Arguments lruItem : clear implicits.
Arguments LRUCache : clear implicits.
Arguments lru_op : clear implicits.

(** C37. The bounded cache refines a map with expiry: after any operations on a new
    cache it holds at most its capacity, and a read that hits returns the value
    last stored under that key and not removed since, at most [ttl] old. *)
Theorem lru_refines_map {V : Type} (capacity : Z) (ttl : Duration) (ops : list (Time * lru_op V)) (now : Time)
  (k : string) :
  LRU_Len (lru_run ops (NewLRU capacity ttl)) <= (if capacity <=? 0 then 1000 else capacity) /\
  match (LRU_Get now k (lru_run ops (NewLRU capacity ttl))).1 with
  | Some v => exists t, spec_run ops ∅ !! k = Some (v, t) /\ (0 < ttl -> now <= t + ttl)
  | None => True
  end.
Proof.
  destruct (run_config ops (NewLRU (V := V) capacity ttl)) as [Hcap Httl].
  assert (lru_refines (lru_run ops (NewLRU (V := V) capacity ttl)) (spec_run ops ∅)) as [Hwf Hm].
  { apply run_refines. split; [apply NewLRU_wf|]. intros k' i. simpl. by rewrite lookup_empty. }
  set (c := lru_run ops _) in *. split.
  - destruct Hwf as (_ & _ & _ & _ & Hl). unfold LRU_Len. by rewrite Hcap in Hl.
  - unfold LRU_Get. destruct (lc_items c !! k) as [i|] eqn:E; [|done]. rewrite Httl.
    destruct (Hm k i E) as (t & Ht & He). rewrite Httl in He. simpl in He. unfold expiry in He. simpl.
    destruct (Z.ltb_spec 0 ttl), (Z.ltb_spec (li_expires i) now); simpl; try done; exists t; (split; [done|lia]).
Qed.

(** The bounded cache keeps what is in use: a stored value is found again, in
    its lifetime, as long as fewer other keys than the capacity were used since,
    however often, and it was neither removed nor purged. *)
Theorem lru_retains_recent {V : Type} (c : LRUCache V) (key : string) (v : V) (t now : Time)
  (ops : list (Time * lru_op V)) (S : gset string)
  (Hwf : lru_wf c) (Hsize : Z.of_nat (size S) < lc_capacity c) (Hkey : key ∉ S)
  (Hops : Forall (fun o => uses S o.2) ops) (Hnow : 0 < lc_ttl c -> now <= t + lc_ttl c) :
  (LRU_Get now key (lru_run ops (LRU_Set t key v c))).1 = Some v.
Proof.
  pose proof (set_kept S key v t c Hwf Hsize) as H.
  apply (kept_run ops) in H; [|done..]. destruct H as (_ & _ & _ & _ & _ & _ & i & Hi & Hv & He).
  destruct (run_config ops (LRU_Set t key v c)) as [_ Httl]. rewrite (proj2 (set_config _ _ _ _)) in Httl.
  unfold LRU_Get. rewrite Hi, Httl, He, Hv. unfold expiry.
  destruct (Z.ltb_spec 0 (lc_ttl c)); simpl; [|done]. destruct (Z.ltb_spec (t + lc_ttl c) now); [lia|done].
Qed.

(** ** Witnesses *)

Definition demo_lru : LRUCache Z := NewLRU 2 10.

Lemma lru_retains_recent_witness :
  (LRU_Get 12 "a" (lru_run [(4, OpSet "b" 2); (5, OpGet "b"); (6, OpSet "b" 3)] (LRU_Set 3 "a" 1 demo_lru))).1 = Some 1.
Proof.
  apply (lru_retains_recent demo_lru "a" 1 3 12 [(4, OpSet "b" 2); (5, OpGet "b"); (6, OpSet "b" 3)] {["b"]}).
  - apply NewLRU_wf.
  - vm_compute. reflexivity.
  - vm_compute. intros H. discriminate H.
  - repeat constructor.
  - vm_compute. intros _ H. discriminate H.
Defined.
