(* ===== verification/CacheKeys.v ===== *)
(** * Cache keys and eligibility (src/internal/cache/keys.go, entry.go)

    Which requests may use the caches, and the keys that separate them.  SHA-256
    (as hexadecimal text), [encoding/json] of message, tool and tool-call lists,
    and the shortest decimal form of a float are parameters. *)

From S2P Require Import Prelude GoStrings GoFloat GoFloatInt Config Api.

Open Scope string_scope.
Open Scope list_scope.
Open Scope Z_scope.

(** ** Eligibility *)

Record CachePlan := mkCachePlan { pl_Exact : bool; pl_Semantic : bool; pl_Bypass : string }.

Definition nonempty {A : Type} (l : list A) : bool := match l with [] => false | _ => true end.

Definition usesTools (r : ChatRequest) : bool :=
  nonempty (r_Tools r) || negb (String.eqb (r_ToolChoice r) "") ||
  existsb (fun m => String.eqb (m_Role m) "tool" || nonempty (m_ToolCalls m)) (r_Messages r).

Definition text_only (c : Content) : bool :=
  match c_Parts c with None => true | Some ps => forallb (fun p => String.eqb (cp_Type p) "text") ps end.

(** The loop over the messages: the number of user messages, or [None] for an
    early return. *)
Fixpoint count_users (ms : list Message) (users : Z) : option Z :=
  match ms with
  | [] => Some users
  | m :: ms' =>
      if String.eqb (m_Role m) "system" || String.eqb (m_Role m) "developer" then count_users ms' users
      else if String.eqb (m_Role m) "user" then
        if text_only (m_Content m) then count_users ms' (users + 1) else None
      else None
  end.

Definition Eligibility (req : ChatRequest) (hdr : gmap string string) (cfg : CacheConfig) (internal : bool) : CachePlan :=
  if String.eqb (cc_Mode cfg) "" || String.eqb (cc_Mode cfg) "off" then mkCachePlan false false ""
  else if equal_fold (header_get hdr "X-ProofGate-Cache") "off" || internal then mkCachePlan false false "header"
  else if usesTools req then mkCachePlan false false "tools"
  else if negb (cc_Semantic cfg) || negb (String.eqb (r_ResponseFormat req) "") then mkCachePlan (cc_Exact cfg) false ""
  else
    match count_users (r_Messages req) 0 with
    | Some users => mkCachePlan (cc_Exact cfg) (users =? 1) ""
    | None => mkCachePlan (cc_Exact cfg) false ""
    end.

(** ** Queries and tags *)

Definition SemanticText (req : ChatRequest) : string :=
  match List.find (fun m => String.eqb (m_Role m) "user") (rev (r_Messages req)) with
  | Some m => Content_PlainText (m_Content m)
  | None => ""
  end.

Definition SemanticTextFromHeader (req : ChatRequest) (hdr : gmap string string) (allowClientKey : bool) : string :=
  let q := trim_space (header_get hdr "X-ProofGate-Cache-Query") in
  if negb (String.eqb q "") && allowClientKey then q else SemanticText req.

(** [^[a-z0-9_-]{1,64}$] *)
Definition tagRe (t : string) : bool :=
  (1 <=? slen t) && (slen t <=? 64) &&
  sforall (fun c => is_lower c || is_digit c || Ascii.eqb c "_" || Ascii.eqb c "-") t.

(** The loop of [ParseTags] with its break at eight tags. *)
Fixpoint parse_tags_loop (ts : list string) (out : list string) : list string :=
  match ts with
  | [] => out
  | t :: ts' =>
      let t := trim_space t in
      let out := if tagRe t then out ++ [t] else out in
      if Nat.eqb (length out) 8 then out else parse_tags_loop ts' out
  end.

Definition ParseTags (h : string) : list string := parse_tags_loop (split_byte "," h) [].

(** ** Entries *)

Record Entry := mkEntry {
  en_SourceRequestID : string;
  en_Query : string;
  en_Response : option ChatResponse;
  en_CostMicros : Z;
  en_CreatedAt : Time;
  en_Tags : list string;
  en_ContextHash : string
}.

Record Match := mkMatch { ma_Entry : Entry; ma_Similarity : spec_float; ma_Key : string }.

Definition tenantTag (tenantID : string) : string := "{t:" +:+ tenantID +:+ "}".
Definition ExactKey (tenantID route hash : string) : string :=
  "cache:" +:+ tenantTag tenantID +:+ ":x:" +:+ route +:+ ":" +:+ hash.
Definition TagKey (tenantID tag : string) : string := "cachetag:" +:+ tenantTag tenantID +:+ ":" +:+ tag.

(** ** State between the hooks of the stage (src/internal/cache/stage.go) *)

Record Candidate := mkCandidate {
  ca_Query : string;
  ca_CandidateQuery : string;
  ca_CandidateAnswer : string;
  ca_Similarity : spec_float;
  ca_Source : string
}.

Record State := mkState {
  cs_Plan : CachePlan;
  cs_Scope : string;
  cs_ExactKey : string;
  cs_Query : string;
  cs_ContextHash : string;
  cs_Embedding : option (list Z);
  cs_Tags : list string;
  cs_Nearest : option Match;
  cs_Candidate : option Candidate
}.

(** ** Hashes *)

(** The bytes [sum] feeds to the hash: every part behind its length. *)
Definition sum_input (parts : list string) : string :=
  concat_strings (map (fun p => itoa (slen p) +:+ ":" +:+ p) parts).

Definition iptr (i : option Z) : string := match i with None => "-" | Some i => itoa i end.
Definition FormatBool (b : bool) : string := if b then "true" else "false".
Definition bptr (b : option bool) : string := match b with None => "-" | Some b => FormatBool b end.

Section Hashes.
Context (sha256_hex : string -> string) (format_float : spec_float -> string)
  (json_messages : list Message -> string) (json_tools : list Tool -> string) (json_tool_calls : list ToolCall -> string).

Definition sum (parts : list string) : string := sha256_hex (sum_input parts).

Definition fptr (f : option spec_float) : string := match f with None => "-" | Some f => format_float f end.

(** What one message contributes to the context. *)
Definition context_part (m : Message) : string :=
  let text := Content_PlainText (m_Content m) in
  itoa (slen (m_Role m)) +:+ ":" +:+ m_Role m +:+ ":" +:+ itoa (slen text) +:+ ":" +:+ text +:+
  (if nonempty (m_ToolCalls m) then json_tool_calls (m_ToolCalls m) else "").

(** All messages but the last user message. *)
Definition last_user_index (ms : list Message) : option nat :=
  match list_find (fun m => m_Role m = "user") (rev ms) with
  | Some (i, _) => Some (length ms - 1 - i)%nat
  | None => None
  end.

Definition context_input (req : ChatRequest) : string :=
  let ms := r_Messages req in
  concat_strings (map context_part
    match last_user_index ms with Some i => take i ms ++ drop (S i) ms | None => ms end).

Definition ContextHash (req : ChatRequest) : string := sha256_hex (context_input req).

Definition scope_parts (tenantID route : string) (req : ChatRequest) (cfg : CacheConfig) : list string :=
  let system := map (fun m => Content_PlainText (m_Content m))
    (List.filter (fun m => String.eqb (m_Role m) "system" || String.eqb (m_Role m) "developer") (r_Messages req)) in
  ["v2:v" +:+ itoa (cc_Version cfg); route; tenantID;
   (if cc_PerUser cfg then r_User req else ""); (if cc_PerUser cfg then ContextHash req else "");
   r_Model req; join nul system; fptr (r_Temperature req); fptr (r_TopP req);
   itoa (ChatRequest_EffectiveMaxTokens req 0); join nul (r_Stop req);
   iptr (r_Seed req); iptr (r_N req); fptr (r_PresencePenalty req); fptr (r_FrequencyPenalty req);
   bptr (r_ParallelToolCalls req); r_ReasoningEffort req; bptr (r_Logprobs req); iptr (r_TopLogprobs req);
   (if nonempty (r_Tools req) then json_tools (r_Tools req) else ""); r_ToolChoice req; r_ResponseFormat req].

Definition Scope (tenantID route : string) (req : ChatRequest) (cfg : CacheConfig) : string :=
  sum (scope_parts tenantID route req cfg).

Definition exact_parts (scope : string) (req : ChatRequest) : list string := [scope; json_messages (r_Messages req)].
Definition ExactHash (scope : string) (req : ChatRequest) : string := sum (exact_parts scope req).
End Hashes.

(** ** The length-prefixed encoding is injective *)

Lemma itoa_no_colon z : scontains_byte ":" (itoa z) = false.
Proof.
  assert (forall s, sforall is_digit s = true -> scontains_byte ":" s = false) as Hd.
  { induction s as [|c s IH]; cbn [scontains_byte sforall]; [done|]. intros [Hc Hs]%andb_true_iff. rewrite IH by done.
    destruct (Ascii.eqb_spec ":" c) as [<-|]; [by vm_compute in Hc|done]. }
  unfold itoa. destruct (z <? 0); [|by apply Hd, utoa_digits].
  rewrite scontains_byte_app. simpl. by apply Hd, utoa_digits.
Qed.

Lemma digits_nonempty z : utoa z <> "".
Proof.
  assert (forall f z acc, acc <> "" -> digits_of f z acc <> "") as H.
  { induction f as [|f IH]; intros z' acc Ha; simpl; [done|]. destruct (z' <? 10); [done|]. by apply IH. }
  unfold utoa. cbn [digits_of]. destruct (z <? 10); [done|]. by apply H.
Qed.

Lemma itoa_inj a b : itoa a = itoa b -> a = b.
Proof.
  assert (forall x s, sforall is_digit s = true -> "-" +:+ x <> s) as Hminus.
  { intros x s Hs <-. rewrite sapp_cons in Hs. simpl in Hs. done. }
  unfold itoa. destruct (Z.ltb_spec a 0), (Z.ltb_spec b 0); intros E.
  - apply sapp_inj_l in E. apply utoa_inj in E; lia.
  - exfalso. by eapply Hminus, E; apply utoa_digits.
  - exfalso. symmetry in E. by eapply Hminus, E; apply utoa_digits.
  - by apply utoa_inj in E.
Qed.

Lemma byte_split c a b s t : scontains_byte c a = false -> scontains_byte c b = false ->
  a +:+ String c s = b +:+ String c t -> a = b /\ s = t.
Proof.
  intros Ha Hb E. pose proof (index_byte_app c a s Ha) as Ia. rewrite E, index_byte_app in Ia by done.
  injection Ia as Il. assert (a = b) as ->.
  { rewrite <- (stake_app_length a (String c s)), <- Il, E. apply stake_app_length. }
  by apply sapp_inj_l in E as [= ->].
Qed.

Lemma sapp_split_length a b s t : String.length a = String.length b -> a +:+ s = b +:+ t -> a = b /\ s = t.
Proof.
  intros Hl E. assert (a = b) as ->; [|by apply sapp_inj_l in E].
  rewrite <- (stake_app_length a s), Hl, E. apply stake_app_length.
Qed.

Lemma sum_input_inj parts : forall parts', sum_input parts = sum_input parts' -> parts = parts'.
Proof.
  assert (forall p ps, sum_input (p :: ps) <> "") as Hne.
  { intros p ps. unfold sum_input. simpl. unfold itoa. destruct (_ <? 0); [done|].
    destruct (utoa (slen p)) eqn:E; [by apply digits_nonempty in E|]. by rewrite !sapp_cons. }
  induction parts as [|p ps IH]; intros [|q qs] E; [done|by destruct (Hne q qs)|by destruct (Hne p ps)|].
  unfold sum_input in E. simpl in E. rewrite !sapp_assoc, !sapp_cons, !sapp_nil_l in E.
  apply byte_split in E as [El E]; [|apply itoa_no_colon..].
  apply itoa_inj in El. unfold slen in El. apply Nat2Z.inj in El.
  apply sapp_split_length in E as [-> E]; [|done]. f_equal. by apply IH.
Qed.

Lemma sapp_split_length_r a b s t : String.length s = String.length t -> a +:+ s = b +:+ t -> s = t.
Proof.
  intros Hl E. assert (String.length a = String.length b) as Ha.
  { pose proof (f_equal String.length E) as El. rewrite !slength_app in El. lia. }
  by apply sapp_split_length in E as [_ ?].
Qed.

Lemma itoa_not_dash z : itoa z <> "-".
Proof.
  unfold itoa. destruct (z <? 0) eqn:E.
  - rewrite sapp_cons, sapp_nil_l. intros [= H]. by apply digits_nonempty in H.
  - intros H. pose proof (utoa_digits z) as Hd. rewrite H in Hd. by vm_compute in Hd.
Qed.

Lemma iptr_inj a b : iptr a = iptr b -> a = b.
Proof.
  destruct a as [a|], b as [b|]; simpl; intros E; [f_equal; by apply itoa_inj| | |done].
  - by apply itoa_not_dash in E.
  - symmetry in E. by apply itoa_not_dash in E.
Qed.

Lemma bptr_inj a b : bptr a = bptr b -> a = b.
Proof. by destruct a as [[]|], b as [[]|]. Qed.

Section KeySpec.
Context (sha256_hex : string -> string) (format_float : spec_float -> string)
  (json_messages : list Message -> string) (json_tools : list Tool -> string) (json_tool_calls : list ToolCall -> string).

(** Two inputs a SHA-256 collision would consist of. *)
Definition collide (a b : string) : Prop := a <> b /\ sha256_hex a = sha256_hex b.

Lemma sum_separates ps qs : sum sha256_hex ps = sum sha256_hex qs ->
  collide (sum_input ps) (sum_input qs) \/ ps = qs.
Proof.
  intros E. destruct (decide (sum_input ps = sum_input qs)) as [Hi|Hi]; [right; by apply sum_input_inj|by left].
Qed.

(** The parameters of a request its scope is made of. *)
Definition same_scope (t r : string) (req : ChatRequest) (cfg : CacheConfig) (t' r' : string) (req' : ChatRequest) (cfg' : CacheConfig) : Prop :=
  t = t' /\ r = r' /\ cc_Version cfg = cc_Version cfg' /\
  (cc_PerUser cfg = true -> cc_PerUser cfg' = true -> r_User req = r_User req') /\
  r_Model req = r_Model req' /\
  fptr format_float (r_Temperature req) = fptr format_float (r_Temperature req') /\
  fptr format_float (r_TopP req) = fptr format_float (r_TopP req') /\
  ChatRequest_EffectiveMaxTokens req 0 = ChatRequest_EffectiveMaxTokens req' 0 /\ join nul (r_Stop req) = join nul (r_Stop req') /\
  r_Seed req = r_Seed req' /\ r_N req = r_N req' /\
  fptr format_float (r_PresencePenalty req) = fptr format_float (r_PresencePenalty req') /\
  fptr format_float (r_FrequencyPenalty req) = fptr format_float (r_FrequencyPenalty req') /\
  r_ParallelToolCalls req = r_ParallelToolCalls req' /\ r_ReasoningEffort req = r_ReasoningEffort req' /\
  r_Logprobs req = r_Logprobs req' /\ r_TopLogprobs req = r_TopLogprobs req' /\
  r_ToolChoice req = r_ToolChoice req' /\ r_ResponseFormat req = r_ResponseFormat req'.

Lemma scope_separates t r req cfg t' r' req' cfg' :
  Scope sha256_hex format_float json_tools json_tool_calls t r req cfg =
  Scope sha256_hex format_float json_tools json_tool_calls t' r' req' cfg' ->
  collide (sum_input (scope_parts sha256_hex format_float json_tools json_tool_calls t r req cfg))
          (sum_input (scope_parts sha256_hex format_float json_tools json_tool_calls t' r' req' cfg')) \/
  same_scope t r req cfg t' r' req' cfg'.
Proof.
  intros E. apply sum_separates in E as [E|E]; [by left|right]. unfold scope_parts in E.
  injection E. clear E. intros.
  unfold same_scope. split_and!; eauto using iptr_inj, bptr_inj, itoa_inj.
  intros P P'. match goal with H : (if cc_PerUser cfg then r_User req else "") = _ |- _ => by rewrite P, P' in H end.
Qed.

Lemma exact_key_inj (Hlen : forall s, String.length (sha256_hex s) = 64%nat) t r h t' r' h' :
  ExactKey t r (sha256_hex h) = ExactKey t' r' (sha256_hex h') -> sha256_hex h = sha256_hex h'.
Proof.
  unfold ExactKey. rewrite <- !sapp_assoc. intros E.
  eapply sapp_split_length_r; [|exact E]. by rewrite !Hlen.
Qed.
End KeySpec.

(** *** What agrees in two requests with one key *)

(** A stop sequence that is not lost in the join with NUL bytes. *)
Definition plain_stop (x : string) : Prop := x <> "" /\ scontains_byte "000" x = false.

Lemma join_nul_inj l : forall l', Forall plain_stop l -> Forall plain_stop l' -> join nul l = join nul l' -> l = l'.
Proof.
  assert (forall x y l, plain_stop x -> x = y +:+ nul +:+ join nul l -> False) as Hone.
  { intros x y l0 [_ Hx] ->. unfold nul, chr in Hx. rewrite scontains_byte_app in Hx. apply orb_false_iff in Hx as [_ Hx]. done. }
  induction l as [|x l IH]; intros [|y l'] Hl Hl' E; [done| | |].
  - apply Forall_cons in Hl' as [[Hy _] _]. destruct l' as [|z l']; [by destruct Hy|]. cbn in E. by destruct y.
  - apply Forall_cons in Hl as [[Hx _] _]. destruct l as [|z l]; [by destruct Hx|]. cbn in E. by destruct x.
  - apply Forall_cons in Hl as [Hx Hl], Hl' as [Hy Hl']. destruct l as [|x2 l], l' as [|y2 l'].
    + by cbn in E; subst.
    + exfalso. by eapply (Hone x y (y2 :: l')).
    + exfalso. symmetry in E. by eapply (Hone y x (x2 :: l)).
    + assert (x +:+ String "000" (join nul (x2 :: l)) = y +:+ String "000" (join nul (y2 :: l'))) as E' by exact E.
      apply byte_split in E' as [-> E']; [|by destruct Hx|by destruct Hy]. f_equal. by apply IH.
Qed.

(** The floats among the parameters of a request. *)
Definition float_params (req : ChatRequest) : list spec_float :=
  omap (fun f => f) [r_Temperature req; r_TopP req; r_PresencePenalty req; r_FrequencyPenalty req].

(** The requests ask for the same: the user counts where the cache is per user, and stop sequences
    that are empty or contain a NUL byte are not told apart. *)
Definition asks_same (t r : string) (req : ChatRequest) (cfg : CacheConfig) (t' r' : string) (req' : ChatRequest) (cfg' : CacheConfig) : Prop :=
  t = t' /\ r = r' /\ cc_Version cfg = cc_Version cfg' /\
  (cc_PerUser cfg = true -> cc_PerUser cfg' = true -> r_User req = r_User req') /\
  r_Model req = r_Model req' /\ r_Messages req = r_Messages req' /\
  r_Temperature req = r_Temperature req' /\ r_TopP req = r_TopP req' /\
  ChatRequest_EffectiveMaxTokens req 0 = ChatRequest_EffectiveMaxTokens req' 0 /\
  (Forall plain_stop (r_Stop req) -> Forall plain_stop (r_Stop req') -> r_Stop req = r_Stop req') /\
  r_Seed req = r_Seed req' /\ r_N req = r_N req' /\
  r_PresencePenalty req = r_PresencePenalty req' /\ r_FrequencyPenalty req = r_FrequencyPenalty req' /\
  r_ParallelToolCalls req = r_ParallelToolCalls req' /\ r_ReasoningEffort req = r_ReasoningEffort req' /\
  r_Logprobs req = r_Logprobs req' /\ r_TopLogprobs req = r_TopLogprobs req' /\
  r_ToolChoice req = r_ToolChoice req' /\ r_ResponseFormat req = r_ResponseFormat req'.

Lemma fptr_inj format_float (a b : option spec_float) : (forall f, a = Some f \/ b = Some f -> ParseFloat (format_float f) = Some f) ->
  fptr format_float a = fptr format_float b -> a = b.
Proof.
  intros H. assert (forall f, ParseFloat (format_float f) = Some f -> format_float f <> "-") as Hd by (intros f Hf E; rewrite E in Hf; by vm_compute in Hf).
  destruct a as [a|], b as [b|]; cbn; intros E; [|by apply Hd in E; [|auto]|by symmetry in E; apply Hd in E; [|auto]|done].
  pose proof (H a (or_introl eq_refl)) as Ha. rewrite E, (H b (or_intror eq_refl)) in Ha. congruence.
Qed.

(** C19. The exact cache does not mix up requests: two requests with the same key have the same
    tenant, route, cache version, user (where the cache is per user), model, messages, sampling
    parameters, limit of tokens, tool choice and format, and the same stop sequences when none of
    these is empty or contains a NUL byte (they are joined with NUL bytes before they are hashed:
    [scope_merges_stop_sequences]), unless the keys exhibit a SHA-256 collision between the very
    inputs that were hashed.  Assumed of encoding/json and strconv is what they document: messages
    that were decoded are decoded again from what they are marshalled to, and FormatFloat gives a
    text that ParseFloat reads back exactly. *)
Theorem exact_key_separates (sha256_hex : string -> string) (format_float : spec_float -> string)
  (json_messages : list Message -> string) (json_tools : list Tool -> string) (json_tool_calls : list ToolCall -> string)
  (decode_messages : string -> option (list Message))
  (Hlen : forall s, String.length (sha256_hex s) = 64%nat)
  (Hjson : forall body ms, decode_messages body = Some ms -> decode_messages (json_messages ms) = Some ms)
  (t r : string) (req : ChatRequest) (cfg : CacheConfig) (t' r' : string) (req' : ChatRequest) (cfg' : CacheConfig)
  (Hfloat : forall f, f ∈ float_params req ++ float_params req' -> ParseFloat (format_float f) = Some f)
  (Hdecoded : (exists body, decode_messages body = Some (r_Messages req)) /\ exists body, decode_messages body = Some (r_Messages req')) :
  let scope := Scope sha256_hex format_float json_tools json_tool_calls in
  let parts := scope_parts sha256_hex format_float json_tools json_tool_calls in
  ExactKey t r (ExactHash sha256_hex json_messages (scope t r req cfg) req) =
  ExactKey t' r' (ExactHash sha256_hex json_messages (scope t' r' req' cfg') req') ->
  collide sha256_hex (sum_input (exact_parts json_messages (scope t r req cfg) req))
          (sum_input (exact_parts json_messages (scope t' r' req' cfg') req')) \/
  collide sha256_hex (sum_input (parts t r req cfg)) (sum_input (parts t' r' req' cfg')) \/
  asks_same t r req cfg t' r' req' cfg'.
Proof.
  intros scope parts E. apply exact_key_inj in E; [|done].
  apply sum_separates in E as [E|E]; [by left|right]. unfold exact_parts in E. injection E as Es Em.
  apply scope_separates in Es as [Es|Es]; [by left|right]. destruct Hdecoded as [[b1 H1] [b2 H2]]. apply Hjson in H1, H2. rewrite Em, H2 in H1. injection H1 as Hm.
  destruct Es as (? & ? & ? & ? & ? & Ht & Hp & ? & Hst & ? & ? & Hpp & Hfp & Hrest).
  assert (forall a b, In a [r_Temperature req; r_TopP req; r_PresencePenalty req; r_FrequencyPenalty req] -> In b [r_Temperature req'; r_TopP req'; r_PresencePenalty req'; r_FrequencyPenalty req'] ->
    fptr format_float a = fptr format_float b -> a = b) as Hf.
  { intros a b Ha Hb. apply fptr_inj. intros f Hor. apply Hfloat, elem_of_app. destruct Hor as [-> | ->]; [left|right]; apply list_elem_of_omap; eexists; (split; [by apply list_elem_of_In|done]). }
  unfold asks_same. split_and!; try done; try (apply Hf; [cbn; tauto|cbn; tauto|done]); try tauto. intros Hs Hs'. by apply join_nul_inj.
Qed.

Lemma no_tools req : usesTools req = false ->
  r_Tools req = [] /\ r_ToolChoice req = "" /\ Forall (fun m => m_Role m <> "tool" /\ m_ToolCalls m = []) (r_Messages req).
Proof.
  unfold usesTools. intros [[Ht Hc]%orb_false_iff Hm]%orb_false_iff. apply negb_false_iff, String.eqb_eq in Hc.
  split_and!; [by destruct (r_Tools req)|done|]. apply Forall_forall. intros m Hin.
  assert (forall ms, existsb (fun m => String.eqb (m_Role m) "tool" || nonempty (m_ToolCalls m)) ms = false -> m ∈ ms ->
    (String.eqb (m_Role m) "tool" || nonempty (m_ToolCalls m)) = false) as H.
  { induction ms as [|x ms IH]; simpl; [by intros _ ?%not_elem_of_nil|].
    intros [Hx Hms]%orb_false_iff [<-|Hx']%elem_of_cons; auto. }
  specialize (H _ Hm Hin). apply orb_false_iff in H as [Hr Htc]. apply String.eqb_neq in Hr. split; [done|]. by destruct (m_ToolCalls m).
Qed.

Lemma text_only_spec c : text_only c = true ->
  match c_Parts c with None => True | Some ps => Forall (fun p => cp_Type p = "text") ps end.
Proof.
  unfold text_only. destruct (c_Parts c) as [ps|]; [|done]. rewrite forallb_forall. intros H. apply Forall_forall.
  intros p Hp. apply String.eqb_eq, H. by apply list_elem_of_In.
Qed.

Lemma count_users_spec ms : forall n,
  match count_users ms n with
  | Some users => users = n + Z.of_nat (length (filter (fun m => m_Role m = "user") ms)) /\
      Forall (fun m => m_Role m = "system" \/ m_Role m = "developer" \/ m_Role m = "user" /\
       match c_Parts (m_Content m) with None => True | Some ps => Forall (fun p => cp_Type p = "text") ps end) ms
  | None => True
  end.
Proof.
  induction ms as [|m ms IH]; intros n; simpl; [split; [lia|constructor]|].
  destruct (String.eqb_spec (m_Role m) "system") as [E|E]; [|destruct (String.eqb_spec (m_Role m) "developer") as [E'|E']]; simpl.
  1, 2: specialize (IH n); destruct (count_users ms n); [|done]; destruct IH as [-> IH];
    rewrite filter_cons, decide_False by (rewrite ?E, ?E'; done); split; [done|constructor; tauto].
  destruct (String.eqb_spec (m_Role m) "user") as [Eu|]; [|done].
  destruct (text_only (m_Content m)) eqn:Et; [|done].
  specialize (IH (n + 1)). destruct (count_users ms (n + 1)); [|done]. destruct IH as [-> IH].
  rewrite filter_cons, decide_True by done. simpl. split; [lia|]. constructor; [|done]. right. right. split; [done|].
  by apply text_only_spec.
Qed.

(** Only requests that mean the same when repeated are cached: a request may
    use the exact cache only if caching is on for the route, neither the client
    nor the gateway opted out and no tools are involved; the semantic cache
    moreover only for a single text-only user message besides the instructions,
    without a response format. *)
Theorem Eligibility_correct (req : ChatRequest) (hdr : gmap string string) (cfg : CacheConfig) (internal : bool) :
  let p := Eligibility req hdr cfg internal in
  (pl_Exact p = true \/ pl_Semantic p = true ->
     cc_Mode cfg <> "" /\ cc_Mode cfg <> "off" /\ internal = false /\
     lower_ascii (header_get hdr "X-ProofGate-Cache") <> "off" /\
     r_Tools req = [] /\ r_ToolChoice req = "" /\
     Forall (fun m => m_Role m <> "tool" /\ m_ToolCalls m = []) (r_Messages req)) /\
  (pl_Semantic p = true ->
     cc_Semantic cfg = true /\ r_ResponseFormat req = "" /\
     length (filter (fun m => m_Role m = "user") (r_Messages req)) = 1%nat /\
     Forall (fun m => m_Role m = "system" \/ m_Role m = "developer" \/ m_Role m = "user" /\
       match c_Parts (m_Content m) with None => True | Some ps => Forall (fun p => cp_Type p = "text") ps end) (r_Messages req)) /\
  (pl_Bypass p <> "" -> pl_Exact p = false /\ pl_Semantic p = false).
Proof.
  intros p. subst p. unfold Eligibility.
  destruct (String.eqb_spec (cc_Mode cfg) ""), (String.eqb_spec (cc_Mode cfg) "off"); simpl; try by split_and!; naive_solver.
  unfold equal_fold. change (lower_ascii "off") with "off".
  destruct (String.eqb_spec (lower_ascii (header_get hdr "X-ProofGate-Cache")) "off"), internal; simpl; try by split_and!; naive_solver.
  destruct (usesTools req) eqn:Et; simpl; [by split_and!; naive_solver|].
  apply no_tools in Et.
  destruct (negb (cc_Semantic cfg) || _) eqn:Es; simpl; [by split_and!; naive_solver|].
  apply orb_false_iff in Es as [Hs%negb_false_iff Hf%negb_false_iff%String.eqb_eq].
  pose proof (count_users_spec (r_Messages req) 0) as Hc.
  destruct (count_users (r_Messages req) 0) as [users|]; simpl; [|by split_and!; naive_solver].
  destruct Hc as [-> HF]. split_and!; [naive_solver| |done]. intros Hu%Z.eqb_eq. split_and!; [done..|lia|done].
Qed.

(** Stop sequences are joined with NUL bytes before they are hashed, so that one
    sequence containing a NUL and two sequences have the same key. *)
Lemma scope_merges_stop_sequences (sha256_hex : string -> string) (format_float : spec_float -> string)
  (json_tools : list Tool -> string) (json_tool_calls : list ToolCall -> string) (t r a b : string) (cfg : CacheConfig) :
  let with_stop stop := mkChatRequest "m" [] false None None None None None stop [] "" "" None "" None None None None "" None None in
  with_stop [a +:+ nul +:+ b] <> with_stop [a; b] /\
  Scope sha256_hex format_float json_tools json_tool_calls t r (with_stop [a +:+ nul +:+ b]) cfg =
  Scope sha256_hex format_float json_tools json_tool_calls t r (with_stop [a; b]) cfg.
Proof. split; [discriminate|reflexivity]. Qed.

(** ** Witnesses *)

Definition pad64 (s : string) : string := stake 64 (s +:+ concat_strings (repeat "0" 64)).

Lemma pad64_length s : String.length (pad64 s) = 64%nat.
Proof. unfold pad64. rewrite slength_stake, slength_app.
  change (String.length (concat_strings (repeat "0" 64))) with 64%nat. lia. Qed.

Definition no_cache : CacheConfig := mkCacheConfig "on" true None true (f_lit 9 10) 60 1 "embed" false 65536 false false f0.

(** Two requests of different users, one of them streamed and with the newer name of its limit,
    share a key of a cache that is not per user. *)
Lemma exact_key_separates_witness :
  let ask stream limit newer user := mkChatRequest "gpt" [plain_message "user" "hi"] stream None limit newer (Some (f_lit 5 10)) None ["END"] [] "" "" None user None None None None "" None None in
  let req := ask false (Some 100) None "ann" in let req' := ask true None (Some 100) "bob" in
  let json := fun ms : list Message => "[hi]" in
  let decode s := if String.eqb s "[hi]" then Some [plain_message "user" "hi"] else None in
  let digits := fun f : spec_float => "0.5" in
  let scope := Scope pad64 digits (fun _ => "") (fun _ => "") in
  let parts := scope_parts pad64 digits (fun _ => "") (fun _ => "") in
  req <> req' /\
  (collide pad64 (sum_input (exact_parts json (scope "t1" "chat" req no_cache) req)) (sum_input (exact_parts json (scope "t1" "chat" req' no_cache) req')) \/
   collide pad64 (sum_input (parts "t1" "chat" req no_cache)) (sum_input (parts "t1" "chat" req' no_cache)) \/
   asks_same "t1" "chat" req no_cache "t1" "chat" req' no_cache).
Proof.
  intros ask req req' json decode digits scope parts. split; [discriminate|].
  apply (exact_key_separates pad64 digits json (fun _ => "") (fun _ => "") decode pad64_length); [| | |reflexivity].
  - intros body ms. unfold decode, json. destruct (String.eqb body "[hi]"); [|discriminate]. intros H. exact H.
  - intros f Hf. cbn in Hf. repeat (apply elem_of_cons in Hf as [->|Hf]; [vm_compute; reflexivity|]). apply elem_of_nil in Hf. destruct Hf.
  - split; exists "[hi]"; reflexivity.
Defined.
