(* ===== verification/Policy.v ===== *)
(** * Tenant, key and run policies (src/internal/store/policy.go) and the
    authenticated principal (src/internal/auth/keys.go) *)

From S2P Require Import Prelude GoStrings GoFloat.

Open Scope string_scope.
Open Scope list_scope.
Open Scope Z_scope.

Record TenantCachePolicy := mkTenantCachePolicy { AllowClientKey : bool }.

Record TenantPolicy := mkTenantPolicy {
  tp_RPM : Z;
  tp_TPM : Z;
  tp_MonthlyBudgetUSD : spec_float;
  tp_Strict : bool;
  tp_Cache : option TenantCachePolicy;
  tp_ShadowConsent : bool;
  tp_KMSURI : string
}.

(** [int64(math.Round(usd * 1e6))] *)
Definition usd_to_micros (usd : spec_float) : Z := f_round_int64 (fmul usd (f_of_Z 1000000)).

Definition BudgetMicros (p : TenantPolicy) : Z := usd_to_micros (tp_MonthlyBudgetUSD p).

Record RunPolicy := mkRunPolicy {
  rp_MaxCostUSD : spec_float;
  rp_MaxSteps : Z;
  rp_MaxTokens : Z;
  rp_TTL : Duration;
  rp_RequireRunID : bool;
  rp_RunIDFallback : string;
  rp_LoopRepeats : Z;
  rp_LoopWindow : Z;
  rp_FuzzyLoop : bool;
  rp_FuzzyThreshold : spec_float
}.

Definition WithDefaults (p : RunPolicy) : RunPolicy :=
  mkRunPolicy (rp_MaxCostUSD p) (rp_MaxSteps p) (rp_MaxTokens p)
    (if rp_TTL p =? 0 then hour else rp_TTL p)
    (rp_RequireRunID p) (rp_RunIDFallback p)
    (if rp_LoopRepeats p =? 0 then 3 else rp_LoopRepeats p)
    (if rp_LoopWindow p =? 0 then 20 else rp_LoopWindow p)
    (rp_FuzzyLoop p)
    (if fleb (rp_FuzzyThreshold p) f0 then f_lit 95 100 else rp_FuzzyThreshold p).

Definition RunPolicy_CostMicros (p : RunPolicy) : Z := usd_to_micros (rp_MaxCostUSD p).

Record MCPServerPolicy := mkMCPServerPolicy {
  ms_Allow : list string;
  ms_Deny : list string;
  ms_AllowMethods : list string
}.

Record MCPPolicy := mkMCPPolicy {
  mp_Servers : gmap string MCPServerPolicy;
  mp_AllowMethods : list string
}.

Record KeyPolicy := mkKeyPolicy {
  kp_AllowDirect : bool;
  kp_Run : option RunPolicy;
  kp_MCP : option MCPPolicy
}.

(** ** The principal *)

Record Principal := mkPrincipal {
  TenantID : string;
  TenantName : string;
  KeyID : string;
  KeyName : string;
  AllowedRoutes : list string;
  AllowDirect : bool;
  p_Tenant : TenantPolicy;
  p_Key : KeyPolicy
}.

Definition CanUseRoute (p : Principal) (name : string) : bool :=
  bool_decide (AllowedRoutes p = []) || bool_decide (name ∈ AllowedRoutes p).

Definition no_limits : TenantPolicy := mkTenantPolicy 0 0 f0 false None false "".
Definition no_key_policy : KeyPolicy := mkKeyPolicy false None None.

Example budget_micros : BudgetMicros (mkTenantPolicy 0 0 (f_lit 125 10) false None false "") = 12500000.
Proof. vm_compute. reflexivity. Qed.
