(* ===== verification/Auth.v ===== *)
(** * Authentication (src/internal/auth/middleware.go, keys.go)

    The middleware that turns an API key into a [Principal]: a positive and a
    negative cache, a lookup behind an interface, and a limiter per client
    address for failed attempts.  The token buckets of golang.org/x/time/rate are
    parameters; a limiter is shared by pointer, so limiters live in a heap and
    the cache holds their addresses.  [Handler] is a request that is alone;
    [request_step] and [lookup_step] are its operations one by one, with those of
    the lookup that [singleflight] shares among the requests for one key, in any
    interleaving, and [handler_alone] relates the two. *)

From S2P Require Import Prelude GoStrings Encoding GoFloat Config Api Policy Lru.

Open Scope string_scope.
Open Scope list_scope.
Open Scope Z_scope.

(** ** The request *)

Fixpoint last_index_byte (c : ascii) (s : string) : option nat :=
  match s with
  | EmptyString => None
  | String d s' =>
      match last_index_byte c s' with
      | Some i => Some (S i)
      | None => if Ascii.eqb c d then Some O else None
      end
  end.

(** [net.SplitHostPort]: the host, or [None] for an error. *)
Definition SplitHostPort (hostport : string) : option string :=
  match last_index_byte ":" hostport with
  | None => None
  | Some i =>
      let finish host j k :=
        if contains (sdrop j hostport) "[" || contains (sdrop k hostport) "]" then None else Some host in
      if has_prefix "[" hostport then
        match index "]" hostport with
        | None => None
        | Some e => if Nat.eqb (S e) i then finish (slice 1 e hostport) 1%nat (S e) else None
        end
      else
        let host := stake i hostport in
        if contains host ":" then None else finish host O O
  end.

Example split_host_port_ex :
  map SplitHostPort ["10.0.0.1:80"; "[::1]:80"; "::1:80"; "host"; "[::1]"] = [Some "10.0.0.1"; Some "::1"; None; None; None].
Proof. reflexivity. Qed.

Record Request := mkRequest { rq_RemoteAddr : string; rq_Header : gmap string string }.

Definition clientIP (f : option (Request -> string)) (r : Request) : string :=
  let remote := default (rq_RemoteAddr r) (SplitHostPort (rq_RemoteAddr r)) in
  match f with
  | Some f => if String.eqb (f r) "" then remote else f r
  | None => remote
  end.

Definition bearer (r : Request) : string :=
  let h := trim_space (header_get (rq_Header r) "Authorization") in
  if (7 <=? slen h) && equal_fold (stake 7 h) "bearer " then trim_space (sdrop 7 h)
  else trim_space (header_get (rq_Header r) "api-key").

(** ** Key records (src/internal/store/store.go) *)

Record StoreTenant := mkStoreTenant { te_ID : string; te_Name : string; te_Policy : TenantPolicy }.
Record APIKey := mkAPIKey { ak_ID : string; ak_Name : string; ak_AllowedRoutes : list string; ak_Policy : KeyPolicy }.
Record KeyRecord := mkKeyRecord { kr_Key : APIKey; kr_Tenant : StoreTenant }.

(** The principal the middleware builds from a record. *)
Definition principal_of (rec : KeyRecord) : Principal :=
  mkPrincipal (te_ID (kr_Tenant rec)) (te_Name (kr_Tenant rec)) (ak_ID (kr_Key rec)) (ak_Name (kr_Key rec))
    (ak_AllowedRoutes (kr_Key rec)) (kp_AllowDirect (ak_Policy (kr_Key rec))) (te_Policy (kr_Tenant rec)) (ak_Policy (kr_Key rec)).

Inductive lookup_error := ErrNotFound | ErrBackend.

(** [KeyLookup], over a world that has a clock. *)
Class KeyLookup (W : Type) := {
  clock : W -> Time;
  KeyByHash : string -> W -> W * (lookup_error + KeyRecord)
}.

(** ** The middleware *)

Section Middleware.
Context {L : Type} (new_limiter : spec_float -> Z -> L)
  (limiter_allow : Time -> L -> bool * L) (limiter_tokens : Time -> L -> spec_float)
  (sha256 : string -> string).

Definition HashKey (plaintext : string) : string := sha256 plaintext.

Record Middleware := mkMiddleware {
  mw_posCache : LRUCache Principal;
  mw_negCache : LRUCache unit;
  mw_failedLimiters : LRUCache nat;
  mw_heap : gmap nat L;                 (* the limiters behind the pointers *)
  mw_next : nat;
  mw_failedAuthRate : spec_float;
  mw_failedAuthBurst : Z;
  mw_ClientIPFunc : option (Request -> string)
}.

Definition NewMiddlewareWithConfig (rate_every : Duration -> spec_float) (ttl negativeTTL : Duration) (maxEntries : Z) : Middleware :=
  let maxEntries := if maxEntries <=? 0 then 10000 else maxEntries in
  let negCapacity := if maxEntries <? 2000 then maxEntries else 2000 in
  mkMiddleware (NewLRU maxEntries ttl) (NewLRU negCapacity negativeTTL) (NewLRU 10000 (10 * minute)) ∅ 0
    (rate_every (Z.quot minute 20)) 20 None.

Definition NewMiddleware (rate_every : Duration -> spec_float) (ttl negativeTTL : Duration) : Middleware :=
  NewMiddlewareWithConfig rate_every ttl negativeTTL 10000.

Definition set_caches (m : Middleware) (p : LRUCache Principal) (n : LRUCache unit) : Middleware :=
  mkMiddleware p n (mw_failedLimiters m) (mw_heap m) (mw_next m) (mw_failedAuthRate m) (mw_failedAuthBurst m) (mw_ClientIPFunc m).
Definition set_limiters (m : Middleware) (f : LRUCache nat) (h : gmap nat L) (n : nat) : Middleware :=
  mkMiddleware (mw_posCache m) (mw_negCache m) f h n (mw_failedAuthRate m) (mw_failedAuthBurst m) (mw_ClientIPFunc m).

Definition SetFailedAuthLimiter (r : spec_float) (burst : Z) (m : Middleware) : Middleware :=
  mkMiddleware (mw_posCache m) (mw_negCache m) (LRU_Purge (mw_failedLimiters m)) (mw_heap m) (mw_next m) r burst (mw_ClientIPFunc m).

(** [getLimiter]: the address of the limiter of [ip]. *)
Definition getLimiter (now : Time) (ip : string) (m : Middleware) : nat * Middleware :=
  match LRU_Get now ip (mw_failedLimiters m) with
  | (Some lim, f) => (lim, set_limiters m f (mw_heap m) (mw_next m))
  | (None, f) =>
      let lim := mw_next m in
      (lim, set_limiters m (LRU_Set now ip lim f)
              (<[lim := new_limiter (mw_failedAuthRate m) (mw_failedAuthBurst m)]> (mw_heap m)) (S lim))
  end.

Definition lim_Allow (now : Time) (lim : nat) (m : Middleware) : bool * Middleware :=
  match mw_heap m !! lim with
  | Some l => let '(ok, l) := limiter_allow now l in (ok, set_limiters m (mw_failedLimiters m) (<[lim := l]> (mw_heap m)) (mw_next m))
  | None => (true, m)
  end.

Definition lim_Tokens (now : Time) (lim : nat) (m : Middleware) : spec_float :=
  match mw_heap m !! lim with Some l => limiter_tokens now l | None => f0 end.

(** The two cache reads at the start of [resolve], and again inside the single
    flight: [Some] is the answer the caches give. *)
Definition resolve_cached (now : Time) (h : string) (m : Middleware) : option (option Principal) * Middleware :=
  match LRU_Get now h (mw_posCache m) with
  | (Some p, pos) => (Some (Some p), set_caches m pos (mw_negCache m))
  | (None, pos) =>
      match LRU_Get now h (mw_negCache m) with
      | (Some tt, neg) => (Some None, set_caches m pos neg)
      | (None, neg) => (None, set_caches m pos neg)
      end
  end.

(** What the single flight does with the answer of the key store. *)
Definition resolve_store (now : Time) (h : string) (res : lookup_error + KeyRecord) (m : Middleware)
  : (lookup_error + option Principal) * Middleware :=
  match res with
  | inr rec => (inr (Some (principal_of rec)), set_caches m (LRU_Set now h (principal_of rec) (mw_posCache m)) (mw_negCache m))
  | inl ErrNotFound => (inr None, set_caches m (mw_posCache m) (LRU_Set now h tt (mw_negCache m)))
  | inl ErrBackend => (inl ErrBackend, m)
  end.

Section World.
Context {W : Type} `{KeyLookup W}.

Definition auth_resolve (key : string) (m : Middleware) (w : W) : (lookup_error + option Principal) * Middleware * W :=
  let h := HashKey key in
  match resolve_cached (clock w) h m with
  | (Some r, m) => (inr r, m, w)
  | (None, m) =>
      match resolve_cached (clock w) h m with
      | (Some r, m) => (inr r, m, w)
      | (None, m) =>
          let '(w, res) := KeyByHash h w in
          let '(r, m) := resolve_store (clock w) h res m in (r, m, w)
      end
  end.

(** What the handler does: calls the next handler for a principal, or writes an
    error, with the WWW-Authenticate header or not. *)
Inductive reply := Serve (p : Principal) | Deny (e : ApiError) (www : bool).

Definition too_many_failures : ApiError :=
  mkApiError 429 "too many failed authentication attempts" "rate_limit_error" "failed_auth_limit_exceeded" 0.
Definition auth_unavailable : ApiError := mkApiError 503 "auth backend unavailable" "api_error" "auth_unavailable" 0.

(** A failed attempt costs the client a token of its limiter. *)
Definition fail_attempt (now : Time) (lim : nat) (m : Middleware) : Middleware * reply :=
  match lim_Allow now lim m with
  | (false, m) => (m, Deny too_many_failures false)
  | (true, m) => (m, Deny Unauthorized true)
  end.

Definition Handler (r : Request) (m : Middleware) (w : W) : Middleware * W * reply :=
  let ip := clientIP (mw_ClientIPFunc m) r in
  let key := bearer r in
  if String.eqb key "" || negb (has_prefix "pg_" key) then
    let '(lim, m) := getLimiter (clock w) ip m in
    let '(m, rep) := fail_attempt (clock w) lim m in (m, w, rep)
  else
    match LRU_Get (clock w) (HashKey key) (mw_posCache m) with
    | (Some p, pos) => (set_caches m pos (mw_negCache m), w, Serve p)
    | (None, pos) =>
        let m := set_caches m pos (mw_negCache m) in
        let '(lim, m) := getLimiter (clock w) ip m in
        if fltb (lim_Tokens (clock w) lim m) f1 then (m, w, Deny too_many_failures false)
        else
          match auth_resolve key m w with
          | (inl _, m, w) => (m, w, Deny auth_unavailable false)
          | (inr None, m, w) => let '(m, rep) := fail_attempt (clock w) lim m in (m, w, rep)
          | (inr (Some p), m, w) => (m, w, Serve p)
          end
    end.
End World.

Definition EvictKey (keyHash : string) (m : Middleware) : Middleware :=
  let m := set_caches m (LRU_Remove keyHash (mw_posCache m)) (LRU_Remove keyHash (mw_negCache m)) in
  match hex_decode keyHash with
  | Some b => set_caches m (LRU_Remove b (mw_posCache m)) (LRU_Remove b (mw_negCache m))
  | None => m
  end.

(** [order] is the order in which the map of the positive cache is visited. *)
Definition EvictTenant (tenantID : string) (order : list string) (m : Middleware) : Z * Middleware :=
  if String.eqb (trim_space tenantID) "" then (0, m)
  else
    let '(pos, n) := LRU_RemoveWhere (fun _ p => String.eqb (TenantID p) tenantID) order (mw_posCache m) in
    (n, set_caches m pos (mw_negCache m)).

Definition Middleware_Purge (m : Middleware) : Middleware :=
  set_caches m (LRU_Purge (mw_posCache m)) (LRU_Purge (mw_negCache m)).

(** ** Lookups in flight

    [Handler] above is a request that is alone; here requests and lookups take turns, a step
    being one operation on a cache, on a limiter or on the key store.  A request that misses
    the caches calls [singleflight], which runs one lookup per hash at a time and gives its
    result to everyone who waits for it. *)
Inductive flight_at :=
| FPos | FNeg | FQuery                       (* about to read the caches, or the key store *)
| FRead (res : lookup_error + KeyRecord)     (* the key store has answered *)
| FStored (t : Time) (r : lookup_error + option Principal)
| FDone (t : Time) (r : lookup_error + option Principal).
Record flight := mkFlight { fl_hash : string; fl_at : flight_at }.

(** [via]: the lookup that gave the answer, [None] for the caches and limiters. *)
Inductive request_at :=
| RqArrived | RqLimit | RqPos (lim : nat) | RqNeg (lim : nat) | RqJoin (lim : nat) | RqWait (lim fl : nat) | RqFail (lim : nat)
| RqAnswered (t : Time) (via : option nat) (rep : reply).

Section Flights.
Context {W : Type} `{KeyLookup W}.

Record gate := mkGate { gs_mw : Middleware; gs_w : W; gs_flights : gmap nat flight; gs_reqs : gmap nat (Request * request_at) }.

Definition idle_gate (m : Middleware) (w : W) : gate := mkGate m w ∅ ∅.
Definition gate_mw (m : Middleware) (s : gate) : gate := mkGate m (gs_w s) (gs_flights s) (gs_reqs s).
Definition gate_goto (i : nat) (r : Request) (m : Middleware) (at' : request_at) (s : gate) : gate :=
  mkGate m (gs_w s) (gs_flights s) (<[i := (r, at')]> (gs_reqs s)).
Definition gate_fly (fl : nat) (h : string) (m : Middleware) (w : W) (at' : flight_at) (s : gate) : gate :=
  mkGate m w (<[fl := mkFlight h at']> (gs_flights s)) (gs_reqs s).

Definition is_open (h : string) (f : flight) : bool := String.eqb (fl_hash f) h && match fl_at f with FDone _ _ => false | _ => true end.
Definition in_flight (h : string) (s : gate) : bool := existsb (fun kv => is_open h kv.2) (map_to_list (gs_flights s)).

(** The next step of a request; [fl] is the lookup it joins, or the number of the one it starts. *)
Definition request_step (i fl : nat) (s : gate) : option gate :=
  match gs_reqs s !! i with
  | None => None
  | Some (r, at') =>
      let now := clock (gs_w s) in
      let m := gs_mw s in
      let key := bearer r in
      let h := HashKey key in
      let answer m via rep := Some (gate_goto i r m (RqAnswered now via rep) s) in
      match at' with
      | RqArrived =>
          if String.eqb key "" || negb (has_prefix "pg_" key) then
            let '(lim, m) := getLimiter now (clientIP (mw_ClientIPFunc m) r) m in Some (gate_goto i r m (RqFail lim) s)
          else
            match LRU_Get now h (mw_posCache m) with
            | (Some p, pos) => answer (set_caches m pos (mw_negCache m)) None (Serve p)
            | (None, pos) => Some (gate_goto i r (set_caches m pos (mw_negCache m)) RqLimit s)
            end
      | RqLimit =>
          let '(lim, m) := getLimiter now (clientIP (mw_ClientIPFunc m) r) m in
          if fltb (lim_Tokens now lim m) f1 then answer m None (Deny too_many_failures false) else Some (gate_goto i r m (RqPos lim) s)
      | RqPos lim =>
          match LRU_Get now h (mw_posCache m) with
          | (Some p, pos) => answer (set_caches m pos (mw_negCache m)) None (Serve p)
          | (None, pos) => Some (gate_goto i r (set_caches m pos (mw_negCache m)) (RqNeg lim) s)
          end
      | RqNeg lim =>
          match LRU_Get now h (mw_negCache m) with
          | (Some tt, neg) => Some (gate_goto i r (set_caches m (mw_posCache m) neg) (RqFail lim) s)
          | (None, neg) => Some (gate_goto i r (set_caches m (mw_posCache m) neg) (RqJoin lim) s)
          end
      | RqJoin lim =>
          match gs_flights s !! fl with
          | Some f => if is_open h f then Some (gate_goto i r m (RqWait lim fl) s) else None
          | None => if in_flight h s then None else Some (gate_fly fl h m (gs_w s) FPos (gate_goto i r m (RqWait lim fl) s))
          end
      | RqWait lim f =>
          match fl_at <$> gs_flights s !! f with
          | Some (FDone _ (inl _)) => answer m (Some f) (Deny auth_unavailable false)
          | Some (FDone _ (inr None)) => Some (gate_goto i r m (RqFail lim) s)
          | Some (FDone _ (inr (Some p))) => answer m (Some f) (Serve p)
          | _ => None
          end
      | RqFail lim => let '(m, rep) := fail_attempt now lim m in answer m None rep
      | RqAnswered _ _ _ => None
      end
  end.

(** The next step of a lookup. *)
Definition lookup_step (fl : nat) (s : gate) : option gate :=
  match gs_flights s !! fl with
  | None => None
  | Some (mkFlight h at') =>
      let now := clock (gs_w s) in
      let m := gs_mw s in
      match at' with
      | FPos =>
          match LRU_Get now h (mw_posCache m) with
          | (Some p, pos) => Some (gate_fly fl h (set_caches m pos (mw_negCache m)) (gs_w s) (FStored now (inr (Some p))) s)
          | (None, pos) => Some (gate_fly fl h (set_caches m pos (mw_negCache m)) (gs_w s) FNeg s)
          end
      | FNeg =>
          match LRU_Get now h (mw_negCache m) with
          | (Some tt, neg) => Some (gate_fly fl h (set_caches m (mw_posCache m) neg) (gs_w s) (FStored now (inr None)) s)
          | (None, neg) => Some (gate_fly fl h (set_caches m (mw_posCache m) neg) (gs_w s) FQuery s)
          end
      | FQuery => let '(w, res) := KeyByHash h (gs_w s) in Some (gate_fly fl h m w (FRead res) s)
      | FRead res => let '(r, m) := resolve_store now h res m in Some (gate_fly fl h m (gs_w s) (FStored now r) s)
      | FStored t r => Some (gate_fly fl h m (gs_w s) (FDone t r) s)
      | FDone _ _ => None
      end
  end.

(** A request arrives, a request or a lookup takes a step, entries are evicted, the limits
    change, or the world does. *)
Inductive gate_step (world_step : W -> W -> Prop) : gate -> gate -> Prop :=
| gate_arrives i r s : gs_reqs s !! i = None -> gate_step world_step s (gate_goto i r (gs_mw s) RqArrived s)
| gate_request i fl s s' : request_step i fl s = Some s' -> gate_step world_step s s'
| gate_lookup fl s s' : lookup_step fl s = Some s' -> gate_step world_step s s'
| gate_evict_key k s : gate_step world_step s (gate_mw (EvictKey k (gs_mw s)) s)
| gate_evict_tenant t order s : gate_step world_step s (gate_mw (EvictTenant t order (gs_mw s)).2 s)
| gate_purge s : gate_step world_step s (gate_mw (Middleware_Purge (gs_mw s)) s)
| gate_limits r b s : gate_step world_step s (gate_mw (SetFailedAuthLimiter r b (gs_mw s)) s)
| gate_world w s : world_step (gs_w s) w -> gate_step world_step s (mkGate (gs_mw s) w (gs_flights s) (gs_reqs s)).

Lemma pos_set m p n : mw_posCache (set_caches m p n) = p. Proof. done. Qed.
Lemma neg_set m p n : mw_negCache (set_caches m p n) = n. Proof. done. Qed.
Lemma ip_set m p n : mw_ClientIPFunc (set_caches m p n) = mw_ClientIPFunc m. Proof. done. Qed.
Lemma set_set m p n p' n' : set_caches (set_caches m p n) p' n' = set_caches m p' n'. Proof. done. Qed.
Lemma step_first ws s s1 s2 : gate_step ws s s1 -> reachable (gate_step ws) s1 s2 -> reachable (gate_step ws) s s2.
Proof. intros Hs. apply reachable_trans. eapply reach_step; [apply reach_refl|done]. Qed.

Ltac fly tac := eapply step_first; [eapply gate_lookup; unfold lookup_step; cbn [gs_flights gs_w gs_mw]; rewrite lookup_insert_eq; rewrite ?pos_set, ?neg_set, ?ip_set; tac; reflexivity|
  unfold gate_fly; cbn [gs_flights gs_reqs]; rewrite ?insert_insert_eq].

(** A lookup that is alone does what [auth_resolve] does after the first look at the caches. *)
Lemma lookup_alone ws fl h m w fs rs :
  let '(r, m', w') :=
    match resolve_cached (clock w) h m with
    | (Some r, m) => (inr r, m, w)
    | (None, m) => let '(w, res) := KeyByHash h w in let '(r, m) := resolve_store (clock w) h res m in (r, m, w)
    end in
  exists t, reachable (gate_step ws) (mkGate m w (<[fl := mkFlight h FPos]> fs) rs) (mkGate m' w' (<[fl := mkFlight h (FDone t r)]> fs) rs).
Proof.
  assert (forall t r m w, reachable (gate_step ws) (mkGate m w (<[fl := mkFlight h (FStored t r)]> fs) rs) (mkGate m w (<[fl := mkFlight h (FDone t r)]> fs) rs)) as Hend.
  { intros t r m1 w1. fly idtac. apply reach_refl. }
  unfold resolve_cached. destruct (LRU_Get (clock w) h (mw_posCache m)) as [[p|] pos] eqn:Ep.
  { eexists. fly ltac:(rewrite Ep). apply Hend. }
  destruct (LRU_Get (clock w) h (mw_negCache m)) as [[[]|] neg] eqn:En.
  { eexists. fly ltac:(rewrite Ep). fly ltac:(rewrite En). apply Hend. }
  destruct (KeyByHash h w) as [w1 res] eqn:Ek. destruct (resolve_store _ _ _ _) as [r m1] eqn:Es. eexists.
  fly ltac:(rewrite Ep). fly ltac:(rewrite En). fly ltac:(rewrite Ek).
  fly ltac:(rewrite ?set_set, Es). apply Hend.
Qed.

(** The request is answered. *)
Definition ends ws (i : nat) (r : Request) (s : gate) (m : Middleware) (w : W) (rep : reply) : Prop :=
  exists s' t via, reachable (gate_step ws) s s' /\ gs_mw s' = m /\ gs_w s' = w /\ gs_reqs s' !! i = Some (r, RqAnswered t via rep).

Lemma ends_after ws i r s s1 m w rep : reachable (gate_step ws) s s1 -> ends ws i r s1 m w rep -> ends ws i r s m w rep.
Proof. intros Hr (s' & t & via & H1 & H2). exists s', t, via. split; [by eapply reachable_trans|done]. Qed.

Lemma ends_now ws i r m w fs rs t via rep : ends ws i r (mkGate m w fs (<[i := (r, RqAnswered t via rep)]> rs)) m w rep.
Proof. do 3 eexists. split; [apply reach_refl|]. split_and!; [done..|]. apply lookup_insert_eq. Qed.

Ltac go_on i fl tac := eapply step_first; [eapply (gate_request _ i fl); unfold request_step; cbn [gs_reqs gs_flights gs_w gs_mw]; rewrite ?lookup_insert_eq;
    rewrite ?pos_set, ?neg_set, ?ip_set; tac; reflexivity| unfold gate_goto; cbn [gs_flights gs_reqs gs_w]; rewrite ?insert_insert_eq].

(** [Handler] is what a request does when nothing comes in between and no lookup of its key
    is in flight. *)
Lemma handler_alone ws i fl r s : gs_reqs s !! i = Some (r, RqArrived) -> in_flight (HashKey (bearer r)) s = false -> gs_flights s !! fl = None ->
  let '(m', w', rep) := Handler r (gs_mw s) (gs_w s) in ends ws i r s m' w' rep.
Proof.
  destruct s as [m w fs rs]. cbn [gs_reqs gs_flights gs_mw gs_w]. intros Hi Hno Hfl. rewrite <- (insert_id _ _ _ Hi).
  assert (forall fs w lim m, let '(m', rep) := fail_attempt (clock w) lim m in ends ws i r (mkGate m w fs (<[i := (r, RqFail lim)]> rs)) m' w rep) as Hfail.
  { intros fs' w' lim m1. destruct (fail_attempt _ _ _) as [m2 rep] eqn:Ef. eapply ends_after; [go_on i fl ltac:(rewrite Ef); apply reach_refl|]. apply ends_now. }
  unfold Handler. destruct (String.eqb (bearer r) "" || _) eqn:Ekey.
  { destruct (getLimiter _ _ _) as [lim m1] eqn:Eg. specialize (Hfail fs w lim m1). destruct (fail_attempt _ _ _) as [m2 rep].
    eapply ends_after; [go_on i fl ltac:(rewrite Ekey, Eg); apply reach_refl|done]. }
  destruct (LRU_Get (clock w) (HashKey (bearer r)) (mw_posCache m)) as [[p|] pos] eqn:Ep.
  { eapply ends_after; [go_on i fl ltac:(rewrite Ekey, Ep); apply reach_refl|]. apply ends_now. }
  destruct (getLimiter _ _ _) as [lim m2] eqn:Eg. destruct (fltb _ _) eqn:Ef.
  { eapply ends_after; [go_on i fl ltac:(rewrite Ekey, Ep); go_on i fl ltac:(rewrite Eg, Ef); apply reach_refl|]. apply ends_now. }
  assert (reachable (gate_step ws) (mkGate m w fs (<[i := (r, RqArrived)]> rs)) (mkGate m2 w fs (<[i := (r, RqPos lim)]> rs))) as Hpre
    by (go_on i fl ltac:(rewrite Ekey, Ep); go_on i fl ltac:(rewrite Eg, Ef); apply reach_refl).
  unfold auth_resolve, resolve_cached at 1. destruct (LRU_Get (clock w) _ (mw_posCache m2)) as [[p|] pos2] eqn:Ep2.
  { eapply ends_after; [exact Hpre|]. eapply ends_after; [go_on i fl ltac:(rewrite Ep2); apply reach_refl|]. apply ends_now. }
  destruct (LRU_Get (clock w) _ (mw_negCache m2)) as [[[]|] neg2] eqn:En2.
  { specialize (Hfail fs w lim (set_caches m2 pos2 neg2)). destruct (fail_attempt _ _ _) as [m4 rep].
    eapply ends_after; [exact Hpre|]. eapply ends_after; [|exact Hfail]. go_on i fl ltac:(rewrite Ep2). go_on i fl ltac:(rewrite En2). apply reach_refl. }
  set (m3 := set_caches m2 pos2 neg2).
  assert (reachable (gate_step ws) (mkGate m2 w fs (<[i := (r, RqPos lim)]> rs))
    (mkGate m3 w (<[fl := mkFlight (HashKey (bearer r)) FPos]> fs) (<[i := (r, RqWait lim fl)]> rs))) as Hfly.
  { go_on i fl ltac:(rewrite Ep2). go_on i fl ltac:(rewrite En2). unfold in_flight in Hno. cbn [gs_flights] in Hno.
    go_on i fl ltac:(rewrite Hfl; unfold in_flight; cbn [gs_flights]; rewrite Hno). apply reach_refl. }
  pose proof (lookup_alone ws fl (HashKey (bearer r)) m3 w fs (<[i := (r, RqWait lim fl)]> rs)) as Hl.
  destruct (resolve_cached (clock w) (HashKey (bearer r)) m3) as [[x|] m4]; [|destruct (KeyByHash _ w) as [w1 res]; destruct (resolve_store _ _ _ _) as [x m5]].
  all: destruct Hl as [t Hl]; pose proof (reachable_trans _ _ _ _ (reachable_trans _ _ _ _ Hpre Hfly) Hl) as Hall; clear Hpre Hfly Hl.
  - destruct x as [p|].
    + eapply ends_after; [exact Hall|]. eapply ends_after; [go_on i fl idtac; apply reach_refl|]. apply ends_now.
    + match goal with |- context [fail_attempt ?c ?l ?m] => specialize (Hfail (<[fl := mkFlight (HashKey (bearer r)) (FDone t (inr None))]> fs) w l m); destruct (fail_attempt c l m) as [m6 rep] end.
      eapply ends_after; [exact Hall|]. eapply ends_after; [go_on i fl idtac; apply reach_refl|done].
  - destruct x as [e|[p|]].
    + eapply ends_after; [exact Hall|]. eapply ends_after; [go_on i fl idtac; apply reach_refl|]. apply ends_now.
    + eapply ends_after; [exact Hall|]. eapply ends_after; [go_on i fl idtac; apply reach_refl|]. apply ends_now.
    + match goal with |- context [fail_attempt ?c ?l ?m] => specialize (Hfail (<[fl := mkFlight (HashKey (bearer r)) (FDone t (inr None))]> fs) w1 l m); destruct (fail_attempt c l m) as [m6 rep] end.
      eapply ends_after; [exact Hall|]. eapply ends_after; [go_on i fl idtac; apply reach_refl|done].
Qed.
End Flights.

(** ** Soundness *)

Context {W : Type} `{KL : KeyLookup W}.

(** The world with a record of the lookups that succeeded: when, under which
    hash, with what. *)
#[export] Instance traced_lookup : KeyLookup (W * list (Time * string * KeyRecord)) := {
  clock w := clock w.1;
  KeyByHash h w :=
    let '(w1, res) := KeyByHash h w.1 in
    (w1, w.2 ++ match res with inr rec => [(clock w1, h, rec)] | inl _ => [] end, res)
}.

Abbreviation traced := (W * list (Time * string * KeyRecord))%type.

(** The events of a run: requests, evictions, the policy change, and whatever
    else happens in the world while the clock does not go back. *)
Inductive auth_step : Middleware * traced -> Middleware * traced -> Prop :=
| auth_request r m w m' w' rep : Handler r m w = (m', w', rep) -> auth_step (m, w) (m', w')
| auth_evict_key k m w : auth_step (m, w) (EvictKey k m, w)
| auth_evict_tenant t order m w : auth_step (m, w) ((EvictTenant t order m).2, w)
| auth_purge m w : auth_step (m, w) (Middleware_Purge m, w)
| auth_limits r b m w : auth_step (m, w) (SetFailedAuthLimiter r b m, w)
| auth_world m w w' tr : clock w <= clock w' -> auth_step (m, (w, tr)) (m, (w', tr)).

(** Every cached principal is that of a recorded lookup, except those of [old]. *)
Definition pos_ok (old : string -> Prop) (ttl : Duration) (c : LRUCache Principal) (tr : list (Time * string * KeyRecord)) : Prop :=
  lru_wf c /\ lc_ttl c = ttl /\ forall h i, lc_items c !! h = Some i ->
    old h \/ exists t rec, (t, h, rec) ∈ tr /\ li_val i = principal_of rec /\ li_expires i = expiry ttl t.

Lemma pos_ok_sub old ttl c c' tr tr' : pos_ok old ttl c tr -> lru_wf c' -> lc_ttl c' = lc_ttl c ->
  lc_items c' ⊆ lc_items c -> tr ⊆ tr' -> pos_ok old ttl c' tr'.
Proof.
  intros (Hwf & Httl & Hi) Hwf' Httl' Hsub Htr. split; [done|]. split; [by rewrite Httl'|].
  intros h i Hh. destruct (Hi h i) as [|(t & rec & Hin & Hv & He)]; [by eapply lookup_weaken|by left|].
  right. exists t, rec. by split; [apply Htr|].
Qed.

Lemma LRU_Get_sub {V} now k (c : LRUCache V) : lru_wf c ->
  lru_wf (LRU_Get now k c).2 /\ lc_ttl (LRU_Get now k c).2 = lc_ttl c /\ lc_items (LRU_Get now k c).2 ⊆ lc_items c.
Proof.
  intros Hwf. unfold LRU_Get. destruct (lc_items c !! k) as [i|] eqn:E; [|done].
  destruct (_ && _); simpl.
  - split; [by apply evictElement_wf|]. split; [done|]. apply delete_subseteq.
  - split; [|done]. apply move_to_front_wf; [done|by apply Hwf; eauto|done|apply Hwf].
Qed.

Lemma LRU_Remove_sub {V} k (c : LRUCache V) : lru_wf c ->
  lru_wf (LRU_Remove k c) /\ lc_ttl (LRU_Remove k c) = lc_ttl c /\ lc_items (LRU_Remove k c) ⊆ lc_items c /\
  lc_items (LRU_Remove k c) !! k = None.
Proof.
  intros Hwf. unfold LRU_Remove. destruct (lc_items c !! k) as [i|] eqn:E; [|done].
  split_and!; [by apply evictElement_wf|done|apply delete_subseteq|apply lookup_delete_eq].
Qed.

Lemma remove_where_sub {V} (p : string -> V -> bool) order : forall c n, lru_wf c ->
  let c' := (for_range order (c, n) (remove_step p)).1 in
  lru_wf c' /\ lc_ttl c' = lc_ttl c /\ lc_items c' ⊆ lc_items c.
Proof.
  unfold for_range. induction order as [|k order IH]; intros c n Hwf; simpl; [done|].
  unfold remove_step at 2 4 6. simpl. destruct (lc_items c !! k) as [i|]; [destruct (p k (li_val i))|]; try by apply IH.
  destruct (IH (evictElement c k) (n + 1) (evictElement_wf c k Hwf)) as (H1 & H2 & H3). split_and!; [done..|].
  etrans; [done|]. apply delete_subseteq.
Qed.

Lemma LRU_Purge_sub {V} (c : LRUCache V) : lru_wf c -> lru_wf (LRU_Purge c).
Proof.
  intros (Hc & _). unfold lru_wf; simpl. split_and!; [done|constructor| |done|lia].
  intros k. rewrite lookup_empty. split; [intros []%not_elem_of_nil|intros [? [=]]].
Qed.

Lemma pos_ok_set old ttl c tr t h rec : pos_ok old ttl c tr -> (t, h, rec) ∈ tr ->
  pos_ok old ttl (LRU_Set t h (principal_of rec) c) tr.
Proof.
  intros (Hwf & Httl & Hi) Hin. split; [by apply set_wf|]. split; [by rewrite (proj2 (set_config _ _ _ _))|].
  intros h' i Hh. destruct (set_lookup t h (principal_of rec) c Hwf h' i Hh) as [(-> & Hv & He)|Hold].
  - right. exists t, rec. rewrite <- Httl. done.
  - eauto.
Qed.

(** *** The steps of the handler *)

Lemma resolve_cached_ok old ttl now h m tr : pos_ok old ttl (mw_posCache m) tr ->
  pos_ok old ttl (mw_posCache (resolve_cached now h m).2) tr /\
  forall p, (resolve_cached now h m).1 = Some (Some p) -> (LRU_Get now h (mw_posCache m)).1 = Some p.
Proof.
  intros Hok. unfold resolve_cached. destruct (LRU_Get_sub now h (mw_posCache m) (proj1 Hok)) as (H1 & H2 & H3).
  destruct (LRU_Get now h (mw_posCache m)) as [[p|] pos]; [|destruct (LRU_Get now h (mw_negCache m)) as [[[]|] neg]]; simpl in *;
    (split; [by eapply pos_ok_sub|by intros ? [= ->]]).
Qed.

(** A cached answer is recorded and fresh. *)
Definition backed (old : string -> Prop) (ttl : Duration) (now : Time) (h : string) (p : Principal)
  (tr : list (Time * string * KeyRecord)) : Prop :=
  old h \/ exists t rec, (t, h, rec) ∈ tr /\ p = principal_of rec /\ (0 < ttl -> now <= t + ttl).

Lemma Get_backed old ttl now h c tr p : pos_ok old ttl c tr -> (LRU_Get now h c).1 = Some p -> backed old ttl now h p tr.
Proof.
  intros (Hwf & Httl & Hi). unfold LRU_Get. destruct (lc_items c !! h) as [i|] eqn:E; [|done].
  destruct (Hi h i E) as [|(t & rec & Hin & Hv & He)]; [by left|]. rewrite Httl, He. unfold expiry.
  destruct (Z.ltb_spec 0 ttl), (Z.ltb_spec (t + ttl) now); simpl; try done; intros [= <-]; right; exists t, rec; (split_and!; [done..|lia]).
Qed.

Lemma auth_resolve_ok old ttl key m (w : traced) : pos_ok old ttl (mw_posCache m) w.2 ->
  let '(r, m', w') := auth_resolve key m w in
  pos_ok old ttl (mw_posCache m') w'.2 /\ w.2 ⊆ w'.2 /\
  forall p, r = inr (Some p) -> backed old ttl (clock w') (HashKey key) p w'.2.
Proof.
  intros Hok. unfold auth_resolve. destruct (resolve_cached_ok old ttl (clock w) (HashKey key) m w.2 Hok) as [Hok1 Hc1].
  destruct (resolve_cached (clock w) (HashKey key) m) as [[r|] m1]; simpl in *.
  { split_and!; [done..|]. intros p [= ->]. by eapply Get_backed, Hc1. }
  destruct (resolve_cached_ok old ttl (clock w.1) (HashKey key) m1 w.2 Hok1) as [Hok2 Hc2].
  destruct (resolve_cached (clock w.1) (HashKey key) m1) as [[r|] m2]; simpl in *.
  { split_and!; [done..|]. intros p [= ->]. by eapply Get_backed, Hc2. }
  destruct (KeyByHash (HashKey key) w.1) as [w1 [[]|rec]]; simpl; rewrite ?app_nil_r; [by split_and!..|].
  assert (pos_ok old ttl (mw_posCache m2) (w.2 ++ [(clock w1, HashKey key, rec)])) as Hok3.
  { eapply pos_ok_sub; [exact Hok2|apply Hok2|done..|set_solver]. }
  split_and!; [apply pos_ok_set; [done|set_solver]|set_solver|].
  intros p [= <-]. right. exists (clock w1), rec. split_and!; [set_solver|done|lia].
Qed.

Lemma lim_Allow_pos now lim m : mw_posCache (lim_Allow now lim m).2 = mw_posCache m.
Proof. unfold lim_Allow. destruct (mw_heap m !! lim); [|done]. by destruct (limiter_allow now l). Qed.

Lemma fail_attempt_pos now lim m : mw_posCache (fail_attempt now lim m).1 = mw_posCache m /\
  exists e www, (fail_attempt now lim m).2 = Deny e www.
Proof.
  unfold fail_attempt. pose proof (lim_Allow_pos now lim m). destruct (lim_Allow now lim m) as [[] m']; simpl in *; eauto.
Qed.

Lemma getLimiter_pos now ip m : mw_posCache (getLimiter now ip m).2 = mw_posCache m.
Proof. unfold getLimiter. by destruct (LRU_Get now ip (mw_failedLimiters m)) as [[]]. Qed.

Lemma Handler_ok old ttl r m (w : traced) : pos_ok old ttl (mw_posCache m) w.2 ->
  let '(m', w', rep) := Handler r m w in
  pos_ok old ttl (mw_posCache m') w'.2 /\
  forall p, rep = Serve p -> has_prefix "pg_" (bearer r) = true /\ backed old ttl (clock w') (HashKey (bearer r)) p w'.2.
Proof.
  intros Hok. unfold Handler. destruct (_ || _) eqn:Ek.
  { pose proof (getLimiter_pos (clock w) (clientIP (mw_ClientIPFunc m) r) m) as Hg.
    destruct (getLimiter _ _ m) as [lim m1]; simpl in Hg. destruct (fail_attempt_pos (clock w) lim m1) as [Hf (e & www & He)].
    destruct (fail_attempt (clock w) lim m1) as [m2 rep]; simpl in *. rewrite Hf, Hg. split; [done|]. by intros p ->. }
  apply orb_false_iff in Ek as [_ Hpg%negb_false_iff].
  destruct (LRU_Get_sub (clock w) (HashKey (bearer r)) (mw_posCache m) (proj1 Hok)) as (H1 & H2 & H3).
  pose proof (fun p => Get_backed old ttl (clock w) (HashKey (bearer r)) (mw_posCache m) w.2 p Hok) as Hget.
  destruct (LRU_Get (clock w) (HashKey (bearer r)) (mw_posCache m)) as [[p|] pos]; simpl in *.
  { split; [by eapply pos_ok_sub|]. intros p' [= <-]. split; [done|]. by apply Hget. }
  set (m1 := set_caches m pos (mw_negCache m)).
  pose proof (getLimiter_pos (clock w.1) (clientIP (mw_ClientIPFunc m) r) m1) as Hg.
  destruct (getLimiter _ _ m1) as [lim m2]; simpl in Hg.
  assert (pos_ok old ttl (mw_posCache m2) w.2) as Hok2 by (rewrite Hg; by eapply pos_ok_sub).
  destruct (fltb _ _); [by split|].
  pose proof (auth_resolve_ok old ttl (bearer r) m2 w Hok2) as Hr.
  destruct (auth_resolve (bearer r) m2 w) as [[res m3] w3]. destruct Hr as (Hok3 & _ & Hp).
  destruct res as [e|[p|]]; [by split|split; [done|intros p' [= <-]; auto]|].
  destruct (fail_attempt_pos (clock w3) lim m3) as [Hf (e & www & He)].
  destruct (fail_attempt _ lim m3) as [m4 rep]; simpl in *. rewrite Hf. split; [done|]. by intros p ->.
Qed.

(** *** The steps of requests and lookups in flight *)

(** What a lookup gives to those who wait for it, and since when. *)
Definition found_by (f : flight) : option (Time * Principal) :=
  match fl_at f with FStored t (inr (Some p)) | FDone t (inr (Some p)) => Some (t, p) | _ => None end.

Definition shrinks (c c' : LRUCache Principal) : Prop := lru_wf c' /\ lc_ttl c' = lc_ttl c /\ lc_items c' ⊆ lc_items c.

Lemma shrinks_same c : lru_wf c -> shrinks c c.
Proof. intros Hwf. unfold shrinks. by split_and!. Qed.

Lemma Get_shrinks now k c x c' : lru_wf c -> LRU_Get now k c = (x, c') -> shrinks c c'.
Proof. intros Hwf E. pose proof (LRU_Get_sub now k c Hwf) as H. by rewrite E in H. Qed.

Lemma getLimiter_shrinks now ip m lim m' : lru_wf (mw_posCache m) -> getLimiter now ip m = (lim, m') -> shrinks (mw_posCache m) (mw_posCache m').
Proof. intros Hwf E. pose proof (getLimiter_pos now ip m) as H. rewrite E in H. cbn in H. rewrite H. by apply shrinks_same. Qed.

Lemma request_step_cases i fl (s s' : gate (W := W)) : request_step i fl s = Some s' -> lru_wf (mw_posCache (gs_mw s)) -> exists r a a',
  gs_reqs s !! i = Some (r, a) /\ gs_reqs s' = <[i := (r, a')]> (gs_reqs s) /\ gs_w s' = gs_w s /\ shrinks (mw_posCache (gs_mw s)) (mw_posCache (gs_mw s')) /\
  (gs_flights s' = gs_flights s \/ gs_flights s !! fl = None /\ gs_flights s' = <[fl := mkFlight (HashKey (bearer r)) FPos]> (gs_flights s)) /\
  match a' with
  | RqWait _ f => exists x, gs_flights s' !! f = Some x /\ is_open (HashKey (bearer r)) x = true
  | RqAnswered t None (Serve p) => (LRU_Get t (HashKey (bearer r)) (mw_posCache (gs_mw s))).1 = Some p
  | RqAnswered _ (Some f) (Serve p) => exists lim h t, a = RqWait lim f /\ gs_flights s !! f = Some (mkFlight h (FDone t (inr (Some p))))
  | _ => True
  end.
Proof.
  unfold request_step. destruct (gs_reqs s !! i) as [[r a]|] eqn:Ei; [|done]. intros Hs Hwf. pose proof (shrinks_same _ Hwf) as Hsame.
  destruct a as [| |lim|lim|lim|lim f|lim|].
  - destruct (_ || _).
    { destruct (getLimiter _ _ _) as [lim m] eqn:Eg. injection Hs as <-. exists r, RqArrived, (RqFail lim). split_and!; try done; [by eapply getLimiter_shrinks|by left]. }
    destruct (LRU_Get _ _ (mw_posCache _)) as [[p|] pos] eqn:Ep; injection Hs as <-; do 3 eexists; (split_and!; [done|reflexivity|done|by eapply Get_shrinks|by left|]); cbn; [by rewrite Ep|done].
  - destruct (getLimiter _ _ _) as [lim m] eqn:Eg. apply getLimiter_shrinks in Eg as Hm; [|done].
    destruct (fltb _ _); injection Hs as <-; do 3 eexists; (split_and!; [done|reflexivity|done|done|by left|done]).
  - destruct (LRU_Get _ _ (mw_posCache _)) as [[p|] pos] eqn:Ep; injection Hs as <-; do 3 eexists; (split_and!; [done|reflexivity|done|by eapply Get_shrinks|by left|]); cbn; [by rewrite Ep|done].
  - destruct (LRU_Get _ _ (mw_negCache _)) as [[[]|] neg]; injection Hs as <-; do 3 eexists; (split_and!; [done|reflexivity|done|done|by left|done]).
  - destruct (gs_flights s !! fl) as [f|] eqn:Ef.
    + destruct (is_open _ f) eqn:Eo; [|done]. injection Hs as <-. do 3 eexists. split_and!; [done|reflexivity|done|done|by left|]. by exists f.
    + destruct (in_flight _ s); [done|]. injection Hs as <-. do 3 eexists. split_and!; [done|reflexivity|done|done|by right|].
      eexists. split; [apply lookup_insert_eq|]. unfold is_open. cbn. by rewrite String.eqb_refl.
  - destruct (gs_flights s !! f) as [[h at']|] eqn:Ef; [|done]. destruct at' as [| | | | |t [e|[p|]]]; try done; injection Hs as <-;
      do 3 eexists; (split_and!; [done|reflexivity|done|done|by left|]); cbn; [done| |done]. by exists lim, h, t.
  - pose proof (fail_attempt_pos (clock (gs_w s)) lim (gs_mw s)) as [Hm (e & www & He)]. destruct (fail_attempt _ _ _) as [m rep]. cbn in Hm, He. injection Hs as <-.
    do 3 eexists. split_and!; [done|reflexivity|done|cbn; by rewrite Hm|by left|]. by rewrite He.
  - done.
Qed.

Lemma lookup_step_cases fl (s s' : gate (W := W)) : lookup_step fl s = Some s' -> lru_wf (mw_posCache (gs_mw s)) -> exists h a a',
  gs_flights s !! fl = Some (mkFlight h a) /\ gs_flights s' = <[fl := mkFlight h a']> (gs_flights s) /\ gs_reqs s' = gs_reqs s /\
  (forall x, found_by (mkFlight h a) = Some x -> found_by (mkFlight h a') = Some x) /\
  match a' with
  | FRead res => KeyByHash h (gs_w s) = (gs_w s', res) /\ shrinks (mw_posCache (gs_mw s)) (mw_posCache (gs_mw s'))
  | FStored t (inr (Some p)) => gs_w s' = gs_w s /\
      ((LRU_Get t h (mw_posCache (gs_mw s))).1 = Some p /\ shrinks (mw_posCache (gs_mw s)) (mw_posCache (gs_mw s')) \/
       exists rec, a = FRead (inr rec) /\ p = principal_of rec /\ mw_posCache (gs_mw s') = LRU_Set t h p (mw_posCache (gs_mw s)))
  | FDone t r => a = FStored t r /\ gs_w s' = gs_w s /\ shrinks (mw_posCache (gs_mw s)) (mw_posCache (gs_mw s'))
  | _ => gs_w s' = gs_w s /\ shrinks (mw_posCache (gs_mw s)) (mw_posCache (gs_mw s'))
  end.
Proof.
  unfold lookup_step. destruct (gs_flights s !! fl) as [[h a]|] eqn:Ef; [|done]. intros Hs Hwf. pose proof (shrinks_same _ Hwf) as Hsame. destruct a as [| | |res|t r|].
  - destruct (LRU_Get _ _ _) as [[p|] pos] eqn:Ep; injection Hs as <-; do 3 eexists; (split_and!; [done|reflexivity|done|done|]); cbn;
      (split; [done|]); [left; rewrite Ep; split; [done|]|]; by eapply Get_shrinks.
  - destruct (LRU_Get _ _ _) as [[[]|] neg]; injection Hs as <-; do 3 eexists; (split_and!; [done|reflexivity|done|done|by split]).
  - destruct (KeyByHash h _) as [w res] eqn:Ek; injection Hs as <-; do 3 eexists; (split_and!; [done|reflexivity|done|done|by split]).
  - destruct res as [[]|rec]; cbn in Hs; injection Hs as <-; do 3 eexists; (split_and!; [done|reflexivity|done|done|]); [by split..|]. split; [done|]. right. by exists rec.
  - injection Hs as <-; do 3 eexists; (split_and!; [done|reflexivity|done|by destruct r as [|[]]|by split_and!]).
  - done.
Qed.

(** A request waits for a lookup of its own key. *)
Record gate_ok (ttl : Duration) (s : gate (W := W)) : Prop := {
  go_lru : lru_wf (mw_posCache (gs_mw s)) /\ lc_ttl (mw_posCache (gs_mw s)) = ttl;
  go_waits : forall i r lim fl, gs_reqs s !! i = Some (r, RqWait lim fl) -> exists f, gs_flights s !! fl = Some f /\ fl_hash f = HashKey (bearer r) }.

Lemma EvictKey_shrinks k m : lru_wf (mw_posCache m) -> shrinks (mw_posCache m) (mw_posCache (EvictKey k m)).
Proof.
  intros Hwf. destruct (LRU_Remove_sub k (mw_posCache m) Hwf) as (A1 & A2 & A3 & _).
  unfold EvictKey. destruct (hex_decode k) as [b|]; cbn; [|done]. destruct (LRU_Remove_sub b _ A1) as (B1 & B2 & B3 & _). split_and!; [done|by rewrite B2|by etrans].
Qed.

Lemma EvictTenant_shrinks t order m : lru_wf (mw_posCache m) -> shrinks (mw_posCache m) (mw_posCache (EvictTenant t order m).2).
Proof.
  intros Hwf. unfold EvictTenant. destruct (String.eqb _ _); [by apply shrinks_same|]. unfold LRU_RemoveWhere.
  pose proof (remove_where_sub (fun _ p => String.eqb (TenantID p) t) order (mw_posCache m) 0 Hwf) as H. by destruct (for_range _ _ _).
Qed.

Lemma Purge_shrinks m : lru_wf (mw_posCache m) -> shrinks (mw_posCache m) (mw_posCache (Middleware_Purge m)).
Proof. intros Hwf. split_and!; [by apply LRU_Purge_sub|done|apply map_empty_subseteq]. Qed.

Lemma gate_ok_request ttl s s' i (r : Request) a' : gate_ok ttl s -> shrinks (mw_posCache (gs_mw s)) (mw_posCache (gs_mw s')) ->
  gs_reqs s' = <[i := (r, a')]> (gs_reqs s) -> gs_flights s ⊆ gs_flights s' ->
  (forall lim f, a' = RqWait lim f -> exists x, gs_flights s' !! f = Some x /\ is_open (HashKey (bearer r)) x = true) -> gate_ok ttl s'.
Proof.
  intros [[H1 H2] Hw] (A1 & A2 & _) Er Ef Ha. split; [by rewrite A2|]. rewrite Er. intros j q lim f. rewrite lookup_insert_Some. intros [[<- [= <- ->]]|[_ Hj]].
  - destruct (Ha lim f eq_refl) as (x & Hx & Ho). exists x. split; [done|]. unfold is_open in Ho. apply andb_true_iff in Ho as [Ho _]. by apply String.eqb_eq in Ho.
  - destruct (Hw _ _ _ _ Hj) as (x & Hx & Hh). exists x. split; [|done]. by eapply lookup_weaken.
Qed.

Lemma gate_ok_same ttl s s' : gate_ok ttl s -> shrinks (mw_posCache (gs_mw s)) (mw_posCache (gs_mw s')) ->
  gs_reqs s' = gs_reqs s -> gs_flights s' = gs_flights s -> gate_ok ttl s'.
Proof. intros [[H1 H2] Hw] (A1 & A2 & _) Er Ef. split; [by rewrite A2|]. rewrite Er, Ef. exact Hw. Qed.

Lemma gate_step_ok ws ttl s s' : gate_ok ttl s -> gate_step ws s s' -> gate_ok ttl s'.
Proof.
  intros Hok Hs. pose proof (proj1 (go_lru _ _ Hok)) as Hwf.
  destruct Hs as [i r s Hi|i fl s s' Hs|fl s s' Hs|k s|t order s|s|q b s|w s Hw].
  - apply (gate_ok_request _ _ _ i r RqArrived Hok); [by apply shrinks_same|done..].
  - destruct (request_step_cases i fl s s' Hs Hwf) as (r & a & a' & Hr & Er & _ & Hsh & Ef & Ha).
    apply (gate_ok_request _ _ _ i r a' Hok Hsh Er); [destruct Ef as [->|[Hn ->]]; [done|by apply insert_subseteq]|]. by intros lim f ->.
  - destruct (lookup_step_cases fl s s' Hs Hwf) as (h & a & a' & Hf & Ef & Er & _ & Ha). destruct Hok as [[H1 H2] Hw]. split.
    + assert (shrinks (mw_posCache (gs_mw s)) (mw_posCache (gs_mw s')) -> lru_wf (mw_posCache (gs_mw s')) /\ lc_ttl (mw_posCache (gs_mw s')) = ttl) as Hsh
        by (intros (A1 & A2 & _); split; [done|by rewrite A2]).
      destruct a' as [| | |res|t [e|[p|]]|t x]; try (by apply Hsh, Ha). destruct Ha as [_ [[_ Ha]|(rec & _ & _ & ->)]]; [by apply Hsh|].
      split; [by apply set_wf|by rewrite (proj2 (set_config _ _ _ _))].
    + rewrite Er, Ef. intros i r lim f Hi. destruct (Hw _ _ _ _ Hi) as (x & Hx & Hh). destruct (decide (f = fl)) as [->|Hn].
      * exists (mkFlight h a'). rewrite lookup_insert_eq. split; [done|]. rewrite Hx in Hf. by injection Hf as ->.
      * exists x. by rewrite lookup_insert_ne.
  - eapply gate_ok_same; [done|by apply EvictKey_shrinks|done..].
  - eapply gate_ok_same; [done|by apply EvictTenant_shrinks|done..].
  - eapply gate_ok_same; [done|by apply Purge_shrinks|done..].
  - eapply gate_ok_same; [done|by apply shrinks_same|done..].
  - eapply gate_ok_same; [done|by apply shrinks_same|done..].
Qed.

Lemma auth_step_ok old ttl s s' : pos_ok old ttl (mw_posCache s.1) s.2.2 -> auth_step s s' -> pos_ok old ttl (mw_posCache s'.1) s'.2.2.
Proof.
  intros Hok Hs. destruct Hs as [r m w m' w' rep Hh|k m w|t order m w|m w|r b m w|m w w' tr Hc]; simpl in *.
  - pose proof (Handler_ok old ttl r m w Hok) as Hx. rewrite Hh in Hx. apply Hx.
  - destruct (LRU_Remove_sub k (mw_posCache m) (proj1 Hok)) as (A1 & A2 & A3 & _).
    unfold EvictKey. destruct (hex_decode k) as [b|]; simpl; [|by eapply pos_ok_sub].
    destruct (LRU_Remove_sub b _ A1) as (B1 & B2 & B3 & _).
    eapply pos_ok_sub; [exact Hok|done|by rewrite B2|by etrans|done].
  - unfold EvictTenant. destruct (String.eqb _ _); [done|]. unfold LRU_RemoveWhere.
    pose proof (remove_where_sub (fun _ p => String.eqb (TenantID p) t) order (mw_posCache m) 0 (proj1 Hok)) as (A1 & A2 & A3).
    destruct (for_range _ _ _) as [pos n]; simpl in *. by eapply pos_ok_sub.
  - destruct Hok as (Hwf & Httl & Hi). split; [by apply LRU_Purge_sub|]. split; [done|]. intros h i. simpl. by rewrite lookup_empty.
  - done.
  - done.
Qed.
End Middleware.

(** ** Theorems *)

Section Theorems.
Context {L : Type} (new_limiter : spec_float -> Z -> L)
  (limiter_allow : Time -> L -> bool * L) (limiter_tokens : Time -> L -> spec_float)
  (sha256 : string -> string) {W : Type} `{KL : KeyLookup W}.

Abbreviation traced := (W * list (Time * string * KeyRecord))%type.
Abbreviation step := (auth_step new_limiter limiter_allow limiter_tokens sha256 (W := W)).
Abbreviation handle := (Handler new_limiter limiter_allow limiter_tokens sha256 (W := traced)).

Lemma served_after (m0 m m' : Middleware (L := L)) (w0 : W) (w w' : traced) r p :
  lru_wf (mw_posCache m0) -> lc_items (mw_posCache m0) !! HashKey sha256 (bearer r) = None ->
  reachable step (m0, (w0, [])) (m, w) -> handle r m w = (m', w', Serve p) ->
  has_prefix "pg_" (bearer r) = true /\
  exists t rec, (t, HashKey sha256 (bearer r), rec) ∈ w'.2 /\ p = principal_of rec /\
    (0 < lc_ttl (mw_posCache m0) -> clock w' <= t + lc_ttl (mw_posCache m0)).
Proof.
  intros Hwf Hnone Hr Hh.
  set (old := fun h => is_Some (lc_items (mw_posCache m0) !! h)).
  assert (pos_ok old (lc_ttl (mw_posCache m0)) (mw_posCache m) w.2) as Hok.
  { apply (reachable_invariant step (fun s => pos_ok old (lc_ttl (mw_posCache m0)) (mw_posCache s.1) s.2.2)
      (m0, (w0, [])) (m, w)); [|intros s s' Hs Hst; eapply auth_step_ok; [exact Hs|exact Hst]|done].
    split; [done|]. split; [done|]. intros h i Hi. left. by exists i. }
  pose proof (Handler_ok new_limiter limiter_allow limiter_tokens sha256 old _ r m w Hok) as H.
  rewrite Hh in H. destruct H as [_ H]. destruct (H p eq_refl) as [Hpg [Hold|Hb]]; [|done].
  unfold old in Hold. rewrite Hnone in Hold. by destruct Hold.
Qed.

(** C7. Authentication is sound: whatever requests, evictions and policy changes
    came before, a request is served as [p] only if its key has the form of a
    key and the key store returned [p]'s record for the key's hash at most [ttl]
    ago, during this run of the gateway. *)
Theorem auth_sound (rate_every : Duration -> spec_float) (ttl negTTL : Duration) (maxEntries : Z)
  (m m' : Middleware) (w0 : W) (w w' : traced) (r : Request) (p : Principal)
  (Hrun : reachable step (NewMiddlewareWithConfig rate_every ttl negTTL maxEntries, (w0, [])) (m, w))
  (Hserve : handle r m w = (m', w', Serve p)) :
  has_prefix "pg_" (bearer r) = true /\
  exists t rec, (t, HashKey sha256 (bearer r), rec) ∈ w'.2 /\ p = principal_of rec /\ (0 < ttl -> clock w' <= t + ttl).
Proof.
  refine (served_after _ _ _ _ _ _ _ _ _ _ Hrun Hserve); [apply NewLRU_wf|apply lookup_empty].
Qed.

(** Revocation is effective: once a key's hash is evicted, no later request
    with that key is served, whatever else happens, unless the key store itself
    returns the key again. *)
Theorem eviction_revokes (m0 m m' : Middleware) (w0 : W) (w w' : traced) (key : string) (r : Request) (rep : reply)
  (Hwf : lru_wf (mw_posCache m0)) (Hkey : bearer r = key)
  (Hrun : reachable step (EvictKey (hex_encode (HashKey sha256 key)) m0, (w0, [])) (m, w))
  (Hdone : handle r m w = (m', w', rep))
  (Hgone : forall t rec, (t, HashKey sha256 key, rec) ∉ w'.2) :
  exists e www, rep = Deny e www.
Proof.
  destruct rep as [p|e www]; [exfalso|by eauto]. subst key.
  destruct (LRU_Remove_sub (hex_encode (HashKey sha256 (bearer r))) (mw_posCache m0) Hwf) as (A1 & A2 & A3 & _).
  destruct (LRU_Remove_sub (HashKey sha256 (bearer r)) _ A1) as (B1 & B2 & B3 & B4).
  assert (mw_posCache (EvictKey (hex_encode (HashKey sha256 (bearer r))) m0) =
    LRU_Remove (HashKey sha256 (bearer r)) (LRU_Remove (hex_encode (HashKey sha256 (bearer r))) (mw_posCache m0))) as E
    by (unfold EvictKey; by rewrite hex_roundtrip).
  rewrite <- E in B1, B4.
  destruct (served_after _ m m' w0 w w' r p B1 B4 Hrun Hdone) as (_ & t & rec & Hin & _).
  by apply (Hgone t rec).
Qed.

(** Erasing a tenant leaves no cached principal of it, and every other cached
    key as it was, whatever the order in which the cache is visited. *)
Theorem tenant_eviction_complete (m : Middleware (L := L)) (tenantID : string) (order : list string) (h : string)
  (Hname : trim_space tenantID <> "") (Hwf : lru_wf (mw_posCache m))
  (Horder : order ≡ₚ elements (dom (lc_items (mw_posCache m)) : gset string)) :
  lc_items (mw_posCache (EvictTenant tenantID order m).2) !! h =
    match lc_items (mw_posCache m) !! h with
    | Some i => if decide (TenantID (li_val i) = tenantID) then None else Some i
    | None => None
    end.
Proof.
  unfold EvictTenant. apply String.eqb_neq in Hname. rewrite Hname. unfold LRU_RemoveWhere.
  pose proof (remove_where_lookup (fun _ p => String.eqb (TenantID p) tenantID) order (mw_posCache m) 0 h) as Hl.
  destruct (for_range _ _ _) as [pos n]. cbn [fst snd set_caches mw_posCache] in *. rewrite Hl by (rewrite Horder; apply NoDup_elements).
  destruct (lc_items (mw_posCache m) !! h) as [i|] eqn:E; [|done].
  rewrite bool_decide_eq_true_2.
  - cbn [andb]. destruct (String.eqb_spec (TenantID (li_val i)) tenantID); [by rewrite decide_True|by rewrite decide_False].
  - rewrite Horder, elem_of_elements. by apply (elem_of_dom_2 (D := gset string)) in E.
Qed.

(** A lookup that was in flight when its key was evicted stores the principal
    afterwards: the next request with the revoked key is served from the cache,
    for up to [ttl]. *)
Lemma eviction_lost_to_inflight_lookup (m : Middleware (L := L)) (w : W) (key : string) (r : Request) (rec : KeyRecord)
  (Hwf : lru_wf (mw_posCache m)) (Hkey : bearer r = key) (Hform : has_prefix "pg_" key = true)
  (Httl : 0 <= lc_ttl (mw_posCache m)) :
  let h := HashKey sha256 key in
  let m1 := (resolve_store (clock w) h (inr rec) (EvictKey (hex_encode h) m)).2 in
  (Handler new_limiter limiter_allow limiter_tokens sha256 r m1 w).2 = Serve (principal_of rec).
Proof.
  intros h m1. unfold Handler. rewrite Hkey, Hform.
  destruct (String.eqb_spec key "") as [->|]; [done|]. simpl. fold h.
  assert (lru_wf (mw_posCache (EvictKey (hex_encode h) m))) as Hwf1.
  { unfold EvictKey. rewrite hex_roundtrip. by apply LRU_Remove_sub, LRU_Remove_sub. }
  assert (lc_ttl (mw_posCache (EvictKey (hex_encode h) m)) = lc_ttl (mw_posCache m)) as Httl'.
  { unfold EvictKey. rewrite hex_roundtrip. simpl.
    destruct (LRU_Remove_sub (hex_encode h) _ Hwf) as (A1 & A2 & _).
    destruct (LRU_Remove_sub h _ A1) as (_ & B2 & _). by rewrite B2. }
  destruct (set_kept ∅ h (principal_of rec) (clock w) (mw_posCache (EvictKey (hex_encode h) m)) Hwf1)
    as (_ & _ & _ & _ & _ & _ & i & Hi & Hv & He).
  { rewrite size_empty. destruct Hwf1 as (Hc & _). lia. }
  unfold LRU_Get. cbn [resolve_store snd] in m1. unfold m1. cbn [mw_posCache set_caches].
  rewrite Hi, He, Hv, (proj2 (set_config _ _ _ _)), Httl'. unfold expiry.
  destruct (Z.ltb_spec 0 (lc_ttl (mw_posCache m))); simpl; [|done].
  destruct (Z.ltb_spec (clock w + lc_ttl (mw_posCache m)) (clock w)); [lia|done].
Qed.
End Theorems.

(** ** Witnesses *)

(** Limiters that never refuse, an identity hash, and a key store that is an
    association list with a clock. *)
Definition demo_policy : Principal := mkPrincipal "t1" "Tenant" "k1" "Key" [] false no_limits no_key_policy.
Definition demo_record : KeyRecord := mkKeyRecord (mkAPIKey "k1" "Key" [] no_key_policy) (mkStoreTenant "t1" "Tenant" no_limits).
Definition demo_store : Type := Time * list (string * KeyRecord).
#[export] Instance demo_lookup : KeyLookup demo_store := {
  clock w := w.1;
  KeyByHash h w := (w, match find (fun kv => String.eqb kv.1 h) w.2 with Some kv => inr kv.2 | None => inl ErrNotFound end)
}.
Definition demo_request : Request := mkRequest "10.0.0.1:4000" {["Authorization" := "Bearer pg_live_1"]}.
Definition demo_handler := Handler (L := Z) (W := demo_store * list (Time * string * KeyRecord)) (fun _ b => b) (fun _ l => (0 <? l, l - 1)) (fun _ l => f_of_Z l) (fun s => s).
Definition demo_fresh : Middleware (L := Z) := NewMiddlewareWithConfig (fun d => f_of_Z d) 60 10 100.
Definition demo_world : demo_store * list (Time * string * KeyRecord) := ((5, [("pg_live_1", demo_record)]), []).

Lemma auth_sound_witness :
  has_prefix "pg_" (bearer demo_request) = true /\
  exists t rec, (t, HashKey (fun s => s) (bearer demo_request), rec) ∈ (demo_handler demo_request demo_fresh demo_world).1.2.2 /\
    demo_policy = principal_of rec /\ (0 < 60 -> clock (demo_handler demo_request demo_fresh demo_world).1.2 <= t + 60).
Proof.
  apply (auth_sound (fun _ b => b) (fun _ l => (0 <? l, l - 1)) (fun _ l => f_of_Z l) (fun s => s) (fun d => f_of_Z d) 60 10 100
    demo_fresh (demo_handler demo_request demo_fresh demo_world).1.1 (5, [("pg_live_1", demo_record)]) demo_world
    (demo_handler demo_request demo_fresh demo_world).1.2 demo_request demo_policy); [apply reach_refl|vm_compute; reflexivity].
Defined.

Lemma eviction_revokes_witness :
  let m0 := (demo_handler demo_request demo_fresh demo_world).1.1 in
  let gone : demo_store * list (Time * string * KeyRecord) := ((6, []), []) in
  exists e www, (demo_handler demo_request (EvictKey (hex_encode "pg_live_1") m0) gone).2 = Deny e www.
Proof.
  intros m0 gone.
  apply (eviction_revokes (fun _ b => b) (fun _ l => (0 <? l, l - 1)) (fun _ l => f_of_Z l) (fun s => s) m0
    (EvictKey (hex_encode "pg_live_1") m0) (demo_handler demo_request (EvictKey (hex_encode "pg_live_1") m0) gone).1.1
    (6, []) gone (demo_handler demo_request (EvictKey (hex_encode "pg_live_1") m0) gone).1.2 "pg_live_1" demo_request).
  - apply lru_wfb_sound. vm_compute. reflexivity.
  - reflexivity.
  - apply reach_refl.
  - vm_compute. reflexivity.
  - vm_compute. intros t rec H. inversion H.
Defined.

Lemma tenant_eviction_complete_witness :
  lc_items (mw_posCache (EvictTenant "t1" ["pg_live_1"] (demo_handler demo_request demo_fresh demo_world).1.1).2) !! "pg_live_1" = None.
Proof.
  rewrite (tenant_eviction_complete (demo_handler demo_request demo_fresh demo_world).1.1 "t1" ["pg_live_1"] "pg_live_1").
  - vm_compute. reflexivity.
  - discriminate.
  - apply lru_wfb_sound. vm_compute. reflexivity.
  - vm_compute. reflexivity.
Defined.
