(* ===== verification/Pipeline.v ===== *)
(** * The stage pipeline (src/internal/pipeline/pipeline.go)

    A chat call is a record the stages transform; a stage is a record of its
    hooks over a world [W] (the stores, clocks and clients its stage talks to).
    [Call.ran], which only package pipeline can see, is kept beside the call. *)

From S2P Require Import Prelude GoStrings GoFloat Breaker Config Api CacheKeys Execute Route Policy.

Open Scope string_scope.
Open Scope list_scope.
Open Scope Z_scope.

(** ** The call *)

(** The dynamic values stages leave in [Call.Values].  A closure is the data it
    captures. *)
Inductive any :=
| AInt (n : Z)
| AInt64 (n : Z)
| AString (s : string)
| ABool (b : bool)
| AFloat (f : spec_float)
| AMap (m : list (string * string))
| AFilter (m : list (string * string))
| ACache (st : State).

Record Call := mkCall {
  cl_ID : string;
  cl_Start : Time;
  cl_Principal : Principal;
  cl_Request : ChatRequest;
  cl_Route : option Route;
  cl_Stream : bool;
  cl_Response : option ChatResponse;
  cl_ClientResponse : option ChatResponse;
  cl_Target : Target;
  cl_Attempts : Z;
  cl_Usage : Usage;
  cl_CostMicros : Z;
  cl_HedgeCostMicros : Z;
  cl_CacheStatus : string;
  cl_Err : option go_error;
  cl_Internal : bool;
  cl_Header : gmap string string;
  cl_Incoming : gmap string string;
  cl_Values : gmap string any
}.

Definition NewCall (id : string) (now : Time) (p : Principal) (req : ChatRequest) (rt : option Route) : Call :=
  mkCall id now p req rt (r_Stream req) None None (mkTarget "" "") 0 zero_usage 0 0 "miss" None false ∅ ∅ ∅.

Definition set_Err (c : Call) (e : option go_error) : Call :=
  mkCall (cl_ID c) (cl_Start c) (cl_Principal c) (cl_Request c) (cl_Route c) (cl_Stream c) (cl_Response c)
    (cl_ClientResponse c) (cl_Target c) (cl_Attempts c) (cl_Usage c) (cl_CostMicros c) (cl_HedgeCostMicros c)
    (cl_CacheStatus c) e (cl_Internal c) (cl_Header c) (cl_Incoming c) (cl_Values c).

Definition set_Value (c : Call) (k : string) (v : any) : Call :=
  mkCall (cl_ID c) (cl_Start c) (cl_Principal c) (cl_Request c) (cl_Route c) (cl_Stream c) (cl_Response c)
    (cl_ClientResponse c) (cl_Target c) (cl_Attempts c) (cl_Usage c) (cl_CostMicros c) (cl_HedgeCostMicros c)
    (cl_CacheStatus c) (cl_Err c) (cl_Internal c) (cl_Header c) (cl_Incoming c) (<[k := v]> (cl_Values c)).

Definition set_Header (c : Call) (k v : string) : Call :=
  mkCall (cl_ID c) (cl_Start c) (cl_Principal c) (cl_Request c) (cl_Route c) (cl_Stream c) (cl_Response c)
    (cl_ClientResponse c) (cl_Target c) (cl_Attempts c) (cl_Usage c) (cl_CostMicros c) (cl_HedgeCostMicros c)
    (cl_CacheStatus c) (cl_Err c) (cl_Internal c) (header_set (cl_Header c) k v) (cl_Incoming c) (cl_Values c).

Definition set_Request (c : Call) (r : ChatRequest) : Call :=
  mkCall (cl_ID c) (cl_Start c) (cl_Principal c) r (cl_Route c) (cl_Stream c) (cl_Response c)
    (cl_ClientResponse c) (cl_Target c) (cl_Attempts c) (cl_Usage c) (cl_CostMicros c) (cl_HedgeCostMicros c)
    (cl_CacheStatus c) (cl_Err c) (cl_Internal c) (cl_Header c) (cl_Incoming c) (cl_Values c).

(** ** Stages *)

(** The result of [Before]: handled, or an error. *)
Record Stage (W : Type) := mkStage {
  st_Name : string;
  st_Before : W -> Call -> W * Call * (bool * option go_error);
  st_After : W -> Call -> W * Call;
  st_Respond : option (W -> Call -> W * Call)     (* [Responder], if implemented *)
}.
Arguments mkStage {W}.
Arguments st_Name {W}.
Arguments st_Before {W}.
Arguments st_After {W}.
Arguments st_Respond {W}.

Section Pipeline.
Context {W : Type}.

Record Pipeline := mkPipeline { stages : list (Stage W) }.

Definition Pipeline_New (ss : list (Stage W)) : Pipeline := mkPipeline ss.
Definition Names (p : Pipeline) : list string := map st_Name (stages p).

(** The call with its private counter. *)
Definition running : Type := Call * nat.

Fixpoint before_stages (ss : list (Stage W)) (w : W) (r : running) : W * running * (bool * option go_error) :=
  match ss with
  | [] => (w, r, (false, None))
  | s :: ss' =>
      let '(w, c, (handled, err)) := st_Before s w r.1 in
      let ran := S r.2 in
      match err with
      | Some e => (w, (set_Err c (Some e), ran), (false, Some e))
      | None => if handled then (w, (c, ran), (true, None)) else before_stages ss' w (c, ran)
      end
  end.

Definition Pipeline_Before (p : Pipeline) (w : W) (r : running) := before_stages (stages p) w r.

Definition Pipeline_Respond (p : option Pipeline) (w : W) (c : Call) : W * Call :=
  match p with
  | None => (w, c)
  | Some p =>
      for_range (rev (stages p)) (w, c) (fun '(w, c) s =>
        match st_Respond s with Some f => f w c | None => (w, c) end)
  end.

(** [After]: [for i := c.ran - 1; i >= 0; i--]; an index past the stages panics
    ([None]), which a call started by one [Before] cannot reach. *)
Fixpoint after_from (p : Pipeline) (i : nat) (w : W) (c : Call) : option (W * Call) :=
  match i with
  | O => Some (w, c)
  | S i' =>
      match stages p !! i' with
      | None => None
      | Some s => let '(w, c) := st_After s w c in after_from p i' w c
      end
  end.

Definition Pipeline_After (p : Pipeline) (w : W) (r : running) : option (W * Call) := after_from p r.2 w r.1.

(** ** Which hooks run

    [observed s] is [s] with its hooks recorded in a trace beside the world. *)
Inductive hook := HBefore (i : nat) | HAfter (i : nat).

End Pipeline.
Arguments Pipeline : clear implicits.
Abbreviation trace := (list hook) (only parsing).

Section Traced.
Context {W : Type}.

Definition observed (i : nat) (s : Stage W) : Stage (W * trace) :=
  mkStage (st_Name s)
    (fun w c => let '(w', c', r) := st_Before s w.1 c in ((w', w.2 ++ [HBefore i]), c', r))
    (fun w c => let '(w', c') := st_After s w.1 c in ((w', w.2 ++ [HAfter i]), c'))
    (option_map (fun f (w : W * trace) c => let '(w', c') := f w.1 c in ((w', w.2), c')) (st_Respond s)).

Definition observed_pipeline (p : Pipeline W) : Pipeline (W * trace) :=
  mkPipeline (imap observed (stages p)).

Lemma before_stages_trace (ss : list (Stage W)) k w c :
  let '(w', r', res) := before_stages (imap (fun i => observed (k + i)) ss) w (c, k) in
  exists n, (n <= length ss)%nat /\ r'.2 = (k + n)%nat /\ w'.2 = w.2 ++ map HBefore (seq k n) /\
    (res = (false, None) -> n = length ss) /\ (res <> (false, None) -> 1 <= n)%nat.
Proof.
  revert k w c. induction ss as [|s ss IH]; intros k w c; simpl.
  - exists O. rewrite app_nil_r. repeat split; auto; try lia; congruence.
  - rewrite Nat.add_0_r. simpl.
    match goal with |- context [st_Before s ?a ?b] => destruct (st_Before s a b) as [[w1 c1] [h e]] end. simpl.
    destruct e as [e|]; [|destruct h].
    1, 2: exists 1%nat; simpl; repeat split; try lia; congruence.
    rewrite (imap_ext _ (fun i => observed (S k + i))) by (intros; unfold compose; by rewrite Nat.add_succ_r).
    specialize (IH (S k) (w1, w.2 ++ [HBefore k]) c1).
    destruct (before_stages _ _ _) as [[w' r'] res].
    destruct IH as (n & Hn & Hr & Hw & Hres). exists (S n). simpl in *.
    destruct Hres. split_and!; [lia|lia| |by intros; f_equal; auto|lia].
    rewrite Hw, <- app_assoc. done.
Qed.

Lemma after_from_trace (p : Pipeline W) n w c :
  (n <= length (stages p))%nat ->
  exists w' c', after_from (observed_pipeline p) n w c = Some (w', c') /\
    w'.2 = w.2 ++ map HAfter (rev (seq 0 n)).
Proof.
  revert w c. induction n as [|n IH]; intros w c Hn; simpl.
  - exists w, c. by rewrite app_nil_r.
  - destruct (lookup_lt_is_Some_2 (stages p) n Hn) as [s Hs].
    rewrite list_lookup_imap, Hs. simpl.
    match goal with |- context [st_After s ?a ?b] => destruct (st_After s a b) as [w1 c1] end.
    destruct (IH (w1, w.2 ++ [HAfter n]) c1) as (w' & c' & -> & Hw); [lia|].
    exists w', c'. split; [done|]. rewrite Hw.
    change (rev (seq 1 n) ++ [O]) with (rev (seq 0 (S n))).
    rewrite seq_S, rev_unit. simpl. by rewrite <- app_assoc.
Qed.

Lemma before_stages_err {W' : Type} (ss : list (Stage W')) w r :
  let '(w', r', (h, e)) := before_stages ss w r in
  (is_Some e -> h = false /\ cl_Err r'.1 = e).
Proof.
  revert w r. induction ss as [|s ss IH]; intros w r; simpl; [by intros []|].
  destruct (st_Before s w r.1) as [[w1 c1] [h e]]. destruct e as [e|]; [done|].
  destruct h; [by intros []|]. apply IH.
Qed.

(** The pipeline unwinds exactly what it entered: [Before] runs the hooks of
    the first stages in order up to the one that answers or fails (all of them
    when it lets the call through, at least one otherwise), [After] then runs
    without a panic the hooks of the same stages, the answering or failing one
    included, in the opposite order, and the error a stage returns is the one
    recorded in the call. *)
Theorem After_unwinds_Before (p : Pipeline W) (w : W) (c : Call) :
  let '(w1, r1, (handled, err)) := Pipeline_Before (observed_pipeline p) (w, []) (c, O) in
  exists n w2 c2,
    Pipeline_After (observed_pipeline p) w1 r1 = Some (w2, c2) /\
    w2.2 = map HBefore (seq 0 n) ++ map HAfter (rev (seq 0 n)) /\
    (n <= length (stages p))%nat /\
    (if handled || bool_decide (is_Some err) then 1 <= n else n = length (stages p))%nat /\
    (is_Some err -> handled = false /\ cl_Err r1.1 = err).
Proof.
  pose proof (before_stages_trace (stages p) 0 (w, []) c) as Ht. simpl in Ht.
  pose proof (before_stages_err (stages (observed_pipeline p)) (w, []) (c, O)) as He.
  unfold Pipeline_Before, observed_pipeline in *. simpl in *.
  destruct (before_stages _ _ _) as [[w1 [c1 ran]] [h e]].
  destruct Ht as (n & Hn & Hr & Hw & Hres). simpl in *. subst ran.
  destruct (after_from_trace p n w1 c1 Hn) as (w2 & c2 & Ha & Hw2).
  exists n, w2, c2. rewrite Hw2, Hw. repeat split; try done; try (by apply He).
  destruct Hres as [Hpass Hstop]. destruct h, e; simpl; try (by apply Hstop); by apply Hpass.
Qed.
End Traced.
