(* ===== verification/Cache.v ===== *)
(** * The response cache stage (src/internal/cache/stage.go, exact.go, embedder.go)

    [Before] tries the exact and the semantic store, [After] hands a finished
    answer to a background writer, of which at most 64 run at a time.  Stored
    entries are kept as records (their JSON form is not modelled, its length is a
    parameter).  The vector index behind [SemanticStore] and the embedding
    provider are interfaces. *)

From S2P Require Import Prelude GoStrings GoFloat Breaker Config Api CacheKeys Execute Route Policy Pipeline.

Open Scope string_scope.
Open Scope list_scope.
Open Scope Z_scope.

(** ** Interfaces *)

Class ExactStore (W : Type) := {
  Exact_Get : string -> W -> W * (go_error + option Entry);
  Exact_Put : string -> string -> Entry -> Duration -> W -> W * option go_error
}.

Class SemanticStore (W : Type) := {
  Sem_Put : string -> string -> string -> list Z -> Entry -> Duration -> W -> W * (go_error + string);
  Nearest : string -> string -> list Z -> W -> W * (go_error + option Match)
}.

Class CacheEmbedder (W : Type) := { Cache_Embed : string -> string -> string -> W -> W * (go_error + list Z) }.

Record ShadowRecord := mkShadowRecord {
  sh_ID : string; sh_TS : Time; sh_TenantID : string; sh_Route : string; sh_Threshold : spec_float;
  sh_Similarity : spec_float; sh_Query : string; sh_CandidateQuery : string; sh_CandidateAnswer : string;
  sh_ActualAnswer : string; sh_CandidateSource : string
}.

(** The callbacks, the clock and the identifiers. *)
Class CacheHooks (W : Type) := {
  cache_now : W -> Time;
  new_uuid : W -> W * string;
  onErr : string -> W -> W;
  onDrop : W -> W;
  onShadow : ShadowRecord -> W -> W
}.

(** ** The stage *)

Definition StateKey : string := "cache.state".

(** Which of the drivers are present, and the consent switch. *)
Record CacheStage := mkCacheStage { st_exact : bool; st_sem : bool; st_emb : bool; st_consent : bool }.

Definition unix_seconds (t : Time) : Z := t / second - 62135596800.

(** [r := *e.Response] with the call's own id and time; [None] is the panic on a
    nil response. *)
Definition hit (now : Time) (c : Call) (e : Entry) (status : string) (sim : spec_float) : option Call :=
  match en_Response e with
  | None => None
  | Some r =>
      let r := mkChatResponse ("chatcmpl-" +:+ cl_ID c) (cr_Object r) (unix_seconds now) (cr_Model r) (cr_Choices r) (cr_Usage r) in
      let c := mkCall (cl_ID c) (cl_Start c) (cl_Principal c) (cl_Request c) (cl_Route c) (cl_Stream c) (Some r)
        (cl_ClientResponse c) (cl_Target c) (cl_Attempts c) zero_usage 0 (cl_HedgeCostMicros c) status (cl_Err c)
        (cl_Internal c) (cl_Header c) (cl_Incoming c) (cl_Values c) in
      let c := set_Header (set_Value c "cache.saved_micros" (AInt64 (en_CostMicros e)))
        "X-ProofGate-Cache-Source" (en_SourceRequestID e) in
      Some (if String.eqb status "hit-semantic"
            then set_Header c "X-ProofGate-Cache-Similarity" (format_fixed 4 sim) else c)
  end.

Definition set_CacheStatus (c : Call) (status : string) : Call :=
  mkCall (cl_ID c) (cl_Start c) (cl_Principal c) (cl_Request c) (cl_Route c) (cl_Stream c) (cl_Response c)
    (cl_ClientResponse c) (cl_Target c) (cl_Attempts c) (cl_Usage c) (cl_CostMicros c) (cl_HedgeCostMicros c)
    status (cl_Err c) (cl_Internal c) (cl_Header c) (cl_Incoming c) (cl_Values c).

(** The text of the first choice, for a shadow comparison. *)
Definition first_answer (r : option ChatResponse) : string :=
  match r with
  | Some r => match cr_Choices r with ch :: _ => Content_PlainText (m_Content (ch_Message ch)) | [] => "" end
  | None => ""
  end.

Definition with_candidate (st : State) (cand : Candidate) : State :=
  mkState (cs_Plan st) (cs_Scope st) (cs_ExactKey st) (cs_Query st) (cs_ContextHash st) (cs_Embedding st) (cs_Tags st)
    (cs_Nearest st) (Some cand).
Definition with_key (st : State) (key : string) : State :=
  mkState (cs_Plan st) (cs_Scope st) key (cs_Query st) (cs_ContextHash st) (cs_Embedding st) (cs_Tags st)
    (cs_Nearest st) (cs_Candidate st).
Definition with_nearest (st : State) (v : list Z) (m : option Match) : State :=
  mkState (cs_Plan st) (cs_Scope st) (cs_ExactKey st) (cs_Query st) (cs_ContextHash st) (Some v) (cs_Tags st) m (cs_Candidate st).

(** The work a background writer has captured. *)
Record write_job := mkJob { wj_tenant : string; wj_route : string; wj_state : State; wj_entry : Entry; wj_ttl : Duration }.
Record async (W : Type) := mkAsync { as_world : W; as_jobs : list write_job }.
Arguments mkAsync {W}.
Arguments as_world {W}.
Arguments as_jobs {W}.

Definition max_writers : nat := 64.

Definition storable (r : option ChatResponse) : bool :=
  match r with
  | Some r =>
      match cr_Choices r with
      | [ch] => String.eqb (ch_FinishReason ch) "stop" && negb (nonempty (m_ToolCalls (ch_Message ch))) &&
                negb (String.eqb (Content_PlainText (m_Content (ch_Message ch))) "")
      | _ => false
      end
  | None => false
  end.

Section Stage.
Context (sha256_hex : string -> string) (format_float : spec_float -> string)
  (json_messages : list Message -> string) (json_tools : list Tool -> string) (json_tool_calls : list ToolCall -> string)
  (entry_bytes : Entry -> option Z)
  {W : Type} `{ExactStore W} `{SemanticStore W} `{CacheEmbedder W} `{CacheHooks W} (s : CacheStage).

Definition call_scope (rt : Route) (c : Call) : string :=
  Scope sha256_hex format_float json_tools json_tool_calls (TenantID (cl_Principal c)) (ro_Name rt) (cl_Request c) (ro_Cache rt).

Definition call_key (rt : Route) (c : Call) : string :=
  ExactKey (TenantID (cl_Principal c)) (ro_Name rt) (ExactHash sha256_hex json_messages (call_scope rt c) (cl_Request c)).

Definition allow_client (rt : Route) (c : Call) : bool :=
  cc_AllowClientKey (ro_Cache rt) ||
  match tp_Cache (p_Tenant (cl_Principal c)) with Some p => AllowClientKey p | None => false end.

Definition init_state (rt : Route) (plan : CachePlan) (c : Call) : State :=
  mkState plan (call_scope rt c) "" (SemanticTextFromHeader (cl_Request c) (cl_Incoming c) (allow_client rt c))
    (ContextHash sha256_hex json_tool_calls (cl_Request c)) None
    (ParseTags (header_get (cl_Incoming c) "X-ProofGate-Cache-Tags")) None None.

(** The exact lookup: the state it leaves and the entry to serve. *)
Definition exact_lookup (rt : Route) (c : Call) (st : State) (w : W) : W * State * option Entry :=
  if pl_Exact (cs_Plan st) && st_exact s then
    let st := with_key st (call_key rt c) in
    match Exact_Get (cs_ExactKey st) w with
    | (w, inl _) => (onErr "exact_get" w, st, None)
    | (w, inr None) => (w, st, None)
    | (w, inr (Some e)) =>
        if String.eqb (cc_Mode (ro_Cache rt)) "shadow" then
          let q := if String.eqb (en_Query e) "" then cs_Query st else en_Query e in
          (w, with_candidate st (mkCandidate (cs_Query st) q (first_answer (en_Response e)) f1 "exact"), None)
        else (w, st, Some e)
    end
  else (w, st, None).

(** What a semantic match leads to: the state, and the match to serve. *)
Definition judge_match (rt : Route) (allowClient : bool) (st : State) (m : Match) : State * option Match :=
  let cfg := ro_Cache rt in
  if allowClient && negb (String.eqb (en_ContextHash (ma_Entry m)) (cs_ContextHash st)) then (st, None)
  else if String.eqb (cc_Mode cfg) "shadow" then
    match cs_Candidate st with
    | None =>
        if fgeb (ma_Similarity m) (cc_Threshold cfg) || fgeb (ma_Similarity m) (f_lit 70 100) then
          (with_candidate st (mkCandidate (cs_Query st) (en_Query (ma_Entry m)) (first_answer (en_Response (ma_Entry m)))
             (ma_Similarity m) "approx"), None)
        else (st, None)
    | Some _ => (st, None)
    end
  else if fgeb (ma_Similarity m) (cc_Threshold cfg) && String.eqb (cc_Mode cfg) "on" then (st, Some m)
  else (st, None).

Definition semantic_lookup (rt : Route) (c : Call) (st : State) (w : W) : W * State * option Match :=
  let tenant := TenantID (cl_Principal c) in
  if pl_Semantic (cs_Plan st) && st_sem s && st_emb s then
    match Cache_Embed (cc_EmbeddingRoute (ro_Cache rt)) tenant (cs_Query st) w with
    | (w, inl _) => (onErr "embed" w, st, None)
    | (w, inr v) =>
        match Nearest tenant (cs_Scope st) v w with
        | (w, inl _) => (onErr "semantic_get" w, with_nearest st v None, None)
        | (w, inr m) =>
            let st := with_nearest st v m in
            match m with
            | None => (w, st, None)
            | Some m => let '(st, serve) := judge_match rt (allow_client rt c) st m in (w, st, serve)
            end
        end
    end
  else (w, st, None).

Definition Cache_Before (a : async W) (c : Call) : option (async W * Call * (bool * option go_error)) :=
  match cl_Route c with
  | None => Some (a, c, (false, None))
  | Some rt =>
      let plan := Eligibility (cl_Request c) (cl_Incoming c) (ro_Cache rt) (cl_Internal c) in
      if negb (String.eqb (pl_Bypass plan) "") then Some (a, set_CacheStatus c "bypass", (false, None))
      else if negb (pl_Exact plan) && negb (pl_Semantic plan) then Some (a, c, (false, None))
      else
        let '(w, st, found) := exact_lookup rt c (init_state rt plan c) (as_world a) in
        match found with
        | Some e =>
            c' ← hit (cache_now w) (set_Value c StateKey (ACache st)) e "hit-exact" f1;
            Some (mkAsync w (as_jobs a), c', (true, None))
        | None =>
            let '(w, st, found) := semantic_lookup rt c st w in
            let c := set_Value c StateKey (ACache st) in
            match found with
            | Some m =>
                c' ← hit (cache_now w) c (ma_Entry m) "hit-semantic" (ma_Similarity m);
                Some (mkAsync w (as_jobs a), c', (true, None))
            | None => Some (mkAsync w (as_jobs a), c, (false, None))
            end
        end
  end.

(** The evidence a shadow comparison leaves. *)
Definition shadow_evidence (rt : Route) (c : Call) (st : State) (w : W) : W :=
  match cs_Candidate st, cl_Response c with
  | Some cand, Some r =>
      match cr_Choices r with
      | ch :: _ =>
          if negb (st_consent s) || tp_ShadowConsent (p_Tenant (cl_Principal c)) then
            let '(w, id) := new_uuid w in
            onShadow (mkShadowRecord id (cache_now w) (TenantID (cl_Principal c)) (ro_Name rt) (cc_Threshold (ro_Cache rt))
              (ca_Similarity cand) (ca_Query cand) (ca_CandidateQuery cand) (ca_CandidateAnswer cand)
              (Content_PlainText (m_Content (ch_Message ch))) (ca_Source cand)) w
          else w
      | [] => w
      end
  | _, _ => w
  end.

Definition new_entry (now : Time) (c : Call) (st : State) : Entry :=
  mkEntry (cl_ID c) (cs_Query st) (cl_Response c) (cl_CostMicros c) now (cs_Tags st) (cs_ContextHash st).

(** [After] for a call that has a route; [Before] leaves a state only then. *)
Definition store_answer (rt : Route) (c : Call) (st : State) (a : async W) : async W :=
  if negb (String.eqb (cl_CacheStatus c) "miss") || negb (storable (cl_Response c)) then a
  else
    let e := new_entry (cache_now (as_world a)) c st in
    match entry_bytes e with
    | None => a
    | Some n =>
        if cc_MaxEntryBytes (ro_Cache rt) <? n then a
        else if Nat.ltb (length (as_jobs a)) max_writers
        then mkAsync (as_world a) (as_jobs a ++ [mkJob (TenantID (cl_Principal c)) (ro_Name rt) st e (cc_TTL (ro_Cache rt))])
        else mkAsync (onDrop (as_world a)) (as_jobs a)
    end.

Definition Cache_After (a : async W) (c : Call) : async W * Call :=
  match cl_Values c !! StateKey, cl_Err c, cl_Route c with
  | Some (ACache st), None, Some rt =>
      (store_answer rt c st (mkAsync (shadow_evidence rt c st (as_world a)) (as_jobs a)), c)
  | _, _, _ => (a, c)
  end.

(** The body of the background writer. *)
Definition run_job (j : write_job) (w : W) : W :=
  let st := wj_state j in
  let w :=
    if negb (String.eqb (cs_ExactKey st) "") && st_exact s then
      match Exact_Put (wj_tenant j) (cs_ExactKey st) (wj_entry j) (wj_ttl j) w with
      | (w, Some _) => onErr "exact_put" w
      | (w, None) => w
      end
    else w in
  match cs_Embedding st with
  | Some v =>
      if st_sem s then
        match Sem_Put (wj_tenant j) (wj_route j) (cs_Scope st) v (wj_entry j) (wj_ttl j) w with
        | (w, inl _) => onErr "semantic_put" w
        | (w, inr _) => w
        end
      else w
  | None => w
  end.
End Stage.

(** ** The Redis exact store (src/internal/cache/exact.go) *)

Record RedisExact := mkRedisExact {
  er_kv : gmap string (Entry * option Time);               (* SET, with its expiry *)
  er_tags : gmap string (gset string * option Time);       (* SADD and EXPIRE of the tag sets *)
  er_now : Time;
  er_down : bool
}.

Definition redis_error : go_error := ErrOther "redis: connection refused".
Definition live {A : Type} (now : Time) (x : A * option Time) : option A :=
  match x.2 with Some t => if t <=? now then None else Some x.1 | None => Some x.1 end.

(** go-redis sends no expiry for a zero duration. *)
Definition expires_at (now : Time) (ttl : Duration) : option Time := if ttl =? 0 then None else Some (now + ttl).

Definition Redis_Exact_Get (key : string) (r : RedisExact) : RedisExact * (go_error + option Entry) :=
  if er_down r then (r, inl redis_error)
  else (r, inr (er_kv r !! key ≫= live (er_now r))).

Definition tag_member (tenantID key : string) (ttl : Duration) (now : Time)
  (tags : gmap string (gset string * option Time)) (t : string) : gmap string (gset string * option Time) :=
  let tk := TagKey tenantID t in
  let members := default ∅ (tags !! tk ≫= live now) in
  <[tk := ({[key]} ∪ members, Some (now + ttl))]> tags.

Definition Redis_Exact_Put (tenantID key : string) (e : Entry) (ttl : Duration) (r : RedisExact) : RedisExact * option go_error :=
  if er_down r then (r, Some redis_error)
  else (mkRedisExact (<[key := (e, expires_at (er_now r) ttl)]> (er_kv r))
          (for_range (en_Tags e) (er_tags r) (tag_member tenantID key ttl (er_now r))) (er_now r) (er_down r), None).

(** The gateway's world: Redis, and whatever the other drivers and callbacks use. *)
#[export] Instance redis_exact_store {V : Type} : ExactStore (RedisExact * V) := {
  Exact_Get key w := let '(r, res) := Redis_Exact_Get key w.1 in ((r, w.2), res);
  Exact_Put tenant key e ttl w := let '(r, res) := Redis_Exact_Put tenant key e ttl w.1 in ((r, w.2), res)
}.
#[export] Instance lift_semantic {V : Type} `{SemanticStore V} : SemanticStore (RedisExact * V) := {
  Sem_Put t r sc v e ttl w := let '(x, res) := Sem_Put t r sc v e ttl w.2 in ((w.1, x), res);
  Nearest t sc v w := let '(x, res) := Nearest t sc v w.2 in ((w.1, x), res)
}.
#[export] Instance lift_embedder {V : Type} `{CacheEmbedder V} : CacheEmbedder (RedisExact * V) := {
  Cache_Embed r t q w := let '(x, res) := Cache_Embed r t q w.2 in ((w.1, x), res)
}.
#[export] Instance lift_hooks {V : Type} `{CacheHooks V} : CacheHooks (RedisExact * V) := {
  cache_now w := cache_now w.2;
  new_uuid w := let '(x, id) := new_uuid w.2 in ((w.1, x), id);
  onErr op w := (w.1, onErr op w.2);
  onDrop w := (w.1, onDrop w.2);
  onShadow rec w := (w.1, onShadow rec w.2)
}.

(** ** Runs *)

Section Runs.
Context (sha256_hex : string -> string) (format_float : spec_float -> string)
  (json_messages : list Message -> string) (json_tools : list Tool -> string) (json_tool_calls : list ToolCall -> string)
  (entry_bytes : Entry -> option Z)
  {V : Type} `{SemanticStore V} `{CacheEmbedder V} `{CacheHooks V} (s : CacheStage).

Abbreviation before := (Cache_Before sha256_hex format_float json_messages json_tools json_tool_calls s).
Abbreviation after := (Cache_After entry_bytes s).
Abbreviation key_of := (call_key sha256_hex format_float json_messages json_tools json_tool_calls).

(** The stage with its writers, the calls whose [Before] has run, and those whose [After]
    has: a call as it came to the stage, with what [Before] left of it or with what was given
    to [After]. *)
Record cache_sys := mkSys {
  sy_async : async (RedisExact * V);
  sy_started : list (Call * Call);
  sy_finished : list (Call * Call)
}.

(** Calls interleave freely; between its hooks, each of which runs once, a call is changed by
    the other stages and by its execution, which keep its identifier, its principal and the
    state this stage left in it.
    Keys may expire or be purged, and everything else may change, at any time. *)
Inductive cache_step : cache_sys -> cache_sys -> Prop :=
| cache_before a st fin c a' c' res : before a c = Some (a', c', res) ->
    cl_Values c !! StateKey = None ->
    cache_step (mkSys a st fin) (mkSys a' (st ++ [(c, c')]) fin)
| cache_after a pre c c1 post fin c2 a' c' : after a c2 = (a', c') ->
    cl_Values c2 !! StateKey = cl_Values c1 !! StateKey -> cl_Principal c2 = cl_Principal c -> cl_ID c2 = cl_ID c ->
    cache_step (mkSys a (pre ++ (c, c1) :: post) fin) (mkSys a' (pre ++ post) (fin ++ [(c, c2)]))
| cache_write w pre j post st fin :
    cache_step (mkSys (mkAsync w (pre ++ j :: post)) st fin) (mkSys (mkAsync (run_job s j w) (pre ++ post)) st fin)
| cache_world r v r' v' jobs st fin : er_kv r' ⊆ er_kv r ->
    cache_step (mkSys (mkAsync (r, v) jobs) st fin) (mkSys (mkAsync (r', v') jobs) st fin).

(** [e] is the answer of a finished call that came with the key [k]. *)
Definition written (fin : list (Call * Call)) (k : string) (e : Entry) : Prop :=
  exists c c2 rt, (c, c2) ∈ fin /\ cl_Route c = Some rt /\ k = key_of rt c /\
    cl_Principal c2 = cl_Principal c /\ cl_ID c2 = cl_ID c /\
    en_Response e = cl_Response c2 /\ en_SourceRequestID e = cl_ID c2 /\
    cl_Err c2 = None /\ cl_CacheStatus c2 = "miss" /\ storable (cl_Response c2) = true.

(** What [Before] left of a call knows the key the call came with. *)
Definition key_known (cc : Call * Call) : Prop :=
  forall st, cl_Values cc.2 !! StateKey = Some (ACache st) -> cs_ExactKey st <> "" -> exists rt, cl_Route cc.1 = Some rt /\ cs_ExactKey st = key_of rt cc.1.

Definition sys_ok (y : cache_sys) : Prop :=
  (forall k e t, er_kv (as_world (sy_async y)).1 !! k = Some (e, t) -> written (sy_finished y) k e) /\
  Forall (fun j => cs_ExactKey (wj_state j) <> "" -> written (sy_finished y) (cs_ExactKey (wj_state j)) (wj_entry j)) (as_jobs (sy_async y)) /\
  (length (as_jobs (sy_async y)) <= max_writers)%nat /\
  Forall key_known (sy_started y).

Lemma written_mono fin fin' k e : fin ⊆ fin' -> written fin k e -> written fin' k e.
Proof. intros Hf (c & c2 & rt & H2' & Hrest). exists c, c2, rt. by split; [apply Hf|]. Qed.

(** *** The hooks leave the exact store alone *)

Lemma exact_lookup_spec rt c st w :
  let '(w', st', found) := exact_lookup sha256_hex format_float json_messages json_tools json_tool_calls s rt c st w in
  er_kv w'.1 = er_kv w.1 /\ (cs_ExactKey st' = cs_ExactKey st \/ cs_ExactKey st' = key_of rt c) /\
  forall e, found = Some e -> exists t, er_kv w.1 !! key_of rt c = Some (e, t).
Proof.
  unfold exact_lookup. destruct (_ && _); [|by split_and!; [|left|]].
  simpl. unfold Redis_Exact_Get. destruct (er_down w.1); simpl; [by split_and!; [|right|]|].
  destruct (er_kv w.1 !! key_of rt c) as [[e t]|] eqn:E; simpl; [|by split_and!; [|right|]].
  assert (forall x, live (er_now w.1) (e, t) = Some x -> x = e) as Hl.
  { unfold live. simpl. intros x. destruct t as [t|]; [destruct (t <=? er_now w.1)|]; congruence. }
  destruct (live _ (e, t)) as [x|] eqn:El; [|by split_and!; [|right|]].
  rewrite (Hl x eq_refl). destruct (String.eqb _ _); (split_and!; [done|by right|]); [done|].
  intros e' [= <-]. by exists t.
Qed.

Lemma judge_serves rt allow st m m' : (judge_match rt allow st m).2 = Some m' ->
  m' = m /\ cc_Mode (ro_Cache rt) = "on" /\ fgeb (ma_Similarity m) (cc_Threshold (ro_Cache rt)) = true /\
  (allow = true -> en_ContextHash (ma_Entry m) = cs_ContextHash st).
Proof.
  unfold judge_match. destruct (allow && _) eqn:Ea; [done|].
  destruct (String.eqb_spec (cc_Mode (ro_Cache rt)) "shadow").
  { destruct (cs_Candidate st); [done|]. by destruct (_ || _). }
  destruct (fgeb _ _) eqn:Ef; [|done]. destruct (String.eqb_spec (cc_Mode (ro_Cache rt)) "on"); [|done].
  intros [= <-]. split_and!; [done..|]. intros ->. simpl in Ea. by apply negb_false_iff, String.eqb_eq in Ea.
Qed.

Lemma judge_match_key rt allow st m : cs_ExactKey (judge_match rt allow st m).1 = cs_ExactKey st.
Proof. unfold judge_match. repeat (case_match; try done). Qed.

Lemma semantic_lookup_spec rt c st w :
  let '(w', st', found) := semantic_lookup s rt c st w in er_kv w'.1 = er_kv w.1 /\ cs_ExactKey st' = cs_ExactKey st.
Proof.
  unfold semantic_lookup. destruct (_ && _); [|done]. simpl.
  destruct (Cache_Embed _ _ _ w.2) as [x [err|v]]; simpl; [done|].
  destruct (Nearest _ _ _ x) as [x' [err|[m|]]]; simpl; [done| |done].
  pose proof (judge_match_key rt (allow_client rt c) (with_nearest st v (Some m)) m).
  by destruct (judge_match _ _ _ m).
Qed.

Lemma hit_values now c e status sim c' : hit now c e status sim = Some c' ->
  cl_Values c' !! StateKey = cl_Values c !! StateKey /\ cl_CacheStatus c' = status /\ cl_CostMicros c' = 0 /\
  cl_Header c' !! "X-Proofgate-Cache-Source" = Some (en_SourceRequestID e) /\
  exists r, en_Response e = Some r /\
    cl_Response c' = Some (mkChatResponse ("chatcmpl-" +:+ cl_ID c) (cr_Object r) (unix_seconds now) (cr_Model r) (cr_Choices r) (cr_Usage r)).
Proof.
  unfold hit. destruct (en_Response e) as [r|]; [|done]. intros [= <-].
  destruct (String.eqb status "hit-semantic"); simpl; rewrite lookup_insert_ne by done; (split_and!; [done..| |by exists r]); unfold header_set.
  - change (CanonicalHeaderKey "X-ProofGate-Cache-Similarity") with "X-Proofgate-Cache-Similarity". change (CanonicalHeaderKey "X-ProofGate-Cache-Source") with "X-Proofgate-Cache-Source".
    by rewrite lookup_insert_ne, lookup_insert_eq by done.
  - change (CanonicalHeaderKey "X-ProofGate-Cache-Source") with "X-Proofgate-Cache-Source". apply lookup_insert_eq.
Qed.

Lemma before_spec a c a' c' res : before a c = Some (a', c', res) -> cl_Values c !! StateKey = None ->
  er_kv (as_world a').1 = er_kv (as_world a).1 /\ as_jobs a' = as_jobs a /\
  (forall st, cl_Values c' !! StateKey = Some (ACache st) -> cs_ExactKey st <> "" ->
     exists rt, cl_Route c = Some rt /\ cs_ExactKey st = key_of rt c) /\
  (cl_CacheStatus c' = "hit-exact" -> cl_CacheStatus c <> "hit-exact" ->
     exists rt e t r, cl_Route c = Some rt /\ er_kv (as_world a).1 !! key_of rt c = Some (e, t) /\ en_Response e = Some r /\
       cl_CostMicros c' = 0 /\ res = (true, None) /\ cl_Header c' !! "X-Proofgate-Cache-Source" = Some (en_SourceRequestID e) /\
       cl_Response c' = Some (mkChatResponse ("chatcmpl-" +:+ cl_ID c) (cr_Object r) (unix_seconds (cache_now (as_world a').2))
         (cr_Model r) (cr_Choices r) (cr_Usage r))).
Proof.
  intros Hb Hnew. unfold Cache_Before in Hb. destruct (cl_Route c) as [rt|] eqn:Er.
  2: { simplify_eq. split_and!; [done..| |congruence]. intros st. by rewrite Hnew. }
  destruct (negb (String.eqb _ "")).
  { simplify_eq. split_and!; [done..| |by simpl]. intros st. simpl. by rewrite Hnew. }
  destruct (_ && _).
  { simplify_eq. split_and!; [done..| |congruence]. intros st. by rewrite Hnew. }
  set (plan := Eligibility _ _ _ _) in *.
  pose proof (exact_lookup_spec rt c (init_state sha256_hex format_float json_tools json_tool_calls rt plan c) (as_world a)) as Hx.
  destruct (exact_lookup _ _ _ _ _ _ rt c _ _) as [[w st] found]. destruct Hx as (Hkv & Hkey & Hfound).
  assert (forall st', cs_ExactKey st' = cs_ExactKey st -> cs_ExactKey st' <> "" -> exists rt0, Some rt = Some rt0 /\ cs_ExactKey st' = key_of rt0 c) as Hk.
  { intros st' -> Hne. exists rt. split; [done|]. by destruct Hkey. }
  destruct found as [e|].
  - destruct (hit _ _ e _ _) as [c1|] eqn:Eh; [|done]. simpl in Hb. simplify_eq.
    apply hit_values in Eh as (Hv & Hs & Hc & Hsrc & r & Hr & Hresp). simpl in Hv. rewrite lookup_insert_eq in Hv.
    split_and!; [done|done| |].
    + intros st' Hst. rewrite Hv in Hst. simplify_eq. by apply Hk.
    + intros _ _. destruct (Hfound e eq_refl) as [t Ht]. by exists rt, e, t, r.
  - pose proof (semantic_lookup_spec rt c st w) as Hy.
    destruct (semantic_lookup s rt c st w) as [[w2 st2] found]. destruct Hy as [Hkv2 Hkey2].
    destruct found as [m|].
    + destruct (hit _ _ _ _ _) as [c1|] eqn:Eh; [|done]. simpl in Hb. simplify_eq.
      apply hit_values in Eh as (Hv & Hs & Hc & Hsrc & r & Hr & Hresp). simpl in Hv. rewrite lookup_insert_eq in Hv.
      split_and!; [simpl; congruence|done| |by rewrite Hs].
      intros st' Hst. rewrite Hv in Hst. simplify_eq. by apply Hk.
    + simplify_eq. split_and!; [simpl; congruence|done| |by simpl].
      intros st'. simpl. rewrite lookup_insert_eq. intros [= <-]. by apply Hk.
Qed.

Lemma shadow_evidence_kv rt c st (w : RedisExact * V) : er_kv (shadow_evidence s rt c st w).1 = er_kv w.1.
Proof.
  unfold shadow_evidence. destruct (cs_Candidate st); [|done]. destruct (cl_Response c) as [r|]; [|done].
  destruct (cr_Choices r); [done|]. destruct (_ || _); [|done]. simpl. by destruct (new_uuid w.2).
Qed.

Lemma after_spec a c a' c' : after a c = (a', c') ->
  er_kv (as_world a').1 = er_kv (as_world a).1 /\
  (as_jobs a' = as_jobs a \/
   exists st j, cl_Values c !! StateKey = Some (ACache st) /\ as_jobs a' = as_jobs a ++ [j] /\
     (length (as_jobs a) < max_writers)%nat /\ wj_state j = st /\
     en_Response (wj_entry j) = cl_Response c /\ en_SourceRequestID (wj_entry j) = cl_ID c /\
     cl_Err c = None /\ cl_CacheStatus c = "miss" /\ storable (cl_Response c) = true).
Proof.
  unfold Cache_After. destruct (cl_Values c !! StateKey) as [[]|] eqn:Ev; try (intros [= <- <-]; by split; [|left]).
  destruct (cl_Err c) eqn:Ee; [intros [= <- <-]; by split; [|left]|].
  destruct (cl_Route c) as [rt|] eqn:Er; [|intros [= <- <-]; by split; [|left]].
  intros [= <- <-]. pose proof (shadow_evidence_kv rt c st (as_world a)) as Hkv.
  unfold store_answer. destruct (String.eqb_spec (cl_CacheStatus c) "miss"); simpl; [|by split; [|left]].
  destruct (storable (cl_Response c)) eqn:Es; simpl; [|by split; [|left]].
  destruct (entry_bytes _) as [n|]; [|by split; [|left]].
  destruct (_ <? n); [by split; [|left]|].
  destruct (Nat.ltb_spec (length (as_jobs a)) max_writers); simpl; [|by split; [|left]].
  split; [done|]. right. exists st, (mkJob (TenantID (cl_Principal c)) (ro_Name rt) st
    (new_entry (cache_now (shadow_evidence s rt c st (as_world a))) c st) (cc_TTL (ro_Cache rt))). by split_and!.
Qed.

Lemma run_job_kv j w k e t : er_kv (run_job s j w).1 !! k = Some (e, t) ->
  er_kv w.1 !! k = Some (e, t) \/ (k = cs_ExactKey (wj_state j) /\ k <> "" /\ e = wj_entry j).
Proof.
  unfold run_job. set (w1 := if _ : bool then _ else w). intros Hk.
  assert (er_kv w1.1 !! k = Some (e, t)) as Hw.
  { destruct (cs_Embedding (wj_state j)); [|done]. destruct (st_sem s); [|done]. simpl in Hk.
    destruct (Sem_Put _ _ _ _ _ _ w1.2) as [x []]; done. }
  clear Hk. subst w1. destruct (String.eqb_spec (cs_ExactKey (wj_state j)) ""); simpl in Hw; [by left|].
  destruct (st_exact s); [|by left]. simpl in Hw. unfold Redis_Exact_Put in Hw.
  destruct (er_down w.1); simpl in Hw; [by left|].
  apply lookup_insert_Some in Hw as [[<- [= <- _]]|[Hne Hw]]; [by right|by left].
Qed.

Lemma sys_ok_step y y' : sys_ok y -> cache_step y y' -> sys_ok y'.
Proof.
  intros (Hkv & Hj & Hn & Hst) Hs. destruct Hs as [a st fin c a' c' res Hb Hnew|a pre c c1 post fin c2 a' c' Ha Hv Hp Hid|w pre j post st fin|r v r' v' jobs st fin Hsub]; simpl in *.
  - destruct (before_spec a c a' c' res Hb Hnew) as (Ekv & Ej & Hk & _). split_and!; simpl; [by rewrite Ekv|by rewrite Ej..|].
    apply Forall_app. split; [done|]. by repeat constructor.
  - destruct (after_spec a c2 a' c' Ha) as (Ekv & Ej). apply Forall_app in Hst as [Hst1 [Hc Hst2]%Forall_cons].
    assert (forall k e, written fin k e -> written (fin ++ [(c, c2)]) k e) as Hm by (intros k e; apply written_mono; set_solver).
    split_and!; simpl; [intros k e t; rewrite Ekv; eauto| | |by apply Forall_app].
    + destruct Ej as [->|(st0 & j & Hst0 & -> & _ & Hwj & Hr & Hsrc & He & Hs & Hstor)]; [eapply Forall_impl; [exact Hj|]; auto|].
      apply Forall_app. split; [eapply Forall_impl; [exact Hj|]; auto|]. constructor; [|constructor].
      rewrite Hwj. intros Hne. rewrite Hst0 in Hv. symmetry in Hv. destruct (Hc st0 Hv Hne) as (rt & Hrt & Hkey). simpl in Hrt, Hkey. rewrite Hkey.
      exists c, c2, rt. split_and!; try done. set_solver.
    + destruct Ej as [->|(st0 & j & _ & -> & Hlt & _)]; [done|]. rewrite length_app. simpl. lia.
  - rewrite Forall_app, Forall_cons in Hj. destruct Hj as (Hj1 & Hj2 & Hj3). split_and!; simpl.
    + intros k e t Hk. apply run_job_kv in Hk as [Hk|(-> & Hne & ->)]; eauto.
    + apply Forall_app. by split.
    + rewrite length_app in *. simpl in *. lia.
    + done.
  - split_and!; simpl; try done. intros k e t Hk. eapply Hkv. by eapply lookup_weaken.
Qed.

Lemma run_sys_ok w y : er_kv w.1 = ∅ -> reachable cache_step (mkSys (mkAsync w []) [] []) y -> sys_ok y.
Proof.
  intros Hw. apply reachable_invariant; [|intros y1 y2; apply sys_ok_step].
  split_and!; simpl; [|constructor|unfold max_writers; lia|constructor].
  intros k e t. rewrite Hw. by rewrite lookup_empty.
Qed.
End Runs.

(** C16. The exact cache only repeats what was answered: in any interleaving of
    calls, background writes, expiry and purges, a call served from the exact
    cache gets, free of charge and under its own id, the answer with which an earlier
    call of this run, the one named in the X-ProofGate-Cache-Source header, has ended;
    that call came with the same key, ended without error and completely, and was not
    itself served from a cache. *)
Theorem exact_hit_repeats_answer (sha256_hex : string -> string) (format_float : spec_float -> string)
  (json_messages : list Message -> string) (json_tools : list Tool -> string) (json_tool_calls : list ToolCall -> string)
  (entry_bytes : Entry -> option Z) {V : Type} `{SemanticStore V} `{CacheEmbedder V} `{CacheHooks V}
  (s : CacheStage) (w : RedisExact * V) (y : cache_sys (V := V)) (c c' : Call) (a' : async (RedisExact * V))
  (res : bool * option go_error)
  (Hempty : er_kv w.1 = ∅)
  (Hrun : reachable (cache_step sha256_hex format_float json_messages json_tools json_tool_calls entry_bytes s)
    (mkSys (mkAsync w []) [] []) y)
  (Hbefore : Cache_Before sha256_hex format_float json_messages json_tools json_tool_calls s (sy_async y) c = Some (a', c', res))
  (Hnew : cl_Values c !! StateKey = None) (Hmiss : cl_CacheStatus c = "miss") (Hhit : cl_CacheStatus c' = "hit-exact") :
  res = (true, None) /\ cl_CostMicros c' = 0 /\
  exists rt c0 c2 rt0 r, (c0, c2) ∈ sy_finished y /\
    cl_Route c = Some rt /\ cl_Route c0 = Some rt0 /\
    call_key sha256_hex format_float json_messages json_tools json_tool_calls rt c =
      call_key sha256_hex format_float json_messages json_tools json_tool_calls rt0 c0 /\
    cl_Principal c2 = cl_Principal c0 /\ cl_ID c2 = cl_ID c0 /\ cl_Header c' !! "X-Proofgate-Cache-Source" = Some (cl_ID c0) /\
    cl_Err c2 = None /\ cl_CacheStatus c2 = "miss" /\
    storable (Some r) = true /\ cl_Response c2 = Some r /\
    option_map cr_Choices (cl_Response c') = Some (cr_Choices r) /\
    option_map cr_ID (cl_Response c') = Some ("chatcmpl-" +:+ cl_ID c).
Proof.
  destruct (run_sys_ok _ _ _ _ _ entry_bytes s w y Hempty Hrun) as (Hkv & _).
  destruct (before_spec _ _ _ _ _ s _ _ _ _ _ Hbefore Hnew) as (_ & _ & _ & Hserve).
  destruct (Hserve Hhit ltac:(by rewrite Hmiss)) as (rt & e & t & r & Hrt & He & Hr & Hc & Hres & Hsrc & Hresp).
  destruct (Hkv _ _ _ He) as (c0 & c2 & rt0 & Hfin & Hrt0 & Hkey & Hp & Hid & Hr2 & Hsrc2 & Herr & Hs & Hstor).
  split_and!; [done..|]. exists rt, c0, c2, rt0, r. rewrite Hr in Hr2. rewrite <- Hr2 in Hstor.
  rewrite Hresp, Hsrc, Hsrc2, Hid. split_and!; done.
Qed.

(** At most 64 background writers exist at any time, whatever the load. *)
Lemma writers_bounded (sha256_hex : string -> string) (format_float : spec_float -> string)
  (json_messages : list Message -> string) (json_tools : list Tool -> string) (json_tool_calls : list ToolCall -> string)
  (entry_bytes : Entry -> option Z) {V : Type} `{SemanticStore V} `{CacheEmbedder V} `{CacheHooks V}
  (s : CacheStage) (w : RedisExact * V) (y : cache_sys (V := V)) : er_kv w.1 = ∅ ->
  reachable (cache_step sha256_hex format_float json_messages json_tools json_tool_calls entry_bytes s)
    (mkSys (mkAsync w []) [] []) y -> (length (as_jobs (sy_async y)) <= 64)%nat.
Proof. intros Hw Hr. by destruct (run_sys_ok _ _ _ _ _ entry_bytes s w y Hw Hr) as (_ & _ & Hn & _). Qed.

(** The semantic cache answers only from what the tenant's own scope holds: a
    semantic hit comes from the nearest stored entry for the call's tenant and
    scope, with the route's mode on, a similarity of at least its threshold and,
    where the client chooses the query, the same context. *)
Theorem semantic_hit_guarded (sha256_hex : string -> string) (format_float : spec_float -> string)
  (json_messages : list Message -> string) (json_tools : list Tool -> string) (json_tool_calls : list ToolCall -> string)
  {W : Type} `{ExactStore W} `{SemanticStore W} `{CacheEmbedder W} `{CacheHooks W}
  (s : CacheStage) (a a' : async W) (c c' : Call) (res : bool * option go_error)
  (Hbefore : Cache_Before sha256_hex format_float json_messages json_tools json_tool_calls s a c = Some (a', c', res))
  (Hmiss : cl_CacheStatus c = "miss") (Hhit : cl_CacheStatus c' = "hit-semantic") :
  res = (true, None) /\ cl_CostMicros c' = 0 /\
  exists rt w1 w2 v m r,
    cl_Route c = Some rt /\
    Nearest (TenantID (cl_Principal c)) (call_scope sha256_hex format_float json_tools json_tool_calls rt c) v w1 = (w2, inr (Some m)) /\
    cc_Mode (ro_Cache rt) = "on" /\ fgeb (ma_Similarity m) (cc_Threshold (ro_Cache rt)) = true /\
    (allow_client rt c = true -> en_ContextHash (ma_Entry m) = ContextHash sha256_hex json_tool_calls (cl_Request c)) /\
    en_Response (ma_Entry m) = Some r /\ option_map cr_Choices (cl_Response c') = Some (cr_Choices r).
Proof.
  unfold Cache_Before in Hbefore. destruct (cl_Route c) as [rt|] eqn:Er; [|by simplify_eq; congruence].
  destruct (negb (String.eqb _ "")); [by simplify_eq|]. destruct (_ && _); [by simplify_eq; congruence|].
  set (st0 := init_state _ _ _ _ rt _ c) in *.
  assert (let st := (exact_lookup sha256_hex format_float json_messages json_tools json_tool_calls s rt c st0 (as_world a)).1.2 in
    cs_Scope st = cs_Scope st0 /\ cs_ContextHash st = cs_ContextHash st0) as Hst.
  { unfold exact_lookup. destruct (_ && st_exact s); [|done]. destruct (Exact_Get _ _) as [w [err|[e|]]]; try done. by destruct (String.eqb _ _). }
  destruct (exact_lookup _ _ _ _ _ _ rt c _ _) as [[w st] [e|]]; simpl in Hst; destruct Hst as [Hsc Hctx].
  { destruct (hit _ _ e _ _) as [c1|] eqn:Eh; [|done]. simpl in Hbefore. simplify_eq. apply hit_values in Eh as (_ & Hs & _). congruence. }
  unfold semantic_lookup in Hbefore. destruct (_ && st_emb s); [|by simplify_eq; simpl in Hhit; congruence].
  destruct (Cache_Embed _ _ _ w) as [w1 [err|v]] eqn:Ee; [by simplify_eq; simpl in Hhit; congruence|].
  destruct (Nearest _ _ v w1) as [w2 [err|[m|]]] eqn:En; try by simplify_eq; simpl in Hhit; congruence.
  pose proof (judge_serves rt (allow_client rt c) (with_nearest st v (Some m)) m) as Hj.
  destruct (judge_match _ _ _ m) as [st' [m'|]]; [|by simplify_eq; simpl in Hhit; congruence].
  destruct (Hj m' eq_refl) as (-> & Hon & Hth & Hal). simpl in Hal.
  destruct (hit _ _ (ma_Entry m) _ _) as [c1|] eqn:Eh; [|done]. simpl in Hbefore. simplify_eq.
  apply hit_values in Eh as (_ & _ & Hc & _ & r & Hr & Hresp).
  split_and!; [done..|]. exists rt, w1, w2, v, m, r. rewrite Hsc in En. rewrite Hctx in Hal. rewrite Hresp. by split_and!.
Qed.

(** ** Witnesses *)

(** An index that always returns one entry, and an embedder. *)
Definition demo_choice (text : string) : Choice := mkChoice 0 (plain_message "assistant" text) "stop".
Definition demo_answer : ChatResponse := mkChatResponse "up-1" "chat.completion" 7 "gpt" [demo_choice "hello"] None.
Definition demo_entry : Entry := mkEntry "call-0" "hi" (Some demo_answer) 12 0 [] (ContextHash pad64 (fun _ => "") (plain_request "gpt" [plain_message "user" "hi"])).
#[export] Instance demo_sem : SemanticStore unit := {
  Sem_Put t r sc v e ttl w := (w, inr "key");
  Nearest t sc v w := (w, inr (Some (mkMatch demo_entry f1 "key")))
}.
#[export] Instance demo_embedder : CacheEmbedder unit := { Cache_Embed r t q w := (w, inr [1]) }.
#[export] Instance demo_hooks : CacheHooks unit := {
  cache_now w := 62135596800 * second; new_uuid w := (w, "id"); onErr op w := w; onDrop w := w; onShadow rec w := w
}.

Definition cache_route : Route :=
  let d := direct_route "gpt" (mkTarget "openai" "gpt") in
  mkRoute "chat" (ro_Targets d) (ro_Strategy d) (ro_Retry d) (ro_Timeout d) (ro_Deadline d) (ro_FirstTokenTimeout d)
    (ro_StreamIdleTimeout d) false no_cache (ro_Guard d) (ro_SmartRoute d) (ro_Hedge d).

Definition cache_call (id : string) : Call :=
  NewCall id 0 (mkPrincipal "t1" "Tenant" "k1" "Key" [] false no_limits no_key_policy)
    (plain_request "gpt" [plain_message "user" "hi"]) (Some cache_route).

Definition demo_json (ms : list Message) : string := concat_strings (map (fun m => Content_PlainText (m_Content m)) ms).
Definition demo_stage : CacheStage := mkCacheStage true false false false.
Definition demo_before := Cache_Before (W := RedisExact * unit) pad64 (fun _ => "x") demo_json (fun _ => "") (fun _ => "").
Definition demo_world0 : RedisExact * unit := (mkRedisExact ∅ ∅ 0 false, tt).

(** The first call misses; it is answered, stored and asked again. *)
Definition first_before : async (RedisExact * unit) * Call :=
  match demo_before demo_stage (mkAsync demo_world0 []) (cache_call "call-1") with Some (a, c, _) => (a, c) | None => (mkAsync demo_world0 [], cache_call "") end.
Definition first_done : Call :=
  let c := first_before.2 in
  mkCall (cl_ID c) 0 (cl_Principal c) (cl_Request c) (cl_Route c) false (Some demo_answer) None (mkTarget "openai" "gpt") 1
    zero_usage 57 0 "miss" None false ∅ ∅ (cl_Values c).
Definition first_after : async (RedisExact * unit) := (Cache_After (fun _ => Some 100) demo_stage first_before.1 first_done).1.
Definition demo_job : write_job := default (mkJob "" "" (mkState (mkCachePlan false false "") "" "" "" "" None [] None None) demo_entry 0) (head (as_jobs first_after)).
Definition stored_world : RedisExact * unit := run_job demo_stage demo_job (as_world first_after).
Definition second_before : option (async (RedisExact * unit) * Call * (bool * option go_error)) :=
  demo_before demo_stage (mkAsync stored_world []) (cache_call "call-2").
Definition second_call : Call := match second_before with Some (_, c, _) => c | None => cache_call "" end.

Lemma demo_run : reachable (cache_step pad64 (fun _ => "x") demo_json (fun _ => "") (fun _ => "") (fun _ => Some 100) demo_stage)
  (mkSys (mkAsync demo_world0 []) [] [])
  (mkSys (mkAsync stored_world []) [] [(cache_call "call-1", first_done)]).
Proof.
  eapply reach_step; [eapply reach_step; [eapply reach_step; [apply reach_refl|]|]|].
  - apply (cache_before _ _ _ _ _ _ _ (mkAsync demo_world0 []) [] [] (cache_call "call-1") first_before.1 first_before.2 (false, None));
      vm_compute; reflexivity.
  - apply (cache_after _ _ _ _ _ _ _ first_before.1 [] (cache_call "call-1") first_before.2 [] [] first_done first_after first_done);
      vm_compute; reflexivity.
  - assert (first_after = mkAsync (as_world first_after) ([] ++ demo_job :: [])) as -> by (vm_compute; reflexivity).
    apply cache_write.
Qed.

Lemma exact_hit_repeats_answer_witness :
  cl_CacheStatus second_call = "hit-exact" /\ cl_CostMicros second_call = 0.
Proof.
  split; [vm_compute; reflexivity|].
  apply (exact_hit_repeats_answer pad64 (fun _ => "x") demo_json (fun _ => "") (fun _ => "") (fun _ => Some 100) demo_stage
    demo_world0 (mkSys (mkAsync stored_world []) [] [(cache_call "call-1", first_done)]) (cache_call "call-2")
    second_call (mkAsync stored_world []) (true, None));
    [reflexivity|exact demo_run|vm_compute; reflexivity..].
Defined.

Definition semantic_before : option (async (RedisExact * unit) * Call * (bool * option go_error)) :=
  demo_before (mkCacheStage false true true false) (mkAsync demo_world0 []) (cache_call "call-3").
Definition semantic_call : Call := match semantic_before with Some (_, c, _) => c | None => cache_call "" end.

Lemma semantic_hit_guarded_witness :
  option_map cr_Choices (cl_Response semantic_call) = Some [demo_choice "hello"] /\ cl_CostMicros semantic_call = 0.
Proof.
  split; [vm_compute; reflexivity|].
  apply (semantic_hit_guarded pad64 (fun _ => "x") demo_json (fun _ => "") (fun _ => "") (mkCacheStage false true true false)
    (mkAsync demo_world0 []) (mkAsync demo_world0 []) (cache_call "call-3") semantic_call (true, None)); vm_compute; reflexivity.
Defined.
