(* ===== verification/RateLimit.v ===== *)
(** * Rate limits (src/internal/ratelimit/limiter.go, stage.go)

    The two token buckets of a tenant in Redis, the two Lua scripts that update
    them atomically, and the pipeline stage that charges an estimate and later
    corrects it.  Lua numbers are binary64; Redis prints them with 17 digits, so
    a stored level is read back exactly. *)

From S2P Require Import Prelude GoStrings GoFloat GoFloatInt Breaker Config Api Execute Route Policy Pipeline.

Open Scope string_scope.
Open Scope list_scope.
Open Scope Z_scope.

(** ** The scripts *)

Record bucket := mkBucket { bk_t : spec_float; bk_ts : spec_float; bk_expire : Z }.

Abbreviation buckets := (gmap string bucket) (only parsing).

(** [HMGET]: an expired key is absent; times are Redis milliseconds. *)
Definition bucket_get (now : Z) (m : buckets) (k : string) : option bucket :=
  match m !! k with
  | Some b => if now <? bk_expire b then Some b else None
  | None => None
  end.

(** [HSET] and [PEXPIRE 120000] *)
Definition bucket_set (now : Z) (k : string) (level : spec_float) (m : buckets) : buckets :=
  <[k := mkBucket level (f_of_Z now) (now + 120000)]> m.

Definition lua_min (a b : spec_float) : spec_float := if fltb b a then b else a.
Definition lua_max (a b : spec_float) : spec_float := if fgtb b a then b else a.

(** [math.ceil]; a float with a non-negative exponent is integral. *)
Definition lua_ceil (x : spec_float) : spec_float :=
  match x with
  | S754_finite _ _ e => if 0 <=? e then x else f_of_Z (- ((- f_num x) / f_den x))
  | _ => x
  end.

Definition f_60000 : spec_float := f_of_Z 60000.

(** The level of a bucket now: full when absent, refilled since [ts] otherwise. *)
Definition take_level (now : Z) (cap : spec_float) (b : option bucket) : spec_float :=
  match b with
  | None => cap
  | Some b =>
      lua_min cap (fadd (bk_t b) (fmul (lua_max f0 (fsub (f_of_Z now) (bk_ts b))) (fdiv cap f_60000)))
  end.

(** One round of the checking loop. *)
Inductive check := TooLargeFor | Level (level wait : spec_float) | Unlimited (wait : spec_float).

Definition take_check (now : Z) (cap cost : Z) (b : option bucket) (wait : spec_float) : check :=
  let cap := f_of_Z cap in let cost := f_of_Z cost in
  if fgtb cap f0 then
    if fgtb cost cap then TooLargeFor
    else
      let tokens := take_level now cap b in
      let wait := if fltb tokens cost
                  then let w := lua_ceil (fdiv (fsub cost tokens) (fdiv cap f_60000)) in
                       if fgtb w wait then w else wait
                  else wait in
      Level tokens wait
  else Unlimited wait.

Definition take_charge (now : Z) (k : string) (cost : Z) (r : check) (m : buckets) : buckets :=
  match r with
  | Level level _ => bucket_set now k (fsub level (f_of_Z cost)) m
  | _ => m
  end.

Definition check_wait (r : check) : spec_float :=
  match r with TooLargeFor => f0 | Level _ w | Unlimited w => w end.

(** [takeScript]: the two integers of the reply and the new state. *)
Definition takeScript (now : Z) (k1 k2 : string) (req_cap req_cost tok_cap tok_cost : Z) (m : buckets)
  : Z * Z * buckets :=
  match take_check now req_cap req_cost (bucket_get now m k1) f0 with
  | TooLargeFor => (-1, 0, m)
  | r1 =>
      match take_check now tok_cap tok_cost (bucket_get now m k2) (check_wait r1) with
      | TooLargeFor => (-1, 0, m)
      | r2 =>
          if fgtb (check_wait r2) f0 then (0, f_to_int64 (check_wait r2), m)
          else (1, 0, take_charge now k2 tok_cost r2 (take_charge now k1 req_cost r1 m))
      end
  end.

(** [adjustScript] *)
Definition adjustScript (now : Z) (k : string) (cap delta : Z) (m : buckets) : buckets :=
  let cap := f_of_Z cap in
  if fleb cap f0 then m
  else
    let tokens := match bucket_get now m k with
                  | None => cap
                  | Some b => fadd (bk_t b)
                      (fdiv (fmul (lua_max f0 (fsub (f_of_Z now) (bk_ts b))) cap) f_60000)
                  end in
    bucket_set now k (lua_min cap (fadd tokens (f_of_Z delta))) m.

(** ** The backend and its Redis implementation *)

Record Decision := mkDecision { d_Allowed : bool; d_TooLarge : bool; d_RetryAfter : Duration }.

(** [ratelimit.Backend] over the state [W] of the outside world. *)
Class Backend (W : Type) := {
  Take : string -> TenantPolicy -> Z -> W -> W * (go_error + Decision);
  Adjust : string -> TenantPolicy -> Z -> W -> W * option go_error;
  fail_open : W -> W                       (* the stage's callback *)
}.

Definition keys (tenantID : string) : string * string :=
  let tag := "{t:" +:+ tenantID +:+ "}" in ("rl:" +:+ tag +:+ ":req", "rl:" +:+ tag +:+ ":tok").

(** The Redis server: its clock, its buckets, whether it answers. *)
Record Redis := mkRedis { rl_now : Z; rl_buckets : buckets; rl_down : bool; rl_failopens : Z }.

Definition redis_error : go_error := ErrOther "redis: connection refused".

Definition Redis_Take (tenantID : string) (p : TenantPolicy) (tokens : Z) (l : Redis)
  : Redis * (go_error + Decision) :=
  if rl_down l then (l, inl redis_error) else
  let '(rk, tk) := keys tenantID in
  let '(r0, r1, m) := takeScript (rl_now l) rk tk (tp_RPM p) 1 (tp_TPM p) tokens (rl_buckets l) in
  (mkRedis (rl_now l) m false (rl_failopens l),
   inr (if r0 =? 1 then mkDecision true false 0
        else if r0 =? -1 then mkDecision false true 0
        else mkDecision false false (wrap64 (r1 * millisecond)))).

Definition Redis_Adjust (tenantID : string) (p : TenantPolicy) (delta : Z) (l : Redis)
  : Redis * option go_error :=
  if (delta =? 0) || (tp_TPM p =? 0) then (l, None)
  else if rl_down l then (l, Some redis_error)
  else (mkRedis (rl_now l) (adjustScript (rl_now l) (keys tenantID).2 (tp_TPM p) delta (rl_buckets l))
          false (rl_failopens l), None).

#[export] Instance redis_backend : Backend Redis := {
  Take := Redis_Take;
  Adjust := Redis_Adjust;
  fail_open l := mkRedis (rl_now l) (rl_buckets l) (rl_down l) (rl_failopens l + 1)
}.

(** ** The stage *)

Record RLStage := mkRLStage { rs_reserve : Z; rs_defaultMax : Z }.

Definition chargedKey : string := "ratelimit.charged".

Definition unavailable (msg code : string) : go_error := ErrApi (api_error 503 msg "api_error" code).

Definition rl_estimate (s : RLStage) (c : Call) : Z :=
  EstimatePromptTokens (cl_Request c)
  + Z.min (ChatRequest_EffectiveMaxTokens (cl_Request c) (rs_defaultMax s)) (rs_reserve s).

Section Stage.
Context {W : Type} `{Backend W}.

Definition RLStage_Before (s : RLStage) (w : W) (c : Call) : W * Call * (bool * option go_error) :=
  if cl_Internal c then (w, c, (false, None)) else
  let p := p_Tenant (cl_Principal c) in
  if (tp_RPM p =? 0) && (tp_TPM p =? 0) then (w, c, (false, None)) else
  let est := rl_estimate s c in
  match Take (TenantID (cl_Principal c)) p est w with
  | (w, inl _) =>
      if tp_Strict p
      then (w, c, (false, Some (unavailable "rate limiter unavailable" "ratelimit_unavailable")))
      else (fail_open w, c, (false, None))
  | (w, inr d) =>
      if d_TooLarge d then (w, c, (false, Some (ErrApi (RateLimited "request_too_large" 0))))
      else if negb (d_Allowed d) then (w, c, (false, Some (ErrApi (RateLimited "rate_limited" (d_RetryAfter d)))))
      else (w, set_Value c chargedKey (AInt est), (false, None))
  end.

(** The tokens to pay for: none for a cache hit. *)
Definition rl_actual (c : Call) : Z :=
  let actual := u_TotalTokens (cl_Usage c) in
  if has_prefix "hit" (cl_CacheStatus c) || (bool_decide (is_Some (cl_Err c)) && (actual =? 0)) then 0
  else actual.

Definition RLStage_After (s : RLStage) (w : W) (c : Call) : W * Call :=
  match cl_Values c !! chargedKey with
  | Some (AInt charged) =>
      ((Adjust (TenantID (cl_Principal c)) (p_Tenant (cl_Principal c)) (wrap64 (charged - rl_actual c)) w).1, c)
  | _ => (w, c)
  end.

Definition rl_stage (s : RLStage) : Stage W :=
  mkStage "ratelimit" (RLStage_Before s) (RLStage_After s) None.
End Stage.

(** ** Levels that are whole numbers *)

Definition level_is (now : Z) (m : buckets) (k : string) (cap a : Z) : Prop :=
  take_level now (f_of_Z cap) (bucket_get now m k) = f_of_Z a.

Lemma f0_of_Z : f0 = f_of_Z 0.
Proof. done. Qed.

Lemma fcanZ_plus_zero z : fadd (fcanZ z) f0 = fcanZ z.
Proof. by destruct z. Qed.

Lemma fcanZ_exponent z m e : fcanZ z = S754_finite false m e -> e = Z.log2 z - 52.
Proof. destruct z as [|v|v]; [done| |done]. intros H. by injection H as _ <-. Qed.

Lemma rate_normal cap : 0 < cap -> exact_int cap ->
  exists m e, fdiv (f_of_Z cap) f_60000 = S754_finite false m e /\ Z.log2 (Zpos m) = 52 /\ -100 <= e <= 100.
Proof.
  intros H0 H. unfold f_60000. rewrite !f_of_Z_can by (done || by vm_compute).
  pose proof (fcanZ_normal cap H0 H) as Hc. pose proof (fcanZ_normal 60000 ltac:(lia) ltac:(by vm_compute)) as Hd.
  destruct (fdiv_normal _ _ Hc Hd) as (m & e & E & Hm & mx & ex & my & ey & Ex & Ey & Hb).
  exists m, e. split; [done|]. split; [done|].
  apply fcanZ_exponent in Ex, Ey. change (Z.log2 60000) with 15 in Ey.
  destruct cap as [|v|v]; [lia| |lia]. pose proof (log2_bound v ltac:(unfold exact_int in H; lia)). lia.
Qed.

(** At the instant it was written a bucket still has its level. *)
Lemma level_is_set now m k cap a :
  0 < cap -> exact_int cap -> exact_int a -> exact_int now -> a <= cap ->
  level_is now (bucket_set now k (f_of_Z a) m) k cap a.
Proof.
  intros H0 Hc Ha Hn Hle. unfold level_is, bucket_get, bucket_set. rewrite lookup_insert_eq. simpl.
  destruct (Z.ltb_spec now (now + 120000)); [|lia]. simpl.
  rewrite fsub_exact by (done || by rewrite Z.sub_diag). rewrite Z.sub_diag.
  destruct (rate_normal cap H0 Hc) as (m' & e & -> & _ & _). simpl.
  change (S754_zero false) with f0. rewrite (f_of_Z_can a) by done. rewrite fcanZ_plus_zero.
  unfold lua_min. rewrite <- f_of_Z_can by done. rewrite fltb_exact by done.
  destruct (Z.ltb_spec a cap); [done|]. by replace a with cap by lia.
Qed.

Lemma level_is_set_ne now m k k' cap a x :
  k <> k' -> level_is now m k' cap a -> level_is now (bucket_set now k x m) k' cap a.
Proof. intros Hk. unfold level_is, bucket_get, bucket_set. by rewrite lookup_insert_ne. Qed.

Lemma level_is_fresh now m k cap : bucket_get now m k = None -> level_is now m k cap cap.
Proof. unfold level_is. by intros ->. Qed.

(** The wait that is computed for a missing amount is positive. *)
Lemma wait_positive cap d : 0 < cap -> exact_int cap -> 0 < d -> exact_int d ->
  fgtb (lua_ceil (fdiv (f_of_Z d) (fdiv (f_of_Z cap) f_60000))) f0 = true.
Proof.
  intros Hc0 Hc Hd0 Hd. destruct (rate_normal cap Hc0 Hc) as (m & e & -> & Hm & He).
  assert (normal (S754_finite false m e)) as Hr by (exists m, e; split; [done|split; [done|lia]]).
  rewrite (f_of_Z_can d) by done.
  destruct (fdiv_normal _ _ (fcanZ_normal d Hd0 Hd) Hr) as (mq & eq' & -> & Hmq & _).
  unfold lua_ceil. destruct (Z.leb_spec 0 eq'); [done|].
  pose proof (Z.log2_spec (Zpos mq) ltac:(lia)) as Hs. rewrite Hmq in Hs. change (2 ^ Z.succ 52) with (2 ^ 53) in Hs.
  cbn [f_num f_den]. replace (Z.max 0 eq') with 0 by lia. rewrite Z.mul_1_r.
  set (k := Z.max 0 (- eq')). assert (2 <= 2 ^ k) by (change 2 with (2 ^ 1); apply Z.pow_le_mono_r; lia).
  set (v := - (- Zpos mq / 2 ^ k)).
  assert (0 < v < 2 ^ 53) as Hv.
  { unfold v. pose proof (Z.div_lt_upper_bound (- Zpos mq) (2 ^ k) 0 ltac:(lia) ltac:(lia)).
    pose proof (Z.div_le_lower_bound (- Zpos mq) (2 ^ k) (- Zpos mq) ltac:(lia) ltac:(nia)). lia. }
  rewrite f0_of_Z, fgtb_exact by (unfold exact_int; lia). apply Z.ltb_lt. lia.
Qed.

Definition wait_ok (w : spec_float) : Prop := w = f0 \/ fgtb w f0 = true.

Lemma take_check_exact now m k cap cost a wait :
  0 < cap -> exact_int cap -> exact_int cost -> exact_int a -> exact_int (cost - a) ->
  level_is now m k cap a -> wait_ok wait ->
  let r := take_check now cap cost (bucket_get now m k) wait in
  if cap <? cost then r = TooLargeFor
  else exists w, r = Level (f_of_Z a) w /\ wait_ok w /\
       fgtb w f0 = (fgtb wait f0 || (a <? cost)).
Proof.
  intros Hc0 Hc Hk Ha Hd Hl Hw. unfold take_check. simpl.
  rewrite f0_of_Z, fgtb_exact by done. destruct (Z.ltb_spec 0 cap); [|lia].
  rewrite fgtb_exact by done. destruct (Z.ltb_spec cap cost); [done|].
  rewrite Hl, fltb_exact by done. rewrite <- f0_of_Z.
  eexists. split; [done|]. destruct (Z.ltb_spec a cost); [|by rewrite orb_false_r].
  rewrite fsub_exact, orb_true_r by done.
  pose proof (wait_positive cap (cost - a) Hc0 Hc ltac:(lia) Hd) as Hp.
  set (w := lua_ceil _) in *. destruct (fgtb w wait) eqn:E; [by split; [right|]|].
  destruct Hw as [->|Hw]; [congruence|]. by split; [right|].
Qed.

Lemma keys_ne t : (keys t).1 <> (keys t).2.
Proof.
  unfold keys. simpl. rewrite <- !sapp_assoc. intros H. by apply sapp_inj_l in H.
Qed.

(** One take against whole levels [a] and [b]: refused when it can never fit,
    admitted exactly when both levels suffice, and then both are charged. *)
Lemma take_exact now m k1 k2 rpm tpm cost a b :
  k1 <> k2 -> 0 < rpm -> 0 < tpm -> exact_int rpm -> exact_int tpm -> exact_int now ->
  0 <= cost -> exact_int cost -> 0 <= a <= rpm -> 0 <= b <= tpm ->
  level_is now m k1 rpm a -> level_is now m k2 tpm b ->
  let '(r0, _, m') := takeScript now k1 k2 rpm 1 tpm cost m in
  if tpm <? cost then r0 = -1 /\ m' = m
  else if (1 <=? a) && (cost <=? b)
       then r0 = 1 /\ level_is now m' k1 rpm (a - 1) /\ level_is now m' k2 tpm (b - cost)
       else r0 = 0 /\ m' = m.
Proof.
  intros Hk Hr0 Ht0 Hr Ht Hn Hc0 Hc Ha Hb Hla Hlb. unfold takeScript.
  assert (forall x y, 0 <= x -> 0 <= y -> exact_int x -> exact_int y -> exact_int (x - y)) as Hsub
    by (unfold exact_int; lia).
  assert (exact_int a /\ exact_int b /\ exact_int 1) as (Hea & Heb & He1) by (unfold exact_int in *; lia).
  pose proof (take_check_exact now m k1 rpm 1 a f0 Hr0 Hr He1 Hea (Hsub 1 a ltac:(lia) ltac:(lia) He1 Hea) Hla
    (or_introl eq_refl)) as H1. simpl in H1.
  destruct (Z.ltb_spec rpm 1); [lia|]. destruct H1 as (w1 & -> & Hw1 & Hg1). cbn [check_wait].
  pose proof (take_check_exact now m k2 tpm cost b w1 Ht0 Ht Hc Heb (Hsub cost b ltac:(lia) ltac:(lia) Hc Heb) Hlb Hw1) as H2.
  simpl in H2. destruct (Z.ltb_spec tpm cost); [by rewrite H2|].
  destruct H2 as (w2 & -> & Hw2 & Hg2). cbn [check_wait take_charge].
  rewrite Hg2, Hg1. change (fgtb f0 f0) with false. cbn [orb].
  destruct (Z.ltb_spec a 1), (Z.leb_spec 1 a), (Z.ltb_spec b cost), (Z.leb_spec cost b);
    try lia; cbn [orb andb]; try done.
  assert (exact_int (a - 1) /\ exact_int (b - cost)) as [Ha1 Hbc] by (split; apply Hsub; (lia || done)).
  rewrite !fsub_exact by done.
  split; [done|]. split.
  - apply level_is_set_ne; [done|]. apply level_is_set; (done || lia).
  - apply level_is_set; (done || lia).
Qed.

(** ** Bursts *)

Fixpoint take_all (tenant : string) (p : TenantPolicy) (costs : list Z) (l : Redis) : list (go_error + Decision) :=
  match costs with
  | [] => []
  | c :: cs => let '(l, d) := Redis_Take tenant p c l in d :: take_all tenant p cs l
  end.

(** What the two limits promise within one instant, in whole numbers: [a]
    requests and [b] tokens are left. *)
Inductive verdict := Admit | Refuse | TooBig.

#[export] Instance verdict_eq_dec : EqDecision verdict.
Proof. solve_decision. Defined.

Fixpoint admit_all (tpm a b : Z) (costs : list Z) : list verdict :=
  match costs with
  | [] => []
  | c :: cs =>
      if tpm <? c then TooBig :: admit_all tpm a b cs
      else if (1 <=? a) && (c <=? b) then Admit :: admit_all tpm (a - 1) (b - c) cs
      else Refuse :: admit_all tpm a b cs
  end.

Definition verdict_of (d : go_error + Decision) : option verdict :=
  match d with
  | inl _ => None
  | inr d => Some (if d_Allowed d then Admit else if d_TooLarge d then TooBig else Refuse)
  end.

Definition admitted_costs (vs : list verdict) (costs : list Z) : list Z :=
  map snd (filter (fun vc => vc.1 = Admit) (zip vs costs)).

Lemma admit_all_bounded tpm costs : forall a b, 0 <= a -> 0 <= b -> Forall (fun c => 0 <= c) costs ->
  Z.of_nat (length (admitted_costs (admit_all tpm a b costs) costs)) <= a /\
  foldr Z.add 0 (admitted_costs (admit_all tpm a b costs) costs) <= b.
Proof.
  induction costs as [|c cs IH]; intros a b Ha Hb HF; [simpl; lia|].
  apply Forall_cons in HF as [Hc HF]. unfold admitted_costs in *. cbn [admit_all].
  destruct (tpm <? c); [|destruct (Z.leb_spec 1 a), (Z.leb_spec c b)]; cbn [andb zip zip_with];
    rewrite filter_cons; case_decide; simplify_eq; try by apply IH.
  cbn [map length foldr snd]. destruct (IH (a - 1) (b - c)); [lia|lia|done|]. lia.
Qed.

Lemma take_all_exact tenant p costs : forall l a b,
  rl_down l = false -> 0 < tp_RPM p -> 0 < tp_TPM p -> exact_int (tp_RPM p) -> exact_int (tp_TPM p) ->
  exact_int (rl_now l) -> Forall (fun c => 0 <= c /\ exact_int c) costs ->
  0 <= a <= tp_RPM p -> 0 <= b <= tp_TPM p ->
  level_is (rl_now l) (rl_buckets l) (keys tenant).1 (tp_RPM p) a ->
  level_is (rl_now l) (rl_buckets l) (keys tenant).2 (tp_TPM p) b ->
  map verdict_of (take_all tenant p costs l) = map Some (admit_all (tp_TPM p) a b costs).
Proof.
  induction costs as [|c cs IH]; intros l a b Hup Hr0 Ht0 Hr Ht Hn HF Ha Hb Hla Hlb; [done|].
  apply Forall_cons in HF as [[Hc0 Hc] HF]. cbn [take_all]. unfold Redis_Take. rewrite Hup.
  pose proof (take_exact _ _ _ _ _ _ _ _ _ (keys_ne tenant) Hr0 Ht0 Hr Ht Hn Hc0 Hc Ha Hb Hla Hlb) as Hx.
  destruct (keys tenant) as [rk tk] eqn:Ek. cbn [fst snd] in *.
  destruct (takeScript _ rk tk _ _ _ _ _) as [[r0 r1] m']. cbn [admit_all].
  destruct (Z.ltb_spec (tp_TPM p) c).
  - destruct Hx as [-> ->]. cbn. f_equal. apply IH; done.
  - destruct ((1 <=? a) && (c <=? b)) eqn:E.
    + destruct Hx as (-> & H1 & H2). cbn. f_equal. apply andb_true_iff in E as [?%Z.leb_le ?%Z.leb_le].
      apply IH; (done || lia).
    + destruct Hx as [-> ->]. cbn. f_equal. apply IH; done.
Qed.

(** C38. Bursts are limited exactly: against a tenant without live buckets, the
    requests that arrive within one instant get the decisions of the integer
    specification [admit_all], so at most RPM requests and TPM tokens are
    admitted, every request that still fits both limits is admitted, and only
    requests larger than TPM are refused as too large. *)
Theorem burst_exact (tenant : string) (p : TenantPolicy) (l : Redis) (costs : list Z)
  (Hup : rl_down l = false) (Hrpm : 0 < tp_RPM p) (Htpm : 0 < tp_TPM p)
  (Hrpm' : exact_int (tp_RPM p)) (Htpm' : exact_int (tp_TPM p)) (Hnow : exact_int (rl_now l))
  (Hcosts : Forall (fun c => 0 <= c /\ exact_int c) costs)
  (Hreq : bucket_get (rl_now l) (rl_buckets l) (keys tenant).1 = None)
  (Htok : bucket_get (rl_now l) (rl_buckets l) (keys tenant).2 = None) :
  let spec := admit_all (tp_TPM p) (tp_RPM p) (tp_TPM p) costs in
  map verdict_of (take_all tenant p costs l) = map Some spec /\
  Z.of_nat (length (admitted_costs spec costs)) <= tp_RPM p /\
  foldr Z.add 0 (admitted_costs spec costs) <= tp_TPM p.
Proof.
  split.
  - apply take_all_exact; try done; try lia; by apply level_is_fresh.
  - apply admit_all_bounded; [lia|lia|]. eapply Forall_impl; [exact Hcosts|]. by intros c [].
Qed.

(** A request that is not admitted is not charged: whatever the levels, a
    reply other than 1 leaves every bucket as it was, the request bucket of a
    call refused by the token bucket included. *)
Theorem refused_take_is_free (now : Z) (k1 k2 : string) (rc c1 tc c2 : Z) (m : buckets) :
  let '(r0, _, m') := takeScript now k1 k2 rc c1 tc c2 m in r0 <> 1 -> m' = m.
Proof. unfold takeScript. repeat case_match; simplify_eq; done. Qed.

(** ** Reconciliation *)

Lemma bucket_get_set now k x m : bucket_get now (bucket_set now k x m) k = Some (mkBucket x (f_of_Z now) (now + 120000)).
Proof.
  unfold bucket_get, bucket_set. rewrite lookup_insert_eq. simpl. destruct (Z.ltb_spec now (now + 120000)); [done|lia].
Qed.

Lemma lua_max_same now : exact_int now -> lua_max f0 (fsub (f_of_Z now) (f_of_Z now)) = f0.
Proof. intros H. by rewrite fsub_exact, Z.sub_diag by (done || by rewrite Z.sub_diag). Qed.

Lemma adjust_exact now m k cap a delta :
  0 < cap -> exact_int cap -> exact_int now -> exact_int a -> exact_int delta -> exact_int (a + delta) ->
  adjustScript now k cap delta (bucket_set now k (f_of_Z a) m) =
  bucket_set now k (f_of_Z (Z.min cap (a + delta))) (bucket_set now k (f_of_Z a) m).
Proof.
  intros H0 Hc Hn Ha Hd Hs. unfold adjustScript.
  rewrite f0_of_Z, fleb_exact by done. destruct (Z.leb_spec cap 0); [lia|].
  rewrite bucket_get_set. cbn [bk_t bk_ts]. rewrite lua_max_same by done.
  assert (fmul f0 (f_of_Z cap) = f0) as ->.
  { rewrite f_of_Z_can by done. by destruct cap. }
  change (fdiv f0 f_60000) with f0.
  assert (fadd (f_of_Z a) f0 = f_of_Z a) as -> by (rewrite f_of_Z_can by done; apply fcanZ_plus_zero).
  rewrite fadd_exact by done. unfold lua_min. rewrite fltb_exact by done.
  destruct (Z.ltb_spec (a + delta) cap); [by rewrite Z.min_r by lia|by rewrite Z.min_l by lia].
Qed.

(** An admitted take leaves the token bucket written at this instant. *)
Lemma take_admitted_bucket now m k1 k2 rpm tpm cost r1 m' :
  0 < tpm -> exact_int tpm -> takeScript now k1 k2 rpm 1 tpm cost m = (1, r1, m') ->
  exists m1, m' = bucket_set now k2 (fsub (take_level now (f_of_Z tpm) (bucket_get now m k2)) (f_of_Z cost)) m1.
Proof.
  intros H0 Ht. unfold takeScript, take_check.
  assert (fgtb (f_of_Z tpm) f0 = true) as ->
    by (rewrite f0_of_Z, fgtb_exact by done; by apply Z.ltb_lt).
  intros H. repeat case_match; simplify_eq; simpl; eauto.
Qed.

(** A call pays for the tokens it used: when the stage admitted a call and
    reconciles it in the same instant, the tenant's token bucket ends at its
    level before the call less the actual usage (nothing for a cache hit or a
    failed call without usage), capped at TPM, whatever the estimate was.  The
    level may become negative: overuse is paid by the next requests. *)
Theorem ratelimit_net_charge (s : RLStage) (l l1 : Redis) (c c1 c2 : Call) (a b : Z)
  (Hup : rl_down l = false) (Hint : cl_Internal c = false) (Hp : cl_Principal c2 = cl_Principal c)
  (Hrpm : 0 < tp_RPM (p_Tenant (cl_Principal c))) (Hrpm' : exact_int (tp_RPM (p_Tenant (cl_Principal c))))
  (Htpm : 0 < tp_TPM (p_Tenant (cl_Principal c))) (Htpm' : exact_int (tp_TPM (p_Tenant (cl_Principal c))))
  (Hnow : exact_int (rl_now l))
  (Hest : 0 <= rl_estimate s c) (Hest' : exact_int (rl_estimate s c)) (Hact : exact_int (2 * rl_actual c2))
  (Hest2 : exact_int (2 * rl_estimate s c)) (Hb2 : exact_int (b - rl_actual c2))
  (Ha : 0 <= a <= tp_RPM (p_Tenant (cl_Principal c))) (Hb : 0 <= b <= tp_TPM (p_Tenant (cl_Principal c)))
  (Hla : level_is (rl_now l) (rl_buckets l) (keys (TenantID (cl_Principal c))).1 (tp_RPM (p_Tenant (cl_Principal c))) a)
  (Hlb : level_is (rl_now l) (rl_buckets l) (keys (TenantID (cl_Principal c))).2 (tp_TPM (p_Tenant (cl_Principal c))) b)
  (Hbefore : RLStage_Before s l c = (l1, c1, (false, None)))
  (Hv : cl_Values c2 !! chargedKey = cl_Values c1 !! chargedKey) :
  level_is (rl_now l) (rl_buckets (RLStage_After s l1 c2).1) (keys (TenantID (cl_Principal c))).2
    (tp_TPM (p_Tenant (cl_Principal c))) (Z.min (tp_TPM (p_Tenant (cl_Principal c))) (b - rl_actual c2)).
Proof.
  unfold RLStage_Before in Hbefore. rewrite Hint in Hbefore.
  set (p := p_Tenant (cl_Principal c)) in *. set (t := TenantID (cl_Principal c)) in *.
  destruct (Z.eqb_spec (tp_RPM p) 0); [lia|]. cbn [andb Take redis_backend] in Hbefore.
  unfold Redis_Take in Hbefore. rewrite Hup in Hbefore.
  pose proof (take_exact _ _ _ _ _ _ _ _ _ (keys_ne t) Hrpm Htpm Hrpm' Htpm' Hnow Hest Hest' Ha Hb Hla Hlb) as Hx.
  destruct (keys t) as [rk tk] eqn:Ek. cbn [fst snd] in *.
  destruct (takeScript _ rk tk _ _ _ _ _) as [[r0 r1] m'] eqn:Et.
  destruct (Z.ltb_spec (tp_TPM p) (rl_estimate s c)); [by destruct Hx as [-> ->]; simplify_eq/=|].
  destruct ((1 <=? a) && (rl_estimate s c <=? b)) eqn:E; [|by destruct Hx as [-> ->]; simplify_eq/=].
  destruct Hx as (-> & _ & Hl2). cbn in Hbefore. simplify_eq.
  apply andb_true_iff in E as [_ Hle%Z.leb_le].
  unfold RLStage_After. rewrite Hv. cbn [set_Value cl_Values]. rewrite lookup_insert_eq.
  rewrite Hp. fold p t. cbn [Adjust redis_backend]. unfold Redis_Adjust. rewrite Ek. cbn [snd].
  rewrite wrap64_id by (unfold in_int64, int64_min, int64_max, exact_int in *; lia).
  destruct (Z.eqb_spec (tp_TPM p) 0); [lia|]. rewrite orb_false_r.
  destruct (take_admitted_bucket _ _ _ _ _ _ _ _ _ Htpm Htpm' Et) as [m1 ->].
  unfold level_is in Hlb. rewrite Hlb in *.
  rewrite fsub_exact in * by (unfold exact_int in *; (done || lia)).
  destruct (Z.eqb_spec (rl_estimate s c - rl_actual c2) 0) as [E0|]; cbn [fst rl_buckets rl_now].
  - rewrite Z.min_r by lia. replace (rl_actual c2) with (rl_estimate s c) by lia. exact Hl2.
  - rewrite adjust_exact by (unfold exact_int in *; (done || lia)).
    replace (b - rl_estimate s c + (rl_estimate s c - rl_actual c2)) with (b - rl_actual c2) by lia.
    apply level_is_set; unfold exact_int in *; (done || lia).
Qed.

(** When the limiter cannot be reached, a strict tenant's call fails with
    503; any other call goes on, the fail-open callback is called and nothing
    is charged, so the later reconciliation has no effect. *)
Theorem ratelimit_outage {W : Type} `{Backend W} (s : RLStage) (w w1 : W) (c : Call) (e : go_error)
  (Hint : cl_Internal c = false) (Hnew : cl_Values c !! chargedKey = None)
  (Hlim : tp_RPM (p_Tenant (cl_Principal c)) <> 0 \/ tp_TPM (p_Tenant (cl_Principal c)) <> 0)
  (Hdown : Take (TenantID (cl_Principal c)) (p_Tenant (cl_Principal c)) (rl_estimate s c) w = (w1, inl e)) :
  if tp_Strict (p_Tenant (cl_Principal c))
  then exists err, RLStage_Before s w c = (w1, c, (false, Some (ErrApi err))) /\ ae_Status err = 503
  else RLStage_Before s w c = (fail_open w1, c, (false, None)) /\ RLStage_After s (fail_open w1) c = (fail_open w1, c).
Proof.
  unfold RLStage_Before, RLStage_After. rewrite Hint, Hdown, Hnew.
  assert ((tp_RPM (p_Tenant (cl_Principal c)) =? 0) && (tp_TPM (p_Tenant (cl_Principal c)) =? 0) = false) as ->
    by (apply andb_false_iff; rewrite !Z.eqb_neq; done).
  destruct (tp_Strict _); [|done]. eexists. split; done.
Qed.

(** ** Witnesses *)

Definition demo_policy : TenantPolicy := mkTenantPolicy 2 1000 f0 true None false "".
Definition demo_principal (p : TenantPolicy) : Principal :=
  mkPrincipal "t1" "Tenant" "k1" "Key" [] false p no_key_policy.
Definition demo_call (p : TenantPolicy) : Call :=
  NewCall "call-1" 0 (demo_principal p) (plain_request "chat" [plain_message "user" "hello"]) None.
Definition demo_redis : Redis := mkRedis 5000 ∅ false 0.
Definition demo_rl : RLStage := mkRLStage 500 100.

Lemma burst_exact_witness :
  map verdict_of (take_all "t1" demo_policy [600; 600; 2000; 300; 50] demo_redis) =
    map Some [Admit; Refuse; TooBig; Admit; Refuse].
Proof.
  destruct (burst_exact "t1" demo_policy demo_redis [600; 600; 2000; 300; 50]) as [H _];
    [reflexivity|reflexivity|reflexivity|vm_compute; reflexivity|vm_compute; reflexivity|vm_compute; reflexivity|
     |vm_compute; reflexivity|vm_compute; reflexivity|].
  - repeat constructor; try lia; vm_compute; reflexivity.
  - rewrite H. vm_compute. reflexivity.
Defined.

Definition used_call : Call :=
  let c := (RLStage_Before demo_rl demo_redis (demo_call demo_policy)).1.2 in
  mkCall (cl_ID c) (cl_Start c) (cl_Principal c) (cl_Request c) None false None None (mkTarget "openai" "gpt") 1
    (mkUsage 30 12 42 None) 0 0 "miss" None false ∅ ∅ (cl_Values c).

Lemma ratelimit_net_charge_witness :
  level_is 5000 (rl_buckets (RLStage_After demo_rl
    (RLStage_Before demo_rl demo_redis (demo_call demo_policy)).1.1 used_call).1) (keys "t1").2 1000 958.
Proof.
  apply (ratelimit_net_charge demo_rl demo_redis _ (demo_call demo_policy)
    (RLStage_Before demo_rl demo_redis (demo_call demo_policy)).1.2 used_call 2 1000);
    try done; try (vm_compute; split; discriminate).
Defined.

Lemma ratelimit_outage_witness :
  exists err, RLStage_Before demo_rl (mkRedis 5000 ∅ true 0) (demo_call demo_policy) =
    (mkRedis 5000 ∅ true 0, demo_call demo_policy, (false, Some (ErrApi err))) /\ ae_Status err = 503.
Proof.
  apply (ratelimit_outage demo_rl (mkRedis 5000 ∅ true 0) (mkRedis 5000 ∅ true 0) (demo_call demo_policy) redis_error);
    try done. by left.
Defined.

Lemma refused_take_is_free_witness :
  (takeScript 5000 "a" "b" 2 1 1000 2000 ∅).2 = ∅.
Proof.
  pose proof (refused_take_is_free 5000 "a" "b" 2 1 1000 2000 ∅) as H.
  destruct (takeScript 5000 "a" "b" 2 1 1000 2000 ∅) as [[r0 r1] m'] eqn:E. apply H.
  vm_compute in E. by simplify_eq.
Defined.
