(* ===== verification/Budget.v ===== *)
(** * Budgets: prices and the ledger (src/internal/budget/pricing.go, budget.go)

    The price table, and the monthly counter of a tenant in Redis with the two
    Lua scripts that reserve and correct it.  Lua computes in binary64 and
    [INCRBY] in int64; what [SET] stores is the text [tostring] prints, with 14
    significant digits. *)

From S2P Require Import Prelude GoStrings GoFloat GoFloatInt Breaker Config Api.

Open Scope string_scope.
Open Scope list_scope.
Open Scope Z_scope.

(** ** Prices *)

Record Pricing := mkPricing { prices : gmap string Price }.

Definition NewPricing (m : gmap string Price) : Pricing := mkPricing m.

Definition CostMicros (p : Pricing) (target : string) (u : Usage) : Z * bool :=
  match prices p !! target with
  | None => (0, false)
  | Some pr =>
      let cached := Usage_CachedTokens u in
      let cachedPrice := if feqb (pr_CachedInput pr) f0 then pr_Input pr else pr_CachedInput pr in
      let promptTokens := Z.max 0 (u_PromptTokens u) in
      let completionTokens := Z.max 0 (u_CompletionTokens u) in
      let v := fadd (fadd (fmul (f_of_Z (wrap64 (promptTokens - cached))) (pr_Input pr))
                          (fmul (f_of_Z cached) cachedPrice))
                    (fmul (f_of_Z completionTokens) (pr_Output pr)) in
      (f_round_int64 v, true)
  end.

(** The worst case on one target. *)
Definition target_estimate (pr : Price) (promptTokens maxTokens : Z) : Z :=
  f_ceil_int64 (fadd (fmul (f_of_Z promptTokens) (pr_Input pr)) (fmul (f_of_Z maxTokens) (pr_Output pr))).

Definition clamp_tokens (promptTokens maxTokens : Z) : Z * Z :=
  (Z.max 0 promptTokens, if 10000000 <? maxTokens then 10000000 else if maxTokens <? 0 then 0 else maxTokens).

Fixpoint estimate_loop (p : Pricing) (promptTokens maxTokens : Z) (targets : list string) (maxMicros : Z) : Z * bool :=
  match targets with
  | [] => (maxMicros, true)
  | target :: rest =>
      match prices p !! target with
      | None => (0, false)
      | Some pr =>
          let est := target_estimate pr promptTokens maxTokens in
          estimate_loop p promptTokens maxTokens rest (if maxMicros <? est then est else maxMicros)
      end
  end.

Definition EstimateMaxMicros (p : option Pricing) (targets : list string) (promptTokens maxTokens : Z) : Z * bool :=
  match p with
  | None => (0, false)
  | Some p =>
      if bool_decide (targets = []) then (0, false)
      else let '(pt, mt) := clamp_tokens promptTokens maxTokens in estimate_loop p pt mt targets 0
  end.

Definition HasPricing (p : option Pricing) (target : string) : bool :=
  match p with None => false | Some p => bool_decide (is_Some (prices p !! target)) end.

Lemma estimate_loop_ok p pt mt targets acc :
  match estimate_loop p pt mt targets acc with
  | (v, true) => acc <= v /\
      (forall t, t ∈ targets -> exists pr, prices p !! t = Some pr /\ target_estimate pr pt mt <= v) /\
      (v = acc \/ exists t pr, t ∈ targets /\ prices p !! t = Some pr /\ v = target_estimate pr pt mt)
  | (v, false) => v = 0 /\ exists t, t ∈ targets /\ prices p !! t = None
  end.
Proof.
  revert acc. induction targets as [|t ts IH]; intros acc; cbn [estimate_loop].
  - split; [lia|]. split; [by intros t ?%elem_of_nil|by left].
  - destruct (prices p !! t) as [pr|] eqn:Ep; [|split; [done|]; exists t; split; [constructor|done]].
    specialize (IH (if acc <? target_estimate pr pt mt then target_estimate pr pt mt else acc)).
    destruct (estimate_loop _ _ _ _ _) as [v []].
    + destruct IH as (Hle & Hall & Hor).
      destruct (Z.ltb_spec acc (target_estimate pr pt mt)).
      * split; [lia|]. split.
        -- intros t' [->|Ht]%elem_of_cons; [exists pr; split; [done|lia]|by apply Hall].
        -- right. destruct Hor as [->|(t' & pr' & Ht & ? & ?)].
           ++ exists t, pr. split; [constructor|done].
           ++ exists t', pr'. split; [by constructor|done].
      * split; [lia|]. split.
        -- intros t' [->|Ht]%elem_of_cons; [exists pr; split; [done|lia]|by apply Hall].
        -- destruct Hor as [->|(t' & pr' & Ht & ? & ?)]; [by left|right].
           exists t', pr'. split; [by constructor|done].
    + destruct IH as (-> & t' & Ht & ?). split; [done|]. exists t'. split; [by constructor|done].
Qed.

(** The estimate to reserve covers the dearest target: it is the largest of
    the worst cases of the targets (0 when all are negative), with the prompt
    tokens taken as at least 0 and the output limit clamped to 0..10,000,000;
    it exists exactly when there is a target and every target has a price. *)
Theorem EstimateMaxMicros_correct (p : Pricing) (targets : list string) (promptTokens maxTokens : Z) :
  let '(pt, mt) := clamp_tokens promptTokens maxTokens in
  (0 <= pt /\ 0 <= mt <= 10000000) /\
  match EstimateMaxMicros (Some p) targets promptTokens maxTokens with
  | (v, true) => targets <> [] /\ 0 <= v /\
      (forall t, t ∈ targets -> exists pr, prices p !! t = Some pr /\ target_estimate pr pt mt <= v) /\
      (v = 0 \/ exists t pr, t ∈ targets /\ prices p !! t = Some pr /\ v = target_estimate pr pt mt)
  | (v, false) => v = 0 /\ (targets = [] \/ exists t, t ∈ targets /\ prices p !! t = None)
  end.
Proof.
  unfold EstimateMaxMicros, clamp_tokens. split; [repeat case_match; zlia|].
  case_bool_decide as Hn; [by split; [|left]|].
  pose proof (estimate_loop_ok p (Z.max 0 promptTokens)
    (if 10000000 <? maxTokens then 10000000 else if maxTokens <? 0 then 0 else maxTokens) targets 0) as H.
  destruct (estimate_loop _ _ _ _ _) as [v []]; [done|]. destruct H as [-> H]. split; [done|by right].
Qed.

(** ** The ledger *)

(** The text stored under a key: an integer, or digits and an exponent, of the
    integer value given. *)
Inductive stored := LInt (z : Z) | LSci (z : Z).

Record entry := mkEntry { en_val : stored; en_expire : Z }.

Abbreviation ledger := (gmap string entry) (only parsing).

Definition ledger_get (now : Z) (m : ledger) (k : string) : option stored :=
  match m !! k with
  | Some e => if now <? en_expire e then Some (en_val e) else None
  | None => None
  end.

Definition ttlSecs : Z := 40 * 24 * 3600.

(** [SET] or [INCRBY], then [EXPIRE]; times are Redis seconds. *)
Definition ledger_set (now : Z) (k : string) (v : stored) (m : ledger) : ledger :=
  <[k := mkEntry v (now + ttlSecs)]> m.

(** [tonumber(redis.call('GET', k) or '0')] *)
Definition lua_tonumber (v : option stored) : spec_float :=
  match v with None => f0 | Some (LInt z | LSci z) => f_of_Z z end.

(** [tostring] of an integral number, ["%.14g"]: an exponent from 15 digits on. *)
Definition round14 (z : Z) : Z :=
  let k := Z.of_nat (String.length (utoa (Z.abs z))) - 14 in
  Z.sgn z * round_half_even (Z.abs z) (10 ^ k) * 10 ^ k.

Definition lua_tostring (x : spec_float) : stored :=
  let z := f_num x / f_den x in
  if Z.abs z <? 10 ^ 14 then LInt z else LSci (round14 z).

Definition script_error : go_error := ErrOther "ERR value is not an integer or out of range".

(** [reserveScript] *)
Definition reserveScript (now : Z) (k : string) (est limit : Z) (m : ledger) : (go_error + Z * Z) * ledger :=
  let v := ledger_get now m k in
  let cur := lua_tonumber v in
  if fgtb (fadd cur (f_of_Z est)) (f_of_Z limit) then (inr (0, f_to_int64 cur), m)
  else
    let next := fadd cur (f_of_Z est) in
    match default (LInt 0) v with                       (* INCRBY *)
    | LInt z =>
        if (int64_min <=? z + est) && (z + est <=? int64_max)
        then (inr (1, f_to_int64 next), ledger_set now k (LInt (z + est)) m)
        else (inl script_error, m)
    | LSci _ => (inl script_error, m)
    end.

(** [addScript] *)
Definition addScript (now : Z) (k : string) (delta : Z) (m : ledger) : ledger :=
  let next := fadd (lua_tonumber (ledger_get now m k)) (f_of_Z delta) in
  let next := if fltb next f0 then f0 else next in
  ledger_set now k (lua_tostring next) m.

(** *** The interface and its Redis implementation *)

Class Ledger (W : Type) := {
  Spent : string -> string -> W -> W * (go_error + Z);
  Add : string -> string -> Z -> W -> W * option go_error;
  Reserve : string -> string -> Z -> Z -> W -> W * (go_error + bool * Z);
  on_fail_open : W -> W
}.

Record RedisLedger := mkRedisLedger { rdb_now : Z; rdb : ledger; rdb_down : bool; rdb_failopens : Z }.

Definition ledgerKey (tenantID month : string) : string := "budget:{t:" +:+ tenantID +:+ "}:" +:+ month.

Definition down_error : go_error := ErrOther "redis: connection refused".

Definition RedisLedger_Spent (tenantID month : string) (l : RedisLedger) : RedisLedger * (go_error + Z) :=
  (l, if rdb_down l then inl down_error else
      match ledger_get (rdb_now l) (rdb l) (ledgerKey tenantID month) with
      | None => inr 0
      | Some (LInt z) => inr z
      | Some (LSci _) => inl (ErrOther "strconv.ParseInt: invalid syntax")
      end).

Definition set_rdb (l : RedisLedger) (m : ledger) : RedisLedger :=
  mkRedisLedger (rdb_now l) m (rdb_down l) (rdb_failopens l).

Definition RedisLedger_Add (tenantID month : string) (micros : Z) (l : RedisLedger) : RedisLedger * option go_error :=
  if rdb_down l then (l, Some down_error)
  else (set_rdb l (addScript (rdb_now l) (ledgerKey tenantID month) micros (rdb l)), None).

Definition RedisLedger_Reserve (tenantID month : string) (est limit : Z) (l : RedisLedger)
  : RedisLedger * (go_error + bool * Z) :=
  if rdb_down l then (l, inl down_error) else
  match reserveScript (rdb_now l) (ledgerKey tenantID month) est limit (rdb l) with
  | (inl e, m) => (set_rdb l m, inl e)
  | (inr (r0, r1), m) => (set_rdb l m, inr (r0 =? 1, r1))
  end.

#[export] Instance redis_ledger : Ledger RedisLedger := {
  Spent := RedisLedger_Spent;
  Add := RedisLedger_Add;
  Reserve := RedisLedger_Reserve;
  on_fail_open l := mkRedisLedger (rdb_now l) (rdb l) (rdb_down l) (rdb_failopens l + 1)
}.

(** ** The scripts on whole amounts *)

Definition small (z : Z) : Prop := 0 <= z < 10 ^ 14.

Lemma small_exact z : small z -> exact_int z.
Proof. unfold small, exact_int. lia. Qed.

Definition holds (now : Z) (m : ledger) (k : string) (z : Z) : Prop :=
  default (LInt 0) (ledger_get now m k) = LInt z.

Lemma holds_tonumber now m k z : holds now m k z -> lua_tonumber (ledger_get now m k) = f_of_Z z.
Proof. unfold holds. destruct (ledger_get now m k) as [[|]|]; simpl; intros; by simplify_eq. Qed.

Lemma holds_set now now' m k z : now <= now' < now + ttlSecs -> holds now' (ledger_set now k (LInt z) m) k z.
Proof.
  intros H. unfold holds, ledger_get, ledger_set. rewrite lookup_insert_eq. simpl.
  destruct (Z.ltb_spec now' (now + ttlSecs)); [done|lia].
Qed.

Lemma lua_tostring_exact z : small z -> lua_tostring (f_of_Z z) = LInt z.
Proof.
  intros H. unfold lua_tostring. rewrite f_of_Z_can by by apply small_exact.
  destruct (fcanZ_integral z (small_exact z H)) as [-> Hd]. rewrite Z.div_mul by lia.
  unfold small in H. destruct (Z.ltb_spec (Z.abs z) (10 ^ 14)); [done|lia].
Qed.

Lemma reserve_exact now k est limit m z :
  holds now m k z -> small z -> 0 <= est -> exact_int (z + est) -> exact_int limit ->
  reserveScript now k est limit m =
  if limit <? z + est then (inr (0, z), m)
  else (inr (1, z + est), ledger_set now k (LInt (z + est)) m).
Proof.
  intros Hh Hz He Hs Hl. unfold reserveScript. rewrite (holds_tonumber _ _ _ _ Hh).
  assert (exact_int z /\ exact_int est) as [? ?] by (unfold exact_int, small in *; lia).
  rewrite fadd_exact, fgtb_exact by done. destruct (Z.ltb_spec limit (z + est)).
  - by rewrite f_to_int64_exact.
  - rewrite f_to_int64_exact by done. unfold holds in Hh. rewrite Hh.
    destruct (Z.leb_spec int64_min (z + est)), (Z.leb_spec (z + est) int64_max); try done;
      unfold exact_int, int64_min, int64_max in *; lia.
Qed.

Lemma add_exact now k delta m z :
  holds now m k z -> small z -> exact_int delta -> exact_int (z + delta) -> z + delta < 10 ^ 14 ->
  addScript now k delta m = ledger_set now k (LInt (Z.max 0 (z + delta))) m.
Proof.
  intros Hh Hz Hd Hs Hb. unfold addScript. rewrite (holds_tonumber _ _ _ _ Hh).
  rewrite fadd_exact by (done || by apply small_exact). change f0 with (f_of_Z 0).
  rewrite fltb_exact by done. destruct (Z.ltb_spec (z + delta) 0).
  - rewrite Z.max_l by lia. by rewrite lua_tostring_exact.
  - rewrite Z.max_r by lia. rewrite lua_tostring_exact; [done|]. unfold small. lia.
Qed.

(** ** Concurrent calls on one counter

    The calls of a tenant in a month reserve before they run and settle
    afterwards, in any interleaving; [ac_out] are the outstanding reservations,
    [ac_settled] the total cost of the finished calls and [ac_over] the total by
    which they exceeded their reservations. *)
Record acct := mkAcct {
  ac_m : ledger;
  ac_now : Z;              (* the last write *)
  ac_out : list Z;
  ac_settled : Z;
  ac_over : Z
}.

Definition zsum (l : list Z) : Z := foldr Z.add 0 l.

Section Accounting.
Context (k : string) (limit : Z).

(** The reconciliation of a finished call: nothing to write when the cost is the
    reservation. *)
Definition settle (now : Z) (delta : Z) (m : ledger) : ledger :=
  if delta =? 0 then m else addScript now k delta m.

Inductive acct_step : acct -> acct -> Prop :=
| acct_reserve s now est r x m' :
    ac_now s <= now < ac_now s + ttlSecs -> 0 <= est < 2 ^ 52 ->
    reserveScript now k est limit (ac_m s) = (inr (r, x), m') ->
    acct_step s (mkAcct m' (if r =? 1 then now else ac_now s)
      (if r =? 1 then est :: ac_out s else ac_out s) (ac_settled s) (ac_over s))
| acct_settle s now est cost out' :
    ac_now s <= now < ac_now s + ttlSecs -> ac_out s ≡ₚ est :: out' -> 0 <= cost ->
    limit + ac_over s + Z.max 0 (cost - est) < 10 ^ 14 ->
    acct_step s (mkAcct (settle now (cost - est) (ac_m s)) (if cost - est =? 0 then ac_now s else now)
      out' (ac_settled s + cost) (ac_over s + Z.max 0 (cost - est))).

Definition acct_total (s : acct) : Z := ac_settled s + zsum (ac_out s).

Definition acct_inv (s : acct) : Prop :=
  0 <= ac_settled s /\ 0 <= ac_over s /\ Forall (fun e => 0 <= e < 2 ^ 52) (ac_out s) /\
  acct_total s <= limit + ac_over s < 10 ^ 14 /\
  (ac_m s !! k = Some (mkEntry (LInt (acct_total s)) (ac_now s + ttlSecs)) \/
   ac_m s !! k = None /\ ac_out s = [] /\ ac_settled s = 0).

Definition fresh_acct (m : ledger) (now : Z) : acct := mkAcct m now [] 0 0.

Lemma zsum_perm l l' : l ≡ₚ l' -> zsum l = zsum l'.
Proof. unfold zsum. induction 1; simpl; lia. Qed.

Lemma zsum_nonneg l : Forall (fun e => 0 <= e < 2 ^ 52) l -> 0 <= zsum l.
Proof. unfold zsum. induction 1; simpl; lia. Qed.

Lemma acct_inv_holds s now : acct_inv s -> ac_now s <= now < ac_now s + ttlSecs ->
  holds now (ac_m s) k (acct_total s) /\ small (acct_total s).
Proof.
  intros (Hs & Ho & HF & Hb & Hm) Hn. pose proof (zsum_nonneg _ HF).
  split; [|unfold small, acct_total in *; lia].
  unfold holds, ledger_get. destruct Hm as [->|(-> & E1 & E2)].
  - simpl. destruct (Z.ltb_spec now (ac_now s + ttlSecs)); [done|lia].
  - simpl. unfold acct_total. by rewrite E1, E2.
Qed.

Lemma acct_inv_step s s' : 0 <= limit -> acct_inv s -> acct_step s s' -> acct_inv s'.
Proof.
  intros Hlim Hinv Hstep. pose proof Hinv as (Hs & Ho & HF & Hb & Hm).
  pose proof (zsum_nonneg _ HF) as Hz.
  destruct Hstep as [s now est r x m' Hn He Hr|s now est cost out' Hn Hp Hc Hlt].
  - destruct (acct_inv_holds s now Hinv Hn) as [Hh Hsm].
    rewrite (reserve_exact _ _ _ _ _ _ Hh Hsm) in Hr by (unfold exact_int, small in *; lia).
    destruct (Z.ltb_spec limit (acct_total s + est)); simplify_eq; simpl.
    + unfold acct_inv. simpl. done.
    + unfold acct_inv, acct_total in *. simpl in *. split_and!; [done|done|by constructor|lia|lia|].
      left. unfold ledger_set. rewrite lookup_insert_eq. do 2 f_equal. f_equal. unfold zsum. simpl. lia.
  - pose proof (zsum_perm _ _ Hp) as Hzp. unfold zsum at 2 in Hzp. simpl in Hzp. fold (zsum out') in Hzp.
    rewrite Hp in HF. apply Forall_cons in HF as [Hest HF'].
    pose proof (zsum_nonneg _ HF') as Hz'.
    destruct Hm as [Hm|(_ & E & _)]; [|rewrite E in Hp; by apply Permutation_nil_cons in Hp].
    assert (holds now (ac_m s) k (acct_total s) /\ small (acct_total s)) as [Hh Hsm] by by apply acct_inv_holds.
    unfold acct_inv, acct_total in *. simpl. split_and!; [lia|lia|done|lia|lia|].
    left. unfold settle. destruct (Z.eqb_spec (cost - est) 0).
    + rewrite Hm. do 2 f_equal. f_equal. lia.
    + rewrite (add_exact _ _ _ _ _ Hh Hsm) by (unfold exact_int, small in *; lia).
      unfold ledger_set. rewrite lookup_insert_eq. do 2 f_equal. f_equal. lia.
Qed.

Lemma acct_inv_fresh m now : 0 <= limit < 10 ^ 14 -> m !! k = None -> acct_inv (fresh_acct m now).
Proof.
  intros Hl Hm. unfold acct_inv, acct_total. simpl. split_and!; try done; try lia. by right.
Qed.
End Accounting.

(** C2. The budget holds under concurrency: whatever the interleaving of the
    calls of a month, the counter is the cost of the finished calls plus the
    outstanding reservations, and it exceeds the limit by at most what finished
    calls cost beyond their own reservations: never, when estimates cover
    costs. *)
Theorem ledger_accounting (k : string) (limit : Z) (m : ledger) (now0 now : Z) (s : acct)
  (Hlimit : 0 <= limit < 10 ^ 14) (Hfresh : m !! k = None)
  (Hreach : reachable (acct_step k limit) (fresh_acct m now0) s)
  (Hnow : ac_now s <= now < ac_now s + ttlSecs) :
  holds now (ac_m s) k (ac_settled s + zsum (ac_out s)) /\
  ac_settled s + zsum (ac_out s) <= limit + ac_over s.
Proof.
  assert (acct_inv k limit s) as Hinv.
  { eapply reachable_invariant; [| |exact Hreach]; [by apply acct_inv_fresh|].
    intros. by eapply acct_inv_step; [lia| |]. }
  split; [by apply (acct_inv_holds k limit)|]. apply Hinv.
Qed.

(** A reservation is refused exactly when it would exceed the limit, with the
    amount spent so far and without a change; otherwise it is added. *)
Theorem Reserve_correct (tenantID month : string) (est limit z : Z) (l : RedisLedger)
  (Hup : rdb_down l = false) (Hz : small z) (Hest : 0 <= est) (Hsum : exact_int (z + est)) (Hlim : exact_int limit)
  (Hh : holds (rdb_now l) (rdb l) (ledgerKey tenantID month) z) :
  if limit <? z + est
  then RedisLedger_Reserve tenantID month est limit l = (l, inr (false, z))
  else exists l', RedisLedger_Reserve tenantID month est limit l = (l', inr (true, z + est)) /\
       holds (rdb_now l') (rdb l') (ledgerKey tenantID month) (z + est).
Proof.
  unfold RedisLedger_Reserve. rewrite Hup, (reserve_exact _ _ _ _ _ _ Hh) by done.
  destruct (limit <? z + est); [by destruct l|].
  eexists. split; [done|]. apply holds_set. unfold ttlSecs. simpl. lia.
Qed.

(** From 10^14 micro-dollars on the counter is stored with an exponent, and the
    next reservation fails. *)
Lemma add_beyond_1e14_breaks_reserve :
  let m := addScript 0 "k" (10 ^ 14) ∅ in
  ledger_get 0 m "k" = Some (LSci (10 ^ 14)) /\
  (reserveScript 0 "k" 1 (2 * 10 ^ 14) m).1 = inl script_error.
Proof. split; vm_compute; reflexivity. Qed.

(** ** Witnesses *)

Definition demo_acct : acct :=
  mkAcct (addScript 20 "k" (-30) (ledger_set 10 "k" (LInt 100) ∅)) 20 [] 70 0.

Lemma ledger_accounting_witness :
  holds 25 (ac_m demo_acct) "k" 70 /\ 70 <= 150 + 0.
Proof.
  apply (ledger_accounting "k" 150 ∅ 5 25 demo_acct); [lia|reflexivity| |simpl; unfold ttlSecs; lia].
  eapply reach_step; [eapply reach_step; [apply reach_refl|]|].
  - apply (acct_reserve "k" 150 (fresh_acct ∅ 5) 10 100 1 100 (ledger_set 10 "k" (LInt 100) ∅));
      [simpl; unfold ttlSecs; lia|lia|vm_compute; reflexivity].
  - apply (acct_settle "k" 150 (mkAcct (ledger_set 10 "k" (LInt 100) ∅) 10 [100] 0 0) 20 100 70 []);
      [simpl; unfold ttlSecs; lia|done|lia|simpl; lia].
Defined.

Definition demo_ledger : RedisLedger :=
  mkRedisLedger 10 (ledger_set 5 (ledgerKey "t1" "2026-01") (LInt 900) ∅) false 0.

Lemma Reserve_correct_witness :
  RedisLedger_Reserve "t1" "2026-01" 200 1000 demo_ledger = (demo_ledger, inr (false, 900)).
Proof.
  apply (Reserve_correct "t1" "2026-01" 200 1000 900 demo_ledger); try done; unfold small, exact_int; lia.
Defined.
