(* ===== verification/BudgetStage.v ===== *)
(** * The budget stage (src/internal/budget/budget.go, Stage)

    A two-phase charge around a call: reserve the worst case, settle the actual
    cost.  The stage is written against the [Ledger] interface. *)

From S2P Require Import Prelude GoStrings GoFloat GoFloatInt Breaker Config Api Execute Route Policy Pipeline Budget.

Open Scope string_scope.
Open Scope list_scope.
Open Scope Z_scope.

(** ** [Month]: [t.UTC().Format("2006-01")]

    The civil date of a day number (day 0 is January 1 of year 1), by 400-year
    eras that start in March. *)
Definition civil_date (days : Z) : Z * Z * Z :=
  let z := days + 306 in                        (* since March 1 of year 0 *)
  let era := z / 146097 in
  let doe := z mod 146097 in
  let yoe := (doe - doe / 1460 + doe / 36524 - doe / 146096) / 365 in
  let doy := doe - (365 * yoe + yoe / 4 - yoe / 100) in
  let mp := (5 * doy + 2) / 153 in
  let m := if mp <? 10 then mp + 3 else mp - 9 in
  let y := yoe + era * 400 + (if m <=? 2 then 1 else 0) in (y, m, doy - (153 * mp + 2) / 5 + 1).

Definition civil_month (days : Z) : Z * Z := (civil_date days).1.

Definition Month (t : Time) : string :=
  let '(y, m) := civil_month (t / (24 * hour)) in
  let ys := utoa y in let ms := utoa m in
  pad_left (4 - String.length ys) ys +:+ "-" +:+ pad_left (2 - String.length ms) ms.

Example month_epoch : Month 0 = "0001-01". Proof. vm_compute. reflexivity. Qed.
(* 2024-02-29 is day 738944 *)
Example month_leap : Month (738944 * 24 * hour) = "2024-02". Proof. vm_compute. reflexivity. Qed.
Example month_next : Month (738945 * 24 * hour) = "2024-03". Proof. vm_compute. reflexivity. Qed.

(** ** The stage *)

Record BudgetStage := mkBudgetStage {
  bs_pricing : option Pricing;
  bs_reserveStrict : bool;
  bs_requirePricing : bool;
  bs_defaultMax : Z
}.

Record StageOpts := mkStageOpts {
  so_Pricing : option Pricing; so_ReserveStrict : bool; so_RequirePricing : bool; so_DefaultMax : Z }.

Definition NewStage (opts : option StageOpts) : BudgetStage :=
  match opts with
  | None => mkBudgetStage None true false 8192
  | Some o => mkBudgetStage (so_Pricing o) (so_ReserveStrict o) (so_RequirePricing o)
                (if 0 <? so_DefaultMax o then so_DefaultMax o else 8192)
  end.

Definition add_unseen (ts : list string) (t : string) : list string :=
  if negb (String.eqb t "") && negb (bool_decide (t ∈ ts)) then ts ++ [t] else ts.

(** The targets whose worst case is reserved. *)
Definition budget_targets (c : Call) : list string :=
  if negb (String.eqb (Provider (cl_Target c)) "") && negb (String.eqb (Model (cl_Target c)) "")
  then [Target_String (cl_Target c)]
  else match cl_Route c with
  | Some rt =>
      let targets := dedup_from [] (map Target_String (ro_Targets rt)) in
      let sr := ro_SmartRoute rt in
      if negb (String.eqb (sr_Mode sr) "off") && negb (String.eqb (sr_Mode sr) "")
      then add_unseen (add_unseen targets (sr_CheapTarget sr)) (sr_StrongTarget sr)
      else targets
  | None => if String.eqb (r_Model (cl_Request c)) "" then [] else [r_Model (cl_Request c)]
  end.

Definition usd (micros : Z) : spec_float := fdiv (f_of_Z micros) (f_of_Z 1000000).

Definition remaining_header : string := "X-ProofGate-Budget-Remaining-USD".
Definition set_remaining (c : Call) (v : spec_float) : Call := set_Header c remaining_header (format_fixed 6 v).

Definition ledger_unavailable : go_error :=
  ErrApi (api_error 503 "budget ledger unavailable" "api_error" "budget_unavailable").
Definition unpriced_target (tenantID : string) : go_error :=
  ErrApi (api_error 500 ("unpriced target in route for tenant " +:+ tenantID +:+ " with monthly budget")
            "api_error" "unpriced_target").
Definition budget_reached (limit : Z) : go_error :=
  ErrApi (BudgetExceeded ("monthly budget of $" +:+ format_fixed 2 (usd limit) +:+ " reached")).

(** The amount to reserve, [None] when an unpriced target is refused. *)
Definition budget_estimate (s : BudgetStage) (c : Call) : option Z :=
  let targets := budget_targets c in
  let promptTokens := EstimatePromptTokens (cl_Request c) in
  let maxTokens := ChatRequest_EffectiveMaxTokens (cl_Request c) (bs_defaultMax s) in
  if bool_decide (is_Some (bs_pricing s)) && negb (bool_decide (targets = [])) then
    let '(est, ok) := EstimateMaxMicros (bs_pricing s) targets promptTokens maxTokens in
    if negb ok && bs_requirePricing s then None else Some est
  else Some 0.

Section Stage.
Context {W : Type} `{Ledger W} (now : W -> Time).

Definition Stage_Before (s : BudgetStage) (w : W) (c : Call) : W * Call * (bool * option go_error) :=
  let p := cl_Principal c in
  let limit := BudgetMicros (p_Tenant p) in
  if limit =? 0 then (w, c, (false, None)) else
  let month := Month (now w) in
  if bs_reserveStrict s then
    match budget_estimate s c with
    | None => (w, c, (false, Some (unpriced_target (TenantID p))))
    | Some est =>
        match Reserve (TenantID p) month est limit w with
        | (w, inl _) =>
            if tp_Strict (p_Tenant p) then (w, c, (false, Some ledger_unavailable))
            else (on_fail_open w, c, (false, None))
        | (w, inr (false, spent)) =>
            (w, set_remaining c (math_Max f0 (usd (wrap64 (limit - spent)))), (false, Some (budget_reached limit)))
        | (w, inr (true, spent)) =>
            let c := set_Value (set_Value c "budget.reserved" (AInt64 est)) "budget.month" (AString month) in
            (w, set_remaining c (usd (wrap64 (limit - spent))), (false, None))
        end
    end
  else
    let c := set_Value c "budget.month" (AString month) in
    match Spent (TenantID p) month w with
    | (w, inl _) =>
        if tp_Strict (p_Tenant p) then (w, c, (false, Some ledger_unavailable)) else (w, c, (false, None))
    | (w, inr spent) =>
        if limit <=? spent then (w, c, (false, Some (budget_reached limit)))
        else (w, set_remaining c (usd (wrap64 (limit - spent))), (false, None))
    end.

Definition total_cost (c : Call) : Z := wrap64 (cl_CostMicros c + cl_HedgeCostMicros c).

Definition charge_month (w : W) (c : Call) : string :=
  match cl_Values c !! "budget.month" with
  | Some (AString m) => if String.eqb m "" then Month (now w) else m
  | _ => Month (now w)
  end.

Definition Stage_After (s : BudgetStage) (w : W) (c : Call) : W * Call :=
  let tenant := TenantID (cl_Principal c) in
  match cl_Values c !! "budget.reserved" with
  | Some (AInt64 reserved) =>
      let delta := wrap64 (total_cost c - reserved) in
      if delta =? 0 then (w, c) else ((Add tenant (charge_month w c) delta w).1, c)
  | _ =>
      if total_cost c <=? 0 then (w, c) else ((Add tenant (charge_month w c) (total_cost c) w).1, c)
  end.

Definition budget_stage (s : BudgetStage) : Stage W :=
  mkStage "budget" (Stage_Before s) (Stage_After s) None.
End Stage.

(** ** Theorems *)

Lemma pad_left_nonempty n s : s <> "" -> pad_left n s <> "".
Proof. destruct n; [done|]. intros H. revert s H. induction n; intros s H; simpl; [done|]. by apply IHn. Qed.

Lemma Month_nonempty t : Month t <> "".
Proof.
  unfold Month. destruct (civil_month _) as [y m]. destruct (pad_left _ (utoa y)); simpl; by rewrite ?sapp_cons.
Qed.

Lemma total_cost_small c : 0 <= cl_CostMicros c + cl_HedgeCostMicros c < 10 ^ 14 ->
  total_cost c = cl_CostMicros c + cl_HedgeCostMicros c.
Proof. intros H. unfold total_cost. apply wrap64_id. unfold in_int64, int64_min, int64_max. lia. Qed.

(** C1. A call costs the tenant what it cost: a call the stage admitted with a
    reservation and settled afterwards moves the month's counter from its value
    before by exactly its own cost and that of a losing hedge, also when the
    settlement happens in a later month. *)
Theorem budget_net_charge (s : BudgetStage) (now now' : RedisLedger -> Time) (l l1 : RedisLedger)
  (c c1 c2 : Call) (est z : Z)
  (Hup : rdb_down l = false) (Hstrict : bs_reserveStrict s = true)
  (Hlimit : BudgetMicros (p_Tenant (cl_Principal c)) <> 0)
  (Hlim : exact_int (BudgetMicros (p_Tenant (cl_Principal c))))
  (Hest : budget_estimate s c = Some est) (Hest0 : 0 <= est)
  (Hz : small z) (Hsum : small (z + est)) (Hcost : 0 <= cl_CostMicros c2 + cl_HedgeCostMicros c2)
  (Hfinal : small (z + cl_CostMicros c2 + cl_HedgeCostMicros c2))
  (Hh : holds (rdb_now l) (rdb l) (ledgerKey (TenantID (cl_Principal c)) (Month (now l))) z)
  (Hbefore : Stage_Before now s l c = (l1, c1, (false, None)))
  (Hp : cl_Principal c2 = cl_Principal c)
  (Hv1 : cl_Values c2 !! "budget.reserved" = cl_Values c1 !! "budget.reserved")
  (Hv2 : cl_Values c2 !! "budget.month" = cl_Values c1 !! "budget.month") :
  let l2 := (Stage_After now' s l1 c2).1 in
  holds (rdb_now l) (rdb l2) (ledgerKey (TenantID (cl_Principal c)) (Month (now l)))
    (z + cl_CostMicros c2 + cl_HedgeCostMicros c2).
Proof.
  rewrite <- Z.add_assoc in *. rewrite <- (total_cost_small c2) in * by (unfold small in *; lia).
  unfold Stage_Before in Hbefore. apply Z.eqb_neq in Hlimit. rewrite Hlimit, Hstrict, Hest in Hbefore.
  cbn [Reserve redis_ledger] in Hbefore. unfold RedisLedger_Reserve in Hbefore. rewrite Hup in Hbefore.
  rewrite (reserve_exact _ _ _ _ _ _ Hh Hz Hest0 (small_exact _ Hsum) Hlim) in Hbefore.
  destruct (_ <? z + est); simplify_eq/=.
  unfold Stage_After. rewrite Hv1, Hp. simpl. rewrite lookup_insert_ne, lookup_insert_eq by done.
  assert (charge_month now' (set_rdb l (ledger_set (rdb_now l) (ledgerKey (TenantID (cl_Principal c)) (Month (now l)))
    (LInt (z + est)) (rdb l))) c2 = Month (now l)) as Hm.
  { unfold charge_month. rewrite Hv2. simpl. rewrite lookup_insert_eq.
    destruct (String.eqb_spec (Month (now l)) ""); [by apply Month_nonempty in e|done]. }
  unfold small in *. rewrite wrap64_id by (unfold in_int64, int64_min, int64_max; lia).
  destruct (Z.eqb_spec (total_cost c2 - est) 0).
  - replace (total_cost c2) with est by lia. simpl. apply holds_set. unfold ttlSecs. lia.
  - simpl. unfold RedisLedger_Add. simpl. rewrite Hup. simpl. rewrite Hm.
    rewrite (add_exact _ _ _ _ (z + est)); unfold exact_int, small; try lia.
    + replace (Z.max 0 (z + est + (total_cost c2 - est))) with (z + total_cost c2) by lia.
      apply holds_set. unfold ttlSecs. lia.
    + apply holds_set. unfold ttlSecs. lia.
Qed.

(** The stage fails closed where it promises to: with the ledger down a
    strict tenant's call is refused with 503 and an unpriced target with 500
    when prices are required; a non-strict tenant's call goes on unreserved,
    and is then charged its whole cost. *)
Theorem budget_outage {W : Type} `{Ledger W} (now : W -> Time) (s : BudgetStage) (w w1 : W) (c : Call) (e : go_error)
  (Hlimit : BudgetMicros (p_Tenant (cl_Principal c)) <> 0) (Hstrict : bs_reserveStrict s = true)
  (Hnew : cl_Values c !! "budget.reserved" = None)
  (Hdown : forall est, Reserve (TenantID (cl_Principal c)) (Month (now w)) est
             (BudgetMicros (p_Tenant (cl_Principal c))) w = (w1, inl e)) :
  match budget_estimate s c with
  | None => Stage_Before now s w c = (w, c, (false, Some (unpriced_target (TenantID (cl_Principal c)))))
  | Some _ =>
      if tp_Strict (p_Tenant (cl_Principal c)) then Stage_Before now s w c = (w1, c, (false, Some ledger_unavailable))
      else exists c1, Stage_Before now s w c = (on_fail_open w1, c1, (false, None)) /\
        forall c2 w2, cl_Values c2 = cl_Values c1 -> 0 < cl_CostMicros c2 + cl_HedgeCostMicros c2 < 10 ^ 14 ->
          (Stage_After now s w2 c2).1 =
          (Add (TenantID (cl_Principal c2)) (charge_month now w2 c2) (cl_CostMicros c2 + cl_HedgeCostMicros c2) w2).1
  end.
Proof.
  unfold Stage_Before. apply Z.eqb_neq in Hlimit. rewrite Hlimit, Hstrict.
  destruct (budget_estimate s c); [|done]. rewrite Hdown. destruct (tp_Strict _); [done|].
  exists c. split; [done|]. intros c2 w2 Hv Hc. unfold Stage_After. rewrite Hv, Hnew, total_cost_small by lia.
  by destruct (Z.leb_spec (cl_CostMicros c2 + cl_HedgeCostMicros c2) 0); [lia|].
Qed.

(** ** Witnesses *)

Definition demo_prices : Pricing := NewPricing {["openai/gpt" := mkPrice (f_of_Z 1) (f_of_Z 2) f0]}.
Definition demo_budget : BudgetStage := NewStage (Some (mkStageOpts (Some demo_prices) true true 100)).
Definition demo_tenant (strict : bool) : TenantPolicy := mkTenantPolicy 0 0 (f_of_Z 1) strict None false "".
Definition budget_call (strict : bool) : Call :=
  NewCall "call-1" 0 (mkPrincipal "t1" "Tenant" "k1" "Key" [] false (demo_tenant strict) no_key_policy)
    (plain_request "openai/gpt" [plain_message "user" "hello"]) None.
Definition empty_ledger (down : bool) : RedisLedger := mkRedisLedger 0 ∅ down 0.
Definition january : RedisLedger -> Time := fun _ => 738944 * 24 * hour.

Definition settled_call : Call :=
  let c := (Stage_Before january demo_budget (empty_ledger false) (budget_call true)).1.2 in
  mkCall (cl_ID c) 0 (cl_Principal c) (cl_Request c) None false None None (mkTarget "openai" "gpt") 1
    zero_usage 57 5 "miss" None false ∅ ∅ (cl_Values c).

Lemma budget_net_charge_witness :
  holds 0 (rdb (Stage_After january demo_budget
    (Stage_Before january demo_budget (empty_ledger false) (budget_call true)).1.1 settled_call).1)
    (ledgerKey "t1" "2024-02") 62.
Proof.
  apply (budget_net_charge demo_budget january january (empty_ledger false) _ (budget_call true)
    (Stage_Before january demo_budget (empty_ledger false) (budget_call true)).1.2 settled_call 207 0);
    vm_compute; (reflexivity || discriminate || (split; (reflexivity || discriminate))).
Defined.

Lemma budget_outage_witness :
  Stage_Before january demo_budget (empty_ledger true) (budget_call true) =
    (empty_ledger true, budget_call true, (false, Some ledger_unavailable)).
Proof.
  pose proof (budget_outage january demo_budget (empty_ledger true) (empty_ledger true) (budget_call true)
    down_error ltac:(vm_compute; discriminate) eq_refl eq_refl ltac:(reflexivity)) as H.
  replace (budget_estimate demo_budget (budget_call true)) with (Some 207) in H by (vm_compute; reflexivity).
  exact H.
Defined.
