(* ===== verification/AgentRun.v ===== *)
(** * Agent runs: counters and loop detection (src/internal/agentrun/runs.go,
    fingerprint.go)

    A run's counters in a Redis hash, its recent step fingerprints in a list,
    and the Lua script that admits a step.  Counters are kept by [HINCRBY] as
    int64 and compared by Lua in binary64. *)

From S2P Require Import Prelude GoStrings GoFloat GoFloatInt Config Api Policy.

Open Scope string_scope.
Open Scope list_scope.
Open Scope Z_scope.

(** ** Fingerprints *)

(** [regexp.ReplaceAllString] of [\d+] or [\s+]: maximal runs of bytes in a
    class become one replacement. *)
Fixpoint collapse (cls : ascii -> bool) (rep : string) (inrun : bool) (s : string) : string :=
  match s with
  | EmptyString => ""
  | String c s' =>
      if cls c then (if inrun then collapse cls rep true s' else rep +:+ collapse cls rep true s')
      else String c (collapse cls rep false s')
  end.

(** [Normalize] on ASCII text; a byte above 127 is kept as it is. *)
Definition Normalize (s : string) : string :=
  let s := lower_ascii s in
  let s := collapse is_digit "#" false s in
  let s := trim_space (collapse is_re_space " " false s) in
  if 2000 <? slen s then stake 2000 s else s.

Definition last_message (req : ChatRequest) : option Message := last (r_Messages req).

(** The tool calls of the last assistant message. *)
Definition last_tool_calls (req : ChatRequest) : list ToolCall :=
  match filter (fun m => m_Role m = "assistant") (rev (r_Messages req)) with
  | [] => []
  | m :: _ => m_ToolCalls m
  end.

(** The bytes hashed by [Fingerprint]; the digest is a parameter. *)
Definition fingerprint_input (req : ChatRequest) : string :=
  (match last_message req with
   | Some m => m_Role m +:+ nul +:+ Normalize (Content_PlainText (m_Content m)) +:+ nul
   | None => ""
   end) +:+
  concat_strings (map (fun tc => fc_Name (tc_Function tc) +:+ nul +:+ Normalize (fc_Arguments (tc_Function tc)) +:+ nul)
    (last_tool_calls req)).

Definition Fingerprint (sha256_hex : string -> string) (req : ChatRequest) : string :=
  stake 32 (sha256_hex (fingerprint_input req)).

Example normalize_ex : Normalize "  Read  File 42
again7" = "read file # again#".
Proof. vm_compute. reflexivity. Qed.

(** ** The store *)

Inductive StepStatus := Allowed | StepsExceeded | CostExceeded | TokensExceeded | Loop.

#[export] Instance StepStatus_eq_dec : EqDecision StepStatus.
Proof. solve_decision. Defined.

Record StepResult := mkStepResult {
  sr_Status : StepStatus;
  sr_Steps : Z;
  sr_CostMicros : Z;
  sr_Tokens : Z;
  sr_Repeats : Z
}.

(** The two keys of a run, with the millisecond at which each expires. *)
Record run_hash := mkRunHash { rh_steps : Z; rh_cost : Z; rh_tokens : Z; rh_expire : Z }.
Record fp_list := mkFpList { fl_items : list string; fl_expire : Z }.

Record runs := mkRuns { rn_hash : gmap string run_hash; rn_fps : gmap string fp_list }.

Definition get_hash (now : Z) (r : runs) (k : string) : option run_hash :=
  match rn_hash r !! k with
  | Some h => if now <? rh_expire h then Some h else None
  | None => None
  end.
Definition get_fps (now : Z) (r : runs) (k : string) : list string :=
  match rn_fps r !! k with
  | Some l => if now <? fl_expire l then fl_items l else []
  | None => []
  end.

(** [LRANGE k 0 stop] and [LTRIM k 0 stop]; a negative index counts from the end. *)
Definition lrange0 {A} (stop : Z) (l : list A) : list A :=
  let stop := if stop <? 0 then Z.of_nat (length l) + stop else stop in
  take (Z.to_nat (stop + 1)) l.

(** [PEXPIRE]: a time that is not in the future deletes the key. *)
Definition put_hash (now ttl : Z) (k : string) (h : run_hash) (r : runs) : runs :=
  mkRuns (if ttl <=? 0 then delete k (rn_hash r)
          else <[k := mkRunHash (rh_steps h) (rh_cost h) (rh_tokens h) (now + ttl)]> (rn_hash r)) (rn_fps r).
Definition put_fps (now ttl : Z) (k : string) (l : list string) (r : runs) : runs :=
  mkRuns (rn_hash r)
    (if (ttl <=? 0) || bool_decide (l = []) then delete k (rn_fps r) else <[k := mkFpList l (now + ttl)]> (rn_fps r)).

Definition count_fp (fp : string) (l : list string) : Z := Z.of_nat (length (filter (fun v => v = fp) l)).

(** A hash created by [HINCRBY] has no expiry until [PEXPIRE]. *)
Definition never : Z := 2 ^ 63.
Definition empty_hash : run_hash := mkRunHash 0 0 0 never.

(** A Lua number handed to [HINCRBY] is printed with 17 digits. *)
Definition lua_int_arg (z : Z) : option Z :=
  let x := f_of_Z z in
  let v := f_num x / f_den x in if Z.abs v <? 10 ^ 17 then Some v else None.

Definition hincrby (z : Z) (d : option Z) : option Z :=
  match d with
  | Some d => if (int64_min <=? z + d) && (z + d <=? int64_max) then Some (z + d) else None
  | None => None
  end.

(** The conditions of [stepScript], in its order. *)
Definition exceeds (max cur : Z) : bool := fgtb (f_of_Z max) f0 && fleb (f_of_Z max) (f_of_Z cur).

Definition reply (st : StepStatus) (steps : Z) (h : run_hash) (repeats : Z) : StepResult :=
  mkStepResult st steps (f_to_int64 (f_of_Z (rh_cost h))) (f_to_int64 (f_of_Z (rh_tokens h))) repeats.

(** [stepScript]: the reply, or the error of a failing [HINCRBY], and the state. *)
Definition stepScript (now : Z) (rk fk : string) (maxSteps maxCost maxTokens ttl : Z) (fp : string)
  (loopRepeats loopWindow estCost estTokens : Z) (r : runs) : option StepResult * runs :=
  let h := default empty_hash (get_hash now r rk) in
  let steps := f_to_int64 (f_of_Z (rh_steps h)) in
  if exceeds maxSteps (rh_steps h) then (Some (reply StepsExceeded steps h 0), r)
  else if exceeds maxCost (rh_cost h) then (Some (reply CostExceeded steps h 0), r)
  else if exceeds maxTokens (rh_tokens h) then (Some (reply TokensExceeded steps h 0), r)
  else
    let checking := negb (String.eqb fp "") && (0 <? loopRepeats) in
    let items := get_fps now r fk in
    let repeats := if checking then 1 + count_fp fp (lrange0 (loopWindow - 1) items) else 1 in
    if checking && (loopRepeats <=? repeats) then (Some (reply Loop steps h repeats), r)
    else
      let r := if checking then put_fps now ttl fk (lrange0 (loopWindow - 1) (fp :: items)) r else r in
      let store h r := mkRuns (<[rk := h]> (rn_hash r)) (rn_fps r) in
      match hincrby (rh_steps h) (Some 1) with
      | None => (None, r)
      | Some steps' =>
          let h1 := mkRunHash steps' (rh_cost h) (rh_tokens h) (rh_expire h) in
          match hincrby (rh_cost h) (lua_int_arg estCost) with
          | None => (None, store h1 r)
          | Some cost' =>
              let h2 := mkRunHash steps' cost' (rh_tokens h) (rh_expire h) in
              match hincrby (rh_tokens h) (lua_int_arg estTokens) with
              | None => (None, store h2 r)
              | Some tokens' =>
                  let h3 := mkRunHash steps' cost' tokens' (rh_expire h) in
                  (Some (reply Allowed (steps + 1) h repeats), put_hash now ttl rk h3 r)
              end
          end
      end.

Definition run_keys (tenantID runID : string) : string * string :=
  let tag := "{t:" +:+ tenantID +:+ "}" in ("run:" +:+ tag +:+ ":" +:+ runID, "runfp:" +:+ tag +:+ ":" +:+ runID).

(** [Duration.Milliseconds] *)
Definition Milliseconds (d : Duration) : Z := Z.quot d millisecond.

Definition run_Step (now : Z) (tenantID runID : string) (p : RunPolicy) (fp : string) (estCost estTokens : Z)
  (r : runs) : option StepResult * runs :=
  let '(rk, fk) := run_keys tenantID runID in
  stepScript now rk fk (rp_MaxSteps p) (RunPolicy_CostMicros p) (rp_MaxTokens p) (Milliseconds (rp_TTL p)) fp
    (rp_LoopRepeats p) (rp_LoopWindow p) estCost estTokens r.

(** [Charge]: a transaction of at most two [HINCRBY] and a [PEXPIRE]; on an
    expired or missing hash the increments start a new one. *)
Definition run_Charge (now : Z) (tenantID runID : string) (p : RunPolicy) (actualMicros actualTokens reservedMicros reservedTokens : Z)
  (r : runs) : runs :=
  let rk := (run_keys tenantID runID).1 in
  let costDelta := wrap64 (actualMicros - reservedMicros) in
  let tokensDelta := wrap64 (actualTokens - reservedTokens) in
  let incr d z := if d =? 0 then z else default z (hincrby z (Some d)) in
  let ttl := Z.max 1 (Milliseconds (rp_TTL p)) in     (* a positive TTL below 1ms is sent as 1ms *)
  let ttl := if rp_TTL p <=? 0 then Milliseconds (rp_TTL p) else ttl in
  match get_hash now r rk with
  | Some h =>
      put_hash now ttl rk (mkRunHash (rh_steps h) (incr costDelta (rh_cost h)) (incr tokensDelta (rh_tokens h)) 0) r
  | None =>
      if (costDelta =? 0) && (tokensDelta =? 0) then r
      else put_hash now ttl rk (mkRunHash 0 (incr costDelta 0) (incr tokensDelta 0) 0) r
  end.

(** ** One step *)

Lemma f_num_den_exact z : exact_int z -> f_num (f_of_Z z) / f_den (f_of_Z z) = z.
Proof.
  intros H. rewrite f_of_Z_can by done. destruct (fcanZ_integral z H) as [-> Hd]. by rewrite Z.div_mul by lia.
Qed.

Lemma exceeds_exact max cur : exact_int max -> exact_int cur -> exceeds max cur = (0 <? max) && (max <=? cur).
Proof.
  intros Hm Hc. unfold exceeds. change f0 with (f_of_Z 0). by rewrite fgtb_exact, fleb_exact.
Qed.

Definition small_counter (z : Z) : Prop := 0 <= z < 2 ^ 52.

Lemma small_counter_exact z : small_counter z -> exact_int z.
Proof. unfold small_counter, exact_int. lia. Qed.

Lemma hincrby_exact z d : small_counter z -> small_counter d -> hincrby z (lua_int_arg d) = Some (z + d).
Proof.
  intros Hz Hd. unfold lua_int_arg. rewrite f_num_den_exact by by apply small_counter_exact.
  unfold small_counter, hincrby, int64_min, int64_max in *.
  destruct (Z.ltb_spec (Z.abs d) (10 ^ 17)); [|lia].
  destruct (Z.leb_spec (- 2 ^ 63) (z + d)), (Z.leb_spec (z + d) (2 ^ 63 - 1)); try done; lia.
Qed.

Lemma hincrby_one z : small_counter z -> hincrby z (Some 1) = Some (z + 1).
Proof.
  unfold small_counter, hincrby, int64_min, int64_max. intros H.
  destruct (Z.leb_spec (- 2 ^ 63) (z + 1)), (Z.leb_spec (z + 1) (2 ^ 63 - 1)); try done; lia.
Qed.

Definition counters (now : Z) (r : runs) (rk : string) : run_hash := default empty_hash (get_hash now r rk).

Definition counters_small (h : run_hash) : Prop :=
  small_counter (rh_steps h) /\ small_counter (rh_cost h) /\ small_counter (rh_tokens h).

(** The status of a step in whole numbers. *)
Definition step_status (maxSteps maxCost maxTokens loopRepeats loopWindow : Z) (fp : string)
  (h : run_hash) (items : list string) : StepStatus :=
  if (0 <? maxSteps) && (maxSteps <=? rh_steps h) then StepsExceeded
  else if (0 <? maxCost) && (maxCost <=? rh_cost h) then CostExceeded
  else if (0 <? maxTokens) && (maxTokens <=? rh_tokens h) then TokensExceeded
  else if negb (String.eqb fp "") && (0 <? loopRepeats) &&
          (loopRepeats <=? 1 + count_fp fp (lrange0 (loopWindow - 1) items)) then Loop
  else Allowed.

Lemma put_hash_get now now' ttl rk h r :
  0 < ttl -> now <= now' < now + ttl ->
  get_hash now' (put_hash now ttl rk h r) rk = Some (mkRunHash (rh_steps h) (rh_cost h) (rh_tokens h) (now + ttl)).
Proof.
  intros Ht Hn. unfold get_hash, put_hash. destruct (Z.leb_spec ttl 0); [lia|]. simpl.
  rewrite lookup_insert_eq. simpl. destruct (Z.ltb_spec now' (now + ttl)); [done|lia].
Qed.

Lemma step_exact (now : Z) (rk fk fp : string)
  (maxSteps maxCost maxTokens ttl loopRepeats loopWindow estCost estTokens : Z) (r : runs)
  (Hh : counters_small (counters now r rk)) (Hlim : exact_int maxSteps /\ exact_int maxCost /\ exact_int maxTokens)
  (Hest : small_counter estCost /\ small_counter estTokens) (Httl : 0 < ttl) :
  let h := counters now r rk in
  let '(res, r') := stepScript now rk fk maxSteps maxCost maxTokens ttl fp loopRepeats loopWindow estCost estTokens r in
  exists v, res = Some v /\
    sr_Status v = step_status maxSteps maxCost maxTokens loopRepeats loopWindow fp h (get_fps now r fk) /\
    (sr_Status v <> Allowed -> r' = r) /\
    (sr_Status v = Allowed ->
       get_hash now r' rk = Some (mkRunHash (rh_steps h + 1) (rh_cost h + estCost) (rh_tokens h + estTokens) (now + ttl)) /\
       sr_Steps v = rh_steps h + 1).
Proof.
  destruct Hh as (Hs & Hc & Ht), Hlim as (Hms & Hmc & Hmt), Hest as [Hec Het].
  unfold stepScript. fold (counters now r rk). set (h := counters now r rk) in *.
  rewrite !exceeds_exact by (done || by apply small_counter_exact). unfold step_status.
  destruct ((0 <? maxSteps) && (maxSteps <=? rh_steps h)); [by eexists|].
  destruct ((0 <? maxCost) && (maxCost <=? rh_cost h)); [by eexists|].
  destruct ((0 <? maxTokens) && (maxTokens <=? rh_tokens h)); [by eexists|].
  set (chk := negb (String.eqb fp "") && (0 <? loopRepeats)).
  assert (chk && (loopRepeats <=? (if chk then 1 + count_fp fp (lrange0 (loopWindow - 1) (get_fps now r fk)) else 1)) =
          chk && (loopRepeats <=? 1 + count_fp fp (lrange0 (loopWindow - 1) (get_fps now r fk)))) as ->
    by by destruct chk.
  destruct (chk && _) eqn:E; [by eexists|].
  rewrite hincrby_one, !hincrby_exact by done.
  eexists. split; [done|]. split; [done|]. split; [done|]. intros _. simpl.
  rewrite f_to_int64_exact by by apply small_counter_exact. split; [|done].
  rewrite put_hash_get by lia. done.
Qed.

(** Admission of a step: the limits are checked in the order steps, cost,
    tokens, loop; a refused step leaves the run exactly as it was; an admitted
    one adds one step and the estimates to the counters, and reports the number
    of the step. *)
Theorem Step_correct (now : Z) (rk fk fp : string)
  (maxSteps maxCost maxTokens ttl loopRepeats loopWindow estCost estTokens : Z) (r : runs)
  (Hh : counters_small (counters now r rk)) (Hlim : exact_int maxSteps /\ exact_int maxCost /\ exact_int maxTokens)
  (Hest : small_counter estCost /\ small_counter estTokens) (Httl : 0 < ttl) :
  let h := counters now r rk in
  let '(res, r') := stepScript now rk fk maxSteps maxCost maxTokens ttl fp loopRepeats loopWindow estCost estTokens r in
  exists v, res = Some v /\
    sr_Status v = step_status maxSteps maxCost maxTokens loopRepeats loopWindow fp h (get_fps now r fk) /\
    (sr_Status v <> Allowed -> r' = r) /\
    (sr_Status v = Allowed ->
       counters now r' rk = mkRunHash (rh_steps h + 1) (rh_cost h + estCost) (rh_tokens h + estTokens) (now + ttl) /\
       sr_Steps v = rh_steps h + 1).
Proof.
  intros h. pose proof (step_exact now rk fk fp maxSteps maxCost maxTokens ttl loopRepeats loopWindow estCost estTokens r
    Hh Hlim Hest Httl) as H. cbv zeta in H.
  destruct (stepScript _ _ _ _ _ _ _ _ _ _ _ _ _) as [res r'].
  destruct H as (v & E & H1 & H2 & H3). exists v. split_and!; try done.
  intros Ha. destruct (H3 Ha) as [Hg ?]. split; [|done]. unfold counters at 1. by rewrite Hg.
Qed.

(** The counters after an admitted step. *)
Lemma step_admitted_counters now rk fk fp maxSteps maxCost maxTokens ttl loopRepeats loopWindow estCost estTokens r :
  counters_small (counters now r rk) -> exact_int maxSteps /\ exact_int maxCost /\ exact_int maxTokens ->
  small_counter estCost /\ small_counter estTokens -> 0 < ttl ->
  let h := counters now r rk in
  let '(res, r') := stepScript now rk fk maxSteps maxCost maxTokens ttl fp loopRepeats loopWindow estCost estTokens r in
  exists v, res = Some v /\ (sr_Status v = Allowed ->
    get_hash now r' rk = Some (mkRunHash (rh_steps h + 1) (rh_cost h + estCost) (rh_tokens h + estTokens) (now + ttl))).
Proof.
  intros Hh Hlim Hest Httl h. pose proof (step_exact now rk fk fp maxSteps maxCost maxTokens ttl loopRepeats loopWindow
    estCost estTokens r Hh Hlim Hest Httl) as H. cbv zeta in H.
  destruct (stepScript _ _ _ _ _ _ _ _ _ _ _ _ _) as [res r'].
  destruct H as (v & E & _ & _ & H3). exists v. split; [done|]. intros Ha. by destruct (H3 Ha).
Qed.

(** ** Invariants of a run under concurrent calls *)

Section Invariants.
Context (tenantID runID : string) (p : RunPolicy).

Inductive run_op : runs -> runs -> Prop :=
| op_step now fp ec et r : run_op r (run_Step now tenantID runID p fp ec et r).2
| op_charge now am at_ rm rt r : run_op r (run_Charge now tenantID runID p am at_ rm rt r).

Definition steps_inv (r : runs) : Prop :=
  forall h, rn_hash r !! (run_keys tenantID runID).1 = Some h -> 0 <= rh_steps h <= rp_MaxSteps p.

Lemma put_hash_inv now ttl h r :
  0 <= rh_steps h <= rp_MaxSteps p -> steps_inv r -> steps_inv (put_hash now ttl (run_keys tenantID runID).1 h r).
Proof.
  intros Hh Hr h'. unfold put_hash. simpl. case_match.
  - by rewrite lookup_delete_eq.
  - rewrite lookup_insert_eq. intros. by simplify_eq.
Qed.

Lemma counters_steps now r :
  0 <= rp_MaxSteps p -> steps_inv r -> 0 <= rh_steps (counters now r (run_keys tenantID runID).1) <= rp_MaxSteps p.
Proof.
  intros Hp Hr. unfold counters, get_hash. destruct (rn_hash r !! _) as [h|] eqn:E; [|simpl; lia].
  destruct (now <? rh_expire h); simpl; [by apply Hr|lia].
Qed.

Lemma steps_inv_hash r r' : rn_hash r' !! (run_keys tenantID runID).1 = rn_hash r !! (run_keys tenantID runID).1 ->
  steps_inv r -> steps_inv r'.
Proof. intros E H h. rewrite E. apply H. Qed.

Lemma hincrby_Some_one z z' : hincrby z (Some 1) = Some z' -> z' = z + 1.
Proof. unfold hincrby. case_match; intros; by simplify_eq. Qed.

Lemma steps_inv_step r r' :
  0 < rp_MaxSteps p -> exact_int (rp_MaxSteps p) -> steps_inv r -> run_op r r' -> steps_inv r'.
Proof.
  intros Hp He Hr Hop. destruct Hop as [now fp ec et r|now am at_ rm rt r].
  - pose proof (counters_steps now r ltac:(lia) Hr) as Hc.
    unfold run_Step. destruct (run_keys tenantID runID) as [rk fk] eqn:Ek. simpl in *.
    unfold stepScript. fold (counters now r rk).
    rewrite (exceeds_exact (rp_MaxSteps p)) by (done || (unfold exact_int in *; lia)).
    destruct ((0 <? rp_MaxSteps p) && (rp_MaxSteps p <=? rh_steps (counters now r rk))) eqn:E; [done|].
    assert (rh_steps (counters now r rk) < rp_MaxSteps p) as Hlt.
    { apply andb_false_iff in E as [?%Z.ltb_ge|?%Z.leb_gt]; lia. }
    assert (forall r0 h r1, rn_hash r0 = rn_hash r1 -> 0 <= rh_steps h <= rp_MaxSteps p ->
      steps_inv (mkRuns (<[rk := h]> (rn_hash r0)) (rn_fps r1))) as Hstore.
    { intros r0 h r1 _ Hh h'. rewrite Ek. simpl. rewrite lookup_insert_eq. intros; by simplify_eq. }
    destruct (exceeds _ _); [done|]. destruct (exceeds _ _); [done|].
    set (chk := negb (String.eqb fp "") && (0 <? rp_LoopRepeats p)).
    destruct (chk && _); [done|].
    set (r1 := if chk then put_fps _ _ _ _ _ else r). assert (steps_inv r1) as Hr1.
    { unfold r1. destruct chk; [|done]. by apply (steps_inv_hash r). }
    destruct (hincrby _ (Some 1)) as [s'|] eqn:Es; [|done]. apply hincrby_Some_one in Es.
    destruct (hincrby (rh_cost _) _); [|apply Hstore; simpl; (done || lia)].
    destruct (hincrby (rh_tokens _) _); [|apply Hstore; simpl; (done || lia)].
    simpl. replace rk with (run_keys tenantID runID).1 by by rewrite Ek.
    apply put_hash_inv; [simpl; lia|done].
  - pose proof (counters_steps now r ltac:(lia) Hr) as Hc. unfold counters in Hc.
    unfold run_Charge. destruct (get_hash now r _) as [h|] eqn:Eh; simpl in Hc.
    + apply put_hash_inv; [done|done].
    + destruct (_ && _); [done|]. apply put_hash_inv; simpl; [lia|done].
Qed.

(** The recent fingerprints: no more than the window, none repeated to the
    limit. *)
Definition loop_inv (r : runs) : Prop :=
  forall l, rn_fps r !! (run_keys tenantID runID).2 = Some l ->
    Z.of_nat (length (fl_items l)) <= rp_LoopWindow p /\
    forall fp, count_fp fp (fl_items l) <= rp_LoopRepeats p - 1.

Lemma count_fp_take n fp l : count_fp fp (take n l) <= count_fp fp l.
Proof.
  unfold count_fp. revert n. induction l as [|x l IH]; intros [|n]; simpl; try lia.
  rewrite !filter_cons. specialize (IH n). repeat case_decide; simpl; lia.
Qed.

Lemma get_fps_inv now r : 0 < rp_LoopRepeats p -> 0 < rp_LoopWindow p -> loop_inv r ->
  Z.of_nat (length (get_fps now r (run_keys tenantID runID).2)) <= rp_LoopWindow p /\
  forall fp, count_fp fp (get_fps now r (run_keys tenantID runID).2) <= rp_LoopRepeats p - 1.
Proof.
  intros HR HW Hr. unfold get_fps. destruct (rn_fps r !! _) as [l|] eqn:E; [|simpl; unfold count_fp; simpl; split; [lia|intros; lia]].
  destruct (now <? fl_expire l); [by apply Hr|]. simpl. unfold count_fp; simpl. split; [lia|intros; lia].
Qed.

Lemma loop_inv_fps r r' : rn_fps r' !! (run_keys tenantID runID).2 = rn_fps r !! (run_keys tenantID runID).2 ->
  loop_inv r -> loop_inv r'.
Proof. intros E H l. rewrite E. apply H. Qed.

Lemma loop_inv_push now ttl fp items r :
  0 < rp_LoopRepeats p -> 0 < rp_LoopWindow p ->
  (forall f, count_fp f items <= rp_LoopRepeats p - 1) ->
  1 + count_fp fp (lrange0 (rp_LoopWindow p - 1) items) < rp_LoopRepeats p ->
  loop_inv r ->
  loop_inv (put_fps now ttl (run_keys tenantID runID).2 (lrange0 (rp_LoopWindow p - 1) (fp :: items)) r).
Proof.
  intros HR HW Hc Hfp Hr l. unfold put_fps. simpl. destruct (_ || _).
  { by rewrite lookup_delete_eq. }
  rewrite lookup_insert_eq. intros; simplify_eq; simpl. unfold lrange0 in *.
  destruct (Z.ltb_spec (rp_LoopWindow p - 1) 0); [lia|].
  replace (rp_LoopWindow p - 1 + 1) with (rp_LoopWindow p) in * by lia. split.
  - rewrite length_take. lia.
  - intros f. destruct (Z.to_nat (rp_LoopWindow p)) as [|w] eqn:Ew; [lia|].
    cbn [take]. unfold count_fp in *. rewrite filter_cons.
    assert (Z.of_nat (length (filter (fun v => v = f) (take w items))) <=
            Z.of_nat (length (filter (fun v => v = f) (take (S w) items)))) as Hm.
    { pose proof (count_fp_take w f (take (S w) items)) as H2. unfold count_fp in H2.
      rewrite take_take, Nat.min_l in H2 by lia. done. }
    case_decide as D; simpl.
    + subst f. lia.
    + pose proof (count_fp_take w f items) as H2. unfold count_fp in H2. specialize (Hc f). lia.
Qed.

Lemma loop_inv_step r r' :
  0 < rp_LoopRepeats p -> 0 < rp_LoopWindow p -> loop_inv r -> run_op r r' -> loop_inv r'.
Proof.
  intros HR HW Hr Hop. destruct Hop as [now fp ec et r|now am at_ rm rt r].
  - destruct (get_fps_inv now r HR HW Hr) as [_ Hc].
    unfold run_Step. destruct (run_keys tenantID runID) as [rk fk] eqn:Ek. simpl in *.
    unfold stepScript. fold (counters now r rk).
    destruct (exceeds _ _); [done|]. destruct (exceeds _ _); [done|]. destruct (exceeds _ _); [done|].
    set (chk := negb (String.eqb fp "") && (0 <? rp_LoopRepeats p)).
    destruct (chk && _) eqn:E; [done|].
    set (r1 := if chk then put_fps _ _ _ _ _ else r). assert (loop_inv r1) as Hr1.
    { unfold r1. destruct chk; [|done]. apply Z.leb_gt in E.
      replace fk with (run_keys tenantID runID).2 in * by by rewrite Ek. by apply loop_inv_push. }
    assert (forall m, loop_inv (mkRuns m (rn_fps r1))) as Hst by (intros m; by apply (loop_inv_fps r1)).
    destruct (hincrby _ (Some 1)); [|done]. destruct (hincrby _ _); [|apply Hst].
    destruct (hincrby _ _); [|apply Hst]. simpl. unfold put_hash. apply Hst.
  - unfold run_Charge. destruct (get_hash _ _ _); [|destruct (_ && _); [done|]]; by apply (loop_inv_fps r).
Qed.
End Invariants.

(** A run never takes more steps than it may: in any interleaving of its
    steps and charges, at any times, the step counter stays at most
    [max_steps]. *)
Theorem run_steps_bounded (tenantID runID : string) (p : RunPolicy) (r0 r : runs) (now : Z)
  (Hmax : 0 < rp_MaxSteps p) (Hexact : exact_int (rp_MaxSteps p))
  (Hfresh : rn_hash r0 !! (run_keys tenantID runID).1 = None)
  (Hreach : reachable (run_op tenantID runID p) r0 r) :
  0 <= rh_steps (counters now r (run_keys tenantID runID).1) <= rp_MaxSteps p.
Proof.
  apply counters_steps; [lia|]. eapply reachable_invariant; [| |exact Hreach].
  - intros h. by rewrite Hfresh.
  - intros. by eapply steps_inv_step.
Qed.

(** Loops are cut: among the fingerprints a run keeps, at most the last
    [loop_window] admitted steps, no step occurs [loop_repeats] times, so at
    most [loop_repeats - 1] equal steps are admitted in any window. *)
Theorem run_loops_bounded (tenantID runID : string) (p : RunPolicy) (r0 r : runs) (now : Z) (fp : string)
  (Hrep : 0 < rp_LoopRepeats p) (Hwin : 0 < rp_LoopWindow p)
  (Hfresh : rn_fps r0 !! (run_keys tenantID runID).2 = None)
  (Hreach : reachable (run_op tenantID runID p) r0 r) :
  Z.of_nat (length (get_fps now r (run_keys tenantID runID).2)) <= rp_LoopWindow p /\
  count_fp fp (get_fps now r (run_keys tenantID runID).2) <= rp_LoopRepeats p - 1.
Proof.
  destruct (get_fps_inv tenantID runID p now r Hrep Hwin) as [H1 H2]; [|by split].
  eapply reachable_invariant; [| |exact Hreach].
  - intros l. by rewrite Hfresh.
  - intros. by eapply loop_inv_step.
Qed.

(** ** Witnesses *)

Definition demo_runs0 : runs := mkRuns ∅ ∅.
Definition loop_policy : RunPolicy := mkRunPolicy f0 1 0 hour false "" 2 5 false f0.
Definition one_step : runs := (run_Step 10 "t1" "r1" loop_policy "fp" 0 7 demo_runs0).2.

Lemma one_step_reachable : reachable (run_op "t1" "r1" loop_policy) demo_runs0 one_step.
Proof. eapply reach_step; [apply reach_refl|]. apply op_step. Qed.

Lemma Step_correct_witness :
  (stepScript 20 (run_keys "t1" "r1").1 (run_keys "t1" "r1").2 1 0 0 3600000 "fp" 2 5 0 7 one_step).2 = one_step.
Proof.
  pose proof (Step_correct 20 (run_keys "t1" "r1").1 (run_keys "t1" "r1").2 "fp" 1 0 0 3600000 2 5 0 7 one_step) as H.
  cbv zeta in H. destruct (stepScript _ _ _ _ _ _ _ _ _ _ _ _ _) as [res r'] eqn:E.
  destruct H as (v & -> & Hst & Hno & _); [| | |lia|].
  1-3: vm_compute; repeat split; discriminate.
  apply Hno. rewrite Hst. vm_compute. discriminate.
Defined.

Lemma run_steps_bounded_witness : 0 <= rh_steps (counters 20 one_step (run_keys "t1" "r1").1) <= 1.
Proof.
  apply (run_steps_bounded "t1" "r1" loop_policy demo_runs0 one_step 20);
    [reflexivity|vm_compute; reflexivity|reflexivity|apply one_step_reachable].
Defined.

Lemma run_loops_bounded_witness :
  Z.of_nat (length (get_fps 20 one_step (run_keys "t1" "r1").2)) <= 5 /\
  count_fp "fp" (get_fps 20 one_step (run_keys "t1" "r1").2) <= 2 - 1.
Proof.
  apply (run_loops_bounded "t1" "r1" loop_policy demo_runs0 one_step 20 "fp");
    [reflexivity|reflexivity|reflexivity|apply one_step_reachable].
Defined.
