(* ===== verification/Fuzzy.v ===== *)
(** * Semantic loop detection (src/internal/agentrun/fuzzy.go)

    Embeddings are vectors of float32, kept as their 32-bit patterns. *)

From S2P Require Import Prelude GoStrings GoFloat GoFloatInt Config Api Policy AgentRun.

Open Scope string_scope.
Open Scope list_scope.
Open Scope Z_scope.

Abbreviation embedding := (list Z) (only parsing).

Definition is_u32 (w : Z) : Prop := 0 <= w < 2 ^ 32.

(** ** Serialisation *)

(** [binary.LittleEndian.PutUint32] and [Uint32] *)
Definition put_u32 (w : Z) : list Z :=
  [Z.land w 255; Z.land (Z.shiftr w 8) 255; Z.land (Z.shiftr w 16) 255; Z.land (Z.shiftr w 24) 255].
Definition get_u32 (b0 b1 b2 b3 : Z) : Z :=
  Z.lor (Z.lor b0 (Z.shiftl b1 8)) (Z.lor (Z.shiftl b2 16) (Z.shiftl b3 24)).

Definition EncodeEmbedding (v : embedding) : list Z := flat_map put_u32 v.

(** Trailing bytes that do not fill a word are ignored. *)
Fixpoint DecodeEmbedding (b : list Z) : embedding :=
  match b with
  | b0 :: b1 :: b2 :: b3 :: rest => get_u32 b0 b1 b2 b3 :: DecodeEmbedding rest
  | _ => []
  end.

Lemma get_put_u32 w : is_u32 w ->
  get_u32 (Z.land w 255) (Z.land (Z.shiftr w 8) 255) (Z.land (Z.shiftr w 16) 255) (Z.land (Z.shiftr w 24) 255) = w.
Proof.
  intros H. unfold get_u32. apply Z.bits_inj'. intros n Hn.
  change 255 with (Z.ones 8).
  rewrite !Z.lor_spec, !Z.shiftl_spec, !Z.land_spec by lia.
  assert (forall k, Z.testbit (Z.ones 8) k = (0 <=? k) && (k <? 8)) as Ho.
  { intros k. destruct (Z.leb_spec 0 k); [|by rewrite Z.testbit_neg_r by lia].
    destruct (Z.ltb_spec k 8); [by rewrite Z.ones_spec_low by lia|by rewrite Z.ones_spec_high by lia]. }
  assert (forall k, 32 <= k -> Z.testbit w k = false) as Hhi.
  { intros k Hk. destruct H as [H0 H1]. destruct (Z.eq_dec w 0) as [->|]; [apply Z.bits_0|].
    apply Z.bits_above_log2; [lia|]. apply Z.log2_lt_pow2; [lia|].
    eapply Z.lt_le_trans; [exact H1|]. apply Z.pow_le_mono_r; lia. }
  rewrite !Ho.
  assert (forall s, 0 <= s -> 0 <= n - s -> Z.testbit (Z.shiftr w s) (n - s) = Z.testbit w n) as Hsh
    by (intros; rewrite Z.shiftr_spec by lia; f_equal; lia).
  repeat match goal with |- context [?a <=? ?b] => destruct (Z.leb_spec a b) end; try lia;
  repeat match goal with |- context [?a <? ?b] => destruct (Z.ltb_spec a b) end; try lia;
    rewrite ?Hsh by lia; rewrite ?andb_true_r, ?andb_false_r, ?orb_false_r, ?orb_false_l; try done;
    try (symmetry; apply Hhi; lia).
Qed.

Lemma decode_encode v : Forall is_u32 v -> DecodeEmbedding (EncodeEmbedding v) = v.
Proof.
  induction 1 as [|w v Hw Hv IH]; [done|].
  cbn [EncodeEmbedding flat_map put_u32 app DecodeEmbedding]. fold (EncodeEmbedding v).
  by rewrite get_put_u32, IH.
Qed.

(** Embeddings survive storage: decoding the encoding of a vector of 32-bit
    patterns gives it back, and the encoding has four bytes per component. *)
Theorem embedding_roundtrip (v : embedding) (Hv : Forall is_u32 v) :
  DecodeEmbedding (EncodeEmbedding v) = v /\ length (EncodeEmbedding v) = (4 * length v)%nat /\
  Forall (fun b => 0 <= b < 256) (EncodeEmbedding v).
Proof.
  split; [by apply decode_encode|]. clear Hv. induction v as [|w v [IH2 IH3]]; [done|].
  cbn [EncodeEmbedding flat_map put_u32 app]. fold (EncodeEmbedding v). split.
  - cbn [length]. lia.
  - assert (forall x, 0 <= Z.land x 255 < 256) as Hb.
    { intros x. change 255 with (Z.ones 8). rewrite Z.land_ones by lia. apply Z.mod_pos_bound. lia. }
    repeat constructor; try apply Hb. done.
Qed.

(** ** Similarity *)

(** [float64(float32)] of a bit pattern: exact. *)
Definition f64_of_bits (w : Z) : spec_float :=
  let s := Z.testbit w 31 in
  let e := Z.land (Z.shiftr w 23) 255 in
  let m := Z.land w (2 ^ 23 - 1) in
  if e =? 255 then (if m =? 0 then S754_infinity s else S754_nan)
  else if (e =? 0) && (m =? 0) then S754_zero s
  else
    let '(m, e) := if e =? 0 then (m, -149) else (m + 2 ^ 23, e - 150) in
    binary_normalize 53 1024 (if s then - m else m) e false.

Fixpoint cosine_loop (a b : embedding) (dot na nb : spec_float) : spec_float * spec_float * spec_float :=
  match a, b with
  | x :: a', y :: b' =>
      let ai := f64_of_bits x in let bi := f64_of_bits y in
      cosine_loop a' b' (fadd dot (fmul ai bi)) (fadd na (fmul ai ai)) (fadd nb (fmul bi bi))
  | _, _ => (dot, na, nb)
  end.

Definition CosineSimilarity (a b : embedding) : spec_float :=
  if negb (Nat.eqb (length a) (length b)) || Nat.eqb (length a) 0 then f0
  else
    let '(dot, na, nb) := cosine_loop a b f0 f0 f0 in
    if feqb na f0 || feqb nb f0 then f0 else fdiv dot (fmul (fsqrt na) (fsqrt nb)).

(* [3.0; 4.0] against itself *)
Example cosine_ex : CosineSimilarity [1077936128; 1082130432] [1077936128; 1082130432] = f1.
Proof. vm_compute. reflexivity. Qed.

Lemma SFmul_comm prec emax x y : SFmul prec emax x y = SFmul prec emax y x.
Proof.
  destruct x as [sx|sx| |sx mx ex], y as [sy|sy| |sy my ey]; simpl; try done; try by rewrite xorb_comm.
  by rewrite xorb_comm, Pos.mul_comm, Z.add_comm.
Qed.

Lemma fmul_comm x y : fmul x y = fmul y x.
Proof. apply SFmul_comm. Qed.

Lemma cosine_loop_swap a b dot na nb :
  cosine_loop b a dot nb na = let '(d, x, y) := cosine_loop a b dot na nb in (d, y, x).
Proof.
  revert b dot na nb. induction a as [|x a IH]; intros [|y b] dot na nb; [reflexivity..|].
  cbn [cosine_loop]. cbv zeta. rewrite (fmul_comm (f64_of_bits y) (f64_of_bits x)). apply IH.
Qed.

Lemma CosineSimilarity_comm a b : CosineSimilarity a b = CosineSimilarity b a.
Proof.
  unfold CosineSimilarity. rewrite (Nat.eqb_sym (length a)).
  destruct (Nat.eqb_spec (length b) (length a)) as [E|E]; simpl; [|done]. rewrite E.
  destruct (Nat.eqb (length a) 0); [done|].
  rewrite (cosine_loop_swap a b). destruct (cosine_loop a b f0 f0 f0) as [[d x] y].
  cbv beta iota. rewrite (orb_comm (feqb x f0)), (fmul_comm (fsqrt x)). reflexivity.
Qed.

(** ** The step's text *)

Definition StepText (req : option ChatRequest) : string :=
  match req with
  | None => ""
  | Some r =>
      trim_space
        ((match last_message r with
          | Some m => m_Role m +:+ ": " +:+ Content_PlainText (m_Content m) +:+ newline
          | None => ""
          end) +:+
         concat_strings (map (fun tc => "call " +:+ fc_Name (tc_Function tc) +:+ ": " +:+
           fc_Arguments (tc_Function tc) +:+ newline) (last_tool_calls r)))
  end.

(** ** Stores of recent embeddings *)

Class FuzzyStore (W : Type) := {
  RecentEmbeddings : string -> string -> Z -> W -> W * (go_error + list embedding);
  PushEmbedding : string -> string -> embedding -> Z -> Duration -> W -> W * option go_error
}.

(** [MemFuzzyStore]: [history[:window]] panics for a negative window with a
    longer history; the policy's defaults make it positive. *)
Definition mem_store : Type := gmap string (list embedding).

Definition trunc (window : Z) (l : list embedding) : list embedding :=
  if window <? Z.of_nat (length l) then take (Z.to_nat window) l else l.

Definition MemFuzzyStore_Recent (tenantID runID : string) (window : Z) (m : mem_store) : mem_store * (go_error + list embedding) :=
  (m, inr (trunc window (default [] ((m : gmap string (list embedding)) !! (tenantID +:+ ":" +:+ runID))))).

Definition MemFuzzyStore_Push (tenantID runID : string) (emb : embedding) (window : Z) (ttl : Duration) (m : mem_store)
  : mem_store * option go_error :=
  let key := tenantID +:+ ":" +:+ runID in
  let m' : gmap string (list embedding) := m in
  (<[key := trunc window (emb :: default [] (m' !! key))]> m', None).

#[export] Instance mem_fuzzy : FuzzyStore mem_store := {
  RecentEmbeddings := MemFuzzyStore_Recent; PushEmbedding := MemFuzzyStore_Push
}.

(** [RedisFuzzyStore]: a list of encoded vectors; [None] means no expiry. *)
Record redis_store := mkRedisStore { rf_now : Z; rf_lists : gmap string (list (list Z) * option Z) }.

Definition rf_get (s : redis_store) (k : string) : list (list Z) * option Z :=
  match rf_lists s !! k with
  | Some (l, Some e) => if rf_now s <? e then (l, Some e) else ([], None)
  | Some (l, None) => (l, None)
  | None => ([], None)
  end.

Definition fuzzyKey (tenantID runID : string) : string := "runemb:{t:" +:+ tenantID +:+ "}:" +:+ runID.

Definition RedisFuzzyStore_Recent (tenantID runID : string) (window : Z) (s : redis_store) : redis_store * (go_error + list embedding) :=
  let window := if window <=? 0 then 20 else window in
  (s, inr (map DecodeEmbedding (lrange0 (window - 1) (rf_get s (fuzzyKey tenantID runID)).1))).

Definition RedisFuzzyStore_Push (tenantID runID : string) (emb : embedding) (window : Z) (ttl : Duration) (s : redis_store)
  : redis_store * option go_error :=
  let k := fuzzyKey tenantID runID in
  let '(l, e) := rf_get s k in
  let l := lrange0 (window - 1) (EncodeEmbedding emb :: l) in
  let e := if 0 <? ttl then Some (rf_now s + Z.max 1 (Milliseconds ttl)) else e in
  (mkRedisStore (rf_now s) (if bool_decide (l = []) then delete k (rf_lists s) else <[k := (l, e)]> (rf_lists s)), None).

#[export] Instance redis_fuzzy : FuzzyStore redis_store := {
  RecentEmbeddings := RedisFuzzyStore_Recent; PushEmbedding := RedisFuzzyStore_Push
}.

(** *** Both stores implement a bounded history *)

Section Refinement.
Context {W : Type} `{FuzzyStore W} (tenantID runID : string) (window : Z) (ttl : Duration).

Fixpoint push_all (l : list embedding) (w : W) : W :=
  match l with
  | [] => w
  | e :: l' => push_all l' (PushEmbedding tenantID runID e window ttl w).1
  end.

(** The promise: the last [window] vectors, the latest first. *)
Definition is_history (w0 : W) : Prop :=
  forall l, Forall (Forall is_u32) l ->
    (RecentEmbeddings tenantID runID window (push_all l w0)).2 = inr (take (Z.to_nat window) (rev l)).
End Refinement.

Lemma trunc_take w l : 0 < w -> trunc w l = take (Z.to_nat w) l.
Proof.
  intros Hw. unfold trunc. destruct (Z.ltb_spec w (Z.of_nat (length l))); [done|].
  symmetry. apply take_ge. lia.
Qed.

Lemma take_app_take {A} n (l k : list A) : take n (l ++ take n k) = take n (l ++ k).
Proof. rewrite !take_app, take_take. f_equal. f_equal. lia. Qed.

Lemma mem_push_all t r w ttl l : 0 < w -> forall m : mem_store,
  let k := t +:+ ":" +:+ r in
  let h := default [] ((m : gmap string (list embedding)) !! k) in
  take (Z.to_nat w) (default [] ((push_all t r w ttl l m : gmap string (list embedding)) !! k)) =
  take (Z.to_nat w) (rev l ++ h).
Proof.
  intros Hw. induction l as [|e l IH]; intros m k h; [done|]. cbn [push_all].
  rewrite IH. cbn [PushEmbedding mem_fuzzy MemFuzzyStore_Push fst]. unfold MemFuzzyStore_Push. cbn [fst].
  rewrite lookup_insert_eq. cbn [default rev]. rewrite trunc_take by done.
  rewrite <- (app_assoc (rev l)). cbn [app].
  fold k. fold h. apply take_app_take.
Qed.

Lemma lrange0_take {A} w (l : list A) : 0 < w -> lrange0 (w - 1) l = take (Z.to_nat w) l.
Proof. intros. unfold lrange0. destruct (Z.ltb_spec (w - 1) 0); [lia|]. do 2 f_equal. lia. Qed.

Lemma redis_push_now t r w ttl l : forall s : redis_store, rf_now (push_all t r w ttl l s) = rf_now s.
Proof.
  induction l as [|e l IH]; intros s; [done|]. cbn [push_all]. rewrite IH.
  cbn [PushEmbedding redis_fuzzy]. unfold RedisFuzzyStore_Push. by destruct (rf_get _ _).
Qed.

Lemma redis_push_all t r w ttl l : 0 < w -> forall s : redis_store,
  take (Z.to_nat w) (rf_get (push_all t r w ttl l s) (fuzzyKey t r)).1 =
  take (Z.to_nat w) (rev (map EncodeEmbedding l) ++ (rf_get s (fuzzyKey t r)).1).
Proof.
  intros Hw. induction l as [|e l IH]; intros s; [done|]. cbn [push_all].
  rewrite IH. cbn [PushEmbedding redis_fuzzy map rev]. unfold RedisFuzzyStore_Push.
  destruct (rf_get s (fuzzyKey t r)) as [h ex] eqn:Eg. rewrite <- (app_assoc (rev _)). cbn [fst app].
  rewrite lrange0_take by done.
  assert (take (Z.to_nat w) (EncodeEmbedding e :: h) <> []) as Hne.
  { destruct (Z.to_nat w) eqn:E; [lia|done]. }
  rewrite bool_decide_eq_false_2 by done. unfold rf_get at 1. cbn [rf_lists rf_now].
  rewrite lookup_insert_eq.
  assert (forall (x : option Z), (match x with
     | Some e0 => if rf_now s <? e0 then (take (Z.to_nat w) (EncodeEmbedding e :: h), Some e0) else ([], None)
     | None => (take (Z.to_nat w) (EncodeEmbedding e :: h), None) end).1 =
     match x with Some e0 => if rf_now s <? e0 then take (Z.to_nat w) (EncodeEmbedding e :: h) else [] 
                | None => take (Z.to_nat w) (EncodeEmbedding e :: h) end) as Hx
    by (intros [x|]; [by destruct (_ <? _)|done]).
  rewrite Hx.
  assert (forall (y : list (list Z)), (match (if 0 <? ttl then Some (rf_now s + Z.max 1 (Milliseconds ttl)) else ex) with
    | Some e0 => if rf_now s <? e0 then y else [] | None => y end) = y) as ->.
  { intros y. destruct (0 <? ttl).
    - destruct (Z.ltb_spec (rf_now s) (rf_now s + Z.max 1 (Milliseconds ttl))); [done|lia].
    - destruct ex as [e0|]; [|done]. unfold rf_get in Eg.
      destruct (rf_lists s !! fuzzyKey t r) as [[l0 [e1|]]|]; simplify_eq.
      destruct (rf_now s <? e1) eqn:E1; simplify_eq. by rewrite E1. }
  apply take_app_take.
Qed.

(** The two stores of recent steps keep the same promise: after any pushes
    to an empty store, each returns the last [loop_window] vectors, the latest
    first, bit for bit. *)
Theorem fuzzy_stores_refine_history (tenantID runID : string) (window : Z) (ttl : Duration) (now : Z)
  (Hwindow : 0 < window) :
  is_history tenantID runID window ttl (∅ : gmap string (list embedding)) (H := mem_fuzzy) /\
  is_history tenantID runID window ttl (mkRedisStore now ∅).
Proof.
  split; intros l Hl; cbn [RecentEmbeddings mem_fuzzy redis_fuzzy].
  - unfold MemFuzzyStore_Recent. cbn [snd]. rewrite trunc_take by done. f_equal.
    rewrite (mem_push_all tenantID runID window ttl l Hwindow). by rewrite lookup_empty, app_nil_r.
  - unfold RedisFuzzyStore_Recent. cbn [snd].
    destruct (Z.leb_spec window 0); [lia|]. rewrite lrange0_take by done. f_equal.
    rewrite (redis_push_all tenantID runID window ttl l Hwindow). unfold rf_get. cbn [rf_lists].
    rewrite lookup_empty. cbn [fst]. rewrite app_nil_r, <- map_rev, firstn_map, map_map.
    rewrite <- (map_id (take _ (rev l))) at 2. apply map_ext_in. intros v Hv.
    apply decode_encode. rewrite Forall_forall in Hl. apply Hl.
    apply list_elem_of_In, in_rev. rewrite <- (firstn_skipn (Z.to_nat window)). apply in_or_app. by left.
Qed.

(** ** Witnesses *)

Lemma embedding_roundtrip_witness :
  DecodeEmbedding (EncodeEmbedding [1065353216; 4294967295]) = [1065353216; 4294967295].
Proof. apply (embedding_roundtrip [1065353216; 4294967295]). repeat constructor; unfold is_u32; lia. Defined.

Lemma fuzzy_stores_refine_history_witness :
  is_history "t" "r" 2 0 (mkRedisStore 5 ∅).
Proof. apply (fuzzy_stores_refine_history "t" "r" 2 0 5). lia. Defined.
