(* ===== verification/AgentStage.v ===== *)
(** * The agent-run stage (src/internal/agentrun/stage.go) and the fuzzy detector
    (fuzzy.go, Check)

    Written against interfaces: the run store, the store of recent embeddings,
    the embedder and the rate limiter. *)

From S2P Require Import Prelude GoStrings GoFloat GoFloatInt Breaker Config Api Execute Route Policy Pipeline.
From S2P Require Import RateLimit AgentRun Fuzzy.

Open Scope string_scope.
Open Scope list_scope.
Open Scope Z_scope.

(** ** Interfaces *)

Class RunStore (W : Type) := {
  Step : string -> string -> RunPolicy -> string -> Z -> Z -> W -> W * (go_error + StepResult);
  Charge : string -> string -> RunPolicy -> Z -> Z -> Z -> Z -> W -> W * option go_error
}.

Class Embedder (W : Type) := {
  Embed : string -> string -> string -> W -> W * (go_error + list Z)
}.

(** The Redis run store with its clock. *)
Record RedisStore := mkRunRedis { rs_now : Z; rs_runs : runs; rs_down : bool }.

Definition RedisStore_Step (tenantID runID : string) (p : RunPolicy) (fp : string) (estCost estTokens : Z)
  (s : RedisStore) : RedisStore * (go_error + StepResult) :=
  if rs_down s then (s, inl redis_error) else
  let '(res, r) := run_Step (rs_now s) tenantID runID p fp estCost estTokens (rs_runs s) in
  (mkRunRedis (rs_now s) r false, match res with Some v => inr v | None => inl (ErrOther "ERR hincrby") end).

Definition RedisStore_Charge (tenantID runID : string) (p : RunPolicy) (am at_ rm rt : Z)
  (s : RedisStore) : RedisStore * option go_error :=
  if rs_down s then (s, Some redis_error)
  else (mkRunRedis (rs_now s) (run_Charge (rs_now s) tenantID runID p am at_ rm rt (rs_runs s)) false, None).

#[export] Instance redis_runs : RunStore RedisStore := { Step := RedisStore_Step; Charge := RedisStore_Charge }.

(** ** The detector *)

Section Detector.
Context {W : Type} `{Embedder W} `{FuzzyStore W}.

Definition fuzzy_step (vec : list Z) (thresh : spec_float) (acc : spec_float * Z) (past : list Z) : spec_float * Z :=
  let sim := CosineSimilarity vec past in
  (if fgtb sim acc.1 then sim else acc.1, if fgeb sim thresh then acc.2 + 1 else acc.2).

Record fuzzy_result := mkFuzzy { fz_maxSim : spec_float; fz_repeats : Z; fz_isLoop : bool }.

(** [FuzzyDetector.Check] of a detector that is configured. *)
Definition Check (tenantID runID : string) (p : RunPolicy) (req : option ChatRequest) (w : W)
  : W * (go_error + fuzzy_result) :=
  let text := StepText req in
  if String.eqb text "" then (w, inr (mkFuzzy f0 0 false)) else
  match Embed "" tenantID text w with
  | (w, inl e) => (w, inl e)
  | (w, inr vec) =>
      match RecentEmbeddings tenantID runID (rp_LoopWindow p) w with
      | (w, inl e) => (w, inl e)
      | (w, inr history) =>
          let thresh := if fleb (rp_FuzzyThreshold p) f0 then f_lit 95 100 else rp_FuzzyThreshold p in
          let '(maxSim, repeats) := for_range history (f0, 1) (fuzzy_step vec thresh) in
          let w := (PushEmbedding tenantID runID vec (rp_LoopWindow p) (rp_TTL p) w).1 in
          (w, inr (mkFuzzy maxSim repeats (rp_LoopRepeats p <=? repeats)))
      end
  end.
End Detector.

(** ** The stage *)

Definition run_id_byte (c : ascii) : bool :=
  is_lower c || is_upper c || is_digit c ||
  Ascii.eqb c "_" || Ascii.eqb c "." || Ascii.eqb c ":" || Ascii.eqb c "-".

(** [^[A-Za-z0-9_.:-]{1,128}$] *)
Definition RunIDPattern (s : string) : bool := (1 <=? slen s) && (slen s <=? 128) && sforall run_id_byte s.

Definition RunIDPattern_String : string := "^[A-Za-z0-9_.:-]{1,128}$".

Definition runErr (status : Z) (code msg : string) : go_error :=
  ErrApi (api_error status msg (if status =? 429 then "rate_limit_error" else "insufficient_quota") code).

Record run_stage := mkRunStage {
  rg_fuzzy : bool;            (* a fuzzy detector is configured *)
  rg_limiter : bool;          (* a limiter is configured *)
  rg_defaultMax : Z
}.

Definition NewStageWithLimiter (defaultMax : Z) (limiter fuzzy : bool) : run_stage :=
  mkRunStage fuzzy limiter (if defaultMax <=? 0 then 8192 else defaultMax).

Definition est_tokens (st : run_stage) (c : Call) : Z :=
  EstimatePromptTokens (cl_Request c) + ChatRequest_EffectiveMaxTokens (cl_Request c) (rg_defaultMax st).

Section Stage.
Context {W : Type} `{RunStore W} `{Embedder W} `{FuzzyStore W} `{Backend W} (sha256_hex : string -> string).

(** The run's id, or the reason why there is none: an error, or no run. *)
Definition run_id (p : RunPolicy) (c : Call) : option go_error + string :=
  let runID := header_get (cl_Incoming c) "X-ProofGate-Run-Id" in
  let runID :=
    if String.eqb runID "" then
      if rp_RequireRunID p then inl (Some (ErrApi (BadRequest "X-ProofGate-Run-Id is required for this key")))
      else if String.eqb (rp_RunIDFallback p) "key"
           then inr ("key_" +:+ stake 32 (sha256_hex (TenantID (cl_Principal c) +:+ "|" +:+ KeyID (cl_Principal c))))
           else inl None
    else inr runID in
  match runID with
  | inl e => inl e
  | inr id => if RunIDPattern id then inr id
              else inl (Some (ErrApi (BadRequest ("X-ProofGate-Run-Id must match " +:+ RunIDPattern_String))))
  end.

Definition step_error (runID : string) (p : RunPolicy) (res : StepResult) : option go_error :=
  match sr_Status res with
  | Allowed => None
  | StepsExceeded => Some (runErr 402 "run_budget_exceeded"
      ("run " +:+ runID +:+ " reached max_steps (" +:+ itoa (rp_MaxSteps p) +:+ ")"))
  | CostExceeded => Some (runErr 402 "run_budget_exceeded"
      ("run " +:+ runID +:+ " reached max_cost_usd ($" +:+ format_fixed 4 (rp_MaxCostUSD p) +:+ ")"))
  | TokensExceeded => Some (runErr 402 "run_budget_exceeded"
      ("run " +:+ runID +:+ " reached max_tokens (" +:+ itoa (rp_MaxTokens p) +:+ ")"))
  | Loop => Some (runErr 429 "agent_loop_detected"
      ("run " +:+ runID +:+ " repeated the same step " +:+ itoa (sr_Repeats res) +:+ " times in its last " +:+
       itoa (rp_LoopWindow p) +:+ " steps"))
  end.

Definition fuzzy_error (runID : string) (p : RunPolicy) (f : fuzzy_result) : go_error :=
  runErr 429 "agent_loop_detected"
    ("run " +:+ runID +:+ " repeated semantically equivalent steps " +:+ itoa (fz_repeats f) +:+ " times (similarity " +:+
     format_fixed 2 (fz_maxSim f) +:+ " >= " +:+ format_fixed 2 (rp_FuzzyThreshold p) +:+ ")").

(** The fuzzy check of an admitted step; a limiter that refuses skips it. *)
Definition fuzzy_check (st : run_stage) (runID : string) (p : RunPolicy) (w : W) (c : Call) : W * option go_error :=
  if rp_FuzzyLoop p && rg_fuzzy st then
    let '(w, skip) :=
      if rg_limiter st then
        match Take (TenantID (cl_Principal c)) (p_Tenant (cl_Principal c)) 0 w with
        | (w, inr d) => (w, negb (d_Allowed d) || d_TooLarge d)
        | (w, inl _) => (w, false)
        end
      else (w, false) in
    if skip then (w, None)
    else match Check (TenantID (cl_Principal c)) runID p (Some (cl_Request c)) w with
         | (w, inr f) => (w, if fz_isLoop f then Some (fuzzy_error runID p f) else None)
         | (w, inl _) => (w, None)
         end
  else (w, None).

Definition admitted (p : RunPolicy) (runID : string) (estTokens : Z) (res : StepResult) (c : Call) : Call :=
  let c := set_Value (set_Value c "run.id" (AString runID)) "run.est_tokens" (AInt estTokens) in
  let c := set_Header c "X-ProofGate-Run-Steps" (itoa (sr_Steps res)) in
  if fgtb (rp_MaxCostUSD p) f0
  then set_Header c "X-ProofGate-Run-Remaining-USD"
         (format_fixed 6 (fdiv (f_of_Z (wrap64 (RunPolicy_CostMicros p - sr_CostMicros res))) (f_of_Z 1000000)))
  else c.

Definition RunStage_Before (st : run_stage) (w : W) (c : Call) : W * Call * (bool * option go_error) :=
  match kp_Run (p_Key (cl_Principal c)) with
  | None => (w, c, (false, None))
  | Some pp =>
      let p := WithDefaults pp in
      match run_id p c with
      | inl None => (w, c, (false, None))
      | inl (Some e) => (w, c, (false, Some e))
      | inr runID =>
          let tenant := TenantID (cl_Principal c) in
          match Step tenant runID p (Fingerprint sha256_hex (cl_Request c)) 0 (est_tokens st c) w with
          | (w, inl _) =>
              if tp_Strict (p_Tenant (cl_Principal c))
              then (w, c, (false, Some (unavailable "run store unavailable" "run_store_unavailable")))
              else (w, c, (false, None))
          | (w, inr res) =>
              match step_error runID p res with
              | Some e => (w, c, (false, Some e))
              | None =>
                  match fuzzy_check st runID p w c with
                  | (w, Some e) => (w, c, (false, Some e))
                  | (w, None) => (w, admitted p runID (est_tokens st c) res c, (false, None))
                  end
              end
          end
      end
  end.

Definition RunStage_After (st : run_stage) (w : W) (c : Call) : W * Call :=
  match cl_Values c !! "run.id", kp_Run (p_Key (cl_Principal c)) with
  | Some (AString runID), Some pp =>
      let reserved := match cl_Values c !! "run.est_tokens" with Some (AInt n) => n | _ => 0 end in
      ((Charge (TenantID (cl_Principal c)) runID (WithDefaults pp) (cl_CostMicros c) (rl_actual c) 0 reserved w).1, c)
  | _, _ => (w, c)
  end.

Definition agentrun_stage (st : run_stage) : Stage W :=
  mkStage "agentrun" (RunStage_Before st) (RunStage_After st) None.

(** Every run a call is charged to has a well-formed id: the id is the
    client's header, or one derived from the key, of 1 to 128 bytes of the
    allowed alphabet; without either the call is refused when the key requires a
    run and not tracked otherwise. *)
Theorem run_id_correct (p : RunPolicy) (c : Call) :
  match run_id p c with
  | inr id => RunIDPattern id = true /\
      (id = header_get (cl_Incoming c) "X-ProofGate-Run-Id" \/
       header_get (cl_Incoming c) "X-ProofGate-Run-Id" = "" /\ rp_RequireRunID p = false /\ rp_RunIDFallback p = "key")
  | inl None => header_get (cl_Incoming c) "X-ProofGate-Run-Id" = "" /\ rp_RequireRunID p = false /\ rp_RunIDFallback p <> "key"
  | inl (Some e) => exists m, e = ErrApi (BadRequest m)
  end.
Proof.
  unfold run_id. destruct (String.eqb_spec (header_get (cl_Incoming c) "X-ProofGate-Run-Id") "") as [E|E].
  - destruct (rp_RequireRunID p); [by eexists|].
    destruct (String.eqb_spec (rp_RunIDFallback p) "key"); [|done].
    destruct (RunIDPattern _) eqn:Er; [|by eexists]. split; [done|]. by right.
  - destruct (RunIDPattern _) eqn:Er; [|by eexists]. split; [done|]. by left.
Qed.
End Stage.

(** ** What a call costs its run *)

Section Charge.
Context `{Embedder RedisStore} `{FuzzyStore RedisStore} `{Backend RedisStore} (sha256_hex : string -> string).

Lemma run_charge_counters now t id p h r am at_ rt ttl :
  get_hash now r (run_keys t id).1 = Some h ->
  rp_TTL p = ttl -> millisecond <= ttl ->
  small_counter (rh_cost h) -> small_counter (rh_tokens h) ->
  small_counter am -> small_counter at_ -> small_counter rt ->
  let h' := counters now (run_Charge now t id p am at_ 0 rt r) (run_keys t id).1 in
  rh_steps h' = rh_steps h /\ rh_cost h' = rh_cost h + am /\ rh_tokens h' = rh_tokens h + at_ - rt.
Proof.
  intros Hh Httl Hms Hc Ht Ha Hat Hrt. unfold run_Charge. rewrite Hh.
  unfold small_counter in *.
  rewrite !wrap64_id by (unfold in_int64, int64_min, int64_max; lia).
  assert (forall z d, 0 <= z < 2 ^ 52 -> - 2 ^ 52 < d < 2 ^ 52 ->
    (if d =? 0 then z else default z (hincrby z (Some d))) = z + d) as Hi.
  { intros z d Hz Hd. destruct (Z.eqb_spec d 0); [lia|]. unfold hincrby, int64_min, int64_max.
    destruct (Z.leb_spec (- 2 ^ 63) (z + d)), (Z.leb_spec (z + d) (2 ^ 63 - 1)); simpl; lia. }
  rewrite !Hi by lia. unfold counters.
  assert (1 <= Milliseconds (rp_TTL p)) as Hm.
  { unfold Milliseconds. rewrite Httl. apply Z.quot_le_lower_bound; unfold millisecond in *; lia. }
  destruct (Z.leb_spec (rp_TTL p) 0); [unfold millisecond in *; lia|].
  rewrite put_hash_get by lia. simpl. lia.
Qed.

(** A call costs its run one step and what it really used: when the stage
    admitted a call and charged it in the same millisecond, the run's counters
    grew by one step, the call's cost and its actual tokens (none for a cache
    hit), whatever was reserved. *)
Theorem agentrun_net_charge (st : run_stage) (s s1 : RedisStore) (c c1 c2 : Call) (pp : RunPolicy) (id : string)
  (Hpol : kp_Run (p_Key (cl_Principal c)) = Some pp) (Hid : run_id sha256_hex (WithDefaults pp) c = inr id)
  (Hup : rs_down s = false) (Hnofuzzy : rg_fuzzy st = false)
  (Httl : millisecond <= rp_TTL (WithDefaults pp))
  (Hlim : exact_int (rp_MaxSteps pp) /\ exact_int (RunPolicy_CostMicros pp) /\ exact_int (rp_MaxTokens pp))
  (Hsmall : let h := counters (rs_now s) (rs_runs s) (run_keys (TenantID (cl_Principal c)) id).1 in
            small_counter (rh_steps h) /\ small_counter (rh_cost h) /\ small_counter (rh_tokens h) /\
            small_counter (rh_tokens h + est_tokens st c))
  (Hest : small_counter (est_tokens st c)) (Hcost : small_counter (cl_CostMicros c2)) (Hact : small_counter (rl_actual c2))
  (Hbefore : RunStage_Before sha256_hex st s c = (s1, c1, (false, None)))
  (Hp : cl_Principal c2 = cl_Principal c)
  (Hv : cl_Values c2 !! "run.id" = cl_Values c1 !! "run.id")
  (Hv2 : cl_Values c2 !! "run.est_tokens" = cl_Values c1 !! "run.est_tokens") :
  let k := (run_keys (TenantID (cl_Principal c)) id).1 in
  let h := counters (rs_now s) (rs_runs s) k in
  let h' := counters (rs_now s) (rs_runs (RunStage_After st s1 c2).1) k in
  rh_steps h' = rh_steps h + 1 /\ rh_cost h' = rh_cost h + cl_CostMicros c2 /\
  rh_tokens h' = rh_tokens h + rl_actual c2.
Proof.
  unfold RunStage_Before in Hbefore. rewrite Hpol, Hid in Hbefore.
  cbn [Step redis_runs] in Hbefore. unfold RedisStore_Step in Hbefore. rewrite Hup in Hbefore.
  unfold run_Step in Hbefore. set (t := TenantID (cl_Principal c)) in *.
  destruct (run_keys t id) as [rk fk] eqn:Ek. cbn [fst] in *.
  set (h := counters (rs_now s) (rs_runs s) rk) in *. destruct Hsmall as (Hs1 & Hs2 & Hs3 & Hs4).
  assert (1 <= Milliseconds (rp_TTL (WithDefaults pp))) as Hm.
  { unfold Milliseconds. apply Z.quot_le_lower_bound; unfold millisecond in *; lia. }
  pose proof (step_admitted_counters (rs_now s) rk fk (Fingerprint sha256_hex (cl_Request c))
    (rp_MaxSteps (WithDefaults pp)) (RunPolicy_CostMicros (WithDefaults pp)) (rp_MaxTokens (WithDefaults pp))
    (Milliseconds (rp_TTL (WithDefaults pp))) (rp_LoopRepeats (WithDefaults pp)) (rp_LoopWindow (WithDefaults pp))
    0 (est_tokens st c) (rs_runs s) ltac:(split_and!; done) Hlim ltac:(split; [unfold small_counter; lia|done]) ltac:(lia)) as Hx.
  destruct (stepScript _ rk fk _ _ _ _ _ _ _ _ _ _) as [res r'].
  destruct Hx as (v & -> & Hok). cbn [fst snd] in Hbefore.
  destruct (step_error id (WithDefaults pp) v) eqn:Ee; [done|].
  assert (sr_Status v = Allowed) as Hst by (unfold step_error in Ee; by destruct (sr_Status v)).
  unfold fuzzy_check in Hbefore. rewrite Hnofuzzy, andb_false_r in Hbefore. simplify_eq.
  specialize (Hok Hst). unfold admitted, set_Header in Hv, Hv2.
  assert (cl_Values c2 !! "run.id" = Some (AString id)) as Hv'.
  { rewrite Hv. destruct (fgtb _ _); simpl; by rewrite lookup_insert_ne, lookup_insert_eq by done. }
  assert (cl_Values c2 !! "run.est_tokens" = Some (AInt (est_tokens st c))) as Hv2'.
  { rewrite Hv2. destruct (fgtb _ _); simpl; by rewrite lookup_insert_eq. }
  unfold RunStage_After. rewrite Hv', Hv2', Hp, Hpol. fold t. cbn [Charge redis_runs fst].
  unfold RedisStore_Charge. cbn [rs_down rs_now rs_runs fst].
  fold h in Hok. rewrite Z.add_0_r in Hok.
  pose proof (run_charge_counters (rs_now s) t id (WithDefaults pp)
    (mkRunHash (rh_steps h + 1) (rh_cost h) (rh_tokens h + est_tokens st c)
      (rs_now s + Milliseconds (rp_TTL (WithDefaults pp)))) r' (cl_CostMicros c2) (rl_actual c2) (est_tokens st c) _
    ltac:(by rewrite Ek) eq_refl Httl Hs2 Hs4 Hcost Hact Hest) as (Q1 & Q2 & Q3).
  rewrite Ek in Q1, Q2, Q3. cbn [fst rh_steps rh_cost rh_tokens] in *. lia.
Qed.
End Charge.

(** A step the fuzzy detector refuses keeps its reservation: the store has
    already counted the step and its estimated tokens, the call is refused
    without a run id, and its [After] hook leaves the store as it is, so the
    tokens of a call that never ran stay charged to the run. *)
Theorem fuzzy_refusal_keeps_reservation {W : Type} `{RunStore W} `{Embedder W} `{FuzzyStore W} `{Backend W}
  (sha256_hex : string -> string) (st : run_stage) (w w1 w2 : W) (c : Call) (pp : RunPolicy) (id : string)
  (res : StepResult) (e : go_error)
  (Hnew : cl_Values c !! "run.id" = None)
  (Hpol : kp_Run (p_Key (cl_Principal c)) = Some pp) (Hid : run_id sha256_hex (WithDefaults pp) c = inr id)
  (Hstep : Step (TenantID (cl_Principal c)) id (WithDefaults pp) (Fingerprint sha256_hex (cl_Request c)) 0
             (est_tokens st c) w = (w1, inr res))
  (Hallowed : sr_Status res = Allowed)
  (Hfuzzy : fuzzy_check st id (WithDefaults pp) w1 c = (w2, Some e)) :
  RunStage_Before sha256_hex st w c = (w2, c, (false, Some e)) /\ RunStage_After st w2 c = (w2, c).
Proof.
  unfold RunStage_Before, RunStage_After. rewrite Hpol, Hid, Hstep, Hnew.
  assert (step_error id (WithDefaults pp) res = None) as -> by (unfold step_error; by rewrite Hallowed).
  by rewrite Hfuzzy.
Qed.

(** ** Witnesses *)

(** A world with a Redis run store, an in-memory history and an embedder that
    gives every text the same vector. *)
Record demo_world := mkDemoWorld { dw_runs : RedisStore; dw_fuzzy : mem_store }.

#[export] Instance demo_runs : RunStore demo_world := {
  Step t r p fp ec et w := let '(s, x) := RedisStore_Step t r p fp ec et (dw_runs w) in (mkDemoWorld s (dw_fuzzy w), x);
  Charge t r p am at_ rm rt w :=
    let '(s, x) := RedisStore_Charge t r p am at_ rm rt (dw_runs w) in (mkDemoWorld s (dw_fuzzy w), x)
}.
#[export] Instance demo_embedder : Embedder demo_world := { Embed _ _ _ w := (w, inr [1065353216]) }.
#[export] Instance demo_fuzzy : FuzzyStore demo_world := {
  RecentEmbeddings t r n w := let '(m, x) := MemFuzzyStore_Recent t r n (dw_fuzzy w) in (mkDemoWorld (dw_runs w) m, x);
  PushEmbedding t r e n d w := let '(m, x) := MemFuzzyStore_Push t r e n d (dw_fuzzy w) in (mkDemoWorld (dw_runs w) m, x)
}.
#[export] Instance demo_limiter : Backend demo_world := {
  Take _ _ _ w := (w, inr (mkDecision true false 0)); Adjust _ _ _ w := (w, None); fail_open w := w
}.
#[export] Instance demo_embedder' : Embedder RedisStore := { Embed _ _ _ w := (w, inr []) }.
#[export] Instance demo_fuzzy' : FuzzyStore RedisStore := {
  RecentEmbeddings _ _ _ w := (w, inr []); PushEmbedding _ _ _ _ _ w := (w, None)
}.
#[export] Instance demo_limiter' : Backend RedisStore := {
  Take _ _ _ w := (w, inr (mkDecision true false 0)); Adjust _ _ _ w := (w, None); fail_open w := w
}.

Definition demo_hash (s : string) : string := "00000000000000000000000000000000" +:+ s.
Definition demo_run_policy : RunPolicy := mkRunPolicy f0 5 100000 0 true "" 2 0 true f0.
Definition run_call : Call :=
  mkCall "call-1" 0 (mkPrincipal "t1" "Tenant" "k1" "Key" [] false no_limits (mkKeyPolicy false (Some demo_run_policy) None))
    (plain_request "chat" [plain_message "user" "hello"]) None false None None (mkTarget "" "") 0 zero_usage 0 0 "miss"
    None false ∅ (header_set ∅ "X-ProofGate-Run-Id" "run-7") ∅.
Definition empty_runs : RedisStore := mkRunRedis 1000 (mkRuns ∅ ∅) false.
Definition plain_stage : run_stage := NewStageWithLimiter 100 false false.

Definition charged_call : Call :=
  let c := (RunStage_Before demo_hash plain_stage empty_runs run_call).1.2 in
  mkCall (cl_ID c) 0 (cl_Principal c) (cl_Request c) None false None None (mkTarget "openai" "gpt") 1
    (mkUsage 30 12 42 None) 57 5 "miss" None false ∅ ∅ (cl_Values c).

Lemma agentrun_net_charge_witness :
  let h' := counters 1000 (rs_runs (RunStage_After plain_stage
    (RunStage_Before demo_hash plain_stage empty_runs run_call).1.1 charged_call).1) (run_keys "t1" "run-7").1 in
  rh_steps h' = 1 /\ rh_cost h' = 57 /\ rh_tokens h' = 42.
Proof.
  apply (agentrun_net_charge demo_hash plain_stage empty_runs _ run_call
    (RunStage_Before demo_hash plain_stage empty_runs run_call).1.2 charged_call demo_run_policy "run-7");
    vm_compute; repeat split; discriminate.
Defined.

(** The step was seen before: a history with the same vector. *)
Definition fuzzy_world : demo_world := mkDemoWorld empty_runs (<["t1:run-7" := [[1065353216]]]> ∅).
Definition fuzzy_stage : run_stage := NewStageWithLimiter 100 false true.

Lemma fuzzy_refusal_witness :
  exists w2 e, RunStage_Before demo_hash fuzzy_stage fuzzy_world run_call = (w2, run_call, (false, Some e)) /\
    RunStage_After fuzzy_stage w2 run_call = (w2, run_call).
Proof.
  destruct (RunStage_Before demo_hash fuzzy_stage fuzzy_world run_call) as [[w2 c2] [h o]] eqn:E.
  destruct o as [e|]; [|vm_compute in E; discriminate].
  exists w2, e.
  destruct (Step (TenantID (cl_Principal run_call)) "run-7" (WithDefaults demo_run_policy)
    (Fingerprint demo_hash (cl_Request run_call)) 0 (est_tokens fuzzy_stage run_call) fuzzy_world) as [w1 [err|res]] eqn:Es;
    [vm_compute in Es; discriminate|].
  destruct (fuzzy_check fuzzy_stage "run-7" (WithDefaults demo_run_policy) w1 run_call) as [w2' o'] eqn:Ef.
  pose proof Es as Es'. vm_compute in Es'. injection Es' as <- <-.
  pose proof Ef as Ef'. vm_compute in Ef'. injection Ef' as <- <-.
  destruct (fuzzy_refusal_keeps_reservation demo_hash fuzzy_stage fuzzy_world _ _ run_call demo_run_policy "run-7" _ _
    eq_refl eq_refl ltac:(vm_compute; reflexivity) Es ltac:(vm_compute; reflexivity) Ef) as [H1 H2].
  rewrite E in H1. injection H1 as -> -> -> ->. by split.
Defined.
