(* ===== verification/Detect.v ===== *)
(** * Detection of secrets and personal data (src/internal/guard/detect.go)

    The patterns as terms of [Regex], the check digits, the candidates and the
    resolution of overlaps. *)

From S2P Require Import Prelude GoStrings GoSort Regex.

Open Scope string_scope.
Open Scope list_scope.
Open Scope Z_scope.

(** ** Patterns *)

Definition rep (mn ex : nat) (r : re) : re := Rep true mn (Some ex) r.
Definition is_hex (c : ascii) : bool := is_digit c || byte_in 97 102 c || byte_in 65 70 c.
Definition alnum : re := Chr is_alnum.
Definition byte_of (s : string) : re := Chr (one_of_bytes s).

(** [[a-zA-Z0-9](?:[a-zA-Z0-9-]{0,61}[a-zA-Z0-9])?] *)
Definition dns_label : re := Cat alnum (opt (Cat (rep 0 61 (Chr (fun c => is_alnum c || Ascii.eqb c "-"))) alnum)).

Definition emailRegex : re :=
  cats [plus (Chr (fun c => is_alnum c || one_of_bytes ".!#$%&'*+/=?^_`{|}~-" c)); lit "@"; dns_label;
        plus (Cat (lit ".") dns_label)].

Definition octet : re :=
  ors [Cat (lit "25") (Chr (byte_in 48 53)); cats [lit "2"; Chr (byte_in 48 52); digit];
       cats [opt (byte_of "01"); digit; opt digit]].
Definition ipv4Regex : re := cats [WordB; times 3 (Cat octet (lit ".")); octet; WordB].

Definition hex4 : re := rep 1 3 (Chr is_hex).
Definition ipv6Regex : re :=
  ors [cats [WordB; times 7 (Cat hex4 (lit ":")); hex4; WordB];
       cats [WordB; rep 1 6 (Cat hex4 (lit ":")); lit ":"];
       cats [lit ":"; rep 1 6 (Cat (lit ":") hex4); WordB];
       cats [WordB; rep 1 5 (Cat hex4 (lit ":")); lit ":"; hex4; WordB]].

Definition ssnRegex : re := cats [WordB; times 3 digit; lit "-"; times 2 digit; lit "-"; times 4 digit; WordB].
Definition cardRegex : re := cats [WordB; rep 13 6 (Cat digit (Rep false 0 None (byte_of " -"))); WordB].
Definition aadhaarReg : re :=
  cats [WordB; times 4 digit; opt space; times 4 digit; opt space; times 4 digit; WordB].
Definition phoneRegex : re :=
  cats [opt (cats [opt (lit "+"); Chr (byte_in 49 57); rep 0 2 digit; opt (byte_of " -")]);
        opt (lit "("); times 3 digit; opt (lit ")"); opt (byte_of " -"); times 3 digit; opt (byte_of " -");
        times 4 digit; WordB].

Definition token20 : re := Rep true 20 None (Chr (fun c => is_alnum c || one_of_bytes "_-" c)).
Definition secretRegexes : list re :=
  [cats [WordB; lit "sk-"; opt (Or (lit "proj-") (lit "ant-")); token20; WordB];
   cats [WordB; lit "pg_"; ors [lit "live"; lit "test"; lit "dev"]; lit "_"; token20; WordB];
   cats [WordB; lit "AKIA"; times 16 (Chr (fun c => is_digit c || is_upper c)); WordB];
   cats [WordB; lit "ghp_"; times 36 alnum; WordB];
   cats [WordB; lit "hvs."; token20; WordB]].

(** ** Check digits *)

Definition digit_val (c : ascii) : nat := Z.to_nat (byte_val c - 48).

(** The digits of [s]; a byte that is neither a digit nor in [sep] fails. *)
Fixpoint digits_with (sep : string) (s : string) : option (list nat) :=
  match s with
  | EmptyString => Some []
  | String c s' =>
      match digits_with sep s' with
      | None => None
      | Some ds =>
          if is_digit c then Some (digit_val c :: ds)
          else if scontains_byte c sep then Some ds else None
      end
  end.

Definition luhn_term (alt : bool) (d : nat) : nat :=
  if alt then (if Nat.ltb 9 (d * 2) then d * 2 - 9 else d * 2)%nat else d.

(** The loop over the digits from the last one. *)
Fixpoint luhn_sum (alt : bool) (rds : list nat) : nat :=
  match rds with
  | [] => 0
  | d :: rest => luhn_term alt d + luhn_sum (negb alt) rest
  end%nat.

Definition luhn_digits (ds : list nat) : bool :=
  Nat.leb 13 (length ds) && Nat.leb (length ds) 19 && Nat.eqb (luhn_sum false (rev ds) mod 10) 0.

Definition LuhnValid (s : string) : bool :=
  match digits_with " -" s with None => false | Some ds => luhn_digits ds end.

Definition verhoeffD : list (list nat) :=
  [[0;1;2;3;4;5;6;7;8;9]; [1;2;3;4;0;6;7;8;9;5]; [2;3;4;0;1;7;8;9;5;6]; [3;4;0;1;2;8;9;5;6;7];
   [4;0;1;2;3;9;5;6;7;8]; [5;9;8;7;6;0;4;3;2;1]; [6;5;9;8;7;1;0;4;3;2]; [7;6;5;9;8;2;1;0;4;3];
   [8;7;6;5;9;3;2;1;0;4]; [9;8;7;6;5;4;3;2;1;0]]%nat.
Definition verhoeffP : list (list nat) :=
  [[0;1;2;3;4;5;6;7;8;9]; [1;5;7;6;2;8;3;0;9;4]; [5;8;0;3;7;9;6;1;4;2]; [8;9;1;6;0;4;3;5;2;7];
   [9;4;5;3;1;2;6;8;7;0]; [4;2;8;6;5;7;3;9;0;1]; [2;7;9;3;8;0;6;4;1;5]; [7;0;4;6;9;1;3;2;5;8]]%nat.

Definition table (t : list (list nat)) (i j : nat) : nat := nth j (nth i t []) 0%nat.

Fixpoint verhoeff_fold (i c : nat) (rds : list nat) : nat :=
  match rds with
  | [] => c
  | d :: rest => verhoeff_fold (S i) (table verhoeffD c (table verhoeffP (i mod 8) d)) rest
  end.

Definition verhoeff_digits (ds : list nat) : bool :=
  Nat.eqb (length ds) 12 && Nat.eqb (verhoeff_fold 0 0 (rev ds)) 0.

Definition VerhoeffValid (s : string) : bool :=
  match digits_with " " s with None => false | Some ds => verhoeff_digits ds end.

Definition ValidSSN (s : string) : bool :=
  (String.length s =? 11)%nat && String.eqb (slice 3 4 s) "-" && String.eqb (slice 6 7 s) "-" &&
  (let area := slice 0 3 s in
   negb (String.eqb area "000" || String.eqb area "666" || has_prefix "9" area) &&
   negb (String.eqb (slice 4 6 s) "00") && negb (String.eqb (slice 7 11 s) "0000")).

Example luhn_ex : map LuhnValid ["4111 1111 1111 1111"; "4111 1111 1111 1112"; "4111x1111"] = [true; false; false].
Proof. reflexivity. Qed.
Example verhoeff_ex : map VerhoeffValid ["2345 6789 0124"; "2345 6789 0142"] = [true; false].
Proof. reflexivity. Qed.
Example ssn_ex : map ValidSSN ["123-45-6789"; "000-12-3456"; "900-12-3456"; "123-00-6789"] = [true; false; false; false].
Proof. reflexivity. Qed.

(** ** Matches *)

Inductive PIIType := EMAIL | IPV4 | IPV6 | CREDIT_CARD | US_SSN | AADHAAR | PHONE.

#[export] Instance PIIType_eq_dec : EqDecision PIIType.
Proof. solve_decision. Defined.

Definition PIIType_string (t : PIIType) : string :=
  match t with
  | EMAIL => "EMAIL" | IPV4 => "IPV4" | IPV6 => "IPV6" | CREDIT_CARD => "CREDIT_CARD"
  | US_SSN => "US_SSN" | AADHAAR => "AADHAAR" | PHONE => "PHONE"
  end.

Record PIIMatch := mkPIIMatch { pm_Type : PIIType; pm_Value : string; pm_Start : nat; pm_End : nat }.

Definition to_match (ty : PIIType) (text : string) (ab : nat * nat) : PIIMatch :=
  mkPIIMatch ty (slice ab.1 ab.2 text) ab.1 ab.2.

Definition collect (ty : PIIType) (r : re) (ok : string -> bool) (text : string) : list PIIMatch :=
  List.filter (fun m => ok (pm_Value m)) (map (to_match ty text) (FindAll r text)).

Definition card_ok (val : string) : bool :=
  let cleaned := replace_all (replace_all val "-" "") " " "" in
  (13 <=? slen cleaned) && (slen cleaned <=? 19) && LuhnValid val.

(** The comparison of the final sort: by start, the longer first. *)
Definition pii_less (a b : PIIMatch) : bool :=
  if negb (Nat.eqb (pm_Start a) (pm_Start b)) then Nat.ltb (pm_Start a) (pm_Start b)
  else Nat.ltb (pm_End b - pm_Start b) (pm_End a - pm_Start a).

(** One round of the loop that keeps the longer of two overlapping matches;
    the slice is kept with its last element first. *)
Definition resolve_step (filtered : list PIIMatch) (m : PIIMatch) : list PIIMatch :=
  match filtered with
  | [] => [m]
  | last :: rest =>
      if Nat.ltb (pm_Start m) (pm_End last) then
        if Nat.ltb (pm_End last - pm_Start last) (pm_End m - pm_Start m) then m :: rest else filtered
      else m :: filtered
  end.

Definition resolve (l : list PIIMatch) : list PIIMatch := rev (for_range l [] resolve_step).

Section Detect.
(** [net.ParseIP(val)] is an address and not an IPv4 one; [sort.Slice] is not
    stable: its result is some sorted permutation. *)
Context (is_ipv6 : string -> bool).

Definition pii_candidates (text : string) : list PIIMatch :=
  collect EMAIL emailRegex (fun _ => true) text ++
  collect IPV4 ipv4Regex (fun _ => true) text ++
  collect IPV6 ipv6Regex is_ipv6 text ++
  collect US_SSN ssnRegex ValidSSN text ++
  collect AADHAAR aadhaarReg VerhoeffValid text ++
  collect CREDIT_CARD cardRegex card_ok text ++
  collect PHONE phoneRegex (fun _ => true) text.

Definition DetectPII (sort : list PIIMatch -> list PIIMatch) (text : string) : list PIIMatch :=
  resolve (sort (pii_candidates text)).

(** [Detect]: secrets and personal data, for the audit view. *)
Inductive Kind := Secret | PII.
Record Span := mkSpan { sp_Kind : Kind; sp_Value : string; sp_Start : nat; sp_End : nat }.

Definition span_less (a b : Span) : bool :=
  if negb (Nat.eqb (sp_Start a) (sp_Start b)) then Nat.ltb (sp_Start a) (sp_Start b)
  else Nat.ltb (sp_End b) (sp_End a).

Definition Detect (sort : list PIIMatch -> list PIIMatch) (sort_spans : list Span -> list Span) (text : string) : list Span :=
  sort_spans
    (flat_map (fun r => map (fun ab => mkSpan Secret (slice ab.1 ab.2 text) ab.1 ab.2) (FindAll r text)) secretRegexes ++
     map (fun m => mkSpan PII (pm_Value m) (pm_Start m) (pm_End m)) (DetectPII sort text)).
End Detect.

Definition demo_sort : list PIIMatch -> list PIIMatch := stable_sort pii_less.

Example detect_ex :
  map (fun m => (pm_Type m, pm_Value m)) (DetectPII (fun _ => true) demo_sort
    "mail a.b@example.co, card 4111-1111-1111-1111, ip 10.0.0.1, ssn 123-45-6789, tel +1 415 555 0100") =
  [(EMAIL, "a.b@example.co"); (CREDIT_CARD, "4111-1111-1111-1111"); (IPV4, "10.0.0.1"); (US_SSN, "123-45-6789");
   (PHONE, "+1 415 555 0100")].
Proof. vm_compute. reflexivity. Qed.

(** ** The matches are well formed *)

Definition no_angle (c : ascii) : bool := negb (Ascii.eqb c "<") && negb (Ascii.eqb c ">").

Definition match_ok (text : string) (m : PIIMatch) : Prop :=
  (pm_Start m < pm_End m <= String.length text)%nat /\
  pm_Value m = slice (pm_Start m) (pm_End m) text /\ sforall no_angle (pm_Value m) = true.

Lemma located_In P text from l ab : located P text from l -> In ab l ->
  (ab.1 < ab.2 <= String.length text)%nat /\ sforall P (chunk text ab) = true.
Proof.
  induction 1 as [|from a b l H1 H2 H3 _ IH]; simpl; [done|]. intros [<-|?]; [|by apply IH].
  split; [simpl; lia|done].
Qed.

Lemma collect_ok ty r ok text : within no_angle r -> Forall (match_ok text) (collect ty r ok text).
Proof.
  intros W. apply List.Forall_forall. intros m Hm. unfold collect in Hm.
  apply filter_In in Hm as [Hm _]. apply in_map_iff in Hm as (ab & <- & Hin).
  destruct (located_In _ _ _ _ _ (FindAll_located _ _ text W) Hin) as [H1 H2].
  split; [done|]. split; [done|]. exact H2.
Qed.

Lemma patterns_no_angle :
  Forall (within no_angle) [emailRegex; ipv4Regex; ipv6Regex; ssnRegex; aadhaarReg; cardRegex; phoneRegex].
Proof. repeat constructor; apply withinb_within; vm_compute; reflexivity. Qed.

Lemma candidates_ok is6 text : Forall (match_ok text) (pii_candidates is6 text).
Proof.
  pose proof patterns_no_angle as H. repeat (apply Forall_cons in H as [? H]).
  unfold pii_candidates. repeat (apply Forall_app; split); by apply collect_ok.
Qed.

(** In order and disjoint, after [from]. *)
Inductive disjoint_after : nat -> list PIIMatch -> Prop :=
| disjoint_nil from : disjoint_after from []
| disjoint_cons from m l :
    (from <= pm_Start m)%nat -> disjoint_after (pm_End m) l -> disjoint_after from (m :: l).

Definition pii_nle : PIIMatch -> PIIMatch -> Prop := fun x y => pii_less y x = false.

Lemma pii_nle_start a b : pii_nle a b -> (pm_Start a <= pm_Start b)%nat.
Proof.
  unfold pii_nle, pii_less. destruct (Nat.eqb_spec (pm_Start b) (pm_Start a)); simpl; [lia|].
  intros H%Nat.ltb_ge. lia.
Qed.

Lemma disjoint_after_app from l m :
  disjoint_after from l -> (from <= pm_Start m)%nat ->
  (forall k, In k l -> (pm_End k <= pm_Start m)%nat) -> disjoint_after from (l ++ [m]).
Proof.
  induction 1 as [|from k l H1 H2 IH]; intros Hm Hl; simpl.
  - constructor; [done|constructor].
  - constructor; [done|]. apply IH; [apply Hl; by left|]. intros; apply Hl; by right.
Qed.

(** The state of the resolving loop: kept matches in order (reversed), the
    matches to come start no earlier than the last one kept. *)
Definition resolve_inv (text : string) (acc : list PIIMatch) (s : nat) : Prop :=
  Forall (match_ok text) acc /\ disjoint_after 0 (rev acc) /\
  match acc with
  | [] => True
  | last :: rest => (pm_Start last <= s)%nat /\ forall k, In k rest -> (pm_End k <= pm_Start last)%nat
  end.

Lemma resolve_step_inv text acc m s : resolve_inv text acc s -> match_ok text m -> (s <= pm_Start m)%nat ->
  resolve_inv text (resolve_step acc m) (pm_Start m).
Proof.
  intros (HF & Hd & Hl) Hm Hs. destruct acc as [|last rest]; simpl.
  - split; [by constructor|]. split; [constructor; [lia|constructor]|]. split; [lia|done].
  - destruct Hl as [Hls Hlr]. apply Forall_cons in HF as [Hlast HF]. simpl in Hd.
    assert (disjoint_after 0 (rev rest)) as Hdr.
    { revert Hd. generalize 0%nat (rev rest). intros n l. revert n. induction l as [|x l IH]; intros n Hd; [constructor|].
      inversion Hd; subst. constructor; [done|]. by apply IH. }
    destruct (Nat.ltb_spec (pm_Start m) (pm_End last)).
    + destruct (Nat.ltb_spec (pm_End last - pm_Start last) (pm_End m - pm_Start m)).
      * split; [by constructor|]. split; [simpl; apply disjoint_after_app; [done|lia|]|].
        -- intros k Hk. apply in_rev in Hk. specialize (Hlr k Hk). lia.
        -- split; [done|]. intros k Hk. specialize (Hlr k Hk). lia.
      * split; [by constructor|]. split; [done|]. split; [lia|done].
    + split; [by constructor; [|constructor]|]. split.
      * simpl. rewrite <- app_assoc. simpl.
        change (rev rest ++ [last; m]) with (rev rest ++ ([last] ++ [m])). rewrite app_assoc.
        apply disjoint_after_app; [done|lia|]. intros k [Hk|[<-|[]]]%in_app_or; [|done].
        apply in_rev in Hk. specialize (Hlr k Hk). lia.
      * split; [done|]. intros k [<-|Hk]; [done|]. specialize (Hlr k Hk). destruct Hlast. lia.
Qed.

Lemma resolve_fold_inv text l : forall acc s, resolve_inv text acc s -> Forall (match_ok text) l ->
  StronglySorted pii_nle l -> (forall m, In m l -> (s <= pm_Start m)%nat) ->
  Forall (match_ok text) (fold_left resolve_step l acc) /\ disjoint_after 0 (rev (fold_left resolve_step l acc)).
Proof.
  induction l as [|m l IH]; intros acc s Hinv HF HS Hs; simpl.
  - by destruct Hinv as (? & ? & _).
  - apply Forall_cons in HF as [Hm HF]. apply StronglySorted_inv in HS as [HS Hle].
    eapply IH; [eapply resolve_step_inv; [exact Hinv|done|apply Hs; by left]|done|done|].
    intros k Hk. apply pii_nle_start. rewrite List.Forall_forall in Hle. by apply Hle.
Qed.

Lemma resolve_subset l m : In m (resolve l) -> In m l.
Proof.
  unfold resolve, for_range. rewrite <- in_rev.
  assert (forall acc, In m (fold_left resolve_step l acc) -> In m acc \/ In m l) as H.
  { induction l as [|x l IH]; intros acc; simpl; [by left|]. intros Hin. apply IH in Hin as [Hin|?]; [|by right; right].
    unfold resolve_step in Hin. destruct acc as [|last rest]; [destruct Hin as [->|[]]; by right; left|].
    repeat case_match; destruct Hin as [->|Hin]; auto; try (by right; left); try (left; by left); left; by right. }
  intros Hin. by apply H in Hin as [[]|?].
Qed.

Lemma DetectPII_ok is6 sort text :
  (forall l, sort l ≡ₚ l /\ StronglySorted pii_nle (sort l)) ->
  Forall (match_ok text) (DetectPII is6 sort text) /\ disjoint_after 0 (DetectPII is6 sort text).
Proof.
  intros Hsort. destruct (Hsort (pii_candidates is6 text)) as [Hp Hs].
  unfold DetectPII, resolve, for_range.
  destruct (resolve_fold_inv text (sort (pii_candidates is6 text)) [] 0) as [H1 H2];
    [split; [constructor|split; [constructor|done]]| |done|intros; lia|].
  - rewrite Hp. apply candidates_ok.
  - split; [|done]. apply List.Forall_forall. intros m Hm. apply in_rev in Hm.
    rewrite List.Forall_forall in H1. by apply H1.
Qed.

(** C34. Detection reports a consistent set of spans: whatever order the sort
    gives to equal keys, every reported match was found by a pattern, lies in
    the text with the value it claims, and the matches are in order and
    disjoint. *)
Theorem DetectPII_well_formed (is_ipv6 : string -> bool) (sort : list PIIMatch -> list PIIMatch) (text : string)
  (Hsort : forall l, sort l ≡ₚ l /\ StronglySorted pii_nle (sort l)) :
  Forall (match_ok text) (DetectPII is_ipv6 sort text) /\
  disjoint_after 0 (DetectPII is_ipv6 sort text) /\
  (forall m, In m (DetectPII is_ipv6 sort text) -> In m (pii_candidates is_ipv6 text)).
Proof.
  destruct (DetectPII_ok is_ipv6 sort text Hsort) as [H1 H2]. split; [done|]. split; [done|].
  intros m Hm. apply resolve_subset in Hm. destruct (Hsort (pii_candidates is_ipv6 text)) as [Hp _].
  apply list_elem_of_In. rewrite <- Hp. by apply list_elem_of_In.
Qed.

(** A shorter match dropped for a longer one does not come back when the longer
    one is dropped in turn: the middle match below overlaps no kept match. *)
Example resolve_loses_a_disjoint_match :
  resolve [mkPIIMatch PHONE "" 0 10; mkPIIMatch EMAIL "" 5 7; mkPIIMatch CREDIT_CARD "" 8 20] =
  [mkPIIMatch CREDIT_CARD "" 8 20].
Proof. reflexivity. Qed.

(** ** Check digits detect the common typing errors *)

Abbreviation all_digits := (Forall (fun d => d < 10)%nat) (only parsing).

Lemma forallb_seq_spec (n : nat) (f : nat -> bool) : forallb f (seq 0 n) = true -> forall i, (i < n)%nat -> f i = true.
Proof. rewrite forallb_forall. intros H i Hi. apply H, in_seq. lia. Qed.

(** Facts about the tables, by running through all digits. *)
Definition digits10 (f : nat -> bool) : bool := forallb f (seq 0 10).

Lemma verhoeff_facts :
  forallb (fun i => digits10 (fun c => digits10 (fun d =>
    Nat.ltb (table verhoeffD c (table verhoeffP i d)) 10 &&
    digits10 (fun d' => Nat.eqb d d' ||
      negb (Nat.eqb (table verhoeffD c (table verhoeffP i d)) (table verhoeffD c (table verhoeffP i d')))) &&
    digits10 (fun c' => Nat.eqb c c' ||
      negb (Nat.eqb (table verhoeffD c (table verhoeffP i d)) (table verhoeffD c' (table verhoeffP i d)))) &&
    digits10 (fun d' => Nat.eqb d d' ||
      negb (Nat.eqb (table verhoeffD (table verhoeffD c (table verhoeffP i d)) (table verhoeffP (S i mod 8) d'))
                    (table verhoeffD (table verhoeffD c (table verhoeffP i d')) (table verhoeffP (S i mod 8) d)))))))
    (seq 0 8) = true.
Proof. vm_compute. reflexivity. Qed.

Definition vstep (i c d : nat) : nat := table verhoeffD c (table verhoeffP (i mod 8) d).

Lemma vstep_facts i c d : (c < 10)%nat -> (d < 10)%nat ->
  (vstep i c d < 10)%nat /\
  (forall d', (d' < 10)%nat -> d <> d' -> vstep i c d <> vstep i c d') /\
  (forall c', (c' < 10)%nat -> c <> c' -> vstep i c d <> vstep i c' d) /\
  (forall d', (d' < 10)%nat -> d <> d' -> vstep (S i) (vstep i c d) d' <> vstep (S i) (vstep i c d') d).
Proof.
  intros Hc Hd. pose proof verhoeff_facts as H.
  assert (i mod 8 < 8)%nat as Hi by (apply Nat.mod_upper_bound; lia).
  assert (S (i mod 8) mod 8 = S i mod 8)%nat as Hsi.
  { rewrite <- Nat.add_1_l, <- (Nat.add_1_l i). rewrite Nat.Div0.add_mod_idemp_r. done. }
  pose proof (forallb_seq_spec 8 _ H (i mod 8) Hi) as H1. cbv beta in H1.
  pose proof (forallb_seq_spec 10 _ H1 c Hc) as H2. cbv beta in H2.
  pose proof (forallb_seq_spec 10 _ H2 d Hd) as H3. cbv beta in H3.
  rewrite !andb_true_iff in H3. destruct H3 as [[[B1 B2] B3] B4]. rewrite Hsi in B4.
  unfold vstep. split; [by apply Nat.ltb_lt|]. split; [|split].
  - intros d' Hd' Hne. pose proof (forallb_seq_spec 10 _ B2 d' Hd') as Hx. cbv beta in Hx.
    apply orb_true_iff in Hx as [Hx%Nat.eqb_eq|Hx%negb_true_iff%Nat.eqb_neq]; [by destruct (Hne Hx)|exact Hx].
  - intros c' Hc' Hne. pose proof (forallb_seq_spec 10 _ B3 c' Hc') as Hx. cbv beta in Hx.
    apply orb_true_iff in Hx as [Hx%Nat.eqb_eq|Hx%negb_true_iff%Nat.eqb_neq]; [by destruct (Hne Hx)|exact Hx].
  - intros d' Hd' Hne. pose proof (forallb_seq_spec 10 _ B4 d' Hd') as Hx. cbv beta in Hx.
    apply orb_true_iff in Hx as [Hx%Nat.eqb_eq|Hx%negb_true_iff%Nat.eqb_neq]; [by destruct (Hne Hx)|exact Hx].
Qed.

Lemma verhoeff_fold_app i c l1 l2 :
  verhoeff_fold i c (l1 ++ l2) = verhoeff_fold (i + length l1) (verhoeff_fold i c l1) l2.
Proof.
  revert i c. induction l1 as [|d l1 IH]; intros i c; simpl; [by rewrite Nat.add_0_r|].
  by rewrite IH, Nat.add_succ_r.
Qed.

Lemma verhoeff_fold_range i c l : (c < 10)%nat -> all_digits l -> (verhoeff_fold i c l < 10)%nat.
Proof.
  intros Hc Hl. revert i c Hc. induction Hl as [|d l Hd Hl IH]; intros i c Hc; [done|].
  apply IH. by apply vstep_facts.
Qed.

Lemma verhoeff_fold_inj i c c' l : (c < 10)%nat -> (c' < 10)%nat -> all_digits l -> c <> c' ->
  verhoeff_fold i c l <> verhoeff_fold i c' l.
Proof.
  intros Hc Hc' Hl. revert i c c' Hc Hc'. induction Hl as [|d l Hd Hl IH]; intros i c c' Hc Hc' Hne; [done|].
  simpl. apply IH; [by apply vstep_facts|by apply vstep_facts|]. by apply (vstep_facts i c d).
Qed.

(** The errors: one digit replaced, or two different neighbours swapped. *)
Inductive typo : list nat -> list nat -> Prop :=
| typo_digit l1 d d' l2 : d <> d' -> typo (l1 ++ d :: l2) (l1 ++ d' :: l2)
| typo_swap l1 d d' l2 : d <> d' -> typo (l1 ++ d :: d' :: l2) (l1 ++ d' :: d :: l2).

Lemma typo_rev l l' : typo l l' -> typo (rev l) (rev l').
Proof.
  intros [l1 d d' l2 H|l1 d d' l2 H]; rewrite !rev_app_distr; simpl; rewrite <- !app_assoc; simpl;
    constructor; auto.
Qed.

Lemma verhoeff_fold_typo l l' : all_digits l -> all_digits l' -> typo l l' ->
  verhoeff_fold 0 0 l <> verhoeff_fold 0 0 l'.
Proof.
  intros Hl Hl' Ht. revert Hl Hl'. destruct Ht as [l1 d d' l2 Hne|l1 d d' l2 Hne]; intros Hl Hl'.
  - apply Forall_app in Hl as [H1 H2]. apply Forall_app in Hl' as [_ H2'].
    apply Forall_cons in H2 as [Hd H2]. apply Forall_cons in H2' as [Hd' _].
    rewrite !verhoeff_fold_app. simpl. set (c := verhoeff_fold 0 0 l1).
    assert (c < 10)%nat as Hc by (apply verhoeff_fold_range; [lia|done]).
    apply verhoeff_fold_inj; [by apply vstep_facts|by apply vstep_facts|done|]. by apply (vstep_facts _ c d).
  - apply Forall_app in Hl as [H1 H2]. apply Forall_cons in H2 as [Hd H2]. apply Forall_cons in H2 as [Hd' H2].
    rewrite !verhoeff_fold_app. cbn [verhoeff_fold]. set (c := verhoeff_fold 0 0 l1).
    assert (c < 10)%nat as Hc by (apply verhoeff_fold_range; [lia|done]).
    apply verhoeff_fold_inj; [| |done|].
    + apply vstep_facts; [by apply vstep_facts|done].
    + apply vstep_facts; [by apply vstep_facts|done].
    + by apply (vstep_facts _ c d).
Qed.

(** Luhn: a wrong digit always, a swap unless it is 0 and 9. *)
Lemma luhn_term_facts :
  forallb (fun alt => digits10 (fun d => digits10 (fun d' =>
    (Nat.eqb d d' || negb (Nat.eqb (luhn_term alt d) (luhn_term alt d'))) && Nat.ltb (luhn_term alt d) 10 &&
    (Nat.eqb d d' || (Nat.eqb d 0 && Nat.eqb d' 9) || (Nat.eqb d 9 && Nat.eqb d' 0) ||
     negb (Nat.eqb ((luhn_term alt d + luhn_term (negb alt) d') mod 10)
                   ((luhn_term alt d' + luhn_term (negb alt) d) mod 10)))))) [true; false] = true.
Proof. vm_compute. reflexivity. Qed.

Lemma luhn_term_spec alt d d' : (d < 10)%nat -> (d' < 10)%nat -> d <> d' ->
  (luhn_term alt d <> luhn_term alt d' /\ luhn_term alt d < 10 /\ luhn_term alt d' < 10)%nat /\
  (~ (d = 0 /\ d' = 9) -> ~ (d = 9 /\ d' = 0) ->
   (luhn_term alt d + luhn_term (negb alt) d') mod 10 <> (luhn_term alt d' + luhn_term (negb alt) d) mod 10)%nat.
Proof.
  intros Hd Hd' Hne. pose proof luhn_term_facts as H. rewrite forallb_forall in H.
  specialize (H alt ltac:(destruct alt; simpl; auto)). cbv beta in H.
  pose proof (forallb_seq_spec 10 _ (forallb_seq_spec 10 _ H d Hd) d' Hd') as H1.
  pose proof (forallb_seq_spec 10 _ (forallb_seq_spec 10 _ H d' Hd') d Hd) as H2. cbv beta in H1, H2.
  rewrite !andb_true_iff in H1, H2. destruct H1 as [[A1 A2%Nat.ltb_lt] A3], H2 as [[_ B2%Nat.ltb_lt] _].
  apply orb_true_iff in A1 as [?%Nat.eqb_eq|A1%negb_true_iff%Nat.eqb_neq]; [done|]. split; [done|].
  intros N1 N2. rewrite !orb_true_iff, !andb_true_iff, negb_true_iff, !Nat.eqb_eq, Nat.eqb_neq in A3. tauto.
Qed.

Lemma luhn_sum_app alt l1 l2 :
  luhn_sum alt (l1 ++ l2) = (luhn_sum alt l1 + luhn_sum (if Nat.even (length l1) then alt else negb alt) l2)%nat.
Proof.
  revert alt. induction l1 as [|d l1 IH]; intros alt; [done|].
  cbn [luhn_sum app length]. rewrite IH, Nat.even_succ, <- Nat.negb_even.
  destruct (Nat.even (length l1)), alt; simpl; lia.
Qed.

Lemma luhn_sum_typo l l' : all_digits l -> all_digits l' -> typo l l' ->
  (forall l1 l2, l = l1 ++ 0%nat :: 9%nat :: l2 -> l' <> l1 ++ 9%nat :: 0%nat :: l2) ->
  (forall l1 l2, l = l1 ++ 9%nat :: 0%nat :: l2 -> l' <> l1 ++ 0%nat :: 9%nat :: l2) ->
  (luhn_sum false l mod 10 = 0 -> luhn_sum false l' mod 10 <> 0)%nat.
Proof.
  intros Hl Hl' Ht N09 N90.
  assert (forall a x y b, x mod 10 <> y mod 10 -> (a + (x + b)) mod 10 = 0 -> (a + (y + b)) mod 10 <> 0)%nat as Hmod.
  { intros a x y b Hxy H1 H2. apply Hxy.
    apply Nat.Div0.mod_divides in H1 as [k1 H1]. apply Nat.Div0.mod_divides in H2 as [k2 H2].
    pose proof (Nat.div_mod_eq x 10). pose proof (Nat.div_mod_eq y 10).
    pose proof (Nat.mod_upper_bound x 10). pose proof (Nat.mod_upper_bound y 10). lia. }
  revert Hl Hl' N09 N90. destruct Ht as [l1 d d' l2 Hne|l1 d d' l2 Hne]; intros Hl Hl' N09 N90.
  - apply Forall_app in Hl as [_ H2]. apply Forall_app in Hl' as [_ H2'].
    apply Forall_cons in H2 as [Hd _]. apply Forall_cons in H2' as [Hd' _].
    rewrite !luhn_sum_app. set (alt := if Nat.even (length l1) then false else negb false). cbn [luhn_sum].
    destruct (luhn_term_spec alt d d' Hd Hd' Hne) as [(A & B & C) _].
    apply Hmod. rewrite !Nat.mod_small by lia. done.
  - apply Forall_app in Hl as [_ H2]. apply Forall_cons in H2 as [Hd H2]. apply Forall_cons in H2 as [Hd' _].
    rewrite !luhn_sum_app. set (alt := if Nat.even (length l1) then false else negb false). cbn [luhn_sum].
    destruct (luhn_term_spec alt d d' Hd Hd' Hne) as [_ HS].
    rewrite !(Nat.add_assoc (luhn_term _ _)). apply Hmod. apply HS.
    + intros [-> ->]. by apply (N09 l1 l2).
    + intros [-> ->]. by apply (N90 l1 l2).
Qed.

(** The check digits catch typing errors: a valid card or Aadhaar number with
    one digit replaced or two neighbours swapped is no longer valid; the one
    exception is swapping 0 and 9 in a card number, which Luhn cannot see. *)
Theorem check_digits_detect_typos (ds ds' : list nat) (Hd : all_digits ds) (Hd' : all_digits ds') (Ht : typo ds ds') :
  (verhoeff_digits ds = true -> verhoeff_digits ds' = false) /\
  (luhn_digits ds = true ->
   (forall l1 l2, rev ds = l1 ++ 0%nat :: 9%nat :: l2 -> rev ds' <> l1 ++ 9%nat :: 0%nat :: l2) ->
   (forall l1 l2, rev ds = l1 ++ 9%nat :: 0%nat :: l2 -> rev ds' <> l1 ++ 0%nat :: 9%nat :: l2) ->
   luhn_digits ds' = false).
Proof.
  assert (all_digits (rev ds) /\ all_digits (rev ds')) as [Hr Hr'] by (split; apply List.Forall_rev; done).
  pose proof (typo_rev _ _ Ht) as Htr. split.
  - unfold verhoeff_digits. intros [_ H%Nat.eqb_eq]%andb_true_iff. apply andb_false_iff. right.
    apply Nat.eqb_neq. intros E. apply (verhoeff_fold_typo _ _ Hr Hr' Htr). congruence.
  - unfold luhn_digits. intros [_ H%Nat.eqb_eq]%andb_true_iff N1 N2. apply andb_false_iff. right.
    apply Nat.eqb_neq. by apply (luhn_sum_typo (rev ds)).
Qed.

(** ** Witnesses *)

Lemma demo_sort_ok l : demo_sort l ≡ₚ l /\ StronglySorted pii_nle (demo_sort l).
Proof.
  split; [apply stable_sort_perm|]. apply (stable_sort_sorted pii_less (fun _ => True)).
  all: try (apply List.Forall_forall; done).
  all: unfold pii_less; intros; repeat match goal with
    | H : context [Nat.eqb ?a ?b] |- _ => destruct (Nat.eqb_spec a b); simpl in H
    | |- context [Nat.eqb ?a ?b] => destruct (Nat.eqb_spec a b); simpl
    | H : Nat.ltb _ _ = true |- _ => apply Nat.ltb_lt in H
    | H : Nat.ltb _ _ = false |- _ => apply Nat.ltb_ge in H
    | |- Nat.ltb _ _ = true => apply Nat.ltb_lt
    | |- Nat.ltb _ _ = false => apply Nat.ltb_ge
    end; try lia.
Qed.

Lemma DetectPII_well_formed_witness :
  disjoint_after 0 (DetectPII (fun _ => true) demo_sort "mail a.b@example.co or 10.0.0.1").
Proof. apply (DetectPII_well_formed (fun _ => true) demo_sort). exact demo_sort_ok. Defined.

Lemma forallb_Forall_lt10 l : forallb (fun d => Nat.ltb d 10) l = true -> all_digits l.
Proof. rewrite forallb_forall, List.Forall_forall. intros H d Hd. by apply Nat.ltb_lt, H. Qed.

(** 234567890124 against 234567809124. *)
Lemma check_digits_detect_typos_witness :
  verhoeff_digits [2;3;4;5;6;7;8;9;0;1;2;4]%nat = true /\ verhoeff_digits [2;3;4;5;6;7;8;0;9;1;2;4]%nat = false.
Proof.
  assert (typo [2;3;4;5;6;7;8;9;0;1;2;4]%nat [2;3;4;5;6;7;8;0;9;1;2;4]%nat) as Ht
    by (apply (typo_swap [2;3;4;5;6;7;8]%nat 9 0 [1;2;4]%nat); discriminate).
  split; [reflexivity|].
  destruct (check_digits_detect_typos [2;3;4;5;6;7;8;9;0;1;2;4]%nat [2;3;4;5;6;7;8;0;9;1;2;4]%nat) as [H _];
    [apply forallb_Forall_lt10; reflexivity|apply forallb_Forall_lt10; reflexivity|exact Ht|apply H; reflexivity].
Defined.
