(* ===== verification/Redact.v ===== *)
(** * Redaction and restoration (src/internal/guard/redact.go, restore.go)

    Placeholders with a running number per type, their replacement by the
    original values, and the restorer of a stream that buffers partial
    placeholders. *)

From S2P Require Import Prelude GoStrings GoSort Regex Detect.

Open Scope string_scope.
Open Scope list_scope.
Open Scope Z_scope.

(** ** Redact *)

(** A Go map from placeholder to original, as its pairs; the order in which a
    [range] visits them is not determined. *)
Abbreviation pairs := (list (string * string)) (only parsing).

Fixpoint map_get (m : pairs) (k : string) : option string :=
  match m with
  | [] => None
  | (k', v) :: m' => if String.eqb k' k then Some v else map_get m' k
  end.

Fixpoint map_set (m : pairs) (k v : string) : pairs :=
  match m with
  | [] => [(k, v)]
  | (k', v') :: m' => if String.eqb k' k then (k, v) :: m' else (k', v') :: map_set m' k v
  end.

(** [Numberer]: the last number used per type. *)
Definition Numberer : Type := PIIType -> Z.
Definition no_numbers : Numberer := fun _ => 0.
Definition next_number (n : Numberer) (t : PIIType) : Numberer := fun x => if decide (x = t) then n t + 1 else n x.

Definition placeholder (t : PIIType) (n : Z) : string := "<" +:+ PIIType_string t +:+ "_" +:+ itoa n +:+ ">".
Definition mask_of (t : PIIType) : string := "[REDACTED:" +:+ PIIType_string t +:+ "]".

Record redaction := mkRedaction { rd_out : string; rd_counts : Numberer; rd_mapping : pairs; rd_last : nat }.

Definition redact_step (text mode : string) (s : redaction) (m : PIIMatch) : redaction :=
  let out := if Nat.ltb (rd_last s) (pm_Start m) then rd_out s +:+ slice (rd_last s) (pm_Start m) text else rd_out s in
  if String.eqb mode "mask" then mkRedaction (out +:+ mask_of (pm_Type m)) (rd_counts s) (rd_mapping s) (pm_End m)
  else
    let counts := next_number (rd_counts s) (pm_Type m) in
    let p := placeholder (pm_Type m) (counts (pm_Type m)) in
    mkRedaction (out +:+ p) counts (map_set (rd_mapping s) p (pm_Value m)) (pm_End m).

Record RedactResult := mkRedactResult { rr_Redacted : string; rr_Mapping : pairs }.

(** The result and the numberer after the call. *)
Definition Redact (text : string) (matches : list PIIMatch) (mode : string) (counts : Numberer) : RedactResult * Numberer :=
  match matches with
  | [] => (mkRedactResult text [], counts)
  | _ =>
      let s := for_range matches (mkRedaction "" counts [] 0) (redact_step text mode) in
      let out := if Nat.ltb (rd_last s) (String.length text) then rd_out s +:+ sdrop (rd_last s) text else rd_out s in
      (mkRedactResult out (if String.eqb mode "mask" then [] else rd_mapping s), rd_counts s)
  end.

(** ** Restore

    [order] is the order in which the map is visited. *)
Definition Restore (text : string) (order : pairs) : string :=
  for_range order text (fun t kv => replace_all t kv.1 kv.2).

(** ** StreamRestorer *)

Definition maxPlaceholderLen : Z := 40.

Record StreamRestorer := mkStreamRestorer { sr_mapping : pairs; sr_buffer : string }.

Definition NewStreamRestorer (m : pairs) : StreamRestorer := mkStreamRestorer m "".

(** The loop of [Process] on the buffer; every round that goes on shortens it. *)
Fixpoint process_loop (m : pairs) (fuel : nat) (out buffer : string) : string * string :=
  match fuel with
  | O => (out, buffer)
  | S fuel =>
      match index "<" buffer with
      | None => (out +:+ buffer, "")
      | Some openIdx =>
          let out := out +:+ stake openIdx buffer in
          let buffer := sdrop openIdx buffer in
          match index ">" buffer with
          | None =>
              if maxPlaceholderLen <? slen buffer
              then process_loop m fuel (out +:+ stake 1 buffer) (sdrop 1 buffer)
              else (out, buffer)
          | Some closeIdx =>
              match map_get m (stake (closeIdx + 1) buffer) with
              | Some original => process_loop m fuel (out +:+ original) (sdrop (closeIdx + 1) buffer)
              | None => process_loop m fuel (out +:+ "<") (sdrop 1 buffer)
              end
          end
      end
  end.

Definition Process (s : StreamRestorer) (chunk : string) : string * StreamRestorer :=
  match sr_mapping s with
  | [] => (chunk, s)
  | m =>
      let b := sr_buffer s +:+ chunk in
      let '(out, rest) := process_loop m (S (String.length b)) "" b in (out, mkStreamRestorer m rest)
  end.

Definition Flush (s : StreamRestorer) : string * StreamRestorer :=
  (if String.eqb (sr_buffer s) "" then "" else Restore (sr_buffer s) (sr_mapping s), mkStreamRestorer (sr_mapping s) "").

(** A stream: the outputs for its chunks, then the flush. *)
Fixpoint process_all (s : StreamRestorer) (chunks : list string) : string * StreamRestorer :=
  match chunks with
  | [] => ("", s)
  | c :: cs =>
      let '(o, s) := Process s c in
      let '(o', s) := process_all s cs in (o +:+ o', s)
  end.

Definition restored_stream (m : pairs) (chunks : list string) : string :=
  let '(o, s) := process_all (NewStreamRestorer m) chunks in o +:+ (Flush s).1.

Example stream_ex :
  restored_stream [("<EMAIL_1>", "a@b.co")] ["hi <EM"; "AIL_"; "1>, 1 < 2"; " <EMAIL_2>"] = "hi a@b.co, 1 < 2 <EMAIL_2>".
Proof. vm_compute. reflexivity. Qed.

(** ** Texts as literals and placeholders *)

Definition no_lt (c : ascii) : bool := negb (Ascii.eqb c "<").

Definition ph_ok (k : string) : Prop := exists body, k = "<" +:+ (body +:+ ">") /\ sforall no_angle body = true.

Inductive tok := TLit (s : string) | TPh (k : string).

Definition tok_text (t : tok) : string := match t with TLit s | TPh s => s end.
Definition render (l : list tok) : string := concat_strings (map tok_text l).
Definition tok_ok (t : tok) : Prop := match t with TLit s => sforall no_lt s = true | TPh k => ph_ok k end.

(** Placeholders that have an original become it. *)
Definition fill (m : pairs) (t : tok) : tok :=
  match t with
  | TLit s => TLit s
  | TPh k => match map_get m k with Some v => TLit v | None => TPh k end
  end.

Lemma no_angle_no_lt c : no_angle c = true -> no_lt c = true.
Proof. unfold no_angle, no_lt. by intros [? _]%andb_true_iff. Qed.

Lemma no_lt_contains s : sforall no_lt s = true -> scontains_byte "<" s = false.
Proof.
  induction s as [|c s IH]; cbn [sforall scontains_byte]; [done|]. unfold no_lt at 1. rewrite andb_true_iff, negb_true_iff.
  intros [H1 H2]. rewrite IH by done. rewrite orb_false_r. rewrite Ascii.eqb_sym. done.
Qed.

Lemma no_angle_gt s : sforall no_angle s = true -> scontains_byte ">" s = false.
Proof.
  induction s as [|c s IH]; cbn [sforall scontains_byte]; [done|]. unfold no_angle at 1. rewrite !andb_true_iff, !negb_true_iff.
  intros [[_ H1] H2]. rewrite IH by done. rewrite orb_false_r, Ascii.eqb_sym. done.
Qed.

(** A placeholder is determined by where it starts. *)
Lemma ph_unique k p t u : ph_ok k -> ph_ok p -> k +:+ t = p +:+ u -> k = p /\ t = u.
Proof.
  intros (b & -> & Hb) (b' & -> & Hb') E.
  rewrite !sapp_assoc in E. apply sapp_inj_l in E. rewrite !sapp_cons, !sapp_nil_l in E.
  pose proof (index_byte_app ">" b t (no_angle_gt _ Hb)) as I1.
  pose proof (index_byte_app ">" b' u (no_angle_gt _ Hb')) as I2.
  rewrite E, I2 in I1. injection I1 as Hl.
  assert (b = b') as ->.
  { rewrite <- (stake_app_length b (String ">" t)), <- (stake_app_length b' (String ">" u)), E. by rewrite Hl. }
  split; [done|]. apply sapp_inj_l in E. by injection E.
Qed.

Lemma has_prefix_lt k c s : ph_ok k -> no_lt c = true -> has_prefix k (String c s) = false.
Proof.
  intros (b & -> & _) Hc. rewrite sapp_cons, sapp_nil_l. cbn [has_prefix]. unfold no_lt in Hc.
  apply negb_true_iff in Hc. rewrite Ascii.eqb_sym, Hc. done.
Qed.

Lemma has_prefix_ph k p t : ph_ok k -> ph_ok p -> has_prefix p (k +:+ t) = true -> p = k.
Proof. intros Hk Hp [u Hu]%has_prefix_app. by destruct (ph_unique k p t u Hk Hp Hu). Qed.

Lemma replace_lit p v s t : ph_ok p -> sforall no_lt s = true ->
  replace_from p v 0 (s +:+ t) = s +:+ replace_from p v 0 t.
Proof.
  intros Hp. induction s as [|c s IH]; intros Hs; [done|]. simpl in Hs. apply andb_true_iff in Hs as [Hc Hs].
  rewrite !sapp_cons. cbn [replace_from]. rewrite has_prefix_lt by done. by rewrite IH.
Qed.

Lemma replace_skip p v w t : replace_from p v (String.length w) (w +:+ t) = replace_from p v 0 t.
Proof. induction w as [|c w IH]; [done|]. rewrite sapp_cons. cbn [replace_from String.length]. done. Qed.

Lemma replace_same p v t : ph_ok p -> replace_from p v 0 (p +:+ t) = v +:+ replace_from p v 0 t.
Proof.
  intros Hp. pose proof (has_prefix_refl p t) as Hpre. destruct Hp as (b & -> & _).
  rewrite sapp_cons, sapp_nil_l in *. rewrite sapp_cons in *. cbn [replace_from]. rewrite Hpre.
  f_equal. cbn [String.length]. replace (S (String.length (b +:+ ">")) - 1)%nat with (String.length (b +:+ ">")) by lia.
  apply replace_skip.
Qed.

Lemma replace_other p v k t : ph_ok p -> ph_ok k -> k <> p -> replace_from p v 0 (k +:+ t) = k +:+ replace_from p v 0 t.
Proof.
  intros Hp Hk Hne. destruct (has_prefix p (k +:+ t)) eqn:E; [by apply has_prefix_ph in E|].
  destruct Hk as (b & -> & Hb). rewrite sapp_cons, sapp_nil_l in *. rewrite sapp_cons in *. cbn [replace_from]. rewrite E.
  rewrite sapp_cons. f_equal. apply replace_lit; [done|]. rewrite sforall_app. rewrite andb_true_iff. split; [|done].
  eapply sforall_impl; [|exact Hb]. apply no_angle_no_lt.
Qed.

Definition sub (p v : string) (t : tok) : tok :=
  match t with TPh k => if String.eqb k p then TLit v else t | _ => t end.

Lemma replace_render p v l : ph_ok p -> Forall tok_ok l -> replace_all (render l) p v = render (map (sub p v) l).
Proof.
  intros Hp. unfold replace_all, render. induction 1 as [|t l Ht Hl IH]; [done|].
  cbn [map concat_strings]. destruct t as [s|k]; cbn [tok_text sub].
  - by rewrite replace_lit, IH.
  - destruct (String.eqb_spec k p) as [->|Hne]; cbn [tok_text].
    + by rewrite replace_same, IH.
    + by rewrite replace_other, IH.
Qed.

Definition pairs_ok (m : pairs) : Prop :=
  Forall (fun kv => ph_ok kv.1 /\ sforall no_angle kv.2 = true) m.

Lemma sub_ok p v l : sforall no_angle v = true -> Forall tok_ok l -> Forall tok_ok (map (sub p v) l).
Proof.
  intros Hv Hl. apply List.Forall_map. eapply List.Forall_impl; [|exact Hl].
  intros [s|k]; simpl; [done|]. destruct (String.eqb k p); simpl; [|done]. intros _.
  eapply sforall_impl; [|exact Hv]. apply no_angle_no_lt.
Qed.

Lemma Restore_render order l : pairs_ok order -> Forall tok_ok l ->
  Restore (render l) order = render (map (fill order) l).
Proof.
  unfold Restore, for_range. intros Ho. revert l. induction Ho as [|[k v] order [Hk Hv] Ho IH]; intros l Hl; simpl.
  - f_equal. rewrite <- (map_id l) at 1. apply map_ext. by intros [].
  - rewrite replace_render by done. rewrite IH by by apply sub_ok. f_equal. rewrite map_map. apply map_ext.
    intros [s|k']; simpl; [done|]. rewrite (String.eqb_sym k k'). by destruct (String.eqb k' k).
Qed.

(** The result does not depend on the order of the map. *)
Lemma map_get_In m k v : NoDup (map fst m) -> In (k, v) m -> map_get m k = Some v.
Proof.
  induction m as [|[k' v'] m IH]; simpl; [done|]. intros [Hn Hd]%NoDup_cons [E|Hin].
  - injection E as -> ->. by rewrite String.eqb_refl.
  - destruct (String.eqb_spec k' k) as [->|]; [|by apply IH].
    destruct Hn. apply list_elem_of_In. apply in_map_iff. by exists (k, v).
Qed.

Lemma map_get_Some m k v : map_get m k = Some v -> In (k, v) m.
Proof.
  induction m as [|[k' v'] m IH]; simpl; [done|]. destruct (String.eqb_spec k' k) as [->|].
  - intros; simplify_eq. by left.
  - intros; right; auto.
Qed.

Lemma map_get_perm m m' k : NoDup (map fst m) -> m ≡ₚ m' -> map_get m k = map_get m' k.
Proof.
  intros Hd Hp. assert (NoDup (map fst m')) as Hd' by by rewrite <- Hp.
  destruct (map_get m k) as [v|] eqn:E.
  - apply map_get_Some in E. symmetry. apply map_get_In; [done|]. by eapply Permutation_in.
  - destruct (map_get m' k) as [v|] eqn:E'; [|done]. apply map_get_Some in E'.
    rewrite (map_get_In m k v) in E; [done|done|]. eapply Permutation_in; [by symmetry|done].
Qed.

(** ** Placeholders of a numbering *)

Lemma type_string_no_angle t : sforall no_angle (PIIType_string t) = true.
Proof. by destruct t. Qed.

Lemma digit_no_angle c : is_digit c = true -> no_angle c = true.
Proof.
  unfold is_digit, byte_in, no_angle. intros H. apply andb_true_iff; split; apply negb_true_iff, Ascii.eqb_neq;
    intros ->; vm_compute in H; done.
Qed.

Lemma itoa_no_angle n : 0 <= n -> sforall no_angle (itoa n) = true.
Proof.
  intros H. unfold itoa. destruct (Z.ltb_spec n 0); [lia|].
  eapply sforall_impl; [|apply utoa_digits]. apply digit_no_angle.
Qed.

Lemma placeholder_ok t n : 0 <= n -> ph_ok (placeholder t n).
Proof.
  intros H. exists (PIIType_string t +:+ "_" +:+ itoa n). unfold placeholder. split.
  - by rewrite !sapp_assoc.
  - rewrite !sforall_app, type_string_no_angle, itoa_no_angle by done. done.
Qed.

Lemma placeholder_inj t n t' n' : 0 <= n -> 0 <= n' -> placeholder t n = placeholder t' n' -> t = t' /\ n = n'.
Proof.
  intros Hn Hn' E. unfold placeholder in E. apply sapp_inj_l in E.
  assert (t = t') as ->.
  { destruct t, t'; try reflexivity; exfalso; cbn [PIIType_string] in E; rewrite !sapp_cons in E; discriminate. }
  split; [done|]. apply sapp_inj_l in E. apply sapp_inj_l in E.
  unfold itoa in E. destruct (Z.ltb_spec n 0), (Z.ltb_spec n' 0); try lia.
  apply utoa_inj; [done|done|].
  assert (forall m, scontains_byte ">" (utoa m) = false) as Hgt.
  { intros m. apply no_angle_gt. eapply sforall_impl; [|apply utoa_digits]. apply digit_no_angle. }
  pose proof (index_byte_app ">" (utoa n) "" (Hgt n)) as I1.
  pose proof (index_byte_app ">" (utoa n') "" (Hgt n')) as I2.
  change (String ">" "") with (">" : string) in I1, I2. rewrite E, I2 in I1. injection I1 as Hl.
  rewrite <- (stake_app_length (utoa n) ">"), <- (stake_app_length (utoa n') ">"), E. by rewrite Hl.
Qed.

(** ** What Redact produces *)

(** All keys of the mapping were numbered after [n0] and up to [n]. *)
Definition numbered (n0 n : Numberer) (m : pairs) : Prop :=
  forall k, In k (map fst m) -> exists t i, k = placeholder t i /\ n0 t < i <= n t.

Definition nonneg (n : Numberer) : Prop := forall t, 0 <= n t.
Definition grows (n0 n : Numberer) : Prop := forall t, n0 t <= n t.

Lemma map_set_fresh m k v : ~ In k (map fst m) -> map_set m k v = m ++ [(k, v)].
Proof.
  induction m as [|[k' v'] m IH]; simpl; [done|]. intros H.
  destruct (String.eqb_spec k' k) as [->|]; [tauto|]. rewrite IH by tauto. done.
Qed.

Lemma map_get_app m m' k : map_get (m ++ m') k = match map_get m k with Some v => Some v | None => map_get m' k end.
Proof. induction m as [|[k' v'] m IH]; simpl; [done|]. by destruct (String.eqb k' k). Qed.

Lemma map_get_None m k : ~ In k (map fst m) -> map_get m k = None.
Proof.
  induction m as [|[k' v'] m IH]; simpl; [done|]. intros H.
  destruct (String.eqb_spec k' k) as [->|]; [tauto|]. apply IH. tauto.
Qed.

Definition filled (m : pairs) (l : list tok) : string := render (map (fill m) l).

(** Placeholders used are in the mapping. *)
Definition bound (m : pairs) (l : list tok) : Prop :=
  Forall (fun t => match t with TPh k => is_Some (map_get m k) | TLit _ => True end) l.

Lemma fill_more m k v l : bound m l -> map (fill (m ++ [(k, v)])) l = map (fill m) l.
Proof.
  intros Hb. apply map_ext_in. intros [s|k'] Hin; [done|]. unfold bound in Hb.
  rewrite List.Forall_forall in Hb. destruct (Hb _ Hin) as [v' Hv]. simpl. by rewrite map_get_app, Hv.
Qed.

Lemma bound_more m k v l : bound m l -> bound (m ++ [(k, v)]) l.
Proof.
  intros Hb. eapply List.Forall_impl; [|exact Hb]. intros [s|k']; [done|]. intros [v' Hv].
  rewrite map_get_app, Hv. eauto.
Qed.

Lemma stake_add a k s : stake (a + k) s = stake a s +:+ stake k (sdrop a s).
Proof.
  revert s. induction a as [|a IH]; intros s; simpl; [by rewrite sapp_nil_l|].
  destruct s as [|c s]; [by destruct k|]. rewrite sapp_cons. f_equal. apply IH.
Qed.

Lemma stake_slice a b text : (a <= b)%nat -> stake a text +:+ slice a b text = stake b text.
Proof. intros H. unfold slice. rewrite <- stake_add. f_equal. lia. Qed.

Lemma sforall_slice p a b text : sforall p text = true -> sforall p (slice a b text) = true.
Proof.
  intros H. unfold slice.
  rewrite <- (stake_sdrop a text), sforall_app, andb_true_iff in H. destruct H as [_ H].
  rewrite <- (stake_sdrop (b - a) (sdrop a text)), sforall_app, andb_true_iff in H. by destruct H.
Qed.

Section RedactSpec.
Context (text mode : string) (n0 : Numberer) (Hn0 : nonneg n0) (Hmode : mode <> "mask")
  (Htext : sforall no_lt text = true).

(** After some matches: the output renders literals and placeholders that, filled
    in, are the text up to the last match. *)
Definition redact_inv (s : redaction) : Prop :=
  exists l, rd_out s = render l /\ Forall tok_ok l /\ bound (rd_mapping s) l /\
    filled (rd_mapping s) l = stake (rd_last s) text /\
    pairs_ok (rd_mapping s) /\ NoDup (map fst (rd_mapping s)) /\
    numbered n0 (rd_counts s) (rd_mapping s) /\ grows n0 (rd_counts s) /\
    (rd_last s <= String.length text)%nat.

Lemma redact_step_inv s m : redact_inv s -> match_ok text m -> (rd_last s <= pm_Start m)%nat ->
  redact_inv (redact_step text mode s m).
Proof.
  intros (l & Ho & Hl & Hb & Hf & Hp & Hd & Hnum & Hg & Hlast) ([Hse Hlen] & Hval & Hna) Hs.
  unfold redact_step. destruct (String.eqb_spec mode "mask"); [done|].
  set (n' := next_number (rd_counts s) (pm_Type m)). set (p := placeholder (pm_Type m) (n' (pm_Type m))).
  assert (n' (pm_Type m) = rd_counts s (pm_Type m) + 1) as Hn'.
  { unfold n', next_number. by rewrite decide_True. }
  assert (0 <= rd_counts s (pm_Type m)) as Hc0 by (specialize (Hg (pm_Type m)); specialize (Hn0 (pm_Type m)); lia).
  assert (ph_ok p) as Hpok by (apply placeholder_ok; lia).
  assert (~ In p (map fst (rd_mapping s))) as Hfresh.
  { intros Hin. destruct (Hnum _ Hin) as (t & i & E & Hi). unfold p in E.
    apply placeholder_inj in E as [<- <-]; [lia|lia|]. specialize (Hn0 t). lia. }
  assert (exists l0, (if Nat.ltb (rd_last s) (pm_Start m) then rd_out s +:+ slice (rd_last s) (pm_Start m) text else rd_out s) =
    render l0 /\ Forall tok_ok l0 /\ bound (rd_mapping s) l0 /\ filled (rd_mapping s) l0 = stake (pm_Start m) text)
    as (l0 & -> & Hl0 & Hb0 & Hf0).
  { destruct (Nat.ltb_spec (rd_last s) (pm_Start m)).
    - exists (l ++ [TLit (slice (rd_last s) (pm_Start m) text)]). unfold filled, render in *.
      rewrite !map_app, !concat_strings_app, Ho. cbn [map tok_text fill concat_strings]. rewrite sapp_nil_r. split; [done|].
      split; [apply Forall_app; split; [done|repeat constructor; by apply sforall_slice]|].
      split; [apply Forall_app; split; [done|by repeat constructor]|]. rewrite Hf. apply stake_slice. lia.
    - exists l. replace (pm_Start m) with (rd_last s) by lia. done. }
  exists (l0 ++ [TPh p]). cbn [rd_out rd_mapping rd_counts rd_last]. rewrite map_set_fresh by done.
  assert (map_get (rd_mapping s ++ [(p, pm_Value m)]) p = Some (pm_Value m)) as Hget.
  { rewrite map_get_app, map_get_None by done. simpl. by rewrite String.eqb_refl. }
  split_and!.
  - unfold render. rewrite map_app, concat_strings_app. simpl. by rewrite sapp_nil_r.
  - apply Forall_app; split; [done|by repeat constructor].
  - apply Forall_app; split; [by apply bound_more|]. constructor; [by rewrite Hget|constructor].
  - unfold filled in *. rewrite map_app, fill_more by done. unfold render in *. rewrite map_app, concat_strings_app, Hf0.
    cbn [map fill]. rewrite Hget. cbn [map tok_text concat_strings]. rewrite sapp_nil_r, Hval. apply stake_slice. lia.
  - apply Forall_app; split; [done|]. by repeat constructor.
  - rewrite map_app. apply NoDup_app. split; [done|]. split; [|by repeat constructor; intros ?%elem_of_nil].
    intros k Hk [->|[]%elem_of_nil]%elem_of_cons. by apply Hfresh, list_elem_of_In.
  - intros k. rewrite map_app, in_app_iff. intros [Hk|[<-|[]]].
    + destruct (Hnum _ Hk) as (t & i & -> & Hi). exists t, i. split; [done|].
      unfold n', next_number. destruct (decide (t = pm_Type m)) as [->|]; lia.
    + exists (pm_Type m), (n' (pm_Type m)). split; [done|]. specialize (Hg (pm_Type m)). lia.
  - intros t. unfold n', next_number. specialize (Hg t). destruct (decide (t = pm_Type m)) as [->|]; lia.
  - lia.
Qed.

Lemma redact_fold_inv l : forall s, redact_inv s -> Forall (match_ok text) l -> disjoint_after (rd_last s) l ->
  redact_inv (fold_left (redact_step text mode) l s).
Proof.
  induction l as [|m l IH]; intros s Hs HF Hd; simpl; [done|].
  apply Forall_cons in HF as [Hm HF]. inversion Hd; subst.
  apply IH; [by apply redact_step_inv|done|]. unfold redact_step. by destruct (String.eqb mode "mask").
Qed.

(** The whole of [Redact]. *)
Lemma Redact_spec matches : Forall (match_ok text) matches -> disjoint_after 0 matches ->
  let '(r, n) := Redact text matches mode n0 in
  exists l, rr_Redacted r = render l /\ Forall tok_ok l /\ bound (rr_Mapping r) l /\
    filled (rr_Mapping r) l = text /\ pairs_ok (rr_Mapping r) /\ NoDup (map fst (rr_Mapping r)) /\
    numbered n0 n (rr_Mapping r) /\ grows n0 n.
Proof.
  intros HF Hd. unfold Redact. destruct matches as [|m l] eqn:El.
  - exists [TLit text]. unfold filled, render. simpl. rewrite sapp_nil_r.
    split_and!; try done; try by repeat constructor.
    all: unfold numbered, grows; intros; (lia || done || (by repeat constructor)).
  - rewrite <- El in *. clear El m l. unfold for_range.
    assert (redact_inv (fold_left (redact_step text mode) matches (mkRedaction "" n0 [] 0))) as Hi.
    { apply redact_fold_inv; [|done|done]. exists []. unfold filled, render, numbered, grows. simpl.
      split_and!; try done; try by constructor. all: intros; (lia || done). }
    set (s := fold_left _ _ _) in *.
    destruct Hi as (l & Ho & Hl & Hb & Hf & Hp & Hnd & Hnum & Hg & Hlast).
    destruct (String.eqb_spec mode "mask"); [done|]. cbn [rr_Redacted rr_Mapping].
    destruct (Nat.ltb_spec (rd_last s) (String.length text)).
    + exists (l ++ [TLit (sdrop (rd_last s) text)]). unfold filled, render in *.
      rewrite !map_app, !concat_strings_app, Ho. cbn [map tok_text fill concat_strings]. rewrite sapp_nil_r.
      split_and!; try done.
      * apply Forall_app; split; [done|]. repeat constructor.
        pose proof Htext as Ht. rewrite <- (stake_sdrop (rd_last s) text), sforall_app, andb_true_iff in Ht. apply Ht.
      * apply Forall_app; split; [done|by repeat constructor].
      * rewrite Hf. apply stake_sdrop.
    + exists l. split_and!; try done. rewrite Hf. apply stake_all. lia.
Qed.
End RedactSpec.

Lemma pairs_ok_perm m m' : m ≡ₚ m' -> pairs_ok m -> pairs_ok m'.
Proof. unfold pairs_ok. intros Hp H. rewrite List.Forall_forall in *. intros x Hx. apply H. eapply Permutation_in; [by symmetry|done]. Qed.

(** Redaction is reversible: for a text without an opening bracket, whatever
    was detected in it and whatever order the map is visited in, restoring the
    redacted text gives the original text back. *)
Theorem redact_restore_roundtrip (is_ipv6 : string -> bool) (sort : list PIIMatch -> list PIIMatch)
  (text mode : string) (n0 : Numberer) (order : list (string * string))
  (Hsort : forall l, sort l ≡ₚ l /\ StronglySorted pii_nle (sort l))
  (Htext : sforall no_lt text = true) (Hmode : mode <> "mask") (Hn0 : nonneg n0)
  (Horder : order ≡ₚ rr_Mapping (Redact text (DetectPII is_ipv6 sort text) mode n0).1) :
  Restore (rr_Redacted (Redact text (DetectPII is_ipv6 sort text) mode n0).1) order = text.
Proof.
  destruct (DetectPII_ok is_ipv6 sort text Hsort) as [HF Hd].
  pose proof (Redact_spec text mode n0 Hn0 Hmode Htext _ HF Hd) as H.
  destruct (Redact text (DetectPII is_ipv6 sort text) mode n0) as [r n]. cbn [fst] in *.
  destruct H as (l & -> & Hl & _ & Hf & Hp & Hnd & _).
  rewrite Restore_render; [|by eapply pairs_ok_perm; [symmetry; exact Horder|]|done].
  rewrite <- Hf. unfold filled. f_equal. apply map_ext. intros [s|k]; simpl; [done|].
  rewrite (map_get_perm (rr_Mapping r) order k) by (done || by symmetry). done.
Qed.

(** ** Streaming *)

(** The loop of [Process], one byte or one placeholder at a time. *)
Fixpoint scan (m : pairs) (fuel : nat) (s : string) : string * string :=
  match fuel with
  | O => ("", s)
  | S fuel =>
      match s with
      | EmptyString => ("", "")
      | String c s' =>
          if negb (Ascii.eqb "<" c) then let '(o, r) := scan m fuel s' in (String c o, r)
          else match index ">" s with
          | None =>
              if maxPlaceholderLen <? slen s then let '(o, r) := scan m fuel s' in (String c o, r)
              else ("", s)
          | Some i =>
              match map_get m (stake (i + 1) s) with
              | Some v => let '(o, r) := scan m fuel (sdrop (i + 1) s) in (v +:+ o, r)
              | None => let '(o, r) := scan m fuel s' in (String c o, r)
              end
          end
      end
  end.

Definition scan_all (m : pairs) (s : string) : string * string := scan m (S (String.length s)) s.

Lemma scan_fuel m f : forall f' s, (String.length s < f)%nat -> (String.length s < f')%nat -> scan m f s = scan m f' s.
Proof.
  induction f as [|f IH]; intros f' s H H'; [lia|]. destruct f' as [|f']; [lia|]. cbn [scan].
  destruct s as [|c s]; [done|]. cbn [String.length] in *.
  rewrite (IH f' s) by lia. destruct (negb _); [done|].
  destruct (index ">" (String c s)) as [i|]; [|done].
  destruct (map_get _ _); [|done]. rewrite (IH f' (sdrop (i + 1) (String c s))); [done| |];
    rewrite slength_sdrop; cbn [String.length]; lia.
Qed.

(** Bytes before the first bracket are copied. *)
Lemma scan_plain m a s f : scontains_byte "<" a = false -> (String.length (a +:+ s) < f)%nat ->
  scan m f (a +:+ s) = let '(o, r) := scan m f s in (a +:+ o, r).
Proof.
  revert f. induction a as [|c a IH]; intros f Ha Hf.
  - rewrite !sapp_nil_l. destruct (scan m f s). by rewrite sapp_nil_l.
  - rewrite sapp_cons in *. destruct f as [|f]; [lia|]. cbn [scontains_byte String.length] in *.
    rewrite slength_app in Hf. rewrite (scan_fuel m (S f) f s) by lia. cbn [scan].
    apply orb_false_iff in Ha as [-> Ha]. cbn [negb]. rewrite IH by (rewrite ?slength_app; done || lia).
    destruct (scan m f s) as [o r]. by rewrite sapp_cons.
Qed.

Lemma process_loop_scan m f : forall out b, (String.length b < f)%nat ->
  process_loop m f out b = let '(o, r) := scan m f b in (out +:+ o, r).
Proof.
  induction f as [|f IH]; intros out b Hf; [lia|].
  cbn [process_loop]. destruct (index "<" b) as [i|] eqn:Ei.
  - apply index_byte_Some in Ei as (a & b' & -> & Ha & <-).
    rewrite stake_app_length, sdrop_app_length.
    rewrite scan_plain by done. rewrite slength_app in Hf. cbn [String.length] in Hf.
    cbn [scan]. change (negb (Ascii.eqb "<" "<")) with false. cbv iota.
    destruct (index ">" (String "<" b')) as [j|] eqn:Ej.
    + assert (String.length (sdrop (j + 1) (String "<" b')) < f)%nat as Hd
        by (rewrite slength_sdrop; cbn [String.length]; lia).
      destruct (map_get m _) as [v|].
      * rewrite IH by done. destruct (scan m f _) as [o r]. by rewrite !sapp_assoc.
      * cbn [sdrop]. rewrite IH by lia. destruct (scan m f b') as [o r].
        by rewrite !sapp_assoc, sapp_cons, sapp_nil_l.
    + destruct (maxPlaceholderLen <? slen (String "<" b')).
      * cbn [sdrop stake]. rewrite IH by lia. destruct (scan m f b') as [o r].
        destruct b'; cbn [stake]; by rewrite !sapp_assoc, sapp_cons, sapp_nil_l.
      * by rewrite sapp_nil_r.
  - apply index_byte_None in Ei. rewrite <- (sapp_nil_r b) at 2.
    rewrite scan_plain by (rewrite ?sapp_nil_r; done). destruct f; simpl; by rewrite ?sapp_nil_r.
Qed.

Lemma scan_rest_short m f : forall s, (String.length s < f)%nat ->
  (scan m f s).2 = "" \/ (index ">" (scan m f s).2 = None /\ has_prefix "<" (scan m f s).2 = true).
Proof.
  induction f as [|f IH]; intros s Hf; [lia|]. cbn [scan]. destruct s as [|c s]; [by left|]. cbn [String.length] in Hf.
  destruct (negb (Ascii.eqb "<" c)) eqn:Ec.
  { specialize (IH s ltac:(lia)). by destruct (scan m f s). }
  destruct (index ">" (String c s)) as [i|] eqn:Ei.
  - destruct (map_get _ _).
    + specialize (IH (sdrop (i + 1) (String c s)) ltac:(rewrite slength_sdrop; cbn [String.length]; lia)).
      by destruct (scan m f _).
    + specialize (IH s ltac:(lia)). by destruct (scan m f s).
  - destruct (_ <? _); [specialize (IH s ltac:(lia)); by destruct (scan m f s)|].
    right. split; [done|]. apply negb_false_iff in Ec. cbn [snd has_prefix]. by rewrite Ec.
Qed.

Lemma scan_rest_le m f : forall s, (String.length (scan m f s).2 <= String.length s)%nat.
Proof.
  induction f as [|f IH]; intros s; [done|]. cbn [scan]. destruct s as [|c s]; [done|]. cbn [String.length].
  assert (forall r v, (String.length r <= S (String.length s))%nat ->
    (String.length (let '(o, x) := scan m f r in (v +:+ o, x)).2 <= S (String.length s))%nat) as H.
  { intros r v Hr. specialize (IH r). destruct (scan m f r); simpl in *. lia. }
  assert ((String.length (let '(o, x) := scan m f s in (String c o, x)).2 <= S (String.length s))%nat) as Hc.
  { specialize (IH s). destruct (scan m f s); simpl in *. lia. }
  destruct (negb _); [exact Hc|]. destruct (index _ _); [destruct (map_get _ _)|destruct (_ <? _)]; try exact Hc; try done.
  apply H. rewrite slength_sdrop. cbn [String.length]. lia.
Qed.

Definition keys_short (m : pairs) : Prop := Forall (fun kv => (String.length kv.1 <= 41)%nat) m.

Lemma index_app_l c s t i : index (String c "") s = Some i -> index (String c "") (s +:+ t) = Some i.
Proof.
  intros H. apply index_byte_Some in H as (a & b & -> & Ha & <-).
  rewrite sapp_assoc, sapp_cons. by apply index_byte_app.
Qed.

Lemma stake_app_l n s t : (n <= String.length s)%nat -> stake n (s +:+ t) = stake n s.
Proof.
  revert n. induction s as [|c s IH]; intros [|n] H; simpl in *; rewrite ?sapp_cons; try done; try lia.
  simpl. f_equal. apply IH. lia.
Qed.
Lemma sdrop_app_l n s t : (n <= String.length s)%nat -> sdrop n (s +:+ t) = sdrop n s +:+ t.
Proof.
  revert n. induction s as [|c s IH]; intros [|n] H; simpl in *; try done; try lia.
  apply IH. lia.
Qed.

Lemma map_get_long m s : keys_short m -> (41 < String.length s)%nat -> map_get m s = None.
Proof.
  intros Hm Hs. induction Hm as [|[k v] m Hk Hm IH]; simpl; [done|]. simpl in Hk.
  destruct (String.eqb_spec k s) as [->|]; [lia|done].
Qed.

Lemma index_bound s i : index ">" s = Some i -> (i < String.length s)%nat.
Proof.
  intros H. apply index_byte_Some in H as (a & b & -> & _ & <-). rewrite slength_app. simpl. lia.
Qed.

Lemma scan_cons m f c s : scan m (S f) (String c s) =
  if negb (Ascii.eqb "<" c) then let '(o, r) := scan m f s in (String c o, r)
  else match index ">" (String c s) with
  | None =>
      if maxPlaceholderLen <? slen (String c s) then let '(o, r) := scan m f s in (String c o, r)
      else ("", String c s)
  | Some i =>
      match map_get m (stake (i + 1) (String c s)) with
      | Some v => let '(o, r) := scan m f (sdrop (i + 1) (String c s)) in (v +:+ o, r)
      | None => let '(o, r) := scan m f s in (String c o, r)
      end
  end.
Proof. done. Qed.

Lemma nil_output (p : string * string) : (let '(o, r) := p in ("" +:+ o, r)) = p.
Proof. destruct p. by rewrite sapp_nil_l. Qed.

(** Scanning a text in two parts: the rest of the first is scanned again in
    front of the second. *)
Lemma scan_app m t : keys_short m -> forall f s, (String.length (s +:+ t) < f)%nat ->
  scan m f (s +:+ t) = let '(o1, r1) := scan m f s in let '(o2, r2) := scan m f (r1 +:+ t) in (o1 +:+ o2, r2).
Proof.
  intros Hm. induction f as [|f IH]; intros s Hf; [lia|].
  destruct s as [|c s].
  { change (scan m (S f) "") with ("", "" : string). cbv iota beta. rewrite !sapp_nil_l.
    destruct (scan m (S f) t). by rewrite sapp_nil_l. }
  rewrite sapp_cons in *. cbn [String.length] in Hf. pose proof Hf as Hf'. rewrite slength_app in Hf'.
  assert (forall r, (String.length r <= String.length (s +:+ t))%nat -> scan m (S f) r = scan m f r) as Hfuel
    by (intros; apply scan_fuel; lia).
  (* one byte is copied by both scans *)
  assert ((let '(o, r) := scan m f (s +:+ t) in (String c o, r)) =
          (let '(o1, r1) := (let '(o, r) := scan m f s in (String c o, r)) in
           let '(o2, r2) := scan m (S f) (r1 +:+ t) in (o1 +:+ o2, r2))) as Hcopy.
  { rewrite IH by lia. destruct (scan m f s) as [o1 r1] eqn:E1.
    rewrite Hfuel. { destruct (scan m f (r1 +:+ t)) as [o2 r2]. by rewrite sapp_cons. }
    assert (String.length r1 <= String.length s)%nat.
    { pose proof (scan_rest_le m f s) as H. by rewrite E1 in H. }
    rewrite !slength_app. lia. }
  rewrite !scan_cons. destruct (negb (Ascii.eqb "<" c)) eqn:Ec; [exact Hcopy|].
  destruct (index ">" (String c s)) as [i|] eqn:Ei.
  - pose proof (index_app_l _ _ t _ Ei) as Ei'. rewrite sapp_cons in Ei'. rewrite Ei'.
    pose proof (index_bound _ _ Ei) as Hi. rewrite <- sapp_cons, stake_app_l, sdrop_app_l by lia.
    destruct (map_get m _) as [v|]; [|exact Hcopy].
    rewrite IH by (rewrite slength_app, slength_sdrop; cbn [String.length]; lia).
    destruct (scan m f (sdrop (i + 1) (String c s))) as [o1 r1] eqn:E1.
    rewrite Hfuel. { destruct (scan m f (r1 +:+ t)) as [o2 r2]. by rewrite sapp_assoc. }
    pose proof (scan_rest_le m f (sdrop (i + 1) (String c s))) as H. rewrite E1, slength_sdrop in H.
    cbn [snd String.length] in H. rewrite !slength_app. lia.
  - destruct (Z.ltb_spec maxPlaceholderLen (slen (String c s))) as [Hlen|Hlen].
    + destruct (index ">" (String c (s +:+ t))) as [j|] eqn:Ej.
      * rewrite map_get_long; [exact Hcopy|done|].
        assert (String.length (String c s) <= j)%nat as Hj.
        { destruct (Nat.le_gt_cases (String.length (String c s)) j) as [|Hlt]; [done|exfalso].
          apply index_byte_Some in Ej as (a & b & E & Ha & Hla).
          assert (index ">" (String c s) = Some j) as C; [|congruence].
          assert (exists b', String c s = a +:+ String ">" b') as [b' ->].
          { rewrite <- sapp_cons in E. exists (sdrop (S j) (String c s)).
            transitivity (stake j (String c s) +:+ sdrop j (String c s)); [symmetry; apply stake_sdrop|]. f_equal.
            - rewrite <- (stake_app_l j (String c s) t) by lia. rewrite E, <- Hla. apply stake_app_length.
            - assert (sdrop j (String c s) +:+ t = String ">" b) as Ed.
              { rewrite <- sdrop_app_l by lia. rewrite E, <- Hla. apply sdrop_app_length. }
              destruct (sdrop j (String c s)) as [|x y] eqn:Ex.
              + assert (String.length (sdrop j (String c s)) = 0)%nat as H0 by by rewrite Ex. rewrite slength_sdrop in H0. lia.
              + rewrite sapp_cons in Ed. injection Ed as -> _. replace (S j) with (j + 1)%nat by lia.
                rewrite <- sdrop_sdrop, Ex. done. }
          rewrite <- Hla. by apply index_byte_app. }
        pose proof (index_bound _ _ Ej) as Hj2. rewrite slength_stake. unfold slen, maxPlaceholderLen in Hlen.
        cbn [String.length] in *. lia.
      * destruct (Z.ltb_spec maxPlaceholderLen (slen (String c (s +:+ t)))) as [|Hlen']; [exact Hcopy|].
        exfalso. unfold slen, maxPlaceholderLen in *. cbn [String.length] in *. rewrite slength_app in Hlen'. lia.
    + cbv iota beta. rewrite nil_output, sapp_cons, scan_cons, Ec. done.
Qed.

Lemma scan_all_app m s t : keys_short m ->
  scan_all m (s +:+ t) = let '(o1, r1) := scan_all m s in let '(o2, r2) := scan_all m (r1 +:+ t) in (o1 +:+ o2, r2).
Proof.
  intros Hm. unfold scan_all. set (F := S (String.length (s +:+ t))). rewrite (scan_app m t Hm F s) by (unfold F; lia).
  rewrite (scan_fuel m (S (String.length s)) F s) by (unfold F; rewrite ?slength_app; lia).
  pose proof (scan_rest_le m F s) as Hle. destruct (scan m F s) as [o1 r1]. cbn [snd] in Hle.
  rewrite (scan_fuel m (S (String.length (r1 +:+ t))) F (r1 +:+ t)) by (unfold F; rewrite ?slength_app; lia). done.
Qed.

Definition stable (m : pairs) (r : string) : Prop := scan_all m r = ("", r).

Lemma scan_rest_stable m s : keys_short m -> stable m (scan_all m s).2.
Proof.
  intros Hm. unfold stable. pose proof (scan_all_app m s "" Hm) as H. rewrite sapp_nil_r in H.
  destruct (scan_all m s) as [o1 r1]. cbn [snd]. rewrite sapp_nil_r in H.
  destruct (scan_all m r1) as [o2 r2]. injection H as E ->. f_equal.
  apply (sapp_inj_l o1). by rewrite sapp_nil_r.
Qed.

Lemma Process_scan m r c : m <> [] ->
  Process (mkStreamRestorer m r) c =
  let '(o, r') := scan_all m (r +:+ c) in (o, mkStreamRestorer m r').
Proof.
  intros Hm. unfold Process. cbn [sr_mapping sr_buffer]. destruct m as [|kv m0] eqn:E; [done|]. rewrite <- E in *.
  rewrite process_loop_scan by lia. unfold scan_all. by destruct (scan _ _ _).
Qed.

Lemma process_all_scan m chunks : m <> [] -> keys_short m -> forall r, stable m r ->
  process_all (mkStreamRestorer m r) chunks =
  let '(o, r') := scan_all m (r +:+ concat_strings chunks) in (o, mkStreamRestorer m r').
Proof.
  intros Hne Hm. induction chunks as [|c cs IH]; intros r Hr; cbn [process_all concat_strings].
  - rewrite sapp_nil_r. by rewrite Hr.
  - rewrite Process_scan by done. rewrite <- sapp_assoc, (scan_all_app m (r +:+ c) _ Hm).
    pose proof (scan_rest_stable m (r +:+ c) Hm) as Hst.
    destruct (scan_all m (r +:+ c)) as [o1 r1]. cbn [snd] in Hst. rewrite IH by done.
    by destruct (scan_all m (r1 +:+ concat_strings cs)).
Qed.

Lemma process_all_empty chunks : forall r, process_all (mkStreamRestorer [] r) chunks = (concat_strings chunks, mkStreamRestorer [] r).
Proof. induction chunks as [|c cs IH]; intros r; simpl; [done|]. by rewrite IH. Qed.

Lemma restored_stream_scan m chunks : m <> [] -> keys_short m ->
  restored_stream m chunks = let '(o, r) := scan_all m (concat_strings chunks) in o +:+ (Flush (mkStreamRestorer m r)).1.
Proof.
  intros Hne Hm. unfold restored_stream, NewStreamRestorer.
  rewrite process_all_scan by done. rewrite sapp_nil_l. by destruct (scan_all m _).
Qed.

(** Streaming does not change the result: with placeholders of at most 41
    bytes, the restored stream depends only on the concatenation of the chunks,
    wherever a chunk boundary falls. *)
Theorem stream_chunking_irrelevant (m : list (string * string)) (chunks chunks' : list string)
  (Hkeys : keys_short m) (Hsame : concat_strings chunks = concat_strings chunks') :
  restored_stream m chunks = restored_stream m chunks'.
Proof.
  destruct m as [|kv m0] eqn:E.
  - unfold restored_stream, NewStreamRestorer. rewrite !process_all_empty. simpl. by rewrite Hsame.
  - rewrite !restored_stream_scan by done. by rewrite Hsame.
Qed.

Lemma scan_ph m k v s f : ph_ok k -> map_get m k = Some v -> (String.length (k +:+ s) < f)%nat ->
  scan m f (k +:+ s) = let '(o, r) := scan m f s in (v +:+ o, r).
Proof.
  intros (b & -> & Hb) Hk Hf. rewrite sapp_cons, sapp_nil_l in *. rewrite sapp_cons in *. cbn [String.length] in Hf.
  destruct f as [|f]; [lia|]. rewrite !slength_app in Hf. rewrite (scan_fuel m (S f) f s) by lia.
  rewrite scan_cons. change (negb (Ascii.eqb "<" "<")) with false. cbv iota.
  assert (scontains_byte ">" (String "<" b) = false) as Hg by (apply no_angle_gt in Hb; exact Hb).
  pose proof (index_byte_app ">" (String "<" b) s Hg) as Hi.
  rewrite sapp_cons in Hi. rewrite sapp_assoc. change (">" +:+ s) with (String ">" s) in *. rewrite Hi.
  assert (String "<" (b +:+ String ">" s) = String "<" (b +:+ ">") +:+ s) as E.
  { rewrite sapp_cons, sapp_assoc. done. }
  assert (String.length (String "<" b) + 1 = String.length (String "<" (b +:+ ">")))%nat as El.
  { cbn [String.length]. rewrite slength_app. simpl. lia. }
  rewrite E, El, stake_app_length, sdrop_app_length, Hk. done.
Qed.

Lemma scan_render m l : Forall tok_ok l -> bound m l -> forall f, (String.length (render l) < f)%nat ->
  scan m f (render l) = (filled m l, "").
Proof.
  unfold filled, render. induction 1 as [|t l Ht Hl IH]; intros Hb f Hf; cbn [map concat_strings] in *.
  - destruct f; [simpl in Hf; lia|done].
  - apply Forall_cons in Hb as [Ht' Hb]. rewrite slength_app in Hf.
    assert (String.length (tok_text t +:+ concat_strings (map tok_text l)) < f)%nat as Hf' by (rewrite slength_app; lia).
    destruct t as [s|k]; cbn [tok_text fill].
    + rewrite scan_plain by (by apply no_lt_contains || done). rewrite IH by (done || lia). done.
    + destruct Ht' as [v Hv]. rewrite (scan_ph m k v) by done. rewrite IH by (done || lia). by rewrite Hv.
Qed.

(** A redacted text streamed back in any chunks reaches the client as the
    original text. *)
Theorem stream_restores_redacted (is_ipv6 : string -> bool) (sort : list PIIMatch -> list PIIMatch)
  (text mode : string) (n0 : Numberer) (chunks : list string)
  (Hsort : forall l, sort l ≡ₚ l /\ StronglySorted pii_nle (sort l))
  (Htext : sforall no_lt text = true) (Hmode : mode <> "mask") (Hn0 : nonneg n0)
  (Hkeys : keys_short (rr_Mapping (Redact text (DetectPII is_ipv6 sort text) mode n0).1))
  (Hchunks : concat_strings chunks = rr_Redacted (Redact text (DetectPII is_ipv6 sort text) mode n0).1) :
  restored_stream (rr_Mapping (Redact text (DetectPII is_ipv6 sort text) mode n0).1) chunks = text.
Proof.
  destruct (DetectPII_ok is_ipv6 sort text Hsort) as [HF Hd].
  pose proof (Redact_spec text mode n0 Hn0 Hmode Htext _ HF Hd) as H.
  destruct (Redact text (DetectPII is_ipv6 sort text) mode n0) as [r n]. cbn [fst] in *.
  destruct H as (l & Hr & Hl & Hb & Hf & _). rewrite Hr in Hchunks.
  destruct (rr_Mapping r) as [|kv m] eqn:E.
  - unfold restored_stream, NewStreamRestorer. rewrite process_all_empty. simpl. rewrite sapp_nil_r, Hchunks.
    rewrite <- Hf. unfold filled. f_equal. rewrite <- (map_id l) at 1. apply map_ext. by intros [].
  - rewrite restored_stream_scan by done. rewrite Hchunks. unfold scan_all. rewrite scan_render by (done || lia).
    rewrite Hf. simpl. by rewrite sapp_nil_r.
Qed.

(** ** Witnesses *)

Definition demo_text : string := "mail a.b@example.co or call 415-555-0100".
Definition demo_redacted : RedactResult := (Redact demo_text (DetectPII (fun _ => true) demo_sort demo_text) "redact" no_numbers).1.

Example demo_redacted_ex : rr_Redacted demo_redacted = "mail <EMAIL_1> or call <PHONE_1>".
Proof. vm_compute. reflexivity. Qed.

Lemma redact_restore_roundtrip_witness :
  Restore (rr_Redacted demo_redacted) (rev (rr_Mapping demo_redacted)) = demo_text.
Proof.
  apply (redact_restore_roundtrip (fun _ => true) demo_sort demo_text "redact" no_numbers);
    [exact demo_sort_ok|vm_compute; reflexivity|discriminate|intros t; vm_compute; discriminate|].
  unfold demo_redacted. symmetry. apply Permutation_rev.
Defined.

Lemma stream_chunking_irrelevant_witness :
  restored_stream [("<EMAIL_1>", "a@b.co")] ["hi <EM"; "AIL_1>"] = restored_stream [("<EMAIL_1>", "a@b.co")] ["hi <EMAIL_1>"].
Proof. apply stream_chunking_irrelevant; [repeat constructor; simpl; lia|reflexivity]. Defined.

Lemma stream_restores_redacted_witness :
  restored_stream (rr_Mapping demo_redacted) ["mail <EMA"; "IL_1> or call <PHON"; "E_1>"] = demo_text.
Proof.
  apply (stream_restores_redacted (fun _ => true) demo_sort demo_text "redact" no_numbers);
    [exact demo_sort_ok|vm_compute; reflexivity|discriminate|intros t; vm_compute; discriminate| |].
  - vm_compute. repeat constructor.
  - vm_compute. reflexivity.
Defined.
