(* ===== verification/Threads.v ===== *)
(** * Concurrent requests over shared stores

    A request handler is a program that performs operations on the stores it
    shares with other handlers (one atomic command of Redis or of the database
    each) and continues with their results.  A machine holds the handlers in
    flight; a schedule says which of them performs its next operation, what goes
    wrong with it, when requests arrive and how time passes.  [wp] is a
    precondition with a ghost number of credits, and [run_wp] the rule that turns
    a condition on single operations into an invariant of every schedule. *)

From S2P Require Import Prelude.

Open Scope list_scope.
Open Scope Z_scope.

Set Implicit Arguments.

(** ** Programs *)

Inductive prog (O : Type -> Type) (A : Type) : Type :=
| Ret (a : A)
| Do (R : Type) (o : O R) (k : R -> prog O A).
Arguments Ret {O A}.
Arguments Do {O A R}.

Fixpoint prog_bind {O : Type -> Type} {A B : Type} (k : A -> prog O B) (p : prog O A) : prog O B :=
  match p with
  | Ret a => k a
  | Do o k' => Do o (fun r => prog_bind k (k' r))
  end.

Declare Scope prog_scope.
Delimit Scope prog_scope with prog.
Notation "'let!' x := p 'in' k" := (prog_bind (fun x => k%prog) p%prog)
  (at level 200, x name, p at level 100, k at level 200) : prog_scope.
Notation "'do!' p ; k" := (prog_bind (fun _ => k%prog) p%prog)
  (at level 200, p at level 100, k at level 200) : prog_scope.

(** A single operation. *)
Definition call_op {O : Type -> Type} {R : Type} (o : O R) : prog O R := Do o Ret.

(** [for _, x := range l { body }] with a running state. *)
Fixpoint for_each {O : Type -> Type} {X S : Type} (l : list X) (s : S) (body : S -> X -> prog O S) : prog O S :=
  match l with
  | [] => Ret s
  | x :: l' => prog_bind (fun s' => for_each l' s' body) (body s x)
  end.

(** ** Preconditions *)

Section Wp.
Context {O : Type -> Type} (spec : forall R, O R -> nat -> (R -> nat -> Prop) -> Prop).

Fixpoint wp {A : Type} (p : prog O A) (g : nat) (Q : A -> nat -> Prop) : Prop :=
  match p with
  | Ret a => Q a g
  | Do o k => spec o g (fun r g' => wp (k r) g' Q)
  end.

Definition spec_mono : Prop := forall R (o : O R) g (P Q : R -> nat -> Prop),
  (forall r g', P r g' -> Q r g') -> spec o g P -> spec o g Q.

Lemma wp_mono {A} (p : prog O A) g (P Q : A -> nat -> Prop) : spec_mono ->
  (forall a g', P a g' -> Q a g') -> wp p g P -> wp p g Q.
Proof.
  intros Hm HPQ. revert g. induction p as [a|R o k IH]; intros g; simpl; [apply HPQ|].
  apply Hm. intros r g'. apply IH.
Qed.

Lemma wp_bind {A B} (p : prog O A) (k : A -> prog O B) g Q : spec_mono ->
  wp p g (fun a g' => wp (k a) g' Q) -> wp (prog_bind k p) g Q.
Proof.
  intros Hm. revert g. induction p as [a|R o k' IH]; intros g; simpl; [done|].
  apply Hm. intros r g'. apply IH.
Qed.
End Wp.

(** Programs that leave the credits alone, whatever their operations return. *)
Section Steady.
Context {O : Type -> Type} (spec : forall R, O R -> nat -> (R -> nat -> Prop) -> Prop) (Hm : spec_mono spec).

Definition steady {A} (p : prog O A) : Prop := forall g Q, (forall a, Q a g) -> wp spec p g Q.

Lemma steady_ret {A} (a : A) : steady (Ret a).
Proof. intros g Q H. apply H. Qed.

Lemma steady_bind {A B} (p : prog O A) (k : A -> prog O B) : steady p -> (forall a, steady (k a)) -> steady (prog_bind k p).
Proof using Hm. intros Hp Hk g Q H. apply wp_bind; [done|]. apply Hp. intros a. by apply Hk. Qed.

Lemma steady_call {R} (o : O R) : (forall g P, (forall r, P r g) -> spec o g P) -> steady (call_op o).
Proof. intros H g Q HQ. by apply H. Qed.

Lemma steady_for_each {X S} (l : list X) (body : S -> X -> prog O S) :
  (forall s x, steady (body s x)) -> forall s, steady (for_each l s body).
Proof using Hm.
  intros Hb. induction l as [|x l IH]; intros s; cbn [for_each]; [apply steady_ret|]. by apply steady_bind.
Qed.

(** After a steady program the rest runs with the same credits. *)
Lemma wp_steady_bind {A B} (p : prog O A) (k : A -> prog O B) g Q :
  steady p -> (forall a, wp spec (k a) g Q) -> wp spec (prog_bind k p) g Q.
Proof using Hm. intros Hp H. apply wp_bind; [done|]. by apply Hp. Qed.
End Steady.

(** One tactic proves that a program is steady: it follows the structure of the
    program down to its operations, for which it calls [op_tac], and to the programs that
    [base] knows. *)
Ltac head t := match t with ?f _ => head f | ?f => f end.

Ltac follow mono op_tac base :=
  repeat first
    [ assumption
    | base
    | match goal with |- steady _ (Ret _) => apply steady_ret end
    | match goal with
      | |- steady _ (call_op _) => op_tac
      | |- steady _ (Do _ Ret) => op_tac
      end
    | match goal with
      | |- steady _ (prog_bind _ _) => apply steady_bind; [mono| |intros ?]
      | |- steady _ (for_each _ _ _) => apply steady_for_each; [mono|intros ? ?]
      end
    | match goal with
      | |- steady _ (match ?x with _ => _ end) => destruct x
      | |- steady _ (if ?b then _ else _) => destruct b
      | |- steady _ ?p => let h := head p in unfold h
      end ].

Lemma wp_weaken {O : Type -> Type} (spec spec' : forall R, O R -> nat -> (R -> nat -> Prop) -> Prop) {A}
  (p : prog O A) g (Q : A -> nat -> Prop) :
  (forall R (o : O R) g P, spec R o g P -> spec' R o g P) -> spec_mono spec' ->
  wp spec p g Q -> wp spec' p g Q.
Proof.
  intros Hs Hm. revert g. induction p as [a|R o k IH]; intros g; simpl; [done|].
  intros H%Hs. eapply Hm; [|exact H]. intros r g'. apply IH.
Qed.

(** ** The machine *)

(** What the environment decides: which thread steps and with what outcome [E],
    the arrival of a request, the passing of [d] nanoseconds. *)
Inductive event (C E : Type) :=
| Spawn (c : C)
| Step (i : nat) (e : E)
| Tick (d : N).
Arguments Spawn {C E}.
Arguments Step {C E}.
Arguments Tick {C E}.

Record sys (O : Type -> Type) (W C A : Type) := mkSystem {
  sys_world : W;
  sys_threads : list (C * prog O A)
}.
Arguments mkSystem {O W C A}.

Section Machine.
Context {O : Type -> Type} {W C A E : Type}
  (exec : C -> E -> forall R, O R -> W -> W * R) (start : C -> prog O A) (tick : N -> W -> W).

(** A step of a thread that does not exist or has finished changes nothing. *)
Definition sched (s : sys O W C A) (ev : event C E) : sys O W C A :=
  match ev with
  | Spawn c => mkSystem (sys_world s) (sys_threads s ++ [(c, start c)])
  | Tick d => mkSystem (tick d (sys_world s)) (sys_threads s)
  | Step i e =>
      match sys_threads s !! i with
      | Some (c, Do o k) =>
          let '(w, r) := exec c e o (sys_world s) in
          mkSystem w (<[i := (c, k r)]> (sys_threads s))
      | _ => s
      end
  end.

Definition run (evs : list (event C E)) (s : sys O W C A) : sys O W C A := fold_left sched evs s.

Definition finished (s : sys O W C A) (i : nat) (a : A) : Prop :=
  exists c, sys_threads s !! i = Some (c, Ret a).

Lemma run_app evs evs' s : run (evs ++ evs') s = run evs' (run evs s).
Proof. apply fold_left_app. Qed.

Lemma run_cons ev evs s : run (ev :: evs) s = run evs (sched s ev).
Proof. done. Qed.

(** Clients never change and are never removed. *)
Lemma sched_clients s ev i c : fst <$> sys_threads s !! i = Some c ->
  fst <$> sys_threads (sched s ev) !! i = Some c.
Proof.
  intros H. destruct ev as [c'|j e|d]; simpl; [| |done].
  - destruct (sys_threads s !! i) as [[c0 p]|] eqn:Ei; [|done]. simplify_eq/=.
    by rewrite lookup_app_l, Ei by (apply lookup_lt_Some in Ei; done).
  - destruct (sys_threads s !! j) as [[cj [a|R o k]]|] eqn:Ej; [done| |done].
    destruct (exec cj e o (sys_world s)) as [w r]. simpl.
    destruct (decide (j = i)) as [<-|]; [|by rewrite list_lookup_insert_ne].
    rewrite list_lookup_insert_eq by (eapply lookup_lt_Some; exact Ej).
    rewrite <- H. exact (eq_sym (f_equal (fmap fst) Ej)).
Qed.

(** ** The rule for invariants

    [spec c] is the condition on the operations of client [c], [I h w n] an
    invariant of the history [h] of events, the world and the number of credits in
    circulation, and [K] what is known of an event and of the worlds before and
    after it.  [F i c] holds of the result of thread [i]. *)
Section Rule.
Context {H : Type} (upd : H -> event C E -> H)
  (spec : C -> forall R, O R -> nat -> (R -> nat -> Prop) -> Prop)
  (I : H -> W -> nat -> Prop) (K : event C E -> W -> W -> Prop) (F : nat -> C -> A -> nat -> Prop).

Definition op_sound : Prop := forall i c e R (o : O R) h w g rest P w' r,
  K (Step i e) w w' -> I h w (g + rest) -> spec c o g P -> exec c e o w = (w', r) ->
  exists g', P r g' /\ I (upd h (Step i e)) w' (g' + rest).

Definition spawn_sound (n : nat) : Prop := forall i c w, (n <= i)%nat -> K (Spawn c) w w -> wp (spec c) (start c) 0 (F i c).

Definition tick_sound : Prop := forall d h w n, K (Tick d) w (tick d w) -> I h w n -> I (upd h (Tick d)) (tick d w) n.

(** The history may grow without anything happening. *)
Definition upd_sound : Prop := forall ev h w n, K ev w w -> I h w n -> I (upd h ev) w n.

(** Every thread satisfies its precondition with the credits it holds. *)
Definition sys_inv (h : H) (s : sys O W C A) : Prop :=
  exists gs : list nat,
    length gs = length (sys_threads s) /\
    (forall i c p g, sys_threads s !! i = Some (c, p) -> gs !! i = Some g -> wp (spec c) p g (F i c)) /\
    I h (sys_world s) (list_sum gs).

Lemma list_sum_insert gs i g g' : gs !! i = Some g -> exists rest,
  list_sum gs = (g + rest)%nat /\ list_sum (<[i := g']> gs) = (g' + rest)%nat.
Proof.
  revert i. induction gs as [|n gs IH]; intros i; [done|]. destruct i as [|i]; simpl.
  - intros [= ->]. by exists (list_sum gs).
  - intros Hi. destruct (IH _ Hi) as (rest & E1 & E2). exists (n + rest)%nat.
    change (list_sum (n :: ?l)) with (n + list_sum l)%nat. lia.
Qed.

Context (Hop : op_sound) (Htk : tick_sound) (Hupd : upd_sound).

Lemma sched_inv h s ev n : (n <= length (sys_threads s))%nat -> spawn_sound n ->
  K ev (sys_world s) (sys_world (sched s ev)) -> sys_inv h s -> sys_inv (upd h ev) (sched s ev).
Proof using Hop Htk Hupd.
  intros Hn Hsp HK (gs & Hlen & Hwp & HI). destruct ev as [c|i e|d]; simpl in HK |- *.
  - exists (gs ++ [0%nat]). cbn [sys_threads sys_world]. rewrite !length_app, Hlen. split; [done|]. split.
    + intros i c' p g Hi Hg. destruct (decide (i < length gs)%nat) as [Hlt|Hge].
      * rewrite lookup_app_l in Hi by congruence. rewrite lookup_app_l in Hg by done. eauto.
      * rewrite lookup_app_r in Hi by lia. rewrite lookup_app_r in Hg by lia.
        apply list_lookup_singleton_Some in Hi as [Hi [= <- <-]].
        apply list_lookup_singleton_Some in Hg as [_ <-].
        eapply Hsp; [lia|done].
    + rewrite list_sum_app. simpl. rewrite Nat.add_0_r. by apply Hupd.
  - destruct (sys_threads s !! i) as [[c [a|R o k]]|] eqn:Ei;
      [by exists gs; split_and!; [..|apply Hupd]| |by exists gs; split_and!; [..|apply Hupd]].
    assert (exists g, gs !! i = Some g) as [g Hg].
    { apply lookup_lt_is_Some. rewrite Hlen. eapply lookup_lt_Some; done. }
    destruct (exec c e o (sys_world s)) as [w r] eqn:Ex. simpl in HK.
    pose proof (Hwp _ _ _ _ Ei Hg) as Hw. cbn [wp] in Hw.
    destruct (list_sum_insert gs i 0%nat Hg) as (rest & Es & _). rewrite Es in HI.
    edestruct Hop as (g' & Hk & HI'); [exact HK|exact HI|exact Hw|exact Ex|].
    exists (<[i := g']> gs). simpl. rewrite !length_insert. split; [done|]. split.
    + intros j c' p n'. destruct (decide (i = j)) as [<-|Hne].
      * rewrite !list_lookup_insert_eq by (rewrite ?Hlen; eapply lookup_lt_Some; done). by intros [= <- <-] [= <-].
      * rewrite !list_lookup_insert_ne by done. eauto.
    + destruct (list_sum_insert gs i g' Hg) as (rest' & Es' & ->). by replace rest' with rest by lia.
  - exists gs. split; [done|]. split; [done|]. by apply Htk.
Qed.

Lemma sched_length s ev : (length (sys_threads s) <= length (sys_threads (sched s ev)))%nat.
Proof.
  destruct ev as [c|i e|d]; simpl; [rewrite length_app; lia| |done].
  destruct (sys_threads s !! i) as [[c [a|R o k]]|]; [done| |done].
  destruct (exec c e o (sys_world s)). simpl. by rewrite length_insert.
Qed.

(** The events of a schedule satisfy [K] where they happen. *)
Fixpoint along (evs : list (event C E)) (s : sys O W C A) : Prop :=
  match evs with
  | [] => True
  | ev :: evs' => K ev (sys_world s) (sys_world (sched s ev)) /\ along evs' (sched s ev)
  end.

Lemma along_true : (forall ev w w', K ev w w') -> forall evs s, along evs s.
Proof. intros HK evs. induction evs as [|ev evs IH]; intros s; simpl; auto. Qed.

Lemma run_wp evs h s n : (n <= length (sys_threads s))%nat ->
  spawn_sound n -> along evs s -> sys_inv h s -> sys_inv (fold_left upd evs h) (run evs s).
Proof using Hop Htk Hupd.
  intros Hn Hsp. revert h s Hn. induction evs as [|ev evs IH]; intros h s Hn Ha Hs; [done|].
  destruct Ha as [HK Ha]. rewrite run_cons. cbn [fold_left]. apply IH; [|done|].
  - etransitivity; [exact Hn|apply sched_length].
  - eapply sched_inv; eauto.
Qed.

(** What the rule gives about a finished thread. *)
Lemma sys_inv_finished h s i c a : sys_inv h s -> sys_threads s !! i = Some (c, Ret a) -> exists g, F i c a g.
Proof.
  intros (gs & Hlen & Hwp & _) Hi.
  assert (exists g, gs !! i = Some g) as [g Hg].
  { apply lookup_lt_is_Some. rewrite Hlen. eapply lookup_lt_Some; done. }
  exists g. exact (Hwp _ _ _ _ Hi Hg).
Qed.
End Rule.
End Machine.
