(* ===== verification/AdminStore.v ===== *)
(** * The stores behind the admin service (src/internal/adminauth/store.go)

    The operations the admin service performs: the commands [RedisStore] sends,
    the statements of the account table, the clock, randomness and password
    hashing.  Each is one atomic step of [Threads]; with every step the
    environment says whether Redis or the database answers.  Expiry is kept with
    each key and tested on access, as Redis does. *)

From S2P Require Import Prelude GoStrings GoFloat Config Threads.

Open Scope string_scope.
Open Scope list_scope.
Open Scope Z_scope.

(** ** Data (src/internal/store/admin_users.go, adminauth/types.go) *)

Record AdminUser := mkAdminUser {
  us_ID : string;
  us_Username : string;
  us_PasswordHash : string;
  us_Role : string;
  us_Enabled : bool;
  us_MustChange : bool
}.

Record AdminSession := mkAdminSession {
  as_ID : string;
  as_UserID : string;
  as_Username : string;
  as_Role : string;
  as_CreatedAt : Time;
  as_LastActiveAt : Time;
  as_IP : string;
  as_UserAgent : string
}.

(** The sentinel errors of the package and of the store; [ErrOtherStore] is any
    error of a driver. *)
Inductive auth_error :=
| ErrSessionNotFound | ErrSessionExpired | ErrSessionIdle | ErrInvalidSessionToken
| ErrAccountLocked | ErrIPRateLimited | ErrAccountDisabled | ErrInvalidCredentials
| ErrUserNotFound | ErrLastAdmin | ErrUserExists | ErrOtherStore.

#[export] Instance auth_error_eq_dec : EqDecision auth_error.
Proof. solve_decision. Defined.

(** A row of the audit log. *)
Inductive detail := DStr (s : string) | DInt (n : Z) | DBool (b : bool).

Record AuditRow := mkAuditRow {
  ad_Actor : string;
  ad_Action : string;
  ad_Target : string;
  ad_Detail : list (string * detail);
  ad_IP : string;
  ad_Result : string
}.

(** ** Operations *)

Inductive op : Type -> Type :=
| TimeNow : op Time
| RandRead : op string
| RedisSet (key val : string) (ttl : Duration) : op (auth_error + unit)
| RedisSetXX (key val : string) (ttl : Duration) : op (auth_error + bool)
| RedisGet (key : string) : op (auth_error + option string)
| RedisTTL (key : string) : op (auth_error + Duration)
| RedisDel (keys : list string) : op (auth_error + unit)
| RedisIncr (key : string) (secs : Z) : op (auth_error + Z)
| RedisSAdd (key member : string) : op (auth_error + unit)
| RedisSRem (key member : string) : op (auth_error + unit)
| RedisSMembers (key : string) : op (auth_error + list string)
| DBGetAdminUser (username : string) : op (auth_error + AdminUser)
| DBCreateUser (username hash role : string) : op (auth_error + AdminUser)
| DBSetEnabled (id : string) (enabled : bool) : op (auth_error + unit)
| DBDeleteUser (id : string) : op (auth_error + unit)
| DBUpdatePassword (id hash : string) (mustChange : bool) : op (auth_error + unit)
| DBAudit (row : AuditRow) : op unit
| BcryptCheck (hash password : string) : op bool
| BcryptHash (password : string) : op string.

Abbreviation aprog := (prog op) (only parsing).

(** ** The world *)

Abbreviation expiring A := (A * option Time)%type (only parsing).

Record World (C : Type) := mkWorld {
  w_now : Time;
  w_kv : gmap string (string * option Time);
  w_sets : gmap string (gset string);
  w_users : gmap string AdminUser;
  w_audit : list AuditRow;
  w_guesses : list (C * bool)          (* who compared a password, and the result *)
}.
Arguments mkWorld {C}.
Arguments w_now {C}.
Arguments w_kv {C}.
Arguments w_sets {C}.
Arguments w_users {C}.
Arguments w_audit {C}.
Arguments w_guesses {C}.

(** What the environment decides of a step. *)
Inductive fate := Answered | Refused | ReplyLost.
Record outcome := mkOutcome { oc_fate : fate; oc_random : string }.

Definition fine : outcome := mkOutcome Answered "".

(** ** Redis *)

(** The value of a key unless it has expired. *)
Definition unexpired (now : Time) (x : string * option Time) : option (string * option Time) :=
  match x.2 with Some t => if t <=? now then None else Some x | None => Some x end.

(** go-redis sends whole seconds or milliseconds, at least one, and no expiry for
    a duration that is not positive. *)
Definition set_expiry (now : Time) (ttl : Duration) : option Time :=
  if ttl <=? 0 then None else Some (now + Z.max millisecond (Z.quot ttl millisecond * millisecond)).

(** What Redis accepts as an integer: its canonical decimal form. *)
Definition redis_int (s : string) : option Z :=
  let n := match s with
           | String c s' => if Ascii.eqb c "-" then - parse_dec s' 0 else parse_dec s 0
           | EmptyString => 0
           end in
  if String.eqb (itoa n) s && (int64_min <=? n) && (n <=? int64_max) then Some n else None.

(** [strconv.ParseInt(s, 10, 64)] with its error ignored. *)
Definition parse_int (s : string) : Z :=
  let '(neg, d) := match s with
                   | String c s' => if Ascii.eqb c "-" then (true, s') else if Ascii.eqb c "+" then (false, s') else (false, s)
                   | EmptyString => (false, s)
                   end in
  if String.eqb d "" || negb (sforall is_digit d) then 0
  else let n := parse_dec d 0 in
       if neg then Z.max int64_min (- n) else Z.min int64_max n.

Section Exec.
Context {C : Type} (bcrypt_check : string -> string -> bool) (bcrypt_hash : string -> string -> string).
Implicit Types w : World C.

Definition set_kv w (m : gmap string (string * option Time)) : World C :=
  mkWorld (w_now w) m (w_sets w) (w_users w) (w_audit w) (w_guesses w).
Definition set_sets w (m : gmap string (gset string)) : World C :=
  mkWorld (w_now w) (w_kv w) m (w_users w) (w_audit w) (w_guesses w).
Definition set_users w (m : gmap string AdminUser) : World C :=
  mkWorld (w_now w) (w_kv w) (w_sets w) m (w_audit w) (w_guesses w).

Definition kv_get w (key : string) : option (string * option Time) := w_kv w !! key ≫= unexpired (w_now w).

Definition redis_set key val ttl w := set_kv w (<[key := (val, set_expiry (w_now w) ttl)]> (w_kv w)).

Definition redis_setxx key val ttl w : World C * bool :=
  match kv_get w key with
  | None => (w, false)
  | Some _ => (redis_set key val ttl w, true)
  end.

(** TTL: -2 for no key, -1 for no expiry, else the seconds left, rounded. *)
Definition redis_ttl key w : Duration :=
  match kv_get w key with
  | None => -2
  | Some (_, None) => -1
  | Some (_, Some t) => Z.quot (Z.quot (t - w_now w) millisecond + 500) 1000 * second
  end.

Definition redis_del (keys : list string) w : World C :=
  set_sets (set_kv w (foldr delete (w_kv w) keys)) (foldr delete (w_sets w) keys).

(** [incrWithTTLScript]: INCR, and EXPIRE on the first hit or when there is no
    expiry; [None] is the error of INCR on something else than an integer. *)
Definition incrWithTTLScript key secs w : World C * option Z :=
  let deadline := Some (w_now w + secs * second) in
  match kv_get w key with
  | None => (set_kv w (<[key := ("1", deadline)]> (w_kv w)), Some 1)
  | Some (v, expiry) =>
      match redis_int v with
      | None => (w, None)
      | Some n =>
          if n =? int64_max then (w, None)
          else
            let n := n + 1 in
            let expiry := if n =? 1 then deadline else match expiry with None => deadline | _ => expiry end in
            (set_kv w (<[key := (itoa n, expiry)]> (w_kv w)), Some n)
      end
  end.

Definition redis_sadd key member w := set_sets w (<[key := {[member]} ∪ default ∅ (w_sets w !! key)]> (w_sets w)).
Definition redis_srem key member w := set_sets w (<[key := default ∅ (w_sets w !! key) ∖ {[member]}]> (w_sets w)).
Definition redis_smembers key w : list string := elements (default ∅ (w_sets w !! key)).

(** ** The account table *)

Definition user_by_id w (id : string) : option AdminUser :=
  snd <$> list_find (fun u => us_ID u = id) (snd <$> map_to_list (w_users w)).

(** The guard of the UPDATE and DELETE statements: another enabled admin. *)
Definition other_admin w (id : string) : bool :=
  existsb (fun u => String.eqb (us_Role u) "admin" && us_Enabled u && negb (String.eqb (us_ID u) id))
    (snd <$> map_to_list (w_users w)).

(** The identifier is generated by the database; user names are unique. *)
Definition CreateAdminUser (id username hash role : string) w : World C * (auth_error + AdminUser) :=
  let role := if String.eqb role "" then "admin" else role in
  let u := mkAdminUser id username hash role true false in
  match w_users w !! username with
  | Some _ => (w, inl ErrUserExists)
  | None => (set_users w (<[username := u]> (w_users w)), inr u)
  end.

Definition SetAdminUserEnabled (id : string) (enabled : bool) w : World C * (auth_error + unit) :=
  match user_by_id w id with
  | None => (w, inl ErrUserNotFound)
  | Some u =>
      if enabled || negb (us_Enabled u) || negb (String.eqb (us_Role u) "admin") || other_admin w id then
        (set_users w (<[us_Username u := mkAdminUser (us_ID u) (us_Username u) (us_PasswordHash u) (us_Role u) enabled (us_MustChange u)]>
                        (w_users w)), inr tt)
      else (w, inl ErrLastAdmin)
  end.

Definition DeleteAdminUser (id : string) w : World C * (auth_error + unit) :=
  match user_by_id w id with
  | None => (w, inl ErrUserNotFound)
  | Some u =>
      if negb (String.eqb (us_Role u) "admin") || negb (us_Enabled u) || other_admin w id then
        (set_users w (delete (us_Username u) (w_users w)), inr tt)
      else (w, inl ErrLastAdmin)
  end.

Definition UpdateAdminUserPassword (id hash : string) (mustChange : bool) w : World C * (auth_error + unit) :=
  match user_by_id w id with
  | None => (w, inl ErrUserNotFound)
  | Some u =>
      (set_users w (<[us_Username u := mkAdminUser (us_ID u) (us_Username u) hash (us_Role u) (us_Enabled u) mustChange]> (w_users w)),
       inr tt)
  end.

Definition GetAdminUser (username : string) w : auth_error + AdminUser :=
  match w_users w !! username with Some u => inr u | None => inl ErrUserNotFound end.

(** ** One step *)

(** A command that is refused has no effect; one whose reply is lost has, but
    the caller sees an error too. *)
Definition remote {A : Type} (oc : outcome) w (res : World C * (auth_error + A)) : World C * (auth_error + A) :=
  match oc_fate oc with
  | Answered => res
  | Refused => (w, inl ErrOtherStore)
  | ReplyLost => (res.1, inl ErrOtherStore)
  end.

Definition exec (who : C) (oc : outcome) (R : Type) (o : op R) : World C -> World C * R :=
  match o in op R return World C -> World C * R with
  | TimeNow => fun w => (w, w_now w)
  | RandRead => fun w => (w, oc_random oc)
  | RedisSet k v ttl => fun w => remote oc w (redis_set k v ttl w, inr tt)
  | RedisSetXX k v ttl => fun w => remote oc w (let '(w', b) := redis_setxx k v ttl w in (w', inr b))
  | RedisGet k => fun w => remote oc w (w, inr (fst <$> kv_get w k))
  | RedisTTL k => fun w => remote oc w (w, inr (redis_ttl k w))
  | RedisDel ks => fun w => remote oc w (redis_del ks w, inr tt)
  | RedisIncr k secs => fun w => remote oc w
      (let '(w', n) := incrWithTTLScript k secs w in (w', match n with Some n => inr n | None => inl ErrOtherStore end))
  | RedisSAdd k m => fun w => remote oc w (redis_sadd k m w, inr tt)
  | RedisSRem k m => fun w => remote oc w (redis_srem k m w, inr tt)
  | RedisSMembers k => fun w => remote oc w (w, inr (redis_smembers k w))
  | DBGetAdminUser u => fun w => remote oc w (w, GetAdminUser u w)
  | DBCreateUser u h r => fun w => remote oc w (CreateAdminUser (oc_random oc) u h r w)
  | DBSetEnabled id b => fun w => remote oc w (SetAdminUserEnabled id b w)
  | DBDeleteUser id => fun w => remote oc w (DeleteAdminUser id w)
  | DBUpdatePassword id h m => fun w => remote oc w (UpdateAdminUserPassword id h m w)
  | DBAudit row => fun w =>
      (match oc_fate oc with
       | Refused => w
       | _ => mkWorld (w_now w) (w_kv w) (w_sets w) (w_users w) (w_audit w ++ [row]) (w_guesses w)
       end, tt)
  | BcryptCheck h p => fun w =>
      (mkWorld (w_now w) (w_kv w) (w_sets w) (w_users w) (w_audit w) (w_guesses w ++ [(who, bcrypt_check h p)]), bcrypt_check h p)
  | BcryptHash p => fun w => (w, bcrypt_hash (oc_random oc) p)
  end.

Definition tick (d : N) w : World C :=
  mkWorld (w_now w + Z.of_N d) (w_kv w) (w_sets w) (w_users w) (w_audit w) (w_guesses w).
End Exec.

(** ** Facts about the stores *)

Example redis_int_ex : map redis_int ["1"; "-12"; "007"; "-0"; "x"; ""; "9223372036854775808"] =
  [Some 1; Some (-12); None; None; None; None; None].
Proof. reflexivity. Qed.
Example parse_int_ex : map parse_int ["1"; "-12"; "+7"; "007"; "x"; ""; "9223372036854775808"] =
  [1; -12; 7; 7; 0; 0; int64_max].
Proof. reflexivity. Qed.

Lemma utoa_head z : exists c s, utoa z = String c s /\ is_digit c = true.
Proof.
  pose proof (utoa_digits z) as H. destruct (utoa z) as [|c s] eqn:E.
  - by apply utoa_nonempty in E.
  - simpl in H. apply andb_true_iff in H as [H _]. eauto.
Qed.

Lemma redis_int_itoa n : 0 <= n <= int64_max -> redis_int (itoa n) = Some n.
Proof.
  intros H. unfold redis_int. assert (itoa n = utoa n) as E.
  { unfold itoa. destruct (Z.ltb_spec n 0); [lia|done]. }
  rewrite E. destruct (utoa_head n) as (c & s & Eu & Hc). rewrite Eu.
  destruct (Ascii.eqb_spec c "-") as [->|_]; [done|]. rewrite <- Eu, utoa_parse, E, String.eqb_refl by lia.
  unfold int64_min. rewrite !(proj2 (Z.leb_le _ _)) by (unfold int64_max in *; lia). done.
Qed.

Lemma parse_int_itoa n : 0 <= n <= int64_max -> parse_int (itoa n) = n.
Proof.
  intros H. unfold parse_int. assert (itoa n = utoa n) as E.
  { unfold itoa. destruct (Z.ltb_spec n 0); [lia|done]. }
  rewrite E. destruct (utoa_head n) as (c & s & Eu & Hc). rewrite Eu.
  destruct (Ascii.eqb_spec c "-") as [->|_]; [done|]. destruct (Ascii.eqb_spec c "+") as [->|_]; [done|].
  rewrite <- Eu, utoa_digits, utoa_parse by lia. rewrite Eu. cbn [String.eqb orb negb]. lia.
Qed.

Lemma unexpired_later now d x : unexpired now x = None -> unexpired (now + Z.of_N d) x = None.
Proof. unfold unexpired. destruct (x.2) as [t|]; [|done]. destruct (Z.leb_spec t now), (Z.leb_spec t (now + Z.of_N d)); done || lia. Qed.

(** ** What an operation leaves alone *)

Section Frame.
Context {C : Type} (bcrypt_check : string -> string -> bool) (bcrypt_hash : string -> string -> string).
Implicit Types w : World C.
Abbreviation exec' := (exec (C := C) bcrypt_check bcrypt_hash).

Lemma remote_keep {A X : Type} (f : World C -> X) oc w (res : World C * (auth_error + A)) :
  f res.1 = f w -> f (remote oc w res).1 = f w.
Proof. unfold remote. by destruct (oc_fate oc). Qed.

(** An operation answers with an error, or as if nothing went wrong. *)
Lemma remote_reply {A : Type} oc w (res : World C * (auth_error + A)) :
  remote oc w res = res \/ exists w', remote oc w res = (w', inl ErrOtherStore) /\ (w' = w \/ w' = res.1).
Proof. unfold remote. destruct (oc_fate oc); eauto. Qed.

Lemma remote_world {A : Type} oc w (res : World C * (auth_error + A)) :
  (remote oc w res).1 = w \/ (remote oc w res).1 = res.1.
Proof. unfold remote. destruct (oc_fate oc); auto. Qed.

Lemma remote_inr {A : Type} oc w (res : World C * (auth_error + A)) w' a : remote oc w res = (w', inr a) -> res.2 = inr a.
Proof. unfold remote. destruct (oc_fate oc); intros; simplify_eq; done. Qed.

Definition writes (key : string) {R : Type} (o : op R) : Prop :=
  match o with
  | RedisSet k _ _ | RedisSetXX k _ _ | RedisIncr k _ => k = key
  | RedisDel ks => key ∈ ks
  | _ => False
  end.

Definition writes_accounts {R : Type} (o : op R) : Prop :=
  match o with
  | DBCreateUser _ _ _ | DBSetEnabled _ _ | DBDeleteUser _ | DBUpdatePassword _ _ _ => True
  | _ => False
  end.

Definition guess_of (who : C) {R : Type} (o : op R) : list (C * bool) :=
  match o with BcryptCheck h p => [(who, bcrypt_check h p)] | _ => [] end.

Lemma setxx_cases key val ttl w : kv_get w key = None /\ redis_setxx key val ttl w = (w, false) \/
  (exists x, kv_get w key = Some x) /\ redis_setxx key val ttl w = (redis_set key val ttl w, true).
Proof. unfold redis_setxx. destruct (kv_get w key); [right|left]; eauto. Qed.

Lemma incr_fields key secs w : let w' := (incrWithTTLScript key secs w).1 in
  w_now w' = w_now w /\ w_sets w' = w_sets w /\ w_users w' = w_users w /\ w_guesses w' = w_guesses w /\
  forall k, k <> key -> w_kv w' !! k = w_kv w !! k.
Proof.
  unfold incrWithTTLScript. repeat (destruct (kv_get _ _) as [[? ?]|] || destruct (redis_int _) || destruct (_ =? _)); simpl.
  all: split_and!; [done..|]; intros; try done; by rewrite lookup_insert_ne.
Qed.

(** The account statements change the table only. *)
Lemma account_op_cases {A} (f : World C -> A) w : (forall m, f (set_users w m) = f w) ->
  (forall id u h r, f (CreateAdminUser id u h r w).1 = f w) /\ (forall id b, f (SetAdminUserEnabled id b w).1 = f w) /\
  (forall id, f (DeleteAdminUser id w).1 = f w) /\ (forall id h m, f (UpdateAdminUserPassword id h m w).1 = f w).
Proof.
  intros Hf. unfold CreateAdminUser, SetAdminUserEnabled, DeleteAdminUser, UpdateAdminUserPassword.
  split_and!; intros; repeat case_match; simpl; auto.
Qed.

(** An operation keeps what it does not write. *)
Lemma exec_keep {A} (f : World C -> A) who oc R (o : op R) w :
  (forall m, f (set_users w m) = f w) -> (forall m, f (set_sets w m) = f w) ->
  (forall m, f (mkWorld (w_now w) (w_kv w) (w_sets w) (w_users w) m (w_guesses w)) = f w) ->
  match o with
  | RedisSet k v ttl => f (redis_set k v ttl w) = f w
  | RedisSetXX k v ttl => f (redis_setxx k v ttl w).1 = f w
  | RedisIncr k secs => f (incrWithTTLScript k secs w).1 = f w
  | RedisDel ks => f (redis_del ks w) = f w
  | BcryptCheck h p => f (mkWorld (w_now w) (w_kv w) (w_sets w) (w_users w) (w_audit w) (w_guesses w ++ [(who, bcrypt_check h p)])) = f w
  | _ => True
  end -> f (exec' who oc R o w).1 = f w.
Proof.
  intros Hu Hs Ha H. destruct (account_op_cases f w Hu) as (? & ? & ? & ?).
  destruct o; cbn [exec]; try apply remote_keep; simpl; auto; try apply Hs.
  - by destruct (redis_setxx key val ttl w).
  - by destruct (incrWithTTLScript key secs w).
  - destruct (oc_fate oc); simpl; auto.
Qed.

Lemma exec_now who oc R (o : op R) w : w_now (exec' who oc R o w).1 = w_now w.
Proof.
  apply exec_keep; try done. destruct o; try done.
  - by destruct (setxx_cases key val ttl w) as [[_ ->]|[_ ->]].
  - apply incr_fields.
Qed.

Lemma exec_kv who oc R (o : op R) w key : ~ writes key o -> w_kv (exec' who oc R o w).1 !! key = w_kv w !! key.
Proof.
  intros H. apply (exec_keep (fun w => w_kv w !! key)); try done. destruct o; cbn [writes] in H; try done.
  - simpl. by rewrite lookup_insert_ne.
  - destruct (setxx_cases key0 val ttl w) as [[_ ->]|[_ ->]]; [done|]. simpl. by rewrite lookup_insert_ne.
  - simpl. induction keys as [|k ks IH]; simpl; [done|]. apply not_elem_of_cons in H as [? ?].
    by rewrite lookup_delete_ne, IH.
  - by apply incr_fields.
Qed.

Lemma exec_guesses who oc R (o : op R) w : w_guesses (exec' who oc R o w).1 = w_guesses w ++ guess_of who o.
Proof.
  destruct o; cbn [guess_of]; rewrite ?app_nil_r; try (apply exec_keep; try done); try done.
  - by destruct (setxx_cases key val ttl w) as [[_ ->]|[_ ->]].
  - apply incr_fields.
Qed.

Lemma exec_users who oc R (o : op R) w : ~ writes_accounts o -> w_users (exec' who oc R o w).1 = w_users w.
Proof.
  intros H. destruct o; cbn [writes_accounts] in H; try tauto; cbn [exec]; try apply remote_keep; try done; simpl.
  - by destruct (setxx_cases key val ttl w) as [[_ ->]|[_ ->]].
  - destruct (incrWithTTLScript key secs w) eqn:E. pose proof (incr_fields key secs w) as F. rewrite E in F. apply F.
  - by destruct (oc_fate oc).
Qed.
End Frame.
