(* ===== verification/AdminAuth.v ===== *)
(** * Admin accounts and sessions (src/internal/adminauth, src/internal/server/admin_auth.go, admin_cp.go)

    Login with its throttle, sessions with their two timeouts, revocation, and the
    endpoints that require a role.  Every request is a program of [Threads] over
    the operations of [AdminStore], so the theorems hold for all interleavings of
    requests, with Redis and the database failing at any step.  SHA-256, bcrypt and
    the JSON form of a session are parameters. *)

From S2P Require Import Prelude GoStrings Encoding GoFloat GoFloatInt Config Regex Auth Threads AdminStore.

Open Scope string_scope.
Open Scope list_scope.
Open Scope Z_scope.

(** ** rbac.go *)

Inductive Permission :=
| PermUserManage | PermProviderManage | PermConfigReload | PermConfigView | PermCachePurge | PermSessionManage
| PermHealthView | PermStatusView | PermChatTest | PermDebug | PermAuditView.

#[export] Instance Permission_eq_dec : EqDecision Permission.
Proof. solve_decision. Defined.

Definition rolePermissions (role : string) : option (list Permission) :=
  if String.eqb role "admin" then
    Some [PermUserManage; PermProviderManage; PermConfigReload; PermConfigView; PermCachePurge; PermSessionManage;
          PermHealthView; PermStatusView; PermChatTest; PermDebug; PermAuditView]
  else if String.eqb role "operator" then
    Some [PermProviderManage; PermConfigReload; PermConfigView; PermCachePurge; PermHealthView; PermStatusView; PermChatTest]
  else if String.eqb role "viewer" then Some [PermConfigView; PermHealthView; PermStatusView]
  else None.

Definition HasPermission (role : string) (perm : Permission) : bool :=
  match rolePermissions role with
  | None => false
  | Some perms => existsb (fun p => bool_decide (p = perm)) perms
  end.

(** ** password.go *)

Inductive password_error := ErrPasswordTooShort | ErrPasswordTooLong | ErrPasswordEqualsUsername | ErrPasswordBreached.

Definition ValidatePasswordContext (breached : option (string -> bool)) (password username : string) : option password_error :=
  if RuneCountInString password <? 12 then Some ErrPasswordTooShort
  else if 72 <? slen password then Some ErrPasswordTooLong
  else
    let u := trim_space username in
    if negb (String.eqb u "") && equal_fold (trim_space password) u then Some ErrPasswordEqualsUsername
    else match breached with
         | Some f => if f password then Some ErrPasswordBreached else None
         | None => None
         end.

(** ** Keys (session.go) *)

Definition sessionKey (hashHex : string) : string := "proofgate:session:" +:+ hashHex.
Definition userSessionsKey (username : string) : string := "proofgate:user_sessions:{" +:+ username +:+ "}".
Definition loginFailKey (username : string) : string := "proofgate:login_fail:" +:+ username.
Definition allUsersKey : string := "proofgate:all_session_users".
Definition loginFailUserIPKey (username ip : string) : string := "proofgate:login_fail:userip:" +:+ username +:+ "|" +:+ ip.
Definition loginFailIPKey (ip : string) : string := "proofgate:login_fail:ip:" +:+ ip.
Definition loginFailUserAlertKey (username : string) : string := "proofgate:login_fail:user:" +:+ username.

(** ** login.go: names *)

Definition is_name_byte (c : ascii) : bool := is_alnum c || one_of_bytes "._@-" c.

(** [^[A-Za-z0-9._@-]{1,64}$] *)
Definition ValidateUsername (username : string) : bool :=
  (1 <=? slen username) && (slen username <=? 64) && sforall is_name_byte username.

(** [base64.RawURLEncoding] *)
Definition b64_char (n : Z) : ascii :=
  if n <? 26 then byte_at (65 + n) else if n <? 52 then byte_at (71 + n) else if n <? 62 then byte_at (n - 4)
  else if n =? 62 then "-"%char else "_"%char.

Fixpoint b64url (s : string) : string :=
  match s with
  | EmptyString => ""
  | String a EmptyString =>
      let x := byte_val a * 16 in String (b64_char (x / 64)) (String (b64_char (x mod 64)) "")
  | String a (String b EmptyString) =>
      let x := (byte_val a * 256 + byte_val b) * 4 in
      String (b64_char (x / 4096)) (String (b64_char (x / 64 mod 64)) (String (b64_char (x mod 64)) ""))
  | String a (String b (String c s')) =>
      let x := (byte_val a * 256 + byte_val b) * 256 + byte_val c in
      String (b64_char (x / 262144)) (String (b64_char (x / 4096 mod 64)) (String (b64_char (x / 64 mod 64))
        (String (b64_char (x mod 64)) (b64url s'))))
  end.

Example b64url_ex : map b64url ["f"; "fo"; "foo"; "foob"] = ["Zg"; "Zm8"; "Zm9v"; "Zm9vYg"].
Proof. reflexivity. Qed.
Example rune_count_ex : map RuneCountInString ["abc"; chr 195 +:+ chr 169 +:+ "t"; chr 226 +:+ chr 130 +:+ chr 172; chr 226 +:+ chr 130; ""] =
  [3; 2; 1; 2; 0].
Proof. reflexivity. Qed.

(** ** The service *)

Section Service.
Context (sha256 : string -> string) (marshal : AdminSession -> string) (unmarshal : string -> option AdminSession)
  (sort_sessions : list AdminSession -> list AdminSession)    (* [sort.Slice], newest first *)
  (dummyHash : string) (breached : option (string -> bool)) (cfg : AdminAuthConfig).

Local Open Scope prog_scope.

(** *** store.go: the parts of [RedisStore] around the commands *)

Definition Get (key : string) : prog op (auth_error + string) :=
  let! r := call_op (RedisGet key) in
  Ret (match r with inl e => inl e | inr None => inl ErrSessionNotFound | inr (Some v) => inr v end).

Definition ttl_seconds (ttl : Duration) : Z :=
  let secs := f_ceil_int64 (Seconds ttl) in if secs <? 1 then 1 else secs.

Definition IncrWithTTL (key : string) (ttl : Duration) : prog op (auth_error + Z) :=
  call_op (RedisIncr key (ttl_seconds ttl)).

Definition GetWithTTL (key : string) : prog op (auth_error + Z * Duration) :=
  let! r := call_op (RedisGet key) in
  match r with
  | inl e => Ret (inl e)
  | inr None => Ret (inr (0, 0))
  | inr (Some val) =>
      let! t := call_op (RedisTTL key) in
      Ret (inr (parse_int val, match t with inl _ => 0 | inr ttl => if ttl <? 0 then 0 else ttl end))
  end.

Definition audit (actor action target : string) (detail : list (string * detail)) (ip result : string) : prog op unit :=
  call_op (DBAudit (mkAuditRow actor action target detail ip result)).

(** *** login.go *)

(** The common end of the lockout tests. *)
Definition locked_from (max : Z) (r : auth_error + Z * Duration) : auth_error + bool * Duration :=
  match r with
  | inl e => inl e
  | inr (attempts, ttl) =>
      if max <=? attempts then inr (true, if ttl <=? 0 then aa_LockoutDuration cfg else ttl) else inr (false, 0)
  end.

Definition CheckLoginLockout (username ip : string) : prog op (auth_error + bool * Duration) :=
  if negb (String.eqb ip "") then
    let! r := GetWithTTL (loginFailUserIPKey username ip) in Ret (locked_from (aa_MaxLoginAttempts cfg) r)
  else
    let! r := GetWithTTL (loginFailKey username) in Ret (locked_from (aa_MaxLoginAttempts cfg) r).

Definition CheckIPLockout (ip : string) : prog op (auth_error + bool * Duration) :=
  let! r := GetWithTTL (loginFailIPKey ip) in Ret (locked_from 30 r).

Definition session_token (random : string) : string := "pgadmin_" +:+ b64url random.
Definition token_hash (token : string) : string := hex_encode (sha256 token).

Definition GenerateSessionToken : prog op (string * string) :=
  let! b := call_op RandRead in
  let token := session_token b in
  Ret (token, token_hash token).

Definition CreateSession (user : AdminUser) (ip userAgent : string) : prog op (auth_error + string * AdminSession) :=
  let! t := GenerateSessionToken in
  let '(token, hashHex) := t in
  let! now := call_op TimeNow in
  let sess := mkAdminSession hashHex (us_ID user) (us_Username user) (us_Role user) now now ip userAgent in
  let! r := call_op (RedisSet (sessionKey hashHex) (marshal sess) (aa_SessionAbsTimeout cfg)) in
  match r with
  | inl e => Ret (inl e)
  | inr _ =>
      do! call_op (RedisSAdd (userSessionsKey (us_Username user)) hashHex);
      do! call_op (RedisSAdd allUsersKey (us_Username user));
      Ret (inr (token, sess))
  end.

Definition count_of (r : auth_error + Z) : Z := match r with inl _ => 0 | inr n => n end.

(** The end of an attempt with wrong credentials. *)
Definition login_failed (username ip reason : string) (n : Z) : prog op (auth_error + string * AdminSession) :=
  do! audit username "login_failed" username [("ip", DStr ip); ("reason", DStr reason); ("attempts", DInt n)] ip "denied";
  if n =? aa_MaxLoginAttempts cfg then
    do! audit username "login_locked" username [("ip", DStr ip); ("attempts", DInt n)] ip "denied";
    Ret (inl ErrInvalidCredentials)
  else Ret (inl ErrInvalidCredentials).

(** Step 4 and 5: the credentials, and the session. *)
Definition check_credentials (username password ip userAgent : string) (nUserIP : Z) : prog op (auth_error + string * AdminSession) :=
  let! u := call_op (DBGetAdminUser username) in
  match u with
  | inl _ =>
      do! call_op (BcryptCheck dummyHash password);
      login_failed username ip "not_found" nUserIP
  | inr user =>
      if negb (us_Enabled user) then
        do! call_op (BcryptCheck (us_PasswordHash user) password);
        login_failed username ip "disabled" nUserIP
      else
        let! ok := call_op (BcryptCheck (us_PasswordHash user) password) in
        if negb ok then login_failed username ip "invalid_password" nUserIP
        else
          do! call_op (RedisDel [loginFailUserIPKey username ip; loginFailKey username]);
          let! s := CreateSession user ip userAgent in
          match s with
          | inl e => Ret (inl e)
          | inr (token, sess) =>
              do! audit username "login" username [("ip", DStr ip); ("session_id", DStr (as_ID sess))] ip "ok";
              Ret (inr (token, sess))
          end
  end.

Definition retry_detail (ip : string) (retryAfter : Duration) : list (string * detail) :=
  [("ip", DStr ip); ("retry_after_s", DInt (f_to_int64 (Seconds retryAfter)))].

Definition Login (username password ip userAgent : string) : prog op (auth_error + string * AdminSession) :=
  if negb (ValidateUsername username) then Ret (inl ErrInvalidCredentials)
  else
    let! ipLock := CheckIPLockout ip in
    match ipLock with
    | inl e => Ret (inl e)
    | inr (true, retryAfter) =>
        do! audit username "login_ip_locked" username (retry_detail ip retryAfter) ip "denied";
        Ret (inl ErrIPRateLimited)
    | inr (false, _) =>
        let! lock := CheckLoginLockout username ip in
        match lock with
        | inl e => Ret (inl e)
        | inr (true, retryAfter) =>
            do! audit username "login_locked" username (retry_detail ip retryAfter) ip "denied";
            Ret (inl ErrAccountLocked)
        | inr (false, _) =>
            let! n := IncrWithTTL (loginFailUserIPKey username ip) (aa_LockoutDuration cfg) in
            match n with
            | inl e => Ret (inl e)
            | inr nUserIP =>
                let! rIP := IncrWithTTL (loginFailIPKey ip) (aa_LockoutDuration cfg) in
                do! IncrWithTTL (loginFailUserAlertKey username) (aa_LockoutDuration cfg);
                do! IncrWithTTL (loginFailKey username) (aa_LockoutDuration cfg);
                let nIP := count_of rIP in
                if 30 <? nIP then
                  do! audit username "login_ip_locked" username [("ip", DStr ip); ("attempts", DInt nIP)] ip "denied";
                  Ret (inl ErrIPRateLimited)
                else if aa_MaxLoginAttempts cfg <? nUserIP then
                  do! audit username "login_locked" username [("ip", DStr ip); ("attempts", DInt nUserIP)] ip "denied";
                  Ret (inl ErrAccountLocked)
                else check_credentials username password ip userAgent nUserIP
            end
        end
    end.

(** *** session.go *)

Definition RevokeSession (tokenOrID : string) : prog op unit :=
  let id := if has_prefix "pgadmin_" tokenOrID then token_hash tokenOrID else tokenOrID in
  let! v := Get (sessionKey id) in
  do! call_op (RedisDel [sessionKey id]);
  match v with
  | inl _ => Ret tt
  | inr val =>
      match unmarshal val with
      | Some sess =>
          if negb (String.eqb val "") && negb (String.eqb (as_Username sess) "") then
            do! call_op (RedisSRem (userSessionsKey (as_Username sess)) id); Ret tt
          else Ret tt
      | None => Ret tt
      end
  end.

Definition Logout (token ip : string) : prog op (option auth_error) :=
  if negb (has_prefix "pgadmin_" token) then Ret (Some ErrInvalidSessionToken)
  else
    let hashHex := token_hash token in
    let! v := Get (sessionKey hashHex) in
    let username := match v with
                    | inl _ => ""
                    | inr val => match unmarshal val with Some sess => as_Username sess | None => "" end
                    end in
    do! RevokeSession hashHex;
    if String.eqb username "" then Ret None
    else do! audit username "logout" username [("ip", DStr ip); ("session_id", DStr hashHex)] ip "ok"; Ret None.

Definition touch (sess : AdminSession) (now : Time) : AdminSession :=
  mkAdminSession (as_ID sess) (as_UserID sess) (as_Username sess) (as_Role sess) (as_CreatedAt sess) now (as_IP sess) (as_UserAgent sess).

Definition ValidateSession (token : string) : prog op (auth_error + AdminSession) :=
  if negb (has_prefix "pgadmin_" token) then Ret (inl ErrInvalidSessionToken)
  else
    let hashHex := token_hash token in
    let key := sessionKey hashHex in
    let! v := Get key in
    match v with
    | inl e => Ret (inl e)
    | inr val =>
        match unmarshal val with
        | None => Ret (inl ErrOtherStore)
        | Some sess =>
            let! now := call_op TimeNow in
            if aa_SessionAbsTimeout cfg <? time_sub now (as_CreatedAt sess) then
              do! RevokeSession hashHex; Ret (inl ErrSessionExpired)
            else if aa_SessionIdleTimeout cfg <? time_sub now (as_LastActiveAt sess) then
              do! RevokeSession hashHex; Ret (inl ErrSessionIdle)
            else
              let remaining := time_sub (as_CreatedAt sess + aa_SessionAbsTimeout cfg) now in
              if remaining <=? 0 then do! RevokeSession hashHex; Ret (inl ErrSessionExpired)
              else
                let! r := call_op (RedisSetXX key (marshal (touch sess now)) remaining) in
                match r with
                | inl e => Ret (inl e)
                | inr false => Ret (inl ErrSessionNotFound)
                | inr true => Ret (inr (touch sess now))
                end
        end
    end.

(** Deleting the sessions of one index set; the count of deletions that succeeded. *)
Definition delete_sessions (n : Z) (sids : list string) : prog op Z :=
  for_each sids n (fun n id =>
    let! r := call_op (RedisDel [sessionKey id]) in Ret (match r with inr _ => n + 1 | inl _ => n end)).

Definition RevokeAllUserSessions (username : string) : prog op (auth_error + Z) :=
  if negb (String.eqb username "") then
    let! sids := call_op (RedisSMembers (userSessionsKey username)) in
    match sids with
    | inl e => Ret (inl e)
    | inr sids =>
        let! count := delete_sessions 0 sids in
        do! call_op (RedisDel [userSessionsKey username]);
        do! call_op (RedisSRem allUsersKey username);
        Ret (inr count)
    end
  else
    let! users := call_op (RedisSMembers allUsersKey) in
    match users with
    | inl e => Ret (inl e)
    | inr users =>
        let! total := for_each users 0 (fun total u =>
          let! sids := call_op (RedisSMembers (userSessionsKey u)) in
          let! total := delete_sessions total (match sids with inr l => l | inl _ => [] end) in
          do! call_op (RedisDel [userSessionsKey u]); Ret total) in
        do! call_op (RedisDel [allUsersKey]);
        Ret (inr total)
    end.

Definition list_user (acc : list AdminSession) (u : string) : prog op (list AdminSession) :=
  let! sids := call_op (RedisSMembers (userSessionsKey u)) in
  match sids with
  | inl _ => Ret acc
  | inr sids =>
      for_each sids acc (fun acc id =>
        let! v := Get (sessionKey id) in
        match v with
        | inl ErrSessionNotFound => do! call_op (RedisSRem (userSessionsKey u) id); Ret acc
        | inl _ => Ret acc
        | inr val => Ret (match unmarshal val with Some sess => acc ++ [sess] | None => acc end)
        end)
  end.

Definition ListSessions (username : string) : prog op (auth_error + list AdminSession) :=
  let! names := (if negb (String.eqb username "") then Ret (inr [username]) else call_op (RedisSMembers allUsersKey)) in
  match names with
  | inl e => Ret (inl e)
  | inr names => let! sessions := for_each names [] list_user in Ret (inr (sort_sessions sessions))
  end.

(** *** middleware.go *)

(** [strings.SplitN(h, " ", 2)] with a scheme that is [Bearer]. *)
Definition extractAdminToken (authHeader : string) : string :=
  if String.eqb authHeader "" then ""
  else let '(scheme, rest, found) := cut authHeader " " in
       if found && equal_fold scheme "Bearer" then trim_space rest else "".

Inductive body :=
| NoBody
| LoginBody (token userID username role : string) (expiresAt : Time)
| SessionBody (sess : AdminSession)
| SessionsBody (l : list AdminSession)
| CountBody (n : Z)
| UserBody (u : AdminUser).

Record reply := mkReply { rp_Status : Z; rp_RetryAfter : option Z; rp_Body : body }.

Definition status (code : Z) : reply := mkReply code None NoBody.

Definition RequireAuth (authHeader : string) (next : AdminSession -> prog op reply) : prog op reply :=
  let token := extractAdminToken authHeader in
  if String.eqb token "" then Ret (status 401)
  else
    let! r := ValidateSession token in
    match r with
    | inl _ => Ret (status 401)
    | inr sess => next sess
    end.

Definition RequirePermission (perm : Permission) (next : AdminSession -> prog op reply) (sess : AdminSession) : prog op reply :=
  if negb (HasPermission (as_Role sess) perm) then Ret (status 403) else next sess.

(** *** server/admin_auth.go *)

(** The Retry-After header of the time left. *)
Definition retry_after (r : auth_error + bool * Duration) : option Z :=
  match r with
  | inr (_, ttl) => if 0 <? ttl then Some (ttl_seconds ttl) else None
  | inl _ => None
  end.

Definition handleLogin (username password ip userAgent : string) : prog op reply :=
  if String.eqb username "" || String.eqb password "" then Ret (status 400)
  else if negb (ValidateUsername username) then Ret (status 401)
  else
    let! r := Login username password ip userAgent in
    match r with
    | inl ErrIPRateLimited => let! l := CheckIPLockout ip in Ret (mkReply 429 (retry_after l) NoBody)
    | inl ErrAccountLocked => let! l := CheckLoginLockout username ip in Ret (mkReply 429 (retry_after l) NoBody)
    | inl ErrInvalidCredentials | inl ErrAccountDisabled => Ret (status 401)
    | inl _ => Ret (status 500)
    | inr (token, sess) =>
        let absTimeout := if aa_SessionAbsTimeout cfg =? 0 then 12 * hour else aa_SessionAbsTimeout cfg in
        Ret (mkReply 200 None (LoginBody token (as_UserID sess) (as_Username sess) (as_Role sess) (as_CreatedAt sess + absTimeout)))
    end.

Definition handleLogout (authHeader ip : string) (sess : AdminSession) : prog op reply :=
  let '(scheme, rest, found) := cut authHeader " " in
  let token := if found && equal_fold scheme "Bearer" then trim_space rest else "" in
  let! r := Logout token ip in
  Ret (status (match r with Some _ => 400 | None => 200 end)).

Definition handleWhoami (sess : AdminSession) : prog op reply := Ret (mkReply 200 None (SessionBody sess)).

(** *** server/admin_cp.go *)

Definition own_sessions (sess : AdminSession) (user : string) : string :=
  if negb (String.eqb (as_Role sess) "admin") then as_Username sess else user.

Definition handleListSessions (user : string) (sess : AdminSession) : prog op reply :=
  let! r := ListSessions (own_sessions sess user) in
  Ret (match r with inl _ => status 500 | inr l => mkReply 200 None (SessionsBody l) end).

Definition handleRevokeSession (id ip : string) (sess : AdminSession) : prog op reply :=
  do! RevokeSession id;
  do! audit (as_Username sess) "session.revoke" id [("session_id", DStr id)] ip "ok";
  Ret (status 204).

Definition handleRevokeAllSessions (user ip : string) (sess : AdminSession) : prog op reply :=
  let! r := RevokeAllUserSessions (own_sessions sess user) in
  match r with
  | inl _ => Ret (status 500)
  | inr count =>
      do! audit (as_Username sess) "session.revoke_all" (own_sessions sess user) [("count", DInt count)] ip "ok";
      Ret (mkReply 200 None (CountBody count))
  end.

Definition handleCreateUser (username password role ip : string) (sess : AdminSession) : prog op reply :=
  if String.eqb username "" || String.eqb password "" then Ret (status 400)
  else if (64 <? slen username) || negb (ValidateUsername username) then Ret (status 400)
  else match ValidatePasswordContext breached password username with
  | Some _ => Ret (status 400)
  | None =>
      let role := if String.eqb role "" then "admin" else role in
      if negb (String.eqb role "admin") && negb (String.eqb role "operator") && negb (String.eqb role "viewer") then Ret (status 400)
      else
        let! pwHash := call_op (BcryptHash password) in
        let! r := call_op (DBCreateUser username pwHash role) in
        match r with
        | inl ErrUserExists => Ret (status 409)
        | inl _ => Ret (status 500)
        | inr u =>
            do! audit (as_Username sess) "user.create" (us_Username u) [("role", DStr (us_Role u))] ip "ok";
            Ret (mkReply 201 None (UserBody u))
        end
  end.

Definition handleSetUserEnabled (username : string) (enabled : bool) (ip : string) (sess : AdminSession) : prog op reply :=
  let! u := call_op (DBGetAdminUser username) in
  match u with
  | inl _ => Ret (status 404)
  | inr u =>
      let! r := call_op (DBSetEnabled (us_ID u) enabled) in
      match r with
      | inl ErrLastAdmin => Ret (status 409)
      | inl _ => Ret (status 500)
      | inr _ =>
          do! (if negb enabled then do! RevokeAllUserSessions username; Ret tt else Ret tt);
          do! audit (as_Username sess) (if enabled then "user.enable" else "user.disable") username [] ip "ok";
          Ret (status 200)
      end
  end.

Definition handleDeleteUser (username ip : string) (sess : AdminSession) : prog op reply :=
  let! u := call_op (DBGetAdminUser username) in
  match u with
  | inl _ => Ret (status 404)
  | inr u =>
      let! r := call_op (DBDeleteUser (us_ID u)) in
      match r with
      | inl ErrLastAdmin => Ret (status 409)
      | inl _ => Ret (status 500)
      | inr _ =>
          do! RevokeAllUserSessions username;
          do! audit (as_Username sess) "user.delete" username [] ip "ok";
          Ret (status 204)
      end
  end.

Definition handleChangePassword (username oldPassword newPassword ip : string) (sess : AdminSession) : prog op reply :=
  let isSelf := String.eqb (as_Username sess) username in
  let isAdmin := HasPermission (as_Role sess) PermUserManage in
  if negb isSelf && negb isAdmin then Ret (status 403)
  else if String.eqb newPassword "" then Ret (status 400)
  else
    let! u := call_op (DBGetAdminUser username) in
    match u with
    | inl _ => Ret (status 404)
    | inr u =>
        let change :=
          match ValidatePasswordContext breached newPassword username with
          | Some _ => Ret (status 400)
          | None =>
              let! newHash := call_op (BcryptHash newPassword) in
              let mustChange := negb isSelf && isAdmin in
              let! r := call_op (DBUpdatePassword (us_ID u) newHash mustChange) in
              match r with
              | inl _ => Ret (status 500)
              | inr _ =>
                  do! RevokeAllUserSessions username;
                  do! audit (as_Username sess) "user.change_password" username
                    [("self", DBool isSelf); ("must_change", DBool mustChange)] ip "ok";
                  Ret (status 200)
              end
          end in
        if isSelf then
          if String.eqb oldPassword "" then Ret (status 400)
          else let! ok := call_op (BcryptCheck (us_PasswordHash u) oldPassword) in
               if negb ok then Ret (status 400) else change
        else change
    end.

(** *** The routes (RegisterAdminRoutes) *)

Inductive endpoint :=
| EpLogout
| EpWhoami
| EpListSessions (user : string)
| EpRevokeSession (id : string)
| EpRevokeAllSessions (user : string)
| EpCreateUser (username password role : string)
| EpSetUserEnabled (username : string) (enabled : bool)
| EpDeleteUser (username : string)
| EpChangePassword (username oldPassword newPassword : string).

Definition admin_route (authHeader ip : string) (e : endpoint) : prog op reply :=
  let wrapAuth := RequireAuth authHeader in
  let wrapPerm perm h := RequireAuth authHeader (RequirePermission perm h) in
  match e with
  | EpLogout => wrapAuth (handleLogout authHeader ip)
  | EpWhoami => wrapAuth handleWhoami
  | EpListSessions user => wrapPerm PermSessionManage (handleListSessions user)
  | EpRevokeSession id => wrapPerm PermSessionManage (handleRevokeSession id ip)
  | EpRevokeAllSessions user => wrapPerm PermSessionManage (handleRevokeAllSessions user ip)
  | EpCreateUser u p r => wrapPerm PermUserManage (handleCreateUser u p r ip)
  | EpSetUserEnabled u b => wrapPerm PermUserManage (handleSetUserEnabled u b ip)
  | EpDeleteUser u => wrapPerm PermUserManage (handleDeleteUser u ip)
  | EpChangePassword u old new => wrapAuth (handleChangePassword u old new ip)
  end.

(** A request of the admin listener. *)
Inductive request :=
| LoginRequest (username password ip userAgent : string)
| AdminRequest (authHeader ip : string) (e : endpoint).

Definition serve (r : request) : prog op reply :=
  match r with
  | LoginRequest u p ip ua => handleLogin u p ip ua
  | AdminRequest h ip e => admin_route h ip e
  end.
End Service.
