(* ===== verification/AdminLogin.v ===== *)
(** * The login throttle

    However requests interleave and whichever stores fail, the number of passwords
    that are compared for a user name from an address is bounded by the attempts
    that the configuration allows per lockout period. *)

From S2P Require Import Prelude GoStrings GoFloat GoFloatInt Config Regex Threads AdminStore AdminAuth.

Open Scope string_scope.
Open Scope list_scope.
Open Scope Z_scope.

(** ** Keys do not clash *)

Lemma name_no_byte c u : is_name_byte c = false -> sforall is_name_byte u = true -> scontains_byte c u = false.
Proof.
  intros Hc. induction u as [|d u IH]; simpl; [done|]. intros [Hd Hu]%andb_true_iff.
  rewrite IH by done. destruct (Ascii.eqb_spec c d) as [->|]; [congruence|done].
Qed.

Lemma ValidateUsername_bytes u : ValidateUsername u = true -> sforall is_name_byte u = true.
Proof. unfold ValidateUsername. by intros [[? ?]%andb_true_iff ?]%andb_true_iff. Qed.

Lemma sapp_sep_inj c a b x y : scontains_byte c a = false -> scontains_byte c b = false ->
  a +:+ String c x = b +:+ String c y -> a = b /\ x = y.
Proof.
  revert b. induction a as [|d a IH]; intros [|e b]; simpl; intros Ha Hb E; simplify_eq.
  - done.
  - by rewrite Ascii.eqb_refl in Hb.
  - by rewrite Ascii.eqb_refl in Ha.
  - apply orb_false_iff in Ha as [_ Ha], Hb as [_ Hb]. destruct (IH b Ha Hb H) as [-> ->]. done.
Qed.

(** Two literals that differ within their common length. *)
Fixpoint clash (p q : string) : bool :=
  match p, q with
  | String c p', String d q' => negb (Ascii.eqb c d) || clash p' q'
  | _, _ => false
  end.

Lemma clash_ne p q x y : clash p q = true -> p +:+ x <> q +:+ y.
Proof.
  revert q. induction p as [|c p IH]; intros [|d q]; try done. cbn [clash].
  rewrite !sapp_cons. intros [H|H]%orb_true_iff E; injection E as -> E.
  - by rewrite Ascii.eqb_refl in H.
  - by eapply IH.
Qed.

Lemma clash_lit p q y : clash p q = true -> p <> q +:+ y.
Proof. intros H. rewrite <- (sapp_nil_r p). by apply clash_ne. Qed.

Ltac key_ne := solve
  [ assumption | apply not_eq_sym; assumption | apply clash_ne; reflexivity | apply not_eq_sym, clash_ne; reflexivity
  | apply clash_lit; reflexivity | apply not_eq_sym, clash_lit; reflexivity ].

Lemma user_ip_key_inj u ip u' ip' : ValidateUsername u = true -> ValidateUsername u' = true ->
  loginFailUserIPKey u ip = loginFailUserIPKey u' ip' -> u = u' /\ ip = ip'.
Proof.
  intros Hu%ValidateUsername_bytes Hu'%ValidateUsername_bytes E. unfold loginFailUserIPKey in E.
  apply sapp_inj_l in E. rename E into E'. apply sapp_sep_inj in E'; [done|by apply name_no_byte..].
Qed.

Lemma user_key_ne u u' ip : ValidateUsername u' = true -> loginFailKey u' <> loginFailUserIPKey u ip.
Proof.
  intros Hu%ValidateUsername_bytes E. unfold loginFailKey, loginFailUserIPKey in E.
  change "proofgate:login_fail:userip:" with ("proofgate:login_fail:" +:+ "userip:") in E.
  rewrite sapp_assoc in E. apply sapp_inj_l in E. subst u'. done.
Qed.

Section Throttle.
Context (sha256 : string -> string) (marshal : AdminSession -> string) (unmarshal : string -> option AdminSession)
  (sort_sessions : list AdminSession -> list AdminSession) (bcrypt_check : string -> string -> bool)
  (bcrypt_hash : string -> string -> string) (dummyHash : string) (breached : option (string -> bool)) (cfg : AdminAuthConfig).

Abbreviation step_op := (exec (C := request) bcrypt_check bcrypt_hash).
Abbreviation serve' := (serve sha256 marshal unmarshal sort_sessions dummyHash breached cfg).
Abbreviation machine := (sys op (World request) request reply).
Abbreviation run' := (run (A := reply) step_op serve' tick).

(** The attempts under consideration: those for [u] from [ip]. *)
Definition attempt (u ip : string) (r : request) : bool :=
  match r with
  | LoginRequest u' _ ip' _ => String.eqb u' u && String.eqb ip' ip
  | AdminRequest _ _ _ => false
  end.

Definition guesses (u ip : string) (w : World request) : Z :=
  Z.of_nat (length (List.filter (fun x => attempt u ip x.1) (w_guesses w))).

Definition none_succeeded (u ip : string) (w : World request) : bool :=
  forallb (fun x => negb (attempt u ip x.1 && x.2)) (w_guesses w).

Context (u ip : string) (Hu : ValidateUsername u = true).
Abbreviation counter := (loginFailUserIPKey u ip).
Abbreviation max := (aa_MaxLoginAttempts cfg).
Abbreviation period := (ttl_seconds (aa_LockoutDuration cfg)).

(** A credit is the right to compare one password for [u] from [ip]: an increment
    of the counter that does not exceed the maximum gives one. *)
Definition throttle (who : request) (R : Type) (o : op R) (g : nat) : (R -> nat -> Prop) -> Prop :=
  match o in op R return (R -> nat -> Prop) -> Prop with
  | RedisSet k _ _ => fun P => k <> counter /\ forall r, P r g
  | RedisSetXX k _ _ => fun P => k <> counter /\ forall r, P r g
  | RedisDel ks => fun P => counter ∉ ks /\ forall r, P r g
  | RedisIncr k s => fun P =>
      if decide (k = counter) then
        s = period /\ (forall e, P (inl e) g) /\ forall n, P (inr n) (if n <=? max then S g else g)
      else forall r, P r g
  | BcryptCheck _ _ => fun P => if attempt u ip who then exists g', g = S g' /\ P false g' else forall r, P r g
  | _ => fun P => forall r, P r g
  end.

Lemma throttle_mono who : spec_mono (throttle who).
Proof using Type.
  intros R o g P Q H. destruct o; cbn [throttle]; try (by eauto); try (intros [? ?]; by eauto).
  - destruct (decide _); [|by eauto]. intros (? & ? & ?). eauto.
  - destruct (attempt u ip who); [|by eauto]. intros (? & ? & ?). eauto.
Qed.

Lemma throttle_quiet_op who R (o : op R) :
  (match o with
   | RedisSet k _ _ | RedisSetXX k _ _ | RedisIncr k _ => k <> counter
   | RedisDel ks => counter ∉ ks
   | BcryptCheck _ _ => attempt u ip who = false
   | _ => True
   end) -> steady (throttle who) (call_op o).
Proof using Type.
  intros H. apply steady_call. intros g P HP. destruct o; cbn [throttle] in *; auto.
  - by rewrite decide_False.
  - by rewrite H.
Qed.

Abbreviation quiet who := (steady (throttle who)).

Ltac quiet_side :=
  first [ exact I | reflexivity | assumption | key_ne
        | repeat (apply not_elem_of_cons; split); [key_ne..|apply not_elem_of_nil] ].

Ltac quiet := follow ltac:(apply throttle_mono) ltac:(apply throttle_quiet_op; quiet_side) fail.

Lemma quiet_admin h ip' e : quiet (AdminRequest h ip' e) (serve' (AdminRequest h ip' e)).
Proof using Type. quiet. Qed.

Lemma quiet_tests who ip' u' : quiet who (CheckIPLockout cfg ip') /\ quiet who (CheckLoginLockout cfg u' ip').
Proof using Type. split; quiet. Qed.

Lemma quiet_incr who k ttl : k <> counter -> quiet who (IncrWithTTL k ttl).
Proof using Type. intros H. quiet. Qed.

Lemma quiet_failed who u' ip' reason n : quiet who (login_failed cfg u' ip' reason n).
Proof using Type. quiet. Qed.

(** An attempt for another user or from another address. *)
Lemma quiet_other who u' p ip' ua : attempt u ip who = false -> ValidateUsername u' = true ->
  loginFailUserIPKey u' ip' <> counter -> quiet who (Login sha256 marshal dummyHash cfg u' p ip' ua).
Proof using Type.
  intros Hw Hv Hk. pose proof (user_key_ne u u' ip Hv) as Hl. quiet.
Qed.

(** An attempt for [u] from [ip]: one credit is taken and one comparison made. *)
Lemma credentials_wp who p ua n (Q : _ -> nat -> Prop) : attempt u ip who = true -> (forall a g, Q a g) ->
  wp (throttle who) (check_credentials sha256 marshal dummyHash cfg u p ip ua n) 1 Q.
Proof using Type.
  intros Hw HQ. assert (forall reason, wp (throttle who) (login_failed cfg u ip reason n) 0 Q) as Hf.
  { intros reason. apply quiet_failed. intros a. apply HQ. }
  unfold check_credentials. apply wp_steady_bind; [apply throttle_mono|quiet|].
  intros [e|user]; [|destruct (us_Enabled user)]; cbn [negb].
  all: cbn [prog_bind call_op wp throttle]; rewrite Hw; exists 0%nat; (split; [done|]); cbn [negb]; apply Hf.
Qed.

Lemma wp_count who {B} (k : auth_error + Z -> prog op B) (Q : B -> nat -> Prop) :
  (forall e, wp (throttle who) (k (inl e)) 0 Q) ->
  (forall n, wp (throttle who) (k (inr n)) (if n <=? max then 1 else 0) Q) ->
  wp (throttle who) (prog_bind k (IncrWithTTL counter (aa_LockoutDuration cfg))) 0 Q.
Proof using Type.
  intros He Hn. unfold IncrWithTTL. cbn [prog_bind call_op wp throttle]. rewrite decide_True by done. done.
Qed.

Lemma attempt_wp who p ua (Q : _ -> nat -> Prop) : attempt u ip who = true -> (forall a g, Q a g) ->
  wp (throttle who) (Login sha256 marshal dummyHash cfg u p ip ua) 0 Q.
Proof using Hu.
  intros Hw HQ. pose proof (user_key_ne u u ip Hu) as Hl. unfold Login. rewrite Hu. cbn [negb].
  pose proof (throttle_mono who) as Hm.
  apply wp_steady_bind; [done|apply quiet_tests; exact u|]. intros [e|[[] r]]; [apply HQ| |].
  { apply wp_steady_bind; [done|quiet|]. intros. apply HQ. }
  apply wp_steady_bind; [done|apply quiet_tests|]. intros [e|[[] r']]; [apply HQ| |].
  { apply wp_steady_bind; [done|quiet|]. intros. apply HQ. }
  apply wp_count; [intros; apply HQ|]. intros n.
  do 3 (apply wp_steady_bind; [done|apply quiet_incr; key_ne|intros ?]).
  destruct (30 <? count_of _). { apply wp_steady_bind; [done|quiet|]. intros. apply HQ. }
  destruct (Z.ltb_spec max n). { apply wp_steady_bind; [done|quiet|]. intros. apply HQ. }
  rewrite (proj2 (Z.leb_le n max)) by lia. by apply credentials_wp.
Qed.

(** ** The counter *)

Abbreviation window := (period * second).

(** The counter belongs to the [N]-th window since [t0], which started at [s]; the
    comparisons made and the credits in circulation fit in the windows so far. *)
Definition counted (t0 : Time) (w : World request) (credits : nat) : Prop :=
  t0 <= w_now w /\
  ((w_kv w !! counter = None /\ guesses u ip w + Z.of_nat credits = 0) \/
   exists N n s, 1 <= N /\ 1 <= n <= int64_max /\ w_kv w !! counter = Some (itoa n, Some (s + window)) /\
     t0 + (N - 1) * window <= s <= w_now w /\
     guesses u ip w + Z.of_nat credits <= max * (N - 1) + Z.min n max).

Definition unsuccessful (ev : event request outcome) (w w' : World request) : Prop := none_succeeded u ip w' = true.

Lemma secs_pos : 1 <= period.
Proof using Type. unfold ttl_seconds. destruct (Z.ltb_spec (f_ceil_int64 (Seconds (aa_LockoutDuration cfg))) 1); lia. Qed.

Lemma guesses_exec who oc R (o : op R) w : guesses u ip (step_op who oc R o w).1 =
  guesses u ip w + Z.of_nat (length (List.filter (fun x => attempt u ip x.1) (guess_of bcrypt_check who o))).
Proof using Type. unfold guesses. rewrite exec_guesses, List.filter_app, length_app. lia. Qed.

(** The counter after an increment. *)
Lemma incr_counted t0 w c : 0 <= max -> counted t0 w c ->
  let '(w', n) := incrWithTTLScript counter period w in
  match n with
  | Some n => counted t0 w' (if n <=? max then S c else c)
  | None => w' = w
  end.
Proof using Type.
  intros Hmax [Ht H]. pose proof secs_pos as Hs. unfold incrWithTTLScript, kv_get.
  assert (forall N, 1 <= N -> t0 + (N - 1) * window <= w_now w -> guesses u ip w + Z.of_nat c <= max * (N - 1) ->
    counted t0 (set_kv w (<[counter := ("1", Some (w_now w + window))]> (w_kv w))) (if 1 <=? max then S c else c)) as Hnew.
  { intros N HN Hlo Hg. split; [done|]. right. exists N, 1, (w_now w). simpl. rewrite lookup_insert_eq.
    split_and!; try done; try (unfold int64_max; lia). unfold guesses in *. simpl. destruct (Z.leb_spec 1 max); lia. }
  destruct H as [[Hk Hg]|(N & n & s & HN & Hn & Hk & Hsn & Hg)]; rewrite Hk; simpl; [apply (Hnew 1); lia|].
  unfold unexpired. simpl. destruct (Z.leb_spec (s + window) (w_now w)) as [Hle|Hlt]; simpl.
  { apply (Hnew (N + 1)); nia. }
  rewrite redis_int_itoa by lia. destruct (Z.eqb_spec n int64_max) as [|Hne]; [done|].
  destruct (Z.eqb_spec (n + 1) 1); [lia|]. split; [done|]. right. exists N, (n + 1), s. simpl. rewrite lookup_insert_eq.
  split_and!; try done; try lia. unfold guesses in *. simpl. destruct (Z.leb_spec (n + 1) max); lia.
Qed.

Lemma counted_frame t0 w w' c : w_now w' = w_now w -> w_kv w' !! counter = w_kv w !! counter ->
  guesses u ip w' = guesses u ip w -> counted t0 w c -> counted t0 w' c.
Proof using Type. unfold counted. by intros -> -> ->. Qed.

Lemma counted_quiet t0 who oc R (o : op R) w c : ~ writes counter o ->
  match o with BcryptCheck _ _ => attempt u ip who = false | _ => True end ->
  counted t0 w c -> counted t0 (step_op who oc R o w).1 c.
Proof using Type.
  intros Hw Ha. apply counted_frame; [apply exec_now|by apply exec_kv|].
  rewrite guesses_exec. destruct o; simpl; try lia. rewrite Ha. simpl. lia.
Qed.

Lemma incr_step t0 who oc w c w' r : 0 <= max -> counted t0 w c ->
  step_op who oc _ (RedisIncr counter period) w = (w', r) ->
  match r with
  | inr n => counted t0 w' (if n <=? max then S c else c)
  | inl _ => counted t0 w' c
  end.
Proof using Type.
  intros Hmax HI Ex. pose proof (incr_counted t0 w c Hmax HI) as H. cbn [exec] in Ex.
  destruct (incrWithTTLScript counter period w) as [w1 [n|]].
  - assert (counted t0 w1 c) as H'.
    { revert H. destruct (n <=? max); [|done]. intros [? [[? ?]|(N & m & s & ?)]]; (split; [done|]).
      - left. split; [done|]. unfold guesses in *. lia.
      - right. exists N, m, s. destruct_and!. split_and!; try done. lia. }
    destruct (remote_reply oc w (w1, inr n : auth_error + Z)) as [E|(w2 & E & [->| ->])]; rewrite E in Ex; by simplify_eq/=.
  - subst w1. destruct (remote_reply oc w (w, inl ErrOtherStore : auth_error + Z)) as [E|(w2 & E & [->| ->])];
      rewrite E in Ex; by simplify_eq/=.
Qed.

Lemma throttle_sound t0 : 0 <= max -> op_sound step_op (fun _ _ => tt) throttle (fun _ => counted t0) unsuccessful.
Proof using Type.
  clear sha256 marshal unmarshal sort_sessions dummyHash breached Hu.
  intros Hmax i c e R o [] w g rest P w' r HK HI Hs Ex.
  assert (w' = (step_op c e R o w).1) as Ew by (by rewrite Ex).
  pose proof (counted_quiet t0 c e R o w (g + rest)) as Hq. rewrite <- Ew in Hq.
  destruct o; cbn [throttle writes] in *;
    try (exists g; split; [destruct_and?; auto|]; apply Hq; tauto).
  - destruct (decide (key = counter)) as [->|Hne]; [|exists g; split; [done|]; by apply Hq].
    destruct Hs as (-> & He & Hn). pose proof (incr_step t0 _ _ _ _ _ _ Hmax HI Ex) as H. destruct r as [e'|n].
    + by exists g.
    + exists (if n <=? max then S g else g). split; [done|]. by destruct (n <=? max).
  - destruct (attempt u ip c) eqn:Ha; [|exists g; split; [done|]; apply Hq; tauto].
    destruct Hs as (g' & -> & HP). cbn [exec] in Ex. injection Ex as <- <-.
    destruct (bcrypt_check hash password) eqn:Eb.
    { unfold unsuccessful, none_succeeded in HK. simpl in HK. rewrite forallb_app in HK. simpl in HK. by rewrite Ha, andb_false_r in HK. }
    exists g'. split; [done|]. destruct HI as [Ht H]. split; [done|].
    unfold guesses in *. simpl. rewrite List.filter_app, length_app. simpl. rewrite Ha. simpl.
    destruct H as [[? ?]|(N & m & s & ?)]; [lia|]. right. exists N, m, s. destruct_and!. split_and!; try done. lia.
Qed.

(** ** The theorem *)

Lemma handleLogin_wp r : wp (throttle r) (serve' r) 0 (fun _ _ => True).
Proof using Hu.
  pose proof (throttle_mono r) as Hm. destruct r as [u' p ip' ua|h ip' e]; [|by apply quiet_admin].
  cbn [serve]. unfold handleLogin. destruct (_ || _); [done|]. destruct (ValidateUsername u') eqn:Hv; [|done]. cbn [negb].
  apply wp_bind; [done|].
  assert (forall a g, wp (throttle (LoginRequest u' p ip' ua))
    (match a : auth_error + string * AdminSession with
     | inl ErrIPRateLimited => (let! l := CheckIPLockout cfg ip' in Ret (mkReply 429 (retry_after l) NoBody))%prog
     | inl ErrAccountLocked => (let! l := CheckLoginLockout cfg u' ip' in Ret (mkReply 429 (retry_after l) NoBody))%prog
     | inl ErrInvalidCredentials | inl ErrAccountDisabled => Ret (status 401)
     | inl _ => Ret (status 500)
     | inr (token, sess) =>
         let absTimeout := if aa_SessionAbsTimeout cfg =? 0 then 12 * hour else aa_SessionAbsTimeout cfg in
         Ret (mkReply 200 None (LoginBody token (as_UserID sess) (as_Username sess) (as_Role sess) (as_CreatedAt sess + absTimeout)))
     end) g (fun _ _ => True)) as Hrest.
  { intros [[]|[? ?]] g; try done; apply wp_steady_bind; try done; apply quiet_tests; exact u. }
  destruct (attempt u ip (LoginRequest u' p ip' ua)) eqn:Ha.
  - pose proof Ha as Ha'. cbn [attempt] in Ha'. apply andb_true_iff in Ha' as [->%String.eqb_eq ->%String.eqb_eq].
    apply attempt_wp; [done|]. intros a g. apply Hrest.
  - assert (loginFailUserIPKey u' ip' <> counter) as Hne.
    { intros [-> ->]%user_ip_key_inj; [|done..]. cbn [attempt] in Ha. by rewrite !String.eqb_refl in Ha. }
    apply quiet_other; [done..|]. intros a. apply Hrest.
Qed.

Lemma none_succeeded_exec who oc R (o : op R) w :
  none_succeeded u ip (step_op who oc R o w).1 = true -> none_succeeded u ip w = true.
Proof using Type.
  unfold none_succeeded. rewrite exec_guesses, forallb_app. by intros [? _]%andb_true_iff.
Qed.

Lemma none_succeeded_run evs (s : machine) : none_succeeded u ip (sys_world (run' evs s)) = true ->
  none_succeeded u ip (sys_world s) = true /\ along step_op serve' tick unsuccessful evs s.
Proof using Type.
  revert s. induction evs as [|ev evs IH]; intros s H; [done|]. rewrite run_cons in H.
  apply IH in H as [H ?]. simpl. split; [|by split].
  destruct ev as [c|i e|d]; simpl in H; try done.
  destruct (sys_threads s !! i) as [[c [a|R o k]]|]; try done.
  destruct (step_op c e R o (sys_world s)) as [w r] eqn:E. simpl in H.
  apply (none_succeeded_exec c e R o). by rewrite E.
Qed.
End Throttle.

Lemma ttl_seconds_whole k : 1 <= k < 2 ^ 53 -> ttl_seconds (k * second) = k.
Proof.
  intros Hk. assert (exact_int k) as He by (unfold exact_int; lia).
  unfold ttl_seconds. rewrite Seconds_whole, f_ceil_int64_exact by done.
  destruct (Z.ltb_spec k 1); lia.
Qed.

(** C13. The passwords compared for a user name from an address are at most the allowed
    attempts for every lockout period that has begun, whatever requests run at the
    same time and whichever operations fail, as long as none was right. *)
Theorem guesses_bounded sha256 marshal unmarshal sort_sessions bcrypt_check bcrypt_hash dummyHash breached cfg
  (u ip : string) (k : Z) (w0 : World request) (evs : list (event request outcome)) :
  ValidateUsername u = true ->
  0 <= aa_MaxLoginAttempts cfg -> aa_LockoutDuration cfg = k * second -> 1 <= k < 2 ^ 53 ->
  w_kv w0 !! loginFailUserIPKey u ip = None -> w_guesses w0 = [] ->
  let w := sys_world (run (exec bcrypt_check bcrypt_hash)
                          (serve sha256 marshal unmarshal sort_sessions dummyHash breached cfg) tick evs (mkSystem w0 [])) in
  none_succeeded u ip w = true ->
  guesses u ip w <= aa_MaxLoginAttempts cfg * (1 + (w_now w - w_now w0) / aa_LockoutDuration cfg).
Proof.
  intros Hu Hmax Hlock Hk Hkv Hg w Hns.
  destruct (none_succeeded_run sha256 marshal unmarshal sort_sessions bcrypt_check bcrypt_hash dummyHash breached cfg u ip evs
              (mkSystem w0 []) Hns) as [_ Halong].
  assert (sys_inv (throttle cfg u ip) (fun _ => counted cfg u ip (w_now w0)) (fun _ _ _ _ => True) tt
            (run (exec bcrypt_check bcrypt_hash) (serve sha256 marshal unmarshal sort_sessions dummyHash breached cfg) tick evs
              (mkSystem w0 []))) as (gs & _ & _ & HI).
  { replace tt with (fold_left (fun _ _ => tt) evs tt) by (by destruct (fold_left _ _ _)).
    eapply run_wp with (n := 0%nat); [by apply throttle_sound| | |simpl; lia| |exact Halong|].
    - intros d [] w1 n _ [Ht H]. split; [simpl; lia|]. destruct H as [H|(N & m & s & ?)]; [by left|].
      right. exists N, m, s. destruct_and!. unfold guesses in *. simpl. split_and!; try done; lia.
    - by intros ev [] w1 n _ H.
    - intros i c w1 _ _. by apply handleLogin_wp.
    - exists []. split; [done|]. split; [done|]. split; [done|]. left. split; [done|]. unfold guesses. cbn [sys_world]. by rewrite Hg. }
  fold w in HI. destruct HI as [Ht HI]. rewrite Hlock in *. rewrite ttl_seconds_whole in HI by done.
  assert (0 < k * second) as Hpos by (unfold second; lia).
  pose proof (Z.div_pos (w_now w - w_now w0) (k * second) ltac:(lia) Hpos).
  destruct HI as [[_ HI]|(N & n & s & HN & Hn & _ & Hs & HG)]; [nia|].
  assert (N - 1 <= (w_now w - w_now w0) / (k * second)) as Hw.
  { apply Z.div_le_lower_bound; nia. }
  nia.
Qed.

(** ** Concrete runs *)

Definition demo_cfg : AdminAuthConfig :=
  mkAdminAuthConfig true 2 (60 * second) (30 * minute) (12 * hour) (mkAdminChatConfig 60 1000 f0 []).
Definition demo_user : AdminUser := mkAdminUser "u1" "ada" "correct horse" "operator" true false.
Definition demo_world : World request := mkWorld (1000 * second) ∅ ∅ {["ada" := demo_user]} [] [].

(** Identifiers for the parameters: the hash of a password is the password. *)
Definition demo_exec : request -> outcome -> forall R, op R -> World request -> World request * R :=
  exec String.eqb (fun _ p => p).
Definition demo_marshal (s : AdminSession) : string :=
  join "/" [as_ID s; as_UserID s; as_Username s; as_Role s; itoa (as_CreatedAt s); itoa (as_LastActiveAt s)].
Definition demo_unmarshal (s : string) : option AdminSession :=
  match split_byte "/" s with
  | [id; uid; name; role; c; l] => Some (mkAdminSession id uid name role (parse_int c) (parse_int l) "" "")
  | _ => None
  end.
Definition demo_serve (cfg : AdminAuthConfig) : request -> prog op reply :=
  serve (fun s => s) demo_marshal demo_unmarshal (fun l => l) "" None cfg.
Definition demo_run (cfg : AdminAuthConfig) (evs : list (event request outcome)) (w : World request) : sys op (World request) request reply :=
  run demo_exec (demo_serve cfg) tick evs (mkSystem w []).

Definition steps (i n : nat) : list (event request outcome) := replicate n (Step i fine).
Definition replies (s : sys op (World request) request reply) : list (option (Z * option Z)) :=
  map (fun t => match t.2 with Ret r => Some (rp_Status r, rp_RetryAfter r) | Do _ _ => None end) (sys_threads s).

Definition wrong (p : string) : request := LoginRequest "ada" p "10.0.0.7" "curl".

(** Three attempts at the same time, a fourth with the right password, and a fifth
    one a minute later: two passwords are compared in the first window. *)
Definition attack : list (event request outcome) :=
  [Spawn (wrong "a"); Spawn (wrong "b"); Spawn (wrong "c")] ++
  concat (replicate 8 [Step 0 fine; Step 1 fine; Step 2 fine]) ++ steps 0 20 ++ steps 1 20 ++ steps 2 20 ++
  [Spawn (wrong "correct horse")] ++ steps 3 20 ++ [Tick 60000000000; Spawn (wrong "d")] ++ steps 4 30.

Example attack_replies : replies (demo_run demo_cfg attack demo_world) =
  [Some (401, None); Some (401, None); Some (429, Some 60); Some (429, Some 60); Some (401, None)].
Proof. vm_compute. reflexivity. Qed.

Lemma guesses_bounded_witness :
  let w := sys_world (demo_run demo_cfg attack demo_world) in
  guesses "ada" "10.0.0.7" w = 3 /\ guesses "ada" "10.0.0.7" w <= 2 * (1 + (w_now w - 1000 * second) / (60 * second)).
Proof.
  split; [vm_compute; reflexivity|].
  apply (guesses_bounded (fun s => s) demo_marshal demo_unmarshal (fun l => l) String.eqb (fun _ p => p) "" None demo_cfg
           "ada" "10.0.0.7" 60 demo_world attack); first [vm_compute; reflexivity | vm_compute; done | done].
Defined.
