(* ===== verification/AdminSessions.v ===== *)
(** * Sessions and accounts

    What no interleaving of requests can do: bring back a session that was revoked
    or has expired, and change an account without an administrator.  The races that
    do exist are proved as concrete runs at the end. *)

From S2P Require Import Prelude GoStrings GoFloat Config Auth Threads AdminStore AdminAuth AdminLogin.

Open Scope string_scope.
Open Scope list_scope.
Open Scope Z_scope.

Section Sessions.
Context (sha256 : string -> string) (marshal : AdminSession -> string) (unmarshal : string -> option AdminSession)
  (sort_sessions : list AdminSession -> list AdminSession) (bcrypt_check : string -> string -> bool)
  (bcrypt_hash : string -> string -> string) (dummyHash : string) (breached : option (string -> bool)) (cfg : AdminAuthConfig).

Abbreviation step_op := (exec (C := request) bcrypt_check bcrypt_hash).
Abbreviation serve' := (serve sha256 marshal unmarshal sort_sessions dummyHash breached cfg).
Abbreviation machine := (sys op (World request) request reply).
Abbreviation run' := (run (A := reply) step_op serve' tick).

(** ** A dead session stays dead *)

Context (id : string).
Abbreviation skey := (sessionKey id).

(** The random bytes whose token has the identifier [id]. *)
Definition draws (b : string) : bool := String.eqb (token_hash sha256 (session_token b)) id.

Definition draw_count (evs : list (event request outcome)) : nat :=
  length (List.filter (fun ev => match ev with Step _ oc => draws (oc_random oc) | _ => false end) evs).

(** A credit is the right to create the session: drawing its token gives one. *)
Definition creation (R : Type) (o : op R) (g : nat) : (R -> nat -> Prop) -> Prop :=
  match o in op R return (R -> nat -> Prop) -> Prop with
  | RandRead => fun P => forall b, P b (if draws b then S g else g)
  | RedisSet k _ _ => fun P => if decide (k = skey) then exists g', g = S g' /\ forall r, P r g' else forall r, P r g
  | RedisIncr k _ => fun P => k <> skey /\ forall r, P r g
  | _ => fun P => forall r, P r g
  end.

Lemma creation_mono : spec_mono creation.
Proof using Type.
  intros R o g P Q H. destruct o; cbn [creation]; try (by eauto).
  - destruct (decide _); [|by eauto]. intros (g' & ? & ?). eauto.
  - intros [? ?]. eauto.
Qed.

Lemma creation_op R (o : op R) :
  match o with RandRead => False | RedisSet k _ _ | RedisIncr k _ => k <> skey | _ => True end -> steady creation (call_op o).
Proof using Type.
  intros H. apply steady_call. intros g P HP. destruct o; cbn [creation] in *; try done; auto. by rewrite decide_False.
Qed.

Lemma sessionKey_inj a b : sessionKey a = sessionKey b -> a = b.
Proof using Type. apply sapp_inj_l. Qed.

Lemma steady_CreateSession user ip ua : steady creation (CreateSession sha256 marshal cfg user ip ua).
Proof using Type.
  intros g Q HQ. unfold CreateSession, GenerateSessionToken. cbn [prog_bind call_op wp creation]. intros b now.
  unfold draws. destruct (String.eqb_spec (token_hash sha256 (session_token b)) id) as [E|Hne].
  all: destruct (decide (sessionKey (token_hash sha256 (session_token b)) = skey)) as [Ek|Nk].
  - exists g. split; [done|]. intros [e|[]]; cbn; auto.
  - by rewrite E in Nk.
  - by apply sessionKey_inj in Ek.
  - intros [e|[]]; cbn; auto.
Qed.

Ltac orderly := follow ltac:(apply creation_mono)
  ltac:(apply creation_op; first [exact I | key_ne])
  ltac:(idtac; match goal with |- steady _ (CreateSession _ _ _ _ _ _) => apply steady_CreateSession end).

Lemma steady_serve r : steady creation (serve' r).
Proof using Type. destruct r; orderly. Qed.

Definition stored (w : World request) : nat := match w_kv w !! skey with Some _ => 1 | None => 0 end.

Lemma foldr_delete_stored (m : gmap string (string * option Time)) ks x :
  foldr delete m ks !! skey = Some x -> m !! skey = Some x.
Proof using Type.
  induction ks as [|k ks IH]; simpl; [done|]. intros [_ H]%lookup_delete_Some. auto.
Qed.

(** Only a SET creates the key. *)
Lemma exec_stored who oc R (o : op R) w :
  match o with RedisSet k _ _ | RedisIncr k _ => k <> skey | _ => True end ->
  (stored (step_op who oc R o w).1 <= stored w)%nat.
Proof using Type.
  clear sha256 marshal unmarshal sort_sessions dummyHash breached cfg. intros H. assert (~ writes skey o -> (stored (step_op who oc R o w).1 <= stored w)%nat) as Hframe.
  { intros Hw. unfold stored. rewrite exec_kv by done. done. }
  assert (forall w', w_kv w' !! skey = w_kv w !! skey \/ (stored w' <= stored w)%nat -> (stored w' <= stored w)%nat) as Hs.
  { intros w' [E|E]; [|done]. unfold stored. by rewrite E. }
  destruct o; try (apply Hframe; cbn [writes]; tauto); cbn [exec].
  - destruct (remote_reply oc w (let '(w', b) := redis_setxx key val ttl w in (w', inr b : auth_error + bool)))
      as [->|(w' & -> & [->| ->])]; try done; simpl.
    all: destruct (setxx_cases key val ttl w) as [[_ ->]|[[x Hx] ->]]; try done; simpl.
    all: unfold stored; simpl; unfold kv_get in Hx; destruct (decide (key = skey)) as [->|Hne];
      [rewrite lookup_insert_eq; destruct (w_kv w !! skey); done || lia|by rewrite lookup_insert_ne].
  - assert (stored (redis_del keys w) <= stored w)%nat as Hd.
    { unfold stored. simpl. destruct (foldr delete (w_kv w) keys !! skey) eqn:E; [|lia].
      by rewrite (foldr_delete_stored _ _ _ E). }
    destruct (remote_reply oc w (redis_del keys w, inr () : auth_error + ())) as [->|(w' & -> & [->| ->])]; done.
Qed.

(** What is known of the draws so far: they are spent on credits or on the key. *)
Definition draw_upd (h : nat) (ev : event request outcome) : nat :=
  match ev with Step _ oc => if draws (oc_random oc) then S h else h | _ => h end.
Definition spent (h : nat) (w : World request) (credits : nat) : Prop := (credits + stored w <= h)%nat.

Lemma creation_sound : op_sound step_op draw_upd (fun _ => creation) spent (fun _ _ _ => True).
Proof using Type.
  intros i c e R o h w g rest P w' r _ HI Hs Ex.
  assert (w' = (step_op c e R o w).1) as Ew by (by rewrite Ex).
  pose proof (exec_stored c e R o w) as Hq. rewrite <- Ew in Hq.
  assert (forall n, (n + stored w' <= h)%nat -> spent (draw_upd h (Step i e)) w' n) as Hspent.
  { intros n Hn. unfold spent, draw_upd. destruct (draws (oc_random e)); lia. }
  assert ((stored w' <= stored w)%nat -> spent (draw_upd h (Step i e)) w' (g + rest)) as Hkeep.
  { intros Hle. apply Hspent. unfold spent in HI. lia. }
  destruct o; cbn [creation] in Hs; try (exists g; split; [apply Hs|by apply Hkeep, Hq]).
  - cbn [exec] in Ex. injection Ex as Ew' <-. exists (if draws (oc_random e) then S g else g). split; [apply Hs|].
    specialize (Hq I). unfold spent, draw_upd in *. destruct (draws (oc_random e)); lia.
  - destruct (decide (key = skey)) as [->|Hne]; [|exists g; split; [done|apply Hkeep, Hq; done]].
    destruct Hs as (g' & -> & HP). exists g'. split; [done|]. apply Hspent.
    assert (stored w' <= 1)%nat by (unfold stored; destruct (w_kv w' !! skey); lia).
    unfold spent in HI. lia.
  - destruct Hs as [Hne HP]. exists g. split; [done|by apply Hkeep, Hq].
Qed.

(** After a run without sessions at its start, every token of the session was drawn. *)
Lemma run_spent evs w0 : w_kv w0 !! skey = None ->
  sys_inv (fun _ => creation) spent (fun _ _ _ _ => True) (draw_count evs) (run' evs (mkSystem w0 [])).
Proof using Type.
  intros H0. assert (forall evs h, fold_left draw_upd evs h = (h + draw_count evs)%nat) as Hcount.
  { clear. intros evs. induction evs as [|ev evs IH]; intros h; [unfold draw_count; simpl; lia|]. cbn [fold_left]. rewrite IH.
    unfold draw_count, draw_upd. cbn [List.filter]. destruct ev as [c|i e|d]; try done.
    destruct (draws (oc_random e)); cbn [length]; lia. }
  rewrite <- (Nat.add_0_l (draw_count evs)), <- Hcount.
  eapply run_wp with (n := 0%nat) (K := fun _ _ _ => True); [apply creation_sound| | |simpl; lia| |by apply along_true|].
  - intros d h w n _ H. done.
  - intros ev h w n _ H. unfold spent, draw_upd in *. destruct ev; try done. destruct (draws _); lia.
  - intros i c w _ _. by apply steady_serve.
  - exists []. split; [done|]. split; [done|]. unfold spent, stored. simpl. rewrite H0. done.
Qed.

(** Once the token has been used, no thread can create the session any more. *)
Definition no_draw (ev : event request outcome) (_ _ : World request) : Prop :=
  match ev with Step _ oc => draws (oc_random oc) = false | _ => True end.

Lemma no_draw_along evs (s : machine) : draw_count evs = 0%nat -> along step_op serve' tick no_draw evs s.
Proof using Type.
  revert s. induction evs as [|ev evs IH]; intros s H; [done|]. unfold draw_count in H. cbn [List.filter] in H.
  split; [|apply IH]; destruct ev as [c|i e|d]; try done; simpl; destruct (draws (oc_random e)); done.
Qed.

Lemma settled_sound : op_sound step_op (fun h _ => h) (fun _ => creation) (fun (_ : unit) _ n => n = 0%nat) no_draw.
Proof using Type.
  intros i c e R o h w g rest P w' r HK HI Hs Ex. exists g. split; [|done]. assert (g = 0%nat) as -> by lia.
  destruct o; cbn [creation] in Hs; try apply Hs.
  - cbn [exec] in Ex. injection Ex as _ <-. specialize (Hs (oc_random e)). cbn [no_draw] in HK. by rewrite HK in Hs.
  - destruct (decide (key = skey)); [|done]. by destruct Hs as (? & ? & _).
Qed.

Lemma run_settled evs (s : machine) : draw_count evs = 0%nat ->
  sys_inv (fun _ => creation) (fun (_ : unit) _ n => n = 0%nat) (fun _ _ _ _ => True) tt s ->
  sys_inv (fun _ => creation) (fun (_ : unit) _ n => n = 0%nat) (fun _ _ _ _ => True) tt (run' evs s).
Proof using Type.
  intros Hd Hs. assert (fold_left (fun (h : unit) (_ : event request outcome) => h) evs tt = tt) as <- by (by case (fold_left (fun h _ => h) evs tt)).
  eapply run_wp with (n := 0%nat) (K := no_draw); [apply settled_sound|by intros d h w n _ ?|by intros ev h w n _ ?|lia| |by apply no_draw_along|done].
  intros i c w _ _. by apply steady_serve.
Qed.

(** ** While the session is dead *)

Definition dead (R : Type) (o : op R) (g : nat) : (R -> nat -> Prop) -> Prop :=
  match o in op R return (R -> nat -> Prop) -> Prop with
  | RandRead => fun P => forall b, draws b = false -> P b g
  | RedisSet k _ _ => fun P => k <> skey /\ forall r, P r g
  | RedisGet k => fun P => forall r, (k = skey -> r = inr None \/ exists e, r = inl e) -> P r g
  | RedisIncr k _ => fun P => k <> skey /\ forall r, P r g
  | _ => fun P => forall r, P r g
  end.

Lemma dead_mono : spec_mono dead.
Proof using Type.
  intros R o g P Q H. destruct o; cbn [dead]; try (by eauto); intros [? ?]; eauto.
Qed.

Lemma creation_dead {A} (p : prog op A) : wp creation p 0 (fun _ _ => True) -> wp dead p 0 (fun _ _ => True).
Proof using Type.
  induction p as [a|R o k IH]; [done|]. cbn [wp]. destruct o; cbn [creation dead]; intros H;
    try (intros; apply IH; by apply H).
  - intros b Hb. apply IH. specialize (H b). by rewrite Hb in H.
  - destruct (decide (key = skey)); [by destruct H as (? & ? & _)|]. split; [done|]. intros r. apply IH, H.
  - split; [apply H|]. intros r. apply IH, H.
Qed.

Lemma dead_exec who oc R (o : op R) w : kv_get w skey = None ->
  match o with RedisSet k _ _ | RedisIncr k _ => k <> skey | _ => True end ->
  kv_get (step_op who oc R o w).1 skey = None.
Proof using Type.
  clear sha256 marshal unmarshal sort_sessions dummyHash breached cfg. intros Hd H.
  assert (~ writes skey o -> kv_get (step_op who oc R o w).1 skey = None) as Hframe.
  { intros Hw. unfold kv_get. by rewrite exec_kv, exec_now. }
  destruct o; try (apply Hframe; cbn [writes]; tauto); cbn [exec].
  - destruct (decide (key = skey)) as [->|Hne]; [|by apply Hframe].
    unfold redis_setxx. rewrite Hd. unfold remote. by destruct (oc_fate oc).
  - destruct (decide (skey ∈ keys)) as [Hin|Hni]; [|by apply Hframe].
    assert (kv_get (redis_del keys w) skey = None) as Hdel.
    { unfold kv_get. simpl. assert (foldr delete (w_kv w) keys !! skey = None) as ->; [|done].
      clear -Hin. induction keys as [|k ks IH]; [by apply elem_of_nil in Hin|]. simpl.
      destruct (decide (k = skey)) as [->|Hne]; [apply lookup_delete_eq|]. rewrite lookup_delete_ne by done.
      apply elem_of_cons in Hin as [?|?]; [congruence|]. by apply IH. }
    unfold remote. by destruct (oc_fate oc).
Qed.

Lemma dead_sound : op_sound step_op (fun h _ => h) (fun _ => dead) (fun (_ : unit) w _ => kv_get w skey = None) no_draw.
Proof using Type.
  intros i c e R o h w g rest P w' r HK HI Hs Ex. exists g.
  assert (w' = (step_op c e R o w).1) as -> by (by rewrite Ex).
  pose proof (dead_exec c e R o w HI) as Hq.
  destruct o; cbn [dead] in Hs; try (split; [apply Hs|by apply Hq]);
    try (destruct Hs as [Hne HP]; by split; [apply HP|apply Hq]).
  - cbn [exec] in Ex. injection Ex as <-. exact HK.
  - intros ->. cbn [exec] in Ex. rewrite HI in Ex.
    unfold remote in Ex. destruct (oc_fate e); injection Ex as <-; eauto.
Qed.

(** The requests that present the token of the session are refused. *)
Definition presents (r : request) : bool :=
  match r with
  | AdminRequest h _ _ => String.eqb (token_hash sha256 (extractAdminToken h)) id
  | LoginRequest _ _ _ _ => false
  end.

Lemma dead_request r : presents r = true -> wp dead (serve' r) 0 (fun a _ => rp_Status a = 401).
Proof using Type.
  destruct r as [|hdr ip e]; [done|]. intros E%String.eqb_eq.
  assert (forall next, wp dead (RequireAuth sha256 marshal unmarshal cfg hdr next) 0 (fun a _ => rp_Status a = 401)) as H.
  { intros next. unfold RequireAuth. destruct (String.eqb _ ""); [done|]. unfold ValidateSession.
    destruct (has_prefix "pgadmin_" (extractAdminToken hdr)); [|done]. cbn [negb]. rewrite E.
    unfold Get. cbn [prog_bind call_op wp dead]. intros r Hr. by destruct (Hr eq_refl) as [->|[e' ->]]. }
  cbn [serve]. unfold admin_route. destruct e; apply H.
Qed.
End Sessions.

Lemma draw_count_app sha256 id evs evs' : draw_count sha256 id (evs ++ evs') = (draw_count sha256 id evs + draw_count sha256 id evs')%nat.
Proof. unfold draw_count. by rewrite List.filter_app, length_app. Qed.

(** C14. Once a session that existed is gone, it never comes back, and every later request
    that presents its token is answered 401, whatever happens at the same time. *)
Theorem dead_session_stays_dead sha256 marshal unmarshal sort_sessions bcrypt_check bcrypt_hash dummyHash breached cfg
  (id : string) (w0 : World request) (evs1 evs2 evs3 : list (event request outcome)) :
  let run' := run (exec bcrypt_check bcrypt_hash) (serve sha256 marshal unmarshal sort_sessions dummyHash breached cfg) tick in
  let s1 := run' evs1 (mkSystem w0 []) in let s2 := run' evs2 s1 in let s3 := run' evs3 s2 in
  w_kv w0 !! sessionKey id = None -> (draw_count sha256 id (evs1 ++ evs2 ++ evs3) <= 1)%nat ->
  kv_get (sys_world s1) (sessionKey id) <> None -> kv_get (sys_world s2) (sessionKey id) = None ->
  kv_get (sys_world s3) (sessionKey id) = None /\
  forall i r a, (length (sys_threads s2) <= i)%nat -> sys_threads s3 !! i = Some (r, Ret a) -> presents sha256 id r = true ->
    rp_Status a = 401.
Proof.
  intros run' s1 s2 s3 H0 Hdraws Hlive Hdead. rewrite !draw_count_app in Hdraws.
  destruct (run_spent sha256 marshal unmarshal sort_sessions bcrypt_check bcrypt_hash dummyHash breached cfg id evs1 w0 H0)
    as (gs & Hlen & Hwp & HI). fold run' s1 in Hlen, Hwp, HI.
  assert (stored id (sys_world s1) = 1%nat) as Hst.
  { unfold stored. unfold kv_get in Hlive. by destruct (w_kv (sys_world s1) !! sessionKey id). }
  unfold spent in HI. rewrite Hst in HI.
  destruct (run_settled sha256 marshal unmarshal sort_sessions bcrypt_check bcrypt_hash dummyHash breached cfg id evs2 s1)
    as (gs2 & Hlen2 & Hwp2 & HI2); [lia|exists gs; split; [done|]; split; [done|]; lia|].
  fold run' s2 in Hlen2, Hwp2, HI2.
  set (F := fun (i : nat) r a (_ : nat) => (length (sys_threads s2) <= i)%nat -> presents sha256 id r = true -> rp_Status a = 401).
  assert (sys_inv (fun _ => dead sha256 id) (fun (_ : unit) w _ => kv_get w (sessionKey id) = None) F tt s3) as Hinv.
  { replace tt with (fold_left (fun (h : unit) (_ : event request outcome) => h) evs3 tt) by (by case (fold_left (fun h _ => h) evs3 tt)).
    eapply run_wp with (n := length (sys_threads s2)) (K := no_draw sha256 id); [apply dead_sound| |by intros ev h w n _ ?|done| |apply no_draw_along; lia|].
    - intros d h w n _ H. unfold kv_get in *. simpl. destruct (w_kv w !! sessionKey id) as [x|]; [|done]. simpl in *.
      by apply unexpired_later.
    - intros i c w Hi _. destruct (presents sha256 id c) eqn:Hp.
      + eapply wp_mono; [apply dead_mono| |by apply dead_request]. by intros a g Ha _ _.
      + eapply wp_mono; [apply dead_mono| |apply creation_dead, steady_serve; done]. intros a g _ _ H. congruence.
    - exists gs2. split; [done|]. split; [|done]. intros i c p g Hi Hg.
      assert (g = 0%nat) as ->.
      { destruct (list_sum_insert gs2 i 0%nat Hg) as (rest & E & _). lia. }
      eapply wp_mono; [apply dead_mono| |apply creation_dead; eauto]. intros a g _ Hle.
      apply lookup_lt_Some in Hi. lia. }
  split; [by destruct Hinv as (? & _ & _ & ?)|]. intros i r a Hi Ht Hp.
  destruct (sys_inv_finished i Hinv Ht) as [g Hg]. by apply Hg.
Qed.

(** ** Concrete runs *)

Definition admin_user : AdminUser := mkAdminUser "u0" "root" "battery staple" "admin" true false.
Definition office : World request :=
  mkWorld (1000 * second) ∅ ∅ {["root" := admin_user; "ada" := demo_user]} [] [].
Definition login_as (name pw : string) : request := LoginRequest name pw "10.0.0.7" "curl".
Definition with_token (b : string) (e : endpoint) : request := AdminRequest ("Bearer " +:+ session_token b) "10.0.0.7" e.
Definition drawing (i n : nat) (b : string) : list (event request outcome) := replicate n (Step i (mkOutcome Answered b)).
Definition ada_id : string := token_hash (fun s => s) (session_token "ada").

Definition live_session : list (event request outcome) :=
  [Spawn (login_as "ada" "correct horse")] ++ steps 0 9 ++ drawing 0 1 "ada" ++ steps 0 10 ++
  [Spawn (with_token "ada" EpWhoami)] ++ steps 1 10.
Definition log_out : list (event request outcome) := [Spawn (with_token "ada" EpLogout)] ++ steps 2 20.
Definition come_back : list (event request outcome) := [Spawn (with_token "ada" EpWhoami)] ++ steps 3 10.

Lemma dead_session_stays_dead_witness :
  let s := demo_run demo_cfg (live_session ++ log_out ++ come_back) office in
  replies s = [Some (200, None); Some (200, None); Some (200, None); Some (401, None)] /\
  kv_get (sys_world s) (sessionKey ada_id) = None.
Proof.
  split; [vm_compute; reflexivity|]. unfold demo_run, demo_exec, demo_serve. rewrite !run_app.
  apply (dead_session_stays_dead (fun s => s) demo_marshal demo_unmarshal (fun l => l) String.eqb (fun _ p => p) "" None demo_cfg
    ada_id office live_session log_out come_back); [reflexivity|vm_compute; lia|vm_compute; discriminate|vm_compute; reflexivity].
Defined.

(** *** Races and failures *)

(** A login that has compared the password when its account is disabled opens a
    session afterwards: the session of a disabled account works. *)
Definition disable_race : list (event request outcome) :=
  [Spawn (login_as "root" "battery staple")] ++ steps 0 9 ++ drawing 0 1 "root" ++ steps 0 10 ++
  [Spawn (login_as "ada" "correct horse")] ++ steps 1 10 ++
  [Spawn (with_token "root" (EpSetUserEnabled "ada" false))] ++ steps 2 20 ++
  drawing 1 1 "ada" ++ steps 1 10 ++
  [Spawn (with_token "ada" EpWhoami)] ++ steps 3 10.

Theorem disabled_account_keeps_session :
  let s := demo_run demo_cfg disable_race office in
  us_Enabled <$> w_users (sys_world s) !! "ada" = Some false /\
  replies s = [Some (200, None); Some (200, None); Some (200, None); Some (200, None)].
Proof. vm_compute. split; reflexivity. Qed.

(** A logout whose DEL is refused by Redis answers 200, and the session stays. *)
Theorem logout_hides_failure :
  let s := demo_run demo_cfg (live_session ++ [Spawn (with_token "ada" EpLogout)] ++ steps 2 5 ++
             [Step 2 (mkOutcome Refused "")] ++ steps 2 10 ++ come_back) office in
  replies s = [Some (200, None); Some (200, None); Some (200, None); Some (200, None)].
Proof. vm_compute. reflexivity. Qed.

(** Successful logins count against their address: after thirty of them the right
    password is refused. *)
Definition log_in_again (i : nat) : list (event request outcome) := [Spawn (login_as "ada" "correct horse")] ++ steps i 30.

Theorem successes_lock_the_address :
  let s := demo_run demo_cfg (concat (map log_in_again (seq 0 31))) office in
  replies s = replicate 30 (Some (200, None)) ++ [Some (429, Some 60)].
Proof. vm_compute. reflexivity. Qed.
