(* ===== verification/AdminAccounts.v ===== *)
(** * Accounts need an administrator

    Roles and accounts change only through sessions that have the permission
    [user:manage].  Where no account and no session has it, no schedule of requests
    creates one or changes an account, except for the password of its owner. *)

From S2P Require Import Prelude GoStrings GoFloat Config Auth Threads AdminStore AdminAuth AdminLogin AdminSessions.

Open Scope string_scope.
Open Scope list_scope.
Open Scope Z_scope.

Section Accounts.
Context (sha256 : string -> string) (marshal : AdminSession -> string) (unmarshal : string -> option AdminSession)
  (sort_sessions : list AdminSession -> list AdminSession) (bcrypt_check : string -> string -> bool)
  (bcrypt_hash : string -> string -> string) (dummyHash : string) (breached : option (string -> bool)) (cfg : AdminAuthConfig).

(** A role comes back from JSON as it was written. *)
Hypothesis marshal_role : forall s s', unmarshal (marshal s) = Some s' -> as_Role s' = as_Role s.

Abbreviation step_op := (exec (C := request) bcrypt_check bcrypt_hash).
Abbreviation serve' := (serve sha256 marshal unmarshal sort_sessions dummyHash breached cfg).
Abbreviation machine := (sys op (World request) request reply).
Abbreviation run' := (run (A := reply) step_op serve' tick).

Definition manages (role : string) : bool := HasPermission role PermUserManage.

(** Stored text that is not the session of an administrator, and an account that
    cannot open one. *)
Definition harmless (v : string) : Prop := forall s, unmarshal v = Some s -> manages (as_Role s) = false.
Definition plain (u : AdminUser) : Prop := us_Enabled u = true -> manages (us_Role u) = false.

(** What an account is, apart from its password. *)
Definition profile (u : AdminUser) : AdminUser := mkAdminUser (us_ID u) (us_Username u) "" (us_Role u) (us_Enabled u) false.
Definition accounts (w : World request) : gmap string AdminUser := profile <$> w_users w.

Definition powerless (R : Type) (o : op R) (g : nat) : (R -> nat -> Prop) -> Prop :=
  match o in op R return (R -> nat -> Prop) -> Prop with
  | RedisSet k v _ => fun P => harmless v /\ forall r, P r g
  | RedisSetXX k v _ => fun P => harmless v /\ forall r, P r g
  | RedisIncr k _ => fun P => (forall i, k <> sessionKey i) /\ forall r, P r g
  | RedisGet k => fun P => forall r, (forall i v, k = sessionKey i -> r = inr (Some v) -> harmless v) -> P r g
  | DBGetAdminUser _ => fun P => forall r, (forall u, r = inr u -> plain u) -> P r g
  | DBCreateUser _ _ _ | DBSetEnabled _ _ | DBDeleteUser _ => fun P => False
  | _ => fun P => forall r, P r g
  end.

Lemma powerless_mono : spec_mono powerless.
Proof using Type.
  intros R o g P Q H. destruct o; cbn [powerless]; try (by eauto); intros [? ?]; eauto.
Qed.

Lemma powerless_op R (o : op R) :
  match o with
  | RedisSet _ _ _ | RedisSetXX _ _ _ | DBCreateUser _ _ _ | DBSetEnabled _ _ | DBDeleteUser _ => False
  | RedisIncr k _ => forall i, k <> sessionKey i
  | _ => True
  end -> steady powerless (call_op o).
Proof using Type.
  intros H. apply steady_call. intros g P HP. destruct o; cbn [powerless] in *; try done; auto.
Qed.

Ltac docile := follow ltac:(apply powerless_mono)
  ltac:(apply powerless_op; first [exact I | intros ?; key_ne]) fail.

Lemma marshal_harmless s : manages (as_Role s) = false -> harmless (marshal s).
Proof using marshal_role. intros H s' Hs. by rewrite (marshal_role s s' Hs). Qed.

Lemma powerless_CreateSession user ip ua : manages (us_Role user) = false ->
  steady powerless (CreateSession sha256 marshal cfg user ip ua).
Proof using marshal_role.
  intros Hu g Q HQ. unfold CreateSession, GenerateSessionToken. cbn [prog_bind call_op wp powerless]. intros b now.
  split; [by apply marshal_harmless|]. intros [e|[]]; cbn; auto.
Qed.

Lemma steady_get_user {B} u (k : auth_error + AdminUser -> prog op B) :
  (forall r, (forall a, r = inr a -> plain a) -> steady powerless (k r)) -> steady powerless (prog_bind k (call_op (DBGetAdminUser u))).
Proof using Type. intros H g Q HQ. cbn [prog_bind call_op wp powerless]. intros r Hr. by apply H. Qed.

Lemma steady_credentials u p ip ua n : steady powerless (check_credentials sha256 marshal dummyHash cfg u p ip ua n).
Proof using marshal_role.
  unfold check_credentials. apply steady_get_user. intros [e|user] Hu; [docile|].
  destruct (us_Enabled user) eqn:He; cbn [negb]; [|docile].
  pose proof (powerless_CreateSession user ip ua (Hu user eq_refl He)). docile.
Qed.

Lemma steady_login u p ip ua : steady powerless (Login sha256 marshal dummyHash cfg u p ip ua).
Proof using marshal_role.
  follow ltac:(apply powerless_mono) ltac:(apply powerless_op; first [exact I | intros ?; key_ne])
    ltac:(idtac; match goal with |- steady _ (check_credentials _ _ _ _ _ _ _ _ _) => apply steady_credentials end).
Qed.

Lemma steady_get_session {B} id (k : auth_error + string -> prog op B) :
  (forall r, (forall v, r = inr v -> harmless v) -> steady powerless (k r)) ->
  steady powerless (prog_bind k (Get (sessionKey id))).
Proof using Type.
  intros H g Q HQ. unfold Get. cbn [prog_bind call_op wp powerless]. intros r Hr. apply H; [|done].
  intros v Hv. destruct r as [e|[v'|]]; simplify_eq. by eapply Hr.
Qed.

Lemma steady_touch {B} key sess now ttl (k : auth_error + bool -> prog op B) : manages (as_Role sess) = false ->
  (forall r, steady powerless (k r)) -> steady powerless (prog_bind k (call_op (RedisSetXX key (marshal (touch sess now)) ttl))).
Proof using marshal_role.
  intros Hs H g Q HQ. cbn [prog_bind call_op wp powerless]. split; [by apply marshal_harmless|]. intros r. by apply H.
Qed.

(** A request that is let through has the session of someone without the permission. *)
Lemma steady_RequireAuth hdr next : (forall sess, manages (as_Role sess) = false -> steady powerless (next sess)) ->
  steady powerless (RequireAuth sha256 marshal unmarshal cfg hdr next).
Proof using marshal_role.
  intros Hn. unfold RequireAuth. destruct (String.eqb _ ""); [apply steady_ret|].
  set (k := fun r : auth_error + AdminSession => match r with inl _ => Ret (status 401) | inr sess => next sess end).
  assert (forall (p : prog op (auth_error + AdminSession)), (forall g Q, (forall e, Q (inl e) g) ->
    (forall s, manages (as_Role s) = false -> Q (inr s) g) -> wp powerless p g Q) -> steady powerless (prog_bind k p)) as Hk.
  { intros p Hp g Q HQ. apply wp_bind; [apply powerless_mono|]. apply Hp; [by intros; apply HQ|]. intros s Hs. by apply Hn. }
  apply Hk. intros g Q He Hs. unfold ValidateSession. destruct (has_prefix _ _); cbn [negb]; [|apply He].
  set (id := token_hash sha256 (extractAdminToken hdr)).
  unfold Get. cbn [prog_bind call_op wp powerless]. intros r Hr. destruct r as [e|[v|]]; [apply He| |apply He].
  specialize (Hr id v eq_refl eq_refl). destruct (unmarshal v) as [sess|] eqn:Hu; [|apply He]. apply Hr in Hu.
  cbn [prog_bind call_op wp powerless]. intros now.
  assert (forall e, wp powerless (prog_bind (fun _ => Ret (inl e)) (RevokeSession sha256 unmarshal id)) g Q) as Hrev.
  { intros e. apply wp_steady_bind; [apply powerless_mono|docile|]. intros. apply He. }
  destruct (_ <? _); [apply Hrev|]. destruct (_ <? _); [apply Hrev|]. destruct (_ <=? 0); [apply Hrev|].
  cbn [prog_bind call_op wp powerless]. split; [by apply marshal_harmless|].
  intros [e|[|]]; [apply He|by apply Hs|apply He].
Qed.

Lemma steady_RequirePermission next sess : manages (as_Role sess) = false ->
  steady powerless (RequirePermission PermUserManage next sess).
Proof using Type.
  intros H. unfold RequirePermission. unfold manages in H. rewrite H. apply steady_ret.
Qed.

Lemma powerless_serve r : steady powerless (serve' r).
Proof using marshal_role.
  destruct r as [u p ip ua|hdr ip e]; cbn [serve].
  - unfold handleLogin. follow ltac:(apply powerless_mono) ltac:(apply powerless_op; first [exact I | intros ?; key_ne])
      ltac:(idtac; match goal with |- steady _ (Login _ _ _ _ _ _ _ _) => apply steady_login end).
  - unfold admin_route. destruct e; apply steady_RequireAuth; intros sess Hs;
      try (by apply steady_RequirePermission); unfold RequirePermission; docile.
Qed.

(** ** Soundness *)

Definition no_administrator (a0 : gmap string AdminUser) (_ : unit) (w : World request) (_ : nat) : Prop :=
  accounts w = a0 /\ forall i v e, w_kv w !! sessionKey i = Some (v, e) -> harmless v.

Lemma user_by_id_Some (w : World request) id u : user_by_id w id = Some u -> exists n, w_users w !! n = Some u.
Proof using Type.
  unfold user_by_id. intros ((i & x) & Hf & ->)%fmap_Some. apply list_find_Some in Hf as (Hl & _).
  apply list_elem_of_lookup_2, list_elem_of_fmap in Hl as ((n & u') & -> & Hin).
  exists n. simpl. by apply elem_of_map_to_list.
Qed.

Lemma accounts_lookup w n u : accounts w !! n = Some u -> exists u', w_users w !! n = Some u' /\ profile u' = u.
Proof using Type. unfold accounts. rewrite lookup_fmap. intros (u' & ? & ?)%fmap_Some. eauto. Qed.

(** Every account is stored under its name and none of them can manage users. *)
Definition plain_accounts (a0 : gmap string AdminUser) : Prop :=
  forall n u, a0 !! n = Some u -> us_Username u = n /\ plain u.

Lemma session_written (w : World request) k v ttl : harmless v ->
  (forall i v e, w_kv w !! sessionKey i = Some (v, e) -> harmless v) ->
  forall i v' e, w_kv (redis_set k v ttl w) !! sessionKey i = Some (v', e) -> harmless v'.
Proof using Type.
  intros Hv H i v' e. simpl. destruct (decide (k = sessionKey i)) as [->|Hne].
  - rewrite lookup_insert_eq. intros [= <- _]. done.
  - rewrite lookup_insert_ne by done. apply H.
Qed.

Lemma powerless_sound a0 : plain_accounts a0 ->
  op_sound step_op (fun h _ => h) (fun _ => powerless) (no_administrator a0) (fun _ _ _ => True).
Proof using Type.
  clear sha256 marshal sort_sessions dummyHash breached cfg marshal_role.
  intros Hplain i c e R o [] w g rest P w' r _ [Ha Hk] Hs Ex. exists g.
  assert (w' = (step_op c e R o w).1) as Ew by (by rewrite Ex).
  assert ((forall i, ~ writes (sessionKey i) o) -> ~ writes_accounts o -> no_administrator a0 tt w' (g + rest)) as Hframe.
  { intros Hw Hwa. rewrite Ew. split; [unfold accounts; by rewrite exec_users|].
    intros j v x. rewrite exec_kv by done. apply Hk. }
  destruct o; cbn [powerless] in Hs;
    try (split; [by apply Hs|]; apply Hframe; [intros j; cbn [writes]; tauto|cbn [writes_accounts]; tauto]).
  - destruct Hs as [Hv HP]. split; [done|]. cbn [exec] in Ew.
    destruct (remote_world e w (redis_set key val ttl w, inr () : auth_error + ())) as [E|E]; rewrite Ew, E; [by split|].
    split; [done|]. by apply session_written.
  - destruct Hs as [Hv HP]. split; [done|]. cbn [exec] in Ew.
    match type of Ew with _ = (remote _ _ ?res).1 => destruct (remote_world e w res) as [E|E]; rewrite Ew, E; [by split|] end.
    destruct (setxx_cases key val ttl w) as [[_ ->]|[_ ->]]; [by split|]. split; [done|]. by apply session_written.
  - split; [|apply Hframe; cbn; tauto]. apply Hs. intros j v -> ->. cbn [exec] in Ex. apply remote_inr in Ex.
    simpl in Ex. injection Ex as Ex. unfold kv_get in Ex. apply fmap_Some in Ex as ([v' x] & Hx & ->).
    apply bind_Some in Hx as (y & Hy & Hx). unfold unexpired in Hx. repeat case_match; simplify_eq; by eapply Hk.
  - split; [done|]. cbn [exec] in Ew. destruct (remote_world e w (redis_del keys w, inr () : auth_error + ())) as [E|E]; rewrite Ew, E; [by split|].
    split; [done|]. intros j v x. simpl. intros Hj. apply (Hk j v x). clear -Hj.
    induction keys as [|k ks IH]; [done|]. simpl in Hj. apply lookup_delete_Some in Hj as [_ ?]. auto.
  - destruct Hs as [Hne HP]. split; [done|]. apply Hframe; [|cbn; tauto]. intros j. cbn [writes]. apply Hne.
  - split; [|apply Hframe; cbn; tauto]. apply Hs. intros u ->. cbn [exec] in Ex. apply remote_inr in Ex.
    unfold GetAdminUser in Ex. simpl in Ex. destruct (w_users w !! username) as [u'|] eqn:Hu; [|done]. injection Ex as ->.
    assert (a0 !! username = Some (profile u)) as Ha0 by (rewrite <- Ha; unfold accounts; by rewrite lookup_fmap, Hu).
    destruct (Hplain _ _ Ha0) as [_ Hp]. exact Hp.
  - done.
  - done.
  - done.
  - split; [done|]. cbn [exec] in Ew.
    destruct (remote_world e w (UpdateAdminUserPassword id hash mustChange w)) as [E|E]; rewrite Ew, E; [by split|].
    unfold UpdateAdminUserPassword. destruct (user_by_id w id) as [u|] eqn:Hu; [|by split].
    apply user_by_id_Some in Hu as [n Hn].
    assert (a0 !! n = Some (profile u)) as Ha0 by (rewrite <- Ha; unfold accounts; by rewrite lookup_fmap, Hn).
    destruct (Hplain _ _ Ha0) as [Hname _]. simpl in Hname. split; [|done]. simpl. unfold accounts. simpl.
    rewrite fmap_insert, <- Ha. unfold accounts. rewrite Hname. apply insert_id. rewrite lookup_fmap, Hn. cbn. unfold profile. simpl. by rewrite Hname.
Qed.
End Accounts.

(** C15. Without an administrator, in an account or in a session, no account is created,
    removed, enabled, disabled or given another role. *)
Theorem accounts_need_an_administrator sha256 marshal unmarshal sort_sessions bcrypt_check bcrypt_hash dummyHash breached cfg
  (w0 : World request) (evs : list (event request outcome)) :
  (forall s s', unmarshal (marshal s) = Some s' -> as_Role s' = as_Role s) ->
  plain_accounts (accounts w0) ->
  (forall i v e, w_kv w0 !! sessionKey i = Some (v, e) -> harmless unmarshal v) ->
  let w := sys_world (run (exec bcrypt_check bcrypt_hash)
                          (serve sha256 marshal unmarshal sort_sessions dummyHash breached cfg) tick evs (mkSystem w0 [])) in
  accounts w = accounts w0 /\ forall i v e, w_kv w !! sessionKey i = Some (v, e) -> harmless unmarshal v.
Proof.
  intros Hrole Hplain Hk w.
  assert (sys_inv (fun _ => powerless unmarshal) (no_administrator unmarshal (accounts w0)) (fun _ _ _ _ => True) tt
    (run (exec bcrypt_check bcrypt_hash) (serve sha256 marshal unmarshal sort_sessions dummyHash breached cfg) tick evs (mkSystem w0 [])))
    as (gs & _ & _ & H); [|exact H].
  replace tt with (fold_left (fun (h : unit) (_ : event request outcome) => h) evs tt) by (by case (fold_left (fun h _ => h) evs tt)).
  eapply run_wp with (n := 0%nat) (K := fun _ _ _ => True); [by apply powerless_sound| | |simpl; lia| |by apply along_true|].
  - by intros d h w1 n _ H.
  - by intros ev h w1 n _ H.
  - intros i c w1 _ _. by apply powerless_serve.
  - exists []. split; [done|]. split; [done|]. by split.
Qed.

(** ** A concrete run *)

Definition viewer : AdminUser := mkAdminUser "u2" "eve" "sesame open now" "viewer" true false.
Definition viewer_world : World request := mkWorld (1000 * second) ∅ ∅ {["eve" := viewer]} [] [].
Definition eve_login : request := LoginRequest "eve" "sesame open now" "10.0.0.9" "curl".
Definition eve_token : string := "Bearer " +:+ session_token "eve".
Definition drawn (b : string) : outcome := mkOutcome Answered b.

(** The stored text of a session is its role; Eve is the only user. *)
Definition eve_session (role : string) : option AdminSession :=
  Some (mkAdminSession "" "u2" "eve" role (1000 * second) (1000 * second) "" "").

(** Eve logs in, tries to create an administrator, and changes her password. *)
Definition escalation : list (event request outcome) :=
  [Spawn eve_login] ++ replicate 30 (Step 0 (drawn "eve")) ++
  [Spawn (AdminRequest eve_token "10.0.0.9" (EpCreateUser "mallory" "sesame open again" "admin"))] ++ steps 1 30 ++
  [Spawn (AdminRequest eve_token "10.0.0.9" (EpChangePassword "eve" "sesame open now" "sesame open again"))] ++ steps 2 30.

Definition eve_run : sys op (World request) request reply :=
  run demo_exec (serve (fun s => s) as_Role eve_session (fun l => l) "" None demo_cfg) tick escalation (mkSystem viewer_world []).

Lemma accounts_need_an_administrator_witness :
  replies eve_run = [Some (200, None); Some (403, None); Some (200, None)] /\
  us_PasswordHash <$> w_users (sys_world eve_run) !! "eve" = Some "sesame open again" /\
  accounts (sys_world eve_run) = accounts viewer_world.
Proof.
  split; [vm_compute; reflexivity|]. split; [vm_compute; reflexivity|].
  apply (accounts_need_an_administrator (fun s => s) as_Role eve_session (fun l => l) String.eqb (fun _ p => p) "" None demo_cfg
    viewer_world escalation).
  - intros s s' [= <-]. reflexivity.
  - intros n u H. assert (accounts viewer_world = {["eve" := profile viewer]}) as E by reflexivity. rewrite E in H.
    apply lookup_singleton_Some in H as [<- <-]. split; [done|]. intros _. reflexivity.
  - intros i v e H. done.
Defined.
