(* ===== verification/Sse.v ===== *)
(** * Server-sent events (src/internal/sse/reader.go, writer.go)

    The reader works on the bytes that are left of a response body and on the error
    its connection ends with; the writer on what has been sent.  [Next] is a loop
    over lines: it is total ([Next_total]), and it reads back what the writer wrote
    ([sse_roundtrip]). *)

From S2P Require Import Prelude GoStrings.

Open Scope string_scope.
Open Scope list_scope.
Open Scope Z_scope.

(** ** Data *)

Record Event := mkEvent { ev_ID : string; ev_Name : string; ev_Data : string }.

Inductive sse_error := EOF | ErrEventTooLarge | ErrRead (msg : string).

Definition DefaultMaxEventBytes : Z := 16 * 1024 * 1024.

(** The bytes not yet read, and how the stream ends. *)
Record Reader := mkReader { rd_rest : string; rd_end : sse_error; rd_maxEventBytes : Z }.

Definition NewReaderWithLimit (body : string) (ending : sse_error) (maxEventBytes : Z) : Reader :=
  mkReader body ending (if maxEventBytes <=? 0 then DefaultMaxEventBytes else maxEventBytes).

Definition NewReader (body : string) (ending : sse_error) : Reader := NewReaderWithLimit body ending DefaultMaxEventBytes.

(** ** Reader *)

Definition is_crlf (c : ascii) : bool := (byte_val c =? 13) || (byte_val c =? 10).

(** [bufio.Reader.ReadBytes] up to a newline: the line with its newline, or all
    that is left with the error. *)
Definition ReadLine (s : string) : string * string * bool :=
  match index newline s with
  | Some i => (stake (S i) s, sdrop (S i) s, false)
  | None => (s, "", true)
  end.

(** The event under construction: the fields, the data lines, and whether a field
    has been seen. *)
Record partial := mkPartial { pa_ID : string; pa_Name : string; pa_Data : list string; pa_have : bool }.

Definition no_event : partial := mkPartial "" "" [] false.
Definition finish (p : partial) : Event := mkEvent (pa_ID p) (pa_Name p) (join newline (pa_Data p)).

(** One field of an event; unknown fields are ignored. *)
Definition field_line (line : string) (p : partial) : partial :=
  let '(field, value, _) := cut line ":" in
  let value := trim_prefix value " " in
  if String.eqb field "id" then mkPartial value (pa_Name p) (pa_Data p) true
  else if String.eqb field "event" then mkPartial (pa_ID p) value (pa_Data p) true
  else if String.eqb field "data" then mkPartial (pa_ID p) (pa_Name p) (pa_Data p ++ [value]) true
  else p.

Fixpoint next_loop (fuel : nat) (ending : sse_error) (max : Z) (s : string) (p : partial) (total : Z) :
  option (string * (sse_error + Event)) :=
  match fuel with
  | O => None
  | S f =>
      let '(line, rest, err) := ReadLine s in
      if String.eqb line "" && err then
        Some (rest, if pa_have p && match ending with EOF => true | _ => false end then inr (finish p) else inl ending)
      else
        let total := total + slen line in
        if (0 <? max) && (max <? total) then Some (rest, inl ErrEventTooLarge)
        else
          let line := trim_right is_crlf line in
          match line with
          | EmptyString => if pa_have p then Some (rest, inr (finish p)) else next_loop f ending max rest p total
          | String c _ =>
              if Ascii.eqb c ":" then next_loop f ending max rest p total
              else
                let p := field_line line p in
                if err then Some (rest, if pa_have p then inr (finish p) else inl ending)
                else next_loop f ending max rest p total
          end
  end.

(** Each round consumes a line; one more finds the end. *)
Definition read_fuel (s : string) : nat := S (S (String.length s)).

Definition Next (r : Reader) : option (Reader * (sse_error + Event)) :=
  match next_loop (read_fuel (rd_rest r)) (rd_end r) (rd_maxEventBytes r) (rd_rest r) no_event 0 with
  | Some (rest, res) => Some (mkReader rest (rd_end r) (rd_maxEventBytes r), res)
  | None => None
  end.

(** What a client does: read until an error. *)
Fixpoint ReadAll (fuel : nat) (r : Reader) : list Event * option sse_error :=
  match fuel with
  | O => ([], None)
  | S f =>
      match Next r with
      | Some (r', inr e) => let '(es, err) := ReadAll f r' in (e :: es, err)
      | Some (_, inl err) => ([], Some err)
      | None => ([], None)
      end
  end.

(** ** Writer *)

(** The response: its headers, the bytes sent, how many flushes, and whether the
    connection is broken. *)
Record ResponseWriter := mkRW { rw_Header : gmap string string; rw_out : string; rw_flushed : Z; rw_broken : bool }.
Record Writer := mkWriter { wr_w : ResponseWriter; wr_started : bool }.

Definition NewWriter (w : ResponseWriter) (flusher : bool) : option Writer := if flusher then Some (mkWriter w false) else None.

Definition Writer_start (s : Writer) : Writer :=
  if wr_started s then s
  else
    let w := wr_w s in
    let h := header_set (header_set (header_set (header_set (rw_Header w) "Content-Type" "text/event-stream")
               "Cache-Control" "no-cache") "Connection" "keep-alive") "X-Accel-Buffering" "no" in
    mkWriter (mkRW h (rw_out w) (rw_flushed w) (rw_broken w)) true.

Definition Started (s : Writer) : bool := wr_started s.

(** [w.Write] and [Flush]. *)
Definition send (b : string) (s : Writer) : Writer * option sse_error :=
  let w := wr_w s in
  if rw_broken w then (s, Some (ErrRead "write: broken pipe"))
  else (mkWriter (mkRW (rw_Header w) (rw_out w +:+ b) (rw_flushed w + 1) (rw_broken w)) (wr_started s), None).

Definition raw (b : string) (s : Writer) : Writer * option sse_error :=
  send ("data: " +:+ b +:+ newline +:+ newline) (Writer_start s).

(** [marshalled] is the JSON text of the value, or the error of [json.Marshal]. *)
Definition Writer_Data (marshalled : sse_error + string) (s : Writer) : Writer * option sse_error :=
  match marshalled with
  | inl e => (s, Some e)
  | inr b => raw b s
  end.

Definition Done (s : Writer) : Writer * option sse_error := raw "[DONE]" s.

Definition event_bytes (e : Event) : string :=
  (if String.eqb (ev_ID e) "" then "" else "id: " +:+ ev_ID e +:+ newline) +:+
  (if String.eqb (ev_Name e) "" then "" else "event: " +:+ ev_Name e +:+ newline) +:+
  concat_strings (map (fun line => "data: " +:+ line +:+ newline) (split_byte (byte_at 10) (ev_Data e))) +:+ newline.

Definition Writer_Event (e : Event) (s : Writer) : Writer * option sse_error := send (event_bytes e) (Writer_start s).

Example read_ex : ReadAll 10 (NewReader ("event: a" +:+ newline +:+ "data: 1" +:+ newline +:+ "data:2" +:+ newline +:+ newline +:+
    ": ping" +:+ newline +:+ newline +:+ "data: [DONE]") EOF) =
  ([mkEvent "" "a" ("1" +:+ newline +:+ "2"); mkEvent "" "" "[DONE]"], Some EOF).
Proof. reflexivity. Qed.

(** ** Lines *)

Lemma ReadLine_newline l rest : scontains_byte (byte_at 10) l = false ->
  ReadLine (l +:+ newline +:+ rest) = (l +:+ newline, rest, false).
Proof.
  intros H. unfold ReadLine. change (newline +:+ rest) with (String (byte_at 10) rest).
  change newline with (String (byte_at 10) "") at 1. rewrite index_byte_app by done.
  replace (l +:+ String (byte_at 10) rest) with ((l +:+ newline) +:+ rest) by (by rewrite sapp_assoc).
  assert (S (String.length l) = String.length (l +:+ newline)) as -> by (rewrite slength_app; simpl; lia).
  by rewrite stake_app_length, sdrop_app_length.
Qed.

Lemma ReadLine_shorter s line rest err : ReadLine s = (line, rest, err) ->
  line = "" /\ s = "" \/ (String.length rest < String.length s)%nat.
Proof.
  unfold ReadLine. destruct (index newline s) as [i|] eqn:Ei; intros [= <- <- <-].
  - right. destruct s as [|c s]; [done|]. cbn [sdrop]. rewrite slength_sdrop. simpl. lia.
  - destruct s; [by left|right; simpl; lia].
Qed.

(** ** Totality *)

Lemma next_loop_total fuel : forall ending max s p total, (String.length s < fuel)%nat ->
  exists res, next_loop fuel ending max s p total = Some res.
Proof.
  induction fuel as [|f IH]; intros ending max s p total Hf; [lia|]. cbn [next_loop].
  destruct (ReadLine s) as [[line rest] err] eqn:E. apply ReadLine_shorter in E as Hs.
  destruct (String.eqb line "" && err) eqn:Ee; [eauto|]. destruct ((0 <? max) && _); [eauto|].
  destruct Hs as [[-> ->]|Hs]; [by injection E as <- <-|].
  destruct (trim_right is_crlf line) as [|c l]; [destruct (pa_have p); [eauto|apply IH; lia]|].
  destruct (Ascii.eqb c ":"); [apply IH; lia|]. destruct err; [eauto|apply IH; lia].
Qed.

(** More fuel changes nothing. *)
Lemma next_loop_fuel fuel fuel' : forall ending max s p total, (String.length s < fuel)%nat -> (String.length s < fuel')%nat ->
  next_loop fuel ending max s p total = next_loop fuel' ending max s p total.
Proof.
  revert fuel'. induction fuel as [|f IH]; intros [|f'] ending max s p total Hf Hf'; try lia. cbn [next_loop].
  destruct (ReadLine s) as [[line rest] err] eqn:E. apply ReadLine_shorter in E as Hs.
  destruct (String.eqb line "" && err) eqn:Ee; [done|]. destruct ((0 <? max) && _); [done|].
  destruct Hs as [[-> ->]|Hs]; [by injection E as <- <-|].
  destruct (trim_right is_crlf line) as [|c l]; [destruct (pa_have p); [done|apply IH; lia]|].
  destruct (Ascii.eqb c ":"); [apply IH; lia|]. destruct err; [done|apply IH; lia].
Qed.

(** What is left is a proper part of what there was, or the stream has ended. *)
Lemma next_loop_progress fuel : forall ending max s p total rest res, next_loop fuel ending max s p total = Some (rest, res) ->
  (String.length rest < String.length s)%nat \/ s = "" /\ rest = "".
Proof.
  induction fuel as [|f IH]; intros ending max s p total rest' res; cbn [next_loop]; [done|].
  destruct (ReadLine s) as [[line rest] err] eqn:E. apply ReadLine_shorter in E as Hs.
  assert ((String.length rest < String.length s)%nat \/ s = "" /\ rest = "") as Hr.
  { destruct Hs as [[-> ->]|?]; [right|by left]. vm_compute in E. by simplify_eq. }
  assert (forall p' t', next_loop f ending max rest p' t' = Some (rest', res) ->
    (String.length rest' < String.length s)%nat \/ s = "" /\ rest' = "") as Hrec.
  { intros p' t' H. apply IH in H. destruct Hr as [Hr|[H1 H2]]; destruct H as [H|[H3 H4]]; subst; simpl in *; auto; left; lia. }
  repeat case_match; intros; simplify_eq; eauto.
Qed.

(** *** The size limit *)

Lemma join_snoc_len sep l v : l <> [] -> slen (join sep (l ++ [v])) = slen (join sep l) + slen sep + slen v.
Proof.
  induction l as [|w l IH]; [done|]. intros _. destruct l as [|w' l].
  - simpl. rewrite !slen_app. lia.
  - change ((w :: w' :: l) ++ [v]) with (w :: (w' :: l) ++ [v]).
    change (join sep (w :: (w' :: l) ++ [v])) with (w +:+ sep +:+ join sep ((w' :: l) ++ [v])).
    change (join sep (w :: w' :: l)) with (w +:+ sep +:+ join sep (w' :: l)). rewrite !slen_app, IH by done. lia.
Qed.

(** The data collected so far is shorter than what has been read. *)
Definition within_read (p : partial) (total : Z) : Prop := 0 <= total /\ slen (join newline (pa_Data p)) <= total.

Lemma cut_value line field value ok : cut line ":" = (field, value, ok) -> slen value + slen field <= slen line.
Proof.
  unfold cut. destruct (index ":" line) as [i|] eqn:Ei; intros [= <- <- <-].
  - pose proof (f_equal slen (index_Some _ _ _ Ei)) as E. rewrite !slen_app in E. change (slen ":") with 1 in E.
    change (String.length ":") with 1%nat in *. lia.
  - unfold slen. simpl. lia.
Qed.

Lemma trim_prefix_len s p : slen (trim_prefix s p) <= slen s.
Proof. unfold trim_prefix, slen. destruct (has_prefix p s); rewrite ?slength_sdrop; lia. Qed.

Lemma trim_right_len p s : slen (trim_right p s) <= slen s.
Proof.
  unfold slen. induction s as [|c s IH]; simpl; [lia|].
  destruct (trim_right p s); [destruct (p c); simpl; lia|]. simpl in *. lia.
Qed.

Lemma field_line_within line p total : within_read p total -> within_read (field_line line p) (total + slen line).
Proof.
  intros [H0 H]. unfold field_line. destruct (cut line ":") as [[field value] ok] eqn:E.
  apply cut_value in E. pose proof (trim_prefix_len value " ") as Ht. pose proof (slen_nonneg field). pose proof (slen_nonneg value).
  destruct (String.eqb_spec field "id"); [split; simpl; lia|]. destruct (String.eqb_spec field "event"); [split; simpl; lia|].
  destruct (String.eqb_spec field "data") as [->|]; [|split; lia]. split; [lia|]. cbn [pa_Data].
  destruct (pa_Data p) as [|d ds] eqn:Ed; [simpl; change (slen "data") with 4 in *; lia|].
  rewrite join_snoc_len by done. change (slen newline) with 1. change (slen "data") with 4 in *. lia.
Qed.

Lemma next_loop_bounded fuel : forall ending max s p total rest e, 0 < max -> within_read p total -> total <= max ->
  next_loop fuel ending max s p total = Some (rest, inr e) -> slen (ev_Data e) <= max.
Proof.
  induction fuel as [|f IH]; intros ending max s p total rest' e Hmax Hp Ht; cbn [next_loop]; [done|].
  assert (slen (ev_Data (finish p)) <= max) as Hfin by (destruct Hp; simpl; lia).
  destruct (ReadLine s) as [[line rest] err].
  destruct (String.eqb line "" && err); [|].
  { destruct (pa_have p), ending; intros H2; first [discriminate H2 | injection H2 as _ <-; exact Hfin]. }
  destruct (Z.ltb_spec 0 max); [|lia]. cbn [andb]. destruct (Z.ltb_spec max (total + slen line)); [done|].
  pose proof (trim_right_len is_crlf line) as Hl. pose proof (slen_nonneg line).
  assert (within_read p (total + slen line)) as Hp' by (destruct Hp; split; lia).
  destruct (trim_right is_crlf line) as [|c l] eqn:El.
  { destruct (pa_have p); [intros [= _ <-]; exact Hfin|]. by apply IH. }
  destruct (Ascii.eqb c ":"); [by apply IH|].
  assert (within_read (field_line (String c l) p) (total + slen line)) as Hf.
  { destruct (field_line_within (String c l) p total Hp) as [? ?]. split; lia. }
  destruct err; [|by apply IH]. destruct (pa_have _); [|done]. intros [= _ <-]. destruct Hf. simpl. lia.
Qed.

(** ** Reading what was written *)

(** Text that fits on a line and that the reader does not trim. *)
Definition one_line (s : string) : Prop := scontains_byte (byte_at 10) s = false /\ trim_right is_crlf s = s.

Definition writable (e : Event) : Prop :=
  one_line (ev_ID e) /\ one_line (ev_Name e) /\ Forall one_line (split_byte (byte_at 10) (ev_Data e)).

Lemma trim_right_app p s t : t <> "" -> trim_right p t = t -> trim_right p (s +:+ t) = s +:+ t.
Proof.
  intros Hne Ht. induction s as [|c s IH]; [done|]. rewrite sapp_cons. cbn [trim_right]. rewrite IH.
  destruct (s +:+ t) eqn:E; [|done]. destruct s; [|done]. by rewrite sapp_nil_l in E.
Qed.

(** A line keeps its bytes when its newline is trimmed. *)
Lemma trim_newline s : trim_right is_crlf s = s -> trim_right is_crlf (s +:+ newline) = s.
Proof.
  induction s as [|c s IH]; [done|]. rewrite sapp_cons. cbn [trim_right]. intros H.
  destruct (trim_right is_crlf s) as [|d t] eqn:Es.
  - destruct (is_crlf c); [done|]. by injection H as <-.
  - injection H as H. rewrite IH by congruence. by destruct s.
Qed.

Lemma prefixed_line name v : scontains_byte (byte_at 10) name = false -> one_line v -> name <> "" -> trim_right is_crlf name = name ->
  one_line (name +:+ v).
Proof.
  intros Hn [Hv Ht] Hne Hname. split; [by rewrite scontains_byte_app, Hn, Hv|].
  destruct v as [|c v]; [by rewrite sapp_nil_r|]. by apply trim_right_app.
Qed.

Lemma next_line f ending max l rest p total : one_line l -> (match l with String c _ => c <> ":"%char | _ => False end) ->
  0 < max -> total + slen l + 1 <= max ->
  next_loop (S f) ending max (l +:+ newline +:+ rest) p total = next_loop f ending max rest (field_line l p) (total + slen l + 1).
Proof.
  intros [Hl Ht] Hc Hmax Hle. cbn [next_loop]. rewrite ReadLine_newline by done. rewrite andb_false_r.
  rewrite slen_app. change (slen newline) with 1. rewrite Z.add_assoc.
  destruct (Z.ltb_spec max (total + slen l + 1)); [lia|]. rewrite andb_false_r, trim_newline by done.
  destruct l as [|c l]; [done|]. by destruct (Ascii.eqb_spec c ":").
Qed.

Lemma next_blank f ending max rest p total : pa_have p = true -> 0 < max -> total + 1 <= max ->
  next_loop (S f) ending max (newline +:+ rest) p total = Some (rest, inr (finish p)).
Proof.
  intros Hp Hmax Hle. cbn [next_loop]. rewrite <- (sapp_nil_l (newline +:+ rest)), ReadLine_newline by done.
  rewrite andb_false_r, sapp_nil_l. change (slen newline) with 1.
  destruct (Z.ltb_spec max (total + 1)); [lia|]. rewrite andb_false_r. change (trim_right is_crlf newline) with "". by rewrite Hp.
Qed.

(** The lines of an event. *)
Definition lines_text (ls : list string) : string := concat_strings (map (fun l => l +:+ newline) ls).
Definition event_lines (e : Event) : list string :=
  (if String.eqb (ev_ID e) "" then [] else ["id: " +:+ ev_ID e]) ++
  (if String.eqb (ev_Name e) "" then [] else ["event: " +:+ ev_Name e]) ++
  map (fun l => "data: " +:+ l) (split_byte (byte_at 10) (ev_Data e)).

Lemma event_bytes_lines e : event_bytes e = lines_text (event_lines e) +:+ newline.
Proof.
  unfold event_bytes, event_lines, lines_text. rewrite !map_app, !concat_strings_app, !sapp_assoc, map_map.
  destruct (String.eqb (ev_ID e) ""), (String.eqb (ev_Name e) ""); simpl; rewrite ?sapp_nil_r, ?sapp_nil_l, ?sapp_assoc;
    repeat f_equal; apply map_ext; intros; by rewrite sapp_assoc.
Qed.

Definition field_ok (l : string) : Prop := one_line l /\ match l with String c _ => c <> ":"%char | _ => False end.

Lemma next_lines ls : forall f ending max rest p total, Forall field_ok ls -> (length ls < f)%nat ->
  0 < max -> 0 <= total -> total + slen (lines_text ls) + 1 <= max -> pa_have (fold_left (fun p l => field_line l p) ls p) = true ->
  next_loop f ending max (lines_text ls +:+ newline +:+ rest) p total =
  Some (rest, inr (finish (fold_left (fun p l => field_line l p) ls p))).
Proof.
  induction ls as [|l ls IH]; intros f ending max rest p total Hok Hf Hmax Ht Hle Hhave; simpl in Hf.
  - destruct f; [lia|]. unfold lines_text in *. simpl in *. apply next_blank; [done|done|]. unfold slen in Hle. simpl in Hle. lia.
  - apply Forall_cons in Hok as [[Hl Hc] Hok]. destruct f as [|f]; [lia|].
    change (lines_text (l :: ls)) with ((l +:+ newline) +:+ lines_text ls) in *. rewrite !slen_app in Hle. change (slen newline) with 1 in Hle.
    pose proof (slen_nonneg (lines_text ls)). pose proof (slen_nonneg l).
    rewrite !sapp_assoc, next_line by (done || lia). simpl. apply IH; [done|lia|done|lia|lia|done].
Qed.

(** The fields come back. *)
Lemma field_id v p : field_line ("id: " +:+ v) p = mkPartial v (pa_Name p) (pa_Data p) true.
Proof. done. Qed.

Lemma field_event v p : field_line ("event: " +:+ v) p = mkPartial (pa_ID p) v (pa_Data p) true.
Proof. done. Qed.

Lemma field_data v p : field_line ("data: " +:+ v) p = mkPartial (pa_ID p) (pa_Name p) (pa_Data p ++ [v]) true.
Proof. done. Qed.

Lemma data_lines_fold ds p : ds <> [] -> fold_left (fun p l => field_line l p) (map (fun l => "data: " +:+ l) ds) p =
  mkPartial (pa_ID p) (pa_Name p) (pa_Data p ++ ds) true.
Proof.
  revert p. induction ds as [|d ds IH]; intros p H; [done|]. cbn [map fold_left]. rewrite field_data.
  destruct ds as [|d' ds]; [done|]. rewrite IH by done. cbn [pa_ID pa_Name pa_Data]. by rewrite <- app_assoc.
Qed.

Lemma event_lines_fold e : fold_left (fun p l => field_line l p) (event_lines e) no_event =
  mkPartial (ev_ID e) (ev_Name e) (split_byte (byte_at 10) (ev_Data e)) true.
Proof.
  unfold event_lines. rewrite !fold_left_app, data_lines_fold by apply split_nonempty.
  destruct (String.eqb_spec (ev_ID e) "") as [Ei|], (String.eqb_spec (ev_Name e) "") as [En|]; cbn [fold_left];
    rewrite ?field_id, ?field_event; cbn [pa_ID pa_Name pa_Data no_event]; by rewrite ?Ei, ?En.
Qed.

Lemma event_lines_ok e : writable e -> Forall field_ok (event_lines e).
Proof.
  intros (Hi & Hn & Hd). unfold event_lines.
  assert (forall name v, scontains_byte (byte_at 10) name = false -> trim_right is_crlf name = name ->
    match name with String c _ => c <> ":"%char | _ => False end -> one_line v -> field_ok (name +:+ v)) as Hf.
  { intros name v Hc Ht Hh Hv. split; [apply prefixed_line; try done; by destruct name|]. by destruct name. }
  rewrite !Forall_app. split_and!.
  - destruct (String.eqb (ev_ID e) ""); [done|]. repeat constructor; by apply Hf.
  - destruct (String.eqb (ev_Name e) ""); [done|]. repeat constructor; by apply Hf.
  - apply Forall_map. eapply Forall_impl; [exact Hd|]. intros l Hl. by apply Hf.
Qed.

Lemma lines_text_len ls : (length ls <= String.length (lines_text ls))%nat.
Proof.
  induction ls as [|l ls IH]; [done|]. unfold lines_text in *. simpl. rewrite slength_app, slength_app. simpl. lia.
Qed.

Lemma Next_written e rest ending max : writable e -> 0 < max -> slen (event_bytes e) <= max ->
  Next (mkReader (event_bytes e +:+ rest) ending max) = Some (mkReader rest ending max, inr e).
Proof.
  intros Hw Hmax Hle. unfold Next. cbn [rd_rest rd_end rd_maxEventBytes]. rewrite event_bytes_lines in *.
  rewrite slen_app in Hle. change (slen newline) with 1 in Hle. rewrite sapp_assoc.
  rewrite next_lines; [|by apply event_lines_ok| |done|lia|lia|by rewrite event_lines_fold].
  - rewrite event_lines_fold. unfold finish. cbn [pa_ID pa_Name pa_Data]. change newline with (String (byte_at 10) "").
    rewrite join_split. by destruct e.
  - unfold read_fuel. rewrite slength_app. pose proof (lines_text_len (event_lines e)). lia.
Qed.

Definition write_all (es : list Event) (s : Writer) : Writer := fold_left (fun s e => (Writer_Event e s).1) es s.

Lemma write_all_out es s : rw_broken (wr_w s) = false ->
  rw_out (wr_w (write_all es s)) = rw_out (wr_w s) +:+ concat_strings (map event_bytes es).
Proof.
  revert s. induction es as [|e es IH]; intros s Hb; [by rewrite sapp_nil_r|]. cbn [write_all fold_left map concat_strings].
  unfold write_all in IH. unfold Writer_Event, send, Writer_start in *.
  destruct (wr_started s); simpl; rewrite Hb; simpl; rewrite IH by done; simpl; by rewrite sapp_assoc.
Qed.

Lemma ReadAll_S f r : ReadAll (S f) r =
  match Next r with
  | Some (r', inr e) => let '(es, err) := ReadAll f r' in (e :: es, err)
  | Some (_, inl err) => ([], Some err)
  | None => ([], None)
  end.
Proof. done. Qed.

Lemma ReadAll_written es ending max : Forall writable es -> 0 < max -> Forall (fun e => slen (event_bytes e) <= max) es ->
  ReadAll (S (length es)) (mkReader (concat_strings (map event_bytes es)) ending max) = (es, Some ending).
Proof.
  intros Hw Hmax Hle. induction es as [|e es IH]; [done|].
  apply Forall_cons in Hw as [He Hw], Hle as [Hl Hle]. 
  cbn [length map concat_strings]. by rewrite ReadAll_S, Next_written, IH.
Qed.

(** C39. Events whose id and name are single lines, with no carriage return at the end of the
    id, the name or a line of the data, and whose written form is within the reader's limit:
    sent by a writer over a connection that does not break, they are the ones a reader gets,
    one by one, and then the end of the stream.  (Other events change on the way: [changed_on_the_way].) *)
Theorem sse_roundtrip (es : list Event) (w : ResponseWriter) (limit : Z) :
  rw_out w = "" -> rw_broken w = false -> Forall writable es -> 0 < limit ->
  Forall (fun e => slen (event_bytes e) <= limit) es ->
  ReadAll (S (length es)) (NewReaderWithLimit (rw_out (wr_w (write_all es (mkWriter w false)))) EOF limit) = (es, Some EOF).
Proof.
  intros Hout Hb Hw Hl Hle. rewrite write_all_out by done. simpl. rewrite Hout, sapp_nil_l.
  unfold NewReaderWithLimit. destruct (Z.leb_spec limit 0); [lia|]. by apply ReadAll_written.
Qed.

Lemma next_loop_error fuel : forall ending max s p total rest e,
  next_loop fuel ending max s p total = Some (rest, inl e) -> e = ending \/ e = ErrEventTooLarge.
Proof.
  induction fuel as [|f IH]; intros ending max s p total rest' e; cbn [next_loop]; [done|].
  destruct (ReadLine s) as [[line rest] err].
  repeat case_match; intros; simplify_eq; eauto.
Qed.

Lemma Next_shorter r r' e : Next r = Some (r', inr e) -> (String.length (rd_rest r') < String.length (rd_rest r))%nat /\ rd_end r' = rd_end r.
Proof.
  unfold Next. destruct (next_loop _ _ _ _ _ _) as [[rest res]|] eqn:E; [|done]. intros; simplify_eq. cbn. split; [|done].
  destruct (next_loop_progress _ _ _ _ _ _ _ _ E) as [?|[Hs _]]; [done|]. rewrite Hs in E. by vm_compute in E.
Qed.

Lemma Next_some r : exists r' res, Next r = Some (r', res).
Proof.
  unfold Next. destruct (next_loop_total (read_fuel (rd_rest r)) (rd_end r) (rd_maxEventBytes r) (rd_rest r) no_event 0) as [[rest res] ->];
    [unfold read_fuel; lia|]. by eexists _, _.
Qed.

(** A read that ends the stream has taken all of it. *)
Lemma next_loop_end fuel : forall ending max s p total rest e,
  next_loop fuel ending max s p total = Some (rest, inl e) -> e <> ErrEventTooLarge -> rest = "".
Proof.
  induction fuel as [|f IH]; intros ending max s p total rest' e; cbn [next_loop]; [done|].
  destruct (ReadLine s) as [[line rest] err] eqn:E.
  assert (err = true -> rest = "") as Hr by (unfold ReadLine in E; destruct (index newline s); by simplify_eq).
  repeat case_match; intros; simplify_eq; zbool; eauto.
Qed.

Lemma Next_end r r' e : Next r = Some (r', inl e) -> e <> ErrEventTooLarge -> e = rd_end r /\ r' = mkReader "" (rd_end r) (rd_maxEventBytes r).
Proof.
  unfold Next. destruct (next_loop _ _ _ _ _ _) as [[rest res]|] eqn:E; [|done]. intros [= <- ->] He.
  apply next_loop_error in E as Herr. apply next_loop_end in E as ->; [|done]. by destruct Herr.
Qed.

Lemma Next_at_end ending max : Next (mkReader "" ending max) = Some (mkReader "" ending max, inl ending).
Proof. by destruct ending. Qed.

(** C40. Reading always ends: with an event whose data is no larger than the limit and with less
    left to read, or with an error, that of the connection or that of an event too large. *)
Theorem Next_total (body : string) (ending : sse_error) (limit : Z) :
  let r := NewReaderWithLimit body ending limit in
  exists r' res, Next r = Some (r', res) /\
    rd_end r' = ending /\ rd_maxEventBytes r' = rd_maxEventBytes r /\
    match res with
    | inl e => e = ending \/ e = ErrEventTooLarge
    | inr e => slen (ev_Data e) <= rd_maxEventBytes r /\ (String.length (rd_rest r') < String.length body)%nat
    end.
Proof.
  intros r. unfold Next. change (rd_rest r) with body. change (rd_end r) with ending.
  destruct (next_loop_total (read_fuel body) ending (rd_maxEventBytes r) body no_event 0) as [[rest res] E]; [unfold read_fuel; lia|].
  rewrite E. exists (mkReader rest ending (rd_maxEventBytes r)), res. split_and!; [done..|]. destruct res as [e|e].
  - by apply next_loop_error in E.
  - assert (0 < rd_maxEventBytes r) as Hmax.
    { simpl. unfold DefaultMaxEventBytes. destruct (Z.leb_spec limit 0); lia. }
    split; [by eapply (next_loop_bounded _ _ _ _ _ _ _ _ Hmax); [| |exact E]; [done|lia]|].
    destruct (next_loop_progress _ _ _ _ _ _ _ _ E) as [?|[-> _]]; [done|]. by destruct ending.
Qed.


Definition demo_events : list Event := [mkEvent "" "message_start" "{}"; mkEvent "7" "" ("a" +:+ newline +:+ " b:c"); mkEvent "" "" ""].

Lemma sse_roundtrip_witness :
  ReadAll 4 (NewReaderWithLimit (rw_out (wr_w (write_all demo_events (mkWriter (mkRW ∅ "" 0 false) false)))) EOF 64) = (demo_events, Some EOF).
Proof.
  apply (sse_roundtrip demo_events (mkRW ∅ "" 0 false) 64); try reflexivity;
    unfold demo_events; repeat constructor; vm_compute; done.
Defined.

(** The reader trims what the writer did not escape, and a line break in a name starts a field. *)
Example changed_on_the_way :
  let cr := String (byte_at 13) "" in
  let sent := [mkEvent "" "" ("a" +:+ cr); mkEvent "" ("ping" +:+ newline +:+ "data: b") "c"] in
  ReadAll 3 (NewReaderWithLimit (rw_out (wr_w (write_all sent (mkWriter (mkRW ∅ "" 0 false) false)))) EOF 64) =
  ([mkEvent "" "" "a"; mkEvent "" "ping" ("b" +:+ newline +:+ "c")], Some EOF).
Proof. vm_compute. reflexivity. Qed.

(** A connection that breaks in the middle of an event: what has arrived of it is
    returned as an event, although the stream did not end. *)
Example broken_line_is_an_event :
  Next (NewReader ("data: {" ) (ErrRead "connection reset")) =
  Some (mkReader "" (ErrRead "connection reset") DefaultMaxEventBytes, inr (mkEvent "" "" "{")).
Proof. reflexivity. Qed.
