(* ===== verification/Mcp.v ===== *)
(** * MCP policies and messages (src/internal/mcpproxy: policy.go, jsonrpc.go)

    Which methods and tools of a server a key may use, and the JSON-RPC envelope.
    Package encoding/json is an interface, [RPCJson]: its decoder as the list of
    tokens it reads, [Unmarshal] and [Marshal] at the types of the source.  Raw
    JSON is its text. *)

From S2P Require Import Prelude GoStrings Breaker Config Api Execute Route Policy Encoding.

Open Scope string_scope.
Open Scope list_scope.
Open Scope Z_scope.

(** ** Glob patterns: package path's [Match]

    The algorithm of the standard library: a pattern is cut into chunks at its
    stars, a chunk is matched at the front of the name or, after a star, at the
    first place before a slash where it fits.  [None] is [path.ErrBadPattern]. *)

Definition star : ascii := "*"%char.
Definition slash : ascii := "/"%char.

(** [scanChunk]: whether the pattern starts with stars, the text up to the next
    star outside brackets, and the rest. *)
Fixpoint drop_stars (s : string) : bool * string :=
  match s with
  | String c s' => if Ascii.eqb c star then (true, (drop_stars s').2) else (false, s)
  | EmptyString => (false, "")
  end.

Fixpoint chunk_end (inrange : bool) (s : string) : string * string :=
  match s with
  | EmptyString => ("", "")
  | String c s' =>
      let take inrange s' := let '(a, b) := chunk_end inrange s' in (String c a, b) in
      if Ascii.eqb c "\" then
        match s' with
        | String c2 s2 => let '(a, b) := chunk_end inrange s2 in (String c (String c2 a), b)
        | EmptyString => take inrange s'
        end
      else if Ascii.eqb c "[" then take true s'
      else if Ascii.eqb c "]" then take false s'
      else if Ascii.eqb c star && negb inrange then ("", s)
      else take inrange s'
  end.

Definition scanChunk (pattern : string) : bool * string * string :=
  let '(st, rest) := drop_stars pattern in let '(chunk, rest) := chunk_end false rest in (st, chunk, rest).

(** [getEsc]: a character of a class and the rest of the chunk. *)
Definition getEsc (chunk : string) : option (Z * string) :=
  match chunk with
  | EmptyString => None
  | String c rest =>
      if Ascii.eqb c "-" || Ascii.eqb c "]" then None
      else
        let chunk := if Ascii.eqb c "\" then rest else chunk in
        match chunk with
        | EmptyString => None
        | _ =>
            let '(r, n) := decode_rune chunk in
            if (r =? RuneError) && Nat.eqb n 1 then None
            else match sdrop n chunk with EmptyString => None | rest => Some (r, rest) end
        end
  end.

(** The ranges of a class, up to its closing bracket; each round takes at least
    one byte of the chunk. *)
Fixpoint class_ranges (fuel : nat) (r : Z) (chunk : string) (found : bool) (nrange : nat) : option (bool * string) :=
  match fuel with
  | O => None
  | S f =>
      let range chunk :=
        match getEsc chunk with
        | None => None
        | Some (lo, rest) =>
            match rest with
            | String "-"%char rest' =>
                match getEsc rest' with
                | None => None
                | Some (hi, rest2) => class_ranges f r rest2 (found || ((lo <=? r) && (r <=? hi))) (S nrange)
                end
            | _ => class_ranges f r rest (found || (lo =? r)) (S nrange)
            end
        end in
      match chunk with
      | String "]"%char rest => if Nat.ltb 0 nrange then Some (found, rest) else range chunk
      | _ => range chunk
      end
  end.

(** [matchChunk]: [Some None] is no match, [Some (Some rest)] what is left of the
    name.  [failed] once the name is known not to match: the rest of the chunk is
    only checked. *)
Fixpoint match_chunk (fuel : nat) (chunk s : string) (failed : bool) : option (option string) :=
  match fuel with
  | O => None
  | S f =>
      match chunk with
      | EmptyString => Some (if failed then None else Some s)
      | String c rest =>
          let failed := failed || String.eqb s "" in
          let literal c rest :=
            if failed then match_chunk f rest s true
            else match s with
                 | String d s' => match_chunk f rest s' (negb (Ascii.eqb c d))
                 | EmptyString => match_chunk f rest s true
                 end in
          if Ascii.eqb c "[" then
            let '(r, n) := if failed then (0, O) else decode_rune s in
            let '(negated, chunk) := match rest with String "^"%char rest' => (true, rest') | _ => (false, rest) end in
            match class_ranges (S (String.length chunk)) r chunk false 0 with
            | None => None
            | Some (found, rest) => match_chunk f rest (sdrop n s) (failed || Bool.eqb found negated)
            end
          else if Ascii.eqb c "?" then
            match s with
            | String d _ => if failed then match_chunk f rest s true
                            else match_chunk f rest (sdrop (decode_rune s).2 s) (Ascii.eqb d slash)
            | EmptyString => match_chunk f rest s true
            end
          else if Ascii.eqb c "\" then
            match rest with
            | EmptyString => None
            | String c2 rest2 => literal c2 rest2
            end
          else literal c rest
      end
  end.

Definition matchChunk (chunk s : string) : option (option string) := match_chunk (S (String.length chunk)) chunk s false.

(** After a star: the first place, before a slash, where the chunk fits (and ends
    the name, if it is the last chunk). *)
Fixpoint skip_to (chunk : string) (last : bool) (name : string) : option (option string) :=
  match name with
  | EmptyString => Some None
  | String c name' =>
      if Ascii.eqb c slash then Some None
      else match matchChunk chunk name' with
           | None => None
           | Some (Some t) => if last && negb (String.eqb t "") then skip_to chunk last name' else Some (Some t)
           | Some None => skip_to chunk last name'
           end
  end.

(** The rest of a pattern that did not match is checked for its syntax. *)
Fixpoint well_formed (fuel : nat) (pattern : string) : bool :=
  match fuel, pattern with
  | _, EmptyString => true
  | O, _ => true
  | S f, _ => let '(_, chunk, rest) := scanChunk pattern in
              match matchChunk chunk "" with None => false | Some _ => well_formed f rest end
  end.

Fixpoint match_loop (fuel : nat) (pattern name : string) : option bool :=
  match fuel, pattern with
  | _, EmptyString => Some (String.eqb name "")
  | O, _ => None
  | S f, _ =>
      let '(st, chunk, rest) := scanChunk pattern in
      if st && String.eqb chunk "" then Some (negb (scontains_byte slash name))
      else
        let no_match := if well_formed f rest then Some false else None in
        let starred :=
          if st then match skip_to chunk (String.eqb rest "") name with
                     | None => None
                     | Some (Some t) => match_loop f rest t
                     | Some None => no_match
                     end
          else no_match in
        match matchChunk chunk name with
        | Some (Some t) => if String.eqb t "" || negb (String.eqb rest "") then match_loop f rest t else starred
        | Some None => starred
        | None => None
        end
  end.

Definition Match (pattern name : string) : option bool := match_loop (S (String.length pattern)) pattern name.

Example match_ex : map (fun x => Match x.1 x.2)
  [("*", "read_file"); ("*", "a/b"); ("read_*", "read_file"); ("notifications/*", "notifications/x"); ("notifications/*", "notifications/x/y");
   ("[a-c]?", "bz"); ("[^a-c]?", "bz"); ("\*", "*"); ("a[", "a"); ("*_file", "a_file_file"); ("*[^a]*b", "x/b"); ("", "")] =
  [Some true; Some false; Some true; Some true; Some false; Some true; Some false; Some true; None; Some true; Some false; Some true].
Proof. vm_compute. reflexivity. Qed.

(** A pattern without special characters matches itself only. *)
Definition special (c : ascii) : bool := existsb (Ascii.eqb c) ["*"; "?"; "["; "\"; "]"]%char.
Definition literal (s : string) : bool := sforall (fun c => negb (special c)) s.

Lemma literal_cons c s : literal (String c s) = true -> special c = false /\ literal s = true.
Proof. unfold literal. cbn. intros H. apply andb_true_iff in H as [H ->]. by apply negb_true_iff in H. Qed.

Lemma special_ne c : special c = false ->
  Ascii.eqb c star = false /\ Ascii.eqb c "?" = false /\ Ascii.eqb c "[" = false /\ Ascii.eqb c "\" = false /\ Ascii.eqb c "]" = false.
Proof. unfold special. cbn. intros H. repeat (apply orb_false_iff in H as [? H]). done. Qed.

Lemma chunk_end_literal s : literal s = true -> chunk_end false s = (s, "").
Proof.
  induction s as [|c s IH]; [done|]. intros H. apply literal_cons in H as [Hc Hs]. apply special_ne in Hc as (Hstar & _ & Hb & Hesc & Hb2).
  cbn [chunk_end]. rewrite Hesc, Hb, Hb2, Hstar. cbn. by rewrite (IH Hs).
Qed.

Lemma scan_literal s : literal s = true -> scanChunk s = (false, s, "").
Proof.
  intros H. unfold scanChunk. destruct s as [|c s]; [done|]. pose proof (literal_cons _ _ H) as [Hc _]. apply special_ne in Hc as (Hstar & _).
  cbn [drop_stars]. rewrite Hstar. by rewrite chunk_end_literal.
Qed.

Lemma match_chunk_failed f chunk s : literal chunk = true -> (String.length chunk < f)%nat -> match_chunk f chunk s true = Some None.
Proof.
  revert f s. induction chunk as [|c chunk IH]; intros [|f] s H Hf; cbn in Hf; try lia; [done|].
  apply literal_cons in H as [Hc Hs]. apply special_ne in Hc as (_ & Hq & Hb & Hesc & _). cbn. rewrite Hb, Hq, Hesc. cbn. apply IH; [done|lia].
Qed.

Lemma match_chunk_literal f chunk s : literal chunk = true -> (String.length chunk < f)%nat ->
  match_chunk f chunk s false = Some (if has_prefix chunk s then Some (sdrop (String.length chunk) s) else None).
Proof.
  revert f s. induction chunk as [|c chunk IH]; intros [|f] s H Hf; cbn in Hf; try lia; [by destruct s|].
  apply literal_cons in H as [Hc Hs]. apply special_ne in Hc as (_ & Hq & Hb & Hesc & _). cbn [match_chunk]. rewrite Hb, Hq, Hesc.
  destruct s as [|d s]; cbn; [rewrite match_chunk_failed by (done || lia); done|].
  destruct (Ascii.eqb_spec c d) as [->|Hne]; cbn.
  - by rewrite IH by (done || lia).
  - rewrite match_chunk_failed by (done || lia). done.
Qed.

(** A pattern without special characters matches itself and nothing else. *)
Lemma Match_literal pattern name : literal pattern = true -> Match pattern name = Some (String.eqb pattern name).
Proof.
  intros H. unfold Match. destruct pattern as [|c p]; [by destruct name|]. set (pat := String c p) in *.
  assert (forall f, match_loop (S f) pat name =
    if has_prefix pat name then let t := sdrop (String.length pat) name in if String.eqb t "" then Some true else Some false else Some false) as ->.
  { intros f. unfold pat at 1. cbn [match_loop]. fold pat. rewrite (scan_literal pat H). cbn [andb].
    unfold matchChunk. rewrite match_chunk_literal by (done || lia). destruct (has_prefix pat name); [|by destruct f].
    cbv zeta. rewrite orb_false_r. destruct (String.eqb_spec (sdrop (String.length pat) name) "") as [->|]; by destruct f. }
  destruct (has_prefix pat name) eqn:E.
  - apply has_prefix_app in E as [t ->]. cbv zeta. rewrite sdrop_app_length.
    destruct t as [|d t]; [by rewrite sapp_nil_r, (String.eqb_refl pat)|]. cbn [String.eqb]. symmetry. f_equal. apply String.eqb_neq.
    intros E. apply (f_equal String.length) in E. rewrite slength_app in E. cbn in E. lia.
  - symmetry. f_equal. apply String.eqb_neq. intros Hp. pose proof (has_prefix_refl pat "") as Hx. rewrite sapp_nil_r in Hx. rewrite <- Hp, Hx in E. done.
Qed.

(** ** MCP policies and messages (src/internal/mcpproxy: policy.go, jsonrpc.go)

    Which methods and tools of a server a key may use, and the JSON-RPC envelope.
    Package encoding/json is an interface, [RPCJson]: its decoder as the list of
    tokens it reads, [Unmarshal] and [Marshal] at the types of the source.  Raw
    JSON is its text. *)

(** *** Policies (policy.go) *)

Definition match_any (globs : list string) (name : string) : bool := existsb (fun g => bool_decide (Match g name = Some true)) globs.

Definition DefaultAllowedMethods : list string := ["initialize"; "ping"; "tools/list"; "tools/call"; "notifications/*"].

Definition Allowed (p : option MCPPolicy) (server tool : string) : bool :=
  match p ≫= fun p => mp_Servers p !! server with
  | None => false
  | Some sp => if match_any (ms_Deny sp) tool then false else match_any (ms_Allow sp) tool
  end.

Definition MethodAllowed (p : option MCPPolicy) (server method : string) : bool :=
  match p with
  | None => match_any DefaultAllowedMethods method
  | Some p =>
      match mp_Servers p !! server with
      | Some sp => if negb (bool_decide (ms_AllowMethods sp = [])) then match_any (ms_AllowMethods sp) method
                   else if negb (bool_decide (mp_AllowMethods p = [])) then match_any (mp_AllowMethods p) method
                   else match_any DefaultAllowedMethods method
      | None => if negb (bool_decide (mp_AllowMethods p = [])) then match_any (mp_AllowMethods p) method
                else match_any DefaultAllowedMethods method
      end
  end.

(** *** Messages (jsonrpc.go) *)

Record RPCError := mkRPCError { re_Code : Z; re_Message : string }.

(** A raw field is its text, empty when it is absent. *)
Record RPCMessage := mkRPC {
  mg_JSONRPC : string; mg_ID : string; mg_Method : string; mg_Params : string; mg_Result : string; mg_Error : option RPCError }.

Definition CodeToolDenied : Z := -32001.
Definition CodeRunLimit : Z := -32002.
Definition CodeMethodDenied : Z := -32003.

Definition ErrorMessage (id : string) (code : Z) (msg : string) : RPCMessage :=
  mkRPC "2.0" id "" "" "" (Some (mkRPCError code msg)).

(** A token of [json.Decoder]; [Bad] is the error that ends the stream. *)
Inductive jtok := Delim (c : ascii) | Str (s : string) | Scalar (text : string) | Bad (err : string).

Class RPCJson := {
  json_tokens : string -> list jtok;
  unmarshal_messages : string -> string + list RPCMessage;
  unmarshal_message : string -> string + RPCMessage;
  unmarshal_call : string -> option (string * string);      (* name and arguments of tools/call *)
  unmarshal_object : string -> option (gmap string string);
  unmarshal_list : string -> option (list string);
  unmarshal_name : string -> option string;
  marshal_messages : list RPCMessage -> string;
  marshal_message : RPCMessage -> string;
  marshal_list : list string -> string;
  marshal_object : gmap string string -> string
}.

(** **** Duplicate keys *)

Section Strict.
Context (ToLower : string -> string).

Definition tok_text (t : jtok) : string := match t with Delim c => String c "" | Str s => s | Scalar s => s | Bad e => e end.

(** [dec.More]: another element follows in the array or object. *)
Definition more (ts : list jtok) : bool :=
  match ts with
  | [] => false
  | Delim c :: _ => negb (Ascii.eqb c "]" || Ascii.eqb c "}")
  | _ => true
  end.

(** [dec.Token]: the error of a stream that has ended is [io.EOF]. *)
Definition token (ts : list jtok) : string + jtok * list jtok :=
  match ts with
  | [] => inl "EOF"
  | Bad e :: _ => inl e
  | t :: ts => inr (t, ts)
  end.

(** [checkObject] and [checkArray]: the error, or the tokens left; each call reads
    a token, so that their number bounds the depth of the recursion. *)
Fixpoint checkObject (fuel : nat) (seen : list string) (ts : list jtok) : string + list jtok :=
  match fuel with
  | O => inl "out of fuel"
  | S f =>
      if more ts then
        match token ts with
        | inl e => inl e
        | inr (Str key, ts) =>
            if bool_decide (ToLower key ∈ seen) then inl ("duplicate or case-variant key in JSON object: " +:+ go_quote key)
            else
              match token ts with
              | inl e => inl e
              | inr (v, ts) =>
                  match (match v with
                         | Delim c => if Ascii.eqb c "{" then checkObject f [] ts else if Ascii.eqb c "[" then checkArray f ts else inr ts
                         | _ => inr ts
                         end) with
                  | inl e => inl e
                  | inr ts => checkObject f (ToLower key :: seen) ts
                  end
              end
        | inr (t, _) => inl ("expected string object key, got " +:+ tok_text t)
        end
      else
        match token ts with
        | inl e => inl e
        | inr (Delim "}"%char, ts) => inr ts
        | inr (t, _) => inl ("expected '}', got " +:+ tok_text t)
        end
  end
with checkArray (fuel : nat) (ts : list jtok) : string + list jtok :=
  match fuel with
  | O => inl "out of fuel"
  | S f =>
      if more ts then
        match token ts with
        | inl e => inl e
        | inr (v, ts) =>
            match (match v with
                   | Delim c => if Ascii.eqb c "{" then checkObject f [] ts else if Ascii.eqb c "[" then checkArray f ts else inr ts
                   | _ => inr ts
                   end) with
            | inl e => inl e
            | inr ts => checkArray f ts
            end
        end
      else
        match token ts with
        | inl e => inl e
        | inr (Delim "]"%char, ts) => inr ts
        | inr (t, _) => inl ("expected ']', got " +:+ tok_text t)
        end
  end.

(** [rejectDuplicateKeys] on the tokens of a text that is not empty. *)
Definition reject_tokens (ts : list jtok) : option string :=
  match token ts with
  | inl e => Some e
  | inr (Delim c, rest) =>
      let fuel := S (length rest) in
      match (if Ascii.eqb c "{" then checkObject fuel [] rest
             else if Ascii.eqb c "[" then checkArray fuel rest
             else inl ("expected JSON object or array, got " +:+ String c "")) with
      | inl e => Some e
      | inr rest => if more rest then Some "unexpected trailing data in JSON"
                    else match rest with [] => None | _ => Some "unexpected trailing data after JSON" end
      end
  | inr (t, _) => Some ("expected JSON object or array, got " +:+ tok_text t)
  end.

Context `{RPCJson}.

Definition rejectDuplicateKeys (data : string) : option string :=
  let data := trim_space data in
  if String.eqb data "" then Some "empty JSON body" else reject_tokens (json_tokens data).

Definition Parse (body : string) : string + list RPCMessage * bool :=
  let body := trim_space body in
  match body with
  | String "["%char _ => match unmarshal_messages body with inl e => inl e | inr ms => inr (ms, true) end
  | _ => match unmarshal_message body with inl e => inl e | inr m => inr ([m], false) end
  end.

Definition StrictParse (body : string) : string + list RPCMessage * bool :=
  match rejectDuplicateKeys body with
  | Some e => inl e
  | None => Parse body
  end.

Definition ToolCall (m : RPCMessage) : option (string * string) :=
  if negb (String.eqb (mg_Method m) "tools/call") then None
  else match unmarshal_call (mg_Params m) with
       | Some (name, args) => if String.eqb name "" then None else Some (name, args)
       | None => None
       end.

Definition tool_kept (allow : string -> bool) (t : string) : bool :=
  match unmarshal_name t with Some n => allow n | None => false end.

(** [FilterToolsList]: [None] is an error. *)
Definition FilterToolsList (result : string) (allow : string -> bool) : option (string * bool) :=
  match unmarshal_object result with
  | None => None
  | Some obj =>
      match unmarshal_list (default "" (obj !! "tools")) with
      | None => Some (result, false)
      | Some tools =>
          let kept := List.filter (tool_kept allow) tools in
          Some (marshal_object (<["tools" := marshal_list kept]> obj), (length kept <? length tools)%nat)
      end
  end.
End Strict.

(** *** The tokens of JSON values *)

Fixpoint toks (v : jval) : list jtok :=
  match v with
  | JScalar t => [Scalar t]
  | JStr s => [Str s]
  | JArr l => Delim "[" :: flat_map toks l ++ [Delim "]"]
  | JObj l => Delim "{" :: flat_map (fun kv => Str kv.1 :: toks kv.2) l ++ [Delim "}"]
  end.

Definition container (v : jval) : Prop := match v with JArr _ | JObj _ => True | _ => False end.

(** No object has two keys that are equal in lower case. *)
Fixpoint distinct_keys (ToLower : string -> string) (v : jval) : bool :=
  match v with
  | JArr l => forallb (distinct_keys ToLower) l
  | JObj l => bool_decide (NoDup (map (fun kv => ToLower kv.1) l)) && forallb (fun kv => distinct_keys ToLower kv.2) l
  | _ => true
  end.

Section Check.
Context (ToLower : string -> string).

Definition verdict (ok : bool) (rest : list jtok) (r : string + list jtok) : Prop :=
  if ok then r = inr rest else exists e, r = inl e.

(** The check of a value whose first token has been read. *)
Definition check_value (f : nat) (v : jval) (rest : list jtok) : string + list jtok :=
  match v with
  | JArr l => checkArray ToLower f (flat_map toks l ++ Delim "]" :: rest)
  | JObj l => checkObject ToLower f [] (flat_map (fun kv => Str kv.1 :: toks kv.2) l ++ Delim "}" :: rest)
  | _ => inr rest
  end.

Lemma checkArray_value f v ts : checkArray ToLower (S f) (toks v ++ ts) =
  match check_value f v ts with inl e => inl e | inr ts => checkArray ToLower f ts end.
Proof using. destruct v; [done..|cbn; by rewrite <- app_assoc|cbn; by rewrite <- app_assoc]. Qed.

Lemma checkObject_value f seen k v ts : checkObject ToLower (S f) seen (Str k :: toks v ++ ts) =
  if bool_decide (ToLower k ∈ seen) then inl ("duplicate or case-variant key in JSON object: " +:+ go_quote k)
  else match check_value f v ts with inl e => inl e | inr ts => checkObject ToLower f (ToLower k :: seen) ts end.
Proof using. cbn [checkObject more token]. destruct (bool_decide _); [done|]. destruct v; [done..|cbn; by rewrite <- app_assoc|cbn; by rewrite <- app_assoc]. Qed.

Lemma toks_nonempty v : (1 <= length (toks v))%nat.
Proof using. destruct v; cbn; lia. Qed.

Definition checked (v : jval) : Prop := forall f rest, (length (toks v) <= f)%nat -> verdict (distinct_keys ToLower v) rest (check_value f v rest).

Lemma checkArray_exact l rest : Forall checked l -> forall f, (length (flat_map toks l) < f)%nat ->
  verdict (forallb (distinct_keys ToLower) l) rest (checkArray ToLower f (flat_map toks l ++ Delim "]" :: rest)).
Proof using.
  induction 1 as [|v l Hv _ IH]; intros [|f] Hf; [lia|done|lia|]. cbn [flat_map forallb] in *. rewrite length_app in Hf.
  rewrite <- app_assoc, checkArray_value. pose proof (toks_nonempty v). specialize (Hv f (flat_map toks l ++ Delim "]" :: rest) ltac:(lia)).
  destruct (distinct_keys ToLower v); cbn [verdict andb] in *; [rewrite Hv; apply IH; lia|]. destruct Hv as [e ->]. by exists e.
Qed.

Lemma checkObject_exact l rest : Forall (fun kv => checked kv.2) l -> forall f seen, (length (flat_map (fun kv => Str kv.1 :: toks kv.2) l) < f)%nat ->
  NoDup seen ->
  verdict (bool_decide (NoDup (rev_append (map (fun kv => ToLower kv.1) l) seen)) && forallb (fun kv => distinct_keys ToLower kv.2) l) rest
    (checkObject ToLower f seen (flat_map (fun kv => Str kv.1 :: toks kv.2) l ++ Delim "}" :: rest)).
Proof using.
  induction 1 as [|[k v] l Hv _ IH]; intros [|f] seen Hf Hnd; [cbn in Hf; lia| |lia|].
  { cbn. by rewrite bool_decide_true. }
  cbn [flat_map forallb map fst snd rev_append app] in *. cbn [length] in Hf. rewrite length_app in Hf.
  rewrite <- app_assoc, checkObject_value. destruct (decide (ToLower k ∈ seen)) as [Hin|Hin].
  - rewrite (bool_decide_true (ToLower k ∈ seen)) by done. rewrite bool_decide_false; [by eexists|]. rewrite rev_append_rev. intros (_ & Hd & Hn)%NoDup_app. apply NoDup_cons in Hn as [Hn _]. done.
  - rewrite (bool_decide_false (ToLower k ∈ seen)) by done.
    specialize (Hv f (flat_map (fun kv => Str kv.1 :: toks kv.2) l ++ Delim "}" :: rest) ltac:(cbn; lia)). cbn [snd] in Hv.
    destruct (distinct_keys ToLower v); cbn [verdict andb] in *.
    + rewrite Hv. apply IH; [lia|]. by constructor.
    + rewrite andb_false_r. destruct Hv as [e ->]. by exists e.
Qed.

Lemma value_checked v : checked v.
Proof using.
  induction v as [t|s|l IH|l IH] using jval_nested; intros f rest Hf; [done..| |].
  - cbn [check_value distinct_keys toks length] in *. rewrite length_app in Hf. apply checkArray_exact; [done|cbn in Hf; lia].
  - cbn [check_value distinct_keys toks length] in *. rewrite length_app in Hf.
    pose proof (checkObject_exact l rest IH f [] ltac:(cbn in Hf; lia) (NoDup_nil_2)) as H.
    rewrite (bool_decide_ext _ (NoDup (map (fun kv => ToLower kv.1) l))) in H; [done|]. rewrite rev_append_rev, app_nil_r. by rewrite <- Permutation_rev.
Qed.

(** What is read is not an error of the decoder. *)
Lemma token_clean ts t rest : token ts = inr (t, rest) -> ts = [t] ++ rest /\ forall e, Bad e ∉ [t].
Proof using. destruct ts as [|[] ts]; cbn; intros; simplify_eq; (split; [done|]); intros e' H; apply list_elem_of_singleton in H; done. Qed.

Definition reads (ts rest : list jtok) : Prop := exists pre, ts = pre ++ rest /\ forall e, Bad e ∉ pre.

Lemma reads_refl ts : reads ts ts.
Proof using. exists []. split; [done|]. intros e H. by apply elem_of_nil in H. Qed.

Lemma reads_trans a b c : reads a b -> reads b c -> reads a c.
Proof using.
  intros (p & -> & Hp) (q & -> & Hq). exists (p ++ q). rewrite <- app_assoc. split; [done|]. intros e [H|H]%elem_of_app; [by eapply Hp|by eapply Hq].
Qed.

Lemma token_reads ts t rest : token ts = inr (t, rest) -> reads ts rest.
Proof using. intros H. apply token_clean in H as [-> H]. by exists [t]. Qed.

Lemma check_reads f : (forall seen ts rest, checkObject ToLower f seen ts = inr rest -> reads ts rest) /\
  (forall ts rest, checkArray ToLower f ts = inr rest -> reads ts rest).
Proof using.
  induction f as [|f [IHo IHa]]; [done|].
  assert (forall v ts ts', (match v with
      | Delim c => if Ascii.eqb c "{" then checkObject ToLower f [] ts else if Ascii.eqb c "[" then checkArray ToLower f ts else inr ts
      | _ => inr ts end) = inr ts' -> reads ts ts') as Hv.
  { intros [c|s|t|e] ts ts'; [|intros; simplify_eq; apply reads_refl..].
    destruct (Ascii.eqb c "{"); [apply IHo|]. destruct (Ascii.eqb c "["); [apply IHa|]. intros; simplify_eq. apply reads_refl. }
  assert (forall close msg ts rest, match token ts with
      | inl e => inl e | inr (Delim c, ts) => if Ascii.eqb c close then inr ts else inl (msg (Delim c)) | inr (t, _) => inl (msg t) end = inr rest ->
      reads ts rest) as Hclose.
  { intros close msg ts rest H. destruct (token ts) as [e|[t ts1]] eqn:E; [done|]. apply token_reads in E.
    destruct t as [c|s|t|e]; [|done..]. destruct (Ascii.eqb c close); [|done]. by simplify_eq. }
  split; [intros seen ts rest|intros ts rest]; intros H; cbn [checkObject checkArray] in H; destruct (more ts).
  - destruct (token ts) as [e|[t ts1]] eqn:E1; [done|]. apply token_reads in E1. destruct t as [c|key|t|e]; try done.
    destruct (bool_decide _); [done|]. destruct (token ts1) as [e|[v ts2]] eqn:E2; [done|]. apply token_reads in E2.
    destruct (match v with Delim _ => _ | _ => _ end) as [e|ts3] eqn:E3; [done|]. apply Hv in E3. apply IHo in H.
    eauto using reads_trans.
  - apply (Hclose "}"%char (fun t => "expected '}', got " +:+ tok_text t)). rewrite <- H. destruct (token ts) as [e|[[c|s|t|e] ts1]]; try done.
    by destruct c as [[] [] [] [] [] [] [] []].
  - destruct (token ts) as [e|[v ts2]] eqn:E2; [done|]. apply token_reads in E2.
    destruct (match v with Delim _ => _ | _ => _ end) as [e|ts3] eqn:E3; [done|]. apply Hv in E3. apply IHa in H.
    eauto using reads_trans.
  - apply (Hclose "]"%char (fun t => "expected ']', got " +:+ tok_text t)). rewrite <- H. destruct (token ts) as [e|[[c|s|t|e] ts1]]; try done.
    by destruct c as [[] [] [] [] [] [] [] []].
Qed.
End Check.

(** *** Properties *)

(** C18. The check of a request body is exact: the tokens of a JSON value are accepted
    exactly when it is an object or an array in which no object, at any depth, has
    two keys that are equal in lower case, and a text on which the decoder reports an
    error is never accepted. *)
Theorem duplicate_keys_rejected (ToLower : string -> string) (v : jval) (ts : list jtok) :
  (reject_tokens ToLower (toks v) = None <-> container v /\ distinct_keys ToLower v = true) /\
  (reject_tokens ToLower ts = None -> forall e, Bad e ∉ ts).
Proof.
  split.
  - destruct v as [t|s|l|l]; [by split; [|intros []]..| |]; cbn [reject_tokens toks token container].
    + pose proof (checkArray_exact ToLower l [] (proj2 (Forall_forall _ _) (fun v _ => value_checked ToLower v)) (S (length (flat_map toks l ++ [Delim "]"])))
        ltac:(rewrite length_app; lia)) as H. cbn [Ascii.eqb Bool.eqb]. unfold verdict in H. cbn [distinct_keys].
      destruct (forallb _ l); [rewrite H; by split|]. destruct H as [e ->]. split; [done|by intros []].
    + pose proof (value_checked ToLower (JObj l)) as H. unfold checked in H. specialize (H (S (length (flat_map (fun kv => Str kv.1 :: toks kv.2) l ++ [Delim "}"]))) []).
      cbn [check_value toks length] in H. specialize (H ltac:(lia)). cbn [Ascii.eqb Bool.eqb]. unfold verdict in H.
      destruct (distinct_keys ToLower (JObj l)); [rewrite H; by split|]. destruct H as [e ->]. split; [done|by intros []].
  - intros H e. unfold reject_tokens in H. destruct (token ts) as [e0|[t rest]] eqn:E; [done|]. apply token_reads in E as (pre & -> & Hpre).
    destruct t as [c|s|t|e0]; try done. 
    assert (forall r, match r with inl e => Some e | inr rest => if more rest then Some "unexpected trailing data in JSON"
      else match rest with [] => None | _ => Some "unexpected trailing data after JSON" end end = None -> r = inr []) as Hr.
    { intros [e1|[|t l]] Hn; [done..|]. by destruct (more (t :: l)). }
    apply Hr in H. assert (reads rest []) as (q & -> & Hq).
    { destruct (Ascii.eqb c "{"); [by eapply check_reads in H|]. destruct (Ascii.eqb c "["); [by apply check_reads in H|done]. }
    rewrite app_nil_r. intros [Hi|Hi]%elem_of_app; [by eapply Hpre|by eapply Hq].
Qed.

Lemma Allowed_listed p server tool : Allowed p server tool = true ->
  exists pol sp, p = Some pol /\ mp_Servers pol !! server = Some sp /\
    (exists g, g ∈ ms_Allow sp /\ Match g tool = Some true) /\ forall g, g ∈ ms_Deny sp -> Match g tool <> Some true.
Proof.
  unfold Allowed. destruct p as [pol|]; [|done]. cbn. destruct (mp_Servers pol !! server) as [sp|] eqn:E; [|done].
  destruct (match_any (ms_Deny sp) tool) eqn:Ed; [done|]. intros Ha. exists pol, sp. split_and!; [done|done| |].
  - unfold match_any in Ha. apply existsb_exists in Ha as (g & Hg & Hm). exists g. split; [by apply list_elem_of_In|by apply bool_decide_eq_true in Hm].
  - intros g Hg Hm. apply not_true_iff_false in Ed. apply Ed. apply existsb_exists. exists g. split; [by apply list_elem_of_In|by apply bool_decide_eq_true].
Qed.
