(* ===== verification/McpProxy.v ===== *)
(** * The MCP proxy (src/internal/mcpproxy/proxy.go)

    A request to [/mcp/{server}]: the screening of its messages against the key's
    policy and the run's limits, the forwarded request, and the relay of the reply
    with the tool lists filtered.  The HTTP client is a function of the world. *)

From S2P Require Import Prelude GoStrings GoFloat Breaker Config Api Execute Route Policy Pipeline.
From S2P Require Import AgentRun Fuzzy RateLimit AgentStage Sse Mcp Encoding.

Open Scope string_scope.
Open Scope list_scope.
Open Scope Z_scope.

Record MCPUpstream := mkUpstream { up_Name : string; up_URL : string; up_Headers : list (string * string) }.

Record Audit := mkAudit {
  au_TS : Time; au_TenantID : string; au_KeyID : string; au_Server : string; au_Method : string; au_Tool : string;
  au_RunID : string; au_Decision : string; au_Status : Z; au_LatencyMs : Z }.

(** The request: its body is [None] when it is too large or cannot be read. *)
Record mcp_request := mkMcpRequest { rq_Method : string; rq_Server : string; rq_Header : gmap string string; rq_Body : option string }.

(** What goes to the upstream server, and what comes back: [rp_End] is the error
    that ends the body. *)
Record forwarded := mkForwarded { fw_Method : string; fw_URL : string; fw_Header : gmap string string; fw_Body : string }.
Record mcp_response := mkMcpResponse { rp_Status : Z; rp_Header : gmap string string; rp_Body : string; rp_End : sse_error }.

(** What the client gets: an error, refusals, or the relayed reply. *)
Inductive mcp_reply :=
| McpError (e : go_error)
| Refusal (batch : bool) (ms : list RPCMessage)
| Relayed (status : Z) (h : gmap string string) (body : string)
| Events (w : ResponseWriter).

Definition elapsedMillis (start now : Time) : Z :=
  let ms := Z.quot (time_sub now start) millisecond in
  if ms <=? 0 then 0 else if 2 ^ 32 - 1 <? ms then 2 ^ 32 - 1 else ms.

Definition passHeaders : list string := ["Content-Type"; "Accept"; "Mcp-Session-Id"; "MCP-Protocol-Version"; "Last-Event-ID"].

Definition forward_headers (h : gmap string string) (up : MCPUpstream) : gmap string string :=
  let copied := for_range passHeaders ∅ (fun out k => let v := header_get h k in if String.eqb v "" then out else header_set out k v) in
  for_range (up_Headers up) copied (fun out kv => header_set out kv.1 kv.2).

Definition post_timeout (d : Duration) : Duration := if d <=? 0 then 60 * second else d.

(** ** The filter of replies *)

Section Filter.
Context `{RPCJson}.

Record filterSpec := mkFilterSpec { fs_body : string; fs_listIDs : gset string; fs_allow : string -> bool }.

Definition set_Result (m : RPCMessage) (r : string) : RPCMessage :=
  mkRPC (mg_JSONRPC m) (mg_ID m) (mg_Method m) (mg_Params m) r (mg_Error m).

(** One message of a reply: the message, whether it was rewritten, and whether a
    tool was removed. *)
Definition filter_message (f : filterSpec) (m : RPCMessage) : RPCMessage * bool * bool :=
  if bool_decide (mg_ID m ∈ fs_listIDs f) && negb (String.eqb (mg_Result m) "") then
    match FilterToolsList (mg_Result m) (fs_allow f) with
    | Some (out, filtered) => (set_Result m out, true, filtered)
    | None => (m, false, false)
    end
  else (m, false, false).

Definition apply (f : option filterSpec) (data : string) : string * bool :=
  match f with
  | None => (data, false)
  | Some f =>
      if bool_decide (fs_listIDs f = ∅) then (data, false)
      else match Parse data with
           | inl _ => (data, false)
           | inr (msgs, batch) =>
               let out := map (filter_message f) msgs in
               if negb (existsb (fun x => x.1.2) out) then (data, false)
               else
                 let msgs := map (fun x => x.1.1) out in
                 (if batch then marshal_messages msgs else match msgs with m :: _ => marshal_message m | [] => "" end,
                  existsb (fun x => x.2) out)
           end
  end.

(** The relay of an event stream, until the reader or the writer fails. *)
Fixpoint relay_events (fuel : nat) (f : option filterSpec) (rd : Reader) (sw : Writer) (any : bool) : option (Writer * bool) :=
  match fuel with
  | O => None
  | S n =>
      match Next rd with
      | None => None
      | Some (_, inl _) => Some (sw, any)
      | Some (rd, inr ev) =>
          let '(data, filtered) := apply f (ev_Data ev) in
          let any := any || filtered in
          match Writer_Event (mkEvent (ev_ID ev) (ev_Name ev) data) sw with
          | (sw, Some _) => Some (sw, any)
          | (sw, None) => relay_events n f rd sw any
          end
      end
  end.
End Filter.

(** ** The handler *)

Section Proxy.
Context {W : Type} `{RunStore W} `{RPCJson} (ToLower : string -> string) (sha256_hex : string -> string)
  (upstream : W -> forwarded -> option Duration -> (go_error + mcp_response) * W)
  (audit : Audit -> W -> W) (now : W -> Time).

(** The configuration: the servers, whether there is a run store, the timeout. *)
Record Deps := mkDeps { dp_Upstreams : gmap string MCPUpstream; dp_Runs : bool; dp_RequestTimeout : Duration }.

(** Who asks, when, of which server and for which run: the fields every audit row shares. *)
Record asking := mkAsking { as_Start : Time; as_Principal : Principal; as_Server : string; as_RunID : string }.

Definition latency (a : asking) (w : W) : Z := elapsedMillis (as_Start a) (now w).

Definition record_audit (a : asking) (method tool decision : string) (status latencyMs : Z) (w : W) : W :=
  audit (mkAudit (as_Start a) (TenantID (as_Principal a)) (KeyID (as_Principal a)) (as_Server a) method tool (as_RunID a) decision status latencyMs) w.

Definition mcp_run_id (p : Principal) (h : gmap string string) : string :=
  let id := header_get h "X-ProofGate-Run-Id" in
  if String.eqb id "" then "mcp_" +:+ stake 32 (sha256_hex (TenantID p +:+ "|" +:+ KeyID p +:+ "|" +:+ header_get h "Mcp-Session-Id")) else id.

(** The loop over the messages of a request. *)
Record screening := mkScreening { sc_w : W; sc_refused : list RPCMessage; sc_listIDs : gset string }.

Definition is_response (m : RPCMessage) : bool :=
  String.eqb (mg_Method m) "" && negb (String.eqb (mg_ID m) "") && (negb (String.eqb (mg_Result m) "") || bool_decide (is_Some (mg_Error m))).

Definition refuse (a : asking) (m : RPCMessage) (code : Z) (msg tool decision : string) (s : screening) : screening :=
  mkScreening (record_audit a (mg_Method m) tool decision 200 (latency a (sc_w s)) (sc_w s)) (sc_refused s ++ [ErrorMessage (mg_ID m) code msg]) (sc_listIDs s).

Definition run_fingerprint (server tool args : string) : string := "mcp:" +:+ server +:+ ":" +:+ tool +:+ ":" +:+ Normalize args.

(** The run's limits on one tool call: the store is asked only when there is one
    and the run has a valid name; an error of the store lets the call through. *)
Definition step_run (d : Deps) (a : asking) (tool args : string) (w : W) : W * bool :=
  match kp_Run (p_Key (as_Principal a)) with
  | Some rp =>
      if negb (String.eqb (as_RunID a) "") && dp_Runs d && RunIDPattern (as_RunID a) then
        match Step (TenantID (as_Principal a)) (as_RunID a) (WithDefaults rp) (run_fingerprint (as_Server a) tool args) 0 0 w with
        | (w, inr res) => (w, bool_decide (sr_Status res <> AgentRun.Allowed))
        | (w, inl _) => (w, false)
        end
      else (w, false)
  | None => (w, false)
  end.

Definition screen (d : Deps) (a : asking) (s : screening) (m : RPCMessage) : screening :=
  let policy := kp_MCP (p_Key (as_Principal a)) in
  if is_response m then s
  else if negb (MethodAllowed policy (as_Server a) (mg_Method m)) then
    refuse a m CodeMethodDenied ("method " +:+ mg_Method m +:+ " is not allowed for this key on server " +:+ as_Server a) "" "denied" s
  else
    let s := if String.eqb (mg_Method m) "tools/list" then mkScreening (sc_w s) (sc_refused s) ({[mg_ID m]} ∪ sc_listIDs s) else s in
    match ToolCall m with
    | None => s
    | Some (tool, args) =>
        if negb (Allowed policy (as_Server a) tool) then
          refuse a m CodeToolDenied ("tool " +:+ tool +:+ " is not allowed for this key on server " +:+ as_Server a) tool "denied" s
        else
          let '(w, limited) := step_run d a tool args (sc_w s) in
          let s := mkScreening w (sc_refused s) (sc_listIDs s) in
          if limited then refuse a m CodeRunLimit ("run limit reached or loop detected for run " +:+ as_RunID a) tool "run_limit" s else s
    end.

Definition writeRefusal (msgs refused : list RPCMessage) (batch : bool) : mcp_reply :=
  if negb batch then Refusal false (match refused with m :: _ => [m] | [] => [] end)
  else
    let done : gset string := list_to_set (map mg_ID refused) in
    Refusal true (refused ++ map (fun m => ErrorMessage (mg_ID m) CodeRunLimit "batch not forwarded because another call in it was refused")
      (List.filter (fun m => negb (String.eqb (mg_ID m) "") && negb (bool_decide (mg_ID m ∈ done))) msgs)).

(** [passthrough]: [on_complete] receives the status and whether a tool list was
    filtered. *)
Definition reply_headers (h : gmap string string) : gmap string string :=
  for_range ["Content-Type"; "Mcp-Session-Id"] ∅ (fun out k => let v := header_get h k in if String.eqb v "" then out else header_set out k v).

(** [io.ReadAll(io.LimitReader(body, n))] *)
Definition limit_read (n : Z) (body : string) : string := if slen body <=? n then body else stake (Z.to_nat n) body.

Definition passthrough (d : Deps) (r : mcp_request) (up : MCPUpstream) (f : option filterSpec) (on_complete : Z -> bool -> W -> W) (flusher : bool)
    (gone : bool) (w : W) : option (mcp_reply * W) :=
  let req := mkForwarded (rq_Method r) (up_URL up) (forward_headers (rq_Header r) up) (match f with Some f => fs_body f | None => "" end) in
  let timeout := if String.eqb (rq_Method r) "POST" then Some (post_timeout (dp_RequestTimeout d)) else None in
  match upstream w req timeout with
  | (inl _, w) => Some (McpError (ErrApi (Upstream "MCP server unavailable")), on_complete 502 false w)
  | (inr resp, w) =>
      let h := reply_headers (rp_Header resp) in
      if has_prefix "text/event-stream" (header_get (rp_Header resp) "Content-Type") then
        match NewWriter (mkRW h "" 0 gone) flusher with
        | None => Some (Relayed 200 h "", on_complete (rp_Status resp) false w)
        | Some sw =>
            let rd := NewReader (rp_Body resp) (rp_End resp) in
            match relay_events (S (S (String.length (rp_Body resp)))) f rd sw false with
            | None => None
            | Some (sw, any) => Some (Events (wr_w sw), on_complete (rp_Status resp) any w)
            end
        end
      else match f with
           | Some fs =>
               if bool_decide (fs_listIDs fs = ∅) then Some (Relayed (rp_Status resp) h (rp_Body resp), on_complete (rp_Status resp) false w)
               else let '(out, filtered) := apply f (limit_read (16 * 2 ^ 20) (rp_Body resp)) in
                    Some (Relayed (rp_Status resp) h out, on_complete (rp_Status resp) filtered w)
           | None => Some (Relayed (rp_Status resp) h (rp_Body resp), on_complete (rp_Status resp) false w)
           end
  end.

(** What is forwarded: the messages encoded again; [None] is a panic. *)
Definition canonicalBody (msgs : list RPCMessage) (batch : bool) : option string :=
  if batch then Some (marshal_messages msgs) else match msgs with m :: _ => Some (marshal_message m) | [] => None end.

Definition audit_messages (a : asking) (msgs : list RPCMessage) (status : Z) (filtered : bool) (w : W) : W :=
  let latencyMs := latency a w in
  for_range msgs w (fun w m =>
    let tool := match ToolCall m with Some (tool, _) => tool | None => "" end in
    let decision := if String.eqb (mg_Method m) "tools/list" && filtered then "filtered" else "allowed" in
    record_audit a (mg_Method m) tool decision status latencyMs w).

Definition unknown_server (name : string) : go_error := ErrApi (api_error 404 ("unknown MCP server " +:+ name) "invalid_request_error" "invalid_request").
Definition method_not_allowed : go_error := ErrApi (api_error 405 "method not allowed" "invalid_request_error" "method_not_allowed").

Definition screen_all (d : Deps) (a : asking) (msgs : list RPCMessage) (w : W) : screening := for_range msgs (mkScreening w [] ∅) (screen d a).

Definition serve_post (d : Deps) (r : mcp_request) (up : MCPUpstream) (a : asking) (flusher gone : bool) (w : W) : option (mcp_reply * W) :=
  match rq_Body r with
  | None => Some (McpError (ErrApi (BadRequest "body too large or unreadable")), w)
  | Some body =>
      match StrictParse ToLower body with
      | inl err => Some (McpError (ErrApi (BadRequest ("invalid JSON-RPC: " +:+ err))), w)
      | inr (msgs, batch) =>
          let s := screen_all d a msgs w in
          match sc_refused s with
          | _ :: _ => Some (writeRefusal msgs (sc_refused s) batch, sc_w s)
          | [] =>
              match canonicalBody msgs batch with
              | None => None
              | Some canonical =>
                  let f := mkFilterSpec canonical (sc_listIDs s) (Allowed (kp_MCP (p_Key (as_Principal a))) (as_Server a)) in
                  passthrough d r up (Some f) (audit_messages a msgs) flusher gone (sc_w s)
              end
          end
      end
  end.

(** [ServeHTTP]: [flusher] tells whether the response can be flushed, [gone]
    whether the client's connection is broken. *)
Definition ServeHTTP (d : Deps) (r : mcp_request) (p : Principal) (flusher gone : bool) (w : W) : option (mcp_reply * W) :=
  match dp_Upstreams d !! rq_Server r with
  | None => Some (McpError (unknown_server (rq_Server r)), w)
  | Some up =>
      let a := mkAsking (now w) p (rq_Server r) (mcp_run_id p (rq_Header r)) in
      if String.eqb (rq_Method r) "POST" then serve_post d r up a flusher gone w
      else if negb (String.eqb (rq_Method r) "GET") && negb (String.eqb (rq_Method r) "DELETE")
      then Some (McpError method_not_allowed, w)
      else passthrough d r up None (fun status _ w => record_audit a (rq_Method r) "" "allowed" status (latency a w) w) flusher gone w
  end.
End Proxy.

(** ** The relay *)

Definition filtered_event `{RPCJson} (f : option filterSpec) (e : Event) : Event := mkEvent (ev_ID e) (ev_Name e) (apply f (ev_Data e)).1.

(** The events written are the events read, one by one, each with its data
    filtered; a connection that is open stays open. *)
Lemma relay_events_exact `{RPCJson} f fuel rd sw any : rw_broken (wr_w sw) = false -> (String.length (rd_rest rd) < fuel)%nat ->
  exists es err sw' any', ReadAll fuel rd = (es, Some err) /\ relay_events fuel f rd sw any = Some (sw', any') /\
    sw' = write_all (map (filtered_event f) es) sw /\ any' = any || existsb (fun e => (apply f (ev_Data e)).2) es.
Proof.
  revert rd sw any. induction fuel as [|n IH]; intros rd sw any Hb Hf; [lia|]. rewrite ReadAll_S. cbn [relay_events].
  destruct (Next_some rd) as (rd' & res & E). rewrite E. destruct res as [err|ev].
  - exists [], err, sw, any. by rewrite orb_false_r.
  - apply Next_shorter in E as [Hs _]. destruct (apply f (ev_Data ev)) as [data filtered] eqn:Ea.
    assert (exists sw1, Writer_Event (mkEvent (ev_ID ev) (ev_Name ev) data) sw = (sw1, None) /\ rw_broken (wr_w sw1) = false) as (sw1 & Hw & Hb1).
    { unfold Writer_Event, send, Writer_start. destruct (wr_started sw); cbn; rewrite Hb; by eexists. }
    rewrite Hw. destruct (IH rd' sw1 (any || filtered) Hb1 ltac:(lia)) as (es & err & sw' & any' & -> & -> & -> & ->).
    exists (ev :: es), err, (write_all (map (filtered_event f) es) sw1), (any || filtered || existsb (fun e => (apply f (ev_Data e)).2) es).
    split_and!; [done|done| |cbn [existsb]; by rewrite Ea, orb_assoc].
    cbn [map]. unfold write_all. cbn [fold_left]. assert (filtered_event f ev = mkEvent (ev_ID ev) (ev_Name ev) data) as -> by (unfold filtered_event; by rewrite Ea).
    by rewrite Hw.
Qed.

Lemma relay_events_total `{RPCJson} f fuel rd sw any : (String.length (rd_rest rd) < fuel)%nat -> relay_events fuel f rd sw any <> None.
Proof.
  revert rd sw any. induction fuel as [|n IH]; intros rd sw any Hf; [lia|]. cbn [relay_events]. destruct (Next_some rd) as (rd' & res & E). rewrite E.
  destruct res as [err|ev]; [done|]. apply Next_shorter in E as [Hs _]. destruct (apply f (ev_Data ev)) as [data filtered].
  destruct (Writer_Event _ sw) as [sw1 [e|]]; [done|]. apply IH. lia.
Qed.

(** *** Headers *)

Definition header_from (h : gmap string string) (up : MCPUpstream) (k v : string) : Prop :=
  (exists k', k' ∈ passHeaders /\ CanonicalHeaderKey k' = k /\ header_get h k' = v) \/
  exists kv, kv ∈ up_Headers up /\ CanonicalHeaderKey kv.1 = k /\ kv.2 = v.

Lemma forward_headers_from h up k v : forward_headers h up !! k = Some v -> header_from h up k v.
Proof.
  unfold forward_headers, for_range, header_from.
  assert (forall l out, fold_left (fun out k => let v := header_get h k in if String.eqb v "" then out else header_set out k v) l out !! k = Some v ->
    out !! k = Some v \/ exists k', k' ∈ l /\ CanonicalHeaderKey k' = k /\ header_get h k' = v) as Hcopy.
  { induction l as [|k' l IH]; intros out; [by left|]. cbn [fold_left]. cbv zeta. intros Hl. apply IH in Hl as [Hl|(k2 & Hk & Hl)].
    - destruct (String.eqb (header_get h k') ""); [by left|]. unfold header_set in Hl. destruct (decide (CanonicalHeaderKey k' = k)) as [<-|Hne].
      + rewrite lookup_insert_eq in Hl. right. exists k'. split_and!; [constructor|done|by simplify_eq].
      + rewrite lookup_insert_ne in Hl by done. by left.
    - right. exists k2. split; [by constructor|done]. }
  assert (forall l out, fold_left (fun out kv => header_set out kv.1 kv.2) l out !! k = Some v ->
    out !! k = Some v \/ exists kv, kv ∈ l /\ CanonicalHeaderKey kv.1 = k /\ kv.2 = v) as Hconf.
  { induction l as [|kv l IH]; intros out; [by left|]. cbn [fold_left]. intros Hl. apply IH in Hl as [Hl|(k2 & Hk & Hl)].
    - unfold header_set in Hl. destruct (decide (CanonicalHeaderKey kv.1 = k)) as [<-|Hne].
      + rewrite lookup_insert_eq in Hl. right. exists kv. split_and!; [constructor|done|by simplify_eq].
      + rewrite lookup_insert_ne in Hl by done. by left.
    - right. exists k2. split; [by constructor|done]. }
  intros Hl. apply Hconf in Hl as [Hl|Hl]; [|by right]. apply Hcopy in Hl as [Hl|Hl]; [by rewrite lookup_empty in Hl|by left].
Qed.

(** ** What the upstream server receives *)

(** A world that records the forwarded requests. *)
#[export] Instance logged_runs {W} `{RunStore W} : RunStore (W * list forwarded) := {
  Step t r p fp c n w := let '(w', x) := Step t r p fp c n w.1 in ((w', w.2), x);
  Charge t r p a b c e w := let '(w', x) := Charge t r p a b c e w.1 in ((w', w.2), x)
}.

Section Forwarding.
Context {W : Type} `{RunStore W} `{RPCJson} (ToLower : string -> string) (sha256_hex : string -> string)
  (upstream : W -> forwarded -> option Duration -> (go_error + mcp_response) * W)
  (audit : Audit -> W -> W) (now : W -> Time).

Definition logged_ServeHTTP :=
  ServeHTTP (W := W * list forwarded) ToLower sha256_hex (fun w req d => let '(r, w') := upstream w.1 req d in (r, (w', w.2 ++ [req])))
    (fun a w => (audit a w.1, w.2)) (fun w => now w.1).

(** A message that the policy lets through. *)
Definition permitted (policy : option MCPPolicy) (server : string) (m : RPCMessage) : Prop :=
  is_response m = true \/
  MethodAllowed policy server (mg_Method m) = true /\ forall tool args, ToolCall m = Some (tool, args) -> Allowed policy server tool = true.

Lemma screen_permitted d a s m : 
  let s' := screen (W := W * list forwarded) (fun a w => (audit a w.1, w.2)) (fun w => now w.1) d a s m in
  (sc_w s').2 = (sc_w s).2 /\ (sc_refused s' = sc_refused s /\ permitted (kp_MCP (p_Key (as_Principal a))) (as_Server a) m \/
    exists e, sc_refused s' = sc_refused s ++ [e]).
Proof using.
  cbv zeta. unfold screen, permitted. destruct (is_response m); [split; [done|]; left; split; [done|by left]|].
  destruct (MethodAllowed _ _ _); [|split; [done|]; right; by eexists]. cbn [negb].
  set (s1 := if String.eqb (mg_Method m) "tools/list" then _ else s).
  assert (sc_w s1 = sc_w s /\ sc_refused s1 = sc_refused s) as [Hw Hr] by (subst s1; by case_match).
  destruct (ToolCall m) as [[tool args]|]; [|split; [by rewrite Hw|]; left; split; [done|]; right; by split].
  destruct (Allowed _ _ tool) eqn:Ea; cbn [negb].
  2: { split; [cbn; by rewrite Hw|]. right. cbn. rewrite Hr. by eexists. }
  assert ((step_run d a tool args (sc_w s1)).1.2 = (sc_w s).2) as Hs.
  { rewrite <- Hw. unfold step_run. destruct (kp_Run _); [|done]. destruct (_ && _); [|done]. cbn [Step logged_runs].
    destruct (Step _ _ _ _ _ _ _) as [w' [e|res]]; done. }
  destruct (step_run _ _ _ _ _) as [w limited]. cbn in Hs. destruct limited; cbn.
  - split; [done|]. right. rewrite Hr. by eexists.
  - split; [done|]. left. split; [done|]. right. split; [done|]. intros; by simplify_eq.
Qed.

Lemma screen_all_permitted d a msgs (w : W * list forwarded) :
  let s := screen_all (fun a w => (audit a w.1, w.2)) (fun w => now w.1) d a msgs w in
  (sc_w s).2 = w.2 /\ (sc_refused s = [] -> Forall (permitted (kp_MCP (p_Key (as_Principal a))) (as_Server a)) msgs).
Proof using.
  cbv zeta. unfold screen_all, for_range.
  assert (forall s, let s' := fold_left (screen (W := W * list forwarded) (fun a w => (audit a w.1, w.2)) (fun w => now w.1) d a) msgs s in
    (sc_w s').2 = (sc_w s).2 /\ (sc_refused s' = [] -> sc_refused s = [] /\ Forall (permitted (kp_MCP (p_Key (as_Principal a))) (as_Server a)) msgs)) as Hall.
  { induction msgs as [|m msgs IH]; intros s; [by split|]. cbn [fold_left]. destruct (screen_permitted d a s m) as [Hw Hm].
    destruct (IH (screen (W := W * list forwarded) (fun a w => (audit a w.1, w.2)) (fun w => now w.1) d a s m)) as [Hw' Hn].
    split; [by rewrite Hw', Hw|]. intros Hr. apply Hn in Hr as [Hr Hf]. destruct Hm as [[Hsame Hp]|[e He]].
    - rewrite Hsame in Hr. split; [done|by constructor].
    - rewrite He in Hr. by destruct (sc_refused s). }
  destruct (Hall (mkScreening w [] ∅)) as [Hw Hn]. split; [done|]. intros Hr. by apply Hn.
Qed.
End Forwarding.

(** ** Properties *)

(** C17. Nothing reaches an MCP server that the policy does not let through: a request
    makes at most one request to the configured server; its headers are the five
    protocol headers of the client or configured ones; a POST carries the encoding of
    messages each of which is a response or has an allowed method and, if it calls a
    tool, a tool that the key's policy lists and does not deny; and the handler
    always ends. *)
Theorem mcp_forwards_only_allowed {W : Type} `{RunStore W} `{RPCJson} (ToLower : string -> string) (sha256_hex : string -> string)
  (upstream : W -> forwarded -> option Duration -> (go_error + mcp_response) * W) (audit : Audit -> W -> W) (now : W -> Time)
  (d : Deps) (r : mcp_request) (p : Principal) (flusher gone : bool) (w : W) :
  exists reply w' log, logged_ServeHTTP ToLower sha256_hex upstream audit now d r p flusher gone (w, []) = Some (reply, (w', log)) /\
  (log = [] \/ exists req up, log = [req] /\ dp_Upstreams d !! rq_Server r = Some up /\
     fw_Method req = rq_Method r /\ fw_URL req = up_URL up /\
     (forall k v, fw_Header req !! k = Some v -> header_from (rq_Header r) up k v) /\
     if String.eqb (rq_Method r) "POST" then
       exists body msgs batch, rq_Body r = Some body /\ StrictParse ToLower body = inr (msgs, batch) /\
         canonicalBody msgs batch = Some (fw_Body req) /\ Forall (permitted (kp_MCP (p_Key p)) (rq_Server r)) msgs
     else fw_Body req = "").
Proof.
  unfold logged_ServeHTTP, ServeHTTP. destruct (dp_Upstreams d !! rq_Server r) as [up|] eqn:Hup; [|by eexists _, _, _; split; [|left]].
  set (lw := fun (a : Audit) (w : W * list forwarded) => (audit a w.1, w.2)).
  set (lup := fun (w : W * list forwarded) req d => let '(r, w') := upstream w.1 req d in (r, (w', w.2 ++ [req]))).
  assert (forall f complete w0, w0.2 = [] -> (forall st fl w, (complete st fl w).2 = w.2) ->
    exists reply w' , passthrough lup d r up f complete flusher gone w0 = Some (reply, w') /\
      w'.2 = [mkForwarded (rq_Method r) (up_URL up) (forward_headers (rq_Header r) up) (match f with Some f => fs_body f | None => "" end)]) as Hpass.
  { intros f complete w0 Hw0 Hc. unfold passthrough, lup at 1. destruct (upstream _ _ _) as [resp w1]. rewrite Hw0. cbn [app].
    destruct resp as [e|resp]; [eexists _, _; split; [done|by rewrite Hc]|]. destruct (has_prefix _ _).
    - destruct (NewWriter _ _) as [sw|]; [|eexists _, _; split; [done|by rewrite Hc]].
      pose proof (relay_events_total f (S (S (String.length (rp_Body resp)))) (NewReader (rp_Body resp) (rp_End resp)) sw false ltac:(cbn; lia)) as Ht.
      destruct (relay_events _ _ _ _ _) as [[sw' any]|]; [|done]. eexists _, _. split; [done|by rewrite Hc].
    - destruct f as [fs|]; [destruct (bool_decide _); [|destruct (apply _ _)]|]; eexists _, _; (split; [done|by rewrite Hc]). }
  destruct (String.eqb (rq_Method r) "POST") eqn:Em.
  - unfold serve_post. destruct (rq_Body r) as [body|]; [|by eexists _, _, _; split; [|left]].
    destruct (StrictParse ToLower body) as [err|[msgs batch]] eqn:Ep; [by eexists _, _, _; split; [|left]|].
    set (a := mkAsking _ _ _ _). destruct (screen_all_permitted audit now d a msgs (w, [])) as [Hw Hperm]. fold lw in Hw, Hperm.
    destruct (screen_all lw (fun w => now w.1) d a msgs (w, [])) as [sw refused ids]. cbn in Hw, Hperm |- *.
    destruct refused as [|e l]; [|exists (writeRefusal msgs (e :: l) batch), sw.1, []; split; [by rewrite <- Hw, <- surjective_pairing|by left]].
    destruct (canonicalBody msgs batch) as [canonical|] eqn:Ec.
    2: { exfalso. unfold canonicalBody in Ec. destruct batch; [done|]. destruct msgs; [|done]. unfold StrictParse, Parse in Ep. repeat case_match; simplify_eq. }
    match goal with |- context [passthrough _ _ _ _ ?f ?c _ _ _] => destruct (Hpass f c sw Hw) as (reply & w' & -> & Hlog) end.
    { intros st fl w0. unfold audit_messages, for_range. generalize (latency (fun w => now w.1) a w0) as n. clear. intros n.
      revert w0. induction msgs as [|m msgs IH]; intros w0; [done|]. cbn [fold_left]. by rewrite IH. }
    exists reply, w'.1, w'.2. rewrite <- surjective_pairing. split; [done|]. right. rewrite Hlog. eexists _, up. split_and!; try done.
    + intros k v. apply forward_headers_from.
    + exists body, msgs, batch. split_and!; try done. by apply Hperm.
  - destruct (negb _ && _); [by eexists _, _, _; split; [|left]|].
    match goal with |- context [passthrough _ _ _ _ ?f ?c _ _ _] => destruct (Hpass f c (w, []) eq_refl) as (reply & w' & -> & Hlog); [done|] end.
    exists reply, w'.1, w'.2. rewrite <- surjective_pairing. split; [done|]. right. rewrite Hlog. eexists _, up. split_and!; try done.
    intros k v. apply forward_headers_from.
Qed.

(** *** Tool lists *)

(** The names in a list of tools ([None] for a tool without one). *)
Definition tool_names `{RPCJson} (result : string) : option (list (option string)) :=
  unmarshal_object result ≫= fun obj => map unmarshal_name <$> unmarshal_list (default "" (obj !! "tools")).

(** What the filter relies on of package encoding/json: an empty text is an error,
    and a list of tools that was read can be read again after it was written into
    its object. *)
Class RPCJsonLaws `{RPCJson} : Prop := {
  empty_object : unmarshal_object "" = None;
  tools_written : forall result obj text tools kept, unmarshal_object result = Some obj -> unmarshal_list text = Some tools -> kept ⊆ tools ->
    tool_names (marshal_object (<["tools" := marshal_list kept]> obj)) = Some (map unmarshal_name kept)
}.

Definition name_allowed (allow : string -> bool) (n : option string) : bool := match n with Some n => allow n | None => false end.

(** [m'] is what a client may see of [m]. *)
Definition shown_as `{RPCJson} (f : filterSpec) (m m' : RPCMessage) : Prop :=
  mg_ID m' = mg_ID m /\ mg_Method m' = mg_Method m /\ mg_Params m' = mg_Params m /\ mg_Error m' = mg_Error m /\
  if bool_decide (mg_ID m ∈ fs_listIDs f) then
    forall names, tool_names (mg_Result m) = Some names -> tool_names (mg_Result m') = Some (List.filter (name_allowed (fs_allow f)) names)
  else m' = m.

Lemma filter_names `{RPCJson} allow tools :
  map unmarshal_name (List.filter (tool_kept allow) tools) = List.filter (name_allowed allow) (map unmarshal_name tools).
Proof. induction tools as [|t tools IH]; [done|]. cbn. unfold tool_kept at 1, name_allowed at 1. destruct (unmarshal_name t) as [n|] eqn:En; [destruct (allow n)|]; cbn; by rewrite ?En, IH. Qed.

Lemma filter_message_shown `{RPCJsonLaws} f m : shown_as f m (filter_message f m).1.1 /\
  ((filter_message f m).1.2 = false -> (filter_message f m).1.1 = m).
Proof.
  unfold filter_message, shown_as. destruct (bool_decide (mg_ID m ∈ fs_listIDs f)); cbn [andb]; [|by split_and!].
  destruct (String.eqb_spec (mg_Result m) "") as [Er|Er]; cbn [negb].
  { cbn. split_and!; try done. intros names. unfold tool_names. rewrite Er, empty_object. done. }
  unfold FilterToolsList, tool_names. destruct (unmarshal_object (mg_Result m)) as [obj|] eqn:Eo; cbn; [|by split_and!].
  destruct (unmarshal_list _) as [tools|] eqn:El; cbn.
  - split; [|done]. split_and!; try done. intros names [= <-]. rewrite <- filter_names. eapply tools_written; [exact Eo|exact El|].
    intros t Ht. apply list_elem_of_In, filter_In in Ht as [Ht _]. by apply list_elem_of_In.
  - by split_and!.
Qed.

(** A key sees the tools it may call: in the reply to a [tools/list], each list of
    tools is left with exactly the tools the policy allows, in their order, and every
    other message is passed on as it is. *)
Theorem tool_lists_filtered `{RPCJsonLaws} (f : filterSpec) (data : string) (msgs : list RPCMessage) (batch : bool) :
  fs_listIDs f <> ∅ -> Parse data = inr (msgs, batch) ->
  exists msgs', Forall2 (shown_as f) msgs msgs' /\
    ((apply (Some f) data).1 = data /\ msgs' = msgs \/ canonicalBody msgs' batch = Some (apply (Some f) data).1).
Proof.
  intros Hids Hp. exists (map (fun m => (filter_message f m).1.1) msgs). split.
  - apply Forall2_fmap_r, Forall2_same_length_lookup_2; [done|]. intros i x y Hx Hy. simplify_eq. apply filter_message_shown.
  - unfold apply. rewrite bool_decide_false by done. rewrite Hp. destruct (existsb _ _) eqn:Ex; cbn [negb].
    + right. cbn [fst]. rewrite map_map. unfold canonicalBody. destruct batch; [done|]. destruct msgs; [|done].
      unfold Parse in Hp. by repeat case_match; simplify_eq.
    + left. split; [done|]. clear Hp. induction msgs as [|m msgs IH]; [done|]. cbn in *. apply orb_false_iff in Ex as [Em Ex].
      f_equal; [by apply filter_message_shown|by apply IH].
Qed.

(** A reply that is not JSON, for one because only the first sixteen megabytes of it
    were read, and a list whose identifier is spelled differently are not filtered. *)
Theorem unread_lists_unfiltered `{RPCJson} (f : filterSpec) (data : string) :
  (forall e, Parse data = inl e -> (apply (Some f) data).1 = data) /\
  (forall msgs batch, Parse data = inr (msgs, batch) -> (forall m, m ∈ msgs -> mg_ID m ∉ fs_listIDs f) -> (apply (Some f) data).1 = data) /\
  (apply None data).1 = data.
Proof.
  split_and!; [| |done].
  - intros e He. unfold apply. destruct (bool_decide _); [done|]. by rewrite He.
  - intros msgs batch Hp Hids. unfold apply. destruct (bool_decide _); [done|]. rewrite Hp.
    assert (existsb (fun x : RPCMessage * bool * bool => x.1.2) (map (filter_message f) msgs) = false) as ->; [|done].
    apply not_true_iff_false. intros (x & Hx & Ht)%existsb_exists. apply in_map_iff in Hx as (m & <- & Hm). unfold filter_message in Ht.
    rewrite bool_decide_false in Ht; [done|]. apply Hids. by apply list_elem_of_In.
Qed.

(** ** Examples

    An encoding of lists and objects with the laws: a tool is its name, a value is
    written as the bits of its code. *)

Fixpoint bits (p : positive) : string :=
  match p with xH => "" | xO p => String "0" (bits p) | xI p => String "1" (bits p) end.
Fixpoint unbits (s : string) : positive :=
  match s with EmptyString => xH | String c s => if Ascii.eqb c "1" then xI (unbits s) else xO (unbits s) end.

Lemma unbits_bits p : unbits (bits p) = p.
Proof. induction p; cbn; by rewrite ?IHp. Qed.

Definition demo_message (s : string) : RPCMessage :=
  if String.eqb s "list" then mkRPC "2.0" "1" "tools/list" "" "" None
  else if String.eqb s "read" then mkRPC "2.0" "2" "tools/call" "read_file" "" None
  else if String.eqb s "drop" then mkRPC "2.0" "3" "tools/call" "delete_file" "" None
  else mkRPC "2.0" "1" "" "" s None.

#[export] Instance demo_json : RPCJson := {
  json_tokens s := toks (JObj [("method", JStr s)]);
  unmarshal_messages _ := inl "no batches here";
  unmarshal_message s := inr (demo_message s);
  unmarshal_call params := Some (params, "");
  unmarshal_object s := match s with String "{"%char s => countable.decode (unbits s) | _ => None end;
  unmarshal_list s := match s with String "("%char s => countable.decode (unbits s) | _ => None end;
  unmarshal_name s := Some s;
  marshal_messages _ := "";
  marshal_message m := mg_Result m;
  marshal_list l := String "(" (bits (countable.encode l));
  marshal_object o := String "{" (bits (countable.encode o))
}.

#[export] Instance demo_json_laws : RPCJsonLaws.
Proof.
  split; [done|]. intros result obj text tools kept _ _ _. unfold tool_names. cbn. rewrite unbits_bits, countable.decode_encode. cbn.
  rewrite lookup_insert_eq. cbn. by rewrite unbits_bits, countable.decode_encode.
Qed.

Definition files_policy : MCPPolicy :=
  mkMCPPolicy {["files" := mkMCPServerPolicy ["read_*"; "list_dir"] ["read_secret*"] []]} [].
Definition reader_key : Principal := mkPrincipal "acme" "" "k1" "" [] false no_limits (mkKeyPolicy false None (Some files_policy)).
Definition demo_tools : string := marshal_object {["tools" := marshal_list ["read_file"; "delete_file"; "read_secrets"; "list_dir"]]}.
Definition demo_server (w : unit) (r : forwarded) (d : option Duration) : (go_error + mcp_response) * unit :=
  (inr (mkMcpResponse 200 {["Content-Type" := "application/json"]} demo_tools EOF), w).
#[export] Instance no_runs : RunStore unit := { Step _ _ _ _ _ _ w := (w, inr (mkStepResult AgentRun.Allowed 0 0 0 0)); Charge _ _ _ _ _ _ _ w := (w, None) }.
Definition demo_mcp (key : Principal) (body : string) :=
  ServeHTTP lower_ascii (fun s => s) demo_server (fun _ w => w) (fun _ => 0) (mkDeps {["files" := mkUpstream "files" "https://files" []]} false 0)
    (mkMcpRequest "POST" "files" ∅ (Some body)) key true false tt.
Definition anonymous_key : Principal := mkPrincipal "acme" "" "k2" "" [] false no_limits no_key_policy.

Definition seen_tools (r : option (mcp_reply * unit)) : option (list (option string)) :=
  match r with Some (Relayed _ _ body, _) => tool_names body | _ => None end.

Example mcp_ex :
  seen_tools (demo_mcp reader_key "list") = Some [Some "read_file"; Some "list_dir"] /\
  seen_tools (demo_mcp anonymous_key "list") = Some [] /\
  match demo_mcp reader_key "drop" with Some (Refusal false [m], _) => option_map re_Code (mg_Error m) | _ => None end = Some CodeToolDenied /\
  seen_tools (demo_mcp reader_key "read") = Some [Some "read_file"; Some "delete_file"; Some "read_secrets"; Some "list_dir"].
Proof. vm_compute. split_and!; reflexivity. Qed.

(** The first call of a batch has taken its step when the second is refused, and
    nothing is forwarded. *)
#[export] Instance noted_runs : RunStore (list string) := {
  Step _ _ _ fp _ _ w := (w ++ [fp], inr (mkStepResult AgentRun.Allowed 1 0 0 0)); Charge _ _ _ _ _ _ _ w := (w, None) }.
Definition runner_key : Principal := mkPrincipal "acme" "" "k1" "" [] false no_limits (mkKeyPolicy false (Some demo_run_policy) (Some files_policy)).

Example refused_batch_charges_run :
  let s := screen_all (fun _ w => w) (fun _ => 0) (mkDeps ∅ true 0) (mkAsking 0 runner_key "files" "run-1")
    [demo_message "read"; demo_message "drop"] [] in
  sc_w s = ["mcp:files:read_file:"] /\ map mg_ID (sc_refused s) = ["3"].
Proof. vm_compute. by split. Qed.

Definition all_tools : list (option string) := [Some "read_file"; Some "delete_file"; Some "read_secrets"; Some "list_dir"].

Lemma tool_lists_filtered_witness :
  tool_names (apply (Some (mkFilterSpec "" {["1"]} (Mcp.Allowed (Some files_policy) "files"))) demo_tools).1 =
    Some [Some "read_file"; Some "list_dir"].
Proof.
  destruct (tool_lists_filtered (mkFilterSpec "" {["1"]} (Mcp.Allowed (Some files_policy) "files")) demo_tools [demo_message demo_tools] false)
    as (msgs' & Hf & Ha); [by vm_compute|vm_cast_no_check (@eq_refl (string + list RPCMessage * bool) (inr ([demo_message demo_tools], false)))|].
  apply Forall2_cons_inv_l in Hf as (m' & l & (_ & _ & _ & _ & Hs) & Hl & ->). apply Forall2_nil_inv_l in Hl as ->.
  assert (Hn : tool_names (mg_Result (demo_message demo_tools)) = Some all_tools) by vm_cast_no_check (eq_refl (Some all_tools)).
  assert (Hid : mg_ID (demo_message demo_tools) = "1") by vm_cast_no_check (eq_refl "1").
  rewrite bool_decide_true in Hs by (rewrite Hid; set_solver).
  specialize (Hs all_tools Hn).
  revert Ha Hs. generalize (apply (Some (mkFilterSpec "" {["1"]} (Mcp.Allowed (Some files_policy) "files"))) demo_tools).1.
  intros sent [[_ [= ->]]|[= <-]] Hs.
  - rewrite Hn in Hs. by vm_compute in Hs.
  - rewrite Hs. by vm_compute.
Defined.
