(* ===== verification/SmartRoute.v ===== *)
(** * Smart routing (src/internal/smartroute)

    The rules that call a prompt cheap or strong, the vote of labelled
    neighbours, and the stage that records the decision of a call and, when the
    route is switched on, sends it to the cheap or the strong target.  The
    embedder, the index of neighbours, the recorder and the shadow callback are
    functions on a world [W]. *)

From S2P Require Import Prelude GoStrings GoFloat GoFloatInt Breaker Config Api Execute Policy Regex Route Pipeline.

Open Scope string_scope.
Open Scope list_scope.
Open Scope Z_scope.

(** ** Rules (rules.go) *)

Definition DecisionCheap : string := "cheap".
Definition DecisionStrong : string := "strong".
Definition DecisionUncertain : string := "uncertain".

Definition ReasonCode : string := "rule_code".
Definition ReasonMath : string := "rule_math".
Definition ReasonLongContext : string := "rule_long_context".
Definition ReasonSimpleFactual : string := "rule_simple_factual".
Definition ReasonGreeting : string := "rule_greeting".
Definition ReasonNone : string := "rule_none".
Definition ReasonKNN : string := "knn_confident".

Record Classification := mkClassification { kl_Decision : string; kl_Reason : string }.

Definition sp : re := plus space.
Definition sp_words (l : list string) : re :=
  cats (match map ilit l with [] => [] | r :: rs => r :: flat_map (fun r => [sp; r]) rs end).

Definition codeRegex : re :=
  ors [ilit "```"; ilit "<code>";
       Cat WordB (ors (map (fun w => Cat (ilit w) sp) ["def"; "function"; "class"; "import"; "const"; "var"; "return"] ++
                       map (fun w => Cat (ilit w) WordB) ["debug"; "refactor"; "algorithm"; "complexity"] ++
                       [Cat (sp_words ["stack"; "trace"]) WordB; Cat (sp_words ["syntax"; "error"]) WordB]))].

Definition mathRegex : re :=
  ors (map sp_words [["prove"; "that"]; ["derive"; "the"]; ["calculate"; "the"; "probability"]; ["step"; "by"; "step"];
                     ["solve"; "for"; "x"]; ["integral"; "of"]; ["differential"; "equation"];
                     ["compare"; "and"; "contrast"]; ["critique"; "the"; "argument"]]).

(** The trailing class of the anchored patterns. *)
Definition tail_of (marks : string) : re := star (Chr (fun c => one_of_bytes marks c || is_re_space c)).

(** The alternatives of [greetingRegex] and [factualRegex] without their anchors:
    each one starts with [^] and ends with [$]. *)
Definition greetingRegex : re :=
  ors [cats [ors (map ilit ["hello"; "hi"; "hey"; "greetings"]);
             opt (Cat sp (ors (map ilit ["there"; "everyone"; "all"]))); tail_of ".!?"];
       cats [ors [ilit "thanks"; sp_words ["thank"; "you"]];
             opt (Cat sp (ors (map sp_words [["very"; "much"]; ["so"; "much"]; ["a"; "lot"]]))); tail_of ".!?"];
       cats [sp_words ["who"; "are"; "you"]; tail_of ".!?"]].

Definition factualRegex : re :=
  cats [ors [sp_words ["what"; "is"; "the"; "capital"; "of"];
             sp_words ["how"; "many"; "inches"; "in"; "a"; "foot"];
             cats [ilit "define"; sp; plus (Chr is_word)]]; tail_of ".?"].

(** [MatchString] of a pattern anchored at both ends. *)
Definition FullMatch (r : re) (text : string) : bool :=
  existsb (fun s : option ascii * string => String.eqb s.2 "") (ends r (None, text)).

(** The last user message. *)
Definition PromptText (req : ChatRequest) : string :=
  match List.find (fun m => String.eqb (m_Role m) "user") (rev (r_Messages req)) with
  | Some m => Content_PlainText (m_Content m)
  | None => ""
  end.

Definition Rule_Classify (req : ChatRequest) (maxTokensForCheap : Z) : Classification :=
  let maxTokensForCheap := if maxTokensForCheap <=? 0 then 1500 else maxTokensForCheap in
  let estTokens := EstimatePromptTokens req in
  if maxTokensForCheap <? estTokens then mkClassification DecisionStrong ReasonLongContext
  else
    let text := PromptText req in
    let trimmed := trim_space text in
    if MatchString codeRegex text then mkClassification DecisionStrong ReasonCode
    else if MatchString mathRegex text then mkClassification DecisionStrong ReasonMath
    else if FullMatch greetingRegex trimmed then mkClassification DecisionCheap ReasonGreeting
    else if FullMatch factualRegex trimmed then mkClassification DecisionCheap ReasonSimpleFactual
    else if (estTokens <? 100) && (has_prefix "what is " (lower_ascii trimmed) || has_prefix "define " (lower_ascii trimmed))
         then mkClassification DecisionCheap ReasonSimpleFactual
    else mkClassification DecisionUncertain ReasonNone.

Definition asks (text : string) : ChatRequest := plain_request "smart" [plain_message "user" text].

Example classify_ex : map (fun t => kl_Reason (Rule_Classify (asks t) 0))
  ["Hello there!"; "thank you so  much."; "hello world"; "Please DEBUG this"; "redebugging"; "Define  entropy?";
   "what is love"; "prove   that it holds"; "my stack trace"; "the variable"; "var x"] =
  [ReasonGreeting; ReasonGreeting; ReasonNone; ReasonCode; ReasonNone; ReasonSimpleFactual;
   ReasonSimpleFactual; ReasonMath; ReasonCode; ReasonNone; ReasonCode].
Proof. vm_compute. reflexivity. Qed.

(** ** Neighbours (knn.go) *)

Record LabeledExample := mkLabeledExample { le_ID : string; le_Vector : list spec_float; le_CheapScore : spec_float; le_StrongScore : spec_float }.
Record Neighbor := mkNeighbor { nb_Example : LabeledExample; nb_Distance : spec_float }.

Section KNN.
Context {W : Type}.

Record KNNClassifierImpl := mkKNN {
  kn_embedder : option (W -> string -> W * (string + list spec_float));
  kn_index : option (W -> list spec_float -> Z -> W * (string + list Neighbor));
  kn_k : Z;
  kn_confidenceThreshold : spec_float;
  kn_epsilon : spec_float
}.

Definition NewKNNClassifier embedder index (k : Z) (threshold : spec_float) : KNNClassifierImpl :=
  mkKNN embedder index (if k <=? 0 then 7 else k)
    (if fleb threshold f0 then f_lit 70 100 else threshold) (f_lit 5 100).

Definition cheap_safe (c : KNNClassifierImpl) (n : Neighbor) : bool :=
  fgeb (le_CheapScore (nb_Example n)) (fsub (le_StrongScore (nb_Example n)) (kn_epsilon c)).

Definition weight (n : Neighbor) : spec_float := fdiv f1 (fadd f1 (math_Max f0 (nb_Distance n))).

(** The weights of all neighbours and of the cheap-safe ones. *)
Definition vote (c : KNNClassifierImpl) (ns : list Neighbor) : spec_float * spec_float :=
  for_range ns (f0, f0) (fun '(sumWeight, cheapWeight) n =>
    let w := weight n in
    (fadd sumWeight w, if cheap_safe c n then fadd cheapWeight w else cheapWeight)).

Definition decide_vote (c : KNNClassifierImpl) (ns : list Neighbor) : Classification * spec_float :=
  let '(sumWeight, cheapWeight) := vote c ns in
  if feqb sumWeight f0 then (mkClassification DecisionStrong ReasonNone, f_lit 5 10)
  else
    let score := fdiv cheapWeight sumWeight in
    if fgeb score (kn_confidenceThreshold c) then (mkClassification DecisionCheap ReasonKNN, score)
    else (mkClassification DecisionStrong ReasonKNN, fsub f1 score).

Definition KNN_Classify (c : KNNClassifierImpl) (w : W) (text : string) : W * (Classification * spec_float * option string) :=
  let unsure e := (mkClassification DecisionStrong ReasonNone, f_lit 5 10, e) in
  match kn_index c with
  | None => (w, unsure None)
  | Some nearest =>
      let '(w, vec) := match kn_embedder c with
                       | None => (w, inr [])
                       | Some embed => embed w text
                       end in
      match vec with
      | inl e => (w, unsure (Some e))
      | inr vec =>
          let '(w, r) := nearest w vec (kn_k c) in
          match r with
          | inl e => (w, unsure (Some e))
          | inr [] => (w, unsure None)
          | inr ns => let '(cl, score) := decide_vote c ns in (w, (cl, score, None))
          end
      end
  end.
End KNN.
Arguments KNNClassifierImpl : clear implicits.

Definition labelled (cheap strong distance : spec_float) : Neighbor := mkNeighbor (mkLabeledExample "" [] cheap strong) distance.
Definition demo_knn (threshold : spec_float) : KNNClassifierImpl unit := NewKNNClassifier None None 0 threshold.

Example vote_ex : let t := labelled (f_of_Z 5) (f_of_Z 5) in let f := labelled (f_of_Z 2) (f_of_Z 5) in
  map (fun ns => kl_Decision (decide_vote (demo_knn f0) ns).1)
    [[t f0; t f1; f f1]; [t f0; f f0]; [f f0; f f1]; [t f1]] = ["cheap"; "strong"; "strong"; "cheap"].
Proof. vm_compute. reflexivity. Qed.

(** ** The stage (stage.go) *)

(** [proof.RoutingDecision] and [proof.RoutingShadowTask]. *)
Record RoutingDecision := mkRoutingDecision {
  rd_TS : Time; rd_RequestID : string; rd_TenantID : string; rd_Route : string; rd_Decision : string; rd_Reason : string;
  rd_Score : spec_float; rd_CostMicros : Z; rd_CounterfactualMicros : Z }.
Record RoutingShadowTask := mkShadowTask {
  rs_ID : string; rs_TenantID : string; rs_Route : string; rs_Decision : string; rs_CheapTarget : string; rs_StrongTarget : string;
  rs_Prompt : string; rs_CheapAnswer : string; rs_StrongAnswer : string; rs_JudgeModel : string }.

Definition decisionKey : string := "routing.decision".
Definition reasonKey : string := "routing.reason".
Definition scoreKey : string := "routing.score".
Definition decisionHeader : string := "X-ProofGate-Route-Decision".

Definition set_Target (c : Call) (t : Target) : Call :=
  mkCall (cl_ID c) (cl_Start c) (cl_Principal c) (cl_Request c) (cl_Route c) (cl_Stream c) (cl_Response c)
    (cl_ClientResponse c) t (cl_Attempts c) (cl_Usage c) (cl_CostMicros c) (cl_HedgeCostMicros c)
    (cl_CacheStatus c) (cl_Err c) (cl_Internal c) (cl_Header c) (cl_Incoming c) (cl_Values c).

Section Stage.
Context {W : Type}.

Record SmartStage := mkSmartStage {
  sm_knn : option (W -> string -> W * (Classification * spec_float * option string));
  sm_recorder : option (W -> RoutingDecision -> W);
  sm_shadow : option (W -> RoutingShadowTask -> ChatRequest -> W);
  sm_nowFn : W -> Time
}.

(** The vote, when the rules are uncertain and the route asks for it. *)
Definition refine (s : SmartStage) (w : W) (cfg : SmartRouteConfig) (req : ChatRequest) (class : Classification)
  : W * (Classification * spec_float) :=
  match sm_knn s with
  | Some classify =>
      if String.eqb (kl_Decision class) DecisionUncertain && sr_KNNEnabled cfg then
        let '(w, (knnClass, knnScore, err)) := classify w (PromptText req) in
        match err with
        | None => if fgeb knnScore (sr_ConfidenceThreshold cfg) then (w, (knnClass, knnScore)) else (w, (class, f1))
        | Some _ => (w, (class, f1))
        end
      else (w, (class, f1))
  | None => (w, (class, f1))
  end.

(** The decision of a call on a route that is not switched off. *)
Definition decide_call (s : SmartStage) (w : W) (cfg : SmartRouteConfig) (req : ChatRequest) : W * (Classification * spec_float) :=
  let '(w, (class, score)) := refine s w cfg req (Rule_Classify req (sr_MaxTokensForCheap cfg)) in
  if String.eqb (kl_Decision class) DecisionUncertain
  then (w, (mkClassification DecisionStrong (kl_Reason class), f_lit 5 10))
  else (w, (class, score)).

Definition chosen_target (cfg : SmartRouteConfig) (decision : string) : option Target :=
  ParseTarget (if String.eqb decision DecisionCheap then sr_CheapTarget cfg else sr_StrongTarget cfg).

(** What [Before] leaves in the call. *)
Definition mark (c : Call) (class : Classification) (score : spec_float) : Call :=
  set_Header (set_Value (set_Value (set_Value c decisionKey (AString (kl_Decision class)))
    reasonKey (AString (kl_Reason class))) scoreKey (AFloat score))
    decisionHeader (kl_Decision class +:+ "; " +:+ kl_Reason class).

Definition switched_off (cfg : SmartRouteConfig) : bool := String.eqb (sr_Mode cfg) "" || String.eqb (sr_Mode cfg) "off".

Definition Smart_Before (s : SmartStage) (w : W) (c : Call) : W * Call * (bool * option go_error) :=
  match cl_Route c with
  | None => (w, c, (false, None))
  | Some rt =>
      let cfg := ro_SmartRoute rt in
      if switched_off cfg then (w, c, (false, None))
      else
        let '(w, (class, score)) := decide_call s w cfg (cl_Request c) in
        let c := mark c class score in
        if String.eqb (sr_Mode cfg) "on" then
          match chosen_target cfg (kl_Decision class) with
          | Some t => (w, set_Target c t, (false, None))
          | None => (w, c, (false, None))
          end
        else (w, c, (false, None))
  end.

Definition string_value (c : Call) (k : string) : string :=
  match cl_Values c !! k with Some (AString s) => s | _ => "" end.
Definition float_value (c : Call) (k : string) : spec_float :=
  match cl_Values c !! k with Some (AFloat x) => x | _ => f0 end.

Definition counterfactual (decision : string) (cost : Z) : Z :=
  if String.eqb decision DecisionCheap then wrap64 (cost * 4) else cost.

Definition decision_row (now : Time) (c : Call) (rt : Route) (decision : string) : RoutingDecision :=
  mkRoutingDecision now (cl_ID c) (TenantID (cl_Principal c)) (ro_Name rt) decision (string_value c reasonKey)
    (float_value c scoreKey) (cl_CostMicros c) (counterfactual decision (cl_CostMicros c)).

(** The answer of the call, if it may be shadowed. *)
Definition shadow_answer (c : Call) (rt : Route) : option string :=
  if negb (tp_ShadowConsent (p_Tenant (cl_Principal c))) then None
  else match cl_Err c, cl_Response c with
  | None, Some resp =>
      match cr_Choices resp with
      | [] => None
      | ch :: _ =>
          let cfg := ro_SmartRoute rt in
          if negb (String.eqb (sr_Mode cfg) "on") then None
          else
            let answer := Content_PlainText (m_Content (ch_Message ch)) in
            if String.eqb answer "" || String.eqb (sr_CheapTarget cfg) "" || String.eqb (sr_StrongTarget cfg) "" then None
            else Some answer
      end
  | _, _ => None
  end.

Definition shadow_task (c : Call) (rt : Route) (decision answer : string) : RoutingShadowTask :=
  let cfg := ro_SmartRoute rt in
  let cheap := String.eqb decision DecisionCheap in
  mkShadowTask "" (TenantID (cl_Principal c)) (ro_Name rt) decision (sr_CheapTarget cfg) (sr_StrongTarget cfg)
    (PromptText (cl_Request c)) (if cheap then answer else "") (if cheap then "" else answer) "".

Definition Smart_After (s : SmartStage) (w : W) (c : Call) : W * Call :=
  let decision := string_value c decisionKey in
  match cl_Route c with
  | None => (w, c)
  | Some rt =>
      if String.eqb decision "" || has_prefix "hit-" (cl_CacheStatus c) then (w, c)
      else
        let w := match sm_recorder s with
                 | Some emit => emit w (decision_row (sm_nowFn s w) c rt decision)
                 | None => w
                 end in
        match sm_shadow s, shadow_answer c rt with
        | Some shadow, Some answer => (shadow w (shadow_task c rt decision answer) (cl_Request c), c)
        | _, _ => (w, c)
        end
  end.

Definition smart_stage (s : SmartStage) : Stage W := mkStage "smartroute" (Smart_Before s) (Smart_After s) None.
End Stage.
Arguments SmartStage : clear implicits.

(** ** What the vote promises *)

Lemma vote_unsupported {W} (c : KNNClassifierImpl W) ns :
  Forall (fun n => cheap_safe c n = false) ns -> (vote c ns).2 = f0.
Proof.
  unfold vote, for_range. generalize f0 at 1 as a. induction ns as [|n ns IH]; intros a H; [done|].
  apply Forall_cons in H as [Hn Hns]. cbn [fold_left]. rewrite Hn. by apply IH.
Qed.

(** Zero divided by anything is zero or not a number, and neither reaches a
    threshold the constructor keeps. *)
Lemma zero_score_fails x t : fleb t f0 = false -> fgeb (fdiv f0 x) t = false.
Proof.
  intros Ht. assert (fdiv f0 x = S754_nan \/ exists b, fdiv f0 x = S754_zero b) as [->|[b ->]].
  { destruct x; [left|right; eexists|left|right; eexists]; reflexivity. }
  - by destruct t.
  - unfold fgeb. by destruct t.
Qed.

Lemma threshold_kept t : fleb (if fleb t f0 then f_lit 70 100 else t) f0 = false.
Proof. by destruct (fleb t f0) eqn:E. Qed.

Lemma decide_vote_cases {W} (c : KNNClassifierImpl W) ns class score :
  decide_vote c ns = (class, score) ->
  kl_Decision class = DecisionStrong \/
  class = mkClassification DecisionCheap ReasonKNN /\ fgeb score (kn_confidenceThreshold c) = true /\
  score = fdiv (vote c ns).2 (vote c ns).1.
Proof.
  unfold decide_vote. destruct (vote c ns) as [s ch]. destruct (feqb s f0); [intros; simplify_eq; by left|].
  destruct (fgeb (fdiv ch s) _) eqn:Hs; intros; simplify_eq; [by right|by left].
Qed.

(** A prompt is called cheap by its neighbours only if the index answered and at
    least one of them had a cheap answer about as good as the strong one, with a
    share of the votes that reaches the threshold; every failure says strong. *)
Theorem knn_cheap_needs_support {W} embedder index (k : Z) (threshold : spec_float)
  (w w' : W) (text : string) (class : Classification) (score : spec_float) (err : option string) :
  let c := NewKNNClassifier embedder index k threshold in
  KNN_Classify c w text = (w', (class, score, err)) ->
  kl_Decision class = DecisionStrong \/
  (class = mkClassification DecisionCheap ReasonKNN /\ err = None /\ fgeb score (kn_confidenceThreshold c) = true /\
   exists nearest vec w1 ns, index = Some nearest /\ nearest w1 vec (kn_k c) = (w', inr ns) /\ 1 <= kn_k c /\
     Exists (fun n => cheap_safe c n = true) ns).
Proof.
  intros c. unfold KNN_Classify. destruct (kn_index c) as [nearest|] eqn:Ei; [|intros; simplify_eq; by left].
  destruct (match kn_embedder c with None => _ | Some _ => _ end) as [w1 [e|vec]]; [intros; simplify_eq; by left|].
  destruct (nearest w1 vec (kn_k c)) as [w2 [e|ns]] eqn:En; [intros; simplify_eq; by left|].
  destruct ns as [|n ns]; [intros; simplify_eq; by left|].
  destruct (decide_vote c (n :: ns)) as [cl sc] eqn:Ed. intros; simplify_eq.
  apply decide_vote_cases in Ed as [Hs|(Hc & Hs & ->)]; [by left|right].
  split_and!; [done..|]. exists nearest, vec, w1, (n :: ns).
  split_and!; [done|done|simpl; destruct (Z.leb_spec k 0); lia|].
  destruct (Forall_Exists_dec (fun m => cheap_safe c m = false) (fun m => cheap_safe c m = true)
    (fun m => match cheap_safe c m as b return {b = false} + {b = true} with true => right eq_refl | false => left eq_refl end)
    (n :: ns)) as [Hno|]; [|done].
  rewrite vote_unsupported in Hs by done. by rewrite zero_score_fails in Hs by apply threshold_kept.
Qed.

(** ** What the stage promises *)

Lemma rules_decide req n : kl_Decision (Rule_Classify req n) = DecisionCheap \/
  kl_Decision (Rule_Classify req n) = DecisionStrong \/ kl_Decision (Rule_Classify req n) = DecisionUncertain.
Proof. unfold Rule_Classify. cbv zeta. repeat case_match; auto. Qed.

(** The neighbours say cheap, with enough confidence. *)
Definition neighbours_say_cheap {W} (s : SmartStage W) (w : W) (cfg : SmartRouteConfig) (req : ChatRequest) (score : spec_float) : Prop :=
  sr_KNNEnabled cfg = true /\ exists classify w' class,
    sm_knn s = Some classify /\ classify w (PromptText req) = (w', (class, score, None)) /\
    kl_Decision class = DecisionCheap /\ fgeb score (sr_ConfidenceThreshold cfg) = true.

Ltac unsure Hu := simpl; rewrite Hu; simpl; intros; simplify_eq; split_and!; by intros.

Lemma decide_call_sound {W} (s : SmartStage W) w cfg req w' class score :
  decide_call s w cfg req = (w', (class, score)) ->
  kl_Decision class <> DecisionUncertain /\
  (kl_Decision (Rule_Classify req (sr_MaxTokensForCheap cfg)) <> DecisionUncertain ->
    w' = w /\ class = Rule_Classify req (sr_MaxTokensForCheap cfg) /\ score = f1) /\
  (kl_Decision class = DecisionCheap ->
    kl_Decision (Rule_Classify req (sr_MaxTokensForCheap cfg)) = DecisionCheap \/ neighbours_say_cheap s w cfg req score).
Proof.
  unfold decide_call, refine, neighbours_say_cheap. set (rule := Rule_Classify _ _). clearbody rule.
  destruct (String.eqb_spec (kl_Decision rule) DecisionUncertain) as [Hu|Hu].
  - destruct (sm_knn s) as [classify|] eqn:Es; [|unsure Hu].
    destruct (sr_KNNEnabled cfg); [|unsure Hu]. simpl.
    destruct (classify w (PromptText req)) as [w1 [[kc ks] [e|]]] eqn:Ec; [unsure Hu|].
    destruct (fgeb ks _) eqn:Et; [|unsure Hu].
    destruct (String.eqb_spec (kl_Decision kc) DecisionUncertain); intros; simplify_eq; [done|].
    split_and!; [done|done|]. intros Hc. right. split; [done|]. by exists classify, w', class.
  - intros H. assert ((w, (rule, f1)) = (w', (class, score))) as E.
    { destruct (sm_knn s); simpl in H; by destruct (String.eqb_spec (kl_Decision rule) DecisionUncertain). }
    simplify_eq. auto.
Qed.

Lemma Smart_Before_spec {W} (s : SmartStage W) w c rt : cl_Route c = Some rt -> switched_off (ro_SmartRoute rt) = false ->
  let cfg := ro_SmartRoute rt in
  let '(w', (class, score)) := decide_call s w cfg (cl_Request c) in
  Smart_Before s w c =
    (w', set_Target (mark c class score)
           (if String.eqb (sr_Mode cfg) "on" then default (cl_Target c) (chosen_target cfg (kl_Decision class)) else cl_Target c),
     (false, None)).
Proof.
  intros Hr Hoff. unfold Smart_Before. rewrite Hr, Hoff. cbv zeta. destruct (decide_call _ _ _ _) as [w' [class score]].
  destruct (String.eqb _ _); [|by destruct c]. destruct (chosen_target _ _); by destruct c.
Qed.

(** On a route that is switched on a call goes to the cheap target only if the
    rules say cheap, or cannot tell and the neighbours do with enough confidence,
    and to the strong target otherwise; in shadow mode its target is untouched.
    The stage never answers or fails a call, and leaves alone all but the target
    and the marks of its decision. *)
Theorem smart_route_sound {W} (s : SmartStage W) (w : W) (c : Call) (rt : Route) :
  cl_Route c = Some rt -> switched_off (ro_SmartRoute rt) = false ->
  let cfg := ro_SmartRoute rt in
  exists (w' : W) (class : Classification) (score : spec_float) (t : Target),
    Smart_Before s w c = (w', set_Target (mark c class score) t, (false, None)) /\
    kl_Decision class <> DecisionUncertain /\
    (kl_Decision class = DecisionCheap ->
      kl_Decision (Rule_Classify (cl_Request c) (sr_MaxTokensForCheap cfg)) = DecisionCheap \/
      neighbours_say_cheap s w cfg (cl_Request c) score) /\
    (sr_Mode cfg <> "on" -> t = cl_Target c) /\
    (sr_Mode cfg = "on" -> kl_Decision class = DecisionCheap -> t = default (cl_Target c) (ParseTarget (sr_CheapTarget cfg))) /\
    (sr_Mode cfg = "on" -> kl_Decision class <> DecisionCheap -> t = default (cl_Target c) (ParseTarget (sr_StrongTarget cfg))).
Proof.
  intros Hr Hoff cfg. pose proof (Smart_Before_spec s w c rt Hr Hoff) as E. cbv zeta in E. subst cfg.
  destruct (decide_call s w (ro_SmartRoute rt) (cl_Request c)) as [w' [class score]] eqn:Ed.
  apply decide_call_sound in Ed as (Hu & _ & Hc).
  eexists w', class, score, _. split; [exact E|]. split; [done|]. split; [done|].
  unfold chosen_target. destruct (String.eqb_spec (sr_Mode (ro_SmartRoute rt)) "on") as [Ho|Ho]; [|by split_and!].
  destruct (String.eqb_spec (kl_Decision class) DecisionCheap); by split_and!.
Qed.

Lemma marked_values c class score :
  cl_Values (mark c class score) !! decisionKey = Some (AString (kl_Decision class)) /\
  cl_Values (mark c class score) !! reasonKey = Some (AString (kl_Reason class)) /\
  cl_Values (mark c class score) !! scoreKey = Some (AFloat score).
Proof.
  unfold mark. simpl. split_and!.
  - by rewrite lookup_insert_ne, lookup_insert_ne, lookup_insert_eq.
  - by rewrite lookup_insert_ne, lookup_insert_eq.
  - by rewrite lookup_insert_eq.
Qed.

Lemma shadow_answer_Some c rt answer : shadow_answer c rt = Some answer ->
  tp_ShadowConsent (p_Tenant (cl_Principal c)) = true /\ cl_Err c = None /\
  sr_Mode (ro_SmartRoute rt) = "on" /\ answer <> "".
Proof.
  unfold shadow_answer. destruct (tp_ShadowConsent _); [|done]. destruct (cl_Err c); [done|].
  destruct (cl_Response c) as [resp|]; [|done]. destruct (cr_Choices resp) as [|ch chs]; [done|].
  destruct (String.eqb_spec (sr_Mode (ro_SmartRoute rt)) "on"); simpl; [|done].
  destruct (String.eqb_spec (Content_PlainText (m_Content (ch_Message ch))) ""); simpl; [done|].
  repeat case_match; intros; by simplify_eq.
Qed.

(** The decision a call was marked with, its stages in between having left the
    marks alone, is the one row that is recorded after it, unless the answer came
    from the cache; nothing is recorded for a call that was not marked; and its
    answer is handed to the shadow comparison only with the consent of the
    tenant, on a route that is switched on, for an answer that was given. *)
Theorem smart_decision_recorded {W} (s : SmartStage (W * list RoutingDecision * list RoutingShadowTask))
  (w : W * list RoutingDecision * list RoutingShadowTask) (c c' : Call) (rt : Route) (class : Classification) (score : spec_float) :
  sm_recorder s = Some (fun w d => (w.1.1, w.1.2 ++ [d], w.2)) ->
  sm_shadow s = Some (fun w t _ => (w.1, w.2 ++ [t])) ->
  cl_Route c' = Some rt -> kl_Decision class <> "" ->
  (forall k, k ∈ [decisionKey; reasonKey; scoreKey] -> cl_Values c' !! k = cl_Values (mark c class score) !! k) ->
  let '(w', c'') := Smart_After s w c' in
  let hit := has_prefix "hit-" (cl_CacheStatus c') in
  c'' = c' /\ w'.1.1 = w.1.1 /\
  w'.1.2 = w.1.2 ++ (if hit then [] else
    [mkRoutingDecision (sm_nowFn s w) (cl_ID c') (TenantID (cl_Principal c')) (ro_Name rt) (kl_Decision class) (kl_Reason class) score
       (cl_CostMicros c') (counterfactual (kl_Decision class) (cl_CostMicros c'))]) /\
  (w'.2 = w.2 \/ exists answer, w'.2 = w.2 ++ [shadow_task c' rt (kl_Decision class) answer] /\
    hit = false /\ tp_ShadowConsent (p_Tenant (cl_Principal c')) = true /\ cl_Err c' = None /\
    sr_Mode (ro_SmartRoute rt) = "on" /\ answer <> "").
Proof.
  intros Hrec Hsh Hr Hne Hv.
  destruct (marked_values c class score) as (Hd & Hre & Hs).
  rewrite <- Hv in Hd, Hre, Hs by set_solver.
  unfold Smart_After, decision_row, string_value, float_value. rewrite Hr, Hd, Hre, Hs.
  destruct (String.eqb_spec (kl_Decision class) ""); [done|]. destruct (has_prefix _ _); simpl.
  { rewrite app_nil_r. auto. }
  rewrite Hrec, Hsh. destruct (shadow_answer c' rt) as [answer|] eqn:Ea; simpl; [|by auto].
  apply shadow_answer_Some in Ea. split_and!; [done..|]. right. by exists answer; split_and!; try apply Ea.
Qed.

(** ** Witnesses *)

Definition smart_config (mode : string) : SmartRouteConfig :=
  mkSmartRouteConfig mode "openai/mini" "openai/large" 0 true "" 0 (f_lit 7 10).
Definition smart_demo_route (mode : string) : Route :=
  mkRoute "smart" [mkTarget "openai" "large"] "fallback" (mkRetryPolicy 1 0) 0 0 0 0 false
    empty_cache_config empty_guard_config (smart_config mode) empty_hedge_config.

Definition agrees (ns : list Neighbor) : unit -> list spec_float -> Z -> unit * (string + list Neighbor) := fun w _ _ => (w, inr ns).
Definition cheap_index := agrees [labelled (f_of_Z 5) (f_of_Z 5) f0; labelled (f_of_Z 5) (f_of_Z 5) f1].
Definition voting : KNNClassifierImpl unit := NewKNNClassifier None (Some cheap_index) 0 f0.
Definition smart_demo : SmartStage unit := mkSmartStage (Some (KNN_Classify voting)) None None (fun _ => 0).

Definition consenting : Principal :=
  mkPrincipal "acme" "" "" "" [] false (mkTenantPolicy 0 0 f0 false None true "") no_key_policy.
Definition smart_call (text mode : string) : Call := NewCall "id" 0 consenting (asks text) (Some (smart_demo_route mode)).

Example smart_targets :
  map (fun tm => Target_String (cl_Target (Smart_Before smart_demo tt (smart_call tm.1 tm.2)).1.2))
    [("hello", "on"); ("refactor this", "on"); ("tell me a joke", "on"); ("hello", "shadow")] =
  ["openai/mini"; "openai/large"; "openai/mini"; "/"].
Proof. vm_compute. reflexivity. Qed.

Lemma knn_cheap_needs_support_witness :
  KNN_Classify voting tt "tell me a joke" = (tt, (mkClassification "cheap" "knn_confident", f1, None)) /\
  Exists (fun n => cheap_safe voting n = true) [labelled (f_of_Z 5) (f_of_Z 5) f0; labelled (f_of_Z 5) (f_of_Z 5) f1].
Proof.
  assert (KNN_Classify voting tt "tell me a joke" = (tt, (mkClassification "cheap" "knn_confident", f1, None))) as E
    by (vm_compute; reflexivity).
  split; [exact E|].
  destruct (knn_cheap_needs_support None (Some cheap_index) 0 f0 tt tt "tell me a joke" _ _ _ E)
    as [H|(_ & _ & _ & nearest & vec & w1 & ns & Hi & Hn & _ & Hex)]; [discriminate H|].
  injection Hi as <-. injection Hn; intros <- _. exact Hex.
Defined.

Lemma smart_route_sound_witness : exists w' class score t,
  Smart_Before smart_demo tt (smart_call "hello" "on") = (w', set_Target (mark (smart_call "hello" "on") class score) t, (false, None)) /\
  t = mkTarget "openai" "mini".
Proof.
  destruct (smart_route_sound smart_demo tt (smart_call "hello" "on") (smart_demo_route "on") eq_refl eq_refl)
    as (w' & class & score & t & E & _ & _ & _ & Hc & _).
  exists w', class, score, t. split; [exact E|].
  assert (kl_Decision class = DecisionCheap) as Hd; [|rewrite (Hc eq_refl Hd); reflexivity].
  apply (f_equal (fun r => string_value r.1.2 decisionKey)) in E. vm_compute in E. symmetry. exact E.
Defined.

Definition shadow_log : SmartStage (unit * list RoutingDecision * list RoutingShadowTask) :=
  mkSmartStage None (Some (fun w d => (w.1.1, w.1.2 ++ [d], w.2))) (Some (fun w t _ => (w.1, w.2 ++ [t]))) (fun _ => 7).

Definition answered (text mode : string) : Call :=
  let c := mark (smart_call text mode) (mkClassification "cheap" "rule_greeting") f1 in
  mkCall (cl_ID c) 0 consenting (asks text) (cl_Route c) false
    (Some (mkChatResponse "r" "" 0 "" [mkChoice 0 (plain_message "assistant" "hi") "stop"] None)) None
    (mkTarget "openai" "mini") 1 zero_usage 12 0 "miss" None false ∅ ∅ (cl_Values c).

Example shadow_ex : map rs_CheapAnswer (Smart_After shadow_log (tt, [], []) (answered "hello" "on")).1.2 = ["hi"].
Proof. vm_compute. reflexivity. Qed.

Lemma smart_decision_recorded_witness :
  map rd_CounterfactualMicros (Smart_After shadow_log (tt, [], []) (answered "hello" "on")).1.1.2 = [48].
Proof.
  pose proof (smart_decision_recorded shadow_log (tt, [], []) (smart_call "hello" "on") (answered "hello" "on")
    (smart_demo_route "on") (mkClassification "cheap" "rule_greeting") f1 eq_refl eq_refl eq_refl
    ltac:(discriminate) (fun k _ => eq_refl)) as H.
  destruct (Smart_After _ _ _) as [w' c']. destruct H as (_ & _ & Hd & _). simpl. rewrite Hd. vm_compute. reflexivity.
Defined.
