(* ===== verification/Overrides.v ===== *)
(** * Live overrides of routes (src/internal/server/overrides.go)

    [ApplyOverrides] on a configuration snapshot.  The copy of the routes is a value,
    so the snapshot it was made from cannot change. *)

From S2P Require Import Prelude GoStrings GoFloat GoFloatInt Breaker Config.

Open Scope string_scope.
Open Scope list_scope.
Open Scope Z_scope.

(** [store.Override] *)
Record Override := mkOverride { ov_Route : string; ov_Key : string; ov_Value : string; ov_Reason : string; ov_Actor : string; ov_UpdatedAt : Time }.

Definition set_Cache (r : RouteConfig) (cc : CacheConfig) : RouteConfig :=
  mkRouteConfig (rc_Name r) (rc_Targets r) (rc_Strategy r) (rc_Retry r) (rc_Timeout r) (rc_Deadline r) (rc_FirstTokenTimeout r)
    (rc_StreamIdleTimeout r) (rc_Embeddings r) cc (rc_Guard r) (rc_SmartRoute r) (rc_Hedge r).
Definition set_SmartRoute (r : RouteConfig) (sr : SmartRouteConfig) : RouteConfig :=
  mkRouteConfig (rc_Name r) (rc_Targets r) (rc_Strategy r) (rc_Retry r) (rc_Timeout r) (rc_Deadline r) (rc_FirstTokenTimeout r)
    (rc_StreamIdleTimeout r) (rc_Embeddings r) (rc_Cache r) (rc_Guard r) sr (rc_Hedge r).
Definition set_cache_mode (v : string) (c : CacheConfig) : CacheConfig :=
  mkCacheConfig v (cc_Exact c) (cc_ExactRaw c) (cc_Semantic c) (cc_Threshold c) (cc_TTL c) (cc_Version c) (cc_EmbeddingRoute c)
    (cc_PerUser c) (cc_MaxEntryBytes c) (cc_AcknowledgeUncalibrated c) (cc_AllowClientKey c) (cc_AuditSampleRate c).
Definition set_cache_threshold (v : spec_float) (c : CacheConfig) : CacheConfig :=
  mkCacheConfig (cc_Mode c) (cc_Exact c) (cc_ExactRaw c) (cc_Semantic c) v (cc_TTL c) (cc_Version c) (cc_EmbeddingRoute c)
    (cc_PerUser c) (cc_MaxEntryBytes c) (cc_AcknowledgeUncalibrated c) (cc_AllowClientKey c) (cc_AuditSampleRate c).
Definition set_cache_audit (v : spec_float) (c : CacheConfig) : CacheConfig :=
  mkCacheConfig (cc_Mode c) (cc_Exact c) (cc_ExactRaw c) (cc_Semantic c) (cc_Threshold c) (cc_TTL c) (cc_Version c) (cc_EmbeddingRoute c)
    (cc_PerUser c) (cc_MaxEntryBytes c) (cc_AcknowledgeUncalibrated c) (cc_AllowClientKey c) v.
Definition set_smart_mode (v : string) (s : SmartRouteConfig) : SmartRouteConfig :=
  mkSmartRouteConfig v (sr_CheapTarget s) (sr_StrongTarget s) (sr_MaxTokensForCheap s) (sr_KNNEnabled s) (sr_KNNRoute s) (sr_KNNK s)
    (sr_ConfidenceThreshold s).

Section Overrides.
Definition is_mode (v : string) : bool := String.eqb v "off" || String.eqb v "shadow" || String.eqb v "on".

Definition bad_value (key : string) (o : Override) : string :=
  "route " +:+ go_quote (ov_Route o) +:+ ": bad " +:+ key +:+ " " +:+ go_quote (ov_Value o).

(** The switch on the key: an error, or the changed route. *)
Definition patch (o : Override) (r : RouteConfig) : string + RouteConfig :=
  if String.eqb (ov_Key o) "cache.mode" then
    if negb (is_mode (ov_Value o)) then inl (bad_value "cache.mode" o)
    else inr (set_Cache r (set_cache_mode (ov_Value o) (rc_Cache r)))
  else if String.eqb (ov_Key o) "cache.threshold" then
    match ParseFloat (ov_Value o) with
    | None => inl (bad_value "cache.threshold" o)
    | Some v => if fleb v f0 || fgtb v f1 then inl (bad_value "cache.threshold" o)
                else inr (set_Cache r (set_cache_threshold v (rc_Cache r)))
    end
  else if String.eqb (ov_Key o) "smart_route.mode" then
    if negb (is_mode (ov_Value o)) then inl (bad_value "smart_route.mode" o)
    else inr (set_SmartRoute r (set_smart_mode (ov_Value o) (rc_SmartRoute r)))
  else if String.eqb (ov_Key o) "cache.audit_sample_rate" then
    match ParseFloat (ov_Value o) with
    | None => inl (bad_value "cache.audit_sample_rate" o)
    | Some v => if fltb v f0 || fgtb v f1 then inl (bad_value "cache.audit_sample_rate" o)
                else inr (set_Cache r (set_cache_audit v (rc_Cache r)))
    end
  else inl ("route " +:+ go_quote (ov_Route o) +:+ ": unknown override key " +:+ go_quote (ov_Key o)).

(** The index of the routes by name: the last one of a name wins. *)
Definition route_index (rs : list RouteConfig) : gmap string nat :=
  for_range (imap pair rs) ∅ (fun m '(i, r) => <[rc_Name r := i]> m).

Definition override_step (idx : gmap string nat) (s : list RouteConfig * list string) (o : Override) : list RouteConfig * list string :=
  match idx !! ov_Route o with
  | None => (s.1, s.2 ++ ["override for unknown route " +:+ go_quote (ov_Route o)])
  | Some i =>
      match s.1 !! i with
      | None => s                                      (* the indices are those of the routes *)
      | Some r =>
          match patch o r with
          | inl e => (s.1, s.2 ++ [e])
          | inr r' => (<[i := r']> s.1, s.2)
          end
      end
  end.

Definition set_Routes (c : Config) (rs : list RouteConfig) : Config :=
  mkConfig (Server c) (Database c) (Redis c) (Analytics c) (Telemetry c) (BreakersC c) (Auth c) (AdminAuth c) (MCP c) (Providers c)
    (Pricing c) (Budget c) (Proof c) rs (Capabilities c) (DefaultsC c) (SLOs c) (Health c) (MCPServers c) (MCPInsecureHosts c)
    (Secrets c) (WatcherInterval c) (OverrideInterval c).

Definition ApplyOverrides (cfg : Config) (ovs : list Override) : Config * list string :=
  let '(rs, errs) := for_range ovs (Routes cfg, []) (override_step (route_index (Routes cfg))) in
  (set_Routes cfg rs, errs).

(** ** What an override may change *)

(** [r'] differs from [r] in the four settings only, and still passes the checks of
    the configuration that read them. *)
Record tuned (r r' : RouteConfig) : Prop := mkTuned {
  td_rest : set_SmartRoute (set_Cache r (set_cache_mode "" (set_cache_threshold f0 (set_cache_audit f0 (rc_Cache r))))) (set_smart_mode "" (rc_SmartRoute r)) =
            set_SmartRoute (set_Cache r' (set_cache_mode "" (set_cache_threshold f0 (set_cache_audit f0 (rc_Cache r'))))) (set_smart_mode "" (rc_SmartRoute r'));
  td_cache : one_of (cc_Mode (rc_Cache r)) ["off"; "on"; "shadow"] = true -> one_of (cc_Mode (rc_Cache r')) ["off"; "on"; "shadow"] = true;
  td_threshold : fleb (cc_Threshold (rc_Cache r)) f0 || fgtb (cc_Threshold (rc_Cache r)) f1 = false ->
                 fleb (cc_Threshold (rc_Cache r')) f0 || fgtb (cc_Threshold (rc_Cache r')) f1 = false;
  td_smart : one_of (sr_Mode (rc_SmartRoute r)) [""; "off"; "shadow"; "on"] = true -> one_of (sr_Mode (rc_SmartRoute r')) [""; "off"; "shadow"; "on"] = true
}.

#[export] Instance tuned_preorder : PreOrder tuned.
Proof.
  split; [by intros r; split|]. intros r1 r2 r3 [H1 H2 H3 H4] [G1 G2 G3 G4]. split; [exact (eq_trans H1 G1)|auto..].
Qed.

Lemma is_mode_one_of v : is_mode v = true -> one_of v ["off"; "on"; "shadow"] = true /\ one_of v [""; "off"; "shadow"; "on"] = true.
Proof.
  unfold is_mode. rewrite !orb_true_iff, !String.eqb_eq. intros [[->| ->]| ->]; by split.
Qed.

Lemma patch_tuned o r r' : patch o r = inr r' -> tuned r r'.
Proof.
  unfold patch.
  repeat (destruct (String.eqb _ _); [|]); [| | | |done].
  - destruct (is_mode (ov_Value o)) eqn:E; [|done]. intros; simplify_eq/=. apply is_mode_one_of in E as [? ?]. split; simpl; auto.
  - destruct (ParseFloat _); [|done]. destruct (fleb _ _ || fgtb _ _) eqn:E; [done|]. intros; simplify_eq/=. split; simpl; auto.
  - destruct (is_mode (ov_Value o)) eqn:E; [|done]. intros; simplify_eq/=. apply is_mode_one_of in E as [? ?]. split; simpl; auto.
  - destruct (ParseFloat _); [|done]. destruct (fltb _ _ || fgtb _ _) eqn:E; [done|]. intros; simplify_eq/=. split; simpl; auto.
Qed.

Lemma step_tuned idx s o rs0 : Forall2 tuned rs0 s.1 -> Forall2 tuned rs0 (override_step idx s o).1.
Proof.
  intros H. unfold override_step. destruct (idx !! ov_Route o) as [i|]; [|done].
  destruct (s.1 !! i) as [r|] eqn:Hr; [|done]. destruct (patch o r) as [e|r'] eqn:Hp; [done|]. simpl.
  apply patch_tuned in Hp. destruct (Forall2_lookup_r _ _ _ _ _ H Hr) as (r0 & H0 & Ht).
  rewrite <- (list_insert_id rs0 i r0) by done. apply Forall2_insert; [done|by etrans].
Qed.

Lemma overrides_tuned idx ovs s rs0 : Forall2 tuned rs0 s.1 -> Forall2 tuned rs0 (for_range ovs s (override_step idx)).1.
Proof.
  unfold for_range. revert s. induction ovs as [|o ovs IH]; intros s H; simpl; [done|]. by apply IH, step_tuned.
Qed.

Lemma ApplyOverrides_tuned cfg ovs : Forall2 tuned (Routes cfg) (Routes (ApplyOverrides cfg ovs).1).
Proof.
  unfold ApplyOverrides. pose proof (overrides_tuned (route_index (Routes cfg)) ovs (Routes cfg, []) (Routes cfg)) as H.
  destruct (for_range _ _ _) as [rs errs]. apply H. by apply Forall_Forall2_diag, Forall_true.
Qed.

(** The settings an override does not touch. *)
Lemma tuned_keeps {A} (f : RouteConfig -> A) r r' : tuned r r' ->
  (forall r cc sr, f (set_SmartRoute (set_Cache r cc) sr) = f r) -> f r' = f r.
Proof. intros [H _ _ _] Hf. apply (f_equal f) in H. by rewrite !Hf in H. Qed.

Lemma tuned_keeps_cache {A} (f : CacheConfig -> A) r r' : tuned r r' ->
  (forall c m t a, f (set_cache_mode m (set_cache_threshold t (set_cache_audit a c))) = f c) -> f (rc_Cache r') = f (rc_Cache r).
Proof. intros [H _ _ _] Hf. apply (f_equal (fun r => f (rc_Cache r))) in H. simpl in H. by rewrite !Hf in H. Qed.

Lemma tuned_fields r r' : tuned r r' -> validate_route_fields r = [] -> validate_route_fields r' = [].
Proof.
  intros Ht. unfold validate_route_fields.
  rewrite (tuned_keeps rc_Name r r'), (tuned_keeps rc_Targets r r'), (tuned_keeps rc_Strategy r r'), (tuned_keeps rc_Retry r r'),
    (tuned_keeps rc_Timeout r r'), (tuned_keeps rc_Deadline r r'), (tuned_keeps rc_FirstTokenTimeout r r'),
    (tuned_keeps rc_StreamIdleTimeout r r'), (tuned_keeps rc_Guard r r'), (tuned_keeps rc_Hedge r r'),
    (tuned_keeps_cache cc_MaxEntryBytes r r') by done.
  intros H. split_nil. repeat match goal with |- _ ++ _ = [] => apply app_nil; split end; apply check_nil; try assumption.
  apply negb_false_iff, (td_smart _ _ Ht). by apply negb_false_iff.
Qed.

Lemma tuned_target provs pricing r r' t : tuned r r' -> validate_target provs pricing r' t = validate_target provs pricing r t.
Proof. intros Ht. unfold validate_target. by rewrite (tuned_keeps rc_Name r r'), (tuned_keeps rc_Strategy r r'). Qed.

Lemma tuned_cache embed r r' : tuned r r' -> validate_route_cache embed r = [] -> validate_route_cache embed r' = [].
Proof.
  intros Ht. unfold validate_route_cache. rewrite (tuned_keeps rc_Name r r'), (tuned_keeps_cache cc_Semantic r r'),
    (tuned_keeps_cache cc_EmbeddingRoute r r') by done.
  rewrite !app_nil, !check_nil. intros (Hm & Hth & Hs). split_and!; [|by apply (td_threshold _ _ Ht)|done].
  apply negb_false_iff in Hm. apply negb_false_iff, (td_cache _ _ Ht), Hm.
Qed.

Lemma tuned_routes provs embed pricing seen rs rs' : Forall2 tuned rs rs' ->
  validate_routes provs embed pricing seen rs = [] -> validate_routes provs embed pricing seen rs' = [].
Proof.
  intros H. revert seen. induction H as [|r r' rs rs' Ht _ IH]; intros seen; [done|]. cbn [validate_routes].
  rewrite !app_nil, (tuned_keeps rc_Name r r'), (tuned_keeps rc_Targets r r') by done.
  intros (Hn & Hd & Hf & Htg & Hc & Hr). split_and!; [done|done|by eapply tuned_fields| |by eapply tuned_cache|by apply IH].
  erewrite map_ext; [exact Htg|]. intros t. by apply tuned_target.
Qed.

(** ** What is refused *)

Lemma patch_uniform o r1 r2 :
  match patch o r1, patch o r2 with inl e1, inl e2 => e1 = e2 | inr _, inr _ => True | _, _ => False end.
Proof.
  unfold patch. destruct (String.eqb _ _); [by destruct (negb _)|].
  destruct (String.eqb _ _); [destruct (ParseFloat _); [by destruct (_ || _)|done]|].
  destruct (String.eqb _ _); [by destruct (negb _)|].
  destruct (String.eqb _ _); [destruct (ParseFloat _); [by destruct (_ || _)|done]|done].
Qed.

Lemma route_index_spec rs n : match route_index rs !! n with Some i => exists r, rs !! i = Some r /\ rc_Name r = n | None => n ∉ map rc_Name rs end.
Proof.
  unfold route_index, for_range.
  assert (forall k (m : gmap string nat),
    match fold_left (fun m '(i, r) => <[rc_Name r := i]> m) (imap (fun i r => (k + i, r))%nat rs) m !! n with
    | Some i => m !! n = Some i \/ (exists r, k <= i /\ rs !! (i - k) = Some r /\ rc_Name r = n)%nat
    | None => m !! n = None /\ n ∉ map rc_Name rs
    end) as H.
  { induction rs as [|r rs IH]; intros k m; cbn [imap fold_left].
    - destruct (m !! n) eqn:E; [by left|]. split; [done|]. by apply not_elem_of_nil.
    - rewrite (imap_ext _ (fun i r => (S k + i, r)%nat)) by (intros; cbn; f_equal; lia). rewrite Nat.add_0_r.
      specialize (IH (S k) (<[rc_Name r := k]> m)).
      destruct (fold_left _ _ _ !! n) as [i|] eqn:E.
      + destruct (decide (rc_Name r = n)) as [<-|Hne].
        * rewrite lookup_insert_eq in IH. destruct IH as [IH|(r' & Hk & Hr & Hn)].
          { injection IH as <-. right. exists r. by rewrite Nat.sub_diag. }
          right. exists r'. split; [lia|]. replace (i - k)%nat with (S (i - S k)) by lia. done.
        * rewrite lookup_insert_ne in IH by done. destruct IH as [IH|(r' & Hk & Hr & Hn)]; [by left|].
          right. exists r'. split; [lia|]. replace (i - k)%nat with (S (i - S k)) by lia. done.
      + destruct IH as [IH Hn]. apply lookup_insert_None in IH as [? ?]. split; [done|]. cbn. rewrite not_elem_of_cons. auto. }
  specialize (H 0%nat ∅). rewrite (imap_ext _ pair) in H by done.
  destruct (fold_left _ _ _ !! n) as [i|]; [|by apply H].
  destruct H as [H|(r & _ & Hr & Hn)]; [by rewrite lookup_empty in H|]. rewrite Nat.sub_0_r in Hr. by exists r.
Qed.

(** An override is taken when its route is configured and its key and value are
    accepted, which does not depend on the route. *)
Definition accepted (cfg : Config) (o : Override) : bool :=
  match List.find (fun r => String.eqb (rc_Name r) (ov_Route o)) (Routes cfg) with
  | Some r => match patch o r with inr _ => true | inl _ => false end
  | None => false
  end.

Lemma step_accepted cfg o s : Forall2 tuned (Routes cfg) s.1 ->
  let s' := override_step (route_index (Routes cfg)) s o in
  if accepted cfg o then s'.2 = s.2 else s'.1 = s.1 /\ exists e, s'.2 = s.2 ++ [e].
Proof.
  intros Ht. unfold override_step, accepted. pose proof (route_index_spec (Routes cfg) (ov_Route o)) as Hi.
  destruct (List.find _ _) as [r|] eqn:Hf.
  - apply find_some in Hf as [Hin Hn]. apply String.eqb_eq in Hn.
    destruct (route_index _ !! _) as [i|].
    + destruct Hi as (r0 & Hr0 & _). destruct (Forall2_lookup_l _ _ _ _ _ Ht Hr0) as (r1 & Hr1 & _). rewrite Hr1.
      pose proof (patch_uniform o r r1). destruct (patch o r), (patch o r1); try done. split; [done|]. by eexists.
    + destruct Hi. rewrite <- Hn. apply list_elem_of_In, in_map, Hin.
  - destruct (route_index _ !! _) as [i|]; [|by split; [|eexists]].
    destruct Hi as (r0 & Hr0 & Hn). apply list_elem_of_lookup_2, list_elem_of_In in Hr0.
    pose proof (find_none _ _ Hf r0 Hr0) as H. cbn in H. by rewrite Hn, String.eqb_refl in H.
Qed.

Lemma overrides_accepted cfg ovs s errs : Forall2 tuned (Routes cfg) s.1 -> s.2 = errs ->
  let step := override_step (route_index (Routes cfg)) in
  let taken := List.filter (accepted cfg) ovs in
  (for_range ovs s step).1 = (for_range taken (s.1, []) step).1 /\
  (for_range taken (s.1, []) step).2 = [] /\
  length (for_range ovs s step).2 = (length errs + (length ovs - length taken))%nat.
Proof.
  intros Ht Hs step taken. cut (forall e2 : list string, (for_range ovs s step).1 = (for_range taken (s.1, e2) step).1 /\
    (for_range taken (s.1, e2) step).2 = e2 /\ (length taken <= length ovs)%nat /\
    length (for_range ovs s step).2 = (length s.2 + (length ovs - length taken))%nat).
  { intros H. destruct (H []) as (H1 & H2 & _ & H3). by subst errs. }
  subst taken. clear errs Hs. revert s Ht. unfold for_range.
  induction ovs as [|o ovs IH]; intros s Ht e2; [cbn; split_and!; [done|done|done|lia]|].
  cbn [fold_left List.filter]. pose proof (step_accepted cfg o s Ht) as Ho. pose proof (step_tuned (route_index (Routes cfg)) s o _ Ht) as Ht'.
  cbn zeta in Ho. fold step in Ho, Ht'.
  destruct (accepted cfg o) eqn:Ea.
  - cbn [fold_left length]. pose proof (step_accepted cfg o (s.1, e2) Ht) as Ho2. rewrite Ea in Ho2. cbn zeta in Ho2. fold step in Ho2.
    assert ((step (s.1, e2) o) = ((step s o).1, e2)) as ->.
    { rewrite (surjective_pairing (step (s.1, e2) o)), Ho2. f_equal. unfold step, override_step. cbn.
      repeat case_match; done. }
    destruct (IH (step s o) Ht' e2) as (H1 & H2 & H3 & H4). split_and!; [done|done|lia|].
    rewrite H4, Ho. lia.
  - destruct Ho as [Ho [e He]]. cbn [length]. destruct (IH (step s o) Ht' e2) as (H1 & H2 & H3 & H4).
    rewrite Ho in H1, H2. split_and!; [done|done|lia|]. rewrite H4, He, length_app. cbn. lia.
Qed.

Lemma limits_routes {IP IPNet : Type} (parse_ip : string -> option IP) (ip_is_v4 : IP -> bool) (parse_cidr : string -> option IPNet) cfg rs :
  (rs = [] <-> Routes cfg = []) ->
  validate_limits parse_ip ip_is_v4 parse_cidr (set_Routes cfg rs) = validate_limits parse_ip ip_is_v4 parse_cidr cfg.
Proof.
  intros H. unfold validate_limits. change (Routes (set_Routes cfg rs)) with rs.
  by rewrite (bool_decide_ext _ _ H).
Qed.
End Overrides.

Lemma ApplyOverrides_rest (cfg : Config) (ovs : list Override) :
  let out := (ApplyOverrides cfg ovs).1 in out = set_Routes cfg (Routes out).
Proof. unfold ApplyOverrides. by destruct (for_range _ _ _). Qed.

Lemma ApplyOverrides_valid {IP IPNet : Type} (parse_ip : string -> option IP) (ip_is_v4 : IP -> bool)
  (parse_cidr : string -> option IPNet) (url_parse : string -> option parsed_url)
  (cfg : Config) (ovs : list Override) :
  validate parse_ip ip_is_v4 parse_cidr url_parse cfg = [] ->
  validate parse_ip ip_is_v4 parse_cidr url_parse (ApplyOverrides cfg ovs).1 = [].
Proof.
  intros Hv. pose proof (ApplyOverrides_tuned cfg ovs) as Ht. rewrite (ApplyOverrides_rest cfg ovs).
  generalize dependent (Routes (ApplyOverrides cfg ovs).1). intros rs Ht.
  assert (embedding_routes (set_Routes cfg rs) = embedding_routes cfg) as He.
  { unfold embedding_routes. simpl. clear -Ht. induction Ht as [|r r' l l' Hr _ IH]; [done|]. rewrite !filter_cons.
    rewrite (tuned_keeps rc_Embeddings r r') by done. destruct (decide _); simpl; by rewrite IH, ?(tuned_keeps rc_Name r r'). }
  unfold validate in *. rewrite He, limits_routes by (by destruct Ht). rewrite !app_nil in Hv |- *.
  destruct Hv as (Hl & Hp & Hpr & Ha & Hs & Hslo & Hr & Hm). split_and!; try done. by eapply tuned_routes.
Qed.

(** ** The override that decides a setting *)

Lemma route_index_at rs i r : NoDup (map rc_Name rs) -> rs !! i = Some r -> route_index rs !! rc_Name r = Some i.
Proof.
  intros Hd Hi. pose proof (route_index_spec rs (rc_Name r)) as H. destruct (route_index rs !! rc_Name r) as [j|].
  - destruct H as (r' & Hj & Hn). f_equal. eapply NoDup_lookup; [exact Hd| |]; apply list_lookup_fmap_Some; eauto.
  - destruct H. apply list_elem_of_fmap. exists r. split; [done|]. by eapply list_elem_of_lookup_2.
Qed.

Section Setting.
Context (get : RouteConfig -> string) (key : string)
  (patch_sets : forall o r, ov_Key o = key -> is_mode (ov_Value o) = true -> exists r', patch o r = inr r' /\ get r' = ov_Value o)
  (patch_keeps : forall o r r', ov_Key o <> key -> patch o r = inr r' -> get r' = get r).

Lemma steps_keep idx ovs s i r : s.1 !! i = Some r -> (forall o, o ∈ ovs -> ov_Key o = key -> idx !! ov_Route o <> Some i) ->
  exists r', (for_range ovs s (override_step idx)).1 !! i = Some r' /\ get r' = get r.
Proof.
  unfold for_range. revert s r. induction ovs as [|o ovs IH]; intros s r Hi Ho; cbn [fold_left]; [by exists r|].
  assert (exists r', (override_step idx s o).1 !! i = Some r' /\ get r' = get r) as (r' & Hi' & Hg).
  { unfold override_step. destruct (idx !! ov_Route o) as [j|] eqn:Ej; [|by exists r]. destruct (s.1 !! j) as [rj|] eqn:Hj; [|by exists r].
    destruct (patch o rj) as [e|rj'] eqn:Ep; [by exists r|]. cbn [fst]. destruct (decide (j = i)) as [->|Hne].
    - rewrite list_lookup_insert_eq by (by eapply lookup_lt_Some). simplify_eq. eexists. split; [done|]. eapply patch_keeps; [|done].
      intros Hk. by apply (Ho o); [left|..].
    - rewrite list_lookup_insert_ne by done. by exists r. }
  destruct (IH (override_step idx s o) r' Hi') as (r'' & ? & ?); [intros; apply Ho; [by right|done]|]. exists r''. split; [done|congruence].
Qed.

Lemma override_decides (cfg : Config) (ovs : list Override) (o : Override) (i : nat) (r : RouteConfig) :
  NoDup (map rc_Name (Routes cfg)) -> NoDup (map (fun o => (ov_Route o, ov_Key o)) ovs) ->
  o ∈ ovs -> ov_Key o = key -> is_mode (ov_Value o) = true -> Routes cfg !! i = Some r -> rc_Name r = ov_Route o ->
  exists r', Routes (ApplyOverrides cfg ovs).1 !! i = Some r' /\ get r' = ov_Value o.
Proof.
  intros Hn Hd Ho Hk Hm Hi Hr. apply list_elem_of_split in Ho as (l1 & l2 & ->). unfold ApplyOverrides.
  set (step := override_step (route_index (Routes cfg))). unfold for_range. rewrite fold_left_app. cbn [fold_left].
  pose proof (overrides_tuned (route_index (Routes cfg)) l1 (Routes cfg, []) (Routes cfg)) as Ht. unfold for_range in Ht. fold step in Ht.
  destruct (Forall2_lookup_l _ _ _ _ _ (Ht ltac:(by apply Forall_Forall2_diag, Forall_true)) Hi) as (r1 & H1 & _).
  destruct (patch_sets o r1 Hk Hm) as (r2 & Hp & Hg).
  assert ((step (fold_left step l1 (Routes cfg, [])) o).1 !! i = Some r2) as H2.
  { unfold step at 1, override_step. rewrite <- Hr, (route_index_at _ i r Hn Hi). fold step. rewrite H1, Hp. cbn [fst].
    apply list_lookup_insert_eq. by eapply lookup_lt_Some. }
  destruct (steps_keep (route_index (Routes cfg)) l2 _ i r2 H2) as (r' & Hr' & Hg').
  - intros o' Ho' Hk' Hi'. rewrite map_app, NoDup_app in Hd. destruct Hd as (_ & _ & Hd). cbn [map] in Hd. apply NoDup_cons in Hd as [Hd _].
    apply Hd. apply list_elem_of_fmap. exists o'. split; [|done]. rewrite Hk, Hk'. f_equal.
    pose proof (route_index_spec (Routes cfg) (ov_Route o')) as Hs. rewrite Hi' in Hs. destruct Hs as (r0 & H0 & <-). congruence.
  - unfold for_range in Hr'. fold step in Hr'. destruct (fold_left step l2 _) as [rs errs]. exists r'. split; [done|congruence].
Qed.
End Setting.

Lemma smart_mode_decided (o : Override) (r : RouteConfig) : ov_Key o = "smart_route.mode" -> is_mode (ov_Value o) = true ->
  exists r', patch o r = inr r' /\ sr_Mode (rc_SmartRoute r') = ov_Value o.
Proof. intros Hk Hm. unfold patch. rewrite Hk, Hm. by eexists. Qed.

Lemma cache_mode_decided (o : Override) (r : RouteConfig) : ov_Key o = "cache.mode" -> is_mode (ov_Value o) = true ->
  exists r', patch o r = inr r' /\ cc_Mode (rc_Cache r') = ov_Value o.
Proof. intros Hk Hm. unfold patch. rewrite Hk, Hm. by eexists. Qed.

Lemma smart_mode_kept (o : Override) (r r' : RouteConfig) : ov_Key o <> "smart_route.mode" -> patch o r = inr r' ->
  sr_Mode (rc_SmartRoute r') = sr_Mode (rc_SmartRoute r).
Proof.
  intros Hk. unfold patch. rewrite (proj2 (String.eqb_neq _ "smart_route.mode") Hk).
  repeat case_match; intros; simplify_eq; reflexivity.
Qed.

Lemma cache_mode_kept (o : Override) (r r' : RouteConfig) : ov_Key o <> "cache.mode" -> patch o r = inr r' ->
  cc_Mode (rc_Cache r') = cc_Mode (rc_Cache r).
Proof.
  intros Hk. unfold patch. rewrite (proj2 (String.eqb_neq _ "cache.mode") Hk).
  repeat case_match; intros; simplify_eq; reflexivity.
Qed.

(** Overrides can only turn the four knobs they name: a configuration that passed
    validation still does, whatever overrides are applied, in which order, valid
    or not, and every other setting is as it was. *)
Theorem overrides_keep_config_valid {IP IPNet : Type} (parse_ip : string -> option IP) (ip_is_v4 : IP -> bool)
  (parse_cidr : string -> option IPNet) (url_parse : string -> option parsed_url)
  (cfg : Config) (ovs : list Override) :
  validate parse_ip ip_is_v4 parse_cidr url_parse cfg = [] ->
  let out := (ApplyOverrides cfg ovs).1 in
  validate parse_ip ip_is_v4 parse_cidr url_parse out = [] /\
  out = set_Routes cfg (Routes out) /\ Forall2 tuned (Routes cfg) (Routes out).
Proof.
  intros Hv out. split; [by apply ApplyOverrides_valid|]. split; [apply ApplyOverrides_rest|apply ApplyOverrides_tuned].
Qed.

(** Every refused override is reported, and the outcome is that of the accepted
    ones alone, which are all applied without an error. *)
Theorem refused_overrides_reported (cfg : Config) (ovs : list Override) :
  let taken := List.filter (accepted cfg) ovs in
  (ApplyOverrides cfg ovs).1 = (ApplyOverrides cfg taken).1 /\
  (ApplyOverrides cfg taken).2 = [] /\
  length (ApplyOverrides cfg ovs).2 = (length ovs - length taken)%nat.
Proof.
  intros taken. unfold ApplyOverrides.
  destruct (overrides_accepted cfg ovs (Routes cfg, []) []) as (H1 & H2 & H3); [by apply Forall_Forall2_diag, Forall_true|done|].
  fold taken in H1, H2, H3. simpl in H1, H2. destruct (for_range ovs _ _) as [rs errs], (for_range taken _ _) as [rs' errs'].
  simpl in *. by subst.
Qed.

(** ** Examples and witnesses *)

Definition ov (route key value : string) : Override := mkOverride route key value "" "" 0.
Definition served : Config := applyDefaults (fun _ => "") demo_config.
Definition demo_overrides : list Override :=
  [ov "chat" "cache.mode" "on"; ov "chat" "cache.threshold" "1.5"; ov "chat" "smart_route.mode" "loud"; ov "chat" "cache.threshold" "0.9";
   ov "gone" "cache.mode" "off"; ov "chat" "timeout" "3"].

Example overrides_ex :
  (ApplyOverrides served demo_overrides).2 =
    ["route " +:+ go_quote "chat" +:+ ": bad cache.threshold " +:+ go_quote "1.5";
     "route " +:+ go_quote "chat" +:+ ": bad smart_route.mode " +:+ go_quote "loud";
     "override for unknown route " +:+ go_quote "gone";
     "route " +:+ go_quote "chat" +:+ ": unknown override key " +:+ go_quote "timeout"] /\
  map (fun r => (cc_Mode (rc_Cache r), cc_Threshold (rc_Cache r))) (Routes (ApplyOverrides served demo_overrides).1) =
    [("on", f_lit 9 10)].
Proof. split; vm_compute; reflexivity. Qed.

(** The range test of the threshold lets a value through that is in no range. *)
Theorem nan_threshold_is_accepted :
  (ApplyOverrides served [ov "chat" "cache.threshold" "NaN"]).2 = [] /\
  map (fun r => cc_Threshold (rc_Cache r)) (Routes (ApplyOverrides served [ov "chat" "cache.threshold" "NaN"]).1) = [S754_nan].
Proof. split; vm_compute; reflexivity. Qed.

Lemma overrides_keep_config_valid_witness :
  validate (fun _ => None) (fun _ : unit => true) (fun _ => @None unit) demo_url (ApplyOverrides served demo_overrides).1 = [].
Proof.
  apply (overrides_keep_config_valid (fun _ => None) (fun _ : unit => true) (fun _ => @None unit) demo_url served demo_overrides).
  vm_compute. reflexivity.
Defined.
