(* ===== verification/Serve.v ===== *)
(** * Serving a chat request (src/internal/server: exec.go, chat.go, respond.go)

    From the decoded request to the reply: the checks of the body, the route a key
    may use, the stages before, the execution of the plan with or without
    hedging, the price, the reply and the stages after.

    The stages, the providers and the clock share a world [W].  The two calls of a
    hedged race run in goroutines; the race is driven by a schedule of what the
    [select] of [ExecuteHedged] receives, and a call takes effect when it
    completes. *)

From S2P Require Import Prelude GoStrings GoFloat Breaker Config Api Execute Route Hedge Health Policy Pipeline.
From S2P Require Import Budget BudgetStage SmartRoute.

Open Scope string_scope.
Open Scope list_scope.
Open Scope Z_scope.

(** ** Errors (respond.go, exec.go) *)

Definition upstreamError (err : go_error) : option go_error :=
  match err with
  | ErrApi ae => Some (ErrApi ae)
  | ErrCanceled => None
  | ErrDeadlineExceeded => Some (ErrApi (GatewayTimeout "upstream timed out"))
  | ErrProvider pe =>
      let out :=
        if existsb (Z.eqb (pe_Status pe)) [400; 404; 413; 422]
        then api_error (pe_Status pe) (pe_Message pe) "invalid_request_error" "upstream_rejected"
        else if pe_Status pe =? 429 then api_error 429 (pe_Message pe) "rate_limit_error" "rate_limit_exceeded"
        else Upstream ("all targets failed; last: " +:+ pe_Provider pe +:+ " " +:+ itoa (pe_Status pe)) in
      Some (ErrApi (if 0 <? pe_RetryAfter pe
                    then mkApiError (ae_Status out) (ae_Message out) (ae_Type out) (ae_Code out) (pe_RetryAfter pe) else out))
  | ErrOther _ => Some (ErrApi (Upstream "all targets failed"))
  end.

(** The health of a target after a call. *)
Definition outcome (err : option go_error) : Health.Outcome :=
  match err with
  | None => Health.OK
  | Some (ErrProvider pe) => if existsb (Z.eqb (pe_Status pe)) [400; 404; 413; 422] then Health.Unknown else Health.Failed
  | Some ErrCanceled => Health.Unknown
  | Some _ => Health.Failed
  end.

(** ** Requests and routes (chat.go) *)

Definition defaultMaxBody : Z := 10 * 2 ^ 20.
Definition maxBody (handlers : Z) (config : option Z) : Z :=
  let m := if 0 <? handlers then handlers else defaultMaxBody in
  match config with Some n => if 0 <? n then n else m | None => m end.

Definition request_too_large : go_error :=
  ErrApi (api_error 413 "request body too large" "invalid_request_error" "request_too_large").

(** The body: larger than the limit, not JSON, or a request. *)
Inductive body := TooLarge | BadJSON (msg : string) | Decoded (r : ChatRequest).

Definition decodeChat (b : body) : go_error + ChatRequest :=
  match b with
  | TooLarge => inl request_too_large
  | BadJSON msg => inl (ErrApi (BadRequest ("invalid JSON: " +:+ msg)))
  | Decoded r =>
      if String.eqb (r_Model r) "" then inl (ErrApi (BadRequest "model is required"))
      else if bool_decide (r_Messages r = []) then inl (ErrApi (BadRequest "messages must not be empty"))
      else if match r_N r with Some n => 1 <? n | None => false end then inl (ErrApi (BadRequest "n > 1 is not supported"))
      else inr r
  end.

(** [route.Targets[0]] panics on a route without targets, which is [None]. *)
Definition resolveRoute (rt : Router) (p : Principal) (model : string) (embeddings : bool) : option (go_error + Route) :=
  match Resolve rt model (AllowDirect p) with
  | inl e => Some (inl (ErrApi e))
  | inr route =>
      let direct := match ro_Targets route with t :: _ => Some (String.eqb (ro_Name route) (Target_String t)) | [] => None end in
      let single := bool_decide (length (ro_Targets route) = 1%nat) in
      let forbidden :=
        if CanUseRoute p (ro_Name route) then Some false
        else if negb (AllowDirect p) || negb single then Some true
        else option_map negb direct in
      match forbidden with
      | None => None
      | Some true => Some (inl (ErrApi (Forbidden "route_forbidden" ("this key may not use route " +:+ ro_Name route))))
      | Some false =>
          if Bool.eqb (ro_Embeddings route) embeddings then Some (inr route)
          else match direct with
               | None => None
               | Some true => Some (inr route)
               | Some false =>
                   Some (inl (ErrApi (BadRequest (if embeddings then "route " +:+ ro_Name route +:+ " does not serve embeddings"
                                                  else "route " +:+ ro_Name route +:+ " is an embeddings route"))))
               end
      end
  end.

Definition clientHeaders : list string :=
  ["X-ProofGate-Cache"; "X-ProofGate-Cache-Tags"; "X-ProofGate-Cache-Query"; "X-ProofGate-Run-Id"; "X-ProofGate-Target"].

Definition sanitizeIncoming (h : gmap string string) : gmap string string :=
  for_range clientHeaders ∅ (fun out k =>
    match h !! CanonicalHeaderKey k with Some v => <[CanonicalHeaderKey k := v]> out | None => out end).

(** ** The call *)

Definition set_result (c : Call) (t : Target) (attempts : Z) : Call :=
  mkCall (cl_ID c) (cl_Start c) (cl_Principal c) (cl_Request c) (cl_Route c) (cl_Stream c) (cl_Response c)
    (cl_ClientResponse c) t attempts (cl_Usage c) (cl_CostMicros c) (cl_HedgeCostMicros c)
    (cl_CacheStatus c) (cl_Err c) (cl_Internal c) (cl_Header c) (cl_Incoming c) (cl_Values c).
Definition set_Response (c : Call) (r : option ChatResponse) : Call :=
  mkCall (cl_ID c) (cl_Start c) (cl_Principal c) (cl_Request c) (cl_Route c) (cl_Stream c) r
    (cl_ClientResponse c) (cl_Target c) (cl_Attempts c) (cl_Usage c) (cl_CostMicros c) (cl_HedgeCostMicros c)
    (cl_CacheStatus c) (cl_Err c) (cl_Internal c) (cl_Header c) (cl_Incoming c) (cl_Values c).
Definition set_Usage (c : Call) (u : Usage) : Call :=
  mkCall (cl_ID c) (cl_Start c) (cl_Principal c) (cl_Request c) (cl_Route c) (cl_Stream c) (cl_Response c)
    (cl_ClientResponse c) (cl_Target c) (cl_Attempts c) u (cl_CostMicros c) (cl_HedgeCostMicros c)
    (cl_CacheStatus c) (cl_Err c) (cl_Internal c) (cl_Header c) (cl_Incoming c) (cl_Values c).
Definition set_costs (c : Call) (cost hedge : Z) : Call :=
  mkCall (cl_ID c) (cl_Start c) (cl_Principal c) (cl_Request c) (cl_Route c) (cl_Stream c) (cl_Response c)
    (cl_ClientResponse c) (cl_Target c) (cl_Attempts c) (cl_Usage c) cost hedge
    (cl_CacheStatus c) (cl_Err c) (cl_Internal c) (cl_Header c) (cl_Incoming c) (cl_Values c).
Definition set_Incoming (c : Call) (h : gmap string string) : Call :=
  mkCall (cl_ID c) (cl_Start c) (cl_Principal c) (cl_Request c) (cl_Route c) (cl_Stream c) (cl_Response c)
    (cl_ClientResponse c) (cl_Target c) (cl_Attempts c) (cl_Usage c) (cl_CostMicros c) (cl_HedgeCostMicros c)
    (cl_CacheStatus c) (cl_Err c) (cl_Internal c) (cl_Header c) h (cl_Values c).

(** ** Plans and prices (exec.go) *)

(** The runtime snapshot: the flags of the configuration that are read, the
    router, the names of the registered providers and the prices. *)
Record Runtime := mkRuntime {
  rt_RequirePricing : bool;          (* Config != nil && Budget.IsRequirePricing() *)
  rt_Router : Router;
  rt_Registry : gset string;
  rt_Pricing : Pricing
}.

Definition has_target (c : Call) : bool :=
  negb (String.eqb (Provider (cl_Target c)) "") && negb (String.eqb (Model (cl_Target c)) "").

Definition planFor (router : Router) (now : Time) (br : option Breakers) (c : Call) (rt : Route) : list Target * option Breakers :=
  if has_target c then
    let '(plan, br) := Plan router now br rt (Some (cl_Request c)) in
    Order router now br (cl_Target c :: filter (fun t => t <> cl_Target c) plan)
  else Plan router now br rt (Some (cl_Request c)).

Definition unpriced_error : go_error := ErrApi (api_error 500 "target pricing unconfigured" "api_error" "unpriced_target").

Definition estimated_usage (req : ChatRequest) (completionText : string) : Usage :=
  let prompt := EstimatePromptTokens req in
  let comp := EstimateTokens completionText in
  mkUsage prompt comp (prompt + comp) None.

Definition price (rt : Runtime) (c : Call) (completionText : string) : Call :=
  let c := match cl_Response c ≫= cr_Usage with
           | Some u => set_Usage c u
           | None => set_Value (set_Usage c (estimated_usage (cl_Request c) completionText)) "usage.estimated" (ABool true)
           end in
  let '(cost, ok) := CostMicros (rt_Pricing rt) (Target_String (cl_Target c)) (cl_Usage c) in
  if ok then set_costs c cost (cl_HedgeCostMicros c)
  else
    let c := set_Value c "cost.unpriced" (ABool true) in
    if (0 <? BudgetMicros (p_Tenant (cl_Principal c))) && rt_RequirePricing rt && bool_decide (cl_Err c = None)
    then set_Err c (Some unpriced_error) else c.

(** ** Upstream execution (exec.go) *)

Definition effective_deadline (d : Duration) : Duration := if d <=? 0 then 90 * second else d.

(** What the calls of one request change: the world, the health tracker, and the
    variable that the closure given to [Execute] assigns. *)
Record Calls (W T : Type) := mkCalls { ca_w : W; ca_Health : option Tracker; ca_got : option T }.
Arguments mkCalls {W T}.
Arguments ca_w {W T}.
Arguments ca_Health {W T}.
Arguments ca_got {W T}.

(** What the [select] of a hedged race receives next. *)
Inductive arrival := Tick | Finished (who : side) | Ended (err : go_error).

(** The result of a plan: the answer or the error, the target and attempts, and
    whether a hedge was launched. *)
Record executed (T : Type) := mkExecuted { ex_resp : go_error + T; ex_res : Result; ex_hedged : bool }.
Arguments mkExecuted {T}.
Arguments ex_resp {T}.
Arguments ex_res {T}.
Arguments ex_hedged {T}.

(** What a handler keeps between requests: the world, the health tracker, the
    breakers and the hedge budgets of the routes; [sv_Metrics] tells whether
    metrics are installed. *)
Record Server (W : Type) := mkServer {
  sv_w : W; sv_Health : option Tracker; sv_Breakers : option Breakers; sv_Hedges : gmap string HedgeBudget; sv_Metrics : bool }.
Arguments mkServer {W}.
Arguments sv_w {W}.
Arguments sv_Health {W}.
Arguments sv_Breakers {W}.
Arguments sv_Hedges {W}.
Arguments sv_Metrics {W}.

Definition set_world {W} (s : Server W) (w : W) : Server W := mkServer w (sv_Health s) (sv_Breakers s) (sv_Hedges s) (sv_Metrics s).

(** The budget of a route, created on first use. *)
Definition hedgeBudget {W} (s : Server W) (route : Route) : HedgeBudget :=
  match sv_Hedges s !! ro_Name route with
  | Some b => b
  | None => NewHedgeBudget (if fleb (hg_MaxExtra (ro_Hedge route)) f0 then f_lit 10 100 else hg_MaxExtra (ro_Hedge route))
  end.

(** The delay before a hedge; the timer itself is an arrival of the schedule. *)
Definition hedge_delay {W} (s : Server W) (route : Route) (first : Target) : Duration :=
  let def := if 0 <? hg_Delay (ro_Hedge route) then hg_Delay (ro_Hedge route) else 150 * millisecond in
  match sv_Health s with Some h => HedgeDelay h first def | None => def end.

(** The router with the health of the moment. *)
Definition live_router {W} (rt : Runtime) (s : Server W) : Router :=
  SetHealth (rt_Router rt) (option_map Tracker_Degraded (sv_Health s)).

Section Exec.
Context {W T : Type} (ctx_err : W -> option go_error) (now : W -> Time)
  (sleep : W -> Duration -> bool * W) (rand_Int64N : W -> Z -> Z * W).
Context (fn : Calls W T -> Target -> (go_error + T) * Calls W T).      (* one call to one target *)

Definition observe (s : Calls W T) (w : W) (sample : Sample) : Calls W T :=
  mkCalls w (option_map (Observe (now w) sample) (ca_Health s)) (ca_got s).

(** The closure that [Execute] calls: a success is kept. *)
Definition call_and_keep (s : Calls W T) (t : Target) : option go_error * Calls W T :=
  match fn s t with
  | (inl e, s) => (Some e, s)
  | (inr v, s) => (None, mkCalls (ca_w s) (ca_Health s) (Some v))
  end.

Definition run_execute (rp : RetryPolicy) (plan : list Target) (br : option Breakers) (s : Calls W T)
  : Result * option go_error * xstate (W := Calls W T) :=
  Execute call_and_keep (fun s => ctx_err (ca_w s)) (fun s => now (ca_w s))
    (fun s d => let '(b, w) := sleep (ca_w s) d in (b, mkCalls w (ca_Health s) (ca_got s)))
    (fun s n => let '(k, w) := rand_Int64N (ca_w s) n in (k, mkCalls w (ca_Health s) (ca_got s)))
    plan rp br s.

(** *** The hedged race *)

Record racing := mkRacing { ra_calls : Calls W T; ra_budget : HedgeBudget; ra_st : hstate }.

(** One arrival: the timer asks the hedge budget, a completed call is made. *)
Definition race_step (p0 p1 : Target) (tail : list Target) (a : arrival) (s : racing) : racing * option (Hedge.outcome (T := T)) :=
  let '(ev, s) :=
    match a with
    | Tick => if h_hedged (ra_st s) then (TimerFired false, s)
              else let '(ok, b) := HedgeBudget_Allow (ra_budget s) in (TimerFired ok, mkRacing (ra_calls s) b (ra_st s))
    | Finished who => let '(r, c) := fn (ra_calls s) (target_of p0 p1 who) in
                      (Completed who r, mkRacing c (ra_budget s) (ra_st s))
    | Ended err => (CtxDone err, s)
    end in
  let '(st, o) := hedge_step p0 p1 tail (now (ca_w (ra_calls s))) (ra_st s) ev in
  (mkRacing (ra_calls s) (ra_budget s) st, o).

Definition can_arrive (st : hstate) (a : arrival) : bool :=
  match a with
  | Tick => negb (h_timer st)
  | Finished Primary => negb (h_doneA st)
  | Finished Secondary => h_hedged st && negb (h_doneB st)
  | Ended _ => true
  end.

(** The race under a schedule; arrivals that cannot occur are skipped, and a
    schedule that is too short leaves the race undecided ([None]). *)
Fixpoint run_race (p0 p1 : Target) (tail : list Target) (schedule : list arrival) (s : racing) : racing * option (Hedge.outcome (T := T)) :=
  match schedule with
  | [] => (s, None)
  | a :: rest =>
      if can_arrive (ra_st s) a then
        match race_step p0 p1 tail a s with
        | (s, Some o) => (s, Some o)
        | (s, None) => run_race p0 p1 tail rest s
        end
      else run_race p0 p1 tail rest s
  end.

Definition nil_response : go_error := ErrOther "nil response".

Definition of_execute (add : Z) (hedged : bool) (x : Result * option go_error * xstate (W := Calls W T)) : executed T :=
  let '(res, err, s) := x in
  mkExecuted (match err with Some e => inl e | None => match ca_got (x_w s) with Some v => inr v | None => inl nil_response end end)
    (mkResult (res_Target res) (res_Attempts res + add)) hedged.

Definition after_calls (s : Server W) (calls : Calls W T) (br : option Breakers) (hedges : gmap string HedgeBudget) : Server W :=
  mkServer (ca_w calls) (ca_Health calls) br hedges (sv_Metrics s).

Definition run_hedged (route : Route) (p0 p1 : Target) (tail : list Target) (schedule : list arrival) (s : Server W)
  : option (executed T * Server W) :=
  let b := HedgeBudget_Request (hedgeBudget s route) in
  let '(r, o) := run_race p0 p1 tail schedule (mkRacing (mkCalls (sv_w s) (sv_Health s) None) b (init_hstate (sv_Breakers s))) in
  let hedges := <[ro_Name route := ra_budget r]> (sv_Hedges s) in
  match o with
  | None => None
  | Some (Won v res hedged _) => Some (mkExecuted (inr v) res hedged, after_calls s (ra_calls r) (h_br (ra_st r)) hedges)
  | Some (Hedge.Failed res hedged err) => Some (mkExecuted (inl err) res hedged, after_calls s (ra_calls r) (h_br (ra_st r)) hedges)
  | Some (Linear rest hedged) =>
      let x := run_execute (ro_Retry route) rest (h_br (ra_st r)) (ra_calls r) in
      Some (of_execute (1 + boolInt hedged) hedged x, after_calls s (x_w x.2) (x_br x.2) hedges)
  end.

(** The prompt tokens of the call that lost. *)
Definition charge_hedge (rt : Runtime) (c : Call) (loser : Target) : Call :=
  match EstimateMaxMicros (Some (rt_Pricing rt)) [Target_String loser] (EstimatePromptTokens (cl_Request c)) 0 with
  | (cost, true) => set_costs c (cl_CostMicros c) (wrap64 (cl_HedgeCostMicros c + cost))
  | _ => c
  end.

Definition mark_hedged (rt : Runtime) (s : Server W) (x : executed T) (p0 p1 : Target) (c : Call) : Call :=
  if ex_hedged x then
    let c := set_Header c "X-ProofGate-Hedged" "true" in
    match ex_resp x with
    | inr _ => if sv_Metrics s then charge_hedge rt c (if decide (res_Target (ex_res x) = p0) then p1 else p0) else c
    | inl _ => c
    end
  else c.

(** The execution of the plan, and the call marked by a hedge. *)
Definition run_plan_for (rt : Runtime) (route : Route) (schedule : list arrival) (s : Server W) (plan : list Target) (c : Call)
  : option (executed T * Server W * Call) :=
  match hg_Enabled (ro_Hedge route), plan with
  | true, p0 :: p1 :: tail =>
      match run_hedged route p0 p1 tail schedule s with
      | Some (x, s) => Some (x, s, mark_hedged rt s x p0 p1 c)
      | None => None
      end
  | _, _ =>
      let x := run_execute (ro_Retry route) plan (sv_Breakers s) (mkCalls (sv_w s) (sv_Health s) None) in
      Some (of_execute 0 false x, after_calls s (x_w x.2) (x_br x.2) (sv_Hedges s), c)
  end.

(** The plan of the call, executed; the common part of [execChat] and
    [openStream].  [None] is a race the schedule leaves undecided. *)
Definition execute_call (rt : Runtime) (route : Route) (schedule : list arrival) (s : Server W) (c : Call)
  : option ((go_error + T) * Server W * Call) :=
  let '(plan, br) := planFor (live_router rt s) (now (sv_w s)) (sv_Breakers s) c route in
  match run_plan_for rt route schedule (mkServer (sv_w s) (sv_Health s) br (sv_Hedges s) (sv_Metrics s)) plan c with
  | None => None
  | Some (x, s, c) => Some (ex_resp x, s, set_result c (res_Target (ex_res x)) (res_Attempts (ex_res x)))
  end.
End Exec.

(** *** One chat completion *)

Section Chat.
Context {W : Type}
  (upstream : W -> Target -> ChatRequest -> Duration -> (go_error + ChatResponse) * W)   (* p.Chat under the route's timeout *)
  (ctx_err : W -> option go_error) (now : W -> Time)
  (sleep : W -> Duration -> bool * W) (rand_Int64N : W -> Z -> Z * W).

(** [fn] of [execChat]. *)
Definition call_target (rt : Runtime) (route : Route) (req : ChatRequest) (s : Calls W ChatResponse) (t : Target)
  : (go_error + ChatResponse) * Calls W ChatResponse :=
  if negb (bool_decide (Provider t ∈ rt_Registry rt)) then (inl (ErrApi NoHealthyTarget), s)
  else
    let start := now (ca_w s) in
    let '(r, w) := upstream (ca_w s) t req (ro_Timeout route) in
    let tokens := match r with inr resp => match cr_Usage resp with Some u => u_CompletionTokens u | None => 0 end | inl _ => 0 end in
    (r, observe now s w (mkSample t 0 tokens (time_sub (now w) start) (outcome (match r with inl e => Some e | inr _ => None end)))).

Definition answer_text (r : ChatResponse) : string :=
  match cr_Choices r with ch :: _ => Content_PlainText (m_Content (ch_Message ch)) | [] => "" end.

Definition execChat (rt : Runtime) (route : Route) (schedule : list arrival) (s : Server W) (c : Call)
  : option (option go_error * Server W * Call) :=
  match execute_call ctx_err now sleep rand_Int64N (call_target rt route (cl_Request c)) rt route schedule s c with
  | None => None
  | Some (inl e, s, c) => Some (Some e, s, c)
  | Some (inr resp, s, c) =>
      let c := price rt (set_Response c (Some resp)) (answer_text resp) in
      Some (cl_Err c, s, c)
  end.
End Chat.

(** ** Where an answer comes from *)

Section Provenance.
Context {W : Type} (fn : W -> Target -> option go_error * W) (ctx_err : W -> option go_error) (now : W -> Time)
  (sleep : W -> Duration -> bool * W) (rand : W -> Z -> Z * W)
  (Hsleep : forall w d w', sleep w d = (true, w') -> ctx_err w' <> None).   (* only the context interrupts a sleep *)

Definition succeeded (t : Target) (s : xstate (W := W)) : Prop :=
  res_Target (x_res s) = t /\ exists w, fn w t = (None, x_w s).

Lemma attempts_success rp t k n s s' : attempts fn ctx_err now sleep rand rp t k n s = (Return None, s') -> succeeded t s'.
Proof using Hsleep.
  revert n s. induction k as [|k IH]; intros n s; cbn [attempts]; [done|].
  destruct (checkCtx ctx_err s); [done|]. destruct (fn (x_w (bump s t)) t) as [r w] eqn:Ef.
  destruct r as [err|]; [|intros; simplify_eq; split; [done|by exists (x_w (bump s t))]].
  destruct (checkCtx ctx_err (record_error now (set_w (bump s t) w) t err)); [done|]. destruct (classify err) as [d f].
  destruct d; [done| |done]. destruct k as [|k']; [done|].
  destruct (backoff rand _ _ _) as [dl w1]. destruct (sleep w1 dl) as [i w2] eqn:Es. destruct i; [|apply IH].
  apply Hsleep in Es. unfold checkCtx. cbn. by destruct (ctx_err w2) as [[]|].
Qed.

Lemma run_plan_success rp plan s s' : run_plan fn ctx_err now sleep rand rp plan s = (Return None, s') ->
  exists t, t ∈ plan /\ succeeded t s'.
Proof using Hsleep.
  revert s. induction plan as [|t rest IH]; intros s; cbn [run_plan]; [done|].
  destruct (ask_breaker now s t) as [ok s1]. destruct (negb ok && _).
  - intros H. apply IH in H as (t' & Ht & Hs). exists t'. split; [by constructor|done].
  - destruct (attempts _ _ _ _ _ _ _ _ _ _) as [f s2] eqn:Ea. destruct f as [err|].
    + intros; simplify_eq. exists t. split; [constructor|]. by eapply attempts_success.
    + intros H. apply IH in H as (t' & Ht & Hs). exists t'. split; [by constructor|done].
Qed.

Lemma Execute_success plan rp br w res s : Execute fn ctx_err now sleep rand plan rp br w = (res, None, s) ->
  res_Target res ∈ plan /\ exists w', fn w' (res_Target res) = (None, x_w s).
Proof using Hsleep.
  unfold Execute. destruct (run_plan _ _ _ _ _ _ _ _) as [[err|] s1] eqn:E; intros; simplify_eq.
  apply run_plan_success in E as (t & Ht & Hr & w' & Hw). rewrite Hr. split; [done|by exists w'].
Qed.
End Provenance.

Section Answers.
Context {W T : Type} (ctx_err : W -> option go_error) (now : W -> Time)
  (sleep : W -> Duration -> bool * W) (rand_Int64N : W -> Z -> Z * W)
  (fn : Calls W T -> Target -> (go_error + T) * Calls W T).

(** [v] is what one call to [t], a target of [plan], returned. *)
Definition answered_by (plan : list Target) (t : Target) (v : T) : Prop :=
  t ∈ plan /\ exists s s', fn s t = (inr v, s').

Lemma answered_by_sub plan plan' t v : plan ⊆ plan' -> answered_by plan t v -> answered_by plan' t v.
Proof using. intros Hsub [Ht Hv]. split; [by apply Hsub|done]. Qed.

Lemma call_and_keep_success s t s' : call_and_keep fn s t = (None, s') ->
  exists v, ca_got s' = Some v /\ exists s1, fn s t = (inr v, s1).
Proof using.
  unfold call_and_keep. destruct (fn s t) as [[e|v] s1] eqn:E; intros; simplify_eq. exists v. split; [done|by exists s1].
Qed.

Lemma race_step_won p0 p1 tail a s s' v res h d :
  race_step now fn p0 p1 tail a s = (s', Some (Won v res h d)) -> answered_by [p0; p1] (res_Target res) v.
Proof using.
  unfold race_step. destruct a as [|who|err].
  - destruct (h_hedged (ra_st s)); [done|]. by destruct (HedgeBudget_Allow _).
  - destruct (fn _ _) as [[e|v'] c] eqn:E; cbn [hedge_step].
    + unfold on_failure. cbn. repeat case_match; intros; simplify_eq.
    + unfold finish. intros; simplify_eq. cbn. split; [destruct who; cbn; set_solver|by eexists _, _].
  - cbn. repeat case_match; intros; simplify_eq.
Qed.

Lemma race_step_linear p0 p1 tail a s s' rest h :
  race_step now fn p0 p1 tail a s = (s', Some (Linear rest h)) -> rest = tail \/ rest = p1 :: tail.
Proof using.
  unfold race_step. destruct a as [|who|err].
  - destruct (h_hedged (ra_st s)); [done|]. by destruct (HedgeBudget_Allow _).
  - destruct (fn _ _) as [[e|v'] c] eqn:E; cbn [hedge_step]; [|done].
    unfold on_failure. cbn. repeat case_match; intros; simplify_eq; auto.
  - cbn. repeat case_match; intros; simplify_eq.
Qed.

Lemma run_race_linear p0 p1 tail schedule s s' rest h :
  run_race now fn p0 p1 tail schedule s = (s', Some (Linear rest h)) -> rest = tail \/ rest = p1 :: tail.
Proof using.
  revert s. induction schedule as [|a l IH]; intros s; cbn [run_race]; [done|].
  destruct (can_arrive _ _); [|apply IH]. destruct (race_step _ _ _ _ _ _ _) as [s1 [o|]] eqn:E; [|apply IH].
  intros; simplify_eq. by eapply race_step_linear.
Qed.

Lemma run_race_won p0 p1 tail schedule s s' v res h d :
  run_race now fn p0 p1 tail schedule s = (s', Some (Won v res h d)) -> answered_by [p0; p1] (res_Target res) v.
Proof using.
  revert s. induction schedule as [|a rest IH]; intros s; cbn [run_race]; [done|].
  destruct (can_arrive _ _); [|apply IH]. destruct (race_step _ _ _ _ _ _ _) as [s1 [o|]] eqn:E; [|apply IH].
  intros; simplify_eq. by eapply race_step_won.
Qed.

Context (Hsleep : forall w d w', sleep w d = (true, w') -> ctx_err w' <> None).

Lemma run_execute_answer rp plan br s add hedged v :
  ex_resp (of_execute add hedged (run_execute ctx_err now sleep rand_Int64N fn rp plan br s)) = inr v ->
  answered_by plan (res_Target (ex_res (of_execute add hedged (run_execute ctx_err now sleep rand_Int64N fn rp plan br s)))) v.
Proof using Hsleep.
  unfold run_execute. destruct (Execute _ _ _ _ _ _ _ _ _) as [[res err] xs] eqn:E. unfold of_execute. cbn.
  destruct err; [done|]. apply Execute_success in E as (Ht & w & Hw).
  - apply call_and_keep_success in Hw as (v' & Hg & s1 & Hf). rewrite Hg. intros; simplify_eq. split; [done|by exists w, s1].
  - intros w0 d w' Hs. destruct (sleep (ca_w w0) d) as [b w1] eqn:Es. simplify_eq. cbn. by eapply Hsleep.
Qed.

Lemma run_plan_for_answer rt route schedule s plan c x s' c' v :
  run_plan_for ctx_err now sleep rand_Int64N fn rt route schedule s plan c = Some (x, s', c') -> ex_resp x = inr v ->
  answered_by plan (res_Target (ex_res x)) v.
Proof using Hsleep.
  assert (forall add hedged pl br calls, pl ⊆ plan -> let x := of_execute add hedged (run_execute ctx_err now sleep rand_Int64N fn (ro_Retry route) pl br calls) in
    ex_resp x = inr v -> answered_by plan (res_Target (ex_res x)) v) as Hex.
  { intros add hedged pl br calls Hsub y Hy. eapply answered_by_sub; [exact Hsub|]. by apply run_execute_answer. }
  unfold run_plan_for. destruct (hg_Enabled (ro_Hedge route)); [|intros; simplify_eq; by eapply Hex].
  destruct plan as [|p0 [|p1 tail]]; [intros; simplify_eq; by eapply Hex..|].
  unfold run_hedged. destruct (run_race _ _ _ _ _ _ _) as [r o] eqn:Er.
  destruct o as [[w res hedged drain|res hedged err|rest hedged]|]; [| | |done]; intros; simplify_eq.
  - cbn in *. simplify_eq. apply run_race_won in Er. eapply answered_by_sub; [|exact Er]. set_solver.
  - eapply Hex; [|done]. apply run_race_linear in Er. destruct Er as [-> | ->]; set_solver.
Qed.
End Answers.

(** ** Properties *)

Lemma Target_String_slash t : contains (Target_String t) "/" = true.
Proof.
  unfold Target_String, contains. destruct (index "/" (Provider t +:+ "/" +:+ Model t)) eqn:Ei; [done|].
  apply index_byte_None in Ei. change ("/" +:+ Model t) with (String "/" (Model t)) in Ei.
  rewrite scontains_byte_app in Ei. cbn in Ei. by rewrite orb_true_r in Ei.
Qed.

Lemma ParseTarget_String s t : ParseTarget s = Some t -> Target_String t = s.
Proof.
  unfold ParseTarget, cut. destruct (index "/" s) as [i|] eqn:E; [|done].
  simpl. destruct (String.eqb (stake i s) "" || _); [done|]. intros [= <-]. symmetry. exact (index_Some "/" s i E).
Qed.

Lemma New_providers cfg : rr_providers (New cfg) = list_to_set (map pv_Name (Providers cfg)).
Proof.
  assert (forall rcs r, rr_providers (fold_left add_route rcs r) = rr_providers r) as H; [|apply H].
  induction rcs as [|rc rcs IH]; intros r; [done|]. cbn. by rewrite IH.
Qed.

(** The routes of a configuration that the gateway accepts. *)
Lemma parsed_routes {IP IPNet : Type} getenv atoi parse_ip ip_is_v4 (parse_cidr : string -> option IPNet) url_parse c c' name :
  Parse_decoded (IP := IP) getenv atoi parse_ip ip_is_v4 parse_cidr url_parse c = inr c' ->
  match rr_routes (New c') !! name with
  | Some r => exists rc, rc ∈ Routes c' /\ r = route_of_config rc /\ rc_Name rc = name /\ contains name "/" = false /\ rc_Targets rc <> []
  | None => name ∉ map rc_Name (Routes c')
  end.
Proof.
  intros Hp. apply Parse_validates in Hp as [_ Hv]. unfold validate, validate_limits in Hv. split_nil.
  match goal with H : validate_routes _ _ _ _ _ = [] |- _ => apply validate_routes_nil in H as (Hall & Hnd & _) end.
  unfold New. match goal with |- context [for_range _ ?r0 _] => destruct (add_routes_lookup (Routes c') r0 Hnd) as [Hl Hn] end.
  destruct (decide (name ∈ map rc_Name (Routes c'))) as [(rc & -> & Hrc)%list_elem_of_fmap|Hni]; [|by rewrite Hn].
  rewrite (Hl rc Hrc). eapply Forall_forall in Hall as (_ & Hs & Ht & _); [|exact Hrc]. by exists rc.
Qed.

(** C5. A key reaches a route only by right: for a configuration that the gateway
    accepts, a request that is let through names a configured route its key may
    use, of the kind of the request, or names the model of a known provider itself,
    with a key that has direct access; such a request never panics. *)
Theorem route_access_sound {IP IPNet : Type} (getenv : string -> string)
  (atoi : string -> option Z) (parse_ip : string -> option IP) (ip_is_v4 : IP -> bool)
  (parse_cidr : string -> option IPNet) (url_parse : string -> option parsed_url) (c c' : Config)
  (p : Principal) (model : string) (embeddings : bool) :
  Parse_decoded getenv atoi parse_ip ip_is_v4 parse_cidr url_parse c = inr c' ->
  match resolveRoute (New c') p model embeddings with
  | None => False
  | Some (inl e) => exists ae, e = ErrApi ae
  | Some (inr route) =>
      (exists rc, rc ∈ Routes c' /\ route = route_of_config rc /\ rc_Name rc = model /\ CanUseRoute p model = true /\ rc_Embeddings rc = embeddings) \/
      (model ∉ map rc_Name (Routes c') /\ AllowDirect p = true /\
       exists t, route = direct_route model t /\ Target_String t = model /\ Provider t ∈ map pv_Name (Providers c'))
  end.
Proof.
  intros Hp. apply (parsed_routes _ _ _ _ _ _ _ _ model) in Hp. unfold resolveRoute, Resolve. destruct (rr_routes (New c') !! model) as [r|].
  - destruct Hp as (rc & Hrc & -> & Hn & Hslash & Hne). cbn [route_of_config ro_Name ro_Targets ro_Embeddings].
    destruct (rc_Targets rc) as [|t ts] eqn:Ets; [done|].
    assert (String.eqb (rc_Name rc) (Target_String t) = false) as ->.
    { apply String.eqb_neq. intros E. rewrite <- Hn, E in Hslash. by rewrite Target_String_slash in Hslash. }
    cbn [option_map negb]. rewrite Hn. destruct (CanUseRoute p model) eqn:Hu; [|destruct (negb (AllowDirect p) || _); by eexists].
    destruct (Bool.eqb _ _) eqn:Ee; [|by eexists]. left. exists rc. split_and!; try done. by apply eqb_prop.
  - destruct (ParseTarget model) as [t|] eqn:Et; [|by eexists]. destruct (AllowDirect p); [|by eexists]. cbn [negb].
    destruct (bool_decide (Provider t ∈ rr_providers (New c'))) eqn:Eb; [|by eexists]. apply bool_decide_eq_true in Eb.
    apply ParseTarget_String in Et as Es. cbn. rewrite Es, String.eqb_refl. rewrite New_providers, elem_of_list_to_set in Eb.
    destruct (CanUseRoute p model); cbn; (destruct embeddings; cbn; right; split_and!; try done; by exists t).
Qed.

Lemma upstreamError_some err : upstreamError err = None <-> err = ErrCanceled.
Proof. by destruct err. Qed.

(** What a failed upstream call becomes: nothing is answered exactly when the call
    was cancelled; otherwise the client gets an error of the gateway's own shape,
    a provider's refusal keeps its status and message, a provider's failure
    becomes a 502 that does not quote it, and its Retry-After is passed on. *)
Theorem upstreamError_correct (err : go_error) :
  match upstreamError err with
  | None => err = ErrCanceled
  | Some e => exists ae, e = ErrApi ae /\
      match err with
      | ErrApi ae' => ae = ae'
      | ErrProvider pe =>
          (0 < pe_RetryAfter pe -> ae_RetryAfter ae = pe_RetryAfter pe) /\
          (if bool_decide (pe_Status pe ∈ [400; 404; 413; 422; 429]) then ae_Status ae = pe_Status pe /\ ae_Message ae = pe_Message pe
           else ae_Status ae = 502 /\ ae_Message ae = "all targets failed; last: " +:+ pe_Provider pe +:+ " " +:+ itoa (pe_Status pe))
      | ErrDeadlineExceeded => ae_Status ae = 504
      | ErrOther _ => ae_Status ae = 502
      | ErrCanceled => False
      end
  end.
Proof.
  destruct err as [pe|ae| | |m]; cbn; [|by exists ae|by eexists|done|by eexists].
  eexists. split; [done|]. split.
  - intros H. apply Z.ltb_lt in H. by rewrite H.
  - destruct pe as [prov st msg retr after]. cbn. destruct (0 <? after).
    all: repeat match goal with |- context [?x =? ?n] => destruct (Z.eqb_spec x n) as [->|] end; try (by split).
    all: rewrite bool_decide_false by set_solver; by split.
Qed.

Lemma tier_cases r now br t : tier r now br t = 0 \/ tier r now br t = 1 \/ tier r now br t = 2.
Proof. unfold tier. repeat case_match; auto. Qed.

Lemma Order_head r now br t l : exists pre post,
  (Order r now br (t :: l)).1 = pre ++ t :: post /\ Forall (fun t' => tier r now br t' < tier r now br t) pre.
Proof.
  rewrite (proj1 (Order_stable_tiers r now br (t :: l))). set (ti := tier r now br).
  assert (forall k, Forall (fun t' => ti t' = k) (filter (fun t' => ti t' = k) (t :: l))) as Hf.
  { intros k. apply Forall_forall. intros x Hx. by apply list_elem_of_filter in Hx as [? _]. }
  destruct (tier_cases r now br t) as [E|[E|E]]; fold ti in E.
  - rewrite (filter_cons_True _ t) by done. by eexists [], _.
  - exists (filter (fun t' => ti t' = 0) (t :: l)).
    rewrite (filter_cons_True (fun t' => ti t' = 1)) by done. eexists. split; [done|].
    eapply Forall_impl; [apply Hf|]. cbn. intros; lia.
  - exists (filter (fun t' => ti t' = 0) (t :: l) ++ filter (fun t' => ti t' = 1) (t :: l)).
    rewrite (filter_cons_True (fun t' => ti t' = 2)), app_assoc by done. eexists. split; [done|].
    apply Forall_app. split; (eapply Forall_impl; [apply Hf|]; cbn; intros; lia).
Qed.

(** A target chosen for the call is tried before every target that is not
    healthier, exactly once, and the rest of the plan is that of the route. *)
Theorem planFor_correct (router : Router) (now : Time) (br : option Breakers) (c : Call) (rt : Route) :
  let plan := (planFor router now br c rt).1 in
  let route_plan := Plan router now br rt (Some (cl_Request c)) in
  if has_target c then
    plan ≡ₚ cl_Target c :: filter (fun t => t <> cl_Target c) route_plan.1 /\
    exists pre post, plan = pre ++ cl_Target c :: post /\ cl_Target c ∉ pre ++ post /\
      Forall (fun t => tier router now route_plan.2 t < tier router now route_plan.2 (cl_Target c)) pre
  else plan = route_plan.1.
Proof.
  intros plan route_plan. subst plan. unfold planFor. fold route_plan. destruct (has_target c); [|done].
  destruct route_plan as [l br'] eqn:El. cbn [fst snd].
  pose proof (proj2 (Order_stable_tiers router now br' (cl_Target c :: filter (fun t => t <> cl_Target c) l))) as Hp.
  split; [done|]. destruct (Order_head router now br' (cl_Target c) (filter (fun t => t <> cl_Target c) l)) as (pre & post & E & Hpre).
  exists pre, post. split; [done|]. split; [|done]. rewrite E in Hp.
  rewrite <- Permutation_middle in Hp. apply Permutation_cons_inv in Hp. rewrite Hp. rewrite list_elem_of_filter. by intros [? _].
Qed.

(** *** What a call costs *)

Lemma price_spec rt c text : cl_Err c = None ->
  let c' := price rt c text in
  let target := Target_String (cl_Target c) in
  cl_Response c' = cl_Response c /\ cl_Target c' = cl_Target c /\
  cl_Usage c' = match cl_Response c ≫= cr_Usage with Some u => u | None => estimated_usage (cl_Request c) text end /\
  match prices (rt_Pricing rt) !! target with
  | Some _ => CostMicros (rt_Pricing rt) target (cl_Usage c') = (cl_CostMicros c', true) /\ cl_Err c' = None
  | None => cl_CostMicros c' = cl_CostMicros c /\
      cl_Err c' = if (0 <? BudgetMicros (p_Tenant (cl_Principal c))) && rt_RequirePricing rt then Some unpriced_error else None
  end.
Proof.
  intros Herr. unfold price. cbv zeta.
  assert (forall c1, cl_Target c1 = cl_Target c -> cl_Err c1 = None -> cl_Principal c1 = cl_Principal c -> cl_Response c1 = cl_Response c ->
    cl_CostMicros c1 = cl_CostMicros c ->
    let c' := (let '(cost, ok) := CostMicros (rt_Pricing rt) (Target_String (cl_Target c1)) (cl_Usage c1) in
      if ok then set_costs c1 cost (cl_HedgeCostMicros c1)
      else if (0 <? BudgetMicros (p_Tenant (cl_Principal (set_Value c1 "cost.unpriced" (ABool true))))) && rt_RequirePricing rt &&
              bool_decide (cl_Err (set_Value c1 "cost.unpriced" (ABool true)) = None)
           then set_Err (set_Value c1 "cost.unpriced" (ABool true)) (Some unpriced_error) else set_Value c1 "cost.unpriced" (ABool true)) in
    cl_Response c' = cl_Response c /\ cl_Target c' = cl_Target c /\ cl_Usage c' = cl_Usage c1 /\
    match prices (rt_Pricing rt) !! Target_String (cl_Target c) with
    | Some _ => CostMicros (rt_Pricing rt) (Target_String (cl_Target c)) (cl_Usage c') = (cl_CostMicros c', true) /\ cl_Err c' = None
    | None => cl_CostMicros c' = cl_CostMicros c /\
        cl_Err c' = if (0 <? BudgetMicros (p_Tenant (cl_Principal c))) && rt_RequirePricing rt then Some unpriced_error else None
    end) as H.
  { intros c1 Ht He Hp Hr Hc. rewrite Ht. unfold CostMicros. destruct (prices (rt_Pricing rt) !! Target_String (cl_Target c)) as [pr|] eqn:Epr.
    - cbn. split_and!; done.
    - cbn. rewrite He, Hp. cbn. rewrite andb_true_r. destruct (_ && _); cbn; by split_and!. }
  destruct (cl_Response c ≫= cr_Usage) as [u|].
  - apply (H (set_Usage c u)); done.
  - apply (H (set_Value (set_Usage c (estimated_usage (cl_Request c) text)) "usage.estimated" (ABool true))); done.
Qed.

(** The fields of a call that the execution of its plan does not touch. *)
Definition same_request (c c' : Call) : Prop :=
  cl_Request c' = cl_Request c /\ cl_Principal c' = cl_Principal c /\ cl_Err c' = cl_Err c /\ cl_Response c' = cl_Response c /\
  cl_CostMicros c' = cl_CostMicros c /\ cl_Route c' = cl_Route c /\ cl_ID c' = cl_ID c /\ cl_Stream c' = cl_Stream c /\
  cl_Values c' = cl_Values c /\ cl_CacheStatus c' = cl_CacheStatus c.

Lemma mark_hedged_same {W T} rt (s : Server W) (x : executed T) p0 p1 c : same_request c (mark_hedged rt s x p0 p1 c).
Proof. unfold mark_hedged, charge_hedge. repeat case_match; by split_and!. Qed.

Lemma execute_call_same {W T} ctx_err now sleep rand (fn : Calls W T -> Target -> (go_error + T) * Calls W T) rt route schedule s c r s' c' :
  execute_call ctx_err now sleep rand fn rt route schedule s c = Some (r, s', c') -> same_request c c'.
Proof.
  unfold execute_call, run_plan_for. destruct (planFor _ _ _ _ _) as [plan br].
  destruct (hg_Enabled _); [|intros; simplify_eq; by split_and!].
  destruct plan as [|p0 [|p1 tail]]; [intros; simplify_eq; by split_and!..|].
  destruct (run_hedged _ _ _ _ _ _ _ _ _ _) as [[x s1]|]; [|done]. intros; simplify_eq.
  apply (mark_hedged_same rt s' x p0 p1 c).
Qed.

Section Answer.
Context {W : Type} (upstream : W -> Target -> ChatRequest -> Duration -> (go_error + ChatResponse) * W)
  (ctx_err : W -> option go_error) (now : W -> Time) (sleep : W -> Duration -> bool * W) (rand : W -> Z -> Z * W)
  (Hsleep : forall w d w', sleep w d = (true, w') -> ctx_err w' <> None).

Lemma execute_call_answer {T} (fn : Calls W T -> Target -> (go_error + T) * Calls W T) rt route schedule s c v s' c' :
  execute_call ctx_err now sleep rand fn rt route schedule s c = Some (inr v, s', c') ->
  answered_by fn (planFor (live_router rt s) (now (sv_w s)) (sv_Breakers s) c route).1 (cl_Target c') v.
Proof using Hsleep.
  unfold execute_call. destruct (planFor _ _ _ _ _) as [plan br].
  destruct (run_plan_for _ _ _ _ _ _ _ _ _ _ _) as [[[x s1] c1]|] eqn:E; [|done]. intros; simplify_eq.
  by eapply run_plan_for_answer.
Qed.

(** *** The answer of a call *)
Lemma execChat_spec rt route schedule s c err s' c' : cl_Err c = None ->
  execChat upstream ctx_err now sleep rand rt route schedule s c = Some (err, s', c') ->
  match err with
  | Some e => cl_Response c' = cl_Response c /\ cl_Err c' = None \/
      e = unpriced_error /\ 0 < BudgetMicros (p_Tenant (cl_Principal c)) /\ rt_RequirePricing rt = true /\
      prices (rt_Pricing rt) !! Target_String (cl_Target c') = None
  | None => exists resp,
      answered_by (call_target upstream now rt route (cl_Request c)) (planFor (live_router rt s) (now (sv_w s)) (sv_Breakers s) c route).1
        (cl_Target c') resp /\
      cl_Response c' = Some resp /\ cl_Err c' = None /\
      cl_Usage c' = match cr_Usage resp with Some u => u | None => estimated_usage (cl_Request c) (answer_text resp) end /\
      match prices (rt_Pricing rt) !! Target_String (cl_Target c') with
      | Some _ => CostMicros (rt_Pricing rt) (Target_String (cl_Target c')) (cl_Usage c') = (cl_CostMicros c', true)
      | None => cl_CostMicros c' = cl_CostMicros c /\ (BudgetMicros (p_Tenant (cl_Principal c)) <= 0 \/ rt_RequirePricing rt = false)
      end
  end.
Proof using Hsleep.
  intros Herr. unfold execChat. destruct (execute_call _ _ _ _ _ _ _ _ _ _) as [[[[e|resp] s1] c1]|] eqn:E; [| |done].
  - apply execute_call_same in E as (_ & _ & He & Hr & _). intros; simplify_eq. left. by rewrite He, Herr, Hr.
  - pose proof (execute_call_answer _ _ _ _ _ _ _ _ _ E) as Hans. apply execute_call_same in E as (Hq & Hp & He & _ & Hc & _).
    intros H. injection H as <- <- <-.
    destruct (price_spec rt (set_Response c1 (Some resp)) (answer_text resp)) as (Pr & Pt & Pu & Pp); [by cbn; rewrite He|].
    cbn in Pr, Pt, Pu, Pp. rewrite Pt, Hq in *. destruct (prices (rt_Pricing rt) !! _) as [pr|] eqn:Epr.
    + destruct Pp as [Pc ->]. exists resp. by split_and!.
    + destruct Pp as [Pc Pe]. rewrite Hp in Pe. destruct (Z.ltb_spec 0 (BudgetMicros (p_Tenant (cl_Principal c)))) as [Hb|Hb]; cbn in Pe.
      * destruct (rt_RequirePricing rt); rewrite Pe; [right; by split_and!|]. exists resp. split_and!; try done; [|by right]. by rewrite Pc.
      * rewrite Pe. exists resp. split_and!; try done; [|by left]. by rewrite Pc.
Qed.
End Answer.

(** ** Examples *)

Definition demo_served : Config := applyDefaults (fun _ => "") demo_config.
Definition chat_key : Principal := mkPrincipal "acme" "" "" "" ["chat"] false no_limits no_key_policy.
Definition direct_key : Principal := mkPrincipal "acme" "" "" "" ["other"] true no_limits no_key_policy.

Example resolve_ex :
  map (fun x => match resolveRoute (New demo_served) x.1 x.2 false with
                | Some (inr r) => ro_Name r | Some (inl (ErrApi e)) => ae_Message e | _ => "panic" end)
    [(chat_key, "chat"); (direct_key, "chat"); (chat_key, "openai/gpt-4o"); (direct_key, "openai/gpt-4o")] =
  ["chat"; "this key may not use route chat"; "direct targets are not allowed for this key; use a route name"; "openai/gpt-4o"].
Proof. vm_compute. reflexivity. Qed.

Lemma route_access_sound_witness : "chat" ∈ map rc_Name (Routes demo_served) /\ CanUseRoute chat_key "chat" = true.
Proof.
  assert (Parse_decoded (IP := unit) (IPNet := unit) (fun _ => "") (fun _ => None) (fun _ => None) (fun _ => true) (fun _ => None)
    demo_url demo_config = inr demo_served) as Hp by (vm_compute; reflexivity).
  pose proof (route_access_sound _ _ _ _ _ _ _ _ chat_key "chat" false Hp) as H.
  assert (exists r, resolveRoute (New demo_served) chat_key "chat" false = Some (inr r)) as [r E] by (eexists; vm_compute; reflexivity).
  rewrite E in H. destruct H as [(rc & Hrc & _ & Hn & Hu & _)|(_ & Hd & _)]; [|discriminate Hd].
  split; [rewrite <- Hn; apply list_elem_of_fmap; exists rc; split; [reflexivity|exact Hrc]|exact Hu].
Defined.

(** A target chosen for the call leads the plan even when it cannot serve the
    request: the capabilities keep a text-only model out of the route's plan of a
    request with an image, and [planFor] puts it in front. *)
Definition image_request : ChatRequest :=
  plain_request "eyes" [mkMessage "user" (mkContent "" (Some [mkContentPart "image_url" "" (Some (mkImageURL "https://x/y.png" ""))])) "" [] ""].
Definition text_only : gmap string Capability := {[ Target_String spare_target := mkCapability 0 false None ]}.
Definition eyes_router : Router :=
  mkRouter ∅ [] ∅ ∅ (<[Target_String demo_target := mkCapability 0 true None]> text_only) None.
Definition eyes_route : Route :=
  mkRoute "eyes" [demo_target; spare_target] "fallback" (mkRetryPolicy 2 0) 0 0 0 0 false
    empty_cache_config empty_guard_config empty_smart_route_config empty_hedge_config.
Definition image_call (t : Target) : Call := set_result (NewCall "id" 0 chat_key image_request (Some eyes_route)) t 0.

Theorem forced_target_skips_capabilities :
  (planFor eyes_router 0 None (image_call (mkTarget "" "")) eyes_route).1 = [demo_target] /\
  (planFor eyes_router 0 None (image_call spare_target) eyes_route).1 = [spare_target; demo_target].
Proof. split; vm_compute; reflexivity. Qed.
