(* ===== verification/Stream.v ===== *)
(** * Streaming a chat request (src/internal/server/stream.go)

    Opening the upstream stream of a plan, the pump that reads it, and the relay
    of its chunks to the client as server-sent events.

    A provider's stream is the list of its chunks and the error it ends with
    ([None] is [io.EOF]).  What the network decides is an argument of the relay:
    after how many chunks the pump finds the client's context done, and at which
    write the client's socket turns out to be closed. *)

From S2P Require Import Prelude GoStrings GoFloat Breaker Config Api Assemble Execute Route Hedge Health Policy Pipeline.
From S2P Require Import Budget BudgetStage SmartRoute Detect Redact Guard Serve.

Open Scope string_scope.
Open Scope list_scope.
Open Scope Z_scope.

Definition wantsUsage (req : ChatRequest) : bool :=
  match r_StreamOptions req with Some o => so_IncludeUsage o | None => false end.

Definition usageOnly (c : ChatChunk) : bool := bool_decide (is_Some (ck_Usage c)) && bool_decide (ck_Choices c = []).

(** ** Opening *)

(** An open stream after its first chunk: the chunks still to come and how it
    ends. *)
Record opened := mkOpened { op_first : ChatChunk; op_rest : list ChatChunk; op_end : option go_error }.

(** What [ChatStream] and the first [Recv] give: an error, the end of an empty
    stream, or a stream.  [late]: the first-token timer had fired while the attempt
    was still wanted. *)
Inductive opening := OpenError (e : go_error) | OpenEOF | Open (o : opened).

Section Open.
Context {W : Type}
  (open_stream : W -> Target -> ChatRequest -> Duration -> opening * bool * W)
  (ctx_err : W -> option go_error) (now : W -> Time)
  (sleep : W -> Duration -> bool * W) (rand_Int64N : W -> Z -> Z * W).

Definition first_token_timeout (route : Route) : Duration :=
  if ro_FirstTokenTimeout route <=? 0 then 15 * second else ro_FirstTokenTimeout route.

(** [fn] of [openStream]. *)
Definition open_target (rt : Runtime) (route : Route) (req : ChatRequest) (s : Calls W opened) (t : Target)
  : (go_error + opened) * Calls W opened :=
  if negb (bool_decide (Provider t ∈ rt_Registry rt)) then (inl (ErrApi NoHealthyTarget), s)
  else
    let start := now (ca_w s) in
    let '(r, late, w) := open_stream (ca_w s) t req (first_token_timeout route) in
    let failed := match r with OpenError e => Some e | OpenEOF => Some (ErrOther "EOF") | Open _ => None end in
    let s := observe now s w (mkSample t (match r with Open _ => time_sub (now w) start | _ => 0 end) 0 0 (outcome failed)) in
    match r with
    | Open o => (inr o, s)
    | OpenError e =>
        if late then (inl (ErrProvider (mkProviderError (Provider t) 504 "time to first token exceeded" true 0)), s)
        else (inl e, s)
    | OpenEOF =>
        if late then (inl (ErrProvider (mkProviderError (Provider t) 504 "time to first token exceeded" true 0)), s)
        else (inl (ErrProvider (mkProviderError (Provider t) 502 "empty stream" true 0)), s)
    end.

Definition openStream (rt : Runtime) (route : Route) (schedule : list arrival) (s : Server W) (c : Call)
  : option ((go_error + opened) * Server W * Call) :=
  execute_call ctx_err now sleep rand_Int64N (open_target rt route (cl_Request c)) rt route schedule s c.
End Open.

(** ** The pump *)

(** The chunks that reach the handler, and [finalErr]: [cut] chunks are sent
    before the client's context is found done, which hides the error. *)
Definition pump (o : opened) (cut : option nat) : list ChatChunk * option go_error :=
  let all := op_first o :: op_rest o in
  match cut with
  | Some n => if (n <? length all)%nat then (take n all, None) else (all, None)
  | None => (all, op_end o)
  end.

(** ** The relay *)

(** What is written to the client: a chunk, the interruption, the end. *)
Inductive frame := FChunk (c : ChatChunk) | FError (e : ApiError) | FDone.

Record relay := mkRelay { re_asm : Assembler; re_filter : option filter_state; re_out : list frame; re_gone : bool }.

(** The loop over the chunks; [gone_at] is the number of writes that succeed
    before one fails. *)
Fixpoint relay_chunks (req : ChatRequest) (gone_at : option nat) (chunks : list ChatChunk) (s : relay) : option relay :=
  match chunks with
  | [] => Some s
  | ch :: rest =>
      match Assembler_Add (re_asm s) ch with
      | None => None
      | Some asm =>
          if usageOnly ch && negb (wantsUsage req) then relay_chunks req gone_at rest (mkRelay asm (re_filter s) (re_out s) (re_gone s))
          else
            let '(out, f) := match re_filter s with
                             | Some f => let '(o, f) := filter_chunk ch f in (o, Some f)
                             | None => (ch, None)
                             end in
            if match gone_at with Some n => (length (re_out s) =? n)%nat | None => false end
            then Some (mkRelay asm f (re_out s) true)
            else relay_chunks req gone_at rest (mkRelay asm f (re_out s ++ [FChunk out]) (re_gone s))
      end
  end.

Definition flush_chunk (rem : string) : ChatChunk :=
  mkChatChunk "" "" 0 "" [mkChunkChoice 0 (mkChunkDelta "" rem []) None] None.

(** After the loop: the flush of the filter, the interruption, and the end. *)
Definition relay_end (upstreamErr : option go_error) (s : relay) : list frame * option go_error :=
  let flush := match re_filter s with
               | Some f => let rem := stream_flush f in
                           if negb (String.eqb rem "") && negb (re_gone s) then [FChunk (flush_chunk rem)] else []
               | None => []
               end in
  let broken := match upstreamErr with
                | Some _ => if re_gone s then [] else [FError (Upstream "stream interrupted")]
                | None => []
                end in
  (re_out s ++ flush ++ broken ++ (if re_gone s then [] else [FDone]),
   if re_gone s then Some ErrCanceled else upstreamErr).

(** The network's side of a relay. *)
Record network := mkNetwork { nw_cut : option nat; nw_gone_at : option nat }.

Definition stream_filter (c : Call) : option filter_state :=
  match cl_Values c !! ChunkFilterKey with Some (AFilter m) => Some (new_filter m) | _ => None end.

(** The relay of the chunks of a call: the frames, the assembled answer, and the
    error recorded in the call; [None] is a panic of the assembler. *)
Definition relay_stream (c : Call) (net : network) (chunks : list ChatChunk) (upstreamErr : option go_error)
  : option (list frame * Assembler * option go_error) :=
  match relay_chunks (cl_Request c) (nw_gone_at net) chunks (mkRelay empty_assembler (stream_filter c) [] false) with
  | None => None
  | Some s => let '(frames, err) := relay_end upstreamErr s in (Some (frames, re_asm s, err))
  end.

(** The reply of a stream: headers, frames and the cost trailer; or an error in
    place of a stream, or nothing for a client that left. *)
Inductive stream_reply :=
| Streamed (frames : list frame) (cost : string)
| StreamRefused (e : go_error)
| StreamAbandoned.

Definition set_stream_error (c : Call) (err : option go_error) : Call :=
  match err with Some _ => set_Err c err | None => c end.

Section Serve.
Context {W : Type}
  (open_stream : W -> Target -> ChatRequest -> Duration -> opening * bool * W)
  (ctx_err : W -> option go_error) (now : W -> Time)
  (sleep : W -> Duration -> bool * W) (rand_Int64N : W -> Z -> Z * W).

(** The end of a live stream: the answer is priced and the target's speed observed. *)
Definition finish_live (rt : Runtime) (firstAt : Time) (text : string) (s : Server W) (c : Call) : Server W * Call :=
  let c := price rt c text in
  let sample := mkSample (cl_Target c) 0 (u_CompletionTokens (cl_Usage c)) (time_sub (now (sv_w s)) firstAt) Health.Unknown in
  (mkServer (sv_w s) (option_map (Observe (now (sv_w s)) sample) (sv_Health s)) (sv_Breakers s) (sv_Hedges s) (sv_Metrics s), c).

Definition cost_trailer (c : Call) : string := format_fixed 6 (usd (cl_CostMicros c)).

(** [serveStream] before its deferred [After]: [handled] replays the stored
    response of the call, otherwise the plan is opened and relayed. *)
Definition serveStream (rt : Runtime) (route : Route) (schedule : list arrival) (net : network) (handled : bool) (s : Server W) (c : Call)
  : option (stream_reply * Server W * Call) :=
  if handled then
    let all := match cl_Response c with Some r => ChunksFromResponse r 64 | None => [] end in
    let chunks := match nw_cut net with Some n => take n all | None => all end in
    match relay_stream c net chunks None with
    | None => None
    | Some (frames, asm, err) =>
        let c := set_Response (set_stream_error c err) (Some (Assembler_Response asm)) in
        Some (Streamed frames (cost_trailer c), s, c)
    end
  else
    match openStream open_stream ctx_err now sleep rand_Int64N rt route schedule s c with
    | None => None
    | Some (inl e, s, c) =>
        match upstreamError e with
        | None => Some (StreamAbandoned, s, set_Err c (ctx_err (sv_w s)))
        | Some e' => Some (StreamRefused e', s, set_Err c (Some e'))
        end
    | Some (inr o, s, c) =>
        let firstAt := now (sv_w s) in
        let '(chunks, upstreamErr) := pump o (nw_cut net) in
        match relay_stream c net chunks upstreamErr with
        | None => None
        | Some (frames, asm, err) =>
            let c := set_Response (set_stream_error c err) (Some (Assembler_Response asm)) in
            let '(s, c) := finish_live rt firstAt (Assembler_Text asm) s c in
            Some (Streamed frames (cost_trailer c), s, c)
        end
    end.
End Serve.

(** ** What a client receives *)

(** The chunks a client is meant to see. *)
Definition shown (req : ChatRequest) (ch : ChatChunk) : bool := negb (usageOnly ch && negb (wantsUsage req)).

Definition chunk_texts (ch : ChatChunk) : list string := map (fun k => cd_Content (cc_Delta k)) (ck_Choices ch).
Definition chunk_text (ch : ChatChunk) : string := concat_strings (chunk_texts ch).
Definition frame_text (f : frame) : string := match f with FChunk c => chunk_text c | _ => "" end.
Definition frames_text (fs : list frame) : string := concat_strings (map frame_text fs).

Lemma frames_text_app a b : frames_text (a ++ b) = frames_text a +:+ frames_text b.
Proof. unfold frames_text. by rewrite map_app, concat_strings_app. Qed.

Lemma hidden_no_text req ch : shown req ch = false -> chunk_texts ch = [] /\ usageOnly ch && negb (wantsUsage req) = true.
Proof.
  unfold shown. intros H. apply negb_false_iff in H. split; [|done]. apply andb_true_iff in H as [H _]. unfold usageOnly in H.
  apply andb_true_iff in H as [_ H]. apply bool_decide_eq_true in H. unfold chunk_texts. by rewrite H.
Qed.

(** *** Without redaction the chunks pass unchanged *)

Lemma relay_plain req chunks asm out : 
  relay_chunks req None chunks (mkRelay asm None out false) =
  option_map (fun a => mkRelay a None (out ++ map FChunk (List.filter (shown req) chunks)) false) (Assembler_AddAll asm chunks).
Proof.
  revert asm out. induction chunks as [|ch chunks IH]; intros asm out; [cbn; by rewrite app_nil_r|].
  cbn [relay_chunks Assembler_AddAll List.filter re_asm re_filter re_out re_gone]. destruct (Assembler_Add asm ch) as [a|]; [|done]. cbn [mbind option_bind].
  destruct (shown req ch) eqn:Es.
  - unfold shown in Es. apply negb_true_iff in Es. rewrite Es, IH. cbn [map]. by rewrite <- app_assoc.
  - apply hidden_no_text in Es as [_ ->]. by rewrite IH.
Qed.

Lemma relay_plain_gone req n chunks asm out : (length out <= n)%nat ->
  match relay_chunks req (Some n) chunks (mkRelay asm None out false) with
  | Some s => let all := out ++ map FChunk (List.filter (shown req) chunks) in
      re_out s = take n all /\ re_filter s = None /\ re_gone s = bool_decide (n < length all)%nat
  | None => exists pre, Assembler_AddAll asm pre = None /\ pre `prefix_of` chunks
  end.
Proof.
  revert asm out. induction chunks as [|ch chunks IH]; intros asm out Hn.
  - cbn. rewrite app_nil_r, take_ge by done. split_and!; [done..|]. by rewrite bool_decide_false by lia.
  - cbn [relay_chunks List.filter re_asm re_filter re_out re_gone]. destruct (Assembler_Add asm ch) as [a|] eqn:Ea.
    2: { exists [ch]. cbn. rewrite Ea. split; [done|]. by exists chunks. }
    destruct (shown req ch) eqn:Es.
    + unfold shown in Es. apply negb_true_iff in Es. rewrite Es. destruct (Nat.eqb_spec (length out) n) as [E|E].
      * cbn. rewrite <- E, take_app_length. split_and!; [done..|]. rewrite bool_decide_true; [done|]. rewrite length_app. cbn. lia.
      * specialize (IH a (out ++ [FChunk ch])). rewrite length_app in IH. cbn [length] in IH. specialize (IH ltac:(lia)).
        cbn [map]. destruct (relay_chunks _ _ _ _) as [s|]; [by rewrite <- app_assoc in IH|].
        destruct IH as (pre & Hp & tl & ->). exists (ch :: pre). cbn. rewrite Ea. split; [done|]. by exists tl.
    + apply hidden_no_text in Es as [_ ->]. specialize (IH a out Hn). destruct (relay_chunks _ _ _ _) as [s|]; [done|].
      destruct IH as (pre & Hp & tl & ->). exists (ch :: pre). cbn. rewrite Ea. split; [done|]. by exists tl.
Qed.

(** *** With redaction the text is the restored text *)

Lemma process_all_app s a b : process_all s (a ++ b) =
  let '(o, s1) := process_all s a in let '(o', s2) := process_all s1 b in (o +:+ o', s2).
Proof.
  revert s. induction a as [|c a IH]; intros s; cbn [app process_all]; [by destruct (process_all s b)|].
  destruct (Process s c) as [o s1]. rewrite IH. destruct (process_all s1 a) as [o1 s2]. destruct (process_all s2 b) as [o2 s3].
  by rewrite sapp_assoc.
Qed.

(** The pieces of text the content restorer is given. *)
Definition pieces (l : list string) : list string := List.filter (fun s => negb (String.eqb s "")) l.

Lemma concat_pieces l : concat_strings (pieces l) = concat_strings l.
Proof. induction l as [|s l IH]; [done|]. unfold pieces in *. cbn. destruct (String.eqb_spec s "") as [->|]; cbn; by rewrite IH. Qed.

Lemma map_state_content (tcs : list ToolCall) f : fs_content (map_state filter_tool_call tcs f).2 = fs_content f /\
  fs_map (map_state filter_tool_call tcs f).2 = fs_map f.
Proof.
  revert f. induction tcs as [|tc tcs IH]; intros f; [done|]. cbn [map_state]. unfold filter_tool_call at 1 3.
  destruct (String.eqb _ _); [|destruct (Process _ _) as [out r]].
  - specialize (IH f). by destruct (map_state _ tcs f).
  - match goal with |- context [map_state _ tcs ?g] => specialize (IH g); by destruct (map_state _ tcs g) end.
Qed.

Lemma filter_choice_text k f : let '(k', f') := filter_choice k f in
  process_all (fs_content f) (pieces [cd_Content (cc_Delta k)]) = (cd_Content (cc_Delta k'), fs_content f').
Proof.
  unfold filter_choice, pieces. cbn. destruct (String.eqb_spec (cd_Content (cc_Delta k)) "") as [E|E].
  - pose proof (map_state_content (cd_ToolCalls (cc_Delta k)) f) as [Hc _]. destruct (map_state _ _ _) as [tcs f'] eqn:Em. cbn in *. by rewrite E, Hc.
  - cbn. destruct (Process (fs_content f) (cd_Content (cc_Delta k))) as [out r] eqn:Ep.
    pose proof (map_state_content (cd_ToolCalls (cc_Delta k)) (mkFilter (fs_map f) r (fs_tools f))) as [Hc _].
    destruct (map_state _ _ _) as [tcs f'] eqn:Em. cbn in *. by rewrite Hc, sapp_nil_r.
Qed.

Lemma filter_chunk_text ch f : let '(ch', f') := filter_chunk ch f in
  process_all (fs_content f) (pieces (chunk_texts ch)) = (chunk_text ch', fs_content f').
Proof.
  assert (forall ks f, let '(ks', f') := map_state filter_choice ks f in
    process_all (fs_content f) (pieces (map (fun k => cd_Content (cc_Delta k)) ks)) =
    (concat_strings (map (fun k => cd_Content (cc_Delta k)) ks'), fs_content f')) as H.
  { clear. induction ks as [|k ks IH]; intros f; [done|]. cbn [map_state]. pose proof (filter_choice_text k f) as Hk.
    destruct (filter_choice k f) as [k' f1]. specialize (IH f1). destruct (map_state filter_choice ks f1) as [ks' f2].
    cbn [map]. change (?a :: ?b) with ([a] ++ b). unfold pieces in *. rewrite List.filter_app, process_all_app, Hk, IH. done. }
  unfold filter_chunk, chunk_text, chunk_texts. specialize (H (ck_Choices ch) f).
  destruct (ck_Choices ch) as [|k ks] eqn:E; [by rewrite E|]. by destruct (map_state _ _ _) as [ks' f'].
Qed.

Lemma relay_filtered req chunks asm f out s : relay_chunks req None chunks (mkRelay asm (Some f) out false) = Some s ->
  exists f', re_filter s = Some f' /\ re_gone s = false /\ Assembler_AddAll asm chunks = Some (re_asm s) /\
    exists text, process_all (fs_content f) (pieces (flat_map chunk_texts chunks)) = (text, fs_content f') /\
      frames_text (re_out s) = frames_text out +:+ text.
Proof.
  revert asm f out. induction chunks as [|ch chunks IH]; intros asm f out; cbn [relay_chunks Assembler_AddAll flat_map].
  - intros; simplify_eq. exists f. split_and!; [done..|]. exists "". by rewrite sapp_nil_r.
  - cbn [re_asm re_filter re_out re_gone]. destruct (Assembler_Add asm ch) as [a|]; [|done]. cbn [mbind option_bind].
    destruct (shown req ch) eqn:Es.
    + unfold shown in Es. apply negb_true_iff in Es. rewrite Es. pose proof (filter_chunk_text ch f) as Hch.
      destruct (filter_chunk ch f) as [o f1]. intros H. apply IH in H as (f' & Hf & Hg & Ha & text & Hp & Ht).
      exists f'. split_and!; [done..|]. exists (chunk_text o +:+ text). unfold pieces in *. rewrite List.filter_app, process_all_app, Hch, Hp.
      split; [done|]. rewrite Ht, frames_text_app. unfold frames_text at 2. cbn. by rewrite sapp_nil_r, sapp_assoc.
    + apply hidden_no_text in Es as [Hno ->]. intros H. apply IH in H as (f' & Hf & Hg & Ha & text & Hp & Ht).
      exists f'. split_and!; [done..|]. exists text. by rewrite Hno.
Qed.

(** ** Properties *)

(** A stream that needs no restoring is relayed as it is: the client gets the
    chunks it is meant to see, in order and unchanged, then the interruption if
    there was one, then the end; if its socket closes, it got a prefix of them, no
    end is written and the call is recorded as cancelled. *)
Theorem stream_relayed_exactly (c : Call) (net : network) (chunks : list ChatChunk) (upstreamErr : option go_error) (all : Assembler) :
  cl_Values c !! ChunkFilterKey = None -> Assembler_AddAll empty_assembler chunks = Some all ->
  let visible := map FChunk (List.filter (shown (cl_Request c)) chunks) in
  exists frames asm err, relay_stream c net chunks upstreamErr = Some (frames, asm, err) /\
  if match nw_gone_at net with Some n => bool_decide (n < length visible)%nat | None => false end
  then frames = take (default O (nw_gone_at net)) visible /\ err = Some ErrCanceled
  else frames = visible ++ match upstreamErr with Some _ => [FError (Upstream "stream interrupted")] | None => [] end ++ [FDone] /\ err = upstreamErr.
Proof.
  intros Hf Hall visible. unfold relay_stream, stream_filter. rewrite Hf. destruct (nw_gone_at net) as [n|].
  - pose proof (relay_plain_gone (cl_Request c) n chunks empty_assembler [] (Nat.le_0_l n)) as H.
    destruct (relay_chunks _ _ _ _) as [s|].
    + cbn [app] in H. fold visible in H. destruct H as (Ho & Hfi & Hg). unfold relay_end. rewrite Ho, Hfi, Hg.
      destruct (decide (n < length visible)%nat) as [Hn|Hn].
      * rewrite bool_decide_true by done. eexists _, _, _. split; [done|]. cbn. destruct upstreamErr; cbn; by rewrite app_nil_r.
      * rewrite bool_decide_false by done. eexists _, _, _. split; [done|]. cbn. rewrite take_ge by lia. done.
    + destruct H as (pre & Hp & tl & ->). exfalso. clear -Hall Hp. revert Hall Hp. generalize empty_assembler as a.
      induction pre as [|ch pre IH]; intros a; cbn; [done|]. destruct (Assembler_Add a ch); [apply IH|done].
  - rewrite relay_plain, Hall. cbn. eexists _, _, _. by split.
Qed.

(** The text of one choice, as a client collects it. *)
Definition choice_text (i : Z) (fs : list frame) : string :=
  concat_strings (map (fun f => match f with
    | FChunk ch => concat_strings (map (fun k => cd_Content (cc_Delta k)) (List.filter (fun k => cc_Index k =? i) (ck_Choices ch)))
    | _ => "" end) fs).

(** Every choice is the first. *)
Definition one_choice (ch : ChatChunk) : Prop := Forall (fun k => cc_Index k = 0) (ck_Choices ch).
Definition one_choice_frame (f : frame) : Prop := match f with FChunk ch => one_choice ch | _ => True end.

Lemma choice_text_single fs : Forall one_choice_frame fs -> choice_text 0 fs = frames_text fs.
Proof.
  unfold choice_text, frames_text. induction 1 as [|f fs Hf _ IH]; [done|]. cbn [map concat_strings]. f_equal; [|done].
  destruct f as [ch| |]; [|done..]. cbn in *. unfold chunk_text, chunk_texts. do 2 f_equal. unfold one_choice in Hf.
  induction Hf as [|k ks Hk _ IHk]; [done|]. cbn. rewrite Hk. cbn. by rewrite IHk.
Qed.

Lemma filter_one_choice ch f : one_choice ch -> one_choice (filter_chunk ch f).1.
Proof.
  assert (forall ks f, map cc_Index (map_state filter_choice ks f).1 = map cc_Index ks) as H.
  { clear. induction ks as [|k ks IH]; intros f; [done|]. cbn [map_state]. assert (cc_Index (filter_choice k f).1 = cc_Index k) as Hk.
    { unfold filter_choice. destruct (String.eqb _ _); [|destruct (Process _ _) as [out r]]; by destruct (map_state _ _ _). }
    destruct (filter_choice k f) as [k' f1]. specialize (IH f1). destruct (map_state filter_choice ks f1) as [ks' f2]. cbn in *. by rewrite Hk, IH. }
  unfold one_choice, filter_chunk. intros Hc. destruct (ck_Choices ch) as [|k ks] eqn:E; [cbn; by rewrite E|].
  specialize (H (k :: ks) f). destruct (map_state _ _ _) as [ks' f']. cbn [fst ck_Choices] in *. apply (List.Forall_map cc_Index (fun i => i = 0)). rewrite H. by apply (List.Forall_map cc_Index (fun i => i = 0)).
Qed.

Lemma relay_one_choice req gone chunks : forall s s', Forall one_choice chunks -> Forall one_choice_frame (re_out s) ->
  relay_chunks req gone chunks s = Some s' -> Forall one_choice_frame (re_out s').
Proof.
  induction chunks as [|ch chunks IH]; intros s s' Hc Ho; cbn [relay_chunks]; [by intros [= <-]|]. apply Forall_cons in Hc as [Hch Hc].
  destruct (Assembler_Add _ ch) as [a|]; [|done]. destruct (_ && _); [by apply IH|].
  assert (forall f, one_choice (filter_chunk ch f).1) as Hf by (intros f; by apply filter_one_choice).
  assert (let '(o, _) := match re_filter s with Some f => let '(o, f) := filter_chunk ch f in (o, Some f) | None => (ch, None) end in one_choice o) as Ho'.
  { destruct (re_filter s) as [f|]; [|done]. specialize (Hf f). by destruct (filter_chunk ch f). }
  destruct (match re_filter s with Some f => _ | None => _ end) as [o f]. destruct (match gone with Some n => _ | None => _ end); [by intros [= <-]|].
  apply IH; [done|]. cbn. apply Forall_app. split; [done|by repeat constructor].
Qed.

Lemma shown_texts req chunks : frames_text (map FChunk (List.filter (shown req) chunks)) = concat_strings (flat_map chunk_texts chunks).
Proof.
  unfold frames_text. induction chunks as [|ch chunks IH]; [done|]. cbn [List.filter flat_map]. rewrite concat_strings_app, <- IH.
  destruct (shown req ch) eqn:Es; [done|]. by apply hidden_no_text in Es as [-> _].
Qed.

(** What the client reads depends on the text only, not on how it was cut. *)
Lemma relayed_text (c : Call) chunks upstreamErr frames asm err :
  Forall one_choice chunks -> (forall m, cl_Values c !! ChunkFilterKey = Some (AFilter m) -> keys_short m) ->
  relay_stream c (mkNetwork None None) chunks upstreamErr = Some (frames, asm, err) ->
  let answer := concat_strings (flat_map chunk_texts chunks) in
  choice_text 0 frames = match cl_Values c !! ChunkFilterKey with Some (AFilter m) => restored_stream m [answer] | _ => answer end /\
  err = upstreamErr /\ Assembler_AddAll empty_assembler chunks = Some asm.
Proof.
  intros Hone Hkeys H answer. unfold relay_stream in H. cbn [nw_gone_at] in H. destruct (relay_chunks _ _ _ _) as [s|] eqn:E; [|done].
  assert (Forall one_choice_frame (re_out s)) as Hout by (eapply relay_one_choice; [exact Hone| |exact E]; constructor). destruct (relay_end upstreamErr s) as [fs e] eqn:Ee. injection H as <- <- <-.
  assert (Forall one_choice_frame fs) as Hfs.
  { unfold relay_end in Ee. injection Ee as <- _. rewrite !Forall_app. split_and!; [done|..]; repeat case_match; repeat constructor. }
  rewrite (choice_text_single _ Hfs). clear Hfs Hout Hone. unfold stream_filter in E.
  assert (relay_chunks (cl_Request c) None chunks (mkRelay empty_assembler None [] false) = Some s ->
    frames_text fs = answer /\ e = upstreamErr /\ Assembler_AddAll empty_assembler chunks = Some (re_asm s)) as Hplain.
  { rewrite relay_plain. destruct (Assembler_AddAll _ _) as [a|]; [|done]. cbn. intros [= <-]. unfold relay_end in Ee. cbn in Ee. injection Ee as <- <-.
    rewrite frames_text_app, shown_texts. split_and!; [|done..]. destruct upstreamErr; cbn; by rewrite sapp_nil_r. }
  destruct (cl_Values c !! ChunkFilterKey) as [[| | | | | |m|]|]; try (by apply Hplain). apply relay_filtered in E as (f' & Hf' & Hg & Ha & text & Hp & Ht).
  split_and!; [|unfold relay_end in Ee; rewrite Hg in Ee; by injection Ee|done].
  assert (restored_stream m (pieces (flat_map chunk_texts chunks)) = restored_stream m [answer]) as <-.
  { apply stream_chunking_irrelevant; [by apply Hkeys|]. rewrite concat_pieces. unfold answer. cbn. by rewrite sapp_nil_r. }
  unfold relay_end in Ee. rewrite Hf', Hg in Ee. injection Ee as <- _.
  unfold restored_stream. cbn [new_filter fs_content] in Hp. rewrite Hp, frames_text_app, Ht. cbn [negb]. rewrite andb_true_r.
  unfold stream_flush. rewrite sapp_nil_l. f_equal.
  destruct (String.eqb_spec (Flush (fs_content f')).1 "") as [->|]; cbn; [by destruct upstreamErr|].
  destruct upstreamErr; unfold frames_text; cbn; by rewrite !sapp_nil_r.
Qed.

(** A stream that carries a redacted text gives the text back. *)
Lemma stream_undoes s t t' : keys_short (rg_all s) -> undone s t t' -> restored_stream (rg_all s) [t'] = t.
Proof.
  intros Hk (l & -> & Hl & Hb & <-). destruct (rg_all s) as [|kv m] eqn:E.
  - unfold restored_stream, NewStreamRestorer. rewrite process_all_empty. cbn. rewrite !sapp_nil_r. unfold filled. f_equal.
    rewrite <- (map_id l) at 1. apply map_ext. by intros [].
  - rewrite restored_stream_scan by done. cbn [concat_strings]. rewrite sapp_nil_r. unfold scan_all. rewrite scan_render by (done || lia). cbn. by rewrite sapp_nil_r.
Qed.

(** What the guard leaves in a streaming call. *)
Lemma redaction_filter is_ipv6 sort (g : PIIGuardConfig) (c0 : Call) :
  pg_Enabled g = true -> cl_Stream c0 = true -> cl_Values c0 !! ChunkFilterKey = None ->
  let mode := if String.eqb (pg_Mode g) "" then "redact" else pg_Mode g in
  let '(req, s) := redact_request is_ipv6 sort mode (cl_Request c0) in
  cl_Request (apply_redaction is_ipv6 sort g c0) = req /\
  cl_Values (apply_redaction is_ipv6 sort g c0) !! ChunkFilterKey =
    if (0 <? rg_total s) && negb (bool_decide (rg_all s = [])) then Some (AFilter (rg_all s)) else None.
Proof.
  intros He Hs Hf mode. unfold apply_redaction. rewrite He. fold mode. destruct (redact_request _ _ mode _) as [req s].
  destruct (0 <? rg_total s); [|done]. cbn [cl_Stream set_Header set_Value set_Request]. rewrite Hs. cbn [andb].
  destruct (negb _); cbn [cl_Request cl_Values set_Header set_Value set_Request]; (split; [done|]).
  - by rewrite lookup_insert_ne, lookup_insert_eq.
  - by rewrite lookup_insert_ne.
Qed.

(** C35. A streaming request goes through the redaction of the guard, in a mode that can be
    undone, and its texts have no opening angle bracket of their own.  When the stream is
    relayed to the end, its content is in one choice, the first, and the placeholders have at
    most 41 bytes, then what the client reads depends on the content and not on how the provider
    cut it into chunks; and an answer made of redacted texts of the request, of any message,
    part or tool call, and of other text without an opening bracket reads with the originals in
    their place.  (Several choices share one buffer: [Guard.filter_mixes_choices].) *)
Theorem streamed_text_restored (is_ipv6 : string -> bool) (sort : list PIIMatch -> list PIIMatch) (g : PIIGuardConfig) (c0 : Call)
  (chunks : list ChatChunk) (upstreamErr : option go_error) (frames : list frame) (asm : Assembler) (err : option go_error)
  (sorted : forall l, sort l ≡ₚ l /\ StronglySorted pii_nle (sort l)) (enabled : pg_Enabled g = true) (undoable : pg_Mode g <> "mask")
  (streaming : cl_Stream c0 = true) (fresh : cl_Values c0 !! ChunkFilterKey = None)
  (plain : Forall (fun t => sforall no_lt t = true) (request_texts (cl_Request c0))) (one : Forall one_choice chunks) :
  let c := apply_redaction is_ipv6 sort g c0 in
  let answer := concat_strings (flat_map chunk_texts chunks) in
  (forall m, cl_Values c !! ChunkFilterKey = Some (AFilter m) -> keys_short m) ->
  relay_stream c (mkNetwork None None) chunks upstreamErr = Some (frames, asm, err) ->
  err = upstreamErr /\ Assembler_AddAll empty_assembler chunks = Some asm /\
  choice_text 0 frames = match cl_Values c !! ChunkFilterKey with Some (AFilter m) => restored_stream m [answer] | _ => answer end /\
  forall ps, Forall (quoted (cl_Request c0) (cl_Request c)) ps -> answer = concat_strings (map fst ps) -> choice_text 0 frames = concat_strings (map snd ps).
Proof.
  intros c answer Hkeys Hrelay. destruct (relayed_text c chunks upstreamErr frames asm err one Hkeys Hrelay) as (Htext & He & Ha).
  split_and!; [done..|]. intros ps Hq Hans. rewrite Htext. fold answer. rewrite Hans. clear Htext Hrelay.
  set (mode := if String.eqb (pg_Mode g) "" then "redact" else pg_Mode g).
  assert (mode <> "mask") as Hmode by (unfold mode; by destruct (String.eqb_spec (pg_Mode g) "")).
  pose proof (quoted_undone is_ipv6 sort sorted mode Hmode (cl_Request c0) ps plain) as Hu.
  pose proof (redaction_filter is_ipv6 sort g c0 enabled streaming fresh) as Hf. cbv zeta in Hf. fold mode c in Hf.
  destruct (redact_request _ _ mode (cl_Request c0)) as [req s]. destruct Hf as [Hreq Hf]. rewrite Hreq in Hq. rewrite Hf in *.
  destruct (Hu Hq) as [(Hp & _ & _ & _ & Hpos & Hz) Hun]. destruct (_ && _) eqn:Eb; [apply stream_undoes; auto|].
  assert (rg_all s = []) as E.
  { apply andb_false_iff in Eb as [Eb|Eb]; [apply Hz; apply Z.ltb_ge in Eb; lia|]. apply negb_false_iff in Eb. by apply bool_decide_eq_true in Eb. }
  rewrite <- (stream_undoes s _ _ ltac:(unfold keys_short; rewrite E; apply List.Forall_nil) Hun), E.
  unfold restored_stream, NewStreamRestorer. rewrite process_all_empty. cbn. by rewrite !sapp_nil_r.
Qed.

(** ** Examples *)

Definition piece_of (role text fr : string) : ChatChunk :=
  mkChatChunk "c1" "" 0 "" [mkChunkChoice 0 (mkChunkDelta role text []) (if String.eqb fr "" then None else Some fr)] None.
Definition usage_chunk : ChatChunk := mkChatChunk "c1" "" 0 "" [] (Some (mkUsage 3 2 5 None)).
Definition stream_call (m : option (list (string * string))) : Call :=
  let c := NewCall "id" 0 chat_key (plain_request "chat" [plain_message "user" "hi"]) None in
  match m with Some m => set_Value c ChunkFilterKey (AFilter m) | None => c end.

(** The chunk with the usage is withheld from a client that did not ask for it. *)
Lemma stream_relayed_exactly_witness : exists frames asm err,
  relay_stream (stream_call None) (mkNetwork None (Some 5%nat)) [piece_of "assistant" "hel" ""; piece_of "" "lo" "stop"; usage_chunk] None
    = Some (frames, asm, err) /\
  frames = [FChunk (piece_of "assistant" "hel" ""); FChunk (piece_of "" "lo" "stop"); FDone] /\ err = None.
Proof.
  destruct (Assembler_AddAll empty_assembler [piece_of "assistant" "hel" ""; piece_of "" "lo" "stop"; usage_chunk]) as [all|] eqn:E;
    [|vm_compute in E; discriminate E].
  exact (stream_relayed_exactly (stream_call None) (mkNetwork None (Some 5%nat)) _ None all eq_refl E).
Defined.

(** Two messages with three findings, and an answer that mentions both messages. *)
Definition pii_stream : ChatRequest :=
  mkChatRequest "chat" (r_Messages pii_request) true None None None None None [] [] "" "" None "" None None None None "" None None.
Definition pii_call : Call := NewCall "id" 0 chat_key pii_stream None.
Definition pii_guard : PIIGuardConfig := mkPIIGuardConfig true "".

Lemma streamed_text_restored_witness : exists frames asm err,
  relay_stream (apply_redaction (fun _ => true) demo_sort pii_guard pii_call) (mkNetwork None None)
    [piece_of "assistant" "You said: I am <EMA" ""; piece_of "" "IL_1>; and <EMAIL_2" ""; piece_of "" ">, <IPV4_1>" "stop"] None = Some (frames, asm, err) /\
  choice_text 0 frames = "You said: I am a.b@example.co; and c@d.org, 10.0.0.1".
Proof.
  destruct (relay_stream (apply_redaction (fun _ => true) demo_sort pii_guard pii_call) (mkNetwork None None)
    [piece_of "assistant" "You said: I am <EMA" ""; piece_of "" "IL_1>; and <EMAIL_2" ""; piece_of "" ">, <IPV4_1>" "stop"] None)
    as [[[frames asm] err]|] eqn:E; [|vm_compute in E; discriminate E].
  exists frames, asm, err. split; [reflexivity|].
  refine (proj2 (proj2 (proj2 (streamed_text_restored (fun _ => true) demo_sort pii_guard pii_call _ _ _ _ _ demo_sort_ok _ _ _ _ _ _ _ E)))
    [("You said: ", "You said: "); ("I am <EMAIL_1>", "I am a.b@example.co"); ("; ", "; "); ("and <EMAIL_2>, <IPV4_1>", "and c@d.org, 10.0.0.1")] _ _);
    try (vm_compute; reflexivity).
  - discriminate.
  - repeat constructor.
  - repeat constructor.
  - intros m Hm. assert (Some (AFilter m) = Some (AFilter [("<EMAIL_1>", "a.b@example.co"); ("<EMAIL_2>", "c@d.org"); ("<IPV4_1>", "10.0.0.1")])) as [= ->]
      by (rewrite <- Hm; vm_compute; reflexivity). vm_compute. repeat constructor.
  - repeat apply List.Forall_cons; [|..|apply List.Forall_nil].
    + right. split; vm_compute; reflexivity.
    + left. exists 0%nat. split; vm_compute; reflexivity.
    + right. split; vm_compute; reflexivity.
    + left. exists 1%nat. split; vm_compute; reflexivity.
Defined.
