(* ===== verification/ChatHandler.v ===== *)
(** * The chat endpoint (src/internal/server/chat.go, respond.go)

    [Chat] from the body of a request to the reply: the stages before, the
    execution or the stream, the reply, and the stages after.  The stages run on
    the world of the server. *)

From S2P Require Import Prelude GoStrings GoFloat Breaker Config Api Assemble Execute Route Hedge Health Policy Pipeline.
From S2P Require Import Budget BudgetStage Cache SmartRoute Detect Redact Guard Serve Stream.

Open Scope string_scope.
Open Scope list_scope.
Open Scope Z_scope.

(** ** Replies (respond.go) *)

(** [hr_Body]: an error, or the JSON of a response ([None] is null). *)
Record http_reply := mkReply { hr_Status : Z; hr_Header : gmap string string; hr_RetryAfter : option string; hr_Body : ApiError + option ChatResponse }.

Definition writeCallHeaders (c : Call) : gmap string string :=
  let h := cl_Header c in
  let h := header_set h "X-ProofGate-Request-Id" (cl_ID c) in
  let h := match cl_Route c with Some rt => header_set h "X-ProofGate-Route" (ro_Name rt) | None => h end in
  let h := if negb (String.eqb (Provider (cl_Target c)) "") then header_set h "X-ProofGate-Target" (Target_String (cl_Target c)) else h in
  header_set (header_set h "X-ProofGate-Attempts" (itoa (cl_Attempts c))) "X-ProofGate-Cache" (cl_CacheStatus c).

Definition error_reply (h : gmap string string) (err : go_error) : http_reply :=
  let '(code, retry, e) := WriteError err in mkReply code h retry (inl e).

Definition cost_header : string := "X-ProofGate-Cost-USD".

(** What a request ends with: a reply, a stream under its headers, or nothing for
    a client that left. *)
Inductive served := Replied (r : http_reply) | Streaming (h : gmap string string) (r : stream_reply) | Nothing.

Section Chat.
Context {W : Type}
  (upstream : W -> Target -> ChatRequest -> Duration -> (go_error + ChatResponse) * W)
  (open_stream : W -> Target -> ChatRequest -> Duration -> opening * bool * W)
  (ctx_err : W -> option go_error) (now : W -> Time)
  (sleep : W -> Duration -> bool * W) (rand_Int64N : W -> Z -> Z * W).

(** The stages after, as the last step of a request. *)
Definition finish (pipe : Pipeline W) (ran : nat) (out : served) (s : Server W) (c : Call) : option (served * Server W * Call) :=
  match Pipeline_After pipe (sv_w s) (c, ran) with
  | None => None
  | Some (w, c) => Some (out, set_world s w, c)
  end.

(** The reply to a request that is not streamed: [err] is the error so far. *)
Definition respond (pipe : Pipeline W) (ran : nat) (err : option go_error) (s : Server W) (c : Call) : option (served * Server W * Call) :=
  let '(err, c) := match err, cl_Err c with
                   | None, Some e => (Some e, c)
                   | _, _ => (err, set_Err c err)
                   end in
  let h := writeCallHeaders c in
  match err with
  | Some e => finish pipe ran (Replied (error_reply h e)) s c
  | None =>
      let '(w, c) := Pipeline_Respond (Some pipe) (sv_w s) c in
      let resp := match cl_ClientResponse c with Some r => Some r | None => cl_Response c end in
      finish pipe ran (Replied (mkReply 200 (header_set h cost_header (cost_trailer c)) None (inr resp))) (set_world s w) c
  end.

(** From the stages on. *)
Definition serve_call (rt : Runtime) (pipe : Pipeline W) (route : Route) (schedule : list arrival) (net : network) (stream : bool)
    (s : Server W) (c : Call) : option (served * Server W * Call) :=
  let '(w, (c, ran), (handled, err)) := Pipeline_Before pipe (sv_w s) (c, O) in
  let s := set_world s w in
  match err with
  | Some e => respond pipe ran (Some e) s c
  | None =>
      if stream then
        match serveStream open_stream ctx_err now sleep rand_Int64N rt route schedule net handled s c with
        | None => None
        | Some (r, s, c) => finish pipe ran (Streaming (writeCallHeaders c) r) s c
        end
      else if handled then respond pipe ran None s c
      else
        match execChat upstream ctx_err now sleep rand_Int64N rt route schedule s c with
        | None => None
        | Some (err, s, c) =>
            match err ≫= upstreamError, ctx_err (sv_w s) with
            | None, Some gone => finish pipe ran Nothing s (set_Err c (Some gone))
            | err, _ => respond pipe ran err s c
            end
        end
  end.

(** [Chat]: [None] is a panic or a race the schedule leaves undecided; the call is
    [None] when the request ended before there was one. *)
Definition Chat (rt : Runtime) (pipe : Pipeline W) (schedule : list arrival) (net : network) (id : string) (p : Principal)
    (b : body) (incoming : gmap string string) (s : Server W) : option (served * Server W * option Call) :=
  match decodeChat b with
  | inl e => Some (Replied (error_reply ∅ e), s, None)
  | inr req =>
      match resolveRoute (rt_Router rt) p (r_Model req) false with
      | None => None
      | Some (inl e) => Some (Replied (error_reply ∅ e), s, None)
      | Some (inr route) =>
          let c := set_Incoming (NewCall id (now (sv_w s)) p req (Some route)) (sanitizeIncoming incoming) in
          match serve_call rt pipe route schedule net (r_Stream req) s c with
          | None => None
          | Some (out, s, c) => Some (out, s, Some c)
          end
      end
  end.

(** *** chat_internal.go *)

Definition system_principal : Principal :=
  mkPrincipal "proofgate-system" "" "internal-system" "" [] true no_limits no_key_policy.

Definition internal_call (id : string) (now : Time) (req : ChatRequest) (route : Route) : Call :=
  let c := NewCall id now system_principal req (Some route) in
  let c := mkCall (cl_ID c) (cl_Start c) (cl_Principal c) (cl_Request c) (cl_Route c) (cl_Stream c) (cl_Response c)
    (cl_ClientResponse c) (cl_Target c) (cl_Attempts c) (cl_Usage c) (cl_CostMicros c) (cl_HedgeCostMicros c)
    (cl_CacheStatus c) (cl_Err c) true (cl_Header c) (header_set ∅ "X-ProofGate-Internal" "true") (cl_Values c) in
  set_Value c "usage.kind" (AString "judge").

(** [ChatInternal]: the error, or the response, which may be nil. *)
Definition ChatInternal (rt : Runtime) (pipe : Pipeline W) (schedule : list arrival) (id : string) (name : string) (req : ChatRequest) (s : Server W)
  : option ((go_error + option ChatResponse) * Server W) :=
  match Resolve (rt_Router rt) name true with
  | inl e => Some (inl (ErrApi e), s)
  | inr route =>
      let '(w, (c, ran), (handled, err)) := Pipeline_Before pipe (sv_w s) (internal_call id (now (sv_w s)) req route, O) in
      let s := set_world s w in
      let executed :=
        match err with
        | Some e => Some (Some e, s, c)
        | None => if handled then Some (None, s, c)
                  else match execChat upstream ctx_err now sleep rand_Int64N rt route schedule s c with
                       | None => None
                       | Some (e, s, c) => Some (e ≫= upstreamError, s, c)
                       end
        end in
      match executed with
      | None => None
      | Some (err, s, c) =>
          match Pipeline_After pipe (sv_w s) (set_Err c err, ran) with
          | None => None
          | Some (w, c) => Some (match err with Some e => inl e | None => inr (cl_Response c) end, set_world s w)
          end
      end
  end.
End Chat.

(** ** What the calls leave alone *)

Section KeepsWorld.
Context {W X : Type} (pi : W -> X) (ctx_err : W -> option go_error) (now : W -> Time)
  (sleep : W -> Duration -> bool * W) (rand : W -> Z -> Z * W)
  (Hsleep : forall w d, pi (sleep w d).2 = pi w) (Hrand : forall w n, pi (rand w n).2 = pi w).

Section Plain.
Context (fn : W -> Target -> option go_error * W) (Hfn : forall w t, pi (fn w t).2 = pi w).

Lemma record_error_w s t e : x_w (record_error now s t e) = x_w (W := W) s.
Proof using. destruct e; try done. cbn. by case_match. Qed.

Lemma attempts_keep rp t k n s : pi (x_w (attempts fn ctx_err now sleep rand rp t k n s).2) = pi (x_w s).
Proof using Hfn Hsleep Hrand.
  revert n s. induction k as [|k IH]; intros n s; cbn [attempts]; [done|]. destruct (checkCtx ctx_err s); [done|].
  pose proof (Hfn (x_w (bump s t)) t) as Hf. destruct (fn (x_w (bump s t)) t) as [r w]. cbn in Hf.
  destruct r as [err|]; [|done]. set (s1 := record_error now (set_w (bump s t) w) t err).
  assert (pi (x_w s1) = pi (x_w s)) as H1 by (subst s1; by rewrite record_error_w).
  destruct (checkCtx ctx_err s1); [done|]. destruct (classify err) as [d f]. set (s2 := if f then _ else _).
  assert (pi (x_w s2) = pi (x_w s)) as H2 by (subst s2; by destruct f).
  destruct d; [done| |done]. destruct k as [|k']; [done|].
  assert (pi (backoff rand (x_w s2) (BaseDelay rp) n).2 = pi (x_w s2)) as Hb by (unfold backoff; by case_match).
  destruct (backoff rand _ _ _) as [dl w1]. pose proof (Hsleep w1 dl) as Hs. destruct (sleep w1 dl) as [i w2]. cbn in Hb, Hs.
  destruct i; [cbn; congruence|]. rewrite IH. cbn. congruence.
Qed.

Lemma run_plan_keep rp plan s : pi (x_w (run_plan fn ctx_err now sleep rand rp plan s).2) = pi (x_w s).
Proof using Hfn Hsleep Hrand.
  revert s. induction plan as [|t rest IH]; intros s; cbn [run_plan]; [done|].
  pose proof (ask_breaker_res now s t) as [_ Hw]. destruct (ask_breaker now s t) as [ok s1]. cbn in Hw.
  destruct (negb ok && _); [by rewrite IH, Hw|].
  pose proof (attempts_keep rp t (Z.to_nat (maxAttempts rp)) 0 s1) as Ha. destruct (attempts _ _ _ _ _ _ _ _ _ _) as [f s2]. cbn in Ha.
  destruct f; cbn; [congruence|]. rewrite IH. congruence.
Qed.

Lemma Execute_keep plan rp br w : pi (x_w (Execute fn ctx_err now sleep rand plan rp br w).2) = pi w.
Proof using Hfn Hsleep Hrand.
  unfold Execute. pose proof (run_plan_keep rp plan (init_xstate br w)) as H.
  by destruct (run_plan _ _ _ _ _ _ _ _) as [[err|] s].
Qed.
End Plain.
End KeepsWorld.

Section Keeps.
Context {W X T : Type} (pi : W -> X) (ctx_err : W -> option go_error) (now : W -> Time)
  (sleep : W -> Duration -> bool * W) (rand : W -> Z -> Z * W)
  (Hsleep : forall w d, pi (sleep w d).2 = pi w) (Hrand : forall w n, pi (rand w n).2 = pi w).

(** The same for the calls of a plan, with or without hedging. *)
Section Calls.
Context (fn : Calls W T -> Target -> (go_error + T) * Calls W T) (Hfn : forall s t, pi (ca_w (fn s t).2) = pi (ca_w s)).

Lemma run_execute_keep rp plan br s :
  pi (ca_w (x_w (run_execute ctx_err now sleep rand fn rp plan br s).2)) = pi (ca_w s).
Proof using Hfn Hsleep Hrand.
  unfold run_execute. apply (Execute_keep (fun s => pi (ca_w s))).
  - intros w d. pose proof (Hsleep (ca_w w) d) as H. by destruct (sleep (ca_w w) d).
  - intros w n. pose proof (Hrand (ca_w w) n) as H. by destruct (rand (ca_w w) n).
  - intros w t. unfold call_and_keep. pose proof (Hfn w t) as H. by destruct (fn w t) as [[e|v] s1].
Qed.

Lemma run_race_keep p0 p1 tail schedule s : pi (ca_w (ra_calls (run_race now fn p0 p1 tail schedule s).1)) = pi (ca_w (ra_calls s)).
Proof using Hfn.
  revert s. induction schedule as [|a rest IH]; intros s; cbn [run_race]; [done|]. destruct (can_arrive _ _); [|apply IH].
  assert (pi (ca_w (ra_calls (race_step now fn p0 p1 tail a s).1)) = pi (ca_w (ra_calls s))) as Hs.
  { unfold race_step. destruct a as [|who|err].
    - destruct (h_hedged _); [by destruct (hedge_step _ _ _ _ _ _)|]. destruct (HedgeBudget_Allow _) as [ok b]. by destruct (hedge_step _ _ _ _ _ _).
    - pose proof (Hfn (ra_calls s) (target_of p0 p1 who)) as H. destruct (fn _ _) as [r c]. by destruct (hedge_step _ _ _ _ _ _).
    - by destruct (hedge_step _ _ _ _ _ _). }
  destruct (race_step _ _ _ _ _ _ _) as [s1 [o|]]; [done|]. by rewrite IH.
Qed.

Lemma execute_call_keep rt route schedule s c r s' c' :
  execute_call ctx_err now sleep rand fn rt route schedule s c = Some (r, s', c') -> pi (sv_w s') = pi (sv_w s).
Proof using Hfn Hsleep Hrand.
  unfold execute_call, run_plan_for. destruct (planFor _ _ _ _ _) as [plan br].
  assert (forall rp pl b calls, pi (ca_w calls) = pi (sv_w s) -> pi (ca_w (x_w (run_execute ctx_err now sleep rand fn rp pl b calls).2)) = pi (sv_w s)) as Hx.
  { intros. by rewrite run_execute_keep. }
  assert (forall p0 p1 tail h, plan = p0 :: p1 :: tail -> forall x s1,
    run_hedged ctx_err now sleep rand fn route p0 p1 tail schedule (mkServer (sv_w s) (sv_Health s) br h (sv_Metrics s)) = Some (x, s1) ->
    pi (sv_w s1) = pi (sv_w s)) as Hh.
  { intros p0 p1 tail h _ x s1. unfold run_hedged. cbv zeta.
    pose proof (run_race_keep p0 p1 tail schedule (mkRacing (mkCalls (sv_w s) (sv_Health s) None)
      (HedgeBudget_Request (hedgeBudget (mkServer (sv_w s) (sv_Health s) br h (sv_Metrics s)) route)) (init_hstate br))) as Hr.
    cbn [sv_w sv_Health sv_Breakers sv_Hedges sv_Metrics]. destruct (run_race _ _ _ _ _ _ _) as [rr [[v res hd dr|res hd err|rest hd]|]]; intros; simplify_eq; cbn in *; [done..|].
    by apply Hx. }
  destruct (hg_Enabled _); [|intros; simplify_eq; by apply Hx].
  destruct plan as [|p0 [|p1 tail]]; [intros; simplify_eq; by apply Hx..|].
  destruct (run_hedged _ _ _ _ _ _ _ _ _ _) as [[x s1]|] eqn:E; [|done]. intros; simplify_eq. by eapply Hh.
Qed.
End Calls.
End Keeps.

(** ** Every request unwinds its stages *)

Section Unwinds.
Context {W : Type}
  (upstream : W -> Target -> ChatRequest -> Duration -> (go_error + ChatResponse) * W)
  (open_stream : W -> Target -> ChatRequest -> Duration -> opening * bool * W)
  (ctx_err : W -> option go_error) (now : W -> Time)
  (sleep : W -> Duration -> bool * W) (rand_Int64N : W -> Z -> Z * W).

(** The providers, the clock and the random source beside a trace of the hooks. *)
Definition beside {A : Type} (tr : trace) (x : A * W) : A * (W * trace) := (x.1, (x.2, tr)).

Definition traced_Chat (rt : Runtime) (p : Pipeline W) :=
  Chat (W := W * trace) (fun w t r d => beside w.2 (upstream w.1 t r d)) (fun w t r d => beside w.2 (open_stream w.1 t r d))
    (fun w => ctx_err w.1) (fun w => now w.1) (fun w d => beside w.2 (sleep w.1 d)) (fun w n => beside w.2 (rand_Int64N w.1 n))
    rt (observed_pipeline p).

Lemma traced_execChat rt route schedule (s : Server (W * trace)) c err s' c' :
  execChat (fun w t r d => beside w.2 (upstream w.1 t r d)) (fun w => ctx_err w.1) (fun w => now w.1)
    (fun w d => beside w.2 (sleep w.1 d)) (fun w n => beside w.2 (rand_Int64N w.1 n)) rt route schedule s c = Some (err, s', c') ->
  (sv_w s').2 = (sv_w s).2.
Proof using.
  unfold execChat. destruct (execute_call _ _ _ _ _ _ _ _ _ _) as [[[r s1] c1]|] eqn:E; [|done].
  apply (execute_call_keep snd) in E; [destruct r; intros; by simplify_eq|done|done|].
  intros ca t. unfold call_target. case_match; [done|]. unfold beside. by destruct (upstream _ _ _ _) as [[e|v] w].
Qed.

Lemma traced_serveStream rt route schedule net handled (s : Server (W * trace)) c r s' c' :
  serveStream (fun w t r d => beside w.2 (open_stream w.1 t r d)) (fun w => ctx_err w.1) (fun w => now w.1)
    (fun w d => beside w.2 (sleep w.1 d)) (fun w n => beside w.2 (rand_Int64N w.1 n)) rt route schedule net handled s c = Some (r, s', c') ->
  (sv_w s').2 = (sv_w s).2.
Proof using.
  unfold serveStream. destruct handled.
  - destruct (relay_stream _ _ _ _) as [[[fs asm] err]|]; [|done]. intros; by simplify_eq.
  - destruct (openStream _ _ _ _ _ _ _ _ _ _) as [[[x s1] c1]|] eqn:E; [|done].
    apply (execute_call_keep snd) in E; [|done|done|].
    2: { intros ca t. unfold open_target. case_match; [done|]. unfold beside. cbn.
         destruct (open_stream _ _ _ _) as [[o late] w]. cbn. destruct o, late; done. }
    destruct x as [e|o]; [destruct (upstreamError e); intros; by simplify_eq|].
    destruct (pump _ _) as [chunks ue]. destruct (relay_stream _ _ _ _) as [[[fs asm] err]|]; [|done].
    unfold finish_live. cbv zeta. intros; simplify_eq. done.
Qed.

Lemma traced_Respond (p : Pipeline W) w c : (Pipeline_Respond (Some (observed_pipeline p)) w c).1.2 = w.2.
Proof using.
  assert (Forall (fun s => forall f w c, st_Respond s = Some f -> (f w c).1.2 = w.2) (rev (stages (observed_pipeline p)))) as H.
  { apply Forall_rev, Forall_forall. intros s Hs. cbn in Hs. apply list_elem_of_lookup in Hs as [i Hi].
    rewrite list_lookup_imap in Hi. destruct (stages p !! i) as [s0|]; [|done]. cbn in Hi. simplify_eq. cbn.
    destruct (st_Respond s0) as [g|]; [|done]. intros f w0 c0 Hf. cbn in Hf. simplify_eq. by destruct (g w0.1 c0). }
  unfold Pipeline_Respond. revert w c. induction H as [|s l Hs _ IH]; intros w c; [done|]. unfold for_range in *. cbn [fold_left].
  destruct (st_Respond s) as [f|] eqn:E; [|apply IH]. specialize (Hs f w c eq_refl). destruct (f w c) as [w' c']. cbn in Hs. by rewrite IH.
Qed.

(** What is left of a request after its stages have run [n] deep. *)
Definition unwound (n : nat) (r : option (served * Server (W * trace) * Call)) : Prop :=
  exists out s c, r = Some (out, s, c) /\ (sv_w s).2 = map HBefore (seq 0 n) ++ map HAfter (rev (seq 0 n)).

Lemma finish_unwound p n out (s : Server (W * trace)) c : (n <= length (stages p))%nat -> (sv_w s).2 = map HBefore (seq 0 n) ->
  unwound n (finish (observed_pipeline p) n out s c).
Proof using.
  intros Hn Hw. unfold finish, Pipeline_After. cbn. destruct (after_from_trace p n (sv_w s) c Hn) as (w' & c' & -> & Ht).
  exists out, (set_world s w'), c'. split; [done|]. cbn. by rewrite Ht, Hw.
Qed.

Lemma respond_unwound p n err (s : Server (W * trace)) c : (n <= length (stages p))%nat -> (sv_w s).2 = map HBefore (seq 0 n) ->
  unwound n (respond (observed_pipeline p) n err s c).
Proof using.
  intros Hn Hw. unfold respond.
  destruct (match err, cl_Err c with None, Some e => (Some e, c) | _, _ => (err, set_Err c err) end) as [e c1].
  destruct e as [e|]; [by apply finish_unwound|].
  pose proof (traced_Respond p (sv_w s) c1) as Hr. destruct (Pipeline_Respond _ _ _) as [w c2]. cbn in Hr.
  apply finish_unwound; [done|]. cbn. by rewrite Hr.
Qed.

Lemma serve_call_unwound rt p route schedule net stream (s : Server (W * trace)) c : (sv_w s).2 = [] ->
  let exec := fun s c => execChat (fun w t r d => beside w.2 (upstream w.1 t r d)) (fun w => ctx_err w.1) (fun w => now w.1)
    (fun w d => beside w.2 (sleep w.1 d)) (fun w n => beside w.2 (rand_Int64N w.1 n)) rt route schedule s c in
  let live := fun handled s c => serveStream (fun w t r d => beside w.2 (open_stream w.1 t r d)) (fun w => ctx_err w.1) (fun w => now w.1)
    (fun w d => beside w.2 (sleep w.1 d)) (fun w n => beside w.2 (rand_Int64N w.1 n)) rt route schedule net handled s c in
  let r := serve_call (fun w t r d => beside w.2 (upstream w.1 t r d)) (fun w t r d => beside w.2 (open_stream w.1 t r d))
    (fun w => ctx_err w.1) (fun w => now w.1) (fun w d => beside w.2 (sleep w.1 d)) (fun w n => beside w.2 (rand_Int64N w.1 n))
    rt (observed_pipeline p) route schedule net stream s c in
  r = None /\ (exists s1 c1, exec s1 c1 = None \/ exists handled, live handled s1 c1 = None) \/
  exists n w1 c1 handled err,
    Pipeline_Before (observed_pipeline p) (sv_w s) (c, O) = (w1, (c1, n), (handled, err)) /\ (n <= length (stages p))%nat /\
    (if handled || bool_decide (is_Some err) then 1 <= n else n = length (stages p))%nat /\ unwound n r.
Proof using.
  intros Hs exec live r. subst r. unfold serve_call. pose proof (before_stages_trace (stages p) 0 (sv_w s) c) as Hb.
  change (imap (fun i => observed (0 + i)) (stages p)) with (stages (observed_pipeline p)) in Hb.
  change (before_stages (stages (observed_pipeline p))) with (Pipeline_Before (observed_pipeline p)) in Hb.
  destruct (Pipeline_Before _ _ _) as [[w [c1 ran]] [handled err]]. destruct Hb as (n & Hn & Hr & Hw & Hpass & Hstop). cbn in Hr, Hw. subst ran.
  rewrite Hs in Hw. cbn in Hw. set (s1 := set_world s w).
  assert ((sv_w s1).2 = map HBefore (seq 0 n)) as Hs1 by done.
  assert (forall r, unwound n r -> exists n0 w1 c0 handled0 err0, (w, (c1, n), (handled, err)) = (w1, (c0, n0), (handled0, err0)) /\
    (n0 <= length (stages p))%nat /\ (if handled0 || bool_decide (is_Some err0) then 1 <= n0 else n0 = length (stages p))%nat /\ unwound n0 r) as Hend.
  { intros r Hu. exists n, w, c1, handled, err. split_and!; [done..| |done]. destruct handled, err; simpl; (by apply Hstop) || by apply Hpass. }
  clear Hpass Hstop. destruct err as [e|]; [right; apply Hend; by apply respond_unwound|]. destruct stream.
  - destruct (live handled s1 c1) as [[[r s2] c2]|] eqn:E.
    + unfold live in E. rewrite E. apply traced_serveStream in E. right. apply Hend, finish_unwound; [done|by rewrite E].
    + left. split; [unfold live in E; by rewrite E|]. exists s1, c1. right. by exists handled.
  - destruct handled; [right; apply Hend; by apply respond_unwound|]. destruct (exec s1 c1) as [[[err s2] c2]|] eqn:E.
    + unfold exec in E. rewrite E. apply traced_execChat in E. right. apply Hend. rewrite <- E in Hs1.
      destruct (err ≫= upstreamError); [by apply respond_unwound|].
      destruct (ctx_err _); [by apply finish_unwound|by apply respond_unwound].
    + left. split; [unfold exec in E; by rewrite E|]. exists s1, c1. by left.
Qed.
End Unwinds.

(** ** Properties *)

(** C4. Every request that enters the pipeline leaves it: however it ends (an
    answer, an error of a stage or of the execution, a stream, a client that
    left), the hooks that ran are the [Before] of the first stages, in order, up to
    the one that answers or fails (all of them if none does), and then, in the opposite
    order and once each, the [After] of every stage that completed its [Before] (the one
    that answers included) and of none whose [Before] did not run; a request refused before
    has run none.  Whether a stage whose [Before] failed has its [After] is left open here.
    Only a panic before the stages or during the execution, or a race that is not decided,
    leaves a request without an end. *)
Theorem chat_unwinds_stages {W : Type}
  (upstream : W -> Target -> ChatRequest -> Duration -> (go_error + ChatResponse) * W)
  (open_stream : W -> Target -> ChatRequest -> Duration -> opening * bool * W)
  (ctx_err : W -> option go_error) (now : W -> Time) (sleep : W -> Duration -> bool * W) (rand : W -> Z -> Z * W)
  (rt : Runtime) (p : Pipeline W) (schedule : list arrival) (net : network) (id : string) (pr : Principal) (b : body)
  (incoming : gmap string string) (s : Server W) :
  match traced_Chat upstream open_stream ctx_err now sleep rand rt p schedule net id pr b incoming
          (mkServer (sv_w s, []) (sv_Health s) (sv_Breakers s) (sv_Hedges s) (sv_Metrics s)) with
  | Some (_, s', None) => sv_w s' = (sv_w s, [])
  | Some (_, s', Some _) => exists n m c0 w1 c1 handled err,
      Pipeline_Before (observed_pipeline p) (sv_w s, []) (c0, O) = (w1, (c1, n), (handled, err)) /\
      (n <= length (stages p))%nat /\ (if handled || bool_decide (is_Some err) then 1 <= n else n = length (stages p))%nat /\
      (match err with None => m = n | Some _ => m = n \/ n = S m end) /\
      (sv_w s').2 = map HBefore (seq 0 n) ++ map HAfter (rev (seq 0 m))
  | None => exists req, decodeChat b = inr req /\
      match resolveRoute (rt_Router rt) pr (r_Model req) false with
      | None => True
      | Some (inl _) => False
      | Some (inr route) => exists s1 c1,
          execChat (fun w t r d => beside w.2 (upstream w.1 t r d)) (fun w => ctx_err w.1) (fun w => now w.1)
            (fun w d => beside w.2 (sleep w.1 d)) (fun w n => beside w.2 (rand w.1 n)) rt route schedule s1 c1 = None \/
          exists handled, serveStream (fun w t r d => beside w.2 (open_stream w.1 t r d)) (fun w => ctx_err w.1) (fun w => now w.1)
            (fun w d => beside w.2 (sleep w.1 d)) (fun w n => beside w.2 (rand w.1 n)) rt route schedule net handled s1 c1 = None
      end
  end.
Proof.
  unfold traced_Chat, Chat. destruct (decodeChat b) as [e|req]; [done|]. destruct (resolveRoute _ _ _ _) as [[e|route]|] eqn:Er; [done| |].
  2: { exists req. by rewrite Er. }
  set (s0 := mkServer (sv_w s, []) (sv_Health s) (sv_Breakers s) (sv_Hedges s) (sv_Metrics s)).
  match goal with |- context [serve_call _ _ _ _ _ _ _ _ _ _ _ _ _ ?c0] => set (c := c0) end.
  pose proof (serve_call_unwound upstream open_stream ctx_err now sleep rand rt p route schedule net (r_Stream req) s0 c eq_refl) as H.
  destruct H as [[-> (s1 & c1 & H)]|(n & w1 & c1 & handled & err & Hb & Hn & Hlen & out & s1 & c2 & -> & Ht)].
  - exists req. rewrite Er. split; [done|]. by exists s1, c1.
  - exists n, n, c, w1, c1, handled, err. split_and!; [done..| |done]. destruct err; [by left|done].
Qed.

Lemma price_err rt c text : cl_Err (price rt c text) = None -> cl_Err c = None.
Proof.
  unfold price. destruct (cl_Response c ≫= cr_Usage); cbv zeta; destruct (CostMicros _ _ _) as [cost []]; try done; cbn.
  all: by destruct (_ && _ && _).
Qed.

Section Sound.
Context {W : Type}
  (upstream : W -> Target -> ChatRequest -> Duration -> (go_error + ChatResponse) * W)
  (open_stream : W -> Target -> ChatRequest -> Duration -> opening * bool * W)
  (ctx_err : W -> option go_error) (now : W -> Time)
  (sleep : W -> Duration -> bool * W) (rand : W -> Z -> Z * W)
  (Hsleep : forall w d w', sleep w d = (true, w') -> ctx_err w' <> None).

Lemma execChat_err rt route schedule s c s' c' :
  execChat upstream ctx_err now sleep rand rt route schedule s c = Some (None, s', c') -> cl_Err c = None.
Proof using.
  unfold execChat. destruct (execute_call _ _ _ _ _ _ _ _ _ _) as [[[[e|resp] s1] c1]|] eqn:E; [done| |done].
  apply execute_call_same in E as (_ & _ & He & _). intros H. injection H as H <- <-. apply price_err in H. by rewrite <- He.
Qed.

(** The answer of a call [c] (of the state [s]): what a target of the plan
    answered, at the price of that target. *)
Definition answered (rt : Runtime) (route : Route) (s : Server W) (c c' : Call) (resp : ChatResponse) : Prop :=
  answered_by (call_target upstream now rt route (cl_Request c)) (planFor (live_router rt s) (now (sv_w s)) (sv_Breakers s) c route).1
    (cl_Target c') resp /\
  cl_Usage c' = match cr_Usage resp with Some u => u | None => estimated_usage (cl_Request c) (answer_text resp) end /\
  match prices (rt_Pricing rt) !! Target_String (cl_Target c') with
  | Some _ => CostMicros (rt_Pricing rt) (Target_String (cl_Target c')) (cl_Usage c') = (cl_CostMicros c', true)
  | None => cl_CostMicros c' = cl_CostMicros c /\ (BudgetMicros (p_Tenant (cl_Principal c)) <= 0 \/ rt_RequirePricing rt = false)
  end.
End Sound.

Lemma finish_out {W : Type} (p : Pipeline W) ran out s c out' s' c' : finish p ran out s c = Some (out', s', c') -> out' = out.
Proof. unfold finish. destruct (Pipeline_After _ _ _) as [[w c1]|]; intros; by simplify_eq. Qed.

Lemma respond_answer {W : Type} (p : Pipeline W) ran err s c r s' c' resp :
  respond p ran err s c = Some (Replied r, s', c') -> hr_Body r = inr resp ->
  let c3 := (Pipeline_Respond (Some p) (sv_w s) (set_Err c None)).2 in
  err = None /\ cl_Err c = None /\ hr_Status r = 200 /\
  resp = match cl_ClientResponse c3 with Some cr => Some cr | None => cl_Response c3 end /\
  header_get (hr_Header r) cost_header = cost_trailer c3.
Proof.
  unfold respond. intros H Hb. destruct err as [e|]; [|destruct (cl_Err c) as [e|] eqn:Ee].
  1, 2: apply finish_out in H; simplify_eq; unfold error_reply in Hb; by destruct (WriteError e) as [[? ?] ?].
  destruct (Pipeline_Respond _ _ _) as [w c3]. apply finish_out in H. simplify_eq. cbn in *. simplify_eq.
  split_and!; try done. unfold header_get, header_set. by rewrite lookup_insert.
Qed.

(** C3. An answer is accounted for: a request that is answered had a well-formed
    body, for a route its key may reach, and passed the stages; what the client
    reads is what the responding stages make of the call, and the call was either
    answered by a stage or by a target of the plan made for it, with the usage and
    the cost of that target; a tenant with a budget is never answered by a target
    without a price when prices are required.  (The remaining case is a call that
    was cancelled although the client is there.) *)
Theorem chat_answer_sound {W : Type}
  (upstream : W -> Target -> ChatRequest -> Duration -> (go_error + ChatResponse) * W)
  (open_stream : W -> Target -> ChatRequest -> Duration -> opening * bool * W)
  (ctx_err : W -> option go_error) (now : W -> Time) (sleep : W -> Duration -> bool * W) (rand : W -> Z -> Z * W)
  (rt : Runtime) (p : Pipeline W) (schedule : list arrival) (net : network) (id : string) (pr : Principal) (b : body)
  (incoming : gmap string string) (s s' : Server W) (r : http_reply) (resp : option ChatResponse) (c' : option Call) :
  (forall w d w', sleep w d = (true, w') -> ctx_err w' <> None) ->
  Chat upstream open_stream ctx_err now sleep rand rt p schedule net id pr b incoming s = Some (Replied r, s', c') -> hr_Body r = inr resp ->
  exists req route w1 c1 ran handled s2 c2,
    decodeChat b = inr req /\ r_Stream req = false /\ resolveRoute (rt_Router rt) pr (r_Model req) false = Some (inr route) /\
    Pipeline_Before p (sv_w s) (set_Incoming (NewCall id (now (sv_w s)) pr req (Some route)) (sanitizeIncoming incoming), O)
      = (w1, (c1, ran), (handled, None)) /\
    hr_Status r = 200 /\
    (let c3 := (Pipeline_Respond (Some p) (sv_w s2) c2).2 in
     resp = match cl_ClientResponse c3 with Some cr => Some cr | None => cl_Response c3 end /\
     header_get (hr_Header r) cost_header = cost_trailer c3) /\
    if handled then s2 = set_world s w1 /\ c2 = set_Err c1 None /\ cl_Err c1 = None
    else exists c2' err, execChat upstream ctx_err now sleep rand rt route schedule (set_world s w1) c1 = Some (err, s2, c2') /\ c2 = set_Err c2' None /\
      match err with
      | None => exists ans, cl_Response c2 = Some ans /\ answered upstream now rt route (set_world s w1) c1 c2 ans
      | Some e => e = ErrCanceled /\ ctx_err (sv_w s2) = None
      end.
Proof.
  intros Hsleep H Hbody. unfold Chat in H. destruct (decodeChat b) as [e|req] eqn:Ed; [simplify_eq; by destruct e|].
  destruct (resolveRoute _ _ _ _) as [[e|route]|] eqn:Er; [simplify_eq; by destruct e| |done].
  destruct (serve_call _ _ _ _ _ _ _ _ _ _ _ _ _ _) as [[[out s0] c0]|] eqn:E; [|done]. simplify_eq.
  unfold serve_call in E. destruct (Pipeline_Before _ _ _) as [[w1 [c1 ran]] [handled err]] eqn:Eb.
  destruct err as [e|]; [by apply (respond_answer p) with (1 := E) in Hbody as [? _]|]. destruct (r_Stream req) eqn:Es.
  { destruct (serveStream _ _ _ _ _ _ _ _ _ _ _ _) as [[[rs s2] c2]|]; [|done]. by apply finish_out in E. }
  destruct handled.
  - apply (respond_answer p) with (1 := E) in Hbody as (_ & He & Hst & Hr & Hc).
    exists req, route, w1, c1, ran, true, (set_world s w1), (set_Err c1 None). by split_and!.
  - destruct (execChat _ _ _ _ _ _ _ _ _ _) as [[[err s2] c2]|] eqn:Ex; [|done].
    assert (respond p ran (err ≫= upstreamError) s2 c2 = Some (Replied r, s', c0) /\ (err ≫= upstreamError = None -> ctx_err (sv_w s2) = None))
      as [E' Hctx].
    { destruct (err ≫= upstreamError); [by split|]. destruct (ctx_err (sv_w s2)); [by apply finish_out in E|by split]. }
    apply (respond_answer p) with (1 := E') in Hbody as (Hn & He & Hst & Hr & Hc).
    exists req, route, w1, c1, ran, false, s2, (set_Err c2 None). split_and!; try done. exists c2, err. split_and!; [done..|].
    destruct err as [e|]; [split; [by apply upstreamError_some|by apply Hctx]|].
    pose proof (execChat_err _ _ _ _ _ _ _ _ _ _ _ _ Ex) as He1.
    apply (execChat_spec _ _ _ _ _ Hsleep) in Ex as (ans & Ha & Hres & _ & Hu & Hp); [|done].
    exists ans. cbn. split_and!; try done.
Qed.

(** ** Examples *)

(** A gateway of one route and one provider, which answers every request after
    two seconds; its world is the clock. *)
Definition demo_answer (text : string) : ChatResponse :=
  mkChatResponse "r1" "" 0 "gpt-4o" [mkChoice 0 (plain_message "assistant" text) "stop"] (Some (mkUsage 1000 500 1500 None)).
Definition demo_upstream (w : Time) (t : Target) (req : ChatRequest) (d : Duration) : (go_error + ChatResponse) * Time :=
  (inr (demo_answer "hello"), w + 2 * second).
Definition demo_runtime : Runtime :=
  mkRuntime true (New demo_served) {["openai"]} (mkPricing {[Target_String demo_target := mkPrice (f_of_Z 3) (f_of_Z 10) f0]}).
Definition demo_stage : Stage Time := mkStage "tick" (fun w c => (w + 1, c, (false, None))) (fun w c => (w + 1, c)) None.
Definition demo_chat (b : body) (k : Principal) :=
  Chat demo_upstream (fun w _ _ _ => (OpenEOF, false, w)) (fun _ => None) (fun w => w) (fun w d => (false, w + d)) (fun w n => (0, w))
    demo_runtime (mkPipeline [demo_stage]) [] (mkNetwork None None) "id" k b ∅ (mkServer 0 None None ∅ false).
Definition hello : ChatRequest := plain_request "chat" [plain_message "user" "hi"].

Example chat_ex :
  map (fun x => match demo_chat x.1 x.2 with Some (Replied r, _, _) => hr_Status r | _ => 0 end)
    [(Decoded hello, chat_key); (Decoded hello, mkPrincipal "acme" "" "" "" ["other"] true no_limits no_key_policy); (TooLarge, chat_key);
     (Decoded (plain_request "" []), chat_key)] = [200; 403; 413; 400].
Proof. vm_compute. reflexivity. Qed.

Lemma chat_answer_sound_witness : exists r s' c',
  demo_chat (Decoded hello) chat_key = Some (Replied r, s', c') /\ hr_Body r = inr (Some (demo_answer "hello")) /\
  header_get (hr_Header r) cost_header = "0.008000" /\
  exists w1 c1 ran, Pipeline_Before (mkPipeline [demo_stage]) 0 (set_Incoming (NewCall "id" 0 chat_key hello
    (Some (route_of_config (default_route demo_route_cfg)))) ∅, O) = (w1, (c1, ran), (false, None)).
Proof.
  assert (exists r s' c', demo_chat (Decoded hello) chat_key = Some (Replied r, s', c') /\ hr_Body r = inr (Some (demo_answer "hello")) /\
    header_get (hr_Header r) cost_header = "0.008000") as (r & s' & c' & E & Hb & Hh)
    by (vm_compute; do 3 eexists; split; [reflexivity|split; reflexivity]).
  exists r, s', c'. split; [exact E|]. split; [exact Hb|]. split; [exact Hh|].
  destruct (chat_answer_sound demo_upstream (fun w _ _ _ => (OpenEOF, false, w)) (fun _ => None) (fun w => w) (fun w d => (false, w + d))
    (fun w n => (0, w)) demo_runtime (mkPipeline [demo_stage]) [] (mkNetwork None None) "id" chat_key (Decoded hello) ∅
    (mkServer 0 None None ∅ false) s' r _ c' ltac:(intros; discriminate) E Hb)
    as (req & route & w1 & c1 & ran & handled & s2 & c2 & Hd & _ & Hr & Hp & _).
  vm_compute in Hd. injection Hd as <-. 
  assert (route = route_of_config (default_route demo_route_cfg)) as -> by (vm_compute in Hr; injection Hr as <-; vm_compute; reflexivity).
  exists w1, c1, ran. vm_compute in Hp. injection Hp as <- <- <- <-. vm_compute. reflexivity.
Defined.
