(* ===== verification/Embeddings.v ===== *)
(** * The embeddings endpoint (src/internal/server: embeddings.go, embed_internal.go)

    [Embeddings] is not a pipeline: the handler itself charges the rate limit and
    the budget before the call and settles them after it.  It is written against
    the [Backend] and [Ledger] interfaces of the two stages. *)

From S2P Require Import Prelude GoStrings GoFloat GoFloatInt Breaker Config Api Execute Route Hedge Health Policy Pipeline.
From S2P Require Import RateLimit Budget BudgetStage SmartRoute Detect Redact Guard Serve ChatHandler.

Open Scope string_scope.
Open Scope list_scope.
Open Scope Z_scope.

(** ** Data (api/types.go) *)

Record EmbedEvent := mkEmbedEvent {
  ev_Principal : Principal; ev_Route : string; ev_Target : string; ev_Tokens : Z; ev_CostMicros : Z; ev_Err : option go_error }.

(** What the client gets; [Vanished]: it left, and nothing is written. *)
Inductive embed_reply := EmbedError (h : gmap string string) (e : go_error) | Vectors (h : gmap string string) (out : EmbeddingResponse) | Vanished.

(** The body: not JSON (or larger than the limit), or a request. *)
Inductive embed_body := BadBody | GoodBody (r : EmbeddingRequest).

(** ** Redaction *)

Section Redaction.
Context (is_ipv6 : string -> bool) (sort : list PIIMatch -> list PIIMatch).

Definition redact_input (mode : string) (s : list string * Numberer * Z) (text : string) : list string * Numberer * Z :=
  let '(out, num, redacted) := s in
  match DetectPII is_ipv6 sort text with
  | [] => (out ++ [text], num, redacted)
  | matches => let '(res, num) := Redact text matches mode num in
               (out ++ [rr_Redacted res], num, redacted + Z.of_nat (length matches))
  end.

Definition set_Input (r : EmbeddingRequest) (input : list string) : EmbeddingRequest :=
  mkEmbeddingRequest (eq_Model r) input (eq_EncodingFormat r) (eq_Dimensions r) (eq_User r).

Definition redactEmbeddingRequest (req : EmbeddingRequest) (cfg : PIIGuardConfig) : EmbeddingRequest * Z :=
  if negb (pg_Enabled cfg) then (req, 0)
  else
    let mode := if String.eqb (pg_Mode cfg) "" then "redact" else pg_Mode cfg in
    let '(out, _, redacted) := for_range (eq_Input req) ([], no_numbers, 0) (redact_input mode) in
    (set_Input req out, redacted).
End Redaction.

(** ** The handler *)

(** Whether the limiter and the ledger are installed, and the budget section of
    the configuration, if there is one. *)
Record EmbedHandlers := mkEmbedHandlers { eh_Limiter : bool; eh_Ledger : bool; eh_Budget : option BudgetConfig }.

Definition reserve_strict (eh : EmbedHandlers) : bool :=
  match eh_Budget eh with None => true | Some b => BudgetConfig_IsReserveStrict b end.
Definition require_pricing (eh : EmbedHandlers) : bool :=
  match eh_Budget eh with None => true | Some b => BudgetConfig_IsRequirePricing b end.

Definition embed_tokens (req : EmbeddingRequest) : Z := for_range (eq_Input req) 0 (fun est text => est + EstimateTokens text).

Definition embed_targets (route : Route) (req : EmbeddingRequest) : list string :=
  let targets := map Target_String (ro_Targets route) in
  if bool_decide (targets = []) && negb (String.eqb (eq_Model req) "") then [eq_Model req] else targets.

Definition unpriced_route (tenantID : string) : go_error :=
  ErrApi (api_error 500 ("unpriced target in embeddings route for tenant " +:+ tenantID +:+ " with monthly budget") "api_error" "unpriced_target").
Definition unpriced_embeddings : go_error := ErrApi (api_error 500 "unpriced embeddings target" "api_error" "unpriced_target").

(** The amount to reserve, [None] when an unpriced target is refused. *)
Definition embed_estimate (eh : EmbedHandlers) (rt : Runtime) (route : Route) (req : EmbeddingRequest) : option Z :=
  let targets := embed_targets route req in
  if bool_decide (targets = []) then Some 0
  else
    let '(est, priced) := EstimateMaxMicros (Some (rt_Pricing rt)) targets (embed_tokens req) 0 in
    if negb priced && require_pricing eh then None else Some est.

Section Handler.
Context {W : Type} `{Backend W, Ledger W}
  (embed : W -> Target -> EmbeddingRequest -> Duration -> (go_error + EmbeddingResponse) * W)
  (ctx_err : W -> option go_error) (now : W -> Time)
  (sleep : W -> Duration -> bool * W) (rand_Int64N : W -> Z -> Z * W)
  (is_ipv6 : string -> bool) (sort : list PIIMatch -> list PIIMatch).

(** The rate limit: the error of the event and that of the reply, or whether
    tokens were taken. *)
Definition take_tokens (eh : EmbedHandlers) (p : Principal) (est : Z) (w : W) : W * ((go_error * go_error) + bool) :=
  if eh_Limiter eh && ((0 <? tp_RPM (p_Tenant p)) || (0 <? tp_TPM (p_Tenant p))) then
    match Take (TenantID p) (p_Tenant p) est w with
    | (w, inl e) => if tp_Strict (p_Tenant p) then (w, inl (e, unavailable "rate limiter unavailable" "ratelimit_unavailable")) else (w, inr false)
    | (w, inr d) =>
        if d_TooLarge d then let e := ErrApi (RateLimited "request_too_large" 0) in (w, inl (e, e))
        else if negb (d_Allowed d) then let e := ErrApi (RateLimited "rate_limited" (d_RetryAfter d)) in (w, inl (e, e))
        else (w, inr true)
    end
  else (w, inr false).

(** The budget: the error, or the amount estimated and whether it is reserved. *)
Definition reserve_budget (eh : EmbedHandlers) (rt : Runtime) (route : Route) (p : Principal) (req : EmbeddingRequest) (month : string)
    (h : gmap string string) (w : W) : W * gmap string string * (go_error + Z * bool) :=
  let limit := BudgetMicros (p_Tenant p) in
  if negb (eh_Ledger eh && (0 <? limit)) then (w, h, inr (0, false))
  else
    match embed_estimate eh rt route req with
    | None => (w, h, inl (unpriced_route (TenantID p)))
    | Some reserved =>
        if reserve_strict eh then
          match Reserve (TenantID p) month reserved limit w with
          | (w, inl _) => if tp_Strict (p_Tenant p) then (w, h, inl ledger_unavailable) else (w, h, inr (reserved, false))
          | (w, inr (false, _)) => (w, h, inl (budget_reached limit))
          | (w, inr (true, spent)) =>
              (w, header_set h remaining_header (format_fixed 6 (math_Max f0 (usd (wrap64 (limit - spent))))), inr (reserved, true))
          end
        else
          match Spent (TenantID p) month w with
          | (w, inl _) => if tp_Strict (p_Tenant p) then (w, h, inl ledger_unavailable) else (w, h, inr (reserved, false))
          | (w, inr spent) => if limit <=? spent then (w, h, inl (budget_reached limit)) else (w, h, inr (reserved, false))
          end
    end.

Definition embed_target (rt : Runtime) (route : Route) (req : EmbeddingRequest) (s : Calls W EmbeddingResponse) (t : Target)
  : (go_error + EmbeddingResponse) * Calls W EmbeddingResponse :=
  if negb (bool_decide (Provider t ∈ rt_Registry rt)) then (inl (ErrApi NoHealthyTarget), s)
  else let '(r, w) := embed (ca_w s) t req (ro_Timeout route) in (r, mkCalls w (ca_Health s) (ca_got s)).

Definition embed_execute (rt : Runtime) (route : Route) (req : EmbeddingRequest) (s : Server W) : executed EmbeddingResponse * Server W :=
  let '(plan, br) := Plan (live_router rt s) (now (sv_w s)) (sv_Breakers s) route None in
  let x := run_execute ctx_err now sleep rand_Int64N (embed_target rt route req) (ro_Retry route) plan br (mkCalls (sv_w s) (sv_Health s) None) in
  (of_execute 0 false x, mkServer (ca_w (x_w x.2)) (sv_Health s) (x_br x.2) (sv_Hedges s) (sv_Metrics s)).

Definition adjust_tokens (charged : bool) (p : Principal) (delta : Z) (w : W) : W :=
  if charged then (Adjust (TenantID p) (p_Tenant p) delta w).1 else w.
Definition refund_budget (has : bool) (p : Principal) (month : string) (reserved : Z) (w : W) : W :=
  if has && (0 <? reserved) then (Add (TenantID p) month (wrap64 (- reserved)) w).1 else w.
Definition charge_budget (eh : EmbedHandlers) (has : bool) (p : Principal) (month : string) (reserved cost : Z) (w : W) : W :=
  if negb (eh_Ledger eh) then w
  else if has then
    let delta := wrap64 (cost - reserved) in
    if delta =? 0 then w else (Add (TenantID p) month delta w).1
  else if 0 <? cost then (Add (TenantID p) month cost w).1 else w.

Definition embed_headers (h : gmap string string) (id : string) (route : Route) (target : string) (attempts cost : Z) : gmap string string :=
  let h := header_set h "X-ProofGate-Request-Id" id in
  let h := header_set h "X-ProofGate-Route" (ro_Name route) in
  let h := header_set h "X-ProofGate-Target" target in
  let h := header_set h "X-ProofGate-Attempts" (itoa attempts) in
  header_set h cost_header (format_fixed 6 (usd cost)).

(** From the upstream call on. *)
Definition embed_settle (eh : EmbedHandlers) (rt : Runtime) (route : Route) (p : Principal) (id month : string) (est reserved : Z)
    (charged has : bool) (h : gmap string string) (upstreamReq : EmbeddingRequest) (s : Server W) : embed_reply * Server W * EmbedEvent :=
  let '(x, s) := embed_execute rt route upstreamReq s in
  let target := Target_String (res_Target (ex_res x)) in
  let event := mkEmbedEvent p (ro_Name route) target in
  match ex_resp x with
  | inl err =>
      let w := refund_budget has p month reserved (adjust_tokens charged p est (sv_w s)) in
      (match upstreamError err with Some e => EmbedError h e | None => Vanished end, set_world s w, event 0 0 (Some err))
  | inr out =>
      let tokens := u_PromptTokens (er_Usage out) in
      let '(cost, priced) := CostMicros (rt_Pricing rt) target (mkUsage tokens 0 0 None) in
      if negb priced && require_pricing eh then
        let w := refund_budget has p month reserved (adjust_tokens charged p (wrap64 (est - tokens)) (sv_w s)) in
        (EmbedError h unpriced_embeddings, set_world s w, event 0 0 (Some unpriced_embeddings))
      else
        let w := charge_budget eh has p month reserved cost (adjust_tokens charged p (wrap64 (est - tokens)) (sv_w s)) in
        (Vectors (embed_headers h id route target (res_Attempts (ex_res x)) cost) out, set_world s w, event tokens cost None)
  end.

(** [Embeddings]: [None] is a panic; there is no event before the route is known. *)
Definition Embeddings (eh : EmbedHandlers) (rt : Runtime) (id : string) (p : Principal) (b : embed_body) (s : Server W)
  : option (embed_reply * Server W * option EmbedEvent) :=
  match b with
  | BadBody => Some (EmbedError ∅ (ErrApi (BadRequest "invalid JSON")), s, None)
  | GoodBody req =>
      if String.eqb (eq_Model req) "" || bool_decide (eq_Input req = [])
      then Some (EmbedError ∅ (ErrApi (BadRequest "model and input are required")), s, None)
      else
        match resolveRoute (rt_Router rt) p (eq_Model req) true with
        | None => None
        | Some (inl e) => Some (EmbedError ∅ e, s, None)
        | Some (inr route) =>
            let '(upstreamReq, redacted) := redactEmbeddingRequest is_ipv6 sort req (gc_PII (ro_Guard route)) in
            let h := if 0 <? redacted then header_set ∅ "X-ProofGate-PII-Redacted" (itoa redacted) else ∅ in
            let refused e := mkEmbedEvent p (ro_Name route) "" 0 0 (Some e) in
            let est := embed_tokens req in
            match take_tokens eh p est (sv_w s) with
            | (w, inl (e, shown)) => Some (EmbedError h shown, set_world s w, Some (refused e))
            | (w, inr charged) =>
                let month := Month (now w) in
                match reserve_budget eh rt route p req month h w with
                | (w, h, inl e) => Some (EmbedError h e, set_world s w, Some (refused e))
                | (w, h, inr (reserved, has)) =>
                    let '(reply, s, ev) := embed_settle eh rt route p id month est reserved charged has h upstreamReq (set_world s w) in
                    Some (reply, s, Some ev)
                end
            end
        end
  end.

(** *** embed_internal.go *)

(** [vecs[d.Index] = d.Embedding] for every datum: an index outside the slice
    panics. *)
Fixpoint by_index (vecs : list (list spec_float)) (data : list Embedding) : option (list (list spec_float)) :=
  match data with
  | [] => Some vecs
  | d :: rest =>
      if (0 <=? em_Index d) && (em_Index d <? Z.of_nat (length vecs))
      then by_index (<[Z.to_nat (em_Index d) := em_Embedding d]> vecs) rest else None
  end.

Definition EmbedInternal (rt : Runtime) (name : string) (inputs : list string) (s : Server W)
  : option ((go_error * Target + list (list spec_float) * Usage * Target) * Server W) :=
  match Resolve (rt_Router rt) name false with
  | inl e => Some (inl (ErrApi e, mkTarget "" ""), s)
  | inr route =>
      let '(x, s) := embed_execute rt route (mkEmbeddingRequest "" inputs "" None "") s in
      match ex_resp x with
      | inl err => Some (inl (err, res_Target (ex_res x)), s)
      | inr out =>
          match by_index (replicate (length (er_Data out)) []) (er_Data out) with
          | None => None
          | Some vecs => Some (inr (vecs, er_Usage out, res_Target (ex_res x)), s)
          end
      end
  end.
End Handler.

(** ** The gateway's stores beside the providers *)

(** The world of the theorems: the providers and their clock [U], the limiter's
    Redis and the ledger's. *)
Record Shared (U : Type) := mkShared { sh_u : U; sh_limiter : Redis; sh_ledger : RedisLedger }.
Arguments mkShared {U}.
Arguments sh_u {U}.
Arguments sh_limiter {U}.
Arguments sh_ledger {U}.

Definition on_u {U A : Type} (w : Shared U) (x : A * U) : A * Shared U := (x.1, mkShared x.2 (sh_limiter w) (sh_ledger w)).
Definition on_limiter {U A : Type} (w : Shared U) (x : Redis * A) : Shared U * A := (mkShared (sh_u w) x.1 (sh_ledger w), x.2).
Definition on_ledger {U A : Type} (w : Shared U) (x : RedisLedger * A) : Shared U * A := (mkShared (sh_u w) (sh_limiter w) x.1, x.2).

#[export] Instance shared_backend {U} : Backend (Shared U) := {
  Take t p n w := on_limiter w (Redis_Take t p n (sh_limiter w));
  Adjust t p n w := on_limiter w (Redis_Adjust t p n (sh_limiter w));
  fail_open w := mkShared (sh_u w) (fail_open (sh_limiter w)) (sh_ledger w)
}.
#[export] Instance shared_ledger {U} : Ledger (Shared U) := {
  Spent t m w := on_ledger w (RedisLedger_Spent t m (sh_ledger w));
  Add t m n w := on_ledger w (RedisLedger_Add t m n (sh_ledger w));
  Reserve t m e l w := on_ledger w (RedisLedger_Reserve t m e l (sh_ledger w));
  on_fail_open w := mkShared (sh_u w) (sh_limiter w) (on_fail_open (sh_ledger w))
}.

Section Shared.
Context {U : Type} (embed : U -> Target -> EmbeddingRequest -> Duration -> (go_error + EmbeddingResponse) * U)
  (ctx_err : U -> option go_error) (now : U -> Time) (sleep : U -> Duration -> bool * U) (rand : U -> Z -> Z * U)
  (is_ipv6 : string -> bool) (sort : list PIIMatch -> list PIIMatch).

Definition gateway_Embeddings :=
  Embeddings (W := Shared U) (fun w t r d => on_u w (embed (sh_u w) t r d)) (fun w => ctx_err (sh_u w)) (fun w => now (sh_u w))
    (fun w d => on_u w (sleep (sh_u w) d)) (fun w n => on_u w (rand (sh_u w) n)) is_ipv6 sort.

Lemma take_tokens_ledger eh p est (w : Shared U) : sh_ledger (take_tokens eh p est w).1 = sh_ledger w.
Proof using. unfold take_tokens. cbn [Take shared_backend]. unfold on_limiter. repeat case_match; simplify_eq; done. Qed.

Lemma take_tokens_u eh p est (w : Shared U) : sh_u (take_tokens eh p est w).1 = sh_u w.
Proof using. unfold take_tokens. cbn [Take shared_backend]. unfold on_limiter. repeat case_match; simplify_eq; done. Qed.

Lemma adjust_tokens_ledger charged p n (w : Shared U) : sh_ledger (adjust_tokens charged p n w) = sh_ledger w.
Proof using. by destruct charged. Qed.

(** What the reservation leaves in the ledger. *)
Lemma reserve_budget_holds eh rt route p req month h (w : Shared U) z now0 :
  eh_Ledger eh = true -> rdb_down (sh_ledger w) = false -> rdb_now (sh_ledger w) = now0 ->
  0 < BudgetMicros (p_Tenant p) -> exact_int (BudgetMicros (p_Tenant p)) ->
  (forall est, embed_estimate eh rt route req = Some est -> 0 <= est /\ small (z + est)) -> small z ->
  holds now0 (rdb (sh_ledger w)) (ledgerKey (TenantID p) month) z ->
  let '(w', _, r) := reserve_budget eh rt route p req month h w in
  rdb_down (sh_ledger w') = false /\ rdb_now (sh_ledger w') = now0 /\ sh_u w' = sh_u w /\
  match r with
  | inl _ => holds now0 (rdb (sh_ledger w')) (ledgerKey (TenantID p) month) z
  | inr (reserved, has) => 0 <= reserved /\ small (z + reserved) /\
      holds now0 (rdb (sh_ledger w')) (ledgerKey (TenantID p) month) (if has then z + reserved else z)
  end.
Proof using.
  intros He Hup Hn Hlim Hlim' Hest Hz Hh. unfold reserve_budget. rewrite He, (proj2 (Z.ltb_lt _ _) Hlim). cbn [andb negb].
  destruct (embed_estimate eh rt route req) as [est|]; [|done]. destruct (Hest est eq_refl) as [H0 Hs]. destruct (reserve_strict eh).
  - cbn [Reserve shared_ledger]. unfold on_ledger, RedisLedger_Reserve. rewrite Hup, Hn.
    rewrite (reserve_exact _ _ _ _ _ _ Hh Hz H0 (small_exact _ Hs) Hlim'). destruct (_ <? z + est); cbn; [done|].
    split_and!; try done. apply holds_set. unfold ttlSecs. lia.
  - cbn [Spent shared_ledger]. unfold on_ledger, RedisLedger_Spent. rewrite Hup. cbn.
    repeat case_match; simplify_eq; cbn; split_and!; done.
Qed.

Lemma embed_execute_ledger rt route req s :
  sh_ledger (sv_w (embed_execute (W := Shared U) (fun w t r d => on_u w (embed (sh_u w) t r d)) (fun w => ctx_err (sh_u w))
    (fun w => now (sh_u w)) (fun w d => on_u w (sleep (sh_u w) d)) (fun w n => on_u w (rand (sh_u w) n)) rt route req s).2) = sh_ledger (sv_w s).
Proof using.
  unfold embed_execute. destruct (Plan _ _ _ _ _) as [plan br]. cbn [snd sv_w]. rewrite (run_execute_keep sh_ledger); try done.
  intros ca t. unfold embed_target. case_match; [done|]. cbn. by destruct (embed (sh_u (ca_w ca)) t req (ro_Timeout route)).
Qed.

(** The ledger after a settled or refused request, in whole micro-dollars. *)
Lemma refund_holds (has : bool) p month reserved (w : Shared U) now0 z : rdb_down (sh_ledger w) = false -> rdb_now (sh_ledger w) = now0 ->
  0 <= reserved -> small (z + reserved) -> small z ->
  holds now0 (rdb (sh_ledger w)) (ledgerKey (TenantID p) month) (if has then z + reserved else z) ->
  holds now0 (rdb (sh_ledger (refund_budget (W := Shared U) has p month reserved w))) (ledgerKey (TenantID p) month) z.
Proof using.
  intros Hup Hn H0 Hs Hz Hh. unfold refund_budget. destruct has; [|done]. cbn [andb]. destruct (Z.ltb_spec 0 reserved).
  - cbn. unfold RedisLedger_Add. rewrite Hup. cbn. unfold small in *. rewrite wrap64_id by (unfold in_int64, int64_min, int64_max; lia).
    rewrite (add_exact _ _ _ _ (z + reserved)); unfold exact_int, small; try lia.
    + rewrite Hn. replace (Z.max 0 (z + reserved + - reserved)) with z by lia. apply holds_set. unfold ttlSecs. lia.
    + by rewrite Hn.
  - by replace (z + reserved) with z in Hh by lia.
Qed.

Lemma charge_holds eh (has : bool) p month reserved cost (w : Shared U) now0 z : eh_Ledger eh = true -> rdb_down (sh_ledger w) = false -> rdb_now (sh_ledger w) = now0 ->
  0 <= reserved -> small (z + reserved) -> 0 <= cost -> small (z + cost) -> small z ->
  holds now0 (rdb (sh_ledger w)) (ledgerKey (TenantID p) month) (if has then z + reserved else z) ->
  holds now0 (rdb (sh_ledger (charge_budget (W := Shared U) eh has p month reserved cost w))) (ledgerKey (TenantID p) month) (z + cost).
Proof using.
  intros He Hup Hn H0 Hs Hc Hf Hz Hh. unfold charge_budget. rewrite He. cbn [negb]. unfold small in *. destruct has.
  - rewrite wrap64_id by (unfold in_int64, int64_min, int64_max; lia). destruct (Z.eqb_spec (cost - reserved) 0); [by replace cost with reserved by lia|].
    cbn. unfold RedisLedger_Add. rewrite Hup. cbn. rewrite (add_exact _ _ _ _ (z + reserved)); unfold exact_int, small; try lia; [|by rewrite Hn].
    rewrite Hn. replace (Z.max 0 (z + reserved + (cost - reserved))) with (z + cost) by lia. apply holds_set. unfold ttlSecs. lia.
  - destruct (Z.ltb_spec 0 cost); [|by replace cost with 0 by lia; rewrite Z.add_0_r].
    cbn. unfold RedisLedger_Add. rewrite Hup. cbn. rewrite (add_exact _ _ _ _ z); unfold exact_int, small; try lia; [|by rewrite Hn].
    rewrite Hn. replace (Z.max 0 (z + cost)) with (z + cost) by lia. apply holds_set. unfold ttlSecs. lia.
Qed.
End Shared.

(** ** Properties *)

(** What a request is charged: the cost of its answer, and nothing for any other
    end. *)
Definition charged_cost (r : embed_reply * option EmbedEvent) : Z :=
  match r with (Vectors _ _, Some ev) => ev_CostMicros ev | _ => 0 end.

(** C6. The tenant pays for embeddings what they cost: with a ledger that answers, the
    month's counter of a tenant with a budget moves by the cost of the answer if
    there is one, and is what it was after every other request (refused by the body,
    the route, the rate limit or the budget, failed or cancelled upstream, or
    answered by a target without a price that prices are required of). *)
Theorem embeddings_net_charge {U : Type} (embed : U -> Target -> EmbeddingRequest -> Duration -> (go_error + EmbeddingResponse) * U)
  (ctx_err : U -> option go_error) (now : U -> Time) (sleep : U -> Duration -> bool * U) (rand : U -> Z -> Z * U)
  (is_ipv6 : string -> bool) (sort : list PIIMatch -> list PIIMatch)
  (eh : EmbedHandlers) (rt : Runtime) (id : string) (p : Principal) (b : embed_body) (s s' : Server (Shared U)) (reply : embed_reply)
  (ev : option EmbedEvent) (z : Z) :
  let limit := BudgetMicros (p_Tenant p) in
  let clock := rdb_now (sh_ledger (sv_w s)) in
  let key := ledgerKey (TenantID p) (Month (now (sh_u (sv_w s)))) in
  let charged := charged_cost (reply, ev) in
  eh_Ledger eh = true -> rdb_down (sh_ledger (sv_w s)) = false -> 0 < limit -> exact_int limit ->
  match b with
  | GoodBody req => forall route est, resolveRoute (rt_Router rt) p (eq_Model req) true = Some (inr route) ->
      embed_estimate eh rt route req = Some est -> 0 <= est /\ small (z + est)
  | BadBody => True
  end ->
  small z -> small (z + charged) -> 0 <= charged ->
  holds clock (rdb (sh_ledger (sv_w s))) key z ->
  gateway_Embeddings embed ctx_err now sleep rand is_ipv6 sort eh rt id p b s = Some (reply, s', ev) ->
  holds clock (rdb (sh_ledger (sv_w s'))) key (z + charged).
Proof.
  intros limit clock key charged He Hup Hlim Hlim' Hest Hz Hf Hc Hh H. unfold gateway_Embeddings, Embeddings in H.
  destruct b as [|req]; [simplify_eq; by rewrite Z.add_0_r|]. destruct (_ || _); [simplify_eq; by rewrite Z.add_0_r|].
  destruct (resolveRoute _ _ _ _) as [[e|route]|] eqn:Ert; [simplify_eq; by rewrite Z.add_0_r| |done].
  destruct (redactEmbeddingRequest _ _ _ _) as [ureq red]. set (h0 := if 0 <? red then _ else _) in H.
  pose proof (take_tokens_ledger eh p (embed_tokens req) (sv_w s)) as Hl. pose proof (take_tokens_u eh p (embed_tokens req) (sv_w s)) as Hu.
  destruct (take_tokens _ _ _ _) as [w [[e shown]|taken]]; cbn in Hl, Hu; [simplify_eq; cbn; by rewrite Z.add_0_r, Hl|].
  rewrite Hu in H. fold key in H. rewrite <- Hl in Hup, Hh.
  assert (rdb_now (sh_ledger w) = clock) as Hn by (by rewrite Hl).
  pose proof (reserve_budget_holds eh rt route p req (Month (now (sh_u (sv_w s)))) h0 w z clock He Hup Hn Hlim Hlim' (fun est => Hest route est eq_refl) Hz Hh) as Hr.
  destruct (reserve_budget _ _ _ _ _ _ _ _) as [[w1 h1] r]. destruct Hr as (Hup1 & Hn1 & _ & Hr).
  destruct r as [e|[reserved has]]; [simplify_eq; by rewrite Z.add_0_r|]. destruct Hr as (H0 & Hs & Hh1).
  unfold embed_settle in H. pose proof (embed_execute_ledger embed ctx_err now sleep rand rt route ureq (set_world s w1)) as Hx.
  destruct (embed_execute _ _ _ _ _ _ _ _ _) as [x s1]. cbn [snd sv_w set_world] in Hx. rewrite <- Hx in Hup1, Hn1, Hh1.
  destruct (ex_resp x) as [err|out]; [|destruct (CostMicros _ _ _) as [cost priced]; destruct (negb priced && require_pricing eh)].
  - assert (charged = 0) as -> by (simplify_eq; by destruct (upstreamError err)). rewrite Z.add_0_r. simplify_eq. cbn [sv_w set_world].
    eapply refund_holds; rewrite ?adjust_tokens_ledger; done.
  - simplify_eq. rewrite Z.add_0_r. cbn [sv_w set_world]. eapply refund_holds; rewrite ?adjust_tokens_ledger; done.
  - simplify_eq. cbn [sv_w set_world]. apply charge_holds with (reserved := reserved); rewrite ?adjust_tokens_ledger; done.
Qed.

(** *** Vectors by index *)

Definition in_range (n : nat) (d : Embedding) : Prop := 0 <= em_Index d < Z.of_nat n.

Lemma by_index_some vecs data : is_Some (by_index vecs data) <-> Forall (in_range (length vecs)) data.
Proof.
  revert vecs. induction data as [|d rest IH]; intros vecs; cbn [by_index]; [split; by eauto|]. rewrite Forall_cons. unfold in_range at 1.
  destruct (Z.leb_spec 0 (em_Index d)), (Z.ltb_spec (em_Index d) (Z.of_nat (length vecs))); cbn [andb];
    try (split; [by intros []|intros [? _]; lia]).
  rewrite IH, length_insert. split; [intros; split; [lia|done]|by intros []].
Qed.

Lemma by_index_lookup data vecs vecs' i : by_index vecs data = Some vecs' ->
  (forall d, d ∈ data -> em_Index d <> Z.of_nat i) -> vecs' !! i = vecs !! i.
Proof.
  revert vecs. induction data as [|d rest IH]; intros vecs; cbn [by_index]; [intros; by simplify_eq|].
  destruct (_ && _) eqn:E; [|done]. intros H Hne. apply IH in H; [|intros; apply Hne; by constructor].
  rewrite H, list_lookup_insert_ne; [done|]. pose proof (Hne d ltac:(constructor)). apply andb_true_iff in E as [?%Z.leb_le _]. lia.
Qed.

(** The vectors of a response are returned in the order of their indices, whatever
    the order of the provider: if every datum has an index of its own within the
    response, each input gets its vector; an index outside the response panics. *)
Theorem vectors_by_index (data : list Embedding) :
  let n := length data in
  (by_index (replicate n []) data = None <-> ~ Forall (in_range n) data) /\
  (NoDup (map em_Index data) -> forall vecs d, by_index (replicate n []) data = Some vecs -> d ∈ data ->
     length vecs = n /\ vecs !! Z.to_nat (em_Index d) = Some (em_Embedding d)).
Proof.
  intros n. split.
  - rewrite <- (length_replicate n ([] : list spec_float)) at 2. rewrite <- by_index_some. destruct (by_index _ _); split; try done. intros H. destruct H. by eexists.
  - assert (forall v, NoDup (map em_Index data) -> forall vecs d, by_index v data = Some vecs -> d ∈ data ->
      length vecs = length v /\ vecs !! Z.to_nat (em_Index d) = Some (em_Embedding d)) as H.
    { clear. induction data as [|d0 rest IH]; intros v Hnd vecs d; [by intros _ ?%elem_of_nil|]. cbn [map by_index] in *. apply NoDup_cons in Hnd as [Hni Hnd].
      destruct (_ && _) eqn:E; [|done]. apply andb_true_iff in E as [E1%Z.leb_le E2%Z.ltb_lt]. intros Hf Hd. apply elem_of_cons in Hd as [->|Hd].
      - assert (length vecs = length v) as Hlen.
        { destruct rest as [|d1 rest']; [cbn in Hf; simplify_eq; by rewrite length_insert|].
          destruct (IH _ Hnd vecs d1 Hf ltac:(constructor)) as [-> _]. by rewrite length_insert. }
        split; [done|]. rewrite (by_index_lookup _ _ _ _ Hf).
        + apply list_lookup_insert_eq. lia.
        + intros d' Hd' E. apply Hni, list_elem_of_fmap. exists d'. split; [lia|done].
      - destruct (IH _ Hnd vecs d Hf Hd) as [-> ?]. by rewrite length_insert. }
    intros Hnd vecs d Hf Hd. destruct (H _ Hnd vecs d Hf Hd) as [-> ?]. by rewrite length_replicate.
Qed.

(** ** Examples *)

(** One model at three dollars per million tokens; the provider counts a thousand
    tokens.  The tenant has two requests and a thousand tokens a minute and the
    given monthly budget. *)
Definition embed_answer : EmbeddingResponse := mkEmbeddingResponse "list" [mkEmbedding "embedding" 0 [f1]] "m" (mkUsage 1000 0 1000 None).
Definition demo_embed (u : unit) (t : Target) (r : EmbeddingRequest) (d : Duration) : (go_error + EmbeddingResponse) * unit := (inr embed_answer, u).
Definition embed_key (budget : spec_float) : Principal :=
  mkPrincipal "acme" "" "" "" [] true (mkTenantPolicy 2 1000 budget true None false "") no_key_policy.
Definition shared_start : Server (Shared unit) :=
  mkServer (mkShared tt (mkRedis 5000 ∅ false 0) (mkRedisLedger 0 ∅ false 0)) None None ∅ false.
Definition embed_request : EmbeddingRequest := mkEmbeddingRequest "openai/gpt-4o" ["some words to embed"] "" None "".
Definition demo_sorted (l : list PIIMatch) : list PIIMatch := l.
Definition demo_embeddings (budget : spec_float) (rt : Runtime) :=
  gateway_Embeddings demo_embed (fun _ => None) (fun _ => 738944 * 24 * hour) (fun u _ => (false, u)) (fun u _ => (0, u)) (fun _ => true) demo_sorted
    (mkEmbedHandlers true true None) rt "id" (embed_key budget) (GoodBody embed_request) shared_start.
Definition key_2024_02 : string := ledgerKey "acme" "2024-02".

Lemma embeddings_net_charge_witness : exists reply s' ev,
  demo_embeddings f1 demo_runtime = Some (reply, s', ev) /\ charged_cost (reply, ev) = 3000 /\
  holds 0 (rdb (sh_ledger (sv_w s'))) key_2024_02 3000.
Proof.
  assert (exists reply s' ev, demo_embeddings f1 demo_runtime = Some (reply, s', ev) /\ charged_cost (reply, ev) = 3000)
    as (reply & s' & ev & E & Hc) by (vm_compute; do 3 eexists; split; reflexivity).
  exists reply, s', ev. split; [exact E|]. split; [exact Hc|].
  pose proof (embeddings_net_charge demo_embed (fun _ => None) (fun _ => 738944 * 24 * hour) (fun u _ => (false, u)) (fun u _ => (0, u))
    (fun _ => true) demo_sorted (mkEmbedHandlers true true None) demo_runtime "id" (embed_key f1) (GoodBody embed_request) shared_start s' reply ev 0)
    as H.
  cbv zeta in H. rewrite Hc in H.
  refine (H eq_refl eq_refl eq_refl _ _ _ _ _ eq_refl E); [vm_compute; split; discriminate| |split; [discriminate|reflexivity]..|discriminate].
  intros route est Hroute. vm_compute in Hroute. injection Hroute as <-. intros Hest.
  assert (est = 15) as -> by (vm_compute in Hest; injection Hest as <-; reflexivity).
  split; [discriminate|split; [discriminate|reflexivity]].
Defined.

(** A request that the budget refuses has already paid the rate limit: its tokens
    and its request are not given back. *)
Theorem budget_refusal_keeps_tokens :
  match demo_embeddings (f_lit 1 1000000) demo_runtime with
  | Some (EmbedError _ e, s', _) =>
      e = budget_reached 1 /\
      level_is 5000 (rl_buckets (sh_limiter (sv_w s'))) (keys "acme").1 2 1 /\
      level_is 5000 (rl_buckets (sh_limiter (sv_w s'))) (keys "acme").2 1000 (1000 - embed_tokens embed_request)
  | _ => False
  end.
Proof. vm_compute. split; [|split]; reflexivity. Qed.

(** A tenant without a budget is refused the answer of a model without a price,
    after the provider was called. *)
Theorem unpriced_embeddings_refused_without_budget :
  match demo_embeddings f0 (mkRuntime true (New demo_served) {["openai"]} (mkPricing ∅)) with
  | Some (EmbedError _ e, _, _) => e = unpriced_embeddings
  | _ => False
  end.
Proof. vm_compute. reflexivity. Qed.

(** A provider that numbers its vectors from one panics the caller. *)
Theorem one_based_vectors_panic : by_index (replicate 1 []) [mkEmbedding "embedding" 1 [f1]] = None.
Proof. reflexivity. Qed.

Lemma vectors_by_index_ex : by_index (replicate 2 []) [mkEmbedding "" 1 [f1]; mkEmbedding "" 0 [f0]] = Some [[f0]; [f1]].
Proof. reflexivity. Qed.
