(* ===== verification/Provider.v ===== *)
(** * Providers: HTTP, errors, streams and the registry (src/internal/provider)

    What the three adapters share ([provider.go], [httpclient.go], [registry.go]
    and the size limit of internal/httpx): the posted request with its credential,
    the classification of failures, the loop that receives from an event stream,
    and the registry that [BuildRuntime] fills from the configuration. *)

From S2P Require Import Prelude GoStrings GoFloat Breaker Config Api Assemble Execute Sse.

Open Scope string_scope.
Open Scope list_scope.
Open Scope Z_scope.

(** ** HTTP *)

Record HttpRequest := mkHttpRequest { hq_URL : string; hq_Header : gmap string string; hq_Body : string }.

(** The body of a response is what can be read of it and the error that ends it. *)
Record HttpResponse := mkHttpResponse { hs_Status : Z; hs_Header : gmap string string; hs_Body : string; hs_End : sse_error }.

(** [httpx.LimitReader]: [ErrResponseTooLarge] once more than [limit] bytes come. *)
Inductive read_end := Ended (e : sse_error) | ResponseTooLarge.

Definition LimitReader (limit : Z) (body : string) (ending : sse_error) : string * read_end :=
  if (0 <? limit) && (limit <? slen body) then (stake (Z.to_nat limit) body, ResponseTooLarge) else (body, Ended ending).

Definition StatusText (code : Z) : string :=
  match list_find (fun p => p.1 = code)
    [(100, "Continue"); (101, "Switching Protocols"); (102, "Processing"); (103, "Early Hints");
     (200, "OK"); (201, "Created"); (202, "Accepted"); (203, "Non-Authoritative Information"); (204, "No Content");
     (205, "Reset Content"); (206, "Partial Content"); (207, "Multi-Status"); (208, "Already Reported"); (226, "IM Used");
     (300, "Multiple Choices"); (301, "Moved Permanently"); (302, "Found"); (303, "See Other"); (304, "Not Modified");
     (305, "Use Proxy"); (307, "Temporary Redirect"); (308, "Permanent Redirect");
     (400, "Bad Request"); (401, "Unauthorized"); (402, "Payment Required"); (403, "Forbidden"); (404, "Not Found");
     (405, "Method Not Allowed"); (406, "Not Acceptable"); (407, "Proxy Authentication Required"); (408, "Request Timeout");
     (409, "Conflict"); (410, "Gone"); (411, "Length Required"); (412, "Precondition Failed"); (413, "Request Entity Too Large");
     (414, "Request URI Too Long"); (415, "Unsupported Media Type"); (416, "Requested Range Not Satisfiable");
     (417, "Expectation Failed"); (418, "I'm a teapot"); (421, "Misdirected Request"); (422, "Unprocessable Entity");
     (423, "Locked"); (424, "Failed Dependency"); (425, "Too Early"); (426, "Upgrade Required"); (428, "Precondition Required");
     (429, "Too Many Requests"); (431, "Request Header Fields Too Large"); (451, "Unavailable For Legal Reasons");
     (500, "Internal Server Error"); (501, "Not Implemented"); (502, "Bad Gateway"); (503, "Service Unavailable");
     (504, "Gateway Timeout"); (505, "HTTP Version Not Supported"); (506, "Variant Also Negotiates"); (507, "Insufficient Storage");
     (508, "Loop Detected"); (510, "Not Extended"); (511, "Network Authentication Required")]
  with Some (_, (_, t)) => t | None => "" end.

(** ** The adapters' configuration

    [OpenAIConfig], [AnthropicConfig], [GeminiConfig] and [Spec] have the same
    fields.  A [KeyFunc] is asked in the world; its error is not reported. *)

Record AdapterConfig (W : Type) := mkAdapterConfig {
  ac_Name : string;
  ac_BaseURL : string;
  ac_APIKey : string;
  ac_KeyFunc : option (W -> option string * W);
  ac_Headers : list (string * string);
  ac_MaxResponseBytes : Z }.
Arguments mkAdapterConfig {W}.
Arguments ac_Name {W}.
Arguments ac_BaseURL {W}.
Arguments ac_APIKey {W}.
Arguments ac_KeyFunc {W}.
Arguments ac_Headers {W}.
Arguments ac_MaxResponseBytes {W}.

(** The common part of [NewOpenAI], [NewAnthropic] and [NewGemini]. *)
Definition adapter_config {W} (c : AdapterConfig W) : AdapterConfig W :=
  mkAdapterConfig (ac_Name c) (trim_right (Ascii.eqb "/") (ac_BaseURL c)) (ac_APIKey c) (ac_KeyFunc c) (ac_Headers c)
    (if ac_MaxResponseBytes c <=? 0 then 32 * 2 ^ 20 else ac_MaxResponseBytes c).

(** How an adapter authenticates: the header of the key, what precedes the key in
    it, and its fixed headers. *)
Record KeyStyle := mkKeyStyle { ks_Header : string; ks_Prefix : string; ks_Fixed : list (string * string) }.
Definition openai_style : KeyStyle := mkKeyStyle "Authorization" "Bearer " [].
Definition anthropic_style : KeyStyle := mkKeyStyle "x-api-key" "" [("anthropic-version", "2023-06-01")].
Definition gemini_style : KeyStyle := mkKeyStyle "x-goog-api-key" "" [].

Section Http.
Context {W : Type}
  (client_do : W -> HttpRequest -> (string + HttpResponse) * W)
  (ctx_err : W -> option go_error) (now : W -> Time)
  (url_error : string -> option string)
  (error_body : string -> option (string * string))
  (http_date : string -> option Time).

(** [Retry-After]: seconds, whose product with [time.Second] wraps, or a date. *)
Definition retry_after (h : gmap string string) (w : W) : Duration :=
  let ra := header_get h "Retry-After" in
  if String.eqb ra "" then 0
  else
    let date := match http_date ra with
                | Some t => let d := time_sub t (now w) in if 0 <? d then d else 0
                | None => 0
                end in
    match Atoi (trim_space ra) with
    | Some secs => if 0 <=? secs then wrap64 (secs * second) else date
    | None => date
    end.

(** [error_body] decodes [error.message] and [message]. *)
Definition FromHTTP (provider : string) (resp : HttpResponse) (w : W) : ProviderError :=
  let b := stake (Z.to_nat (64 * 1024)) (hs_Body resp) in
  let msg := match error_body b with
             | Some (nested, top) => if negb (String.eqb nested "") then nested else if negb (String.eqb top "") then top else StatusText (hs_Status resp)
             | None => StatusText (hs_Status resp)
             end in
  mkProviderError provider (hs_Status resp) msg (RetryableStatus (hs_Status resp)) (retry_after (hs_Header resp) w).

Definition netError (provider msg : string) (w : W) : go_error :=
  match ctx_err w with
  | Some e => e
  | None => ErrProvider (mkProviderError provider 0 msg true 0)
  end.

(** [post]: the body is the result of [json.Marshal]. *)
Definition post (style : KeyStyle) (c : AdapterConfig W) (path : string) (body : string + string) (w : W) : (go_error + HttpResponse) * W :=
  match body with
  | inl e => (inl (ErrOther e), w)
  | inr b =>
      let url := ac_BaseURL c +:+ path in
      match url_error url with
      | Some e => (inl (ErrOther e), w)
      | None =>
          let '(key, w) := match ac_KeyFunc c with Some f => f w | None => (Some (ac_APIKey c), w) end in
          match key with
          | None => (inl (ErrProvider (mkProviderError (ac_Name c) 401 "credential unavailable" false 0)), w)
          | Some key =>
              let h := header_set ∅ "Content-Type" "application/json" in
              let h := if String.eqb key "" then h else header_set h (ks_Header style) (ks_Prefix style +:+ key) in
              let set h kv := header_set h kv.1 kv.2 in
              let h := for_range (ac_Headers c) (for_range (ks_Fixed style) h set) set in
              match client_do w (mkHttpRequest url h b) with
              | (inl e, w) => (inl (netError (ac_Name c) e w), w)
              | (inr resp, w) =>
                  if Z.quot (hs_Status resp) 100 =? 2 then (inr resp, w)
                  else (inl (ErrProvider (FromHTTP (ac_Name c) resp w)), w)
              end
          end
      end
  end.

(** [json.NewDecoder(limited).Decode]: [decode] gets the bytes the limited reader
    gives and how it ends, and may find a value, or an error, before the end. *)
Inductive decode_error := TooLarge | BadJSON (msg : string).

Definition decode_response {T} (decode : string -> read_end -> decode_error + T) (what : string) (c : AdapterConfig W) (resp : HttpResponse) : go_error + T :=
  let '(b, e) := LimitReader (ac_MaxResponseBytes c) (hs_Body resp) (hs_End resp) in
  match decode b e with
  | inr v => inr v
  | inl TooLarge => inl (ErrProvider (mkProviderError (ac_Name c) 502 "upstream response exceeded size limit" false 0))
  | inl (BadJSON err) => inl (ErrProvider (mkProviderError (ac_Name c) 502 (what +:+ err) true 0))
  end.
End Http.

(** ** Conversations

    Both translated formats are lists of turns; consecutive blocks of one role go
    into one turn ([add] of [toAnthropic] and of [toGemini]). *)

Record turn (B : Type) := mkTurn { tu_Role : string; tu_Blocks : list B }.
Arguments mkTurn {B}.
Arguments tu_Role {B}.
Arguments tu_Blocks {B}.

Fixpoint add_turn {B} (role : string) (blocks : list B) (l : list (turn B)) : list (turn B) :=
  match l with
  | [] => [mkTurn role blocks]
  | [t] => if String.eqb (tu_Role t) role then [mkTurn (tu_Role t) (tu_Blocks t ++ blocks)] else [t; mkTurn role blocks]
  | t :: l => t :: add_turn role blocks l
  end.

(** What is said, block by block, and that no two turns of a role follow each other. *)
Definition spoken {B} (l : list (turn B)) : list (string * B) := flat_map (fun t => map (pair (tu_Role t)) (tu_Blocks t)) l.

Fixpoint alternates {B} (l : list (turn B)) : bool :=
  match l with
  | t :: ((u :: _) as l') => negb (String.eqb (tu_Role t) (tu_Role u)) && alternates l'
  | _ => true
  end.

Lemma add_turn_spoken {B} role (blocks : list B) l : spoken (add_turn role blocks l) = spoken l ++ map (pair role) blocks.
Proof.
  induction l as [|t l IH]; [by cbn; rewrite app_nil_r|]. destruct l as [|u l].
  - cbn. destruct (String.eqb_spec (tu_Role t) role) as [->|]; cbn; rewrite ?app_nil_r, ?map_app; done.
  - change (add_turn role blocks (t :: u :: l)) with (t :: add_turn role blocks (u :: l)).
    change (spoken (t :: add_turn role blocks (u :: l))) with (map (pair (tu_Role t)) (tu_Blocks t) ++ spoken (add_turn role blocks (u :: l))).
    change (spoken (t :: u :: l)) with (map (pair (tu_Role t)) (tu_Blocks t) ++ spoken (u :: l)). by rewrite IH, app_assoc.
Qed.

Lemma add_turn_alternates {B} role (blocks : list B) l : alternates l = true -> alternates (add_turn role blocks l) = true.
Proof.
  induction l as [|t l IH]; [done|]. destruct l as [|u l]; intros H.
  - cbn. destruct (String.eqb_spec (tu_Role t) role) as [|Hr]; [done|]. cbn. by destruct (String.eqb_spec (tu_Role t) role).
  - cbn [alternates] in H. apply andb_true_iff in H as [Ht H]. specialize (IH H).
    change (add_turn role blocks (t :: u :: l)) with (t :: add_turn role blocks (u :: l)).
    destruct (add_turn role blocks (u :: l)) as [|v l'] eqn:E; [done|].
    change (negb (String.eqb (tu_Role t) (tu_Role v)) && alternates (v :: l') = true). rewrite IH, andb_true_r.
    cbn in E. destruct l; [destruct (String.eqb (tu_Role u) role)|]; injection E as <- _; done.
Qed.

Lemma add_turn_spoken_nonempty {B} role (blocks : list B) l : blocks <> [] ->
  Forall (fun t => tu_Blocks t <> []) l -> Forall (fun t => tu_Blocks t <> []) (add_turn role blocks l).
Proof.
  intros Hb. induction 1 as [|t l Ht Hl IH]; [by repeat constructor|]. destruct l as [|u l].
  - cbn [add_turn]. destruct (String.eqb _ _); repeat constructor; try done. cbn. by destruct (tu_Blocks t).
  - change (add_turn role blocks (t :: u :: l)) with (t :: add_turn role blocks (u :: l)). by constructor.
Qed.

(** ** Streams

    [Recv] of each adapter is a loop over the events of the body; what differs is
    what an event does to the adapter's own state.  [RChunk] is a chunk, [REnd] is
    [io.EOF]. *)

Inductive received := REnd | RFail (e : go_error) | RChunk (c : ChatChunk).

(** The errors of the event reader. *)
Definition read_failed (name : string) (e : sse_error) : received :=
  match e with
  | EOF => REnd
  | ErrEventTooLarge => RFail (ErrProvider (mkProviderError name 502 "sse event exceeded max size" false 0))
  | ErrRead msg => RFail (ErrProvider (mkProviderError name 0 ("stream read: " +:+ msg) true 0))
  end.

Section Stream.
Context {T : Type} (stopped : T -> bool) (on_event : T -> string -> T * option received) (at_end : T -> sse_error -> T * received).

(** [on_event] handles the data of an event and gives [None] where the loop goes on. *)
Fixpoint recv_loop (fuel : nat) (rd : Reader) (s : T) : option (Reader * T * received) :=
  match fuel with
  | O => None
  | S n =>
      if stopped s then Some (rd, s, REnd)
      else match Next rd with
           | None => None
           | Some (rd, inl e) => let '(s, r) := at_end s e in Some (rd, s, r)
           | Some (rd, inr ev) =>
               match on_event s (ev_Data ev) with
               | (s, Some r) => Some (rd, s, r)
               | (s, None) => recv_loop n rd s
               end
           end
  end.

Definition Recv (rd : Reader) (s : T) : option (Reader * T * received) := recv_loop (S (String.length (rd_rest rd))) rd s.

(** What the pump does: receive until something other than a chunk comes. *)
Fixpoint drain (fuel : nat) (rd : Reader) (s : T) : option (list ChatChunk * option go_error) :=
  match fuel with
  | O => None
  | S n =>
      match Recv rd s with
      | None => None
      | Some (rd, s, RChunk c) => match drain n rd s with Some (cs, e) => Some (c :: cs, e) | None => None end
      | Some (_, _, REnd) => Some ([], None)
      | Some (_, _, RFail e) => Some ([], Some e)
      end
  end.

(** Each chunk takes an event, and [at_end] gives at most one. *)
Definition stream_all (rd : Reader) (s : T) : option (list ChatChunk * option go_error) := drain (S (S (String.length (rd_rest rd)))) rd s.
End Stream.

(** *** Streams of decoded events *)

Section Run.
Context {T A : Type} (stopped : T -> bool) (on_event : T -> A -> T * option received) (at_end : T -> sse_error -> T * received).

(** The receiver on a list of events, until it stops. *)
Fixpoint run_events (ending : sse_error) (events : list A) (s : T) : list ChatChunk * option go_error :=
  let stop r := match r with REnd => ([], None) | RFail e => ([], Some e) | RChunk c => ([c], None) end in
  if stopped s then ([], None)
  else match events with
       | [] => stop (at_end s ending).2
       | e :: events =>
           match on_event s e with
           | (s, None) => run_events ending events s
           | (s, Some (RChunk c)) => let '(cs, e) := run_events ending events s in (c :: cs, e)
           | (_, Some r) => stop r
           end
       end.

(** A stretch of events that yields chunks and goes on. *)
Definition yields (s : T) (es : list A) (s' : T) (cs : list ChatChunk) : Prop :=
  forall ending rest, run_events ending (es ++ rest) s = let '(cs', e) := run_events ending rest s' in (cs ++ cs', e).

Lemma yields_nil s : yields s [] s [].
Proof. intros ending rest. cbn [app]. by destruct (run_events _ _ _). Qed.

Lemma yields_app s1 es1 s2 cs1 es2 s3 cs2 : yields s1 es1 s2 cs1 -> yields s2 es2 s3 cs2 -> yields s1 (es1 ++ es2) s3 (cs1 ++ cs2).
Proof.
  intros H1 H2 ending rest. rewrite <- app_assoc, H1, H2. destruct (run_events _ _ _) as [cs e]. by rewrite <- app_assoc.
Qed.

Lemma yields_cons s1 e s2 cs1 es s3 cs2 : yields s1 [e] s2 cs1 -> yields s2 es s3 cs2 -> yields s1 (e :: es) s3 (cs1 ++ cs2).
Proof. apply (yields_app s1 [e]). Qed.

Lemma yields_chunk s e s' c : stopped s = false -> on_event s e = (s', Some (RChunk c)) -> yields s [e] s' [c].
Proof. intros Hd He ending rest. cbn [app run_events]. by rewrite Hd, He. Qed.

Lemma yields_skip s e s' : stopped s = false -> on_event s e = (s', None) -> yields s [e] s' [].
Proof. intros Hd He ending rest. cbn [app run_events]. rewrite Hd, He. by destruct (run_events _ _ _). Qed.
End Run.
Arguments yields_nil {T A stopped on_event at_end}.
Arguments yields_app {T A stopped on_event at_end}.
Arguments yields_cons {T A stopped on_event at_end}.
Arguments yields_chunk {T A stopped on_event at_end}.
Arguments yields_skip {T A stopped on_event at_end}.

(** Decoding first changes nothing. *)
Lemma run_events_decoded {T A B} stopped (on : T -> A -> T * option received) (on' : T -> B -> T * option received) at_end ending datas es s :
  Forall2 (fun d e => forall s, on s d = on' s e) datas es ->
  run_events stopped on at_end ending datas s = run_events stopped on' at_end ending es s.
Proof.
  intros Hd. revert s. induction Hd as [|d e datas es He Hd IH]; intros s; cbn [run_events]; (destruct (stopped s); [done|]); [done|].
  rewrite He. destruct (on' s e) as [s' [[| |c]|]]; [done..| |apply IH]. by rewrite IH.
Qed.

(** *** What a stream gives *)

Section StreamFacts.
Context {T : Type} (stopped : T -> bool) (on_event : T -> string -> T * option received) (at_end : T -> sse_error -> T * received).

(** At the end of the body at most one more chunk comes. *)
Hypothesis Hend : forall s e s' c, at_end s e = (s', RChunk c) -> e = EOF /\ (at_end s' EOF).2 = REnd.

Lemma recv_loop_fuel f1 f2 rd s : (String.length (rd_rest rd) < f1)%nat -> (String.length (rd_rest rd) < f2)%nat ->
  recv_loop stopped on_event at_end f1 rd s = recv_loop stopped on_event at_end f2 rd s.
Proof using Type.
  revert f2 rd s. induction f1 as [|f1 IH]; intros [|f2] rd s H1 H2; [lia..|]. cbn [recv_loop].
  destruct (stopped s); [done|]. destruct (Next rd) as [[rd' [e|ev]]|] eqn:En; [done| |done].
  apply Next_shorter in En as [Hs _]. destruct (on_event s _) as [s' [r|]]; [done|]. apply IH; lia.
Qed.

(** The reader after a [Recv] that gave a chunk: shorter, or at the end of the body. *)
Definition after_chunk (rd rd' : Reader) (s' : T) : Prop :=
  (String.length (rd_rest rd') < String.length (rd_rest rd))%nat \/
  rd_rest rd' = "" /\ rd_end rd' = EOF /\ (at_end s' EOF).2 = REnd.

Lemma recv_loop_total fuel rd s : (String.length (rd_rest rd) < fuel)%nat ->
  exists rd' s' r, recv_loop stopped on_event at_end fuel rd s = Some (rd', s', r) /\ (forall c, r = RChunk c -> after_chunk rd rd' s').
Proof using Hend.
  revert rd s. induction fuel as [|f IH]; intros rd s Hf; [lia|]. cbn [recv_loop].
  destruct (stopped s); [by eexists _, _, _|]. destruct (Next_some rd) as (rd1 & [e|ev] & En); rewrite En.
  - destruct (at_end s e) as [s' r] eqn:Ea. exists rd1, s', r. split; [done|]. intros c ->.
    apply Hend in Ea as [-> Ha]. apply Next_end in En as [He ->]; [|done]. right. by split_and!; cbn.
  - apply Next_shorter in En as [Hs _]. destruct (on_event s _) as [s' [r|]].
    + exists rd1, s', r. split; [done|]. intros c _. by left.
    + destruct (IH rd1 s' ltac:(lia)) as (rd' & s2 & r & -> & Hr). exists rd', s2, r. split; [done|].
      intros c Hc. destruct (Hr c Hc) as [?|?]; [left; lia|by right].
Qed.

(** Reading a stream ends. *)
Lemma drain_total fuel rd s : (S (String.length (rd_rest rd)) < fuel)%nat -> drain stopped on_event at_end fuel rd s <> None.
Proof using Hend.
  revert rd s. induction fuel as [|f IH]; intros rd s Hf; [lia|]. cbn [drain]. unfold Recv.
  destruct (recv_loop_total (S (String.length (rd_rest rd))) rd s ltac:(lia)) as (rd' & s' & r & -> & Hr).
  destruct r as [| |c]; [done..|]. destruct (Hr c eq_refl) as [Hs|(Hrest & He & Ha)].
  - specialize (IH rd' s' ltac:(lia)). destruct (drain _ _ _ f rd' s') as [[cs e]|]; done.
  - destruct f as [|f]; [lia|]. cbn [drain]. unfold Recv. rewrite Hrest. cbn [recv_loop String.length].
    destruct (stopped s'); [done|]. destruct rd' as [rest ending max]. cbn in Hrest, He. subst rest ending. rewrite Next_at_end.
    destruct (at_end s' EOF) as [s2 r]. cbn in Ha. by subst r.
Qed.

Lemma drain_written es ending max : Forall writable es -> 0 < max -> Forall (fun e => slen (event_bytes e) <= max) es ->
  forall fuel s, let rd := mkReader (concat_strings (map event_bytes es)) ending max in (S (String.length (rd_rest rd)) < fuel)%nat ->
  drain stopped on_event at_end fuel rd s = Some (run_events stopped on_event at_end ending (map ev_Data es) s).
Proof using Hend.
  intros Hw Hmax. induction es as [|e es IH]; intros Hle fuel s rd Hf; subst rd; (destruct fuel as [|f]; [lia|]).
  - cbn [map concat_strings run_events drain]. unfold Recv. cbn [rd_rest String.length recv_loop].
    destruct (stopped s); [done|]. rewrite Next_at_end. destruct (at_end s ending) as [s' r] eqn:Ea. destruct r as [| |c]; [done..|].
    apply Hend in Ea as [-> Ha]. cbn in Hf. destruct f as [|f]; [lia|]. cbn [drain]. unfold Recv. cbn [rd_rest String.length recv_loop].
    destruct (stopped s'); [done|]. rewrite Next_at_end. destruct (at_end s' EOF) as [s2 r2]. cbn in Ha. by subst r2.
  - apply Forall_cons in Hw as [He Hw]. apply Forall_cons in Hle as [Hl Hle]. specialize (IH Hw Hle).
    cbn [map run_events]. set (rest := concat_strings (map event_bytes es)) in *.
    assert (0 < String.length (event_bytes e))%nat as Hpos.
    { rewrite event_bytes_lines, slength_app. change (String.length newline) with 1%nat. lia. }
    cbn [concat_strings map rd_rest] in Hf. rewrite slength_app in Hf. fold rest in Hf.
    destruct (on_event s (ev_Data e)) as [s' o] eqn:Eo.
    assert (Recv stopped on_event at_end (mkReader (concat_strings (event_bytes e :: map event_bytes es)) ending max) s =
      if stopped s then Some (mkReader (concat_strings (event_bytes e :: map event_bytes es)) ending max, s, REnd)
      else match o with Some r => Some (mkReader rest ending max, s', r) | None => Recv stopped on_event at_end (mkReader rest ending max) s' end) as HR.
    { unfold Recv. cbn [recv_loop concat_strings rd_rest]. fold rest. destruct (stopped s); [done|]. rewrite Next_written, Eo by done.
      destruct o as [r|]; [done|]. rewrite slength_app. apply (recv_loop_fuel _ (S (String.length rest))); cbn; lia. }
    destruct o as [r|].
    + cbn [drain]. rewrite HR. destruct (stopped s); [done|]. destruct r as [| |c]; [done..|].
      rewrite IH by (cbn; lia). by destruct (run_events _ _ _ _ _ _).
    + destruct (stopped s) eqn:Es; [by cbn [drain]; rewrite HR|]. rewrite <- (IH (S f)) by (cbn; lia). cbn [drain]. by rewrite HR.
Qed.

Lemma stream_written es ending max s : Forall writable es -> 0 < max -> Forall (fun e => slen (event_bytes e) <= max) es ->
  stream_all stopped on_event at_end (mkReader (concat_strings (map event_bytes es)) ending max) s = Some (run_events stopped on_event at_end ending (map ev_Data es) s).
Proof using Hend. intros. unfold stream_all. apply drain_written; [done..|]. lia. Qed.
End StreamFacts.
