(* ===== verification/OpenAI.v ===== *)
(** * The OpenAI adapter (src/internal/provider/openai.go)

    The gateway's own format is OpenAI's: a request is sent with the target's model,
    and answers and chunks are decoded as they are.  JSON is the class [OpenAIJson]. *)

From S2P Require Import Prelude GoStrings GoFloat Breaker Config Api Assemble Execute Sse Provider.

Open Scope string_scope.
Open Scope list_scope.
Open Scope Z_scope.

Class OpenAIJson := {
  marshal_chat : ChatRequest -> string + string;
  marshal_embedding : EmbeddingRequest -> string + string;
  decode_chat : string -> read_end -> decode_error + ChatResponse;
  decode_embedding : string -> read_end -> decode_error + EmbeddingResponse;
  unmarshal_chunk : string -> string + ChatChunk
}.

Definition withModel (r : ChatRequest) (model : string) (stream : bool) : ChatRequest :=
  mkChatRequest model (r_Messages r) stream (if stream then Some (mkStreamOptions true) else None) (r_MaxTokens r) (r_MaxCompletionTokens r)
    (r_Temperature r) (r_TopP r) (r_Stop r) (r_Tools r) (r_ToolChoice r) (r_ResponseFormat r) (r_Seed r) (r_User r) (r_N r) (r_PresencePenalty r)
    (r_FrequencyPenalty r) (r_ParallelToolCalls r) (r_ReasoningEffort r) (r_Logprobs r) (r_TopLogprobs r).

Definition set_Model (model : string) (r : ChatResponse) : ChatResponse :=
  mkChatResponse (cr_ID r) (cr_Object r) (cr_Created r) model (cr_Choices r) (cr_Usage r).
Definition set_chunk_Model (model : string) (c : ChatChunk) : ChatChunk :=
  mkChatChunk (ck_ID c) (ck_Object c) (ck_Created c) model (ck_Choices c) (ck_Usage c).

Section OpenAI.
Context `{OpenAIJson}.

(** The stream keeps its name and its model. *)
Definition on_odata (s : string * string) (data : string) : (string * string) * option received :=
  if String.eqb data "[DONE]" then (s, Some REnd)
  else if String.eqb data "" then (s, None)
  else match unmarshal_chunk data with
       | inl err => (s, Some (RFail (ErrProvider (mkProviderError s.1 502 ("bad chunk: " +:+ err) true 0))))
       | inr c => (s, Some (RChunk (set_chunk_Model s.2 c)))
       end.

Definition oRecv := Recv (fun _ => false) on_odata (fun s e => (s, read_failed s.1 e)).
Definition oStream := stream_all (fun _ => false) on_odata (fun s e => (s, read_failed s.1 e)).

Section Calls.
Context {W : Type} (client_do : W -> HttpRequest -> (string + HttpResponse) * W) (ctx_err : W -> option go_error) (now : W -> Time)
  (url_error : string -> option string) (error_body : string -> option (string * string)) (http_date : string -> option Time).

Definition oPost (c : AdapterConfig W) (path : string) (body : string + string) : W -> (go_error + HttpResponse) * W :=
  post client_do ctx_err now url_error error_body http_date openai_style c path body.

Definition OpenAI_Chat (c : AdapterConfig W) (model : string) (req : ChatRequest) (w : W) : (go_error + ChatResponse) * W :=
  match oPost c "/chat/completions" (marshal_chat (withModel req model false)) w with
  | (inl e, w) => (inl e, w)
  | (inr resp, w) =>
      match decode_response decode_chat "bad JSON from upstream: " c resp with
      | inl e => (inl e, w)
      | inr out => (inr (set_Model model out), w)
      end
  end.

Definition open_oStream (c : AdapterConfig W) (model : string) (resp : HttpResponse) : option (list ChatChunk * option go_error) :=
  oStream (NewReaderWithLimit (hs_Body resp) (hs_End resp) (ac_MaxResponseBytes c)) (ac_Name c, model).

Definition OpenAI_ChatStream (c : AdapterConfig W) (model : string) (req : ChatRequest) (w : W) :
    option ((go_error + list ChatChunk * option go_error) * W) :=
  match oPost c "/chat/completions" (marshal_chat (withModel req model true)) w with
  | (inl e, w) => Some (inl e, w)
  | (inr resp, w) => match open_oStream c model resp with Some r => Some (inr r, w) | None => None end
  end.

Definition OpenAI_Embed (c : AdapterConfig W) (model : string) (req : EmbeddingRequest) (w : W) : (go_error + EmbeddingResponse) * W :=
  let body := mkEmbeddingRequest model (eq_Input req) (eq_EncodingFormat req) (eq_Dimensions req) (eq_User req) in
  match oPost c "/embeddings" (marshal_embedding body) w with
  | (inl e, w) => (inl e, w)
  | (inr resp, w) =>
      match decode_response decode_embedding "bad JSON: " c resp with
      | inl e => (inl e, w)
      | inr out => (inr (mkEmbeddingResponse (er_Object out) (er_Data out) model (er_Usage out)), w)
      end
  end.
End Calls.

(** The chunks of a stream are relayed in order under the name of the target's model,
    up to the terminator; what comes after it is not read, and a body that ends
    without a terminator ends the stream as well. *)
Lemma openai_events_relayed (name model : string) (datas : list (string * ChatChunk)) (after : list string) (ending : sse_error) :
  Forall (fun dc => unmarshal_chunk dc.1 = inr dc.2 /\ dc.1 <> "[DONE]" /\ dc.1 <> "") datas ->
  run_events (fun _ => false) on_odata (fun s e => (s, read_failed s.1 e)) ending (map fst datas ++ "[DONE]" :: after) (name, model) =
    (map (fun dc => set_chunk_Model model dc.2) datas, None) /\
  run_events (fun _ => false) on_odata (fun s e => (s, read_failed s.1 e)) EOF (map fst datas) (name, model) =
    (map (fun dc => set_chunk_Model model dc.2) datas, None).
Proof.
  induction 1 as [|[d c] datas (Hd & Hdone & Hne) _ [IH1 IH2]]; [done|]. cbn [fst snd] in *. cbn [map app run_events fst snd].
  assert (on_odata (name, model) d = ((name, model), Some (RChunk (set_chunk_Model model c)))) as ->.
  { unfold on_odata. destruct (String.eqb_spec d "[DONE]"); [done|]. destruct (String.eqb_spec d ""); [done|]. by rewrite Hd. }
  by rewrite IH1, IH2.
Qed.
End OpenAI.
