(* ===== verification/Anthropic.v ===== *)
(** * The Anthropic adapter (src/internal/provider/anthropic.go)

    The translation of a chat request into the Messages API, of an answer back, and
    the receiver of its event stream.  A streamed answer, assembled, is the answer
    that would have come in one piece.  JSON is the class [AnthropicJson]. *)

From S2P Require Import Prelude GoStrings GoFloat Breaker Config Api Assemble Execute Sse Provider.

Open Scope string_scope.
Open Scope list_scope.
Open Scope Z_scope.

Record aSource := mkASource { so_Type : string; so_MediaType : string; so_Data : string; so_URL : string }.
Record aBlock := mkABlock {
  ab_Type : string; ab_Text : string; ab_ID : string; ab_Name : string; ab_Input : string; ab_ToolUseID : string;
  ab_Content : string; ab_Source : option aSource }.
Definition aMessage : Type := turn aBlock.
Record aTool := mkATool { at_Name : string; at_Description : string; at_InputSchema : string }.
Record anthropicRequest := mkAnthropicRequest {
  ar_Model : string; ar_MaxTokens : Z; ar_System : string; ar_Messages : list aMessage; ar_StopSequences : list string;
  ar_Temperature : option spec_float; ar_TopP : option spec_float; ar_Tools : list aTool; ar_ToolChoice : string; ar_Stream : bool }.
Record aUsage := mkAUsage { us_InputTokens : Z; us_OutputTokens : Z; us_CacheReadInputTokens : Z; us_CacheCreationInputTokens : Z }.

(** The answer [Chat] decodes, and an event of a stream. *)
Record aAnswer := mkAAnswer { an_ID : string; an_StopReason : string; an_Content : list aBlock; an_Usage : aUsage }.
Record aDelta := mkADelta { dl_Type : string; dl_Text : string; dl_PartialJSON : string; dl_StopReason : string }.
Record aEvent := mkAEvent {
  ae_EventType : string; ae_Index : Z; ae_MessageID : string; ae_MessageUsage : aUsage; ae_ContentBlock : aBlock;
  ae_Delta : aDelta; ae_Usage : aUsage; ae_ErrorType : string; ae_ErrorMessage : string }.

Class AnthropicJson := {
  json_valid : string -> bool;
  unmarshal_string : string -> option string;
  unmarshal_function_name : string -> option string;
  marshal_tool_choice : string -> string;
  marshal_anthropic : anthropicRequest -> string + string;
  decode_answer : string -> read_end -> decode_error + aAnswer;
  unmarshal_aevent : string -> string + aEvent
}.

(** JSON constants of the source. *)
Definition json_type (t : string) : string := "{" +:+ dquote +:+ "type" +:+ dquote +:+ ":" +:+ dquote +:+ t +:+ dquote +:+ "}".

(** ** Requests *)

Definition trim_suffix (s suffix : string) : string :=
  let n := (String.length s - String.length suffix)%nat in
  if String.eqb (sdrop n s) suffix then stake n s else s.

(** A data URL: its media type and its data. *)
Definition data_url (u : string) : string * string :=
  let '(meta, data, _) := cut (trim_prefix u "data:") "," in (trim_suffix meta ";base64", data).

Definition text_block (t : string) : aBlock := mkABlock "text" t "" "" "" "" "" None.

Definition imageBlock (u : string) : aBlock :=
  let source := if has_prefix "data:" u then let '(media, data) := data_url u in mkASource "base64" media data "" else mkASource "url" "" "" u in
  mkABlock "image" "" "" "" "" "" "" (Some source).

Section Anthropic.
Context `{AnthropicJson}.

Definition user_part (p : ContentPart) : list aBlock :=
  if String.eqb (cp_Type p) "text" then [text_block (cp_Text p)]
  else if String.eqb (cp_Type p) "image_url" then match cp_ImageURL p with Some i => [imageBlock (iu_URL i)] | None => [] end
  else [].

Definition user_blocks (c : Content) : list aBlock :=
  match c_Parts c with None => [text_block (c_Text c)] | Some parts => flat_map user_part parts end.

(** The arguments of a call, [{}] when there are none. *)
Definition call_input (tc : ToolCall) : string :=
  let args := fc_Arguments (tc_Function tc) in if String.eqb (trim_space args) "" then "{}" else args.

Definition tool_use (tc : ToolCall) : aBlock := mkABlock "tool_use" "" (tc_ID tc) (fc_Name (tc_Function tc)) (call_input tc) "" "" None.

Definition assistant_blocks (m : Message) : list aBlock :=
  let t := Content_PlainText (m_Content m) in
  (if String.eqb t "" then [] else [text_block t]) ++ map tool_use (m_ToolCalls m).

Definition tool_result (m : Message) : aBlock := mkABlock "tool_result" "" "" "" "" (m_ToolCallID m) (Content_PlainText (m_Content m)) None.

(** One message: the system texts and the turns so far. *)
Definition add_message (st : list string * list aMessage) (m : Message) : go_error + list string * list aMessage :=
  let '(system, turns) := st in
  let role := m_Role m in
  if String.eqb role "system" || String.eqb role "developer" then inr (system ++ [Content_PlainText (m_Content m)], turns)
  else if String.eqb role "user" then inr (system, for_range (user_blocks (m_Content m)) turns (fun turns b => add_turn "user" [b] turns))
  else if String.eqb role "assistant" then
    if forallb (fun tc => json_valid (call_input tc)) (m_ToolCalls m) then
      match assistant_blocks m with
      | [] => inr st
      | blocks => inr (system, add_turn "assistant" blocks turns)
      end
    else inl (ErrApi (BadRequest "tool call arguments are not valid JSON"))
  else if String.eqb role "tool" then inr (system, add_turn "user" [tool_result m] turns)
  else inl (ErrApi (BadRequest ("unsupported role: " +:+ role))).

Fixpoint add_messages (st : list string * list aMessage) (ms : list Message) : go_error + list string * list aMessage :=
  match ms with
  | [] => inr st
  | m :: ms => match add_message st m with inl e => inl e | inr st => add_messages st ms end
  end.

Definition to_aTool (t : Tool) : aTool :=
  let schema := fd_Parameters (t_Function t) in
  mkATool (fd_Name (t_Function t)) (fd_Description (t_Function t)) (if String.eqb schema "" then json_type "object" else schema).

Definition tool_choice (raw : string) : string :=
  if String.eqb raw "" then ""
  else match unmarshal_string raw with
       | Some s => if String.eqb s "auto" then json_type "auto" else if String.eqb s "required" then json_type "any"
                   else if String.eqb s "none" then json_type "none" else ""
       | None => match unmarshal_function_name raw with
                 | Some name => if String.eqb name "" then "" else marshal_tool_choice name
                 | None => ""
                 end
       end.

Definition toAnthropic (model : string) (req : ChatRequest) (stream : bool) : go_error + anthropicRequest :=
  match add_messages ([], []) (r_Messages req) with
  | inl e => inl e
  | inr (system, turns) =>
      inr (mkAnthropicRequest model (ChatRequest_EffectiveMaxTokens req 4096) (join (newline +:+ newline) system) turns (r_Stop req)
             (r_Temperature req) (r_TopP req) (map to_aTool (r_Tools req)) (tool_choice (r_ToolChoice req)) stream)
  end.

(** ** Answers *)

Definition toUsage (u : aUsage) : Usage :=
  let prompt := wrap64 (wrap64 (us_InputTokens u + us_CacheReadInputTokens u) + us_CacheCreationInputTokens u) in
  mkUsage prompt (us_OutputTokens u) (wrap64 (prompt + us_OutputTokens u)) (Some (mkPromptTokensDetails (us_CacheReadInputTokens u))).

Definition finishReason (stop : string) : string :=
  if String.eqb stop "max_tokens" then "length"
  else if String.eqb stop "tool_use" then "tool_calls"
  else if String.eqb stop "refusal" then "content_filter"
  else "stop".

Definition block_text (b : aBlock) : string := if String.eqb (ab_Type b) "text" then ab_Text b else "".
Definition block_call (b : aBlock) : list ToolCall :=
  if String.eqb (ab_Type b) "tool_use" then [mkToolCall None (ab_ID b) "function" (mkFunctionCall (ab_Name b) (ab_Input b))] else [].

(** What [Chat] makes of the decoded answer. *)
Definition to_response (model : string) (a : aAnswer) : ChatResponse :=
  mkChatResponse (an_ID a) "chat.completion" 0 model
    [mkChoice 0 (mkMessage "assistant" (text_content (concat_strings (map block_text (an_Content a)))) "" (flat_map block_call (an_Content a)) "")
       (finishReason (an_StopReason a))]
    (Some (toUsage (an_Usage a))).

(** ** The stream *)

(** [anthropicStream] without its reader. *)
Record anthropicStream := mkAnthropicStream {
  as_name : string; as_model : string; as_id : string; as_usage : aUsage; as_toolIndex : gmap Z Z; as_done : bool }.

Definition chunk (s : anthropicStream) (d : ChunkDelta) (finish : option string) : ChatChunk :=
  mkChatChunk (as_id s) "chat.completion.chunk" 0 (as_model s) [mkChunkChoice 0 d finish] None.

Definition tool_delta (i : Z) (id ty name args : string) : ChunkDelta := mkChunkDelta "" "" [mkToolCall (Some i) id ty (mkFunctionCall name args)].

Definition set_id (s : anthropicStream) (id : string) (u : aUsage) : anthropicStream :=
  mkAnthropicStream (as_name s) (as_model s) id
    (mkAUsage (us_InputTokens u) (us_OutputTokens (as_usage s)) (us_CacheReadInputTokens u) (us_CacheCreationInputTokens u)) (as_toolIndex s) (as_done s).
Definition set_tool (s : anthropicStream) (block i : Z) : anthropicStream :=
  mkAnthropicStream (as_name s) (as_model s) (as_id s) (as_usage s) (<[block := i]> (as_toolIndex s)) (as_done s).
Definition set_output (s : anthropicStream) (n : Z) : anthropicStream :=
  let u := as_usage s in
  mkAnthropicStream (as_name s) (as_model s) (as_id s) (mkAUsage (us_InputTokens u) n (us_CacheReadInputTokens u) (us_CacheCreationInputTokens u))
    (as_toolIndex s) (as_done s).
Definition set_done (s : anthropicStream) : anthropicStream :=
  mkAnthropicStream (as_name s) (as_model s) (as_id s) (as_usage s) (as_toolIndex s) true.

(** The switch of [Recv] over the type of an event. *)
Definition on_aevent (s : anthropicStream) (e : aEvent) : anthropicStream * option received :=
  let ty := ae_EventType e in
  if String.eqb ty "message_start" then
    let s := set_id s (ae_MessageID e) (ae_MessageUsage e) in (s, Some (RChunk (chunk s (mkChunkDelta "assistant" "" []) None)))
  else if String.eqb ty "content_block_start" then
    let b := ae_ContentBlock e in
    if String.eqb (ab_Type b) "tool_use" then
      let i := Z.of_nat (size (as_toolIndex s)) in
      let s := set_tool s (ae_Index e) i in
      (s, Some (RChunk (chunk s (tool_delta i (ab_ID b) "function" (ab_Name b) "") None)))
    else (s, None)
  else if String.eqb ty "content_block_delta" then
    let d := ae_Delta e in
    if String.eqb (dl_Type d) "text_delta" then (s, Some (RChunk (chunk s (mkChunkDelta "" (dl_Text d) []) None)))
    else if String.eqb (dl_Type d) "input_json_delta" then
      (s, Some (RChunk (chunk s (tool_delta (default 0 (as_toolIndex s !! ae_Index e)) "" "" "" (dl_PartialJSON d)) None)))
    else (s, None)
  else if String.eqb ty "message_delta" then
    let s := set_output s (us_OutputTokens (ae_Usage e)) in
    (s, Some (RChunk (chunk s (mkChunkDelta "" "" []) (Some (finishReason (dl_StopReason (ae_Delta e)))))))
  else if String.eqb ty "message_stop" then
    let s := set_done s in
    (s, Some (RChunk (mkChatChunk (as_id s) "chat.completion.chunk" 0 (as_model s) [] (Some (toUsage (as_usage s))))))
  else if String.eqb ty "error" then
    let status := if String.eqb (ae_ErrorType e) "overloaded_error" then 529 else 500 in
    (s, Some (RFail (ErrProvider (mkProviderError (as_name s) status (ae_ErrorMessage e) true 0))))
  else (s, None).

Definition on_adata (s : anthropicStream) (data : string) : anthropicStream * option received :=
  match unmarshal_aevent data with
  | inl err => (s, Some (RFail (ErrProvider (mkProviderError (as_name s) 502 ("bad event: " +:+ err) true 0))))
  | inr e => on_aevent s e
  end.

Definition aRecv := Recv as_done on_adata (fun s e => (s, read_failed (as_name s) e)).
Definition aStream := stream_all as_done on_adata (fun s e => (s, read_failed (as_name s) e)).

(** ** The adapter *)

Section Calls.
Context {W : Type} (client_do : W -> HttpRequest -> (string + HttpResponse) * W) (ctx_err : W -> option go_error) (now : W -> Time)
  (url_error : string -> option string) (error_body : string -> option (string * string)) (http_date : string -> option Time).

Definition aPost (c : AdapterConfig W) (body : anthropicRequest) : W -> (go_error + HttpResponse) * W :=
  post client_do ctx_err now url_error error_body http_date anthropic_style c "/v1/messages" (marshal_anthropic body).

Definition Anthropic_Chat (c : AdapterConfig W) (model : string) (req : ChatRequest) (w : W) : (go_error + ChatResponse) * W :=
  match toAnthropic model req false with
  | inl e => (inl e, w)
  | inr body =>
      match aPost c body w with
      | (inl e, w) => (inl e, w)
      | (inr resp, w) =>
          match decode_response decode_answer "bad JSON: " c resp with
          | inl e => (inl e, w)
          | inr a => (inr (to_response model a), w)
          end
      end
  end.

(** The stream of a response: its chunks and the error it ends with. *)
Definition open_aStream (c : AdapterConfig W) (model : string) (resp : HttpResponse) : option (list ChatChunk * option go_error) :=
  aStream (NewReaderWithLimit (hs_Body resp) (hs_End resp) (ac_MaxResponseBytes c))
    (mkAnthropicStream (ac_Name c) model "" (mkAUsage 0 0 0 0) ∅ false).

Definition Anthropic_ChatStream (c : AdapterConfig W) (model : string) (req : ChatRequest) (w : W) :
    option ((go_error + list ChatChunk * option go_error) * W) :=
  match toAnthropic model req true with
  | inl e => Some (inl e, w)
  | inr body =>
      match aPost c body w with
      | (inl e, w) => Some (inl e, w)
      | (inr resp, w) => match open_aStream c model resp with Some r => Some (inr r, w) | None => None end
      end
  end.

Definition Anthropic_Embed (c : AdapterConfig W) : go_error :=
  ErrProvider (mkProviderError (ac_Name c) 400 "anthropic does not offer embeddings" false 0).
End Calls.
End Anthropic.

(** ** What a request becomes *)

Section Requests.
Context `{AnthropicJson}.

Definition is_system (m : Message) : bool := String.eqb (m_Role m) "system" || String.eqb (m_Role m) "developer".

(** A message the adapter can translate. *)
Definition translatable (m : Message) : bool :=
  existsb (String.eqb (m_Role m)) ["system"; "developer"; "user"; "tool"] ||
  String.eqb (m_Role m) "assistant" && forallb (fun tc => json_valid (call_input tc)) (m_ToolCalls m).

(** What a message says in the translated conversation. *)
Definition message_blocks (m : Message) : list (string * aBlock) :=
  if is_system m then []
  else if String.eqb (m_Role m) "user" then map (pair "user") (user_blocks (m_Content m))
  else if String.eqb (m_Role m) "assistant" then map (pair "assistant") (assistant_blocks m)
  else [("user", tool_result m)].

Definition system_texts (ms : list Message) : list string := map (fun m => Content_PlainText (m_Content m)) (List.filter is_system ms).

Definition well_formed (turns : list aMessage) : Prop := alternates turns = true /\ Forall (fun t => tu_Blocks t <> []) turns.

Lemma add_turn_well_formed role blocks turns : blocks <> [] -> well_formed turns -> well_formed (add_turn role blocks turns).
Proof. intros Hb [Ha Hn]. split; [by apply add_turn_alternates|by apply add_turn_spoken_nonempty]. Qed.

Lemma add_user_blocks bs : forall turns, well_formed turns ->
  let turns' := for_range bs turns (fun turns b => add_turn "user" [b] turns) in
  well_formed turns' /\ spoken turns' = spoken turns ++ map (pair "user") bs.
Proof.
  unfold for_range. induction bs as [|b bs IH]; intros turns Hw; [by cbn; rewrite app_nil_r|]. cbn [fold_left map].
  destruct (IH (add_turn "user" [b] turns)) as [Hw' Hs]; [by apply add_turn_well_formed|]. split; [done|].
  by rewrite Hs, add_turn_spoken, <- app_assoc.
Qed.

Lemma add_message_spec system turns m : well_formed turns ->
  match add_message (system, turns) m with
  | inl e => translatable m = false /\ exists msg, e = ErrApi (BadRequest msg)
  | inr (system', turns') =>
      translatable m = true /\ system' = system ++ system_texts [m] /\ well_formed turns' /\ spoken turns' = spoken turns ++ message_blocks m
  end.
Proof.
  intros Hw. unfold add_message, translatable, message_blocks, system_texts. cbn [List.filter existsb]. unfold is_system.
  destruct (String.eqb_spec (m_Role m) "system") as [E|_]; [by cbn; rewrite app_nil_r|].
  destruct (String.eqb_spec (m_Role m) "developer") as [E|_]; [by cbn; rewrite app_nil_r|]. cbn [orb map]. rewrite app_nil_r.
  destruct (String.eqb_spec (m_Role m) "user") as [E|_].
  { destruct (add_user_blocks (user_blocks (m_Content m)) turns Hw). by split_and!. }
  destruct (String.eqb_spec (m_Role m) "assistant") as [E|_].
  - rewrite E. change (String.eqb "assistant" "tool") with false. cbn [orb andb]. destruct (forallb _ _) eqn:Ev; [|by split; [|eexists]].
    destruct (assistant_blocks m) as [|b bs] eqn:Eb; [by cbn; rewrite app_nil_r|].
    split_and!; [done..| |]; [by apply add_turn_well_formed|by rewrite add_turn_spoken].
  - destruct (String.eqb_spec (m_Role m) "tool") as [E|_]; [|by split; [|eexists]].
    split_and!; [done..| |]; [by apply add_turn_well_formed|by rewrite add_turn_spoken].
Qed.

Lemma add_messages_spec ms : forall system turns, well_formed turns ->
  match add_messages (system, turns) ms with
  | inl e => forallb translatable ms = false /\ exists msg, e = ErrApi (BadRequest msg)
  | inr (system', turns') =>
      forallb translatable ms = true /\ system' = system ++ system_texts ms /\ well_formed turns' /\
      spoken turns' = spoken turns ++ flat_map message_blocks ms
  end.
Proof.
  induction ms as [|m ms IH]; intros system turns Hw; cbn [add_messages forallb flat_map]; [by rewrite !app_nil_r|].
  pose proof (add_message_spec system turns m Hw) as Hm.
  destruct (add_message (system, turns) m) as [e|[system1 turns1]]; [by destruct Hm as [-> ?]|].
  destruct Hm as (-> & -> & Hw1 & Hs1). specialize (IH (system ++ system_texts [m]) turns1 Hw1).
  destruct (add_messages _ ms) as [e|[system2 turns2]]; [done|]. destruct IH as (? & -> & ? & Hs2). split_and!; try done.
  - rewrite <- app_assoc. f_equal. unfold system_texts. rewrite <- map_app. f_equal. by rewrite <- List.filter_app.
  - by rewrite Hs2, Hs1, app_assoc.
Qed.

(** A conversation is translated completely and in order: consecutive messages of
    one side become one turn, so that the sides alternate and no turn is empty, what
    is said in them is what each message says, the system texts are joined apart,
    and a request is refused, as the client's mistake, exactly when a role is unknown
    or the arguments of a call are not JSON. *)
Theorem toAnthropic_faithful (model : string) (req : ChatRequest) (stream : bool) :
  match toAnthropic model req stream with
  | inl e => forallb translatable (r_Messages req) = false /\ exists msg, e = ErrApi (BadRequest msg)
  | inr out =>
      forallb translatable (r_Messages req) = true /\
      alternates (ar_Messages out) = true /\ Forall (fun t => tu_Blocks t <> []) (ar_Messages out) /\
      spoken (ar_Messages out) = flat_map message_blocks (r_Messages req) /\
      ar_System out = join (newline +:+ newline) (system_texts (r_Messages req))
  end.
Proof.
  unfold toAnthropic. pose proof (add_messages_spec (r_Messages req) [] []) as Hs.
  destruct (add_messages _ _) as [e|[system turns]]; [by apply Hs|]. destruct Hs as (? & -> & [? ?] & ?); [done|by split_and!].
Qed.
End Requests.

(** ** A streamed answer is the answer *)

(** How the events tell of one content block: a start, then its pieces. *)
Definition block_starts (i : Z) (b : aBlock) (e : aEvent) : Prop :=
  ae_EventType e = "content_block_start" /\ ae_Index e = i /\ ab_Type (ae_ContentBlock e) = ab_Type b /\
  ab_ID (ae_ContentBlock e) = ab_ID b /\ ab_Name (ae_ContentBlock e) = ab_Name b.

Definition block_piece (i : Z) (b : aBlock) (piece : string) (e : aEvent) : Prop :=
  ae_EventType e = "content_block_delta" /\ ae_Index e = i /\
  if String.eqb (ab_Type b) "text" then dl_Type (ae_Delta e) = "text_delta" /\ dl_Text (ae_Delta e) = piece
  else if String.eqb (ab_Type b) "tool_use" then dl_Type (ae_Delta e) = "input_json_delta" /\ dl_PartialJSON (ae_Delta e) = piece
  else dl_Type (ae_Delta e) <> "text_delta" /\ dl_Type (ae_Delta e) <> "input_json_delta".

Definition pieces_whole (b : aBlock) (pieces : list string) : Prop :=
  if String.eqb (ab_Type b) "text" then concat_strings pieces = ab_Text b
  else if String.eqb (ab_Type b) "tool_use" then concat_strings pieces = ab_Input b
  else True.

Inductive blocks_told : Z -> list aBlock -> list aEvent -> Prop :=
| told_nil i : blocks_told i [] []
| told_cons i b bs start pieces deltas rest : block_starts i b start -> Forall2 (block_piece i b) pieces deltas -> pieces_whole b pieces ->
    blocks_told (i + 1) bs rest -> blocks_told i (b :: bs) (start :: deltas ++ rest).

(** Events of other types (pings, ends of blocks) are skipped. *)
Definition relevant (e : aEvent) : bool :=
  existsb (String.eqb (ae_EventType e)) ["message_start"; "content_block_start"; "content_block_delta"; "message_delta"; "message_stop"; "error"].

Definition answer_told (a : aAnswer) (es : list aEvent) : Prop :=
  exists first body last stop, List.filter relevant es = first :: body ++ [last; stop] /\
    (ae_EventType first = "message_start" /\ ae_MessageID first = an_ID a /\
       us_InputTokens (ae_MessageUsage first) = us_InputTokens (an_Usage a) /\
       us_CacheReadInputTokens (ae_MessageUsage first) = us_CacheReadInputTokens (an_Usage a) /\
       us_CacheCreationInputTokens (ae_MessageUsage first) = us_CacheCreationInputTokens (an_Usage a)) /\
    blocks_told 0 (an_Content a) body /\
    (ae_EventType last = "message_delta" /\ dl_StopReason (ae_Delta last) = an_StopReason a /\
       us_OutputTokens (ae_Usage last) = us_OutputTokens (an_Usage a)) /\
    ae_EventType stop = "message_stop".

Section Equivalence.
Context `{AnthropicJson}.

(** The receiver on decoded events. *)
Abbreviation run_aevents := (run_events as_done on_aevent (fun s e => (s, read_failed (as_name s) e))).
Abbreviation yields := (yields as_done on_aevent (fun s e => (s, read_failed (as_name s) e))).

Lemma irrelevant_skipped s e : relevant e = false -> on_aevent s e = (s, None).
Proof.
  unfold relevant, on_aevent. cbn [existsb]. intros Hr. repeat (apply orb_false_iff in Hr as [-> Hr]). done.
Qed.

Lemma run_aevents_relevant ending es s : run_aevents ending es s = run_aevents ending (List.filter relevant es) s.
Proof.
  revert s. induction es as [|e es IH]; intros s; [done|]. cbn [List.filter]. destruct (relevant e) eqn:Er.
  - cbn [run_events]. destruct (as_done s); [done|]. destruct (on_aevent s e) as [s' [[| |c]|]]; [done..| |apply IH]. by rewrite IH.
  - cbn [run_events]. rewrite irrelevant_skipped by done. rewrite <- IH. by destruct es; cbn [run_events]; destruct (as_done s).
Qed.

Context (model : string) (a : aAnswer) (Hid : an_ID a <> "").
Let r := to_response model a.
Let asm (text : string) (tools : list ToolCall) : Assembler := asm_state r text tools "" None.

(** The receiver between two blocks: [i] is the next block, [n] how many calls there
    have been. *)
Record at_block (s : anthropicStream) (i : Z) (n : nat) (u : aUsage) : Prop := {
  at_id : as_id s = an_ID a;
  at_model : as_model s = model;
  at_done : as_done s = false;
  at_usage : as_usage s = u;
  at_size : size (as_toolIndex s) = n;
  at_keys : forall k, is_Some (as_toolIndex s !! k) -> k < i
}.

Lemma chunk_of s i n u d f : at_block s i n u -> chunk s d f = mk_chunk r d f.
Proof. intros [E1 E2 _ _ _ _]. unfold chunk, mk_chunk, base_chunk. by rewrite E1, E2. Qed.

Lemma at_block_next s i n u : at_block s i n u -> at_block s (i + 1) n u.
Proof. intros [? ? ? ? ? Hk]. split; try done. intros k Hs. apply Hk in Hs. lia. Qed.

Lemma piece_event s j i n u b p e : at_block s j n u -> block_piece i b p e ->
  on_aevent s e = (s, if String.eqb (ab_Type b) "text" then Some (RChunk (mk_chunk r (mkChunkDelta "" p []) None))
                      else if String.eqb (ab_Type b) "tool_use" then
                        Some (RChunk (mk_chunk r (tool_delta (default 0 (as_toolIndex s !! i)) "" "" "" p) None))
                      else None).
Proof.
  intros Hs (Ht & Hi & Hb). unfold on_aevent. rewrite Ht, Hi. cbn [String.eqb Ascii.eqb Bool.eqb]. rewrite !(chunk_of _ _ _ _ _ _ Hs).
  destruct (String.eqb (ab_Type b) "text"); [by destruct Hb as [-> ->]|].
  destruct (String.eqb (ab_Type b) "tool_use"); [by destruct Hb as [-> ->]|]. destruct Hb as [H1 H2].
  destruct (String.eqb_spec (dl_Type (ae_Delta e)) "text_delta"); [done|]. by destruct (String.eqb_spec (dl_Type (ae_Delta e)) "input_json_delta").
Qed.

Lemma pieces_yield s i b pieces ds (f : string -> ChunkDelta) : as_done s = false -> Forall2 (block_piece i b) pieces ds ->
  (forall p e, block_piece i b p e -> on_aevent s e = (s, Some (RChunk (mk_chunk r (f p) None)))) ->
  yields s ds s (map (fun d => mk_chunk r d None) (map f pieces)).
Proof.
  intros Hs Hp Hf. induction Hp as [|p e pieces ds He Hp IH]; [apply yields_nil|]. cbn [map].
  apply (yields_cons s e s [mk_chunk r (f p) None]); [|done]. apply yields_chunk; [done|by apply Hf].
Qed.

Lemma pieces_skip s i b pieces ds : as_done s = false -> Forall2 (block_piece i b) pieces ds ->
  (forall p e, block_piece i b p e -> on_aevent s e = (s, None)) -> yields s ds s [].
Proof.
  intros Hs Hp Hf. induction Hp as [|p e pieces ds He Hp IH]; [apply yields_nil|].
  apply (yields_cons s e s []); [|done]. apply yields_skip; [done|by eapply Hf].
Qed.

(** The pieces of a call's arguments are appended to the call. *)
Lemma add_tool_piece ts id name args p :
  add_tool (ts ++ [mkToolCall None id "function" (mkFunctionCall name args)])
    (mkToolCall (Some (Z.of_nat (length ts))) "" "" (mkFunctionCall "" p)) =
  Some (ts ++ [mkToolCall None id "function" (mkFunctionCall name (args +:+ p))]).
Proof.
  unfold add_tool. simpl. destruct (Z.ltb_spec (Z.of_nat (length ts)) 0); [lia|]. rewrite Nat2Z.id.
  unfold grow_tools. rewrite length_app. cbn [length]. replace (S (length ts) - (length ts + 1))%nat with 0%nat by lia.
  cbn [replicate]. rewrite app_nil_r. f_equal. rewrite <- (Nat.add_0_r (length ts)) at 1. by rewrite alter_app_r.
Qed.

Lemma Add_tool_delta text ts ts' i id ty name args : add_tool ts (mkToolCall (Some i) id ty (mkFunctionCall name args)) = Some ts' ->
  Assembler_Add (asm text ts) (mk_chunk r (tool_delta i id ty name args) None) = Some (asm text ts').
Proof using Hid.
  intros Ht. unfold Assembler_Add, mk_chunk, base_chunk, asm, asm_state. cbn [ck_ID ck_Usage ck_Choices a_id add_choices].
  rewrite (id_eqb r Hid). cbn. unfold add_choice. cbn. rewrite Ht. cbn. by rewrite sapp_nil_r.
Qed.

Lemma AddAll_call_pieces text ts id name pieces : forall args,
  Assembler_AddAll (asm text (ts ++ [mkToolCall None id "function" (mkFunctionCall name args)]))
    (map (fun d => mk_chunk r d None) (map (tool_delta (Z.of_nat (length ts)) "" "" "") pieces)) =
  Some (asm text (ts ++ [mkToolCall None id "function" (mkFunctionCall name (args +:+ concat_strings pieces))])).
Proof using Hid.
  induction pieces as [|p pieces IH]; intros args; cbn [map Assembler_AddAll concat_strings]; [by rewrite sapp_nil_r|].
  rewrite (Add_tool_delta _ _ _ _ _ _ _ _ (add_tool_piece ts id name args p)). cbn [mbind option_bind]. by rewrite IH, sapp_assoc.
Qed.

(** What one block adds: the receiver moves on, and the assembler has its text and
    its call. *)
Definition block_added (s : anthropicStream) (i : Z) (b : aBlock) (u : aUsage) (es : list aEvent) (text : string) (ts : list ToolCall) : Prop :=
  exists s' cs, yields s es s' cs /\ at_block s' (i + 1) (length (ts ++ block_call b)) u /\
    Assembler_AddAll (asm text ts) cs = Some (asm (text +:+ block_text b) (ts ++ block_call b)).

Lemma start_skipped s i n u b start : at_block s i n u -> block_starts i b start -> String.eqb (ab_Type b) "tool_use" = false -> yields s [start] s [].
Proof.
  intros Hs (Ht & Hi & Hb & _) Hn. apply yields_skip; [apply Hs|]. unfold on_aevent. by rewrite Ht, Hb, Hn.
Qed.

Lemma text_added i b start pieces ds s u text ts : String.eqb (ab_Type b) "text" = true ->
  at_block s i (length ts) u -> block_starts i b start -> Forall2 (block_piece i b) pieces ds -> pieces_whole b pieces ->
  block_added s i b u (start :: ds) text ts.
Proof using Hid.
  intros Et Hs Hst Hp Hw. assert (String.eqb (ab_Type b) "tool_use" = false) as En by (by apply String.eqb_eq in Et as ->).
  unfold pieces_whole in Hw. unfold block_added, block_text, block_call. rewrite Et in *. rewrite En, app_nil_r.
  exists s, (map (fun d => mk_chunk r d None) (map (fun p => mkChunkDelta "" p []) pieces)). split_and!.
  - apply (yields_cons s start s []); [by eapply start_skipped|]. eapply pieces_yield; [apply Hs|done|].
    intros p e He. by rewrite (piece_event _ _ _ _ _ _ _ _ Hs He), Et.
  - by apply at_block_next.
  - unfold asm. rewrite (AddAll_text r Hid) by (apply Forall_map, Forall_true; done). rewrite map_map. cbn [cd_Content]. by rewrite map_id, Hw.
Qed.

Lemma other_added i b start pieces ds s u text ts : String.eqb (ab_Type b) "text" = false -> String.eqb (ab_Type b) "tool_use" = false ->
  at_block s i (length ts) u -> block_starts i b start -> Forall2 (block_piece i b) pieces ds ->
  block_added s i b u (start :: ds) text ts.
Proof.
  intros Et En Hs Hst Hp. unfold block_added, block_text, block_call. rewrite Et, En, app_nil_r, sapp_nil_r. exists s, [].
  split_and!; [|by apply at_block_next|done]. apply (yields_cons s start s [] ds s []); [by eapply start_skipped|].
  eapply pieces_skip; [apply Hs|done|]. intros p e He. by rewrite (piece_event _ _ _ _ _ _ _ _ Hs He), Et, En.
Qed.

(** The start of a call gives it the next index, under which its pieces come. *)
Lemma call_starts i b start s n u : String.eqb (ab_Type b) "tool_use" = true -> at_block s i n u -> block_starts i b start ->
  let s' := set_tool s i (Z.of_nat n) in
  at_block s' (i + 1) (S n) u /\ yields s [start] s' [mk_chunk r (tool_delta (Z.of_nat n) (ab_ID b) "function" (ab_Name b) "") None].
Proof.
  intros En Hs (Ht & Hi & Hbt & Hbi & Hbn) s'.
  assert (as_toolIndex s !! i = None) as Hfresh.
  { destruct (as_toolIndex s !! i) as [x|] eqn:E; [|done]. assert (i < i) by (apply (at_keys _ _ _ _ Hs); by eexists). lia. }
  assert (at_block s' (i + 1) (S n) u) as Hs'.
  { destruct Hs as [? ? ? ? Hsize Hk]. split; try done.
    - cbn [as_toolIndex s' set_tool]. by rewrite map_size_insert_None, Hsize by done.
    - intros k. cbn [as_toolIndex s' set_tool]. destruct (decide (k = i)) as [->|Hne]; [lia|]. rewrite lookup_insert_ne by done. intros Hx. apply Hk in Hx. lia. }
  split; [done|]. apply yields_chunk; [apply Hs|]. unfold on_aevent. rewrite Ht, Hbt, En, Hi. cbn [String.eqb Ascii.eqb Bool.eqb].
  rewrite (at_size _ _ _ _ Hs). fold s'. by rewrite Hbi, Hbn, (chunk_of _ _ _ _ _ _ Hs').
Qed.

Lemma call_added i b start pieces ds s u text ts : String.eqb (ab_Type b) "tool_use" = true ->
  at_block s i (length ts) u -> block_starts i b start -> Forall2 (block_piece i b) pieces ds -> pieces_whole b pieces ->
  block_added s i b u (start :: ds) text ts.
Proof using Hid.
  intros En Hs Hst Hp Hw. assert (String.eqb (ab_Type b) "text" = false) as Et by (by apply String.eqb_eq in En as ->).
  destruct (call_starts i b start s (length ts) u En Hs Hst) as [Hs' Hy]. set (s' := set_tool s i (Z.of_nat (length ts))) in *.
  unfold pieces_whole in Hw. unfold block_added, block_text, block_call. rewrite Et, En in *. rewrite sapp_nil_r.
  exists s', ([mk_chunk r (tool_delta (Z.of_nat (length ts)) (ab_ID b) "function" (ab_Name b) "") None] ++
    map (fun d => mk_chunk r d None) (map (tool_delta (Z.of_nat (length ts)) "" "" "") pieces)). split_and!.
  - apply (yields_cons s start s'); [done|]. eapply pieces_yield; [apply Hs'|done|].
    intros p e He. rewrite (piece_event _ _ _ _ _ _ _ _ Hs' He), Et, En. subst s'. cbn [as_toolIndex set_tool]. by rewrite lookup_insert_eq.
  - rewrite length_app, Nat.add_1_r. exact Hs'.
  - rewrite AddAll_app. cbn [Assembler_AddAll]. rewrite (Add_tool_delta _ ts (ts ++ [mkToolCall None (ab_ID b) "function" (mkFunctionCall (ab_Name b) "")])).
    + cbn [mbind option_bind]. by rewrite AddAll_call_pieces, Hw.
    + pose proof (add_tool_next ts (mkToolCall None (ab_ID b) "function" (mkFunctionCall (ab_Name b) ""))) as Ha. exact Ha.
Qed.

Lemma block_assembles i b start pieces ds s u text ts :
  at_block s i (length ts) u -> block_starts i b start -> Forall2 (block_piece i b) pieces ds -> pieces_whole b pieces ->
  block_added s i b u (start :: ds) text ts.
Proof using Hid.
  destruct (String.eqb (ab_Type b) "text") eqn:Et; [by apply text_added|].
  destruct (String.eqb (ab_Type b) "tool_use") eqn:En; [by apply call_added|]. intros. by eapply other_added.
Qed.

Lemma blocks_assemble i bs es : blocks_told i bs es -> forall s u text ts, at_block s i (length ts) u ->
  exists s' j cs, yields s es s' cs /\ at_block s' j (length (ts ++ flat_map block_call bs)) u /\
    Assembler_AddAll (asm text ts) cs = Some (asm (text +:+ concat_strings (map block_text bs)) (ts ++ flat_map block_call bs)).
Proof using Hid.
  induction 1 as [i|i b bs start pieces deltas rest Hst Hp Hw Hb IH]; intros s u text ts Hs; cbn [map flat_map concat_strings].
  - exists s, i, []. rewrite app_nil_r, sapp_nil_r. split_and!; [apply yields_nil|done|done].
  - destruct (block_assembles i b start pieces deltas s u text ts Hs Hst Hp Hw) as (s1 & cs1 & Hy1 & Hs1 & Ha1).
    destruct (IH s1 u (text +:+ block_text b) (ts ++ block_call b) Hs1) as (s2 & j & cs2 & Hy2 & Hs2 & Ha2).
    exists s2, j, (cs1 ++ cs2). rewrite app_assoc, <- sapp_assoc. split_and!; [|done|].
    + change (start :: deltas ++ rest) with ((start :: deltas) ++ rest). by eapply yields_app.
    + by rewrite AddAll_app, Ha1.
Qed.

Lemma message_started name first : ae_EventType first = "message_start" -> ae_MessageID first = an_ID a ->
  let u := mkAUsage (us_InputTokens (ae_MessageUsage first)) 0 (us_CacheReadInputTokens (ae_MessageUsage first)) (us_CacheCreationInputTokens (ae_MessageUsage first)) in
  exists s, yields (mkAnthropicStream name model "" (mkAUsage 0 0 0 0) ∅ false) [first] s [mk_chunk r (mkChunkDelta "assistant" "" []) None] /\
    at_block s 0 0 u.
Proof.
  intros Ht Hi u. exists (mkAnthropicStream name model (an_ID a) u ∅ false).
  assert (at_block (mkAnthropicStream name model (an_ID a) u ∅ false) 0 0 u) as Hs.
  { split; try done. intros k Hk. cbn [as_toolIndex] in Hk. rewrite lookup_empty in Hk. by apply is_Some_None in Hk. }
  split; [|done]. apply yields_chunk; [done|]. unfold on_aevent. rewrite Ht. cbn [String.eqb Ascii.eqb Bool.eqb].
  unfold set_id. rewrite Hi. cbn [as_name as_model as_usage as_toolIndex as_done us_OutputTokens]. by rewrite <- (chunk_of _ _ _ _ _ _ Hs).
Qed.

(** The end of the message: the reason, the output tokens, and the usage chunk. *)
Lemma message_ends s i n u last stop ending : at_block s i n u -> ae_EventType last = "message_delta" -> ae_EventType stop = "message_stop" ->
  run_aevents ending [last; stop] s =
    ([mk_chunk r (mkChunkDelta "" "" []) (Some (finishReason (dl_StopReason (ae_Delta last))));
      base_chunk r [] (Some (toUsage (mkAUsage (us_InputTokens u) (us_OutputTokens (ae_Usage last)) (us_CacheReadInputTokens u) (us_CacheCreationInputTokens u))))], None).
Proof.
  intros Hs Hl Hst. destruct s as [name mdl id us idx dn], Hs as [E1 E2 E3 E4 _ _]. cbn in E1, E2, E3, E4. subst.
  cbn [run_events as_done]. unfold on_aevent. by rewrite Hl, Hst.
Qed.

Lemma told_run name es ending : answer_told a es ->
  exists chunks asm', run_aevents ending es (mkAnthropicStream name model "" (mkAUsage 0 0 0 0) ∅ false) = (chunks, None) /\
    Assembler_AddAll empty_assembler chunks = Some asm' /\ Assembler_Response asm' = r.
Proof using Hid.
  intros (first & body & last & stop & Hf & (Ht & Hi & Hu1 & Hu2 & Hu3) & Hb & (Hl & Hr & Ho) & Hst).
  destruct (message_started name first Ht Hi) as (s0 & Hy0 & Hs0).
  destruct (blocks_assemble 0 (an_Content a) body Hb s0 _ "" [] Hs0) as (s1 & j & cs & Hy1 & Hs1 & Ha1).
  rewrite run_aevents_relevant, Hf. change (first :: body ++ [last; stop]) with ([first] ++ body ++ [last; stop]).
  rewrite Hy0, Hy1, (message_ends _ _ _ _ _ _ _ Hs1 Hl Hst). eexists _, _. split_and!; [done| |].
  - rewrite AddAll_app. cbn [Assembler_AddAll]. rewrite (Add_first r Hid) by done. cbn [mbind option_bind default cd_Content].
    change (asm_state r "" [] "" None) with (asm "" []). rewrite AddAll_app, Ha1. cbn [mbind option_bind Assembler_AddAll]. unfold asm.
    rewrite (Add_text r Hid) by done. cbn [mbind option_bind]. unfold Assembler_Add. cbn [ck_ID base_chunk]. by rewrite (id_eqb r Hid).
  - pose proof (id_eqb r Hid) as Hne. change (cr_ID r) with (an_ID a) in Hne. unfold Assembler_Response. cbn.
    rewrite !Hne, Hr, Hu1, Hu2, Hu3, Ho. cbn. rewrite sapp_nil_r, sapp_nil_l. unfold r, to_response. by destruct (an_Usage a).
Qed.
End Equivalence.

(** C22. Streaming does not change the answer: when the events of a stream tell of an
    answer, in whatever pieces and with whatever pings between them, the chunks the
    gateway relays assemble to the response it gives to the same answer in one
    piece, and the stream ends without an error. *)
Theorem anthropic_stream_is_chat `{AnthropicJson} {W : Type} (c : AdapterConfig W) (model : string) (a : aAnswer)
  (resp : HttpResponse) (es : list Event) (told : list aEvent) :
  0 < ac_MaxResponseBytes c ->
  hs_Body resp = concat_strings (map event_bytes es) ->
  Forall (fun e => writable e /\ slen (event_bytes e) <= ac_MaxResponseBytes c) es ->
  Forall2 (fun e ae => unmarshal_aevent (ev_Data e) = inr ae) es told ->
  answer_told a told -> an_ID a <> "" ->
  exists chunks asm, open_aStream c model resp = Some (chunks, None) /\
    Assembler_AddAll empty_assembler chunks = Some asm /\ Assembler_Response asm = to_response model a.
Proof.
  intros Hmax Hbody [Hw Hsize]%Forall_and Hjson Htold Hid.
  destruct (told_run model a Hid (ac_Name c) told (hs_End resp) Htold) as (chunks & asm' & Hrun & Hasm & Hresp).
  exists chunks, asm'. split; [|done]. unfold open_aStream, aStream, NewReaderWithLimit. destruct (Z.leb_spec (ac_MaxResponseBytes c) 0); [lia|].
  rewrite Hbody, stream_written by (try done; intros s [| |] s' ch Hx; cbn in Hx; by simplify_eq). f_equal. rewrite <- Hrun.
  apply run_events_decoded, Forall2_fmap_l. eapply Forall2_impl; [exact Hjson|]. intros e ae He s. unfold on_adata. by rewrite He.
Qed.

(** ** Examples *)

Definition no_usage : aUsage := mkAUsage 0 0 0 0.
Definition no_block : aBlock := mkABlock "" "" "" "" "" "" "" None.
Definition no_delta : aDelta := mkADelta "" "" "" "".
Definition plain_event (ty : string) (i : Z) (b : aBlock) (d : aDelta) : aEvent := mkAEvent ty i "" no_usage b d no_usage "" "".
Definition text_piece (i : Z) (t : string) : aEvent := plain_event "content_block_delta" i no_block (mkADelta "text_delta" t "" "").
Definition json_piece (i : Z) (t : string) : aEvent := plain_event "content_block_delta" i no_block (mkADelta "input_json_delta" "" t "").
Definition tool_block (id name input : string) : aBlock := mkABlock "tool_use" "" id name input "" "" None.

Definition weather_call : aBlock := tool_block "toolu_1" "weather" "{city}".
Definition demo_answer : aAnswer := mkAAnswer "msg_1" "tool_use" [text_block "Let me look."; weather_call] (mkAUsage 10 7 5 0).
Definition demo_body : list aEvent :=
  [plain_event "content_block_start" 0 (text_block "") no_delta; text_piece 0 "Let me"; text_piece 0 " look.";
   plain_event "content_block_start" 1 (tool_block "toolu_1" "weather" "{}") no_delta; json_piece 1 ""; json_piece 1 "{ci"; json_piece 1 "ty}"].
Definition demo_told : list aEvent :=
  [mkAEvent "message_start" 0 "msg_1" (mkAUsage 10 1 5 0) no_block no_delta no_usage "" ""; plain_event "ping" 0 no_block no_delta] ++ demo_body ++
  [plain_event "content_block_stop" 1 no_block no_delta;
   mkAEvent "message_delta" 0 "" no_usage no_block (mkADelta "" "" "" "tool_use") (mkAUsage 0 7 0 0) "" "";
   plain_event "message_stop" 0 no_block no_delta].

(** JSON of the demonstration: an event is the number it has in the list. *)
Definition numbered (es : list aEvent) : AnthropicJson := {|
  json_valid s := has_prefix "{" s;
  unmarshal_string _ := None;
  unmarshal_function_name _ := None;
  marshal_tool_choice n := n;
  marshal_anthropic _ := inr "{}";
  decode_answer _ _ := inr demo_answer;
  unmarshal_aevent d := match Atoi d with Some i => match es !! Z.to_nat i with Some e => inr e | None => inl "no event" end | None => inl "no number" end
|}.
Definition number_events (n : nat) : list Event := map (fun i => mkEvent "" "" (itoa (Z.of_nat i))) (seq 0 n).
Definition claude : AdapterConfig unit := mkAdapterConfig "claude" "https://api.anthropic.com" "key" None [] 4096.
Definition stream_reply (n : nat) : HttpResponse := mkHttpResponse 200 ∅ (concat_strings (map event_bytes (number_events n))) EOF.

Lemma demo_told_body : blocks_told 0 (an_Content demo_answer) demo_body.
Proof.
  apply (told_cons 0 (text_block "Let me look.") [weather_call] _ ["Let me"; " look."] [text_piece 0 "Let me"; text_piece 0 " look."]);
    [by split_and!|by repeat constructor|done|].
  apply (told_cons 1 weather_call [] _ [""; "{ci"; "ty}"] [json_piece 1 ""; json_piece 1 "{ci"; json_piece 1 "ty}"]);
    [by split_and!|by repeat constructor|done|constructor].
Qed.

Lemma anthropic_stream_is_chat_witness :
  exists chunks asm, open_aStream (H := numbered demo_told) claude "claude-sonnet" (stream_reply 12) = Some (chunks, None) /\
    Assembler_AddAll empty_assembler chunks = Some asm /\ Assembler_Response asm = to_response "claude-sonnet" demo_answer.
Proof.
  apply (anthropic_stream_is_chat (H := numbered demo_told) claude "claude-sonnet" demo_answer (stream_reply 12) (number_events 12) demo_told);
    [done|done| | | |done].
  - unfold number_events. cbn [map seq]. repeat constructor; vm_compute; done.
  - unfold number_events. cbn [map seq]. repeat (constructor; [reflexivity|]). constructor.
  - eexists _, demo_body, _, _. split; [reflexivity|]. split_and!; try done. apply demo_told_body.
Defined.

(** A call without arguments: the answer in one piece has the arguments [{}], but the
    stream carries no piece of them, and the assembled call has none. *)
Definition no_argument_told : list aEvent :=
  [mkAEvent "message_start" 0 "msg_2" no_usage no_block no_delta no_usage "" "";
   plain_event "content_block_start" 0 (tool_block "toolu_1" "now" "{}") no_delta; json_piece 0 "";
   mkAEvent "message_delta" 0 "" no_usage no_block (mkADelta "" "" "" "tool_use") no_usage "" "";
   plain_event "message_stop" 0 no_block no_delta].

Definition call_arguments (r : ChatResponse) : list string :=
  flat_map (fun ch => map (fun tc => fc_Arguments (tc_Function tc)) (m_ToolCalls (ch_Message ch))) (cr_Choices r).

Example no_argument_call_differs :
  (exists chunks asm, open_aStream (H := numbered no_argument_told) claude "claude-sonnet" (stream_reply 5) = Some (chunks, None) /\
     Assembler_AddAll empty_assembler chunks = Some asm /\ call_arguments (Assembler_Response asm) = [""]) /\
  call_arguments (to_response "claude-sonnet" (mkAAnswer "msg_2" "tool_use" [tool_block "toolu_1" "now" "{}"] no_usage)) = ["{}"].
Proof. split; [|reflexivity]. eexists _, _. split_and!; vm_compute; reflexivity. Qed.

Example toAnthropic_ex :
  toAnthropic (H := numbered []) "claude-sonnet"
    (plain_request "m" [plain_message "system" "Be brief."; plain_message "user" "Hi"; plain_message "user" "Weather?";
       mkMessage "assistant" (text_content "") "" [mkToolCall None "t1" "function" (mkFunctionCall "weather" "{city}")] "";
       mkMessage "tool" (text_content "rain") "" [] "t1"]) false =
  inr (mkAnthropicRequest "claude-sonnet" 4096 "Be brief."
    [mkTurn "user" [text_block "Hi"; text_block "Weather?"]; mkTurn "assistant" [tool_block "t1" "weather" "{city}"];
     mkTurn "user" [mkABlock "tool_result" "" "" "" "" "t1" "rain" None]] [] None None [] "" false).
Proof. reflexivity. Qed.
