(* ===== verification/Gemini.v ===== *)
(** * The Gemini adapter (src/internal/provider/gemini.go)

    The translation of a chat request into [generateContent], of an answer back, the
    receiver of the event stream and embeddings.  JSON is the class [GeminiJson]. *)

From S2P Require Import Prelude GoStrings GoFloat Breaker Config Api Assemble Execute Sse Encoding Provider Anthropic.

Open Scope string_scope.
Open Scope list_scope.
Open Scope Z_scope.

Record gFuncCall := mkGFuncCall { gf_Name : string; gf_Args : string }.
(** [Response] is the object whose only key is [content]. *)
Record gFuncResp := mkGFuncResp { fr_Name : string; fr_Content : string }.
Record gInlineData := mkGInlineData { gi_MimeType : string; gi_Data : string }.
Record gPart := mkGPart { gp_Text : string; gp_FunctionCall : option gFuncCall; gp_FunctionResponse : option gFuncResp; gp_InlineData : option gInlineData }.
Definition gContent : Type := turn gPart.
Record gGenConfig := mkGGenConfig {
  gg_MaxOutputTokens : option Z; gg_Temperature : option spec_float; gg_TopP : option spec_float; gg_StopSequences : list string }.
Record gFuncDecl := mkGFuncDecl { gd_Name : string; gd_Description : string; gd_Parameters : string }.
Record geminiRequest := mkGeminiRequest {
  ge_SystemInstruction : option gContent; ge_Contents : list gContent; ge_GenerationConfig : option gGenConfig; ge_Tools : list (list gFuncDecl) }.

Record gUsage := mkGUsage { gu_PromptTokenCount : Z; gu_CandidatesTokenCount : Z; gu_CachedContentTokenCount : Z }.
Record gCandidate := mkGCandidate { ca_Content : gContent; ca_FinishReason : string }.
Record gResponse := mkGResponse { gr_Candidates : list gCandidate; gr_UsageMetadata : option gUsage }.

Class GeminiJson := {
  unmarshal_any : string -> string + jval;
  marshal_any : jval -> string;
  marshal_gemini : geminiRequest -> string + string;
  marshal_gembed : list (string * gContent) -> string + string;
  decode_gresponse : string -> read_end -> decode_error + gResponse;
  unmarshal_gresponse : string -> string + gResponse;
  decode_gembed : string -> read_end -> decode_error + list (list spec_float)
}.

Definition text_part (t : string) : gPart := mkGPart t None None None.
Definition call_part (name args : string) : gPart := mkGPart "" (Some (mkGFuncCall name args)) None None.
Definition result_part (name content : string) : gPart := mkGPart "" None (Some (mkGFuncResp name content)) None.

Section Gemini.
Context `{GeminiJson}.

(** ** Requests *)

Definition rejected_key (k : string) : bool := String.eqb k "$schema" || String.eqb k "additionalProperties".

Fixpoint walk (v : jval) : jval :=
  match v with
  | JObj l => JObj (flat_map (fun kv => if rejected_key kv.1 then [] else [(kv.1, walk kv.2)]) l)
  | JArr l => JArr (map walk l)
  | v => v
  end.

Definition cleanSchema (raw : string) : string + string :=
  if String.eqb raw "" then inr ""
  else match unmarshal_any raw with inl e => inl e | inr v => inr (marshal_any (walk v)) end.

Definition g_user_part (p : ContentPart) : list gPart :=
  if String.eqb (cp_Type p) "text" then [text_part (cp_Text p)]
  else if String.eqb (cp_Type p) "image_url" then
    match cp_ImageURL p with
    | Some i => if has_prefix "data:" (iu_URL i) then let '(media, data) := data_url (iu_URL i) in [mkGPart "" None None (Some (mkGInlineData media data))] else []
    | None => []
    end
  else [].

Definition g_user_parts (c : Content) : list gPart :=
  match c_Parts c with None => [text_part (c_Text c)] | Some parts => flat_map g_user_part parts end.

Definition g_assistant_parts (m : Message) : list gPart :=
  let t := Content_PlainText (m_Content m) in
  (if String.eqb t "" then [] else [text_part t]) ++ map (fun tc => call_part (fc_Name (tc_Function tc)) (call_input tc)) (m_ToolCalls m).

(** One message: the names of the calls so far, the system parts and the turns. *)
Record translation := mkTranslation { tr_names : gmap string string; tr_system : list gPart; tr_contents : list gContent }.

Definition add_content (role : string) (parts : list gPart) (st : translation) : translation :=
  mkTranslation (tr_names st) (tr_system st) (add_turn role parts (tr_contents st)).

Definition name_calls (m : Message) (names : gmap string string) : gmap string string :=
  for_range (m_ToolCalls m) names (fun names tc => <[tc_ID tc := fc_Name (tc_Function tc)]> names).

Definition g_add_message (st : translation) (m : Message) : go_error + translation :=
  let role := m_Role m in
  if String.eqb role "system" || String.eqb role "developer" then
    inr (mkTranslation (tr_names st) (tr_system st ++ [text_part (Content_PlainText (m_Content m))]) (tr_contents st))
  else if String.eqb role "user" then inr (for_range (g_user_parts (m_Content m)) st (fun st p => add_content "user" [p] st))
  else if String.eqb role "assistant" then
    let st := mkTranslation (name_calls m (tr_names st)) (tr_system st) (tr_contents st) in
    match g_assistant_parts m with
    | [] => inr st
    | parts => inr (add_content "model" parts st)
    end
  else if String.eqb role "tool" then
    match tr_names st !! m_ToolCallID m with
    | Some name => inr (add_content "user" [result_part name (Content_PlainText (m_Content m))] st)
    | None => inl (ErrApi (BadRequest ("tool message references unknown tool_call_id " +:+ m_ToolCallID m)))
    end
  else inl (ErrApi (BadRequest ("unsupported role: " +:+ role))).

Fixpoint g_add_messages (st : translation) (ms : list Message) : go_error + translation :=
  match ms with
  | [] => inr st
  | m :: ms => match g_add_message st m with inl e => inl e | inr st => g_add_messages st ms end
  end.

Definition generation_config (req : ChatRequest) : option gGenConfig :=
  let n := ChatRequest_EffectiveMaxTokens req 0 in
  let gc := mkGGenConfig (if 0 <? n then Some n else None) (r_Temperature req) (r_TopP req) (r_Stop req) in
  if bool_decide (is_Some (gg_MaxOutputTokens gc)) || bool_decide (is_Some (gg_Temperature gc)) || bool_decide (is_Some (gg_TopP gc)) ||
     negb (bool_decide (gg_StopSequences gc = []))
  then Some gc else None.

Fixpoint declare (tools : list Tool) : go_error + list gFuncDecl :=
  match tools with
  | [] => inr []
  | t :: tools =>
      match cleanSchema (fd_Parameters (t_Function t)) with
      | inl _ => inl (ErrApi (BadRequest "invalid tool parameters schema"))
      | inr params =>
          match declare tools with
          | inl e => inl e
          | inr decls => inr (mkGFuncDecl (fd_Name (t_Function t)) (fd_Description (t_Function t)) params :: decls)
          end
      end
  end.

Definition toGemini (req : ChatRequest) : go_error + geminiRequest :=
  match g_add_messages (mkTranslation ∅ [] []) (r_Messages req) with
  | inl e => inl e
  | inr st =>
      let system := match tr_system st with [] => None | parts => Some (mkTurn "" parts) end in
      match r_Tools req with
      | [] => inr (mkGeminiRequest system (tr_contents st) (generation_config req) [])
      | tools => match declare tools with
                 | inl e => inl e
                 | inr decls => inr (mkGeminiRequest system (tr_contents st) (generation_config req) [decls])
                 end
      end
  end.

(** ** Answers *)

Definition g_toUsage (m : gUsage) : Usage :=
  mkUsage (gu_PromptTokenCount m) (gu_CandidatesTokenCount m) (wrap64 (gu_PromptTokenCount m + gu_CandidatesTokenCount m))
    (Some (mkPromptTokensDetails (gu_CachedContentTokenCount m))).

Definition g_usage (r : gResponse) : option Usage :=
  match gr_UsageMetadata r with None => None | Some m => Some (g_toUsage m) end.

Definition geminiFinish (reason : string) (hasTools : bool) : string :=
  if hasTools then "tool_calls"
  else if String.eqb reason "MAX_TOKENS" then "length"
  else if existsb (String.eqb reason) ["SAFETY"; "RECITATION"; "PROHIBITED_CONTENT"; "BLOCKLIST"; "SPII"] then "content_filter"
  else if String.eqb reason "" then ""
  else "stop".

(** The call of a part, numbered. *)
Definition g_call (index : option Z) (i : Z) (f : gFuncCall) : ToolCall :=
  mkToolCall index ("call_" +:+ itoa i) "function" (mkFunctionCall (gf_Name f) (if String.eqb (gf_Args f) "" then "{}" else gf_Args f)).

(** The loop of [Chat] over the parts of a candidate. *)
Definition chat_parts (parts : list gPart) : string * list ToolCall :=
  for_range parts ("", []) (fun '(text, calls) p =>
    (text +:+ gp_Text p,
     match gp_FunctionCall p with Some f => calls ++ [g_call None (Z.of_nat (length calls)) f] | None => calls end)).

Definition to_gresponse (model : string) (r : gResponse) : ChatResponse :=
  let '(text, calls, finish) :=
    match gr_Candidates r with
    | c :: _ => let '(text, calls) := chat_parts (tu_Blocks (ca_Content c)) in (text, calls, geminiFinish (ca_FinishReason c) (negb (bool_decide (calls = []))))
    | [] => ("", [], "stop")
    end in
  mkChatResponse "" "chat.completion" 0 model [mkChoice 0 (mkMessage "assistant" (text_content text) "" calls "") finish] (g_usage r).

(** ** The stream *)

Record geminiStream := mkGeminiStream {
  gs_name : string; gs_model : string; gs_started : bool; gs_tools : Z; gs_usage : option Usage; gs_finished : bool }.

Definition g_chunk (s : geminiStream) (choices : list ChunkChoice) (u : option Usage) : ChatChunk :=
  mkChatChunk "" "chat.completion.chunk" 0 (gs_model s) choices u.

(** The loop of [Recv] over the parts: the text, the calls and the counter. *)
Definition stream_parts (tools : Z) (parts : list gPart) : string * list ToolCall * Z :=
  for_range parts ("", [], tools) (fun '(text, calls, tools) p =>
    let '(calls, tools) := match gp_FunctionCall p with Some f => (calls ++ [g_call (Some tools) tools f], tools + 1) | None => (calls, tools) end in
    (text +:+ gp_Text p, calls, tools)).

Definition on_gresponse (s : geminiStream) (r : gResponse) : geminiStream * option received :=
  let s := mkGeminiStream (gs_name s) (gs_model s) (gs_started s) (gs_tools s) (match g_usage r with Some u => Some u | None => gs_usage s end) (gs_finished s) in
  match gr_Candidates r with
  | [] => (s, None)
  | c :: _ =>
      let role := if gs_started s then "" else "assistant" in
      let '(text, calls, tools) := stream_parts (gs_tools s) (tu_Blocks (ca_Content c)) in
      let s := mkGeminiStream (gs_name s) (gs_model s) true tools (gs_usage s) (gs_finished s) in
      let f := geminiFinish (ca_FinishReason c) ((0 <? tools) && negb (String.eqb (ca_FinishReason c) "")) in
      (s, Some (RChunk (g_chunk s [mkChunkChoice 0 (mkChunkDelta role text calls) (if String.eqb f "" then None else Some f)] None)))
  end.

Definition on_gdata (s : geminiStream) (data : string) : geminiStream * option received :=
  match unmarshal_gresponse data with
  | inl err => (s, Some (RFail (ErrProvider (mkProviderError (gs_name s) 502 ("bad chunk: " +:+ err) true 0))))
  | inr r => on_gresponse s r
  end.

Definition g_at_end (s : geminiStream) (e : sse_error) : geminiStream * received :=
  match e, gs_usage s with
  | EOF, Some u =>
      if gs_finished s then (s, REnd)
      else (mkGeminiStream (gs_name s) (gs_model s) (gs_started s) (gs_tools s) (gs_usage s) true, RChunk (g_chunk s [] (Some u)))
  | _, _ => (s, read_failed (gs_name s) e)
  end.

Definition gRecv := Recv (fun _ => false) on_gdata g_at_end.
Definition gStream := stream_all (fun _ => false) on_gdata g_at_end.

(** ** The adapter *)

Section Calls.
Context {W : Type} (client_do : W -> HttpRequest -> (string + HttpResponse) * W) (ctx_err : W -> option go_error) (now : W -> Time)
  (url_error : string -> option string) (error_body : string -> option (string * string)) (http_date : string -> option Time).

Definition gPost (c : AdapterConfig W) (path : string) (body : string + string) : W -> (go_error + HttpResponse) * W :=
  post client_do ctx_err now url_error error_body http_date gemini_style c path body.

Definition Gemini_Chat (c : AdapterConfig W) (model : string) (req : ChatRequest) (w : W) : (go_error + ChatResponse) * W :=
  match toGemini req with
  | inl e => (inl e, w)
  | inr body =>
      match gPost c ("/v1beta/models/" +:+ model +:+ ":generateContent") (marshal_gemini body) w with
      | (inl e, w) => (inl e, w)
      | (inr resp, w) =>
          match decode_response decode_gresponse "bad JSON: " c resp with
          | inl e => (inl e, w)
          | inr r => (inr (to_gresponse model r), w)
          end
      end
  end.

Definition open_gStream (c : AdapterConfig W) (model : string) (resp : HttpResponse) : option (list ChatChunk * option go_error) :=
  gStream (NewReaderWithLimit (hs_Body resp) (hs_End resp) (ac_MaxResponseBytes c)) (mkGeminiStream (ac_Name c) model false 0 None false).

Definition Gemini_ChatStream (c : AdapterConfig W) (model : string) (req : ChatRequest) (w : W) :
    option ((go_error + list ChatChunk * option go_error) * W) :=
  match toGemini req with
  | inl e => Some (inl e, w)
  | inr body =>
      match gPost c ("/v1beta/models/" +:+ model +:+ ":streamGenerateContent?alt=sse") (marshal_gemini body) w with
      | (inl e, w) => Some (inl e, w)
      | (inr resp, w) => match open_gStream c model resp with Some r => Some (inr r, w) | None => None end
      end
  end.

Definition Gemini_Embed (c : AdapterConfig W) (model : string) (req : EmbeddingRequest) (w : W) : (go_error + EmbeddingResponse) * W :=
  let body := map (fun text => ("models/" +:+ model, mkTurn "" [text_part text])) (eq_Input req) in
  match gPost c ("/v1beta/models/" +:+ model +:+ ":batchEmbedContents") (marshal_gembed body) w with
  | (inl e, w) => (inl e, w)
  | (inr resp, w) =>
      match decode_response decode_gembed "bad JSON: " c resp with
      | inl e => (inl e, w)
      | inr vectors =>
          let tokens := for_range (eq_Input req) 0 (fun n text => n + EstimateTokens text) in
          (inr (mkEmbeddingResponse "list" (imap (fun i v => mkEmbedding "embedding" (Z.of_nat i) v) vectors) model (mkUsage tokens 0 tokens None)), w)
      end
  end.
End Calls.
End Gemini.

(** ** A streamed answer is the answer *)

Definition head_parts (r : gResponse) : list gPart := match gr_Candidates r with c :: _ => tu_Blocks (ca_Content c) | [] => [] end.
Definition head_reason (r : gResponse) : string := match gr_Candidates r with c :: _ => ca_FinishReason c | [] => "" end.
Definition latest_usage (u : option gUsage) (rs : list gResponse) : option gUsage :=
  fold_left (fun u r => match gr_UsageMetadata r with Some m => Some m | None => u end) rs u.

(** The responses of a stream carry an answer piece by piece: only the last one that
    has a candidate gives the reason it ended, and the last usage is the usage. *)
Definition pieces_of (r : gResponse) (rs : list gResponse) : Prop :=
  exists body last tail, rs = body ++ last :: tail /\
    Forall (fun x => head_reason x = "") body /\ Forall (fun x => gr_Candidates x = []) tail /\
    gr_Candidates last <> [] /\ head_reason last <> "" /\ head_reason last = head_reason r /\
    flat_map head_parts (body ++ [last]) = head_parts r /\ latest_usage None rs = gr_UsageMetadata r.

Definition with_model (model : string) (r : ChatResponse) : ChatResponse :=
  mkChatResponse (cr_ID r) (cr_Object r) (cr_Created r) model (cr_Choices r) (cr_Usage r).

Definition part_calls (parts : list gPart) : list gFuncCall := omap gp_FunctionCall parts.
Definition parts_text (parts : list gPart) : string := concat_strings (map gp_Text parts).
(** Calls numbered from [n] on. *)
Definition calls_from (index : nat -> option Z) (n : nat) (fs : list gFuncCall) : list ToolCall :=
  imap (fun i f => g_call (index (n + i)%nat) (Z.of_nat (n + i)) f) fs.

Lemma calls_from_app index n a b : calls_from index n (a ++ b) = calls_from index n a ++ calls_from index (n + length a) b.
Proof.
  unfold calls_from. rewrite imap_app. f_equal. apply imap_ext. intros i f _. cbn. by replace (n + length a + i)%nat with (n + (length a + i))%nat by lia.
Qed.

Lemma calls_from_length index n fs : length (calls_from index n fs) = length fs.
Proof. apply length_imap. Qed.

Lemma part_calls_app a b : part_calls (a ++ b) = part_calls a ++ part_calls b.
Proof. apply omap_app. Qed.

Lemma parts_text_app a b : parts_text (a ++ b) = parts_text a +:+ parts_text b.
Proof. unfold parts_text. by rewrite map_app, concat_strings_app. Qed.

Lemma chat_parts_spec parts : chat_parts parts = (parts_text parts, calls_from (fun _ => None) 0 (part_calls parts)).
Proof.
  unfold chat_parts, for_range. induction parts as [|p parts IH] using rev_ind; [done|].
  rewrite fold_left_app, IH, parts_text_app, part_calls_app, calls_from_app. cbn [fold_left]. rewrite calls_from_length.
  unfold parts_text at 2. cbn. rewrite sapp_nil_r. f_equal. destruct (gp_FunctionCall p) as [f|]; cbn; [|by rewrite app_nil_r].
  by rewrite Nat.add_0_r.
Qed.

Lemma stream_parts_spec n parts : stream_parts (Z.of_nat n) parts =
  (parts_text parts, calls_from (fun i => Some (Z.of_nat i)) n (part_calls parts), Z.of_nat (n + length (part_calls parts))).
Proof.
  unfold stream_parts, for_range. induction parts as [|p parts IH] using rev_ind; [cbn; by rewrite Nat.add_0_r|].
  rewrite fold_left_app, IH, parts_text_app, part_calls_app, calls_from_app, length_app. cbn [fold_left].
  unfold parts_text at 2. cbn. rewrite sapp_nil_r. destruct (gp_FunctionCall p) as [f|]; cbn.
  - rewrite Nat.add_0_r. repeat f_equal. lia.
  - rewrite app_nil_r. repeat f_equal. lia.
Qed.

Lemma add_tools_numbered ts fs : add_tools ts (calls_from (fun i => Some (Z.of_nat i)) (length ts) fs) =
  Some (ts ++ calls_from (fun _ => None) (length ts) fs).
Proof.
  revert ts. induction fs as [|f fs IH]; intros ts; [cbn; by rewrite app_nil_r|].
  change (f :: fs) with ([f] ++ fs). rewrite !calls_from_app. cbn [calls_from app imap length].
  rewrite Nat.add_0_r. cbn [app add_tools].
  change (g_call (Some (Z.of_nat (length ts))) (Z.of_nat (length ts)) f) with (indexed_tool (length ts) (g_call None (Z.of_nat (length ts)) f)).
  rewrite add_tool_next. cbn [mbind option_bind]. specialize (IH (ts ++ [assembled_tool (g_call None (Z.of_nat (length ts)) f)])).
  rewrite length_app in IH. cbn [length] in IH. by rewrite IH, <- app_assoc.
Qed.

Section Equivalence.
Context `{GeminiJson}.
Abbreviation run_gevents := (run_events (fun _ => false) on_gresponse g_at_end).
Abbreviation yields := (yields (fun _ => false) on_gresponse g_at_end).

(** Neither an identifier nor a model reaches the assembler. *)
Definition asm (text : string) (ts : list ToolCall) (fin : string) (u : option Usage) : Assembler := mkAssembler "" "" 0 text ts fin u.

(** The receiver after the calls [fs] and the usage [u]. *)
Record telling (s : geminiStream) (fs : list gFuncCall) (u : option gUsage) : Prop := {
  te_tools : gs_tools s = Z.of_nat (length fs);
  te_usage : gs_usage s = option_map g_toUsage u;
  te_finished : gs_finished s = false
}.

Lemma geminiFinish_some reason b : reason <> "" -> geminiFinish reason b <> "".
Proof.
  intros Hr. unfold geminiFinish. destruct b; [done|]. destruct (String.eqb reason "MAX_TOKENS"); [done|].
  destruct (existsb _ _); [done|]. by destruct (String.eqb_spec reason "").
Qed.

Definition finish_after (fin : string) (reason : string) (calls : nat) : string :=
  if String.eqb reason "" then fin else geminiFinish reason (0 <? Z.of_nat calls).

Lemma reason_chunk reason n : (if String.eqb (geminiFinish reason ((0 <? n) && negb (String.eqb reason ""))) "" then None
    else Some (geminiFinish reason ((0 <? n) && negb (String.eqb reason "")))) =
  if String.eqb reason "" then None else Some (geminiFinish reason (0 <? n)).
Proof.
  destruct (String.eqb_spec reason "") as [->|Hr]; [by rewrite andb_false_r|]. rewrite andb_true_r.
  destruct (String.eqb_spec (geminiFinish reason (0 <? n)) ""); [|done]. by edestruct geminiFinish_some.
Qed.

Abbreviation numbered_calls := (calls_from (fun _ => None) 0).

Lemma response_told s fs u r text fin : telling s fs u ->
  let fs' := fs ++ part_calls (head_parts r) in
  exists s' cs, yields s [r] s' cs /\ telling s' fs' (latest_usage u [r]) /\
    Assembler_AddAll (asm text (numbered_calls fs) fin None) cs =
      Some (asm (text +:+ parts_text (head_parts r)) (numbered_calls fs') (finish_after fin (head_reason r) (length fs')) None).
Proof.
  intros [Ht Hu Hf] fs'. unfold fs', head_parts, head_reason, finish_after.
  set (u' := match g_usage r with Some u => Some u | None => gs_usage s end).
  assert (u' = option_map g_toUsage (latest_usage u [r])) as Eu.
  { unfold u', latest_usage, g_usage. cbn [fold_left]. by destruct (gr_UsageMetadata r). }
  destruct (gr_Candidates r) as [|c cs] eqn:Ec.
  - exists (mkGeminiStream (gs_name s) (gs_model s) (gs_started s) (gs_tools s) u' (gs_finished s)), [].
    cbn [omap part_calls]. rewrite app_nil_r, sapp_nil_r. split_and!; [|by split|done].
    apply yields_skip; [done|]. unfold on_gresponse. by rewrite Ec.
  - set (parts := tu_Blocks (ca_Content c)). set (n := (length fs + length (part_calls parts))%nat).
    eexists (mkGeminiStream (gs_name s) (gs_model s) true (Z.of_nat n) u' (gs_finished s)), [_]. split_and!.
    + apply yields_chunk; [done|]. unfold on_gresponse. rewrite Ec. fold parts. cbn [gs_tools gs_name gs_model gs_usage gs_finished gs_started].
      rewrite Ht, stream_parts_spec. rewrite reason_chunk. reflexivity.
    + split; [|done|done]. cbn [gs_tools]. by rewrite length_app.
    + rewrite length_app, calls_from_app. fold n. unfold Assembler_AddAll, Assembler_Add, asm. cbn.
      unfold add_choice. cbn [cc_Index cc_Delta cd_ToolCalls]. cbn.
      pose proof (add_tools_numbered (numbered_calls fs) (part_calls parts)) as Ha. rewrite calls_from_length in Ha. rewrite Ha. cbn.
      by destruct (String.eqb (ca_FinishReason c) "").
Qed.

Lemma responses_told rs : Forall (fun r => head_reason r = "") rs -> forall s fs u text fin, telling s fs u ->
  let fs' := fs ++ part_calls (flat_map head_parts rs) in
  exists s' cs, yields s rs s' cs /\ telling s' fs' (latest_usage u rs) /\
    Assembler_AddAll (asm text (numbered_calls fs) fin None) cs =
      Some (asm (text +:+ parts_text (flat_map head_parts rs)) (numbered_calls fs') fin None).
Proof.
  induction 1 as [|r rs Hr Hrs IH]; intros s fs u text fin Hs; cbn [flat_map].
  - exists s, []. cbn [omap part_calls]. rewrite app_nil_r, sapp_nil_r. split_and!; [apply yields_nil|done|done].
  - destruct (response_told s fs u r text fin Hs) as (s1 & cs1 & Hy1 & Hs1 & Ha1).
    destruct (IH s1 _ _ (text +:+ parts_text (head_parts r)) fin Hs1) as (s2 & cs2 & Hy2 & Hs2 & Ha2).
    exists s2, (cs1 ++ cs2). rewrite part_calls_app, parts_text_app, app_assoc, <- sapp_assoc. split_and!.
    + by eapply yields_cons.
    + exact Hs2.
    + rewrite AddAll_app, Ha1. unfold finish_after. by rewrite Hr.
Qed.

Lemma no_candidates tail : Forall (fun r => gr_Candidates r = []) tail ->
  Forall (fun r => head_reason r = "") tail /\ flat_map head_parts tail = [].
Proof.
  induction 1 as [|r tail Hr _ [IH1 IH2]]; [done|]. unfold head_parts, head_reason in *. cbn [flat_map]. rewrite Hr. split; [|done].
  constructor; [by rewrite Hr|done].
Qed.

(** At the end of the body the usage is sent, if there was one. *)
Lemma told_ends s fs u : telling s fs u -> exists cs, run_gevents EOF [] s = (cs, None) /\ forall text ts fin,
  Assembler_AddAll (asm text ts fin None) cs = Some (asm text ts fin (option_map g_toUsage u)).
Proof.
  intros [_ Hu Hf]. cbn [run_events]. unfold g_at_end. rewrite Hu, Hf. destruct u as [u|]; cbn; by eexists.
Qed.

Lemma to_gresponse_calls r model : gr_Candidates r <> [] ->
  to_gresponse model r = mkChatResponse "" "chat.completion" 0 model
    [mkChoice 0 (mkMessage "assistant" (text_content (parts_text (head_parts r))) "" (numbered_calls (part_calls (head_parts r))) "")
       (geminiFinish (head_reason r) (0 <? Z.of_nat (length (part_calls (head_parts r)))))] (g_usage r).
Proof.
  unfold to_gresponse, head_parts, head_reason. destruct (gr_Candidates r) as [|c cs]; [done|]. intros _. rewrite chat_parts_spec.
  repeat f_equal. by destruct (part_calls _).
Qed.

Lemma pieces_run name model r rs : pieces_of r rs ->
  exists chunks asm', run_gevents EOF rs (mkGeminiStream name model false 0 None false) = (chunks, None) /\
    Assembler_AddAll empty_assembler chunks = Some asm' /\ Assembler_Response asm' = with_model "" (to_gresponse model r).
Proof.
  intros (body & last & tail & -> & Hb & Htail & Hc & Hne & Hreason & Hparts & Hu).
  destruct (no_candidates tail Htail) as [Hr Hp].
  destruct (responses_told body Hb (mkGeminiStream name model false 0 None false) [] None "" "" ltac:(by split)) as (s1 & cs1 & Hy1 & Hs1 & Ha1).
  set (t1 := "" +:+ parts_text (flat_map head_parts body)) in *. destruct (response_told s1 _ _ last t1 "" Hs1) as (s2 & cs2 & Hy2 & Hs2 & Ha2).
  destruct (responses_told tail Hr s2 _ _ (t1 +:+ parts_text (head_parts last))
    (finish_after "" (head_reason last) (length (([] ++ part_calls (flat_map head_parts body)) ++ part_calls (head_parts last)))) Hs2) as (s3 & cs3 & Hy3 & Hs3 & Ha3).
  destruct (told_ends s3 _ _ Hs3) as (cs4 & Hrun & Ha4).
  eexists (cs1 ++ cs2 ++ cs3 ++ cs4), _. split_and!.
  - change (last :: tail) with ([last] ++ tail). rewrite Hy1, Hy2, <- (app_nil_r tail), Hy3, Hrun. done.
  - rewrite AddAll_app. change empty_assembler with (asm "" (numbered_calls []) "" None). rewrite Ha1. cbn [mbind option_bind].
    rewrite AddAll_app, Ha2. cbn [mbind option_bind]. rewrite AddAll_app, Ha3. cbn [mbind option_bind]. apply Ha4.
  - rewrite flat_map_app in Hparts. cbn [flat_map] in Hparts. rewrite app_nil_r in Hparts.
    rewrite to_gresponse_calls by (intros E; unfold head_reason in Hreason; by rewrite E in Hreason).
    unfold Assembler_Response, with_model, asm. cbn. unfold t1.
    rewrite Hp. cbn [omap part_calls app]. rewrite app_nil_r, sapp_nil_l, <- parts_text_app, <- part_calls_app, Hparts, sapp_nil_r.
    unfold finish_after. destruct (String.eqb_spec (head_reason last) ""); [done|]. rewrite Hreason. f_equal.
    unfold latest_usage in *. rewrite fold_left_app in Hu. cbn [fold_left] in Hu. cbn [fold_left]. rewrite Hu. unfold g_usage. by destruct (gr_UsageMetadata r).
Qed.
End Equivalence.

(** C23. Streaming gives the answer of [Chat] but for one field: the chunks of a stream
    whose responses carry an answer piece by piece assemble to the response that
    [Chat] makes of it, with the same text, numbered calls, reason and usage, and
    without the name of the model, since the chunks have no identifier. *)
Theorem gemini_stream_is_chat `{GeminiJson} {W : Type} (c : AdapterConfig W) (model : string) (r : gResponse)
  (resp : HttpResponse) (es : list Event) (rs : list gResponse) :
  0 < ac_MaxResponseBytes c ->
  hs_Body resp = concat_strings (map event_bytes es) -> hs_End resp = EOF ->
  Forall (fun e => writable e /\ slen (event_bytes e) <= ac_MaxResponseBytes c) es ->
  Forall2 (fun e x => unmarshal_gresponse (ev_Data e) = inr x) es rs ->
  pieces_of r rs ->
  exists chunks asm, open_gStream c model resp = Some (chunks, None) /\
    Assembler_AddAll empty_assembler chunks = Some asm /\ Assembler_Response asm = with_model "" (to_gresponse model r).
Proof.
  intros Hmax Hbody Hend [Hw Hsize]%Forall_and Hjson Hp.
  destruct (pieces_run (ac_Name c) model r rs Hp) as (chunks & asm' & Hrun & Hasm & Hresp).
  exists chunks, asm'. split; [|done]. unfold open_gStream, gStream, NewReaderWithLimit. destruct (Z.leb_spec (ac_MaxResponseBytes c) 0); [lia|].
  rewrite Hbody, Hend, stream_written; [|..|done|done|done].
  - f_equal. rewrite <- Hrun. apply run_events_decoded, Forall2_fmap_l. eapply Forall2_impl; [exact Hjson|].
    intros e x He s. unfold on_gdata. by rewrite He.
  - intros s e s' ch. unfold g_at_end. destruct e, (gs_usage s) eqn:Eu; try done. destruct (gs_finished s) eqn:Ef; [done|].
    intros [= <- _]. done.
Qed.

(** ** What a request becomes *)

Section Requests.
Context `{GeminiJson}.

(** The calls of the assistant in some messages, and the name of the latest with an id. *)
Definition calls_made (ms : list Message) : list ToolCall :=
  flat_map (fun m => if String.eqb (m_Role m) "assistant" then m_ToolCalls m else []) ms.
Definition latest_name (id : string) (calls : list ToolCall) : option string :=
  last (map (fun tc => fc_Name (tc_Function tc)) (List.filter (fun tc => String.eqb (tc_ID tc) id) calls)).

(** What a message says after the messages [before]; [None] is a message that cannot
    be translated. *)
Definition message_parts (before : list Message) (m : Message) : option (list (string * gPart)) :=
  if is_system m then Some []
  else if String.eqb (m_Role m) "user" then Some (map (pair "user") (g_user_parts (m_Content m)))
  else if String.eqb (m_Role m) "assistant" then Some (map (pair "model") (g_assistant_parts m))
  else if String.eqb (m_Role m) "tool" then
    match latest_name (m_ToolCallID m) (calls_made before) with
    | Some name => Some [("user", result_part name (Content_PlainText (m_Content m)))]
    | None => None
    end
  else None.

Fixpoint conversation (before ms : list Message) : option (list (string * gPart)) :=
  match ms with
  | [] => Some []
  | m :: ms =>
      match message_parts before m with
      | None => None
      | Some parts => match conversation (before ++ [m]) ms with Some rest => Some (parts ++ rest) | None => None end
      end
  end.

Definition names_of (names : gmap string string) (calls : list ToolCall) : Prop := forall id, names !! id = latest_name id calls.

Lemma latest_name_snoc id calls tc : latest_name id (calls ++ [tc]) =
  if String.eqb (tc_ID tc) id then Some (fc_Name (tc_Function tc)) else latest_name id calls.
Proof.
  unfold latest_name. rewrite List.filter_app, map_app. cbn [List.filter]. destruct (String.eqb (tc_ID tc) id); cbn [map]; [apply last_snoc|by rewrite app_nil_r].
Qed.

Lemma name_calls_latest m names calls : names_of names calls -> names_of (name_calls m names) (calls ++ m_ToolCalls m).
Proof.
  unfold name_calls, for_range. intros Hn. induction (m_ToolCalls m) as [|tc tcs IH] using rev_ind; [by rewrite app_nil_r|].
  rewrite fold_left_app. cbn [fold_left]. intros id. rewrite app_assoc, latest_name_snoc.
  destruct (String.eqb_spec (tc_ID tc) id) as [->|Hne]; [by rewrite lookup_insert_eq|]. by rewrite lookup_insert_ne.
Qed.

Definition sound (st : translation) (before : list Message) (said : list (string * gPart)) : Prop :=
  names_of (tr_names st) (calls_made before) /\ alternates (tr_contents st) = true /\ spoken (tr_contents st) = said /\
  tr_system st = map text_part (system_texts before).

Lemma add_content_sound role parts st before said : sound st before said -> sound (add_content role parts st) before (said ++ map (pair role) parts).
Proof.
  intros (Hn & Ha & Hs & Hsys). split_and!; [done|by apply add_turn_alternates| |done]. cbn [tr_contents add_content]. by rewrite add_turn_spoken, Hs.
Qed.

Lemma add_user_parts ps : forall st before said, sound st before said ->
  sound (for_range ps st (fun st p => add_content "user" [p] st)) before (said ++ map (pair "user") ps).
Proof.
  unfold for_range. induction ps as [|p ps IH]; intros st before said Hs; [by rewrite app_nil_r|]. cbn [fold_left map].
  change ((?x :: ?l)) with ([x] ++ l). rewrite app_assoc. apply IH. by apply (add_content_sound "user" [p]).
Qed.

Lemma sound_snoc st before said m : sound st before said -> String.eqb (m_Role m) "assistant" = false -> is_system m = false -> sound st (before ++ [m]) said.
Proof.
  intros (Hn & Ha & Hs & Hsys) Hr Hsy. unfold sound, calls_made, system_texts in *. rewrite flat_map_app, List.filter_app. cbn [flat_map List.filter].
  rewrite Hr, Hsy, !app_nil_r. by split_and!.
Qed.

Lemma g_add_message_spec st before said m : sound st before said ->
  match g_add_message st m with
  | inl e => message_parts before m = None /\ exists msg, e = ErrApi (BadRequest msg)
  | inr st' => exists parts, message_parts before m = Some parts /\ sound st' (before ++ [m]) (said ++ parts)
  end.
Proof.
  intros Hs. pose proof Hs as (Hn & Ha & Hsp & Hsys). unfold g_add_message, message_parts. fold (is_system m).
  destruct (is_system m) eqn:Hsy.
  { exists []. split; [done|]. unfold sound, calls_made, system_texts in *. rewrite flat_map_app, List.filter_app, map_app. cbn [flat_map List.filter map].
    assert (String.eqb (m_Role m) "assistant" = false) as ->.
    { by apply orb_true_iff in Hsy as [E|E]; apply String.eqb_eq in E; rewrite E. }
    rewrite Hsy, !app_nil_r. split_and!; try done. cbn [tr_system]. rewrite Hsys, map_app. done. }
  destruct (String.eqb_spec (m_Role m) "user") as [Eu|_].
  { eexists. split; [done|]. apply sound_snoc; [by apply add_user_parts|by rewrite Eu|done]. }
  destruct (String.eqb_spec (m_Role m) "assistant") as [Ea|_].
  - set (st1 := mkTranslation _ _ _). assert (sound st1 (before ++ [m]) said) as Hs1.
    { unfold sound, calls_made, system_texts in *. rewrite flat_map_app, List.filter_app. cbn [flat_map List.filter]. rewrite Ea, Hsy, !app_nil_r. cbn [String.eqb Ascii.eqb Bool.eqb].
      split_and!; try done. cbn [tr_names st1]. by apply name_calls_latest. }
    destruct (g_assistant_parts m) as [|p ps] eqn:Ep; eexists; (split; [done|]).
    + by rewrite app_nil_r.
    + by apply add_content_sound.
  - destruct (String.eqb_spec (m_Role m) "tool") as [Et|_]; [|by split; [|eexists]].
    rewrite Hn. destruct (latest_name _ _) as [name|]; [|by split; [|eexists]].
    eexists. split; [done|]. apply sound_snoc; [by apply (add_content_sound "user" [_])|by rewrite Et|done].
Qed.

Lemma g_add_messages_spec ms : forall st before said, sound st before said ->
  match g_add_messages st ms with
  | inl e => conversation before ms = None /\ exists msg, e = ErrApi (BadRequest msg)
  | inr st' => exists parts, conversation before ms = Some parts /\ sound st' (before ++ ms) (said ++ parts)
  end.
Proof.
  induction ms as [|m ms IH]; intros st before said Hs; cbn [g_add_messages conversation]; [exists []; by rewrite !app_nil_r|].
  pose proof (g_add_message_spec st before said m Hs) as Hm. destruct (g_add_message st m) as [e|st1]; [by destruct Hm as [-> ?]|].
  destruct Hm as (parts & -> & Hs1). specialize (IH st1 _ _ Hs1). destruct (g_add_messages st1 ms) as [e|st2].
  - by destruct IH as [-> ?].
  - destruct IH as (rest & -> & Hs2). eexists. split; [done|]. by rewrite app_assoc, <- (app_assoc before [m] ms) in *.
Qed.

(** A conversation is translated completely and in order, with alternating sides; the
    result of a tool is given under the name of the latest call with its identifier;
    and a conversation that cannot be told (an unknown role, a result that answers no
    call) is refused as the client's mistake. *)
Theorem toGemini_faithful (req : ChatRequest) :
  match toGemini req with
  | inr out => conversation [] (r_Messages req) = Some (spoken (ge_Contents out)) /\ alternates (ge_Contents out) = true /\
      ge_SystemInstruction out = match system_texts (r_Messages req) with [] => None | texts => Some (mkTurn "" (map text_part texts)) end
  | inl e => (exists msg, e = ErrApi (BadRequest msg)) /\
      (conversation [] (r_Messages req) = None \/ exists t err, t ∈ r_Tools req /\ cleanSchema (fd_Parameters (t_Function t)) = inl err)
  end.
Proof.
  unfold toGemini. pose proof (g_add_messages_spec (r_Messages req) (mkTranslation ∅ [] []) [] [] ltac:(by split_and!)) as Hs.
  destruct (g_add_messages _ _) as [e|st]; [by destruct Hs as [? ?]; split; [|left]|]. destruct Hs as (parts & Hc & (_ & Ha & Hsp & Hsys)).
  cbn [app] in *. rewrite Hc. 
  assert (forall ts, match declare ts with inl e => (exists msg, e = ErrApi (BadRequest msg)) /\ exists t err, t ∈ ts /\ cleanSchema (fd_Parameters (t_Function t)) = inl err | inr _ => True end) as Hd.
  { induction ts as [|t ts IH]; [done|]. cbn [declare]. destruct (cleanSchema _) as [err|params] eqn:Ec; [split; [by eexists|]; exists t, err; split; [constructor|done]|].
    destruct (declare ts) as [e|decls]; [|done]. destruct IH as [? (t' & err & ? & ?)]. split; [done|]. exists t', err. split; [by constructor|done]. }
  assert (match tr_system st with [] => None | parts => Some (mkTurn "" parts) end =
    match system_texts (r_Messages req) with [] => None | texts => Some (mkTurn "" (map text_part texts)) end) as Esys.
  { rewrite Hsys. by destruct (system_texts _). }
  destruct (r_Tools req) as [|t ts] eqn:Et; [split_and!; [by f_equal; symmetry|done|exact Esys]|].
  specialize (Hd (t :: ts)). destruct (declare (t :: ts)) as [e|decls]; [destruct Hd; by split; [|right]|].
  split_and!; [by f_equal; symmetry|done|exact Esys].
Qed.

(** *** Schemas *)

(** No object of a value has a key that Gemini rejects. *)
Fixpoint schema_clean (v : jval) : bool :=
  match v with
  | JObj l => forallb (fun kv => negb (rejected_key kv.1) && schema_clean kv.2) l
  | JArr l => forallb schema_clean l
  | _ => true
  end.

Lemma walk_clean v : schema_clean (walk v) = true /\ (schema_clean v = true -> walk v = v).
Proof.
  induction v as [t|s|l IH|l IH] using jval_nested; cbn [walk schema_clean]; [done|done| |].
  - split.
    + apply forallb_forall. intros x Hx. apply in_map_iff in Hx as (v & <- & Hv). rewrite Forall_forall in IH. apply IH. by apply list_elem_of_In.
    + intros Hc. f_equal. induction IH as [|v l [_ Hv] _ IHl]; [done|]. cbn in *. apply andb_true_iff in Hc as [H1 H2]. by rewrite Hv, IHl.
  - split.
    + induction IH as [|kv l [Hv _] _ IHl]; [done|]. cbn [flat_map]. destruct (rejected_key kv.1) eqn:Er; [done|]. cbn. by rewrite Er, Hv.
    + intros Hc. f_equal. induction IH as [|kv l [_ Hv] _ IHl]; [done|]. cbn in *. apply andb_true_iff in Hc as [H1 H2].
      apply andb_true_iff in H1 as [Hk H1]. apply negb_true_iff in Hk. rewrite Hk. cbn. rewrite Hv, IHl by done. by destruct kv.
Qed.

(** A call of an earlier turn whose arguments are not JSON makes [json.Marshal] fail.
    The error is not a provider error, so the attempt is repeated, fails over, and
    counts against the breakers; the Anthropic adapter refuses the request. *)
Theorem invalid_arguments_trip_breakers `{AnthropicJson} {W : Type} client_do ctx_err now url_error error_body http_date
  (c : AdapterConfig W) (model : string) (req : ChatRequest) (w : W) (out : geminiRequest) (err : string) :
  toGemini req = inr out -> marshal_gemini out = inl err -> forallb translatable (r_Messages req) = false ->
  Gemini_Chat client_do ctx_err now url_error error_body http_date c model req w = (inl (ErrOther err), w) /\
  classify (ErrOther err) = (retrySame, true) /\
  exists e, toAnthropic model req false = inl e /\ classify e = (done, false).
Proof.
  intros Ht Hm Hv. unfold Gemini_Chat, gPost, post. rewrite Ht, Hm. split_and!; [done..|].
  pose proof (toAnthropic_faithful model req false) as Ha. destruct (toAnthropic model req false) as [e|a].
  - destruct Ha as [_ [msg ->]]. by eexists.
  - destruct Ha as [Ha _]. congruence.
Qed.
End Requests.

(** ** Examples *)

Definition told_piece (parts : list gPart) (reason : string) : gResponse := mkGResponse [mkGCandidate (mkTurn "model" parts) reason] None.
Definition gemini_pieces : list gResponse :=
  [told_piece [text_part "Let me"] ""; told_piece [text_part " look."; call_part "weather" "{city}"] "";
   mkGResponse [mkGCandidate (mkTurn "model" [call_part "now" ""]) "STOP"] (Some (mkGUsage 10 4 0)); mkGResponse [] (Some (mkGUsage 10 7 5))].
Definition gemini_whole : gResponse :=
  mkGResponse [mkGCandidate (mkTurn "model" [text_part "Let me"; text_part " look."; call_part "weather" "{city}"; call_part "now" ""]) "STOP"] (Some (mkGUsage 10 7 5)).

Definition g_numbered (rs : list gResponse) : GeminiJson := {|
  unmarshal_any _ := inr (JScalar "null");
  marshal_any _ := "null";
  marshal_gemini _ := inl "invalid character 'o' looking for beginning of value";
  marshal_gembed _ := inr "{}";
  decode_gresponse _ _ := inr gemini_whole;
  unmarshal_gresponse d := match Atoi d with Some i => match rs !! Z.to_nat i with Some r => inr r | None => inl "no response" end | None => inl "no number" end;
  decode_gembed _ _ := inr []
|}.
Definition google : AdapterConfig unit := mkAdapterConfig "google" "https://generativelanguage.googleapis.com" "key" None [] 4096.

Lemma gemini_stream_is_chat_witness :
  exists chunks asm, open_gStream (H := g_numbered gemini_pieces) google "gemini-2.0-flash" (stream_reply 4) = Some (chunks, None) /\
    Assembler_AddAll empty_assembler chunks = Some asm /\ Assembler_Response asm = with_model "" (to_gresponse "gemini-2.0-flash" gemini_whole).
Proof.
  apply (gemini_stream_is_chat (H := g_numbered gemini_pieces) google "gemini-2.0-flash" gemini_whole (stream_reply 4) (number_events 4) gemini_pieces);
    [done|done|done| | |].
  - unfold number_events. cbn [map seq]. repeat constructor; vm_compute; done.
  - unfold number_events. cbn [map seq]. repeat (constructor; [reflexivity|]). constructor.
  - exists [told_piece [text_part "Let me"] ""; told_piece [text_part " look."; call_part "weather" "{city}"] ""],
      (mkGResponse [mkGCandidate (mkTurn "model" [call_part "now" ""]) "STOP"] (Some (mkGUsage 10 4 0))), [mkGResponse [] (Some (mkGUsage 10 7 5))].
    split_and!; [done|by repeat constructor|by repeat constructor|done..].
Defined.

Definition bad_history : ChatRequest :=
  plain_request "m" [plain_message "user" "Hi"; mkMessage "assistant" (text_content "") "" [mkToolCall None "t1" "function" (mkFunctionCall "f" "oops")] "";
    mkMessage "tool" (text_content "ok") "" [] "t1"].

(** The messages of the client are valid for the gateway, only the arguments of the old
    call are not JSON. *)
Lemma invalid_arguments_trip_breakers_witness :
  (Gemini_Chat (H := g_numbered []) (fun w _ => (inl "unreachable", w)) (fun _ => None) (fun _ => 0) (fun _ => None) (fun _ => None) (fun _ => None)
     google "gemini-2.0-flash" bad_history tt).1 = inl (ErrOther "invalid character 'o' looking for beginning of value").
Proof.
  destruct (invalid_arguments_trip_breakers (H := g_numbered []) (H0 := numbered []) (fun w _ => (inl "unreachable", w)) (fun _ => None) (fun _ => 0) (fun _ => None)
    (fun _ => None) (fun _ => None) google "gemini-2.0-flash" bad_history tt
    (mkGeminiRequest None [mkTurn "user" [text_part "Hi"]; mkTurn "model" [call_part "f" "oops"]; mkTurn "user" [result_part "f" "ok"]] None [])
    "invalid character 'o' looking for beginning of value") as [-> _]; [reflexivity..|done].
Defined.
