(* ===== verification/Registry.v ===== *)
(** * Building the runtime from the configuration (registry.go, server/runtime.go)

    The registry of adapters, the tool servers, and [BuildRuntime].  An accepted
    configuration builds, and every target of its routes has an adapter. *)

From S2P Require Import Prelude GoStrings GoFloat GoSort Breaker Config Api Execute Route Budget Sse McpProxy Serve Provider OpenAI Anthropic Gemini.

Open Scope string_scope.
Open Scope list_scope.
Open Scope Z_scope.

(** The interface of an adapter; a stream is its chunks and how it ends. *)
Record Adapter (W : Type) := mkAdapter {
  ad_Name : string;
  ad_Chat : string -> ChatRequest -> W -> (go_error + ChatResponse) * W;
  ad_ChatStream : string -> ChatRequest -> W -> option ((go_error + list ChatChunk * option go_error) * W);
  ad_Embed : string -> EmbeddingRequest -> W -> (go_error + EmbeddingResponse) * W }.
Arguments mkAdapter {W}.
Arguments ad_Name {W}.
Arguments ad_Chat {W}.
Arguments ad_ChatStream {W}.
Arguments ad_Embed {W}.

(** [Spec]: the type and what the adapters are configured with. *)
Record Spec (W : Type) := mkSpec { sp_Type : string; sp_Config : AdapterConfig W }.
Arguments mkSpec {W}.
Arguments sp_Type {W}.
Arguments sp_Config {W}.

Section Registry.
Context {W : Type} `{OpenAIJson} `{AnthropicJson} `{GeminiJson}
  (client_do : W -> HttpRequest -> (string + HttpResponse) * W) (ctx_err : W -> option go_error) (now : W -> Time)
  (url_error : string -> option string) (error_body : string -> option (string * string)) (http_date : string -> option Time).

Definition NewOpenAI (cfg : AdapterConfig W) : Adapter W :=
  let c := adapter_config cfg in
  mkAdapter (ac_Name c) (OpenAI_Chat client_do ctx_err now url_error error_body http_date c)
    (OpenAI_ChatStream client_do ctx_err now url_error error_body http_date c) (OpenAI_Embed client_do ctx_err now url_error error_body http_date c).

Definition NewAnthropic (cfg : AdapterConfig W) : Adapter W :=
  let c := adapter_config cfg in
  mkAdapter (ac_Name c) (Anthropic_Chat client_do ctx_err now url_error error_body http_date c)
    (Anthropic_ChatStream client_do ctx_err now url_error error_body http_date c) (fun _ _ w => (inl (Anthropic_Embed c), w)).

Definition NewGemini (cfg : AdapterConfig W) : Adapter W :=
  let c := adapter_config cfg in
  mkAdapter (ac_Name c) (Gemini_Chat client_do ctx_err now url_error error_body http_date c)
    (Gemini_ChatStream client_do ctx_err now url_error error_body http_date c) (Gemini_Embed client_do ctx_err now url_error error_body http_date c).

Abbreviation Registry := (gmap string (Adapter W)).

Definition new_adapter (s : Spec W) : option (Adapter W) :=
  if String.eqb (sp_Type s) "openai" then Some (NewOpenAI (sp_Config s))
  else if String.eqb (sp_Type s) "anthropic" then Some (NewAnthropic (sp_Config s))
  else if String.eqb (sp_Type s) "gemini" then Some (NewGemini (sp_Config s))
  else None.

Fixpoint register (r : Registry) (specs : list (Spec W)) : string + Registry :=
  match specs with
  | [] => inr r
  | s :: specs =>
      let name := ac_Name (sp_Config s) in
      if bool_decide (is_Some (r !! name)) then inl ("duplicate provider name " +:+ go_quote name)
      else match new_adapter s with
           | None => inl ("unknown provider type " +:+ go_quote (sp_Type s) +:+ " for " +:+ go_quote name)
           | Some p => register (<[name := p]> r) specs
           end
  end.

Definition NewRegistry (specs : list (Spec W)) : string + Registry := register ∅ specs.

Definition Get (r : Registry) (name : string) : option (Adapter W) := r !! name.

(** [sort.Strings] over the keys, which are distinct. *)
Definition Names (r : Registry) : list string := stable_sort String.ltb (map fst (map_to_list r)).

(** ** Configuration (config.go, runtime.go) *)

(** [keys] gives the source of a provider's key in the database, when there is one. *)
Definition provider_spec (getenv : string -> string) (keys : option (string -> option (W -> option string * W))) (maxRespBytes : Z) (p : ProviderConfig) : Spec W :=
  let key := if String.eqb (pv_APIKeyEnv p) "" then "" else getenv (pv_APIKeyEnv p) in
  let kf := match keys with Some keys => if pv_APIKeyDB p then keys (pv_Name p) else None | None => None end in
  mkSpec (pv_Type p) (mkAdapterConfig (pv_Name p) (pv_BaseURL p) key kf (map_to_list (pv_Headers p)) maxRespBytes).

Definition ProviderSpecs (c : Config) (getenv : string -> string) (keys : option (string -> option (W -> option string * W))) : list (Spec W) :=
  let m := sv_MaxUpstreamResponseBytes (Config.Server c) in
  map (provider_spec getenv keys (if m <=? 0 then 32 * 2 ^ 20 else m)) (Providers c).

Definition ResolveMCP (cfg : Config) (getenv : string -> string) : gmap string MCPUpstream :=
  for_range (MCPServers cfg) ∅ (fun out s =>
    <[ms_Name s := mkUpstream (ms_Name s) (ms_URL s) (map_to_list (getenv <$> ms_Headers s))]> out).

(** The runtime; the breakers, which [New] keeps a pointer to, are an argument of the
    router's operations. *)
Record BuiltRuntime := mkBuiltRuntime {
  br_Config : Config; br_Router : Router; br_Registry : Registry; br_Pricing : Budget.Pricing; br_MCP : gmap string MCPUpstream }.

Definition BuildRuntime (cfg : Config) (getenv : string -> string)
    (keys : option (string -> option (W -> option string * W))) : string + BuiltRuntime :=
  match NewRegistry (ProviderSpecs cfg getenv keys) with
  | inl e => inl e
  | inr reg => inr (mkBuiltRuntime cfg (New cfg) reg (NewPricing (Config.Pricing cfg)) (ResolveMCP cfg getenv))
  end.

(** ** An accepted configuration builds *)

Lemma validate_providers_sound url_parse seen l : validate_providers url_parse seen l = [] ->
  NoDup (map pv_Name l) /\ Forall (fun p => pv_Name p ∉ seen /\ pv_Type p ∈ ["openai"; "anthropic"; "gemini"]) l.
Proof.
  revert seen. induction l as [|p l IH]; intros seen Hv; cbn [validate_providers] in Hv; [by repeat constructor|]. split_nil.
  match goal with H : validate_providers _ _ _ = [] |- _ => destruct (IH _ H) as [Hnd Hall] end.
  match goal with H : bool_decide _ = false |- _ => apply bool_decide_eq_false in H as Hseen end.
  match goal with H : negb (one_of _ _) = false |- _ => apply negb_false_iff, one_of_elem in H as Hty end.
  split; constructor; try done.
  - intros (q & Eq & Hq)%list_elem_of_fmap. eapply Forall_forall in Hall as [Hn _]; [|exact Hq]. apply Hn. rewrite <- Eq. constructor.
  - eapply Forall_impl; [exact Hall|]. intros q [Hq ?]. split; [|done]. intros Hin. apply Hq. by constructor.
Qed.

Lemma new_adapter_known s : sp_Type s ∈ ["openai"; "anthropic"; "gemini"] -> exists a, new_adapter s = Some a /\ ad_Name a = ac_Name (sp_Config s).
Proof.
  intros Hs. unfold new_adapter. rewrite !elem_of_cons in Hs. destruct Hs as [->|[->|[->|[]%not_elem_of_nil]]]; by eexists.
Qed.

(** Distinct names and known types are all the registry needs. *)
Lemma register_all specs : forall r, NoDup (map (fun s => ac_Name (sp_Config s)) specs) ->
  Forall (fun s => r !! ac_Name (sp_Config s) = None /\ sp_Type s ∈ ["openai"; "anthropic"; "gemini"]) specs ->
  exists r', register r specs = inr r' /\ forall name,
    (name ∈ map (fun s => ac_Name (sp_Config s)) specs -> exists a, r' !! name = Some a /\ ad_Name a = name) /\
    (name ∉ map (fun s => ac_Name (sp_Config s)) specs -> r' !! name = r !! name).
Proof.
  induction specs as [|s specs IH]; intros r Hnd Hall; cbn [register map] in *.
  { exists r. split; [done|]. intros name. split; [by intros ?%not_elem_of_nil|done]. }
  apply NoDup_cons in Hnd as [Hni Hnd]. apply Forall_cons in Hall as [[Hr Hty] Hall].
  rewrite bool_decide_false by (rewrite Hr; by intros ?%is_Some_None).
  destruct (new_adapter_known s Hty) as (a & -> & Hname). destruct (IH (<[ac_Name (sp_Config s) := a]> r) Hnd) as (r' & -> & Hr').
  - rewrite Forall_forall in Hall |- *. intros q Hq. destruct (Hall q Hq). split; [|done]. rewrite lookup_insert_ne; [done|].
    intros E. apply Hni. rewrite E. apply list_elem_of_fmap. by exists q.
  - exists r'. split; [done|]. intros name. specialize (Hr' name) as [Hin Hout]. split.
    + intros [->|Hn]%elem_of_cons; [|by apply Hin]. rewrite Hout, lookup_insert_eq by done. by exists a.
    + intros [Hne Hn]%not_elem_of_cons. by rewrite Hout, lookup_insert_ne.
Qed.

(** The registry of a configuration that passes validation: its providers. *)
Lemma valid_config_registry {IP IPNet : Type} (parse_ip : string -> option IP) (ip_is_v4 : IP -> bool) (parse_cidr : string -> option IPNet)
  (url_parse : string -> option parsed_url) (c : Config) (getenv : string -> string) (keys : option (string -> option (W -> option string * W))) :
  validate parse_ip ip_is_v4 parse_cidr url_parse c = [] ->
  exists reg, NewRegistry (ProviderSpecs c getenv keys) = inr reg /\
    forall name, (name ∈ map pv_Name (Providers c) -> exists a, reg !! name = Some a /\ ad_Name a = name) /\
                 (name ∉ map pv_Name (Providers c) -> reg !! name = None).
Proof.
  intros Hv. unfold validate, validate_limits in Hv. split_nil.
  match goal with H : validate_providers _ _ _ = [] |- _ => apply validate_providers_sound in H as [Hnd Hall] end.
  set (specs := ProviderSpecs c getenv keys). assert (map (fun s => ac_Name (sp_Config s)) specs = map pv_Name (Providers c)) as Hnames.
  { unfold specs, ProviderSpecs. rewrite map_map. by apply map_ext. }
  destruct (register_all specs ∅) as (reg & Hreg & Hlook).
  { by rewrite Hnames. }
  { unfold specs, ProviderSpecs. apply Forall_map. eapply Forall_impl; [exact Hall|]. intros p [_ Hty]. by split; [apply lookup_empty|]. }
  rewrite Hnames in Hlook. exists reg. split; [exact Hreg|]. intros name. destruct (Hlook name) as [Hin Hout]. split; [exact Hin|].
  intros Hn. rewrite (Hout Hn). apply lookup_empty.
Qed.

Lemma valid_config_builds {IP IPNet : Type} (parse_ip : string -> option IP) (ip_is_v4 : IP -> bool) (parse_cidr : string -> option IPNet)
  (url_parse : string -> option parsed_url) (c : Config) (getenv : string -> string) (keys : option (string -> option (W -> option string * W))) :
  validate parse_ip ip_is_v4 parse_cidr url_parse c = [] -> exists rt, BuildRuntime c getenv keys = inr rt /\ br_Config rt = c.
Proof.
  intros Hv. destruct (valid_config_registry parse_ip ip_is_v4 parse_cidr url_parse c getenv keys Hv) as (reg & Hreg & _).
  unfold BuildRuntime. rewrite Hreg. by eexists.
Qed.

(** A configuration that [Parse] accepts builds: the registry has exactly the
    configured providers, each under its own name, so that every target of every
    route has the adapter that serves it. *)
Theorem accepted_config_builds {IP IPNet : Type} (env : string -> string) (atoi : string -> option Z)
  (parse_ip : string -> option IP) (ip_is_v4 : IP -> bool) (parse_cidr : string -> option IPNet) (url_parse : string -> option parsed_url)
  (c c' : Config) (getenv : string -> string) (keys : option (string -> option (W -> option string * W))) :
  Parse_decoded env atoi parse_ip ip_is_v4 parse_cidr url_parse c = inr c' ->
  exists rt, BuildRuntime c' getenv keys = inr rt /\
    dom (br_Registry rt) = list_to_set (map pv_Name (Providers c')) /\
    forall name r t, rr_routes (br_Router rt) !! name = Some r -> t ∈ ro_Targets r ->
      exists a, Get (br_Registry rt) (Provider t) = Some a /\ ad_Name a = Provider t.
Proof.
  intros Hp. pose proof (fun name => parsed_routes env atoi parse_ip ip_is_v4 parse_cidr url_parse c c' name Hp) as Hroutes.
  apply Parse_validates in Hp as [_ Hv].
  destruct (valid_config_registry parse_ip ip_is_v4 parse_cidr url_parse c' getenv keys Hv) as (reg & Hreg & Hlook).
  unfold validate, validate_limits in Hv. split_nil.
  match goal with H : validate_routes _ _ _ _ _ = [] |- _ => apply validate_routes_nil in H as (Hsound & _ & _) end.
  unfold BuildRuntime. rewrite Hreg. eexists. split; [done|]. cbn [br_Registry br_Router]. split.
  - apply set_eq. intros name. rewrite elem_of_dom, elem_of_list_to_set. destruct (Hlook name) as [Hin Hout].
    destruct (decide (name ∈ map pv_Name (Providers c'))) as [Hn|Hn]; [destruct (Hin Hn) as (a & -> & _); by split|].
    rewrite (Hout Hn). split; [by intros ?%is_Some_None|done].
  - intros name r t Hr Ht. specialize (Hroutes name). rewrite Hr in Hroutes. destruct Hroutes as (rc & Hrc & -> & _).
    eapply Forall_forall in Hsound as (_ & _ & _ & _ & _ & _ & _ & Htargets); [|exact Hrc].
    eapply Forall_forall in Htargets as [Hprov _]; [|exact Ht]. destruct (Hlook (Provider t)) as [Hin _]. by apply Hin.
Qed.
End Registry.

(** ** Examples *)

#[local] Instance demo_openai : OpenAIJson := {
  marshal_chat _ := inr "{}"; marshal_embedding _ := inr "{}"; decode_chat _ _ := inl (BadJSON "EOF");
  decode_embedding _ _ := inl (BadJSON "EOF"); unmarshal_chunk _ := inl "EOF" }.

Definition demo_build : string + BuiltRuntime (W := unit) :=
  BuildRuntime (H0 := numbered []) (H1 := g_numbered []) (fun w _ => (inl "connection refused", w)) (fun _ => None) (fun _ => 0) (fun _ => None) (fun _ => None) (fun _ => None)
    demo_served (fun _ => "secret") None.

Lemma accepted_config_builds_witness : exists rt, demo_build = inr rt /\ exists a, Get (br_Registry rt) "openai" = Some a.
Proof.
  assert (Parse_decoded (IP := unit) (IPNet := unit) (fun _ => "") (fun _ => None) (fun _ => None) (fun _ => true) (fun _ => None)
    demo_url demo_config = inr demo_served) as Hp by (vm_compute; reflexivity).
  destruct (accepted_config_builds (W := unit) (H0 := numbered []) (H1 := g_numbered []) (fun w _ => (inl "connection refused", w)) (fun _ => None) (fun _ => 0)
    (fun _ => None) (fun _ => None) (fun _ => None) _ _ _ _ _ _ _ _ (fun _ => "secret") None Hp) as (rt & Hrt & _ & Ht).
  exists rt. split; [exact Hrt|]. assert (br_Router rt = New demo_served) as E.
  { unfold BuildRuntime in Hrt. destruct (NewRegistry _ _ _ _ _ _ _) in Hrt; [done|]. by injection Hrt as <-. }
  destruct (Ht "chat" (route_of_config (hd demo_route_cfg (Routes demo_served))) (mkTarget "openai" "gpt-4o")) as (a & Ha & _).
  - rewrite E. vm_compute. reflexivity.
  - vm_compute. constructor.
  - by exists a.
Defined.

(** The requests an adapter sends: the configured headers come last and replace its own. *)
Definition echo_client (w : list HttpRequest) (r : HttpRequest) : (string + HttpResponse) * list HttpRequest :=
  (inr (mkHttpResponse 429 {["Retry-After" := "7"]} "busy" EOF), w ++ [r]).

Example openai_request_ex :
  let c := adapter_config (mkAdapterConfig "openai" "https://api.openai.com/v1//" "sk-1" None [("X-Org", "acme")] 0) in
  let '(r, w) := OpenAI_Chat (W := list HttpRequest) echo_client (fun _ => None) (fun _ => 0) (fun _ => None) (fun _ => None) (fun _ => None) c "gpt-4o" (plain_request "m" []) [] in
  r = inl (ErrProvider (mkProviderError "openai" 429 "Too Many Requests" true (7 * second))) /\
  w = [mkHttpRequest "https://api.openai.com/v1/chat/completions"
         {["Content-Type" := "application/json"; "Authorization" := "Bearer sk-1"; "X-Org" := "acme"]} "{}"].
Proof. vm_compute. by split. Qed.

(** A [Retry-After] of more seconds than fit a duration wraps around: here 18446744074
    seconds become less than a third of a second. *)
Example retry_after_wraps :
  retry_after (W := unit) (fun _ => 0) (fun _ => None) {["Retry-After" := "18446744074"]} tt = 290448384.
Proof. vm_compute. reflexivity. Qed.
