(* ===== verification/Envelope.v ===== *)
(** * Envelope encryption (src/internal/secrets: envelope.go, local.go, multi_kek.go, vault.go, config.go)

    A credential is sealed under a fresh data key, and the data key is wrapped by a
    key-encryption key: one held in a file, one of Vault's transit engine, or a set
    of them during a rotation.  AES-GCM is the class [AES] with its laws, Vault a
    function of the world.  Wiping data keys from memory is not modelled. *)

From S2P Require Import Prelude GoStrings Encoding Config.

Open Scope string_scope.
Open Scope list_scope.
Open Scope Z_scope.

(** ** Results of effectful code *)

Inductive outcome (A : Type) := Done (a : A) | Failed (e : string) | Panicked.
Arguments Done {A}. Arguments Failed {A}. Arguments Panicked {A}.

Section Monad.
Context {W : Type}.

Definition eff (A : Type) : Type := W -> outcome A * W.

Definition give {A} (a : A) : eff A := fun w => (Done a, w).
Definition fail_with {A} (e : string) : eff A := fun w => (Failed e, w).
Definition panic {A} : eff A := fun w => (Panicked, w).

Definition eff_bind {A B} (m : eff A) (k : A -> eff B) : eff B := fun w =>
  match m w with
  | (Done a, w) => k a w
  | (Failed e, w) => (Failed e, w)
  | (Panicked, w) => (Panicked, w)
  end.

(** [fmt.Errorf] around an error. *)
Definition or_fail {A} (f : string -> string) (m : eff A) : eff A := fun w =>
  match m w with (Failed e, w) => (Failed (f e), w) | r => r end.

Definition not_nil {A} (o : option A) : eff A := match o with Some a => give a | None => panic end.

Lemma eff_bind_done {A B} (m : eff A) (k : A -> eff B) w b w' :
  eff_bind m k w = (Done b, w') -> exists a w1, m w = (Done a, w1) /\ k a w1 = (Done b, w').
Proof. unfold eff_bind. destruct (m w) as [[a|e|] w1]; [eauto|done|done]. Qed.

Lemma or_fail_done {A} f (m : eff A) w a w' : or_fail f m w = (Done a, w') -> m w = (Done a, w').
Proof. unfold or_fail. by destruct (m w) as [[] ?]. Qed.
End Monad.
Arguments eff : clear implicits.

Declare Scope eff_scope.
Delimit Scope eff_scope with eff.
Notation "'let!' x := m 'in' k" := (eff_bind m%eff (fun x => k%eff))
  (at level 200, x name, m at level 100, k at level 200) : eff_scope.

(** Takes the successful run of a sequence of steps apart. *)
Ltac eff_steps :=
  repeat match goal with
  | H : eff_bind _ _ _ = (Done _, _) |- _ => apply eff_bind_done in H as (? & ? & ? & ?)
  | H : or_fail _ _ _ = (Done _, _) |- _ => apply or_fail_done in H
  | H : not_nil ?o _ = (Done _, _) |- _ => unfold not_nil in H; destruct o eqn:?; [|done]
  | H : give _ _ = (Done _, _) |- _ => unfold give in H; simplify_eq
  | H : fail_with _ _ = (Done _, _) |- _ => discriminate H
  | H : panic _ = (Done _, _) |- _ => discriminate H
  end.

(** ** AES-GCM *)

Class AES := {
  aes_gcm_seal : string -> string -> string -> string -> string;             (* key, nonce, plaintext, additional data *)
  aes_gcm_open : string -> string -> string -> string -> option string       (* key, nonce, ciphertext, additional data *)
}.

(** GCM is deterministic: a ciphertext is accepted exactly when it is the one that
    sealing its plaintext gives. *)
Class AESLaws `{AES} : Prop := {
  aes_gcm_open_iff key nonce ct aad pt : aes_gcm_open key nonce ct aad = Some pt <-> ct = aes_gcm_seal key nonce pt aad
}.

Definition nonce_size : nat := 12.

(** [gcm]: aes.NewCipher accepts keys of 16, 24 and 32 bytes. *)
Definition gcm (key : string) : outcome string :=
  if bool_decide (String.length key ∈ [16; 24; 32]%nat) then Done key
  else Failed ("crypto/aes: invalid key size " +:+ itoa (slen key)).

Definition gcm_eff {W} (key : string) : eff W string := fun w => (gcm key, w).

Section Aead.
Context `{AES} {W : Type}.

(** [AEAD.Open] panics when the nonce has not the cipher's length. *)
Definition aead_open (key nonce ct aad : string) : eff W string :=
  if Nat.eqb (String.length nonce) nonce_size then
    match aes_gcm_open key nonce ct aad with Some pt => give pt | None => fail_with "cipher: message authentication failed" end
  else panic.
End Aead.

(** ** Key-encryption keys *)

Record LocalKEK := mkLocalKEK { lk_key : string; lk_id : string }.

Record VaultKEK (W : Type) := mkVaultKEK { vk_addr : string; vk_key : string; vk_tokens : eff W string }.
Arguments mkVaultKEK {W}. Arguments vk_addr {W}. Arguments vk_key {W}. Arguments vk_tokens {W}.

(** The interface [KEK] with its implementations.  The pointer to a local key can
    be nil inside the interface. *)
Inductive KEK (W : Type) :=
| KLocal (k : option LocalKEK)
| KVault (v : VaultKEK W)
| KMulti (defaultKEK : option (KEK W)) (byID : gmap string (KEK W)) (fallback : option (string -> option (KEK W))).
Arguments KLocal {W}. Arguments KVault {W}. Arguments KMulti {W}.

Record Sealed := mkSealed { KEKID : string; WrappedDEK : string; Nonce : string; Ciphertext : string }.

#[export] Instance Sealed_eq_dec : EqDecision Sealed.
Proof. solve_decision. Defined.

Definition AAD (provider : string) : string := "proofgate:provider:" +:+ provider.

Section Keks.
Context `{AES} {W : Type} (sha256 : string -> string)
  (rand_Read : nat -> eff W string)
  (read_file : string -> eff W string)
  (vault_do : string -> string -> list (string * string) -> eff W (Z * string))   (* URL, token, fields of the body; status and body *)
  (data_field : string -> string -> outcome string)                                (* [data.<field>] of a reply *)
  (auth_reply : string -> outcome (string * Z))                                    (* [auth.client_token], [auth.lease_duration] *)
  (now : W -> Time)
  (kube_cell : nat -> W -> string * Time) (set_kube_cell : nat -> string * Time -> W -> W)   (* the variables of a [KubernetesAuth] *)
  (getenv : string -> string).

Local Open Scope eff_scope.

(** *** local.go *)

Definition NewLocalKEK (key : string) : outcome LocalKEK :=
  if negb (Nat.eqb (String.length key) 32) then Failed "local KEK must be exactly 32 bytes"
  else Done (mkLocalKEK key ("local:" +:+ hex_encode (stake 6 (sha256 key)))).

Definition LoadLocalKEK (path : string) : eff W LocalKEK :=
  let! b := read_file path in
  match DecodeString (trim_space b) with
  | None => fail_with "local KEK file must contain base64"
  | Some raw => fun w => (NewLocalKEK raw, w)
  end.

Definition GenerateLocalKEK : eff W string :=
  let! b := rand_Read 32 in give (EncodeToString b).

Definition LocalKEK_Wrap (k : LocalKEK) (dek : string) : eff W string :=
  let! a := gcm_eff (lk_key k) in
  let! nonce := rand_Read nonce_size in
  give (nonce +:+ aes_gcm_seal a nonce dek (lk_id k)).

Definition LocalKEK_Unwrap (k : LocalKEK) (wrapped : string) : eff W string :=
  let! a := gcm_eff (lk_key k) in
  if Nat.ltb (String.length wrapped) nonce_size then fail_with "wrapped key too short"
  else aead_open a (stake nonce_size wrapped) (sdrop nonce_size wrapped) (lk_id k).

(** *** vault.go *)

Definition StaticToken (tok : string) : eff W string :=
  if String.eqb tok "" then fail_with "empty Vault token" else give tok.

Definition vaultPost {T} (url token : string) (body : list (string * string)) (decode : string -> outcome T) : eff W T :=
  let! r := vault_do url token body in
  if negb (Z.quot r.1 100 =? 2) then fail_with ("vault " +:+ trim_prefix url "http" +:+ ": status " +:+ itoa r.1)
  else fun w => (decode r.2, w).

Definition KubernetesAuth (cell : nat) (addr role jwtPath : string) : eff W string := fun w =>
  let '(token, expires) := kube_cell cell w in
  if negb (String.eqb token "") && (now w <? expires) then (Done token, w)
  else
    (let! jwt := read_file jwtPath in
     let! out := vaultPost (trim_right (Ascii.eqb "/") addr +:+ "/v1/auth/kubernetes/login") ""
                   [("role", role); ("jwt", trim_space jwt)] auth_reply in
     fun w => (Done out.1, set_kube_cell cell (out.1, now w + wrap64 (wrap64 (out.2 * second) - 30 * second)) w)) w.

Definition NewVaultKEK (addr key : string) (tokens : eff W string) : VaultKEK W :=
  mkVaultKEK (trim_right (Ascii.eqb "/") addr) key tokens.

Definition VaultKEK_ID (v : VaultKEK W) : string := "vault:" +:+ vk_key v.

Definition VaultKEK_Wrap (v : VaultKEK W) (dek : string) : eff W string :=
  let! tok := vk_tokens v in
  vaultPost (vk_addr v +:+ "/v1/transit/encrypt/" +:+ vk_key v) tok [("plaintext", EncodeToString dek)] (data_field "ciphertext").

Definition VaultKEK_Unwrap (v : VaultKEK W) (wrapped : string) : eff W string :=
  let! tok := vk_tokens v in
  let! b := vaultPost (vk_addr v +:+ "/v1/transit/decrypt/" +:+ vk_key v) tok [("ciphertext", wrapped)] (data_field "plaintext") in
  match DecodeString b with Some d => give d | None => fail_with "illegal base64 data" end.

(** [DynamicVaultResolver.ResolveKEK] *)
Definition Dynamic_ResolveKEK (addr : string) (tokens : eff W string) (id : string) : option (KEK W) :=
  if has_prefix "vault:" id then Some (KVault (NewVaultKEK addr (trim_prefix id "vault:") tokens)) else None.

Definition NewDynamicVaultResolver (addr : string) (tokens : eff W string) : string -> option (KEK W) :=
  Dynamic_ResolveKEK (trim_right (Ascii.eqb "/") addr) tokens.

(** *** The methods of the interface

    [None] is the panic of a method called on a nil pointer. *)

Fixpoint ID (k : KEK W) : option string :=
  match k with
  | KLocal p => option_map lk_id p
  | KVault v => Some (VaultKEK_ID v)
  | KMulti None _ _ => Some "multi-kek"
  | KMulti (Some d) _ _ => ID d
  end.

Fixpoint Wrap (k : KEK W) (dek : string) : eff W string :=
  match k with
  | KLocal p => let! p := not_nil p in LocalKEK_Wrap p dek
  | KVault v => VaultKEK_Wrap v dek
  | KMulti None _ _ => fail_with "no default KEK configured"
  | KMulti (Some d) _ _ => Wrap d dek
  end.

Fixpoint Unwrap (k : KEK W) (wrapped : string) : eff W string :=
  match k with
  | KLocal p => let! p := not_nil p in LocalKEK_Unwrap p wrapped
  | KVault v => VaultKEK_Unwrap v wrapped
  | KMulti None _ _ => fail_with "no default KEK configured"
  | KMulti (Some d) _ _ => Unwrap d wrapped
  end.

(** The type assertion [kek.(KEKResolver)], and [MultiKEK.ResolveKEK]. *)
Definition as_resolver (k : KEK W) : option (string -> option (KEK W)) :=
  match k with
  | KMulti _ byID fallback => Some (fun id =>
      match byID !! id with
      | Some k => Some k
      | None => match fallback with Some f => f id | None => None end
      end)
  | _ => None
  end.

(** *** multi_kek.go *)

Definition RegisterKEK (m : KEK W) (k : option (KEK W)) : option (KEK W) :=
  match k with
  | None => Some m
  | Some k => match m, ID k with
              | KMulti d byID f, Some id => Some (KMulti d (<[id := k]> byID) f)
              | _, _ => None
              end
  end.

Fixpoint RegisterAll (m : KEK W) (ks : list (option (KEK W))) : option (KEK W) :=
  match ks with
  | [] => Some m
  | k :: ks => match RegisterKEK m k with Some m => RegisterAll m ks | None => None end
  end.

Definition NewMultiKEK (defaultKEK : option (KEK W)) (previousKEKs : list (option (KEK W))) : option (KEK W) :=
  RegisterAll (KMulti defaultKEK ∅ None) (defaultKEK :: previousKEKs).

Definition SetFallbackResolver (m : KEK W) (r : string -> option (KEK W)) : KEK W :=
  match m with KMulti d byID _ => KMulti d byID (Some r) | _ => m end.

(** *** envelope.go *)

Definition Seal (kek : KEK W) (plaintext aad : string) : eff W Sealed :=
  let! dek := rand_Read 32 in
  let! a := gcm_eff dek in
  let! nonce := rand_Read nonce_size in
  let! wrapped := or_fail (fun e => "wrap data key: " +:+ e) (Wrap kek dek) in
  let! id := not_nil (ID kek) in
  give (mkSealed id wrapped nonce (aes_gcm_seal a nonce plaintext aad)).

(** The key a record names: the key given, or one it resolves. *)
Definition key_for (unknown : string) (different : string -> string) (kek : KEK W) (id : string) : eff W (KEK W) :=
  let! cur := not_nil (ID kek) in
  if String.eqb id cur then give kek
  else match as_resolver kek with
       | Some resolve => match resolve id with Some k => give k | None => fail_with unknown end
       | None => fail_with (different cur)
       end.

Definition Open (kek : KEK W) (s : Sealed) (aad : string) : eff W string :=
  let! target := key_for ("credential was sealed with unknown KEK (" +:+ KEKID s +:+ ")")
    (fun cur => "credential was sealed with a different KEK (" +:+ KEKID s +:+ ", current " +:+ cur +:+ "): rewrap it first") kek (KEKID s) in
  let! dek := or_fail (fun e => "unwrap data key: " +:+ e) (Unwrap target (WrappedDEK s)) in
  let! a := gcm_eff dek in
  or_fail (fun _ => "credential failed authentication (tampered, or wrong provider)")
    (aead_open a (Nonce s) (Ciphertext s) aad).

Definition Rewrap (from to : KEK W) (s : Sealed) : eff W Sealed :=
  let! fromKEK := key_for "record is not sealed with the source KEK" (fun _ => "record is not sealed with the source KEK") from (KEKID s) in
  let! dek := Unwrap fromKEK (WrappedDEK s) in
  let! w := Wrap to dek in
  let! id := not_nil (ID to) in
  give (mkSealed id w (Nonce s) (Ciphertext s)).

(** *** config.go

    The pair of results; a nil [*LocalKEK] becomes a KEK that is not nil. *)
Definition token_source (cell : nat) (addr auth role tokenFile : string) : eff W string :=
  if String.eqb auth "kubernetes" then
    KubernetesAuth cell addr role
      (if String.eqb tokenFile "" then "/var/run/secrets/kubernetes.io/serviceaccount/token" else tokenFile)
  else StaticToken (getenv "VAULT_TOKEN").

Definition FromConfigWithOptions (cell : nat) (kind localFile vaultAddr vaultKey vaultAuth vaultRole vaultTokenFile : string)
  (w : W) : (option (KEK W) * option string) * W :=
  if String.eqb kind "local" then
    match LoadLocalKEK localFile w with
    | (Done k, w) => ((Some (KLocal (Some k)), None), w)
    | (Failed e, w) => ((Some (KLocal None), Some e), w)
    | (Panicked, w) => ((Some (KLocal None), None), w)
    end
  else if String.eqb kind "vault" then
    ((Some (KVault (NewVaultKEK vaultAddr vaultKey (token_source cell vaultAddr vaultAuth vaultRole vaultTokenFile))), None), w)
  else ((None, Some ("unknown kek " +:+ go_quote kind)), w).

Definition from_config (cell : nat) (c : SecretsConfig) : W -> (option (KEK W) * option string) * W :=
  FromConfigWithOptions cell (sc_KEK c) (sc_LocalKEKFile c) (sc_VaultAddr c) (sc_VaultKey c) (sc_VaultAuth c) (sc_VaultRole c) (sc_VaultTokenFile c).

Definition NewDynamicVaultResolverFromConfig (cell : nat) (c : SecretsConfig) : string -> option (KEK W) :=
  NewDynamicVaultResolver (sc_VaultAddr c) (token_source cell (sc_VaultAddr c) (sc_VaultAuth c) (sc_VaultRole c) (sc_VaultTokenFile c)).

(** *** cmd/proofgate/main.go: the keys the gateway starts with *)

Definition needsDBKeys (c : Config) : bool := existsb pv_APIKeyDB (Providers c).

Fixpoint previous_keks (cell : nat) (cs : list SecretsConfig) : eff W (list (option (KEK W))) := fun w =>
  match cs with
  | [] => (Done [], w)
  | c :: cs =>
      match from_config cell c w with
      | ((_, Some e), w) => (Failed ("initialize previous rotation KEK: " +:+ e), w)
      | ((k, None), w) => (let! ks := previous_keks (S cell) cs in give (match k with Some _ => k :: ks | None => ks end)) w
      end
  end.

Definition gateway_multi (c : Config) (k : option (KEK W)) : eff W (option (KEK W)) :=
  match k with
  | None => give None
  | Some _ =>
      let! prev := previous_keks 2 (sc_PreviousKEKs (Secrets c)) in
      let! m := not_nil (NewMultiKEK k prev) in
      give (Some (if String.eqb (sc_KEK (Secrets c)) "vault" then SetFallbackResolver m (NewDynamicVaultResolverFromConfig 1 (Secrets c)) else m))
  end.

Definition gateway_kek (c : Config) : eff W (option (KEK W)) := fun w =>
  match from_config 0 (Secrets c) w with
  | ((k, Some e), w) => if needsDBKeys c then (Failed e, w) else gateway_multi c k w
  | ((k, None), w) => gateway_multi c k w
  end.

(** ** Laws *)

(** What a caller sees of a value that is [x]: [x] itself, or, where the key is
    at a remote service, a failure. *)
Definition reads {A} (reliable : bool) (o : outcome A) (x : A) : Prop :=
  o = Done x \/ reliable = false /\ exists e, o = Failed e.

(** A key-encryption key unwraps, at any later time, what it has wrapped. *)
Definition wraps (k : KEK W) (dek wr : string) : Prop := exists w w', Wrap k dek w = (Done wr, w').

Definition lawful (reliable : bool) (k : KEK W) : Prop :=
  forall dek wr, wraps k dek wr -> forall w, reads reliable (Unwrap k wr w).1 dek.

(** [s] is [pt] sealed for [aad] under [k]. *)
Definition sealed_under (k : KEK W) (s : Sealed) (pt aad : string) : Prop :=
  exists dek, ID k = Some (KEKID s) /\ wraps k dek (WrappedDEK s) /\ gcm dek = Done dek /\
    String.length (Nonce s) = nonce_size /\ Ciphertext s = aes_gcm_seal dek (Nonce s) pt aad.

(** The key that [kek] offers for records of the key named [id]. *)
Definition offers (kek : KEK W) (id : string) (k : KEK W) : Prop :=
  ID kek = Some id /\ k = kek \/
  (exists cur, ID kek = Some cur /\ cur <> id) /\ exists resolve, as_resolver kek = Some resolve /\ resolve id = Some k.
End Keks.
Arguments Seal {_ W}. Arguments Open {_ W}. Arguments Rewrap {_ W}.

Lemma gcm_done key a : gcm key = Done a -> a = key.
Proof. unfold gcm. case_bool_decide; naive_solver. Qed.

Lemma gcm_32 key : String.length key = 32%nat -> gcm key = Done key.
Proof. unfold gcm. intros ->. done. Qed.

Lemma gcm_eff_done {W} key (w : W) a w' : gcm_eff key w = (Done a, w') -> a = key /\ w' = w /\ gcm key = Done key.
Proof. unfold gcm_eff. intros [= Hg ->]. pose proof (gcm_done _ _ Hg) as ->. done. Qed.

Section Laws.
Context `{AES} {W : Type}
  (rand_Read : nat -> eff W string)
  (vault_do : string -> string -> list (string * string) -> eff W (Z * string))
  (data_field : string -> string -> outcome string).
Context `{!AESLaws} (Hrand : forall n w s w', rand_Read n w = (Done s, w') -> String.length s = n).

Abbreviation Wrap' := (Wrap rand_Read vault_do data_field).
Abbreviation Unwrap' := (Unwrap vault_do data_field).
Abbreviation Seal' := (Seal rand_Read vault_do data_field).
Abbreviation Open' := (Open vault_do data_field).
Abbreviation Rewrap' := (Rewrap rand_Read vault_do data_field).
Abbreviation wraps' := (wraps rand_Read vault_do data_field).
Abbreviation lawful' := (lawful rand_Read vault_do data_field).
Abbreviation sealed_under' := (sealed_under rand_Read vault_do data_field).

Lemma aead_open_seal key nonce pt aad (w : W) : String.length nonce = nonce_size ->
  aead_open key nonce (aes_gcm_seal key nonce pt aad) aad w = (Done pt, w).
Proof.
  intros Hn. unfold aead_open. rewrite Hn, Nat.eqb_refl.
  by rewrite (proj2 (aes_gcm_open_iff key nonce _ aad pt) eq_refl).
Qed.

Lemma aead_open_done key nonce ct aad (w : W) pt w' :
  aead_open key nonce ct aad w = (Done pt, w') -> ct = aes_gcm_seal key nonce pt aad /\ String.length nonce = nonce_size.
Proof.
  unfold aead_open. destruct (Nat.eqb_spec (String.length nonce) nonce_size); [|done].
  destruct (aes_gcm_open key nonce ct aad) eqn:Ho; [|done]. intros [= -> ->]. by apply aes_gcm_open_iff in Ho.
Qed.

(** A key of 32 bytes in a file is lawful and never fails to unwrap. *)
Lemma local_lawful k : gcm (lk_key k) = Done (lk_key k) -> lawful' true (KLocal (Some k)).
Proof.
  intros Hg dek wr (w & w' & Hw) w2. left. cbn [Wrap Unwrap] in *. eff_steps. unfold LocalKEK_Wrap in *. eff_steps.
  match goal with Hq : gcm_eff _ _ = _ |- _ => apply gcm_eff_done in Hq as (-> & _ & _) end.
  match goal with Hq : rand_Read _ _ = _ |- _ => apply Hrand in Hq as Hlen end.
  unfold eff_bind, give, not_nil, LocalKEK_Unwrap, eff_bind, gcm_eff, give. rewrite Hg.
  rewrite slength_app, Hlen.
  replace (Nat.ltb _ nonce_size) with false by (symmetry; apply Nat.ltb_ge; unfold nonce_size in *; lia).
  rewrite <- Hlen at 1 2. rewrite stake_app_length, sdrop_app_length. by rewrite aead_open_seal.
Qed.

Lemma multi_lawful r d byID f : lawful' r d -> lawful' r (KMulti (Some d) byID f).
Proof. intros Hd. exact Hd. Qed.

(** Sealing under a set of keys is sealing under its default. *)
Lemma sealed_under_multi d byID f s pt aad : sealed_under' (KMulti (Some d) byID f) s pt aad <-> sealed_under' d s pt aad.
Proof. done. Qed.

Lemma seal_sealed kek pt aad w s w' : Seal' kek pt aad w = (Done s, w') -> sealed_under' kek s pt aad.
Proof.
  unfold Seal. intros Hs. eff_steps.
  match goal with Hq : gcm_eff _ _ = _ |- _ => apply gcm_eff_done in Hq as (-> & -> & Hg) end.
  exists x. cbn. split_and!; [done|by do 2 eexists|done|by eapply Hrand|done].
Qed.

Lemma key_for_offers unknown different (kek : KEK W) id k w : offers kek id k -> key_for unknown different kek id w = (Done k, w).
Proof.
  intros [[Hid ->]|[(cur & Hid & Hne) (resolve & Hr & Hk)]]; unfold key_for, eff_bind, not_nil, give; rewrite Hid.
  - by rewrite String.eqb_refl.
  - destruct (String.eqb_spec id cur); [congruence|]. by rewrite Hr, Hk.
Qed.

Lemma open_sealed r kek k s pt aad w : sealed_under' k s pt aad -> lawful' r k -> offers kek (KEKID s) k ->
  reads r (Open' kek s aad w).1 pt.
Proof.
  intros (dek & Hid & Hwr & Hg & Hn & Hct) Hlaw Hof. unfold Open, eff_bind. rewrite (key_for_offers _ _ _ _ k) by done.
  specialize (Hlaw dek (WrappedDEK s) Hwr w). unfold or_fail.
  destruct (Unwrap' k (WrappedDEK s) w) as [o w1]; cbn in Hlaw.
  destruct Hlaw as [->|[-> [e ->]]]; [|right; cbn; eauto].
  unfold gcm_eff. rewrite Hg. rewrite Hct, aead_open_seal by done. by left.
Qed.

Lemma rewrap_sealed r from k to s s' pt aad w w' : sealed_under' k s pt aad -> lawful' r k -> offers from (KEKID s) k ->
  Rewrap' from to s w = (Done s', w') -> sealed_under' to s' pt aad.
Proof.
  intros (dek & Hid & Hwr & Hg & Hn & Hct) Hlaw Hof Hr. unfold Rewrap in Hr.
  apply eff_bind_done in Hr as (from' & w1 & Hf & Hr). rewrite (key_for_offers _ _ _ _ k) in Hf by done. simplify_eq.
  eff_steps. specialize (Hlaw dek _ Hwr w1).
  match goal with Hq : Unwrap' _ _ _ = _ |- _ => rewrite Hq in Hlaw end.
  destruct Hlaw as [Hd|[_ [e He]]]; [|done]. cbn in Hd. simplify_eq. exists dek. cbn. split_and!; [done|by do 2 eexists|done|done|done].
Qed.

Lemma open_done kek s aad w pt w' : Open' kek s aad w = (Done pt, w') ->
  exists dek, Ciphertext s = aes_gcm_seal dek (Nonce s) pt aad /\ String.length (Nonce s) = nonce_size.
Proof.
  unfold Open. intros Ho. eff_steps.
  match goal with Hq : gcm_eff _ _ = _ |- _ => apply gcm_eff_done in Hq as (-> & -> & Hg) end.
  match goal with Hq : aead_open _ _ _ _ _ = _ |- _ => apply aead_open_done in Hq end. eauto.
Qed.
End Laws.

Lemma AAD_inj p q : AAD p = AAD q -> p = q.
Proof. apply sapp_inj_l. Qed.

(** C10. A credential sealed under a lawful key (one that unwraps what it wrapped) is
    opened, at any later time and through any set of keys that offers this key for its
    record, to what was sealed; a remote key may fail instead, a local one cannot.  The
    record of one provider does not open as another's unless AES-GCM maps both
    messages, with their different additional data, to the same ciphertext. *)
Theorem sealed_credential_opens `{!AES} `{!AESLaws} {W} rand_Read vault_do data_field
  (Hrand : forall n (w : W) s w', rand_Read n w = (Done s, w') -> String.length s = n)
  reliable d kek pt provider w s w1
  (Hlaw : lawful rand_Read vault_do data_field reliable d)
  (Hseal : Seal rand_Read vault_do data_field d pt (AAD provider) w = (Done s, w1))
  (Hoffers : offers kek (KEKID s) d) :
  (forall w2, reads reliable (Open vault_do data_field kek s (AAD provider) w2).1 pt) /\
  (forall other w2 pt' w3, other <> provider -> Open vault_do data_field kek s (AAD other) w2 = (Done pt', w3) ->
     exists dek dek', AAD other <> AAD provider /\
       aes_gcm_seal dek (Nonce s) pt (AAD provider) = aes_gcm_seal dek' (Nonce s) pt' (AAD other)).
Proof.
  pose proof (seal_sealed rand_Read vault_do data_field Hrand _ _ _ _ _ _ Hseal) as Hsu. split.
  - intros w2. by eapply open_sealed.
  - intros other w2 pt' w3 Hne Ho. apply (open_done vault_do data_field) in Ho as (dek' & Hct & _).
    destruct Hsu as (dek & _ & _ & _ & _ & Hct'). exists dek, dek'. split; [|congruence].
    intros Heq. by apply Hne, AAD_inj.
Qed.

(** ** A concrete cipher and a concrete world *)

Module ToyKeys.
Definition toy_prefix (key nonce aad : string) : string := key +:+ nonce +:+ aad.

#[export] Instance toy_AES : AES := {
  aes_gcm_seal key nonce pt aad := toy_prefix key nonce aad +:+ pt;
  aes_gcm_open key nonce ct aad := let p := toy_prefix key nonce aad in
    if has_prefix p ct then Some (sdrop (String.length p) ct) else None
}.

#[export] Instance toy_laws : AESLaws.
Proof.
  constructor. intros key nonce ct aad pt. cbn. destruct (has_prefix _ ct) eqn:Hp.
  - apply has_prefix_app in Hp as [t ->]. rewrite sdrop_app_length. split; [by intros [= ->]|]. intros ->%sapp_inj_l. done.
  - split; [done|]. intros ->. by rewrite has_prefix_refl in Hp.
Qed.

(** A world without randomness and without Vault, that counts its steps. *)
Definition rand (n : nat) : eff nat string := fun w => (Done (concat_strings (repeat "x" n)), S w).
Definition no_vault (url token : string) (body : list (string * string)) : eff nat (Z * string) := fail_with "connection refused".
Definition no_field (field body : string) : outcome string := Failed "no field".

Lemma rand_length n (w : nat) s w' : rand n w = (Done s, w') -> String.length s = n.
Proof. intros [= <- _]. induction n as [|n IH]; [done|]. cbn [repeat concat_strings]. rewrite slength_app, IH. done. Qed.

Definition key1 : LocalKEK := mkLocalKEK "0123456789abcdef0123456789abcdef" "local:1".
Definition key2 : LocalKEK := mkLocalKEK "fedcba9876543210fedcba9876543210" "local:2".
Definition both : KEK nat := KMulti (Some (KLocal (Some key2))) {["local:1" := KLocal (Some key1)]} None.

Definition sealed1 : Sealed := match (Seal rand no_vault no_field (KLocal (Some key1)) "sk-1" (AAD "openai") 0%nat).1 with
                               | Done s => s | _ => mkSealed "" "" "" "" end.
Definition sealed2 : Sealed := match (Rewrap rand no_vault no_field both (KLocal (Some key2)) sealed1 0%nat).1 with
                               | Done s => s | _ => mkSealed "" "" "" "" end.

Example open_ex :
  (Open no_vault no_field both sealed1 (AAD "openai") 0%nat).1 = Done "sk-1" /\
  (Open no_vault no_field (KLocal (Some key2)) sealed1 (AAD "openai") 0%nat).1 =
     Failed "credential was sealed with a different KEK (local:1, current local:2): rewrap it first" /\
  (Open no_vault no_field (KLocal (Some key2)) sealed2 (AAD "openai") 0%nat).1 = Done "sk-1" /\
  (Open no_vault no_field both sealed1 (AAD "gemini") 0%nat).1 = Failed "credential failed authentication (tampered, or wrong provider)" /\
  (Open no_vault no_field both (mkSealed (KEKID sealed1) (WrappedDEK sealed1) "short" (Ciphertext sealed1)) (AAD "openai") 0%nat).1 = Panicked.
Proof. vm_compute. done. Qed.
End ToyKeys.
Import ToyKeys.

Lemma sealed_credential_opens_witness :
  (forall w2, reads true (Open no_vault no_field both sealed1 (AAD "openai") w2).1 "sk-1") /\
  (forall other w2 pt' w3, other <> "openai" -> Open no_vault no_field both sealed1 (AAD other) w2 = (Done pt', w3) ->
     exists dek dek', AAD other <> AAD "openai" /\
       aes_gcm_seal dek (Nonce sealed1) "sk-1" (AAD "openai") = aes_gcm_seal dek' (Nonce sealed1) pt' (AAD other)).
Proof.
  apply (sealed_credential_opens rand no_vault no_field rand_length true (KLocal (Some key1)) both "sk-1" "openai" 0%nat sealed1 3%nat).
  - by apply (local_lawful rand no_vault no_field rand_length).
  - reflexivity.
  - right. split; [by exists "local:2"|]. exists (fun id => match ({["local:1" := KLocal (Some key1)]} : gmap string (KEK nat)) !! id with Some k => Some k | None => None end).
    split; reflexivity.
Defined.

(** A gateway whose [kek] is the default [local] and that has no key file does not
    start, although none of its providers keeps its key in the database: the nil
    [*LocalKEK] is a KEK that is not nil. *)
Lemma startup_without_key_file_panics {W} sha256 read_file vault_do auth_reply now cell set_cell getenv (c : Config) (w w' : W) e
  (Hkek : sc_KEK (Secrets c) = "local") (Hprev : sc_PreviousKEKs (Secrets c) = [])
  (Hfile : read_file (sc_LocalKEKFile (Secrets c)) w = (Failed e, w')) (Hdb : needsDBKeys c = false) :
  gateway_kek sha256 read_file vault_do auth_reply now cell set_cell getenv c w = (Panicked, w').
Proof.
  unfold gateway_kek, from_config, FromConfigWithOptions. rewrite Hkek. cbn [String.eqb Ascii.eqb Bool.eqb].
  unfold LoadLocalKEK at 1, eff_bind at 1. rewrite Hfile, Hdb. unfold gateway_multi. rewrite Hprev. reflexivity.
Qed.
