(* ===== verification/Credentials.v ===== *)
(** * Stored credentials (src/internal/store/credentials.go, cmd/proofgatectl/credentials.go)

    The table [provider_credentials] with the statements that use it, and the
    commands that move every record from one key-encryption key to another. *)

From S2P Require Import Prelude GoStrings Envelope.

Open Scope string_scope.
Open Scope list_scope.
Open Scope Z_scope.

(** ** The table *)

Record credential_row := mkRow { cr_sealed : Sealed; cr_created_by : string; cr_created_at : Time; cr_active : bool }.

(** The primary key is (provider, version). *)
Abbreviation table := (gmap (string * Z) credential_row).

(** What becomes of a transaction: it commits, it fails and is rolled back, or it
    commits and the answer is lost. *)
Inductive fate := Commits | Refused | Unanswered.

Definition db_error : string := "connection lost".
Definition ErrNotFound : string := "not found".

Definition transact {A : Type} (f : fate) (t t' : table) (a : A) : outcome A * table :=
  match f with
  | Commits => (Done a, t')
  | Refused => (Failed db_error, t)
  | Unanswered => (Failed db_error, t')
  end.

Definition of_provider (p : string) (t : table) : table := filter (fun kv => kv.1.1 = p) t.

Definition next_version (p : string) (t : table) : Z :=
  foldr Z.max 0 (map (fun kv => kv.1.2) (map_to_list (of_provider p t))) + 1.

Definition deactivate (p : string) (t : table) : table :=
  map_imap (fun k r => Some (if bool_decide (k.1 = p) then mkRow (cr_sealed r) (cr_created_by r) (cr_created_at r) false else r)) t.

Definition PutCredential (f : fate) (now : Time) (provider : string) (sealed : Sealed) (actor : string) (t : table) : outcome Z * table :=
  let v := next_version provider t in
  transact f t (<[(provider, v) := mkRow sealed actor now true]> (deactivate provider t)) v.

Definition active_rows (p : string) (t : table) : list ((string * Z) * credential_row) :=
  map_to_list (filter (fun kv => kv.1.1 = p /\ cr_active kv.2 = true) t).

(** [QueryRow] takes the first row. *)
Definition ActiveCredential (ok : bool) (provider : string) (t : table) : outcome (Sealed * Z) :=
  if negb ok then Failed db_error
  else match active_rows provider t with
       | [] => Failed ErrNotFound
       | (k, r) :: _ => Done (cr_sealed r, k.2)
       end.

Definition ActiveTenantCredential (ok : bool) (tenantID provider : string) (t : table) : outcome (Sealed * Z) :=
  if negb (String.eqb tenantID "") then
    match ActiveCredential ok (tenantID +:+ "/" +:+ provider) t with
    | Done r => Done r
    | _ => ActiveCredential ok provider t
    end
  else ActiveCredential ok provider t.

(** [UPDATE ... SET kek_id, wrapped_dek]: the nonce and the ciphertext stay. *)
Definition ReplaceWrapped (f : fate) (provider : string) (version : Z) (sealed : Sealed) (t : table) : outcome unit * table :=
  transact f t (alter (fun r => mkRow (mkSealed (KEKID sealed) (WrappedDEK sealed) (Nonce (cr_sealed r)) (Ciphertext (cr_sealed r)))
                                  (cr_created_by r) (cr_created_at r) (cr_active r)) (provider, version) t) tt.

Definition AllSealed (t : table) : gmap (string * Z) Sealed := cr_sealed <$> t.

(** ** proofgatectl provider-key rotate-kek, proofgatectl secrets rewrap

    Both read all records, and rewrap and save those that are not skipped, in the
    order of a range over a map; [die] ends the process. *)
Section Rewrapping.
Context `{AES} {W : Type} (rand_Read : nat -> eff W string)
  (vault_do : string -> string -> list (string * string) -> eff W (Z * string))
  (data_field : string -> string -> outcome string)
  (next_fate : W -> fate * W).

Fixpoint rewrap_rows (skip : string -> bool) (from to : KEK W) (rows : list ((string * Z) * Sealed)) (n : Z) (t : table) (w : W)
  : outcome Z * table * W :=
  match rows with
  | [] => (Done n, t, w)
  | (id, s) :: rows =>
      if skip (KEKID s) then rewrap_rows skip from to rows n t w
      else
        match Rewrap rand_Read vault_do data_field from to s w with
        | (Done r, w) =>
            let '(f, w) := next_fate w in
            match ReplaceWrapped f id.1 id.2 r t with
            | (Done _, t) => rewrap_rows skip from to rows (n + 1) t w
            | (Failed e, t) => (Failed ("save: " +:+ e), t, w)
            | (Panicked, t) => (Panicked, t, w)
            end
        | (Failed e, w) => (Failed ("rewrap: " +:+ e), t, w)
        | (Panicked, w) => (Panicked, t, w)
        end
  end.

(** [rotate-kek]: only records of the old local key. *)
Definition rotate_kek (oldK : LocalKEK) (newK : KEK W) (rows : list ((string * Z) * Sealed)) (t : table) (w : W) : outcome Z * table * W :=
  rewrap_rows (fun id => negb (String.eqb id (lk_id oldK))) (KLocal (Some oldK)) newK rows 0 t w.

(** [secrets rewrap]: every record that is not under the current key. *)
Definition secrets_rewrap (currentKEK sourceKEK : KEK W) (cur : string) (rows : list ((string * Z) * Sealed)) (t : table) (w : W) : outcome Z * table * W :=
  rewrap_rows (fun id => String.eqb id cur) sourceKEK currentKEK rows 0 t w.
End Rewrapping.

(** ** Versions and the active record *)

Lemma next_version_fresh p t v r : t !! (p, v) = Some r -> v < next_version p t.
Proof.
  intros Hl. unfold next_version.
  assert (v ∈ map (fun kv : string * Z * credential_row => kv.1.2) (map_to_list (of_provider p t))) as Hin.
  { apply list_elem_of_fmap. exists ((p, v), r). split; [done|]. apply elem_of_map_to_list. unfold of_provider.
    by apply map_lookup_filter_Some. }
  revert Hin. generalize (map (fun kv : string * Z * credential_row => kv.1.2) (map_to_list (of_provider p t))).
  induction l as [|x l IH]; [by intros ?%elem_of_nil|]. intros [->|Hin]%elem_of_cons; cbn; [lia|]. specialize (IH Hin). lia.
Qed.

Lemma deactivate_lookup p t k : deactivate p t !! k =
  option_map (fun r => if bool_decide (k.1 = p) then mkRow (cr_sealed r) (cr_created_by r) (cr_created_at r) false else r) (t !! k).
Proof. unfold deactivate. rewrite map_lookup_imap. by destruct (t !! k). Qed.

(** At most one record of a provider is active (the unique index of the table). *)
Definition one_active (t : table) : Prop := forall p v1 v2 r1 r2,
  t !! (p, v1) = Some r1 -> t !! (p, v2) = Some r2 -> cr_active r1 = true -> cr_active r2 = true -> v1 = v2.

(** The rows of the table after a put that are active. *)
Lemma put_active_lookup now p s actor t q v r : let t' := (PutCredential Commits now p s actor t).2 in
  t' !! (q, v) = Some r -> cr_active r = true ->
  q = p /\ v = next_version p t /\ cr_sealed r = s \/ q <> p /\ t !! (q, v) = Some r.
Proof.
  cbn. intros Hl Ha. apply lookup_insert_Some in Hl as [[Heq <-]|[Hne Hl]].
  - left. by injection Heq as <- <-.
  - right. rewrite deactivate_lookup in Hl. destruct (t !! (q, v)) as [r0|]; [|done]. cbn in Hl.
    destruct (decide (q = p)) as [Hq|Hq]; [rewrite bool_decide_true in Hl by done|rewrite bool_decide_false in Hl by done].
    + injection Hl as <-. done.
    + split; [done|]. exact Hl.
Qed.

Lemma put_one_active f now p s actor t : one_active t -> one_active (PutCredential f now p s actor t).2.
Proof.
  intros Ht. assert (one_active (PutCredential Commits now p s actor t).2) as Hnew; [|by destruct f].
  intros q v1 v2 r1 r2 H1 H2 A1 A2.
  apply put_active_lookup in H1 as [(-> & -> & _)|[Hq H1]], H2 as [(Hp & -> & _)|[Hq' H2]]; try done. by eapply (Ht q).
Qed.

Lemma active_rows_elem p t k r : (k, r) ∈ active_rows p t <-> t !! k = Some r /\ k.1 = p /\ cr_active r = true.
Proof.
  unfold active_rows. rewrite elem_of_map_to_list, map_lookup_filter_Some. naive_solver.
Qed.

Lemma ActiveCredential_row p t v r : one_active t -> t !! (p, v) = Some r -> cr_active r = true ->
  ActiveCredential true p t = Done (cr_sealed r, v).
Proof.
  intros Ht Hl Ha. unfold ActiveCredential. cbn [negb].
  assert ((p, v, r) ∈ active_rows p t) as Hin by by apply active_rows_elem.
  destruct (active_rows p t) as [|[[q u] r'] l] eqn:Hr; [by apply elem_of_nil in Hin|].
  assert ((q, u, r') ∈ active_rows p t) as (Hl' & Hq & Ha')%active_rows_elem by (rewrite Hr; left). cbn in Hq. subst q.
  assert (u = v) as -> by by eapply (Ht p). by simplify_eq.
Qed.

Lemma ActiveCredential_inv p t s v : ActiveCredential true p t = Done (s, v) ->
  exists r, t !! (p, v) = Some r /\ cr_active r = true /\ cr_sealed r = s.
Proof.
  unfold ActiveCredential. cbn [negb]. destruct (active_rows p t) as [|[[q u] r'] l] eqn:Hr; [done|]. intros [= <- <-].
  assert ((q, u, r') ∈ active_rows p t) as (Hl' & Hq & Ha')%active_rows_elem by (rewrite Hr; left). cbn in *. subst q. eauto.
Qed.

Lemma ActiveCredential_same q t t' : one_active t -> one_active t' ->
  (forall v r, cr_active r = true -> t !! (q, v) = Some r <-> t' !! (q, v) = Some r) ->
  ActiveCredential true q t' = ActiveCredential true q t.
Proof.
  intros Ht Ht' Heq. destruct (ActiveCredential true q t) as [[s v]|e|] eqn:Ha.
  - apply ActiveCredential_inv in Ha as (r & Hl & Hact & <-). apply ActiveCredential_row; [done| |done]. by apply Heq.
  - destruct (ActiveCredential true q t') as [[s v]|e'|] eqn:Ha'.
    + apply ActiveCredential_inv in Ha' as (r & Hl & Hact & <-). apply Heq in Hl; [|done].
      rewrite (ActiveCredential_row q t v r) in Ha by done. done.
    + unfold ActiveCredential in *. cbn in *. destruct (active_rows q t) as [|[] ?], (active_rows q t') as [|[] ?]; congruence.
    + unfold ActiveCredential in Ha'. cbn in Ha'. by destruct (active_rows q t') as [|[] ?].
  - unfold ActiveCredential in Ha. cbn in Ha. by destruct (active_rows q t) as [|[] ?].
Qed.

(** A credential that is stored becomes the active one of its provider, under a
    version greater than every earlier one; no record disappears, only the active
    flag of the provider's records changes, and the other providers keep their
    active credential.  After any fate of the transaction at most one record of a
    provider is active. *)
Theorem put_then_active f now provider sealed actor t v t' (Ht : one_active t)
  (Hput : PutCredential f now provider sealed actor t = (Done v, t')) :
  ActiveCredential true provider t' = Done (sealed, v) /\
  (forall v' r, t !! (provider, v') = Some r -> v' < v /\ exists r', t' !! (provider, v') = Some r' /\ cr_sealed r' = cr_sealed r) /\
  (forall q, q <> provider -> ActiveCredential true q t' = ActiveCredential true q t) /\
  one_active t'.
Proof.
  assert (one_active t') as Ht'.
  { replace t' with (PutCredential f now provider sealed actor t).2 by by rewrite Hput. by apply put_one_active. }
  destruct f; [|done..]. unfold PutCredential in Hput. cbn in Hput. injection Hput as <- <-. split_and!.
  - rewrite (ActiveCredential_row _ _ (next_version provider t) (mkRow sealed actor now true)); [done|done| |done]. by rewrite lookup_insert_eq.
  - intros v' r Hl. pose proof (next_version_fresh _ _ _ _ Hl). split; [done|]. rewrite lookup_insert_ne by (intros [=]; lia).
    rewrite deactivate_lookup, Hl. cbn. rewrite bool_decide_true by done. eauto.
  - intros q Hq. apply ActiveCredential_same; [done|done|]. intros v' r Ha.
    rewrite lookup_insert_ne by congruence. rewrite deactivate_lookup. cbn. destruct (t !! (q, v')); cbn; [|done]. by rewrite bool_decide_false by done.
  - done.
Qed.

(** ** Rewrapping *)

Lemma rewrap_keeps `{!AES} {W} rand_Read vault_do data_field (from to : KEK W) s w s' w' :
  Rewrap rand_Read vault_do data_field from to s w = (Done s', w') -> Nonce s' = Nonce s /\ Ciphertext s' = Ciphertext s.
Proof. unfold Rewrap. intros Hr. eff_steps. done. Qed.

Definition kept (r r' : credential_row) : Prop :=
  cr_created_by r' = cr_created_by r /\ cr_created_at r' = cr_created_at r /\ cr_active r' = cr_active r.

Lemma kept_refl r : kept r r.
Proof. done. Qed.

Lemma kept_trans r1 r2 r3 : kept r1 r2 -> kept r2 r3 -> kept r1 r3.
Proof. unfold kept. intuition congruence. Qed.

Lemma ReplaceWrapped_spec f id s t r o t1 : t !! id = Some r -> Nonce s = Nonce (cr_sealed r) -> Ciphertext s = Ciphertext (cr_sealed r) ->
  ReplaceWrapped f id.1 id.2 s t = (o, t1) ->
  (forall j, j <> id -> t1 !! j = t !! j) /\
  exists r1, t1 !! id = Some r1 /\ kept r r1 /\ (cr_sealed r1 = s \/ cr_sealed r1 = cr_sealed r /\ o = Failed db_error).
Proof.
  destruct id as [p v]. unfold ReplaceWrapped, transact. intros Hl Hn Hc Hr. cbn in Hr.
  set (g := fun r : credential_row => _) in Hr.
  assert (cr_sealed (g r) = s) as Hg by (unfold g; cbn; rewrite <- Hn, <- Hc; by destruct s).
  assert (kept r (g r)) by done.
  destruct f; injection Hr as <- <-; (split; [intros j Hj; by rewrite ?lookup_alter_ne|]).
  1,3: exists (g r); rewrite lookup_alter_eq, Hl; by split_and!; [..|left].
  exists r. by split_and!; [..|right].
Qed.

Section Rewrapping.
Context `{!AES} {W : Type} (rand_Read : nat -> eff W string)
  (vault_do : string -> string -> list (string * string) -> eff W (Z * string))
  (data_field : string -> string -> outcome string)
  (next_fate : W -> fate * W) (skip : string -> bool) (from to : KEK W) (pt : string * Z -> string) (reliable : bool).

Abbreviation under := (fun k id s => sealed_under rand_Read vault_do data_field k s (pt id) (AAD id.1)).

(** The record is sealed under a lawful key that [from] offers for it. *)
Definition source_reads (id : string * Z) (s : Sealed) : Prop :=
  exists k, under k id s /\ lawful rand_Read vault_do data_field reliable k /\ offers from (KEKID s) k.

(** What has become of the record of [id] when the records [moved] were to be rewrapped. *)
Definition moved_or_kept (moved : list (string * Z)) (id : string * Z) (r r' : credential_row) : Prop :=
  kept r r' /\ (cr_sealed r' = cr_sealed r \/ id ∈ moved /\ skip (KEKID (cr_sealed r)) = false /\ under to id (cr_sealed r')).

Lemma moved_or_kept_refl moved id r : moved_or_kept moved id r r.
Proof. split; [done|by left]. Qed.

Lemma moved_or_kept_cons moved id0 id r r' : moved_or_kept moved id r r' -> moved_or_kept (id0 :: moved) id r r'.
Proof. intros [Hk [?|(? & ? & ?)]]; (split; [done|]); [by left|right]. split_and!; [by right|done..]. Qed.

Definition rewrap_post (rows : list ((string * Z) * Sealed)) (t : table) (o : outcome Z) (t' : table) : Prop :=
  (forall id, t !! id = None -> t' !! id = None) /\
  (forall id r, t !! id = Some r -> exists r', t' !! id = Some r' /\ moved_or_kept rows.*1 id r r') /\
  (forall m id s, o = Done m -> (id, s) ∈ rows -> skip (KEKID s) = false -> exists r', t' !! id = Some r' /\ under to id (cr_sealed r')).

Lemma rewrap_stopped rows t o : (forall m, o <> Done m) -> rewrap_post rows t o t.
Proof. intros Ho. split_and!; [done| |intros m ? ? ->; by destruct (Ho m)]. intros id r Hl. exists r. split; [done|apply moved_or_kept_refl]. Qed.

(** The first record is written, with whatever fate. *)
Lemma rewrap_written id s rows t o t1 t' r r1 : id ∉ rows.*1 -> t !! id = Some r -> cr_sealed r = s -> skip (KEKID s) = false ->
  (forall j, j <> id -> t1 !! j = t !! j) -> t1 !! id = Some r1 -> kept r r1 ->
  (under to id (cr_sealed r1) \/ cr_sealed r1 = s /\ forall m, o <> Done m) ->
  rewrap_post rows t1 o t' -> rewrap_post ((id, s) :: rows) t o t'.
Proof.
  intros Hni Hl Hs Hsk Hne Hl1 Hk Hw (A & B & C).
  destruct (B id r1 Hl1) as (r2 & Hl2 & Hk2 & [He|(Hin & _)]); [|done].
  split_and!.
  - intros j Hj. apply A. rewrite Hne; [done|]. intros ->. congruence.
  - intros j rj Hj. destruct (decide (j = id)) as [->|Hji].
    + exists r2. split; [done|]. simplify_eq. split; [by eapply kept_trans|]. destruct Hw as [Hw|[Hw _]].
      * right. rewrite He. split_and!; [left|done|done].
      * left. congruence.
    + rewrite <- Hne in Hj by done. destruct (B j rj Hj) as (r' & ? & ?). exists r'. split; [done|by apply moved_or_kept_cons].
  - intros m j s' Ho [Heq|Hin]%elem_of_cons Hsk'.
    + simplify_eq. exists r2. split; [done|]. rewrite He. destruct Hw as [Hw|[_ Hw]]; [done|by destruct (Hw m)].
    + by eapply C.
Qed.

Lemma rewrap_rows_spec rows : forall n t w o t' w',
  NoDup rows.*1 ->
  (forall id s, (id, s) ∈ rows -> cr_sealed <$> t !! id = Some s /\ (skip (KEKID s) = false -> source_reads id s)) ->
  rewrap_rows rand_Read vault_do data_field next_fate skip from to rows n t w = (o, t', w') -> rewrap_post rows t o t'.
Proof.
  induction rows as [|[id s] rows IH]; intros n t w o t' w' Hnd Hrows Hrun; cbn [rewrap_rows] in Hrun.
  { injection Hrun as <- <- <-. split_and!; [done| |by intros ? ? ? _ ?%elem_of_nil].
    intros id r Hl. exists r. split; [done|apply moved_or_kept_refl]. }
  apply NoDup_cons in Hnd as [Hni Hnd]. destruct (Hrows id s ltac:(left)) as [Hs Hsrc].
  destruct (skip (KEKID s)) eqn:Hsk.
  { destruct (IH _ _ _ _ _ _ Hnd ltac:(intros; apply Hrows; by right) Hrun) as (A & B & C). split_and!; [done| |].
    - intros id' r Hl. destruct (B id' r Hl) as (r' & ? & ?). exists r'. split; [done|by apply moved_or_kept_cons].
    - intros m id' s' Ho [Heq|Hin]%elem_of_cons Hs'; [simplify_eq; congruence|by eapply C]. }
  destruct (Rewrap rand_Read vault_do data_field from to s w) as [[s'|e|] w1] eqn:Hrw.
  2,3: injection Hrun as <- <- <-; by apply rewrap_stopped.
  destruct (Hsrc eq_refl) as (k & Hu & Hlaw & Hof). pose proof (rewrap_sealed _ _ _ _ _ _ _ _ _ _ _ _ _ Hu Hlaw Hof Hrw) as Hto.
  pose proof (rewrap_keeps _ _ _ _ _ _ _ _ _ Hrw) as [Hn Hc].
  destruct (next_fate w1) as [f w2]. destruct (t !! id) as [r0|] eqn:Ht; [|done]. cbn in Hs. injection Hs as Hs.
  destruct (ReplaceWrapped f id.1 id.2 s' t) as [o1 t1] eqn:Hrep.
  destruct (ReplaceWrapped_spec f id s' t r0 o1 t1 Ht ltac:(congruence) ltac:(congruence) Hrep) as (Hne & r1 & Hl1 & Hk & Hw).
  assert (forall o', o1 <> Done tt -> (forall m, o' <> Done m) -> rewrap_post ((id, s) :: rows) t o' t1) as Hstop.
  { intros o' _ Ho'. eapply rewrap_written; try done; [|by apply rewrap_stopped].
    destruct Hw as [Hw|[Hw _]]; [left; by rewrite Hw|right; split; [congruence|done]]. }
  destruct o1 as [[]|e|]; [|injection Hrun as <- <- <-; by apply Hstop..].
  eapply rewrap_written; try done; [|eapply IH; [done| |done]].
  - left. destruct Hw as [Hw|[_ Hw]]; [by rewrite Hw|done].
  - intros id' s'' Hin. rewrite Hne; [apply Hrows; by right|]. intros ->. apply Hni. apply list_elem_of_fmap. by exists (id, s'').
Qed.
End Rewrapping.

Lemma AllSealed_rows t rows : rows ≡ₚ map_to_list (AllSealed t) -> NoDup rows.*1 /\ forall id s, (id, s) ∈ rows <-> cr_sealed <$> t !! id = Some s.
Proof.
  intros Hp. split; [rewrite Hp; apply NoDup_fst_map_to_list|]. intros id s. rewrite Hp, elem_of_map_to_list. unfold AllSealed. by rewrite lookup_fmap.
Qed.

(** C12. [proofgatectl secrets rewrap] loses no credential.  When every record opens to
    its plaintext under the current key or a key the source offers, then however the
    command ends (a key service or a statement that fails on the way, an answer that
    is lost) every record still does and keeps its version, author and active flag;
    when it reports success, every record opens to its plaintext under the current
    key alone. *)
Theorem rewrap_loses_nothing `{!AES} `{!AESLaws} {W} rand_Read vault_do data_field next_fate (current source : KEK W) cur
  (pt : string * Z -> string) reliable rows t w o t' w'
  (Hcur : ID current = Some cur) (Hlaw : lawful rand_Read vault_do data_field reliable current)
  (Ht : forall id r, t !! id = Some r ->
     if String.eqb (KEKID (cr_sealed r)) cur then sealed_under rand_Read vault_do data_field current (cr_sealed r) (pt id) (AAD id.1)
     else source_reads rand_Read vault_do data_field source pt reliable id (cr_sealed r))
  (Hrows : rows ≡ₚ map_to_list (AllSealed t))
  (Hrun : secrets_rewrap rand_Read vault_do data_field next_fate current source cur rows t w = (o, t', w')) :
  let opens k id r := forall w2, reads reliable (Open vault_do data_field k (cr_sealed r) (AAD id.1) w2).1 (pt id) in
  (forall id, is_Some (t' !! id) <-> is_Some (t !! id)) /\
  (forall id r r', t !! id = Some r -> t' !! id = Some r' -> kept r r' /\ (opens current id r' \/ opens source id r')) /\
  (forall n id r', o = Done n -> t' !! id = Some r' -> opens current id r').
Proof.
  apply AllSealed_rows in Hrows as [Hnd Hrows]. cbn.
  assert (forall id s w2, sealed_under rand_Read vault_do data_field current s (pt id) (AAD id.1) ->
    reads reliable (Open vault_do data_field current s (AAD id.1) w2).1 (pt id)) as Hopen.
  { intros id s w2 Hu. eapply (open_sealed rand_Read vault_do data_field); [exact Hu|done|]. left. split; [|done]. by destruct Hu as (? & ? & _). }
  destruct (rewrap_rows_spec rand_Read vault_do data_field next_fate (fun id => String.eqb id cur) source current pt reliable
              rows 0 t w o t' w' Hnd) as (A & B & C); [|exact Hrun|].
  { intros id s Hin%Hrows. split; [done|]. destruct (t !! id) as [r|] eqn:Hl; [|done]. cbn in Hin. injection Hin as <-.
    intros Hne. specialize (Ht id r Hl). by rewrite Hne in Ht. }
  split; [|split].
  - intros id. destruct (t !! id) as [r0|] eqn:Hl0; [destruct (B id r0 Hl0) as (? & -> & _); by split|by rewrite A].
  - intros id r r' Hl Hl'. destruct (B id r Hl) as (r2 & Hl2 & Hk & Hm). simplify_eq. split; [done|].
    specialize (Ht id r Hl). destruct Hm as [He|(_ & _ & Hu)]; [|by left; intros; apply Hopen]. rewrite He.
    destruct (String.eqb (KEKID (cr_sealed r)) cur); [by left; intros; apply Hopen|]. destruct Ht as (k & Hu & Hk1 & Hof).
    right. intros w2. by eapply (open_sealed rand_Read vault_do data_field).
  - intros n id r' Ho Hl' w2. destruct (t !! id) as [r|] eqn:Hl; [|by rewrite A in Hl'].
    destruct (String.eqb (KEKID (cr_sealed r)) cur) eqn:Hc.
    + destruct (B id r Hl) as (r2 & Hl2 & _ & Hm). simplify_eq. apply Hopen. specialize (Ht id r Hl). rewrite Hc in Ht.
      destruct Hm as [->|(_ & Hsk & _)]; [done|congruence].
    + destruct (C n id (cr_sealed r) Ho) as (r2 & Hl2 & Hu); [|done|]. { apply Hrows. by rewrite Hl. } simplify_eq. by apply Hopen.
Qed.

(** ** Witnesses *)

Import ToyKeys.

Definition table1 : table := {[("openai", 1) := mkRow sealed1 "alice" 0 true]}.

Lemma table1_one_active : one_active table1.
Proof.
  intros p v1 v2 r1 r2 H1 H2 _ _. unfold table1 in *.
  apply lookup_singleton_Some in H1 as [H1 _], H2 as [H2 _]. congruence.
Qed.

Lemma put_then_active_witness :
  exists t', PutCredential Commits 5 "openai" sealed2 "bob" table1 = (Done 2, t') /\
  ActiveCredential true "openai" t' = Done (sealed2, 2) /\
  (forall v' r, table1 !! ("openai", v') = Some r -> v' < 2 /\ exists r', t' !! ("openai", v') = Some r' /\ cr_sealed r' = cr_sealed r) /\
  (forall q, q <> "openai" -> ActiveCredential true q t' = ActiveCredential true q table1) /\
  one_active t'.
Proof.
  eexists. split; [reflexivity|]. apply (put_then_active Commits 5 "openai" sealed2 "bob" table1 2); [apply table1_one_active|reflexivity].
Defined.

Definition no_fate (w : nat) : fate * nat := (Commits, S w).

Definition table2 : table :=
  (secrets_rewrap rand no_vault no_field no_fate (KLocal (Some key2)) both "local:2" [(("openai", 1), sealed1)] table1 0%nat).1.2.

Lemma rewrap_loses_nothing_witness :
  secrets_rewrap rand no_vault no_field no_fate (KLocal (Some key2)) both "local:2" [(("openai", 1), sealed1)] table1 0%nat = (Done 1, table2, 2%nat) /\
  forall id r', table2 !! id = Some r' -> forall w2, reads true (Open no_vault no_field (KLocal (Some key2)) (cr_sealed r') (AAD id.1) w2).1 "sk-1".
Proof.
  split; [reflexivity|]. intros id r' Hl.
  pose proof (local_lawful rand no_vault no_field rand_length key1 eq_refl) as Hl1.
  pose proof (local_lawful rand no_vault no_field rand_length key2 eq_refl) as Hl2.
  destruct (rewrap_loses_nothing rand no_vault no_field no_fate (KLocal (Some key2)) both "local:2" (fun _ => "sk-1") true
              [(("openai", 1), sealed1)] table1 0%nat (Done 1) table2 2%nat eq_refl Hl2) as (_ & _ & C).
  - intros id0 r Hr. unfold table1 in Hr. apply lookup_singleton_Some in Hr as [<- <-]. exists (KLocal (Some key1)). split_and!.
    + apply (seal_sealed rand no_vault no_field rand_length _ _ _ 0%nat _ 3%nat). reflexivity.
    + exact Hl1.
    + right. split; [by exists "local:2"|]. eexists. split; reflexivity.
  - reflexivity.
  - reflexivity.
  - by eapply C.
Defined.
