(* ===== verification/Control.v ===== *)
(** * The control bus (src/internal/control/bus.go)

    Replicas tell each other over one Redis channel what to forget: messages with an
    operation and a few named arguments, checked when they are published and again
    when they arrive, and handed to the functions that subscribed to the operation.
    encoding/json is a pair of functions of the class [MessageJson]. *)

From S2P Require Import Prelude GoStrings Encoding.

Open Scope string_scope.
Open Scope list_scope.
Open Scope Z_scope.

Definition ProtocolVersion : Z := 1.
Definition DefaultChannel : string := "proofgate:ctl".
Definition OpPurgeSecrets : string := "purge_secrets".
Definition OpPurgeCache : string := "purge_cache".
Definition OpReload : string := "reload".
Definition OpKeyRevoked : string := "key_revoked".
Definition OpCredentialInvalidated : string := "credential_invalidated".
Definition OpTenantErased : string := "tenant_erased".

Record Message := mkMessage { Version : Z; Op : string; Args : gmap string string; TS : Time; Sender : string }.

Class MessageJson := {
  marshal_message : Message -> string + string;
  unmarshal_message : string -> string + Message
}.

(** ** Validation *)

Definition arg (m : Message) (k : string) : string := default "" (Args m !! k).

Definition allowed : list (string * list string) :=
  [(OpPurgeSecrets, ["reason"]); (OpPurgeCache, ["tenant_id"; "route"; "tags"]); (OpReload, []);
   (OpKeyRevoked, ["key_hash"]); (OpCredentialInvalidated, ["provider"; "version"]); (OpTenantErased, ["tenant_id"; "receipt_id"])].

Definition allowed_keys (op : string) : option (list string) :=
  match list_find (fun kv => kv.1 = op) allowed with Some (_, (_, keys)) => Some keys | None => None end.

Definition secret_key (key : string) : bool :=
  let k := lower_ascii key in
  contains k "secret" || contains k "token" || contains k "password" || contains k "api_key" || contains k "plaintext".

Definition secret_value (v : string) : bool := has_prefix "pg_" v || has_prefix "sk-" v || has_prefix "sk_" v.

(** One round of the loop over the arguments. *)
Definition check_arg (op : string) (keys : list string) (kv : string * string) : option string :=
  if negb (bool_decide (kv.1 ∈ keys)) then Some ("argument " +:+ go_quote kv.1 +:+ " is not allowed for " +:+ op)
  else if secret_key kv.1 then Some ("secret-bearing argument " +:+ go_quote kv.1 +:+ " is not allowed")
  else if secret_value kv.2 then Some ("secret-looking value is not allowed for " +:+ go_quote kv.1)
  else None.

(** A range over a map comes in no particular order; which error is reported may
    depend on it, [check_args_order] shows that acceptance does not. *)
Fixpoint check_args (op : string) (keys : list string) (l : list (string * string)) : option string :=
  match l with
  | [] => None
  | kv :: l => match check_arg op keys kv with Some e => Some e | None => check_args op keys l end
  end.

Definition blank (s : string) : bool := String.eqb (trim_space s) "".

Definition check_op (m : Message) : option string :=
  if String.eqb (Op m) OpKeyRevoked then
    if blank (arg m "key_hash") then Some "key_hash required" else None
  else if String.eqb (Op m) OpCredentialInvalidated then
    if blank (arg m "provider") then Some "provider required"
    else match Atoi (arg m "version") with
         | Some v => if v <=? 0 then Some "positive credential version required" else None
         | None => Some "positive credential version required"
         end
  else if String.eqb (Op m) OpTenantErased then
    if blank (arg m "tenant_id") then Some "tenant_id required" else None
  else None.

(** [Message.Validate]: the error, if any. *)
Definition Validate (m : Message) : option string :=
  if negb (Version m =? 0) && negb (Version m =? ProtocolVersion) then Some ("unsupported control message version " +:+ itoa (Version m))
  else if String.eqb (Op m) "" then Some "control operation required"
  else match allowed_keys (Op m) with
       | None => Some ("unsupported control operation " +:+ go_quote (Op m))
       | Some keys => match check_args (Op m) keys (map_to_list (Args m)) with
                      | Some e => Some e
                      | None => check_op m
                      end
       end.

(** ** Payloads *)

Definition KeyRevokedArgs (hash : string) : gmap string string := {["key_hash" := hex_encode hash]}.

Definition CredentialInvalidatedArgs (provider : string) (version : Z) : gmap string string :=
  {["provider" := provider; "version" := itoa version]}.

Definition TenantErasedArgs (tenantID receiptID : string) : gmap string string :=
  let args := {["tenant_id" := tenantID]} in
  if negb (String.eqb receiptID "") then <["receipt_id" := receiptID]> args else args.

(** ** The bus

    [HandlerFunc]s act on the state of their replica. *)
Section Bus.
Context `{MessageJson} {W : Type} (now : W -> Time) (redis_publish : string -> string -> W -> option string * W).

Definition HandlerFunc : Type := Message -> W -> option string * W.

Record Bus := mkBus { rdb : bool; channel : string; sender : string; handlers : gmap string (list HandlerFunc) }.

Definition NewBus (rdb : bool) (sender channel : string) : Bus :=
  mkBus rdb (if String.eqb channel "" then DefaultChannel else channel) sender ∅.

Definition subscribed (b : Bus) (op : string) : list HandlerFunc := default [] (handlers b !! op).

Definition Subscribe (op : string) (fn : HandlerFunc) (b : Bus) : Bus :=
  mkBus (rdb b) (channel b) (sender b) (<[op := subscribed b op ++ [fn]]> (handlers b)).

Definition Publish (b : Bus) (op : string) (args : gmap string string) (w : W) : option string * W :=
  if negb (rdb b) then (Some "redis client not configured", w)
  else
    let msg := mkMessage ProtocolVersion op args (now w) (sender b) in
    match Validate msg with
    | Some e => (Some ("invalid control message: " +:+ e), w)
    | None => match marshal_message msg with
              | inl e => (Some ("marshal control message: " +:+ e), w)
              | inr data => redis_publish (channel b) data w
              end
    end.

Definition PublishKeyRevoked (b : option Bus) (hash : string) (w : W) : option string * W :=
  match b with None => (Some "control bus not configured", w) | Some b => Publish b OpKeyRevoked (KeyRevokedArgs hash) w end.

Definition PublishCredentialInvalidated (b : option Bus) (provider : string) (version : Z) (w : W) : option string * W :=
  match b with None => (Some "control bus not configured", w)
             | Some b => Publish b OpCredentialInvalidated (CredentialInvalidatedArgs provider version) w end.

(** Handlers run one after the other; an error is logged. *)
Definition run_handlers (hs : list HandlerFunc) (m : Message) (w : W) : W := fold_left (fun w h => (h m w).2) hs w.

Definition Dispatch (b : Bus) (m : Message) (w : W) : W :=
  match Validate m with
  | Some _ => w
  | None =>
      let m := if Version m =? 0 then mkMessage ProtocolVersion (Op m) (Args m) (TS m) (Sender m) else m in
      run_handlers (subscribed b "*") m (run_handlers (subscribed b (Op m)) m w)
  end.

(** [Run]: what the subscription delivers.  When the channel is closed the bus
    subscribes again a second later and sees nothing of what was published between;
    the end of the context ends the loop. *)
Inductive delivery := Payload (data : string) | Disconnected.

Definition on_delivery (b : Bus) (w : W) (d : delivery) : W :=
  match d with
  | Disconnected => w
  | Payload data => match unmarshal_message data with inl _ => w | inr m => Dispatch b m w end
  end.

Definition Run (b : Bus) (ds : list delivery) (w : W) : W :=
  if negb (rdb b) then w else fold_left (on_delivery b) ds w.
End Bus.

(** ** Validation *)

Lemma check_args_None op keys l : check_args op keys l = None <-> Forall (fun kv => check_arg op keys kv = None) l.
Proof.
  induction l as [|kv l IH]; cbn; [by split; constructor|]. rewrite Forall_cons, <- IH.
  destruct (check_arg op keys kv); naive_solver.
Qed.

Lemma check_args_order op keys l l' : l ≡ₚ l' -> check_args op keys l = None <-> check_args op keys l' = None.
Proof. intros Hp. by rewrite !check_args_None, Hp. Qed.

Lemma check_arg_None op keys k v : check_arg op keys (k, v) = None <-> k ∈ keys /\ secret_key k = false /\ secret_value v = false.
Proof.
  unfold check_arg. cbn. case_bool_decide; cbn; [|naive_solver]. destruct (secret_key k), (secret_value v); naive_solver.
Qed.

Lemma Validate_args m : Validate m = None -> forall k v, Args m !! k = Some v -> secret_value v = false /\
  exists keys, allowed_keys (Op m) = Some keys /\ k ∈ keys.
Proof.
  unfold Validate. intros Hv k v Hk. destruct (_ && _); [done|]. destruct (String.eqb (Op m) ""); [done|].
  destruct (allowed_keys (Op m)) as [keys|]; [|done]. destruct (check_args _ _ _) eqn:Hc; [done|].
  apply check_args_None in Hc. rewrite Forall_forall in Hc. specialize (Hc (k, v)). rewrite elem_of_map_to_list in Hc.
  specialize (Hc Hk). apply check_arg_None in Hc as (Hin & _ & Hs). eauto.
Qed.

(** ** What is published is accepted everywhere *)

Lemma trim_right_nonempty p c s : p c = false -> trim_right p (String c s) <> "".
Proof. intros Hc. cbn. rewrite Hc. by destruct (trim_right p s). Qed.

Lemma blank_nonspace c s : is_space c = false -> blank (String c s) = false.
Proof.
  intros Hc. unfold blank, trim_space. cbn [trim_left]. rewrite Hc. apply String.eqb_neq. by apply trim_right_nonempty.
Qed.

Lemma hex_digit_plain d : 0 <= d < 16 -> is_space (hex_digit d) = false /\ hex_digit d <> "p"%char /\ hex_digit d <> "s"%char.
Proof.
  intros H. assert (forallb (fun d => negb (is_space (hex_digit d)) && negb (Ascii.eqb (hex_digit d) "p") && negb (Ascii.eqb (hex_digit d) "s"))
    (map Z.of_nat (seq 0 16)) = true) as F by reflexivity.
  rewrite forallb_forall in F. specialize (F d). rewrite !andb_true_iff, !negb_true_iff, !Ascii.eqb_neq in F.
  destruct F as [[? ?] ?]; [|done]. apply in_map_iff. exists (Z.to_nat d). split; [lia|]. apply in_seq. lia.
Qed.

Lemma secret_value_first c s : c <> "p"%char -> c <> "s"%char -> secret_value (String c s) = false.
Proof.
  intros Hp Hs. unfold secret_value. cbn [has_prefix]. by rewrite !(proj2 (Ascii.eqb_neq _ _)) by congruence.
Qed.

Lemma hex_encode_plain h : h <> "" -> blank (hex_encode h) = false /\ secret_value (hex_encode h) = false.
Proof.
  destruct h as [|c h]; [done|]. intros _. cbn [hex_encode]. pose proof (byte_val_range c).
  destruct (hex_digit_plain (byte_val c / 16)) as (A & B & C); [Z.to_euclidean_division_equations; lia|].
  split; [by apply blank_nonspace|by apply secret_value_first].
Qed.

Lemma utoa_plain n : secret_value (utoa n) = false.
Proof.
  pose proof (utoa_nonempty n) as Hne. pose proof (utoa_digits n) as Hd. destruct (utoa n) as [|c s]; [done|].
  cbn in Hd. apply andb_true_iff in Hd as [Hc _]. apply secret_value_first; intros ->; done.
Qed.

Section Payloads.
Variables (t : Time) (s : string).

Lemma key_revoked_valid hash : hash <> "" -> Validate (mkMessage ProtocolVersion OpKeyRevoked (KeyRevokedArgs hash) t s) = None.
Proof.
  intros Hh. destruct (hex_encode_plain hash Hh) as [Hb Hs]. unfold Validate. cbn [Version Op Args].
  change (negb (ProtocolVersion =? 0) && negb (ProtocolVersion =? ProtocolVersion)) with false.
  change (String.eqb OpKeyRevoked "") with false. change (allowed_keys OpKeyRevoked) with (Some ["key_hash"]). cbv iota.
  unfold KeyRevokedArgs. rewrite map_to_list_singleton. cbn [check_args]. rewrite (proj2 (check_arg_None _ _ _ _)).
  2:{ split_and!; [left|done|done]. }
  unfold check_op, arg. cbn [Op Args]. change (String.eqb OpKeyRevoked OpKeyRevoked) with true. rewrite lookup_singleton_eq. cbn [default from_option]. unfold id. by rewrite Hb.
Qed.

Lemma credential_valid provider version : in_int64 version -> 0 < version ->
  Validate (mkMessage ProtocolVersion OpCredentialInvalidated (CredentialInvalidatedArgs provider version) t s) = None <->
  blank provider = false /\ secret_value provider = false.
Proof.
  intros Hr Hv. unfold Validate. cbn [Version Op Args].
  change (negb (ProtocolVersion =? 0) && negb (ProtocolVersion =? ProtocolVersion)) with false.
  change (String.eqb OpCredentialInvalidated "") with false.
  change (allowed_keys OpCredentialInvalidated) with (Some ["provider"; "version"]). cbv iota.
  assert (map_to_list (CredentialInvalidatedArgs provider version) ≡ₚ [("provider", provider); ("version", itoa version)]) as Hp.
  { unfold CredentialInvalidatedArgs. rewrite map_to_list_insert by done. by rewrite map_to_list_singleton. }
  assert (check_op (mkMessage ProtocolVersion OpCredentialInvalidated (CredentialInvalidatedArgs provider version) t s) =
    if blank provider then Some "provider required" else None) as Hop.
  { unfold check_op. cbn [Op]. change (String.eqb OpCredentialInvalidated OpKeyRevoked) with false.
    change (String.eqb OpCredentialInvalidated OpCredentialInvalidated) with true. cbv iota.
    change (arg _ "provider") with provider. change (arg _ "version") with (itoa version). rewrite Atoi_itoa by (done || lia).
    by replace (version <=? 0) with false by (symmetry; apply Z.leb_gt; lia). }
  rewrite Hop.
  assert (check_args OpCredentialInvalidated ["provider"; "version"] (map_to_list (CredentialInvalidatedArgs provider version)) = None <->
    secret_value provider = false) as Hc.
  { rewrite (check_args_order _ _ _ _ Hp), check_args_None, !Forall_cons, Forall_nil, !check_arg_None.
    assert (secret_value (itoa version) = false) as Hiv.
    { unfold itoa. replace (version <? 0) with false by (symmetry; apply Z.ltb_ge; lia). apply utoa_plain. }
    split; [naive_solver|]. intros Hs. split_and!; try done; [left|right; left]. }
  destruct (check_args _ _ _) as [e|]; [split; [done|intros [_ ?]; by apply Hc]|]. destruct (blank provider); naive_solver.
Qed.
End Payloads.

Section Delivery.
Context `{MessageJson} {W : Type} (now : W -> Time) (redis_publish : string -> string -> W -> option string * W).

Lemma Publish_sent b op args (w w' : W) : Publish now redis_publish b op args w = (None, w') ->
  exists data, marshal_message (mkMessage ProtocolVersion op args (now w) (sender b)) = inr data /\
    Validate (mkMessage ProtocolVersion op args (now w) (sender b)) = None /\ redis_publish (channel b) data w = (None, w').
Proof.
  unfold Publish. destruct (rdb b); [|done]. cbn [negb]. destruct (Validate _) eqn:Hv; [done|].
  destruct (marshal_message _) as [e|data] eqn:Hm; [done|]. eauto.
Qed.

Lemma Dispatch_accepted (b : Bus) m (w : W) : Validate m = None -> Version m = ProtocolVersion ->
  Dispatch b m w = run_handlers (subscribed b "*") m (run_handlers (subscribed b (Op m)) m w).
Proof. intros Hv Hver. unfold Dispatch. rewrite Hv, Hver. done. Qed.
End Delivery.

(** A message that is published without error was put on the channel, and at
    every replica that receives it (its JSON decoding to what was encoded) each
    function that subscribed to the operation runs once, in the order of
    subscription, and then those that subscribed to all operations; no argument it
    carries begins like an API key or a provider's key.  The digest of a revoked key
    is always accepted; a credential's version is accepted unless the provider's
    name is blank or itself begins like a key. *)
Theorem published_message_is_dispatched `{!MessageJson} {W} now redis_publish (b : @Bus W) op args (w w' : W)
  (Hpub : Publish now redis_publish b op args w = (None, w'))
  (Hjson : forall m data, marshal_message m = inr data -> unmarshal_message data = inr m) :
  let m := mkMessage ProtocolVersion op args (now w) (sender b) in
  (exists data, marshal_message m = inr data /\ redis_publish (channel b) data w = (None, w') /\
     forall (b' : @Bus W) w2, on_delivery b' w2 (Payload data) = run_handlers (subscribed b' "*") m (run_handlers (subscribed b' op) m w2)) /\
  (forall k v, args !! k = Some v -> secret_value v = false) /\
  (forall hash, hash <> "" -> Validate (mkMessage ProtocolVersion OpKeyRevoked (KeyRevokedArgs hash) (now w) (sender b)) = None) /\
  (forall provider v, in_int64 v -> 0 < v ->
     Validate (mkMessage ProtocolVersion OpCredentialInvalidated (CredentialInvalidatedArgs provider v) (now w) (sender b)) = None <->
     blank provider = false /\ secret_value provider = false).
Proof.
  cbn zeta. apply Publish_sent in Hpub as (data & Hm & Hv & Hr). split; [|split; [|split]].
  - exists data. split_and!; [done|done|]. intros b' w2. cbn. rewrite (Hjson _ _ Hm). by rewrite Dispatch_accepted.
  - intros k v Hk. by eapply Validate_args in Hv as [? _].
  - intros hash Hh. by apply key_revoked_valid.
  - intros provider v Hr' Hv'. by apply credential_valid.
Qed.

(** ** A concrete bus *)

Module ToyBus.
(** A channel that carries one kind of message. *)
Definition revoked : Message := mkMessage ProtocolVersion OpKeyRevoked {["key_hash" := "6b"]} 7 "replica-1".

#[export] Instance toy_message : MessageJson := {
  marshal_message m :=
    if bool_decide (map_to_list (Args m) = [("key_hash", "6b")]) && String.eqb (Op m) OpKeyRevoked && (TS m =? 7) && (Version m =? 1)
       && String.eqb (Sender m) "replica-1"
    then inr "revoked" else inl "other";
  unmarshal_message d := if String.eqb d "revoked" then inr revoked else inl "other"
}.

Lemma toy_message_roundtrip m data : marshal_message m = inr data -> unmarshal_message data = inr m.
Proof.
  cbn [marshal_message toy_message]. destruct m as [v o a ts sd]. cbn [Args Op TS Version Sender].
  destruct (_ && _) eqn:Hb; [|done]. intros [= <-]. rewrite !andb_true_iff, bool_decide_eq_true, !String.eqb_eq, !Z.eqb_eq in Hb.
  destruct Hb as ((((Ha & ->) & ->) & ->) & ->). unfold unmarshal_message, toy_message. cbn [String.eqb Ascii.eqb Bool.eqb].
  unfold revoked. do 2 f_equal. rewrite <- (list_to_map_to_list a), Ha. done.
Qed.

(** The replicas' state is the list of what they forgot. *)
Definition forget : Message -> list string -> option string * list string := fun m l => (None, l ++ [arg m "key_hash"]).
Definition bus1 : @Bus (list string) := Subscribe OpKeyRevoked forget (NewBus true "replica-1" "").
Definition publish1 (ch data : string) (w : list string) : option string * list string := (None, w).
End ToyBus.
Import ToyBus.

Lemma published_message_is_dispatched_witness :
  Publish (fun _ => 7) publish1 bus1 OpKeyRevoked (KeyRevokedArgs "k") [] = (None, []) /\
  on_delivery bus1 [] (Payload "revoked") = ["6b"] /\
  exists data, forall (b' : @Bus (list string)) w2,
    on_delivery b' w2 (Payload data) = run_handlers (subscribed b' "*") revoked (run_handlers (subscribed b' OpKeyRevoked) revoked w2).
Proof.
  split; [reflexivity|]. split; [reflexivity|].
  destruct (@published_message_is_dispatched toy_message _ (fun _ => 7) publish1 bus1 OpKeyRevoked (KeyRevokedArgs "k") [] [] eq_refl toy_message_roundtrip)
    as [(data & _ & _ & H) _].
  exists data. exact H.
Defined.
