(* ===== verification/KeyCache.v ===== *)
(** * The cache of provider credentials (src/internal/secrets/keycache.go)

    A replica keeps the plaintext of the credentials it uses for a minute or so.  All
    requests for one provider that miss share one load ([singleflight]); a purge
    empties the cache and, through an epoch, keeps a load that was under way from
    storing what it read before.  The operations that hold the lock are functions of
    the cache; a load and the requests that wait for it are a machine whose steps
    interleave with purges, with changes of the credential table and with time. *)

From S2P Require Import Prelude GoStrings GoFloat Envelope Credentials Control.

Open Scope string_scope.
Open Scope list_scope.
Open Scope Z_scope.

(** ** The cache *)

Record cached := mkCached { ca_value : string; ca_expires : Time; ca_staleUntil : Time }.

Record KeyCache := mkKeyCache { kc_ttl : Duration; kc_staleGrace : Duration; kc_m : gmap string cached; kc_epoch : Z }.

Definition NewKeyCacheWithStaleGrace (ttl staleGrace : Duration) : KeyCache :=
  mkKeyCache (if ttl <=? 0 then 60 * second else ttl) (if staleGrace <=? 0 then 5 * minute else staleGrace) ∅ 0.

Definition NewKeyCache (ttl : Duration) : KeyCache := NewKeyCacheWithStaleGrace ttl (5 * minute).

Definition set_entries (m : gmap string cached) (k : KeyCache) : KeyCache := mkKeyCache (kc_ttl k) (kc_staleGrace k) m (kc_epoch k).

(** [uint64] *)
Definition next_epoch (e : Z) : Z := (e + 1) mod 2 ^ 64.

(** [c, ok := k.m[provider]; ok && now.Before(c.expires)] *)
Definition fresh_hit (now : Time) (provider : string) (k : KeyCache) : option string :=
  match kc_m k !! provider with
  | Some c => if now <? ca_expires c then Some (ca_value c) else None
  | None => None
  end.

Definition stale_hit (now : Time) (provider : string) (k : KeyCache) : option string :=
  match kc_m k !! provider with
  | Some c => if now <? ca_staleUntil c then Some (ca_value c) else None
  | None => None
  end.

(** The jitter of ten per cent either way, from [rand.Float64]. *)
Definition jittered (ttl : Duration) (rf : float64) : Duration :=
  let jitterFrac := fsub (fmul rf (f_lit 20 100)) (f_lit 10 100) in
  wrap64 (ttl + f_to_int64 (fmul (f_of_Z ttl) jitterFrac)).

Definition store_loaded (loadEpoch : Z) (provider pt : string) (now : Time) (rf : float64) (k : KeyCache) : KeyCache :=
  let exp := now + jittered (kc_ttl k) rf in
  let stale := exp + kc_staleGrace k in
  if kc_epoch k =? loadEpoch then set_entries (<[provider := mkCached pt exp stale]> (kc_m k)) k else k.

Definition Purge (k : KeyCache) : KeyCache := mkKeyCache (kc_ttl k) (kc_staleGrace k) ∅ (next_epoch (kc_epoch k)).

(** The names a purge of [provider] covers: its own and those of tenants. *)
Definition covers (provider name : string) : bool := String.eqb name provider || has_suffix ("/" +:+ provider) name.

Definition PurgeProvider (provider : string) (k : KeyCache) : KeyCache :=
  let provider := trim_space provider in
  if String.eqb provider "" then k
  else mkKeyCache (kc_ttl k) (kc_staleGrace k) (filter (fun kv => covers provider kv.1 = false) (kc_m k)) (next_epoch (kc_epoch k)).

(** [SubscribeControl], for a replica whose state holds a cache. *)
Definition SubscribeControl {R} (cache : R -> KeyCache) (set_cache : KeyCache -> R -> R) (bus : @Bus R) : @Bus R :=
  Subscribe OpCredentialInvalidated (fun msg r => (None, set_cache (PurgeProvider (arg msg "provider") (cache r)) r)) bus.

(** ** Loads and the requests that wait for them *)

(** The stations of the function given to [singleflight.Do]. *)
Inductive station :=
| Started
| Checked                                              (* the second look missed *)
| Loading (loadEpoch : Z)
| Fetched (loadEpoch : Z) (r : outcome (Sealed * Z))
| FetchFailed (fetchErr : string)
| Finished (r : outcome string).

(** A load, with the credentials that were active at some time since the last purge
    before it began (a history variable). *)
Record flight := mkFlight { fl_at : station; fl_seen : list Sealed }.

Inductive call := Missed (provider : string) | Waiting (provider : string) | Returned (provider : string) (seen : list Sealed) (r : outcome string).

Record system (W : Type) := mkSystem {
  sy_cache : KeyCache;
  sy_flights : gmap string flight;
  sy_calls : gmap nat call;
  sy_table : table;
  sy_world : W;                          (* clock, network and key services *)
  sy_since : string -> list Sealed;      (* active at some time since the last purge (a history variable) *)
  sy_purges : Z }.
Arguments mkSystem {W}. Arguments sy_cache {W}. Arguments sy_flights {W}. Arguments sy_calls {W}. Arguments sy_table {W}.
Arguments sy_world {W}. Arguments sy_since {W}. Arguments sy_purges {W}.

(** The credential that [ActiveCredential] would return. *)
Definition active (p : string) (t : table) : list Sealed :=
  match ActiveCredential true p t with Done r => [r.1] | _ => [] end.

Section Machine.
Context `{AES} {W : Type}
  (vault_do : string -> string -> list (string * string) -> eff W (Z * string))
  (data_field : string -> string -> outcome string)
  (kek : KEK W) (now : W -> Time).

Abbreviation Open' := (Open vault_do data_field).

Definition with_cache (k : KeyCache) (s : system W) : system W :=
  mkSystem k (sy_flights s) (sy_calls s) (sy_table s) (sy_world s) (sy_since s) (sy_purges s).
Definition with_flight (p : string) (f : flight) (s : system W) : system W :=
  mkSystem (sy_cache s) (<[p := f]> (sy_flights s)) (sy_calls s) (sy_table s) (sy_world s) (sy_since s) (sy_purges s).
Definition with_call (i : nat) (c : call) (s : system W) : system W :=
  mkSystem (sy_cache s) (sy_flights s) (<[i := c]> (sy_calls s)) (sy_table s) (sy_world s) (sy_since s) (sy_purges s).
Definition with_world (w : W) (s : system W) : system W :=
  mkSystem (sy_cache s) (sy_flights s) (sy_calls s) (sy_table s) w (sy_since s) (sy_purges s).

(** [Get], first part: a fresh hit, or a miss. *)
Definition Get_start (i : nat) (p : string) (s : system W) : system W :=
  match fresh_hit (now (sy_world s)) p (sy_cache s) with
  | Some v => with_call i (Returned p (sy_since s p) (Done v)) s
  | None => with_call i (Missed p) s
  end.

(** [sfg.Do]: joins the load under way, or begins one. *)
Definition Get_do (i : nat) (p : string) (s : system W) : system W :=
  let s := with_call i (Waiting p) s in
  match sy_flights s !! p with
  | Some _ => s
  | None => with_flight p (mkFlight Started (sy_since s p)) s
  end.

(** One section of the load's function between two points where others may run. *)
Definition flight_step (reachable_db : bool) (rf : float64) (p : string) (f : flight) (s : system W) : option (system W) :=
  let go st := with_flight p (mkFlight st (fl_seen f)) in
  match fl_at f with
  | Started =>
      match fresh_hit (now (sy_world s)) p (sy_cache s) with
      | Some v => Some (go (Finished (Done v)) s)
      | None => Some (go Checked s)
      end
  | Checked => Some (go (Loading (kc_epoch (sy_cache s))) s)
  | Loading e => Some (go (Fetched e (ActiveCredential reachable_db p (sy_table s))) s)
  | Fetched e (Done (sealed, _)) =>
      match Open' kek sealed (AAD p) (sy_world s) with
      | (Done pt, w) =>
          let s := with_world w s in
          Some (go (Finished (Done pt)) (with_cache (store_loaded e p pt (now w) rf (sy_cache s)) s))
      | (Failed openErr, w) => Some (go (FetchFailed openErr) (with_world w s))
      | (Panicked, w) => Some (go (Finished Panicked) (with_world w s))
      end
  | Fetched e (Failed err) => Some (go (FetchFailed err) s)
  | Fetched e Panicked => Some (go (Finished Panicked) s)
  | FetchFailed err =>
      match stale_hit (now (sy_world s)) p (sy_cache s) with
      | Some v => Some (go (Finished (Done v)) s)
      | None => Some (go (Finished (Failed err)) s)
      end
  | Finished r => None
  end.

(** The load ends: everyone who waits for it gets its result. *)
Definition flight_return (p : string) (f : flight) (r : outcome string) (s : system W) : system W :=
  mkSystem (sy_cache s) (delete p (sy_flights s))
    ((fun c => match c with Waiting q => if String.eqb q p then Returned p (fl_seen f) r else c | _ => c end) <$> sy_calls s)
    (sy_table s) (sy_world s) (sy_since s) (sy_purges s).

Definition purged (which : string -> bool) (k : KeyCache) (s : system W) : system W :=
  mkSystem k (sy_flights s) (sy_calls s) (sy_table s) (sy_world s)
    (fun p => if which p then active p (sy_table s) else sy_since s p) (sy_purges s + 1).

Definition table_changed (t : table) (s : system W) : system W :=
  mkSystem (sy_cache s) (map_imap (fun p f => Some (mkFlight (fl_at f) (active p t ++ fl_seen f))) (sy_flights s)) (sy_calls s) t (sy_world s)
    (fun p => active p t ++ sy_since s p) (sy_purges s).

Inductive kc_step : system W -> system W -> Prop :=
| kc_get i p s : sy_calls s !! i = None -> kc_step s (Get_start i p s)
| kc_do i p s : sy_calls s !! i = Some (Missed p) -> kc_step s (Get_do i p s)
| kc_flight db rf p f s s' : sy_flights s !! p = Some f -> flight_step db rf p f s = Some s' -> kc_step s s'
| kc_return p f r s : sy_flights s !! p = Some f -> fl_at f = Finished r -> kc_step s (flight_return p f r s)
| kc_purge s : kc_step s (purged (fun _ => true) (Purge (sy_cache s)) s)
| kc_purge_provider q s : trim_space q <> "" ->
    kc_step s (purged (covers (trim_space q)) (PurgeProvider q (sy_cache s)) s)
| kc_table t s : kc_step s (table_changed t s)
| kc_world w s : kc_step s (with_world w s).
End Machine.

(** ** What is cached and what is returned *)

Lemma purge_provider_lookup q k p c : trim_space q <> "" -> kc_m (PurgeProvider q k) !! p = Some c ->
  covers (trim_space q) p = false /\ kc_m k !! p = Some c.
Proof.
  intros Hq. unfold PurgeProvider. destruct (String.eqb_spec (trim_space q) ""); [done|]. cbn. intros Hl. apply map_lookup_filter_Some in Hl. tauto.
Qed.

Section Invariant.
Context `{HAES : !AES} {W : Type}
  (vault_do : string -> string -> list (string * string) -> eff W (Z * string))
  (data_field : string -> string -> outcome string)
  (kek : KEK W) (now : W -> Time).

(** [v] is what one of the credentials [seen] opens to. *)
Definition opened (p : string) (seen : list Sealed) (v : string) : Prop :=
  exists sealed w w', sealed ∈ seen /\ Open vault_do data_field kek sealed (AAD p) w = (Done v, w').

Lemma opened_mono p seen seen' v : seen ⊆ seen' -> opened p seen v -> opened p seen' v.
Proof. intros Hs (sealed & w & w' & Hin & Ho). exists sealed, w, w'. auto. Qed.

Definition entries_ok (k : KeyCache) (since : string -> list Sealed) : Prop :=
  forall p c, kc_m k !! p = Some c -> opened p (since p) (ca_value c).

Definition station_ok (p : string) (seen since : list Sealed) (epoch : Z) (st : station) : Prop :=
  match st with
  | Loading e => e <= epoch
  | Fetched e (Done (sealed, _)) => e <= epoch /\ sealed ∈ seen /\ (e = epoch -> sealed ∈ since)
  | Finished (Done v) => opened p seen v
  | _ => True
  end.

Definition flights_ok (s : system W) : Prop := forall p f, sy_flights s !! p = Some f ->
  active p (sy_table s) ⊆ fl_seen f /\ sy_since s p ⊆ fl_seen f /\
  station_ok p (fl_seen f) (sy_since s p) (kc_epoch (sy_cache s)) (fl_at f).

Definition calls_ok (s : system W) : Prop := forall i p seen v, sy_calls s !! i = Some (Returned p seen (Done v)) -> opened p seen v.

Definition kc_inv (s : system W) : Prop := 0 <= sy_purges s /\ (sy_purges s < 2 ^ 64 ->
  kc_epoch (sy_cache s) = sy_purges s /\ (forall p, active p (sy_table s) ⊆ sy_since s p) /\
  entries_ok (sy_cache s) (sy_since s) /\ flights_ok s /\ calls_ok s).

Lemma fresh_hit_ok t p k since v : entries_ok k since -> fresh_hit t p k = Some v -> opened p (since p) v.
Proof. intros Hk. unfold fresh_hit. destruct (kc_m k !! p) eqn:Hl; [|done]. destruct (_ <? _); [|done]. intros [= <-]. by apply Hk. Qed.

Lemma stale_hit_ok t p k since v : entries_ok k since -> stale_hit t p k = Some v -> opened p (since p) v.
Proof. intros Hk. unfold stale_hit. destruct (kc_m k !! p) eqn:Hl; [|done]. destruct (_ <? _); [|done]. intros [= <-]. by apply Hk. Qed.

Lemma store_loaded_ok e p pt t rf k since : entries_ok k since -> (e = kc_epoch k -> opened p (since p) pt) ->
  entries_ok (store_loaded e p pt t rf k) since /\ kc_epoch (store_loaded e p pt t rf k) = kc_epoch k.
Proof.
  intros Hk Hpt. unfold store_loaded. destruct (Z.eqb_spec (kc_epoch k) e) as [He|He]; [|done]. split; [|done].
  intros q c. cbn. intros [[<- <-]|[_ Hl]]%lookup_insert_Some; [by apply Hpt|by apply Hk].
Qed.

Lemma ActiveCredential_active db p t r : ActiveCredential db p t = Done r -> r.1 ∈ active p t.
Proof. destruct db; [|done]. unfold active. intros ->. by left. Qed.

Lemma get_start_inv i p s : sy_calls s !! i = None -> kc_inv s -> kc_inv (Get_start now i p s).
Proof.
  intros Hi [H0 H]. split; [unfold Get_start; by destruct fresh_hit|]. intros Hb.
  assert (sy_purges (Get_start now i p s) = sy_purges s) as Hp by (unfold Get_start; by destruct fresh_hit).
  rewrite Hp in *. destruct (H Hb) as (He & Ha & Hk & Hf & Hc). unfold Get_start. destruct (fresh_hit _ _ _) as [v|] eqn:Hh; cbn;
    (split_and!; [done|done|done|exact Hf|]); intros j q seen v'; cbn; intros [[<- Heq]|[_ Hl]]%lookup_insert_Some; try done;
    try by eapply Hc. injection Heq as <- <- <-. by eapply fresh_hit_ok.
Qed.

Lemma get_do_inv i p s : kc_inv s -> kc_inv (Get_do i p s).
Proof.
  intros [H0 H]. assert (sy_purges (Get_do i p s) = sy_purges s) as Hp by (unfold Get_do; by destruct (sy_flights _ !! p)).
  split; [by rewrite Hp|]. rewrite Hp. intros Hb. destruct (H Hb) as (He & Ha & Hk & Hf & Hc).
  assert (calls_ok (with_call i (Waiting p) s)) as Hc'.
  { intros j q seen v'; cbn; intros [[<- Heq]|[_ Hl]]%lookup_insert_Some; [done|by eapply Hc]. }
  unfold Get_do. cbn. destruct (sy_flights s !! p) eqn:Hl; cbn; [done|]. split_and!; try done.
  intros q f. cbn. intros [[<- <-]|[_ Hl']]%lookup_insert_Some; [|by eapply Hf]. cbn. split_and!; [apply Ha|done|done].
Qed.

(** A load moves to the station [st] without touching the cache. *)
Lemma go_inv p f st s : sy_flights s !! p = Some f -> kc_inv s ->
  (sy_purges s < 2 ^ 64 -> entries_ok (sy_cache s) (sy_since s) -> flights_ok s -> (forall q, active q (sy_table s) ⊆ sy_since s q) ->
     station_ok p (fl_seen f) (sy_since s p) (kc_epoch (sy_cache s)) st) ->
  kc_inv (with_flight p (mkFlight st (fl_seen f)) s).
Proof.
  intros Hl [H0 H] Hst. split; [done|]. cbn. intros Hb. destruct (H Hb) as (He & Ha & Hk & Hf & Hc).
  split_and!; try done. intros q f'. cbn. intros [[<- <-]|[_ Hl']]%lookup_insert_Some; [|by apply Hf].
  cbn. destruct (Hf p f Hl) as (A & B & _). split_and!; [done|done|]. by apply Hst.
Qed.

Lemma with_world_inv w s : kc_inv s -> kc_inv (with_world w s).
Proof. done. Qed.

Lemma with_cache_inv k s : kc_inv s -> kc_epoch k = kc_epoch (sy_cache s) ->
  (sy_purges s < 2 ^ 64 -> entries_ok (sy_cache s) (sy_since s) -> flights_ok s -> entries_ok k (sy_since s)) -> kc_inv (with_cache k s).
Proof.
  intros [H0 H] He Hk. split; [done|]. cbn. intros Hb. destruct (H Hb) as (? & ? & ? & Hf & ?). split_and!; try done; [congruence|auto|].
  intros q f Hl. cbn. rewrite He. by apply Hf.
Qed.

Lemma flight_step_inv db rf p f s s' : sy_flights s !! p = Some f -> flight_step vault_do data_field kek now db rf p f s = Some s' ->
  kc_inv s -> kc_inv s'.
Proof.
  intros Hl Hs Hinv. unfold flight_step in Hs. destruct (fl_at f) as [| |e|e r|err|r] eqn:Hat; [..|done].
  - destruct (fresh_hit _ _ _) as [v|] eqn:Hh; injection Hs as <-; apply go_inv; try done.
    intros _ Hk Hf _. destruct (Hf p f Hl) as (_ & B & _). eapply opened_mono; [exact B|]. by eapply fresh_hit_ok.
  - injection Hs as <-. apply go_inv; try done. intros. cbn. lia.
  - injection Hs as <-. apply go_inv; try done. intros _ _ Hf Ha. destruct (Hf p f Hl) as (A & _ & C). rewrite Hat in C. cbn in C.
    destruct (ActiveCredential db p (sy_table s)) as [[sealed v]|e'|] eqn:Hac; cbn; [|done..].
    apply ActiveCredential_active in Hac. cbn in Hac. split_and!; [done|by apply A|intros _; by apply Ha].
  - destruct r as [[sealed v]|err|].
    + destruct (Open vault_do data_field kek sealed (AAD p) (sy_world s)) as [[pt|err|] w] eqn:Ho; injection Hs as <-.
      * assert (opened p [sealed] pt) as Hop by (exists sealed, (sy_world s), w; split; [by left|done]).
        assert (kc_epoch (store_loaded e p pt (now w) rf (sy_cache s)) = kc_epoch (sy_cache s)) as Hep.
        { unfold store_loaded. by destruct (_ =? _). }
        apply (go_inv p f); [done| |].
        -- apply with_cache_inv; [done|done|]. intros _ Hk Hf. destruct (Hf p f Hl) as (_ & _ & C). rewrite Hat in C. cbn in C.
           apply store_loaded_ok; [done|]. intros ->. eapply opened_mono; [|exact Hop]. intros x ->%list_elem_of_singleton. by apply C.
        -- intros _ _ Hf _. destruct (Hf p f Hl) as (_ & _ & C). rewrite Hat in C. cbn. eapply opened_mono; [|exact Hop].
           intros x ->%list_elem_of_singleton. by apply C.
      * by apply (go_inv p f).
      * by apply (go_inv p f).
    + injection Hs as <-. by apply go_inv.
    + injection Hs as <-. by apply go_inv.
  - destruct (stale_hit _ _ _) as [v|] eqn:Hh; injection Hs as <-; apply go_inv; try done.
    intros _ Hk Hf _. destruct (Hf p f Hl) as (_ & B & _). eapply opened_mono; [exact B|]. by eapply stale_hit_ok.
Qed.

Lemma flight_return_inv p f r s : sy_flights s !! p = Some f -> fl_at f = Finished r -> kc_inv s -> kc_inv (flight_return p f r s).
Proof.
  intros Hl Hat [H0 H]. split; [done|]. cbn. intros Hb. destruct (H Hb) as (? & ? & ? & Hf & Hc). split_and!; try done.
  - intros q f'. cbn. intros [_ Hl']%lookup_delete_Some. by apply Hf.
  - intros i q seen v. cbn. rewrite lookup_fmap. destruct (sy_calls s !! i) as [c|] eqn:Hi; [|done]. cbn. destruct c as [p'|p'|p' s' r']; [done| |].
    + destruct (String.eqb_spec p' p) as [->|]; [|done]. intros [= <- <- ->]. destruct (Hf p f Hl) as (_ & _ & C). by rewrite Hat in C.
    + intros [= -> -> ->]. by eapply Hc.
Qed.

Lemma next_epoch_small e : 0 <= e -> e + 1 < 2 ^ 64 -> next_epoch e = e + 1.
Proof. intros. unfold next_epoch. apply Z.mod_small. lia. Qed.

Lemma purged_inv which k s : kc_inv s -> kc_epoch k = next_epoch (kc_epoch (sy_cache s)) ->
  (forall p c, kc_m k !! p = Some c -> which p = false /\ kc_m (sy_cache s) !! p = Some c) -> kc_inv (purged which k s).
Proof.
  intros [H0 H] Hep Hm. split; [cbn; lia|]. cbn. intros Hb. destruct (H ltac:(lia)) as (He & Ha & Hk & Hf & Hc).
  rewrite He, next_epoch_small in Hep by lia. split_and!; try done.
  - intros p. by destruct (which p).
  - intros p c (Hw & Hl)%Hm. rewrite Hw. by apply Hk.
  - intros p f Hl. cbn in *. destruct (Hf p f Hl) as (A & B & C). split_and!; [done|by destruct (which p)|]. rewrite Hep.
    rewrite He in C. destruct (fl_at f) as [| |e|e [[sealed v]|err|]|err|[v|err|]]; cbn in *; try done; [lia|].
    destruct C as (C1 & C2 & _). split_and!; [lia|done|]. intros ->. lia.
Qed.

Lemma table_changed_inv t s : kc_inv s -> kc_inv (table_changed t s).
Proof.
  intros [H0 H]. split; [done|]. cbn. intros Hb. destruct (H Hb) as (? & Ha & Hk & Hf & Hc). split_and!; try done.
  - intros p x Hx. apply elem_of_app. by left.
  - intros p c Hl. eapply opened_mono; [|by apply Hk]. intros x Hx. apply elem_of_app. by right.
  - intros p f Hl. cbn in *. rewrite map_lookup_imap in Hl. destruct (sy_flights s !! p) as [f0|] eqn:Hf0; [|done]. cbn in Hl. injection Hl as <-.
    destruct (Hf p f0 Hf0) as (A & B & C). cbn. split_and!; [set_solver|set_solver|].
    destruct (fl_at f0) as [| |e|e [[sealed v]|err|]|err|[v|err|]]; cbn in *; try done.
    + destruct C as (C1 & C2 & C3). split_and!; [done|set_solver|]. intros Heq. specialize (C3 Heq). set_solver.
    + eapply opened_mono; [|exact C]. set_solver.
Qed.

Lemma kc_step_inv s s' : kc_step vault_do data_field kek now s s' -> kc_inv s -> kc_inv s'.
Proof.
  intros [i p s0 Hi|i p s0 Hi|db rf p f s0 s1 Hl Hs|p f r s0 Hl Hat|s0|q s0 Hq|t s0|w s0] Hinv.
  - by apply get_start_inv.
  - by apply get_do_inv.
  - by eapply flight_step_inv.
  - by apply flight_return_inv.
  - apply purged_inv; [done|done|]. intros p c. cbn. by rewrite lookup_empty.
  - apply purged_inv; [done| |]; [|by intros p c Hl; apply purge_provider_lookup].
    unfold PurgeProvider. by destruct (String.eqb_spec (trim_space q) "").
  - by apply table_changed_inv.
  - by apply with_world_inv.
Qed.
End Invariant.

Definition kc_initial {W : Type} (ttl grace : Duration) (t : table) (w : W) : system W :=
  mkSystem (NewKeyCacheWithStaleGrace ttl grace) ∅ ∅ t w (fun p => active p t) 0.

Lemma kc_initial_inv `{!AES} {W : Type} vault_do data_field (kek : KEK W) ttl grace t w : kc_inv vault_do data_field kek (kc_initial ttl grace t w).
Proof. split; [done|]. intros _. split_and!; [done|done|by intros p c|by intros p f|by intros i p seen v]. Qed.

(** ** After a rotation *)

Section Rotation.
Context `{HAES : !AES} {W : Type}
  (vault_do : string -> string -> list (string * string) -> eff W (Z * string))
  (data_field : string -> string -> outcome string)
  (kek : KEK W) (now : W -> Time).

(** A step that leaves the active credential of [p] alone. *)
Definition quiet (p : string) (s s' : system W) : Prop :=
  kc_step vault_do data_field kek now s s' /\ active p (sy_table s') = active p (sy_table s).

(** Only [l] is known of [p]; [old] are the requests that came before. *)
Definition only (p : string) (l : list Sealed) (old : gmap nat call) (s : system W) : Prop :=
  active p (sy_table s) ⊆ l /\ sy_since s p ⊆ l /\
  (forall f, sy_flights s !! p = Some f -> fl_seen f ⊆ l) /\
  (forall i seen r, old !! i = None -> sy_calls s !! i = Some (Returned p seen r) -> seen ⊆ l) /\
  (forall i, is_Some (old !! i) -> is_Some (sy_calls s !! i)).

Lemma only_same p l old s s' : sy_table s' = sy_table s -> sy_since s' = sy_since s -> sy_flights s' = sy_flights s -> sy_calls s' = sy_calls s ->
  only p l old s -> only p l old s'.
Proof. unfold only. intros -> -> -> ->. done. Qed.

Lemma only_flight p q l old f st s : sy_flights s !! q = Some f -> only p l old s -> only p l old (with_flight q (mkFlight st (fl_seen f)) s).
Proof.
  intros Hl (A & B & C & D & E). split_and!; try done. cbn. intros f'. intros [[-> <-]|[_ Hl']]%lookup_insert_Some; cbn; by apply C.
Qed.

Lemma only_call p l old s i c : (forall q seen r, c = Returned q seen r -> q = p -> seen ⊆ l) ->
  only p l old s -> only p l old (with_call i c s).
Proof.
  intros Hc (A & B & C & D & E). split_and!; try done; cbn.
  - intros j seen r Hj [[<- ->]|[_ Hl]]%lookup_insert_Some; [by eapply Hc|by eapply D].
  - intros j Hj. apply lookup_insert_is_Some. destruct (decide (i = j)); [by left|right; auto].
Qed.

Lemma flight_step_only p l old db rf q f s s' : sy_flights s !! q = Some f ->
  flight_step vault_do data_field kek now db rf q f s = Some s' -> only p l old s -> only p l old s'.
Proof.
  intros Hl Hs Ho. unfold flight_step in Hs. destruct (fl_at f) as [| |e|e [[sealed v]|err|]|err|r]; try done;
    repeat match goal with
    | Hs : context [fresh_hit ?a ?b ?c] |- _ => destruct (fresh_hit a b c)
    | Hs : context [stale_hit ?a ?b ?c] |- _ => destruct (stale_hit a b c)
    | Hs : context [Open ?a ?b ?c ?d ?e ?g] |- _ => destruct (Open a b c d e g) as [[] ?]
    end; injection Hs as <-; apply only_flight; try done; by eapply only_same; [..|exact Ho].
Qed.

Lemma kc_step_only p l old s s' : quiet p s s' -> only p l old s -> only p l old s'.
Proof.
  intros [Hs Hact]. destruct Hs as [i q s0 Hi|i q s0 Hi|db rf q f s0 s1 Hl Hs|q f r s0 Hl Hat|s0|q s0 Hq|t s0|w s0]; intros Ho.
  - pose proof Ho as (A & B & C & D & E). unfold Get_start. destruct (fresh_hit _ _ _); apply only_call; try done.
    intros q' seen r [= -> <- <-] ->. apply B.
  - pose proof Ho as (A & B & C & D & E). assert (only p l old (with_call i (Waiting q) s0)) as Ho' by by apply only_call.
    unfold Get_do. destruct (sy_flights (with_call i (Waiting q) s0) !! q) eqn:Hl; [done|].
    destruct Ho' as (A' & B' & C' & D' & E'). split_and!; try done. cbn.
    intros f [[-> <-]|[_ Hl']]%lookup_insert_Some; [apply B|by apply C].
  - by eapply flight_step_only.
  - destruct Ho as (A & B & C & D & E). split_and!; try done; cbn.
    + intros f' [_ Hf']%lookup_delete_Some. by apply C.
    + intros i seen r'. rewrite lookup_fmap. intros Hi. destruct (sy_calls s0 !! i) as [c|] eqn:Hc; [|done]. cbn.
      destruct c as [p'|p'|p' s' r'']; [done| |].
      * destruct (String.eqb_spec p' q) as [->|]; [|done]. intros [= <- <- <-]. by apply C.
      * intros [= -> -> ->]. by eapply D.
    + intros i Hi. rewrite lookup_fmap. apply fmap_is_Some. auto.
  - destruct Ho as (A & B & C & D & E). split_and!; try done.
  - destruct Ho as (A & B & C & D & E). split_and!; try done. cbn. by destruct (covers _ p).
  - destruct Ho as (A & B & C & D & E). cbn in Hact. split_and!; cbn; try done.
    + by rewrite Hact.
    + rewrite Hact. set_solver.
    + intros f. rewrite map_lookup_imap. destruct (sy_flights s0 !! p) as [f0|] eqn:Hf0; [|done]. cbn. intros [= <-]. cbn. rewrite Hact.
      specialize (C f0 eq_refl). set_solver.
  - done.
Qed.
End Rotation.

(** C11. What the cache of a replica holds for a provider is always a credential that
    was active at some time since the last purge that covered the provider, and what a
    request is given is one that was active at some time since the last purge before
    its load began: a load that was under way during a purge cannot put back what it
    had read.  (The epoch is a 64-bit counter: fewer than 2^64 purges.) *)
Theorem cached_credentials_are_current `{!AES} {W : Type} vault_do data_field (kek : KEK W) now ttl grace t0 w0 s
  (Hrun : reachable (kc_step vault_do data_field kek now) (kc_initial ttl grace t0 w0) s) (Hbound : sy_purges s < 2 ^ 64) :
  (forall p c, kc_m (sy_cache s) !! p = Some c -> opened vault_do data_field kek p (sy_since s p) (ca_value c)) /\
  (forall i p seen v, sy_calls s !! i = Some (Returned p seen (Done v)) -> opened vault_do data_field kek p seen v).
Proof.
  assert (kc_inv vault_do data_field kek s) as [_ Hinv].
  { eapply reachable_invariant; [apply kc_initial_inv| |exact Hrun]. intros ????. by eapply kc_step_inv. }
  destruct (Hinv Hbound) as (_ & _ & Hk & _ & Hc). by split.
Qed.

Lemma opened_sealed `{!AES} `{!AESLaws} {W : Type} rand_Read vault_do data_field (kek k : KEK W) r p sealed pt seen v :
  sealed_under rand_Read vault_do data_field k sealed pt (AAD p) -> lawful rand_Read vault_do data_field r k -> offers kek (KEKID sealed) k ->
  seen ⊆ [sealed] -> opened vault_do data_field kek p seen v -> v = pt.
Proof.
  intros Hu Hlaw Hof Hsub (s & w & w' & Hin%Hsub & Ho). apply list_elem_of_singleton in Hin as ->.
  destruct (open_sealed rand_Read vault_do data_field r kek k sealed pt (AAD p) w Hu Hlaw Hof) as [Hd|[_ [e Hd]]]; rewrite Ho in Hd; by simplify_eq/=.
Qed.

(** A rotated credential takes effect.  When a provider's credential has been
    replaced and the replica then purges the provider, while no load of it is under
    way, then for as long as the new one stays active the cache holds, and every later
    request gets, nothing else: the plaintext that was sealed, or a failure. *)
Theorem rotation_takes_effect `{!AES} `{!AESLaws} {W : Type} rand_Read vault_do data_field (kek k : KEK W) now ttl grace t0 w0 s s2 q p sealed pt r
  (Hrun : reachable (kc_step vault_do data_field kek now) (kc_initial ttl grace t0 w0) s)
  (Hq : trim_space q <> "") (Hcov : covers (trim_space q) p = true)
  (Hact : active p (sy_table s) = [sealed]) (Hidle : sy_flights s !! p = None)
  (Hu : sealed_under rand_Read vault_do data_field k sealed pt (AAD p)) (Hlaw : lawful rand_Read vault_do data_field r k)
  (Hof : offers kek (KEKID sealed) k)
  (Hafter : reachable (quiet vault_do data_field kek now p) (purged (covers (trim_space q)) (PurgeProvider q (sy_cache s)) s) s2)
  (Hbound : sy_purges s2 < 2 ^ 64) :
  (forall c, kc_m (sy_cache s2) !! p = Some c -> ca_value c = pt) /\
  (forall i seen v, sy_calls s !! i = None -> sy_calls s2 !! i = Some (Returned p seen (Done v)) -> v = pt).
Proof.
  set (s1 := purged _ _ _) in Hafter.
  assert (kc_step vault_do data_field kek now s s1) as H1 by by constructor.
  assert (reachable (kc_step vault_do data_field kek now) s1 s2) as H2.
  { clear -Hafter. induction Hafter as [|s' s'' _ IH [Hs _]]; [constructor|by econstructor]. }
  assert (only p [sealed] (sy_calls s) s2) as (_ & Hsince & _ & Hcalls & _).
  { eapply reachable_invariant; [| |exact Hafter]; [|intros a b Hab Hst; by eapply kc_step_only].
    subst s1. split_and!; cbn; [by rewrite Hact|by rewrite Hcov, Hact|by rewrite Hidle| |done].
    intros i seen r' Hn Hs. congruence. }
  assert (kc_inv vault_do data_field kek s2) as [_ Hinv].
  { eapply reachable_invariant; [apply kc_initial_inv| |]; [intros ????; by eapply kc_step_inv|].
    eapply reachable_trans; [|exact H2]. econstructor; [exact Hrun|exact H1]. }
  destruct (Hinv Hbound) as (_ & _ & Hk & _ & Hc). split.
  - intros c Hl. eapply opened_sealed; [exact Hu|exact Hlaw|done|exact Hsince|by apply Hk].
  - intros i seen v Hn Hs. eapply opened_sealed; [exact Hu|exact Hlaw|done|by eapply Hcalls|by eapply Hc].
Qed.

(** ** Concrete runs *)

Module ToyCache.
Import ToyKeys.
Definition clock0 (w : nat) : Time := 0.
Abbreviation step1 := (kc_step no_vault no_field both clock0).

Definition run1 (fl : string -> flight -> system nat -> option (system nat)) (p : string) (s : system nat) : system nat :=
  match sy_flights s !! p with Some f => default s (fl p f s) | None => s end.
Definition fly (n : nat) : system nat -> system nat := Nat.iter n (run1 (flight_step no_vault no_field both clock0 true f0) "openai").
Definition land (s : system nat) : system nat :=
  run1 (fun p f s => match fl_at f with Finished r => Some (flight_return p f r s) | _ => None end) "openai" s.

(** Steps that do not touch the table, for any relation that has them. *)
Section Runs.
Context (R : system nat -> system nat -> Prop) (HR : forall s s', step1 s s' -> sy_table s' = sy_table s -> R s s').

Lemma run1_reachable fl p s0 s : (forall f s', sy_flights s !! p = Some f -> fl p f s = Some s' -> step1 s s' /\ sy_table s' = sy_table s) ->
  reachable R s0 s -> reachable R s0 (run1 fl p s).
Proof.
  intros Hfl Hr. unfold run1. destruct (sy_flights s !! p) as [f|] eqn:Hf; [|done]. destruct (fl p f s) as [s'|] eqn:Hs; [|done].
  destruct (Hfl f s' eq_refl Hs). econstructor; [exact Hr|by apply HR].
Qed.

Lemma flight_step_table db rf p f s s' : flight_step no_vault no_field both clock0 db rf p f s = Some s' -> sy_table s' = sy_table s.
Proof.
  unfold flight_step. destruct (fl_at f) as [| |e|e [[sealed v]|err|]|err|r]; try (intros; by simplify_eq).
  - destruct (fresh_hit _ _ _); intros; by simplify_eq.
  - destruct (Open _ _ _ _ _ _) as [[] w]; intros; by simplify_eq.
  - destruct (stale_hit _ _ _); intros; by simplify_eq.
Qed.

Lemma fly_reachable s0 n s : reachable R s0 s -> reachable R s0 (fly n s).
Proof.
  intros Hr. induction n as [|n IH]; [exact Hr|]. apply run1_reachable; [|exact IH]. intros f s' Hf Hs.
  split; [by eapply kc_flight|by eapply flight_step_table].
Qed.

Lemma land_reachable s0 s : reachable R s0 s -> reachable R s0 (land s).
Proof.
  apply run1_reachable. intros f s' Hf. destruct (fl_at f) as [| | | | |r] eqn:Hat; try done. intros [= <-]. split; [by apply kc_return|done].
Qed.
End Runs.

(** A first request loads the credential. *)
Definition get (i : nat) (s : system nat) : system nat := Get_do i "openai" (Get_start clock0 i "openai" s).
Definition loaded : system nat := land (fly 5 (get 0 (kc_initial minute minute table1 0%nat))).

(** The credential is replaced and the provider purged, while a load that has read
    the old one is under way; a request that comes after joins it. *)
Definition table3 : table := (PutCredential Commits 9 "openai" (match (Seal rand no_vault no_field (KLocal (Some key2)) "sk-2" (AAD "openai") 0%nat).1 with
                                          | Done s => s | _ => mkSealed "" "" "" "" end) "bob" table1).2.
Definition rotated (s : system nat) : system nat :=
  let s := table_changed table3 s in purged (covers "openai") (PurgeProvider "openai" (sy_cache s)) s.
Definition late : system nat := land (fly 2 (get 1 (rotated (fly 3 (get 0 (kc_initial minute minute table1 0%nat)))))).

(** The request that came after the purge is given the old credential; the cache
    does not keep it, and the next request gets the new one. *)
Lemma joined_load_returns_old :
  (exists seen, sy_calls late !! 1%nat = Some (Returned "openai" seen (Done "sk-1"))) /\ kc_m (sy_cache late) !! "openai" = None /\
  exists seen, sy_calls (land (fly 5 (get 2 late))) !! 2%nat = Some (Returned "openai" seen (Done "sk-2")).
Proof. split; [eexists; vm_compute; reflexivity|]. split; [vm_compute; reflexivity|]. eexists; vm_compute; reflexivity. Qed.
End ToyCache.
Import ToyKeys ToyCache.

Lemma get_reachable (R : system nat -> system nat -> Prop) (HR : forall s s', step1 s s' -> sy_table s' = sy_table s -> R s s') s0 i s :
  sy_calls s !! i = None -> fresh_hit 0 "openai" (sy_cache s) = None -> reachable R s0 s -> reachable R s0 (get i s).
Proof.
  intros Hi Hh Hr. unfold get. assert (Get_start clock0 i "openai" s = with_call i (Missed "openai") s) as Eg by (unfold Get_start, clock0; by rewrite Hh).
  eapply reach_step; [eapply reach_step; [exact Hr|]|]; apply HR.
  - by apply kc_get.
  - by rewrite Eg.
  - apply kc_do. rewrite Eg. cbn. by rewrite lookup_insert_eq.
  - unfold Get_do. by destruct (sy_flights _ !! _).
Qed.

Lemma loaded_reachable : reachable step1 (kc_initial minute minute table1 0%nat) loaded.
Proof. apply land_reachable, fly_reachable, get_reachable; [done..|reflexivity|reflexivity|constructor]. Qed.

Lemma cached_credentials_are_current_witness :
  (forall p c, kc_m (sy_cache loaded) !! p = Some c -> opened no_vault no_field both p (sy_since loaded p) (ca_value c)) /\
  ca_value <$> kc_m (sy_cache loaded) !! "openai" = Some "sk-1".
Proof.
  split; [|vm_compute; reflexivity].
  apply (cached_credentials_are_current no_vault no_field both clock0 minute minute table1 0%nat loaded); [apply loaded_reachable|reflexivity].
Defined.

Definition sealed3 : Sealed := match (Seal rand no_vault no_field (KLocal (Some key2)) "sk-2" (AAD "openai") 0%nat).1 with
                               | Done s => s | _ => mkSealed "" "" "" "" end.
Definition changed : system nat := table_changed table3 loaded.

Definition forgotten : system nat := purged (covers "openai") (PurgeProvider "openai" (sy_cache changed)) changed.
Definition reloaded : system nat := land (fly 5 (get 7 forgotten)).

Lemma reloaded_reachable : reachable (quiet no_vault no_field both clock0 "openai") forgotten reloaded.
Proof.
  assert (forall s s', step1 s s' -> sy_table s' = sy_table s -> quiet no_vault no_field both clock0 "openai" s s') as Hq
    by (intros s s' Hs Ht; split; [done|by rewrite Ht]).
  apply land_reachable, fly_reachable, get_reachable; [done..|reflexivity|reflexivity|constructor].
Qed.

Lemma rotation_takes_effect_witness :
  ca_value <$> kc_m (sy_cache reloaded) !! "openai" = Some "sk-2" /\
  (forall i seen v, sy_calls changed !! i = None -> sy_calls reloaded !! i = Some (Returned "openai" seen (Done v)) -> v = "sk-2").
Proof.
  split; [vm_compute; reflexivity|].
  apply (rotation_takes_effect rand no_vault no_field both both clock0 minute minute table1 0%nat changed reloaded
    "openai" "openai" sealed3 "sk-2" true).
  - econstructor; [apply loaded_reachable|apply kc_table].
  - done.
  - reflexivity.
  - vm_compute. reflexivity.
  - vm_compute. reflexivity.
  - apply (seal_sealed rand no_vault no_field rand_length (KLocal (Some key2)) _ _ 0%nat _ 3%nat). reflexivity.
  - exact (local_lawful rand no_vault no_field rand_length key2 eq_refl).
  - by left.
  - exact reloaded_reachable.
  - reflexivity.
Defined.
