(* ===== verification/Purge.v ===== *)
(** * Purging the response cache (src/internal/cache/purge.go, internal/server/admin.go)

    Cache entries and the sets that index them by tag are keys of one Redis
    database; a purge removes those of a tenant, a route or a tag by scanning for
    patterns or by reading the sets.  Redis's glob matching is written out; in how
    many batches a SCAN comes, and which command fails, is left open. *)

From S2P Require Import Prelude GoStrings CacheKeys.

Open Scope string_scope.
Open Scope list_scope.
Open Scope Z_scope.

(** ** Redis *)

(** [stringmatchlen] without case folding.  The rest of a class is read by [in_class]:
    whether the byte is in it, and what follows the closing bracket. *)
Fixpoint in_class (fuel : nat) (p : string) (c : ascii) (found : bool) : bool * string :=
  match fuel with
  | O => (found, "")
  | S f =>
      match p with
      | EmptyString => (found, "")
      | String "]" p' => (found, p')
      | String "\" (String d p') => in_class f p' c (found || Ascii.eqb d c)
      | String a (String "-" (String b p')) =>
          let lo := Z.min (byte_val a) (byte_val b) in let hi := Z.max (byte_val a) (byte_val b) in
          in_class f p' c (found || byte_in lo hi c)
      | String a p' => in_class f p' c (found || Ascii.eqb a c)
      end
  end.

Fixpoint redis_match_fuel (fuel : nat) (p s : string) : bool :=
  match fuel with
  | O => false
  | S f =>
      match p with
      | EmptyString => String.eqb s ""
      | String "*" p' =>
          (fix star (s : string) : bool :=
             redis_match_fuel f p' s || match s with EmptyString => false | String _ s' => star s' end) s
      | String "?" p' => match s with EmptyString => false | String _ s' => redis_match_fuel f p' s' end
      | String "[" p' =>
          match s with
          | EmptyString => false
          | String c s' =>
              let '(neg, p'') := match p' with String "^" q => (true, q) | _ => (false, p') end in
              let '(found, rest) := in_class (S (String.length p'')) p'' c false in
              xorb neg found && redis_match_fuel f rest s'
          end
      | String "\" (String d p') => match s with EmptyString => false | String c s' => Ascii.eqb c d && redis_match_fuel f p' s' end
      | String d p' => match s with EmptyString => false | String c s' => Ascii.eqb c d && redis_match_fuel f p' s' end
      end
  end.

Definition redis_match (p s : string) : bool := redis_match_fuel (S (String.length p)) p s.

Example redis_match_ex :
  map (fun ps => redis_match ps.1 ps.2) [("a*c", "abbc"); ("a*c", "ab"); ("h[a-c]t", "hbt"); ("h[^a-c]t", "hbt"); ("\*", "*"); ("\*", "x"); ("*", ""); ("a?", "a")] =
  [true; false; true; false; true; false; true; false].
Proof. reflexivity. Qed.

(** The keys with the members of those that are sets, and the fates of the commands
    to come: all succeed when the list has ended. *)
Record redis := mkRedis { rd_keys : gmap string (list string); rd_fates : list bool }.

Definition command {A : Type} (f : gmap string (list string) -> A * gmap string (list string)) (r : redis) : option A * redis :=
  match rd_fates r with
  | false :: fs => (None, mkRedis (rd_keys r) fs)
  | true :: fs => let '(a, ks) := f (rd_keys r) in (Some a, mkRedis ks fs)
  | [] => let '(a, ks) := f (rd_keys r) in (Some a, mkRedis ks [])
  end.

(** UNLINK: how many of the keys existed. *)
Fixpoint unlink (keys : list string) (ks : gmap string (list string)) : Z * gmap string (list string) :=
  match keys with
  | [] => (0, ks)
  | k :: keys => let '(n, ks') := unlink keys (delete k ks) in ((if ks !! k then 1 else 0) + n, ks')
  end.

Definition smembers (k : string) (ks : gmap string (list string)) : list string * gmap string (list string) := (default [] (ks !! k), ks).

(** ** purge.go *)

Record PurgeOptions := mkPurge { po_TenantID : string; po_Route : string; po_Tags : list string }.

Section Purge.
(** The batches of a SCAN for a pattern, up to the one with cursor 0. *)
Context (scan : string -> gmap string (list string) -> list (list string)).

Definition eff (A : Type) : Type := redis -> option A * redis.
Definition done_with {A : Type} (a : A) : eff A := fun r => (Some a, r).
Definition andthen {A B : Type} (m : eff A) (k : A -> eff B) : eff B := fun r =>
  match m r with (Some a, r) => k a r | (None, r) => (None, r) end.

Fixpoint chunks_of (fuel : nat) (n : nat) (l : list string) : list (list string) :=
  match fuel with O => [] | S f => match l with [] => [] | _ => take n l :: chunks_of f n (drop n l) end end.

Fixpoint unlink_all (total : Z) (batches : list (list string)) : eff Z :=
  match batches with
  | [] => done_with total
  | b :: bs => andthen (command (unlink b)) (fun n => unlink_all (total + n) bs)
  end.

(** The rounds of the loop over a SCAN's cursor. *)
Fixpoint scan_rounds (total : Z) (batches : list (list string)) : eff Z :=
  match batches with
  | [] => done_with total
  | b :: bs =>
      andthen (command (fun ks => (tt, ks))) (fun _ =>
        match b with
        | [] => scan_rounds total bs
        | _ => andthen (command (unlink b)) (fun n => scan_rounds (total + n) bs)
        end)
  end.

Definition scan_unlink (total : Z) (pattern : string) : eff Z := fun r => scan_rounds total (scan pattern (rd_keys r)) r.

Fixpoint purge_patterns (total : Z) (patterns : list string) : eff Z :=
  match patterns with
  | [] => done_with total
  | p :: ps => andthen (scan_unlink total p) (fun n => purge_patterns n ps)
  end.

Definition patterns_of (o : PurgeOptions) : list string :=
  let tt := tenantTag (po_TenantID o) in
  if negb (String.eqb (po_TenantID o) "") then
    if negb (String.eqb (po_Route o) "") then
      ["cache:" +:+ tt +:+ ":x:" +:+ po_Route o +:+ ":*"; "sc:*:" +:+ tt +:+ ":" +:+ po_Route o +:+ ":*"]
    else ["cache:" +:+ tt +:+ ":*"; "cachetag:" +:+ tt +:+ ":*"; "sc:*:" +:+ tt +:+ ":*"]
  else
    if negb (String.eqb (po_Route o) "") then ["cache:*:x:" +:+ po_Route o +:+ ":*"; "sc:*:*:" +:+ po_Route o +:+ ":*"]
    else ["cache:*"; "cachetag:*"; "sc:*"].

Definition purgeByScan (o : PurgeOptions) : eff Z := purge_patterns 0 (patterns_of o).

(** The keys a tag names, with the sets themselves. *)
Fixpoint collect_members (route : string) (tagKeys : list string) (acc : list string) : eff (list string) :=
  match tagKeys with
  | [] => done_with acc
  | tk :: tks =>
      andthen (command (smembers tk)) (fun ms =>
        collect_members route tks
          (acc ++ List.filter (fun m => String.eqb route "" || contains m (":" +:+ route +:+ ":")) ms ++ [tk]))
  end.

Fixpoint collect_tags (o : PurgeOptions) (tags : list string) (acc : list string) : eff (list string) :=
  match tags with
  | [] => done_with acc
  | tag :: tags =>
      andthen (if negb (String.eqb (po_TenantID o) "") then done_with [TagKey (po_TenantID o) tag]
               else fun r => command (fun ks => (concat (scan ("cachetag:*:" +:+ tag) ks), ks)) r) (fun tagKeys =>
      andthen (collect_members (po_Route o) tagKeys acc) (fun acc => collect_tags o tags acc))
  end.

Definition purgeByTags (o : PurgeOptions) : eff Z :=
  andthen (collect_tags o (po_Tags o) []) (fun l =>
    let keys := dedup_from [] l in unlink_all 0 (chunks_of (length keys) 500 keys)).

Definition Purge (o : PurgeOptions) : eff Z :=
  match po_Tags o with [] => purgeByScan o | _ => purgeByTags o end.

Definition PurgeTenant (tenantID : string) : eff Z := fun r =>
  if String.eqb (trim_space tenantID) "" then (None, r) else Purge (mkPurge tenantID "" []) r.

(** The counters of budgets and the keys of runs (budget.go, agentrun/runs.go). *)
Definition Ledger_PurgeTenant (tenantID : string) : eff Z := fun r =>
  if String.eqb (trim_space tenantID) "" then (None, r) else scan_unlink 0 ("budget:{t:" +:+ tenantID +:+ "}:*") r.

Definition Runs_PurgeTenant (tenantID : string) : eff Z := fun r =>
  if String.eqb (trim_space tenantID) "" then (None, r)
  else purge_patterns 0 (map (fun p => p +:+ "{t:" +:+ tenantID +:+ "}:*") ["run:"; "runfp:"; "runemb:"]) r.

(** [AdminCachePurgeHandler]: a request without a body asks for everything; [body] is
    the decoded body, [None] inside when it does not decode. *)
Definition AdminCachePurgeHandler (body : option (option PurgeOptions)) : redis -> (Z * option Z) * redis := fun r =>
  match body with
  | Some None => ((400, None), r)
  | _ => match Purge (match body with Some (Some o) => o | _ => mkPurge "" "" [] end) r with
         | (None, r) => ((500, None), r)
         | (Some n, r) => ((200, Some n), r)
         end
  end.
End Purge.

(** ** Matching *)

Definition plain_byte (c : ascii) : bool :=
  negb (Ascii.eqb c "*" || Ascii.eqb c "?" || Ascii.eqb c "[" || Ascii.eqb c "\" || Ascii.eqb c "{" || Ascii.eqb c "}").

(** Text without glob characters and braces. *)
Definition plain (s : string) : bool := sforall plain_byte s.

(** Glob characters only. *)
Definition literal (s : string) : bool :=
  sforall (fun c => negb (Ascii.eqb c "*" || Ascii.eqb c "?" || Ascii.eqb c "[" || Ascii.eqb c "\")) s.

Lemma plain_literal s : plain s = true -> literal s = true.
Proof. apply sforall_impl. intros c. unfold plain_byte. rewrite !negb_true_iff, !orb_false_iff. tauto. Qed.

Lemma literal_app s t : literal (s +:+ t) = literal s && literal t.
Proof. apply sforall_app. Qed.

Lemma match_literal_byte f d p s : literal (String d "") = true ->
  redis_match_fuel (S f) (String d p) s = match s with EmptyString => false | String c s' => Ascii.eqb c d && redis_match_fuel f p s' end.
Proof.
  unfold literal. cbn [sforall]. rewrite andb_true_r, negb_true_iff, !orb_false_iff, !Ascii.eqb_neq. intros [[[? ?] ?] ?].
  destruct d as [[] [] [] [] [] [] [] []]; try reflexivity; exfalso; congruence.
Qed.

Lemma match_literal l : forall f p s, literal l = true -> (String.length l < f)%nat ->
  redis_match_fuel f (l +:+ p) s = true <-> exists t, s = l +:+ t /\ redis_match_fuel (f - String.length l) p t = true.
Proof.
  induction l as [|d l IH]; intros f p s Hl Hf.
  { rewrite sapp_nil_l. cbn [String.length]. rewrite Nat.sub_0_r. split; [intros H; by exists s|]. by intros (t & -> & H). }
  change (String d l) with (String d "" +:+ l) in Hl. rewrite literal_app, andb_true_iff in Hl. destruct Hl as [Hd Hl].
  cbn [String.length] in Hf. destruct f as [|f]; [lia|]. rewrite sapp_cons, match_literal_byte by done.
  destruct s as [|c s]; [split; [done|by intros (t & [=] & _)]|].
  rewrite andb_true_iff, Ascii.eqb_eq, IH by (done || lia). cbn [String.length]. rewrite Nat.sub_succ. setoid_rewrite sapp_cons. naive_solver.
Qed.

Lemma match_star f p s : redis_match_fuel (S f) (String "*" p) s = true <-> exists a b, s = a +:+ b /\ redis_match_fuel f p b = true.
Proof.
  cbn [redis_match_fuel]. induction s as [|c s IH].
  - rewrite orb_false_r. split; [intros H; by exists "", ""|]. intros (a & b & Hab & H). by destruct a, b.
  - rewrite orb_true_iff, IH. split.
    + intros [H|(a & b & -> & H)]; [by exists "", (String c s)|by exists (String c a), b].
    + intros ([|d a] & b & Hab & H); rewrite ?sapp_nil_l, ?sapp_cons in Hab; [subst b; by left|]. injection Hab as -> ->. right. by exists a, b.
Qed.

Lemma match_end f s : redis_match_fuel (S f) "" s = true <-> s = "".
Proof. cbn. apply String.eqb_eq. Qed.

(** A prefix followed by a star. *)
Lemma match_prefix l s : literal l = true -> redis_match (l +:+ "*") s = true <-> exists t, s = l +:+ t.
Proof.
  intros Hl. unfold redis_match. rewrite slength_app. cbn [String.length]. rewrite match_literal by (done || lia).
  split; [intros (t & -> & _); by exists t|]. intros [t ->]. exists t. split; [done|].
  replace (S (String.length l + 1) - String.length l)%nat with 2%nat by lia. apply match_star. exists t, "". by rewrite sapp_nil_r.
Qed.

(** A prefix, anything, an infix, anything. *)
Lemma match_infix l m s : literal l = true -> literal m = true ->
  redis_match (l +:+ "*" +:+ m +:+ "*") s = true <-> exists a b, s = l +:+ a +:+ m +:+ b.
Proof.
  intros Hl Hm. unfold redis_match. rewrite !slength_app. cbn [String.length]. rewrite match_literal by (done || lia).
  replace (S (String.length l + (1 + (String.length m + 1))) - String.length l)%nat with (S (S (S (String.length m)))) by lia.
  change ("*" +:+ m +:+ "*") with (String "*" (m +:+ "*")).
  setoid_rewrite match_star. setoid_rewrite match_literal; [|done|lia].
  replace (S (S (String.length m)) - String.length m)%nat with 2%nat by lia. setoid_rewrite match_star. split.
  - intros (t & -> & a & b & -> & u & -> & _). by exists a, u.
  - intros (a & b & ->). exists (a +:+ m +:+ b). split; [done|]. exists a, (m +:+ b). split; [done|]. exists b. split; [done|].
    exists b, "". by rewrite sapp_nil_r.
Qed.

(** ** Keys *)

(** The key of an entry of the semantic cache (semantic.go). *)
Definition SemanticKey (dim : Z) (tenantID route id : string) : string :=
  "sc:" +:+ itoa dim +:+ ":" +:+ tenantTag tenantID +:+ ":" +:+ route +:+ ":" +:+ id.

Definition no_byte (c : ascii) (s : string) : bool := sforall (fun d => negb (Ascii.eqb d c)) s.

Lemma plain_no_byte s : plain s = true -> no_byte "{" s = true /\ no_byte "}" s = true.
Proof.
  intros H. split; (eapply sforall_impl; [|exact H]); intros c; unfold plain_byte; rewrite !negb_true_iff, !orb_false_iff; tauto.
Qed.

(** Text that has the separator once splits there only. *)
Lemma split_unique c u v u' v' : no_byte c u = true -> no_byte c v = true -> u +:+ String c v = u' +:+ String c v' -> u = u' /\ v = v'.
Proof.
  intros Hu Hv. revert u' Hu. induction u as [|d u IH]; intros [|d' u']; rewrite ?sapp_nil_l, ?sapp_cons; cbn [no_byte sforall]; intros Hu Heq.
  - by injection Heq.
  - injection Heq as <- ->. unfold no_byte in Hv. rewrite sforall_app in Hv. cbn in Hv. by rewrite Ascii.eqb_refl, andb_false_r in Hv.
  - injection Heq as -> _. by rewrite Ascii.eqb_refl in Hu.
  - injection Heq as <- Heq. apply andb_true_iff in Hu as [_ Hu]. by destruct (IH u' Hu Heq) as [-> ->].
Qed.

Lemma before_unique c u v u' v' : no_byte c u = true -> no_byte c u' = true -> u +:+ String c v = u' +:+ String c v' -> u = u'.
Proof.
  revert u'. induction u as [|d u IH]; intros [|d' u']; rewrite ?sapp_nil_l, ?sapp_cons; cbn [no_byte sforall]; intros Hu Hu' Heq; [done| | |].
  - injection Heq as <- _. by rewrite Ascii.eqb_refl in Hu'.
  - injection Heq as -> _. by rewrite Ascii.eqb_refl in Hu.
  - injection Heq as <- Heq. apply andb_true_iff in Hu as [_ Hu], Hu' as [_ Hu']. by rewrite (IH u' Hu Hu' Heq).
Qed.

(** ** What a purge removes *)

Lemma unlink_lookup keys : forall ks k, (unlink keys ks).2 !! k = if decide (k ∈ keys) then None else ks !! k.
Proof.
  induction keys as [|k0 keys IH]; intros ks k; [done|]. cbn [unlink]. specialize (IH (delete k0 ks) k).
  destruct (unlink keys (delete k0 ks)) as [n ks']. cbn [snd] in *. rewrite IH.
  destruct (decide (k ∈ keys)), (decide (k ∈ k0 :: keys)) as [Hin|Hin]; try done; [set_solver| |].
  - apply elem_of_cons in Hin as [->|]; [|done]. apply lookup_delete_eq.
  - apply not_elem_of_cons in Hin as [Hne _]. by apply lookup_delete_ne.
Qed.

(** Only keys of [which] go, all of them when the answer is a number. *)
Definition removes (which : string -> Prop) {A} (r : redis) (res : option A * redis) : Prop :=
  (forall k, rd_keys res.2 !! k = rd_keys r !! k \/ rd_keys res.2 !! k = None /\ which k) /\
  (is_Some res.1 -> forall k, which k -> rd_keys res.2 !! k = None).

Lemma removes_iff (P Q : string -> Prop) {A} r (res : option A * redis) : (forall k, P k <-> Q k) -> removes P r res -> removes Q r res.
Proof. intros H [H1 H2]. split; [intros k; rewrite <- H; apply H1|intros Hs k; rewrite <- H; by apply H2]. Qed.

Lemma removes_none {A} (a : A) r : removes (fun _ => False) r (done_with a r).
Proof. split; [intros k; by left|done]. Qed.

Lemma removes_then {A B} (P Q : string -> Prop) (m : eff A) (k : A -> eff B) r :
  removes P r (m r) -> (forall a r', removes Q r' (k a r')) -> removes (fun x => P x \/ Q x) r (andthen m k r).
Proof.
  intros [H1 H2] Hk. unfold andthen. destruct (m r) as [[a|] r1]; cbn [fst snd] in *.
  - destruct (Hk a r1) as [K1 K2]. split.
    + intros x. destruct (K1 x) as [->|[-> ?]]; [|by right; eauto]. destruct (H1 x) as [->|[-> ?]]; [by left|by right; eauto].
    + intros Hs x [HP|HQ]; [|by apply K2]. destruct (K1 x) as [->|[-> ?]]; [|done]. by apply H2.
  - split; [|by intros [? ?]]. intros x. cbn. destruct (H1 x) as [->|[-> ?]]; [by left|right; auto].
Qed.

Lemma removes_command {A} (f : gmap string (list string) -> A * gmap string (list string)) (P : string -> Prop) r :
  (forall ks k, P k -> (f ks).2 !! k = None) -> (forall ks k, ~ P k -> (f ks).2 !! k = ks !! k) -> (forall k, P k \/ ~ P k) ->
  removes P r (command f r).
Proof.
  intros HP HN Hdec. specialize (HP (rd_keys r)). specialize (HN (rd_keys r)).
  assert (forall a ks fs, f (rd_keys r) = (a, ks) -> removes P r (Some a, mkRedis ks fs)) as Hok.
  { intros a ks fs Hf. rewrite Hf in HP, HN. cbn [snd] in *. split; cbn; [|intros _; exact HP].
    intros k. destruct (Hdec k); [right; auto|left; auto]. }
  unfold command. destruct (f (rd_keys r)) as [a ks]. destruct (rd_fates r) as [|[] fs]; [by apply Hok..|].
  split; [by left|by intros [? ?]].
Qed.

Lemma removes_read {A} (f : gmap string (list string) -> A * gmap string (list string)) r :
  (forall ks, (f ks).2 = ks) -> removes (fun _ => False) r (command f r).
Proof. intros Hf. apply removes_command; [done|intros ks k _; by rewrite Hf|intros k; right; by intros []]. Qed.

Lemma removes_unlink b r : removes (fun k => k ∈ b) r (command (unlink b) r).
Proof.
  apply removes_command.
  - intros ks k Hk. rewrite unlink_lookup. by rewrite decide_True.
  - intros ks k Hk. rewrite unlink_lookup. by rewrite decide_False.
  - intros k. destruct (decide (k ∈ b)); auto.
Qed.

Lemma removes_rounds batches : forall total r, removes (fun k => k ∈ concat batches) r (scan_rounds total batches r).
Proof.
  induction batches as [|b bs IH]; intros total r; cbn [scan_rounds concat].
  { eapply removes_iff; [|apply removes_none]. intros k. split; [done|by intros ?%elem_of_nil]. }
  eapply removes_iff; [|apply (removes_then (fun _ => False) (fun k => k ∈ b ++ concat bs)); [by apply removes_read|]].
  { intros k. tauto. }
  intros [] r'. destruct b as [|x b]; [apply IH|].
  eapply removes_iff; [|apply removes_then; [apply removes_unlink|intros n r2; apply IH]]. intros k. by rewrite elem_of_app.
Qed.

Lemma removes_unlink_all batches : forall total r, removes (fun k => k ∈ concat batches) r (unlink_all total batches r).
Proof.
  induction batches as [|b bs IH]; intros total r; cbn [unlink_all concat].
  { eapply removes_iff; [|apply removes_none]. intros k. split; [done|by intros ?%elem_of_nil]. }
  eapply removes_iff; [|apply removes_then; [apply removes_unlink|intros n r2; apply IH]]. intros k. by rewrite elem_of_app.
Qed.

Section Purging.
Context (scan : string -> gmap string (list string) -> list (list string))
  (Hscan : forall p ks k, k ∈ concat (scan p ks) <-> is_Some (ks !! k) /\ redis_match p k = true).

Lemma removes_pattern total p r : removes (fun k => redis_match p k = true) r (scan_unlink scan total p r).
Proof.
  unfold scan_unlink. destruct (removes_rounds (scan p (rd_keys r)) total r) as [H1 H2]. split.
  - intros k. destruct (H1 k) as [->|[-> Hk]]; [by left|right]. apply Hscan in Hk. tauto.
  - intros Hs k Hk. destruct (rd_keys r !! k) as [v|] eqn:Hl.
    + apply H2; [done|]. apply Hscan. rewrite Hl. by split.
    + destruct (H1 k) as [->|[-> _]]; done.
Qed.

Lemma removes_patterns ps : forall total r, removes (fun k => Exists (fun p => redis_match p k = true) ps) r (purge_patterns scan total ps r).
Proof.
  induction ps as [|p ps IH]; intros total r; cbn [purge_patterns].
  { eapply removes_iff; [|apply removes_none]. intros k. by rewrite Exists_nil. }
  eapply removes_iff; [|apply removes_then; [apply removes_pattern|intros n r2; apply IH]]. intros k. by rewrite Exists_cons.
Qed.

(** Budgets and runs of a tenant lose nothing else, and all when every command is answered. *)
Lemma tenant_counters_purged T r : trim_space T <> "" ->
  removes (fun k => redis_match ("budget:{t:" +:+ T +:+ "}:*") k = true) r (Ledger_PurgeTenant scan T r) /\
  removes (fun k => Exists (fun p => redis_match (p +:+ "{t:" +:+ T +:+ "}:*") k = true) ["run:"; "runfp:"; "runemb:"]) r (Runs_PurgeTenant scan T r).
Proof.
  intros HT. unfold Ledger_PurgeTenant, Runs_PurgeTenant. destruct (String.eqb_spec (trim_space T) ""); [done|]. split; [apply removes_pattern|].
  eapply removes_iff; [|apply removes_patterns]. intros k. cbn [map]. by rewrite !Exists_cons, !Exists_nil.
Qed.
End Purging.

(** ** Tenants *)

(** [k] is a key of the cache of the tenant. *)
Inductive tenant_key (tenantID : string) : string -> Prop :=
| tk_exact route hash : tenant_key tenantID (ExactKey tenantID route hash)
| tk_tag tag : tenant_key tenantID (TagKey tenantID tag)
| tk_semantic dim route id : plain route = true -> plain id = true -> tenant_key tenantID (SemanticKey dim tenantID route id).

Lemma itoa_no_brace n : no_byte "{" (itoa n) = true.
Proof.
  assert (forall z, no_byte "{" (utoa z) = true) as Hu.
  { intros z. eapply sforall_impl; [|apply utoa_digits]. intros c Hc. destruct (Ascii.eqb_spec c "{") as [->|]; done. }
  unfold itoa. destruct (n <? 0); [|apply Hu]. cbn. apply Hu.
Qed.

Lemma tenant_patterns T : plain T = true -> T <> "" ->
  patterns_of (mkPurge T "" []) = [("cache:" +:+ tenantTag T +:+ ":") +:+ "*"; ("cachetag:" +:+ tenantTag T +:+ ":") +:+ "*"; "sc:" +:+ "*" +:+ (":" +:+ tenantTag T +:+ ":") +:+ "*"].
Proof.
  intros HT Hne. unfold patterns_of. cbn [po_TenantID po_Route]. destruct (String.eqb_spec T ""); [done|]. cbn [negb].
  rewrite !sapp_assoc. done.
Qed.

Lemma tenant_literal T a b : plain T = true -> literal a = true -> literal b = true -> literal (a +:+ tenantTag T +:+ b) = true.
Proof.
  intros HT Ha Hb. unfold tenantTag. rewrite !literal_app, Ha, Hb, (plain_literal T HT). done.
Qed.

Definition tenant_matches (T k : string) : Prop := Exists (fun p => redis_match p k = true) (patterns_of (mkPurge T "" [])).

Lemma tenant_matches_iff T k : plain T = true -> T <> "" -> tenant_matches T k <->
  (exists t, k = ("cache:" +:+ tenantTag T +:+ ":") +:+ t) \/ (exists t, k = ("cachetag:" +:+ tenantTag T +:+ ":") +:+ t) \/
  (exists a b, k = "sc:" +:+ a +:+ (":" +:+ tenantTag T +:+ ":") +:+ b).
Proof.
  intros HT Hne. unfold tenant_matches. rewrite tenant_patterns by done. rewrite !Exists_cons, Exists_nil.
  rewrite !match_prefix by by apply tenant_literal. rewrite match_infix by (done || by apply tenant_literal). tauto.
Qed.

Lemma own_key_matches T k : plain T = true -> T <> "" -> tenant_key T k -> tenant_matches T k.
Proof.
  intros HT Hne Hk. apply tenant_matches_iff; [done|done|]. destruct Hk as [route hash|tag|dim route id _ _].
  - left. exists ("x:" +:+ route +:+ ":" +:+ hash). unfold ExactKey. by rewrite !sapp_assoc.
  - right; left. exists tag. unfold TagKey. by rewrite !sapp_assoc.
  - right; right. exists (itoa dim), (route +:+ ":" +:+ id). unfold SemanticKey. by rewrite !sapp_assoc.
Qed.

(** The tag at the front of two texts. *)
Lemma tag_inj T T' u v : plain T = true -> plain T' = true -> tenantTag T +:+ u = tenantTag T' +:+ v -> T = T'.
Proof.
  intros HT HT' Heq. unfold tenantTag in Heq. rewrite !sapp_assoc in Heq. apply (sapp_inj_l "{t:") in Heq.
  apply (before_unique "}" T u T' v); [by apply plain_no_byte|by apply plain_no_byte|exact Heq].
Qed.

Lemma foreign_key_kept T T' k : plain T = true -> plain T' = true -> T <> "" -> T <> T' -> tenant_key T' k -> ~ tenant_matches T k.
Proof.
  intros HT HT' Hne Hd Hk. rewrite tenant_matches_iff by done.
  intros [[t Heq]|[[t Heq]|(a & b & Heq)]]; destruct Hk as [route hash|tag|dim route id Hr Hid]; unfold ExactKey, TagKey, SemanticKey in Heq;
    rewrite ?sapp_assoc in Heq; try discriminate Heq.
  - apply (sapp_inj_l "cache:") in Heq. by apply Hd, (tag_inj T T' (":" +:+ t) (":x:" +:+ route +:+ ":" +:+ hash)).
  - apply (sapp_inj_l "cachetag:") in Heq. by apply Hd, (tag_inj T T' (":" +:+ t) (":" +:+ tag)).
  - apply (sapp_inj_l "sc:") in Heq. unfold tenantTag in Heq. rewrite !sapp_assoc in Heq.
    assert ((itoa dim +:+ ":") +:+ String "{" ("t:" +:+ T' +:+ "}" +:+ ":" +:+ route +:+ ":" +:+ id) =
            (a +:+ ":") +:+ String "{" ("t:" +:+ T +:+ "}" +:+ ":" +:+ b)) as Heq' by (rewrite !sapp_assoc; exact Heq).
    apply split_unique in Heq' as [_ Heq'].
    + apply (sapp_inj_l "t:") in Heq'. apply Hd. symmetry.
      apply (before_unique "}" T' (":" +:+ route +:+ ":" +:+ id) T (":" +:+ b)); [by apply plain_no_byte|by apply plain_no_byte|exact Heq'].
    + unfold no_byte. rewrite sforall_app. by rewrite (itoa_no_brace dim : sforall _ _ = true).
    + unfold no_byte. rewrite !sforall_app. cbn [sforall].
      rewrite (proj1 (plain_no_byte T' HT') : sforall _ _ = true), (proj1 (plain_no_byte route Hr) : sforall _ _ = true),
        (proj1 (plain_no_byte id Hid) : sforall _ _ = true). done.
Qed.

(** Purging a tenant removes, when it succeeds, every key of the tenant's cache
    (exact entries, semantic entries and tag sets); even when it fails on the way it
    touches no key of another tenant's cache and nothing outside the cache.  (Identifiers
    without glob characters and braces; a SCAN returns exactly the keys that match.) *)
Theorem tenant_purge_exact scan
  (Hscan : forall p ks k, k ∈ concat (scan p ks) <-> is_Some (ks !! k) /\ redis_match p k = true)
  T r (HT : plain T = true) (Hblank : trim_space T <> "") :
  let res := PurgeTenant scan T r in
  (is_Some res.1 -> forall k, tenant_key T k -> rd_keys res.2 !! k = None) /\
  (forall T' k, plain T' = true -> T' <> T -> tenant_key T' k -> rd_keys res.2 !! k = rd_keys r !! k) /\
  (forall k, has_prefix "cache" k = false -> has_prefix "sc:" k = false -> rd_keys res.2 !! k = rd_keys r !! k).
Proof.
  cbn. assert (T <> "") as Hne by by intros ->.
  assert (removes (tenant_matches T) r (PurgeTenant scan T r)) as [H1 H2].
  { unfold PurgeTenant. destruct (String.eqb_spec (trim_space T) ""); [done|]. apply (removes_patterns scan Hscan). }
  split_and!.
  - intros Hs k Hk. apply H2; [done|]. by apply own_key_matches.
  - intros T' k HT' Hd Hk. destruct (H1 k) as [->|[_ Hm]]; [done|]. by eapply foreign_key_kept in Hm.
  - intros k Hc Hsc. destruct (H1 k) as [->|[_ Hm]]; [done|]. apply tenant_matches_iff in Hm; [|done|done].
    destruct Hm as [[t ->]|[[t ->]|(a & b & ->)]]; cbn in Hc, Hsc; done.
Qed.

(** ** Concrete purges *)

Module ToyRedis.
(** A SCAN that comes in one batch. *)
Definition scan1 (p : string) (ks : gmap string (list string)) : list (list string) :=
  [List.filter (redis_match p) (map fst (map_to_list ks))].

Lemma scan1_ok p ks k : k ∈ concat (scan1 p ks) <-> is_Some (ks !! k) /\ redis_match p k = true.
Proof.
  unfold scan1. cbn [concat]. rewrite app_nil_r, list_elem_of_In, filter_In, in_map_iff. split.
  - intros [([k' v] & <- & Hin) Hm]. split; [|done]. apply list_elem_of_In, elem_of_map_to_list in Hin. by exists v.
  - intros [[v Hl] Hm]. split; [|done]. exists (k, v). split; [done|]. by apply list_elem_of_In, elem_of_map_to_list.
Qed.

Definition entry_a1 : string := ExactKey "a" "chat" "h1".
Definition entry_a2 : string := ExactKey "a" "code" "h2".
Definition entry_b : string := ExactKey "b" "chat" "h3".
Definition redis1 : redis :=
  mkRedis {[entry_a1 := []; entry_a2 := []; entry_b := []; TagKey "a" "red" := [entry_a1; entry_a2]; "proofgate:session:1" := []]} [].
End ToyRedis.
Import ToyRedis.

Lemma tenant_purge_exact_witness :
  let res := PurgeTenant scan1 "a" redis1 in
  res.1 = Some 3 /\ rd_keys res.2 !! entry_a1 = None /\ rd_keys res.2 !! entry_b = Some [] /\ rd_keys res.2 !! "proofgate:session:1" = Some [].
Proof.
  cbn zeta. destruct (tenant_purge_exact scan1 scan1_ok "a" redis1 eq_refl ltac:(done)) as (A & B & C).
  assert ((PurgeTenant scan1 "a" redis1).1 = Some 3) as H by (vm_compute; reflexivity).
  split_and!; [exact H| | |].
  - apply A; [rewrite H; by eexists|apply tk_exact].
  - rewrite (B "b"); [reflexivity|done|done|apply tk_exact].
  - rewrite C; reflexivity.
Defined.

(** A purge of a tag restricted to a route drops the whole index of the tag: a later
    purge of the tag does not find the entries of the other routes. *)
Lemma tag_purge_by_route_orphans :
  let r1 := (Purge scan1 (mkPurge "a" "chat" ["red"]) redis1).2 in
  let res := Purge scan1 (mkPurge "a" "" ["red"]) r1 in
  rd_keys r1 !! entry_a1 = None /\ rd_keys r1 !! entry_a2 = Some [] /\ res.1 = Some 0 /\ rd_keys res.2 !! entry_a2 = Some [].
Proof. vm_compute. done. Qed.
