(* ===== verification/ConfigTools.v ===== *)
(** * Checking, showing and reloading the configuration (src/internal/config: lint.go, redact.go, watch.go)

    [Lint] finds what [validate] lets pass but a deployment should not have, [Redact]
    is the configuration without its secrets, and the watcher reads the file again and
    hands on what parses.  Package net/url is a parameter. *)

From S2P Require Import Prelude GoStrings GoFloat Breaker Config.

Open Scope string_scope.
Open Scope list_scope.
Open Scope Z_scope.

(** ** lint.go *)

Inductive Severity := SeverityError | SeverityWarning.

Record LintIssue := mkIssue { li_Rule : string; li_Severity : Severity; li_Message : string }.

Section Lint.
Context {IP IPNet : Type}
  (split_host_port : string -> option string) (parse_ip : string -> option IP)
  (ip_is_v4 ip_is_loopback : IP -> bool) (parse_cidr : string -> option IPNet) (url_parse : string -> option parsed_url)
  (show_errors : list cfg_error -> string).

Definition issue (strict : bool) (bad : bool) (rule : string) (sev : Severity) (msg : string) : list LintIssue :=
  if bad then [mkIssue rule (if strict then SeverityError else sev) msg] else [].

Definition lint_cache (strict : bool) (minThreshold : spec_float) (r : RouteConfig) : list LintIssue :=
  let cc := rc_Cache r in
  issue strict (String.eqb (cc_Mode cc) "on" && negb (cc_AcknowledgeUncalibrated cc)) "cache/calibration" SeverityError
    ("route " +:+ go_quote (rc_Name r) +:+ " has cache.mode: 'on' without calibration. Calibrate route quality or set cache.acknowledge_uncalibrated: true") ++
  issue strict (cc_Semantic cc && fgtb (cc_Threshold cc) f0 && fltb (cc_Threshold cc) minThreshold) "cache/threshold" SeverityWarning
    ("route " +:+ go_quote (rc_Name r) +:+ " semantic threshold " +:+ format_fixed 2 (cc_Threshold cc) +:+ " is below the calibrated floor of " +:+ format_fixed 2 minThreshold).

Definition unpriced (c : Config) (key : string) : bool := negb (bool_decide (is_Some (Pricing c !! key))).

Definition lint_pricing (strict : bool) (c : Config) (r : RouteConfig) : list LintIssue :=
  flat_map (fun t : Target =>
    let key := Provider t +:+ "/" +:+ Model t in
    issue strict (unpriced c key) "budget/pricing_coverage" SeverityError
      ("route " +:+ go_quote (rc_Name r) +:+ " target " +:+ go_quote key +:+ " lacks pricing in config under require_pricing")) (rc_Targets r) ++
  let sr := rc_SmartRoute r in
  if negb (String.eqb (sr_Mode sr) "off") && negb (String.eqb (sr_Mode sr) "") then
    issue strict (negb (String.eqb (sr_CheapTarget sr) "") && unpriced c (sr_CheapTarget sr)) "budget/pricing_coverage" SeverityError
      ("route " +:+ go_quote (rc_Name r) +:+ " smart_route cheap_target " +:+ go_quote (sr_CheapTarget sr) +:+ " lacks pricing in config") ++
    issue strict (negb (String.eqb (sr_StrongTarget sr) "") && unpriced c (sr_StrongTarget sr)) "budget/pricing_coverage" SeverityError
      ("route " +:+ go_quote (rc_Name r) +:+ " smart_route strong_target " +:+ go_quote (sr_StrongTarget sr) +:+ " lacks pricing in config")
  else [].

Definition lint_admin (strict : bool) (c : Config) : list LintIssue :=
  let addr := sv_AdminAddr (Server c) in
  issue strict (negb (String.eqb addr "") && (negb (IsLoopbackAddr split_host_port parse_ip ip_is_loopback addr) && negb (aa_Enabled (AdminAuth c))))
    "admin/exposure" SeverityError
    ("server.admin_addr " +:+ go_quote addr +:+ " is non-loopback but admin_auth.enabled is false. Unauthenticated admin APIs must not be exposed.").

Definition lint_provider (strict : bool) (p : ProviderConfig) : list LintIssue :=
  match url_parse (pv_BaseURL p) with
  | None => []
  | Some u =>
      let h := url_hostname u in
      let isLoop := one_of h ["localhost"; "127.0.0.1"; "::1"] || has_suffix ".local" h || contains h "docker" ||
        has_prefix "mock" (pv_Name p) || contains h "ollama" || negb (contains h ".") in
      issue strict (String.eqb (url_scheme u) "http" && (negb isLoop && negb (pv_AllowInsecureBaseURL p))) "provider/tls" SeverityWarning
        ("provider " +:+ go_quote (pv_Name p) +:+ " base_url " +:+ go_quote (pv_BaseURL p) +:+ " uses unencrypted http to an external host")
  end.

Definition Lint (c : Config) (strict : bool) : list LintIssue :=
  let errs := validate parse_ip ip_is_v4 parse_cidr url_parse c in
  let minThreshold := if fleb (pf_MinThreshold (Proof c)) f0 then f_lit 86 100 else pf_MinThreshold (Proof c) in
  issue strict (negb (bool_decide (errs = []))) "config/valid" SeverityError ("validation error: " +:+ show_errors errs) ++
  flat_map (lint_cache strict minThreshold) (Routes c) ++
  (if BudgetConfig_IsRequirePricing (Budget c) then flat_map (lint_pricing strict c) (Routes c) else []) ++
  lint_admin strict c ++
  flat_map (lint_provider strict) (Providers c).

(** The start of [run] in main.go: issues of severity error end the program. *)
Definition lint_errors (c : Config) : list LintIssue :=
  List.filter (fun i => match li_Severity i with SeverityError => true | SeverityWarning => false end) (Lint c false).
End Lint.

(** ** redact.go *)

(** Package net/url, as [redactURL] uses it: an address has a user, a query and a rest; [Query]
    reads the parameters out of a raw query, and [Encode] writes them. *)
Record go_url (R : Type) := mkURL { ur_User : option string; ur_RawQuery : string; ur_rest : R }.
Arguments mkURL {R}. Arguments ur_User {R}. Arguments ur_RawQuery {R}. Arguments ur_rest {R}.

Record url_ops := mkUrlOps {
  url_rest : Type;
  url_Parse : string -> option (go_url url_rest);
  url_Query : string -> gmap string (list string);
  url_Encode : gmap string (list string) -> string;
  url_String : go_url url_rest -> string }.

Definition redacted : string := "<redacted>".

Definition secret_param (k : string) : bool :=
  let lower := lower_ascii k in contains lower "pass" || contains lower "secret" || contains lower "token" || contains lower "key".

Section Redact.
Context (U : url_ops).

(** The loop over the parameters; whether it changed one. *)
Definition redact_query (q : gmap string (list string)) : gmap string (list string) :=
  map_imap (fun k vs => Some (if secret_param k then ["redacted"] else vs)) q.
Definition query_changed (q : gmap string (list string)) : bool := existsb (fun kv => secret_param kv.1) (map_to_list q).

Definition redactURL (raw : string) : string :=
  if String.eqb raw "" then ""
  else match url_Parse U raw with
       | None => redacted
       | Some u =>
           let user := match ur_User u with Some _ => Some "redacted:redacted" | None => None end in
           let q := url_Query U (ur_RawQuery u) in
           url_String U (mkURL user (if query_changed q then url_Encode U (redact_query q) else ur_RawQuery u) (ur_rest u))
       end.

Definition hide (s : string) : string := if String.eqb s "" then "" else redacted.

Definition redact_provider (p : ProviderConfig) : ProviderConfig :=
  mkProviderConfig (pv_Name p) (pv_Type p) (pv_BaseURL p) (hide (pv_APIKeyEnv p)) (pv_APIKeyDB p)
    ((fun _ => redacted) <$> pv_Headers p) (pv_AllowInsecureBaseURL p).

Definition redact_mcp (m : MCPServerConfig) : MCPServerConfig :=
  mkMCPServerConfig (ms_Name m) (ms_URL m) ((fun _ => redacted) <$> ms_Headers m).

(** The previous keys are redacted one level deep. *)
Definition redact_previous (s : SecretsConfig) : SecretsConfig :=
  mkSecretsConfig (sc_KEK s) (hide (sc_LocalKEKFile s)) (sc_VaultAddr s) (hide (sc_VaultKey s)) (sc_VaultAuth s) (sc_VaultRole s)
    (hide (sc_VaultTokenFile s)) (sc_CacheTTL s) (sc_PreviousKEKs s).

Definition redact_secrets (s : SecretsConfig) : SecretsConfig :=
  mkSecretsConfig (sc_KEK s) (hide (sc_LocalKEKFile s)) (sc_VaultAddr s) (hide (sc_VaultKey s)) (sc_VaultAuth s) (sc_VaultRole s)
    (hide (sc_VaultTokenFile s)) (sc_CacheTTL s) (map redact_previous (sc_PreviousKEKs s)).

Definition Redact (c : Config) : Config :=
  mkConfig (Server c)
    (mkDatabaseConfig (redactURL (db_URL (Database c))) (db_MaxConns (Database c)))
    (mkRedisConfig (redactURL (rd_URL (Redis c))))
    (let a := Analytics c in
     mkAnalyticsConfig (redactURL (an_ClickHouseDSN a)) (an_UsageBatcher a) (an_MCPBatcher a) (an_FlushTimeout a) (an_TextTTLHours a) (an_TTLDays a) (an_StoreText a))
    (Telemetry c) (BreakersC c) (Auth c) (AdminAuth c) (MCP c)
    (map redact_provider (Providers c)) (Pricing c) (Budget c) (Proof c) (Routes c) (Capabilities c) (DefaultsC c) (SLOs c)
    (let h := Health c in
     mkHealthConfig (hc_Alpha h) (hc_Breaches h) (hc_Recover h) (hc_MinSamples h) (hc_ProbeInterval h) (hc_ProbeTimeout h) (hc_GossipAddr h)
       (hc_GossipPeers h) (hc_ShareMode h) (hide (hc_GossipSecret h)) (hc_AllowUnsignedGossip h))
    (map redact_mcp (MCPServers c)) (MCPInsecureHosts c) (redact_secrets (Secrets c)) (WatcherInterval c) (OverrideInterval c).
End Redact.

(** ** watch.go *)

Record Watcher := mkWatcher { wt_lastSum : string }.

Section Watch.
Context (sha256 : string -> string) (Parse : string -> string + Config).

(** [file] is what [os.ReadFile] gives. *)
Definition NewWatcher (file : string + string) : Watcher :=
  mkWatcher (match file with inr b => sha256 b | inl _ => concat_strings (repeat nul 32) end).

(** The result of [check]: an error, nothing new, or a configuration for [onChange]. *)
Definition watcher_check (force : bool) (file : string + string) (w : Watcher) : (string + option Config) * Watcher :=
  match file with
  | inl err => (inl err, w)
  | inr b =>
      let sum := sha256 b in
      if String.eqb sum (wt_lastSum w) && negb force then (inr None, w)
      else match Parse b with
           | inl err => (inl err, mkWatcher sum)
           | inr c => (inr (Some c), mkWatcher sum)
           end
  end.

Definition Reload : string + string -> Watcher -> (string + option Config) * Watcher := watcher_check true.
End Watch.

(** ** What a configuration without lint errors guarantees *)

Definition is_error (i : LintIssue) : bool := match li_Severity i with SeverityError => true | SeverityWarning => false end.

Lemma no_errors_app l k : List.filter is_error (l ++ k) = [] <-> List.filter is_error l = [] /\ List.filter is_error k = [].
Proof. rewrite List.filter_app. apply app_nil. Qed.

Lemma no_errors_flat_map {A} (f : A -> list LintIssue) l : List.filter is_error (flat_map f l) = [] <-> forall x, x ∈ l -> List.filter is_error (f x) = [].
Proof.
  induction l as [|x l IH]; cbn; [split; [by intros _ y ?%elem_of_nil|done]|]. rewrite no_errors_app, IH. split.
  - intros [H1 H2] y [->|Hy]%elem_of_cons; auto.
  - intros H. split; [apply H; left|intros y Hy; apply H; by right].
Qed.

Lemma no_error_issue strict bad rule msg : List.filter is_error (issue strict bad rule SeverityError msg) = [] <-> bad = false.
Proof. unfold issue. by destruct bad, strict. Qed.

(** A configuration that the program starts with (no lint issue of severity error)
    passes validation; serves no answers from an uncalibrated cache unless that is
    acknowledged; where prices are required has a price for every target a route or
    its smart routing can choose; and does not expose the admin listener without
    authentication. *)
Theorem linted_config_guarantees {IP IPNet : Type} split_host_port (parse_ip : string -> option IP) ip_is_v4 ip_is_loopback
  (parse_cidr : string -> option IPNet) url_parse show_errors (c : Config)
  (Hlint : lint_errors split_host_port parse_ip ip_is_v4 ip_is_loopback parse_cidr url_parse show_errors c = []) :
  validate parse_ip ip_is_v4 parse_cidr url_parse c = [] /\
  (forall r, r ∈ Routes c -> cc_Mode (rc_Cache r) = "on" -> cc_AcknowledgeUncalibrated (rc_Cache r) = true) /\
  (BudgetConfig_IsRequirePricing (Budget c) = true -> forall r, r ∈ Routes c ->
     (forall t, t ∈ rc_Targets r -> is_Some (Pricing c !! (Provider t +:+ "/" +:+ Model t))) /\
     (sr_Mode (rc_SmartRoute r) <> "off" -> sr_Mode (rc_SmartRoute r) <> "" ->
        forall t, t ∈ [sr_CheapTarget (rc_SmartRoute r); sr_StrongTarget (rc_SmartRoute r)] -> t <> "" -> is_Some (Pricing c !! t))) /\
  (sv_AdminAddr (Server c) <> "" -> IsLoopbackAddr split_host_port parse_ip ip_is_loopback (sv_AdminAddr (Server c)) = false -> aa_Enabled (AdminAuth c) = true).
Proof.
  assert (forall key, unpriced c key = false -> is_Some (Pricing c !! key)) as Hpriced.
  { intros key. unfold unpriced. rewrite negb_false_iff. apply bool_decide_eq_true. }
  unfold lint_errors, Lint in Hlint. fold is_error in Hlint. change (List.filter _ ?l) with (List.filter is_error l) in Hlint.
  rewrite !no_errors_app, no_error_issue in Hlint. destruct Hlint as (Hv & Hcache & Hprice & Hadmin & _). split; [|split; [|split]].
  - apply negb_false_iff, bool_decide_eq_true in Hv. exact Hv.
  - intros r Hr Hon. rewrite no_errors_flat_map in Hcache. specialize (Hcache r Hr). unfold lint_cache in Hcache.
    rewrite no_errors_app, no_error_issue, Hon in Hcache. destruct Hcache as [Hc _]. cbn in Hc. by apply negb_false_iff in Hc.
  - intros Hreq r Hr. rewrite Hreq, no_errors_flat_map in Hprice. specialize (Hprice r Hr). unfold lint_pricing in Hprice.
    rewrite no_errors_app, no_errors_flat_map in Hprice. destruct Hprice as [Ht Hs]. split.
    + intros t Hin. specialize (Ht t Hin). rewrite no_error_issue in Ht. by apply Hpriced.
    + intros H1 H2 t Hin Hne. apply String.eqb_neq in H1, H2. rewrite H1, H2 in Hs. cbn [negb andb] in Hs.
      rewrite no_errors_app, !no_error_issue in Hs. destruct Hs as [Hc Hst]. apply Hpriced.
      apply elem_of_cons in Hin as [->|Hin%list_elem_of_singleton]; [|subst t]; apply String.eqb_neq in Hne; [rewrite Hne in Hc|rewrite Hne in Hst]; done.
  - intros Hne Hl. unfold lint_admin in Hadmin. rewrite no_error_issue, Hl in Hadmin. apply String.eqb_neq in Hne. rewrite Hne in Hadmin.
    cbn in Hadmin. by apply negb_false_iff in Hadmin.
Qed.

(** ** What the redacted configuration hides *)

Section Hidden.
Context (U : url_ops).

(** Texts that are both set or both unset. *)
Definition both_set (a b : string) : Prop := a = "" <-> b = "".

(** Queries that are equal, or have the same parameters and differ in the values of those whose
    name says that they are secret. *)
Definition same_query (a b : string) : Prop :=
  a = b \/ let q := url_Query U a in let r := url_Query U b in
    dom q = dom r /\ (exists k, k ∈ dom q /\ secret_param k = true) /\ forall k, secret_param k = false -> q !! k = r !! k.

(** Connection strings that are equal, or no addresses, or addresses that differ in the user and
    password and in secret parameters only. *)
Definition same_url (a b : string) : Prop :=
  a = b \/ a <> "" /\ b <> "" /\
  match url_Parse U a, url_Parse U b with
  | Some u, Some v => (is_Some (ur_User u) <-> is_Some (ur_User v)) /\ same_query (ur_RawQuery u) (ur_RawQuery v) /\ ur_rest u = ur_rest v
  | None, None => True
  | _, _ => False
  end.

Record same_provider (p q : ProviderConfig) : Prop := mkSameProvider {
  sp_public : mkProviderConfig (pv_Name p) (pv_Type p) (pv_BaseURL p) "" (pv_APIKeyDB p) ∅ (pv_AllowInsecureBaseURL p) =
              mkProviderConfig (pv_Name q) (pv_Type q) (pv_BaseURL q) "" (pv_APIKeyDB q) ∅ (pv_AllowInsecureBaseURL q);
  sp_key : both_set (pv_APIKeyEnv p) (pv_APIKeyEnv q);
  sp_headers : dom (pv_Headers p) = dom (pv_Headers q) }.

Record same_mcp (m n : MCPServerConfig) : Prop := mkSameMcp {
  sm_name : ms_Name m = ms_Name n; sm_url : ms_URL m = ms_URL n; sm_headers : dom (ms_Headers m) = dom (ms_Headers n) }.

Definition secrets_public (s : SecretsConfig) : string * string * string * string * Duration :=
  (sc_KEK s, sc_VaultAddr s, sc_VaultAuth s, sc_VaultRole s, sc_CacheTTL s).

Definition same_key_fields (s t : SecretsConfig) : Prop :=
  secrets_public s = secrets_public t /\ both_set (sc_LocalKEKFile s) (sc_LocalKEKFile t) /\ both_set (sc_VaultKey s) (sc_VaultKey t) /\
  both_set (sc_VaultTokenFile s) (sc_VaultTokenFile t).

Definition same_secrets (s t : SecretsConfig) : Prop :=
  same_key_fields s t /\ Forall2 (fun a b => same_key_fields a b /\ sc_PreviousKEKs a = sc_PreviousKEKs b) (sc_PreviousKEKs s) (sc_PreviousKEKs t).

(** Two configurations that differ in their secrets only. *)
Record same_public (c d : Config) : Prop := mkSamePublic {
  pub_db : same_url (db_URL (Database c)) (db_URL (Database d));
  pub_redis : same_url (rd_URL (Redis c)) (rd_URL (Redis d));
  pub_clickhouse : same_url (an_ClickHouseDSN (Analytics c)) (an_ClickHouseDSN (Analytics d));
  pub_gossip : both_set (hc_GossipSecret (Health c)) (hc_GossipSecret (Health d));
  pub_providers : Forall2 same_provider (Providers c) (Providers d);
  pub_mcp : Forall2 same_mcp (MCPServers c) (MCPServers d);
  pub_secrets : same_secrets (Secrets c) (Secrets d);
  pub_rest : forall u h s,
    let strip x := mkConfig (Server x) (mkDatabaseConfig u (db_MaxConns (Database x))) (mkRedisConfig u)
      (let a := Analytics x in mkAnalyticsConfig u (an_UsageBatcher a) (an_MCPBatcher a) (an_FlushTimeout a) (an_TextTTLHours a) (an_TTLDays a) (an_StoreText a))
      (Telemetry x) (BreakersC x) (Auth x) (AdminAuth x) (MCP x) [] (Pricing x) (Budget x) (Proof x) (Routes x) (Capabilities x) (DefaultsC x) (SLOs x)
      (let k := Health x in mkHealthConfig (hc_Alpha k) (hc_Breaches k) (hc_Recover k) (hc_MinSamples k) (hc_ProbeInterval k) (hc_ProbeTimeout k)
         (hc_GossipAddr k) (hc_GossipPeers k) (hc_ShareMode k) h (hc_AllowUnsignedGossip k))
      [] (MCPInsecureHosts x) s (WatcherInterval x) (OverrideInterval x) in
    strip c = strip d }.

Lemma hide_same a b : both_set a b -> hide a = hide b.
Proof. unfold hide, both_set. intros H. destruct (String.eqb_spec a ""), (String.eqb_spec b ""); naive_solver. Qed.

Lemma query_changed_spec q : query_changed q = true <-> exists k, k ∈ dom q /\ secret_param k = true.
Proof.
  unfold query_changed. rewrite existsb_exists. split.
  - intros ([k vs] & Hin & Hk). exists k. split; [|done]. apply list_elem_of_In, elem_of_map_to_list in Hin. apply elem_of_dom. by exists vs.
  - intros (k & [vs Hv]%elem_of_dom & Hk). exists (k, vs). split; [|done]. by apply list_elem_of_In, elem_of_map_to_list.
Qed.

Lemma redact_query_same q r : dom q = dom r -> (forall k, secret_param k = false -> q !! k = r !! k) -> redact_query q = redact_query r.
Proof.
  intros Hd Hv. apply map_eq. intros k. unfold redact_query. rewrite !map_lookup_imap. specialize (Hv k).
  assert (is_Some (q !! k) <-> is_Some (r !! k)) as Hx by by rewrite <- !elem_of_dom, Hd.
  destruct (secret_param k); [|by rewrite Hv]. destruct (q !! k), (r !! k); cbn; try done; [destruct Hx as [Hx _]|destruct Hx as [_ Hx]]; by destruct Hx.
Qed.

Lemma redactURL_same a b : same_url a b -> redactURL U a = redactURL U b.
Proof.
  intros [->|(Ha & Hb & H)]; [done|]. unfold redactURL. apply String.eqb_neq in Ha, Hb. rewrite Ha, Hb.
  destruct (url_Parse U a) as [u|], (url_Parse U b) as [v|]; try done. destruct H as (Hu & Hq & Hr). f_equal. f_equal; [| |done].
  - destruct (ur_User u), (ur_User v); try done; [destruct Hu as [Hu _]|destruct Hu as [_ Hu]]; by destruct Hu.
  - destruct Hq as [->|(Hd & (k & Hk & Hs) & Hv)]; [done|]. cbv zeta in *.
    rewrite (proj2 (query_changed_spec _)) by by exists k. rewrite (proj2 (query_changed_spec (url_Query U (ur_RawQuery v)))) by (exists k; by rewrite <- Hd).
    f_equal. by apply redact_query_same.
Qed.

Lemma redacted_headers (h k : gmap string string) : dom h = dom k -> (fun _ => redacted) <$> h = (fun _ => redacted) <$> k.
Proof.
  intros Hd. apply map_eq. intros x. rewrite !lookup_fmap. assert (is_Some (h !! x) <-> is_Some (k !! x)) as Hx by by rewrite <- !elem_of_dom, Hd.
  destruct (h !! x), (k !! x); cbn; try done; [destruct Hx as [Hx _]|destruct Hx as [_ Hx]]; by destruct Hx.
Qed.

Lemma redact_provider_same p q : same_provider p q -> redact_provider p = redact_provider q.
Proof.
  intros [Hp Hk Hh]. injection Hp. intros. unfold redact_provider.
  rewrite (redacted_headers _ _ Hh), (hide_same _ _ Hk). congruence.
Qed.

Lemma redact_mcp_same m n : same_mcp m n -> redact_mcp m = redact_mcp n.
Proof. intros [Hn Hu Hh]. unfold redact_mcp. by rewrite (redacted_headers _ _ Hh), Hn, Hu. Qed.

Lemma redact_previous_same s t : same_key_fields s t -> sc_PreviousKEKs s = sc_PreviousKEKs t -> redact_previous s = redact_previous t.
Proof.
  destruct s, t. unfold same_key_fields, secrets_public, redact_previous. cbn. intros ([= -> -> -> -> ->] & H1 & H2 & H3) ->.
  by rewrite (hide_same _ _ H1), (hide_same _ _ H2), (hide_same _ _ H3).
Qed.

Lemma map_same {A B} (f : A -> B) (R : A -> A -> Prop) l k : (forall x y, R x y -> f x = f y) -> Forall2 R l k -> map f l = map f k.
Proof. intros Hf H. induction H; cbn; [done|]. f_equal; auto. Qed.

Lemma redact_secrets_same s t : same_secrets s t -> redact_secrets s = redact_secrets t.
Proof.
  intros [Hk Hp]. unfold redact_secrets.
  assert (map redact_previous (sc_PreviousKEKs s) = map redact_previous (sc_PreviousKEKs t)) as ->.
  { eapply map_same; [|exact Hp]. intros x y [? ?]. by apply redact_previous_same. }
  destruct s, t. unfold same_key_fields, secrets_public in Hk. cbn in *. destruct Hk as ([= -> -> -> -> ->] & H1 & H2 & H3).
  by rewrite (hide_same _ _ H1), (hide_same _ _ H2), (hide_same _ _ H3).
Qed.
End Hidden.

(** C25. The redacted configuration does not depend on the secrets: two configurations
    that differ in the values of provider and tool-server headers, the names of key
    variables, the gossip secret, the key files, token files and names of vault keys (those of
    previous keys included) and, in the three connection strings, where these are URLs, in the
    user and password and in the values of query parameters whose names contain "pass",
    "secret", "token" or "key", look the same.  A connection string of the form "host=...
    password=..." is not a URL with a user and is shown ([keyword_dsn_shown]). *)
Theorem Redact_hides_secrets U c d (Hsame : same_public U c d) : Redact U c = Redact U d.
Proof.
  destruct Hsame as [Hdb Hr Hch Hg Hp Hm Hs Hrest].
  unfold Redact. rewrite (redactURL_same U _ _ Hdb), (redactURL_same U _ _ Hr), (redactURL_same U _ _ Hch), (hide_same _ _ Hg), (redact_secrets_same _ _ Hs).
  rewrite (map_same redact_mcp same_mcp _ _ redact_mcp_same Hm), (map_same redact_provider same_provider _ _ redact_provider_same Hp).
  specialize (Hrest "" "" (Secrets c)). cbn in Hrest. injection Hrest. intros. f_equal; first [assumption|reflexivity|f_equal; assumption].
Qed.

(** ** Witnesses *)

Definition set_Pricing (p : gmap string Price) (c : Config) : Config :=
  mkConfig (Server c) (Database c) (Redis c) (Analytics c) (Telemetry c) (BreakersC c) (Auth c) (AdminAuth c) (MCP c) (Providers c) p
    (Budget c) (Proof c) (Routes c) (Capabilities c) (DefaultsC c) (SLOs c) (Health c) (MCPServers c) (MCPInsecureHosts c) (Secrets c)
    (WatcherInterval c) (OverrideInterval c).

Definition set_Database (u : string) (c : Config) : Config :=
  mkConfig (Server c) (mkDatabaseConfig u 0) (Redis c) (Analytics c) (Telemetry c) (BreakersC c) (Auth c) (AdminAuth c) (MCP c) (Providers c) (Pricing c)
    (Budget c) (Proof c) (Routes c) (Capabilities c) (DefaultsC c) (SLOs c) (Health c) (MCPServers c) (MCPInsecureHosts c) (Secrets c)
    (WatcherInterval c) (OverrideInterval c).

Definition priced_config : Config := set_Pricing {["openai/gpt-4o" := mkPrice f1 f1 f0]} (applyDefaults (fun _ => "") demo_config).

(** Every address is a loopback address. *)
Definition demo_lint (c : Config) : list LintIssue :=
  lint_errors (IP := unit) (IPNet := unit) Some (fun _ => Some tt) (fun _ => true) (fun _ => true) (fun _ => None) demo_url (fun _ => "") c.

Example lint_ex : map li_Rule (demo_lint (applyDefaults (fun _ => "") demo_config)) = ["budget/pricing_coverage"] /\ demo_lint priced_config = [].
Proof. vm_compute. done. Qed.

Lemma linted_config_guarantees_witness : demo_lint priced_config = [] /\ is_Some (Pricing priced_config !! "openai/gpt-4o").
Proof.
  assert (demo_lint priced_config = []) as Hl by (vm_compute; reflexivity). split; [exact Hl|].
  destruct (linted_config_guarantees (IP := unit) (IPNet := unit) Some (fun _ => Some tt) (fun _ => true) (fun _ => true) (fun _ => None) demo_url (fun _ => "")
              priced_config Hl) as (_ & _ & Hp & _).
  destruct (Hp eq_refl (hd demo_route_cfg (Routes priced_config))) as [Ht _]; [left|]. apply (Ht demo_target). left.
Defined.

Definition set_Redis (u : string) (c : Config) : Config :=
  mkConfig (Server c) (Database c) (mkRedisConfig u) (Analytics c) (Telemetry c) (BreakersC c) (Auth c) (AdminAuth c) (MCP c) (Providers c) (Pricing c)
    (Budget c) (Proof c) (Routes c) (Capabilities c) (DefaultsC c) (SLOs c) (Health c) (MCPServers c) (MCPInsecureHosts c) (Secrets c)
    (WatcherInterval c) (OverrideInterval c).

(** URLs whose user is everything up to an at sign and whose query is what follows a question
    mark, without escapes. *)
Definition toy_query (s : string) : gmap string (list string) :=
  list_to_map (map (fun kv => let '(k, v, _) := cut kv "=" in (k, [v])) (if String.eqb s "" then [] else split_byte "&" s)).
Definition toy_urls : url_ops := mkUrlOps string
  (fun s => let '(u, h, found) := cut s "@" in let '(rest, q, _) := cut (if found then h else s) "?" in Some (mkURL (if found then Some u else None) q rest))
  toy_query (fun q => join "&" (flat_map (fun kv => map (fun v => kv.1 +:+ "=" +:+ v) kv.2) (map_to_list q)))
  (fun u => match ur_User u with Some n => n +:+ "@" | None => "" end +:+ ur_rest u +:+ (if String.eqb (ur_RawQuery u) "" then "" else "?" +:+ ur_RawQuery u)).

Lemma Redact_hides_secrets_witness :
  let c u p := set_Database u (set_Redis ("cache:6379?password=" +:+ p) demo_config) in
  Redact toy_urls (c "admin:s3cret@db:5432" "abc") = Redact toy_urls (c "root:other@db:5432" "xyz") /\
  db_URL (Database (Redact toy_urls (c "admin:s3cret@db:5432" "abc"))) = "redacted:redacted@db:5432" /\
  rd_URL (Redis (Redact toy_urls (c "admin:s3cret@db:5432" "abc"))) = "cache:6379?password=redacted".
Proof.
  intros c. split; [|split; vm_compute; reflexivity]. apply (Redact_hides_secrets toy_urls). constructor.
  - right. split_and!; [discriminate|discriminate|]. split; [split; intros _; vm_compute; eauto|]. split; [left|]; vm_compute; reflexivity.
  - right. split_and!; [discriminate|discriminate|]. split; [split; vm_compute; intros [? H]; discriminate H|]. split; [|vm_compute; reflexivity]. right.
    assert (forall p, url_Query toy_urls (ur_RawQuery (mkURL (R := string) None ("password=" +:+ p) "cache:6379")) = toy_query ("password=" +:+ p)) as Hq by reflexivity.
    change (dom (toy_query "password=abc") = dom (toy_query "password=xyz") /\ (exists k, k ∈ dom (toy_query "password=abc") /\ secret_param k = true) /\
      forall k, secret_param k = false -> toy_query "password=abc" !! k = toy_query "password=xyz" !! k).
    change (toy_query "password=abc") with ({["password" := ["abc"]]} : gmap string (list string)). change (toy_query "password=xyz") with ({["password" := ["xyz"]]} : gmap string (list string)).
    split; [by rewrite !dom_singleton_L|]. split; [exists "password"; split; [rewrite dom_singleton_L; by apply elem_of_singleton|reflexivity]|].
    intros k Hk. destruct (decide (k = "password")) as [->|Hne]; [discriminate Hk|]. by rewrite !lookup_singleton_ne by done.
  - by left.
  - done.
  - constructor; [|constructor]. by constructor.
  - constructor.
  - split; [done|constructor].
  - done.
Defined.

(** A connection string of keywords parses as a path, without user or query. *)
Example keyword_dsn_shown : redactURL toy_urls "host=db user=pg password=s3cret" = "host=db user=pg password=s3cret".
Proof. vm_compute. reflexivity. Qed.
