(* ===== verification/Reload.v ===== *)
(** * A running gateway: reloading, and what messages make it forget (src/cmd/proofgate/main.go,
      internal/server/overrides.go, SubscribeControl of auth and secrets) *)

From S2P Require Import Prelude GoStrings Encoding GoFloat Breaker Config Api Route Lru Policy Auth Overrides Provider OpenAI Anthropic Gemini Registry Control KeyCache Purge ConfigTools.

Open Scope string_scope.
Open Scope list_scope.
Open Scope Z_scope.

(** ** Starting and reloading (src/cmd/proofgate/main.go, internal/server/overrides.go)

    The running gateway serves from one runtime, which is replaced as a whole: when the
    configuration file changes, when a reload is asked for, and when the live overrides
    change.  Reading the file, taking over the overrides and building the next runtime
    are separate sections of separate goroutines. *)

Record live (W : Type) := mkLive {
  lv_fileCfg : Config;
  lv_lastOvs : list Override;
  lv_runtime : @BuiltRuntime W;
  lv_watcher : Watcher;
  lv_pending : nat }.                (* goroutines between their change and their rebuild *)
Arguments mkLive {W}. Arguments lv_fileCfg {W}. Arguments lv_lastOvs {W}. Arguments lv_runtime {W}. Arguments lv_watcher {W}. Arguments lv_pending {W}.

#[export] Instance Override_eq_dec : EqDecision Override.
Proof. solve_decision. Defined.

(** *** Choices made at the start *)

(** The target that judges answers: the first of a route, its strong target first,
    whose provider may. *)
Definition judge_allowed (allowed : list string) (provider : string) : bool :=
  match allowed with [] => true | _ => existsb (fun c => equal_fold c provider) allowed end.

Definition judge_candidates (r : RouteConfig) : list string :=
  if rc_Embeddings r then [] else sr_StrongTarget (rc_SmartRoute r) :: map (fun t => Breaker.Provider t +:+ "/" +:+ Model t) (rc_Targets r).

Definition chooseJudgeTarget (c : Config) : string :=
  match List.find (fun s => match ParseTarget s with Some t => judge_allowed (pf_AllowedJudgeProviders (Proof c)) (Breaker.Provider t) | None => false end)
          (flat_map judge_candidates (Routes c)) with
  | Some s => s
  | None => ""
  end.

Definition cacheLabelRoutes (c : Config) : list string :=
  map rc_Name (List.filter (fun r => String.eqb (cc_Mode (rc_Cache r)) "shadow" || String.eqb (cc_Mode (rc_Cache r)) "on") (Routes c)).

(** [metricUint32]: saturates. *)
Definition metricUint32 (value : Z) : Z := if value <? 0 then 0 else if 2 ^ 32 - 1 <? value then 2 ^ 32 - 1 else value.

Lemma chooseJudgeTarget_allowed c s : chooseJudgeTarget c = s -> s <> "" ->
  exists t r, ParseTarget s = Some t /\ r ∈ Routes c /\ rc_Embeddings r = false /\
    judge_allowed (pf_AllowedJudgeProviders (Proof c)) (Breaker.Provider t) = true.
Proof.
  unfold chooseJudgeTarget. destruct (List.find _ _) as [s'|] eqn:Hf; [|by intros <-]. intros -> _. apply find_some in Hf as [Hin Ht].
  destruct (ParseTarget s) as [t|]; [|done]. apply in_flat_map in Hin as (r & Hr & Hc). exists t, r. split_and!; [done|by apply list_elem_of_In| |done].
  unfold judge_candidates in Hc. by destruct (rc_Embeddings r).
Qed.

Section Reload.
Context {W : Type} `{OpenAIJson} `{AnthropicJson} `{GeminiJson}
  (client_do : W -> HttpRequest -> (string + HttpResponse) * W) (ctx_err : W -> option go_error) (now : W -> Time)
  (url_error : string -> option string) (error_body : string -> option (string * string)) (http_date : string -> option Time).
Context {IP IPNet : Type}
  (getenv : string -> string) (atoi : string -> option Z) (split_host_port : string -> option string) (parse_ip : string -> option IP)
  (ip_is_v4 ip_is_loopback : IP -> bool) (parse_cidr : string -> option IPNet) (url_parse : string -> option parsed_url)
  (yaml_decode : string -> string + Config) (show_errors : list cfg_error -> string)
  (sha256 : string -> string)
  (keys : option (string -> option (W -> option string * W))).

Abbreviation build := (fun c => BuildRuntime client_do ctx_err now url_error error_body http_date c getenv keys).
Abbreviation valid := (fun c => validate parse_ip ip_is_v4 parse_cidr url_parse c = []).

(** [config.Parse] *)
Definition Parse (b : string) : string + Config :=
  match yaml_decode b with
  | inl e => inl ("parse config: " +:+ e)
  | inr c => match Parse_decoded getenv atoi parse_ip ip_is_v4 parse_cidr url_parse c with
             | inl errs => inl (show_errors errs)
             | inr c => inr c
             end
  end.

(** [config.Load] *)
Definition Load (file : string + string) : string + Config :=
  match file with inl e => inl e | inr b => Parse b end.

(** The start of [run], as far as the configuration decides it; [file'] is what the
    watcher reads a moment later. *)
Definition start (file file' : string + string) : string + live W :=
  match Load file with
  | inl e => inl e
  | inr c =>
      match lint_errors split_host_port parse_ip ip_is_v4 ip_is_loopback parse_cidr url_parse show_errors c with
      | [] => match build c with
              | inl e => inl e
              | inr rt => inr (mkLive c [] rt (NewWatcher sha256 file') 0)
              end
      | issues => inl ("config lint failed with " +:+ itoa (Z.of_nat (length issues)) +:+ " error(s)")
      end
  end.

(** The watcher's [onChange], first part. *)
Definition file_changed (c : Config) (s : live W) : live W :=
  mkLive c (lv_lastOvs s) (lv_runtime s) (lv_watcher s) (S (lv_pending s)).

(** A tick of the watcher, or a reload that was asked for; its error is reported. *)
Definition watch_tick (force : bool) (file : string + string) (s : live W) : option string * live W :=
  let '(r, w) := watcher_check sha256 Parse force file (lv_watcher s) in
  let s := mkLive (lv_fileCfg s) (lv_lastOvs s) (lv_runtime s) w (lv_pending s) in
  match r with
  | inl e => (Some e, s)
  | inr None => (None, s)
  | inr (Some c) => (None, file_changed c s)
  end.

(** A tick of [PollOverrides] with the function that main.go gives it. *)
Definition override_tick (ovs : string + list Override) (s : live W) : live W :=
  match ovs with
  | inl _ => s
  | inr ovs => mkLive (lv_fileCfg s) ovs (lv_runtime s) (lv_watcher s)
                 (if bool_decide (ovs = lv_lastOvs s) then lv_pending s else S (lv_pending s))
  end.

(** [rebuild]: under the lock, the next runtime, or the previous one kept. *)
Definition rebuild (s : live W) : live W :=
  let merged := (ApplyOverrides (lv_fileCfg s) (lv_lastOvs s)).1 in
  match build merged with
  | inl _ => mkLive (lv_fileCfg s) (lv_lastOvs s) (lv_runtime s) (lv_watcher s) (pred (lv_pending s))
  | inr next => mkLive (lv_fileCfg s) (lv_lastOvs s) next (lv_watcher s) (pred (lv_pending s))
  end.

Inductive live_step : live W -> live W -> Prop :=
| live_watch force file s : live_step s (watch_tick force file s).2
| live_overrides ovs s : live_step s (override_tick ovs s)
| live_rebuild s : (0 < lv_pending s)%nat -> live_step s (rebuild s).

(** *** The running configuration *)

Definition live_inv (s : live W) : Prop :=
  valid (lv_fileCfg s) /\ valid (br_Config (lv_runtime s)) /\ build (br_Config (lv_runtime s)) = inr (lv_runtime s) /\
  (lv_pending s = 0%nat -> br_Config (lv_runtime s) = (ApplyOverrides (lv_fileCfg s) (lv_lastOvs s)).1).

Lemma build_config c rt : build c = inr rt -> br_Config rt = c.
Proof. unfold BuildRuntime. destruct (NewRegistry _ _ _ _ _ _ _); [done|]. by intros [= <-]. Qed.

Lemma ApplyOverrides_none c : (ApplyOverrides c []).1 = c.
Proof. unfold ApplyOverrides. cbn. by destruct c. Qed.

Lemma Parse_valid b c : Parse b = inr c -> valid c.
Proof.
  unfold Parse. destruct (yaml_decode b) as [|c0]; [done|]. destruct (Parse_decoded _ _ _ _ _ _ c0) as [|c1] eqn:Hp; [done|].
  intros [= <-]. by apply Parse_validates in Hp as [_ Hv].
Qed.

Lemma watcher_check_some force file w c w' : watcher_check sha256 Parse force file w = (inr (Some c), w') -> valid c.
Proof.
  unfold watcher_check. destruct file as [e|b]; [done|]. destruct (_ && _); [done|]. destruct (Parse b) eqn:Hp; [done|].
  intros [= <- _]. by eapply Parse_valid.
Qed.

Lemma rebuild_inv s : live_inv s -> live_inv (rebuild s) /\ br_Config (lv_runtime (rebuild s)) = (ApplyOverrides (lv_fileCfg s) (lv_lastOvs s)).1.
Proof.
  intros (Hf & Hv & Hb & Hp). set (merged := (ApplyOverrides (lv_fileCfg s) (lv_lastOvs s)).1).
  assert (valid merged) as Hm by by apply ApplyOverrides_valid.
  destruct (valid_config_builds client_do ctx_err now url_error error_body http_date parse_ip ip_is_v4 parse_cidr url_parse merged getenv keys Hm)
    as (rt & Hrt & Hc).
  unfold rebuild. fold merged. rewrite Hrt. unfold live_inv. cbn. rewrite Hc. by split_and!.
Qed.

Lemma live_step_inv s s' : live_inv s -> live_step s s' -> live_inv s'.
Proof.
  intros Hi Hs. destruct Hs as [force file s|ovs s|s Hp].
  - unfold watch_tick. destruct (watcher_check _ _ _ _ _) as [r w] eqn:Hw. destruct r as [e|[c|]]; cbn; [done| |done].
    destruct Hi as (Hf & Hv & Hb & _). split_and!; [by eapply watcher_check_some|done|done|done].
  - destruct ovs as [e|ovs]; [done|]. destruct Hi as (Hf & Hv & Hb & Hp). split_and!; [done|done|done|]. cbn.
    case_bool_decide as Heq; [|done]. rewrite Heq. done.
  - by apply rebuild_inv.
Qed.

Lemma start_inv file file' s : start file file' = inr s -> live_inv s /\ lint_errors split_host_port parse_ip ip_is_v4 ip_is_loopback parse_cidr url_parse show_errors (lv_fileCfg s) = [].
Proof.
  unfold start. destruct (Load file) as [e|c] eqn:Hl; [done|]. destruct (lint_errors _ _ _ _ _ _ _ c) eqn:Hlint; [|done].
  destruct (BuildRuntime _ _ _ _ _ _ c _ _) as [e|rt] eqn:Hb; [done|]. intros [= <-]. pose proof (build_config c rt Hb) as Hc.
  assert (valid c) as Hv by (destruct file as [|b]; [done|]; by eapply Parse_valid).
  split; [|done]. unfold live_inv. cbn [lv_fileCfg lv_lastOvs lv_runtime lv_pending]. rewrite Hc, ApplyOverrides_none. by split_and!.
Qed.
End Reload.

(** C24. Whatever is written to the configuration file and to the table of overrides,
    in whatever order the goroutines see it, the gateway runs on a configuration that
    passed validation, and the runtime is the one built from it; when no change is
    waiting for its rebuild, this is the last accepted file with the last overrides.  A
    rebuild never fails: it always takes up the file and the overrides it finds. *)
Theorem running_config_valid {W : Type} `{!OpenAIJson} `{!AnthropicJson} `{!GeminiJson}
  client_do ctx_err now url_error error_body http_date {IP IPNet : Type} getenv atoi split_host_port
  (parse_ip : string -> option IP) ip_is_v4 ip_is_loopback (parse_cidr : string -> option IPNet) url_parse yaml_decode show_errors sha256
  (keys : option (string -> option (W -> option string * W))) file file' s0 s
  (Hstart : start client_do ctx_err now url_error error_body http_date getenv atoi split_host_port parse_ip ip_is_v4 ip_is_loopback parse_cidr
              url_parse yaml_decode show_errors sha256 keys file file' = inr s0)
  (Hrun : reachable (live_step client_do ctx_err now url_error error_body http_date getenv atoi parse_ip ip_is_v4 parse_cidr
              url_parse yaml_decode show_errors sha256 keys) s0 s) :
  let merged := (ApplyOverrides (lv_fileCfg s) (lv_lastOvs s)).1 in
  validate parse_ip ip_is_v4 parse_cidr url_parse (br_Config (lv_runtime s)) = [] /\
  BuildRuntime client_do ctx_err now url_error error_body http_date (br_Config (lv_runtime s)) getenv keys = inr (lv_runtime s) /\
  (lv_pending s = 0%nat -> br_Config (lv_runtime s) = merged) /\
  br_Config (lv_runtime (rebuild client_do ctx_err now url_error error_body http_date getenv keys s)) = merged.
Proof.
  apply start_inv in Hstart as [Hs0 _].
  assert (live_inv client_do ctx_err now url_error error_body http_date getenv parse_ip ip_is_v4 parse_cidr url_parse keys s) as Hi.
  { eapply reachable_invariant; [exact Hs0| |exact Hrun]. intros a b Ha Hs. eapply live_step_inv; [exact Ha|exact Hs]. }
  pose proof Hi as (Hf & Hv & Hb & Hp). split_and!; [done|done|done|]. by eapply rebuild_inv in Hi as [_ Hr].
Qed.

(** *** A concrete run *)

Module ToyReload.
(** The file names one of two configurations; only the first has prices. *)
Definition yaml1 (b : string) : string + Config :=
  if String.eqb b "priced" then inr (set_Pricing {["openai/gpt-4o" := mkPrice f1 f1 f0]} demo_config)
  else if String.eqb b "bare" then inr demo_config else inl "yaml: line 1".

#[export] Existing Instance demo_openai.
#[export] Instance toy_anthropic : AnthropicJson := numbered [].
#[export] Instance toy_gemini : GeminiJson := g_numbered [].

Definition no_net (w : unit) (_ : HttpRequest) : (string + HttpResponse) * unit := (inl "connection refused", w).
Definition live_ctx (w : unit) : option go_error := None.
Definition epoch (w : unit) : Time := 0.
Definition no_text {A} (s : string) : option A := None.
Definition yes (u : unit) : bool := true.
Definition unset (s : string) : string := "".
Definition local (s : string) : option unit := Some tt.

Definition start1 (file : string) : string + live unit :=
  start no_net live_ctx epoch no_text no_text no_text (IPNet := unit) unset no_text Some local yes yes no_text demo_url yaml1 (fun _ => "invalid") id None (inr file) (inr file).
Definition tick1 (force : bool) (file : string) (s : live unit) : option string * live unit :=
  watch_tick (IPNet := unit) unset no_text local yes no_text demo_url yaml1 (fun _ => "invalid") id force (inr file) s.
Definition rebuild1 : live unit -> live unit := rebuild no_net live_ctx epoch no_text no_text no_text unset None.
Definition started : live unit := match start1 "priced" with inr s => s | inl _ => mkLive demo_config [] (mkBuiltRuntime demo_config (New demo_config) ∅ (Budget.NewPricing ∅) ∅) (mkWatcher "") 0 end.
Definition changed : live unit := (tick1 false "bare" started).2.

(** The start refuses a configuration without prices; a reload takes it. *)
Lemma reload_skips_lint :
  start1 "bare" = inl "config lint failed with 1 error(s)" /\ (tick1 false "bare" started).1 = None /\
  br_Config (lv_runtime (rebuild1 changed)) = applyDefaults unset demo_config /\
  (tick1 true "garbage" changed).1 = Some "parse config: yaml: line 1".
Proof. split_and!; vm_compute; reflexivity. Qed.
End ToyReload.
Import ToyReload.

Lemma running_config_valid_witness :
  validate (IP := unit) (IPNet := unit) local yes no_text demo_url (br_Config (lv_runtime (rebuild1 changed))) = [] /\
  lv_pending changed = 1%nat.
Proof.
  split; [|reflexivity]. assert (start1 "priced" = inr started) as Hs by (vm_compute; reflexivity).
  refine (proj1 (running_config_valid (W := unit) no_net live_ctx epoch no_text no_text no_text (IPNet := unit) unset no_text Some local yes yes no_text demo_url yaml1
    (fun _ => "invalid") id None (inr "priced") (inr "priced") started (rebuild1 changed) Hs _)).
  eapply reach_step; [eapply reach_step; [apply reach_refl|apply live_watch]|]. apply live_rebuild. apply Nat.lt_0_1.
Defined.

(** ** What a replica forgets (src/cmd/proofgate/main.go, SubscribeControl of auth and secrets)

    The caches of one process (authenticated keys, provider credentials) and the cache
    that all share in Redis, with the functions that main.go subscribes to the control
    bus.  What one replica publishes acts on all of them. *)

Section Replica.
Context {L : Type}.                  (* limiters of failed attempts *)

Record Replica := mkReplica {
  rp_auth : @Middleware L;
  rp_keys : option KeyCache;         (* none without a key-encryption key *)
  rp_redis : redis;
  rp_reloads : nat }.                (* how often the configuration was asked for again *)

Definition set_auth (a : Middleware) (r : Replica) : Replica := mkReplica a (rp_keys r) (rp_redis r) (rp_reloads r).
Definition set_keys (k : KeyCache) (r : Replica) : Replica := mkReplica (rp_auth r) (Some k) (rp_redis r) (rp_reloads r).
Definition set_redis (d : redis) (r : Replica) : Replica := mkReplica (rp_auth r) (rp_keys r) d (rp_reloads r).

Section Wiring.
Context (scan : string -> gmap string (list string) -> list (list string))
  (order : @Middleware L -> list string)         (* in which order the map of cached keys is visited *)
  (instanceID : string).

(** middleware.go *)
Definition auth_SubscribeControl (b : @Bus Replica) : @Bus Replica :=
  Subscribe OpTenantErased (fun msg r => (None, set_auth (EvictTenant (arg msg "tenant_id") (order (rp_auth r)) (rp_auth r)).2 r))
    (Subscribe OpKeyRevoked (fun msg r => (None, set_auth (EvictKey (arg msg "key_hash") (rp_auth r)) r)) b).

(** A handler that leaves the replica's own messages alone. *)
Definition from_others (f : Message -> Replica -> option string * Replica) : Message -> Replica -> option string * Replica :=
  fun msg r => if String.eqb (Sender msg) instanceID then (None, r) else f msg r.

Definition purge_secrets (_ : Message) (r : Replica) : option string * Replica :=
  match rp_keys r with Some k => (None, set_keys (KeyCache.Purge k) r) | None => (None, r) end.

(** A request without a body. *)
Definition purge_cache (_ : Message) (r : Replica) : option string * Replica :=
  (None, set_redis (AdminCachePurgeHandler scan None (rp_redis r)).2 r).

Definition reload (_ : Message) (r : Replica) : option string * Replica :=
  (None, mkReplica (rp_auth r) (rp_keys r) (rp_redis r) (S (rp_reloads r))).

Definition keys_handler (msg : Message) (r : Replica) : option string * Replica :=
  match rp_keys r with Some k => (None, set_keys (PurgeProvider (arg msg "provider") k) r) | None => (None, r) end.

(** main.go, in the order of the subscriptions. *)
Definition subscribe_all (b : @Bus Replica) : @Bus Replica :=
  let b := auth_SubscribeControl b in
  let b := Subscribe OpCredentialInvalidated keys_handler b in
  let b := Subscribe OpPurgeSecrets (from_others purge_secrets) b in
  let b := Subscribe OpPurgeCache (from_others purge_cache) b in
  Subscribe OpReload (from_others reload) b.

Definition replica_bus : @Bus Replica := subscribe_all (NewBus true instanceID "").

Lemma replica_handlers op : op ∈ [OpKeyRevoked; OpTenantErased; OpCredentialInvalidated; OpPurgeSecrets; OpPurgeCache; OpReload; "*"] ->
  subscribed replica_bus op =
    (if String.eqb op OpKeyRevoked then [fun msg r => (None, set_auth (EvictKey (arg msg "key_hash") (rp_auth r)) r)]
     else if String.eqb op OpTenantErased then [fun msg r => (None, set_auth (EvictTenant (arg msg "tenant_id") (order (rp_auth r)) (rp_auth r)).2 r)]
     else if String.eqb op OpCredentialInvalidated then [keys_handler]
     else if String.eqb op OpPurgeSecrets then [from_others purge_secrets]
     else if String.eqb op OpPurgeCache then [from_others purge_cache]
     else if String.eqb op OpReload then [from_others reload] else []).
Proof. intros Hin. repeat (apply elem_of_cons in Hin as [->|Hin]; [reflexivity|]). by apply elem_of_nil in Hin. Qed.
End Wiring.
End Replica.

(** *** Published invalidations *)

Lemma published_data `{!MessageJson} {W R : Type} now redis_publish (b : @Bus W) op args (w w' : W)
  (Hjson : forall m data, marshal_message m = inr data -> unmarshal_message data = inr m) :
  Publish now redis_publish b op args w = (None, w') ->
  exists data, redis_publish (channel b) data w = (None, w') /\
    forall (b' : @Bus R) r, on_delivery b' r (Payload data) =
      let m := mkMessage ProtocolVersion op args (now w) (sender b) in run_handlers (subscribed b' "*") m (run_handlers (subscribed b' op) m r).
Proof.
  intros Hpub. apply Publish_sent in Hpub as (data & Hm & Hv & Hr). exists data. split; [done|]. intros b' r. cbn.
  rewrite (Hjson _ _ Hm). by rewrite Dispatch_accepted.
Qed.

Lemma EvictKey_gone {L : Type} hash (m : @Middleware L) : lru_wf (mw_posCache m) -> lc_items (mw_posCache (EvictKey (hex_encode hash) m)) !! hash = None.
Proof.
  intros Hwf. unfold EvictKey. rewrite hex_roundtrip. cbn.
  destruct (LRU_Remove_sub (hex_encode hash) _ Hwf) as (A1 & _). by destruct (LRU_Remove_sub hash _ A1) as (_ & _ & _ & B).
Qed.

Lemma PurgeProvider_gone p k name : covers (trim_space p) name = true -> trim_space p <> "" -> kc_m (PurgeProvider p k) !! name = None.
Proof.
  intros Hc Hp. destruct (kc_m (PurgeProvider p k) !! name) as [c|] eqn:Hl; [|done].
  apply purge_provider_lookup in Hl as [Hf _]; [|done]. congruence.
Qed.

(** What one replica publishes takes effect at every replica that receives it: a
    revoked key is no longer among its authenticated keys, and neither the invalidated
    credential of a provider nor a tenant's credential for it is in its cache; nothing
    else of the replica changes. *)
Theorem published_invalidations_apply `{!MessageJson} {W L : Type} now redis_publish (b : @Bus W) (w w' : W) scan (order : @Middleware L -> list string) me
  (Hjson : forall m data, marshal_message m = inr data -> unmarshal_message data = inr m) :
  (forall hash, PublishKeyRevoked now redis_publish (Some b) hash w = (None, w') ->
     exists data, redis_publish (channel b) data w = (None, w') /\ forall r,
       on_delivery (replica_bus scan order me) r (Payload data) = set_auth (EvictKey (hex_encode hash) (rp_auth r)) r /\
       (lru_wf (mw_posCache (rp_auth r)) ->
          lc_items (mw_posCache (rp_auth (on_delivery (replica_bus scan order me) r (Payload data)))) !! hash = None)) /\
  (forall provider version, PublishCredentialInvalidated now redis_publish (Some b) provider version w = (None, w') ->
     exists data, redis_publish (channel b) data w = (None, w') /\ forall r k, rp_keys r = Some k ->
       on_delivery (replica_bus scan order me) r (Payload data) = set_keys (PurgeProvider provider k) r /\
       forall name, covers (trim_space provider) name = true -> kc_m (PurgeProvider provider k) !! name = None).
Proof.
  split.
  - intros hash Hp. apply (published_data (R := @Replica L) _ _ _ _ _ _ _ Hjson) in Hp as (data & Hr & Hd). exists data. split; [done|].
    intros r. rewrite Hd, !replica_handlers by (repeat constructor). cbn. split; [done|]. intros Hwf. by apply EvictKey_gone.
  - intros provider version Hp. unfold PublishCredentialInvalidated in Hp.
    pose proof Hp as Hp'. apply Publish_sent in Hp' as (_ & _ & Hv & _).
    apply (published_data (R := @Replica L) _ _ _ _ _ _ _ Hjson) in Hp as (data & Hr & Hd). exists data. split; [done|].
    intros r k Hk. rewrite Hd, !replica_handlers by (repeat constructor). cbn. unfold keys_handler. rewrite Hk. split; [done|].
    intros name Hc. apply PurgeProvider_gone; [done|]. intros Hb.
    unfold Validate in Hv. cbn [Version Op] in Hv. destruct (_ && _); [done|]. destruct (String.eqb _ ""); [done|].
    destruct (allowed_keys _); [|done]. destruct (check_args _ _ _); [done|]. unfold check_op in Hv. cbn [Op] in Hv.
    change (String.eqb OpCredentialInvalidated OpKeyRevoked) with false in Hv.
    change (String.eqb OpCredentialInvalidated OpCredentialInvalidated) with true in Hv. cbv iota in Hv.
    change (arg _ "provider") with provider in Hv. unfold blank in Hv. by rewrite Hb in Hv.
Qed.

Import ToyBus ToyRedis.

Definition empty_auth : @Middleware unit := NewMiddlewareWithConfig (fun _ => GoFloat.f0) 0 0 10.

Lemma published_invalidations_apply_witness :
  exists data, forall r : @Replica unit, on_delivery (replica_bus scan1 (fun _ => []) "replica-2") r (Payload data) = set_auth (EvictKey "6b" (rp_auth r)) r.
Proof.
  destruct (@published_invalidations_apply toy_message _ unit (fun _ => 7) publish1 bus1 [] [] scan1 (fun _ => []) "replica-2" toy_message_roundtrip) as [H _].
  destruct (H "k" eq_refl) as (data & _ & Hr). exists data. intros r. apply Hr.
Defined.

(** A message to purge the cache of one tenant makes the other replicas purge the
    cache of all. *)
Lemma purge_message_forgets_its_arguments :
  let msg := mkMessage ProtocolVersion OpPurgeCache {["tenant_id" := "a"]} 0 "replica-1" in
  let r := mkReplica empty_auth None redis1 0 in
  Validate msg = None /\ rd_keys redis1 !! entry_b = Some [] /\
  rd_keys (rp_redis (Dispatch (replica_bus scan1 (fun _ => []) "replica-2") msg r)) !! entry_b = None.
Proof. vm_compute. done. Qed.
