(* ===== verification/Workers.v ===== *)
(** * Background workers (src/internal/proof/leader.go, analytics/batcher.go)

    Which replica runs the background evaluations, and how rows get to ClickHouse. *)

From S2P Require Import Prelude.

Open Scope list_scope.
Open Scope Z_scope.

(** ** Leader election (src/internal/proof/leader.go)

    Replicas elect the one that runs the background evaluations with a lease in Redis:
    a key that its holder renews and that expires otherwise.  A command takes effect at
    Redis at one moment; its reply comes later, or never. *)

(** *** One replica and the key *)

Record LeaderConfig := mkLeaderConfig { ld_ttl : Duration; ld_renewEvery : Duration }.

Definition NewLeader (ttl renewEvery : Duration) : LeaderConfig :=
  mkLeaderConfig (if ttl <=? 0 then 30 * second else ttl) (if renewEvery <=? 0 then 10 * second else renewEvery).

(** What Redis expires keys by. *)
Definition lease_time (ttl : Duration) : Duration := Z.quot ttl millisecond * millisecond.

(** The key: its value and when it expires. *)
Definition live_key (now : Time) (key : option (nat * Time)) : option nat :=
  match key with Some (v, e) => if now <? e then Some v else None | None => None end.

(** SET NX with an expiry. *)
Definition setnx (now : Time) (ttl : Duration) (id : nat) (key : option (nat * Time)) : bool * option (nat * Time) :=
  match live_key now key with
  | Some _ => (false, key)
  | None => (true, Some (id, now + lease_time ttl))
  end.

Definition renewScript (now : Time) (ttl : Duration) (id : nat) (key : option (nat * Time)) : Z * option (nat * Time) :=
  match live_key now key with
  | Some v => if Nat.eqb v id then (1, Some (v, now + lease_time ttl)) else (0, key)
  | None => (0, key)
  end.

Definition releaseScript (now : Time) (id : nat) (key : option (nat * Time)) : Z * option (nat * Time) :=
  match live_key now key with
  | Some v => if Nat.eqb v id then (1, None) else (0, key)
  | None => (0, key)
  end.

(** *** All replicas *)

(** A replica: [IsLeader], the command it has sent with the result that Redis gave it,
    and when a command of it last took or renewed the lease (a history variable, cleared when a
    release has been answered or given up). *)
Inductive sent := SentSetNX (ok : bool) | SentRenew (res : Z) | SentRelease.

#[export] Instance sent_eq_dec : EqDecision sent.
Proof. solve_decision. Defined.

Record replica := mkLeader { le_isLeader : bool; le_sent : option sent; le_held : option Time }.

Definition fresh_replica : replica := mkLeader false None None.

Record election := mkElection { el_now : Time; el_key : option (nat * Time); el_replicas : nat -> replica }.

Definition put (i : nat) (r : replica) (f : nat -> replica) : nat -> replica := fun j => if Nat.eqb j i then r else f j.

Section Election.
Context (ttl : Duration).

(** [Step], up to the moment at which Redis runs the command. *)
Definition step_send (i : nat) (s : election) : election :=
  let r := el_replicas s i in
  if le_isLeader r then
    let '(res, key) := renewScript (el_now s) ttl i (el_key s) in
    mkElection (el_now s) key (put i (mkLeader true (Some (SentRenew res)) (if res =? 0 then le_held r else Some (el_now s))) (el_replicas s))
  else
    let '(ok, key) := setnx (el_now s) ttl i (el_key s) in
    mkElection (el_now s) key (put i (mkLeader false (Some (SentSetNX ok)) (if ok then Some (el_now s) else le_held r)) (el_replicas s)).

(** [release], likewise. *)
Definition release_send (i : nat) (s : election) : election :=
  let r := el_replicas s i in
  if le_isLeader r then
    mkElection (el_now s) (releaseScript (el_now s) i (el_key s)).2 (put i (mkLeader true (Some SentRelease) (le_held r)) (el_replicas s))
  else s.

(** What the replica makes of the reply, or of its absence. *)
Definition on_reply (c : sent) (lost : bool) (isLeader : bool) : bool :=
  match c with
  | SentSetNX ok => if negb lost && ok then true else isLeader
  | SentRenew res => if lost || (res =? 0) then false else isLeader
  | SentRelease => false
  end.

Definition step_receive (i : nat) (lost : bool) (s : election) : option election :=
  let r := el_replicas s i in
  match le_sent r with
  | Some c => Some (mkElection (el_now s) (el_key s) (put i (mkLeader (on_reply c lost (le_isLeader r)) None (match c with SentRelease => None | _ => le_held r end)) (el_replicas s)))
  | None => None
  end.

Inductive election_step : election -> election -> Prop :=
| el_send i s : le_sent (el_replicas s i) = None -> election_step s (step_send i s)
| el_release i s : le_sent (el_replicas s i) = None -> election_step s (release_send i s)
| el_receive i lost s s' : step_receive i lost s = Some s' -> election_step s s'
| el_time t s : el_now s <= t -> election_step s (mkElection t (el_key s) (el_replicas s)).

Definition election_start (t0 : Time) : election := mkElection t0 None (fun _ => fresh_replica).

(** [i] answers that it is the leader. *)
Definition leads (i : nat) (s : election) : Prop := le_isLeader (el_replicas s i) = true.

(** Its release is under way: Redis has run the script, and [release] has not yet returned. *)
Definition releasing (i : nat) (s : election) : Prop := le_sent (el_replicas s i) = Some SentRelease.

(** The command that last took or renewed the lease for [i] is at least the lease time ago. *)
Definition lease_over (i : nat) (s : election) : Prop := exists t, le_held (el_replicas s i) = Some t /\ t + lease_time ttl <= el_now s.

(** Whoever took the lease and has not released it is the live value of the key, for exactly the
    lease time; and a leader has taken it. *)
Definition election_inv (s : election) : Prop := forall i,
  (forall t, ~ releasing i s -> le_held (el_replicas s i) = Some t -> el_now s < t + lease_time ttl -> el_key s = Some (i, t + lease_time ttl)) /\
  (leads i s \/ le_sent (el_replicas s i) = Some (SentSetNX true) -> is_Some (le_held (el_replicas s i))).

Lemma put_same i r f : put i r f i = r.
Proof. unfold put. by rewrite Nat.eqb_refl. Qed.

Lemma put_other i j r f : j <> i -> put i r f j = f j.
Proof. unfold put. intros H. by apply Nat.eqb_neq in H as ->. Qed.

Lemma held_live i t s : election_inv s -> ~ releasing i s -> le_held (el_replicas s i) = Some t -> el_now s < t + lease_time ttl -> live_key (el_now s) (el_key s) = Some i.
Proof. intros H Hn Hh Ht. rewrite (proj1 (H i) t Hn Hh Ht). unfold live_key. by apply Z.ltb_lt in Ht as ->. Qed.

(** Replica [i] does something at Redis: the others' leases are not touched. *)
Lemma put_inv i r key s : election_inv s ->
  (forall t, le_sent r <> Some SentRelease -> le_held r = Some t -> el_now s < t + lease_time ttl -> key = Some (i, t + lease_time ttl)) ->
  (le_isLeader r = true \/ le_sent r = Some (SentSetNX true) -> is_Some (le_held r)) ->
  (forall j, j <> i -> live_key (el_now s) (el_key s) = Some j -> key = el_key s) ->
  election_inv (mkElection (el_now s) key (put i r (el_replicas s))).
Proof.
  intros Hinv Hr Hl Hk j. unfold leads, releasing. cbn. destruct (Nat.eq_dec j i) as [->|Hj]; [by rewrite put_same|rewrite put_other by done].
  split; [|apply Hinv]. intros t Hn Hh Ht. rewrite (Hk j Hj (held_live j t s Hinv Hn Hh Ht)). by apply Hinv.
Qed.

Lemma step_send_inv i s : election_inv s -> le_sent (el_replicas s i) = None -> election_inv (step_send i s).
Proof.
  intros Hinv Hs. destruct (Hinv i) as [Hh Hl]. unfold releasing in Hh. rewrite Hs in Hh. unfold step_send, renewScript, setnx. unfold leads in Hl.
  destruct (le_isLeader (el_replicas s i)).
  - destruct (live_key (el_now s) (el_key s)) as [v|] eqn:Hlive; [destruct (Nat.eqb_spec v i) as [->|Hv]|]; (apply put_inv; [done|cbn|cbn; naive_solver|try done]).
    + by intros t _ [= <-].
    + intros j Hj. congruence.
    + intros t _. by apply Hh.
    + intros t _. by apply Hh.
  - destruct (live_key (el_now s) (el_key s)) as [v|] eqn:Hlive; (apply put_inv; [done|cbn|cbn; naive_solver|try done]).
    + intros t _. by apply Hh.
    + by intros t _ [= <-].
    + intros j Hj. congruence.
Qed.

Lemma release_send_inv i s : election_inv s -> election_inv (release_send i s).
Proof.
  intros Hinv. destruct (Hinv i) as [_ Hl]. unfold leads in Hl. unfold release_send, releaseScript. destruct (le_isLeader (el_replicas s i)); [|done].
  apply put_inv; [done|done|cbn; naive_solver|]. intros j Hj E. rewrite E. by apply Nat.eqb_neq in Hj as ->.
Qed.

Lemma step_receive_inv i lost s s' : election_inv s -> step_receive i lost s = Some s' -> election_inv s'.
Proof.
  intros Hinv. destruct (Hinv i) as [Hh Hl]. unfold step_receive, leads, releasing in *. destruct (le_sent _) as [c|] eqn:Ec; [|done]. intros [= <-].
  apply put_inv; [done|cbn|cbn|done].
  - intros t _. destruct c; try done; by apply Hh.
  - intros [Hled|?]; [|done]. destruct c as [[]|res|]; cbn in *; [by apply Hl; right| |apply Hl; left; by destruct (_ || _)|done].
    apply Hl. left. by rewrite andb_false_r in Hled.
Qed.

Lemma election_step_inv s s' : election_inv s -> election_step s s' -> election_inv s'.
Proof.
  intros Hinv Hs. destruct Hs as [i s Hn|i s _|i lost s s' Hr|t s Ht].
  - by apply step_send_inv.
  - by apply release_send_inv.
  - by eapply step_receive_inv.
  - intros i. destruct (Hinv i) as [Hh Hl]. split; [|done]. intros u Hn Hu Hlt. cbn in *. apply Hh; [done|done|lia].
Qed.
End Election.

(** C31. When two replicas answer at the same time that they are the leader, then one of them is
    about to stop, its release having reached Redis but not yet returned, or the command that
    last took or renewed the lease for it is at least the lease time ago; whatever replies were
    lost or late. *)
Theorem lease_holders_unique ttl t0 s i j (Hrun : reachable (election_step ttl) (election_start t0) s)
  (Hi : leads i s) (Hj : leads j s) (Hne : i <> j) : exists k, (k = i \/ k = j) /\ (releasing k s \/ lease_over ttl k s).
Proof.
  assert (election_inv ttl s) as Hinv.
  { apply (reachable_invariant (election_step ttl) (election_inv ttl) (election_start t0)); [intros k; split; [intros t _ Hh; discriminate Hh|by intros [|]]| |exact Hrun]. apply election_step_inv. }
  assert (forall k, leads k s -> releasing k s \/ lease_over ttl k s \/ exists e, el_key s = Some (k, e)) as Hcase.
  { intros k Hk. destruct (Hinv k) as [Hh Hl]. destruct (Hl (or_introl Hk)) as [t Ht]. unfold releasing in *.
    destruct (decide (le_sent (el_replicas s k) = Some SentRelease)) as [|Hn]; [by left|]. destruct (Z.le_gt_cases (t + lease_time ttl) (el_now s)); [right; left; by exists t|].
    right. right. eexists. apply Hh; [done|done|lia]. }
  destruct (Hcase i Hi) as [?|[?|[e Ei]]]; [exists i; tauto|exists i; tauto|]. destruct (Hcase j Hj) as [?|[?|[e' Ej]]]; [exists j; tauto|exists j; tauto|]. congruence.
Qed.

Definition lead (i : nat) (s : election) : election := default s (step_receive i false (step_send second i s)).

Lemma lead_reachable i s0 s : le_sent (el_replicas s i) = None -> reachable (election_step second) s0 s -> reachable (election_step second) s0 (lead i s).
Proof.
  intros Hs Hr. unfold lead. assert (reachable (election_step second) s0 (step_send second i s)) as H by (econstructor; [exact Hr|by apply el_send]).
  destruct (step_receive i false (step_send second i s)) as [s2|] eqn:Hrec; cbn; [econstructor; [exact H|by eapply el_receive]|exact Hr].
Qed.

(** The first leader stalls, the second takes the expired lease: it is the first whose lease is over. *)
Lemma lease_holders_unique_witness :
  let s := lead 2 (mkElection second (el_key (lead 1 (election_start 0))) (el_replicas (lead 1 (election_start 0)))) in
  leads 1 s /\ leads 2 s /\ lease_over second 1 s /\ ~ lease_over second 2 s /\ exists k, (k = 1 \/ k = 2)%nat /\ (releasing k s \/ lease_over second k s).
Proof.
  cbn zeta. set (s := lead 2 _).
  assert (reachable (election_step second) (election_start 0) s) as Hr.
  { unfold s. apply lead_reachable; [reflexivity|].
    apply (reach_step _ _ (lead 1 (election_start 0))); [apply (lead_reachable 1); [reflexivity|apply reach_refl]|].
    apply (el_time second second (lead 1 (election_start 0))). vm_compute. discriminate. }
  split; [vm_compute; reflexivity|]. split; [vm_compute; reflexivity|].
  split; [exists 0; split; vm_compute; [reflexivity|discriminate]|]. split.
  - intros [t [Hh Ht]]. vm_compute in Hh. injection Hh as <-. vm_compute in Ht. by apply Ht.
  - apply (lease_holders_unique second 0 s 1 2 Hr); [vm_compute; reflexivity|vm_compute; reflexivity|discriminate].
Defined.

(** A replica that stops answers that it is the leader until its release has returned. *)
Lemma release_overlaps : let s := lead 2 (release_send 1 (lead 1 (election_start 0))) in leads 1 s /\ leads 2 s /\ releasing 1 s.
Proof. vm_compute. done. Qed.

(** A replica whose renewal stalls still answers that it is the leader when another has
    taken the expired lease. *)
Lemma stalled_leader_overlaps :
  let s1 := lead 1 (election_start 0) in
  let s2 := lead 2 (mkElection second (el_key s1) (el_replicas s1)) in
  le_isLeader (el_replicas s2 1) = true /\ le_isLeader (el_replicas s2 2) = true.
Proof. vm_compute. done. Qed.

(** A replica whose SET NX took effect without its reply does not know that it holds
    the lease, and cannot take it again before it expires. *)
Lemma unanswered_leader_waits :
  let s1 := step_send second 1 (election_start 0) in
  let s2 := default s1 (step_receive 1 true s1) in
  let s3 := lead 1 s2 in
  le_isLeader (el_replicas s2 1) = false /\ live_key (el_now s2) (el_key s2) = Some 1%nat /\ le_isLeader (el_replicas s3 1) = false.
Proof. vm_compute. done. Qed.

(** ** Writing rows in batches (src/internal/analytics/batcher.go)

    Requests put rows into a bounded queue and never wait; one goroutine takes them out
    and writes them in batches.  A state holds the queue, the batch being filled and what
    has been written; its steps are the emitters', the loop's and the closing. *)

Section Batcher.
Context {T : Type}.

Record Batcher := mkBatcher {
  bt_ch : list T;                       (* the channel's buffer *)
  bt_capacity : Z;
  bt_maxBatch : Z;
  bt_buf : list T;
  bt_closed : bool;
  bt_done : bool;
  bt_finalErr : option string;
  bt_drops : Z;                         (* calls of [onDrop] *)
  bt_writes : list (list T * option string);   (* the calls of [flush] with their errors *)
  bt_accepted : list T                  (* the values [Emit] took, in order (a history variable) *)
}.

Definition NewBatcher (capacity maxBatch : Z) : Batcher := mkBatcher [] capacity maxBatch [] false false None 0 [] [].

(** [Emit]: a closed batcher and a full queue refuse. *)
Definition Emit (v : T) (b : Batcher) : bool * Batcher :=
  if bt_closed b then (false, b)
  else if Z.of_nat (length (bt_ch b)) <? bt_capacity b then
    (true, mkBatcher (bt_ch b ++ [v]) (bt_capacity b) (bt_maxBatch b) (bt_buf b) (bt_closed b) (bt_done b) (bt_finalErr b) (bt_drops b) (bt_writes b)
             (bt_accepted b ++ [v]))
  else
    (false, mkBatcher (bt_ch b) (bt_capacity b) (bt_maxBatch b) (bt_buf b) (bt_closed b) (bt_done b) (bt_finalErr b) (bt_drops b + 1) (bt_writes b)
              (bt_accepted b)).

(** [write]: an empty batch is not written; the rows of a failed one are lost. *)
Definition write (flush_err : option string) (buf : list T) (b : Batcher) : option string * Batcher :=
  match buf with
  | [] => (None, b)
  | _ => (flush_err, mkBatcher (bt_ch b) (bt_capacity b) (bt_maxBatch b) (bt_buf b) (bt_closed b) (bt_done b) (bt_finalErr b) (bt_drops b)
                       (bt_writes b ++ [(buf, flush_err)]) (bt_accepted b))
  end.

Definition set_buf (buf : list T) (b : Batcher) : Batcher :=
  mkBatcher (bt_ch b) (bt_capacity b) (bt_maxBatch b) buf (bt_closed b) (bt_done b) (bt_finalErr b) (bt_drops b) (bt_writes b) (bt_accepted b).

(** The two cases of the loop's [select]; [None] when the case is not ready. *)
Definition on_receive (flush_err : option string) (b : Batcher) : option Batcher :=
  if bt_done b then None
  else match bt_ch b with
       | v :: ch =>
           let b := mkBatcher ch (bt_capacity b) (bt_maxBatch b) (bt_buf b ++ [v]) (bt_closed b) (bt_done b) (bt_finalErr b) (bt_drops b) (bt_writes b) (bt_accepted b) in
           if bt_maxBatch b <=? Z.of_nat (length (bt_buf b)) then Some (set_buf [] (write flush_err (bt_buf b) b).2) else Some b
       | [] =>
           if bt_closed b then
             let '(err, b) := write flush_err (bt_buf b) b in
             Some (mkBatcher (bt_ch b) (bt_capacity b) (bt_maxBatch b) [] (bt_closed b) true err (bt_drops b) (bt_writes b) (bt_accepted b))
           else None
       end.

Definition on_tick (flush_err : option string) (b : Batcher) : option Batcher :=
  if bt_done b then None else Some (set_buf [] (write flush_err (bt_buf b) b).2).

(** [Close], first part: once. *)
Definition close_queue (b : Batcher) : Batcher :=
  mkBatcher (bt_ch b) (bt_capacity b) (bt_maxBatch b) (bt_buf b) true (bt_done b) (bt_finalErr b) (bt_drops b) (bt_writes b) (bt_accepted b).

(** [Close], second part: what it returns when the loop has ended before the context. *)
Definition close_result (ctx_err : string) (b : Batcher) : option string := if bt_done b then bt_finalErr b else Some ctx_err.

Inductive batcher_step : Batcher -> Batcher -> Prop :=
| batch_emit v b : batcher_step b (Emit v b).2
| batch_receive e b b' : on_receive e b = Some b' -> batcher_step b b'
| batch_tick e b b' : on_tick e b = Some b' -> batcher_step b b'
| batch_close b : batcher_step b (close_queue b).

(** The loop alone, [n] times. *)
Fixpoint receive_all (errs : nat -> option string) (n : nat) (b : Batcher) : Batcher :=
  match n with O => b | S n => match on_receive (errs n) b with Some b => receive_all errs n b | None => b end end.

(** *** Nothing is lost on the way *)

(** What the state stands for: the rows in the order in which they were taken. *)
Definition rows (b : Batcher) : list T := concat (map fst (bt_writes b)) ++ bt_buf b ++ bt_ch b.

Definition batcher_inv (maxBatch : Z) (b : Batcher) : Prop :=
  bt_maxBatch b = maxBatch /\ rows b = bt_accepted b /\
  Forall (fun w => w.1 <> [] /\ Z.of_nat (length w.1) <= Z.max 1 maxBatch) (bt_writes b) /\
  Z.of_nat (length (bt_buf b)) < Z.max 1 maxBatch /\
  Z.of_nat (length (bt_ch b)) <= Z.max 0 (bt_capacity b) /\
  (bt_done b = true -> bt_closed b = true /\ bt_buf b = [] /\ bt_ch b = []).

Lemma write_rows e b : rows (set_buf [] (write e (bt_buf b) b).2) = rows b.
Proof.
  unfold rows, write. destruct (bt_buf b) as [|v l] eqn:Hb; cbn; [done|].
  rewrite map_app, concat_app. cbn. by rewrite app_nil_r, <- !app_assoc.
Qed.

Lemma write_inv m e b : Z.of_nat (length (bt_buf b)) <= Z.max 1 m ->
  Forall (fun w => w.1 <> [] /\ Z.of_nat (length w.1) <= Z.max 1 m) (bt_writes b) ->
  Forall (fun w => w.1 <> [] /\ Z.of_nat (length w.1) <= Z.max 1 m) (bt_writes (write e (bt_buf b) b).2).
Proof. intros Hl Hw. unfold write. destruct (bt_buf b); [done|]. cbn. apply Forall_app. split; [done|]. by repeat constructor. Qed.

Lemma write_keeps e buf b : let b' := (write e buf b).2 in
  bt_ch b' = bt_ch b /\ bt_capacity b' = bt_capacity b /\ bt_maxBatch b' = bt_maxBatch b /\ bt_closed b' = bt_closed b /\ bt_done b' = bt_done b /\
  bt_accepted b' = bt_accepted b.
Proof. unfold write. by destruct buf. Qed.

Lemma flushed_inv m e b : bt_maxBatch b = m -> rows b = bt_accepted b -> bt_done b = false ->
  Z.of_nat (length (bt_buf b)) <= Z.max 1 m -> Z.of_nat (length (bt_ch b)) <= Z.max 0 (bt_capacity b) ->
  Forall (fun w => w.1 <> [] /\ Z.of_nat (length w.1) <= Z.max 1 m) (bt_writes b) -> batcher_inv m (set_buf [] (write e (bt_buf b) b).2).
Proof.
  intros Hm Hr Hd Hl Hc Hw. destruct (write_keeps e (bt_buf b) b) as (K1 & K2 & K3 & K4 & K5 & K6). unfold batcher_inv. rewrite write_rows. cbn. rewrite K1, K2, K3, K5, K6, Hd.
  split_and!; try done; [by apply write_inv|lia].
Qed.

Lemma batcher_step_inv m b b' : batcher_inv m b -> batcher_step b b' -> batcher_inv m b'.
Proof.
  intros Hinv Hs. pose proof Hinv as (Hm & Hr & Hw & Hl & Hc & Hd). destruct Hs as [v b|e b b' Hs|e b b' Hs|b].
  - unfold Emit. destruct (bt_closed b) eqn:Hcl; [exact Hinv|]. destruct (Z.ltb_spec (Z.of_nat (length (bt_ch b))) (bt_capacity b)); [|unfold batcher_inv; cbn; by split_and!].
    split_and!; try done; cbn.
    + unfold rows in *. cbn. rewrite <- Hr, !app_assoc. done.
    + rewrite length_app. cbn. lia.
    + intros Hdn. destruct (Hd Hdn) as (? & _). congruence.
  - unfold on_receive in Hs. destruct (bt_done b) eqn:Hdn; [done|]. destruct (bt_ch b) as [|v ch] eqn:Hch.
    + destruct (bt_closed b) eqn:Hcl; [|done].
      destruct (flushed_inv m e b Hm Hr Hdn ltac:(lia) ltac:(by rewrite Hch) Hw) as (A & B & C & D & F & G).
      destruct (write e (bt_buf b) b) as [err b1] eqn:Hwr. cbn in *. injection Hs as <-.
      pose proof (write_keeps e (bt_buf b) b) as K. rewrite Hwr in K. cbn in K. destruct K as (K1 & K2 & K3 & K4 & K5 & K6).
      split_and!; cbn; try done. intros _. rewrite K1, Hch, K4, Hcl. done.
    + cbn in Hs. set (b1 := mkBatcher ch _ _ _ _ _ _ _ _ _) in Hs.
      assert (rows b1 = bt_accepted b1) as Hr1.
      { unfold rows, b1 in *. cbn. rewrite <- Hr, Hch, <- !app_assoc. done. }
      rewrite length_app in Hs. cbn in Hs. cbn in Hc. destruct (Z.leb_spec (bt_maxBatch b) (Z.of_nat (length (bt_buf b) + 1))) as [Hfull|Hroom]; injection Hs as <-.
      * change (bt_buf b ++ [v]) with (bt_buf b1). apply flushed_inv; try done; cbn; [rewrite length_app; cbn; lia|lia].
      * unfold batcher_inv. rewrite Hr1. cbn. rewrite length_app. cbn. split_and!; try done; lia.
  - unfold on_tick in Hs. destruct (bt_done b) eqn:Hdn; [done|]. injection Hs as <-. apply flushed_inv; try done. lia.
  - split_and!; try done. cbn. intros Hdn. by destruct (Hd Hdn) as (_ & ? & ?).
Qed.

Lemma NewBatcher_inv capacity maxBatch : batcher_inv maxBatch (NewBatcher capacity maxBatch).
Proof. unfold batcher_inv. cbn. split_and!; try done; lia. Qed.

(** *** Closing *)

Lemma on_receive_closed errs n : forall b, bt_closed b = true -> bt_done b = false -> length (bt_ch b) = n ->
  bt_done (receive_all errs (S n) b) = true.
Proof.
  induction n as [|n IH]; intros b Hc Hd Hl; cbn [receive_all]; unfold on_receive at 1; rewrite Hd.
  - destruct (bt_ch b); [|done]. rewrite Hc. by destruct (write _ _ _) as [err b1].
  - destruct (bt_ch b) as [|v ch] eqn:Hch; [done|]. cbn in Hl. injection Hl as Hl. cbn [bt_maxBatch bt_buf].
    destruct (_ <=? _); [|by apply IH].
    apply IH; cbn; [..|]; destruct (bt_buf b ++ [v]); done.
Qed.

Lemma receive_all_reachable errs n b0 : forall b, reachable batcher_step b0 b -> reachable batcher_step b0 (receive_all errs n b).
Proof.
  induction n as [|n IH]; intros b Hb; cbn; [done|]. destruct (on_receive (errs n) b) as [b'|] eqn:Hr; [|done].
  apply IH. econstructor; [exact Hb|by eapply batch_receive].
Qed.
End Batcher.
Arguments Batcher : clear implicits.

(** C32. No row that was taken is lost, duplicated or reordered: at every moment the
    rows that [Emit] took are those handed to [flush], those in the batch and those in
    the queue, in this order; batches are not empty and have at most [maxBatch] rows.
    Once closed, the batcher takes nothing more, and as many receives of the loop as
    there are rows in the queue, and one more, end it with everything handed over. *)
Theorem batcher_conserves_rows {T : Type} capacity maxBatch (b : Batcher T)
  (Hrun : reachable batcher_step (NewBatcher capacity maxBatch) b) :
  concat (map fst (bt_writes b)) ++ bt_buf b ++ bt_ch b = bt_accepted b /\
  Forall (fun w => w.1 <> [] /\ Z.of_nat (length w.1) <= Z.max 1 maxBatch) (bt_writes b) /\
  (bt_done b = true -> concat (map fst (bt_writes b)) = bt_accepted b) /\
  (bt_closed b = true -> forall v, Emit v b = (false, b)) /\
  (bt_closed b = true -> bt_done b = false -> forall errs, let b' := receive_all errs (S (length (bt_ch b))) b in
     bt_done b' = true /\ concat (map fst (bt_writes b')) = bt_accepted b').
Proof.
  assert (forall b' : Batcher T, reachable batcher_step (NewBatcher capacity maxBatch) b' -> batcher_inv maxBatch b') as Hinv.
  { intros b' Hr. apply (reachable_invariant batcher_step (batcher_inv (T := T) maxBatch) (NewBatcher capacity maxBatch)); [apply NewBatcher_inv| |exact Hr].
    intros b1 b2. apply batcher_step_inv. }
  assert (forall b' : Batcher T, reachable batcher_step (NewBatcher capacity maxBatch) b' -> bt_done b' = true -> concat (map fst (bt_writes b')) = bt_accepted b') as Hend.
  { intros b' Hr Hd. destruct (Hinv b' Hr) as (_ & Hrows & _ & _ & _ & Hdn). destruct (Hdn Hd) as (_ & Hb & Hc).
    unfold rows in Hrows. by rewrite Hb, Hc, !app_nil_r in Hrows. }
  destruct (Hinv b Hrun) as (_ & Hrows & Hw & _). split_and!; [exact Hrows|exact Hw|by apply Hend| |].
  - intros Hc v. unfold Emit. by rewrite Hc.
  - intros Hc Hd errs. assert (bt_done (receive_all errs (S (length (bt_ch b))) b) = true) as Hdone by by apply on_receive_closed.
    split; [done|]. apply Hend; [by apply receive_all_reachable|done].
Qed.

(** The error of [Close] is that of the last write only: the rows of an earlier batch
    can be lost without it. *)
Lemma close_hides_lost_rows :
  let b := (Emit 2 (default (NewBatcher 0 0) (on_receive (Some "insert failed"%string) (Emit 1 (NewBatcher 10 1)).2))).2 in
  let b' := receive_all (fun _ => None) 2 (close_queue b) in
  bt_writes b' = [([1], Some "insert failed"%string); ([2], None)] /\ close_result "deadline" b' = None.
Proof. vm_compute. done. Qed.

Lemma batcher_conserves_rows_witness :
  let b := close_queue (Emit 3 (Emit 2 (Emit 1 (NewBatcher 10 2)).2).2).2 in
  let b' := receive_all (fun _ => None) 4 b in
  map fst (bt_writes b') = [[1; 2]; [3]] /\ bt_done b' = true /\ concat (map fst (bt_writes b')) = bt_accepted b'.
Proof.
  cbn zeta. split; [vm_compute; reflexivity|].
  set (b := close_queue _). assert (reachable batcher_step (NewBatcher 10 2) b) as Hr.
  { unfold b. eapply reach_step; [|apply batch_close]. do 3 (eapply reach_step; [|apply batch_emit]). apply reach_refl. }
  destruct (batcher_conserves_rows 10 2 b Hr) as (_ & _ & _ & _ & H). exact (H eq_refl eq_refl (fun _ => None)).
Defined.
