(* ===== verification/Gossip.v ===== *)
(** * Sharing provider health between replicas (src/internal/health/gossip.go,
    redis.go, prober.go)

    A replica broadcasts the statistics of its tracker, one line per target, under
    a header that carries a time and an HMAC of the lines; a peer merges the lines
    of the datagrams whose header it accepts.  The HMAC, the JSON decoder (an older
    format), name resolution and the rate limiter are parameters.  Through Redis the
    same statistics are fields of a hash per target; the prober feeds the tracker the
    outcome of a probe of each degraded target. *)

From S2P Require Import Prelude GoStrings GoFloat GoFloatInt Encoding Breaker Config Route Health.

Open Scope string_scope.
Open Scope list_scope.
Open Scope Z_scope.

(** ** Data *)

(** [golang.org/x/time/rate]: a limiter for a rate and a burst, and whether it lets one
    more event pass now. *)
Class RateLimiter (L : Type) := {
  NewLimiter : Z -> Z -> L;
  Allow : Time -> L -> bool * L
}.

Record Gossip (L : Type) := mkGossip {
  go_addr : string;
  go_peers : list string;
  go_interval : Duration;
  go_secret : string;
  go_allowUnsigned : bool;
  go_limiters : gmap string L
}.
Arguments mkGossip {L}. Arguments go_addr {L}. Arguments go_peers {L}. Arguments go_interval {L}.
Arguments go_secret {L}. Arguments go_allowUnsigned {L}. Arguments go_limiters {L}.

Definition NewGossipWithSecret {L} (addr : string) (peers : list string) (interval : Duration) (secret : string) : Gossip L :=
  mkGossip addr peers (if interval <=? 0 then 10 * second else interval) secret false ∅.
Definition SetAllowUnsigned {L} (allow : bool) (g : Gossip L) : Gossip L :=
  mkGossip (go_addr g) (go_peers g) (go_interval g) (go_secret g) allow (go_limiters g).
Definition NewGossip {L} (addr : string) (peers : list string) (interval : Duration) : Gossip L :=
  SetAllowUnsigned true (NewGossipWithSecret addr peers interval "").

Definition AddPeer {L} (peer : string) (g : Gossip L) : Gossip L :=
  if bool_decide (peer ∈ go_peers g) then g
  else mkGossip (go_addr g) (go_peers g ++ [peer]) (go_interval g) (go_secret g) (go_allowUnsigned g) (go_limiters g).

(** Whether a datagram from [ip] is read now; the table of limiters is emptied
    when it has more than 1024 addresses. *)
Definition allowIP {L} `{RateLimiter L} (now : Time) (ip : string) (g : Gossip L) : bool * Gossip L :=
  let with_limiters m := mkGossip (go_addr g) (go_peers g) (go_interval g) (go_secret g) (go_allowUnsigned g) m in
  let '(lim, m) :=
    match go_limiters g !! ip with
    | Some lim => (lim, go_limiters g)
    | None =>
        let lim := NewLimiter 50 100 in
        (lim, <[ip := lim]> (if (1024 <? size (go_limiters g))%nat then ∅ else go_limiters g))
    end in
  let '(ok, lim) := Allow now lim in (ok, with_limiters (<[ip := lim]> m)).

Section Peers.
(** [net]: the host of "host:port" (an error without a port), the address a name denotes
    by itself, the addresses it resolves to, equality and loopback of addresses. *)
Context {IP : Type} (SplitHost : string -> option string) (ParseIP : string -> option IP)
  (LookupIPAddr : string -> option (list IP)) (IP_Equal : IP -> IP -> bool) (IsLoopback : IP -> bool).

Definition peer_is (incoming : IP) (p : string) : bool :=
  let host := default p (SplitHost p) in
  match ParseIP host with
  | Some pip => IP_Equal pip incoming || IsLoopback pip && IsLoopback incoming
  | None => match LookupIPAddr host with Some ips => existsb (fun ip => IP_Equal ip incoming) ips | None => false end
  end.

Definition isAllowedPeer {L} (g : Gossip L) (addr : option IP) : bool :=
  match addr with
  | None => false
  | Some incoming => bool_decide (go_peers g = []) || existsb (peer_is incoming) (go_peers g)
  end.
End Peers.

(** ** The datagram *)

Definition bar : ascii := "|"%char.

(** A target that was never sampled is not sent. *)
Definition has_samples (s : Stats) : bool :=
  negb ((TTFTN s =? 0) && (TPSN s =? 0) && (ErrN s =? 0) && negb (Degraded s)).

Definition stat_fields (tg : string) (s : Stats) : list string :=
  [tg; format_fixed 3 (TTFTMs s); format_fixed 3 (TTFTDevMs s); format_fixed 3 (TPS s); format_fixed 4 (ErrRate s);
   itoa (TTFTN s); itoa (TPSN s); itoa (ErrN s); if Degraded s then "1" else "0"].
Definition stat_line (ts : string * Stats) : string := join "|" (stat_fields ts.1 ts.2).

(** The lines for the entries of a snapshot, in the order the map is visited. *)
Definition gossip_payload (snap : list (string * Stats)) : string :=
  concat_strings (map (fun ts => stat_line ts +:+ newline) (filter (fun ts => has_samples ts.2 = true) snap)).

Definition validateStats (s : Stats) : bool :=
  if bad_float (TTFTMs s) || bad_float (TTFTDevMs s) || bad_float (TPS s) || bad_float (ErrRate s) then false
  else if fltb (TTFTMs s) f0 || fltb (TTFTDevMs s) f0 || fltb (TPS s) f0 || fltb (ErrRate s) f0 || fgtb (ErrRate s) f1 then false
  else if (TTFTN s <? 0) || (TPSN s <? 0) || (ErrN s <? 0) ||
          (maxCount <? TTFTN s) || (maxCount <? TPSN s) || (maxCount <? ErrN s) then false
  else true.

(** [strings.EqualFold(s, "true")]: no byte outside ASCII folds to a letter of it. *)
Definition is_true (s : string) : bool := String.eqb (lower_ascii s) "true".

(** One line of the compact format; a line that does not parse is skipped. *)
Definition parse_line (line : string) : option (Target * Stats) :=
  match split_byte bar (trim_space line) with
  | tg :: ttft :: dev :: tps :: err :: ttftN :: tpsN :: errN :: deg :: _ =>
      tg ← ParseTarget tg; ttft ← ParseFloat ttft; dev ← ParseFloat dev; tps ← ParseFloat tps; err ← ParseFloat err;
      ttftN ← Atoi ttftN; tpsN ← Atoi tpsN; errN ← Atoi errN;
      Some (tg, mkStats ttft dev tps err ttftN tpsN errN (String.eqb deg "1" || is_true deg) 0 "")
  | _ => None
  end.

(** The statistics of a packet, merged one after the other, each at the times its
    clock shows. *)
Fixpoint merge_all (clk : nat -> Time * Time) (msgs : list (Target * Stats)) (t : Tracker) : Tracker :=
  match msgs with
  | [] => t
  | (tg, s) :: r =>
      merge_all (fun n => clk (S n)) r (if validateStats s then Merge (clk 0%nat).1 (clk 0%nat).2 tg s t else t)
  end.

Section Packets.
Context {L : Type} (hmac_sha256 : string -> string -> string)
  (unmarshal_one : string -> option (string * Stats)) (unmarshal_many : string -> list (string * Stats)).
Implicit Types g : Gossip L.

Definition signature (secret : string) (ts : Z) (payload : string) : string :=
  hmac_sha256 secret (itoa ts +:+ newline +:+ payload).

(** What [BroadcastOnce] sends; [None] when there is nothing to send. *)
Definition broadcast_packet (now : Z) g (snap : list (string * Stats)) : option string :=
  let payload := gossip_payload snap in
  if String.eqb payload "" then None
  else if String.eqb (go_secret g) "" then Some payload
  else Some ("SIG|" +:+ itoa now +:+ "|" +:+ hex_encode (signature (go_secret g) now payload) +:+ newline +:+ payload).

(** The datagrams of [BroadcastOnce]: an address that does not resolve is skipped. *)
Definition BroadcastOnce {A} (ResolveUDPAddr : string -> option A) (now : Z) g (conn : bool) (snap : list (string * Stats)) :
    string + list (A * string) :=
  match broadcast_packet now g snap with
  | None => inr []
  | Some p => if conn then inr (omap (fun peer => option_map (fun a => (a, p)) (ResolveUDPAddr peer)) (go_peers g))
              else inl "gossip connection not active"
  end.

(** The check of the header: what follows it. *)
Definition authenticate (now : Z) g (raw : string) : string + string :=
  if negb (String.eqb (go_secret g) "") then
    match index newline raw with
    | None => inl "gossip: packet missing signature header"
    | Some nl =>
        let rest := sdrop (S nl) raw in
        match split_byte bar (stake nl raw) with
        | sig :: parts =>
            if negb (String.eqb sig "SIG") then inl "gossip: packet missing signature header"
            else
              match parts with
              | [ts; mac] =>
                  match Atoi ts with
                  | None => inl "gossip: invalid timestamp in signature header"
                  | Some ts =>
                      let diff := wrap64 (now - ts) in
                      if (diff <? -30) || (30 <? diff) then inl ("gossip: timestamp skew too large (" +:+ itoa diff +:+ " s)")
                      else
                        match hex_decode mac with
                        | Some actual =>
                            if String.eqb (signature (go_secret g) ts rest) actual then inr rest
                            else inl "gossip: invalid packet signature"
                        | None => inl "gossip: invalid packet signature"
                        end
                  end
              | _ => inl "gossip: packet invalid signature header format"
              end
        | [] => inl "gossip: packet missing signature header"
        end
    end
  else if negb (go_allowUnsigned g) then inl "gossip: unsigned packet rejected (secret required)"
  else if has_prefix "SIG|" raw then
    inr (match index newline raw with Some nl => sdrop (S nl) raw | None => raw end)
  else inr raw.

(** The statistics a packet carries: JSON when it starts with a brace or a bracket,
    lines otherwise. *)
Definition packet_stats (raw : string) : list (Target * Stats) :=
  let trimmed := trim_space raw in
  let of_json l := omap (fun ts : string * Stats => option_map (fun tg => (tg, ts.2)) (ParseTarget ts.1)) l in
  match trimmed with
  | EmptyString => []
  | String c _ =>
      if Ascii.eqb c "{" then of_json (option_list (unmarshal_one trimmed))
      else if Ascii.eqb c "[" then of_json (unmarshal_many trimmed)
      else omap parse_line (split_byte "010"%char trimmed)
  end.

(** The tracker and the error. *)
Definition MergeMessage (now : Z) (clk : nat -> Time * Time) g (data : string) (t : Tracker) : Tracker * option string :=
  if String.eqb data "" then (t, None)
  else match authenticate now g data with
       | inl e => (t, Some e)
       | inr raw => (merge_all clk (packet_stats raw) t, None)
       end.
End Packets.

(** ** Sharing through Redis *)

Record RedisHealth := mkRedisHealth {
  rh_replicaID : string;
  rh_interval : Duration;
  rh_ttl : Duration;
  rh_targets : list Target
}.

(** [uuid]: the identifier of a replica that was given none. *)
Definition NewRedisHealth (uuid replicaID : string) (targets : list Target) (interval : Duration) : RedisHealth :=
  let interval := if interval <=? 0 then 2 * second else interval in
  mkRedisHealth (if String.eqb replicaID "" then uuid else replicaID) interval (3 * interval) targets.
Definition RedisHealth_SetTargets (targets : list Target) (rh : RedisHealth) : RedisHealth :=
  mkRedisHealth (rh_replicaID rh) (rh_interval rh) (rh_ttl rh) targets.

(** The hashes of the server, each with the time it expires at. *)
Definition Hashes := gmap string (gmap string string * Time).
Definition hgetall (now : Time) (h : Hashes) (key : string) : gmap string string :=
  match h !! key with Some (m, e) => if now <? e then m else ∅ | None => ∅ end.
Definition hset_expire (now ttl : Time) (h : Hashes) (key field v : string) : Hashes :=
  <[key := (<[field := v]> (hgetall now h key), now + ttl)]> h.
Definition hdel (h : Hashes) (key field : string) : Hashes :=
  match h !! key with Some (m, e) => <[key := (delete field m, e)]> h | None => h end.

Definition health_key (tg : Target) : string := "health:" +:+ Target_String tg.

Section Redis.
(** The JSON of a payload, of the time it was updated and the statistics; [UpdatedAt]
    is [None] when it is the zero time. *)
Context (marshal : Time -> Stats -> option string) (unmarshal : string -> option (option Time * Stats))
  (unmarshal_stats : string -> option Stats).

Definition publish_target (now : Time) (rh : RedisHealth) (snap : gmap string Stats) (h : Hashes) (tg : Target) : Hashes :=
  match snap !! Target_String tg with
  | None => h
  | Some s =>
      match marshal now s with
      | Some b => hset_expire now (rh_ttl rh) h (health_key tg) (rh_replicaID rh) b
      | None => h
      end
  end.

(** [up]: whether the pipeline reaches Redis. *)
Definition publishOnce (now : Time) (up : bool) (rh : RedisHealth) (t : Tracker) (h : Hashes) : Hashes :=
  if up then for_range (rh_targets rh) h (publish_target now rh (Snapshot t)) else h.

Inductive peer_field := StaleField | PeerStats (s : Stats) | BadField.

(** What a field of another replica says. *)
Definition read_field (now ttl : Time) (raw : string) : peer_field :=
  match unmarshal raw with
  | Some (Some updated, s) => if ttl <? time_sub now updated then StaleField else PeerStats s
  | _ => match unmarshal_stats raw with Some s => PeerStats s | None => BadField end
  end.

(** One field; [clk] shows the time it is read at and those of the merge. *)
Definition pull_field (clk : Time * Time * Time) (rh : RedisHealth) (tg : Target) (s : Tracker * Hashes) (f : string * string) : Tracker * Hashes :=
  if String.eqb f.1 (rh_replicaID rh) then s
  else match read_field clk.1.1 (rh_ttl rh) f.2 with
       | StaleField => (s.1, hdel s.2 (health_key tg) f.1)
       | PeerStats p => (Merge clk.1.2 clk.2 tg p s.1, s.2)
       | BadField => s
       end.

(** [visit]: the order in which the fields are visited; [up]: whether Redis answers
    for the target. *)
Definition pullOnce (clk : Target -> string -> Time * Time * Time) (visit : gmap string string -> list (string * string)) (up : Target -> bool)
    (rh : RedisHealth) (t : Tracker) (h : Hashes) : Tracker * Hashes :=
  for_range (rh_targets rh) (t, h) (fun s tg =>
    if up tg then for_range (visit (hgetall (clk tg "").1.1 s.2 (health_key tg))) s (fun s f => pull_field (clk tg f.1) rh tg s f) else s).

Definition SyncOnce now up clk visit up' (rh : RedisHealth) (t : Tracker) (h : Hashes) : Tracker * Hashes :=
  pullOnce clk visit up' rh t (publishOnce now up rh t h).
End Redis.

(** ** Probing degraded targets *)

(** [send]: the time to the first token of a probe, or [None] for its error; [clk] the
    time of each observation; [order] the degraded targets as they are visited. *)
Definition Prober_Tick (send : Target -> option Duration) (clk : Target -> Time) (order : list Target) (t : Tracker) : Tracker :=
  for_range (DegradedTargets t order) t (fun t' tg =>
    match send tg with
    | None => Observe (clk tg) (mkSample tg 0 0 0 Failed) t'
    | Some ttft => Observe (clk tg) (mkSample tg ttft 0 0 OK) t'
    end).

(** ** Lemmas *)

Lemma Atoi_range s n : Atoi s = Some n -> in_int64 n.
Proof.
  unfold Atoi. destruct (match s with EmptyString => _ | String _ _ => _ end) as [neg d]. destruct (_ || _); [done|].
  destruct neg; (destruct ((int64_min <=? _) && _) eqn:E; [|done]); intros [= <-]; unfold in_int64; lia.
Qed.

(** The wrap-around of the difference cannot hide a large skew: the clock is far from the
    end of its range. *)
Lemma skew_exact now ts : Z.abs now < 2 ^ 62 -> in_int64 ts ->
  (wrap64 (now - ts) <? -30) || (30 <? wrap64 (now - ts)) = negb (Z.abs (now - ts) <=? 30).
Proof.
  unfold in_int64, wrap64, int64_min, int64_max. intros H1 H2. apply eq_true_iff_eq.
  rewrite orb_true_iff, negb_true_iff, !Z.ltb_lt, Z.leb_gt.
  pose proof (Z.mod_pos_bound (now - ts + 2 ^ 63) (2 ^ 64) ltac:(lia)). pose proof (Z.div_mod (now - ts + 2 ^ 63) (2 ^ 64) ltac:(lia)).
  assert (-1 <= (now - ts + 2 ^ 63) / 2 ^ 64) by (apply Z.div_le_lower_bound; lia).
  assert ((now - ts + 2 ^ 63) / 2 ^ 64 < 2) by (apply Z.div_lt_upper_bound; lia).
  lia.
Qed.

(** *** Merging *)

Lemma merge_all_config msgs : forall clk t, tk_cfg (merge_all clk msgs t) = tk_cfg t /\ tk_slos (merge_all clk msgs t) = tk_slos t /\
  tk_known (merge_all clk msgs t) = tk_known t.
Proof.
  induction msgs as [|[tg s] msgs IH]; intros clk t; [done|]. cbn [merge_all].
  destruct (IH (fun n => clk (S n)) (if validateStats s then Merge (clk 0%nat).1 (clk 0%nat).2 tg s t else t)) as (-> & -> & ->).
  destruct (validateStats s); [|done]. apply (health_apply_config (clk 0%nat, OpMerge tg s)).
Qed.

Definition may_change (t : Tracker) (tg : Target) : bool := bool_decide (tk_known t = ∅) || bool_decide (tg ∈ tk_known t).

Lemma merge_all_lookup msgs : forall clk t tg,
  tk_m (merge_all clk msgs t) !! tg <> tk_m t !! tg ->
  may_change t tg = true /\ exists s, (tg, s) ∈ msgs /\ validateStats s = true.
Proof.
  induction msgs as [|[tg' s] msgs IH]; intros clk t tg Hne; [done|]. cbn [merge_all] in Hne.
  set (t1 := if validateStats s then _ else _) in Hne.
  assert (tk_m t1 !! tg = tk_m t !! tg \/ tg' = tg /\ validateStats s = true /\ may_change t tg = true) as [E|(-> & ? & ?)].
  { subst t1. destruct (validateStats s); [|by left]. rewrite Merge_accepted. destruct (peer_accepted t tg' s) eqn:Ea; [|by left].
    destruct (decide (tg' = tg)) as [->|]; [right; by apply andb_true_iff in Ea as [? _]|].
    left. unfold tracker_put. simpl. by rewrite lookup_insert_ne. }
  - rewrite <- E in Hne. destruct (IH _ _ _ Hne) as (Hk & s' & Hin & Hv).
    assert (tk_known t1 = tk_known t) as Ek
      by (subst t1; destruct (validateStats s); [apply (health_apply_config (clk 0%nat, OpMerge tg' s))|done]).
    unfold may_change in *. rewrite Ek in Hk. split; [done|]. exists s'. split; [by right|done].
  - split; [done|]. exists s. split; [by left|done].
Qed.

(** *** The lines *)

(** A byte that separates nothing. *)
Definition plain (c : ascii) : bool := negb (Ascii.eqb c bar) && negb (Ascii.eqb c "010").
Definition plain_text (s : string) : bool := sforall plain s.

Lemma plain_digits s : sforall is_digit s = true -> plain_text s = true.
Proof.
  apply sforall_impl. intros c. unfold plain. destruct (Ascii.eqb_spec c bar) as [->|]; [done|].
  by destruct (Ascii.eqb_spec c "010") as [->|].
Qed.
Lemma plain_utoa z : plain_text (utoa z) = true.
Proof. apply plain_digits, utoa_digits. Qed.
Lemma plain_app s t : plain_text (s +:+ t) = plain_text s && plain_text t.
Proof. apply sforall_app. Qed.
Lemma plain_pad n s : plain_text s = true -> plain_text (pad_left n s) = true.
Proof.
  revert s; induction n as [|n IH]; intros s H; [done|]. apply IH. unfold plain_text in *. cbn [sforall]. by rewrite H.
Qed.
#[local] Hint Resolve plain_utoa plain_pad : core.

Lemma plain_itoa z : plain_text (itoa z) = true.
Proof. unfold itoa. destruct (z <? 0); [|done]. change (String "-" ?s) with ("-" +:+ s). by rewrite plain_app, plain_utoa. Qed.

Lemma plain_fixed n x : plain_text (format_fixed n x) = true.
Proof.
  unfold format_fixed. destruct x as [s|[]| |s m e]; try done; rewrite !plain_app, plain_utoa.
  all: destruct (is_neg _), n; rewrite ?plain_app; simpl; try done; by rewrite plain_pad.
Qed.

Lemma plain_hex s : plain_text (hex_encode s) = true.
Proof.
  unfold plain_text. induction s as [|c s IH]; [done|]. cbn [hex_encode sforall]. rewrite IH.
  pose proof (byte_val_range c) as Hc.
  assert (forall d, 0 <= d < 16 -> plain (hex_digit d) = true) as Hd.
  { intros d H. assert (forallb (fun k => plain (hex_digit (Z.of_nat k))) (seq 0 16) = true) as F by reflexivity.
    rewrite forallb_forall in F. specialize (F (Z.to_nat d)). rewrite in_seq, Z2Nat.id in F by lia. apply F. lia. }
  by rewrite !Hd by (Z.to_euclidean_division_equations; lia).
Qed.

Lemma plain_no_bar s : plain_text s = true -> scontains_byte bar s = false.
Proof. by apply sforall_no_byte. Qed.
Lemma plain_no_newline s : plain_text s = true -> scontains_byte "010" s = false.
Proof. by apply sforall_no_byte. Qed.

(** The targets whose name survives a line. *)
Definition gossip_safe (t : Target) : bool :=
  negb (String.eqb (Provider t) "") && negb (String.eqb (Model t) "") && negb (contains (Provider t) "/") &&
  plain_text (Provider t) && plain_text (Model t) &&
  match Provider t with String c _ => negb (is_space c) && negb (Ascii.eqb c "{") && negb (Ascii.eqb c "[") | EmptyString => false end.

Lemma gossip_safe_parse t : gossip_safe t = true -> ParseTarget (Target_String t) = Some t.
Proof.
  unfold gossip_safe. intros H. repeat (apply andb_true_iff in H as [H ?]). rewrite !negb_true_iff, ?String.eqb_neq in *.
  by apply (ParseTarget_roundtrip t "").
Qed.

Lemma gossip_safe_plain t : gossip_safe t = true -> plain_text (Target_String t) = true.
Proof.
  unfold gossip_safe. intros H. repeat (apply andb_true_iff in H as [H ?]). unfold Target_String. rewrite !plain_app. by apply andb_true_iff.
Qed.

Lemma gossip_safe_head t : gossip_safe t = true -> exists c m, Target_String t = String c m /\ is_space c = false /\ c <> "{"%char /\ c <> "["%char.
Proof.
  unfold gossip_safe. intros H. repeat (apply andb_true_iff in H as [H ?]). unfold Target_String. destruct (Provider t) as [|c p]; [done|].
  rewrite sapp_cons. exists c, (p +:+ "/" +:+ Model t). rewrite !andb_true_iff, !negb_true_iff, !Ascii.eqb_neq in *. tauto.
Qed.

(** The counts a tracker keeps. *)
Definition counts_ok (s : Stats) : Prop :=
  (0 <= TTFTN s <= int64_max) /\ (0 <= TPSN s <= int64_max) /\ (0 <= ErrN s <= int64_max).

(** What the peer reads of an entry: the averages rounded to the digits of the line. *)
Definition received (ts : Target * Stats) : option (Target * Stats) :=
  let s := ts.2 in
  ttft ← ParseFloat (format_fixed 3 (TTFTMs s)); dev ← ParseFloat (format_fixed 3 (TTFTDevMs s));
  tps ← ParseFloat (format_fixed 3 (TPS s)); err ← ParseFloat (format_fixed 4 (ErrRate s));
  Some (ts.1, mkStats ttft dev tps err (TTFTN s) (TPSN s) (ErrN s) (Degraded s) 0 "").

Definition named (ts : Target * Stats) : string * Stats := (Target_String ts.1, ts.2).

Definition line_of (ts : Target * Stats) : string := stat_line (named ts).

Lemma stat_fields_plain tg s : gossip_safe tg = true ->
  Forall (fun f => plain_text f = true) (stat_fields (Target_String tg) s).
Proof.
  intros H. unfold stat_fields. repeat constructor; auto using gossip_safe_plain, plain_fixed, plain_itoa. by destruct (Degraded s).
Qed.

Lemma line_split tg s : gossip_safe tg = true -> split_byte bar (line_of (tg, s)) = stat_fields (Target_String tg) s.
Proof.
  intros H. apply (split_join bar); [done|]. eapply Forall_impl; [by apply stat_fields_plain|]. intros f. apply plain_no_bar.
Qed.

Lemma line_no_newline tg s : gossip_safe tg = true -> scontains_byte "010" (line_of (tg, s)) = false.
Proof.
  intros H. pose proof (stat_fields_plain tg s H) as Hf. unfold line_of, stat_line, named. cbn [fst snd].
  induction Hf as [|f l Hf _ IH]; [done|]. destruct l as [|f' l]; [by apply plain_no_newline|].
  change (join "|" (f :: f' :: l)) with (f +:+ "|" +:+ join "|" (f' :: l)).
  by rewrite !scontains_byte_app, IH, plain_no_newline.
Qed.

(** A line starts with its target and ends with the flag. *)
Lemma line_start tg s : exists m, line_of (tg, s) = Target_String tg +:+ String bar m.
Proof. by eexists. Qed.

Lemma line_end tg s : exists m d, line_of (tg, s) = m +:+ String d "" /\ is_space d = false.
Proof.
  unfold line_of, stat_line, named, stat_fields. cbn [fst snd].
  match goal with |- context [join "|" ?l] => change l with (removelast l ++ [if Degraded s then "1" else "0"]) end.
  rewrite join_app by done.
  match goal with |- context [?a +:+ "|" +:+ join _ _] => exists (a +:+ "|"), (if Degraded s then "1"%char else "0"%char) end.
  rewrite sapp_assoc. by destruct (Degraded s).
Qed.

Lemma line_trim tg s rest : gossip_safe tg = true -> sforall is_space rest = true -> trim_space (line_of (tg, s) +:+ rest) = line_of (tg, s).
Proof.
  intros H Hr. destruct (gossip_safe_head tg H) as (c & m & Ec & Hc & _), (line_start tg s) as [m' Em], (line_end tg s) as (m'' & d & Ed & Hd).
  rewrite Ec, sapp_cons in Em. apply (trim_space_tight _ c (m +:+ String bar m') d); try done. by exists m''.
Qed.

Lemma parse_stat_line ts : gossip_safe ts.1 = true -> counts_ok ts.2 -> parse_line (line_of ts) = received ts.
Proof.
  destruct ts as [tg s]. intros H (H1 & H2 & H3). cbn [fst snd] in *. unfold parse_line.
  rewrite <- (sapp_nil_r (line_of (tg, s))) at 1. rewrite line_trim, line_split by done. unfold stat_fields, received. cbn [fst snd].
  rewrite gossip_safe_parse by done. cbn [mbind option_bind].
  destruct (ParseFloat (format_fixed 3 (TTFTMs s))), (ParseFloat (format_fixed 3 (TTFTDevMs s))), (ParseFloat (format_fixed 3 (TPS s))),
    (ParseFloat (format_fixed 4 (ErrRate s))); try done.
  cbn [mbind option_bind]. rewrite !Atoi_itoa by (unfold in_int64, int64_min in *; lia). cbn [mbind option_bind]. by destruct (Degraded s).
Qed.

(** *** The payload *)

Lemma payload_lines snap : gossip_payload (map named snap) =
  concat_strings (map (fun ts => line_of ts +:+ newline) (filter (fun ts => has_samples ts.2 = true) snap)).
Proof.
  unfold gossip_payload. induction snap as [|ts snap IH]; [done|]. cbn [map]. rewrite !filter_cons.
  change ((named ts).2) with (ts.2). case_decide; cbn [map concat_strings]; by rewrite IH.
Qed.

Lemma concat_lines ls : ls <> [] -> concat_strings (map (fun l => l +:+ newline) ls) = join newline ls +:+ newline.
Proof.
  induction ls as [|l ls IH]; [done|]. intros _. destruct ls as [|l' ls]; [by rewrite <- (sapp_nil_r (join _ _ +:+ _))|].
  cbn [map concat_strings]. cbn [map concat_strings] in IH. rewrite IH by done.
  change (join newline (l :: l' :: ls)) with (l +:+ newline +:+ join newline (l' :: ls)). by rewrite !sapp_assoc.
Qed.

Lemma join_lines_ends l ts : (forall t s, (t, s) ∈ ts :: l -> gossip_safe t = true) ->
  exists c m m' d, join newline (map line_of (ts :: l)) = String c m /\ join newline (map line_of (ts :: l)) = m' +:+ String d "" /\
    is_space c = false /\ is_space d = false /\ c <> "{"%char /\ c <> "["%char.
Proof.
  intros H. destruct ts as [tg s]. destruct (gossip_safe_head tg (H tg s ltac:(by left))) as (c & m & Ec & Hc & Hb).
  assert (exists m, join newline (map line_of ((tg, s) :: l)) = String c m) as [m0 E0].
  { destruct (line_start tg s) as [m1 E1]. rewrite Ec, sapp_cons in E1. cbn [map]. destruct (map line_of l) as [|l' r]; simpl join; rewrite E1.
    - by eexists.
    - by eexists. }
  assert (exists m' d, join newline (map line_of ((tg, s) :: l)) = m' +:+ String d "" /\ is_space d = false) as (m' & d & E' & Hd).
  { clear. revert tg s. induction l as [|[t' s'] l IH]; intros tg s; [apply line_end|].
    destruct (IH t' s') as (m' & d & E & Hd). exists (line_of (tg, s) +:+ newline +:+ m'), d.
    cbn [map]. change (join newline (?a :: ?b :: ?r)) with (a +:+ newline +:+ join newline (b :: r)). cbn [map] in E. rewrite E, !sapp_assoc. done. }
  exists c, m0, m', d. tauto.
Qed.

Lemma Forall_filtered {A} (P Q : A -> Prop) `{!forall x, Decision (P x)} l : Forall Q l -> Forall Q (filter P l).
Proof. rewrite !Forall_forall. intros Hall x Hx. apply Hall. by apply list_elem_of_filter in Hx as [_ Hx]. Qed.

Lemma packet_stats_payload uo um snap :
  Forall (fun ts => gossip_safe ts.1 = true /\ counts_ok ts.2) snap -> gossip_payload (map named snap) <> "" ->
  packet_stats uo um (gossip_payload (map named snap)) = omap received (filter (fun ts => has_samples ts.2 = true) snap).
Proof.
  intros Hsafe Hne. rewrite payload_lines in *. set (l := filter _ snap) in *.
  assert (Forall (fun ts => gossip_safe ts.1 = true /\ counts_ok ts.2) l) as Hl by (by apply Forall_filtered). clearbody l. clear Hsafe.
  rewrite <- (map_map line_of (fun l => l +:+ newline)) in *. destruct l as [|ts l]; [done|].
  rewrite concat_lines by done.
  destruct (join_lines_ends l ts) as (c & m & m' & d & Ec & Ed & Hc & Hd & Hb & Hb').
  { intros t s Hin. rewrite Forall_forall in Hl. apply (Hl (t, s) Hin). }
  unfold packet_stats.
  rewrite (trim_space_tight _ c m d) by (done || (exists m'; done)). rewrite Ec at 1. apply Ascii.eqb_neq in Hb, Hb'. rewrite Hb, Hb', split_join; [|done|].
  - clear -Hl. induction Hl as [|ts0 l0 [Hs Hk] Hl IH]; [done|]. cbn [map omap list_omap]. rewrite parse_stat_line by done.
    by destruct (received ts0); rewrite IH.
  - apply Forall_map. eapply Forall_impl; [exact Hl|]. intros [t s] [Hs _]. by apply line_no_newline.
Qed.

Lemma payload_not_signed snap : Forall (fun ts => gossip_safe ts.1 = true /\ counts_ok ts.2) snap ->
  has_prefix "SIG|" (gossip_payload (map named snap)) = false.
Proof.
  rewrite payload_lines. intros Hsafe. apply (Forall_filtered (fun ts => has_samples ts.2 = true) _ snap) in Hsafe.
  set (l := filter _ snap) in *. clearbody l.
  destruct Hsafe as [|[tg s] l [Hs _] _]; [done|]. cbn [map concat_strings fst] in *. destruct (line_start tg s) as [m ->].
  apply not_true_iff_false. rewrite has_prefix_app. intros [t Ht]. rewrite !sapp_assoc in Ht.
  pose proof (index_byte_app bar _ (m +:+ newline +:+ concat_strings (map (fun ts => line_of ts +:+ newline) l)) (plain_no_bar _ (gossip_safe_plain tg Hs))) as Hi.
  change (String bar m +:+ ?x) with (String bar (m +:+ x)) in Ht. rewrite Ht in Hi. cbn in Hi. simplify_eq/=.
  assert (Target_String tg = "SIG") as E.
  { rewrite <- (stake_app_length (Target_String tg) (String bar (m +:+ newline +:+ concat_strings (map (fun ts => line_of ts +:+ newline) l)))).
    by rewrite <- Hi, Ht. }
  pose proof (gossip_safe_parse tg Hs) as Hp. by rewrite E in Hp.
Qed.

Section Authentication.
Context {L : Type} (hmac : string -> string -> string).
Implicit Types g : Gossip L.

(** A header that the peer accepts. *)
Lemma authenticate_signed now now' g payload : go_secret g <> "" -> 0 <= now < 2 ^ 62 -> Z.abs (now' - now) <= 30 ->
  authenticate hmac now' g ("SIG|" +:+ itoa now +:+ "|" +:+ hex_encode (signature hmac (go_secret g) now payload) +:+ newline +:+ payload) = inr payload.
Proof.
  intros Hs Hn Hd. set (mac := hex_encode _). unfold authenticate. apply String.eqb_neq in Hs. rewrite Hs. cbn [negb].
  replace ("SIG|" +:+ itoa now +:+ "|" +:+ mac +:+ newline +:+ payload) with (join "|" ["SIG"; itoa now; mac] +:+ String "010" payload)
    by (cbn [join]; by rewrite !sapp_assoc).
  assert (scontains_byte "010" (join "|" ["SIG"; itoa now; mac]) = false) as Hnl.
  { pose proof (plain_no_newline _ (plain_itoa now)) as H1.
    pose proof (plain_no_newline _ (plain_hex (signature hmac (go_secret g) now payload))) as H2. fold mac in H2.
    cbn [join]. by rewrite !scontains_byte_app, H1, H2. }
  change newline with (String "010" ""). rewrite (index_byte_app _ _ _ Hnl), stake_app_length.
  replace (sdrop (S (String.length (join "|" ["SIG"; itoa now; mac]))) (join "|" ["SIG"; itoa now; mac] +:+ String "010" payload)) with payload.
  2: { rewrite <- Nat.add_1_r, <- sdrop_sdrop, sdrop_app_length. done. }
  rewrite (split_join bar); [|done|rewrite !Forall_cons; split_and!; [done|apply plain_no_bar, plain_itoa|apply plain_no_bar, plain_hex|by apply Forall_nil]].
  cbn [String.eqb Ascii.eqb Bool.eqb negb]. rewrite Atoi_itoa by (unfold in_int64, int64_min, int64_max; lia).
  rewrite wrap64_id by (unfold in_int64, int64_min, int64_max; lia).
  replace ((now' - now <? -30) || (30 <? now' - now)) with false by (symmetry; apply orb_false_iff; lia).
  unfold mac. by rewrite hex_roundtrip, String.eqb_refl.
Qed.

(** What an accepted header says. *)
Lemma authenticate_sound now g raw payload : go_secret g <> "" -> Z.abs now < 2 ^ 62 -> authenticate hmac now g raw = inr payload ->
  exists ts_text ts mac, raw = "SIG|" +:+ ts_text +:+ "|" +:+ mac +:+ newline +:+ payload /\ Atoi ts_text = Some ts /\
    Z.abs (now - ts) <= 30 /\ hex_decode mac = Some (signature hmac (go_secret g) ts payload).
Proof.
  intros Hs Hn. unfold authenticate. apply String.eqb_neq in Hs. rewrite Hs. cbn [negb].
  destruct (index newline raw) as [nl|] eqn:Ei; [|done].
  pose proof (index_Some _ _ _ Ei) as Er. rewrite Nat.add_1_r in Er.
  pose proof (join_split bar (stake nl raw)) as Ej. destruct (split_byte bar (stake nl raw)) as [|sig parts]; [done|].
  destruct (String.eqb_spec sig "SIG") as [->|]; [|done]. cbn [negb].
  destruct parts as [|ts [|mac [|]]]; try done. destruct (Atoi ts) as [t|] eqn:Et; [|done].
  rewrite skew_exact by (done || by apply (Atoi_range ts)). destruct (Z.leb_spec (Z.abs (now - t)) 30) as [Hsk|]; [|done]. cbn [negb].
  destruct (hex_decode mac) as [actual|] eqn:Eh; [|done].
  destruct (String.eqb_spec (signature hmac (go_secret g) t (sdrop (S nl) raw)) actual) as [<-|]; [|done]. intros [= <-].
  exists ts, t, mac. split_and!; [|done|done|done]. rewrite Er at 1. rewrite <- Ej. cbn [join]. by rewrite !sapp_assoc.
Qed.
End Authentication.

(** C28. Gossip is authenticated: a replica with a shared secret lets a datagram change what
    it knows about providers only when its header carries, for a time within thirty seconds
    of its own clock, the HMAC of that time and of exactly the lines that follow; and then
    only entries of its own targets (when it has a target list) change, each by statistics
    that the validation accepts. *)
Theorem gossip_needs_the_secret {L : Type} (hmac : string -> string -> string) uo um (now : Z) (clk : nat -> Time * Time)
  (g : Gossip L) (data : string) (t t' : Tracker) (e : option string)
  (Hsecret : go_secret g <> "") (Hnow : Z.abs now < 2 ^ 62)
  (Hrun : MergeMessage hmac uo um now clk g data t = (t', e)) (Hchanged : t' <> t) :
  exists ts_text ts mac payload,
    data = "SIG|" +:+ ts_text +:+ "|" +:+ mac +:+ newline +:+ payload /\ Atoi ts_text = Some ts /\ Z.abs (now - ts) <= 30 /\
    hex_decode mac = Some (signature hmac (go_secret g) ts payload) /\
    forall tg, tk_m t' !! tg <> tk_m t !! tg ->
      (tk_known t = ∅ \/ tg ∈ tk_known t) /\ exists s, (tg, s) ∈ packet_stats uo um payload /\ validateStats s = true.
Proof.
  unfold MergeMessage in Hrun. destruct (String.eqb data ""); [congruence|].
  destruct (authenticate hmac now g data) as [?|payload] eqn:Ea; [congruence|]. simplify_eq.
  destruct (authenticate_sound hmac now g data payload Hsecret Hnow Ea) as (ts_text & ts & mac & H1 & H2 & H3 & H4).
  exists ts_text, ts, mac, payload. split_and!; try done. intros tg Hne. apply merge_all_lookup in Hne as [Hk Hs]. split; [|done].
  apply orb_true_iff in Hk as [Hk|Hk]; apply bool_decide_eq_true in Hk; tauto.
Qed.

(** What a replica broadcasts a peer merges: the datagram for a snapshot, sent to a peer
    that shares the secret (or, without one, accepts unsigned packets) and whose clock is
    within thirty seconds, is accepted, and the peer merges exactly the entries that have
    samples, in order, with their averages rounded to the printed digits; provided the names
    of the targets hold no separator. *)
Theorem broadcast_is_merged {L : Type} (hmac : string -> string -> string) uo um (now now' : Z) (clk : nat -> Time * Time)
  (g g' : Gossip L) (snap : list (Target * Stats)) (packet : string) (t : Tracker)
  (Hsafe : Forall (fun ts => gossip_safe ts.1 = true /\ counts_ok ts.2) snap)
  (Hsecret : go_secret g' = go_secret g) (Hunsigned : go_secret g = "" -> go_allowUnsigned g' = true)
  (Hnow : 0 <= now < 2 ^ 62) (Hskew : Z.abs (now' - now) <= 30)
  (Hsent : broadcast_packet hmac now g (map named snap) = Some packet) :
  MergeMessage hmac uo um now' clk g' packet t =
    (merge_all clk (omap received (filter (fun ts => has_samples ts.2 = true) snap)) t, None).
Proof.
  unfold broadcast_packet in Hsent. destruct (String.eqb_spec (gossip_payload (map named snap)) "") as [|Hne]; [done|].
  assert (authenticate hmac now' g' packet = inr (gossip_payload (map named snap)) /\ packet <> "") as [Ha Hp].
  { destruct (String.eqb_spec (go_secret g) "") as [Es|Es]; simplify_eq.
    - split; [|done]. unfold authenticate. rewrite Hsecret, Es, Hunsigned by done. cbn [String.eqb negb].
      by rewrite payload_not_signed.
    - split; [|done]. rewrite <- Hsecret in *. by apply authenticate_signed. }
  unfold MergeMessage. apply String.eqb_neq in Hp. by rewrite Hp, Ha, packet_stats_payload.
Qed.

(** ** Witnesses and runs *)

Module ToyMesh.
(** A keyed function in the place of the HMAC; no JSON packet parses; no limiter. *)
Definition mac (key msg : string) : string := key +:+ ":" +:+ msg.
Definition no_one (_ : string) : option (string * Stats) := None.
Definition no_many (_ : string) : list (string * Stats) := [].
Definition g : Gossip unit := NewGossipWithSecret ":7946" ["10.0.0.2:7946"] 0 "k".
Definition clk (_ : nat) : Time * Time := (200, 200).
Definition fresh : Tracker := NewTracker demo_health ∅.

Definition degraded_stats : Stats := mkStats (f_lit 5001 4) (f_lit 1 8) (f_of_Z 20) (f_lit 1 3) 3 0 3 true 10 "ttft".
Definition snap : list (Target * Stats) := [(demo_target, degraded_stats)].
Definition packet : string := default "" (broadcast_packet mac 1000 g (map named snap)).

Example payload_ex : gossip_payload (map named snap) = "openai/gpt-4o|1250.250|0.125|20.000|0.3333|3|0|3|1" +:+ newline.
Proof. vm_compute. reflexivity. Qed.

(** A signed datagram, one that is late, one whose lines were changed, one without a header. *)
Example MergeMessage_ex :
  map (fun '(now, p) => (MergeMessage mac no_one no_many now clk g p fresh).2)
    [(1030, packet); (1031, packet); (1000, packet +:+ "x/y|1|1|1|0|1|1|1|1"); (1000, gossip_payload (map named snap))] =
  [None; Some "gossip: timestamp skew too large (31 s)"; Some "gossip: invalid packet signature"; Some "gossip: packet missing signature header"].
Proof. vm_compute. reflexivity. Qed.

(** A name with a separator is lost, in silence. *)
Example separator_ex : omap parse_line (split_byte "010"%char (gossip_payload [("openai/ft|x", degraded_stats)])) = [].
Proof. vm_compute. reflexivity. Qed.

(** *** Echoes

    The counts of a peer are added to the local ones at each exchange, and the peer's
    contain what it was sent before. *)
Definition echo (ab : Tracker * Tracker) : Tracker * Tracker :=
  let send (from to : Tracker) := merge_all clk (option_list (received (demo_target, en_Stats (tracker_get from demo_target)))) to in
  let a := send ab.2 ab.1 in (a, send a ab.2).
Definition one_sample : Tracker := Observe 100 fast_sample fresh.

Example echo_ex : map (fun n => TTFTN (en_Stats (tracker_get (Nat.iter n echo (one_sample, one_sample)).1 demo_target))) [0; 1; 2; 5; 10]%nat =
  [1; 2; 5; 89; 10946].
Proof. vm_compute. reflexivity. Qed.
End ToyMesh.

(** Two replicas with one sample each that only echo each other: after fifteen exchanges
    the statistics of one count more than a million samples, and the other refuses them. *)
Lemma echoed_counts_saturate :
  let ab := Nat.iter 15 ToyMesh.echo (ToyMesh.one_sample, ToyMesh.one_sample) in
  validateStats (en_Stats (tracker_get ab.1 demo_target)) = false /\ tracker_get (ToyMesh.echo ab).2 demo_target = tracker_get ab.2 demo_target.
Proof. split; vm_compute; reflexivity. Qed.

Lemma gossip_needs_the_secret_witness :
  let r := MergeMessage ToyMesh.mac ToyMesh.no_one ToyMesh.no_many 1030 ToyMesh.clk ToyMesh.g ToyMesh.packet ToyMesh.fresh in
  exists ts_text ts mac payload,
    ToyMesh.packet = "SIG|" +:+ ts_text +:+ "|" +:+ mac +:+ newline +:+ payload /\ Atoi ts_text = Some ts /\ Z.abs (1030 - ts) <= 30 /\
    hex_decode mac = Some (signature ToyMesh.mac "k" ts payload) /\
    forall tg, tk_m r.1 !! tg <> tk_m ToyMesh.fresh !! tg ->
      (tk_known ToyMesh.fresh = ∅ \/ tg ∈ tk_known ToyMesh.fresh) /\
      exists s, (tg, s) ∈ packet_stats ToyMesh.no_one ToyMesh.no_many payload /\ validateStats s = true.
Proof.
  intros r.
  apply (gossip_needs_the_secret ToyMesh.mac ToyMesh.no_one ToyMesh.no_many 1030 ToyMesh.clk ToyMesh.g ToyMesh.packet ToyMesh.fresh r.1 r.2).
  - discriminate.
  - reflexivity.
  - apply surjective_pairing.
  - intros E. apply (f_equal (fun t => TTFTN (en_Stats (tracker_get t demo_target)))) in E. revert E. vm_compute. intros E. discriminate E.
Defined.

Lemma broadcast_is_merged_witness :
  let t := (MergeMessage ToyMesh.mac ToyMesh.no_one ToyMesh.no_many 1030 ToyMesh.clk ToyMesh.g ToyMesh.packet ToyMesh.fresh).1 in
  t = merge_all ToyMesh.clk (omap received (filter (fun ts => has_samples ts.2 = true) ToyMesh.snap)) ToyMesh.fresh /\
  TTFTN (en_Stats (tracker_get t demo_target)) = 3.
Proof.
  split; [|vm_compute; reflexivity].
  rewrite (broadcast_is_merged ToyMesh.mac ToyMesh.no_one ToyMesh.no_many 1000 1030 ToyMesh.clk ToyMesh.g ToyMesh.g ToyMesh.snap ToyMesh.packet ToyMesh.fresh).
  - reflexivity.
  - apply Forall_singleton. split; [vm_compute; reflexivity|]. unfold counts_ok, int64_max. simpl. lia.
  - reflexivity.
  - discriminate.
  - lia.
  - lia.
  - vm_compute. reflexivity.
Defined.
