(* ===== verification/Stats.v ===== *)
(** * Estimators (src/internal/stats)

    The Wilson interval, Cohen's kappa and the percentile bootstrap, in the order of
    the source's float64 operations.  The generator of math/rand/v2 is a parameter:
    the draws of [IntN] for a seed.  Go may fuse a product and a sum on some machines; here each
    operation is rounded. *)

From S2P Require Import Prelude GoStrings GoFloat GoFloatInt GoSort.

Open Scope string_scope.
Open Scope list_scope.
Open Scope Z_scope.

(** [math.Round]: half away from zero; the sign of a zero stays. *)
Definition math_Round (x : spec_float) : spec_float :=
  match x with
  | S754_finite s m e => let z := round_half_away (f_num x) (f_den x) in if z =? 0 then S754_zero s else f_of_Z z
  | _ => x
  end.

Example math_Round_ex : map math_Round [f_lit 5 2; f_lit (-5) 2; f_lit (-1) 3; f_of_Z 7; S754_nan] =
  [f_of_Z 3; f_of_Z (-3); S754_zero true; f_of_Z 7; S754_nan].
Proof. vm_compute. reflexivity. Qed.

(** ** wilson.go *)

Definition Wilson (successes n : Z) (z : spec_float) : spec_float * spec_float :=
  if n =? 0 then (f0, f1)
  else
    let p := fdiv (f_of_Z successes) (f_of_Z n) in
    let nf := f_of_Z n in
    let z2 := fmul z z in
    let den := fadd f1 (fdiv z2 nf) in
    let center := fdiv (fadd p (fdiv z2 (fmul (f_of_Z 2) nf))) den in
    let half := fdiv (fmul z (fsqrt (fadd (fdiv (fmul p (fsub f1 p)) nf) (fdiv z2 (fmul (fmul (f_of_Z 4) nf) nf))))) den in
    (math_Max f0 (fsub center half), math_Min f1 (fadd center half)).

(** The quantile for 95 percent. *)
Definition z95 : spec_float := f_lit 196 100.

(** ** kappa.go *)

(** A counter of type float64 over a list. *)
Definition tally {A} (p : A -> bool) (l : list A) : spec_float :=
  for_range l f0 (fun c x => if p x then fadd c f1 else c).

Definition CohenKappa (a b : list bool) : string + spec_float * Z :=
  if negb (Nat.eqb (length a) (length b)) || Nat.eqb (length a) 0
  then inl "kappa needs two non-empty label lists of equal length"
  else
    let n := f_of_Z (Z.of_nat (length a)) in
    let agree := tally (fun xy => Bool.eqb xy.1 xy.2) (combine a b) in
    let aYes := tally (fun x => x) a in
    let bYes := tally (fun x => x) b in
    let po := fdiv agree n in
    let pe := fadd (fmul (fdiv aYes n) (fdiv bYes n)) (fmul (fsub f1 (fdiv aYes n)) (fsub f1 (fdiv bYes n))) in
    if feqb pe f1 then inr (f1, Z.of_nat (length a))
    else inr (fdiv (fsub po pe) (fsub f1 pe), Z.of_nat (length a)).

Example kappa_ex : map (fun r => match r with inr (k, n) => (format_fixed 4 k, n) | inl e => (e, 0) end)
    [CohenKappa [true; false; true; true] [true; false; false; true]; CohenKappa [true; true] [true; true]; CohenKappa [] []; CohenKappa [true; false] [false; true]] =
  [("0.5000", 4); ("1.0000", 2); ("kappa needs two non-empty label lists of equal length", 0); ("-1.0000", 2)].
Proof. vm_compute. reflexivity. Qed.

(** ** bootstrap.go *)

(** [sort.Float64s]: NaN first. *)
Definition less_float (x y : spec_float) : bool := fltb x y || (is_nan x && negb (is_nan y)).

Definition fsum (l : list spec_float) : spec_float := for_range l f0 fadd.

Section Bootstrap.
(** The draw number [k] of [IntN(n)] by the generator of a seed. *)
Context (IntN : Z -> Z -> nat -> nat).

(** One resampled mean; [None] is an index out of range. *)
Definition resample (x : list spec_float) (seed : Z) (i : nat) : option spec_float :=
  let n := length x in
  picked ← mapM (fun j => x !! IntN seed (Z.of_nat n) (i * n + j)) (seq 0 n);
  Some (fdiv (fsum picked) (f_of_Z (Z.of_nat n))).

Definition quantile_index (iters : Z) (q : spec_float) : Z := Z.min (iters - 1) (Z.max 0 (f_to_int64 (fmul q (f_of_Z iters)))).

(** The mean and the interval; [None] is a panic. *)
Definition BootstrapMeanCI (x : list spec_float) (iters : Z) (alpha : spec_float) (seed : Z) : option (spec_float * spec_float * spec_float) :=
  match x with
  | [] => Some (f0, f0, f0)
  | _ =>
      let mean := fdiv (fsum x) (f_of_Z (Z.of_nat (length x))) in
      means ← mapM (resample x seed) (seq 0 (Z.to_nat iters));
      let means := stable_sort less_float means in
      let at_index i := if i <? 0 then None else means !! Z.to_nat i in
      lo ← at_index (quantile_index iters (fdiv alpha (f_of_Z 2)));
      hi ← at_index (quantile_index iters (fsub f1 (fdiv alpha (f_of_Z 2))));
      Some (mean, lo, hi)
  end.

(** *** The interval exists and is ordered *)

Definition draws_in_range : Prop := forall seed n k, 0 < n -> (IntN seed n k < Z.to_nat n)%nat.

Lemma resample_some x seed i : draws_in_range -> x <> [] -> exists m, resample x seed i = Some m.
Proof.
  intros HI Hx. unfold resample.
  assert (exists l, mapM (fun j => x !! IntN seed (Z.of_nat (length x)) (i * length x + j)) (seq 0 (length x)) = Some l) as [l ->]; [|by eexists].
  apply mapM_is_Some_2. apply Forall_forall. intros j _. apply lookup_lt_is_Some_2.
  destruct x as [|y x]; [done|]. specialize (HI seed (Z.of_nat (length (y :: x))) (i * length (y :: x) + j)%nat ltac:(simpl; lia)). lia.
Qed.

Lemma resamples_some x seed k : draws_in_range -> x <> [] -> exists l, mapM (resample x seed) (seq 0 k) = Some l /\ length l = k.
Proof.
  intros HI Hx. assert (is_Some (mapM (resample x seed) (seq 0 k))) as [l Hl].
  { apply mapM_is_Some_2, Forall_forall. intros i _. destruct (resample_some x seed i HI Hx) as [m Hm]. by exists m. }
  exists l. split; [done|]. apply length_mapM in Hl. by rewrite <- Hl, length_seq.
Qed.

Lemma fltb_nan x y : is_nan x = true \/ is_nan y = true -> fltb x y = false.
Proof. unfold fltb, SFltb. intros [Hn|Hn]; [by destruct x|by destruct x, y]. Qed.

Lemma less_float_asym x y : less_float x y = true -> less_float y x = false.
Proof.
  unfold less_float. rewrite orb_true_iff, orb_false_iff, !andb_true_iff, andb_false_iff, !negb_true_iff, !negb_false_iff.
  intros [H|[Hx Hy]].
  - split; [by apply fltb_asym|]. left. apply not_true_iff_false. intros Hn. rewrite fltb_nan in H by auto. done.
  - split; [apply fltb_nan; auto|]. by left.
Qed.

Lemma less_float_trans x y z : less_float y x = false -> less_float z y = false -> less_float z x = false.
Proof.
  unfold less_float. rewrite !orb_false_iff, !andb_false_iff, !negb_false_iff. intros [H1 H2] [H3 H4].
  destruct (is_nan x) eqn:Ex; [split; [apply fltb_nan; auto|by right]|].
  destruct H2 as [Hy|]; [|done]. destruct H4 as [Hz|Hn]; [|congruence]. split; [|by left]. by apply (fltb_false_trans x y z).
Qed.

Lemma sorted_lookup l i j x y : StronglySorted (nle less_float) l -> (i <= j)%nat -> l !! i = Some x -> l !! j = Some y ->
  less_float y x = false.
Proof.
  intros Hs Hij. revert i j Hij. induction Hs as [|z l Hs IH Hall]; intros i j Hij Hi Hj; [done|].
  destruct i as [|i], j as [|j]; simplify_eq/=; try lia.
  - match goal with |- less_float ?a ?a = false => destruct (less_float a a) eqn:E; [|done]; pose proof (less_float_asym _ _ E); congruence end.
  - rewrite Forall_forall in Hall. apply Hall. by apply list_elem_of_lookup_2 in Hj.
  - eapply IH; [|done..]. lia.
Qed.

Lemma quantile_index_range iters q : 0 < iters -> 0 <= quantile_index iters q < iters.
Proof. intros H. unfold quantile_index. generalize (f_to_int64 (fmul q (f_of_Z iters))). intros z. lia. Qed.

Lemma BootstrapMeanCI_interval x iters alpha seed : draws_in_range -> x <> [] -> 0 < iters ->
  quantile_index iters (fdiv alpha (f_of_Z 2)) <= quantile_index iters (fsub f1 (fdiv alpha (f_of_Z 2))) ->
  exists mean lo hi, BootstrapMeanCI x iters alpha seed = Some (mean, lo, hi) /\ less_float hi lo = false.
Proof.
  intros HI Hx Hit Hq. destruct (resamples_some x seed (Z.to_nat iters) HI Hx) as (l & Hl & Hlen).
  unfold BootstrapMeanCI. destruct x as [|y x]; [done|]. rewrite Hl. cbn [mbind option_bind].
  set (a := quantile_index iters (fdiv alpha (f_of_Z 2))) in *. set (b := quantile_index iters (fsub f1 (fdiv alpha (f_of_Z 2)))) in *.
  assert (0 <= a < iters) as Ha by (by apply quantile_index_range). assert (0 <= b < iters) as Hb by (by apply quantile_index_range).
  assert (length (stable_sort less_float l) = Z.to_nat iters) as Hsl by (by rewrite stable_sort_perm).
  destruct (lookup_lt_is_Some_2 (stable_sort less_float l) (Z.to_nat a)) as [lo Hlo]; [lia|].
  destruct (lookup_lt_is_Some_2 (stable_sort less_float l) (Z.to_nat b)) as [hi Hhi]; [lia|].
  replace (a <? 0) with false by (symmetry; apply Z.ltb_ge; lia). replace (b <? 0) with false by (symmetry; apply Z.ltb_ge; lia).
  rewrite Hlo. cbn [mbind option_bind]. rewrite Hhi. cbn [mbind option_bind]. do 3 eexists. split; [done|].
  eapply (sorted_lookup (stable_sort less_float l) (Z.to_nat a) (Z.to_nat b)); [|lia|done|done].
  apply (stable_sort_sorted less_float (fun _ => True)); [by intros; apply less_float_asym|by intros; eapply less_float_trans|by apply Forall_true].
Qed.
End Bootstrap.

(** The counters are the numbers of elements, below 2^53. *)
Lemma tally_exact {A} (p : A -> bool) l : exact_int (Z.of_nat (length l)) -> tally p l = f_of_Z (Z.of_nat (length (List.filter p l))).
Proof.
  intros Hl. unfold tally, for_range.
  assert (forall k, exact_int (k + Z.of_nat (length l)) -> 0 <= k ->
    fold_left (fun c x => if p x then fadd c f1 else c) l (f_of_Z k) = f_of_Z (k + Z.of_nat (length (List.filter p l)))) as H.
  { clear Hl. induction l as [|x l IH]; intros k Hk H0; cbn [fold_left List.filter]; [by rewrite Z.add_0_r|].
    cbn [length] in Hk. destruct (p x).
    - change f1 with (f_of_Z 1). rewrite fadd_exact by (eapply exact_int_le; [|exact Hk]; lia). rewrite IH; [f_equal; cbn [length]; lia| |lia].
      eapply exact_int_le; [|exact Hk]. lia.
    - apply IH; [|done]. eapply exact_int_le; [|exact Hk]. lia. }
  apply (H 0); [done|lia].
Qed.
