(* ===== verification/Evidence.v ===== *)
(** * Evidence and what follows from it (src/internal/proof: agreement.go, tuner.go, monitor.go,
    cache_monitor.go, runner.go, report.go; internal/store/overrides.go; internal/server/proof_admin.go)

    Labels and scores of sampled traffic become a threshold, or an override that takes a
    route back to its safe setting.  The queries over the logged rows are parameters; the
    table of overrides, with its journal, is the state. *)

From S2P Require Import Prelude GoStrings GoFloat GoFloatInt GoSort Config Credentials Overrides Stats.

Open Scope string_scope.
Open Scope list_scope.
Open Scope Z_scope.

(** ** The table of overrides (store/overrides.go) *)

Record ProofEvent := mkEvent { pe_Kind : string; pe_Route : string; pe_Detail : list (string * string); pe_Actor : string }.

(** The primary key is (route, key); the fates of the transactions to come, all commit
    when the list has ended. *)
Record OverrideDB := mkDB { od_rows : gmap (string * string) Override; od_events : list ProofEvent; od_fates : list fate }.

Definition transaction (f : OverrideDB -> OverrideDB) (db : OverrideDB) : option string * OverrideDB :=
  let fs := tail (od_fates db) in
  let with_fates d := mkDB (od_rows d) (od_events d) fs in
  match head (od_fates db) with
  | None | Some Commits => (None, with_fates (f db))
  | Some Refused => (Some db_error, with_fates db)
  | Some Unanswered => (Some db_error, with_fates (f db))
  end.

Definition SetOverride (now : Time) (o : Override) : OverrideDB -> option string * OverrideDB :=
  transaction (fun db =>
    mkDB (<[(ov_Route o, ov_Key o) := mkOverride (ov_Route o) (ov_Key o) (ov_Value o) (ov_Reason o) (ov_Actor o) now]> (od_rows db))
      (od_events db ++ [mkEvent "override" (ov_Route o) [("key", ov_Key o); ("value", ov_Value o); ("reason", ov_Reason o)] (ov_Actor o)])
      (od_fates db)).

Definition ClearOverride (route key actor reason : string) : OverrideDB -> option string * OverrideDB :=
  transaction (fun db =>
    mkDB (delete (route, key) (od_rows db))
      (od_events db ++ [mkEvent "override_cleared" route [("key", key); ("reason", reason)] actor]) (od_fates db)).

(** [ORDER BY route, key], in the order of bytes; no theorem depends on the order. *)
Definition row_before (x y : Override) : bool :=
  String.ltb (ov_Route x) (ov_Route y) || (String.eqb (ov_Route x) (ov_Route y) && String.ltb (ov_Key x) (ov_Key y)).
Definition Overrides (ok : bool) (db : OverrideDB) : string + list Override :=
  if ok then inr (stable_sort row_before (map snd (map_to_list (od_rows db)))) else inl db_error.

(** ** Agreement of the judge with people (agreement.go) *)

Definition DefaultMinPairs : Z := 50.
Definition DefaultMinKappa : spec_float := f_lit 60 100.

Record AgreementResult := mkAgreement { ag_Kappa : spec_float; ag_Pairs : Z; ag_OK : bool; ag_Message : string }.

Definition CheckAgreement (HumanAndJudge : string -> string + list bool * list bool) (route : string) (minPairs : Z) (minKappa : spec_float) :
    string + AgreementResult :=
  let minPairs := if minPairs <=? 0 then DefaultMinPairs else minPairs in
  let minKappa := if fleb minKappa f0 then DefaultMinKappa else minKappa in
  match HumanAndJudge route with
  | inl e => inl e
  | inr (judge, human) =>
      let n := Z.of_nat (length judge) in
      if n <? minPairs then
        inr (mkAgreement f0 n false ("insufficient paired labels (need >= " +:+ itoa minPairs +:+ ", have " +:+ itoa n +:+ ")"))
      else
        match CohenKappa judge human with
        | inl e => inl e
        | inr (kappa, _) =>
            if fltb kappa minKappa then
              inr (mkAgreement kappa n false ("judge agreement too low (kappa=" +:+ format_fixed 2 kappa +:+ " < " +:+ format_fixed 2 minKappa +:+
                "); threshold auto-apply blocked"))
            else inr (mkAgreement kappa n true "")
        end
  end.

(** ** The threshold of the semantic cache (tuner.go) *)

Record LabeledPoint := mkPoint { lp_Similarity : spec_float; lp_Acceptable : bool; lp_Rater : string }.

Record CurvePoint := mkCurve {
  cp_Threshold : spec_float; cp_HitRate : spec_float; cp_FalseHitRate : spec_float; cp_WilsonLower : spec_float; cp_WilsonUpper : spec_float;
  cp_SampleCount : Z }.

Definition round4 (x : spec_float) : spec_float := fdiv (math_Round (fmul x (f_of_Z 10000))) (f_of_Z 10000).

Definition sweep_threshold (step : Z) : spec_float := fdiv (f_of_Z step) (f_of_Z 100).

Definition hits_at (t : spec_float) (sims : list spec_float) : Z := Z.of_nat (length (List.filter (fun s => fgeb s t) sims)).
Definition labeled_at (t : spec_float) (l : list LabeledPoint) : list LabeledPoint := List.filter (fun p => fgeb (lp_Similarity p) t) l.
Definition false_hits (l : list LabeledPoint) : Z := Z.of_nat (length (List.filter (fun p => negb (lp_Acceptable p)) l)).

(** One round of the sweep: the point, and the upper bound it was rounded from. *)
Definition sweep_point (sims : list spec_float) (labeled : list LabeledPoint) (t : spec_float) : CurvePoint * spec_float :=
  let totalQueries := Z.of_nat (length sims) in
  let hitRate := if 0 <? totalQueries then fdiv (f_of_Z (hits_at t sims)) (f_of_Z totalQueries) else f0 in
  let at_t := labeled_at t labeled in
  let nLabeled := Z.of_nat (length at_t) in
  let '(fhr, lo, hi) :=
    if 0 <? nLabeled then
      let '(lo, hi) := Wilson (false_hits at_t) nLabeled z95 in (fdiv (f_of_Z (false_hits at_t)) (f_of_Z nLabeled), lo, hi)
    else (f0, f0, f1) in
  (mkCurve t (round4 hitRate) (round4 fhr) (round4 lo) (round4 hi) nLabeled, hi).

Definition sweep_step (sims : list spec_float) (labeled : list LabeledPoint) (target : spec_float)
    (s : spec_float * bool * list CurvePoint) (step : Z) : spec_float * bool * list CurvePoint :=
  let '(recommended, found, curve) := s in
  let t := sweep_threshold step in
  let '(pt, hi) := sweep_point sims labeled t in
  let take := negb found && (0 <? cp_SampleCount pt) && fleb hi target in
  (if take then t else recommended, found || take, curve ++ [pt]).

Definition sweep_steps : list Z := map (fun i => 70 + Z.of_nat i) (seq 0 29).

Definition TuneCacheFromData (sims : list spec_float) (labeled : list LabeledPoint) (targetFalseHitRate : spec_float) : spec_float * list CurvePoint :=
  let target := if fleb targetFalseHitRate f0 then f_lit 1 100 else targetFalseHitRate in
  let '(recommended, _, curve) := for_range sweep_steps (f_lit 98 100, false, []) (sweep_step sims labeled target) in
  (recommended, curve).

Definition TuneCache (CurveInputs : string -> Time -> string + list spec_float * list LabeledPoint) (now : Time)
    (route : string) (target : spec_float) (since : Time) : string + spec_float * list CurvePoint * Z :=
  let since := if since =? 0 then now - 14 * 24 * hour else since in
  match CurveInputs route since with
  | inl e => inl e
  | inr (sims, labeled) =>
      let '(recommended, curve) := TuneCacheFromData sims labeled target in
      inr (recommended, curve, Z.of_nat (length labeled))
  end.

(** ** The monitors *)

Section Monitors.
Context (IntN : Z -> Z -> nat -> nat)
  (RoutingDeltas : string -> Time -> string + list spec_float)
  (CacheErrorRate : string -> Time -> string + Z * Z)
  (now : Time).

Record MonitorResult := mkMonitor {
  mr_MeanDelta : spec_float; mr_CILow : spec_float; mr_CIHigh : spec_float; mr_Pairs : Z; mr_RollbackNeeded : bool; mr_Message : string }.
Definition no_result : MonitorResult := mkMonitor f0 f0 f0 0 false "".

Definition rollback_override (route key value reason : string) : Override := mkOverride route key value reason "proofgate-monitor" 0.

(** A result and an error; [None] is a panic of the estimator.  [write]: whether there is an
    [OverrideWriter]. *)
Definition MonitorQuality (write : bool) (route : string) (since : Time) (minPairs : Z) (rollbackThreshold : spec_float) (db : OverrideDB) :
    option (MonitorResult * option string * OverrideDB) :=
  let minPairs := if minPairs <=? 0 then 50 else minPairs in
  let rollbackThreshold := if feqb rollbackThreshold f0 then f_lit (-5) 100 else rollbackThreshold in
  let since := if since =? 0 then now - 7 * 24 * hour else since in
  match RoutingDeltas route since with
  | inl e => Some (no_result, Some e, db)
  | inr deltas =>
      let n := Z.of_nat (length deltas) in
      if n <? minPairs then
        Some (mkMonitor f0 f0 f0 n false ("insufficient data (need >= " +:+ itoa minPairs +:+ ", have " +:+ itoa n +:+ ")"), None, db)
      else
        '(mean, ciLow, ciHigh) ← BootstrapMeanCI IntN deltas 2000 (f_lit 5 100) 42;
        if fltb ciHigh rollbackThreshold then
          let msg := "auto_rollback: quality delta CI [" +:+ format_fixed 3 ciLow +:+ ", " +:+ format_fixed 3 ciHigh +:+ "] below " +:+
            format_fixed 2 rollbackThreshold in
          let res := mkMonitor mean ciLow ciHigh n true msg in
          if write then
            let '(err, db) := SetOverride now (rollback_override route "smart_route.mode" "off" msg) db in
            Some (res, option_map (fun e => "write rollback override: " +:+ e) err, db)
          else Some (res, None, db)
        else Some (mkMonitor mean ciLow ciHigh n false "", None, db)
  end.

Record CacheMonitorResult := mkCacheMonitor {
  cm_TotalEvaluated : Z; cm_Unacceptable : Z; cm_ObservedRate : spec_float; cm_WilsonHigh : spec_float; cm_RollbackNeeded : bool; cm_Message : string }.
Definition no_cache_result : CacheMonitorResult := mkCacheMonitor 0 0 f0 f0 false "".

Definition MonitorCacheQuality (write : bool) (route : string) (since : Time) (minEvaluated : Z) (maxErrorRate : spec_float) (db : OverrideDB) :
    CacheMonitorResult * option string * OverrideDB :=
  let minEvaluated := if minEvaluated <=? 0 then 30 else minEvaluated in
  let maxErrorRate := if fleb maxErrorRate f0 then f_lit 2 100 else maxErrorRate in
  let since := if since =? 0 then now - 24 * hour else since in
  match CacheErrorRate route since with
  | inl e => (no_cache_result, Some e, db)
  | inr (total, bad) =>
      if total <? minEvaluated then
        (mkCacheMonitor total bad f0 f0 false
           ("insufficient evaluated cache hits (need >= " +:+ itoa minEvaluated +:+ ", have " +:+ itoa total +:+ ")"), None, db)
      else
        let hi := (Wilson bad total z95).2 in
        let observed := fdiv (f_of_Z bad) (f_of_Z total) in
        if fgtb hi maxErrorRate then
          let msg := "auto_rollback: cache false-hit Wilson 95% upper bound [" +:+ format_fixed 3 hi +:+ "] exceeds max acceptable [" +:+
            format_fixed 3 maxErrorRate +:+ "]" in
          let res := mkCacheMonitor total bad observed hi true msg in
          if write then
            let '(err, db) := SetOverride now (rollback_override route "cache.mode" "shadow" msg) db in
            (res, option_map (fun e => "write cache rollback override: " +:+ e) err, db)
          else (res, None, db)
        else (mkCacheMonitor total bad observed hi false "", None, db)
  end.

(** One route of the loop of [MonitorAllRoutes]. *)
Definition monitor_route (cfg : ProofConfig) (r : RouteConfig) (s : list string * OverrideDB) : option (list string * OverrideDB) :=
  let with_error what (e : option string) (errs : list string) :=
    match e with Some e => errs ++ ["route " +:+ rc_Name r +:+ " " +:+ what +:+ " monitor: " +:+ e] | None => errs end in
  s ← (if String.eqb (sr_Mode (rc_SmartRoute r)) "on" then
         '(_, err, db) ← MonitorQuality true (rc_Name r) 0 (pf_MinPairs cfg) (pf_RollbackThreshold cfg) s.2;
         Some (with_error "smart_route" err s.1, db)
       else Some s);
  if String.eqb (cc_Mode (rc_Cache r)) "on" then
    let '(_, err, db) := MonitorCacheQuality true (rc_Name r) 0 30 (f_lit 2 100) s.2 in
    Some (with_error "cache" err s.1, db)
  else Some s.

Fixpoint monitor_routes (cfg : ProofConfig) (routes : list RouteConfig) (s : list string * OverrideDB) : option (list string * OverrideDB) :=
  match routes with
  | [] => Some s
  | r :: rs => s ← monitor_route cfg r s; monitor_routes cfg rs s
  end.

Definition MonitorAllRoutes (cfg : ProofConfig) (routes : list RouteConfig) (db : OverrideDB) : option (option string * OverrideDB) :=
  '(errs, db) ← monitor_routes cfg routes ([], db);
  Some (match errs with [] => None | _ => Some ("monitor errors: [" +:+ join " " errs +:+ "]") end, db).

(** A tick of [RunMonitor]. *)
Definition monitor_tick (isLeader : bool) (cfg : ProofConfig) (routes : list RouteConfig) (db : OverrideDB) : option OverrideDB :=
  if isLeader then '(_, db) ← MonitorAllRoutes cfg routes db; Some db else Some db.

(** ** The report of savings (report.go) *)

Record SavingsReport := mkSavings {
  sv_Route : string; sv_Requests : Z; sv_ActualUSD : spec_float; sv_CounterfactualUSD : spec_float; sv_DollarsSavedUSD : spec_float;
  sv_PercentSaved : spec_float; sv_CheapShare : spec_float; sv_MeanDelta : spec_float; sv_CILow : spec_float; sv_CIHigh : spec_float }.

Definition round2 (x : spec_float) : spec_float := fdiv (math_Round (fmul x (f_of_Z 100))) (f_of_Z 100).

Definition GenerateSavingsReport (RoutingSavings : string -> Time -> string + Z * Z * spec_float * Z) (deltasStore : bool)
    (route : string) (since : Time) (db : OverrideDB) : option (string + SavingsReport) :=
  let since := if since =? 0 then now - 30 * 24 * hour else since in
  match RoutingSavings route since with
  | inl e => Some (inl e)
  | inr (actual, counterfactual, cheapShare, n) =>
      let usd x := fdiv (f_of_Z x) (f_of_Z 1000000) in
      let saved := wrap64 (counterfactual - actual) in
      let pctSaved := if 0 <? counterfactual then fmul (fdiv (f_of_Z saved) (f_of_Z counterfactual)) (f_of_Z 100) else f0 in
      let rep mean lo hi := mkSavings route n (round4 (usd actual)) (round4 (usd counterfactual)) (round4 (usd saved)) (round2 pctSaved) (round4 cheapShare) mean lo hi in
      if deltasStore then
        '(res, err, _) ← MonitorQuality false route since 10 (f_lit (-5) 100) db;
        match err with
        | None => if 0 <? mr_Pairs res then Some (inr (rep (round4 (mr_MeanDelta res)) (round4 (mr_CILow res)) (round4 (mr_CIHigh res))))
                  else Some (inr (rep f0 f0 f0))
        | Some _ => Some (inr (rep f0 f0 f0))
        end
      else Some (inr (rep f0 f0 f0))
  end.
End Monitors.

(** ** Calibration endpoints (server/proof_admin.go) *)

Section Endpoints.
(** A request: what it carries, the decoder of its body applied (its error is ignored). *)
Record CalibrationRequest := mkCalibration {
  ca_AdminKey : string;                                   (* X-ProofGate-Admin-Key *)
  ca_Authorization : string;
  ca_query : string -> string;
  ca_isPost : bool;
  ca_body : option (option (string * spec_float)) }.      (* no body; undecodable; route and threshold *)

Definition authorize (AdminKey : string) (r : CalibrationRequest) : bool :=
  String.eqb AdminKey "" || String.eqb (ca_AdminKey r) AdminKey ||
  (has_prefix "Bearer " (ca_Authorization r) && String.eqb (trim_prefix (ca_Authorization r) "Bearer ") AdminKey).

(** The answers: a status with an error, or what is encoded. *)
Record CacheCurveResponse := mkCurveResponse {
  cv_Route : string; cv_Recommended : spec_float; cv_Target : spec_float; cv_DataPoints : Z; cv_Curve : list CurvePoint }.

Definition CacheCurve (CurveInputs : string -> Time -> string + list spec_float * list LabeledPoint) (now : Time) (AdminKey : string) (r : CalibrationRequest) :
    Z * string + CacheCurveResponse :=
  if negb (authorize AdminKey r) then inl (401, "unauthorized")
  else
    let route := ca_query r "route" in
    if String.eqb route "" then inl (400, "route query parameter is required")
    else
      let targetFHR := match ParseFloat (ca_query r "target_fhr") with Some v => if fgtb v f0 then v else f_lit 1 100 | None => f_lit 1 100 end in
      match TuneCache CurveInputs now route targetFHR 0 with
      | inl e => inl (500, e)
      | inr (rec, curve, n) => inr (mkCurveResponse route rec targetFHR n curve)
      end.

Record CacheApplyResponse := mkApply { ap_Status : string; ap_Route : string; ap_CacheMode : string; ap_CacheThreshold : spec_float }.

(** The route and the threshold that the request asks for. *)
Definition apply_inputs (r : CalibrationRequest) : string * spec_float :=
  let '(route, threshold) :=
    match ca_body r with
    | Some (Some (br, bt)) =>
        if ca_isPost r then (if String.eqb br "" then ca_query r "route" else br, if fgtb bt f0 then bt else f0) else (ca_query r "route", f0)
    | _ => (ca_query r "route", f0)
    end in
  (route, if feqb threshold f0 then default threshold (ParseFloat (ca_query r "threshold")) else threshold).

(** [setter]: whether there is an override store; the handler's answer with the number of
    calls of [OnReload]. *)
Definition CacheApply (now : Time) (AdminKey : string) (setter : bool) (r : CalibrationRequest) (db : OverrideDB) :
    (Z * string + CacheApplyResponse) * nat * OverrideDB :=
  if negb (authorize AdminKey r) then (inl (401, "unauthorized"), 0%nat, db)
  else
    let '(route, threshold) := apply_inputs r in
    if String.eqb route "" then (inl (400, "route is required"), 0%nat, db)
    else if fltb threshold (f_lit 50 100) || fgtb threshold f1 then (inl (400, "threshold must be between 0.50 and 1.00"), 0%nat, db)
    else if negb setter then (inl (500, "override store not available"), 0%nat, db)
    else
      match SetOverride now (mkOverride route "cache.mode" "on" "calibrated threshold applied" "admin" 0) db with
      | (Some e, db) => (inl (500, e), 0%nat, db)
      | (None, db) =>
          match SetOverride now (mkOverride route "cache.threshold" (format_fixed 4 threshold) "calibrated threshold applied" "admin" 0) db with
          | (Some e, db) => (inl (500, e), 0%nat, db)
          | (None, db) => (inr (mkApply "applied" route "on" threshold), 1%nat, db)
          end
      end.
End Endpoints.

(** ** The sweep *)

(** Whether the labels at or above a threshold bound its false hits by the target. *)
Definition qualifies (sims : list spec_float) (labeled : list LabeledPoint) (target : spec_float) (step : Z) : bool :=
  let '(pt, hi) := sweep_point sims labeled (sweep_threshold step) in (0 <? cp_SampleCount pt) && fleb hi target.

Definition sweep (sims : list spec_float) (labeled : list LabeledPoint) (target : spec_float) (steps : list Z) : spec_float * bool * list CurvePoint :=
  for_range steps (f_lit 98 100, false, []) (sweep_step sims labeled target).

Lemma sweep_snoc sims labeled target steps x : sweep sims labeled target (steps ++ [x]) = sweep_step sims labeled target (sweep sims labeled target steps) x.
Proof. unfold sweep, for_range. by rewrite fold_left_app. Qed.

Lemma sweep_spec sims labeled target steps :
  let '(rec, found, curve) := sweep sims labeled target steps in
  curve = map (fun x => (sweep_point sims labeled (sweep_threshold x)).1) steps /\
  match List.find (qualifies sims labeled target) steps with
  | Some x => found = true /\ rec = sweep_threshold x
  | None => found = false /\ rec = f_lit 98 100
  end.
Proof.
  induction steps as [|x steps IH] using rev_ind; [done|]. rewrite sweep_snoc.
  destruct (sweep sims labeled target steps) as [[rec found] curve]. destruct IH as [-> IH].
  unfold sweep_step. rewrite map_app. cbn [map]. unfold qualifies in *.
  assert (forall p : Z -> bool, List.find p (steps ++ [x]) = match List.find p steps with Some y => Some y | None => if p x then Some x else None end) as Hf.
  { intros p. clear. induction steps as [|y steps IH]; cbn; [done|]. by destruct (p y). }
  rewrite Hf. destruct (sweep_point sims labeled (sweep_threshold x)) as [pt hi]. cbn [fst].
  destruct (List.find _ steps) as [y|]; destruct IH as [-> ->]; cbn [negb andb orb]; [done|].
  by destruct ((0 <? cp_SampleCount pt) && fleb hi target).
Qed.

Lemma sweep_thresholds_increase : forall i j, (i < j < 29)%nat -> fleb (sweep_threshold (70 + Z.of_nat i)) (sweep_threshold (70 + Z.of_nat j)) = true.
Proof.
  assert (forallb (fun j => forallb (fun i => fleb (sweep_threshold (70 + Z.of_nat i)) (sweep_threshold (70 + Z.of_nat j))) (seq 0 j)) (seq 0 29) = true)
    as Hall by (vm_compute; reflexivity).
  intros i j Hij. rewrite forallb_forall in Hall. specialize (Hall j ltac:(apply in_seq; lia)). rewrite forallb_forall in Hall. apply Hall, in_seq. lia.
Qed.

Lemma fleb_nan_l x y : fleb x y = true -> is_nan x = false /\ is_nan y = false.
Proof. unfold fleb, SFleb. by destruct x, y. Qed.

Lemma fleb_trans x y z : fleb x y = true -> fleb y z = true -> fleb x z = true.
Proof.
  intros H1 H2. destruct (fleb_nan_l _ _ H1), (fleb_nan_l _ _ H2). rewrite fleb_fltb in * by done. rewrite negb_true_iff in *.
  by apply (fltb_false_trans x y z).
Qed.

(** Fewer labels at a higher threshold. *)
Lemma labeled_at_antitone t t' l : fleb t t' = true -> (length (labeled_at t' l) <= length (labeled_at t l))%nat.
Proof.
  intros Ht. unfold labeled_at. induction l as [|p l IH]; [done|]. cbn [List.filter].
  destruct (fgeb (lp_Similarity p) t') eqn:E; [|destruct (fgeb (lp_Similarity p) t); cbn [length]; lia].
  unfold fgeb in *. change (SFleb t' (lp_Similarity p)) with (fleb t' (lp_Similarity p)) in E.
  change (SFleb t (lp_Similarity p)) with (fleb t (lp_Similarity p)). rewrite (fleb_trans t t' (lp_Similarity p)) by done. cbn [length]. lia.
Qed.

Lemma sweep_point_count sims labeled t : cp_SampleCount (sweep_point sims labeled t).1 = Z.of_nat (length (labeled_at t labeled)).
Proof.
  unfold sweep_point. destruct (0 <? Z.of_nat (length (labeled_at t labeled))); [|done]. by destruct (Wilson _ _ _).
Qed.

(** The recommended threshold is the lowest of the sweep, 0.70 to 0.98, whose labels bound
    the rate of false hits by the target (with at least one label at or above it, by the upper
    end of the Wilson interval); when there is none it is 0.98.  The curve has one point per
    threshold, and the labels behind a point never increase with the threshold. *)
Theorem tuned_threshold_sound (sims : list spec_float) (labeled : list LabeledPoint) (targetFalseHitRate : spec_float) :
  let target := if fleb targetFalseHitRate f0 then f_lit 1 100 else targetFalseHitRate in
  let '(rec, curve) := TuneCacheFromData sims labeled targetFalseHitRate in
  curve = map (fun x => (sweep_point sims labeled (sweep_threshold x)).1) sweep_steps /\
  (forall i j pi pj, (i < j)%nat -> curve !! i = Some pi -> curve !! j = Some pj -> cp_SampleCount pj <= cp_SampleCount pi) /\
  ((exists i, (i < 29)%nat /\ rec = sweep_threshold (70 + Z.of_nat i) /\ qualifies sims labeled target (70 + Z.of_nat i) = true /\
      forall j, (j < i)%nat -> qualifies sims labeled target (70 + Z.of_nat j) = false) \/
   (rec = f_lit 98 100 /\ forall j, (j < 29)%nat -> qualifies sims labeled target (70 + Z.of_nat j) = false)).
Proof.
  intros target. unfold TuneCacheFromData. fold target. pose proof (sweep_spec sims labeled target sweep_steps) as H. unfold sweep in H.
  destruct (for_range _ _ _) as [[rec found] curve]. destruct H as [-> Hf]. split; [done|]. split.
  - intros i j pi pj Hij Hi Hj. unfold sweep_steps in *. rewrite !list_lookup_fmap in *.
    apply fmap_Some in Hi as (xi & Hi & ->), Hj as (xj & Hj & ->). apply fmap_Some in Hi as (ki & Hi & ->), Hj as (kj & Hj & ->).
    apply lookup_seq in Hi as [-> Hi], Hj as [-> Hj]. rewrite !sweep_point_count. apply inj_le, labeled_at_antitone, sweep_thresholds_increase. lia.
  - destruct (List.find _ _) as [x|] eqn:Ef; destruct Hf as [_ ->].
    + left. unfold sweep_steps in Ef. revert Ef. generalize 29%nat at 1 2. intros n.
      assert (forall k, List.find (qualifies sims labeled target) (map (fun i => 70 + Z.of_nat i) (seq k n)) = Some x ->
        exists i, (k <= i < k + n)%nat /\ sweep_threshold x = sweep_threshold (70 + Z.of_nat i) /\ qualifies sims labeled target (70 + Z.of_nat i) = true /\
          forall j, (k <= j < i)%nat -> qualifies sims labeled target (70 + Z.of_nat j) = false) as Hk.
      { induction n as [|n IH]; intros k; cbn [seq map List.find]; [done|]. destruct (qualifies _ _ _ _) eqn:Eq.
        - intros [= <-]. exists k. split_and!; [lia|lia|done|done|]. intros j Hj. lia.
        - intros Hn. destruct (IH (S k) Hn) as (i & Hi & H1 & H2 & H3). exists i. split_and!; [lia|lia|done|done|].
          intros j Hj. destruct (decide (j = k)) as [->|]; [done|]. apply H3. lia. }
      intros Ef. destruct (Hk 0%nat Ef) as (i & Hi & H1 & H2 & H3). exists i. split_and!; [lia|done|done|]. intros j Hj. apply H3. lia.
    + right. split; [done|]. intros j Hj. apply (find_none _ _ Ef). apply in_map_iff. exists j. split; [done|]. apply in_seq. lia.
Qed.


(** ** What the monitors write *)

(** The setting that a rollback gives a key. *)
Definition safe_value (key : string) : string := if String.eqb key "smart_route.mode" then "off" else "shadow".

Definition rolled_back (now : Time) (m : gmap (string * string) Override) (k : string * string) : Prop :=
  exists reason, m !! k = Some (mkOverride k.1 k.2 (safe_value k.2) reason "proofgate-monitor" now).

(** Every row is under its own key, as in a table with a primary key. *)
Definition rows_keyed (m : gmap (string * string) Override) : Prop := forall k o, m !! k = Some o -> (ov_Route o, ov_Key o) = k.

(** Rows change by justified rollbacks only. *)
Record rolls (now : Time) (J : string -> string -> Prop) (db db' : OverrideDB) : Prop := mkRolls {
  ro_rows : forall k, od_rows db' !! k = od_rows db !! k \/ (J k.1 k.2 /\ rolled_back now (od_rows db') k);
  ro_fates : od_fates db = [] -> od_fates db' = [] }.

Lemma rolls_refl now J db : rolls now J db db.
Proof. split; [by left|done]. Qed.

Lemma rolls_trans now J db1 db2 db3 : rolls now J db1 db2 -> rolls now J db2 db3 -> rolls now J db1 db3.
Proof.
  intros [H1 F1] [H2 F2]. split; [|auto]. intros k. destruct (H2 k) as [E|[? ?]]; [|by right]. destruct (H1 k) as [E'|[? [reason E']]]; [left; congruence|].
  right. split; [done|]. exists reason. congruence.
Qed.

Lemma rolls_stay now J db db' k : rolls now J db db' -> rolled_back now (od_rows db) k -> rolled_back now (od_rows db') k.
Proof. intros [H _] [reason E]. destruct (H k) as [E'|[_ ?]]; [|done]. exists reason. congruence. Qed.

Lemma rolls_keyed now J db db' : rolls now J db db' -> rows_keyed (od_rows db) -> rows_keyed (od_rows db').
Proof.
  intros [H _] Hk k o Ho. destruct (H k) as [E|[_ [reason E]]]; [apply Hk; congruence|]. rewrite E in Ho. injection Ho as <-. by destruct k.
Qed.

Lemma SetOverride_rolls now (J : string -> string -> Prop) route key reason db :
  J route key ->
  let '(err, db') := SetOverride now (rollback_override route key (safe_value key) reason) db in
  rolls now J db db' /\ (od_fates db = [] -> err = None /\ rolled_back now (od_rows db') (route, key)).
Proof.
  intros HJ. unfold SetOverride, transaction.
  set (row := mkOverride route key (safe_value key) reason "proofgate-monitor" now).
  assert (forall k, <[(route, key):=row]> (od_rows db) !! k = od_rows db !! k \/ (J k.1 k.2 /\ rolled_back now (<[(route, key):=row]> (od_rows db)) k)) as Hrow.
  { intros k. destruct (decide (k = (route, key))) as [->|Hne]; [|left; by rewrite lookup_insert_ne].
    right. split; [done|]. exists reason. by rewrite lookup_insert_eq. }
  destruct (od_fates db) as [|[] fs] eqn:Ef; cbn [head tail]; (split; [split|]); cbn [od_rows od_fates]; try done; try (intros; by left); try (by rewrite Ef).
  intros _. split; [done|]. exists reason. by rewrite lookup_insert_eq.
Qed.

Section Pass.
Context (IntN : Z -> Z -> nat -> nat) (RoutingDeltas : string -> Time -> string + list spec_float)
  (CacheErrorRate : string -> Time -> string + Z * Z) (now : Time) (cfg : ProofConfig).

(** The evidence against cheap routing of a route: enough scored pairs of the last week, and
    the upper end of the interval of their mean below the threshold. *)
Definition routing_evidence (route : string) : Prop :=
  exists deltas mean lo hi, RoutingDeltas route (now - 7 * 24 * hour) = inr deltas /\
    (if pf_MinPairs cfg <=? 0 then 50 else pf_MinPairs cfg) <= Z.of_nat (length deltas) /\
    BootstrapMeanCI IntN deltas 2000 (f_lit 5 100) 42 = Some (mean, lo, hi) /\
    fltb hi (if feqb (pf_RollbackThreshold cfg) f0 then f_lit (-5) 100 else pf_RollbackThreshold cfg) = true.

(** The evidence against the semantic cache of a route: thirty labels of the last day, and
    the upper end of the Wilson interval of the false hits above 2 %. *)
Definition cache_evidence (route : string) : Prop :=
  exists total bad, CacheErrorRate route (now - 24 * hour) = inr (total, bad) /\ 30 <= total /\ fgtb (Wilson bad total z95).2 (f_lit 2 100) = true.

(** A rollback is due on a setting of one of the routes. *)
Definition due (routes : list RouteConfig) (route key : string) : Prop :=
  exists r, r ∈ routes /\ rc_Name r = route /\
    ((key = "smart_route.mode" /\ sr_Mode (rc_SmartRoute r) = "on" /\ routing_evidence route) \/
     (key = "cache.mode" /\ cc_Mode (rc_Cache r) = "on" /\ cache_evidence route)).

Lemma MonitorQuality_rolls route db res err db' (J : string -> string -> Prop) :
  (routing_evidence route -> J route "smart_route.mode") ->
  MonitorQuality IntN RoutingDeltas now true route 0 (pf_MinPairs cfg) (pf_RollbackThreshold cfg) db = Some (res, err, db') ->
  rolls now J db db' /\ (od_fates db = [] -> routing_evidence route -> rolled_back now (od_rows db') (route, "smart_route.mode")).
Proof.
  intros HJ. unfold MonitorQuality. cbn [Z.eqb]. destruct (RoutingDeltas _ _) as [e|deltas] eqn:Ed.
  - intros [= <- <- <-]. split; [apply rolls_refl|]. intros _ (deltas & ? & ? & ? & ? & _). congruence.
  - destruct (_ <? _) eqn:En.
    { intros [= <- <- <-]. split; [apply rolls_refl|]. intros _ (ds & ? & ? & ? & E & ? & _). assert (ds = deltas) as -> by congruence. apply Z.ltb_lt in En. lia. }
    destruct (BootstrapMeanCI _ _ _ _ _) as [[[mean lo] hi]|] eqn:Eb; cbn [mbind option_bind]; [|done].
    destruct (fltb hi _) eqn:Eh.
    + assert (routing_evidence route) as He by (exists deltas, mean, lo, hi; apply Z.ltb_ge in En; by split_and!).
      match goal with |- context [rollback_override _ _ _ ?msg] => pose proof (SetOverride_rolls now J route "smart_route.mode" msg db (HJ He)) as Hs end.
      change (safe_value "smart_route.mode") with "off" in Hs. destruct (SetOverride _ _ _) as [e d]. intros [= <- <- <-].
      destruct Hs as [? Hs]. split; [done|]. intros Hf _. by apply Hs.
    + intros [= <- <- <-]. split; [apply rolls_refl|]. intros _ (ds & m & l & h & E & ? & ? & ?). assert (ds = deltas) as -> by congruence. congruence.
Qed.

Lemma MonitorCacheQuality_rolls route db res err db' (J : string -> string -> Prop) :
  (cache_evidence route -> J route "cache.mode") ->
  MonitorCacheQuality CacheErrorRate now true route 0 30 (f_lit 2 100) db = (res, err, db') ->
  rolls now J db db' /\ (od_fates db = [] -> cache_evidence route -> rolled_back now (od_rows db') (route, "cache.mode")).
Proof.
  intros HJ. unfold MonitorCacheQuality. change (fleb (f_lit 2 100) f0) with false. cbn [Z.eqb Z.leb Z.compare].
  destruct (CacheErrorRate _ _) as [e|[total bad]] eqn:Ed.
  - intros [= <- <- <-]. split; [apply rolls_refl|]. intros _ (? & ? & ? & _). congruence.
  - destruct (total <? 30) eqn:En.
    { intros [= <- <- <-]. split; [apply rolls_refl|]. intros _ (t & b & E & ? & _). assert (t = total) as -> by congruence. apply Z.ltb_lt in En. lia. }
    destruct (fgtb _ _) eqn:Eh.
    + assert (cache_evidence route) as He by (exists total, bad; apply Z.ltb_ge in En; by split_and!).
      match goal with |- context [rollback_override _ _ _ ?msg] => pose proof (SetOverride_rolls now J route "cache.mode" msg db (HJ He)) as Hs end.
      change (safe_value "cache.mode") with "shadow" in Hs. destruct (SetOverride _ _ _) as [e d]. intros Hout. apply (f_equal snd) in Hout. cbn [snd] in Hout. subst d.
      destruct Hs as [? Hs]. split; [done|]. intros Hf _. by apply Hs.
    + intros Hout. apply (f_equal snd) in Hout. cbn [snd] in Hout. subst db'. split; [apply rolls_refl|]. intros _ (t & b & E & ? & ?). congruence.
Qed.

Lemma monitor_route_rolls r s s' (J : string -> string -> Prop) :
  (forall key, due [r] (rc_Name r) key -> J (rc_Name r) key) ->
  monitor_route IntN RoutingDeltas CacheErrorRate now cfg r s = Some s' ->
  rolls now J s.2 s'.2 /\ (od_fates s.2 = [] -> forall key, due [r] (rc_Name r) key -> rolled_back now (od_rows s'.2) (rc_Name r, key)).
Proof.
  intros HJ. unfold monitor_route.
  destruct (String.eqb (sr_Mode (rc_SmartRoute r)) "on") eqn:Es.
  - apply String.eqb_eq in Es. destruct (MonitorQuality _ _ _ _ _ _ _ _ _) as [[[res err] db1]|] eqn:Em; cbn [mbind option_bind]; [|done].
    apply (MonitorQuality_rolls _ _ _ _ _ J) in Em as [R1 W1]; [|intros He; apply HJ; exists r; split_and!; [by left|done|by left]]. cbn [snd fst].
    destruct (String.eqb (cc_Mode (rc_Cache r)) "on") eqn:Ec.
    + apply String.eqb_eq in Ec. destruct (MonitorCacheQuality _ _ _ _ _ _ _ _) as [[res2 err2] db2] eqn:Em2. intros [= <-]. cbn [snd].
      apply (MonitorCacheQuality_rolls _ _ _ _ _ J) in Em2 as [R2 W2]; [|intros He; apply HJ; exists r; split_and!; [by left|done|by right]].
      split; [by eapply rolls_trans|]. intros Hf key (r0 & Hr & Hn & Hk). apply list_elem_of_singleton in Hr as ->.
      destruct Hk as [(-> & _ & He)|(-> & _ & He)]; [eapply rolls_stay; [exact R2|by apply W1]|apply W2; [by apply (ro_fates _ _ _ _ R1)|done]].
    + apply String.eqb_neq in Ec. intros [= <-]. cbn [snd]. split; [done|]. intros Hf key (r0 & Hr & Hn & Hk).
      apply list_elem_of_singleton in Hr as ->. destruct Hk as [(-> & _ & He)|(-> & ? & He)]; [by apply W1|done].
  - apply String.eqb_neq in Es. cbn [mbind option_bind]. destruct (String.eqb (cc_Mode (rc_Cache r)) "on") eqn:Ec.
    + apply String.eqb_eq in Ec. destruct (MonitorCacheQuality _ _ _ _ _ _ _ _) as [[res2 err2] db2] eqn:Em2. intros [= <-]. cbn [snd].
      apply (MonitorCacheQuality_rolls _ _ _ _ _ J) in Em2 as [R2 W2]; [|intros He; apply HJ; exists r; split_and!; [by left|done|by right]].
      split; [done|]. intros Hf key (r0 & Hr & Hn & Hk). apply list_elem_of_singleton in Hr as ->.
      destruct Hk as [(-> & ? & He)|(-> & _ & He)]; [done|by apply W2].
    + apply String.eqb_neq in Ec. intros [= <-]. split; [apply rolls_refl|]. intros Hf key (r0 & Hr & Hn & Hk).
      apply list_elem_of_singleton in Hr as ->. by destruct Hk as [(-> & ? & He)|(-> & ? & He)].
Qed.

Lemma due_cons r rs route key : due (r :: rs) route key <-> due [r] route key \/ due rs route key.
Proof.
  unfold due. split.
  - intros (r0 & Hr & H). apply elem_of_cons in Hr as [->|Hr]; [left; exists r|right; exists r0]; (split; [|done]); [by left|done].
  - intros [(r0 & Hr & H)|(r0 & Hr & H)]; exists r0; (split; [|done]); [apply list_elem_of_singleton in Hr as ->; by left|by right].
Qed.

Lemma due_name r route key : due [r] route key -> route = rc_Name r.
Proof. intros (r0 & Hr & <- & _). by apply list_elem_of_singleton in Hr as ->. Qed.

Lemma monitor_routes_rolls routes s s' (J : string -> string -> Prop) :
  (forall route key, due routes route key -> J route key) ->
  monitor_routes IntN RoutingDeltas CacheErrorRate now cfg routes s = Some s' ->
  rolls now J s.2 s'.2 /\ (od_fates s.2 = [] -> forall route key, due routes route key -> rolled_back now (od_rows s'.2) (route, key)).
Proof.
  revert s. induction routes as [|r rs IH]; intros s HJ; cbn [monitor_routes].
  - intros [= <-]. split; [apply rolls_refl|]. intros _ route key (r & Hr & _). by apply not_elem_of_nil in Hr.
  - destruct (monitor_route _ _ _ _ _ _ _) as [s1|] eqn:E1; cbn [mbind option_bind]; [|done]. intros E2.
    apply (monitor_route_rolls _ _ _ J) in E1 as [R1 W1]; [|intros key Hk; apply HJ, due_cons; by left].
    apply IH in E2 as [R2 W2]; [|intros; apply HJ, due_cons; by right].
    split; [by eapply rolls_trans|]. intros Hf route key Hk. apply due_cons in Hk as [Hk|Hk]; [|apply W2; [by apply (ro_fates _ _ _ _ R1)|done]].
    eapply rolls_stay; [exact R2|]. pose proof (due_name _ _ _ Hk) as ->. by apply W1.
Qed.
End Pass.

(** Reading the table: all rows, each key once. *)
Lemma Overrides_rows db ovs : rows_keyed (od_rows db) -> Overrides true db = inr ovs ->
  NoDup (map (fun o => (ov_Route o, ov_Key o)) ovs) /\ forall k o, od_rows db !! k = Some o -> o ∈ ovs.
Proof.
  intros Hk. unfold Overrides. intros [= <-].
  assert (stable_sort row_before (map snd (map_to_list (od_rows db))) ≡ₚ map snd (map_to_list (od_rows db))) as Hp by apply stable_sort_perm.
  split.
  - eapply (proj2 (NoDup_Permutation_proper _ _ (Permutation_map _ Hp))). rewrite map_map.
    replace (map _ (map_to_list (od_rows db))) with (map_to_list (od_rows db)).*1; [apply NoDup_fst_map_to_list|].
    apply map_ext_in. intros [k o] Hin. apply list_elem_of_In, elem_of_map_to_list in Hin. cbn. by rewrite (Hk _ _ Hin).
  - intros k o Ho. rewrite Hp. apply list_elem_of_fmap. exists (k, o). split; [done|]. by apply elem_of_map_to_list.
Qed.

(** C29. A pass of the monitors writes rollbacks only: a row of the table that differs afterwards
    is the safe setting of a route whose evidence asks for it.  When the writes commit, a
    configuration to which the table is then applied has smart routing off, and the cache in
    shadow mode, on every route for which this is due, whatever else the table holds. *)
Theorem rollback_takes_effect (IntN : Z -> Z -> nat -> nat) (RoutingDeltas : string -> Time -> string + list spec_float)
  (CacheErrorRate : string -> Time -> string + Z * Z) (now : Time) (pcfg : ProofConfig) (routes : list RouteConfig)
  (base : Config) (db db' : OverrideDB) (err : option string) (ovs : list Override) :
  let due := due IntN RoutingDeltas CacheErrorRate now pcfg routes in
  rows_keyed (od_rows db) -> MonitorAllRoutes IntN RoutingDeltas CacheErrorRate now pcfg routes db = Some (err, db') ->
  (forall k, od_rows db' !! k = od_rows db !! k \/ (due k.1 k.2 /\ rolled_back now (od_rows db') k)) /\
  (od_fates db = [] -> Overrides true db' = inr ovs -> NoDup (map rc_Name (Routes base)) ->
   forall i r, Routes base !! i = Some r -> exists r', Routes (ApplyOverrides base ovs).1 !! i = Some r' /\
     (due (rc_Name r) "smart_route.mode" -> sr_Mode (rc_SmartRoute r') = "off") /\
     (due (rc_Name r) "cache.mode" -> cc_Mode (rc_Cache r') = "shadow")).
Proof.
  intros due Hk. unfold MonitorAllRoutes. destruct (monitor_routes _ _ _ _ _ _ _) as [[errs d]|] eqn:Em; cbn [mbind option_bind]; [|done].
  intros Hd. apply (f_equal (fmap snd)) in Hd. cbn in Hd. injection Hd as ->.
  apply (monitor_routes_rolls _ _ _ _ _ _ _ _ due) in Em as [R W]; [|done]. cbn [snd] in R, W. split; [by apply R|].
  intros Hf Ho Hn i r Hi. pose proof (rolls_keyed _ _ _ _ R Hk) as Hk'. destruct (Overrides_rows _ _ Hk' Ho) as [Hnd Hall].
  pose proof (ApplyOverrides_tuned base ovs) as Ht. destruct (Forall2_lookup_l _ _ _ _ _ Ht Hi) as (r' & Hr' & _).
  exists r'. split_and!; [done| |]; intros Hdue; destruct (W Hf _ _ Hdue) as [reason Hrow].
  - destruct (override_decides _ _ smart_mode_decided smart_mode_kept base ovs _ i r Hn Hnd (Hall _ _ Hrow)) as (r2 & H2 & Hg); [done..|].
    rewrite Hr' in H2. by injection H2 as <-.
  - destruct (override_decides _ _ cache_mode_decided cache_mode_kept base ovs _ i r Hn Hnd (Hall _ _ Hrow)) as (r2 & H2 & Hg); [done..|].
    rewrite Hr' in H2. by injection H2 as <-.
Qed.

(** ** Examples, witnesses and what the thresholds mean *)

(** With at most 188 labels the upper end of the interval is above 2 % even without a single
    false hit: a cache that answers without a fault is taken back to shadow mode, from the
    thirtieth label of the day on. *)
Theorem spotless_cache_rolled_back (CacheErrorRate : string -> Time -> string + Z * Z) (now : Time) (write : bool) (route : string) (total : Z) (db : OverrideDB) :
  CacheErrorRate route (now - 24 * hour) = inr (total, 0) -> 30 <= total <= 188 ->
  cm_RollbackNeeded (MonitorCacheQuality CacheErrorRate now write route 0 30 (f_lit 2 100) db).1.1 = true.
Proof.
  intros Hr Ht. unfold MonitorCacheQuality. change (fleb (f_lit 2 100) f0) with false. cbn [Z.eqb Z.leb Z.compare]. rewrite Hr.
  rewrite (proj2 (Z.ltb_ge total 30)) by lia.
  assert (forallb (fun k => fgtb (Wilson 0 (30 + Z.of_nat k) z95).2 (f_lit 2 100)) (seq 0 159) = true) as Hall by (vm_compute; reflexivity).
  rewrite forallb_forall in Hall. specialize (Hall (Z.to_nat (total - 30)) ltac:(apply in_seq; lia)).
  replace (30 + Z.of_nat (Z.to_nat (total - 30))) with total in Hall by lia. rewrite Hall.
  destruct write; [destruct (SetOverride _ _ _)|]; reflexivity.
Qed.

Example more_labels_ex : fgtb (Wilson 0 189 z95).2 (f_lit 2 100) = false.
Proof. vm_compute. reflexivity. Qed.

Definition nan_request : CalibrationRequest :=
  mkCalibration "" "" (fun k => if String.eqb k "route" then "chat" else if String.eqb k "threshold" then "NaN" else "") true None.

(** The range test of the endpoint lets a NaN through as well, and the row it writes is one
    that [ApplyOverrides] takes. *)
Theorem nan_threshold_is_applied :
  let '(out, reloads, db) := CacheApply 0 "" true nan_request (mkDB ∅ [] []) in
  reloads = 1%nat /\ (exists a, out = inr a /\ is_nan (ap_CacheThreshold a) = true) /\
  option_map ov_Value (od_rows db !! ("chat", "cache.threshold")) = Some "NaN".
Proof. vm_compute. split_and!; [done| |done]. by eexists. Qed.

(** Two overrides and two transactions: when the second is refused the mode is on with the
    threshold that was there before. *)
Definition apply_request : CalibrationRequest :=
  mkCalibration "" "" (fun k => if String.eqb k "route" then "chat" else if String.eqb k "threshold" then "0.9" else "") true None.
Theorem apply_is_not_atomic :
  let '(out, reloads, db) := CacheApply 0 "" true apply_request (mkDB ∅ [] [Commits; Refused]) in
  out = inl (500, db_error) /\ reloads = 0%nat /\ option_map ov_Value (od_rows db !! ("chat", "cache.mode")) = Some "on" /\
  od_rows db !! ("chat", "cache.threshold") = None.
Proof. by vm_compute. Qed.

(** A route on which both features are on, one bad pair of the week and ten false hits in a
    hundred. *)
Definition demo_on : Config :=
  set_Routes served (map (fun r => set_SmartRoute (set_Cache r (set_cache_mode "on" (rc_Cache r))) (set_smart_mode "on" (rc_SmartRoute r))) (Routes served)).
Definition demo_proof : ProofConfig := mkProofConfig f0 hour f0 1 false [].
Definition demo_draw : Z -> Z -> nat -> nat := fun _ _ _ => 0%nat.
Definition demo_deltas : string -> Time -> string + list spec_float := fun _ _ => inr [f_lit (-1) 2].
Definition demo_rate : string -> Time -> string + Z * Z := fun _ _ => inr (100, 10).
Definition demo_db : OverrideDB := mkDB ∅ [] [].

Example demo_after : exists err db' ovs, 
  MonitorAllRoutes demo_draw demo_deltas demo_rate 5 demo_proof (Routes demo_on) demo_db = Some (err, db') /\ Overrides true db' = inr ovs /\
  map (fun o => (ov_Route o, ov_Key o, ov_Value o)) ovs = [("chat", "cache.mode", "shadow"); ("chat", "smart_route.mode", "off")].
Proof. do 3 eexists. split; [vm_compute; reflexivity|]. split; vm_compute; reflexivity. Qed.

Definition demo_db' : OverrideDB := match MonitorAllRoutes demo_draw demo_deltas demo_rate 5 demo_proof (Routes demo_on) demo_db with Some (_, d) => d | None => demo_db end.
Definition demo_ovs : list Override := match Overrides true demo_db' with inr l => l | inl _ => [] end.

Lemma demo_pass : MonitorAllRoutes demo_draw demo_deltas demo_rate 5 demo_proof (Routes demo_on) demo_db = Some (None, demo_db').
Proof. vm_compute. reflexivity. Qed.

Lemma demo_due : due demo_draw demo_deltas demo_rate 5 demo_proof (Routes demo_on) "chat" "smart_route.mode" /\
  due demo_draw demo_deltas demo_rate 5 demo_proof (Routes demo_on) "chat" "cache.mode".
Proof.
  destruct (Routes demo_on) as [|r rs] eqn:E; [by vm_compute in E|].
  assert (rc_Name r = "chat" /\ sr_Mode (rc_SmartRoute r) = "on" /\ cc_Mode (rc_Cache r) = "on") as (Hn & Hs & Hc)
    by (vm_compute in E; injection E as <- _; by vm_compute).
  split; exists r; (split; [by left|]); (split; [done|]).
  - left. split_and!; [done|done|]. exists [f_lit (-1) 2], (f_lit (-1) 2), (f_lit (-1) 2), (f_lit (-1) 2).
    split; [done|]. split; [by vm_compute|]. split; vm_compute; reflexivity.
  - right. split_and!; [done|done|]. exists 100, 10. split; [done|]. split; [lia|]. vm_compute. reflexivity.
Qed.

Lemma rollback_takes_effect_witness :
  exists r', Routes (ApplyOverrides demo_on demo_ovs).1 !! 0%nat = Some r' /\ sr_Mode (rc_SmartRoute r') = "off" /\ cc_Mode (rc_Cache r') = "shadow".
Proof.
  destruct (Routes demo_on !! 0%nat) as [r|] eqn:Hr; [|by vm_compute in Hr].
  assert (rc_Name r = "chat") as Hn by (vm_compute in Hr; by injection Hr as <-).
  destruct (rollback_takes_effect demo_draw demo_deltas demo_rate 5 demo_proof (Routes demo_on) demo_on demo_db demo_db' None demo_ovs) as [_ H];
    [intros k o Ho; unfold demo_db in Ho; cbn [od_rows] in Ho; by rewrite lookup_empty in Ho|exact demo_pass|].
  destruct (H eq_refl) with (i := 0%nat) (r := r) as (r' & ? & H1 & H2); [vm_compute; reflexivity| |done|].
  - change (NoDup (map rc_Name (Routes demo_on))). apply (bool_decide_eq_true_1 _). vm_compute. reflexivity.
  - exists r'. rewrite Hn in H1, H2. split_and!; [done|apply H1, demo_due|apply H2, demo_due].
Defined.
