(* ===== verification/Erasure.v ===== *)
(** * Erasing a tenant (src/internal/store/erasure.go, analytics/clickhouse.go, server/admin_cp.go)

    Three stores that know nothing of each other: the tables of PostgreSQL in one
    transaction, the keys of Redis by patterns, the rows of ClickHouse by mutations that run
    later.  SQL's LIKE is written out; Redis is that of [Purge], the credentials those of
    [Credentials], the cached principals those of [Auth]. *)

From S2P Require Import RateLimit.
From stdpp Require Import base decidable gmap.
From S2P Require Import Prelude GoStrings GoFloat Envelope CacheKeys Purge Credentials Budget AgentRun Fuzzy Control Policy Lru Auth.

Open Scope string_scope.
Open Scope list_scope.
Open Scope Z_scope.

(** ** PostgreSQL *)

(** LIKE: [%] is any text, [_] any byte, and a backslash takes the next byte as it is. *)
Fixpoint sql_like (p s : string) : bool :=
  match p with
  | EmptyString => String.eqb s ""
  | String "%" p' => (fix star (s : string) : bool := sql_like p' s || match s with EmptyString => false | String _ s' => star s' end) s
  | String "_" p' => match s with EmptyString => false | String _ s' => sql_like p' s' end
  | String "\" (String d p') => match s with EmptyString => false | String c s' => Ascii.eqb c d && sql_like p' s' end
  | String d p' => match s with EmptyString => false | String c s' => Ascii.eqb c d && sql_like p' s' end
  end.

Example sql_like_ex : map (fun ps => sql_like ps.1 ps.2) [("a%", "abc"); ("a_c", "abc"); ("a\_c", "abc"); ("a\_c", "a_c"); ("%/x", "t/x"); ("", "a")] =
  [true; true; false; true; true; false].
Proof. reflexivity. Qed.

(** The keys with their tenants, the credentials, the tenants, and the fates of the
    transactions to come.  The columns with tenants have the type uuid. *)
Record pg := mkPg { pg_keys : gmap string string; pg_creds : table; pg_tenants : gset string; pg_fates : list fate }.

Record TenantPostgresEraseResult := mkPgErase { pe_APIKeys : Z; pe_ProviderCredentials : Z; pe_Tenant : Z }.

Definition of_tenant (T : string) (kv : string * string) : Prop := kv.2 = T.
Definition like_provider (pat : string) (kv : string * Z * credential_row) : Prop := sql_like pat kv.1.1 = true.
#[export] Instance of_tenant_dec T kv : Decision (of_tenant T kv).
Proof. unfold of_tenant. apply _. Defined.
#[export] Instance like_provider_dec p kv : Decision (like_provider p kv).
Proof. unfold like_provider. apply _. Defined.

(** What the type uuid makes of a text: its canonical text, or a syntax error. *)
Section Postgres.
Context (uuid_text : string -> option string).

Definition EraseTenantRecords (connected : bool) (tenantID : string) (db : pg) : (string + TenantPostgresEraseResult) * pg :=
  if String.eqb (trim_space tenantID) "" then (inl "tenant id required", db)
  else if negb connected then (inl "postgres store not configured", db)
  else
    let fs := tail (pg_fates db) in
    let unchanged := mkPg (pg_keys db) (pg_creds db) (pg_tenants db) fs in
    match uuid_text tenantID with
    | None => (inl "invalid input syntax for type uuid", unchanged)
    | Some u =>
        let keys := filter (fun kv => ~ of_tenant u kv) (pg_keys db) in
        let creds := filter (fun kv => ~ like_provider (tenantID +:+ "/%") kv) (pg_creds db) in
        let result := mkPgErase (Z.of_nat (size (pg_keys db)) - Z.of_nat (size keys)) (Z.of_nat (size (pg_creds db)) - Z.of_nat (size creds))
          (if decide (u ∈ pg_tenants db) then 1 else 0) in
        let erased := mkPg keys creds (pg_tenants db ∖ {[u]}) fs in
        match head (pg_fates db) with
        | None | Some Commits => (inr result, erased)
        | Some Refused => (inl db_error, unchanged)
        | Some Unanswered => (inl db_error, erased)
        end
    end.
End Postgres.

(** ** Redis *)

Definition TenantRedisPatterns (T : string) : list string :=
  let t := "{t:" +:+ T +:+ "}" in
  ["cache:" +:+ t +:+ ":*"; "cachetag:" +:+ t +:+ ":*"; "sc:*:" +:+ t +:+ ":*"; "run:" +:+ t +:+ ":*"; "runfp:" +:+ t +:+ ":*"; "runemb:" +:+ t +:+ ":*";
   "budget:" +:+ t +:+ ":*"; "session:" +:+ t; "session:" +:+ t +:+ ":*"; "sessions:" +:+ t; "sessions:" +:+ t +:+ ":*"].

(** The keys of a batch that were not seen before, and those seen after it. *)
Definition fresh (seen keys : list string) : list string * list string :=
  for_range keys ([], seen) (fun '(batch, seen) k => if decide (k ∈ seen) then (batch, seen) else (batch ++ [k], k :: seen)).

Section Eraser.
Context (uuid_text : string -> option string) (scan : string -> gmap string (list string) -> list (list string)).

Fixpoint erase_rounds (seen : list string) (deleted : Z) (batches : list (list string)) : eff (Z * list string) :=
  match batches with
  | [] => done_with (deleted, seen)
  | b :: bs =>
      andthen (command (fun ks => (tt, ks))) (fun _ =>
        let '(batch, seen) := fresh seen b in
        match batch with
        | [] => erase_rounds seen deleted bs
        | _ => andthen (command (unlink batch)) (fun n => erase_rounds seen (deleted + n) bs)
        end)
  end.

Fixpoint erase_patterns (seen : list string) (deleted : Z) (patterns : list string) : eff Z :=
  match patterns with
  | [] => done_with deleted
  | p :: ps => fun r => andthen (erase_rounds seen deleted (scan p (rd_keys r))) (fun '(n, seen) => erase_patterns seen n ps) r
  end.

Definition redis_PurgeTenant (tenantID : string) : eff Z := erase_patterns [] 0 (TenantRedisPatterns tenantID).

(** ** ClickHouse

    [ALTER TABLE ... DELETE] enters a mutation that is executed later; the mutations of a
    table are executed in their order, those of different tables in any. *)
Inductive mutation := DeleteLabels (tenantID : string) | DeleteRows (tbl tenantID : string).

Record clickhouse := mkCh {
  ch_shadow : list (string * string);        (* cache_shadow: id and tenant *)
  ch_labels : list string;                   (* cache_labels: the shadow ids *)
  ch_rows : gmap string (list string);       (* the other tables: the tenants of their rows *)
  ch_pending : list mutation;
  ch_fates : list bool }.

Definition purge_queries (T : string) : list mutation :=
  [DeleteLabels T; DeleteRows "usage_events" T; DeleteRows "cache_shadow" T; DeleteRows "routing_shadow" T; DeleteRows "routing_decisions" T; DeleteRows "mcp_calls" T].

Fixpoint submit (qs : list mutation) (c : clickhouse) : option string * clickhouse :=
  match qs with
  | [] => (None, c)
  | q :: qs =>
      let c' p := mkCh (ch_shadow c) (ch_labels c) (ch_rows c) p (tail (ch_fates c)) in
      match head (ch_fates c) with
      | Some false => (Some ("purge tenant analytics: " +:+ db_error), c' (ch_pending c))
      | _ => submit qs (c' (ch_pending c ++ [q]))
      end
  end.

Definition PurgeTenantData (connected : bool) (tenantID : string) (c : clickhouse) : option string * clickhouse :=
  if negb connected then (Some "clickhouse store not configured", c)
  else if String.eqb tenantID "" then (Some "tenant id required", c)
  else submit (purge_queries tenantID) c.

Definition table_of (q : mutation) : string := match q with DeleteLabels _ => "cache_labels" | DeleteRows t _ => t end.

Definition execute (q : mutation) (pending : list mutation) (c : clickhouse) : clickhouse :=
  match q with
  | DeleteLabels T => mkCh (ch_shadow c) (filter (fun id => id ∉ map fst (filter (fun r => r.2 = T) (ch_shadow c))) (ch_labels c)) (ch_rows c) pending (ch_fates c)
  | DeleteRows t T =>
      if String.eqb t "cache_shadow" then mkCh (filter (fun r => r.2 <> T) (ch_shadow c)) (ch_labels c) (ch_rows c) pending (ch_fates c)
      else mkCh (ch_shadow c) (ch_labels c) (alter (filter (fun x => x <> T)) t (ch_rows c)) pending (ch_fates c)
  end.

Inductive mutation_step : clickhouse -> clickhouse -> Prop :=
| mstep l1 q l2 c : ch_pending c = l1 ++ q :: l2 -> Forall (fun q' => table_of q' <> table_of q) l1 -> mutation_step c (execute q (l1 ++ l2) c).

(** ** The receipt *)

Record TenantEraseComponent := mkComponent { tc_Status : string; tc_Deleted : Z; tc_Error : string; tc_Pending : bool }.

Record TenantEraseReceipt := mkReceipt {
  tr_ID : string; tr_TenantID : string; tr_Status : string; tr_StartedAt : Time; tr_FinishedAt : Time; tr_Pending : bool;
  tr_Components : gmap string TenantEraseComponent }.

(** Which interfaces are there, and whether the connection behind each is. *)
Record TenantEraser := mkEraser { te_postgres : option bool; te_redis : bool; te_analytics : option bool }.

Definition NewTenantEraser (pg_connected rdb ch_connected : bool) : TenantEraser := mkEraser (Some pg_connected) rdb (Some ch_connected).

Record stores := mkStores { st_pg : pg; st_redis : redis; st_ch : clickhouse }.

Definition with_error (status e : string) : TenantEraseComponent := mkComponent status 0 e false.

Definition erase_postgres (e : TenantEraser) (T : string) (s : stores) : TenantEraseComponent * stores :=
  match te_postgres e with
  | None => (with_error "unavailable" "postgres store not configured", s)
  | Some connected =>
      let '(res, db) := EraseTenantRecords uuid_text connected T (st_pg s) in
      (match res with
       | inl err => with_error "failed" err
       | inr r => mkComponent "completed" (pe_APIKeys r + pe_ProviderCredentials r + pe_Tenant r) "" false
       end, mkStores db (st_redis s) (st_ch s))
  end.

Definition erase_redis (e : TenantEraser) (T : string) (s : stores) : TenantEraseComponent * stores :=
  if negb (te_redis e) then (with_error "unavailable" "redis store not configured", s)
  else
    let '(res, r) := redis_PurgeTenant T (st_redis s) in
    (match res with None => with_error "failed" db_error | Some n => mkComponent "completed" n "" false end, mkStores (st_pg s) r (st_ch s)).

Definition erase_clickhouse (e : TenantEraser) (T : string) (s : stores) : TenantEraseComponent * stores :=
  match te_analytics e with
  | None => (with_error "unavailable" "clickhouse store not configured", s)
  | Some connected =>
      let '(err, c) := PurgeTenantData connected T (st_ch s) in
      (match err with Some err => with_error "failed" err | None => mkComponent "submitted" 0 "" true end, mkStores (st_pg s) (st_redis s) c)
  end.

Definition component_failed (c : TenantEraseComponent) : bool := String.eqb (tc_Status c) "failed" || String.eqb (tc_Status c) "unavailable".

(** [e = None] is the nil receiver; the two readings of the clock. *)
Definition Erase (e : option TenantEraser) (tenantID id : string) (started finished : Time) (s : stores) : TenantEraseReceipt * stores :=
  let T := trim_space tenantID in
  if String.eqb T "" then
    (mkReceipt id T "partial" started finished false
       {["postgres" := with_error "failed" "tenant id required"; "redis" := with_error "skipped" "tenant id required";
         "clickhouse" := with_error "skipped" "tenant id required"]}, s)
  else
    let e := default (mkEraser None false None) e in
    let '(p, s) := erase_postgres e T s in
    let '(r, s) := erase_redis e T s in
    let '(c, s) := erase_clickhouse e T s in
    let components := {["postgres" := p; "redis" := r; "clickhouse" := c]} in
    let status := if existsb (fun kv => component_failed kv.2) (map_to_list components) then "partial" else "accepted" in
    (mkReceipt id T status started finished (tc_Pending c) components, s).

(** ** The endpoint (admin_cp.go) *)

Section Handler.
Context {L : Type} (order : @Middleware L -> list string).

(** The answer: an error with its message, or the receipt.  [publish]: whether there is a bus,
    and its answer; what it was asked to publish. *)
Definition handleTenantErase (eraser : option TenantEraser) (auth : option (@Middleware L)) (publish : option (option string))
    (pathID id : string) (started finished : Time) (s : stores) :
    (Z * (string * string + TenantEraseReceipt)) * option (@Middleware L) * list (string * gmap string string) * stores :=
  let tenantID := trim_space pathID in
  if String.eqb tenantID "" then ((400, inl ("bad_request", "tenant id is required")), auth, [], s)
  else
    match eraser with
    | None => ((503, inl ("erasure_unavailable", "tenant erasure is not configured")), auth, [], s)
    | Some e =>
        let '(receipt, s) := Erase (Some e) tenantID id started finished s in
        let auth := option_map (fun m => (EvictTenant tenantID (order m) m).2) auth in
        let published := match publish with Some _ => [(OpTenantErased, TenantErasedArgs tenantID (tr_ID receipt))] | None => [] end in
        let receipt :=
          match publish with
          | Some (Some _) =>
              mkReceipt (tr_ID receipt) (tr_TenantID receipt) "partial" (tr_StartedAt receipt) (tr_FinishedAt receipt) (tr_Pending receipt)
                (<["control_bus" := with_error "failed" "tenant cache invalidation could not be published"]> (tr_Components receipt))
          | _ => receipt
          end in
        ((if String.eqb (tr_Status receipt) "partial" then 207 else 200, inr receipt), auth, published, s)
    end.
End Handler.
End Eraser.

(** ** LIKE *)

Definition like_plain (s : string) : bool := sforall (fun c => negb (Ascii.eqb c "%" || Ascii.eqb c "_" || Ascii.eqb c "\")) s.

Lemma like_byte d p s : like_plain (String d "") = true ->
  sql_like (String d p) s = match s with EmptyString => false | String c s' => Ascii.eqb c d && sql_like p s' end.
Proof.
  unfold like_plain. cbn [sforall]. rewrite andb_true_r, negb_true_iff, !orb_false_iff, !Ascii.eqb_neq. intros [[? ?] ?].
  destruct d as [[] [] [] [] [] [] [] []]; try reflexivity; exfalso; congruence.
Qed.

Lemma like_literal l p s : like_plain l = true -> sql_like (l +:+ p) s = true <-> exists t, s = l +:+ t /\ sql_like p t = true.
Proof.
  revert s. induction l as [|d l IH]; intros s Hl.
  { rewrite sapp_nil_l. split; [intros H; by exists s|]. by intros (t & -> & H). }
  change (String d l) with (String d "" +:+ l) in Hl. unfold like_plain in Hl. rewrite sforall_app, andb_true_iff in Hl. destruct Hl as [Hd Hl].
  rewrite sapp_cons, like_byte by done. destruct s as [|c s]; [split; [done|by intros (t & [=] & _)]|].
  rewrite andb_true_iff, Ascii.eqb_eq, IH by done. setoid_rewrite sapp_cons. naive_solver.
Qed.

Lemma like_any s : sql_like "%" s = true.
Proof. cbn. induction s as [|c s IH]; [done|]. by rewrite IH, orb_true_r. Qed.

Lemma like_tenant T s : like_plain T = true -> sql_like (T +:+ "/%") s = true <-> exists t, s = T +:+ "/" +:+ t.
Proof.
  intros HT. replace (T +:+ "/%") with ((T +:+ "/") +:+ "%") by (by rewrite sapp_assoc). rewrite like_literal.
  - setoid_rewrite sapp_assoc. split; [intros (t & -> & _); by exists t|intros [t ->]; exists t; split; [done|apply like_any]].
  - unfold like_plain. rewrite sforall_app, andb_true_iff. split; [exact HT|done].
Qed.

(** ** What the rounds of a scan remove *)

Lemma fresh_spec (keys : list string) : forall batch seen : list string, let '(b, s) := for_range keys (batch, seen) (fun '(batch, seen) k => if decide (k ∈ seen) then (batch, seen) else (batch ++ [k], k :: seen)) in
  (forall k, k ∈ b <-> k ∈ batch \/ (k ∈ keys /\ k ∉ seen)) /\ (forall k, k ∈ s <-> k ∈ seen \/ k ∈ keys).
Proof.
  unfold for_range. induction keys as [|k0 keys IH]; intros batch seen; cbn [fold_left]; [split; set_solver|].
  destruct (decide (k0 ∈ seen)) as [Hin|Hout].
  - specialize (IH batch seen). destruct (fold_left _ _ _) as [b s]. destruct IH as [IH1 IH2]. split; intros k.
    + rewrite IH1, elem_of_cons. split; [tauto|]. intros [?|[[->|?] ?]]; tauto.
    + rewrite IH2, elem_of_cons. split; [tauto|]. intros [?|[->|?]]; tauto.
  - specialize (IH (batch ++ [k0]) (k0 :: seen)). destruct (fold_left _ _ _) as [b s]. destruct IH as [IH1 IH2]. split; intros k.
    + rewrite IH1, elem_of_app, list_elem_of_singleton, !elem_of_cons. split.
      * intros [[?| ->]|[? ?]]; [by left|right; tauto|right; tauto].
      * intros [?|[[->|?] ?]]; [by left; left|by left; right|]. destruct (decide (k = k0)) as [->|]; [by left; right|right; tauto].
    + rewrite IH2, !elem_of_cons. tauto.
Qed.

Lemma erase_rounds_spec batches : forall seen n r, (forall k, k ∈ seen -> rd_keys r !! k = None) ->
  let res := erase_rounds seen n batches r in
  (forall k, rd_keys res.2 !! k = rd_keys r !! k \/ rd_keys res.2 !! k = None /\ k ∈ concat batches) /\
  (forall n' seen', res.1 = Some (n', seen') ->
     (forall k, k ∈ concat batches -> rd_keys res.2 !! k = None) /\ (forall k, k ∈ seen' -> rd_keys res.2 !! k = None)).
Proof.
  induction batches as [|b bs IH]; intros seen n r Hseen; cbn [erase_rounds concat].
  { split; [by left|]. intros n' seen' [= <- <-]. split; [by intros k ?%not_elem_of_nil|done]. }
  cbv zeta. unfold andthen. destruct (removes_read (fun ks : gmap string (list string) => (tt, ks)) r ltac:(done)) as [R1 _].
  destruct (command (fun ks => (tt, ks)) r) as [[[]|] r1]; cbn [fst snd] in R1.
  2:{ cbn. split; [|done]. intros k. destruct (R1 k) as [E|[_ []]]. by left. }
  assert (forall k, rd_keys r1 !! k = rd_keys r !! k) as E1 by (intros k; by destruct (R1 k) as [E|[_ []]]). clear R1.
  unfold fresh. pose proof (fresh_spec b [] seen) as Hf. destruct (for_range _ _ _) as [batch seen1]. destruct Hf as [F1 F2].
  assert (forall k, k ∈ batch -> k ∈ b) as Fb by (intros k Hk; apply F1 in Hk as [?%not_elem_of_nil|[? _]]; done).
  assert (forall r2 n2, (forall k, rd_keys r2 !! k = if decide (k ∈ batch) then None else rd_keys r !! k) ->
    let res := erase_rounds seen1 n2 bs r2 in
    (forall k, rd_keys res.2 !! k = rd_keys r !! k \/ rd_keys res.2 !! k = None /\ k ∈ b ++ concat bs) /\
    (forall n' seen', res.1 = Some (n', seen') ->
       (forall k, k ∈ b ++ concat bs -> rd_keys res.2 !! k = None) /\ (forall k, k ∈ seen' -> rd_keys res.2 !! k = None))) as Hgo.
  { intros r2 n2 E2.
    assert (forall k, k ∈ seen1 -> rd_keys r2 !! k = None) as Hs1.
    { intros k Hk. rewrite E2. destruct (decide (k ∈ batch)) as [|Hn]; [done|]. apply Hseen. apply F2 in Hk as [?|?]; [done|].
      destruct (decide (k ∈ seen)); [done|]. destruct Hn. apply F1. by right. }
    destruct (IH seen1 n2 r2 Hs1) as [I1 I2]. split.
    - intros k. destruct (I1 k) as [->|[-> ?]]; [|right; split; [done|set_solver]]. rewrite E2. destruct (decide (k ∈ batch)); [right; split; [done|set_solver]|by left].
    - intros n' seen' Hr. destruct (I2 _ _ Hr) as [J1 J2]. split; [|done]. intros k Hk. apply elem_of_app in Hk as [Hk|Hk]; [|by apply J1].
      destruct (I1 k) as [->|[-> ?]]; [|done]. apply Hs1, F2. by right. }
  destruct batch as [|x batch].
  - apply Hgo. intros k. rewrite E1. destruct (decide _) as [?%not_elem_of_nil|]; done.
  - destruct (removes_unlink (x :: batch) r1) as [U1 U2]. destruct (command (unlink (x :: batch)) r1) as [[m|] r2]; cbn [fst snd] in *.
    + apply Hgo. intros k. destruct (decide (k ∈ x :: batch)) as [Hk|Hk]; [by apply U2|]. destruct (U1 k) as [->|[_ ?]]; [apply E1|done].
    + split; [|done]. intros k. destruct (U1 k) as [->|[-> Hk]]; [left; apply E1|right; split; [done|]]. apply elem_of_app. left. by apply Fb.
Qed.

Section Removing.
Context (scan : string -> gmap string (list string) -> list (list string))
  (Hscan : forall p ks k, k ∈ concat (scan p ks) <-> is_Some (ks !! k) /\ redis_match p k = true).

Lemma erase_patterns_spec ps : forall seen n r, (forall k, k ∈ seen -> rd_keys r !! k = None) ->
  removes (fun k => Exists (fun p => redis_match p k = true) ps) r (erase_patterns scan seen n ps r).
Proof using Hscan.
  induction ps as [|p ps IH]; intros seen n r Hseen; cbn [erase_patterns].
  { eapply removes_iff; [|apply removes_none]. intros k. by rewrite Exists_nil. }
  unfold andthen. destruct (erase_rounds_spec (scan p (rd_keys r)) seen n r Hseen) as [H1 H2].
  destruct (erase_rounds seen n (scan p (rd_keys r)) r) as [[[n' seen']|] r']; cbn [fst snd] in *.
  - destruct (H2 _ _ eq_refl) as [G1 G2]. destruct (IH seen' n' r' G2) as [I1 I2]. split.
    + intros k. destruct (I1 k) as [->|[-> He]]; [|right; split; [done|by apply Exists_cons_tl]].
      destruct (H1 k) as [->|[-> Hk]]; [by left|right; split; [done|]]. apply Exists_cons_hd. by apply Hscan in Hk as [_ ?].
    + intros Hs k He. apply Exists_cons in He as [Hm|He]; [|by apply I2].
      assert (rd_keys r' !! k = None) as Hn.
      { destruct (rd_keys r !! k) as [v|] eqn:Ek; [apply G1, Hscan; rewrite Ek; by split|]. destruct (H1 k) as [->|[-> _]]; done. }
      destruct (I1 k) as [->|[-> _]]; done.
  - split; [|by intros [? ?]]. intros k. cbn [snd]. destruct (H1 k) as [->|[-> Hk]]; [by left|right; split; [done|]]. apply Exists_cons_hd. by apply Hscan in Hk as [_ ?].
Qed.
End Removing.

(** ** The keys of a tenant *)

(** The buckets of the rate limiter (src/internal/ratelimit/limiter.go); they expire two minutes
    after their last use. *)
Definition limiter_key (T k : string) : Prop := k = (RateLimit.keys T).1 \/ k = (RateLimit.keys T).2.

(** The keys that the program keeps for a tenant. *)
Inductive redis_key_of (T : string) : string -> Prop :=
| rk_cache k : tenant_key T k -> redis_key_of T k
| rk_run run : redis_key_of T (run_keys T run).1
| rk_fingerprints run : redis_key_of T (run_keys T run).2
| rk_fuzzy run : redis_key_of T (fuzzyKey T run)
| rk_budget month : redis_key_of T (ledgerKey T month)
| rk_limiter k : limiter_key T k -> redis_key_of T k.

Definition families : list string := ["cache:"; "cachetag:"; "run:"; "runfp:"; "runemb:"; "budget:"; "session:"; "sessions:"].

Definition erased_key (T k : string) : Prop := Exists (fun p => redis_match p k = true) (TenantRedisPatterns T).

Lemma erased_key_iff T k : plain T = true -> erased_key T k <->
  (exists f t, f ∈ families /\ k = (f +:+ tenantTag T +:+ ":") +:+ t) \/
  (exists a b, k = "sc:" +:+ a +:+ (":" +:+ tenantTag T +:+ ":") +:+ b) \/
  k = "session:" +:+ tenantTag T \/ k = "sessions:" +:+ tenantTag T.
Proof.
  intros HT. unfold erased_key.
  assert (TenantRedisPatterns T =
    [("cache:" +:+ tenantTag T +:+ ":") +:+ "*"; ("cachetag:" +:+ tenantTag T +:+ ":") +:+ "*"; "sc:" +:+ "*" +:+ (":" +:+ tenantTag T +:+ ":") +:+ "*";
     ("run:" +:+ tenantTag T +:+ ":") +:+ "*"; ("runfp:" +:+ tenantTag T +:+ ":") +:+ "*"; ("runemb:" +:+ tenantTag T +:+ ":") +:+ "*";
     ("budget:" +:+ tenantTag T +:+ ":") +:+ "*"; "session:" +:+ tenantTag T; ("session:" +:+ tenantTag T +:+ ":") +:+ "*";
     "sessions:" +:+ tenantTag T; ("sessions:" +:+ tenantTag T +:+ ":") +:+ "*"]) as ->.
  { unfold TenantRedisPatterns, tenantTag. by rewrite !sapp_assoc. }
  assert (forall l s, literal l = true -> redis_match l s = true <-> s = l) as Hexact.
  { intros l s Hl. unfold redis_match. rewrite <- (sapp_nil_r l) at 2. rewrite match_literal by (done || lia).
    replace (S (String.length l) - String.length l)%nat with 1%nat by lia. setoid_rewrite match_end.
    split; [intros (t & -> & ->); apply sapp_nil_r|intros ->; exists ""; by rewrite sapp_nil_r]. }
  assert (forall f, literal f = true -> literal (f +:+ tenantTag T) = true) as Hlit.
  { intros f Hf. rewrite <- (sapp_nil_r (tenantTag T)). by apply tenant_literal. }
  rewrite !Exists_cons, Exists_nil, !match_prefix by (by apply tenant_literal).
  rewrite match_infix by (done || by apply tenant_literal). rewrite !Hexact by (by apply Hlit). split.
  - intros [[t ->]|[[t ->]|[(a & b & ->)|[[t ->]|[[t ->]|[[t ->]|[[t ->]|[->|[[t ->]|[->|[[t ->]|[]]]]]]]]]]]].
    all: try (left; eexists _, t; split; [|reflexivity]; unfold families; by repeat (first [left|right])).
    + right; left. by exists a, b.
    + right; right; by left.
    + right; right; by right.
  - intros [(f & t & Hf & ->)|[(a & b & ->)|[->| ->]]].
    + unfold families in Hf. rewrite !elem_of_cons in Hf. destruct Hf as [->|[->|[->|[->|[->|[->|[->|[->|Hf%not_elem_of_nil]]]]]]]]; [..|done].
      all: repeat (first [left; exists t; reflexivity|right]).
    + do 2 right; left. by exists a, b.
    + do 7 right; by left.
    + do 9 right; by left.
Qed.

Lemma own_redis_key T k : plain T = true -> T <> "" -> redis_key_of T k -> ~ limiter_key T k -> erased_key T k.
Proof.
  intros HT Hne Hk Hl. apply erased_key_iff; [done|]. destruct Hk as [k Hk|run|run|run|month|k Hk]; [..|done].
  - apply own_key_matches in Hk; [|done|done]. apply tenant_matches_iff in Hk; [|done|done].
    destruct Hk as [[t ->]|[[t ->]|H]]; [left; exists "cache:", t|left; exists "cachetag:", t|by right; left]; (split; [|done]); unfold families; by repeat (first [left|right]).
  - left. exists "run:", run. split; [unfold families; by repeat (first [left|right])|]. unfold run_keys, tenantTag. cbn [fst]. by rewrite !sapp_assoc.
  - left. exists "runfp:", run. split; [unfold families; by repeat (first [left|right])|]. unfold run_keys, tenantTag. cbn [snd]. by rewrite !sapp_assoc.
  - left. exists "runemb:", run. split; [unfold families; by repeat (first [left|right])|]. unfold fuzzyKey, tenantTag. by rewrite !sapp_assoc.
  - left. exists "budget:", month. split; [unfold families; by repeat (first [left|right])|]. unfold ledgerKey, tenantTag. by rewrite !sapp_assoc.
Qed.

Lemma families_no_brace f : f ∈ families -> no_byte "{" f = true.
Proof. intros H. assert (Forall (fun f => no_byte "{" f = true) families) as Hall by (by repeat constructor). by eapply Forall_forall in Hall. Qed.

(** A key of a family names one tenant. *)
Lemma family_tenant f f' T T' u v : f ∈ families -> f' ∈ families -> plain T = true -> plain T' = true ->
  f +:+ tenantTag T +:+ u = f' +:+ tenantTag T' +:+ v -> T = T'.
Proof.
  intros Hf Hf' HT HT' Heq. assert (f = f') as <-.
  { apply (before_unique "{" f ("t:" +:+ T +:+ "}" +:+ u) f' ("t:" +:+ T' +:+ "}" +:+ v)); [by apply families_no_brace..|].
    unfold tenantTag in Heq. by rewrite !sapp_assoc in Heq. }
  apply sapp_inj_l in Heq. by eapply tag_inj.
Qed.

Lemma family_key_of T' k : redis_key_of T' k -> limiter_key T' k \/ tenant_key T' k \/ exists f u, f ∈ families /\ f <> "cache:" /\ f <> "cachetag:" /\ k = f +:+ tenantTag T' +:+ ":" +:+ u.
Proof.
  intros [k' Hk|run|run|run|month|k' Hk]; [right; by left|right; right..|by left].
  - exists "run:", run. split_and!; [unfold families; by repeat (first [left|right])|done|done|]. unfold run_keys, tenantTag. cbn [fst]. by rewrite !sapp_assoc.
  - exists "runfp:", run. split_and!; [unfold families; by repeat (first [left|right])|done|done|]. unfold run_keys, tenantTag. cbn [snd]. by rewrite !sapp_assoc.
  - exists "runemb:", run. split_and!; [unfold families; by repeat (first [left|right])|done|done|]. unfold fuzzyKey, tenantTag. by rewrite !sapp_assoc.
  - exists "budget:", month. split_and!; [unfold families; by repeat (first [left|right])|done|done|]. unfold ledgerKey, tenantTag. by rewrite !sapp_assoc.
Qed.

(** The families and "sc:" have no key in common. *)
Lemma family_not_semantic f u v : f ∈ families -> f +:+ u <> "sc:" +:+ v.
Proof.
  unfold families. rewrite !elem_of_cons. intros [->|[->|[->|[->|[->|[->|[->|[->|H%not_elem_of_nil]]]]]]]]; [..|done]; cbn; discriminate.
Qed.

(** No pattern of the erasure matches the buckets of a tenant, not even its own. *)
Lemma limiter_key_kept T T' k : plain T = true -> limiter_key T' k -> ~ erased_key T k.
Proof.
  intros HT Hk Herased. assert (exists u, k = "rl:" +:+ u) as [u ->] by (destruct Hk as [-> | ->]; by eexists).
  apply (erased_key_iff T _ HT) in Herased as [(f & t & Hf & E)|[(a & b & E)|[E|E]]]; [|discriminate E..].
  unfold families in Hf. rewrite !elem_of_cons in Hf. destruct Hf as [->|[->|[->|[->|[->|[->|[->|[->|Hf%not_elem_of_nil]]]]]]]]; cbn in E; try discriminate E. done.
Qed.

Lemma foreign_redis_key T T' k : plain T = true -> plain T' = true -> T <> "" -> T <> T' -> redis_key_of T' k -> ~ erased_key T k.
Proof.
  intros HT HT' Hne Hd Hk Herased. pose proof (fun H => limiter_key_kept T T' k HT H Herased) as Hlim. apply erased_key_iff in Herased; [|done].
  assert (forall f u, f ∈ families -> k = f +:+ tenantTag T' +:+ u -> False) as Hfam.
  { intros f u Hf ->. destruct Herased as [(f' & t & Hf' & Heq)|[(a & b & Heq)|Heq]].
    - apply Hd. symmetry. rewrite !sapp_assoc in Heq. by eapply (family_tenant f f' T' T).
    - by eapply family_not_semantic in Heq.
    - apply Hd. symmetry. rewrite <- (sapp_nil_r (tenantTag T)) in Heq.
      destruct Heq as [Heq|Heq]; [eapply (family_tenant f "session:" T' T)|eapply (family_tenant f "sessions:" T' T)]; try done; unfold families; by repeat (first [left|right]). }
  destruct (family_key_of T' k Hk) as [Hl|[Ht|(f & u & Hf & _ & _ & ->)]]; [by apply Hlim| |by eapply Hfam].
  pose proof (foreign_key_kept T T' k HT HT' Hne Hd Ht) as Hkept. destruct Ht as [route hash|tag|dim route id Hr Hi].
  - apply (Hfam "cache:" (":x:" +:+ route +:+ ":" +:+ hash)); [unfold families; by left|done].
  - apply (Hfam "cachetag:" (":" +:+ tag)); [unfold families; by right; left|done].
  - destruct Herased as [(f' & t & Hf' & Heq)|[(a & b & Heq)|Heq]].
    + rewrite !sapp_assoc in Heq. unfold SemanticKey in Heq. symmetry in Heq. by eapply family_not_semantic in Heq.
    + apply Hkept, tenant_matches_iff; [done|done|]. right; right. by exists a, b.
    + unfold SemanticKey in Heq. destruct Heq as [Heq|Heq]; cbn in Heq; discriminate Heq.
Qed.

(** ** The mutations of ClickHouse *)

Definition tenant_tables : list string := ["usage_events"; "cache_shadow"; "routing_shadow"; "routing_decisions"; "mcp_calls"].

(** No row of the tenant in a table. *)
Definition clean (T t : string) (c : clickhouse) : Prop :=
  if String.eqb t "cache_shadow" then forall id, (id, T) ∉ ch_shadow c else T ∉ default [] (ch_rows c !! t).

Lemma execute_clean T t q p c : clean T t c -> clean T t (execute q p c).
Proof.
  unfold clean. destruct q as [T'|t' T']; cbn [execute]; [done|]. destruct (String.eqb_spec t' "cache_shadow") as [->|Ht']; cbn [ch_shadow ch_rows].
  - destruct (String.eqb t "cache_shadow"); [|done]. intros H id Hin. apply list_elem_of_filter in Hin as [_ Hin]. by apply (H id).
  - destruct (String.eqb t "cache_shadow"); [done|]. intros H. destruct (decide (t' = t)) as [->|Hne]; [|by rewrite lookup_alter_ne].
    rewrite lookup_alter_eq. destruct (ch_rows c !! t); cbn [fmap option_fmap option_map default] in *; [|done]. intros Hin. by apply list_elem_of_filter in Hin as [_ ?].
Qed.

Lemma execute_cleans T t p c : clean T t (execute (DeleteRows t T) p c).
Proof.
  unfold clean. cbn [execute]. destruct (String.eqb_spec t "cache_shadow") as [->|Ht]; cbn [ch_shadow ch_rows].
  - intros id Hin. by apply list_elem_of_filter in Hin as [? _].
  - rewrite lookup_alter_eq. destruct (ch_rows c !! t); cbn; [|by apply not_elem_of_nil]. intros Hin. by apply list_elem_of_filter in Hin as [? _].
Qed.

Lemma execute_pending q p c : ch_pending (execute q p c) = p.
Proof. destruct q as [|t T]; cbn; [done|]. by destruct (String.eqb t "cache_shadow"). Qed.

Lemma mutations_clean T t c c' : rtc mutation_step c c' -> DeleteRows t T ∈ ch_pending c \/ clean T t c -> DeleteRows t T ∈ ch_pending c' \/ clean T t c'.
Proof.
  induction 1 as [c|c1 c2 c3 Hs _ IH]; [done|]. intros H. apply IH. destruct Hs as [l1 q l2 c Hp _]. rewrite execute_pending.
  destruct H as [H|H]; [|right; by apply execute_clean]. rewrite Hp in H. apply elem_of_app in H as [H|H]; [left; apply elem_of_app; by left|].
  apply elem_of_cons in H as [<-|H]; [right; apply execute_cleans|left; apply elem_of_app; by right].
Qed.

Lemma submit_spec qs : forall c, let '(err, c') := submit qs c in
  ch_shadow c' = ch_shadow c /\ ch_labels c' = ch_labels c /\ ch_rows c' = ch_rows c /\ (err = None -> ch_pending c' = ch_pending c ++ qs).
Proof.
  induction qs as [|q qs IH]; intros c; cbn [submit]; [by rewrite app_nil_r|].
  assert (forall p f, let '(err, c') := submit qs (mkCh (ch_shadow c) (ch_labels c) (ch_rows c) (p ++ [q]) f) in
    ch_shadow c' = ch_shadow c /\ ch_labels c' = ch_labels c /\ ch_rows c' = ch_rows c /\ (err = None -> ch_pending c' = p ++ q :: qs)) as Hgo.
  { intros p f. specialize (IH (mkCh (ch_shadow c) (ch_labels c) (ch_rows c) (p ++ [q]) f)). destruct (submit _ _) as [err c']. cbn in IH.
    destruct IH as (? & ? & ? & Hp). split_and!; [done..|]. intros He. by rewrite (Hp He), <- app_assoc. }
  destruct (head (ch_fates c)) as [[]|]; [apply Hgo| |apply Hgo]. by split_and!.
Qed.

(** ** Erasure *)

(** What is left of a tenant once the mutations have run: of all its keys in Redis those of the
    rate limiter only. *)
Record erased (T : string) (s : stores) : Prop := {
  er_keys : forall id, pg_keys (st_pg s) !! id <> Some T;
  er_creds : forall x v, pg_creds (st_pg s) !! (T +:+ "/" +:+ x, v) = None;
  er_tenant : T ∉ pg_tenants (st_pg s);
  er_redis : forall k, redis_key_of T k -> ~ limiter_key T k -> rd_keys (st_redis s) !! k = None;
  er_rows : forall c', rtc mutation_step (st_ch s) c' -> ch_pending c' = [] -> forall t, t ∈ tenant_tables -> clean T t c' }.

(** What does not belong to the tenant is as it was, and so are the tenant's own buckets of the
    rate limiter; the mutations have not run yet. *)
Record untouched (T : string) (s s' : stores) : Prop := {
  un_keys : forall id T', T' <> T -> pg_keys (st_pg s) !! id = Some T' -> pg_keys (st_pg s') !! id = Some T';
  un_creds : forall p v, (forall x, p <> T +:+ "/" +:+ x) -> pg_creds (st_pg s') !! (p, v) = pg_creds (st_pg s) !! (p, v);
  un_tenants : forall T', T' <> T -> T' ∈ pg_tenants (st_pg s') <-> T' ∈ pg_tenants (st_pg s);
  un_redis : forall T' k, plain T' = true -> T' <> T -> redis_key_of T' k -> rd_keys (st_redis s') !! k = rd_keys (st_redis s) !! k;
  un_limiter : forall k, limiter_key T k -> rd_keys (st_redis s') !! k = rd_keys (st_redis s) !! k;
  un_rows : ch_shadow (st_ch s') = ch_shadow (st_ch s) /\ ch_labels (st_ch s') = ch_labels (st_ch s) /\ ch_rows (st_ch s') = ch_rows (st_ch s) }.

Lemma postgres_erased uuid_text c T db : like_plain T = true -> uuid_text T = Some T -> let '(res, db') := EraseTenantRecords uuid_text c T db in
  (forall id T', T' <> T -> pg_keys db !! id = Some T' -> pg_keys db' !! id = Some T') /\
  (forall p v, (forall x, p <> T +:+ "/" +:+ x) -> pg_creds db' !! (p, v) = pg_creds db !! (p, v)) /\
  (forall T', T' <> T -> T' ∈ pg_tenants db' <-> T' ∈ pg_tenants db) /\
  (forall r, res = inr r -> (forall id, pg_keys db' !! id <> Some T) /\ (forall x v, pg_creds db' !! (T +:+ "/" +:+ x, v) = None) /\ T ∉ pg_tenants db').
Proof.
  intros HT Hu. unfold EraseTenantRecords. destruct (String.eqb _ _); [by split_and!|]. destruct c; [|by split_and!]. cbn [negb]. rewrite Hu.
  assert (forall fs, let db' := mkPg (filter (fun kv => ~ of_tenant T kv) (pg_keys db)) (filter (fun kv => ~ like_provider (T +:+ "/%") kv) (pg_creds db)) (pg_tenants db ∖ {[T]}) fs in
    (forall id T', T' <> T -> pg_keys db !! id = Some T' -> pg_keys db' !! id = Some T') /\
    (forall p v, (forall x, p <> T +:+ "/" +:+ x) -> pg_creds db' !! (p, v) = pg_creds db !! (p, v)) /\
    (forall T', T' <> T -> T' ∈ pg_tenants db' <-> T' ∈ pg_tenants db) /\
    (forall id, pg_keys db' !! id <> Some T) /\ (forall x v, pg_creds db' !! (T +:+ "/" +:+ x, v) = None) /\ T ∉ pg_tenants db') as Hdel.
  { intros fs. cbn. split_and!.
    - intros id T' Hne Hid. apply map_lookup_filter_Some. by split.
    - intros p v Hp. destruct (pg_creds db !! (p, v)) as [row|] eqn:E.
      + apply map_lookup_filter_Some. split; [done|]. unfold like_provider. cbn. rewrite like_tenant by done. intros [x ->]. by apply (Hp x).
      + apply map_lookup_filter_None. by left.
    - set_solver.
    - intros id Hid. apply map_lookup_filter_Some in Hid as [_ Hn]. by apply Hn.
    - intros x v. apply map_lookup_filter_None. right. intros row _ Hn. apply Hn. unfold like_provider. cbn. apply like_tenant; [done|by exists x].
    - set_solver. }
  destruct (head (pg_fates db)) as [[]|]; [| | |]; try (destruct (Hdel (tail (pg_fates db))) as (D1 & D2 & D3 & D4); split_and!; [done..|by intros r Hr]); by split_and!.
Qed.

Section Erasing.
Context (uuid_text : string -> option string) (scan : string -> gmap string (list string) -> list (list string))
  (Hscan : forall p ks k, k ∈ concat (scan p ks) <-> is_Some (ks !! k) /\ redis_match p k = true)
  (T : string) (HT : plain T = true) (Hlike : like_plain T = true) (Huuid : uuid_text T = Some T) (Hne : T <> "").

Lemma redis_erased r : let res := redis_PurgeTenant scan T r in
  (forall T' k, plain T' = true -> T' <> T -> redis_key_of T' k -> rd_keys res.2 !! k = rd_keys r !! k) /\
  (forall k, limiter_key T k -> rd_keys res.2 !! k = rd_keys r !! k) /\
  (is_Some res.1 -> forall k, redis_key_of T k -> ~ limiter_key T k -> rd_keys res.2 !! k = None).
Proof using Hscan HT Hne.
  cbv zeta. unfold redis_PurgeTenant. destruct (erase_patterns_spec scan Hscan (TenantRedisPatterns T) [] 0 r) as [H1 H2]; [by intros k ?%not_elem_of_nil|]. split.
  - intros T' k HT' Hd Hk. destruct (H1 k) as [->|[_ He]]; [done|]. exfalso. by eapply (foreign_redis_key T T' k).
  - split; [|intros Hs k Hk Hl; apply H2; [done|]; by apply own_redis_key].
    intros k Hk. destruct (H1 k) as [->|[_ He]]; [done|]. exfalso. by eapply (limiter_key_kept T T k).
Qed.

Lemma clickhouse_erased c ch : let '(err, ch') := PurgeTenantData c T ch in
  (ch_shadow ch' = ch_shadow ch /\ ch_labels ch' = ch_labels ch /\ ch_rows ch' = ch_rows ch) /\
  (err = None -> forall c', rtc mutation_step ch' c' -> ch_pending c' = [] -> forall t, t ∈ tenant_tables -> clean T t c').
Proof using Hne.
  unfold PurgeTenantData. destruct c; [|done]. cbn [negb]. destruct (String.eqb_spec T ""); [done|].
  pose proof (submit_spec (purge_queries T) ch) as Hs. destruct (submit _ _) as [err ch']. destruct Hs as (E1 & E2 & E3 & Hp). split; [done|].
  intros He c' Hrun Hdone t Ht. destruct (mutations_clean T t ch' c' Hrun) as [Hin|]; [|rewrite Hdone in Hin; by apply not_elem_of_nil in Hin|done].
  left. rewrite (Hp He). apply elem_of_app. right. unfold tenant_tables in Ht. unfold purge_queries.
  rewrite !elem_of_cons in Ht. destruct Ht as [->|[->|[->|[->|[->|Ht%not_elem_of_nil]]]]]; [..|done]; by repeat (first [left|right]).
Qed.

Lemma erase_postgres_spec e s : let '(c, s') := erase_postgres uuid_text e T s in
  st_redis s' = st_redis s /\ st_ch s' = st_ch s /\
  (forall id T', T' <> T -> pg_keys (st_pg s) !! id = Some T' -> pg_keys (st_pg s') !! id = Some T') /\
  (forall p v, (forall x, p <> T +:+ "/" +:+ x) -> pg_creds (st_pg s') !! (p, v) = pg_creds (st_pg s) !! (p, v)) /\
  (forall T', T' <> T -> T' ∈ pg_tenants (st_pg s') <-> T' ∈ pg_tenants (st_pg s)) /\
  (component_failed c = false ->
    (forall id, pg_keys (st_pg s') !! id <> Some T) /\ (forall x v, pg_creds (st_pg s') !! (T +:+ "/" +:+ x, v) = None) /\ T ∉ pg_tenants (st_pg s')).
Proof using Hlike Huuid.
  unfold erase_postgres. destruct (te_postgres e) as [c|]; [|by split_and!].
  pose proof (postgres_erased uuid_text c T (st_pg s) Hlike Huuid) as H. destruct (EraseTenantRecords uuid_text c T (st_pg s)) as [res db']. destruct H as (? & ? & ? & H).
  split_and!; [done..|]. destruct res as [err|r]; [done|]. intros _. by apply (H r).
Qed.

Lemma erase_redis_spec e s : let '(c, s') := erase_redis scan e T s in
  st_pg s' = st_pg s /\ st_ch s' = st_ch s /\
  (forall T' k, plain T' = true -> T' <> T -> redis_key_of T' k -> rd_keys (st_redis s') !! k = rd_keys (st_redis s) !! k) /\
  (forall k, limiter_key T k -> rd_keys (st_redis s') !! k = rd_keys (st_redis s) !! k) /\
  (component_failed c = false -> forall k, redis_key_of T k -> ~ limiter_key T k -> rd_keys (st_redis s') !! k = None).
Proof using Hscan HT Hne.
  unfold erase_redis. destruct (te_redis e); [|done]. cbn [negb]. destruct (redis_erased (st_redis s)) as (H1 & H3 & H2).
  destruct (redis_PurgeTenant scan T (st_redis s)) as [[n|] rd']; cbn [fst snd] in *; (split_and!; [done..|]); [|done]. intros _. apply H2. by eexists.
Qed.

Lemma erase_clickhouse_spec e s : let '(c, s') := erase_clickhouse e T s in
  st_pg s' = st_pg s /\ st_redis s' = st_redis s /\
  (ch_shadow (st_ch s') = ch_shadow (st_ch s) /\ ch_labels (st_ch s') = ch_labels (st_ch s) /\ ch_rows (st_ch s') = ch_rows (st_ch s)) /\
  (component_failed c = false -> forall c', rtc mutation_step (st_ch s') c' -> ch_pending c' = [] -> forall t, t ∈ tenant_tables -> clean T t c').
Proof using Hne.
  unfold erase_clickhouse. destruct (te_analytics e) as [c|]; [|done]. pose proof (clickhouse_erased c (st_ch s)) as H.
  destruct (PurgeTenantData c T (st_ch s)) as [err ch']. destruct H as [H1 H2]. cbn [st_pg st_redis st_ch]. split_and!; [done|done|apply H1..|].
  destruct err; [done|]. intros _. by apply H2.
Qed.

Lemma status_accepted (m : gmap string TenantEraseComponent) :
  (if existsb (fun kv => component_failed kv.2) (map_to_list m) then "partial" else "accepted") <> "partial" ->
  forall k v, m !! k = Some v -> component_failed v = false.
Proof.
  intros Hst k v Hk. apply elem_of_map_to_list, list_elem_of_In in Hk. destruct (component_failed v) eqn:Ev; [|done].
  exfalso. apply Hst. rewrite (proj2 (existsb_exists _ _)); [done|]. by exists (k, v).
Qed.

Lemma Erase_spec e id t0 t1 s : trim_space T = T ->
  let '(rec, s') := Erase uuid_text scan (Some e) T id t0 t1 s in untouched T s s' /\ (tr_Status rec <> "partial" -> erased T s').
Proof using Hscan HT Hlike Huuid Hne.
  intros Htrim. unfold Erase. rewrite Htrim. destruct (String.eqb_spec T ""); [done|]. change (default (mkEraser None false None) (Some e)) with e.
  pose proof (erase_postgres_spec e s) as Hp. destruct (erase_postgres uuid_text e T s) as [p s1]. destruct Hp as (E1 & E2 & P1 & P2 & P3 & P4).
  pose proof (erase_redis_spec e s1) as Hr. destruct (erase_redis scan e T s1) as [r s2]. destruct Hr as (E3 & E4 & R1 & R3 & R2).
  pose proof (erase_clickhouse_spec e s2) as Hc. destruct (erase_clickhouse e T s2) as [c s3]. destruct Hc as (E5 & E6 & C1 & C2).
  cbv beta iota zeta. split.
  { constructor; rewrite ?E5, ?E6, ?E3; [exact P1|exact P2|exact P3| | |].
    - intros T' k HT' Hd Hk. rewrite <- E1. by eapply R1.
    - intros k Hk. rewrite <- E1. by apply R3.
    - by rewrite <- E2, <- E4. }
  cbn [tr_Status]. intros Hst. pose proof (status_accepted _ Hst) as Hall. clear Hst.
  destruct (P4 (Hall "postgres" p (lookup_insert_eq _ _ _))) as (? & ? & ?). constructor; rewrite ?E5, ?E6, ?E3; try done.
  - apply R2, (Hall "redis"). rewrite lookup_insert_ne by done. apply lookup_insert_eq.
  - apply C2, (Hall "clickhouse"). rewrite !lookup_insert_ne by done. apply lookup_singleton_eq.
Qed.
End Erasing.

(** C26. Erasing a tenant through the endpoint: whatever fails, the keys, credentials, counters,
    runs, cached answers and rate-limit buckets of every other tenant stay as they are, and no
    key of the tenant is cached any more by the replica; the answer 200 means that PostgreSQL has
    no row, key or credential of the tenant, that Redis has none of its keys but the two buckets
    of its rate limit, which no pattern of the erasure matches and which stay until they expire,
    and that, once ClickHouse has executed its mutations, in whatever order, none of the tables
    with tenants has a row of it.  (A canonical UUID, which is without the special characters of
    globs and of LIKE; a SCAN returns exactly the keys that match; requests of the tenant that are
    under way, and could write again, are not considered.) *)
Theorem tenant_erasure_exact {L : Type} (order : Middleware (L := L) -> list string) (uuid_text : string -> option string) (scan : string -> gmap string (list string) -> list (list string))
  (Hscan : forall p ks k, k ∈ concat (scan p ks) <-> is_Some (ks !! k) /\ redis_match p k = true)
  (T : string) (HT : plain T = true) (Hlike : like_plain T = true) (Huuid : uuid_text T = Some T) (Htrim : trim_space T = T) (Hne : T <> "")
  (e : TenantEraser) (auth : Middleware (L := L)) (publish : option (option string)) (id : string) (t0 t1 : Time) (s : stores)
  (Hwf : lru_wf (mw_posCache auth)) (Horder : order auth ≡ₚ elements (dom (lc_items (mw_posCache auth)) : gset string)) :
  let '((code, _), auth', published, s') := handleTenantErase uuid_text scan order (Some e) (Some auth) publish T id t0 t1 s in
  untouched T s s' /\
  (code = 200 -> erased T s' /\ (is_Some publish -> published = [(OpTenantErased, TenantErasedArgs T id)])) /\
  (forall a, auth' = Some a -> forall h i, lc_items (mw_posCache a) !! h = Some i -> TenantID (li_val i) <> T).
Proof.
  unfold handleTenantErase. rewrite Htrim. destruct (String.eqb_spec T "") as [->|_]; [done|].
  pose proof (Erase_spec uuid_text scan Hscan T HT Hlike Huuid Hne e id t0 t1 s Htrim) as He.
  assert (tr_ID (Erase uuid_text scan (Some e) T id t0 t1 s).1 = id) as Hid.
  { unfold Erase. rewrite Htrim. destruct (String.eqb T ""); [done|]. destruct (erase_postgres _ _ _) as [? ?], (erase_redis _ _ _ _) as [? ?], (erase_clickhouse _ _ _) as [? ?]. done. }
  destruct (Erase _ _ _ _ _ _ _) as [rec s']. cbn [fst] in Hid. destruct He as [Hu He]. split; [done|]. split.
  - destruct publish as [[err|]|]; cbn [tr_Status]; [done| |]; (destruct (String.eqb_spec (tr_Status rec) "partial") as [|Hst]; [done|]); intros _;
      (split; [by apply He|]); intros Hp; [by rewrite Hid|by destruct Hp].
  - cbn [option_map]. intros a [= <-] h i Hi. rewrite tenant_eviction_complete in Hi by (done || by rewrite Htrim).
    destruct (lc_items (mw_posCache auth) !! h) as [j|]; [|done]. destruct (decide _) as [|Hd]; [done|]. by injection Hi as <-.
Qed.

(** ** What special characters and the order of mutations do *)

Definition some_row : credential_row := mkRow (mkSealed "" "" "" "") "" 0 true.

(** The mutation of the labels reads cache_shadow when it is executed: when that table's own
    mutation has run before, the labels of the tenant stay. *)
Theorem labels_can_be_orphaned : exists c',
  let c := mkCh [("s1", "a")] ["s1"] ∅ [] [] in
  (PurgeTenantData true "a" c).1 = None /\ rtc mutation_step (PurgeTenantData true "a" c).2 c' /\ ch_pending c' = [] /\ ch_labels c' = ["s1"] /\ ch_shadow c' = [].
Proof.
  set (shadow_first := [DeleteLabels "a"; DeleteRows "usage_events" "a"; DeleteRows "routing_shadow" "a"; DeleteRows "routing_decisions" "a"; DeleteRows "mcp_calls" "a"]).
  assert (forall ls c, ch_pending c = ls -> ch_shadow c = [] -> ch_labels c = ["s1"] -> Forall (fun q => q ∈ shadow_first) ls ->
    exists c', rtc mutation_step c c' /\ ch_pending c' = [] /\ ch_labels c' = ["s1"] /\ ch_shadow c' = []) as Hrun.
  { induction ls as [|q ls IH]; intros c Hp Hs Hl Hq; [by exists c|]. apply Forall_cons in Hq as [Hq Hls].
    destruct (IH (execute q ls c)) as (c' & Hc & H1); [by apply execute_pending| | |done|].
    - unfold shadow_first in Hq. rewrite !elem_of_cons in Hq. destruct Hq as [->|[->|[->|[->|[->|H%not_elem_of_nil]]]]]; done.
    - unfold shadow_first in Hq. rewrite !elem_of_cons in Hq. destruct Hq as [->|[->|[->|[->|[->|H%not_elem_of_nil]]]]]; try done. cbn. by rewrite Hs, Hl.
    - exists c'. split; [|done]. eapply rtc_l; [|exact Hc]. by apply (mstep [] q ls). }
  set (c0 := (PurgeTenantData true "a" (mkCh [("s1", "a")] ["s1"] ∅ [] [])).2).
  destruct (Hrun shadow_first (execute (DeleteRows "cache_shadow" "a") shadow_first c0)) as (c' & Hc & H1 & H2 & H3); [done..| |].
  { unfold shadow_first. repeat constructor; by repeat (first [left|right]). }
  exists c'. cbv zeta. fold c0. split_and!; [done| |done..]. eapply rtc_l; [|exact Hc].
  apply (mstep [DeleteLabels "a"; DeleteRows "usage_events" "a"] (DeleteRows "cache_shadow" "a")
           [DeleteRows "routing_shadow" "a"; DeleteRows "routing_decisions" "a"; DeleteRows "mcp_calls" "a"] c0); [done|]. by repeat constructor.
Qed.

(** ** Ids that are not canonical *)

(** For the examples: a UUID is what has no star, and is kept in small letters. *)
Definition toy_uuid (s : string) : option string := if contains s "*" then None else Some (lower_ascii s).

Definition demo_stores : stores :=
  mkStores (mkPg {["k1" := "a"; "k2" := "b"]} {[("a/openai", 1) := some_row; ("openai", 1) := some_row]} {["a"; "b"]} [])
    (mkRedis {[ledgerKey "a" "2024-02" := []; ledgerKey "b" "2024-02" := []; ExactKey "a" "chat" "h" := []; (RateLimit.keys "a").1 := []]} [])
    (mkCh [("s1", "a"); ("s2", "b")] ["s1"] {["usage_events" := ["a"; "b"; "a"]]} [] []).
Definition demo_auth : Middleware (L := unit) := NewMiddlewareWithConfig (fun _ => S754_zero false) 60 60 10.
Definition demo_order (m : Middleware (L := unit)) : list string := elements (dom (lc_items (mw_posCache m)) : gset string).

(** An id that PostgreSQL refuses is not refused before the other stores are asked: the star
    erases the counters of everybody. *)
Example star_erases_everybody :
  let '((code, _), _, _, s') := handleTenantErase toy_uuid ToyRedis.scan1 demo_order (Some (NewTenantEraser true true true)) (Some demo_auth) None "*" "r1" 0 1 demo_stores in
  (code, map_to_list (rd_keys (st_redis s')), map_to_list (pg_keys (st_pg s'))) = (207, [((RateLimit.keys "a").1, [])], map_to_list (pg_keys (st_pg demo_stores))).
Proof. vm_compute. reflexivity. Qed.

(** An id in capital letters names the same tenant for PostgreSQL and nobody for the others:
    the answer is 200, and Redis and the credentials keep all they have. *)
Example capitals_keep_redis :
  let '((code, _), _, _, s') := handleTenantErase toy_uuid ToyRedis.scan1 demo_order (Some (NewTenantEraser true true true)) (Some demo_auth) None "A" "r1" 0 1 demo_stores in
  (code, elements (pg_tenants (st_pg s')), map_to_list (rd_keys (st_redis s')), map fst (map_to_list (pg_creds (st_pg s')))) =
  (200, ["b"], map_to_list (rd_keys (st_redis demo_stores)), map fst (map_to_list (pg_creds (st_pg demo_stores)))).
Proof. vm_compute. reflexivity. Qed.

Lemma tenant_erasure_exact_witness :
  let '((code, _), _, published, s') := handleTenantErase toy_uuid ToyRedis.scan1 demo_order (Some (NewTenantEraser true true true)) (Some demo_auth) (Some None) "a" "r1" 0 1 demo_stores in
  code = 200 /\ published = [(OpTenantErased, TenantErasedArgs "a" "r1")] /\ erased "a" s' /\
  pg_keys (st_pg s') !! "k2" = Some "b" /\ rd_keys (st_redis s') !! ledgerKey "b" "2024-02" = Some [] /\
  rd_keys (st_redis s') !! (RateLimit.keys "a").1 = Some [].
Proof.
  pose proof (tenant_erasure_exact demo_order toy_uuid ToyRedis.scan1 ToyRedis.scan1_ok "a" eq_refl eq_refl eq_refl eq_refl ltac:(done) (NewTenantEraser true true true) demo_auth
    (Some None) "r1" 0 1 demo_stores (NewLRU_wf _ _) (Permutation_refl _)) as H.
  assert ((handleTenantErase toy_uuid ToyRedis.scan1 demo_order (Some (NewTenantEraser true true true)) (Some demo_auth) (Some None) "a" "r1" 0 1 demo_stores).1.1.1.1 = 200) as Hcode
    by (vm_compute; reflexivity).
  destruct (handleTenantErase _ _ _ _ _ _ _ _ _ _ _) as [[[[code body] auth'] published] s']. cbn [fst] in Hcode. subst code. destruct H as (Hu & H & _).
  destruct (H eq_refl) as [He Hp]. split_and!; [done|apply Hp; by eexists|done| | |].
  - by apply (un_keys _ _ _ Hu).
  - rewrite (un_redis _ _ _ Hu "b" (ledgerKey "b" "2024-02")); [vm_compute; reflexivity|done|done|apply rk_budget].
  - rewrite (un_limiter _ _ _ Hu (RateLimit.keys "a").1); [vm_compute; reflexivity|by left].
Defined.
