(* ===== verification/KeyStore.v ===== *)
(** * Tenants and API keys (src/internal/store/store.go, auth/keys.go, server/admin_cp.go)

    The tables [tenants] and [api_keys] with their constraints and the statements that use
    them, the generation of keys, and the endpoint that revokes one.  PostgreSQL's reading of
    a text as a uuid, its collation and the order in which it finds rows are parameters; the
    policies are stored by value. *)

From S2P Require Import Prelude GoStrings Encoding GoFloat GoSort Config Control Api Policy Lru Credentials Auth AdminAuth.

Open Scope string_scope.
Open Scope list_scope.
Open Scope Z_scope.

(** ** The tables *)

Record TenantRow := mkTenantRow { tn_Name : string; tn_Policy : TenantPolicy; tn_CreatedAt : Time }.
Record KeyRow := mkKeyRow {
  ky_TenantID : string; ky_Name : string; ky_Prefix : string; ky_Hash : string; ky_AllowedRoutes : list string; ky_Policy : KeyPolicy;
  ky_CreatedAt : Time; ky_RevokedAt : option Time }.

(** By their ids in canonical text. *)
Record keys_db := mkKeysDb { db_tenants : gmap string TenantRow; db_keys : gmap string KeyRow }.

(** A statement that is refused, or whose answer is lost, is an error of the backend. *)
Definition commit {A : Type} (f : fate) (db db' : keys_db) (a : A) : (lookup_error + A) * keys_db :=
  match f with Commits => (inr a, db') | Refused => (inl ErrBackend, db) | Unanswered => (inl ErrBackend, db') end.

Definition revoke (now : Time) (k : KeyRow) : KeyRow :=
  mkKeyRow (ky_TenantID k) (ky_Name k) (ky_Prefix k) (ky_Hash k) (ky_AllowedRoutes k) (ky_Policy k) (ky_CreatedAt k) (Some now).

Definition named (name : string) (kv : string * TenantRow) : Prop := tn_Name kv.2 = name.
Definition hashed (hash : string) (kv : string * KeyRow) : Prop := ky_Hash kv.2 = hash.
Definition usable (hash : string) (kv : string * KeyRow) : Prop := ky_Hash kv.2 = hash /\ ky_RevokedAt kv.2 = None.
#[export] Instance named_dec n kv : Decision (named n kv).
Proof. unfold named. apply _. Defined.
#[export] Instance hashed_dec h kv : Decision (hashed h kv).
Proof. unfold hashed. apply _. Defined.
#[export] Instance usable_dec h kv : Decision (usable h kv).
Proof. unfold usable. apply _. Defined.

Section Statements.
Context (uuid_text : string -> option string) (collate : string -> string -> bool).

(** [id]: the one PostgreSQL generates. *)
Definition CreateTenant (f : fate) (now : Time) (id name : string) (p : TenantPolicy) (db : keys_db) : (lookup_error + string * TenantRow) * keys_db :=
  match filter (named name) (map_to_list (db_tenants db)), db_tenants db !! id with
  | [], None => let t := mkTenantRow name p now in commit f db (mkKeysDb (<[id := t]> (db_tenants db)) (db_keys db)) (id, t)
  | _, _ => (inl ErrBackend, db)
  end.

Definition first_row {A : Type} (answered : bool) (rows : list A) : lookup_error + A :=
  if negb answered then inl ErrBackend else match rows with r :: _ => inr r | [] => inl ErrNotFound end.

Definition TenantByName (answered : bool) (name : string) (db : keys_db) : lookup_error + string * TenantRow :=
  first_row answered (filter (named name) (map_to_list (db_tenants db))).

Definition GetTenant (answered : bool) (id : string) (db : keys_db) : lookup_error + string * TenantRow :=
  match uuid_text id with
  | None => inl ErrBackend
  | Some u => first_row answered (match db_tenants db !! u with Some t => [(u, t)] | None => [] end)
  end.

Definition ListTenants (answered : bool) (db : keys_db) : lookup_error + list (string * TenantRow) :=
  if answered then inr (stable_sort (fun a b => collate (tn_Name a.2) (tn_Name b.2)) (map_to_list (db_tenants db))) else inl ErrBackend.

Definition UpdateTenantPolicy (f : fate) (id : string) (p : TenantPolicy) (db : keys_db) : (lookup_error + unit) * keys_db :=
  match uuid_text id with
  | None => (inl ErrBackend, db)
  | Some u =>
      match db_tenants db !! u with
      | Some t => commit f db (mkKeysDb (<[u := mkTenantRow (tn_Name t) p (tn_CreatedAt t)]> (db_tenants db)) (db_keys db)) tt
      | None => match f with Commits => (inl ErrNotFound, db) | _ => (inl ErrBackend, db) end
      end
  end.

Definition CreateKey (f : fate) (now : Time) (id tenantID name prefix hash : string) (routes : list string) (p : KeyPolicy) (db : keys_db)
    : (lookup_error + string * KeyRow) * keys_db :=
  match uuid_text tenantID with
  | None => (inl ErrBackend, db)
  | Some u =>
      match db_tenants db !! u, filter (hashed hash) (map_to_list (db_keys db)), db_keys db !! id with
      | Some _, [], None =>
          let k := mkKeyRow u name prefix hash routes p now None in commit f db (mkKeysDb (db_tenants db) (<[id := k]> (db_keys db))) (id, k)
      | _, _, _ => (inl ErrBackend, db)
      end
  end.

Definition record_of (kv : string * KeyRow) (t : TenantRow) : KeyRecord :=
  mkKeyRecord (mkAPIKey kv.1 (ky_Name kv.2) (ky_AllowedRoutes kv.2) (ky_Policy kv.2)) (mkStoreTenant (ky_TenantID kv.2) (tn_Name t) (tn_Policy t)).

Definition join_tenant (db : keys_db) (kv : string * KeyRow) : option KeyRecord := record_of kv <$> db_tenants db !! ky_TenantID kv.2.

Definition KeyByHash (answered : bool) (hash : string) (db : keys_db) : lookup_error + KeyRecord :=
  first_row answered (omap (join_tenant db) (filter (usable hash) (map_to_list (db_keys db)))).

Definition RevokeKeyWithHash (f : fate) (now : Time) (id : string) (db : keys_db) : (lookup_error + string) * keys_db :=
  match uuid_text id with
  | None => (inl ErrBackend, db)
  | Some u =>
      match db_keys db !! u with
      | Some k =>
          match ky_RevokedAt k with
          | None => commit f db (mkKeysDb (db_tenants db) (<[u := revoke now k]> (db_keys db))) (ky_Hash k)
          | Some _ => match f with Commits => (inl ErrNotFound, db) | _ => (inl ErrBackend, db) end
          end
      | None => match f with Commits => (inl ErrNotFound, db) | _ => (inl ErrBackend, db) end
      end
  end.

Definition RevokeKey (f : fate) (now : Time) (id : string) (db : keys_db) : option lookup_error * keys_db :=
  let '(r, db) := RevokeKeyWithHash f now id db in (match r with inl e => Some e | inr _ => None end, db).

(** The errors: of the statement, or of the publisher after it. *)
Definition RevokeKeyAndPublish (f : fate) (now : Time) (id : string) (publish : option (string -> option string)) (db : keys_db)
    : option (lookup_error + string) * keys_db :=
  let '(r, db) := RevokeKeyWithHash f now id db in
  (match r with
   | inl e => Some (inl e)
   | inr hash => match publish with Some p => (fun e => inr ("key revoked but invalidation publish failed: " +:+ e)) <$> p hash | None => None end
   end, db).

Definition ListKeys (answered : bool) (tenantID : string) (db : keys_db) : lookup_error + list (string * KeyRow) :=
  match uuid_text tenantID with
  | None => inl ErrBackend
  | Some u =>
      if answered then inr (stable_sort (fun a b => ky_CreatedAt a.2 <? ky_CreatedAt b.2) (filter (fun kv => ky_TenantID kv.2 = u) (map_to_list (db_keys db))))
      else inl ErrBackend
  end.
End Statements.

(** ** Keys *)

Section Keys.
Context (sha256 : string -> string).

(** [b]: the 32 random bytes, or the error of the generator. *)
Definition GenerateKey (env : string) (b : option string) : option (string * string * string) :=
  match b with
  | None => None
  | Some b => let plaintext := "pg_" +:+ env +:+ "_" +:+ b64url b in Some (plaintext, stake 12 plaintext, HashKey sha256 plaintext)
  end.
End Keys.

(** ** What the constraints keep *)

(** Hashes and names are unique, and the tenants of keys exist. *)
Record db_wf (db : keys_db) : Prop := {
  wf_hashes : forall i j k l, db_keys db !! i = Some k -> db_keys db !! j = Some l -> ky_Hash k = ky_Hash l -> i = j;
  wf_names : forall i j t u, db_tenants db !! i = Some t -> db_tenants db !! j = Some u -> tn_Name t = tn_Name u -> i = j;
  wf_tenants : forall i k, db_keys db !! i = Some k -> is_Some (db_tenants db !! ky_TenantID k) }.

(** The foreign key cascades. *)
Definition without_tenant (u : string) (db : keys_db) : keys_db :=
  mkKeysDb (delete u (db_tenants db)) (filter (fun kv => ky_TenantID kv.2 <> u) (db_keys db)).

Lemma commit_cases {A} f (db db' : keys_db) (a : A) :
  ((commit f db db' a).2 = db \/ (commit f db db' a).2 = db') /\ (forall b, (commit f db db' a).1 = inr b -> b = a /\ (commit f db db' a).2 = db').
Proof. destruct f; cbn; naive_solver. Qed.

Lemma filter_nil_map `{Countable K} {A} (P : K * A -> Prop) `{!forall x, Decision (P x)} (m : gmap K A) i x :
  filter P (map_to_list m) = [] -> m !! i = Some x -> ~ P (i, x).
Proof. intros Hf Hi HP. apply (not_elem_of_nil (i, x)). rewrite <- Hf. apply list_elem_of_filter. split; [done|]. by apply elem_of_map_to_list. Qed.

Lemma CreateTenant_wf f now id name p db : db_wf db -> db_wf (CreateTenant f now id name p db).2.
Proof.
  intros [H1 H2 H3]. unfold CreateTenant. destruct (filter _ _) eqn:Ef; [|done]. destruct (db_tenants db !! id) eqn:Ei; [done|].
  destruct (commit_cases f db (mkKeysDb (<[id := mkTenantRow name p now]> (db_tenants db)) (db_keys db)) (id, mkTenantRow name p now)) as [[-> | ->] _]; [done|].
  split; cbn; [done| |].
  - intros i j t u. rewrite !lookup_insert_Some. intros [[<- <-]|[? Hi]] [[<- <-]|[? Hj]] E; [done| | |by eapply H2].
    + by apply (filter_nil_map _ _ _ _ Ef) in Hj.
    + by apply (filter_nil_map _ _ _ _ Ef) in Hi.
  - intros i k Hi. rewrite lookup_insert_is_Some'. right. by eapply H3.
Qed.

Section Wf.
Context (uuid_text : string -> option string).

Lemma UpdateTenantPolicy_wf f id p db : db_wf db -> db_wf (UpdateTenantPolicy uuid_text f id p db).2.
Proof.
  intros [H1 H2 H3]. unfold UpdateTenantPolicy. destruct (uuid_text id) as [u|]; [|done]. destruct (db_tenants db !! u) as [t|] eqn:Eu; [|by destruct f].
  destruct (commit_cases f db (mkKeysDb (<[u := mkTenantRow (tn_Name t) p (tn_CreatedAt t)]> (db_tenants db)) (db_keys db)) tt) as [[-> | ->] _]; [done|].
  split; cbn; [done| |].
  - intros i j t1 t2. rewrite !lookup_insert_Some. intros [[<- <-]|[? Hi]] [[<- <-]|[? Hj]] E; cbn in E; [done| | |by eapply H2]; exfalso; eauto.
  - intros i k Hi. rewrite lookup_insert_is_Some'. right. by eapply H3.
Qed.

Lemma CreateKey_wf f now id T name prefix hash routes p db : db_wf db -> db_wf (CreateKey uuid_text f now id T name prefix hash routes p db).2.
Proof.
  intros [H1 H2 H3]. unfold CreateKey. destruct (uuid_text T) as [u|]; [|done]. destruct (db_tenants db !! u) as [t|] eqn:Eu; [|done].
  destruct (filter _ _) eqn:Ef; [|done]. destruct (db_keys db !! id) eqn:Ei; [done|].
  set (k := mkKeyRow u name prefix hash routes p now None).
  destruct (commit_cases f db (mkKeysDb (db_tenants db) (<[id := k]> (db_keys db))) (id, k)) as [[-> | ->] _]; [done|].
  split; cbn; [|done|].
  - intros i j t1 t2. rewrite !lookup_insert_Some. intros [[<- <-]|[? Hi]] [[<- <-]|[? Hj]] E; cbn in E; [done| | |by eapply H1].
    + by apply (filter_nil_map _ _ _ _ Ef) in Hj.
    + by apply (filter_nil_map _ _ _ _ Ef) in Hi.
  - intros i k0. rewrite lookup_insert_Some. intros [[<- <-]|[? Hi]]; [by exists t|by eapply H3].
Qed.

Lemma RevokeKeyWithHash_cases f now id db :
  (RevokeKeyWithHash uuid_text f now id db).2 = db /\ (forall h, (RevokeKeyWithHash uuid_text f now id db).1 <> inr h) \/
  exists u k, uuid_text id = Some u /\ db_keys db !! u = Some k /\ ky_RevokedAt k = None /\
    (RevokeKeyWithHash uuid_text f now id db).2 = mkKeysDb (db_tenants db) (<[u := revoke now k]> (db_keys db)) /\
    (forall h, (RevokeKeyWithHash uuid_text f now id db).1 = inr h -> h = ky_Hash k).
Proof.
  unfold RevokeKeyWithHash. destruct (uuid_text id) as [u|]; [|by left]. destruct (db_keys db !! u) as [k|] eqn:Ek; [|left; by destruct f].
  destruct (ky_RevokedAt k) eqn:Er; [left; by destruct f|].
  destruct f; cbn; [right; exists u, k; naive_solver|by left|right; exists u, k; naive_solver].
Qed.

Lemma RevokeKeyWithHash_wf f now id db : db_wf db -> db_wf (RevokeKeyWithHash uuid_text f now id db).2.
Proof.
  intros Hwf. destruct (RevokeKeyWithHash_cases f now id db) as [[-> _]|(u & k & Hu & Hk & Hr & -> & _)]; [done|]. destruct Hwf as [H1 H2 H3].
  split; cbn; [|done|].
  - intros i j t1 t2. rewrite !lookup_insert_Some. intros [[<- <-]|[? Hi]] [[<- <-]|[? Hj]] E; cbn in E; [done| | |by eapply H1]; exfalso; eauto.
  - intros i k0. rewrite lookup_insert_Some. intros [[<- <-]|[? Hi]]; [|by eapply H3]. cbn. by eapply H3.
Qed.
End Wf.

Lemma without_tenant_wf u db : db_wf db -> db_wf (without_tenant u db).
Proof.
  intros [H1 H2 H3]. split; cbn.
  - intros i j k l [? _]%map_lookup_filter_Some [? _]%map_lookup_filter_Some. by apply H1.
  - intros i j k l [? ?]%lookup_delete_Some [? ?]%lookup_delete_Some. by apply H2.
  - intros i k [Hi Hu]%map_lookup_filter_Some. cbn in Hu. rewrite lookup_delete_ne by done. by eapply H3.
Qed.

(** ** Lookups *)

(** Every key with this hash is revoked. *)
Definition spent (hash : string) (db : keys_db) : Prop := forall i k, db_keys db !! i = Some k -> ky_Hash k = hash -> ky_RevokedAt k <> None.

Lemma KeyByHash_found answered hash db rec : KeyByHash answered hash db = inr rec ->
  exists i k t, db_keys db !! i = Some k /\ ky_Hash k = hash /\ ky_RevokedAt k = None /\ db_tenants db !! ky_TenantID k = Some t /\ rec = record_of (i, k) t.
Proof.
  unfold KeyByHash, first_row. destruct (negb answered); [done|]. destruct (omap _ _) as [|r l] eqn:E; [done|]. intros [= ->].
  assert (rec ∈ omap (join_tenant db) (filter (usable hash) (map_to_list (db_keys db)))) as Hin by (rewrite E; by left).
  apply list_elem_of_omap in Hin as ([i k] & Hk & Hj). apply list_elem_of_filter in Hk as [[Hh Hr] Hk%elem_of_map_to_list].
  unfold join_tenant in Hj. cbn in *. destruct (db_tenants db !! ky_TenantID k) as [t|] eqn:Et; [|done]. injection Hj as <-. eauto 10.
Qed.

Lemma KeyByHash_spent answered hash db rec : spent hash db -> KeyByHash answered hash db <> inr rec.
Proof. intros Hs (i & k & t & Hi & Hh & Hr & _)%KeyByHash_found. by apply (Hs i k). Qed.

Lemma KeyByHash_wf db i k t : db_wf db -> db_keys db !! i = Some k -> ky_RevokedAt k = None -> db_tenants db !! ky_TenantID k = Some t ->
  KeyByHash true (ky_Hash k) db = inr (record_of (i, k) t).
Proof.
  intros Hwf Hi Hr Ht. destruct (KeyByHash true (ky_Hash k) db) as [e|rec] eqn:E.
  - exfalso. unfold KeyByHash, first_row in E. cbn in E. destruct (omap _ _) as [|r l] eqn:Eo; [|done].
    apply (not_elem_of_nil (record_of (i, k) t)). rewrite <- Eo. apply list_elem_of_omap. exists (i, k). split.
    + apply list_elem_of_filter. split; [done|]. by apply elem_of_map_to_list.
    + unfold join_tenant. cbn. by rewrite Ht.
  - apply KeyByHash_found in E as (j & l & u & Hj & Hh & _ & Hu & ->). assert (i = j) as <- by (by eapply wf_hashes). congruence.
Qed.

(** ** The gateway and its store *)

(** The database, the clock, and whether the next queries are answered. *)
Record world := mkWorld { wo_db : keys_db; wo_now : Time; wo_answers : list bool }.

#[export] Instance store_lookup : KeyLookup world := {
  clock w := wo_now w;
  KeyByHash h w := (mkWorld (wo_db w) (wo_now w) (tail (wo_answers w)), KeyByHash (default true (head (wo_answers w))) h (wo_db w))
}.

Section Handler.
Context (uuid_text : string -> option string) {L : Type}.

(** What the handler leaves: the answer, the caches, the messages published, the audit
    records, the database. *)
Record revocation := mkRevocation {
  rv_Status : Z; rv_Body : list (string * string); rv_auth : option (Middleware (L := L)); rv_published : list (string * gmap string string);
  rv_audit : list AdminStore.AuditRow; rv_db : keys_db }.

(** [has_store]: the store can revoke keys.  [sess]: the name in the session.  [publish]:
    whether there is a bus, and its error. *)
Definition handleRevokeKey (has_store : bool) (pathID : string) (f : fate) (now : Time) (sess : option string) (ip : string)
    (publish : option (option string)) (auth : option (Middleware (L := L))) (db : keys_db) : revocation :=
  let id := trim_space pathID in
  let refuse code body db := mkRevocation code body auth [] [] db in
  if negb has_store then refuse 503 [("error", "key revocation store unavailable")] db
  else
    match RevokeKeyWithHash uuid_text f now id db with
    | (inl Auth.ErrNotFound, db) => refuse 404 [("error", "not_found"); ("message", "API key not found or already revoked")] db
    | (inl ErrBackend, db) => refuse 500 [("error", "internal_error"); ("message", "failed to revoke API key")] db
    | (inr hash, db) =>
        let auth := EvictKey (hex_encode hash) <$> auth in
        let actor := match sess with Some u => if String.eqb u "" then "admin" else u | None => "admin" end in
        let published := match publish with Some _ => [(OpKeyRevoked, KeyRevokedArgs hash)] | None => [] end in
        match publish with
        | Some (Some _) =>
            mkRevocation 503 [("error", "partial"); ("message", "API key revoked locally but replica invalidation could not be published")]
              auth published [AdminStore.mkAuditRow actor "key.revoke" id [] ip "partial"] db
        | _ => mkRevocation 200 [("status", "revoked"); ("key_id", id)] auth published [AdminStore.mkAuditRow actor "key.revoke" id [] ip "ok"] db
        end
    end.
End Handler.

(** *** What may happen afterwards *)

Section Afterwards.
Context {L : Type} (new_limiter : spec_float -> Z -> L) (limiter_allow : Time -> L -> bool * L) (limiter_tokens : Time -> L -> spec_float)
  (sha256 : string -> string) (uuid_text : string -> option string).

(** What becomes of the tables, but for the creation of another key with the hash. *)
Inductive store_step (hash : string) : keys_db -> keys_db -> Prop :=
| ss_tenant f now id name p db : store_step hash db (CreateTenant f now id name p db).2
| ss_policy f id p db : store_step hash db (UpdateTenantPolicy uuid_text f id p db).2
| ss_key f now id T name prefix hash' routes p db : hash' <> hash -> store_step hash db (CreateKey uuid_text f now id T name prefix hash' routes p db).2
| ss_revoke f now id db : store_step hash db (RevokeKeyWithHash uuid_text f now id db).2
| ss_erase u db : store_step hash db (without_tenant u db).

(** The tables change so, and time passes. *)
Inductive world_moves (hash : string) : world -> world -> Prop :=
| wm_moves db db' now now' answers answers' : reachable (store_step hash) db db' -> now <= now' ->
    world_moves hash (mkWorld db now answers) (mkWorld db' now' answers').

Lemma store_step_spent hash db db' : store_step hash db db' -> spent hash db -> spent hash db'.
Proof.
  intros Hs Hsp. destruct Hs as [f now id name p db|f id p db|f now id T name prefix hash' routes p db Hne|f now id db|u db].
  - unfold CreateTenant. destruct (filter _ _), (db_tenants db !! id); try done. by destruct f.
  - unfold UpdateTenantPolicy. destruct (uuid_text id) as [u|]; [|done]. destruct (db_tenants db !! u); by destruct f.
  - unfold CreateKey. destruct (uuid_text T) as [u|]; [|done]. destruct (db_tenants db !! u); [|done]. destruct (filter _ _); [|done]. destruct (db_keys db !! id); [done|].
    destruct f; try done; cbn; intros i k; cbn; rewrite lookup_insert_Some; (intros [[<- <-]|[_ Hi]] E; [done|by apply (Hsp i k)]).
  - destruct (RevokeKeyWithHash_cases uuid_text f now id db) as [[-> _]|(u & k & Hu & Hk & Hr & -> & _)]; [done|].
    intros i k'. cbn. rewrite lookup_insert_Some. intros [[<- <-]|[_ Hi]] E; [done|by apply (Hsp i k')].
  - intros i k Hi. apply map_lookup_filter_Some in Hi as [Hi _]. by apply (Hsp i k).
Qed.

Lemma store_steps_spent hash db db' : reachable (store_step hash) db db' -> spent hash db -> spent hash db'.
Proof. intros Hr Hsp. eapply (reachable_invariant (store_step hash) (spent hash)); [exact Hsp| |exact Hr]. intros d d' ? ?. by eapply store_step_spent. Qed.

(** *** Lookups that were in flight *)

Abbreviation gate := (gate (L := L) (W := world)).
Abbreviation gate_moves := (gate_step new_limiter limiter_allow limiter_tokens sha256).

Section Race.
Context (hash : string) (ttl : Duration) (s0 : gate).
Implicit Types s : gate.

(** A lookup of the key that the key store had already answered with a record, in [s0], and
    whose result is still to be handed out. *)
Definition racing (fl : nat) : Prop := exists f, gs_flights s0 !! fl = Some f /\ fl_hash f = hash /\
  match fl_at f with
  | FRead (inr _) | FStored _ (inr (Some _)) => True
  | FDone _ (inr (Some _)) => exists i r lim, gs_reqs s0 !! i = Some (r, RqWait lim fl)
  | _ => False
  end.

(** The cache gave at [t] what such a lookup had stored, at most [ttl] before. *)
Definition stale s (t : Time) (p : Principal) : Prop := exists fl f td,
  racing fl /\ gs_flights s !! fl = Some f /\ found_by f = Some (td, p) /\ (0 < ttl -> t <= td + ttl).

(** From the cache, or from a lookup that is such a lookup or had it from the cache. *)
Definition leaked s (t : Time) (via : option nat) (p : Principal) : Prop :=
  match via with
  | None => stale s t p
  | Some fl => exists f t', gs_flights s !! fl = Some f /\ found_by f = Some (t', p) /\ (racing fl \/ stale s t' p)
  end.

Definition grows s s' : Prop := forall fl f x, gs_flights s !! fl = Some f -> found_by f = Some x -> exists f', gs_flights s' !! fl = Some f' /\ found_by f' = Some x.

Lemma grows_sub s s' : gs_flights s ⊆ gs_flights s' -> grows s s'.
Proof. intros Hs fl f x Hf Hx. exists f. split; [by eapply lookup_weaken|done]. Qed.

Lemma stale_mono s s' t p : grows s s' -> stale s t p -> stale s' t p.
Proof. intros Hg (fl & f & td & H1 & H2 & H3 & H4). destruct (Hg _ _ _ H2 H3) as (f' & ? & ?). by exists fl, f', td. Qed.

Lemma leaked_mono s s' t via p : grows s s' -> leaked s t via p -> leaked s' t via p.
Proof.
  intros Hg. destruct via as [fl|]; [|by apply stale_mono]. intros (f & t' & H1 & H2 & H3). destruct (Hg _ _ _ H1 H2) as (f' & ? & ?).
  exists f', t'. split_and!; [done..|]. destruct H3 as [|H3]; [by left|right; by eapply stale_mono].
Qed.

Definition unwaited s (fl : nat) (f : flight) : Prop := is_open hash f = false /\ forall i r lim, gs_reqs s !! i <> Some (r, RqWait lim fl).

Record race_inv s : Prop := {
  ri_ok : gate_ok sha256 ttl s;
  ri_spent : spent hash (wo_db (gs_w s));
  ri_cache : forall it, lc_items (mw_posCache (gs_mw s)) !! hash = Some it -> exists fl f td,
    racing fl /\ gs_flights s !! fl = Some f /\ found_by f = Some (td, li_val it) /\ li_expires it = expiry ttl td;
  ri_read : forall fl f rec, gs_flights s !! fl = Some f -> fl_hash f = hash -> fl_at f = FRead (inr rec) -> racing fl;
  ri_found : forall fl f t p, gs_flights s !! fl = Some f -> fl_hash f = hash -> found_by f = Some (t, p) -> racing fl \/ stale s t p \/ unwaited s fl f;
  ri_served : forall i r t via p, gs_reqs s !! i = Some (r, RqAnswered t via (Serve p)) -> HashKey sha256 (bearer r) = hash ->
    gs_reqs s0 !! i = Some (r, RqAnswered t via (Serve p)) \/ leaked s t via p }.

Lemma race_start : gate_ok sha256 ttl s0 -> spent hash (wo_db (gs_w s0)) -> lc_items (mw_posCache (gs_mw s0)) !! hash = None -> race_inv s0.
Proof.
  intros Hok Hsp Hc. split; [done|done|by rewrite Hc| | |by left].
  - intros fl f rec Hf Hh Ha. exists f. by rewrite Ha.
  - intros fl f t p Hf Hh Hx. destruct f as [h a]. cbn in Hh. subst h. unfold found_by in Hx. cbn in Hx.
    destruct a as [| | | |t' [|[p'|]]|t' [|[p'|]]]; try done; [left; by eexists|].
    set (waits := fun kv : nat * (Request * request_at) => match kv.2.2 with RqWait _ f => Nat.eqb f fl | _ => false end).
    destruct (existsb waits (map_to_list (gs_reqs s0))) eqn:Hn.
    { left. apply existsb_exists in Hn as ((i & r & a) & Hi & Ha). apply list_elem_of_In, elem_of_map_to_list in Hi. unfold waits in Ha. cbn in Ha.
      destruct a as [| | | | |lim fl'| |]; try done. apply Nat.eqb_eq in Ha as ->. exists (mkFlight hash (FDone t' (inr (Some p')))). split_and!; [done..|]. by exists i, r, lim. }
    right. right. split; [unfold is_open; by rewrite andb_false_r|]. intros i r lim Hi. enough (existsb waits (map_to_list (gs_reqs s0)) = true) by congruence.
    apply existsb_exists. exists (i, (r, RqWait lim fl)). split; [by apply list_elem_of_In, elem_of_map_to_list|apply Nat.eqb_refl].
Qed.

(** A hit of the cache. *)
Lemma hit_stale s t p : race_inv s -> (LRU_Get t hash (mw_posCache (gs_mw s))).1 = Some p -> stale s t p.
Proof.
  intros Hi. unfold LRU_Get. destruct (lc_items _ !! hash) as [it|] eqn:E; [|done]. destruct (ri_cache _ Hi _ E) as (fl & f & td & H1 & H2 & H3 & H4).
  rewrite (proj2 (go_lru _ _ _ (ri_ok _ Hi))), H4. unfold expiry. destruct (Z.ltb_spec 0 ttl), (Z.ltb_spec (td + ttl) t); cbn; try done.
  all: intros [= <-]; exists fl, f, td; (split_and!; [done..|lia]).
Qed.

Lemma race_request s s' i (r : Request) a' : race_inv s -> gate_ok sha256 ttl s' -> shrinks (mw_posCache (gs_mw s)) (mw_posCache (gs_mw s')) ->
  spent hash (wo_db (gs_w s')) -> gs_reqs s' = <[i := (r, a')]> (gs_reqs s) -> grows s s' ->
  (forall fl f, gs_flights s' !! fl = Some f -> gs_flights s !! fl = Some f \/ fl_at f = FPos) ->
  (forall lim f, a' = RqWait lim f -> exists x, gs_flights s' !! f = Some x /\ is_open (HashKey sha256 (bearer r)) x = true) ->
  (forall t via p, a' = RqAnswered t via (Serve p) -> HashKey sha256 (bearer r) = hash -> leaked s t via p) -> race_inv s'.
Proof.
  intros [Hok Hsp Hc Hr Hfd Hsv] Hok' (_ & _ & Hsub) Hsp' Er Hg Hold Hw Ha. split; [done|done| | | |].
  - intros it Hit. destruct (Hc it) as (fl & f & td & H1 & H2 & H3 & H4); [by eapply lookup_weaken|]. destruct (Hg _ _ _ H2 H3) as (f' & ? & ?). by exists fl, f', td.
  - intros fl f rec Hf Hh Hat. destruct (Hold _ _ Hf) as [Hf'|Hp]; [by eapply Hr|congruence].
  - intros fl f t p Hf Hh Hx. destruct (Hold _ _ Hf) as [Hf'|Hp]; [|unfold found_by in Hx; by rewrite Hp in Hx].
    destruct (Hfd _ _ _ _ Hf' Hh Hx) as [|[Hst|[Ho Hn]]]; [by left|right; left; by eapply stale_mono|right; right]. split; [done|]. rewrite Er.
    intros j q lim. rewrite lookup_insert_Some. intros [[<- [= <- ->]]|[_ Hj]]; [|by eapply Hn]. destruct (Hw lim fl eq_refl) as (x & Hx' & Ho').
    rewrite Hf in Hx'. injection Hx' as <-. unfold is_open in Ho, Ho'. apply andb_true_iff in Ho' as [_ Ho']. rewrite Ho', Hh, String.eqb_refl in Ho. done.
  - rewrite Er. intros j q t via p. rewrite lookup_insert_Some. intros [[<- [= <- ->]]|[_ Hj]] Hh; [right; by eapply leaked_mono, Ha|].
    destruct (Hsv _ _ _ _ _ Hj Hh) as [|Hl]; [by left|right; by eapply leaked_mono].
Qed.

Lemma race_same s s' : race_inv s -> gate_ok sha256 ttl s' -> shrinks (mw_posCache (gs_mw s)) (mw_posCache (gs_mw s')) ->
  spent hash (wo_db (gs_w s')) -> gs_reqs s' = gs_reqs s -> gs_flights s' = gs_flights s -> race_inv s'.
Proof.
  intros [Hok Hsp Hc Hr Hfd Hsv] Hok' (_ & _ & Hsub) Hsp' Er Ef.
  assert (grows s s') as Hg by (apply grows_sub; by rewrite Ef).
  split; [done|done| | | |]; rewrite ?Ef, ?Er.
  - intros it Hit. apply Hc. by eapply lookup_weaken.
  - done.
  - intros fl f t p Hf Hh Hx. destruct (Hfd _ _ _ _ Hf Hh Hx) as [|[Hst|[Ho Hn]]]; [by left|right; left; by eapply stale_mono|right; right]. split; [done|]. by rewrite Er.
  - intros i q t via p Hi Hh. destruct (Hsv _ _ _ _ _ Hi Hh) as [|Hl]; [by left|right; by eapply leaked_mono].
Qed.

Lemma found_at (h : string) a x : found_by (mkFlight h a) = Some x -> exists t p, x = (t, p) /\ (a = FStored t (inr (Some p)) \/ a = FDone t (inr (Some p))).
Proof. unfold found_by. cbn. destruct a as [| | | |t [|[p|]]|t [|[p|]]]; try done; intros [= <-]; exists t, p; auto. Qed.

Lemma race_lookup s s' fl : race_inv s -> gate_ok sha256 ttl s' -> lookup_step fl s = Some s' -> race_inv s'.
Proof.
  intros Hi Hok' Hs. pose proof Hi as [[[Hwf Httl] _] Hsp Hc Hr Hfd Hsv].
  destruct (lookup_step_cases fl s s' Hs Hwf) as (h & a & a' & Hf & Ef & Er & Hmono & Ha).
  assert (grows s s') as Hg.
  { intros fl1 f x H1 Hx. rewrite Ef. destruct (decide (fl1 = fl)) as [->|Hn]; [|exists f; by rewrite lookup_insert_ne].
    rewrite Hf in H1. injection H1 as <-. exists (mkFlight h a'). rewrite lookup_insert_eq. auto. }
  assert (forall t p, h = hash -> a' = FStored t (inr (Some p)) -> racing fl \/ stale s t p) as Hgot.
  { intros t p -> ->. destruct Ha as [_ [[Hget _]|(rec & -> & _)]]; [right; by apply hit_stale|left; by eapply (Hr fl _ rec Hf)]. }
  split; [done| | | | |].
  - destruct a' as [| | |res|t [e|[p|]]|t x]; try (by rewrite (proj1 Ha)); [|by rewrite (proj1 (proj2 Ha))].
    destruct Ha as [Hk _]. cbn in Hk. by injection Hk as <- _.
  - intros it Hit.
    assert (lc_items (mw_posCache (gs_mw s)) !! hash = Some it \/ h = hash /\ exists t p, a' = FStored t (inr (Some p)) /\ (exists rec, a = FRead (inr rec)) /\
      li_val it = p /\ li_expires it = expiry ttl t) as [Hold|(-> & t & p & -> & (rec & ->) & Hv & He)].
    { destruct a' as [| | |res|t [e|[p|]]|t x]; try (left; by eapply lookup_weaken, Ha).
      destruct Ha as [_ [[_ Ha]|(rec & -> & _ & Em)]]; [left; by eapply lookup_weaken, Ha|]. rewrite Em in Hit.
      apply set_lookup in Hit as [(-> & Hv & He)|Hold]; [right|by left|done]. split; [done|]. exists t, p. rewrite <- Httl. split_and!; [done|by exists rec|done..]. }
    + destruct (Hc it Hold) as (fl1 & f & td & H1 & H2 & H3 & H4). destruct (Hg _ _ _ H2 H3) as (f' & ? & ?). by exists fl1, f', td.
    + exists fl, (mkFlight hash (FStored t (inr (Some p)))), t. rewrite Ef, lookup_insert_eq, Hv. split_and!; [|done..]. by eapply (Hr fl _ rec Hf).
  - intros fl1 f rec. rewrite Ef, lookup_insert_Some. intros [[<- <-]|[_ H1]]; [|by apply Hr]. cbn. intros -> ->. destruct Ha as [Hk _]. cbn in Hk.
    injection Hk as _ Hk. by destruct (KeyByHash_spent _ _ _ _ Hsp Hk).
  - intros fl1 f t p. rewrite Ef, lookup_insert_Some. intros [[<- <-]|[_ H1]].
    + intros Hh Hx. cbn in Hh. subst h. apply found_at in Hx as (t1 & p1 & [= <- <-] & [-> | ->]).
      * destruct (Hgot t p eq_refl eq_refl) as [|Hst]; [by left|right; left; by eapply stale_mono].
      * destruct Ha as [-> _]. destruct (Hfd fl _ t p Hf eq_refl eq_refl) as [|[Hst|[Ho _]]]; [by left|right; left; by eapply stale_mono|].
        unfold is_open in Ho. cbn in Ho. by rewrite String.eqb_refl in Ho.
    + intros Hh Hx. destruct (Hfd _ _ _ _ H1 Hh Hx) as [|[Hst|[Ho Hn]]]; [by left|right; left; by eapply stale_mono|right; right]. split; [done|]. by rewrite Er.
  - rewrite Er. intros i q t via p Hq Hh. destruct (Hsv _ _ _ _ _ Hq Hh) as [|Hl]; [by left|right; by eapply leaked_mono].
Qed.

Lemma race_step s s' : race_inv s -> gate_moves (world_moves hash) s s' -> race_inv s'.
Proof.
  intros Hi Hs. pose proof (gate_step_ok _ _ _ _ _ _ _ _ (ri_ok _ Hi) Hs) as Hok'. pose proof (ri_spent _ Hi) as Hsp. pose proof (proj1 (go_lru _ _ _ (ri_ok _ Hi))) as Hwf.
  destruct Hs as [i r s Hn|i fl s s' Hs|fl s s' Hs|k s|t order s|s|q b s|w s Hw].
  - apply (race_request s _ i r RqArrived Hi Hok'); [by apply shrinks_same|done|done|by apply grows_sub|by left|done..].
  - destruct (request_step_cases _ _ _ _ i fl s s' Hs Hwf) as (r & a & a' & Hr & Er & Ew & Hsh & Ef & Ha).
    apply (race_request s s' i r a' Hi Hok' Hsh); [by rewrite Ew|done| | | |].
    + apply grows_sub. destruct Ef as [->|[Hn ->]]; [done|by apply insert_subseteq].
    + intros fl1 f. destruct Ef as [->|[Hn ->]]; [by left|]. rewrite lookup_insert_Some. intros [[_ <-]|[_ ?]]; [by right|by left].
    + by intros lim f ->.
    + intros t via p -> Hh. rewrite Hh in Ha. destruct via as [f|]; [|by apply hit_stale].
      destruct Ha as (lim & h & t' & -> & Hf). destruct (go_waits _ _ _ (ri_ok _ Hi) _ _ _ _ Hr) as (x & Hx & Hxh). rewrite Hf in Hx. injection Hx as <-.
      exists (mkFlight h (FDone t' (inr (Some p)))), t'. split_and!; [done|done|]. rewrite Hh in Hxh.
      destruct (ri_found _ Hi _ _ t' p Hf Hxh eq_refl) as [|[|[_ Hno]]]; [by left|by right|by destruct (Hno _ _ _ Hr)].
  - by eapply race_lookup.
  - eapply race_same; [done|done|by apply EvictKey_shrinks|done..].
  - eapply race_same; [done|done|by apply EvictTenant_shrinks|done..].
  - eapply race_same; [done|done|by apply Purge_shrinks|done..].
  - eapply race_same; [done|done|by apply shrinks_same|done..].
  - eapply race_same; [done|done|by apply shrinks_same| |done..]. destruct Hw as [db db' now now' answers answers' Hdb Hle]. by eapply store_steps_spent.
Qed.
End Race.

(** *** Revocation *)

Lemma RevokeKeyWithHash_spends f now id db h : db_wf db -> (RevokeKeyWithHash uuid_text f now id db).1 = inr h ->
  exists u k, uuid_text id = Some u /\ db_keys db !! u = Some k /\ ky_Hash k = h /\ ky_RevokedAt k = None /\
    (RevokeKeyWithHash uuid_text f now id db).2 = mkKeysDb (db_tenants db) (<[u := revoke now k]> (db_keys db)) /\
    spent h (RevokeKeyWithHash uuid_text f now id db).2.
Proof.
  intros Hwf Hr. destruct (RevokeKeyWithHash_cases uuid_text f now id db) as [[_ Hn]|(u & k & Hu & Hk & Ha & E & Hh)]; [by apply Hn in Hr|].
  specialize (Hh _ Hr). subst h. exists u, k. split_and!; [done..|]. rewrite E. intros i k' Hi E'. cbn in Hi.
  destruct (decide (i = u)) as [->|Hne]; [rewrite lookup_insert_eq in Hi; by injection Hi as <-|].
  rewrite lookup_insert_ne in Hi by done. by destruct Hne; eapply wf_hashes.
Qed.

Lemma LRU_Remove_other {V} k h (c : LRUCache V) : h <> k -> lc_items (LRU_Remove k c) !! h = lc_items c !! h.
Proof. intros Hn. unfold LRU_Remove. destruct (lc_items c !! k); [|done]. apply lookup_delete_ne. done. Qed.

Lemma EvictKey_items hash m : lru_wf (mw_posCache m) ->
  lru_wf (mw_posCache (EvictKey (L := L) (hex_encode hash) m)) /\ lc_items (mw_posCache (EvictKey (hex_encode hash) m)) !! hash = None /\
  (forall h, h <> hash -> h <> hex_encode hash -> lc_items (mw_posCache (EvictKey (hex_encode hash) m)) !! h = lc_items (mw_posCache m) !! h).
Proof.
  intros Hwf. unfold EvictKey. rewrite hex_roundtrip. cbn [set_caches mw_posCache].
  destruct (LRU_Remove_sub (hex_encode hash) (mw_posCache m) Hwf) as (A1 & _). destruct (LRU_Remove_sub hash _ A1) as (B1 & _ & _ & B4).
  split_and!; [done..|]. intros h Hh Hx. by rewrite !LRU_Remove_other.
Qed.

Lemma idle_ok rate_every ttl negTTL maxEntries w0 s :
  reachable (gate_moves (fun _ _ => True)) (idle_gate (NewMiddlewareWithConfig rate_every ttl negTTL maxEntries) w0) s -> gate_ok sha256 ttl s.
Proof.
  intros Hr. refine (reachable_invariant _ (gate_ok sha256 ttl) _ s _ _ Hr); [|intros s1 s2; by apply gate_step_ok].
  split; [split; [apply NewLRU_wf|done]|]. intros i r lim fl. cbn. by rewrite lookup_empty.
Qed.

Lemma nothing_leaks hash ttl s0 s t via p : (forall fl, ~ racing hash s0 fl) -> ~ leaked hash ttl s0 s t via p.
Proof. intros Hno. destruct via as [fl|]; [intros (f & t' & _ & _ & [H|(fl' & f' & td & H & _)])|intros (fl' & f' & td & H & _)]; by eapply Hno. Qed.

(** C8. When the endpoint answers that a key is revoked, here or on the other replicas as
    well, its row and no other is revoked, the message for the other replicas carries its
    digest, and other cached keys stay.  From the eviction on, with any requests and lookups in
    flight and whatever steps they take, whatever is evicted and however the statements change
    the tables and the limits change, short of a new key with the same digest, this replica
    answers no request with the key by serving it, except through a lookup that had read the
    table before the revocation and whose result is still to be handed out: those who wait for
    that lookup are served, and from the cache requests and lookups are, no later than the ttl
    of the cache, where it has one, after that lookup stored it.  Without such a lookup, none
    is served. *)
Theorem revoked_key_is_refused (rate_every : Duration -> spec_float) (ttl negTTL : Duration) (maxEntries : Z) (w0 : world) (s0 : gate)
  (pathID : string) (f : fate) (now : Time) (sess : option string) (ip : string) (publish : option (option string)) (db : keys_db)
  (Hrun : reachable (gate_moves (fun _ _ => True)) (idle_gate (NewMiddlewareWithConfig rate_every ttl negTTL maxEntries) w0) s0) (Hwf : db_wf db) :
  let v := handleRevokeKey uuid_text true pathID f now sess ip publish (Some (gs_mw s0)) db in
  rv_Status v = 200 \/ rv_Status v = 503 ->
  exists u k m1, uuid_text (trim_space pathID) = Some u /\ db_keys db !! u = Some k /\ rv_auth v = Some m1 /\
    rv_db v = mkKeysDb (db_tenants db) (<[u := revoke now k]> (db_keys db)) /\ db_wf (rv_db v) /\
    rv_published v = (match publish with Some _ => [(OpKeyRevoked, KeyRevokedArgs (ky_Hash k))] | None => [] end) /\
    (forall h, h <> ky_Hash k -> h <> hex_encode (ky_Hash k) -> lc_items (mw_posCache m1) !! h = lc_items (mw_posCache (gs_mw s0)) !! h) /\
    (reachable (store_step (ky_Hash k)) (rv_db v) (wo_db (gs_w s0)) ->
     forall s i r t via p, reachable (gate_moves (world_moves (ky_Hash k))) (gate_mw m1 s0) s ->
       gs_reqs s !! i = Some (r, RqAnswered t via (Serve p)) -> HashKey sha256 (bearer r) = ky_Hash k ->
       let before := gs_reqs s0 !! i = Some (r, RqAnswered t via (Serve p)) in
       (before \/ leaked (ky_Hash k) ttl s0 s t via p) /\ ((forall fl, ~ racing (ky_Hash k) s0 fl) -> before)).
Proof.
  cbv zeta. pose proof (idle_ok _ _ _ _ _ _ Hrun) as Hok. destruct (go_lru _ _ _ Hok) as [Hlru Httl]. unfold handleRevokeKey. cbn [negb].
  pose proof (RevokeKeyWithHash_wf uuid_text f now (trim_space pathID) db Hwf) as Hwf'.
  pose proof (RevokeKeyWithHash_spends f now (trim_space pathID) db) as Hs.
  destruct (RevokeKeyWithHash _ _ _ _ _) as [[[]|hash] db']; cbn [fst snd] in *; [naive_solver..|].
  destruct (Hs hash Hwf eq_refl) as (u & k & Hu & Hk & Hh & Ha & E & Hsp). subst hash. intros _.
  destruct (EvictKey_items (ky_Hash k) (gs_mw s0) Hlru) as (H1 & H2 & H3). set (m1 := EvictKey (hex_encode (ky_Hash k)) (gs_mw s0)) in *.
  exists u, k, m1. split_and!; try done; try (by destruct publish as [[]|]).
  intros Hdb s i r t via p Hrun1 Hi Hkey.
  assert (reachable (store_step (ky_Hash k)) db' (wo_db (gs_w s0))) as Hdb' by (by destruct publish as [[]|]).
  assert (race_inv (ky_Hash k) ttl (gate_mw m1 s0) s) as Hinv.
  { refine (reachable_invariant _ (race_inv (ky_Hash k) ttl (gate_mw m1 s0)) _ s _ _ Hrun1); [|intros s1 s2; by apply race_step].
    apply race_start; [|by eapply store_steps_spent|done]. eapply gate_ok_same; [exact Hok|by apply EvictKey_shrinks|done..]. }
  pose proof (ri_served _ _ _ _ Hinv _ _ _ _ _ Hi Hkey) as Hserved. split; [exact Hserved|].
  intros Hno. destruct Hserved as [|Hl]; [done|]. by apply (nothing_leaks _ _ _ _ _ _ _ Hno) in Hl.
Qed.
End Afterwards.

(** ** Keys that were created *)

Section Creation.
Context (sha256 : string -> string) (uuid_text : string -> option string) {L : Type} (new_limiter : spec_float -> Z -> L)
  (limiter_allow : Time -> L -> bool * L) (limiter_tokens : Time -> L -> spec_float).

Lemma b64_char_plain n : 0 <= n < 64 -> is_space (b64_char n) = false.
Proof.
  intros Hn. unfold b64_char, is_space. destruct (Z.ltb_spec n 26); [|destruct (Z.ltb_spec n 52); [|destruct (Z.ltb_spec n 62); [|destruct (n =? 62); done]]];
    rewrite byte_val_at by lia; apply orb_false_iff; split; first [apply andb_false_iff; lia|lia].
Qed.

Lemma b64url_last : forall s, s = "" \/ exists m n, 0 <= n < 64 /\ b64url s = m +:+ String (b64_char n) "".
Proof.
  fix IH 1. intros [|a [|b [|c s]]]; [by left|right..].
  - exists (String (b64_char (byte_val a * 16 / 64)) ""), (byte_val a * 16 mod 64). split; [by apply Z.mod_pos_bound|done].
  - set (x := (byte_val a * 256 + byte_val b) * 4).
    exists (String (b64_char (x / 4096)) (String (b64_char (x / 64 mod 64)) "")), (x mod 64). split; [by apply Z.mod_pos_bound|done].
  - set (x := (byte_val a * 256 + byte_val b) * 256 + byte_val c). destruct (IH s) as [->|(m & n & Hn & E)].
    + exists (String (b64_char (x / 262144)) (String (b64_char (x / 4096 mod 64)) (String (b64_char (x / 64 mod 64)) ""))), (x mod 64).
      split; [by apply Z.mod_pos_bound|done].
    + exists (String (b64_char (x / 262144)) (String (b64_char (x / 4096 mod 64)) (String (b64_char (x / 64 mod 64)) (String (b64_char (x mod 64)) m)))), n.
      split; [done|]. rewrite !sapp_cons, <- E. done.
Qed.

Lemma b64url_length : forall s, (String.length s <= String.length (b64url s))%nat.
Proof. fix IH 1. intros [|a [|b [|c s]]]; cbn; [lia..|]. specialize (IH s). lia. Qed.

(** A generated key is read back from the header that carries it, whatever its environment
    label, and its prefix has twelve bytes. *)
Lemma generated_key_presented env b pt prefix hash addr : GenerateKey sha256 env (Some b) = Some (pt, prefix, hash) -> String.length b = 32%nat ->
  bearer (mkRequest addr {["Authorization" := "Bearer " +:+ pt]}) = pt /\ has_prefix "pg_" pt = true /\ String.length prefix = 12%nat /\ hash = HashKey sha256 pt.
Proof.
  unfold GenerateKey. intros [= <- <- <-] Hb. destruct (b64url_last b) as [->|(m & n & Hn & E)]; [done|].
  assert (forall p, trim_space (String "B" p +:+ b64url b) = String "B" p +:+ b64url b) as T1.
  { intros p. rewrite <- (sapp_nil_r (String "B" p +:+ b64url b)) at 1.
    eapply (trim_space_tight _ "B" _ (b64_char n)); [done|by apply b64_char_plain|by rewrite sapp_cons| |done]. rewrite E, <- sapp_assoc. by eexists. }
  assert (forall p, trim_space (String "p" p +:+ b64url b) = String "p" p +:+ b64url b) as T2.
  { intros p. rewrite <- (sapp_nil_r (String "p" p +:+ b64url b)) at 1.
    eapply (trim_space_tight _ "p" _ (b64_char n)); [done|by apply b64_char_plain|by rewrite sapp_cons| |done]. rewrite E, <- sapp_assoc. by eexists. }
  split_and!; [|done| |done].
  - unfold bearer. cbn [rq_Header]. unfold header_get. change (CanonicalHeaderKey "Authorization") with "Authorization".
    rewrite lookup_singleton_eq. cbn [default from_option id].
    assert ("Bearer " +:+ "pg_" +:+ env +:+ "_" +:+ b64url b = String "B" ("earer pg_" +:+ env +:+ "_") +:+ b64url b) as -> by (by rewrite !sapp_cons, !sapp_assoc).
    rewrite T1. change (String "B" ("earer pg_" +:+ env +:+ "_") +:+ b64url b) with ("Bearer " +:+ (("pg_" +:+ env +:+ "_") +:+ b64url b)).
    rewrite slen_app. change (slen "Bearer ") with 7. pose proof (slen_nonneg (("pg_" +:+ env +:+ "_") +:+ b64url b)).
    destruct (Z.leb_spec 7 (7 + slen (("pg_" +:+ env +:+ "_") +:+ b64url b))); [|lia].
    change 7%nat with (String.length "Bearer "). rewrite stake_app_length, sdrop_app_length. cbn [andb].
    replace (Config.equal_fold "Bearer " "bearer ") with true by reflexivity. cbn iota. change ("pg_" +:+ env +:+ "_") with (String "p" ("g_" +:+ env +:+ "_")). rewrite T2.
    by rewrite !sapp_cons, !sapp_assoc.
  - change (String.length (stake 12 ("pg_" +:+ env +:+ "_" +:+ b64url b)) = 12%nat). rewrite slength_stake, !slength_app. pose proof (b64url_length b) as Hl. rewrite Hb in Hl. change (String.length "pg_") with 3%nat. lia.
Qed.

(** A key that was created is found again under its digest with its own policy and its
    tenant's, once it is presented in the header; and no other digest finds it. *)
Theorem created_key_found env b addr pt prefix hash now id tenantID name routes p db id' k db'
  (Hwf : db_wf db) (Hb : String.length b = 32%nat) (Hgen : GenerateKey sha256 env (Some b) = Some (pt, prefix, hash))
  (Hcreate : CreateKey uuid_text Commits now id tenantID name prefix hash routes p db = (inr (id', k), db')) :
  exists t, db_tenants db' !! ky_TenantID k = Some t /\ uuid_text tenantID = Some (ky_TenantID k) /\
    KeyByHash true (HashKey sha256 (bearer (mkRequest addr {["Authorization" := "Bearer " +:+ pt]}))) db' =
      inr (mkKeyRecord (mkAPIKey id name routes p) (mkStoreTenant (ky_TenantID k) (tn_Name t) (tn_Policy t))) /\
    has_prefix "pg_" pt = true /\ String.length prefix = 12%nat /\
    (forall h rec, KeyByHash true h db' = inr rec -> ak_ID (kr_Key rec) = id -> h = hash).
Proof.
  destruct (generated_key_presented env b pt prefix hash addr Hgen Hb) as (H1 & H2 & H3 & ->). rewrite H1.
  pose proof (CreateKey_wf uuid_text Commits now id tenantID name prefix (HashKey sha256 pt) routes p db Hwf) as Hwf'. rewrite Hcreate in Hwf'. cbn [snd] in Hwf'.
  unfold CreateKey in Hcreate. destruct (uuid_text tenantID) as [u|]; [|done]. destruct (db_tenants db !! u) as [t|] eqn:Et; [|done].
  destruct (filter _ _); [|done]. destruct (db_keys db !! id) eqn:Ei; [done|]. cbn in Hcreate. injection Hcreate as <- <- <-.
  exists t. split_and!; [done..| |done|done|].
  - exact (KeyByHash_wf _ id (mkKeyRow u name prefix (HashKey sha256 pt) routes p now None) t Hwf' (lookup_insert_eq _ _ _) eq_refl Et).
  - intros h rec (i & k & t' & Hi & <- & _ & _ & ->)%KeyByHash_found. cbn. intros ->. cbn in Hi. rewrite lookup_insert_eq in Hi. by injection Hi as <-.
Qed.
End Creation.

(** ** Examples *)

Definition toy_text (s : string) : option string := if String.eqb s "" then None else Some s.
Definition random32 : string := "0123456789abcdef0123456789abcdef".

Definition demo_db : keys_db := mkKeysDb {["t1" := mkTenantRow "acme" no_limits 0; "t2" := mkTenantRow "other" no_limits 0]} ∅.
Definition with_key : keys_db :=
  match GenerateKey (fun s => s) "live" (Some random32) with
  | Some (_, prefix, hash) => (CreateKey toy_text Commits 5 "k1" "t1" "ci" prefix hash ["chat"] no_key_policy demo_db).2
  | None => demo_db
  end.
Definition live_key : string := "pg_live_" +:+ b64url random32.
Definition key_request : Request := mkRequest "10.0.0.1:4000" {["Authorization" := "Bearer " +:+ live_key]}.
Definition key_handler : Request -> Middleware -> world * list (Time * string * KeyRecord) -> Middleware * (world * list (Time * string * KeyRecord)) * Auth.reply :=
  Handler (L := Z) (fun _ b => b) (fun _ l => (0 <? l, l - 1)) (fun _ l => f_of_Z l) (fun s => s).
Definition served_once := key_handler key_request (NewMiddlewareWithConfig (fun d => f_of_Z d) 60 10 100) (mkWorld with_key 6 [], []).

Lemma wf_demo : db_wf demo_db.
Proof.
  split; cbn.
  - intros i j k l. by rewrite lookup_empty.
  - intros i j t u Hi Hj E. rewrite lookup_insert_Some, lookup_singleton_Some in Hi, Hj. naive_solver.
  - intros i k. by rewrite lookup_empty.
Qed.

Lemma created_key_found_witness :
  exists t, db_tenants with_key !! "t1" = Some t /\ KeyByHash true live_key with_key =
    inr (mkKeyRecord (mkAPIKey "k1" "ci" ["chat"] no_key_policy) (mkStoreTenant "t1" (tn_Name t) (tn_Policy t))).
Proof.
  destruct (created_key_found (fun s => s) toy_text "live" random32 "" live_key (stake 12 live_key) live_key 5 "k1" "t1" "ci" ["chat"] no_key_policy demo_db "k1"
    (mkKeyRow "t1" "ci" (stake 12 live_key) live_key ["chat"] no_key_policy 5 None) with_key wf_demo eq_refl eq_refl ltac:(vm_compute; reflexivity)) as (t & H1 & _ & H2 & _).
  exists t. split; [exact H1|]. etrans; [|exact H2]. f_equal.
Defined.

(** The database commits and its answer is lost: the endpoint answers 500, a second attempt
    answers 404, no cache is told, and the key is served from the cache. *)
Example lost_answer_keeps_serving :
  let '(m0, w0, _) := served_once in
  let v1 := handleRevokeKey toy_text true "k1" Unanswered 7 None "" (Some None) (Some m0) with_key in
  let v2 := handleRevokeKey toy_text true "k1" Commits 8 None "" (Some None) (rv_auth v1) (rv_db v1) in
  (rv_Status v1, rv_Status v2, rv_published v1 ++ rv_published v2,
   match rv_auth v2 with Some m => match (key_handler key_request m (mkWorld (rv_db v2) 9 [], [])).2 with Serve p => KeyID p | Deny _ _ => "" end | None => "" end) =
  (500, 404, [], "k1").
Proof. vm_compute. reflexivity. Qed.

(** A run of requests and lookups, step by step. *)
Inductive demo_event := DArrive (i : nat) | DMove (i fl : nat) | DFly (fl : nat).
Definition demo_do (s : gate (L := Z) (W := world)) (e : demo_event) : gate :=
  match e with
  | DArrive i => match gs_reqs s !! i with None => gate_goto i key_request (gs_mw s) RqArrived s | Some _ => s end
  | DMove i fl => default s (request_step (fun _ b => b) (fun _ l => (0 <? l, l - 1)) (fun _ l => f_of_Z l) (fun s => s) i fl s)
  | DFly fl => default s (lookup_step fl s)
  end.
Abbreviation demo_moves := (gate_step (fun _ b => b) (fun _ l => (0 <? l, l - 1)) (fun _ l => f_of_Z l) (fun s => s)).

Lemma demo_reach ws evs : forall s, reachable (demo_moves ws) s (foldl demo_do s evs).
Proof.
  induction evs as [|e evs IH]; intros s; [apply reach_refl|]. cbn [foldl]. eapply reachable_trans; [|apply IH].
  destruct e as [i|i fl|fl]; cbn [demo_do].
  - destruct (gs_reqs s !! i) eqn:E; [apply reach_refl|]. eapply reach_step; [apply reach_refl|by apply gate_arrives].
  - destruct (request_step _ _ _ _ i fl s) eqn:E; [|apply reach_refl]. eapply reach_step; [apply reach_refl|by eapply gate_request].
  - destruct (lookup_step fl s) eqn:E; [|apply reach_refl]. eapply reach_step; [apply reach_refl|by eapply gate_lookup].
Qed.

(** Request 1 is served by lookup 1; then the row of its key is revoked, at 7. *)
Definition asks (i fl : nat) : list demo_event := DArrive i :: replicate 5 (DMove i fl).
Definition demo_idle := idle_gate (L := Z) (NewMiddlewareWithConfig (fun d => f_of_Z d) 60 10 100) (mkWorld with_key 6 []).
Definition revoked_db : keys_db := (RevokeKeyWithHash toy_text Commits 7 "k1" with_key).2.
Definition revoked_gate (s : gate (L := Z) (W := world)) : gate := mkGate (gs_mw s) (mkWorld revoked_db 7 []) (gs_flights s) (gs_reqs s).
Definition demo_served := foldl demo_do demo_idle (asks 1 1 ++ replicate 5 (DFly 1) ++ [DMove 1 1]).
Definition demo_principal : Principal := mkPrincipal "t1" "acme" "k1" "ci" ["chat"] false no_limits no_key_policy.
Definition demo_revocation (s : gate (L := Z) (W := world)) : revocation :=
  handleRevokeKey toy_text true " k1" Commits 7 (Some "root") "10.0.0.9" (Some (Some "no route")) (Some (gs_mw s)) with_key.
Definition after_revocation (s : gate (L := Z) (W := world)) : gate := match rv_auth (demo_revocation s) with Some m => gate_mw m s | None => s end.

(** A lookup that has read the table before the revocation: request 1 waits for it, request 2
    comes after the eviction and is served from the cache. *)
Example racing_lookup_leaks :
  let s := revoked_gate (foldl demo_do demo_idle (asks 1 1 ++ replicate 3 (DFly 1))) in
  let s' := foldl demo_do (after_revocation s) (replicate 2 (DFly 1) ++ DMove 1 1 :: asks 2 2) in
  (rv_Status (demo_revocation s), snd <$> gs_reqs s !! 1%nat, snd <$> gs_reqs s' !! 1%nat, snd <$> gs_reqs s' !! 2%nat) =
  (503, Some (RqWait 0 1), Some (RqAnswered 7 (Some 1%nat) (Serve demo_principal)), Some (RqAnswered 7 None (Serve demo_principal))).
Proof. vm_compute. reflexivity. Qed.

Lemma revoked_gate_reached s evs : reachable (demo_moves (fun _ _ => True)) s (revoked_gate (foldl demo_do s evs)).
Proof. eapply reach_step; [apply (demo_reach _ evs)|]. exact (gate_world _ _ _ _ (fun _ _ => True) (mkWorld revoked_db 7 []) (foldl demo_do s evs) I). Qed.

Lemma revoked_gate_quiet fl : ~ racing live_key (revoked_gate demo_served) fl.
Proof.
  assert (gs_flights (revoked_gate demo_served) = {[1%nat := mkFlight live_key (FDone 6 (inr (Some demo_principal)))]}) as E1 by (vm_compute; reflexivity).
  assert (gs_reqs (revoked_gate demo_served) = {[1%nat := (key_request, RqAnswered 6 (Some 1%nat) (Serve demo_principal))]}) as E2 by (vm_compute; reflexivity).
  intros (f & Hf & _ & Hat). rewrite E1 in Hf. apply lookup_singleton_Some in Hf as [<- <-]. destruct Hat as (j & q & lim & Hj).
  rewrite E2 in Hj. apply lookup_singleton_Some in Hj as [_ Hj]. apply (f_equal snd) in Hj. cbn [snd] in Hj. discriminate Hj.
Qed.

Lemma with_key_hash k : db_keys with_key !! "k1" = Some k -> ky_Hash k = live_key.
Proof.
  intros Hk. assert (ky_Hash <$> db_keys with_key !! "k1" = Some live_key) as E by (vm_compute; reflexivity). rewrite Hk in E. by injection E.
Qed.

Lemma wf_with_key : db_wf with_key.
Proof. unfold with_key. cbn [GenerateKey]. apply CreateKey_wf, wf_demo. Qed.

Lemma revoked_key_is_refused_witness :
  let s := foldl demo_do (after_revocation (revoked_gate demo_served)) (asks 2 2 ++ replicate 5 (DFly 2) ++ replicate 2 (DMove 2 2)) in
  rv_Status (demo_revocation (revoked_gate demo_served)) = 503 /\
  snd <$> gs_reqs s !! 1%nat = Some (RqAnswered 6 (Some 1%nat) (Serve demo_principal)) /\
  snd <$> gs_reqs s !! 2%nat = Some (RqAnswered 7 None (Deny Api.Unauthorized true)) /\
  forall i r t via p, gs_reqs s !! i = Some (r, RqAnswered t via (Serve p)) -> bearer r = live_key -> gs_reqs demo_served !! i = Some (r, RqAnswered t via (Serve p)).
Proof.
  assert (forall (g : gate (L := Z) (W := world)) db m0 w0 hash, db_wf db -> (forall k, db_keys db !! "k1" = Some k -> ky_Hash k = hash) ->
    reachable (demo_moves (fun _ _ => True)) (idle_gate m0 w0) g -> m0 = NewMiddlewareWithConfig (fun d => f_of_Z d) 60 10 100 ->
    let v := handleRevokeKey toy_text true " k1" Commits 7 (Some "root") "10.0.0.9" (Some (Some "no route")) (Some (gs_mw g)) db in
    rv_Status v = 503 -> rv_db v = wo_db (gs_w g) -> (forall fl, ~ racing hash g fl) ->
    forall evs i r t via p, gs_reqs (foldl demo_do (match rv_auth v with Some m => gate_mw m g | None => g end) evs) !! i = Some (r, RqAnswered t via (Serve p)) ->
      bearer r = hash -> gs_reqs g !! i = Some (r, RqAnswered t via (Serve p))) as H.
  { intros g db m0 w0 hash Hwf Hhash Hr -> v Hs Hdb Hno evs i r t via p Hi Hkey.
    destruct (revoked_key_is_refused _ _ _ _ toy_text _ _ _ _ _ _ " k1" Commits 7 (Some "root") "10.0.0.9" (Some (Some "no route")) db Hr Hwf (or_intror Hs))
      as (u & k & m1 & Hu & Hk & Hm & _ & _ & _ & _ & Hd).
    assert (u = "k1") as -> by (vm_compute in Hu; congruence). rewrite (Hhash k Hk) in Hd. fold v in Hm, Hd. rewrite Hm in Hi. rewrite Hdb in Hd.
    exact (proj2 (Hd (reach_refl _ _) _ i r t via p (demo_reach _ _ _) Hi Hkey) Hno). }
  intros s. split; [vm_compute; reflexivity|]. split; [vm_compute; reflexivity|]. split; [vm_compute; reflexivity|].
  refine (H (revoked_gate demo_served) with_key _ (mkWorld with_key 6 []) live_key wf_with_key with_key_hash (revoked_gate_reached demo_idle _) eq_refl _ _ revoked_gate_quiet _); vm_compute; reflexivity.
Defined.
