(* ===== verification/ControlPlane.v ===== *)
(** * The control plane (src/internal/server/admin_cp.go, respond.go, store/admin_audit.go, store/credentials.go)

    What the administrators' endpoints do besides sessions and accounts ([AdminAuth]), the
    erasure of tenants ([Erasure]) and the revocation of keys ([KeyStore]): the configuration,
    the providers and their credentials, the caches, the audit log and the interactive chat. *)

From S2P Require Import Prelude GoStrings Encoding GoFloat GoSort Breaker Config Api ConfigTools Route Policy Control Envelope Credentials KeyCache Auth KeyStore AdminAuth Provider Registry.

Open Scope string_scope.
Open Scope list_scope.
Open Scope Z_scope.

(** ** Bodies (respond.go) *)

Inductive decoded (A : Type) := BodyTooLarge | BodyInvalid | Body (a : A).
Arguments BodyTooLarge {A}.
Arguments BodyInvalid {A}.
Arguments Body {A}.

(** An answer: the status and the fields of its object, as texts. *)
Record answer := mkAnswer { an_Status : Z; an_Body : list (string * string) }.

Definition error_answer (code : Z) (error message : string) : answer := mkAnswer code [("error", error); ("message", message)].

(** [reader]: what [MaxBytesReader] and the decoder without unknown fields make of the body. *)
Definition decodeJSON {A : Type} (reader : decoded A) : answer + A :=
  match reader with
  | BodyTooLarge => inl (error_answer 413 "payload_too_large" "request body exceeds 64KB limit")
  | BodyInvalid => inl (error_answer 400 "bad_request" "invalid request body")
  | Body a => inr a
  end.

(** ** The configuration

    [active]: the configuration of the state, when there is one. *)

(** Which networks the address of the client is judged by. *)
Definition trusted_networks {N : Type} (parse : Config -> list N) (own : list N) (deps active : option Config) : list N :=
  match own with
  | [] => match deps with
          | Some c => parse c
          | None => match active with Some c => parse c | None => [] end
          end
  | _ => own
  end.

Definition providerDatabaseCredentialsEnabled (active : option Config) (name : string) : bool :=
  let name := trim_space name in
  let name := let '(_, after, found) := cut name "/" in if found then after else name in
  match active with
  | None => false
  | Some c => match find (fun spec => String.eqb (pv_Name spec) name) (Providers c) with Some spec => pv_APIKeyDB spec | None => false end
  end.

Definition handleStatus (version : string) (uptime : Z) (serverAddr adminAddr : string) (auth_service : bool) (active : option Config) : answer :=
  let '(providers, routes) := match active with Some c => (Z.of_nat (length (Providers c)), Z.of_nat (length (Routes c))) | None => (0, 0) end in
  mkAnswer 200 [("version", version); ("uptime_seconds", itoa uptime); ("server_addr", serverAddr); ("admin_addr", adminAddr); ("providers", itoa providers);
    ("routes", itoa routes); ("admin_auth_enabled", if auth_service then "true" else "false")].

Inductive shown_config := ConfigNotLoaded (a : answer) | ConfigJSON (c : Config) | ConfigYAML (c : Config).

Definition handleGetConfig (redact : Config -> Config) (accept : string) (active : option Config) : shown_config :=
  match active with
  | None => ConfigNotLoaded (error_answer 500 "internal_error" "server configuration not loaded")
  | Some c => if contains accept "application/json" then ConfigJSON (redact c) else ConfigYAML (redact c)
  end.

(** ** Handlers that act on what they are given *)

(** What a handler leaves besides the state: its answer, the messages it asks to have
    published, its audit records and how many of them failed. *)
Record effects := mkEffects { ef_answer : answer; ef_published : list (string * gmap string string); ef_audit : list AdminStore.AuditRow; ef_audit_failures : Z }.

(** [store]: whether there is one; [None] inside for a record that fails. *)
Definition record_audit (store : bool) (audit_ok : bool) (sess : option string) (action target : string) (detail : list (string * AdminStore.detail)) (ip result : string) :
    list AdminStore.AuditRow * Z :=
  match sess with
  | Some u => if store then if audit_ok then ([AdminStore.mkAuditRow u action target detail ip result], 0) else ([], 1) else ([], 0)
  | None => ([], 0)
  end.

Section Given.
Context {S : Type}.

(** [ReloadFunc]: the watcher's forced check. *)
Definition handleReloadConfig (reload : S -> option string * S) (store audit_ok : bool) (sess : option string) (ip : string) (bus : bool) (s : S) : effects * S :=
  match reload s with
  | (Some err, s) =>
      let '(a, n) := record_audit store audit_ok sess "config.reload" "" [("error", AdminStore.DStr err)] ip "error" in
      (mkEffects (error_answer 400 "reload_failed" err) [] a n, s)
  | (None, s) =>
      let '(a, n) := record_audit store audit_ok sess "config.reload" "" [] ip "ok" in
      (mkEffects (mkAnswer 204 []) (if bus then [(OpReload, ∅)] else []) a n, s)
  end.

(** [PurgeCache]: [AdminCachePurgeHandler], which has written the answer. *)
Definition handleCachePurge (purge : S -> answer * S) (store audit_ok : bool) (sess : option string) (ip : string) (bus : bool) (s : S) : effects * S :=
  let '(a, s) := purge s in
  let '(l, n) := record_audit store audit_ok sess "cache.purge" "" [] ip "ok" in
  (mkEffects a (if bus then [(OpPurgeCache, ∅)] else []) l n, s).

(** The endpoints without accounts. *)
Definition legacy_purge (purge : S -> answer * S) (bus : bool) (s : S) : effects * S :=
  let '(a, s) := purge s in (mkEffects a (if bus then [(OpPurgeCache, ∅)] else []) [] 0, s).

Definition legacy_purge_secrets (purge : option (S -> S)) (bus : bool) (s : S) : effects * S :=
  (mkEffects (mkAnswer 200 []) (if bus then [(OpPurgeSecrets, ∅)] else []) [] 0, match purge with Some f => f s | None => s end).

Definition legacy_reload (reload : option (S -> option string * S)) (bus : bool) (s : S) : effects * S :=
  let '(err, s) := match reload with Some f => f s | None => (None, s) end in
  match err with
  | Some e => (mkEffects (mkAnswer 400 [("", e)]) [] [] 0, s)
  | None => (mkEffects (mkAnswer 204 []) (if bus then [(OpReload, ∅)] else []) [] 0, s)
  end.
End Given.

(** ** Providers *)

Record ProviderSummary := mkProviderSummary { ps_Name : string; ps_Type : string; ps_BaseURL : string; ps_KeySource : string; ps_HasKey : bool }.

(** [credential]: the answer of the store to [ActiveCredential], where there is a store. *)
Definition provider_summary (getenv : string -> string) (credential : option (string -> outcome (Sealed * Z))) (p : ProviderConfig) : ProviderSummary :=
  let '(source, has) :=
    if negb (String.eqb (pv_APIKeyEnv p) "") then ("env:" +:+ pv_APIKeyEnv p, negb (String.eqb (getenv (pv_APIKeyEnv p)) ""))
    else if pv_APIKeyDB p then ("db", match credential with Some f => match f (pv_Name p) with Done _ => true | _ => false end | None => false end)
    else ("none", false) in
  mkProviderSummary (pv_Name p) (pv_Type p) (pv_BaseURL p) source has.

Definition handleListProviders (getenv : string -> string) (credential : option (string -> outcome (Sealed * Z))) (active : option Config) : list ProviderSummary :=
  match active with None => [] | Some c => map (provider_summary getenv credential) (Providers c) end.

Definition handleGetProvider (getenv : string -> string) (credential : option (string -> outcome (Sealed * Z))) (name : string) (active : option Config) : answer + ProviderSummary :=
  let missing := error_answer 404 "not_found" "provider not found" in
  match active with
  | None => inl missing
  | Some c =>
      match find (fun p => String.eqb (pv_Name p) name) (Providers c) with
      | Some p => inr (provider_summary getenv credential p)
      | None => inl missing
      end
  end.

(** *** The probe *)

(** The status, then the fields of [error]. *)
Definition probe_failure (err : go_error) : Z * string * string * Z :=
  match err with
  | ErrProvider e =>
      let s := pe_Status e in
      let status := if (400 <=? s) && (s <? 600) then s else 502 in
      let '(code, message) :=
        if (s =? 401) || (s =? 403) then ("provider_auth_failed", "provider authentication failed")
        else if s =? 429 then ("provider_rate_limited", "provider rate limited")
        else if 500 <=? s then ("provider_upstream_error", "provider returned an upstream error")
        else if 400 <=? s then ("provider_rejected_probe", "provider rejected the probe")
        else ("provider_probe_failed", "provider probe failed") in
      (status, code, message, s)
  | ErrDeadlineExceeded => (504, "provider_probe_timeout", "provider probe timed out", 0)
  | _ => (502, "provider_probe_failed", "provider probe failed", 0)
  end.

Definition writeProviderProbeFailure (name : string) (err : go_error) : answer :=
  let '(status, code, message, upstream) := probe_failure err in
  mkAnswer status ([("provider", name); ("status", "error"); ("error.code", code); ("error.message", message)] ++
    if 0 <? upstream then [("error.upstream_status", itoa upstream)] else []).

(** The model of the provider's first target in the first route where it is not empty. *)
Definition probe_model (name : string) (router : option Router) : string :=
  match router with
  | None => ""
  | Some r =>
      for_range (Router_Routes r) "" (fun model route =>
        if negb (String.eqb model "") then model
        else match find (fun t => String.eqb (Provider t) name) (ro_Targets route) with Some t => Model t | None => model end)
  end.

Definition probe_request : ChatRequest :=
  mkChatRequest "" [Api.mkMessage "user" (text_content "ping") "" [] ""] false None (Some 1) None None None [] [] "" "" None "" None None None None "" None None.

(** [runtime]: the router and the registry of the state.  [ctx_err] of the registry is that
    of the request's ten seconds.  [None]: the stream does not end. *)
Definition handleTestProvider {W : Type} (now : W -> Time) (name : string) (runtime : option (option Router * gmap string (Adapter W))) (w : W) : option (answer * W) :=
  match runtime with
  | None => Some (error_answer 404 "not_found" "provider not found", w)
  | Some (router, registry) =>
      match Get registry name with
      | None => Some (error_answer 404 "not_found" "provider not registered", w)
      | Some p =>
          let start := now w in
          match ad_ChatStream p (probe_model name router) probe_request w with
          | None => None
          | Some (inl err, w) => Some (writeProviderProbeFailure name err, w)
          | Some (inr ([], err), w) => Some (writeProviderProbeFailure name (default (ErrOther "EOF") err), w)
          | Some (inr (_ :: _, _), w) =>
              Some (mkAnswer 200 [("provider", name); ("status", "ok"); ("latency_ms", itoa (time_sub (now w) start `quot` millisecond))], w)
          end
      end
  end.

(** ** Credentials *)

Record SetCredentialRequest := mkSetCredentialRequest { sc_APIKey : string }.

Record CredentialInfo := mkCredentialInfo {
  ci_Provider : string; ci_Version : Z; ci_KEKID : string; ci_CreatedAt : Time; ci_CreatedBy : string; ci_Active : bool }.

(** Ordered by the primary key; [collate] is the order of the database's texts. *)
Definition ListCredentials (collate : string -> string -> bool) (answered : bool) (t : table) : outcome (list CredentialInfo) :=
  if answered then
    Done (map (fun kv => mkCredentialInfo kv.1.1 kv.1.2 (KEKID (cr_sealed kv.2)) (cr_created_at kv.2) (cr_created_by kv.2) (cr_active kv.2))
      (stable_sort (fun a b => collate a.1.1 b.1.1 || (String.eqb a.1.1 b.1.1 && (a.1.2 <? b.1.2))) (map_to_list t)))
  else Failed db_error.

Definition handleListCredentials (store : option (outcome (list CredentialInfo))) : answer + list CredentialInfo :=
  match store with
  | None => inr []
  | Some (Done l) => inr l
  | Some (Failed e) => inl (error_answer 500 "internal_error" e)
  | Some Panicked => inl (error_answer 500 "internal_error" "")
  end.

Section SetCredential.
Context `{AES} {W : Type} (rand_Read : nat -> eff W string)
  (vault_do : string -> string -> list (string * string) -> eff W (Z * string))
  (data_field : string -> string -> outcome string) (uuid_text : string -> option string).

(** The key-encryption key of the tenant in the name, where there is one and it is found. *)
Definition targetKEK (kek : KEK W) (answered : bool) (db : keys_db) (name : string) : KEK W :=
  let '(tenantID, _, found) := cut name "/" in
  if found then
    match GetTenant uuid_text answered tenantID db with
    | inr (_, tenant) =>
        if negb (String.eqb (tp_KMSURI (tn_Policy tenant)) "") then
          match as_resolver kek with
          | Some resolve => default kek (resolve (tp_KMSURI (tn_Policy tenant)))
          | None => kek
          end
        else kek
    | inl _ => kek
    end
  else kek.

(** What is left besides the effects: the cache of this replica and the table. *)
Record credential_result := mkCredentialResult { cs_effects : effects; cs_cache : option KeyCache; cs_table : table }.

(** [answered], [f]: what becomes of the query for the tenant and of the transaction. *)
Definition handleSetCredential (active : option Config) (name : string) (sess : option string) (ip : string) (reader : decoded SetCredentialRequest)
    (kek : option (KEK W)) (answered : bool) (db : keys_db) (f : fate) (now : Time) (publish : option (option string)) (cache : option KeyCache) (t : table) :
    eff W credential_result :=
  let refuse a := give (mkCredentialResult (mkEffects a [] [] 0) cache t) in
  if negb (providerDatabaseCredentialsEnabled active name) then
    refuse (error_answer 400 "provider_database_credentials_disabled" "provider must be configured with api_key_db: true before credentials can be provisioned")
  else
    match decodeJSON reader with
    | inl a => refuse a
    | inr req =>
        if String.eqb (sc_APIKey req) "" then refuse (error_answer 400 "bad_request" "api_key is required")
        else
          match kek with
          | None => refuse (error_answer 500 "internal_error" "KEK not configured on server")
          | Some kek => fun w =>
              match Seal rand_Read vault_do data_field (targetKEK kek answered db name) (sc_APIKey req) (AAD name) w with
              | (Failed e, w) => refuse (error_answer 500 "internal_error" ("failed to seal credential: " +:+ e)) w
              | (Panicked, w) => (Panicked, w)
              | (Done sealed, w) =>
                  let actor := default "admin" sess in
                  match PutCredential f now name sealed actor t with
                  | (Done version, t) =>
                      let cache := PurgeProvider name <$> cache in
                      let published := match publish with Some _ => [(OpCredentialInvalidated, CredentialInvalidatedArgs name version)] | None => [] end in
                      let leave a detail result := mkCredentialResult (mkEffects a published
                        [AdminStore.mkAuditRow actor "provider.credential.set" name (("version", AdminStore.DInt version) :: detail) ip result] 0) cache t in
                      match publish with
                      | Some (Some _) =>
                          give (leave (mkAnswer 503 [("provider", name); ("version", itoa version); ("status", "stored_local_invalidation_pending");
                            ("error", "credential stored but replica invalidation could not be published")]) [("control_publish", AdminStore.DStr "failed")] "partial") w
                      | _ => give (leave (mkAnswer 200 [("provider", name); ("version", itoa version)]) [] "ok") w
                      end
                  | (Failed e, t) => give (mkCredentialResult (mkEffects (error_answer 500 "internal_error" ("failed to store credential: " +:+ e)) [] [] 0) cache t) w
                  | (Panicked, _) => (Panicked, w)
                  end
              end
          end
    end.
End SetCredential.

(** A result with one of these statuses has stored a credential. *)
Lemma handleSetCredential_stored `{!AES} {W} (rand_Read : nat -> eff W string) vault_do data_field uuid_text
    active name sess ip reader kek answered db f now publish cache t (w : W) r w' :
  handleSetCredential rand_Read vault_do data_field uuid_text active name sess ip reader kek answered db f now publish cache t w = (Done r, w') ->
  an_Status (ef_answer (cs_effects r)) = 200 \/ an_Status (ef_answer (cs_effects r)) = 503 ->
  exists key k sealed w0 v, reader = Body (mkSetCredentialRequest key) /\ key <> "" /\ kek = Some k /\ providerDatabaseCredentialsEnabled active name = true /\
    Seal rand_Read vault_do data_field (targetKEK uuid_text k answered db name) key (AAD name) w = (Done sealed, w0) /\
    PutCredential f now name sealed (default "admin" sess) t = (Done v, cs_table r) /\ cs_cache r = PurgeProvider name <$> cache /\
    ef_published (cs_effects r) = (match publish with Some _ => [(OpCredentialInvalidated, CredentialInvalidatedArgs name v)] | None => [] end).
Proof.
  unfold handleSetCredential, give. intros Hrun Hst.
  destruct (providerDatabaseCredentialsEnabled active name) eqn:Ha; [|injection Hrun as <- <-; cbn in Hst; lia]. cbn [negb] in Hrun.
  destruct reader as [| |[key]]; cbn [decodeJSON] in Hrun; [injection Hrun as <- <-; cbn in Hst; lia..|].
  cbn [sc_APIKey] in Hrun. destruct (String.eqb_spec key "") as [->|Hk]; [injection Hrun as <- <-; cbn in Hst; lia|].
  destruct kek as [k|]; [|injection Hrun as <- <-; cbn in Hst; lia].
  destruct (Seal _ _ _ _ _ _ w) as [[sealed|e|] w0] eqn:Es; [|injection Hrun as <- <-; cbn in Hst; lia|done].
  destruct (PutCredential f now name sealed (default "admin" sess) t) as [[v|e|] t'] eqn:Ep; [|injection Hrun as <- <-; cbn in Hst; lia|done].
  exists key, k, sealed, w0, v. by destruct publish as [[]|]; injection Hrun as <- <-.
Qed.

(** The provider part of a name that passes the test is configured to take its key from the database. *)
Lemma enabled_configured active name : trim_space name = name -> providerDatabaseCredentialsEnabled active name = true ->
  exists cfg pv, active = Some cfg /\ pv ∈ Providers cfg /\ pv_APIKeyDB pv = true /\ (name = pv_Name pv \/ exists tenant, name = tenant +:+ "/" +:+ pv_Name pv).
Proof.
  intros Hn. unfold providerDatabaseCredentialsEnabled. rewrite Hn. destruct (cut name "/") as [[before after] found] eqn:Ec. destruct active as [cfg|]; [|done].
  destruct (find _ _) as [pv|] eqn:Ef; [|done]. intros Hdb. apply find_some in Ef as [Hin E%String.eqb_eq]. exists cfg, pv. split_and!; [done|by apply list_elem_of_In|done|].
  unfold cut in Ec. destruct (index "/" name) as [i|] eqn:Ei; injection Ec as <- <- <-; [right|by left]. exists (stake i name). rewrite E. by apply index_Some in Ei.
Qed.

(** C9. When the endpoint says, for a name without spaces around it ("provider", or
    "tenant/provider"), that a credential is stored, on all replicas or so far on this one, then
    the provider part of the name is that of a configured provider that takes its key from the
    database, the credential is the active one of the name under a new version, it opens to the
    key that was sent through any set of keys that offers the one it was sealed with, the
    credentials of all other names are as before, no cached key of the name or of its tenants
    is left here, and the message for the other replicas carries the name and the version.
    Assumed: the random source gives as many bytes as it is asked for, at most one version of
    each name is active before, and the key-encryption key that seals (the tenant's or the
    gateway's) unwraps what it wrapped, or, where it is remote, fails.  A name with spaces
    around it is tested without them but stored with them ([Demo.spaced_name_is_stored]). *)
Theorem set_credential_effective `{!AES} `{!AESLaws} {W} (rand_Read : nat -> eff W string) vault_do data_field uuid_text
  (Hrand : forall n (w : W) s w', rand_Read n w = (Done s, w') -> String.length s = n)
  reliable active name sess ip reader kek answered db f now publish cache t (w : W) r w'
  (Hname : trim_space name = name) (Hne : name <> "") (Hone : one_active t)
  (Hlaw : lawful rand_Read vault_do data_field reliable (targetKEK uuid_text kek answered db name))
  (Hrun : handleSetCredential rand_Read vault_do data_field uuid_text active name sess ip reader (Some kek) answered db f now publish cache t w = (Done r, w'))
  (Hstatus : an_Status (ef_answer (cs_effects r)) = 200 \/ an_Status (ef_answer (cs_effects r)) = 503) :
  exists key sealed v cfg pv, reader = Body (mkSetCredentialRequest key) /\
    active = Some cfg /\ pv ∈ Providers cfg /\ pv_APIKeyDB pv = true /\ (name = pv_Name pv \/ exists tenant, name = tenant +:+ "/" +:+ pv_Name pv) /\
    ActiveCredential true name (cs_table r) = Done (sealed, v) /\ one_active (cs_table r) /\
    (forall v' row, t !! (name, v') = Some row -> v' < v) /\
    (forall kek' w2, offers kek' (KEKID sealed) (targetKEK uuid_text kek answered db name) -> reads reliable (Open vault_do data_field kek' sealed (AAD name) w2).1 key) /\
    (forall q, q <> name -> ActiveCredential true q (cs_table r) = ActiveCredential true q t) /\
    (forall k p c, cs_cache r = Some k -> kc_m k !! p = Some c -> covers name p = false) /\
    ef_published (cs_effects r) = (match publish with Some _ => [(OpCredentialInvalidated, CredentialInvalidatedArgs name v)] | None => [] end).
Proof.
  destruct (handleSetCredential_stored _ _ _ _ _ _ _ _ _ _ _ _ _ _ _ _ _ _ _ _ Hrun Hstatus) as (key & k & sealed & w0 & v & Hr & _ & [= <-] & Ha & Hseal & Hput & Hc & Hp).
  destruct (enabled_configured _ _ Hname Ha) as (cfg & pv & Hcfg & Hpv & Hdb & Hn).
  destruct (put_then_active _ _ _ _ _ _ _ _ Hone Hput) as (P1 & P2 & P3 & P4).
  exists key, sealed, v, cfg, pv. split_and!; try done.
  - intros v' row Hl. by apply (P2 v' row).
  - intros kek' w2 Ho. apply (open_sealed rand_Read vault_do data_field reliable kek' (targetKEK uuid_text kek answered db name)); [|done|done].
    exact (seal_sealed rand_Read vault_do data_field Hrand _ _ _ _ _ _ Hseal).
  - intros k p c Hk Hl. rewrite Hc in Hk. destruct cache as [kc|]; [|done]. injection Hk as <-. rewrite <- Hname at 1. by apply (purge_provider_lookup name kc p c); [rewrite Hname|].
Qed.

(** ** The audit log (store/admin_audit.go) *)

Record AdminAuditEvent := mkAuditEvent { ev_ID : Z; ev_TS : Time; ev_Row : AdminStore.AuditRow }.

(** [af_Since]: [None] for the zero time. *)
Record AdminAuditFilter := mkAuditFilter { af_Since : option Time; af_Actor : string; af_Action : string; af_Limit : Z }.

Definition audit_limit (l : Z) : Z := let l := if l <=? 0 then 50 else l in if 500 <? l then 500 else l.

Definition audit_matches (f : AdminAuditFilter) (e : AdminAuditEvent) : bool :=
  match af_Since f with Some t => t <=? ev_TS e | None => true end &&
  (String.eqb (af_Actor f) "" || String.eqb (AdminStore.ad_Actor (ev_Row e)) (af_Actor f)) &&
  (String.eqb (af_Action f) "" || String.eqb (AdminStore.ad_Action (ev_Row e)) (af_Action f)).

(** [log]: the rows in the order in which the database finds them. *)
Definition ListAdminAuditFiltered (answered : bool) (f : AdminAuditFilter) (log : list AdminAuditEvent) : string + list AdminAuditEvent :=
  if answered then inr (take (Z.to_nat (audit_limit (af_Limit f))) (stable_sort (fun a b => ev_TS b <? ev_TS a) (filter (fun e => audit_matches f e = true) log)))
  else inl db_error.

Definition ListAdminAudit (answered : bool) (limit : Z) (log : list AdminAuditEvent) : string + list AdminAuditEvent :=
  ListAdminAuditFiltered answered (mkAuditFilter None "" "" limit) log.

(** [query]: the parameters of the URL; a time or a limit that does not parse is ignored.
    [store]: the answer of the store's query, where there is a store. *)
Definition handleListAudit (parse_time : string -> option Time) (query : string -> string) (store : option (AdminAuditFilter -> string + list AdminAuditEvent)) :
    answer + list AdminAuditEvent :=
  match store with
  | None => inr []
  | Some list =>
      let since := if String.eqb (query "since") "" then None else parse_time (query "since") in
      let limit := if String.eqb (query "limit") "" then 0 else default 0 (Atoi (query "limit")) in
      match list (mkAuditFilter since (query "actor") (query "action") limit) with
      | inl e => inl (error_answer 500 "audit_error" e)
      | inr events => inr events
      end
  end.

(** A page of the log holds at least one row when one matches and at most 500, all of them
    match, and none that was left out is later than one of them. *)
Theorem audit_page f log page : ListAdminAuditFiltered true f log = inr page ->
  Z.of_nat (length page) <= 500 /\ (page = [] -> Forall (fun e => audit_matches f e = false) log) /\
  Forall (fun e => e ∈ log /\ audit_matches f e = true) page /\ StronglySorted (fun a b => ev_TS b <= ev_TS a) page /\
  exists rest, page ++ rest ≡ₚ filter (fun e => audit_matches f e = true) log /\ forall a b, a ∈ page -> b ∈ rest -> ev_TS b <= ev_TS a.
Proof.
  unfold ListAdminAuditFiltered. intros [= <-]. set (less := fun a b : AdminAuditEvent => ev_TS b <? ev_TS a). set (l := filter (fun e => audit_matches f e = true) log).
  set (n := Z.to_nat (audit_limit (af_Limit f))).
  assert (1 <= audit_limit (af_Limit f) <= 500) as Hn by (unfold audit_limit; destruct (Z.leb_spec (af_Limit f) 0); cbn; [lia|]; destruct (Z.ltb_spec 500 (af_Limit f)); lia).
  pose proof (stable_sort_perm less l) as Hperm.
  assert (StronglySorted (nle less) (stable_sort less l)) as Hs.
  { apply (stable_sort_sorted less (fun _ => True)); [unfold less; intros; lia..|]. by apply Forall_true. }
  assert (StronglySorted (fun a b => ev_TS b <= ev_TS a) (stable_sort less l)) as Hs'.
  { clear -Hs. induction Hs as [|x l0 Hs IH Hx]; constructor; [done|]. eapply Forall_impl; [exact Hx|]. unfold nle, less. intros y Hy. cbn in *. lia. }
  pose proof (take_drop n (stable_sort less l)) as Htd. split_and!.
  - rewrite length_take. lia.
  - intros Hnil. apply (f_equal length) in Hnil. rewrite length_take, (Permutation_length Hperm) in Hnil. cbn in Hnil. assert (length l = 0%nat) as Hl%nil_length_inv by lia.
    apply Forall_forall. intros e He. destruct (audit_matches f e) eqn:Em; [|done]. exfalso. apply (not_elem_of_nil e). rewrite <- Hl. by apply list_elem_of_filter.
  - apply Forall_forall. intros e He. assert (e ∈ stable_sort less l) as Hin by (rewrite <- Htd; apply elem_of_app; by left).
    rewrite Hperm in Hin. apply list_elem_of_filter in Hin. tauto.
  - rewrite <- Htd in Hs'. by eapply StronglySorted_app_1_l.
  - exists (drop n (stable_sort less l)). split; [by rewrite Htd|]. rewrite <- Htd in Hs'. by apply StronglySorted_app in Hs' as (Hab & _ & _).
Qed.

(** ** Accounts, chat and routes *)

(** The order of the names is the database's. *)
Definition handleListUsers (collate : string -> string -> bool) (users : string + list AdminStore.AdminUser) : answer + list AdminStore.AdminUser :=
  match users with
  | inl e => inl (error_answer 500 "internal_error" e)
  | inr l => inr (stable_sort (fun a b => collate (AdminStore.us_Username a) (AdminStore.us_Username b)) l)
  end.

Definition handleGetUser (user : lookup_error + AdminStore.AdminUser) : answer + AdminStore.AdminUser :=
  match user with
  | inl Auth.ErrNotFound => inl (error_answer 404 "not_found" "user not found")
  | inl ErrBackend => inl (error_answer 500 "internal_error" db_error)
  | inr u => inr u
  end.

(** The principal of the interactive chat, or the answer where there is no chat. *)
Definition handleChat (chat_handlers : bool) (sess : option string) (deps active : option Config) : answer + Principal :=
  if negb chat_handlers then inl (error_answer 503 "service_unavailable" "chat handler not initialized")
  else
    let actor := match sess with Some u => if String.eqb u "" then "admin" else u | None => "admin" end in
    let chat := match deps, active with
                | Some c, _ | None, Some c => aa_Chat (Config.AdminAuth c)
                | None, None => mkAdminChatConfig 0 0 f0 []
                end in
    let rpm := if ac_RPM chat =? 0 then 60 else ac_RPM chat in
    let tpm := if ac_TPM chat =? 0 then 100000 else ac_TPM chat in
    inr (mkPrincipal "control-plane" "admin" "" ("cp:" +:+ actor) (ac_AllowedRoutes chat) false
      (mkTenantPolicy rpm tpm (ac_BudgetUSD chat) false None false "") no_key_policy).

(** What stands before a handler. *)
Inductive guard := Unguarded | WithSession | Needs (p : Permission).

Definition RegisterAdminRoutes (authEnabled health purge pprof : bool) : list (string * guard) :=
  if negb authEnabled then
    (if health then [("GET /admin/health", Unguarded)] else []) ++ (if purge then [("POST /admin/cache/purge", Unguarded)] else []) ++
    [("POST /admin/secrets/purge", Unguarded); ("POST /admin/reload", Unguarded)]
  else
    [("POST /admin/auth/login", Unguarded)] ++ (if health then [("GET /admin/health", Unguarded)] else []) ++
    [("POST /admin/auth/logout", WithSession); ("GET /admin/auth/whoami", WithSession);
     ("GET /admin/cp/status", Needs PermStatusView); ("GET /admin/cp/health", Needs PermHealthView); ("GET /admin/cp/config", Needs PermConfigView);
     ("POST /admin/cp/config/reload", Needs PermConfigReload); ("POST /admin/cp/cache/purge", Needs PermCachePurge); ("GET /admin/cp/audit", Needs PermAuditView);
     ("GET /admin/cp/providers", Needs PermConfigView); ("GET /admin/cp/providers/{name}", Needs PermConfigView);
     ("POST /admin/cp/providers/{name}/test", Needs PermProviderManage); ("POST /admin/cp/providers/{name}/credential", Needs PermProviderManage);
     ("GET /admin/cp/providers/credentials", Needs PermProviderManage);
     ("POST /admin/cp/keys/{id}/revoke", Needs PermUserManage); ("POST /admin/cp/tenants/{id}/erase", Needs PermUserManage);
     ("GET /admin/cp/sessions", Needs PermSessionManage); ("DELETE /admin/cp/sessions/{id}", Needs PermSessionManage); ("DELETE /admin/cp/sessions", Needs PermSessionManage);
     ("POST /admin/cp/users", Needs PermUserManage); ("GET /admin/cp/users", Needs PermUserManage); ("GET /admin/cp/users/{username}", Needs PermUserManage);
     ("PUT /admin/cp/users/{username}/enabled", Needs PermUserManage); ("DELETE /admin/cp/users/{username}", Needs PermUserManage);
     ("POST /admin/cp/users/{username}/password", WithSession);
     ("POST /admin/cache/purge", Needs PermCachePurge); ("POST /admin/secrets/purge", Needs PermProviderManage); ("POST /admin/reload", Needs PermConfigReload);
     ("POST /admin/cp/chat", Needs PermChatTest)] ++
    (if pprof then [("GET /debug/pprof/", Needs PermDebug); ("GET /debug/pprof/cmdline", Needs PermDebug); ("GET /debug/pprof/profile", Needs PermDebug);
                    ("GET /debug/pprof/symbol", Needs PermDebug); ("GET /debug/pprof/trace", Needs PermDebug)] else []).

(** Whether the wrappers of [AdminAuth] let a caller with this role in, [None] for a caller
    without a session. *)
Definition passes (role : option string) (g : guard) : bool :=
  match g, role with
  | Unguarded, _ => true
  | WithSession, Some _ => true
  | Needs p, Some r => HasPermission r p
  | _, None => false
  end.

(** With accounts, a caller without a session can log in and ask for the health, and nothing
    else; one who is neither an administrator nor an operator can change nothing but his own
    session and password; an operator reaches neither accounts, sessions, keys, tenants, the
    audit log nor the profiler. *)
Theorem admin_routes_guarded health purge pprof pattern g : (pattern, g) ∈ RegisterAdminRoutes true health purge pprof ->
  (passes None g = true -> pattern ∈ ["POST /admin/auth/login"; "GET /admin/health"]) /\
  (forall role, role <> "admin" -> role <> "operator" -> passes (Some role) g = true ->
     has_prefix "GET /admin/" pattern = true \/ pattern ∈ ["POST /admin/auth/login"; "POST /admin/auth/logout"; "POST /admin/cp/users/{username}/password"]) /\
  (passes (Some "operator") g = true -> has_prefix "GET /admin/cp/users" pattern = false /\ has_prefix "DELETE " pattern = false /\ has_prefix "PUT " pattern = false /\
     pattern ∉ ["POST /admin/cp/users"; "POST /admin/cp/keys/{id}/revoke"; "POST /admin/cp/tenants/{id}/erase"; "GET /admin/cp/audit"] /\ has_prefix "GET /debug/" pattern = false).
Proof.
  assert (forall role p, role <> "admin" -> role <> "operator" -> HasPermission role p = true -> p ∈ [PermConfigView; PermHealthView; PermStatusView]) as Hrole.
  { intros role p H1 H2. unfold HasPermission, rolePermissions. destruct (String.eqb_spec role "admin"); [done|]. destruct (String.eqb_spec role "operator"); [done|].
    destruct (String.eqb role "viewer"); [|done]. destruct p; vm_compute; try done; intros _; repeat (first [by left|right]). }
  set (fine := fun (kv : string * guard) =>
    (negb (passes None kv.2) || bool_decide (kv.1 ∈ ["POST /admin/auth/login"; "GET /admin/health"])) &&
    (match kv.2 with
     | Needs p => negb (bool_decide (p ∈ [PermConfigView; PermHealthView; PermStatusView])) || has_prefix "GET /admin/" kv.1
     | _ => has_prefix "GET /admin/" kv.1 || bool_decide (kv.1 ∈ ["POST /admin/auth/login"; "POST /admin/auth/logout"; "POST /admin/cp/users/{username}/password"])
     end) &&
    (negb (passes (Some "operator") kv.2) || negb (has_prefix "GET /admin/cp/users" kv.1 || has_prefix "DELETE " kv.1 || has_prefix "PUT " kv.1 || has_prefix "GET /debug/" kv.1 ||
       bool_decide (kv.1 ∈ ["POST /admin/cp/users"; "POST /admin/cp/keys/{id}/revoke"; "POST /admin/cp/tenants/{id}/erase"; "GET /admin/cp/audit"])))).
  assert (forallb fine (RegisterAdminRoutes true health purge pprof) = true) as Hall by (destruct health, purge, pprof; vm_compute; reflexivity).
  intros Hin. rewrite forallb_forall in Hall. specialize (Hall _ (proj1 (list_elem_of_In _ _) Hin)). unfold fine in Hall. cbn [fst snd] in Hall.
  rewrite !andb_true_iff, !orb_true_iff, !negb_true_iff, !orb_false_iff, !bool_decide_eq_true, bool_decide_eq_false in Hall. destruct Hall as [[H1 H2] H3]. split_and!.
  - intros Hp. destruct H1; [congruence|done].
  - intros role R1 R2 Hp. destruct g as [| |p]; cbn in Hp.
    + apply orb_true_iff in H2 as [?|H2]; [by left|]. right. by apply bool_decide_eq_true in H2.
    + apply orb_true_iff in H2 as [?|H2]; [by left|]. right. by apply bool_decide_eq_true in H2.
    + apply orb_true_iff in H2 as [H2|?]; [|by left]. apply negb_true_iff, bool_decide_eq_false in H2. destruct H2. by eapply Hrole.
  - intros Hp. destruct H3 as [H3|H3]; [congruence|]. tauto.
Qed.

(** What is shown of a failed probe depends on the status of the upstream's answer, or on
    the failure having been a timeout, and on no text; it is always an error. *)
Theorem probe_shows_only_status name err :
  400 <= an_Status (writeProviderProbeFailure name err) < 600 /\
  writeProviderProbeFailure name err = writeProviderProbeFailure name (match err with
    | ErrProvider e => ErrProvider (mkProviderError "" (pe_Status e) "" false 0)
    | ErrDeadlineExceeded => ErrDeadlineExceeded
    | _ => ErrOther ""
    end).
Proof.
  split; [|by destruct err]. unfold writeProviderProbeFailure, probe_failure. destruct err as [e| | | |]; cbn; try lia.
  destruct (Z.leb_spec 400 (pe_Status e)), (Z.ltb_spec (pe_Status e) 600); cbn [andb];
    repeat match goal with |- context [if ?b then _ else _] => destruct b end; cbn; lia.
Qed.

(** ** Examples *)

Module Demo.
Import ToyKeys.

Definition openai_db : ProviderConfig := mkProviderConfig "openai" "openai" "" "" true ∅ false.
Definition active1 : Config :=
  mkConfig (Server demo_config) (Database demo_config) (Redis demo_config) (Analytics demo_config) (Telemetry demo_config) (BreakersC demo_config) (Config.Auth demo_config)
    (Config.AdminAuth demo_config) (MCP demo_config) [openai_db] (Pricing demo_config) (Budget demo_config) (Proof demo_config) (Routes demo_config) (Capabilities demo_config)
    (DefaultsC demo_config) (SLOs demo_config) (Config.Health demo_config) (MCPServers demo_config) (MCPInsecureHosts demo_config) (Secrets demo_config)
    (WatcherInterval demo_config) (OverrideInterval demo_config).

(** A tenant with a key-encryption key of its own, which the gateway resolves. *)
Definition byok_db : keys_db := mkKeysDb {["t1" := mkTenantRow "acme" (mkTenantPolicy 0 0 f0 false None false "local:1") 0]} ∅.
Definition cached1 : KeyCache := mkKeyCache minute minute {["openai" := mkCached "sk-1" 100 200; "t1/openai" := mkCached "sk-t" 100 200; "gemini" := mkCached "sk-g" 100 200]} 0.

Definition set_credential (name : string) (answered : bool) (publish : option (option string)) : outcome credential_result :=
  (handleSetCredential rand no_vault no_field toy_text (Some active1) name (Some "root") "10.0.0.9" (Body (mkSetCredentialRequest "sk-2"))
     (Some both) answered byok_db Commits 7 publish (Some cached1) table1 0%nat).1.

(** When the query for the tenant fails, its credential is sealed with the gateway's key. *)
Example byok_falls_back :
  map (fun answered => match set_credential "t1/openai" answered None with
                       | Done r => (an_Status (ef_answer (cs_effects r)), match ActiveCredential true "t1/openai" (cs_table r) with Done (s, _) => KEKID s | _ => "" end)
                       | _ => (0, "")
                       end) [true; false] = [(200, "local:1"); (200, "local:2")].
Proof. vm_compute. reflexivity. Qed.

(** A name with spaces around it passes the test of the configuration, and what is stored
    under it is not the credential of the provider. *)
Example spaced_name_is_stored :
  match set_credential " openai" true None with
  | Done r => (an_Status (ef_answer (cs_effects r)), ActiveCredential true "openai" (cs_table r), match cs_cache r with Some k => map fst (map_to_list (kc_m k)) | None => [] end)
  | _ => (0, Panicked, [])
  end = (200, Done (sealed1, 1), ["gemini"]).
Proof. vm_compute. reflexivity. Qed.

(** A purge that fails is recorded as one that did not, and announced. *)
Example failed_purge_is_audited_ok :
  let r := (handleCachePurge (fun s : unit => (mkAnswer 500 [], s)) true true (Some "root") "" true tt).1 in
  (an_Status (ef_answer r), map AdminStore.ad_Result (ef_audit r), map fst (ef_published r)) = (500, ["ok"], [OpPurgeCache]).
Proof. reflexivity. Qed.

Lemma set_credential_effective_witness :
  match set_credential "openai" true (Some (Some "no route")) with
  | Done r => an_Status (ef_answer (cs_effects r)) = 503 /\
      (exists sealed, ActiveCredential true "openai" (cs_table r) = Done (sealed, 2) /\ (Open no_vault no_field both sealed (AAD "openai") 0%nat).1 = Done "sk-2") /\
      match cs_cache r with Some k => kc_m k !! "t1/openai" = None | None => False end
  | _ => False
  end.
Proof.
  assert (lawful rand no_vault no_field true (targetKEK toy_text both true byok_db "openai")) as Hlaw.
  { change (lawful rand no_vault no_field true (KMulti (Some (KLocal (Some key2))) {["local:1" := KLocal (Some key1)]} None)).
    apply multi_lawful. by apply (local_lawful rand no_vault no_field rand_length). }
  pose proof (fun r w' => set_credential_effective rand no_vault no_field toy_text rand_length true (Some active1) "openai" (Some "root") "10.0.0.9"
    (Body (mkSetCredentialRequest "sk-2")) both true byok_db Commits 7 (Some (Some "no route")) (Some cached1) table1 0%nat r w' ltac:(done) ltac:(done) table1_one_active Hlaw) as H.
  assert (match set_credential "openai" true (Some (Some "no route")) with
          | Done r => (an_Status (ef_answer (cs_effects r)), match ActiveCredential true "openai" (cs_table r) with Done (s, v) => (KEKID s, v) | _ => ("", 0) end,
              match cs_cache r with Some _ => true | None => false end)
          | _ => (0, ("", 0), false)
          end = (503, ("local:2", 2), true)) as Hc by (vm_compute; reflexivity).
  unfold set_credential in *. destruct (handleSetCredential _ _ _ _ _ _ _ _ _ _ _ _ _ _ _ _ _ _) as [[r| |] w']; cbn [fst] in *; [|discriminate..].
  injection Hc as Hs Ha2 Hk2. destruct (H r w' eq_refl (or_intror Hs)) as (key & sealed & v & cfg & pv & [= <-] & _ & _ & _ & _ & Ha & _ & _ & Ho & _ & Hk & _). split; [exact Hs|].
  rewrite Ha in Ha2. injection Ha2 as Hid ->. split; [exists sealed; split; [exact Ha|]|].
  - destruct (Ho both 0%nat) as [Hd|[? _]]; [left; split; [by rewrite Hid|reflexivity]|exact Hd|discriminate].
  - destruct (cs_cache r) as [k|]; [|discriminate].
    destruct (kc_m k !! "t1/openai") as [c|] eqn:Ec; [|reflexivity]. specialize (Hk k "t1/openai" c eq_refl Ec). vm_compute in Hk. discriminate.
Defined.
End Demo.
