(* ===== verification/MemStore.v ===== *)
(** * The session store in memory (src/internal/adminauth/store.go)

    [MemStore] and what it promises: to behave as [RedisStore] over Redis, the commands of
    which are those of [AdminStore].  A deletion of what has expired is part of the reads. *)

From S2P Require Import Prelude GoStrings GoFloat AdminStore AdminAuth AdminLogin.

Open Scope string_scope.
Open Scope list_scope.
Open Scope Z_scope.

Record memItem := mkMemItem { mi_val : string; mi_expiresAt : Time }.
Record MemStore := mkMemStore { ms_data : gmap string memItem; ms_sets : gmap string (gset string) }.

Definition NewMemStore : MemStore := mkMemStore ∅ ∅.

Definition with_data (m : MemStore) (d : gmap string memItem) : MemStore := mkMemStore d (ms_sets m).
Definition with_sets (m : MemStore) (s : gmap string (gset string)) : MemStore := mkMemStore (ms_data m) s.

(** [now.After(item.expiresAt)] *)
Definition expired (now : Time) (i : memItem) : bool := mi_expiresAt i <? now.

Definition mem_Set (now : Time) (key val : string) (ttl : Duration) (m : MemStore) : MemStore :=
  with_data m (<[key := mkMemItem val (now + ttl)]> (ms_data m)).

Definition mem_SetXX (now : Time) (key val : string) (ttl : Duration) (m : MemStore) : bool * MemStore :=
  match ms_data m !! key with
  | Some i => if expired now i then (false, with_data m (delete key (ms_data m))) else (true, mem_Set now key val ttl m)
  | None => (false, with_data m (delete key (ms_data m)))
  end.

Definition mem_Get (now : Time) (key : string) (m : MemStore) : option string * MemStore :=
  match ms_data m !! key with
  | Some i => if expired now i then (None, with_data m (delete key (ms_data m))) else (Some (mi_val i), m)
  | None => (None, with_data m (delete key (ms_data m)))
  end.

Definition mem_Del (keys : list string) (m : MemStore) : MemStore :=
  for_range keys m (fun m k => mkMemStore (delete k (ms_data m)) (delete k (ms_sets m))).

(** [order]: the order in which the map is visited. *)
Definition mem_Scan (order : list string) (now : Time) (pattern : string) (m : MemStore) : list string * MemStore :=
  let prefix := if has_suffix "*" pattern then stake (String.length pattern - 1) pattern else pattern in
  for_range order ([], m) (fun '(keys, m) k =>
    match ms_data m !! k with
    | Some i => if expired now i then (keys, with_data m (delete k (ms_data m))) else (if has_prefix prefix k then keys ++ [k] else keys, m)
    | None => (keys, m)
    end).

Definition mem_IncrWithTTL (now : Time) (key : string) (ttl : Duration) (m : MemStore) : Z * MemStore :=
  match ms_data m !! key with
  | Some i =>
      if now <? mi_expiresAt i then
        let count := wrap64 (parse_int (mi_val i) + 1) in (count, with_data m (<[key := mkMemItem (itoa count) (mi_expiresAt i)]> (ms_data m)))
      else (1, with_data m (<[key := mkMemItem "1" (now + ttl)]> (ms_data m)))
  | None => (1, with_data m (<[key := mkMemItem "1" (now + ttl)]> (ms_data m)))
  end.

Definition mem_GetWithTTL (now : Time) (key : string) (m : MemStore) : (Z * Duration) * MemStore :=
  match ms_data m !! key with
  | Some i => if expired now i then ((0, 0), with_data m (delete key (ms_data m))) else ((parse_int (mi_val i), time_sub (mi_expiresAt i) now), m)
  | None => ((0, 0), with_data m (delete key (ms_data m)))
  end.

Definition mem_SAdd (key : string) (members : list string) (m : MemStore) : MemStore :=
  let s := for_range members (default ∅ (ms_sets m !! key)) (fun s x => {[x]} ∪ s) in with_sets m (<[key := s]> (ms_sets m)).

Definition mem_SRem (key : string) (members : list string) (m : MemStore) : MemStore :=
  match ms_sets m !! key with
  | Some s => with_sets m (<[key := for_range members s (fun s x => s ∖ {[x]})]> (ms_sets m))
  | None => m
  end.

Definition mem_SMembers (key : string) (m : MemStore) : list string := elements (default ∅ (ms_sets m !! key)).

(** ** The interface *)

Inductive request :=
| RSet (key val : string) (ttl : Duration) | RSetXX (key val : string) (ttl : Duration) | RGet (key : string) | RDel (keys : list string)
| RIncrWithTTL (key : string) (ttl : Duration) | RGetWithTTL (key : string)
| RSAdd (key member : string) | RSRem (key member : string) | RSMembers (key : string).

Inductive response := Nothing | Flag (b : bool) | Value (v : option string) | Count (n : option Z) | CountTTL (n : Z) (ttl : Duration) | Members (l : list string).

Definition mem_step (now : Time) (r : request) (m : MemStore) : response * MemStore :=
  match r with
  | RSet k v ttl => (Nothing, mem_Set now k v ttl m)
  | RSetXX k v ttl => let '(b, m) := mem_SetXX now k v ttl m in (Flag b, m)
  | RGet k => let '(v, m) := mem_Get now k m in (Value v, m)
  | RDel ks => (Nothing, mem_Del ks m)
  | RIncrWithTTL k ttl => let '(n, m) := mem_IncrWithTTL now k ttl m in (Count (Some n), m)
  | RGetWithTTL k => let '((n, ttl), m) := mem_GetWithTTL now k m in (CountTTL n ttl, m)
  | RSAdd k x => (Nothing, mem_SAdd k [x] m)
  | RSRem k x => (Nothing, mem_SRem k [x] m)
  | RSMembers k => (Members (mem_SMembers k m), m)
  end.

Section Refinement.
Context {C : Type}.
Implicit Types w : World C.

(** [RedisStore], every command of which is answered. *)
Definition redis_step (r : request) w : response * World C :=
  match r with
  | RSet k v ttl => (Nothing, redis_set k v ttl w)
  | RSetXX k v ttl => let '(w, b) := redis_setxx k v ttl w in (Flag b, w)
  | RGet k => (Value (fst <$> kv_get w k), w)
  | RDel ks => (Nothing, redis_del ks w)
  | RIncrWithTTL k ttl => let '(w, n) := incrWithTTLScript k (ttl_seconds ttl) w in (Count n, w)
  | RGetWithTTL k =>
      (match kv_get w k with
       | None => CountTTL 0 0
       | Some (v, _) => let ttl := redis_ttl k w in CountTTL (parse_int v) (if ttl <? 0 then 0 else ttl)
       end, w)
  | RSAdd k x => (Nothing, redis_sadd k x w)
  | RSRem k x => (Nothing, redis_srem k x w)
  | RSMembers k => (Members (redis_smembers k w), w)
  end.

(** The times left may differ by Redis's rounding to seconds. *)
Definition agree (a b : response) : Prop :=
  match a, b with CountTTL n t, CountTTL n' t' => n = n' /\ Z.abs (t - t') <= 501 * millisecond | _, _ => a = b end.

(** Expiries that both keep alike, and counters that were counted. *)
Definition whole (unit ttl : Duration) : Prop := 0 < ttl <= int64_max /\ (unit | ttl).
Definition admissible (r : request) w : Prop :=
  match r with
  | RSet _ _ ttl | RSetXX _ _ ttl => whole millisecond ttl
  | RIncrWithTTL k ttl => whole second ttl /\ forall v t, kv_get w k = Some (v, t) -> exists n, 1 <= n < int64_max /\ v = itoa n
  | _ => True
  end.

Definition mem_view (now : Time) (m : MemStore) (k : string) : option (string * option Time) :=
  i ← ms_data m !! k; if expired now i then None else Some (mi_val i, Some (mi_expiresAt i)).

Record related (m : MemStore) w : Prop := {
  rel_view : forall k, mem_view (w_now w) m k = kv_get w k;
  rel_sets : forall k, default ∅ (ms_sets m !! k) = default ∅ (w_sets w !! k);
  rel_times : forall k v t, kv_get w k = Some (v, t) -> exists e, t = Some e /\ 0 < e - w_now w <= int64_max }.

(** Both stores side by side; time does not stop where an entry of the memory expires. *)
Inductive side_by_side : MemStore * World C -> MemStore * World C -> Prop :=
| sbs_request r m w : admissible r w -> side_by_side (m, w) ((mem_step (w_now w) r m).2, (redis_step r w).2)
| sbs_tick d m w : (forall k i, ms_data m !! k = Some i -> mi_expiresAt i <> w_now w + Z.of_N d) -> side_by_side (m, w) (m, tick d w).

Lemma view_insert now m k i k' : mem_view now (with_data m (<[k := i]> (ms_data m))) k' =
  if decide (k' = k) then (if expired now i then None else Some (mi_val i, Some (mi_expiresAt i))) else mem_view now m k'.
Proof.
  unfold mem_view. cbn [ms_data with_data]. destruct (decide (k' = k)) as [->|Hn]; [by rewrite lookup_insert_eq|by rewrite lookup_insert_ne by done].
Qed.

Lemma view_delete now m k k' : mem_view now (with_data m (delete k (ms_data m))) k' = if decide (k' = k) then None else mem_view now m k'.
Proof.
  unfold mem_view. cbn [ms_data with_data]. destruct (decide (k' = k)) as [->|Hn]; [by rewrite lookup_delete_eq|by rewrite lookup_delete_ne by done].
Qed.

Lemma kv_insert w k v t k' : kv_get (set_kv w (<[k := (v, Some t)]> (w_kv w))) k' =
  if decide (k' = k) then (if t <=? w_now w then None else Some (v, Some t)) else kv_get w k'.
Proof.
  unfold kv_get. cbn [w_kv w_now set_kv]. destruct (decide (k' = k)) as [->|Hn]; [by rewrite lookup_insert_eq|by rewrite lookup_insert_ne by done].
Qed.

(** Both stores give a key the same value until the same, later, time. *)
Lemma related_insert m w k v t : related m w -> 0 < t - w_now w <= int64_max ->
  related (with_data m (<[k := mkMemItem v t]> (ms_data m))) (set_kv w (<[k := (v, Some t)]> (w_kv w))).
Proof.
  intros [H1 H2 H3] Ht. split; cbn [w_now w_sets ms_sets with_data set_kv]; [|done|].
  - intros k'. rewrite view_insert, kv_insert. destruct (decide _); [|apply H1]. unfold expired. cbn [mi_expiresAt mi_val].
    destruct (Z.ltb_spec t (w_now w)), (Z.leb_spec t (w_now w)); try done; lia.
  - intros k' v' t'. rewrite kv_insert. destruct (decide _); [|apply H3]. destruct (_ <=? _); [done|]. intros [= <- <-]. by eexists.
Qed.

(** The memory may drop what is not live. *)
Lemma related_drop m w k : related m w -> kv_get w k = None -> related (with_data m (delete k (ms_data m))) w.
Proof. intros [H1 H2 H3] Hk. split; [|done|done]. intros k'. rewrite view_delete. destruct (decide (k' = k)) as [->|]; [done|apply H1]. Qed.

Lemma whole_milliseconds now ttl : whole millisecond ttl -> set_expiry now ttl = Some (now + ttl).
Proof.
  intros [[Hp _] [q ->]]. unfold set_expiry. destruct (Z.leb_spec (q * millisecond) 0); [lia|].
  rewrite Z.quot_mul by done. f_equal. unfold millisecond in *. lia.
Qed.

Lemma whole_seconds ttl : whole second ttl -> ttl_seconds ttl * second = ttl.
Proof.
  intros [[Hp Hm] [q ->]]. rewrite ttl_seconds_whole; [done|]. unfold int64_max, second in *. lia.
Qed.

Lemma wrap64_small n : int64_min <= n <= int64_max -> wrap64 n = n.
Proof. unfold int64_min, int64_max, wrap64. intros H. rewrite Z.mod_small by lia. lia. Qed.

Lemma view_live m w k i : related m w -> ms_data m !! k = Some i ->
  (if expired (w_now w) i then kv_get w k = None else kv_get w k = Some (mi_val i, Some (mi_expiresAt i)) /\ 0 < mi_expiresAt i - w_now w <= int64_max).
Proof.
  intros [H1 _ H3] Hi. specialize (H1 k). unfold mem_view in H1. rewrite Hi in H1. cbn in H1. destruct (expired (w_now w) i); [done|].
  split; [done|]. symmetry in H1. destruct (H3 _ _ _ H1) as (e & [= ->] & He). done.
Qed.

Lemma view_absent m w k : related m w -> ms_data m !! k = None -> kv_get w k = None.
Proof. intros [H1 _ _] Hi. specialize (H1 k). unfold mem_view in H1. by rewrite Hi in H1. Qed.

(** Del removes the same keys. *)
Lemma mem_Del_lookup ks m k : ms_data (mem_Del ks m) !! k = (if decide (k ∈ ks) then None else ms_data m !! k) /\
  ms_sets (mem_Del ks m) !! k = (if decide (k ∈ ks) then None else ms_sets m !! k).
Proof.
  unfold mem_Del, for_range. revert m. induction ks as [|x ks IH]; intros m; cbn [fold_left]; [done|].
  destruct (IH (mkMemStore (delete x (ms_data m)) (delete x (ms_sets m)))) as [-> ->]. cbn [ms_data ms_sets].
  destruct (decide (k ∈ ks)) as [Hk|Hk].
  - by rewrite !decide_True by (by right).
  - destruct (decide (k = x)) as [->|Hx].
    + rewrite !decide_True by (by left). by rewrite !lookup_delete_eq.
    + rewrite !decide_False by (rewrite elem_of_cons; tauto). by rewrite !lookup_delete_ne by done.
Qed.

Lemma foldr_delete_lookup {A} (ks : list string) (d : gmap string A) k : foldr delete d ks !! k = (if decide (k ∈ ks) then None else d !! k).
Proof.
  induction ks as [|x ks IH]; cbn [foldr]; [done|]. destruct (decide (k = x)) as [->|Hx].
  - rewrite lookup_delete_eq, decide_True by (by left). done.
  - rewrite lookup_delete_ne, IH by done. destruct (decide (k ∈ ks)); [rewrite decide_True by (by right)|rewrite decide_False by (rewrite elem_of_cons; tauto)]; done.
Qed.

Lemma related_del ks m w : related m w -> related (mem_Del ks m) (redis_del ks w).
Proof.
  intros [H1 H2 H3]. split.
  - intros k. specialize (H1 k). unfold mem_view, kv_get, redis_del in *. cbn [w_now w_kv set_sets set_kv] in *.
    rewrite (proj1 (mem_Del_lookup ks m k)), foldr_delete_lookup. destruct (decide (k ∈ ks)); [done|exact H1].
  - intros k. unfold redis_del. cbn [w_sets set_sets]. rewrite (proj2 (mem_Del_lookup ks m k)), foldr_delete_lookup. destruct (decide (k ∈ ks)); [done|apply H2].
  - intros k v t. unfold kv_get, redis_del in *. cbn [w_now w_kv set_sets set_kv]. rewrite foldr_delete_lookup. destruct (decide (k ∈ ks)); [done|apply H3].
Qed.

Lemma related_sets m w k s s' : related m w -> s = s' -> related (with_sets m (<[k := s]> (ms_sets m))) (set_sets w (<[k := s']> (w_sets w))).
Proof.
  intros [H1 H2 H3] <-. split; [done| |done]. intros k'. cbn. destruct (decide (k' = k)) as [->|]; [by rewrite !lookup_insert_eq|by rewrite !lookup_insert_ne by done].
Qed.

(** One request. *)
Lemma step_related r m w : related m w -> admissible r w ->
  agree (mem_step (w_now w) r m).1 (redis_step r w).1 /\ related (mem_step (w_now w) r m).2 (redis_step r w).2.
Proof.
  intros Hr Ha. destruct r as [k v ttl|k v ttl|k|ks|k ttl|k|k x|k x|k]; cbn [mem_step redis_step admissible fst snd] in *.
  - split; [done|]. unfold mem_Set, redis_set. rewrite whole_milliseconds by done. apply related_insert; [done|]. destruct Ha as [? _]. lia.
  - unfold mem_SetXX, redis_setxx. destruct (ms_data m !! k) as [i|] eqn:Ei.
    + pose proof (view_live m w k i Hr Ei) as Hv. destruct (expired _ i); [rewrite Hv; split; [done|by apply related_drop]|]. destruct Hv as [-> _]. cbn [fst snd].
      split; [done|]. unfold mem_Set, redis_set. rewrite whole_milliseconds by done. apply related_insert; [done|]. destruct Ha as [? _]. lia.
    + rewrite (view_absent m w k) by done. split; [done|]. apply related_drop; [done|]. by apply (view_absent m).
  - unfold mem_Get. destruct (ms_data m !! k) as [i|] eqn:Ei.
    + pose proof (view_live m w k i Hr Ei) as Hv. destruct (expired _ i); [rewrite Hv; split; [done|by apply related_drop]|]. destruct Hv as [-> _]. done.
    + rewrite (view_absent m w k) by done. split; [done|]. apply related_drop; [done|]. by apply (view_absent m).
  - split; [done|]. by apply related_del.
  - destruct Ha as [Ht Hc]. pose proof Ht as [Hpos _]. unfold mem_IncrWithTTL, incrWithTTLScript. rewrite whole_seconds by done.
    destruct (ms_data m !! k) as [i|] eqn:Ei.
    + pose proof (view_live m w k i Hr Ei) as Hv. unfold expired in Hv. destruct (Z.ltb_spec (mi_expiresAt i) (w_now w)).
      * rewrite Hv. destruct (Z.ltb_spec (w_now w) (mi_expiresAt i)); [lia|]. split; [done|]. apply related_insert; [done|lia].
      * destruct Hv as [Hv Hb]. destruct (Z.ltb_spec (w_now w) (mi_expiresAt i)); [|lia]. destruct (Hc _ _ Hv) as (n & Hn & En).
        rewrite Hv, En, redis_int_itoa, parse_int_itoa by lia. destruct (Z.eqb_spec n int64_max); [lia|].
        rewrite wrap64_small by (unfold int64_min, int64_max in *; lia). destruct (Z.eqb_spec (n + 1) 1); [lia|]. cbn [fst snd]. split; [done|]. by apply related_insert.
    + rewrite (view_absent m w k) by done. split; [done|]. apply related_insert; [done|lia].
  - unfold mem_GetWithTTL. destruct (ms_data m !! k) as [i|] eqn:Ei.
    + pose proof (view_live m w k i Hr Ei) as Hv. destruct (expired _ i); [rewrite Hv; split; [done|by apply related_drop]|]. destruct Hv as [Hv Hb].
      unfold redis_ttl. rewrite Hv. cbn [fst snd]. split; [|done]. split; [done|].
      set (d := mi_expiresAt i - w_now w) in *. assert (time_sub (mi_expiresAt i) (w_now w) = d) as -> by (unfold time_sub, int64_min; fold d; lia).
      rewrite (Z.quot_div_nonneg d millisecond) by (unfold millisecond; lia). pose proof (Z.div_mod d millisecond ltac:(done)). pose proof (Z.mod_pos_bound d millisecond ltac:(done)).
      set (q := d / millisecond) in *. assert (0 <= q) by (unfold millisecond in *; lia). rewrite Z.quot_div_nonneg by lia.
      pose proof (Z.div_mod (q + 500) 1000 ltac:(done)). pose proof (Z.mod_pos_bound (q + 500) 1000 ltac:(done)). set (x := (q + 500) / 1000) in *.
      destruct (Z.ltb_spec (x * second) 0); unfold second, millisecond in *; lia.
    + rewrite (view_absent m w k) by done. split; [done|]. apply related_drop; [done|]. by apply (view_absent m).
  - split; [done|]. unfold mem_SAdd, redis_sadd, for_range. cbn [fold_left]. apply related_sets; [done|]. by rewrite (rel_sets m w Hr).
  - split; [done|]. unfold mem_SRem, redis_srem, for_range. pose proof (rel_sets m w Hr k) as Hk. destruct (ms_sets m !! k) as [s|] eqn:Es; cbn [fold_left].
    + apply related_sets; [done|]. by rewrite <- Hk.
    + destruct Hr as [H1 H2 H3]. split; [done| |done]. intros k'. cbn. destruct (decide (k' = k)) as [->|]; [|by rewrite lookup_insert_ne by done].
      rewrite lookup_insert_eq, Es. cbn. rewrite <- Hk. cbn. set_solver.
  - split; [|done]. unfold mem_SMembers, redis_smembers. by rewrite (rel_sets m w Hr).
Qed.

Lemma tick_related d m w : related m w -> (forall k i, ms_data m !! k = Some i -> mi_expiresAt i <> w_now w + Z.of_N d) -> related m (tick d w).
Proof.
  intros Hr Hd. pose proof Hr as [H1 H2 H3].
  assert (forall k, mem_view (w_now w + Z.of_N d) m k = kv_get (tick d w) k) as Hv.
  { intros k. specialize (H1 k). unfold mem_view, kv_get in *. cbn [w_now w_kv tick]. destruct (ms_data m !! k) as [i|] eqn:Ei; cbn in *.
    - specialize (Hd k i Ei). unfold expired in *. destruct (w_kv w !! k) as [[v t]|] eqn:Ek; cbn in *.
      + destruct t as [t|]; cbn in *.
        * unfold unexpired in *. cbn in *. destruct (Z.ltb_spec (mi_expiresAt i) (w_now w)), (Z.leb_spec t (w_now w)); try done.
          -- destruct (Z.ltb_spec (mi_expiresAt i) (w_now w + Z.of_N d)), (Z.leb_spec t (w_now w + Z.of_N d)); try lia. done.
          -- injection H1 as <- <-. destruct (Z.ltb_spec (mi_expiresAt i) (w_now w + Z.of_N d)), (Z.leb_spec (mi_expiresAt i) (w_now w + Z.of_N d)); try lia; done.
        * destruct (Z.ltb_spec (mi_expiresAt i) (w_now w)); done.
      + destruct (Z.ltb_spec (mi_expiresAt i) (w_now w)); [|done]. by destruct (Z.ltb_spec (mi_expiresAt i) (w_now w + Z.of_N d)); [|lia].
    - destruct (w_kv w !! k) as [[v [t|]]|]; cbn in *; [|done|done]. unfold unexpired in *. cbn in *. destruct (Z.leb_spec t (w_now w)); [|done]. by destruct (Z.leb_spec t (w_now w + Z.of_N d)); [|lia]. }
  split; [done|done|]. intros k v t Hk. rewrite <- Hv in Hk. unfold mem_view in Hk. destruct (ms_data m !! k) as [i|] eqn:Ei; [|done]. cbn in Hk.
  pose proof (view_live m w k i Hr Ei) as Hl. specialize (Hd k i Ei). unfold expired in *. cbn [w_now tick].
  destruct (Z.ltb_spec (mi_expiresAt i) (w_now w + Z.of_N d)); [done|]. injection Hk as <- <-. destruct (Z.ltb_spec (mi_expiresAt i) (w_now w)); [lia|].
  exists (mi_expiresAt i). split; [done|]. lia.
Qed.

(** Whatever the requests with expiries in whole units and the delays, the store in memory
    answers every request as the store over Redis does, up to the rounding of the times left. *)
Theorem mem_store_refines_redis (w0 w : World C) (m : MemStore) (r : request)
  (Hempty : w_kv w0 = ∅ /\ w_sets w0 = ∅) (Hrun : reachable side_by_side (NewMemStore, w0) (m, w)) (Ha : admissible r w) :
  agree (mem_step (w_now w) r m).1 (redis_step r w).1.
Proof.
  enough (related m w) as Hr by by apply step_related.
  change (related (m, w).1 (m, w).2). refine (reachable_invariant side_by_side (fun s => related s.1 s.2) (NewMemStore, w0) (m, w) _ _ Hrun).
  - destruct Hempty as [E1 E2]. cbn. split; cbn.
    + intros k. unfold mem_view, kv_get. cbn. by rewrite E1, !lookup_empty.
    + intros k. by rewrite E2, !lookup_empty.
    + intros k v t. unfold kv_get. by rewrite E1, lookup_empty.
  - intros s s' Hs Hst. destruct Hst as [r' m' w' Ha'|d m' w' Hd]; cbn in *; [by apply step_related|by apply tick_related].
Qed.
End Refinement.

(** ** Where they differ *)

Definition empty_world : World unit := mkWorld 0 ∅ ∅ ∅ [] [].

(** At the instant at which it expires an entry is still there in memory and gone in Redis,
    and a duration of zero is no expiry for Redis. *)
Example expiry_instant :
  let m := (mem_step 0 (RSet "k" "v" second) NewMemStore).2 in let w := (redis_step (RSet "k" "v" second) empty_world).2 in
  ((mem_step second (RGet "k") m).1, (redis_step (RGet "k") (tick 1000000000 w)).1) = (Value (Some "v"), Value None).
Proof. vm_compute. reflexivity. Qed.

Example zero_duration :
  let m := (mem_step 0 (RSet "k" "v" 0) NewMemStore).2 in let w := (redis_step (RSet "k" "v" 0) empty_world).2 in
  ((mem_step 1 (RGet "k") m).1, (redis_step (RGet "k") (tick 1 w)).1) = (Value None, Value (Some "v")).
Proof. vm_compute. reflexivity. Qed.

(** A pattern of [Scan] is a prefix in memory and a glob in Redis. *)
Example scan_is_prefix : (mem_Scan ["ab"; "cb"] 0 "?b" (mem_Set 0 "ab" "" 1 (mem_Set 0 "cb" "" 1 NewMemStore))).1 = [].
Proof. vm_compute. reflexivity. Qed.

Lemma mem_store_refines_redis_witness :
  let incr := RIncrWithTTL "fails" (15 * minute) in
  let s1 := ((mem_step 0 incr NewMemStore).2, (redis_step incr empty_world).2) in
  let w := tick 7 s1.2 in
  agree (mem_step (w_now w) incr s1.1).1 (redis_step incr w).1 /\ (redis_step incr w).1 = Count (Some 2).
Proof.
  intros incr s1 w. assert (whole second (15 * minute)) as Hw by (split; [vm_compute; split; congruence|by exists 900]). split; [|vm_compute; reflexivity].
  apply (mem_store_refines_redis empty_world w s1.1 incr).
  - done.
  - eapply reach_step; [eapply reach_step; [apply reach_refl|]|].
    + apply (sbs_request incr NewMemStore empty_world). split; [exact Hw|]. intros v t Hv. vm_compute in Hv. discriminate.
    + apply (sbs_tick 7 s1.1 s1.2). intros k i Hi. change (ms_data s1.1) with (<["fails" := mkMemItem "1" (0 + 15 * minute)]> (∅ : gmap string memItem)) in Hi. apply lookup_insert_Some in Hi as [[<- <-]|[_ Hi]]; [vm_compute; congruence|by rewrite lookup_empty in Hi].
  - split; [exact Hw|]. intros v t Hv. exists 1. split; [vm_compute; split; congruence|]. vm_compute in Hv. by injection Hv.
Defined.
