(* ===== verification/Cli.v ===== *)
(** * The command line: flags, profiles and the client (src/cmd/proofgatectl)

    [parseGlobalFlags], the profiles and sessions in the user's directory with the commands
    that change them, and the client of the control plane.  The commands that use it are
    [CliRemote], the routes their requests meet [CliRoutes].  The package flag, files and the
    network are outside: commands take their parsed flags, and the client's exchanges are
    operations of a program. *)

From S2P Require Import Prelude GoStrings Encoding GoSort Threads.

Open Scope string_scope.
Open Scope list_scope.
Open Scope Z_scope.

(** ** Global flags (remote.go) *)

Record globalFlags := mkGlobalFlags { gf_profile : string; gf_server : string; gf_output : string; gf_insecure : bool }.

Definition no_flags : globalFlags := mkGlobalFlags "" "" "" false.

Definition set_profile (v : string) (g : globalFlags) : globalFlags := mkGlobalFlags v (gf_server g) (gf_output g) (gf_insecure g).
Definition set_server (v : string) (g : globalFlags) : globalFlags := mkGlobalFlags (gf_profile g) v (gf_output g) (gf_insecure g).
Definition set_output (v : string) (g : globalFlags) : globalFlags := mkGlobalFlags (gf_profile g) (gf_server g) v (gf_insecure g).
Definition set_insecure (g : globalFlags) : globalFlags := mkGlobalFlags (gf_profile g) (gf_server g) (gf_output g) true.

(** A flag whose value is the next argument. *)
Definition flag_of (arg : string) : option (string -> globalFlags -> globalFlags) :=
  if String.eqb arg "--profile" then Some set_profile
  else if String.eqb arg "--server" then Some set_server
  else if String.eqb arg "--output" then Some set_output
  else None.

(** A flag that holds its value, or has none. *)
Definition whole_flag (arg : string) : option (globalFlags -> globalFlags) :=
  if has_prefix "--profile=" arg then Some (set_profile (trim_prefix arg "--profile="))
  else if has_prefix "--server=" arg then Some (set_server (trim_prefix arg "--server="))
  else if has_prefix "--output=" arg then Some (set_output (trim_prefix arg "--output="))
  else if String.eqb arg "--insecure" then Some set_insecure
  else None.

Fixpoint parse_flags (g : globalFlags) (args : list string) : globalFlags * list string :=
  match args with
  | [] => (g, [])
  | arg :: rest =>
      match flag_of arg, rest with
      | Some set, v :: rest' => parse_flags (set v g) rest'
      | _, _ =>
          match whole_flag arg with
          | Some set => parse_flags (set g) rest
          | None => let '(g, remaining) := parse_flags g rest in (g, arg :: remaining)
          end
      end
  end.

Definition parseGlobalFlags (args : list string) : globalFlags * list string := parse_flags no_flags args.

Example parse_ex : parseGlobalFlags ["--server"; "http://a"; "user"; "--output=json"; "list"; "--insecure"; "--profile"] =
  (mkGlobalFlags "" "http://a" "json" true, ["user"; "list"; "--profile"]).
Proof. reflexivity. Qed.

(** What remains holds no global flag: parsing it again changes nothing. *)
Theorem parse_flags_stable args : forall g, parseGlobalFlags (parse_flags g args).2 = (no_flags, (parse_flags g args).2).
Proof.
  unfold parseGlobalFlags. induction args as [args IH] using (induction_ltof1 _ (@length string)). unfold ltof in IH. intros g.
  destruct args as [|arg rest]; [done|]. cbn [parse_flags].
  assert (whole_flag arg = None -> (forall v rest', rest = v :: rest' -> flag_of arg = None) ->
    forall g, let '(g', remaining) := parse_flags g rest in parse_flags no_flags (arg :: remaining) = (no_flags, arg :: remaining)) as Hkeep.
  { intros Hw Hf g'. pose proof (IH rest ltac:(cbn; lia) g') as Hr. destruct rest as [|v rest'].
    - cbn [parse_flags fst snd]. destruct (flag_of arg); by rewrite Hw.
    - destruct (parse_flags g' (v :: rest')) as [g2 remaining]. cbn [snd] in Hr. cbn [parse_flags].
      rewrite (Hf v rest' eq_refl), Hw, Hr. done. }
  destruct (flag_of arg) as [set|] eqn:Ef; [destruct rest as [|v rest']|].
  - destruct (whole_flag arg) as [set'|] eqn:Ew; [by apply (IH []); cbn; lia|]. specialize (Hkeep eq_refl ltac:(done) g). by destruct (parse_flags g []) as [g' remaining].
  - apply IH. cbn. lia.
  - destruct (whole_flag arg) as [set'|] eqn:Ew; [apply IH; cbn; lia|]. specialize (Hkeep eq_refl ltac:(done) g). by destruct (parse_flags g rest) as [g' remaining].
Qed.

(** ** Profiles and sessions (profile.go) *)

Record Profile := mkProfile { pr_Server : string; pr_Insecure : bool }.
Record ProfileConfig := mkProfileConfig { pc_ActiveProfile : string; pc_Profiles : gmap string Profile }.
Record SessionFile := mkSessionFile { se_Token : string; se_Username : string; se_ExpiresAt : Time }.

(** A file that holds a value, cannot be read or decoded, or is not there. *)
Inductive file (A : Type) := Absent | Unreadable (e : string) | Holds (a : A).
Arguments Absent {A}.
Arguments Unreadable {A}.
Arguments Holds {A}.

(** The user's directory: the configuration and the files of the sessions by their paths. *)
Record home := mkHome { hm_config : file ProfileConfig; hm_sessions : gmap string (file SessionFile) }.

Section Home.
Context (sessionFilePath : string -> string).

Definition loadProfileConfig (h : home) : string + ProfileConfig :=
  match hm_config h with
  | Absent => inr (mkProfileConfig "" ∅)
  | Unreadable e => inl e
  | Holds cfg => inr cfg
  end.

(** [written]: the error of writing the file, which is replaced as a whole or kept. *)
Definition saveProfileConfig (written : option string) (cfg : ProfileConfig) (h : home) : option string * home :=
  match written with Some e => (Some e, h) | None => (None, mkHome (Holds cfg) (hm_sessions h)) end.

Definition loadSession (name : string) (h : home) : string + SessionFile :=
  match hm_sessions h !! sessionFilePath name with
  | Some (Holds s) => inr s
  | Some (Unreadable e) => inl e
  | _ => inl "no such file or directory"
  end.

Definition saveSession (written : option string) (name : string) (s : SessionFile) (h : home) : option string * home :=
  match written with Some e => (Some e, h) | None => (None, mkHome (hm_config h) (<[sessionFilePath name := Holds s]> (hm_sessions h))) end.

Definition deleteSession (removed : option string) (name : string) (h : home) : option string * home :=
  match removed with Some e => (Some e, h) | None => (None, mkHome (hm_config h) (delete (sessionFilePath name) (hm_sessions h))) end.

(** [%-16s] *)
Definition pad_right (n : Z) (s : string) : string := s +:+ concat_strings (repeat " " (Z.to_nat (n - RuneCountInString s))).

Definition profile_line (active : string) (kv : string * Profile) : string :=
  (if String.eqb kv.1 active then "* " else "  ") +:+ pad_right 16 kv.1 +:+ " " +:+ pr_Server kv.2 +:+ (if pr_Insecure kv.2 then " (insecure)" else "").

Inductive profile_command := ProfileList | ProfileAdd (name server : string) (insecure : bool) | ProfileUse (name : string) | ProfileDelete (name : string).

Definition trim_slashes (s : string) : string := trim_right (Ascii.eqb "/") s.

(** [next]: the first of the remaining names in the order in which the map is visited;
    [removed]: the error of removing a session's file, which is ignored.  The result: what [die] prints, or the lines printed. *)
Definition runProfile (next : gmap string Profile -> option string) (written removed : option string) (gf : globalFlags) (c : profile_command) (h : home) :
    (string + list string) * home :=
  match c with
  | ProfileList =>
      (match loadProfileConfig h with
       | inl e => inl ("load profiles: " +:+ e)
       | inr cfg =>
           if bool_decide (pc_Profiles cfg = ∅) then inr ["No profiles configured."]
           else inr (map (profile_line (pc_ActiveProfile cfg)) (stable_sort (fun a b => String.ltb a.1 b.1) (map_to_list (pc_Profiles cfg))))
       end, h)
  | ProfileAdd name server insecure =>
      let server := if String.eqb server "" then gf_server gf else server in
      let insecure := insecure || gf_insecure gf in
      if String.eqb name "" || String.eqb server "" then (inl "--name and --server are required", h)
      else
        match loadProfileConfig h with
        | inl e => (inl ("load profiles: " +:+ e), h)
        | inr cfg =>
            let cfg := mkProfileConfig (if String.eqb (pc_ActiveProfile cfg) "" then name else pc_ActiveProfile cfg)
              (<[name := mkProfile (trim_slashes server) insecure]> (pc_Profiles cfg)) in
            match saveProfileConfig written cfg h with
            | (Some e, h) => (inl ("save profile: " +:+ e), h)
            | (None, h) => (inr ["Profile " +:+ go_quote name +:+ " added."], h)
            end
        end
  | ProfileUse name =>
      if String.eqb name "" then (inl "--name is required", h)
      else
        match loadProfileConfig h with
        | inl e => (inl ("load profiles: " +:+ e), h)
        | inr cfg =>
            match pc_Profiles cfg !! name with
            | None => (inl ("profile " +:+ go_quote name +:+ " does not exist"), h)
            | Some _ =>
                match saveProfileConfig written (mkProfileConfig name (pc_Profiles cfg)) h with
                | (Some e, h) => (inl ("save profile: " +:+ e), h)
                | (None, h) => (inr ["Switched to profile " +:+ go_quote name +:+ "."], h)
                end
            end
        end
  | ProfileDelete name =>
      if String.eqb name "" then (inl "--name is required", h)
      else
        match loadProfileConfig h with
        | inl e => (inl ("load profiles: " +:+ e), h)
        | inr cfg =>
            match pc_Profiles cfg !! name with
            | None => (inl ("profile " +:+ go_quote name +:+ " does not exist"), h)
            | Some _ =>
                let profiles := delete name (pc_Profiles cfg) in
                let active := if String.eqb (pc_ActiveProfile cfg) name then default "" (next profiles) else pc_ActiveProfile cfg in
                match saveProfileConfig written (mkProfileConfig active profiles) h with
                | (Some e, h) => (inl ("save profile: " +:+ e), h)
                | (None, h) => (inr ["Profile " +:+ go_quote name +:+ " deleted."], (deleteSession removed name h).2)
                end
            end
        end
  end.

Definition getActiveProfile (override : string) (h : home) : string * Profile * option string :=
  match loadProfileConfig h with
  | inl e => ("", mkProfile "" false, Some e)
  | inr cfg =>
      let name := if String.eqb override "" then pc_ActiveProfile cfg else override in
      if String.eqb name "" then ("default", mkProfile "http://127.0.0.1:9090" false, None)
      else match pc_Profiles cfg !! name with
           | None => (name, mkProfile "" false, Some ("profile " +:+ go_quote name +:+ " not found"))
           | Some p => (name, p, None)
           end
  end.

(** ** The client (client.go) *)

Record Client := mkClient { cc_BaseURL : string; cc_Token : string; cc_Insecure : bool; cc_OutputJSON : bool }.

Definition NewClient (profileName overrideServer : string) (overrideInsecure outputJSON : bool) (h : home) : string + Client :=
  let '(pName, profile, err) := getActiveProfile profileName h in
  let url := if String.eqb overrideServer "" then pr_Server profile else overrideServer in
  let url := if String.eqb url "" then "http://127.0.0.1:9090" else url in
  let token := match loadSession pName h with inr s => se_Token s | inl _ => "" end in
  match err with
  | Some e => if negb (String.eqb profileName "") then inl e else inr (mkClient (trim_slashes url) token (pr_Insecure profile || overrideInsecure) outputJSON)
  | None => inr (mkClient (trim_slashes url) token (pr_Insecure profile || overrideInsecure) outputJSON)
  end.

(** *** What the commands keep *)

(** The active profile is one of the profiles, where there is one. *)
Definition active_exists (h : home) : Prop :=
  match hm_config h with Holds cfg => pc_ActiveProfile cfg = "" \/ is_Some (pc_Profiles cfg !! pc_ActiveProfile cfg) | _ => True end.

Ltac same := cbn beta iota; split_and!; [done|by left|by intros ? ? ? [=]].

(** The commands keep an active profile that exists, a deleted profile is gone with its
    session, and no other session changes. *)
Theorem profiles_consistent next written removed gf c h
  (Hnext : forall m n, next m = Some n -> is_Some (m !! n)) (Hactive : active_exists h) :
  let '(res, h') := runProfile next written removed gf c h in
  active_exists h' /\
  (forall p, hm_sessions h' !! p = hm_sessions h !! p \/ exists name, c = ProfileDelete name /\ p = sessionFilePath name /\ hm_sessions h' !! p = None) /\
  (forall name lines, c = ProfileDelete name -> res = inr lines ->
     getActiveProfile name h' = (name, mkProfile "" false, Some ("profile " +:+ go_quote name +:+ " not found")) /\
     (removed = None -> loadSession name h' = inl "no such file or directory")).
Proof.
  assert (active_exists h -> forall cfg, loadProfileConfig h = inr cfg -> pc_ActiveProfile cfg = "" \/ is_Some (pc_Profiles cfg !! pc_ActiveProfile cfg)) as Hload.
  { intros Ha cfg. unfold active_exists, loadProfileConfig in *. destruct (hm_config h); [intros [= <-]; by left|done|by intros [= <-]]. }
  specialize (Hload Hactive).
  destruct c as [|name server insecure|name|name]; cbn [runProfile].
  - same.
  - set (url := if String.eqb server "" then gf_server gf else server). destruct (String.eqb_spec name "") as [->|Hn]; cbn [orb]; [by same|].
    destruct (String.eqb url ""); [by same|]. destruct (loadProfileConfig h) as [e|cfg]; [by same|].
    destruct written as [e|]; cbn [saveProfileConfig]; [by same|]. split_and!; [|by left|intros ? ? [=]]. cbn. right.
    specialize (Hload cfg eq_refl). destruct (String.eqb_spec (pc_ActiveProfile cfg) "") as [E|E]; [rewrite lookup_insert_eq; by eexists|].
    destruct Hload as [?|Hl]; [done|]. rewrite lookup_insert_is_Some'. by right.
  - destruct (String.eqb_spec name "") as [->|Hn]; [by same|]. destruct (loadProfileConfig h) as [e|cfg]; [by same|].
    destruct (pc_Profiles cfg !! name) as [p|] eqn:Ep; [|by same]. destruct written as [e|]; cbn [saveProfileConfig]; [by same|].
    split_and!; [|by left|intros ? ? [=]]. cbn. right. by exists p.
  - destruct (String.eqb_spec name "") as [->|Hn]; [by same|]. destruct (loadProfileConfig h) as [e|cfg] eqn:El; [by same|].
    destruct (pc_Profiles cfg !! name) as [p|] eqn:Ep; [|by same]. destruct written as [e|]; cbn [saveProfileConfig]; [by same|].
    set (active := if String.eqb (pc_ActiveProfile cfg) name then default "" (next (delete name (pc_Profiles cfg))) else pc_ActiveProfile cfg).
    assert (active = "" \/ is_Some (delete name (pc_Profiles cfg) !! active)) as Hact.
    { unfold active. destruct (String.eqb_spec (pc_ActiveProfile cfg) name) as [E|E].
      - destruct (next _) as [n|] eqn:Enx; [right; by apply Hnext|by left].
      - destruct (Hload cfg eq_refl) as [?|?]; [by left|]. right. by rewrite lookup_delete_ne by done. }
    split_and!.
    + by destruct removed.
    + intros q. destruct removed as [e|]; [by left|]. cbn. destruct (decide (q = sessionFilePath name)) as [->|Hq]; [|left; by rewrite lookup_delete_ne by done].
      right. exists name. by rewrite lookup_delete_eq.
    + intros n lines [= <-] _. split; [|intros ->; unfold loadSession; cbn; by rewrite lookup_delete_eq].
      unfold getActiveProfile. assert (loadProfileConfig (deleteSession removed name (mkHome (Holds (mkProfileConfig active (delete name (pc_Profiles cfg)))) (hm_sessions h))).2 =
        inr (mkProfileConfig active (delete name (pc_Profiles cfg)))) as -> by (by destruct removed).
      destruct (String.eqb_spec name ""); [done|]. cbn [pc_Profiles pc_ActiveProfile]. cbv zeta. cbn iota. destruct (String.eqb_spec name ""); [done|]. by rewrite lookup_delete_eq.
Qed.
End Home.

(** Another server gets the token of the active profile's session. *)
Example token_follows_override :
  let h := mkHome (Holds (mkProfileConfig "prod" {["prod" := mkProfile "https://prod" false]})) {["prod" := Holds (mkSessionFile "tok" "root" 0)]} in
  NewClient (fun name => name) "" "https://elsewhere/" false false h = inr (mkClient "https://elsewhere" "tok" false false).
Proof. reflexivity. Qed.
