(* ===== verification/CliRemote.v ===== *)
(** * The command line: requests to the control plane (src/cmd/proofgatectl/client.go, remote.go)

    Every command of remote.go as a program whose operations are the exchanges with the
    server and the lines read from the terminal, after its flags were parsed.  The fields of
    JSON bodies are those of the class [CliJson]; what fmt prints of one is a text. *)

From S2P Require Import Prelude GoStrings Config ConfigTools Threads Provider AdminAuth ControlPlane Cli.

Open Scope string_scope.
Open Scope list_scope.
Open Scope Z_scope.

(** ** Exchanges *)

Inductive field := FStr (s : string) | FBool (b : bool) | FMessages (l : list (string * string)).
Abbreviation fields := (list (string * field)).

(** [hr_Body]: what is read; [hr_Err]: the error that ends it before its end. *)
Record http_reply := mkReply { hr_Status : Z; hr_ContentType : string; hr_Body : string; hr_Err : option string }.

(** [Send]: the error of the transport or the reply; the lines are read trimmed. *)
Inductive cli_op : Type -> Type :=
| Send (method url : string) (headers : list (string * string)) (body : option fields) : cli_op (string + http_reply)
| ReadPassword (prompt : string) : cli_op (option string)
| ReadString (prompt : string) : cli_op (option string).

(** What a command printed, and what it died of. *)
Record result := mkResult { rs_Printed : list string; rs_Died : option string }.
Definition die (m : string) : result := mkResult [] (Some m).
Definition printed (l : list string) : result := mkResult l None.

(** What a body is decoded into: any value, an object, the answer to the login or to whoami,
    or the configuration. *)
Inductive shape := AnyValue | AnObject | LoginAnswer | WhoamiResponse | TheConfig.

Class CliJson := {
  J : Type;
  zero : shape -> J;
  decode : shape -> string -> string + J;
  decode_list : string -> string + list J;      (* objects *)
  shown : J -> string -> string;                (* [%v] of a field *)
  text_of : J -> string -> string;              (* a field that is a string, or the empty string *)
  time_of : J -> string -> string;              (* a time in RFC 3339 *)
  pick : list string -> J -> J;                 (* an object with these fields only *)
  indent : J -> string;
  indent_list : list J -> string;
  message_of : string -> string;                (* the field [message] of an error body *)
  decode_answer : string -> string + option string;     (* the content of the first choice *)
  decode_first : string -> option string -> string + option string;     (* of the first value in what is read until an error *)
  decode_chunk : string -> string + option string }.    (* the delta of the first choice *)

(** ** What a request asks for *)

(** [url.PathEscape] *)
Definition path_byte (c : ascii) : bool := is_digit c || is_lower c || is_upper c || existsb (Ascii.eqb c) (bytes_of "-_.~$&+:=@").
Definition upper_hex (d : Z) : ascii := if d <? 10 then byte_at (48 + d) else byte_at (55 + d).
Fixpoint PathEscape (s : string) : string :=
  match s with
  | EmptyString => ""
  | String c s' =>
      if path_byte c then String c (PathEscape s')
      else String "%" (String (upper_hex (byte_val c / 16)) (String (upper_hex (byte_val c mod 16)) (PathEscape s')))
  end.

Inductive remote_command :=
| CLogin | CLogout | CWhoami | CStatus | CHealth | CCachePurge | CKeyRevoke (id : string) | CTenantPurge (id : string)
| CUserCreate | CUserList | CUserGet (u : string) | CUserEnabled (u : string) | CUserDelete (u : string) | CUserPassword (u : string)
| CProviderList | CProviderGet (n : string) | CProviderTest (n : string) | CCredentialSet (n : string) | CCredentialList
| CConfigShow | CConfigReload | CSessionList | CSessionRevoke (id : string) | CSessionRevokeAll (user : string)
| CChat | CAudit (limit : Z) (since actor action : string).

(** The method and the path. *)
Definition request_line (c : remote_command) : string * string :=
  match c with
  | CLogin => ("POST", "/admin/auth/login")
  | CLogout => ("POST", "/admin/auth/logout")
  | CWhoami => ("GET", "/admin/auth/whoami")
  | CStatus => ("GET", "/admin/cp/status")
  | CHealth => ("GET", "/admin/cp/health")
  | CCachePurge => ("POST", "/admin/cp/cache/purge")
  | CKeyRevoke id => ("POST", "/admin/cp/keys/" +:+ PathEscape id +:+ "/revoke")
  | CTenantPurge id => ("POST", "/admin/cp/tenants/" +:+ PathEscape id +:+ "/erase")
  | CUserCreate => ("POST", "/admin/cp/users")
  | CUserList => ("GET", "/admin/cp/users")
  | CUserGet u => ("GET", "/admin/cp/users/" +:+ u)
  | CUserEnabled u => ("PUT", "/admin/cp/users/" +:+ u +:+ "/enabled")
  | CUserDelete u => ("DELETE", "/admin/cp/users/" +:+ u)
  | CUserPassword u => ("POST", "/admin/cp/users/" +:+ u +:+ "/password")
  | CProviderList => ("GET", "/admin/cp/providers")
  | CProviderGet n => ("GET", "/admin/cp/providers/" +:+ n)
  | CProviderTest n => ("POST", "/admin/cp/providers/" +:+ n +:+ "/test")
  | CCredentialSet n => ("POST", "/admin/cp/providers/" +:+ n +:+ "/credential")
  | CCredentialList => ("GET", "/admin/cp/providers/credentials")
  | CConfigShow => ("GET", "/admin/cp/config")
  | CConfigReload => ("POST", "/admin/cp/config/reload")
  | CSessionList => ("GET", "/admin/cp/sessions")
  | CSessionRevoke id => ("DELETE", "/admin/cp/sessions/" +:+ id)
  | CSessionRevokeAll user => ("DELETE", "/admin/cp/sessions" +:+ if String.eqb user "" then "" else "?user=" +:+ user)
  | CChat => ("POST", "/admin/cp/chat")
  | CAudit limit since actor action =>
      ("GET", "/admin/cp/audit?limit=" +:+ itoa limit +:+ (if String.eqb since "" then "" else "&since=" +:+ since) +:+
        (if String.eqb actor "" then "" else "&actor=" +:+ actor) +:+ (if String.eqb action "" then "" else "&action=" +:+ action))
  end.

Section Client.
Context `{!CliJson} (url_error : string -> option string).

(** [errResp.Message], or the body. *)
Definition error_message (body : string) : string := if String.eqb (message_of body) "" then body else message_of body.

Definition status_error (status : Z) (body : string) : string :=
  let msg := error_message body in
  if status =? 401 then "not authenticated. Run 'proofgatectl login' first"
  else if status =? 403 then "permission denied (" +:+ msg +:+ ")"
  else if status =? 404 then "not found: " +:+ msg
  else if status =? 429 then "rate limited: " +:+ msg
  else if 500 <=? status then "server error: " +:+ msg
  else msg.

Definition request_headers (c : Client) (accept : string) (body : option fields) : list (string * string) :=
  match body with Some _ => [("Content-Type", "application/json")] | None => [] end ++ [("Accept", accept)] ++
  if String.eqb (cc_Token c) "" then [] else [("Authorization", "Bearer " +:+ cc_Token c)].

(** The status, and the error or what the body decodes to; [None] where nothing is decoded. *)
Definition Do {A : Type} (c : Client) (cmd : remote_command) (body : option fields) (out : option (string -> string + A)) : prog cli_op (Z * (string + option A)) :=
  let '(method, path) := request_line cmd in
  let url := cc_BaseURL c +:+ path in
  match url_error url with
  | Some e => Ret (0, inl ("create request: " +:+ e))
  | None =>
      let! r := call_op (Send method url (request_headers c "application/json" body) body) in
      Ret (match r with
           | inl e => (0, inl ("cannot connect to server at " +:+ cc_BaseURL c +:+ ": " +:+ e))
           | inr resp =>
               (hr_Status resp,
                match hr_Err resp with
                | Some e => inl ("read response body: " +:+ e)
                | None =>
                    let b := hr_Body resp in
                    if 400 <=? hr_Status resp then inl (status_error (hr_Status resp) b)
                    else match out with
                         | None => inr None
                         | Some decode =>
                             if String.eqb b "" then inr None
                             else match decode b with inl e => inl ("decode response: " +:+ e) | inr a => inr (Some a) end
                         end
                end)
           end)
  end%prog.

Definition Stream (c : Client) (cmd : remote_command) (body : option fields) : prog cli_op (string + http_reply) :=
  let '(method, path) := request_line cmd in
  let url := cc_BaseURL c +:+ path in
  match url_error url with
  | Some e => Ret (inl ("create request: " +:+ e))
  | None =>
      let! r := call_op (Send method url (request_headers c "text/event-stream" body) body) in
      Ret (match r with
           | inl e => inl ("cannot connect to server at " +:+ cc_BaseURL c +:+ ": " +:+ e)
           | inr resp =>
               if 400 <=? hr_Status resp then
                 let b := hr_Body resp in
                 let s := hr_Status resp in
                 inl (if (s =? 401) || (s =? 403) || (s =? 404) then status_error s b else error_message b)
               else inr resp
           end)
  end%prog.

(** An exchange whose error ends the command. *)
Definition call {A : Type} (c : Client) (cmd : remote_command) (body : option fields) (unset : A) (out : string -> string + A) (k : A -> prog cli_op result) : prog cli_op result :=
  (let! r := Do c cmd body (Some out) in
   match r.2 with inl e => Ret (die e) | inr v => k (default unset v) end)%prog.

Definition call_nothing (c : Client) (cmd : remote_command) (body : option fields) (lines : list string) : prog cli_op result :=
  (let! r := Do (A := unit) c cmd body None in
   Ret (match r.2 with inl e => die e | inr _ => printed lines end))%prog.

(** The object as JSON where that is asked for, else the lines. *)
Definition show (c : Client) (j : J) (lines : list string) : prog cli_op result := Ret (printed (if cc_OutputJSON c then [indent j] else lines)).
Definition show_list (c : Client) (l : list J) (lines : list string) : prog cli_op result := Ret (printed (if cc_OutputJSON c then [indent_list l] else lines)).

(** The cells of a row, each filled up to its width. *)
Fixpoint row (widths : list Z) (cells : list string) : string :=
  match widths, cells with
  | [w], [s] => pad_right w s
  | w :: ws, s :: cs => pad_right w s +:+ " " +:+ row ws cs
  | _, _ => ""
  end.

(** ** The commands *)

Definition value_call (sh : shape) (c : Client) (cmd : remote_command) (body : option fields) (k : J -> prog cli_op result) : prog cli_op result :=
  call c cmd body (zero sh) (decode sh) k.
Abbreviation obj_call := (value_call AnObject).
Definition list_call (c : Client) (cmd : remote_command) (k : list J -> prog cli_op result) : prog cli_op result := call c cmd None [] decode_list k.

(** What goes to the home directory besides the exchange: the session to save, or none. *)
Definition runLogin (c : Client) (username : string) (save : J -> option string) : prog cli_op (result * option J) :=
  (let! u := (if String.eqb username "" then call_op (ReadString "Enter username: ") else Ret (Some username)) in
   match u with
   | None | Some "" => Ret (die "username is required", None)
   | Some u =>
       let! pw := call_op (ReadPassword "Enter password: ") in
       match pw with
       | None | Some "" => Ret (die "password is required", None)
       | Some pw =>
           let! r := Do c CLogin (Some [("username", FStr u); ("password", FStr pw)]) (Some (decode LoginAnswer)) in
           match r.2 with
           | inl e => Ret (die e, None)
           | inr v =>
               let resp := default (zero LoginAnswer) v in
               match save resp with
               | Some e => Ret (die ("save session: " +:+ e), None)
               | None =>
                   Ret (printed [if cc_OutputJSON c then indent (pick ["username"; "role"; "expires_at"] resp)
                                 else "Logged in successfully as " +:+ text_of resp "username" +:+ " (role: " +:+ text_of resp "role" +:+ ")."], Some resp)
               end
           end
       end
   end)%prog.

(** The error of the server is ignored; the session's file goes in any case. *)
Definition runLogout (c : Client) : prog cli_op result :=
  (do! Do (A := unit) c CLogout None None;
   Ret (printed [if cc_OutputJSON c then "{" +:+ dquote +:+ "status" +:+ dquote +:+ ": " +:+ dquote +:+ "ok" +:+ dquote +:+ "}" else "Logged out successfully."]))%prog.
Definition runWhoami (c : Client) : prog cli_op result :=
  value_call WhoamiResponse c CWhoami None (fun resp => show c resp
    ["User:         " +:+ text_of resp "username"; "Role:         " +:+ text_of resp "role"; "User ID:      " +:+ text_of resp "user_id";
     "Last Active:  " +:+ time_of resp "last_active_at"]).

Definition runStatus (c : Client) : prog cli_op result :=
  obj_call c CStatus None (fun resp => show c resp
    ["ProofGate Version:    " +:+ shown resp "version"; "Uptime:               " +:+ shown resp "uptime_seconds" +:+ " seconds";
     "Server Address:       " +:+ shown resp "server_addr"; "Admin Address:        " +:+ shown resp "admin_addr"; "Configured Providers: " +:+ shown resp "providers";
     "Configured Routes:    " +:+ shown resp "routes"; "Admin Auth Enabled:   " +:+ shown resp "admin_auth_enabled"]).

Definition runHealth (c : Client) : prog cli_op result := value_call AnyValue c CHealth None (fun resp => Ret (printed [indent resp])).

Definition runCachePurge (c : Client) (route tenant : string) : prog cli_op result :=
  let body := (if String.eqb route "" then [] else [("route", FStr route)]) ++ (if String.eqb tenant "" then [] else [("tenant", FStr tenant)]) in
  value_call AnyValue c CCachePurge (Some body) (fun resp => show c resp ["Cache purge executed."]).

Definition runKeyRevokeRemote (c : Client) (id : string) : prog cli_op result :=
  if String.eqb id "" then Ret (die "--id is required")
  else obj_call c (CKeyRevoke id) None (fun resp => show c resp ["API key " +:+ go_quote id +:+ " revoked and cluster invalidation published."]).

(** [args]: what follows the flags.  A receipt that is partial is printed before the command dies. *)
Definition runTenantPurgeRemote (c : Client) (name : string) (args : list string) : prog cli_op result :=
  let tenantID := trim_space name in
  let tenantID := if String.eqb tenantID "" then trim_space (default "" (head args)) else tenantID in
  if String.eqb tenantID "" then Ret (die "usage: proofgatectl tenant purge-data <tenant_id>")
  else
    (let! r := Do c (CTenantPurge tenantID) None (Some (decode AnObject)) in
     match r.2 with
     | inl e => Ret (die e)
     | inr v =>
         let resp := default (zero AnObject) v in
         Ret (mkResult [indent resp] (if (r.1 =? 207) || equal_fold (shown resp "status") "partial" then Some "tenant purge completed partially" else None))
     end)%prog.

Inductive user_command := UCreate (username role : string) | UList | UGet (username : string) | UEnable (username : string) (enabled : bool) | UDelete (username : string) | UPassword (username : string).

Definition read_twice (first second missing : string) (k : string -> prog cli_op result) : prog cli_op result :=
  (let! p1 := call_op (ReadPassword first) in
   match p1 with
   | None | Some "" => Ret (die missing)
   | Some p1 =>
       let! p2 := call_op (ReadPassword second) in
       match p2 with
       | Some p2 => if String.eqb p2 p1 then k p1 else Ret (die "passwords do not match")
       | None => Ret (die "passwords do not match")
       end
   end)%prog.

Definition runUser (c : Client) (cmd : user_command) : prog cli_op result :=
  let required := "--username is required" in
  (match cmd with
   | UCreate username role =>
       if String.eqb username "" then Ret (die required)
       else read_twice "Enter password for new user: " "Confirm password: " "password is required" (fun pw =>
         let! r := Do c CUserCreate (Some [("username", FStr username); ("password", FStr pw); ("role", FStr role)]) (Some (decode AnObject)) in
         match r.2 with
         | inl e => Ret (die e)
         | inr v => if r.1 =? 201 then show c (default (zero AnObject) v) ["User " +:+ go_quote username +:+ " created with role " +:+ go_quote role +:+ "."] else Ret (printed [])
         end)
   | UList => list_call c CUserList (fun users => show_list c users (row [20; 12; 8; 24] ["USERNAME"; "ROLE"; "ENABLED"; "CREATED"] ::
       map (fun u => row [20; 12; 8; 24] [shown u "username"; shown u "role"; shown u "enabled"; shown u "created_at"]) users))
   | UGet username =>
       if String.eqb username "" then Ret (die required)
       else obj_call c (CUserGet username) None (fun u => show c u ["Username: " +:+ shown u "username"; "Role:     " +:+ shown u "role"; "Enabled:  " +:+ shown u "enabled"; "Created:  " +:+ shown u "created_at"])
   | UEnable username enabled =>
       if String.eqb username "" then Ret (die required)
       else call_nothing c (CUserEnabled username) (Some [("enabled", FBool enabled)]) ["User " +:+ go_quote username +:+ (if enabled then " enabled." else " disabled.")]
   | UDelete username =>
       if String.eqb username "" then Ret (die required) else call_nothing c (CUserDelete username) None ["User " +:+ go_quote username +:+ " deleted."]
   | UPassword username =>
       let change target :=
         (let! old := call_op (ReadPassword "Enter current password: ") in
          read_twice "Enter new password: " "Confirm new password: " "new password is required" (fun pw =>
            call_nothing c (CUserPassword target) (Some [("old_password", FStr (default "" old)); ("new_password", FStr pw)])
              ["Password updated for user " +:+ go_quote target +:+ "."]))%prog in
       if String.eqb username "" then
         let! r := Do c CWhoami None (Some (decode WhoamiResponse)) in
         match r.2 with inl e => Ret (die ("identify self: " +:+ e)) | inr v => change (text_of (default (zero WhoamiResponse) v) "username") end
       else change username
   end)%prog.

Inductive provider_command :=
| PvList | PvGet (name : string) | PvTest (name : string) | PvSetKey (name provider key : string) | PvCredentialSet (provider : string) | PvCredentialList.

Definition set_credential (c : Client) (provider key : string) : prog cli_op result :=
  obj_call c (CCredentialSet provider) (Some [("api_key", FStr key)]) (fun resp => show c resp
    ["Provider " +:+ go_quote provider +:+ " credential stored (version: " +:+ shown resp "version" +:+ ")."]).

Definition read_api_key (k : string -> prog cli_op result) : prog cli_op result :=
  (let! key := call_op (ReadPassword "Paste the provider API key and press Enter: ") in
   match key with None | Some "" => Ret (die "api key is required") | Some key => k key end)%prog.

Definition runProvider (c : Client) (cmd : provider_command) : prog cli_op result :=
  match cmd with
  | PvList => list_call c CProviderList (fun l => show_list c l (row [18; 12; 32; 16; 8] ["NAME"; "TYPE"; "BASE URL"; "KEY SOURCE"; "HAS KEY"] ::
      map (fun p => row [18; 12; 32; 16; 8] [shown p "name"; shown p "type"; shown p "base_url"; shown p "key_source"; shown p "has_key"]) l))
  | PvGet name =>
      if String.eqb name "" then Ret (die "--name is required")
      else obj_call c (CProviderGet name) None (fun p => show c p ["Name:       " +:+ shown p "name"; "Type:       " +:+ shown p "type"; "Base URL:   " +:+ shown p "base_url";
        "Key Source: " +:+ shown p "key_source"; "Has Key:    " +:+ shown p "has_key"])
  | PvTest name =>
      if String.eqb name "" then Ret (die "--name is required")
      else obj_call c (CProviderTest name) None (fun r => show c r ["Provider: " +:+ shown r "provider" +:+ " | Status: " +:+ shown r "status" +:+ " | Latency: " +:+ shown r "latency_ms" +:+ "ms"])
  | PvSetKey name provider key =>
      let target := if String.eqb name "" then provider else name in
      if String.eqb target "" then Ret (die "--name or --provider is required")
      else if String.eqb key "" then read_api_key (set_credential c target) else set_credential c target key
  | PvCredentialSet provider => if String.eqb provider "" then Ret (die "--provider is required") else read_api_key (set_credential c provider)
  | PvCredentialList => list_call c CCredentialList (fun l => show_list c l (row [20; 8; 8; 20; 24] ["PROVIDER"; "VERSION"; "ACTIVE"; "CREATED BY"; "CREATED AT"] ::
      map (fun p => row [20; 8; 8; 20; 24] [shown p "Provider"; shown p "Version"; shown p "Active"; shown p "CreatedBy"; shown p "CreatedAt"]) l))
  end.

Definition runConfigShow (c : Client) : prog cli_op result := value_call TheConfig c CConfigShow None (fun cfg => Ret (printed [indent cfg])).
Definition runConfigReload (c : Client) : prog cli_op result := call_nothing c CConfigReload None ["Configuration reloaded successfully."].

Inductive session_command := SsList | SsRevoke (id : string) | SsRevokeAll (user : string).

Definition short (n : nat) (tail s : string) : string := if Nat.ltb n (String.length s) then stake n s +:+ tail else s.

Definition runSession (c : Client) (cmd : session_command) : prog cli_op result :=
  match cmd with
  | SsList => list_call c CSessionList (fun l => show_list c l (row [16; 16; 12; 16; 24] ["SESSION ID"; "USERNAME"; "ROLE"; "IP"; "LAST ACTIVE"] ::
      map (fun s => row [16; 16; 12; 16; 24] [short 12 "..." (shown s "id"); shown s "username"; shown s "role"; shown s "ip"; shown s "last_active_at"]) l))
  | SsRevoke id => if String.eqb id "" then Ret (die "--id is required") else call_nothing c (CSessionRevoke id) None ["Session " +:+ go_quote id +:+ " revoked."]
  | SsRevokeAll user => obj_call c (CSessionRevokeAll user) None (fun resp => show c resp ["Revoked " +:+ shown resp "revoked_count" +:+ " sessions."])
  end.

(** The last column is not filled up. *)
Definition audit_row (ts actor action target result ip : string) : string := row [20; 15; 20; 15; 15] [ts; actor; action; target; result] +:+ " " +:+ ip.

Definition runAdmin (c : Client) (limit : Z) (since actor action : string) : prog cli_op result :=
  (let! r := Do c (CAudit limit since actor action) None (Some decode_list) in
   match r.2 with
   | inl e => Ret (die ("audit: " +:+ e))
   | inr v =>
       let l := default [] v in
       show_list c l (audit_row "TIMESTAMP" "ACTOR" "ACTION" "TARGET" "RESULT" "IP" ::
         map (fun e => audit_row (short 19 "" (text_of e "ts")) (text_of e "actor") (text_of e "action") (text_of e "target") (text_of e "result") (text_of e "ip")) l)
   end)%prog.
(** ** Configuration files *)

(** [loaded]: [config.Load]. *)
Definition runConfigValidate (file : string) (loaded : string + Config) : result :=
  if String.eqb file "" then die "-f / --file is required"
  else match loaded with inl e => die ("INVALID: " +:+ e) | inr _ => printed ["Configuration in " +:+ file +:+ " is valid."] end.

Definition issue_line (i : LintIssue) : string :=
  match li_Severity i with SeverityError => "ERROR: [" | SeverityWarning => "WARN:  [" end +:+ li_Rule i +:+ "] " +:+ li_Message i.

(** The exit with status 1 says nothing more. *)
Definition runConfigLint (lint : Config -> list LintIssue) (file : string) (strict : bool) (loaded : string + Config) : result :=
  if String.eqb file "" then die "-f / --file is required"
  else match loaded with
       | inl e => die ("PARSE ERROR: " +:+ e)
       | inr cfg =>
           let issues := lint cfg in
           let lines := map issue_line issues in
           if existsb (fun i => match li_Severity i with SeverityError => true | SeverityWarning => false end) issues ||
             (strict && match issues with [] => false | _ => true end) then mkResult lines (Some "")
           else printed (match issues with [] => ["Configuration in " +:+ file +:+ " passed linting with zero issues."] | _ => lines end)
       end.

(** ** Chat *)

Record chat_options := mkChatOptions { co_route : string; co_system : string; co_dataURL : string; co_key : string; co_noStream : bool }.

Definition checkDataPlaneResponse (resp : http_reply) : option string :=
  let s := hr_Status resp in
  if (200 <=? s) && (s <? 300) then None
  else match hr_Err resp with
       | Some e => Some ("data-plane request failed with HTTP " +:+ itoa s +:+ ": read error: " +:+ e)
       | None =>
           let message :=
             if s =? 401 then "authentication failed; check the data-plane API key"
             else if s =? 403 then "permission denied"
             else if s =? 429 then "rate limited"
             else if (s =? 502) || (s =? 503) || (s =? 504) then "gateway or upstream failure"
             else if s =? 500 then "gateway failure" else StatusText s in
           Some ("data-plane request failed with HTTP " +:+ itoa s +:+ ": " +:+ message)
       end.

Definition checkDataPlaneContentType (resp : http_reply) (expected : string) : option string :=
  let ct := lower_ascii (hr_ContentType resp) in
  if String.eqb ct "" || contains ct expected then None
  else Some ("data-plane request returned unexpected content type " +:+ go_quote ct +:+ " (want " +:+ expected +:+ ")").

Definition first_error (a b : option string) : option string := match a with Some e => Some e | None => b end.

(** The lines that end with a newline; what the stream shows, up to the error that ends it. *)
Fixpoint read_chunks (lines : list string) : string * option string :=
  match lines with
  | [] => ("", None)
  | line :: lines =>
      let line := trim_space line in
      if negb (has_prefix "data:" line) then read_chunks lines
      else
        let data := trim_space (trim_prefix line "data:") in
        if String.eqb data "[DONE]" then ("", None)
        else match decode_chunk data with
             | inl e => ("", Some ("decode stream chunk: " +:+ e))
             | inr text => let '(rest, e) := read_chunks lines in (default "" text +:+ rest, e)
             end
  end.

Definition stream_lines (resp : http_reply) : list string := removelast (split_byte (byte_at 10) (hr_Body resp)).

Definition chat_body (o : chat_options) (messages : list (string * string)) : fields :=
  [("model", FStr (co_route o)); ("messages", FMessages messages); ("stream", FBool (negb (co_noStream o)))].

(** With a URL or a key of the data plane the request goes there, without the session's token. *)
Definition chat_direct (o : chat_options) : bool := negb (String.eqb (co_dataURL o) "") || negb (String.eqb (co_key o) "").
Definition chat_url (o : chat_options) : string :=
  trim_slashes (if String.eqb (co_dataURL o) "" then "http://localhost:8080" else co_dataURL o) +:+ "/v1/chat/completions".
Definition chat_headers (o : chat_options) : list (string * string) :=
  [("Content-Type", "application/json")] ++ (if co_noStream o then [] else [("Accept", "text/event-stream")]) ++
  if String.eqb (co_key o) "" then [] else [("Authorization", "Bearer " +:+ co_key o)].

(** The answer, what is printed of it, and the error that ends the command. *)
Definition whole_answer (decoded : string + option string) (prefix : string) : string * list string * option string :=
  match decoded with inl e => ("", [], Some (prefix +:+ e)) | inr (Some a) => (a, [a], None) | inr None => ("", [], None) end.
Definition no_answer (e : string) : string * list string * option string := ("", [], Some e).

Definition chat_answer (c : Client) (o : chat_options) (messages : list (string * string)) : prog cli_op (string * list string * option string) :=
  let body := Some (chat_body o messages) in
  (if co_noStream o then
     if chat_direct o then
       let! r := call_op (Send "POST" (chat_url o) (chat_headers o) body) in
       Ret (match r with
            | inl e => no_answer ("chat request failed: " +:+ e)
            | inr resp =>
                match first_error (checkDataPlaneResponse resp) (checkDataPlaneContentType resp "application/json") with
                | Some e => no_answer ("chat request failed: " +:+ e)
                | None => whole_answer (decode_first (hr_Body resp) (hr_Err resp)) "decode chat response: "
                end
            end)
     else
       let! r := Do c CChat body (Some decode_answer) in
       Ret (whole_answer (match r.2 with inl e => inl e | inr a => inr (default None a) end) "chat error: ")
   else
     let! r := (if chat_direct o then
                  let! r := call_op (Send "POST" (chat_url o) (chat_headers o) body) in
                  Ret (match r with inl e => inl ("stream request failed: " +:+ e) | inr resp => inr resp end)
                else
                  let! r := Stream c CChat body in
                  Ret (match r with inl e => inl ("stream error: " +:+ e) | inr resp => inr resp end)) in
     Ret (match r with
          | inl e => no_answer e
          | inr resp =>
              match first_error (checkDataPlaneResponse resp) (checkDataPlaneContentType resp "text/event-stream") with
              | Some e => no_answer ("stream request failed: " +:+ e)
              | None => let '(text, err) := read_chunks (stream_lines resp) in (text, [text], err)
              end
          end))%prog.

(** The conversation after each prompt, until one fails. *)
Fixpoint chat_loop (c : Client) (o : chat_options) (messages : list (string * string)) (prompts : list string) (shown : list string) : prog cli_op result :=
  match prompts with
  | [] => Ret (printed shown)
  | p :: ps =>
      let messages := messages ++ [("user", p)] in
      let! r := chat_answer c o messages in
      match r with
      | (_, lines, Some e) => Ret (mkResult (shown ++ lines) (Some e))
      | (text, lines, None) => chat_loop c o (if String.eqb text "" then messages else messages ++ [("assistant", text)]) ps (shown ++ lines)
      end
  end%prog.

(** The prompts of an interactive session: blank lines are skipped, and two words end it. *)
Fixpoint interactive (lines : list string) : list string :=
  match lines with
  | [] => []
  | l :: ls =>
      let input := trim_space l in
      if String.eqb input "" then interactive ls
      else if String.eqb input "exit" || String.eqb input "quit" then [] else input :: interactive ls
  end.

(** [args]: the prompt on the command line; [stdin]: what a pipe gave, or the lines typed. *)
Definition runChat (c : Client) (o : chat_options) (args : list string) (stdin : string + list string) : prog cli_op result :=
  let messages := if String.eqb (co_system o) "" then [] else [("system", co_system o)] in
  let prompts :=
    match args with
    | _ :: _ => [join " " args]
    | [] => match stdin with
            | inl piped => if String.eqb (trim_space piped) "" then [] else [trim_space piped]
            | inr lines => interactive lines
            end
    end in
  chat_loop c o messages prompts [].
End Client.

(** ** Where requests go *)

(** A precondition on each exchange, whatever it answers. *)
Definition exchanges (P : forall R, cli_op R -> Prop) {R : Type} (o : cli_op R) (g : nat) (Q : R -> nat -> Prop) : Prop := P R o /\ forall r, Q r g.

Lemma exchanges_mono P : spec_mono (@exchanges P).
Proof. intros R o g Q Q' H [Ho Hq]. split; [exact Ho|]. intros r. by apply H. Qed.

(** The request of a chat with the data plane. *)
Definition data_plane_request (o : chat_options) (R : Type) (op : cli_op R) : Prop :=
  match op with Send method url headers _ => method = "POST" /\ url = chat_url o /\ headers = chat_headers o | _ => False end.

(** The request of a chat through the control plane. *)
Definition control_plane_request (c : Client) (R : Type) (op : cli_op R) : Prop :=
  match op with Send method url _ _ => method = "POST" /\ url = cc_BaseURL c +:+ "/admin/cp/chat" | _ => False end.

(** A chat with a URL or a key of the data plane speaks with the data plane only and never
    shows it the session's token, and one without speaks with the control plane only: whatever
    the conversation, and whatever is answered. *)
Theorem chat_speaks_with_one `{!CliJson} url_error c o args stdin g :
  wp (@exchanges (fun R op => if chat_direct o then data_plane_request o R op else control_plane_request c R op)) (runChat url_error c o args stdin) g (fun _ _ => True).
Proof.
  unfold runChat. match goal with |- wp _ (chat_loop _ _ _ ?m ?p _) _ _ => generalize (@nil string) as shown, m, p end.
  intros shown messages prompts. revert shown messages. induction prompts as [|p ps IH]; intros shown messages; [done|]. cbn [chat_loop].
  apply wp_bind; [apply exchanges_mono|].
  assert (wp (@exchanges (fun R op => if chat_direct o then data_plane_request o R op else control_plane_request c R op))
    (chat_answer url_error c o (messages ++ [("user", p)])) g (fun _ g' => g' = g)) as Ha.
  { unfold chat_answer. destruct (co_noStream o) eqn:En, (chat_direct o) eqn:Ed; cbn; unfold CliRemote.Do, Stream; cbn [request_line];
      try (destruct (url_error _)); by split_and?. }
  revert Ha. apply wp_mono; [apply exchanges_mono|]. intros [[text lines] [e|]] g' ->; [done|apply IH].
Qed.
