(* ===== verification/CliRoutes.v ===== *)
(** * The command line: which route of the control plane a command meets

    The path of a request of [CliRemote] as net/url parses and writes it, the patterns of
    [RegisterAdminRoutes] as net/http matches them, and the query as the server reads it. *)

From S2P Require Import Prelude GoStrings Encoding Threads AdminStore AdminAuth ControlPlane Cli CliRemote.

Open Scope string_scope.
Open Scope list_scope.
Open Scope Z_scope.

(** ** net/url *)

(** [url.unescape]; [plus]: of a query, where a plus is a space. *)
Fixpoint Unescape (plus : bool) (s : string) : option string :=
  match s with
  | EmptyString => Some ""
  | String c s' =>
      if Ascii.eqb c "%" then
        match s' with
        | String a (String b s'') =>
            match hex_val a, hex_val b with
            | Some x, Some y => String (byte_at (16 * x + y)) <$> Unescape plus s''
            | _, _ => None
            end
        | _ => None
        end
      else String (if plus && Ascii.eqb c "+" then " "%char else c) <$> Unescape plus s'
  end.

Definition listed (l : string) (c : ascii) : bool := existsb (Ascii.eqb c) (bytes_of l).
Definition alnum (c : ascii) : bool := is_digit c || is_lower c || is_upper c.

(** [validEncoded] and [escape] of a path. *)
Definition valid_byte (c : ascii) : bool := alnum c || listed "-_.~!$&'()*+,;=:@[]%/" c.
Definition plain_path_byte (c : ascii) : bool := alnum c || listed "-_.~$&+,/:;=@" c.

Definition percent (c : ascii) (s : string) : string := String "%" (String (upper_hex (byte_val c / 16)) (String (upper_hex (byte_val c mod 16)) s)).

Fixpoint escape_path (s : string) : string :=
  match s with EmptyString => "" | String c s' => if plain_path_byte c then String c (escape_path s') else percent c (escape_path s') end.

Definition EscapedPath (raw : string) : option string :=
  match Unescape false raw with None => None | Some path => Some (if sforall valid_byte raw then raw else escape_path path) end.

Definition is_ctl (c : ascii) : bool := (byte_val c <? 32) || (byte_val c =? 127).

(** The path and the query that a URL without a host puts on the request line, or [None] for
    one that does not parse. *)
Definition parse_target (url : string) : option (string * string) :=
  if negb (sforall (fun c => negb (is_ctl c)) url) then None
  else
    let '(url, fragment, _) := cut url "#" in
    match Unescape false fragment with
    | None => None
    | Some _ => let '(path, query, _) := cut url "?" in (fun p => (p, query)) <$> EscapedPath path
    end.

(** [url.ParseQuery]: parts that hold a semicolon or do not unescape are left out. *)
Definition query_part (part : string) : option (string * string) :=
  if String.eqb part "" || scontains_byte ";" part then None
  else
    let '(k, v, _) := cut part "=" in
    match Unescape true k, Unescape true v with Some k, Some v => Some (k, v) | _, _ => None end.

Definition ParseQuery (q : string) : list (string * string) := omap query_part (split_byte "&" q).

(** [Values.Get] *)
Definition query_get (q : list (string * string)) (k : string) : string :=
  match find (fun kv => String.eqb kv.1 k) q with Some (_, v) => v | None => "" end.

(** ** net/http *)

Inductive segment := Lit (s : string) | Wild.

Definition parse_segment (s : string) : segment := if has_prefix "{" s then Wild else Lit s.

(** A pattern: its method and the segments after the first slash. *)
Definition parse_pattern (p : string) : string * list segment :=
  let '(method, path, _) := cut p " " in (method, map parse_segment (drop 1 (split_byte "/" path))).

(** A pattern that is left to match, with its text and the values of its wildcards. *)
Abbreviation candidate := (list segment * string * list string)%type.

Definition literals (s : string) (c : candidate) : option candidate :=
  match c with (Lit l :: rest, p, vs) => if String.eqb l s then Some (rest, p, vs) else None | _ => None end.
Definition wildcards (s : string) (c : candidate) : option candidate :=
  match c with (Wild :: rest, p, vs) => if String.eqb s "" then None else Some (rest, p, vs ++ [s]) | _ => None end.

(** Literals come before wildcards at the first segment where two patterns differ; a pattern
    that ends with a slash matches what lies below it.  The segments are unescaped. *)
Fixpoint match_segments (segs : list string) (cs : list candidate) : option (string * list string) :=
  match segs with
  | [] => match find (fun c : candidate => match c.1.1 with [] => true | _ => false end) cs with Some (_, p, vs) => Some (p, vs) | None => None end
  | s :: rest =>
      match match_segments rest (omap (literals s) cs) with
      | Some r => Some r
      | None =>
          match match_segments rest (omap (wildcards s) cs) with
          | Some r => Some r
          | None => match find (fun c : candidate => match c.1.1 with [Lit ""] => true | _ => false end) cs with Some (_, p, vs) => Some (p, vs) | None => None end
          end
      end
  end.

(** [pathUnescape] *)
Definition decoded_segment (s : string) : string := default s (Unescape false s).

Definition candidates (method : string) (patterns : list string) : list candidate :=
  omap (fun p => let '(m, segs) := parse_pattern p in if String.eqb m method then Some (segs, p, []) else None) patterns.

(** A path with empty or dot segments is redirected; a space in the query makes the request
    line one that no server reads. *)
Definition clean (segs : list string) : bool :=
  forallb (fun s => negb (String.eqb s "." || String.eqb s "..")) segs && forallb (fun s => negb (String.eqb s "")) (removelast segs).

Inductive routed := BadURL | BadRequest | Redirected | NotRouted | Handled (pattern : string) (values : list string) (query : list (string * string)).

Definition route (patterns : list string) (line : string * string) : routed :=
  match parse_target line.2 with
  | None => BadURL
  | Some (path, query) =>
      if scontains_byte " " query then BadRequest
      else
        let segs := drop 1 (split_byte "/" path) in
        if negb (clean segs) then Redirected
        else match match_segments (map decoded_segment segs) (candidates line.1 patterns) with
             | Some (p, vs) => Handled p vs (ParseQuery query)
             | None => NotRouted
             end
  end.

Definition admin_patterns : list string := map fst (RegisterAdminRoutes true true true true).

(** ** What reaches where *)

(** The pattern of the handler a command is written for, the values of its wildcards and its query. *)
Definition intended (c : remote_command) : string * list string * list (string * string) :=
  let user := "/admin/cp/users/{username}" in
  match c with
  | CLogin => ("POST /admin/auth/login", [], [])
  | CLogout => ("POST /admin/auth/logout", [], [])
  | CWhoami => ("GET /admin/auth/whoami", [], [])
  | CStatus => ("GET /admin/cp/status", [], [])
  | CHealth => ("GET /admin/cp/health", [], [])
  | CCachePurge => ("POST /admin/cp/cache/purge", [], [])
  | CKeyRevoke id => ("POST /admin/cp/keys/{id}/revoke", [id], [])
  | CTenantPurge id => ("POST /admin/cp/tenants/{id}/erase", [id], [])
  | CUserCreate => ("POST /admin/cp/users", [], [])
  | CUserList => ("GET /admin/cp/users", [], [])
  | CUserGet u => ("GET " +:+ user, [u], [])
  | CUserEnabled u => ("PUT " +:+ user +:+ "/enabled", [u], [])
  | CUserDelete u => ("DELETE " +:+ user, [u], [])
  | CUserPassword u => ("POST " +:+ user +:+ "/password", [u], [])
  | CProviderList => ("GET /admin/cp/providers", [], [])
  | CProviderGet n => ("GET /admin/cp/providers/{name}", [n], [])
  | CProviderTest n => ("POST /admin/cp/providers/{name}/test", [n], [])
  | CCredentialSet n => ("POST /admin/cp/providers/{name}/credential", [n], [])
  | CCredentialList => ("GET /admin/cp/providers/credentials", [], [])
  | CConfigShow => ("GET /admin/cp/config", [], [])
  | CConfigReload => ("POST /admin/cp/config/reload", [], [])
  | CSessionList => ("GET /admin/cp/sessions", [], [])
  | CSessionRevoke id => ("DELETE /admin/cp/sessions/{id}", [id], [])
  | CSessionRevokeAll u => ("DELETE /admin/cp/sessions", [], if String.eqb u "" then [] else [("user", u)])
  | CChat => ("POST /admin/cp/chat", [], [])
  | CAudit limit since actor action =>
      ("GET /admin/cp/audit", [], [("limit", itoa limit)] ++ (if String.eqb since "" then [] else [("since", since)]) ++
        (if String.eqb actor "" then [] else [("actor", actor)]) ++ (if String.eqb action "" then [] else [("action", action)]))
  end.

Definition segment_byte (c : ascii) : bool := alnum c || listed "-_.~!$&'()*+,;=:@[]" c.
Definition query_byte (c : ascii) : bool := alnum c || listed "-_.~:@" c.
Definition no_dots (a : string) : Prop := a <> "" /\ a <> "." /\ a <> "..".
Definition plain_segment (a : string) : Prop := no_dots a /\ sforall segment_byte a = true.

(** What an argument must not be: the commands that escape theirs take all but the dots; the
    others put them into the path and the query as they are. *)
Definition plain_arguments (c : remote_command) : Prop :=
  match c with
  | CKeyRevoke a | CTenantPurge a => no_dots a
  | CUserGet a | CUserEnabled a | CUserDelete a | CUserPassword a | CProviderTest a | CCredentialSet a | CSessionRevoke a => plain_segment a
  | CProviderGet a => plain_segment a /\ a <> "credentials"
  | CSessionRevokeAll u => sforall query_byte u = true
  | CAudit _ since actor action => sforall query_byte since = true /\ sforall query_byte actor = true /\ sforall query_byte action = true
  | _ => True
  end.

(** *** Escapes *)

Lemma percent_step c s : Unescape false (percent c s) = String c <$> Unescape false s.
Proof.
  unfold percent. cbn [Unescape]. pose proof (byte_val_range c) as Hc.
  assert (forall d, 0 <= d < 16 -> hex_val (upper_hex d) = Some d) as Hx.
  { intros d Hd. assert (forallb (fun d => bool_decide (hex_val (upper_hex d) = Some d)) (map Z.of_nat (seq 0 16)) = true) as F by reflexivity.
    rewrite forallb_forall in F. specialize (F d). rewrite bool_decide_eq_true in F. apply F. apply in_map_iff. exists (Z.to_nat d). split; [lia|]. apply in_seq. lia. }
  rewrite !Hx by (Z.to_euclidean_division_equations; lia). rewrite <- Z.div_mod, byte_at_val by lia. done.
Qed.

Lemma PathEscape_unescape s : Unescape false (PathEscape s) = Some s.
Proof.
  induction s as [|c s IH]; [done|]. cbn [PathEscape]. destruct (path_byte c) eqn:Ec.
  - cbn [Unescape andb]. rewrite IH. destruct (Ascii.eqb_spec c "%") as [->|]; [done|reflexivity].
  - pose proof (percent_step c (PathEscape s)) as Hp. unfold percent in Hp. by rewrite Hp, IH.
Qed.

Lemma Unescape_app s : forall t a b, Unescape false s = Some a -> Unescape false t = Some b -> Unescape false (s +:+ t) = Some (a +:+ b).
Proof.
  induction s as [s IH] using (induction_ltof1 _ String.length). unfold ltof in IH. intros t a b Hs Ht.
  destruct s as [|c s]; [by injection Hs as <-|]. rewrite sapp_cons. cbn [Unescape andb] in *. destruct (Ascii.eqb c "%").
  - destruct s as [|x [|y s]]; [done..|]. rewrite !sapp_cons. destruct (hex_val x); [|done]. destruct (hex_val y); [|done].
    destruct (Unescape false s) as [a'|] eqn:E; [|done]. injection Hs as <-. by rewrite (IH s ltac:(cbn; lia) t a' b E Ht).
  - destruct (Unescape false s) as [a'|] eqn:E; [|done]. injection Hs as <-. by rewrite (IH s ltac:(cbn; lia) t a' b E Ht).
Qed.

(** *** Bytes *)

Definition harmless (c : ascii) : bool := negb (is_ctl c || listed "# " c).

Lemma all_bytes (P : ascii -> bool) : forallb (fun n => P (byte_at (Z.of_nat n))) (seq 0 256) = true -> forall c, P c = true.
Proof.
  intros H c. rewrite forallb_forall in H. pose proof (byte_val_range c). specialize (H (Z.to_nat (byte_val c)) ltac:(apply in_seq; lia)).
  by rewrite Z2Nat.id, byte_at_val in H by lia.
Qed.

Lemma bytes_impl (p q : ascii -> bool) s : forallb (fun n => implb (p (byte_at (Z.of_nat n))) (q (byte_at (Z.of_nat n)))) (seq 0 256) = true ->
  sforall p s = true -> sforall q s = true.
Proof. intros H. apply sforall_impl. intros c Hc. pose proof (all_bytes (fun c => implb (p c) (q c)) H c) as Hi. cbn in Hi. by rewrite Hc in Hi. Qed.

Lemma sforall_concat p l : Forall (fun s => sforall p s = true) l -> p "/"%char = true -> sforall p (join "/" l) = true.
Proof.
  intros H Hp. induction H as [|s l Hs H IH]; [done|]. destruct l as [|t l]; [done|].
  change (join "/" (s :: t :: l)) with (s +:+ String "/" (join "/" (t :: l))). rewrite sforall_app, Hs. cbn [sforall]. by rewrite Hp, IH.
Qed.

Lemma Unescape_plain plus s : sforall (fun c => negb (listed "%+" c)) s = true -> Unescape plus s = Some s.
Proof.
  induction s as [|c s IH]; [done|]. cbn [sforall Unescape]. intros [Hc Hs]%andb_true_iff. rewrite (IH Hs). unfold listed in Hc. cbn in Hc.
  destruct (Ascii.eqb c "%"); [done|]. destruct (Ascii.eqb c "+"); [done|]. by rewrite andb_false_r.
Qed.

Lemma Unescape_segment s : sforall segment_byte s = true -> Unescape false s = Some s.
Proof.
  intros H. assert (sforall (fun c => negb (Ascii.eqb c "%")) s = true) as H' by (revert H; by apply bytes_impl). clear H.
  induction s as [|c s IH]; [done|]. cbn [sforall Unescape andb] in *. apply andb_true_iff in H' as [Hc Hs]. rewrite (IH Hs). by destruct (Ascii.eqb c "%").
Qed.

Lemma PathEscape_valid s : sforall (fun c => valid_byte c && negb (Ascii.eqb c "/")) (PathEscape s) = true.
Proof.
  induction s as [|c s IH]; [done|]. cbn [PathEscape]. destruct (path_byte c) eqn:Ec; cbn [sforall]; rewrite IH, ?andb_true_r.
  - pose proof (all_bytes (fun c => implb (path_byte c) (valid_byte c && negb (Ascii.eqb c "/"))) ltac:(vm_compute; reflexivity) c) as Hi. cbn beta in Hi. by rewrite Ec in Hi.
  - pose proof (all_bytes (fun c => (valid_byte (upper_hex (byte_val c / 16)) && negb (Ascii.eqb (upper_hex (byte_val c / 16)) "/")) &&
      (valid_byte (upper_hex (byte_val c mod 16)) && negb (Ascii.eqb (upper_hex (byte_val c mod 16)) "/"))) ltac:(vm_compute; reflexivity) c) as Hi. cbn beta in Hi. exact Hi.
Qed.

(** *** Requests *)

(** A segment that arrives as it was meant. *)
Definition arrives (s : string) : Prop := s <> "" /\ s <> "." /\ s <> ".." /\ sforall (fun c => valid_byte c && negb (Ascii.eqb c "/")) s = true /\ is_Some (Unescape false s).

Lemma arrives_plain s : plain_segment s -> arrives s /\ decoded_segment s = s /\ s <> "".
Proof.
  intros [(? & ? & ?) Hs]. pose proof (Unescape_segment s Hs) as Hu. unfold decoded_segment. rewrite Hu. split; [|done]. split_and!; try done.
  - revert Hs. by apply bytes_impl.
Qed.

Lemma arrives_literal s : no_dots s -> sforall segment_byte s = true -> arrives s.
Proof. intros Hd Hs. by apply arrives_plain. Qed.

Lemma PathEscape_dots s : no_dots s -> no_dots (PathEscape s).
Proof.
  intros (H1 & H2 & H3). split_and!; [by destruct s as [|c s]; [|cbn; destruct (path_byte c)]|..]; intros E; pose proof (PathEscape_unescape s) as Hu; rewrite E in Hu; injection Hu as <-; done.
Qed.

Lemma arrives_escaped s : no_dots s -> arrives (PathEscape s) /\ decoded_segment (PathEscape s) = s /\ s <> "".
Proof.
  intros Hd. unfold decoded_segment. rewrite PathEscape_unescape. split; [|split; [done|apply Hd]]. destruct (PathEscape_dots s Hd) as (? & ? & ?). split_and!; try done.
  - apply PathEscape_valid.
  - rewrite PathEscape_unescape. by eexists.
Qed.

Lemma cut_none c s : scontains_byte c s = false -> cut s (String c "") = (s, "", false).
Proof. intros H. unfold cut. apply index_byte_None in H. by rewrite H. Qed.

Lemma cut_at c s t : scontains_byte c s = false -> cut (s +:+ String c t) (String c "") = (s, t, true).
Proof.
  intros H. unfold cut. rewrite (index_byte_app c s t H), stake_app_length. cbn [String.length].
  rewrite sdrop_app_ge by lia. by replace (String.length s + 1 - String.length s)%nat with 1%nat by lia.
Qed.

(** What follows the path: nothing, or the query. *)
Definition tail_of (q : string) (tail : string) : Prop := (q = "" /\ tail = "") \/ tail = String "?" q.

Lemma parse_target_plain segs q tail : Forall arrives segs -> sforall harmless q = true -> tail_of q tail ->
  parse_target (String "/" (join "/" segs) +:+ tail) = Some (String "/" (join "/" segs), q).
Proof.
  intros Hs Hq Ht. set (path := String "/" (join "/" segs)).
  assert (sforall valid_byte path = true) as Hv.
  { unfold path. cbn [sforall andb]. change (valid_byte "/") with true. apply sforall_concat; [|done]. eapply Forall_impl; [exact Hs|].
    intros s (_ & _ & _ & H & _). revert H. apply sforall_impl. by intros c [? _]%andb_true_iff. }
  assert (sforall (fun c => harmless c && negb (Ascii.eqb c "?")) path = true) as Hp by (revert Hv; by apply bytes_impl).
  assert (sforall harmless path = true) as Hph by (revert Hp; apply sforall_impl; by intros c [? _]%andb_true_iff).
  assert (scontains_byte "?" path = false) as Hpq by (revert Hp; by apply sforall_no_byte).
  assert (sforall harmless (path +:+ tail) = true) as Hall by (rewrite sforall_app, Hph; destruct Ht as [[_ ->]| ->]; [done|exact Hq]).
  unfold parse_target. replace (sforall (fun c => negb (is_ctl c)) (path +:+ tail)) with true by (symmetry; revert Hall; by apply bytes_impl).
  cbn [negb]. rewrite cut_none by (revert Hall; by apply sforall_no_byte). cbn [Unescape].
  replace (cut (path +:+ tail) "?") with (path, q, match tail with "" => false | _ => true end).
  2:{ destruct Ht as [[-> ->]| ->]; [rewrite sapp_nil_r; by rewrite cut_none|by rewrite cut_at]. }
  unfold EscapedPath. rewrite Hv. assert (is_Some (Unescape false path)) as [x ->].
  2: done.
  assert (is_Some (Unescape false (join "/" segs))) as [x Hx]; [|exists (String "/" x); unfold path; cbn [Unescape andb]; by rewrite Hx].
  clear -Hs. induction Hs as [|s l (_ & _ & _ & _ & [x Hx]) Hs [y IH]]; [by eexists|]. destruct l as [|t l]; [by exists x|].
  change (join "/" (s :: t :: l)) with (s +:+ String "/" (join "/" (t :: l))). exists (x +:+ String "/" y). apply Unescape_app; [done|]. cbn [Unescape andb]. by rewrite IH.
Qed.

Lemma route_plain patterns method segs q tail : segs <> [] -> Forall arrives segs -> sforall harmless q = true -> tail_of q tail ->
  route patterns (method, String "/" (join "/" segs) +:+ tail) =
  match match_segments (map decoded_segment segs) (candidates method patterns) with Some (p, vs) => Handled p vs (ParseQuery q) | None => NotRouted end.
Proof.
  intros Hne Hs Hq Ht. unfold route. cbn [fst snd]. rewrite (parse_target_plain segs q tail Hs Hq Ht).
  replace (scontains_byte " " q) with false by (symmetry; revert Hq; by apply sforall_no_byte).
  assert (split_byte "/" (String "/" (join "/" segs)) = "" :: segs) as ->.
  { cbn [split_byte]. change (Ascii.eqb "/" "/") with true. cbn iota. f_equal. apply split_join; [done|]. eapply Forall_impl; [exact Hs|].
    intros s (_ & _ & _ & H & _). revert H. apply sforall_no_byte. done. }
  change (drop 1 ("" :: segs)) with segs. assert (clean segs = true) as ->; [|done]. unfold clean. apply andb_true_iff. split; apply forallb_forall; intros s Hin.
  - pose proof (proj1 (Forall_forall _ _) Hs s (proj2 (list_elem_of_In _ _) Hin)) as (_ & H1 & H2 & _). apply negb_true_iff, orb_false_iff. by rewrite !String.eqb_neq.
  - assert (s ∈ segs) as Hin'.
    { apply list_elem_of_In. rewrite (app_removelast_last "" Hne). apply in_or_app. by left. }
    pose proof (proj1 (Forall_forall _ _) Hs s Hin') as (H1 & _). apply negb_true_iff. by apply String.eqb_neq.
Qed.

(** *** Queries *)

Lemma query_part_plain k v : sforall query_byte k = true -> sforall query_byte v = true -> k <> "" -> query_part (k +:+ String "=" v) = Some (k, v).
Proof.
  intros Hk Hv Hne. assert (forall s, sforall query_byte s = true -> sforall (fun c => negb (listed "%+" c)) s = true) as Hu by (intros s; by apply bytes_impl).
  unfold query_part. destruct (String.eqb_spec (k +:+ String "=" v) "") as [E|_]; [by destruct k|].
  rewrite scontains_byte_app. cbn [scontains_byte]. rewrite !(sforall_no_byte query_byte ";") by done. cbn [Ascii.eqb orb]. change (Ascii.eqb ";" "=") with false. cbn [orb].
  rewrite cut_at by (by apply (sforall_no_byte query_byte)). by rewrite !Unescape_plain by auto.
Qed.

Lemma ParseQuery_plain l : Forall (fun kv => sforall query_byte kv.1 = true /\ sforall query_byte kv.2 = true /\ kv.1 <> "") l ->
  ParseQuery (join "&" (map (fun kv => kv.1 +:+ String "=" kv.2) l)) = l.
Proof.
  intros H. unfold ParseQuery. destruct l as [|kv l]; [done|]. rewrite split_join; [|done|].
  - induction H as [|[k v] l' (Hk & Hv & Hne) _ IH]; [done|]. cbn [map omap list_omap fst snd] in *. rewrite query_part_plain by done. by rewrite IH.
  - apply Forall_forall. intros s. rewrite list_elem_of_In, in_map_iff. intros ([k v] & <- & Hin). cbn.
    pose proof (proj1 (Forall_forall _ _) H (k, v) (proj2 (list_elem_of_In _ _) Hin)) as (Hk & Hv & _). cbn in *.
    rewrite scontains_byte_app. cbn [scontains_byte]. rewrite !(sforall_no_byte query_byte "&") by done. reflexivity.
Qed.

Lemma query_harmless l : Forall (fun kv => sforall query_byte kv.1 = true /\ sforall query_byte kv.2 = true /\ kv.1 <> "") l ->
  sforall harmless (join "&" (map (fun kv => kv.1 +:+ String "=" kv.2) l)) = true.
Proof.
  assert (forall s, sforall query_byte s = true -> sforall harmless s = true) as Hi by (intros s; by apply bytes_impl).
  intros H. induction H as [|[k v] l (Hk & Hv & _) H IH]; [done|]. cbn [map fst snd] in *.
  assert (sforall harmless (k +:+ String "=" v) = true) as Hkv by (rewrite sforall_app; cbn [sforall]; by rewrite (Hi k Hk), (Hi v Hv)).
  destruct l as [|kv l]; [done|]. cbn [map] in *.
  match goal with |- context [join "&" (?k :: ?x :: ?l')] => change (join "&" (k :: x :: l')) with (k +:+ String "&" (join "&" (x :: l'))) end.
  rewrite sforall_app, Hkv. cbn [sforall]. by rewrite IH.
Qed.

Lemma itoa_query n : sforall query_byte (itoa n) = true.
Proof.
  assert (forall s, sforall is_digit s = true -> sforall query_byte s = true) as Hd by (intros s; by apply bytes_impl).
  unfold itoa. destruct (n <? 0); [rewrite sforall_app|]; by rewrite (Hd _ (utoa_digits _)).
Qed.

Lemma match_literal_segment s rest cs r : match_segments rest (omap (literals s) cs) = Some r -> match_segments (s :: rest) cs = Some r.
Proof. intros H. cbn [match_segments]. by rewrite H. Qed.

Ltac compare_strings :=
  match goal with
  | H : String.eqb ?x ?y = _ |- context [String.eqb ?x ?y] => rewrite H
  | |- context [String.eqb ?x ?y] => let v := eval vm_compute in (String.eqb x y) in
      lazymatch v with true => change (String.eqb x y) with true | false => change (String.eqb x y) with false end
  end.

Ltac to_literals := repeat first [apply Forall_nil_2|apply Forall_cons_2; [apply arrives_literal; [done|reflexivity]|]].

(** A request whose path has one argument among literals. *)
Ltac to Hroute m segs args a Ha :=
  let H1 := fresh in let H2 := fresh in let H3 := fresh in destruct Ha as (H1 & H2 & H3);
  apply (Hroute m segs args); [rewrite sapp_nil_r; reflexivity|done| |cbn [map]; by rewrite H2|apply Forall_nil_2|];
  [repeat first [progress to_literals|apply Forall_cons_2; [exact H1|]]|];
  clear Hroute H1 H2; lazymatch goal with |- context [RegisterAdminRoutes true ?x ?y ?z] => destruct x, y, z end;
    do 3 (apply match_literal_segment; lazymatch goal with |- match_segments _ ?c = _ => let c' := eval vm_compute in c in change c with c' end);
    apply String.eqb_neq in H3; cbn -[String.eqb]; repeat (compare_strings; cbn -[String.eqb]); reflexivity.

(** C27. Every command whose arguments are plain is handled by the endpoint it is written for, which
    reads the arguments as they were typed; this holds whatever else is registered. *)
Theorem commands_reach_routes health purge pprof c (Hargs : plain_arguments c) :
  let '(pattern, values, query) := intended c in
  route (map fst (RegisterAdminRoutes true health purge pprof)) (request_line c) = Handled pattern values query.
Proof.
  assert (forall m segs args p vs l, request_line c = (m, String "/" (join "/" segs) +:+ match l with [] => "" | _ => String "?" (join "&" (map (fun kv => kv.1 +:+ String "=" kv.2) l)) end) ->
    segs <> [] -> Forall arrives segs -> map decoded_segment segs = args -> Forall (fun kv => sforall query_byte kv.1 = true /\ sforall query_byte kv.2 = true /\ kv.1 <> "") l ->
    match_segments args (candidates m (map fst (RegisterAdminRoutes true health purge pprof))) = Some (p, vs) ->
    route (map fst (RegisterAdminRoutes true health purge pprof)) (request_line c) = Handled p vs l) as Hroute.
  { intros m segs args p vs l -> Hne Hs <- Hl Hm.
    rewrite (route_plain _ m segs (join "&" (map (fun kv => kv.1 +:+ String "=" kv.2) l))); [by rewrite Hm, ParseQuery_plain|done|done|by apply query_harmless|].
    destruct l as [|kv l]; [by left|by right]. }
  destruct c as [| | | | | |a|a| | |a|a|a|a| |a|a|a| | | | |a|u| |limit since actor action]; cbn [plain_arguments] in Hargs; cbn [intended];
    try (lazymatch goal with |- _ = Handled _ [] [] => clear; destruct health, purge, pprof; vm_compute; reflexivity end).
  - to Hroute "POST" ["admin"; "cp"; "keys"; PathEscape a; "revoke"] ["admin"; "cp"; "keys"; a; "revoke"] a (arrives_escaped a Hargs).
  - to Hroute "POST" ["admin"; "cp"; "tenants"; PathEscape a; "erase"] ["admin"; "cp"; "tenants"; a; "erase"] a (arrives_escaped a Hargs).
  - to Hroute "GET" ["admin"; "cp"; "users"; a] ["admin"; "cp"; "users"; a] a (arrives_plain a Hargs).
  - to Hroute "PUT" ["admin"; "cp"; "users"; a; "enabled"] ["admin"; "cp"; "users"; a; "enabled"] a (arrives_plain a Hargs).
  - to Hroute "DELETE" ["admin"; "cp"; "users"; a] ["admin"; "cp"; "users"; a] a (arrives_plain a Hargs).
  - to Hroute "POST" ["admin"; "cp"; "users"; a; "password"] ["admin"; "cp"; "users"; a; "password"] a (arrives_plain a Hargs).
  - destruct Hargs as [Hargs Hc]. apply not_eq_sym, String.eqb_neq in Hc. to Hroute "GET" ["admin"; "cp"; "providers"; a] ["admin"; "cp"; "providers"; a] a (arrives_plain a Hargs).
  - to Hroute "POST" ["admin"; "cp"; "providers"; a; "test"] ["admin"; "cp"; "providers"; a; "test"] a (arrives_plain a Hargs).
  - to Hroute "POST" ["admin"; "cp"; "providers"; a; "credential"] ["admin"; "cp"; "providers"; a; "credential"] a (arrives_plain a Hargs).
  - to Hroute "DELETE" ["admin"; "cp"; "sessions"; a] ["admin"; "cp"; "sessions"; a] a (arrives_plain a Hargs).
  - destruct (String.eqb_spec u "") as [->|Hu]; [clear; destruct health, purge, pprof; vm_compute; reflexivity|].
    apply (Hroute "DELETE" ["admin"; "cp"; "sessions"] ["admin"; "cp"; "sessions"]); [|done|to_literals|reflexivity|by repeat constructor|clear; destruct health, purge, pprof; vm_compute; reflexivity].
    cbn [request_line]. by destruct (String.eqb_spec u "").
  - destruct Hargs as (H1 & H2 & H3).
    apply (Hroute "GET" ["admin"; "cp"; "audit"] ["admin"; "cp"; "audit"]); [|done|to_literals|reflexivity| |clear; destruct health, purge, pprof; vm_compute; reflexivity].
    + cbn [request_line]. destruct (String.eqb since ""), (String.eqb actor ""), (String.eqb action "");
        cbn [app map join fst snd]; rewrite ?sapp_nil_r, ?sapp_assoc; reflexivity.
    + pose proof (itoa_query limit). destruct (String.eqb since ""), (String.eqb actor ""), (String.eqb action ""); repeat constructor; done.
Qed.

(** ** Arguments that are not plain

    The paths and queries are not escaped but for two commands. *)

Module Demo.
Definition routes_of (l : list remote_command) : list routed := map (fun c => route (map fst (RegisterAdminRoutes true true true false)) (request_line c)) l.

(** The credential of a tenant has a slash in its name, which the endpoint takes only escaped. *)
Example tenant_credential_unreachable : routes_of [CCredentialSet "t1/openai"; CCredentialSet "t1%2Fopenai"] =
  [NotRouted; Handled "POST /admin/cp/providers/{name}/credential" ["t1/openai"] []].
Proof. vm_compute. reflexivity. Qed.

(** A user filter that begins with a hash is a fragment, which stays here: the server revokes
    the sessions of all users. *)
Example hash_revokes_all : routes_of [CSessionRevokeAll "#bob"] = [Handled "DELETE /admin/cp/sessions" [] [("user", "")]] /\
  forall sess, own_sessions sess "" = if String.eqb (as_Role sess) "admin" then "" else as_Username sess.
Proof. split; [vm_compute; reflexivity|]. intros sess. unfold own_sessions. by destruct (String.eqb (as_Role sess) "admin"). Qed.

(** The plus of an offset arrives as a space, and a time that does not parse is ignored. *)
Example offset_is_lost : routes_of [CAudit 50 "2026-01-01T00:00:00+02:00" "" ""] =
  [Handled "GET /admin/cp/audit" [] [("limit", "50"); ("since", "2026-01-01T00:00:00 02:00")]].
Proof. vm_compute. reflexivity. Qed.

(** The name of a user may consist of dots; a provider may have the name of a literal. *)
Example names_that_collide : ValidateUsername ".." = true /\
  routes_of [CUserDelete ".."; CProviderGet "credentials"; CUserGet "%zz"; CSessionRevokeAll "a b"] =
  [Redirected; Handled "GET /admin/cp/providers/credentials" [] []; BadURL; BadRequest].
Proof. split; vm_compute; reflexivity. Qed.

(** A key's id is escaped. *)
Lemma commands_reach_routes_witness :
  plain_arguments (CKeyRevoke "a/b #c") /\
  route (map fst (RegisterAdminRoutes true true true false)) (request_line (CKeyRevoke "a/b #c")) = Handled "POST /admin/cp/keys/{id}/revoke" ["a/b #c"] [].
Proof.
  assert (plain_arguments (CKeyRevoke "a/b #c")) as H by (split_and!; done).
  split; [exact H|exact (commands_reach_routes true true false (CKeyRevoke "a/b #c") H)].
Defined.
End Demo.
