(* ===== verification/CliData.v ===== *)
(** * The command line: exports, labels and provider keys (src/cmd/proofgatectl: export.go, label.go, credentials.go)

    What leaves ClickHouse as lines of JSON, the interactive labelling of cached answers, and
    the credentials that are set without a server.  A query of ClickHouse is the list of the
    rows it gives, each scanned or not, and the error that ended them. *)

From S2P Require Import Prelude GoStrings GoFloat Encoding Config ConfigTools Envelope Credentials Judge Cli CliRemote.

Open Scope string_scope.
Open Scope list_scope.
Open Scope Z_scope.

(** ** Exports *)

(** The columns as they are scanned, and the row that is written. *)
Record usage_columns := mkUsageColumns {
  uc_TS : Time; uc_RequestID : string; uc_TenantID : string; uc_KeyID : string; uc_Route : string; uc_Target : string; uc_Kind : string;
  uc_Stream : Z; uc_Status : string; uc_Cache : string; uc_Attempts : Z; uc_PromptTokens : Z; uc_CompletionTokens : Z; uc_CachedTokens : Z;
  uc_CostMicros : Z; uc_SavedMicros : Z; uc_LatencyMs : Z; uc_TTFTMs : Z; uc_OverheadUs : Z; uc_Estimated : Z; uc_RunID : string }.

Record ExportUsageRow := mkExportUsageRow {
  eu_TS : Time; eu_RequestID : string; eu_TenantID : string; eu_KeyID : string; eu_Route : string; eu_Target : string; eu_Kind : string;
  eu_Stream : bool; eu_Status : string; eu_Cache : string; eu_Attempts : Z; eu_PromptTokens : Z; eu_CompletionTokens : Z;
  eu_CachedTokens : Z; eu_CostUSD : spec_float; eu_SavedUSD : spec_float; eu_LatencyMs : Z; eu_TTFTMs : Z; eu_OverheadUs : Z; eu_UsageEstimated : bool; eu_RunID : string }.

Definition dollars (micros : Z) : spec_float := fdiv (f_of_Z micros) (f_of_Z 1000000).

Definition export_row (c : usage_columns) : ExportUsageRow :=
  mkExportUsageRow (uc_TS c) (uc_RequestID c) (uc_TenantID c) (uc_KeyID c) (uc_Route c) (uc_Target c) (uc_Kind c) (negb (uc_Stream c =? 0)) (uc_Status c) (uc_Cache c) (uc_Attempts c) (uc_PromptTokens c) (uc_CompletionTokens c)
    (uc_CachedTokens c) (dollars (uc_CostMicros c)) (dollars (uc_SavedMicros c)) (uc_LatencyMs c) (uc_TTFTMs c) (uc_OverheadUs c) (negb (uc_Estimated c =? 0)) (uc_RunID c).

(** What was written and the error that ended the command; [encode]: a line, or the error of
    writing it. *)
Fixpoint export_rows (encode : ExportUsageRow -> string + string) (rows : list (string + usage_columns)) : list string * (string + Z) :=
  match rows with
  | [] => ([], inr 0)
  | inl e :: _ => ([], inl ("scan usage row: " +:+ e))
  | inr c :: rows =>
      match encode (export_row c) with
      | inl e => ([], inl ("encode json row: " +:+ e))
      | inr line => let '(lines, r) := export_rows encode rows in (line :: lines, match r with inl e => inl e | inr n => inr (n + 1) end)
      end
  end.

(** [query]: the rows of a query from a time on, and the error that ended them, which is not
    looked at; [create]: the error of creating the file.  The lines, and what is reported. *)
Definition export_usage (parse_date parse_rfc3339 : string -> string + Time) (open : string -> option string)
    (query : Time -> string + (list (string + usage_columns) * option string)) (create : string -> option string) (encode : ExportUsageRow -> string + string)
    (url since out : string) : list string * result :=
  let start := match parse_date since with inr t => inr t | inl _ => parse_rfc3339 since end in
  match start with
  | inl e => ([], die ("parse since date " +:+ go_quote since +:+ ": " +:+ e))
  | inr start =>
      match open url with
      | Some e => ([], die ("connect to clickhouse: " +:+ e))
      | None =>
          match query start with
          | inl e => ([], die ("query usage_events: " +:+ e))
          | inr (rows, _) =>
              let stdout := String.eqb out "-" || String.eqb out "" in
              match (if stdout then None else create out) with
              | Some e => ([], die ("create output file " +:+ out +:+ ": " +:+ e))
              | None =>
                  let '(lines, r) := export_rows encode rows in
                  (lines, match r with inl e => die e | inr n => printed ["Exported " +:+ itoa n +:+ " usage event(s) to " +:+ out] end)
              end
          end
      end
  end.

(** The snapshot: what is written to the file or printed. *)
Definition export_config (redact : Config -> Config) (marshal : Config -> string + string) (write : string -> string -> option string)
    (file out : string) (loaded : string + Config) : result :=
  match loaded with
  | inl e => die ("load config " +:+ file +:+ ": " +:+ e)
  | inr cfg =>
      match marshal (redact cfg) with
      | inl e => die ("marshal yaml: " +:+ e)
      | inr b =>
          if String.eqb out "-" || String.eqb out "" then printed [b]
          else match write out b with
               | Some e => die ("write " +:+ out +:+ ": " +:+ e)
               | None => printed ["Exported redacted config snapshot to " +:+ out]
               end
      end
  end.

(** ** Labels *)

(** The lines that are left to read; after the last one every read gives the empty text. *)
Definition read_line (stdin : list string) : string * list string := match stdin with [] => ("", []) | l :: ls => (l, ls) end.

Inductive verdict := Quit | Skipped | Acceptable | Unacceptable (reason : string).

(** The question is asked until the answer is one of four; [fuel] bounds the questions.  Among
    letters beyond ASCII only the Kelvin sign has a lower case that could make an answer. *)
Fixpoint ask (fuel : nat) (stdin : list string) : option (verdict * list string) :=
  match fuel with
  | O => None
  | S fuel =>
      let '(input, rest) := read_line stdin in
      let input := lower_ascii (trim_space input) in
      if String.eqb input "quit" || String.eqb input "q" then Some (Quit, rest)
      else if String.eqb input "skip" || String.eqb input "s" then Some (Skipped, rest)
      else if String.eqb input "y" || String.eqb input "yes" then Some (Acceptable, rest)
      else if String.eqb input "n" || String.eqb input "no" then let '(reason, rest) := read_line rest in Some (Unacceptable (trim_space reason), rest)
      else ask fuel rest
  end.

(** The table, what becomes of the next insertions, and the clock at them. *)
Record label_desk := mkDesk { dk_table : list (string * Time * string * string * Z * string * string); dk_fates : list fate; dk_now : list Time }.

Definition give_label (raterID : string) (r : ShadowRow) (ok : bool) (reason : string) (d : label_desk) : option string * label_desk :=
  let lbl := mkCacheLabel (sw_ID r) (default 0 (head (dk_now d))) "human" raterID ok reason "" in
  let '(err, t) := InsertLabels (default Commits (head (dk_fates d))) [lbl] (dk_table d) in
  (err, mkDesk t (tail (dk_fates d)) (tail (dk_now d))).

Definition label_message (ok : bool) (err : option string) : string :=
  match err with Some e => "Error inserting label: " +:+ e | None => "Recorded: acceptable=" +:+ if ok then "true" else "false" end.

(** [show]: the record as it is presented.  [None]: the questions do not end within the fuel. *)
Fixpoint review (fuel : nat) (show : ShadowRow -> string) (raterID : string) (records : list ShadowRow) (stdin : list string) (labeled : Z) (d : label_desk) :
    option (list string * label_desk) :=
  match records with
  | [] => Some (["Finished reviewing. Total labeled: " +:+ itoa labeled], d)
  | r :: records =>
      match ask fuel stdin with
      | None => None
      | Some (Quit, _) => Some ([show r; "Done. Labeled " +:+ itoa labeled +:+ " records."], d)
      | Some (Skipped, stdin) =>
          match review fuel show raterID records stdin labeled d with Some (l, d) => Some (show r :: l, d) | None => None end
      | Some (v, stdin) =>
          let '(ok, reason) := match v with Unacceptable reason => (false, reason) | _ => (true, "") end in
          let '(err, d) := give_label raterID r ok reason d in
          let labeled := match err with None => labeled + 1 | Some _ => labeled end in
          match review fuel show raterID records stdin labeled d with Some (l, d) => Some (show r :: label_message ok err :: l, d) | None => None end
      end
  end.

Definition rater (getenv : string -> string) : string :=
  if negb (String.eqb (getenv "USER") "") then getenv "USER" else if negb (String.eqb (getenv "USERNAME") "") then getenv "USERNAME" else "human".

Fixpoint scan_records (rows : list (string + ShadowRow)) : string + list ShadowRow :=
  match rows with
  | [] => inr []
  | inl e :: _ => inl ("scan shadow record: " +:+ e)
  | inr r :: rows => match scan_records rows with inl e => inl e | inr l => inr (r :: l) end
  end.

Definition runLabelCache (fuel : nat) (getenv : string -> string) (open : string -> option string) (query : string -> Z -> string + (list (string + ShadowRow) * option string))
    (show : ShadowRow -> string) (route : string) (limit : Z) (url : string) (stdin : list string) (d : label_desk) : option (result * label_desk) :=
  match open url with
  | Some e => Some (die ("clickhouse connect: " +:+ e), d)
  | None =>
      match query route limit with
      | inl e => Some (die ("query cache_shadow: " +:+ e), d)
      | inr (rows, _) =>
          match scan_records rows with
          | inl e => Some (die e, d)
          | inr [] => Some (printed ["No unlabeled cache shadow records found."], d)
          | inr records => match review fuel show (rater getenv) records stdin 0 d with Some (l, d) => Some (printed l, d) | None => None end
          end
      end
  end.

(** *** Whether the questions end *)

Definition is_answer (line : string) : bool := existsb (String.eqb (lower_ascii (trim_space line))) ["quit"; "q"; "skip"; "s"; "y"; "yes"; "n"; "no"].

Lemma ask_step fuel stdin : ask (S fuel) stdin = if is_answer (read_line stdin).1 then ask 1 stdin else ask fuel (read_line stdin).2.
Proof.
  unfold is_answer. cbn [ask]. destruct (read_line stdin) as [input rest]. cbn [fst snd existsb].
  destruct (String.eqb _ "quit"), (String.eqb _ "q"), (String.eqb _ "skip"), (String.eqb _ "s"), (String.eqb _ "y"), (String.eqb _ "yes"), (String.eqb _ "n"), (String.eqb _ "no"); reflexivity.
Qed.

Lemma ask_one stdin : is_answer (read_line stdin).1 = true -> is_Some (ask 1 stdin).
Proof.
  unfold is_answer. cbn [ask]. destruct (read_line stdin) as [input rest]. cbn [fst existsb]. destruct (read_line rest) as [reason rest'].
  destruct (String.eqb _ "quit"), (String.eqb _ "q"), (String.eqb _ "skip"), (String.eqb _ "s"), (String.eqb _ "y"), (String.eqb _ "yes"), (String.eqb _ "n"), (String.eqb _ "no"); done.
Qed.

(** The question about a record ends exactly when one of the lines that are left to read is an
    answer: at the end of the input it is asked for ever. *)
Theorem question_ends stdin : existsb is_answer stdin = true <-> exists fuel, is_Some (ask fuel stdin).
Proof.
  split.
  - induction stdin as [|l stdin IH]; [done|]. cbn [existsb]. destruct (is_answer l) eqn:El; cbn [orb].
    + intros _. exists 1%nat. by apply ask_one.
    + intros (fuel & Hf)%IH. exists (S fuel). rewrite ask_step. cbn [read_line fst snd]. by rewrite El.
  - intros (fuel & Hf). revert stdin Hf. induction fuel as [|fuel IH]; intros stdin Hf; [by destruct Hf|]. rewrite ask_step in Hf.
    destruct stdin as [|l stdin]; cbn [read_line fst snd] in Hf; [by apply IH in Hf|]. cbn [existsb]. destruct (is_answer l); [done|]. by apply IH.
Qed.

(** A review appends labels to the table and nothing else: at most one for each record, in
    their order, each a person's. *)
Theorem review_labels fuel show raterID records : forall stdin labeled d lines d', review fuel show raterID records stdin labeled d = Some (lines, d') ->
  exists new, dk_table d' = dk_table d ++ map label_row new /\ sublist (map lb_ShadowID new) (map sw_ID records) /\
    Forall (fun l => lb_Rater l = "human" /\ lb_RaterID l = raterID) new.
Proof.
  induction records as [|r records IH]; intros stdin labeled d lines d' Hrun; cbn [review] in Hrun.
  { injection Hrun as <- <-. exists []. split_and!; [by rewrite app_nil_r|constructor|done]. }
  destruct (ask fuel stdin) as [[v rest]|]; [|done].
  assert (forall ok reason lines d', (let '(err, d) := give_label raterID r ok reason d in
            let labeled := match err with None => labeled + 1 | Some _ => labeled end in
            match review fuel show raterID records rest labeled d with Some (l, d) => Some (show r :: label_message ok err :: l, d) | None => None end) = Some (lines, d') ->
          exists new, dk_table d' = dk_table d ++ map label_row new /\ sublist (map lb_ShadowID new) (map sw_ID (r :: records)) /\
            Forall (fun l => lb_Rater l = "human" /\ lb_RaterID l = raterID) new) as Hlabel.
  { clear Hrun. intros ok reason lines' d2. unfold give_label. set (lbl := mkCacheLabel _ _ _ _ _ _ _).
    assert (exists pre, (pre = [] \/ pre = [lbl]) /\ (InsertLabels (default Commits (head (dk_fates d))) [lbl] (dk_table d)).2 = dk_table d ++ map label_row pre) as (pre & Hpre & Ht).
    { destruct (default Commits (head (dk_fates d))); [exists [lbl]|exists []|exists [lbl]]; (split; [naive_solver|]); cbn; by rewrite ?app_nil_r. }
    destruct (InsertLabels _ _ _) as [err t]. cbn [snd] in Ht. subst t. cbv zeta.
    destruct (review _ _ _ records rest _ _) as [[l d3]|] eqn:Er; [|done]. intros [= <- <-]. apply IH in Er as (new & -> & Hs & Hf).
    exists (pre ++ new). cbn [dk_table]. rewrite map_app, app_assoc, map_app. split_and!; [done| |].
    - destruct Hpre as [-> | ->]; cbn; [by apply sublist_cons|by apply sublist_skip].
    - apply Forall_app. split; [|done]. destruct Hpre as [-> | ->]; [done|]. by repeat constructor. }
  destruct v as [| | |reason]; [|destruct (review _ _ _ records rest labeled d) as [[l d2]|] eqn:Er; [|done]| |].
  - injection Hrun as <- <-. exists []. split_and!; [by rewrite app_nil_r|apply sublist_nil_l|done].
  - injection Hrun as <- <-. apply IH in Er as (new & Ht & Hs & Hf). exists new. split_and!; [done|by apply sublist_cons|done].
  - by apply (Hlabel true "" lines d').
  - by apply (Hlabel false reason lines d').
Qed.

(** ** Provider keys *)

Section ProviderKeys.
Context `{AES} {W : Type} (rand_Read : nat -> eff W string)
  (vault_do : string -> string -> list (string * string) -> eff W (Z * string))
  (data_field : string -> string -> outcome string).

(** [loaded]: the configuration; [build]: [secrets.FromConfig] of its section. *)
Definition kekFromConfig (loaded : string + Config) (build : SecretsConfig -> W -> (option (KEK W) * option string) * W) (w : W) : (string + option (KEK W)) * W :=
  match loaded with
  | inl e => (inl ("config: " +:+ e), w)
  | inr cfg => match build (Secrets cfg) w with ((_, Some e), w) => (inl ("kek: " +:+ e), w) | ((k, None), w) => (inr k, w) end
  end.

(** [line]: the first line of the input, or the error of reading it.  A nil key panics. *)
Definition provider_key_set (provider actor : string) (line : string + string) (loaded : string + Config)
    (build : SecretsConfig -> W -> (option (KEK W) * option string) * W) (f : fate) (now : Time) (t : table) : eff W (result * table) := fun w =>
  if String.eqb provider "" then (Done (die "--provider is required", t), w)
  else match line with
       | inl e => (Done (die ("read key: " +:+ e), t), w)
       | inr line =>
           let key := trim_space line in
           if String.eqb key "" then (Done (die "empty key", t), w)
           else match kekFromConfig loaded build w with
                | (inl e, w) => (Done (die e, t), w)
                | (inr None, w) => (Panicked, w)
                | (inr (Some k), w) =>
                    match Seal rand_Read vault_do data_field k key (AAD provider) w with
                    | (Failed e, w) => (Done (die ("seal: " +:+ e), t), w)
                    | (Panicked, w) => (Panicked, w)
                    | (Done sealed, w) =>
                        match PutCredential f now provider sealed actor t with
                        | (Failed e, t) => (Done (die ("store: " +:+ e), t), w)
                        | (Panicked, _) => (Panicked, w)
                        | (Done v, t) =>
                            match ID k with
                            | None => (Panicked, w)
                            | Some id => (Done (printed ["stored " +:+ provider +:+ " key version " +:+ itoa v +:+ " (sealed with " +:+ id +:+ ")"], t), w)
                            end
                        end
                    end
                end
       end.
End ProviderKeys.

Definition credential_line (date : Time -> string) (kv : (string * Z) * credential_row) : string :=
  let tab := chr 9 in
  kv.1.1 +:+ tab +:+ "v" +:+ itoa kv.1.2 +:+ tab +:+ KEKID (cr_sealed kv.2) +:+ tab +:+ cr_created_by kv.2 +:+ tab +:+ date (cr_created_at kv.2) +:+ tab +:+
    "active=" +:+ if cr_active kv.2 then "true" else "false".

(** When the command says that the key is stored, it is the active credential of the provider
    under a new version, it opens to the line that was read without the space around it, and
    the credentials of the other providers are as before. *)
Theorem provider_key_stored `{!AES} `{!AESLaws} {W} (rand_Read : nat -> eff W string) vault_do data_field
  (Hrand : forall n (w : W) s w', rand_Read n w = (Done s, w') -> String.length s = n)
  reliable provider actor line loaded build f now t (w w' : W) r t' (Hone : one_active t)
  (Hlaw : forall c w k e w', build c w = ((Some k, e), w') -> lawful rand_Read vault_do data_field reliable k)
  (Hrun : provider_key_set rand_Read vault_do data_field provider actor line loaded build f now t w = (Done (r, t'), w')) (Hok : rs_Died r = None) :
  exists l key sealed v k, line = inr l /\ key = trim_space l /\ key <> "" /\ ActiveCredential true provider t' = Done (sealed, v) /\ one_active t' /\
    (forall v' row, t !! (provider, v') = Some row -> v' < v) /\
    (forall kek' w2, offers kek' (KEKID sealed) k -> reads reliable (Open vault_do data_field kek' sealed (AAD provider) w2).1 key) /\
    (forall q, q <> provider -> ActiveCredential true q t' = ActiveCredential true q t).
Proof.
  unfold provider_key_set in Hrun. destruct (String.eqb provider ""); [by injection Hrun as <- <- <-|]. destruct line as [e|l]; [by injection Hrun as <- <- <-|].
  destruct (String.eqb_spec (trim_space l) "") as [_|Hkey]; [by injection Hrun as <- <- <-|]. destruct (kekFromConfig loaded build w) as [[e|[k|]] w0] eqn:Ek; [by injection Hrun as <- <- <-| |done].
  destruct (Seal _ _ _ _ _ _ w0) as [[sealed|e|] w1] eqn:Es; [|by injection Hrun as <- <- <-|done].
  destruct (PutCredential f now provider sealed actor t) as [[v|e|] t1] eqn:Ep; [|by injection Hrun as <- <- <-|done].
  destruct (ID k) as [id|]; [|done]. injection Hrun as <- <- <-.
  destruct (put_then_active _ _ _ _ _ _ _ _ Hone Ep) as (P1 & P2 & P3 & P4).
  assert (lawful rand_Read vault_do data_field reliable k) as Hk.
  { unfold kekFromConfig in Ek. destruct loaded as [e|cfg]; [done|]. destruct (build (Secrets cfg) w) as [[k0 [e|]] w2] eqn:Eb; [done|].
    injection Ek as -> ->. by eapply Hlaw. }
  exists l, (trim_space l), sealed, v, k. split_and!; try done.
  - intros v' row Hl. by apply (P2 v' row).
  - intros kek' w2 Ho. apply (open_sealed rand_Read vault_do data_field reliable kek' k); [|done|done].
    exact (seal_sealed rand_Read vault_do data_field Hrand _ _ _ _ _ _ Es).
Qed.

(** ** Examples *)

(** At the end of the input the question is repeated without end. *)
Example end_of_input_asks_forever : (forall fuel, ask fuel [] = None) /\ ask 2 ["maybe"; "YES "] = Some (Acceptable, []) /\ ask 1 ["n"; " wrong "; "y"] = Some (Unacceptable "wrong", ["y"]).
Proof. split; [|done]. induction fuel as [|fuel IH]; [done|]. rewrite ask_step. exact IH. Qed.

Definition usage1 : usage_columns := mkUsageColumns 5 "r1" "t1" "k1" "chat" "openai/gpt" "chat" 1 "ok" "hit" 1 10 20 0 1500000 0 12 5 300 0 "".

(** A query that breaks off after its first row is exported as complete. *)
Example broken_export_is_complete :
  export_usage (fun _ => inr 0) (fun _ => inr 0) (fun _ => None) (fun _ => inr ([inr usage1], Some "connection reset")) (fun _ => None)
    (fun r => if feqb (eu_CostUSD r) (f_lit 3 2) then inr (eu_RequestID r) else inl "cost") "ch" "2026-01-01" "usage.jsonl" =
  (["r1"], printed ["Exported 1 usage event(s) to usage.jsonl"]).
Proof. vm_compute. reflexivity. Qed.
