(* ===== verification/Scrubber.v ===== *)
(** * Redaction of log records (src/internal/telemetry/scrub.go)

    Registered secrets and what the detectors of [Detect] take for a secret are replaced in
    the message and the attributes of a record before the handler behind sees them.  slog
    itself (levels, groups, the output) is outside; a slice out of range panics. *)

From S2P Require Import Prelude GoStrings GoSort Regex Detect.

Open Scope string_scope.
Open Scope list_scope.
Open Scope Z_scope.

(** ** Texts *)

Definition mark : string := "[REDACTED]".
Definition secret_mark : string := "[REDACTED:SECRET]".

(** [v[:start] + secret_mark + v[end:]] *)
Definition cut_out (v : string) (start end_ : nat) : option string :=
  if Nat.leb start (String.length v) && Nat.leb end_ (String.length v) then Some (stake start v +:+ secret_mark +:+ sdrop end_ v) else None.

Definition is_secret (s : Span) : bool := match sp_Kind s with Secret => true | PII => false end.

(** From the last span to the first. *)
Fixpoint cut_spans (spans : list Span) (v : string) : option string :=
  match spans with
  | [] => Some v
  | s :: rest => match cut_spans rest v with
                 | None => None
                 | Some v => if is_secret s then cut_out v (sp_Start s) (sp_End s) else Some v
                 end
  end.

(** ** Attributes *)

(** [VAny]: an error and a Stringer with their texts, and any other value; [VOther]: a number,
    a time and the like. *)
#[local] Unset Elimination Schemes.
Inductive value :=
| VString (s : string) | VGroup (attrs : list (string * value)) | VError (text : string) | VStringer (text : string) | VAny (printed : string) | VOther (printed : string).
#[local] Set Elimination Schemes.

Lemma value_ind (P : value -> Prop)
  (Hs : forall s, P (VString s)) (Hg : forall l, Forall (fun kv => P kv.2) l -> P (VGroup l)) (He : forall t, P (VError t)) (Ht : forall t, P (VStringer t))
  (Ha : forall t, P (VAny t)) (Ho : forall t, P (VOther t)) : forall v, P v.
Proof.
  fix IH 1. intros [s|l|t|t|t|t]; [apply Hs|apply Hg|apply He|apply Ht|apply Ha|apply Ho].
  induction l as [|[k v] l IHl]; [constructor|]. constructor; [apply IH|exact IHl].
Qed.

Definition empty_group (v : value) : bool := match v with VGroup [] => true | _ => false end.

Fixpoint traverse {A B : Type} (f : A -> option B) (l : list A) : option (list B) :=
  match l with [] => Some [] | a :: l => match f a, traverse f l with Some b, Some l => Some (b :: l) | _, _ => None end end.

(** [slog.Group] leaves out empty groups. *)
Definition group_of (l : list (string * value)) : value := VGroup (List.filter (fun kv => negb (empty_group kv.2)) l).

Section Scrub.
Context (detect : string -> list Span).

(** [None]: a panic. *)
Definition scrub (secrets : list string) (v : string) : option string :=
  let v := for_range secrets v (fun v sec => replace_all v sec mark) in cut_spans (detect v) v.

Fixpoint scrub_value (secrets : list string) (v : value) : option value :=
  match v with
  | VString s | VError s | VStringer s => VString <$> scrub secrets s
  | VGroup l =>
      group_of <$> (fix go l := match l with
                                | [] => Some []
                                | (k, v) :: l => match scrub_value secrets v, go l with Some v, Some l => Some ((k, v) :: l) | _, _ => None end
                                end) l
  | _ => Some v
  end.

Definition attr (secrets : list string) (a : string * value) : option (string * value) := (fun v => (a.1, v)) <$> scrub_value secrets a.2.

(** ** Records and handlers *)

Record log_record := mkLogRecord { lr_Message : string; lr_Attrs : list (string * value) }.

(** What the inner handler gets; an empty group is not added. *)
Definition Handle (secrets : list string) (r : log_record) : option log_record :=
  match scrub secrets (lr_Message r), traverse (attr secrets) (lr_Attrs r) with
  | Some m, Some l => Some (mkLogRecord m (List.filter (fun kv => negb (empty_group kv.2)) l))
  | _, _ => None
  end.

(** A handler with attributes bound to it: what the inner one was given. *)
Definition WithAttrs (secrets : list string) (bound attrs : list (string * value)) : option (list (string * value)) :=
  (fun l => bound ++ l) <$> traverse (attr secrets) attrs.
End Scrub.

(** ** Registration

    The list of secrets behind a pointer that is compared and swapped; [rg_version] is the
    pointer's identity. *)

Record registry := mkRegistry { rg_version : nat; rg_secrets : list string }.

Definition NewScrubber : registry := mkRegistry 0 [].

(** A call of [Register] between two of its steps: about to load, with what was loaded, or done. *)
Inductive registering := Loading (secret : string) | Swapping (secret : string) (old : registry) | Registered (secret : string).

Definition register_step (c : registering) (r : registry) : registering * registry :=
  match c with
  | Loading s =>
      if slen s <? 8 then (Registered s, r)
      else if existsb (String.eqb s) (rg_secrets r) then (Registered s, r) else (Swapping s r, r)
  | Swapping s old =>
      if Nat.eqb (rg_version old) (rg_version r) then (Registered s, mkRegistry (S (rg_version r)) (rg_secrets old ++ [s])) else (Loading s, r)
  | Registered s => (c, r)
  end.

(** Any number of calls, interleaved. *)
Inductive registry_step : list registering * registry -> list registering * registry -> Prop :=
| rs_call s cs r : registry_step (cs, r) (cs ++ [Loading s], r)
| rs_step l1 c l2 r c' r' : register_step c r = (c', r') -> registry_step (l1 ++ c :: l2, r) (l1 ++ c' :: l2, r').

(** *** What is kept *)

Definition registry_ok (st : list registering * registry) : Prop :=
  NoDup (rg_secrets st.2) /\ Forall (fun s => 8 <= slen s) (rg_secrets st.2) /\
  Forall (fun c => match c with
                   | Loading _ => True
                   | Swapping s old => 8 <= slen s /\ s ∉ rg_secrets old /\ (rg_version old <= rg_version st.2)%nat /\ (rg_version old = rg_version st.2 -> old = st.2)
                   | Registered s => slen s < 8 \/ s ∈ rg_secrets st.2
                   end) st.1.

(** The secrets that are there stay there. *)
Lemma register_step_keeps c r : rg_secrets r = rg_secrets (register_step c r).2 \/
  exists s old, c = Swapping s old /\ rg_version old = rg_version r /\ (register_step c r).2 = mkRegistry (S (rg_version r)) (rg_secrets old ++ [s]).
Proof.
  destruct c as [s|s old|s]; cbn; [by left; repeat case_match| |by left]. destruct (Nat.eqb_spec (rg_version old) (rg_version r)); [right; eauto 6|by left].
Qed.

(** However calls of [Register] interleave, each one that has returned has its secret, unless
    it is shorter than eight bytes, in the list, which holds none twice; and the list only grows. *)
Theorem registrations_kept st : rtc registry_step ([], NewScrubber) st ->
  registry_ok st /\ forall st', rtc registry_step st st' -> rg_secrets st.2 ⊆ rg_secrets st'.2.
Proof.
  assert (forall st st', registry_step st st' -> registry_ok st -> registry_ok st' /\ rg_secrets st.2 ⊆ rg_secrets st'.2) as Hstep.
  { intros st1 st2 Hs (Hnd & Hlen & Hcs). destruct Hs as [s cs r|l1 c l2 r c' r' E]; cbn in *.
    { split; [|done]. split_and!; [done..|]. apply Forall_app. by repeat constructor. }
    apply Forall_app in Hcs as [H1 [Hc H2]%Forall_cons].
    destruct c as [s|s old|s]; cbn in E.
    - assert (r' = r) as -> by (repeat case_match; congruence). split; [|done]. split_and!; [done..|]. apply Forall_app. split; [done|]. constructor; [|done].
      destruct (Z.ltb_spec (slen s) 8); [injection E as <-; by left|]. destruct (existsb (String.eqb s) (rg_secrets r)) eqn:Ex; injection E as <-.
      + right. apply existsb_exists in Ex as (x & Hx & ->%String.eqb_eq). by apply list_elem_of_In.
      + split_and!; [lia| |cbn; lia|done]. intros Hin. apply list_elem_of_In in Hin. assert (existsb (String.eqb s) (rg_secrets r) = true); [|congruence].
        apply existsb_exists. exists s. split; [done|]. apply String.eqb_refl.
    - destruct Hc as (Hl & Hn & Hv & He). destruct (Nat.eqb_spec (rg_version old) (rg_version r)) as [Ev|Ev]; injection E as <- <-.
      + rewrite (He Ev) in *. cbn. split; [|set_solver]. split_and!.
        * cbn. apply NoDup_app. split_and!; [done| |apply NoDup_singleton]. intros x Hx ->%list_elem_of_singleton. done.
        * apply Forall_app. split; [done|]. by repeat constructor.
        * apply Forall_app. split; [|constructor].
          1,3: first [refine (Forall_impl _ _ _ H1 _)|refine (Forall_impl _ _ _ H2 _)]; intros [t|t o|t]; cbn; [done| |set_solver]; intros (? & ? & ? & ?); split_and!; [done..|lia|lia].
          right. cbn. set_solver.
      + split; [|done]. split_and!; [done..|]. apply Forall_app. split; [done|]. by constructor.
    - injection E as <- <-. split; [|done]. split_and!; [done..|]. apply Forall_app. split; [done|]. by constructor. }
  intros Hr. split.
  - assert (registry_ok ([], NewScrubber)) as Hinit by (split_and!; cbn; constructor). revert Hinit.
    induction Hr as [|? ? ? Hs _ IH]; [done|]. intros Hok. apply IH. by eapply Hstep.
  - intros st' Hr'. assert (registry_ok st) as Hok.
    { assert (registry_ok ([], NewScrubber)) as Hinit by (split_and!; cbn; constructor). revert Hinit.
      clear Hr'. induction Hr as [|? ? ? Hs _ IH]; [done|]. intros Hok. apply IH. by eapply Hstep. }
    clear Hr. induction Hr' as [|x y z Hs _ IH]; [done|]. destruct (Hstep _ _ Hs Hok) as [Hy Hxy]. etrans; [exact Hxy|]. by apply IH.
Qed.

(** ** What is hidden *)

(** A secret that the marks cannot be mistaken for. *)
Definition hideable (sec : string) : Prop :=
  sec <> "" /\ scontains_byte "[" sec = false /\ scontains_byte "]" sec = false /\ contains "REDACTED:SECRET" sec = false.

Lemma hideable_mark sec x y : hideable sec -> contains (x +:+ mark +:+ y) sec = contains x sec || contains y sec.
Proof.
  intros (Hne & Ho & Hc & Hm). change (mark +:+ y) with (String "[" ("REDACTED" +:+ String "]" y)). rewrite !contains_separated by done.
  change "REDACTED:SECRET" with ("REDACTED" +:+ ":SECRET") in Hm. by destruct (contains_app_false _ _ _ Hm) as [-> _].
Qed.

Lemma hideable_secret_mark sec x y : hideable sec -> contains (x +:+ secret_mark +:+ y) sec = contains x sec || contains y sec.
Proof.
  intros (Hne & Ho & Hc & Hm). change (secret_mark +:+ y) with (String "[" ("REDACTED:SECRET" +:+ String "]" y)). rewrite !contains_separated by done. by rewrite Hm.
Qed.

(** The text up to the first occurrence, which is replaced. *)
Lemma replace_run old new s : exists p s', s = p +:+ s' /\ contains p old = false /\
  (s' = "" /\ replace_from old new 0 s = p \/
   exists c s'', s' = String c s'' /\ replace_from old new 0 s = p +:+ new +:+ replace_from old new (String.length old - 1) s'') \/ old = "".
Proof.
  destruct (string_dec old "") as [->|Hne]; [exists "", s; by right|].
  assert (exists p s', s = p +:+ s' /\ (forall a b, p = a +:+ old +:+ b -> False) /\
    (s' = "" /\ replace_from old new 0 s = p \/
     exists c s'', s' = String c s'' /\ replace_from old new 0 s = p +:+ new +:+ replace_from old new (String.length old - 1) s'')) as (p & s' & -> & Hp & H).
  { induction s as [|c s IH].
    - exists "", "". split_and!; [done| |by left]. intros [|? ?] b E; [by destruct old|done].
    - cbn [replace_from]. destruct (has_prefix old (String c s)) eqn:Ep.
      + exists "", (String c s). split_and!; [done| |right; by exists c, s]. intros [|? ?] b E; [by destruct old|done].
      + destruct IH as (p & s' & -> & Hp & H). exists (String c p), s'. split_and!; [done| |].
        * intros [|d a] b E; [|injection E as -> E; by eapply Hp]. change ("" +:+ old +:+ b) with (old +:+ b) in E.
          assert (has_prefix old (String c (p +:+ s')) = true); [|congruence]. change (String c (p +:+ s')) with (String c p +:+ s'). rewrite E, sapp_assoc. apply has_prefix_refl.
        * destruct H as [[-> ->]|(d & s'' & -> & ->)]; [by left|right]. by exists d, s''. }
  exists p, s'. left. split_and!; [done| |exact H]. apply not_true_is_false. intros (a & b & E)%contains_iff. by eapply Hp.
Qed.

(** After a replacement a secret occurs only where it had occurred, and the replaced one nowhere. *)
Lemma replace_hides old sec : old <> "" -> hideable sec -> forall n s skip, (String.length s < n)%nat -> old = sec \/ contains s sec = false ->
  contains (replace_from old mark skip s) sec = false.
Proof.
  intros Hold Hsec. pose proof Hsec as (Hne & _). induction n as [|n IH]; intros s skip Hn H; [lia|].
  assert (contains "" sec = false) as Hempty by (by destruct sec).
  destruct skip as [|k].
  - destruct (replace_run old mark s) as (p & s' & [(-> & Hp & Hr)|?]); [|done].
    assert (contains p sec = false) as Hps by (destruct H as [->|H]; [done|by apply contains_app_false in H as [? _]]).
    destruct Hr as [[-> ->]|(c & s'' & -> & ->)]; [done|]. rewrite hideable_mark, Hps by done. cbn [orb]. apply IH.
    + rewrite slength_app in Hn. cbn in Hn. lia.
    + destruct H as [?|H]; [by left|right]. apply contains_app_false in H as [_ H]. by apply (contains_app_false (String c "") s'') in H as [_ ?].
  - destruct s as [|c s]; [done|]. cbn [replace_from]. apply IH; [cbn in Hn; lia|].
    destruct H as [?|H]; [by left|right]. by apply (contains_app_false (String c "") s) in H as [_ ?].
Qed.

Lemma replace_all_hides secrets sec : hideable sec -> Forall (fun s => s <> "") secrets -> forall v, sec ∈ secrets \/ contains v sec = false ->
  contains (for_range secrets v (fun v s => replace_all v s mark)) sec = false.
Proof.
  intros Hsec. induction 1 as [|s l Hs _ IH]; intros v H; cbn [for_range]; [by destruct H as [?%elem_of_nil|?]|]. apply IH.
  assert (s = sec \/ contains v sec = false -> contains (replace_all v s mark) sec = false) as Hr by (intros ?; unfold replace_all; by apply (replace_hides s sec Hs Hsec (S (String.length v)) v 0 (Nat.lt_succ_diag_r _))).
  destruct H as [[E|?]%elem_of_cons|H]; [right; apply Hr; by left|by left|right; apply Hr; by right].
Qed.

Lemma cut_spans_hides sec spans : forall v w, hideable sec -> contains v sec = false -> cut_spans spans v = Some w -> contains w sec = false.
Proof.
  induction spans as [|s spans IH]; intros v w Hsec Hv; cbn [cut_spans]; [by intros [= <-]|]. destruct (cut_spans spans v) as [u|] eqn:E; [|done].
  specialize (IH v u Hsec Hv E). destruct (is_secret s); [|by intros [= <-]]. unfold cut_out. destruct (_ && _); [|done]. intros [= <-].
  rewrite hideable_secret_mark by done. apply orb_false_iff. split.
  - rewrite <- (stake_sdrop (sp_Start s) u) in IH. by apply contains_app_false in IH as [? _].
  - rewrite <- (stake_sdrop (sp_End s) u) in IH. by apply contains_app_false in IH as [_ ?].
Qed.

Lemma scrub_hides detect secrets sec v w : hideable sec -> sec ∈ secrets -> Forall (fun s => s <> "") secrets -> scrub detect secrets v = Some w -> contains w sec = false.
Proof. intros Hsec Hin Hl. unfold scrub. apply cut_spans_hides; [done|]. apply replace_all_hides; auto. Qed.

(** The texts that are printed of a value as texts, in groups at any depth. *)
Fixpoint texts_of (v : value) : list string :=
  match v with
  | VString s => [s]
  | VGroup l => (fix go l := match l with [] => [] | (_, v) :: l => texts_of v ++ go l end) l
  | _ => []
  end.
Definition group_texts (l : list (string * value)) : list string := flat_map (fun kv => texts_of kv.2) l.

(** No text of a value is left that was not looked at: errors and Stringers have become texts. *)
Fixpoint all_texts (v : value) : bool :=
  match v with
  | VError _ | VStringer _ => false
  | VGroup l => (fix go l := match l with [] => true | (_, v) :: l => all_texts v && go l end) l
  | _ => true
  end.

Lemma texts_of_group l : texts_of (VGroup l) = group_texts l.
Proof. unfold group_texts. cbn [texts_of]. induction l as [|[k v] l IH]; [done|]. cbn [flat_map snd]. by rewrite <- IH. Qed.

Lemma all_texts_group l : all_texts (VGroup l) = forallb (fun kv => all_texts kv.2) l.
Proof. cbn [all_texts]. induction l as [|[k v] l IH]; [done|]. cbn [forallb snd]. by rewrite <- IH. Qed.

Lemma scrub_value_group detect secrets l : scrub_value detect secrets (VGroup l) = group_of <$> traverse (attr detect secrets) l.
Proof.
  cbn [scrub_value]. f_equal. induction l as [|[k v] l IH]; [done|]. cbn [traverse]. unfold attr at 1. cbn [fst snd]. rewrite <- IH.
  by destruct (scrub_value detect secrets v).
Qed.

(** An attribute whose texts do not show a secret. *)
Definition hides (sec : string) (v : value) : Prop := all_texts v = true /\ Forall (fun t => contains t sec = false) (texts_of v).

Lemma hides_group sec l : hides sec (VGroup l) <-> Forall (fun kv => hides sec kv.2) l.
Proof.
  unfold hides. rewrite all_texts_group, texts_of_group. unfold group_texts. induction l as [|[k v] l IH]; [by cbn|].
  cbn [forallb flat_map snd]. rewrite andb_true_iff, Forall_app, Forall_cons, <- IH. cbn [snd]. tauto.
Qed.

Lemma hides_filter sec (p : string * value -> bool) l : Forall (fun kv => hides sec kv.2) l -> Forall (fun kv => hides sec kv.2) (List.filter p l).
Proof. induction 1 as [|x l Hx _ IH]; [constructor|]. cbn. destruct (p x); [by constructor|done]. Qed.

Section Hidden.
Context (detect : string -> list Span) (secrets : list string) (sec : string) (Hsec : hideable sec) (Hin : sec ∈ secrets) (Hne : Forall (fun s => s <> "") secrets).

Lemma traverse_hides l : forall l', Forall (fun kv => forall w, scrub_value detect secrets kv.2 = Some w -> hides sec w) l ->
  traverse (attr detect secrets) l = Some l' -> Forall (fun kv => hides sec kv.2) l'.
Proof.
  induction l as [|[k v] l IH]; intros l' Hl; cbn [traverse]; [by intros [= <-]|]. apply Forall_cons in Hl as [Hv Hl]. unfold attr at 1. cbn [fst snd] in *.
  destruct (scrub_value detect secrets v) as [w|]; [|done]. cbn. destruct (traverse _ l) as [l2|]; [|done]. intros [= <-]. constructor; [by apply Hv|by apply IH].
Qed.

Lemma scrub_value_hides v : forall w, scrub_value detect secrets v = Some w -> hides sec w.
Proof.
  assert (forall s w, VString <$> scrub detect secrets s = Some w -> hides sec w) as Htext.
  { intros s w. destruct (scrub detect secrets s) as [t|] eqn:E; [|done]. intros [= <-]. split; [done|]. cbn. constructor; [by eapply scrub_hides|constructor]. }
  induction v as [s|l IH|t|t|t|t] using value_ind; intros w; [apply Htext| |apply Htext|apply Htext|by intros [= <-]..].
  rewrite scrub_value_group. destruct (traverse _ l) as [l'|] eqn:E; [|done]. intros [= <-]. apply hides_group, hides_filter. by eapply traverse_hides.
Qed.
End Hidden.

(** A record that reaches the handler behind shows no registered secret: not in its message,
    and not in a text, an error or a Stringer of an attribute, in groups at any depth; provided
    the secret cannot be read in the marks themselves. *)
Theorem handled_record_hides_secrets detect secrets sec r r'
  (Hsec : hideable sec) (Hin : sec ∈ secrets) (Hne : Forall (fun s => s <> "") secrets) (Hrun : Handle detect secrets r = Some r') :
  contains (lr_Message r') sec = false /\ Forall (fun kv => hides sec kv.2) (lr_Attrs r').
Proof.
  unfold Handle in Hrun. destruct (scrub detect secrets (lr_Message r)) as [m|] eqn:Em; [|done]. destruct (traverse _ _) as [l|] eqn:El; [|done]. injection Hrun as <-.
  split; [by eapply scrub_hides|]. apply hides_filter. eapply traverse_hides; [|exact El]. apply Forall_forall. intros kv _ w. by apply scrub_value_hides.
Qed.

(** *** When it does not panic *)

(** The secret spans from [lo] on follow each other within [n] bytes. *)
Fixpoint apart (lo : nat) (spans : list Span) (n : nat) : Prop :=
  match spans with
  | [] => True
  | s :: l => if is_secret s then (lo <= sp_Start s /\ sp_Start s <= sp_End s /\ sp_End s <= n)%nat /\ apart (sp_End s) l n else apart lo l n
  end.

Lemma cut_spans_total spans : forall lo v, apart lo spans (String.length v) -> (lo <= String.length v)%nat -> exists w, cut_spans spans v = Some w /\ (lo <= String.length w)%nat.
Proof.
  induction spans as [|s l IH]; intros lo v Ha Hlo; [by exists v|]. cbn [apart cut_spans] in *. destruct (is_secret s); [|destruct (IH lo v Ha Hlo) as (w & -> & Hw); by exists w].
  destruct Ha as [(H1 & H2 & H3) Ha]. destruct (IH (sp_End s) v Ha ltac:(lia)) as (w & -> & Hw). unfold cut_out.
  destruct (Nat.leb_spec (sp_Start s) (String.length w)); [|lia]. destruct (Nat.leb_spec (sp_End s) (String.length w)); [|lia].
  eexists. split; [done|]. rewrite slength_app, slength_stake. lia.
Qed.

(** A text whose secrets do not overlap is scrubbed; overlapping ones may panic (below). *)
Theorem disjoint_secrets_scrubbed detect secrets v :
  let v' := for_range secrets v (fun v s => replace_all v s mark) in apart 0 (detect v') (String.length v') -> is_Some (scrub detect secrets v).
Proof. intros v' Ha. unfold scrub. fold v'. destruct (cut_spans_total _ 0 v' Ha ltac:(lia)) as (w & -> & _). by eexists. Qed.

(** ** Examples *)

Module Demo.
Definition demo_detect : string -> list Span := Detect (fun _ => false) demo_sort (stable_sort span_less).

(** One pattern matches inside the match of another: the later one is replaced first, by less,
    and the end of the earlier one is then past the end of the text. *)
Example overlapping_secrets_panic :
  scrub demo_detect [] "GET /sk-aaaaaaaaaaaaaaaaaaaa-pg_live_bbbbbbbbbbbbbbbbbbbbbbbb" = None /\
  scrub demo_detect ["topsecret"] "key sk-aaaaaaaaaaaaaaaaaaaa of topsecret" = Some "key [REDACTED:SECRET] of [REDACTED]".
Proof. vm_compute. by split. Qed.

(** Attributes bound before a secret is registered show it afterwards, and values that are
    neither texts nor errors are not looked at. *)
Example shown_after_all :
  WithAttrs demo_detect [] [] [("upstream", VString "topsecret1")] = Some [("upstream", VString "topsecret1")] /\
  attr demo_detect ["topsecret1"] ("headers", VAny "map[Authorization:[topsecret1]]") = Some ("headers", VAny "map[Authorization:[topsecret1]]").
Proof. vm_compute. by split. Qed.

Lemma handled_record_hides_secrets_witness :
  exists r', Handle demo_detect ["topsecret1"] (mkLogRecord "no topsecret1" [("g", VGroup [("err", VError "denied: topsecret1")])]) = Some r' /\
    contains (lr_Message r') "topsecret1" = false /\ Forall (fun kv => hides "topsecret1" kv.2) (lr_Attrs r').
Proof.
  assert (exists r', Handle demo_detect ["topsecret1"] (mkLogRecord "no topsecret1" [("g", VGroup [("err", VError "denied: topsecret1")])]) = Some r') as [r' H]
    by (eexists; vm_compute; reflexivity).
  exists r'. split; [exact H|]. apply (handled_record_hides_secrets demo_detect ["topsecret1"] "topsecret1" (mkLogRecord "no topsecret1" [("g", VGroup [("err", VError "denied: topsecret1")])]) r'); [|by left|by repeat constructor|exact H].
  split_and!; [done|reflexivity..].
Defined.
End Demo.
