(* ===== verification/SemanticIndex.v ===== *)
(** * The vector index of the semantic cache (src/internal/cache/semantic.go, embedder.go)

    Entries are hashes in Redis that RediSearch indexes by dimension; a query filters by
    tenant and scope before it looks for the nearest vector.  The search itself, the JSON
    form of an entry and random identifiers are parameters; how RediSearch reads a tag filter
    and a tag field is its documented behaviour.  Embeddings (their components are the bits of
    a float32) are kept in a bounded list in front of the provider. *)

From S2P Require Import Prelude GoStrings Encoding GoFloat GoFloatInt Breaker Config Api CacheKeys Execute Cache.

Open Scope string_scope.
Open Scope list_scope.
Open Scope Z_scope.

(** ** Names and encodings *)

Definition indexName (dim : Z) : string := "idx:sc:" +:+ itoa dim.
Definition prefix (dim : Z) : string := "sc:" +:+ itoa dim +:+ ":".

(** [binary.LittleEndian.PutUint32] *)
Definition put_uint32 (f : Z) : string := chr (f mod 256) +:+ chr (f / 256 mod 256) +:+ chr (f / 65536 mod 256) +:+ chr (f / 16777216 mod 256).

Fixpoint floatBytes (v : list Z) : string := match v with [] => "" | f :: v => put_uint32 f +:+ floatBytes v end.

Definition tag_punctuation : string := ",.<>{}[]" +:+ dquote +:+ "':;!@#$%^&*()-+=~| /\".
Definition special (c : ascii) : bool := scontains_byte c tag_punctuation.

(** By runes: bytes that are not UTF-8 become U+FFFD. *)
Fixpoint escape_from (fuel : nat) (s : string) : string :=
  match fuel, s with
  | S f, String c _ =>
      let '(r, n) := decode_rune s in
      (if special c then "\" else "") +:+ (if r =? RuneError then chr 239 +:+ chr 191 +:+ chr 189 else stake n s) +:+ escape_from f (sdrop n s)
  | _, _ => ""
  end.

Definition escapeTag (s : string) : string := escape_from (String.length s) s.

Definition tag_query (tenant scope : string) : string := "(@tenant:{" +:+ tenant +:+ "} @scope:{" +:+ scope +:+ "})=>[KNN 1 @emb $vec AS dist]".

Example escapeTag_ex : escapeTag "6f1e-a}b" = "6f1e\-a\}b" /\ escapeTag (chr 255 +:+ "é") = chr 239 +:+ chr 191 +:+ chr 189 +:+ "é".
Proof. by vm_compute. Qed.

(** ** RediSearch's tags *)

(** The value that a filter's text stands for; punctuation has to be escaped. *)
Fixpoint unescape (w : string) : option string :=
  match w with
  | EmptyString => Some ""
  | String c w' =>
      if Ascii.eqb c "\" then match w' with String d w'' => String d <$> unescape w'' | EmptyString => None end
      else if special c then None else String c <$> unescape w'
  end.

(** Tags are compared without case and surrounding space; a field is split at commas. *)
Definition tag_norm (s : string) : string := smap lower_byte (trim_space s).
Definition tag_has (v field : string) : Prop := tag_norm v ∈ map tag_norm (split_byte "," field).

(** ** The store *)

Record SemDoc := mkSemDoc {
  sd_tenant : string; sd_scope : string; sd_route : string; sd_tags : string; sd_created : Z; sd_query : string; sd_entry : string; sd_emb : string
}.

(** Redis, with the identifiers that are drawn next. *)
Record SemRedis := mkSemRedis {
  sx_docs : gmap string (SemDoc * option Time);
  sx_tags : gmap string (gset string * option Time);
  sx_indexes : gset string;
  sx_now : Time;
  sx_down : bool;
  sx_uuids : list string
}.

(** What a process remembers to have created, and Redis. *)
Record Semantic := mkSemantic { sm_indexes : gset Z; sm_rdb : SemRedis }.

Definition NewSemantic (rdb : SemRedis) : Semantic := mkSemantic ∅ rdb.

Definition live_docs (r : SemRedis) : gmap string SemDoc := omap (live (sx_now r)) (sx_docs r).

Section Index.
Context (entry_json : Entry -> option string) (entry_read : string -> option Entry)
  (ft_search : string -> string -> string -> gmap string SemDoc -> option (list (string * string))).

(** An error that says that the index exists is none. *)
Definition ensureIndex (dim : Z) (s : Semantic) : Semantic * option go_error :=
  if decide (dim ∈ sm_indexes s) then (s, None)
  else
    let r := sm_rdb s in
    if sx_down r then (s, Some redis_error)
    else (mkSemantic ({[dim]} ∪ sm_indexes s)
            (mkSemRedis (sx_docs r) (sx_tags r) ({[indexName dim]} ∪ sx_indexes r) (sx_now r) (sx_down r) (sx_uuids r)), None).

Definition next_uuid (r : SemRedis) : string * SemRedis :=
  match sx_uuids r with
  | [] => ("", r)
  | u :: us => (u, mkSemRedis (sx_docs r) (sx_tags r) (sx_indexes r) (sx_now r) (sx_down r) us)
  end.

Definition sem_doc (tenantID route scope : string) (emb : list Z) (e : Entry) (json : string) : SemDoc :=
  mkSemDoc tenantID scope route (join "," (en_Tags e)) (unix_seconds (en_CreatedAt e)) (en_Query e) json (floatBytes emb).

Definition Semantic_Put (tenantID route scope : string) (emb : list Z) (e : Entry) (ttl : Duration) (s : Semantic) : Semantic * (go_error + string) :=
  let dim := Z.of_nat (length emb) in
  match ensureIndex dim s with
  | (s, Some err) => (s, inl err)
  | (s, None) =>
      match entry_json e with
      | None => (s, inl (ErrOther "json"))
      | Some json =>
          let '(u, r) := next_uuid (sm_rdb s) in
          let key := prefix dim +:+ tenantTag tenantID +:+ ":" +:+ route +:+ ":" +:+ u in
          if sx_down r then (mkSemantic (sm_indexes s) r, inl redis_error)
          else (mkSemantic (sm_indexes s)
                  (mkSemRedis (<[key := (sem_doc tenantID route scope emb e json, Some (sx_now r + ttl))]> (sx_docs r))
                     (for_range (en_Tags e) (sx_tags r) (tag_member tenantID key ttl (sx_now r)))
                     (sx_indexes r) (sx_now r) (sx_down r) (sx_uuids r)), inr key)
      end
  end.

Definition Semantic_Nearest (tenantID scope : string) (emb : list Z) (s : Semantic) : Semantic * (go_error + option Match) :=
  let dim := Z.of_nat (length emb) in
  match ensureIndex dim s with
  | (s, Some err) => (s, inl err)
  | (s, None) =>
      let r := sm_rdb s in
      if sx_down r || negb (bool_decide (indexName dim ∈ sx_indexes r)) then (s, inl redis_error)
      else match ft_search (indexName dim) (tag_query (escapeTag tenantID) (escapeTag scope)) (floatBytes emb) (live_docs r) with
           | None => (s, inl redis_error)
           | Some [] => (s, inr None)
           | Some ((id, dist) :: _) =>
               match ParseFloat dist with
               | None => (s, inl (ErrOther "strconv"))
               | Some d =>
                   match entry_read (from_option sd_entry "" (live_docs r !! id)) with
                   | None => (s, inl (ErrOther "json"))
                   | Some e => (s, inr (Some (mkMatch e (fsub f1 d) id)))
                   end
               end
           end
  end.

(** The driver of the cache's stage. *)
#[export] Instance semantic_store : SemanticStore Semantic := { Sem_Put := Semantic_Put; Nearest := Semantic_Nearest }.
End Index.

(** ** Encodings *)

Lemma put_uint32_length f : String.length (put_uint32 f) = 4%nat.
Proof. done. Qed.

Lemma byte_at_inj a b : 0 <= a < 256 -> 0 <= b < 256 -> byte_at a = byte_at b -> a = b.
Proof. intros Ha Hb E. rewrite <- (byte_val_at a), <- (byte_val_at b) by done. by rewrite E. Qed.

Lemma put_uint32_inj a b : 0 <= a < 4294967296 -> 0 <= b < 4294967296 -> put_uint32 a = put_uint32 b -> a = b.
Proof.
  intros Ha Hb [= H1 H2 H3 H4]. apply byte_at_inj in H1, H2, H3, H4; try (apply Z.mod_pos_bound; lia). Z.to_euclidean_division_equations; lia.
Qed.

(** Two vectors with the same bytes are the same vector, bit for bit. *)
Lemma floatBytes_inj v : forall v', Forall (fun f => 0 <= f < 4294967296) v -> Forall (fun f => 0 <= f < 4294967296) v' -> floatBytes v = floatBytes v' -> v = v'.
Proof.
  induction v as [|f v IH]; intros [|f' v'] Hv Hv' E; [done..|]. apply Forall_cons in Hv as [Hf Hv]. apply Forall_cons in Hv' as [Hf' Hv']. cbn [floatBytes] in E.
  apply sapp_split_length in E as [E1 E2]; [|done]. f_equal; [by apply put_uint32_inj|by apply IH].
Qed.

(** *** The filter cannot be broken out of *)

Definition is_ascii (c : ascii) : bool := byte_val c <? 128.

Lemma rune_size_ascii c s : is_ascii c = true -> rune_size (String c s) = 1%nat.
Proof.
  unfold is_ascii. intros H%Z.ltb_lt. pose proof (byte_val_range c). unfold rune_size, byte_in.
  repeat match goal with |- context [?a <=? byte_val c] => replace (a <=? byte_val c) with false by (symmetry; apply Z.leb_gt; lia) end. cbn [andb].
  repeat match goal with |- context [byte_val c =? ?a] => replace (byte_val c =? a) with false by (symmetry; apply Z.eqb_neq; lia) end. done.
Qed.

Lemma decode_rune_ascii c s : is_ascii c = true -> decode_rune (String c s) = (byte_val c, 1%nat).
Proof. intros H. unfold decode_rune. rewrite rune_size_ascii by done. cbn. unfold is_ascii in H. by rewrite H. Qed.

Lemma special_backslash : special "\" = true.
Proof. done. Qed.

(** What RediSearch reads of an escaped text is the text. *)
Lemma unescape_escape s : sforall is_ascii s = true -> unescape (escapeTag s) = Some s.
Proof.
  unfold escapeTag. induction s as [|c s IH]; [done|]. cbn [sforall]. intros [Hc Hs]%andb_true_iff. cbn [String.length escape_from].
  rewrite decode_rune_ascii by done. replace (byte_val c =? RuneError) with false by (symmetry; apply Z.eqb_neq; unfold is_ascii, RuneError in *; lia).
  cbn [stake sdrop]. change (stake 0 s) with "". replace (stake 0 s) with "" by (by destruct s). replace (sdrop 0 s) with s by (by destruct s).
  destruct (special c) eqn:Esp.
  - change (unescape ("\" +:+ String c "" +:+ escape_from (String.length s) s)) with (String c <$> unescape (escape_from (String.length s) s)). by rewrite IH.
  - change (unescape ("" +:+ String c "" +:+ escape_from (String.length s) s)) with (unescape (String c (escape_from (String.length s) s))).
    cbn [unescape]. destruct (Ascii.eqb_spec c "\") as [->|]; [by rewrite special_backslash in Esp|]. by rewrite Esp, IH.
Qed.

(** *** Clean identifiers: UUIDs and digests *)

Definition clean_byte (c : ascii) : bool := is_lower c || is_digit c || Ascii.eqb c "-".
Definition clean (s : string) : bool := sforall clean_byte s.

Lemma clean_ascii s : clean s = true -> sforall is_ascii s = true.
Proof.
  apply sforall_impl. intros c. unfold clean_byte, is_lower, is_digit, byte_in, is_ascii. intros H.
  apply orb_true_iff in H as [[H|H]%orb_true_iff|H%Ascii.eqb_eq]; [..|by subst]; apply andb_true_iff in H as [_ H%Z.leb_le]; apply Z.ltb_lt; lia.
Qed.

Lemma clean_byte_plain c : clean_byte c = true -> is_space c = false /\ is_upper c = false.
Proof.
  unfold clean_byte, is_lower, is_digit, is_space, is_upper, byte_in. intros H. apply orb_true_iff in H as [[H|H]%orb_true_iff|H%Ascii.eqb_eq]; [..|by subst];
    apply andb_true_iff in H as [H1%Z.leb_le H2%Z.leb_le]; split; try apply orb_false_iff; try split; try apply andb_false_iff; try apply Z.eqb_neq; lia.
Qed.

Lemma trim_left_clean s : clean s = true -> trim_left is_space s = s.
Proof. destruct s as [|c s]; [done|]. intros [Hc _]%andb_true_iff. cbn. by destruct (clean_byte_plain c Hc) as [-> _]. Qed.

Lemma trim_right_clean s : clean s = true -> trim_right is_space s = s.
Proof.
  induction s as [|c s IH]; [done|]. intros [Hc Hs]%andb_true_iff. cbn [trim_right]. rewrite IH by done. destruct s; [by destruct (clean_byte_plain c Hc) as [-> _]|done].
Qed.

Lemma smap_lower_clean s : clean s = true -> smap lower_byte s = s.
Proof.
  induction s as [|c s IH]; [done|]. intros [Hc Hs]%andb_true_iff. cbn [smap]. rewrite IH by done. unfold lower_byte. by destruct (clean_byte_plain c Hc) as [_ ->].
Qed.

Lemma tag_norm_clean s : clean s = true -> tag_norm s = s.
Proof. intros H. unfold tag_norm, trim_space. by rewrite trim_left_clean, trim_right_clean, smap_lower_clean. Qed.

(** Among clean identifiers a tag is found only where it is the whole field. *)
Lemma tag_has_clean v field : clean v = true -> clean field = true -> tag_has v field -> v = field.
Proof.
  intros Hv Hf. unfold tag_has. rewrite split_byte_one by (by apply (sforall_no_byte clean_byte)). cbn [map]. rewrite !tag_norm_clean by done.
  by intros ->%list_elem_of_singleton.
Qed.

Lemma prefix_inj a b rest : 0 <= a -> 0 <= b -> has_prefix (prefix a) (prefix b +:+ rest) = true -> a = b.
Proof.
  intros Ha Hb [t E]%has_prefix_app. unfold prefix in E. rewrite !sapp_assoc in E. apply sapp_inj_l in E.
  pose proof (itoa_no_colon a) as Na. pose proof (itoa_no_colon b) as Nb. apply itoa_inj.
  change (":" +:+ t) with (String ":" t) in E. change (":" +:+ rest) with (String ":" rest) in E.
  revert Na Nb E. generalize (itoa b) as y. generalize (itoa a) as x. induction x as [|c x IH]; intros [|d y] Na Nb E.
  - done.
  - injection E as -> _. done.
  - injection E as <- _. done.
  - injection E as -> E. cbn in Na, Nb. apply orb_false_iff in Na as [_ Na], Nb as [_ Nb]. f_equal. by eapply IH.
Qed.

(** ** Any number of gateways on one Redis *)

(** A vector that was stored: who stored it, under which scope, for which entry. *)
Record stored := mkStored { so_tenant : string; so_scope : string; so_emb : list Z; so_entry : Entry }.

Section Runs.
Context (entry_json : Entry -> option string) (entry_read : string -> option Entry)
  (ft_search : string -> string -> string -> gmap string SemDoc -> option (list (string * string))).

(** What RediSearch documents: results are hashes under the index's prefix that the filter selects. *)
Hypothesis Hsearch : forall dim w1 w2 t sc vec docs l id dist, unescape w1 = Some t -> unescape w2 = Some sc ->
  ft_search (indexName dim) (tag_query w1 w2) vec docs = Some l -> (id, dist) ∈ l ->
  exists doc, docs !! id = Some doc /\ has_prefix (prefix dim) id = true /\ tag_has t (sd_tenant doc) /\ tag_has sc (sd_scope doc).

(** Calls of [Put] and [Nearest] by any process, whatever it remembers; hashes expire or are purged,
    and everything else may change, at any time. *)
Inductive sem_step : SemRedis * list stored -> SemRedis * list stored -> Prop :=
| ss_put known r log t route sc emb e ttl s' key : clean t = true -> clean sc = true ->
    Semantic_Put entry_json t route sc emb e ttl (mkSemantic known r) = (s', inr key) -> sem_step (r, log) (sm_rdb s', log ++ [mkStored t sc emb e])
| ss_put_fails known r log t route sc emb e ttl s' err :
    Semantic_Put entry_json t route sc emb e ttl (mkSemantic known r) = (s', inl err) -> sem_step (r, log) (sm_rdb s', log)
| ss_nearest known r log t sc emb s' res :
    Semantic_Nearest entry_read ft_search t sc emb (mkSemantic known r) = (s', res) -> sem_step (r, log) (sm_rdb s', log)
| ss_world r r' log : sx_docs r' ⊆ sx_docs r -> sem_step (r, log) (r', log).

(** Each hash is that of a vector that was stored. *)
Definition docs_ok (st : SemRedis * list stored) : Prop :=
  forall id doc x, sx_docs st.1 !! id = Some (doc, x) -> exists so rest,
    so ∈ st.2 /\ id = prefix (Z.of_nat (length (so_emb so))) +:+ rest /\ clean (so_tenant so) = true /\ clean (so_scope so) = true /\
    sd_tenant doc = so_tenant so /\ sd_scope doc = so_scope so /\ sd_emb doc = floatBytes (so_emb so) /\ entry_json (so_entry so) = Some (sd_entry doc).

Lemma ensureIndex_docs dim s s' res : ensureIndex dim s = (s', res) -> sx_docs (sm_rdb s') = sx_docs (sm_rdb s).
Proof. unfold ensureIndex. repeat case_match; by intros [= <- <-]. Qed.

Lemma next_uuid_docs r u r' : next_uuid r = (u, r') -> sx_docs r' = sx_docs r.
Proof. unfold next_uuid. case_match; by intros [= <- <-]. Qed.

Lemma docs_ok_sub st st' : sx_docs st'.1 ⊆ sx_docs st.1 -> st'.2 = st.2 -> docs_ok st -> docs_ok st'.
Proof. intros Hs El Hok id doc x Hd. rewrite El. apply (Hok id doc x). by eapply lookup_weaken. Qed.

Lemma docs_ok_step st st' : sem_step st st' -> docs_ok st -> docs_ok st'.
Proof.
  intros Hs Hok. destruct Hs as [known r log t route sc emb e ttl s' key Ht Hsc E|known r log t route sc emb e ttl s' err E|known r log t sc emb s' res E|r r' log Hsub].
  - unfold Semantic_Put in E. destruct (ensureIndex _ _) as [s1 [err|]] eqn:Ei; [done|]. apply ensureIndex_docs in Ei.
    destruct (entry_json e) as [json|] eqn:Ej; [|done]. destruct (next_uuid (sm_rdb s1)) as [u r1] eqn:Eu. apply next_uuid_docs in Eu. destruct (sx_down r1); [done|].
    injection E as <- <-. intros id doc x. cbn [fst snd sm_rdb sx_docs]. rewrite lookup_insert_Some. intros [[<- [= <- <-]]|[_ Hd]].
    + exists (mkStored t sc emb e). eexists. split_and!; [apply elem_of_app; right; by left|reflexivity|done..].
    + rewrite Eu, Ei in Hd. destruct (Hok id doc x Hd) as (so & rest & Hin & Hrest). exists so, rest. split; [apply elem_of_app; by left|done].
  - apply (docs_ok_sub (r, log)); [|done|done]. unfold Semantic_Put in E. destruct (ensureIndex _ _) as [s1 [err'|]] eqn:Ei; apply ensureIndex_docs in Ei; [injection E as <- _; cbn; by rewrite Ei|].
    destruct (entry_json e); [|injection E as <- _; cbn; by rewrite Ei]. destruct (next_uuid (sm_rdb s1)) as [u r1] eqn:Eu. apply next_uuid_docs in Eu.
    destruct (sx_down r1); [|done]. injection E as <- _. cbn. by rewrite Eu, Ei.
  - apply (docs_ok_sub (r, log)); [|done|done]. unfold Semantic_Nearest in E. destruct (ensureIndex _ _) as [s1 [err'|]] eqn:Ei; apply ensureIndex_docs in Ei; [injection E as <- _; cbn; by rewrite Ei|].
    assert (s' = s1) as -> by (repeat case_match; congruence). cbn. by rewrite Ei.
  - by apply (docs_ok_sub (r, log)).
Qed.

(** Tenants do not see each other's answers: whatever gateways have stored and purged, in any
    order, the nearest entry that a query finds was stored by the same tenant, under the same
    scope, for a vector of as many components. *)
Theorem nearest_is_own r log known t sc emb s' m (Hrun : rtc sem_step (mkSemRedis ∅ ∅ ∅ 0 false [], []) (r, log)) (Ht : clean t = true) (Hsc : clean sc = true)
  (Hfind : Semantic_Nearest entry_read ft_search t sc emb (mkSemantic known r) = (s', inr (Some m))) :
  exists so json, so ∈ log /\ so_tenant so = t /\ so_scope so = sc /\ length (so_emb so) = length emb /\
    entry_json (so_entry so) = Some json /\ entry_read json = Some (ma_Entry m).
Proof.
  assert (docs_ok (r, log)) as Hok.
  { assert (docs_ok (mkSemRedis ∅ ∅ ∅ 0 false [], [])) as H0 by (intros id doc x; cbn [fst sx_docs]; by rewrite lookup_empty). revert H0.
    induction Hrun as [|? ? ? Hs _ IH]; [done|]. intros Hok. by apply IH, (docs_ok_step _ _ Hs). }
  unfold Semantic_Nearest in Hfind. destruct (ensureIndex _ _) as [s1 [err|]] eqn:Ei; [done|]. apply ensureIndex_docs in Ei. cbn in Ei.
  destruct (sx_down (sm_rdb s1) || _); [done|]. destruct (ft_search _ _ _ _) as [[|[id dist] l]|] eqn:Es; [done| |done].
  destruct (ParseFloat dist) as [d|]; [|done].
  destruct (Hsearch _ _ _ _ _ _ _ _ id dist (unescape_escape t (clean_ascii t Ht)) (unescape_escape sc (clean_ascii sc Hsc)) Es ltac:(by left)) as (doc & Hdoc & Hpre & Hht & Hhs).
  rewrite Hdoc in Hfind. cbn [from_option] in Hfind. destruct (entry_read (sd_entry doc)) as [e|] eqn:Er; [|done]. injection Hfind as _ <-.
  unfold live_docs in Hdoc. rewrite lookup_omap in Hdoc. destruct (sx_docs (sm_rdb s1) !! id) as [[doc' x]|] eqn:Hd; [|done]. cbn in Hdoc.
  assert (doc' = doc) as -> by (unfold live in Hdoc; cbn in Hdoc; repeat case_match; congruence).
  rewrite Ei in Hd. destruct (Hok id doc x Hd) as (so & rest & Hin & -> & Hct & Hcs & Et & Esc & _ & Ej). rewrite Et in Hht. rewrite Esc in Hhs.
  apply prefix_inj in Hpre; [|lia..]. exists so, (sd_entry doc). split_and!; [done|by apply eq_sym, tag_has_clean|by apply eq_sym, tag_has_clean|lia|done|done].
Qed.
End Runs.

(** ** Embeddings that were computed before (embedder.go) *)

(** A route with the digest of a text. *)
Abbreviation lruKey := (string * string)%type.

(** The list, the most recently used first, and the map to its elements. *)
Record lruEmbedder := mkLruEmbedder { le_size : Z; le_ll : list (lruKey * list Z); le_m : gmap lruKey (list Z) }.

Definition NewLRUEmbedder (size : Z) : lruEmbedder := mkLruEmbedder size [] ∅.

Definition without (k : lruKey) (l : list (lruKey * list Z)) : list (lruKey * list Z) := filter (fun kv => kv.1 <> k) l.

(** Under the first lock: a hit moves its element to the front. *)
Definition embed_lookup (k : lruKey) (l : lruEmbedder) : option (list Z) * lruEmbedder :=
  match le_m l !! k with
  | Some v => (Some v, mkLruEmbedder (le_size l) ((k, v) :: without k (le_ll l)) (le_m l))
  | None => (None, l)
  end.

(** Under the second one. *)
Definition embed_insert (k : lruKey) (v : list Z) (l : lruEmbedder) : lruEmbedder :=
  match le_m l !! k with
  | Some _ => l
  | None =>
      let ll := (k, v) :: le_ll l in let m := <[k := v]> (le_m l) in
      if le_size l <? Z.of_nat (length ll) then
        match last ll with
        | Some old => mkLruEmbedder (le_size l) (removelast ll) (delete old.1 m)
        | None => mkLruEmbedder (le_size l) ll m
        end
      else mkLruEmbedder (le_size l) ll m
  end.

Section Embedder.
Context (sha256 : string -> string) {W : Type} `{CacheEmbedder W}.

Definition embed_key (route text : string) : lruKey := (route, sha256 text).

Definition lruEmbedder_Embed (route tenantID text : string) (w : lruEmbedder * W) : (lruEmbedder * W) * (go_error + list Z) :=
  let k := embed_key route text in
  match embed_lookup k w.1 with
  | (Some v, l) => ((l, w.2), inr v)
  | (None, l) =>
      match Cache_Embed route tenantID text w.2 with
      | (x, inl err) => ((l, x), inl err)
      | (x, inr v) => ((embed_insert k v l, x), inr v)
      end
  end.

#[export] Instance lru_embedder : CacheEmbedder (lruEmbedder * W) := { Cache_Embed := lruEmbedder_Embed }.
End Embedder.

(** *** Calls in any order *)

(** The list has a key once and agrees with the map. *)
Definition lru_ok (l : lruEmbedder) : Prop := NoDup (le_ll l).*1 /\ le_m l = list_to_map (le_ll l) /\ Z.of_nat (length (le_ll l)) <= Z.max 0 (le_size l).

(** Calls between their two locks, each with what the provider gave it; [given] holds all of that. *)
Inductive embed_step : (lruEmbedder * list (lruKey * list Z)) -> (lruEmbedder * list (lruKey * list Z)) -> Prop :=
| es_hit k v l l' given : embed_lookup k l = (Some v, l') -> embed_step (l, given) (l', given)
| es_given k v l given : embed_step (l, given) (l, given ++ [(k, v)])
| es_insert k v l given : (k, v) ∈ given -> embed_step (l, given) (embed_insert k v l, given).

Lemma without_spec k (l : list (lruKey * list Z)) v : NoDup l.*1 -> (list_to_map l : gmap lruKey (list Z)) !! k = Some v -> (k, v) :: without k l ≡ₚ l.
Proof.
  intros Hnd Hk. apply elem_of_list_to_map in Hk; [|done]. apply NoDup_Permutation.
  - constructor; [|apply NoDup_filter; by eapply NoDup_fmap_1]. unfold without. rewrite list_elem_of_filter. cbn. tauto.
  - by eapply NoDup_fmap_1.
  - intros [k' v']. unfold without. rewrite elem_of_cons, list_elem_of_filter. cbn. split; [intros [[= -> ->]|[_ ?]]; done|]. intros Hin.
    destruct (decide (k' = k)) as [->|]; [left|by right]. f_equal. apply (elem_of_list_to_map (M := gmap lruKey)) in Hin, Hk; [|done..]. congruence.
Qed.

Lemma embed_lookup_ok k v l l' : lru_ok l -> embed_lookup k l = (Some v, l') -> lru_ok l' /\ le_m l' = le_m l /\ le_m l !! k = Some v /\ le_ll l' ≡ₚ le_ll l /\ le_size l' = le_size l.
Proof.
  intros (Hnd & Em & Hlen). unfold embed_lookup. destruct (le_m l !! k) as [v'|] eqn:E; [|done]. intros [= -> <-]. rewrite Em in E.
  pose proof (without_spec k (le_ll l) v Hnd E) as Hp. split_and!; [|done|done|done|done]. split_and!; cbn [le_ll le_m le_size].
  - by apply (NoDup_Permutation_proper _ _ (fmap_Permutation fst _ _ Hp)).
  - rewrite Em. apply list_to_map_proper; [done|by symmetry].
  - by rewrite (Permutation_length Hp).
Qed.

Lemma embed_insert_ok k v l : lru_ok l -> lru_ok (embed_insert k v l) /\ le_ll (embed_insert k v l) ⊆ (k, v) :: le_ll l /\ le_size (embed_insert k v l) = le_size l.
Proof.
  intros (Hnd & Em & Hlen). unfold embed_insert. destruct (le_m l !! k) eqn:E; [split_and!; [done|set_solver|done]|]. rewrite Em in E. apply not_elem_of_list_to_map in E.
  assert (NoDup ((k, v) :: le_ll l).*1) as Hnd' by (by constructor).
  assert (forall ll, ll = (k, v) :: le_ll l -> le_size l <? Z.of_nat (length ll) = false -> lru_ok (mkLruEmbedder (le_size l) ll (<[k := v]> (le_m l)))) as Hsmall.
  { intros ll -> Hs%Z.ltb_ge. split_and!; [done|by rewrite Em|cbn in *; lia]. }
  destruct (le_size l <? _) eqn:Es; [|split_and!; [by apply Hsmall|done|done]].
  destruct (exists_last (l := (k, v) :: le_ll l) ltac:(done)) as (init & old & Ell). rewrite Ell, last_snoc, removelast_last.
  assert ((init ++ [old]).*1 = init.*1 ++ [old.1]) as Ef by (by rewrite fmap_app). rewrite Ell, Ef in Hnd'. apply NoDup_app in Hnd' as (Hi & Hx & _).
  split_and!; [split_and!; [done| |]| |done]; cbn [le_ll le_m le_size].
  - rewrite Em. change (<[k := v]> (list_to_map (le_ll l)) : gmap lruKey (list Z)) with (list_to_map ((k, v) :: le_ll l) : gmap lruKey (list Z)). rewrite Ell, list_to_map_app.
    cbn. destruct old as [ok ov]. cbn in *. rewrite delete_union, delete_insert_eq, delete_empty, (right_id_L ∅ (∪)). apply delete_id, not_elem_of_list_to_map. intros Hin. apply (Hx _ Hin). by left.
  - apply (f_equal length) in Ell. rewrite length_app in Ell. cbn in Ell. lia.
  - set_solver.
Qed.

(** However calls for embeddings interleave, the list stays within its bound and consistent with the
    map, and a hit is a vector that the provider gave for the same route and digest. *)
Theorem embeddings_kept_bounded size l given : rtc embed_step (NewLRUEmbedder size, []) (l, given) ->
  lru_ok l /\ Z.of_nat (length (le_ll l)) <= Z.max 0 size /\ forall k v l', embed_lookup k l = (Some v, l') -> (k, v) ∈ given.
Proof.
  intros Hrun. assert (lru_ok l /\ le_ll l ⊆ given /\ le_size l = size) as (Hok & Hsub & <-).
  { set (P := fun st : lruEmbedder * list (lruKey * list Z) => lru_ok st.1 /\ le_ll st.1 ⊆ st.2 /\ le_size st.1 = size).
    assert (P (l, given)) as (? & ? & ?); [|done].
    assert (P (NewLRUEmbedder size, [])) as H0 by (split_and!; [split_and!; [constructor|done|cbn; lia]|done|done]).
    induction Hrun as [|? ? ? Hs _ IH]; [done|]. apply IH. clear IH. destruct H0 as (Hok & Hsub & Hsize).
    destruct Hs as [k v l1 l2 g E|k v l1 g|k v l1 g Hin]; cbn in Hok, Hsub, Hsize.
    - destruct (embed_lookup_ok _ _ _ _ Hok E) as (? & _ & _ & Hp & Hs). split_and!; [done| |by cbn; rewrite Hs]. cbn. intros x. rewrite Hp. apply Hsub.
    - split_and!; [done| |done]. cbn. set_solver.
    - destruct (embed_insert_ok k v l1 Hok) as (? & Hi & Hs). split_and!; [done| |by cbn; rewrite Hs]. cbn. set_solver. }
  split_and!; [done|apply Hok|]. intros k v l' E. destruct (embed_lookup_ok _ _ _ _ Hok E) as (_ & _ & Hk & _). destruct Hok as (Hnd & Em & _).
  rewrite Em in Hk. apply elem_of_list_to_map in Hk; [|done]. by apply Hsub.
Qed.

(** ** An example *)

Module Demo.
Definition demo_json (e : Entry) : option string := Some (en_Query e).
Definition demo_read (s : string) : option Entry := Some (mkEntry "" s None 0 0 [] "").
(** A search that reads the two tags off the query and takes the hashes under the prefix that have them. *)
Definition demo_search (idx query vec : string) (docs : gmap string SemDoc) : option (list (string * string)) :=
  Some (map (fun kv => (kv.1, "0.25"))
    (filter (fun kv => has_prefix ("sc:" +:+ sdrop 7 idx +:+ ":") kv.1 = true /\ tag_query (escapeTag (sd_tenant kv.2)) (escapeTag (sd_scope kv.2)) = query) (map_to_list docs))).

Definition demo_entry : Entry := mkEntry "r1" "hi" None 5 0 ["a"; "b"] "".
Definition demo_start : Semantic := NewSemantic (mkSemRedis ∅ ∅ ∅ 0 false ["u1"; "u2"]).
Definition demo_put := Semantic_Put demo_json "t-1" "chat" "ab12" [1; 2] demo_entry 60 demo_start.

Example put_then_nearest :
  demo_put.2 = inr "sc:2:{t:t-1}:chat:u1" /\
  (Semantic_Nearest demo_read demo_search "t-1" "ab12" [1; 3] demo_put.1).2 = inr (Some (mkMatch (mkEntry "" "hi" None 0 0 [] "") (fsub f1 (default f1 (ParseFloat "0.25"))) "sc:2:{t:t-1}:chat:u1")) /\
  (Semantic_Nearest demo_read demo_search "t-2" "ab12" [1; 3] demo_put.1).2 = inr None /\
  (Semantic_Nearest demo_read demo_search "t-1" "ab12" [1] demo_put.1).2 = inr None.
Proof. by vm_compute. Qed.

(** The oldest embedding goes when a third comes. *)
Example embeddings_evicted :
  let l := embed_insert ("r", "c") [3] (embed_lookup ("r", "a") (embed_insert ("r", "b") [2] (embed_insert ("r", "a") [1] (NewLRUEmbedder 2)))).2 in
  (map fst (le_ll l), (embed_lookup ("r", "b") l).1, (embed_lookup ("r", "a") l).1) = ([("r", "c"); ("r", "a")], None, Some [1]).
Proof. by vm_compute. Qed.
End Demo.
