(* ===== verification/Telemetry.v ===== *)
(** * Metrics, traces, access log and usage events
      (src/internal/telemetry/metrics.go, tracing.go, accesslog.go, analytics/usage.go, mcp.go,
      app/pipeline.go)

    What is told of each call to Prometheus, to the span, to the log and to ClickHouse, and the
    pipeline of all stages.  The latencies measured of a call come with it as an argument.  A
    counter is kept as its value, a histogram as what it observed; the client libraries panic
    ([None]) where a counter would fall or the number of labels is wrong. *)

From S2P Require Import Prelude GoStrings GoFloat GoFloatInt Breaker Config Api CacheKeys Execute Route Policy Pipeline Budget BudgetStage RateLimit Fuzzy AgentRun AgentStage Detect Guard SmartRoute McpProxy.

Open Scope string_scope.
Open Scope list_scope.
Open Scope Z_scope.

(** ** Collectors *)

Inductive collector := CounterVec | GaugeVec | HistogramVec.

(** The families [NewMetrics] registers, with their labels. *)
Definition families : list (string * (collector * list string)) := [
  ("proofgate_ratelimit_fail_open_total", (CounterVec, []));
  ("proofgate_budget_fail_open_total", (CounterVec, []));
  ("proofgate_spoofed_internal_header_total", (CounterVec, ["tenant"]));
  ("proofgate_unpriced_calls_total", (CounterVec, ["provider"; "model"]));
  ("proofgate_admin_audit_failures_total", (CounterVec, []));
  ("proofgate_requests_total", (CounterVec, ["route"; "target"; "status"; "cache"; "stream"]));
  ("proofgate_request_duration_seconds", (HistogramVec, ["route"; "stream"]));
  ("proofgate_overhead_seconds", (HistogramVec, ["stream"]));
  ("proofgate_ttft_seconds", (HistogramVec, ["route"]));
  ("proofgate_tokens_total", (CounterVec, ["route"; "target"; "kind"]));
  ("proofgate_cost_usd_total", (CounterVec, ["route"; "target"]));
  ("proofgate_unpriced_requests_total", (CounterVec, ["target"]));
  ("proofgate_breaker_open", (GaugeVec, ["target"]));
  ("proofgate_embeddings_total", (CounterVec, ["route"; "target"; "status"]));
  ("proofgate_embedding_tokens_total", (CounterVec, ["route"; "target"; "status"]));
  ("proofgate_hedges_total", (CounterVec, ["route"; "outcome"]));
  ("proofgate_hedge_wasted_tokens_total", (CounterVec, ["route"; "target"]))].

Definition labels_of (name : string) : nat :=
  match List.find (fun f => String.eqb f.1 name) families with Some f => length f.2.2 | None => 0%nat end.

(** A series is a family with the values of its labels. *)
Abbreviation series := (string * list string)%type.

Record metrics := mkMetrics { mt_values : gmap series spec_float; mt_observed : gmap series (list spec_float) }.

Definition NewMetrics : metrics := mkMetrics ∅ ∅.

Definition value_of (k : series) (m : metrics) : spec_float := default f0 (mt_values m !! k).

Definition with_labels {A : Type} (name : string) (labels : list string) (f : series -> option A) : option A :=
  if Nat.eqb (length labels) (labels_of name) then f (name, labels) else None.

Definition counter_add (name : string) (labels : list string) (v : spec_float) (m : metrics) : option metrics :=
  with_labels name labels (fun k => if fltb v f0 then None else Some (mkMetrics (<[k := fadd (value_of k m) v]> (mt_values m)) (mt_observed m))).

Definition counter_inc (name : string) (labels : list string) (m : metrics) : option metrics := counter_add name labels f1 m.

Definition gauge_set (name : string) (labels : list string) (v : spec_float) (m : metrics) : option metrics :=
  with_labels name labels (fun k => Some (mkMetrics (<[k := v]> (mt_values m)) (mt_observed m))).

Definition observe (name : string) (labels : list string) (v : spec_float) (m : metrics) : option metrics :=
  with_labels name labels (fun k => Some (mkMetrics (mt_values m) (<[k := default [] (mt_observed m !! k) ++ [v]]> (mt_observed m)))).

(** ** What is counted *)

Definition StatusOf (err : option go_error) : string :=
  match err with
  | None => "ok"
  | Some (ErrApi e) => ae_Code e
  | Some ErrCanceled => "client_closed"
  | Some _ => "error"
  end.

Definition SetBreaker (target state : string) (m : metrics) : option metrics :=
  gauge_set "proofgate_breaker_open" [target]
    (if String.eqb state "open" then f1 else if String.eqb state "half-open" then f_lit 5 10 else f0) m.

Definition ObserveEmbed (route target status : string) (tokens costMicros : Z) (m : metrics) : option metrics :=
  m ← counter_inc "proofgate_embeddings_total" [route; target; status] m;
  m ← counter_add "proofgate_embedding_tokens_total" [route; target; status] (f_of_Z tokens) m;
  counter_add "proofgate_cost_usd_total" [route; target] (usd costMicros) m.

Definition ObserveHedge (route outcome : string) (m : metrics) : option metrics := counter_inc "proofgate_hedges_total" [route; outcome] m.

Definition ObserveHedgeWaste (route target : string) (tokens : Z) (m : metrics) : option metrics :=
  if tokens <=? 0 then Some m else counter_add "proofgate_hedge_wasted_tokens_total" [route; target] (f_of_Z tokens) m.

Definition or_unknown (s : string) : string := if String.eqb s "" then "unknown" else s.

Definition ObserveSpoofedInternal (tenant : string) (m : metrics) : option metrics :=
  counter_inc "proofgate_spoofed_internal_header_total" [or_unknown tenant] m.

Definition ObserveUnpricedCall (provider model : string) (m : metrics) : option metrics :=
  counter_inc "proofgate_unpriced_calls_total" [or_unknown provider; or_unknown model] m.

(** What was measured of a call; [ct_now] is the clock when it is asked for. *)
Record CallTimes := mkCallTimes { ct_Latency : Duration; ct_TTFT : Duration; ct_UpstreamTime : Duration; ct_now : Time }.

Definition FormatBool (b : bool) : string := if b then "true" else "false".

Definition route_label (c : Call) : string := match cl_Route c with Some rt => ro_Name rt | None => "" end.
Definition target_label (c : Call) : string := if String.eqb (Provider (cl_Target c)) "" then "none" else Target_String (cl_Target c).
Definition request_labels (c : Call) : list string := [route_label c; target_label c; StatusOf (cl_Err c); cl_CacheStatus c; FormatBool (cl_Stream c)].

(** [metricsStage.After] *)
Definition metrics_After (tm : CallTimes) (c : Call) (m : metrics) : option metrics :=
  let route := route_label c in let target := target_label c in let stream := FormatBool (cl_Stream c) in
  let latency := if ct_Latency tm =? 0 then ct_now tm - cl_Start c else ct_Latency tm in
  let u := cl_Usage c in
  m ← counter_inc "proofgate_requests_total" (request_labels c) m;
  m ← observe "proofgate_request_duration_seconds" [route; stream] (Seconds latency) m;
  m ← (if negb (String.eqb (Provider (cl_Target c)) "")
       then observe "proofgate_overhead_seconds" [stream] (Seconds (Z.max (latency - ct_UpstreamTime tm) 0)) m else Some m);
  m ← (if cl_Stream c && (0 <? ct_TTFT tm) then observe "proofgate_ttft_seconds" [route] (Seconds (ct_TTFT tm)) m else Some m);
  m ← counter_add "proofgate_tokens_total" [route; target; "prompt"] (f_of_Z (u_PromptTokens u)) m;
  m ← counter_add "proofgate_tokens_total" [route; target; "completion"] (f_of_Z (u_CompletionTokens u)) m;
  m ← counter_add "proofgate_tokens_total" [route; target; "cached"] (f_of_Z (Usage_CachedTokens u)) m;
  m ← counter_add "proofgate_cost_usd_total" [route; target] (usd (cl_CostMicros c)) m;
  match cl_Values c !! "cost.unpriced" with
  | None => Some m
  | Some _ =>
      m ← counter_inc "proofgate_unpriced_requests_total" [target] m;
      ObserveUnpricedCall (Provider (cl_Target c)) (Model (cl_Target c)) m
  end.

(** ** Spans (tracing.go) *)

Inductive attribute := AttrString (k v : string) | AttrInt (k : string) (v : Z).

(** [traceStage.After] on a span that records: its attributes, and the error status. *)
Definition trace_After (c : Call) : list attribute * option string :=
  ([AttrString "gen_ai.operation.name" "chat";
    AttrString "gen_ai.provider.name" (Provider (cl_Target c));
    AttrString "gen_ai.response.model" (Model (cl_Target c));
    AttrInt "gen_ai.request.max_tokens" (ChatRequest_EffectiveMaxTokens (cl_Request c) 0);
    AttrInt "gen_ai.usage.input_tokens" (u_PromptTokens (cl_Usage c));
    AttrInt "gen_ai.usage.output_tokens" (u_CompletionTokens (cl_Usage c));
    AttrString "proofgate.cache" (cl_CacheStatus c);
    AttrInt "proofgate.attempts" (cl_Attempts c);
    AttrString "proofgate.cost_usd" (format_fixed 6 (usd (cl_CostMicros c)));
    AttrString "proofgate.tenant_id" (TenantID (cl_Principal c))] ++
   match cl_Route c with
   | Some rt => [AttrString "gen_ai.request.model" (ro_Name rt); AttrString "proofgate.route" (ro_Name rt)]
   | None => []
   end,
   match cl_Err c with Some e => Some (StatusOf (Some e)) | None => None end).

(** ** Usage events (analytics/usage.go) *)

Record UsageEvent := mkUsageEvent {
  ue_TS : Time; ue_RequestID : string; ue_TenantID : string; ue_KeyID : string; ue_Route : string; ue_Target : string;
  ue_Kind : string; ue_Status : string; ue_Cache : string; ue_RunID : string; ue_Stream : bool; ue_Attempts : Z;
  ue_PromptTokens : Z; ue_CompletionTokens : Z; ue_CachedTokens : Z; ue_CostMicros : Z; ue_SavedMicros : Z;
  ue_LatencyMs : Z; ue_TTFTMs : Z; ue_OverheadUs : Z; ue_UsageEstimated : bool
}.

Definition clamp (hi d : Z) : Z := if d <? 0 then 0 else if hi <? d then hi else d.
Definition clampU32 : Z -> Z := clamp 4294967295.
Definition clampU16 : Z -> Z := clamp 65535.
Definition clampU8 : Z -> Z := clamp 255.

Definition Milliseconds (d : Duration) : Z := Z.quot d 1000000.
Definition Microseconds (d : Duration) : Z := Z.quot d 1000.

Definition EventFromCall (tm : CallTimes) (c : Call) : UsageEvent :=
  let kind := match cl_Values c !! "usage.kind" with Some (AString k) => if String.eqb k "" then "chat" else k | _ => "chat" end in
  let target := negb (String.eqb (Provider (cl_Target c)) "") in
  let u := cl_Usage c in
  mkUsageEvent (cl_Start c) (cl_ID c) (TenantID (cl_Principal c)) (KeyID (cl_Principal c)) (route_label c)
    (if target then Target_String (cl_Target c) else "") kind (StatusOf (cl_Err c)) (cl_CacheStatus c)
    (match cl_Values c !! "run.id" with Some (AString v) => v | _ => "" end)
    (cl_Stream c) (clampU8 (cl_Attempts c)) (clampU32 (u_PromptTokens u)) (clampU32 (u_CompletionTokens u)) (clampU32 (Usage_CachedTokens u))
    (cl_CostMicros c) (match cl_Values c !! "cache.saved_micros" with Some (AInt64 v) => v | _ => 0 end)
    (clampU32 (Milliseconds (ct_Latency tm))) (clampU32 (Milliseconds (ct_TTFT tm)))
    (if target then clampU32 (Microseconds (ct_Latency tm - ct_UpstreamTime tm)) else 0)
    (bool_decide (is_Some (cl_Values c !! "usage.estimated"))).

Definition b2u (b : bool) : Z := if b then 1 else 0.

(** A column's value in a row that is appended to a batch. *)
Inductive column := CTime (t : Time) | CString (s : string) | CInt (n : Z).

Definition usage_row (r : UsageEvent) : list column :=
  [CTime (ue_TS r); CString (ue_RequestID r); CString (ue_TenantID r); CString (ue_KeyID r); CString (ue_Route r); CString (ue_Target r); CString (ue_Kind r);
   CInt (b2u (ue_Stream r)); CString (ue_Status r); CString (ue_Cache r); CInt (ue_Attempts r); CInt (ue_PromptTokens r); CInt (ue_CompletionTokens r);
   CInt (ue_CachedTokens r); CInt (ue_CostMicros r); CInt (ue_SavedMicros r); CInt (ue_LatencyMs r); CInt (ue_TTFTMs r); CInt (ue_OverheadUs r);
   CInt (b2u (ue_UsageEstimated r)); CString (ue_RunID r)].

(** A batch is prepared, filled row by row and sent; [None] is an error of any step, after which
    nothing has been inserted.  [accepts] is the driver's check of a row. *)
Fixpoint append_rows {R : Type} (row : R -> list column) (accepts : list column -> bool) (rows : list R) (batch : list (list column)) : option (list (list column)) :=
  match rows with
  | [] => Some batch
  | r :: rows => if accepts (row r) then append_rows row accepts rows (batch ++ [row r]) else None
  end.

Definition insert_rows {R : Type} (row : R -> list column) (accepts : list column -> bool) (prepared sent : bool) (rows : list R) (table : list (list column)) :
  list (list column) * bool :=
  if negb prepared then (table, false)
  else match append_rows row accepts rows [] with
       | None => (table, false)
       | Some batch => if sent then (table ++ batch, true) else (table, false)
       end.

Definition InsertUsage := insert_rows usage_row.

Definition mcp_row (a : Audit) : list column :=
  [CTime (au_TS a); CString (au_TenantID a); CString (au_KeyID a); CString (au_Server a); CString (au_Method a); CString (au_Tool a); CString (au_RunID a);
   CString (au_Decision a); CInt (clampU16 (au_Status a)); CInt (au_LatencyMs a)].

Definition InsertMCP := insert_rows mcp_row.

(** ** The access log (accesslog.go)

    [statusWriter] between the handler and the client; a write reports how many bytes went out. *)

Inductive write_op := WWriteHeader (code : Z) | WWrite (n : Z).

Record statusWriter := mkStatusWriter { sw_status : Z; sw_bytes : Z }.

Definition sw_step (w : statusWriter) (o : write_op) : statusWriter :=
  match o with
  | WWriteHeader code => mkStatusWriter (if sw_status w =? 0 then code else sw_status w) (sw_bytes w)
  | WWrite n => mkStatusWriter (if sw_status w =? 0 then 200 else sw_status w) (sw_bytes w + n)
  end.

Record access_request := mkAccessRequest { aq_Method : string; aq_Path : string; aq_Principal : option Principal }.
Record access_line := mkAccessLine {
  al_method : string; al_path : string; al_status : Z; al_bytes : Z; al_duration_ms : Z; al_request_id : string; al_route : string; al_target : string; al_tenant : string
}.

(** The handler gets the request itself; what it puts into the context of a request it derives
    from it is not in this one.  [next] gives what the handler writes, its headers and how long it took. *)
Definition AccessLog (next : access_request -> list write_op * gmap string string * Duration) (r : access_request) : list write_op * access_line :=
  let '(ops, hdr, d) := next r in
  let sw := for_range ops (mkStatusWriter 0 0) sw_step in
  let h k := default "" (hdr !! k) in
  (ops, mkAccessLine (aq_Method r) (aq_Path r) (sw_status sw) (sw_bytes sw) (Milliseconds d)
          (h "X-Proofgate-Request-Id") (h "X-Proofgate-Route") (h "X-Proofgate-Target")
          (match aq_Principal r with Some p => TenantID p | None => "" end)).

(** ** All stages together (app/pipeline.go) *)

(** Where the three stages of telemetry report to; [tw_times] is what was measured of a call, a
    panic of the metrics library is one of the call. *)
Class TelemetryWorld (W : Type) := {
  tw_times : Call -> W -> CallTimes;
  tw_metrics : W -> metrics;
  tw_set_metrics : metrics -> W -> W;
  tw_panic : W -> W;
  tw_recording : W -> bool;
  tw_span : list attribute * option string -> W -> W;
  tw_emit : UsageEvent -> W -> W
}.

Definition StageOrder : list string := ["metrics"; "trace"; "usage"; "agentrun"; "ratelimit"; "smartroute"; "budget"; "guard"; "cache"].

Section BuildPipeline.
Context {W : Type} `{TelemetryWorld W}.

Definition pass (w : W) (c : Call) : W * Call * (bool * option go_error) := (w, c, (false, None)).

Definition metrics_stage : Stage W :=
  mkStage "metrics" pass (fun w c => (match metrics_After (tw_times c w) c (tw_metrics w) with Some m => tw_set_metrics m w | None => tw_panic w end, c)) None.

Definition trace_stage : Stage W := mkStage "trace" pass (fun w c => (if tw_recording w then tw_span (trace_After c) w else w, c)) None.

Definition usage_stage : Stage W := mkStage "usage" pass (fun w c => (tw_emit (EventFromCall (tw_times c w) c) w, c)) None.

Context `{RunStore W} `{Embedder W} `{FuzzyStore W} `{Backend W} `{Ledger W}.

(** What the stages are configured with; [d_cache] is the stage of the response cache. *)
Record Deps := mkDeps {
  dp_sha256_hex : string -> string;
  dp_run : run_stage;
  dp_limits : RLStage;
  dp_smart : SmartStage W;
  dp_now : W -> Time;
  dp_budget : option StageOpts;
  dp_is_ipv6 : string -> bool;
  dp_sort : list PIIMatch -> list PIIMatch;
  dp_visit : list (string * string) -> list (string * string);
  dp_cache : Stage W
}.

Definition BuildPipeline (d : Deps) : Pipeline W :=
  Pipeline_New [metrics_stage; trace_stage; usage_stage; agentrun_stage (dp_sha256_hex d) (dp_run d); rl_stage (dp_limits d); smart_stage (dp_smart d);
                budget_stage (dp_now d) (NewStage (dp_budget d)); guard_stage (dp_is_ipv6 d) (dp_sort d) (dp_visit d); dp_cache d].

(** The wiring has the documented order. *)
Lemma build_order d : st_Name (dp_cache d) = "cache" -> Names (BuildPipeline d) = StageOrder.
Proof. intros Hc. unfold Names, BuildPipeline. cbn. by rewrite Hc. Qed.

(** Each call that enters the pipeline is accounted for once: whichever stage answers or refuses it,
    the hooks of usage, trace and metrics run after all the others, in this order and once each. *)
Theorem calls_accounted_once (d : Deps) (w : W) (c : Call) :
  let '(w1, r1, res) := Pipeline_Before (observed_pipeline (BuildPipeline d)) (w, []) (c, O) in
  exists n w2 c2, Pipeline_After (observed_pipeline (BuildPipeline d)) w1 r1 = Some (w2, c2) /\ (n <= 6)%nat /\
    w2.2 = map HBefore (seq 0 (3 + n)) ++ map HAfter (rev (seq 3 n)) ++ [HAfter 2; HAfter 1; HAfter 0] /\
    (res = (false, None) -> n = 6%nat).
Proof.
  set (rest := [agentrun_stage (dp_sha256_hex d) (dp_run d); rl_stage (dp_limits d); smart_stage (dp_smart d);
                budget_stage (dp_now d) (NewStage (dp_budget d)); guard_stage (dp_is_ipv6 d) (dp_sort d) (dp_visit d); dp_cache d]).
  pose proof (before_stages_trace rest 3 (w, [HBefore 0; HBefore 1; HBefore 2]) c) as Ht.
  assert (Pipeline_Before (observed_pipeline (BuildPipeline d)) (w, []) (c, O) =
    before_stages (imap (fun i => observed (3 + i)) rest) (w, [HBefore 0; HBefore 1; HBefore 2]) (c, 3%nat)) as -> by reflexivity.
  destruct (before_stages _ _ _) as [[w1 [c1 ran]] res]. destruct Ht as (n & Hn & Hr & Hw & Hall & _). cbn [snd] in *. subst ran.
  destruct (after_from_trace (BuildPipeline d) (3 + n) w1 c1) as (w2 & c2 & Ha & Hw2); [cbn; unfold rest in Hn; cbn in Hn; lia|].
  exists n, w2, c2. split_and!; [exact Ha|done| |done]. rewrite Hw2, Hw. cbn [plus seq rev map app]. by rewrite <- !app_assoc, !map_app.
Qed.
End BuildPipeline.
Arguments Deps : clear implicits.

(** ** What the metrics say *)

Lemma counter_add_spec name labels v m m' : counter_add name labels v m = Some m' ->
  fltb v f0 = false /\ mt_values m' = <[(name, labels) := fadd (value_of (name, labels) m) v]> (mt_values m) /\ mt_observed m' = mt_observed m.
Proof. unfold counter_add, with_labels. repeat case_match; try done. by intros [= <-]. Qed.

Lemma counter_add_some name labels v m : length labels = labels_of name -> fltb v f0 = false -> exists m', counter_add name labels v m = Some m'.
Proof. intros Hl Hv. unfold counter_add, with_labels. rewrite Hl, Nat.eqb_refl, Hv. by eexists. Qed.

Lemma observe_some name labels v m : length labels = labels_of name -> exists m', observe name labels v m = Some m' /\ mt_values m' = mt_values m.
Proof. intros Hl. unfold observe, with_labels. rewrite Hl, Nat.eqb_refl. by eexists. Qed.

Lemma of_Z_nonneg n : 0 <= n -> exact_int n -> fltb (f_of_Z n) f0 = false.
Proof. intros Hn He. change f0 with (f_of_Z 0). rewrite fltb_exact by done. by apply Z.ltb_ge. Qed.

(** Numbers that a counter can be increased by. *)
Definition countable (c : Call) : Prop :=
  let u := cl_Usage c in
  fltb (f_of_Z (u_PromptTokens u)) f0 = false /\ fltb (f_of_Z (u_CompletionTokens u)) f0 = false /\
  fltb (f_of_Z (Usage_CachedTokens u)) f0 = false /\ fltb (usd (cl_CostMicros c)) f0 = false.

Lemma value_insert k k' v m m' : mt_values m' = <[k' := v]> (mt_values m) -> value_of k m' = if decide (k = k') then v else value_of k m.
Proof. intros E. unfold value_of. rewrite E. destruct (decide (k = k')) as [->|]; [by rewrite lookup_insert_eq|by rewrite lookup_insert_ne]. Qed.

Lemma other_family name labels k v m m' : counter_add name labels v m = Some m' -> k.1 <> name -> value_of k m' = value_of k m.
Proof. intros (_ & E & _)%counter_add_spec Hk. rewrite (value_insert _ _ _ _ _ E). destruct (decide _) as [->|]; [by destruct Hk|done]. Qed.

Lemma observed_value name labels v m m' k : observe name labels v m = Some m' -> value_of k m' = value_of k m.
Proof. unfold observe, with_labels. case_match; [|done]. by intros [= <-]. Qed.

(** One step of a sequence of reports that may panic. *)
Lemma report_step (x : option metrics) (g : metrics -> option metrics) : is_Some x -> (forall m, is_Some (g m)) -> is_Some (x ≫= g).
Proof. intros [m ->] Hg. apply Hg. Qed.

(** A call with numbers that are not negative is reported without a panic. *)
Theorem metrics_total tm c m : countable c -> is_Some (metrics_After tm c m).
Proof.
  intros (H1 & H2 & H3 & H4). unfold metrics_After.
  assert (forall name labels v m, length labels = labels_of name -> fltb v f0 = false -> is_Some (counter_add name labels v m)) as Hadd
    by (intros name labels v m0 Hl Hv; destruct (counter_add_some name labels v m0 Hl Hv) as [m1 ->]; by eexists).
  assert (forall (b : bool) name labels v m, length labels = labels_of name -> is_Some (if b then observe name labels v m else Some m)) as Hobs.
  { intros [] name labels v m0 Hl; [destruct (observe_some name labels v m0 Hl) as (m1 & -> & _)|]; by eexists. }
  apply report_step; [by apply Hadd|intros m1]. apply report_step; [by apply (Hobs true)|intros m2].
  apply report_step; [by apply Hobs|intros m3]. apply report_step; [by apply Hobs|intros m4].
  do 4 (apply report_step; [by apply Hadd|intros ?]). destruct (cl_Values c !! "cost.unpriced"); [|by eexists].
  apply report_step; [by apply Hadd|intros ?]. by apply Hadd.
Qed.

(** *** Requests are counted exactly *)

Definition is_request (k : series) : Prop := k.1 = "proofgate_requests_total".
Definition same_requests (m m' : metrics) : Prop := forall k, is_request k -> value_of k m' = value_of k m.

Lemma then_same m m' (x : option metrics) (g : metrics -> option metrics) :
  (forall m1, x = Some m1 -> same_requests m m1) -> (forall m1, g m1 = Some m' -> same_requests m1 m') -> (x ≫= g) = Some m' -> same_requests m m'.
Proof. intros Hx Hg. destruct x as [m1|]; [|done]. intros E k Hk. rewrite (Hg m1 E k Hk). by apply Hx. Qed.

Lemma add_same name labels v m m' : name <> "proofgate_requests_total" -> counter_add name labels v m = Some m' -> same_requests m m'.
Proof. intros Hn E k Hk. eapply other_family; [exact E|]. unfold is_request in Hk. congruence. Qed.

Lemma observe_same (b : bool) name labels v m m' : (if b then observe name labels v m else Some m) = Some m' -> same_requests m m'.
Proof. destruct b; [|by intros [= <-]]. intros E k _. by eapply observed_value. Qed.

(** A call adds one to its own series of requests and nothing to the others. *)
Lemma metrics_After_requests tm c m m' k : is_request k -> metrics_After tm c m = Some m' ->
  value_of k m' = if decide (k = ("proofgate_requests_total", request_labels c)) then fadd (value_of k m) f1 else value_of k m.
Proof.
  intros Hk. unfold metrics_After. destruct (counter_inc _ _ m) as [m1|] eqn:E1; [|done]. apply counter_add_spec in E1 as (_ & E1 & _).
  intros E. transitivity (value_of k m1); [|rewrite (value_insert k _ _ _ _ E1); by destruct (decide _) as [->|]].
  revert k Hk. change (same_requests m1 m'). clear E1. revert E. cbn [mbind option_bind].
  apply then_same; [intros ?; apply (observe_same true)|intros m2]. apply then_same; [intros ?; apply observe_same|intros m3]. apply then_same; [intros ?; apply observe_same|intros m4].
  do 4 (apply then_same; [by intros ?; apply add_same|intros ?]). destruct (cl_Values c !! "cost.unpriced"); [|by intros [= <-]].
  apply then_same; [by intros ?; apply add_same|intros ?]. by apply add_same.
Qed.

(** The reports of a run of calls. *)
Fixpoint report_all (l : list (CallTimes * Call)) (m : metrics) : option metrics :=
  match l with [] => Some m | (tm, c) :: l => metrics_After tm c m ≫= report_all l end.

Definition calls_with (labels : list string) (l : list (CallTimes * Call)) : Z := Z.of_nat (length (filter (fun x => request_labels x.2 = labels) l)).

Lemma report_all_requests l : forall m m' labels a, report_all l m = Some m' -> value_of ("proofgate_requests_total", labels) m = f_of_Z a ->
  0 <= a -> exact_int (a + Z.of_nat (length l)) -> value_of ("proofgate_requests_total", labels) m' = f_of_Z (a + calls_with labels l).
Proof.
  induction l as [|[tm c] l IH]; intros m m' labels a; cbn [report_all].
  { intros [= <-] ->. intros. unfold calls_with. cbn. by rewrite Z.add_0_r. }
  destruct (metrics_After tm c m) as [m1|] eqn:E1; [|done]. cbn [mbind option_bind]. intros E Hv Ha He. unfold exact_int in He. cbn [length] in He.
  pose proof (metrics_After_requests tm c m m1 ("proofgate_requests_total", labels) eq_refl E1) as H1. rewrite Hv in H1. unfold calls_with. rewrite filter_cons. cbn [snd].
  destruct (decide (request_labels c = labels)) as [<-|Hn].
  - rewrite decide_True in H1 by done. change f1 with (f_of_Z 1) in H1. rewrite fadd_exact in H1 by (unfold exact_int; lia).
    rewrite (IH m1 m' _ (a + 1) E H1); [|lia|unfold exact_int; lia]. cbn [length]. unfold calls_with. f_equal. lia.
  - rewrite decide_False in H1 by (intros [= ?]; congruence). rewrite (IH m1 m' _ a E H1); [done|lia|unfold exact_int; lia].
Qed.

(** After any run of calls each series of [proofgate_requests_total] is the number of calls with
    its route, target, status, cache status and kind. *)
Theorem requests_counted l m labels : report_all l NewMetrics = Some m -> Z.of_nat (length l) < 2 ^ 53 ->
  value_of ("proofgate_requests_total", labels) m = f_of_Z (calls_with labels l).
Proof. intros E Hl. rewrite (report_all_requests l NewMetrics m labels 0 E); [done|done|lia|unfold exact_int; lia]. Qed.

(** ** What the events say *)

Lemma clamp_range hi d : 0 <= hi -> 0 <= clamp hi d <= hi.
Proof. unfold clamp. intros. destruct (Z.ltb_spec d 0); [lia|]. destruct (Z.ltb_spec hi d); lia. Qed.

(** The columns of an event fit their types, and numbers that do are not changed. *)
Lemma event_fits tm c :
  let e := EventFromCall tm c in
  0 <= ue_Attempts e <= 255 /\ Forall (fun n => 0 <= n <= 4294967295) [ue_PromptTokens e; ue_CompletionTokens e; ue_CachedTokens e; ue_LatencyMs e; ue_TTFTMs e; ue_OverheadUs e] /\
  (0 <= u_PromptTokens (cl_Usage c) <= 4294967295 -> ue_PromptTokens e = u_PromptTokens (cl_Usage c)) /\
  ue_CostMicros e = cl_CostMicros c /\ ue_Status e = StatusOf (cl_Err c).
Proof.
  cbn. unfold clampU8, clampU32. split; [apply clamp_range; lia|]. split; [|split; [|by split]].
  - repeat apply Forall_cons_2; try (apply clamp_range; lia); [|constructor]. destruct (negb _); [|lia]. apply clamp_range; lia.
  - intros H. unfold clamp. destruct (Z.ltb_spec (u_PromptTokens (cl_Usage c)) 0); [lia|]. destruct (Z.ltb_spec 4294967295 (u_PromptTokens (cl_Usage c))); lia.
Qed.

Lemma append_rows_spec {R : Type} (row : R -> list column) accepts rows : forall batch out,
  append_rows row accepts rows batch = Some out <-> Forall (fun r => accepts (row r) = true) rows /\ out = batch ++ map row rows.
Proof.
  induction rows as [|r rows IH]; intros batch out; cbn.
  - rewrite app_nil_r. split; [by intros [= <-]|by intros [_ ->]].
  - destruct (accepts (row r)) eqn:E; [|split; [done|intros [[? _]%Forall_cons _]; congruence]]. rewrite IH, Forall_cons, <- app_assoc. tauto.
Qed.

(** A batch of rows is inserted as a whole or not at all. *)
Theorem batch_all_or_nothing {R : Type} (row : R -> list column) accepts prepared sent rows table :
  insert_rows row accepts prepared sent rows table =
  if prepared && sent && forallb (fun r => accepts (row r)) rows then (table ++ map row rows, true) else (table, false).
Proof.
  unfold insert_rows. destruct prepared; [|done]. cbn [negb andb]. destruct (append_rows row accepts rows []) as [b|] eqn:E.
  - apply append_rows_spec in E as [Hf ->]. replace (forallb _ rows) with true; [by destruct sent|]. symmetry. apply forallb_forall. rewrite Forall_forall in Hf.
    intros x Hx. by apply Hf, list_elem_of_In.
  - replace (forallb (fun r => accepts (row r)) rows) with false; [by rewrite andb_false_r|]. symmetry. apply not_true_is_false. intros Hf. rewrite forallb_forall in Hf.
    assert (append_rows row accepts rows [] = Some ([] ++ map row rows)); [|congruence]. apply append_rows_spec. split; [|done]. apply Forall_forall. intros x Hx. by apply Hf, list_elem_of_In.
Qed.

(** ** What the access log says *)

(** The status is the first one that was set, or that of the first write. *)
Lemma logged_status ops : forall w, sw_status (for_range ops w sw_step) =
  if sw_status w =? 0 then match List.find (fun o => match o with WWriteHeader c => negb (c =? 0) | WWrite _ => true end) ops with
                           | Some (WWriteHeader c) => c | Some (WWrite _) => 200 | None => 0 end
  else sw_status w.
Proof.
  induction ops as [|o ops IH]; intros w; cbn [List.find]; [unfold for_range; cbn; by destruct (Z.eqb_spec (sw_status w) 0)|].
  change (for_range (o :: ops) w sw_step) with (for_range ops (sw_step w o) sw_step). rewrite IH.
  destruct o as [c|n]; cbn; destruct (Z.eqb_spec (sw_status w) 0) as [E|E]; cbn.
  - destruct (Z.eqb_spec c 0) as [->|Hc]; [done|]. done.
  - by apply Z.eqb_neq in E as ->.
  - done.
  - by apply Z.eqb_neq in E as ->.
Qed.

(** ** Examples *)

Module Demo.
Definition demo_call (u : Usage) : Call :=
  let c := NewCall "id" 0 (mkPrincipal "t1" "Tenant" "k1" "Key" [] false no_limits no_key_policy) (plain_request "gpt" []) None in
  mkCall (cl_ID c) (cl_Start c) (cl_Principal c) (cl_Request c) (cl_Route c) (cl_Stream c) (cl_Response c) (cl_ClientResponse c) (mkTarget "openai" "gpt")
    1 u 2500000 0 "miss" None false ∅ ∅ ∅.
Definition demo_times : CallTimes := mkCallTimes 3000000 0 1000000 5000000.

(** A provider that reports a negative number of tokens makes the report panic after the answer. *)
Example negative_tokens_panic :
  metrics_After demo_times (demo_call (mkUsage (-1) 2 1 None)) NewMetrics = None /\
  is_Some (metrics_After demo_times (demo_call (mkUsage 1 2 3 None)) NewMetrics).
Proof. split; [by vm_compute|]. apply metrics_total. by vm_compute. Qed.

(** The request that was authenticated is another one than the one logged. *)
Example tenant_not_logged :
  (AccessLog (fun r => let r' := mkAccessRequest (aq_Method r) (aq_Path r) (Some (cl_Principal (demo_call zero_usage))) in
                       ([WWriteHeader 200; WWrite 12], ∅, 1000000)) (mkAccessRequest "POST" "/v1/chat/completions" None)).2 =
  mkAccessLine "POST" "/v1/chat/completions" 200 12 1 "" "" "" "".
Proof. by vm_compute. Qed.

Example silent_handler_logs_zero : al_status (AccessLog (fun _ => ([], ∅, 0)) (mkAccessRequest "GET" "/" None)).2 = 0.
Proof. done. Qed.
End Demo.
