(* ===== verification/BenchTools.v ===== *)
(** * Measuring tools (src/cmd: loadgen, chaos, replay, benchreport, routeeval)

    What they compute from the answers that a load, a drill, a replay or an evaluation has
    collected, and the report rendered from the results.  Sending requests, files and printing
    are outside. *)

From S2P Require Import Prelude GoStrings GoFloat GoFloatInt GoSort Config Api SmartRoute Stats Evidence.

Open Scope string_scope.
Open Scope list_scope.
Open Scope Z_scope.

(** ** Measuring load and failover (src/cmd/loadgen, cmd/chaos)

    What is computed from the answers that a load or a failover drill has collected.  Sending
    the requests and writing the results is outside. *)

(** *** Percentiles *)

Definition by_duration (a b : Duration) : bool := a <? b.
Definition sorted_durations (ds : list Duration) : list Duration := stable_sort by_duration ds.

(** [int(q * float64(n-1))] *)
Definition pct_index (q : spec_float) (n : nat) : Z := f_to_int64 (fmul q (f_of_Z (Z.of_nat n - 1))).

(** The duration at a quantile; [None] is an index out of range. *)
Definition at_quantile (q : spec_float) (sorted : list Duration) : option Duration :=
  let i := pct_index q (length sorted) in if i <? 0 then None else sorted !! Z.to_nat i.

(** [float64(d.Microseconds()) / 1000] *)
Definition as_ms (d : Duration) : spec_float := fdiv (f_of_Z (Z.quot d 1000)) (f_of_Z 1000).

(** [pct] of cmd/replay and [p95] of cmd/chaos. *)
Definition pct (ds : list Duration) (p : spec_float) : option spec_float :=
  match ds with [] => Some f0 | _ => as_ms <$> at_quantile p (sorted_durations ds) end.
Definition p95 (ds : list Duration) : option spec_float := pct ds (f_lit 95 100).

(** **** Rounding a product with a fraction *)

Lemma shr_1_half r : 0 <= shr_m r -> shr_m (shr_1 r) = shr_m r / 2.
Proof. destruct r as [[|[p|p|]|] b c]; cbn [shr_m shr_1]; intros H; [done| | |done|lia]; [apply (Z.div_unique_pos _ 2 _ 1); lia|apply (Z.div_unique_pos _ 2 _ 0); lia]. Qed.

Lemma shr_div r e p : 0 <= shr_m r -> let '(r', e') := shr r e (Zpos p) in shr_m r' = shr_m r / 2 ^ Zpos p /\ e' = e + Zpos p.
Proof.
  intros H. cbn [shr]. split; [|done]. revert r H. induction p as [|p IH] using Pos.peano_ind; intros r H.
  - cbn [iter_pos]. by rewrite shr_1_half.
  - rewrite iter_pos_S, IH by (rewrite shr_1_half by done; by apply Z.div_pos). rewrite shr_1_half by done. rewrite Z.div_div by lia. f_equal.
    rewrite Pos2Z.inj_succ, Z.pow_succ_r by lia. lia.
Qed.

(** The last steps of a rounding, from a mantissa of 53 bits: it stays or grows by one. *)
Lemma round_tail m1 l1 e1 : shr_m l1 = m1 -> 2 ^ 52 <= m1 < 2 ^ 53 -> -900 <= e1 <= 900 ->
  exists m e k, (let '(r, e') := shr_fexp 53 1024 (round_nearest_even m1 (loc_of_shr_record l1)) e1 loc_Exact in
       match shr_m r with Z0 => S754_zero false | Zpos m => if e' <=? 1024 - 53 then S754_finite false m e' else S754_infinity false | Zneg _ => S754_nan end)
    = S754_finite false m e /\ 0 <= k <= 1 /\ e1 <= e <= e1 + 1 /\ Zpos m * 2 ^ (e - e1) = m1 + k.
Proof.
  intros _ Hb He. set (r := round_nearest_even m1 (loc_of_shr_record l1)).
  assert (m1 <= r <= m1 + 1) as Hr by (unfold r, round_nearest_even; repeat case_match; lia).
  destruct r as [|p|p] eqn:Ep; [lia| |lia]. rewrite shr_fexp_log2. destruct (Z.eq_dec (Zpos p) (2 ^ 53)) as [E|N].
  - assert (p = Z.to_pos (2 ^ 53)) as -> by (rewrite <- E; done). change (Z.log2 (Zpos (Z.to_pos (2 ^ 53)))) with 53. rewrite fexp_53 by lia.
    replace (53 + 1 + e1 - 53 - e1) with 1 by lia. cbn [shr iter_pos]. change (shr_m _) with (Zpos (Z.to_pos (2 ^ 52))). destruct (Z.leb_spec (e1 + 1) (1024 - 53)); [|lia].
    exists (Z.to_pos (2 ^ 52)), (e1 + 1), (2 ^ 53 - m1). split; [done|]. split; [lia|]. split; [lia|]. replace (e1 + 1 - e1) with 1 by lia. lia.
  - assert (Z.log2 (Zpos p) = 52) as Hp by (apply Z.log2_unique; [lia|]; change (2 ^ Z.succ 52) with (2 ^ 53); lia).
    rewrite Hp, fexp_53 by lia. replace (52 + 1 + e1 - 53 - e1) with 0 by lia. cbn [shr shr_m]. destruct (Z.leb_spec e1 (1024 - 53)); [|lia].
    exists p, e1, (Zpos p - m1). split; [done|]. split; [lia|]. split; [lia|]. rewrite Z.sub_diag. lia.
Qed.

(** The product of a fraction [mx * 2^-53] and a number [my * 2^ey]: between the floor and the ceiling in its last place. *)
Lemma fmul_fraction mx my ey : 2 ^ 52 <= Zpos mx < 2 ^ 53 -> 2 ^ 52 <= Zpos my < 2 ^ 53 -> -52 <= ey <= 0 ->
  exists m e s k, fmul (S754_finite false mx (-53)) (S754_finite false my ey) = S754_finite false m e /\ 52 <= s <= 53 /\ 0 <= k <= 1 /\
    ey + s - 53 <= e <= ey + s - 52 /\ Zpos m * 2 ^ (e - (ey + s - 53)) = Zpos mx * Zpos my / 2 ^ s + k /\ 2 ^ 52 <= Zpos mx * Zpos my / 2 ^ s.
Proof.
  intros Hx Hy He. unfold fmul, SFmul. cbn [xorb]. unfold binary_round_aux. set (P := (mx * my)%positive). assert (Zpos P = Zpos mx * Zpos my) as EP by done.
  assert (exists s, 52 <= s <= 53 /\ Z.log2 (Zpos P) = 52 + s) as (s & Hs & Hl).
  { assert (104 <= Z.log2 (Zpos P)) by (apply Z.log2_le_pow2; [lia|]; rewrite EP; nia). assert (Z.log2 (Zpos P) < 106) by (apply Z.log2_lt_pow2; [lia|]; rewrite EP; nia).
    exists (Z.log2 (Zpos P) - 52). lia. }
  rewrite shr_fexp_log2, Hl, fexp_53 by lia. replace (52 + s + 1 + (-53 + ey) - 53 - (-53 + ey)) with s by lia.
  pose proof (shr_div {| shr_m := Zpos P; shr_r := false; shr_s := false |} (-53 + ey) (Z.to_pos s)) as Hd. rewrite Z2Pos.id in Hd by lia.
  destruct (shr _ _ s) as [l1 e1]. destruct (Hd ltac:(cbn; lia)) as [Em ->]. cbn [shr_m] in Em. clear Hd.
  assert (2 ^ 52 <= Zpos P / 2 ^ s < 2 ^ 53) as Hb.
  { pose proof (Z.log2_spec (Zpos P) ltac:(lia)) as [H1 H2]. rewrite Hl in H1, H2. rewrite Z.pow_add_r in H1 by lia. replace (Z.succ (52 + s)) with (53 + s) in H2 by lia.
    rewrite Z.pow_add_r in H2 by lia. split; [apply Z.div_le_lower_bound; lia|apply Z.div_lt_upper_bound; lia]. }
  rewrite Em. destruct (round_tail (Zpos P / 2 ^ s) l1 (-53 + ey + s) Em Hb ltac:(lia)) as (m & e & k & E & Hk & He' & Hv). exists m, e, s, k.
  split; [exact E|]. split; [lia|]. split; [lia|]. split; [lia|]. rewrite <- EP. split; [|lia]. by replace (e - (ey + s - 53)) with (e - (-53 + ey + s)) by lia.
Qed.
(** The integer part of such a product with [k], scaled: close to the exact one, and not above [k]. *)
Lemma fraction_index mx k : 2 ^ 52 <= Zpos mx < 2 ^ 53 -> 1 <= k < 2 ^ 53 ->
  exists V, let w := 2 ^ (105 - Z.log2 k) in let my := k * 2 ^ (52 - Z.log2 k) in
    f_to_int64 (fmul (S754_finite false mx (-53)) (f_of_Z k)) = V / w /\ 0 <= V <= k * w /\ Zpos mx * my - 2 ^ 53 <= V <= Zpos mx * my + 2 ^ 53.
Proof.
  intros Hx Hk. rewrite f_of_Z_can by (unfold exact_int; lia). destruct k as [|v|v]; [lia| |lia]. cbn [fcanZ]. unfold fcan.
  pose proof (log2_bound v ltac:(lia)) as Hl. pose proof (mantissa_log2 v ltac:(lia)) as [Hm Hm0]. set (L := Z.log2 (Zpos v)) in *.
  set (my := Z.to_pos (Zpos v * 2 ^ (52 - L))). assert (Zpos my = Zpos v * 2 ^ (52 - L)) as Emy by (unfold my; rewrite Z2Pos.id; lia).
  assert (2 ^ 52 <= Zpos my < 2 ^ 53) as Hmy by (rewrite Emy; pose proof (Z.log2_spec _ Hm0) as Hs; rewrite Hm in Hs; exact Hs).
  destruct (fmul_fraction mx my (L - 52) Hx Hmy ltac:(lia)) as (m & e & s & c & -> & Hs & Hc & He & Hv & Hge). replace (L - 52 + s - 53) with (- (105 - L - s)) in Hv by lia.
  set (j := 105 - L - s) in *. assert (0 <= j) by lia. set (M := Zpos mx * Zpos my / 2 ^ s + c) in *. replace (e - - j) with (e + j) in Hv by lia.
  assert (2 ^ (105 - L) = 2 ^ j * 2 ^ s) as Ew by (rewrite <- Z.pow_add_r by lia; f_equal; lia).
  assert (0 < 2 ^ s) as H2s by (apply Z.pow_pos_nonneg; lia). assert (0 < 2 ^ j) as H2j by (apply Z.pow_pos_nonneg; lia).
  pose proof (Z.div_mod (Zpos mx * Zpos my) (2 ^ s) ltac:(lia)) as Hdm. pose proof (Z.mod_pos_bound (Zpos mx * Zpos my) (2 ^ s) H2s) as Hmod.
  assert (M <= Zpos v * 2 ^ j) as HM.
  { assert (Zpos mx * Zpos my / 2 ^ s < Zpos v * 2 ^ j); [|unfold M; lia]. apply Z.div_lt_upper_bound; [lia|].
    replace (2 ^ s * (Zpos v * 2 ^ j)) with (Zpos v * 2 ^ (105 - L)) by (rewrite Ew; ring). rewrite Emy. replace (105 - L) with (53 + (52 - L)) by lia.
    rewrite Z.pow_add_r by lia. set (B := 2 ^ (52 - L)) in *. assert (0 < B) by (apply Z.pow_pos_nonneg; lia).
    replace (Zpos v * (2 ^ 53 * B)) with (2 ^ 53 * (Zpos v * B)) by ring. apply Z.mul_lt_mono_pos_r; [by apply Z.mul_pos_pos|lia]. }
  assert (f_to_int64 (S754_finite false m e) = M / 2 ^ j) as ->.
  { unfold f_to_int64, f_integral. assert (Z.quot (f_num (S754_finite false m e)) (f_den (S754_finite false m e)) = M / 2 ^ j) as ->.
    { cbn [f_num f_den]. rewrite <- Hv. destruct (Z_le_dec 0 e).
      - rewrite Z.max_r, (Z.max_l 0 (- e)), Z.pow_0_r, Z.quot_1_r, Z.pow_add_r, Z.mul_assoc, Z.div_mul by lia. done.
      - rewrite Z.max_l, (Z.max_r 0 (- e)), Z.pow_0_r, Z.mul_1_r by lia. rewrite Z.quot_div_nonneg; [|lia|apply Z.pow_pos_nonneg; lia].
        replace (2 ^ j) with (2 ^ (- e) * 2 ^ (e + j)) by (rewrite <- Z.pow_add_r by lia; f_equal; lia). by rewrite Z.div_mul_cancel_r; [|apply Z.pow_nonzero; lia..]. }
    assert (0 <= M / 2 ^ j <= Zpos v); [|unfold int64_of, int64_min, int64_max; destruct (Z.leb_spec (- 2 ^ 63) (M / 2 ^ j)), (Z.leb_spec (M / 2 ^ j) (2 ^ 63 - 1)); cbn; lia].
    split; [apply Z.div_pos; lia|]. apply Z.div_le_upper_bound; lia. }
  exists (M * 2 ^ s). cbn zeta. rewrite Ew, Z.div_mul_cancel_r by lia. split; [done|]. rewrite <- Emy. split; [split; [nia|]|].
  - rewrite Z.mul_assoc. by apply Z.mul_le_mono_nonneg_r; [lia|].
  - assert (2 ^ s <= 2 ^ 53) by (apply Z.pow_le_mono_r; lia). unfold M. rewrite Z.mul_add_distr_r. nia.
Qed.

(** Fractions that differ by four units or more are multiplied in order. *)
Lemma fraction_order mx mx' n : 2 ^ 52 <= Zpos mx < 2 ^ 53 -> 2 ^ 52 <= Zpos mx' < 2 ^ 53 -> Zpos mx + 4 <= Zpos mx' -> (1 <= n)%nat -> Z.of_nat n <= 2 ^ 53 ->
  0 <= pct_index (S754_finite false mx (-53)) n <= pct_index (S754_finite false mx' (-53)) n /\ pct_index (S754_finite false mx' (-53)) n < Z.of_nat n.
Proof.
  intros Hx Hx' Hd Hn Hn'. unfold pct_index. destruct (Z.eq_dec (Z.of_nat n - 1) 0) as [->|Hk]; [assert (forall m, f_to_int64 (fmul (S754_finite false m (-53)) (f_of_Z 0)) = 0) as Hz by done; rewrite !Hz; lia|].
  set (k := Z.of_nat n - 1) in *. destruct (fraction_index mx k Hx ltac:(lia)) as (V & -> & HV & HVb). destruct (fraction_index mx' k Hx' ltac:(lia)) as (V' & -> & HV' & HVb').
  assert (0 <= Z.log2 k <= 52) as HL by (split; [apply Z.log2_nonneg|]; assert (Z.log2 k < 53) by (apply Z.log2_lt_pow2; lia); lia).
  set (w := 2 ^ (105 - Z.log2 k)) in *. assert (0 < w) by (apply Z.pow_pos_nonneg; lia).
  assert (2 ^ 52 <= k * 2 ^ (52 - Z.log2 k)) as Hmy.
  { pose proof (Z.log2_spec k ltac:(lia)) as [H1 _]. replace 52 with (Z.log2 k + (52 - Z.log2 k)) at 1 by lia. rewrite Z.pow_add_r by lia. apply Z.mul_le_mono_nonneg_r; [apply Z.pow_nonneg; lia|lia]. }
  set (my := k * 2 ^ (52 - Z.log2 k)) in *. split; [split; [apply Z.div_pos; lia|apply Z.div_le_mono; nia]|]. assert (V' / w <= k) by (apply Z.div_le_upper_bound; lia). lia.
Qed.

Lemma quantiles n : (1 <= n)%nat -> Z.of_nat n <= 2 ^ 53 ->
  0 <= pct_index (f_lit 5 10) n <= pct_index (f_lit 9 10) n /\ pct_index (f_lit 9 10) n <= pct_index (f_lit 95 100) n <= pct_index (f_lit 99 100) n /\
  pct_index (f_lit 99 100) n < Z.of_nat n.
Proof.
  intros Hn Hn'. change (f_lit 5 10) with (S754_finite false 4503599627370496 (-53)).
  assert (f_lit 9 10 = S754_finite false 8106479329266893 (-53)) as -> by (by vm_compute). assert (f_lit 95 100 = S754_finite false 8556839292003942 (-53)) as -> by (by vm_compute).
  assert (f_lit 99 100 = S754_finite false 8917127262193582 (-53)) as -> by (by vm_compute).
  destruct (fraction_order 4503599627370496 8106479329266893 n ltac:(lia) ltac:(lia) ltac:(lia) Hn Hn'). destruct (fraction_order 8106479329266893 8556839292003942 n ltac:(lia) ltac:(lia) ltac:(lia) Hn Hn').
  destruct (fraction_order 8556839292003942 8917127262193582 n ltac:(lia) ltac:(lia) ltac:(lia) Hn Hn'). lia.
Qed.

(** **** Which sample a quantile picks *)

Lemma sorted_durations_perm ds : sorted_durations ds ≡ₚ ds.
Proof. apply stable_sort_perm. Qed.

Lemma sorted_durations_sorted ds : StronglySorted Z.le (sorted_durations ds).
Proof.
  assert (StronglySorted (nle by_duration) (sorted_durations ds)) as H.
  { apply (stable_sort_sorted by_duration (fun _ => True)); [|by intros x y z _ _ _; unfold by_duration; rewrite !Z.ltb_ge; lia|by apply Forall_true].
    intros x y _ _. unfold by_duration. rewrite Z.ltb_lt, Z.ltb_ge. lia. }
  induction H as [|x l Hs IH Hall]; constructor; [done|]. eapply Forall_impl; [exact Hall|]. intros y Hy. unfold nle, by_duration in Hy. by apply Z.ltb_ge in Hy.
Qed.

Lemma sorted_le (l : list Z) i j x y : StronglySorted Z.le l -> (i <= j)%nat -> l !! i = Some x -> l !! j = Some y -> x <= y.
Proof.
  intros Hs. revert i j. induction Hs as [|z l Hs IH Hall]; intros i j Hij Hi Hj; [done|]. destruct i as [|i], j as [|j]; simplify_eq/=; try lia.
  - rewrite Forall_forall in Hall. apply Hall. by eapply list_elem_of_lookup_2.
  - eapply IH; [|done..]. lia.
Qed.

(** A quantile of a sample exists, is one of the sample, and a higher quantile is not lower. *)
Theorem quantiles_ordered ds : (1 <= length ds)%nat -> Z.of_nat (length ds) <= 2 ^ 53 ->
  exists d50 d90 d99 mx, at_quantile (f_lit 5 10) (sorted_durations ds) = Some d50 /\ at_quantile (f_lit 9 10) (sorted_durations ds) = Some d90 /\
    at_quantile (f_lit 99 100) (sorted_durations ds) = Some d99 /\ last (sorted_durations ds) = Some mx /\
    d50 <= d90 <= d99 /\ d99 <= mx /\ Forall (fun d => d <= mx) ds /\ d50 ∈ ds.
Proof.
  intros Hn Hn'. pose proof (sorted_durations_sorted ds) as Hs. pose proof (sorted_durations_perm ds) as Hp. pose proof (Permutation_length Hp) as Hl.
  pose proof (quantiles (length ds) Hn Hn') as (H1 & H2 & H3). set (l := sorted_durations ds) in *. unfold at_quantile. rewrite Hl.
  assert (forall i, 0 <= i < Z.of_nat (length ds) -> exists d, (if i <? 0 then None else l !! Z.to_nat i) = Some d /\ l !! Z.to_nat i = Some d) as Hat.
  { intros i Hi. destruct (Z.ltb_spec i 0); [lia|]. destruct (lookup_lt_is_Some_2 l (Z.to_nat i)) as [d Hd]; [lia|]. by exists d. }
  destruct (Hat (pct_index (f_lit 5 10) (length ds))) as (d50 & -> & E50); [lia|]. destruct (Hat (pct_index (f_lit 9 10) (length ds))) as (d90 & -> & E90); [lia|].
  destruct (Hat (pct_index (f_lit 99 100) (length ds))) as (d99 & -> & E99); [lia|].
  destruct (lookup_lt_is_Some_2 l (Nat.pred (length l))) as [mx Hmx]; [lia|]. exists d50, d90, d99, mx. rewrite last_lookup.
  split_and!; [done..| | | | |]; try (eapply sorted_le; [exact Hs| |eassumption..]; lia).
  - apply Forall_forall. intros d Hd. rewrite <- Hp in Hd. apply list_elem_of_lookup_1 in Hd as [i Hi]. pose proof (lookup_lt_Some _ _ _ Hi).
    eapply sorted_le; [exact Hs| |eassumption..]. lia.
  - rewrite <- Hp. by eapply list_elem_of_lookup_2.
Qed.

(** *** cmd/loadgen *)

Module LoadGen.
Record Record_ := mkRecord { rec_Start : Duration; rec_TTFT : Duration; rec_Total : Duration; rec_Status : Z; rec_Target : string }.
Record Percentiles := mkPercentiles { P50 : spec_float; P90 : spec_float; P99 : spec_float; Max : spec_float; Mean : spec_float }.
Record Summary := mkSummary {
  sm_Duration : spec_float; sm_Requests : Z; sm_Errors : Z; sm_Overload : Z; sm_Achieved : spec_float; sm_TTFT : Percentiles; sm_Total : Percentiles; sm_ByTarget : gmap string Z }.

Definition no_percentiles : Percentiles := mkPercentiles f0 f0 f0 f0 f0.

(** [None] is an index out of range. *)
Definition Pcts (ds : list Duration) : option Percentiles :=
  match ds with
  | [] => Some no_percentiles
  | _ =>
      let sorted := sorted_durations ds in
      let sum := wrap64 (foldr Z.add 0 sorted) in
      p50 ← at_quantile (f_lit 5 10) sorted; p90 ← at_quantile (f_lit 9 10) sorted; p99 ← at_quantile (f_lit 99 100) sorted; mx ← last sorted;
      Some (mkPercentiles (as_ms p50) (as_ms p90) (as_ms p99) (as_ms mx) (fdiv (fdiv (f_of_Z (Z.quot sum 1000)) (f_of_Z 1000)) (f_of_Z (Z.of_nat (length sorted)))))
  end.

(** The sums of the loop: overloads, errors, the two lists of times and the counts of the targets. *)
Record sums := mkSums { su_Overload : Z; su_Errors : Z; su_ttft : list Duration; su_total : list Duration; su_ByTarget : gmap string Z }.

Definition sum_step (s : sums) (r : Record_) : sums :=
  if rec_Status r =? 0 then mkSums (su_Overload s + 1) (su_Errors s + 1) (su_ttft s) (su_total s) (su_ByTarget s)
  else if negb (rec_Status r =? 200) then mkSums (su_Overload s) (su_Errors s + 1) (su_ttft s) (su_total s) (su_ByTarget s)
  else mkSums (su_Overload s) (su_Errors s) (if 0 <? rec_TTFT r then su_ttft s ++ [rec_TTFT r] else su_ttft s) (su_total s ++ [rec_Total r])
         (<[rec_Target r := default 0 (su_ByTarget s !! rec_Target r) + 1]> (su_ByTarget s)).

Definition summed (recs : list Record_) : sums := for_range recs (mkSums 0 0 [] [] ∅) sum_step.

Definition Summarize (recs : list Record_) (dur : Duration) : option Summary :=
  let s := summed recs in
  ttft ← Pcts (su_ttft s); total ← Pcts (su_total s);
  Some (mkSummary (Seconds dur) (Z.of_nat (length recs)) (su_Errors s) (su_Overload s)
          (if 0 <? dur then fdiv (f_of_Z (Z.of_nat (length (su_total s)))) (Seconds dur) else f0) ttft total (su_ByTarget s)).

(** What main does at a tick of the clock: the request is held back when too many are under way, and
    counted as failed, in the warm-up as well; otherwise it is sent and recorded after the warm-up. *)
Inductive tick_action := Stop | HeldBack (r : Record_) | Send (record : bool).
Definition on_tick (el warmup dur : Duration) (inflight : Z) : tick_action :=
  if warmup + dur <=? el then Stop
  else if 10000 <? inflight then HeldBack (mkRecord el 0 0 0 "")
  else Send (warmup <=? el).

Definition total_count (m : gmap string Z) : Z := map_fold (fun _ n a => n + a) 0 m.

Lemma total_count_insert k n (m : gmap string Z) : total_count (<[k := n]> m) = total_count m - default 0 (m !! k) + n.
Proof.
  unfold total_count. destruct (m !! k) as [x|] eqn:E; cbn [default from_option].
  - rewrite (map_fold_delete_L _ 0 k n (<[k := n]> m)); [|intros; lia|by rewrite lookup_insert_eq]. rewrite (map_fold_delete_L _ 0 k x m); [|intros; lia|done].
    rewrite delete_insert_eq. unfold id. lia.
  - rewrite map_fold_insert_L; [lia|intros; lia|done].
Qed.

(** Each record is an error or one answer of a target; held-back requests are errors. *)
Theorem summary_adds_up recs dur s : Summarize recs dur = Some s ->
  sm_Requests s = sm_Errors s + total_count (sm_ByTarget s) /\ 0 <= sm_Overload s <= sm_Errors s /\
  sm_Overload s = Z.of_nat (length (filter (fun r => rec_Status r = 0) recs)).
Proof.
  unfold Summarize. destruct (Pcts (su_ttft (summed recs))) as [p|]; cbn [mbind option_bind]; [|done]. destruct (Pcts (su_total (summed recs))) as [q|]; cbn [mbind option_bind]; [|done]. intros [= <-]. cbn [sm_Requests sm_Errors sm_Overload sm_ByTarget].
  assert (forall s0, let s := for_range recs s0 sum_step in
    su_Errors s + total_count (su_ByTarget s) = su_Errors s0 + total_count (su_ByTarget s0) + Z.of_nat (length recs) /\
    su_Overload s = su_Overload s0 + Z.of_nat (length (filter (fun r => rec_Status r = 0) recs)) /\ su_Errors s0 - su_Overload s0 <= su_Errors s - su_Overload s) as H.
  { unfold for_range. induction recs as [|r recs IH]; intros s0; cbn [fold_left]; [cbn; lia|]. specialize (IH (sum_step s0 r)). cbn zeta in *. destruct IH as (H1 & H2 & H3).
    assert (su_Errors (sum_step s0 r) + total_count (su_ByTarget (sum_step s0 r)) = su_Errors s0 + total_count (su_ByTarget s0) + 1 /\
      su_Overload (sum_step s0 r) = su_Overload s0 + (if decide (rec_Status r = 0) then 1 else 0) /\
      su_Errors s0 - su_Overload s0 <= su_Errors (sum_step s0 r) - su_Overload (sum_step s0 r)) as (S1 & S2 & S3).
    { unfold sum_step. destruct (Z.eqb_spec (rec_Status r) 0) as [E|E]; [rewrite decide_True by done; cbn; lia|rewrite decide_False by done].
      destruct (Z.eqb_spec (rec_Status r) 200); cbn [negb su_Errors su_Overload su_ByTarget]; [|lia]. rewrite total_count_insert. lia. }
    rewrite filter_cons. destruct (decide (rec_Status r = 0)); cbn [length]; lia. }
  destruct (H (mkSums 0 0 [] [] ∅)) as (H1 & H2 & H3). unfold summed. cbn zeta in *. cbn [su_Errors su_ByTarget su_Overload] in *.
  change (total_count ∅) with 0 in H1. split; [lia|]. split; [lia|done].
Qed.

(** A summary is made of any number of records that a run can have. *)
Theorem summary_made recs dur : Z.of_nat (length recs) <= 2 ^ 53 -> is_Some (Summarize recs dur).
Proof.
  intros Hn. assert (forall ds, Z.of_nat (length ds) <= 2 ^ 53 -> is_Some (Pcts ds)) as Hp.
  { intros [|d ds] Hl; [by eexists|]. destruct (quantiles_ordered (d :: ds) ltac:(cbn; lia) Hl) as (a & b & c & e & E1 & E2 & E3 & E4 & _).
    unfold Pcts. rewrite E1, E2, E3, E4. by eexists. }
  assert (forall s0, let s := for_range recs s0 sum_step in (length (su_ttft s) <= length (su_ttft s0) + length recs)%nat /\ (length (su_total s) <= length (su_total s0) + length recs)%nat) as H.
  { unfold for_range. clear. induction recs as [|r recs IH]; intros s0; cbn [fold_left length]; [lia|]. specialize (IH (sum_step s0 r)). cbn zeta in *.
    assert (length (su_ttft (sum_step s0 r)) <= S (length (su_ttft s0)) /\ length (su_total (sum_step s0 r)) <= S (length (su_total s0)))%nat as [S1 S2]
      by (unfold sum_step; repeat case_match; cbn [su_ttft su_total]; rewrite ?length_app; cbn [length]; lia). lia. }
  destruct (H (mkSums 0 0 [] [] ∅)) as [H1 H2]. cbn in H1, H2. unfold Summarize, summed.
  destruct (Hp (su_ttft (for_range recs (mkSums 0 0 [] [] ∅) sum_step))) as [p ->]; [lia|]. destruct (Hp (su_total (for_range recs (mkSums 0 0 [] [] ∅) sum_step))) as [q ->]; [lia|].
  by eexists.
Qed.
End LoadGen.

(** *** cmd/chaos *)

Module Chaos.
Record Obs := mkObs { ob_At : Duration; ob_Target : string; ob_TTFT : Duration; ob_Status : Z }.

(** The answers in a bucket, and those of the healthy target among them. *)
Record agg := mkAgg { ag_ok : Z; ag_good : Z }.

Section Failover.
Context (switchAt : Duration) (healthy : string) (share : spec_float) (bucket : Duration).

Definition bucket_of (o : Obs) : Z := Z.quot (ob_At o - switchAt) bucket.

Definition count_obs (st : gmap Z agg * Z) (o : Obs) : gmap Z agg * Z :=
  if (ob_At o <? switchAt) || negb (ob_Status o =? 200) then st
  else let i := bucket_of o in
       let a := default (mkAgg 0 0) (st.1 !! i) in
       (<[i := mkAgg (ag_ok a + 1) (if String.eqb (ob_Target o) healthy then ag_good a + 1 else ag_good a)]> st.1, Z.max st.2 i).

Definition holds (b : gmap Z agg) (i : Z) : bool :=
  match b !! i with
  | None => false
  | Some a => negb ((ag_ok a =? 0) || fltb (fdiv (f_of_Z (ag_good a)) (f_of_Z (ag_ok a))) share)
  end.

(** The walk back from bucket [i]; [n] is [i + 1]. *)
Fixpoint walk_back (n : nat) (b : gmap Z agg) (first : Z) : Z :=
  match n with
  | O => first
  | S n => if holds b (Z.of_nat n) then walk_back n b (Z.of_nat n) else first
  end.

Definition FailoverTime (obs : list Obs) : option Duration :=
  let '(b, last) := for_range obs (∅, 0) count_obs in
  let first := walk_back (S (Z.to_nat last)) b (-1) in
  if first <? 0 then None else Some (first * bucket).

(** The walk ends at the first bucket from which on the share holds up to [n]. *)
Lemma walk_back_spec b n : forall first, exists m, (m <= n)%nat /\
  walk_back n b first = (if Nat.eqb m n then first else Z.of_nat m) /\ (forall i, (m <= i < n)%nat -> holds b (Z.of_nat i) = true) /\
  (m = O \/ holds b (Z.of_nat (m - 1)) = false).
Proof.
  induction n as [|n IH]; intros first; cbn [walk_back]; [exists O; split_and!; [lia|done|intros; lia|by left]|].
  destruct (holds b (Z.of_nat n)) eqn:E.
  - destruct (IH (Z.of_nat n)) as (m & Hm & Hw & Hall & Hb). exists m. split; [lia|]. split; [|split; [|done]].
    + rewrite Hw. destruct (Nat.eqb_spec m n) as [->|]; [|by rewrite (proj2 (Nat.eqb_neq m (S n))) by lia]. by rewrite (proj2 (Nat.eqb_neq n (S n))) by lia.
    + intros i Hi. destruct (Nat.eq_dec i n) as [->|]; [done|]. apply Hall. lia.
  - exists (S n). split; [lia|]. split; [by rewrite Nat.eqb_refl|]. split; [intros; lia|]. right. by replace (S n - 1)%nat with n by lia.
Qed.

(** The failover time is the start of the first bucket from which the healthy target has its
    share in every bucket up to the last one with an answer; without one there is none. *)
Theorem failover_first_held obs : let '(b, last) := for_range obs (∅, 0) count_obs in 0 <= last ->
  match FailoverTime obs with
  | Some t => exists i, 0 <= i <= last /\ t = i * bucket /\ (forall j, i <= j <= last -> holds b j = true) /\ (i = 0 \/ holds b (i - 1) = false)
  | None => holds b last = false
  end.
Proof.
  unfold FailoverTime. destruct (for_range obs (∅, 0) count_obs) as [b last]. intros Hl. destruct (walk_back_spec b (S (Z.to_nat last)) (-1)) as (m & Hm & -> & Hall & Hb).
  destruct (Nat.eqb_spec m (S (Z.to_nat last))) as [->|Hn].
  - destruct (Z.ltb_spec (-1) 0); [|lia]. destruct Hb as [?|Hb]; [lia|]. replace (Z.of_nat (S (Z.to_nat last) - 1)) with last in Hb by lia. done.
  - destruct (Z.ltb_spec (Z.of_nat m) 0); [lia|]. exists (Z.of_nat m). split; [lia|]. split; [done|]. split.
    + intros j Hj. specialize (Hall (Z.to_nat j) ltac:(lia)). by rewrite Z2Nat.id in Hall by lia.
    + destruct Hb as [->|Hb]; [by left|]. destruct (Nat.eq_dec m O) as [->|]; [by left|]. right. by replace (Z.of_nat m - 1) with (Z.of_nat (m - 1)) by lia.
Qed.
End Failover.

(** How main sorts the times to first token around the switch and the failover. *)
Inductive phase := Failed | Pre | Mid | Post.
Definition phase_of (before : Duration) (fo : option Duration) (o : Obs) : phase :=
  if negb (ob_Status o =? 200) then Failed
  else if ob_At o <? before then Pre
  else match fo with Some t => if before + t <=? ob_At o then Post else Mid | None => Mid end.
End Chaos.

(** ** Hits and wrong hits of a replay (src/cmd/replay)

    The report over the answers to a dataset in two phases; sending them is outside. *)

Record Result := mkResult { re_ReqID : string; re_Phase : Z; re_Group : string; re_Status : Z; re_Cache : string; re_Source : string; re_Latency : Duration }.
Record Report := mkReport {
  rp_Requests : Z; rp_Errors : Z; rp_Phase2Requests : Z; rp_HitsExact : Z; rp_HitsSemantic : Z; rp_HitRate : spec_float; rp_WrongHits : Z;
  rp_WrongHitRate : spec_float; rp_P50Ms : spec_float; rp_P99Ms : spec_float }.

Record replay_tallies := mkReplayTallies { ta_Requests : Z; ta_Errors : Z; ta_Phase2 : Z; ta_Exact : Z; ta_Semantic : Z; ta_Wrong : Z; ta_lat : list Duration }.

(** A hit is wrong when its source was asked of another group, or of one without duplicates ("n...");
    an empty group that agrees is indexed and panics. *)
Definition wrong_hit (groups : gmap string string) (x : Result) : option bool :=
  if negb (String.eqb (default "" (groups !! re_Source x)) (re_Group x)) then Some true
  else match re_Group x with EmptyString => None | String c _ => Some (Ascii.eqb c "n") end.

Definition tally_result (groups : gmap string string) (t : replay_tallies) (x : Result) : option replay_tallies :=
  let bad := negb (re_Status x =? 200) in
  let t := mkReplayTallies (ta_Requests t + 1) (if bad then ta_Errors t + 1 else ta_Errors t) (ta_Phase2 t) (ta_Exact t) (ta_Semantic t) (ta_Wrong t)
             (if bad then ta_lat t else ta_lat t ++ [re_Latency x]) in
  if negb (re_Phase x =? 2) then Some t
  else
    let exact := String.eqb (re_Cache x) "hit-exact" in let semantic := String.eqb (re_Cache x) "hit-semantic" in
    let t := mkReplayTallies (ta_Requests t) (ta_Errors t) (ta_Phase2 t + 1) (if exact then ta_Exact t + 1 else ta_Exact t)
               (if semantic then ta_Semantic t + 1 else ta_Semantic t) (ta_Wrong t) (ta_lat t) in
    if exact || semantic then
      w ← wrong_hit groups x;
      Some (mkReplayTallies (ta_Requests t) (ta_Errors t) (ta_Phase2 t) (ta_Exact t) (ta_Semantic t) (if w : bool then ta_Wrong t + 1 else ta_Wrong t) (ta_lat t))
    else Some t.

Fixpoint tally_results (groups : gmap string string) (l : list Result) (t : replay_tallies) : option replay_tallies :=
  match l with [] => Some t | x :: l => tally_result groups t x ≫= tally_results groups l end.

Definition rate (a b : Z) : spec_float := if 0 <? b then fdiv (f_of_Z a) (f_of_Z b) else f0.

Definition replay_Summarize (results : list Result) (groups : gmap string string) : option Report :=
  t ← tally_results groups results (mkReplayTallies 0 0 0 0 0 0 []);
  p50 ← pct (ta_lat t) (f_lit 5 10); p99 ← pct (ta_lat t) (f_lit 99 100);
  let hits := ta_Exact t + ta_Semantic t in
  Some (mkReport (ta_Requests t) (ta_Errors t) (ta_Phase2 t) (ta_Exact t) (ta_Semantic t) (rate hits (ta_Phase2 t)) (ta_Wrong t) (rate (ta_Wrong t) hits) p50 p99).

(** The counts of a report are consistent. *)
Theorem report_consistent results groups r : replay_Summarize results groups = Some r ->
  rp_Requests r = Z.of_nat (length results) /\ 0 <= rp_WrongHits r <= rp_HitsExact r + rp_HitsSemantic r /\ rp_HitsExact r + rp_HitsSemantic r <= rp_Phase2Requests r /\
  rp_Phase2Requests r <= rp_Requests r.
Proof.
  unfold replay_Summarize. destruct (tally_results groups results _) as [t|] eqn:E; [|done]. cbn [mbind option_bind].
  destruct (pct _ (f_lit 5 10)) as [p|]; [|done]. destruct (pct _ (f_lit 99 100)) as [q|]; [|done]. cbn [mbind option_bind]. intros [= <-]. cbn.
  assert (forall t0 t1, tally_results groups results t0 = Some t1 -> 0 <= ta_Wrong t0 <= ta_Exact t0 + ta_Semantic t0 -> ta_Exact t0 + ta_Semantic t0 <= ta_Phase2 t0 -> ta_Phase2 t0 <= ta_Requests t0 ->
    ta_Requests t1 = ta_Requests t0 + Z.of_nat (length results) /\ 0 <= ta_Wrong t1 <= ta_Exact t1 + ta_Semantic t1 /\ ta_Exact t1 + ta_Semantic t1 <= ta_Phase2 t1 /\ ta_Phase2 t1 <= ta_Requests t1) as H.
  { clear. induction results as [|x l IH]; intros t0 t1; cbn [tally_results length]; [intros [= <-]; lia|].
    destruct (tally_result groups t0 x) as [t2|] eqn:E2; cbn [mbind option_bind]; [|done]. intros E1 H1 H2 H3.
    assert (ta_Requests t2 = ta_Requests t0 + 1 /\ 0 <= ta_Wrong t2 <= ta_Exact t2 + ta_Semantic t2 /\ ta_Exact t2 + ta_Semantic t2 <= ta_Phase2 t2 /\ ta_Phase2 t2 <= ta_Requests t2) as (S1 & S2 & S3 & S4).
    { unfold tally_result in E2. destruct (negb (re_Phase x =? 2)); [injection E2 as <-; cbn; lia|].
      destruct (String.eqb_spec (re_Cache x) "hit-exact") as [Ex|Ex], (String.eqb_spec (re_Cache x) "hit-semantic") as [Es|Es]; cbn [orb] in E2; [congruence| | |injection E2 as <-; cbn; lia].
      all: destruct (wrong_hit groups x) as [[]|]; cbn [mbind option_bind] in E2; [..|done]; injection E2 as <-; cbn; lia. }
    specialize (IH t2 t1 E1 S2 S3 S4). lia. }
  destruct (H _ _ E) as (H1 & H2 & H3 & H4); cbn in *; lia.
Qed.

(** An empty group with an answer from an unknown source. *)
Example empty_group_panics : replay_Summarize [mkResult "a" 2 "" 200 "hit-exact" "gone" 5] ∅ = None.
Proof. by vm_compute. Qed.

(** ** Rendering the benchmark report (src/cmd/benchreport)

    Markers in a text are replaced by numbers out of the result files; reading and writing
    files is outside. *)

(** A decoded JSON value; an object's keys are distinct. *)
Inductive json := JNull | JBool (b : bool) | JNum (f : spec_float) | JString (s : string) | JArray (l : list json) | JObject (l : list (string * json)).

Definition member (k : string) (l : list (string * json)) : option json :=
  match List.find (fun kv => String.eqb kv.1 k) l with Some kv => Some kv.2 | None => None end.

Fixpoint dig_parts (parts : list string) (v : json) : option json :=
  match parts with
  | [] => Some v
  | p :: ps => match v with JObject l => match member p l with Some v => dig_parts ps v | None => None end | _ => None end
  end.
Definition dig (v : json) (path : string) : option json := dig_parts (split_byte "." path) v.

(** [f == math.Trunc(f)] *)
Definition is_whole (f : spec_float) : bool :=
  match f with S754_nan => false | S754_finite _ _ _ => f_num f mod f_den f =? 0 | _ => true end.

(** A comma before each byte but the first that has a multiple of three from it to the end. *)
Fixpoint group_commas (first : bool) (s : string) : string :=
  match s with
  | EmptyString => ""
  | String c s' => (if negb first && (slen s mod 3 =? 0) then "," else "") +:+ String c (group_commas false s')
  end.

Definition trim_suffix (suf s : string) : string := if has_suffix suf s then stake (String.length s - String.length suf) s else s.

Section Rendering.
(** [fmt.Sprint] of a list or an object. *)
Context (sprint : json -> string).

Definition format (v : json) : string :=
  match v with
  | JNum f =>
      if is_whole f && fgeb (fabs f) (f_of_Z 1000) then group_commas true (format_fixed 0 f)
      else trim_suffix "." (trim_right (fun c => Ascii.eqb c "0") (format_fixed 2 f))
  | JString s => s
  | JBool b => if b then "true" else "false"
  | JNull => "<nil>"
  | v => sprint v
  end.

Definition Lookup (results : gmap string json) (ref : string) : string + string :=
  let '(file, path, ok) := cut ref ":" in
  if negb ok then inl ("marker " +:+ go_quote ref +:+ " must be file.json:json.path")
  else match results !! file with
       | None => inl ("no result file " +:+ go_quote file)
       | Some doc => match dig doc path with
                     | None => inl (file +:+ " has no " +:+ go_quote path)
                     | Some v => inr (format v)
                     end
       end.

(** [\{\{bench:([^}]+)\}\}] *)
Fixpoint until_brace (s : string) : string * string :=
  match s with
  | EmptyString => ("", "")
  | String c s' => if Ascii.eqb c "}" then ("", s) else let '(a, b) := until_brace s' in (String c a, b)
  end.

Definition marker_at (s : string) : option (string * string) :=
  if has_prefix "{{bench:" s then
    let '(ref, rest) := until_brace (sdrop 8 s) in
    if negb (String.eqb ref "") && has_prefix "}}" rest then Some (ref, sdrop 2 rest) else None
  else None.

(** From the left; every step leaves a shorter text, so that the length is fuel enough. *)
Fixpoint resolve (fuel : nat) (results : gmap string json) (s : string) : string * list string :=
  match fuel, s with
  | S f, String c s' =>
      match marker_at s with
      | Some (ref, rest) =>
          let '(out, errs) := resolve f results rest in
          match Lookup results ref with
          | inr v => (v +:+ out, errs)
          | inl e => ("{{bench:" +:+ ref +:+ "}}" +:+ out, e :: errs)
          end
      | None => let '(out, errs) := resolve f results s' in (String c out, errs)
      end
  | _, _ => ("", [])
  end.

Definition ResolveMarkers (text : string) (results : gmap string json) : string * list string := resolve (String.length text) results text.
End Rendering.

Definition number_at (path : string) (f : json) : option spec_float := match dig f path with Some (JNum x) => Some x | _ => None end.

Definition Median (files : list json) (path : string) : option spec_float :=
  let vals := omap (number_at path) files in
  match vals with [] => None | _ => stable_sort less_float vals !! (length vals / 2)%nat end.

(** **** What is rendered *)

Lemma until_brace_spec s : let '(a, b) := until_brace s in s = a +:+ b.
Proof. induction s as [|c s IH]; cbn; [done|]. destruct (Ascii.eqb c "}"); [done|]. destruct (until_brace s) as [a b]. by rewrite IH. Qed.

Lemma marker_at_spec s ref rest : marker_at s = Some (ref, rest) -> s = "{{bench:" +:+ ref +:+ "}}" +:+ rest /\ (String.length rest < String.length s)%nat.
Proof.
  unfold marker_at. destruct (has_prefix "{{bench:" s) eqn:Ep; [|done]. apply has_prefix_app in Ep as [t ->].
  change (sdrop 8 ("{{bench:" +:+ t)) with (sdrop 0 t). replace (sdrop 0 t) with t by (by destruct t). pose proof (until_brace_spec t) as Ht. destruct (until_brace t) as [a b].
  destruct (negb (String.eqb a "") && has_prefix "}}" b) eqn:E; [|done]. apply andb_true_iff in E as [_ [u ->]%has_prefix_app]. intros [= <- <-].
  change (sdrop 2 ("}}" +:+ u)) with (sdrop 0 u). replace (sdrop 0 u) with u by (by destruct u). subst t. split; [done|]. rewrite !slength_app. cbn. lia.
Qed.

(** The markers of a text, in order. *)
Fixpoint markers (fuel : nat) (s : string) : list string :=
  match fuel, s with
  | S f, String _ s' => match marker_at s with Some (ref, rest) => ref :: markers f rest | None => markers f s' end
  | _, _ => []
  end.

(** Each marker whose reference is not found is an error and stays as it was: a text none of whose
    markers is found is unchanged, and without an error every marker was replaced. *)
Theorem markers_reported sprint results text :
  (ResolveMarkers sprint text results).2 = omap (fun ref => match Lookup sprint results ref with inl e => Some e | inr _ => None end) (markers (String.length text) text) /\
  (Forall (fun ref => exists e, Lookup sprint results ref = inl e) (markers (String.length text) text) -> (ResolveMarkers sprint text results).1 = text).
Proof.
  unfold ResolveMarkers. assert (forall n s, (String.length s <= n)%nat ->
    (resolve sprint n results s).2 = omap (fun ref => match Lookup sprint results ref with inl e => Some e | inr _ => None end) (markers n s) /\
    (Forall (fun ref => exists e, Lookup sprint results ref = inl e) (markers n s) -> (resolve sprint n results s).1 = s)) as H; [|by apply H].
  induction n as [|n IH]; intros [|c s] Hn; [done|cbn in Hn; lia|done|]. cbn [resolve markers]. destruct (marker_at (String c s)) as [[ref rest]|] eqn:Em.
  - apply marker_at_spec in Em as [Es Hl]. destruct (IH rest ltac:(revert Hl Hn; generalize (String.length rest), (String.length (String c s)); lia)) as [H1 H2]. destruct (resolve sprint n results rest) as [out errs]. cbn [omap list_omap fst snd] in *. rewrite Es.
    destruct (Lookup sprint results ref) as [e|v] eqn:El; cbn [fst snd].
    + split; [by rewrite <- H1|]. intros [_ Hf]%Forall_cons. by rewrite H2.
    + split; [done|]. intros [[e He] _]%Forall_cons. congruence.
  - destruct (IH s ltac:(cbn in Hn; lia)) as [H1 H2]. destruct (resolve sprint n results s) as [out errs]. cbn [fst snd] in *. split; [done|]. intros Hf. by rewrite H2.
Qed.

(** The commas of a number can be taken out again. *)
Lemma group_commas_digits s : forall first, sforall (fun c => negb (Ascii.eqb c ",")) s = true ->
  string_of_list_ascii (List.filter (fun c => negb (Ascii.eqb c ",")) (bytes_of (group_commas first s))) = s.
Proof.
  induction s as [|c s IH]; intros first; [done|]. cbn [sforall]. intros [Hc Hs]%andb_true_iff. cbn [group_commas].
  unfold bytes_of in *. assert (forall u, string_of_list_ascii (List.filter (fun c => negb (Ascii.eqb c ",")) (list_ascii_of_string u)) = s ->
    string_of_list_ascii (List.filter (fun c => negb (Ascii.eqb c ",")) (list_ascii_of_string (String c u))) = String c s) as H.
  { intros u Hu. cbn [list_ascii_of_string List.filter]. rewrite Hc. cbn [string_of_list_ascii]. by rewrite Hu. }
  destruct (negb first && _); [|by apply H, IH]. change (String "," (String c (group_commas false s))) with ("," +:+ String c (group_commas false s)). exact (H _ (IH false Hs)).
Qed.

Lemma Median_is_a_value files path m : Median files path = Some m -> m ∈ omap (number_at path) files.
Proof.
  unfold Median. destruct (omap (number_at path) files) as [|x l]; [done|]. intros H%list_elem_of_lookup_2. by rewrite stable_sort_perm in H.
Qed.

Module Demo.
Definition demo_results : gmap string json := {["a.json" := JObject [("ttft", JObject [("p50_ms", JNum (f_lit 125 100)); ("n", JNum (f_of_Z 1234567)); ("d", JNum (f_of_Z (-100000)))])]]}.

Example resolved : ResolveMarkers (fun _ => "") "p50 {{bench:a.json:ttft.p50_ms}} of {{bench:a.json:ttft.n}}, {{bench:b.json:x}}{{bench:}}" demo_results =
  ("p50 1.25 of 1,234,567, {{bench:b.json:x}}{{bench:}}", ["no result file " +:+ dquote +:+ "b.json" +:+ dquote]).
Proof. by vm_compute. Qed.

(** The sign counts as a digit. *)
Example negative_thousands : (ResolveMarkers (fun _ => "") "{{bench:a.json:ttft.d}}" demo_results).1 = "-,100,000".
Proof. by vm_compute. Qed.
End Demo.

(** ** The evaluation of smart routing (src/cmd/routeeval)

    The rules of [SmartRoute] over a fixed list of queries, with what they would cost.  The
    draws of the two generators are arguments. *)

(** The queries with their categories, which nothing reads. *)
Definition defaultBenchmark : list (string * string) := [
  ("def quicksort(arr):", "code");
  ("function reverseString(s) { return s.split('').reverse().join(''); }", "code");
  ("class LRUCache with O(1) get and put", "code");
  ("import pandas as pd" +:+ newline +:+ "df = pd.read_csv('data.csv')", "code");
  ("const express = require('express'); const app = express();", "code");
  ("var total = 0;" +:+ newline +:+ "for (var i = 0; i < 10; i++) { total += i; } return total;", "code");
  ("```python" +:+ newline +:+ "print('debugging recursion depth')" +:+ newline +:+ "```", "code");
  ("Debug this nil pointer dereference stack trace", "code");
  ("Refactor this SQL query for performance", "code");
  ("Analyze the algorithmic complexity of Dijkstra's algorithm", "code");
  ("Prove that the square root of 2 is irrational.", "math");
  ("Derive the Navier-Stokes equations step by step.", "math");
  ("Calculate the probability of drawing 3 aces from a deck of cards.", "math");
  ("Solve for x: e^(2x) - 5e^x + 6 = 0", "math");
  ("Compute the integral of x * sin(x) dx.", "math");
  ("Solve the differential equation dy/dx + 2y = 4x.", "math");
  ("Compare and contrast Kantian ethics with utilitarianism.", "math");
  ("Critique the argument for strict determinism in physics.", "math");
  ("Prove that there are infinitely many primes using Euclid's proof.", "math");
  ("Derive the Black-Scholes option pricing formula.", "math");
  ("hello", "greeting");
  ("Hi there!", "greeting");
  ("Hey assistant, good morning!", "greeting");
  ("Greetings!", "greeting");
  ("Thanks for your help!", "greeting");
  ("Thank you very much.", "greeting");
  ("Who are you?", "greeting");
  ("Hi everyone!", "greeting");
  ("Thanks a lot!", "greeting");
  ("Hello there!", "greeting");
  ("What is the capital of France?", "factual");
  ("What is the capital of Japan?", "factual");
  ("What is the capital of Canada?", "factual");
  ("How many inches in a foot?", "factual");
  ("How many feet in a mile?", "factual");
  ("Define serendipity.", "factual");
  ("Define photosynthesis.", "factual");
  ("What is the speed of light in vacuum?", "factual");
  ("What is the chemical formula for water?", "factual");
  ("What is the freezing point of water in Celsius?", "factual")].

Record tallies := mkTallies { ta_cheap : Z; ta_strong : Z; ta_actual : spec_float; ta_counterfactual : spec_float; ta_deltas : list spec_float; ta_drawn : nat }.

Section Eval.
(** The draws of the seeded generator, and those of the bootstrap. *)
Context (draw : nat -> spec_float) (IntN : Z -> Z -> nat -> nat) (cheapCost strongCost : spec_float).

(** What one query adds: the cost at the price of the model that the rules choose, and a
    difference of quality that is drawn for a cheap model and zero for a strong one. *)
Definition eval_item (t : tallies) (item : string * string) : tallies :=
  let req := asks item.1 in
  let tokens := f_of_Z (EstimatePromptTokens req + 200) in
  let at_price p := fmul (fdiv tokens (f_of_Z 1000000)) p in
  let counterfactual := fadd (ta_counterfactual t) (at_price strongCost) in
  if String.eqb (kl_Decision (Rule_Classify req 1500)) DecisionCheap then
    mkTallies (ta_cheap t + 1) (ta_strong t) (fadd (ta_actual t) (at_price cheapCost)) counterfactual
      (ta_deltas t ++ [fmul (fsub (draw (ta_drawn t)) (f_lit 5 10)) (f_lit 2 100)]) (S (ta_drawn t))
  else
    mkTallies (ta_cheap t) (ta_strong t + 1) (fadd (ta_actual t) (at_price strongCost)) counterfactual (ta_deltas t ++ [f0]) (ta_drawn t).

Definition evaluate (items : list (string * string)) : tallies := for_range items (mkTallies 0 0 f0 f0 [] 0) eval_item.

Record evaluation := mkEvaluation {
  ev_total : Z; ev_cheap : Z; ev_strong : Z; ev_cheap_share_pct : spec_float; ev_counterfactual_usd : spec_float; ev_actual_usd : spec_float; ev_dollars_saved_usd : spec_float;
  ev_percent_saved : spec_float; ev_delta_mean : spec_float; ev_ci_low : spec_float; ev_ci_high : spec_float; ev_quality_verified : bool }.

Definition report (items : list (string * string)) : option evaluation :=
  let t := evaluate items in
  let total := Z.of_nat (length items) in
  let share := fmul (fdiv (f_of_Z (ta_cheap t)) (f_of_Z total)) (f_of_Z 100) in
  let saved := fsub (ta_counterfactual t) (ta_actual t) in
  let pct := fmul (fdiv saved (ta_counterfactual t)) (f_of_Z 100) in
  match BootstrapMeanCI IntN (ta_deltas t) 2000 (f_lit 5 100) 42 with
  | None => None
  | Some (m, lo, hi) =>
      Some (mkEvaluation total (ta_cheap t) (ta_strong t) (round2 share) (ta_counterfactual t) (ta_actual t) saved (round2 pct) (round4 m) (round4 lo) (round4 hi)
              (fgeb hi (f_lit (-5) 100)))
  end.

(** Each query is counted once, with a difference of quality each, one draw for a cheap one. *)
Theorem evaluation_counts items : let t := evaluate items in
  ta_cheap t + ta_strong t = Z.of_nat (length items) /\ length (ta_deltas t) = length items /\ Z.of_nat (ta_drawn t) = ta_cheap t /\
  ta_cheap t = Z.of_nat (length (List.filter (fun item => String.eqb (kl_Decision (Rule_Classify (asks item.1) 1500)) DecisionCheap) items)).
Proof.
  unfold evaluate, for_range. assert (forall t0, let t := fold_left eval_item items t0 in
    ta_cheap t + ta_strong t = ta_cheap t0 + ta_strong t0 + Z.of_nat (length items) /\ length (ta_deltas t) = (length (ta_deltas t0) + length items)%nat /\
    Z.of_nat (ta_drawn t) - ta_cheap t = Z.of_nat (ta_drawn t0) - ta_cheap t0 /\
    ta_cheap t = ta_cheap t0 + Z.of_nat (length (List.filter (fun item => String.eqb (kl_Decision (Rule_Classify (asks item.1) 1500)) DecisionCheap) items))) as H.
  { induction items as [|i l IH]; intros t0; cbn [fold_left length List.filter]; [lia|]. specialize (IH (eval_item t0 i)). cbn zeta in *. unfold eval_item in IH |- *.
    destruct (String.eqb _ DecisionCheap); cbn [ta_cheap ta_strong ta_deltas ta_drawn] in *; rewrite length_app in IH; cbn [length] in *; lia. }
  specialize (H (mkTallies 0 0 f0 f0 [] 0)). cbn zeta in *. cbn [ta_cheap ta_strong ta_deltas ta_drawn length] in H. lia.
Qed.
End Eval.

(** What the rules choose for the benchmark: all of the code and mathematics and three of the
    simple queries stay with the strong model. *)
Example benchmark_decisions :
  length defaultBenchmark = 40%nat /\
  map fst (List.filter (fun item => negb (Bool.eqb (String.eqb (kl_Decision (Rule_Classify (asks item.1) 1500)) DecisionCheap)
                                                   (String.eqb item.2 "greeting" || String.eqb item.2 "factual"))) defaultBenchmark) =
  ["Hey assistant, good morning!"; "Thanks for your help!"; "How many feet in a mile?"].
Proof. by vm_compute. Qed.
