(* ===== verification/MockLLM.v ===== *)
(** * The controllable mock provider (src/internal/mockllm) and cmd/cacheeval

    A provider that fails, delays and answers as it is told, its embeddings, and the calibration
    of the semantic cache over a dataset that is computed with them.  Words are those of ASCII
    text; the random draw of an error and when the client goes away are arguments.  Vectors are
    float32, with the Standard Library's specification at 24 bits. *)

From S2P Require Import Prelude GoStrings GoFloat Config Api Assemble Stats Evidence.

Open Scope string_scope.
Open Scope list_scope.
Open Scope Z_scope.

(** ** Words *)

(** [strings.Fields] *)
Fixpoint fields_from (acc : string) (s : string) : list string :=
  let flush := if String.eqb acc "" then [] else [acc] in
  match s with
  | EmptyString => flush
  | String c s' => if is_space c then flush ++ fields_from "" s' else fields_from (acc +:+ String c "") s'
  end.
Definition Fields (s : string) : list string := fields_from "" s.

Example Fields_ex : Fields "  a bc  d " = ["a"; "bc"; "d"] /\ Fields " " = [].
Proof. done. Qed.

(** [n, _ := strconv.Atoi(v)]: a number out of range becomes the nearest one, other text zero. *)
Definition atoi_or_zero (v : string) : Z :=
  match Atoi v with
  | Some n => n
  | None =>
      let '(neg, d) := match v with String c s => if Ascii.eqb c "-" then (true, s) else if Ascii.eqb c "+" then (false, s) else (false, v) | EmptyString => (false, v) end in
      if String.eqb d "" || negb (sforall is_digit d) then 0 else if neg then int64_min else int64_max
  end.

(** ** The server *)

Record Mode := mkMode { md_TTFTMs : Z; md_TokensPerSec : Z; md_ErrorRate : spec_float; md_ErrorStatus : Z; md_Reply : string }.
Record Server := mkServer { sv_name : string; sv_mode : Mode; sv_requests : Z }.

Definition New (name : string) (m : Mode) : Server := mkServer name m 0.
Definition SetMode (m : Mode) (s : Server) : Server := mkServer (sv_name s) m (sv_requests s).
Definition counted (s : Server) : Server := mkServer (sv_name s) (sv_mode s) (sv_requests s + 1).

(** What a handler has of the request and the world: two headers, the draw of an error, how long
    the client waits ([None]: to the end), the clock. *)
Record mock_env := mkMockEnv { me_status : string; me_ttft : string; me_draw : spec_float; me_patience : option Duration; me_now : Time; me_unix : Z }.

Definition failStatus (e : mock_env) (m : Mode) : Z :=
  if negb (String.eqb (me_status e) "") then atoi_or_zero (me_status e)
  else if fltb f0 (md_ErrorRate m) && fltb (me_draw e) (md_ErrorRate m) then if md_ErrorStatus m =? 0 then 500 else md_ErrorStatus m
  else 0.

Definition last_user (req : ChatRequest) : string :=
  for_range (r_Messages req) "" (fun last m => if String.eqb (m_Role m) "user" then Content_PlainText (m_Content m) else last).

Definition reply (req : ChatRequest) (m : Mode) : list string :=
  if negb (String.eqb (md_Reply m) "") then Fields (md_Reply m)
  else
    let maxTok := Z.to_nat (Z.min (ChatRequest_EffectiveMaxTokens req 32) 32) in
    let words := Fields ("echo: " +:+ last_user req) in
    take maxTok (words ++ replicate (maxTok - length words) "lorem").

Definition promptTokens (req : ChatRequest) : Z :=
  for_range (r_Messages req) 0 (fun n m => n + Z.of_nat (length (Fields (Content_PlainText (m_Content m))))).

(** [sleepCtx]: whether the client is still there, with the time that has gone by. *)
Definition sleepCtx (e : mock_env) (gone : Duration) (d : Duration) : bool * Duration :=
  if d <=? 0 then (true, gone)
  else match me_patience e with
       | Some p => if p <=? gone + d then (false, p) else (true, gone + d)
       | None => (true, gone + d)
       end.

Inductive mock_answer :=
| MockError (status : Z)
| MockNothing
| MockResponse (r : ChatResponse)
| MockStream (chunks : list ChatChunk) (done_ : bool).

(** The words of a stream, each followed by a pause. *)
Fixpoint stream_words (e : mock_env) (chunk : ChunkDelta -> option string -> ChatChunk) (gap : Duration) (first : bool) (words : list string) (gone : Duration) :
  list ChatChunk * bool :=
  match words with
  | [] => ([], true)
  | word :: words =>
      let d := if first then mkChunkDelta "assistant" word [] else mkChunkDelta "" (" " +:+ word) [] in
      let '(still, gone) := sleepCtx e gone gap in
      if still then let '(cs, b) := stream_words e chunk gap false words gone in (chunk d None :: cs, b) else ([chunk d None], false)
  end.

Definition mock_response (s : Server) (e : mock_env) (req : ChatRequest) (words : list string) : ChatResponse :=
  let finish := if String.eqb (md_Reply (sv_mode s)) "" && (ChatRequest_EffectiveMaxTokens req 32 <=? Z.of_nat (length words)) then "length" else "stop" in
  let p := promptTokens req in let n := Z.of_nat (length words) in
  mkChatResponse ("mock-" +:+ sv_name s +:+ "-" +:+ itoa (me_now e)) "chat.completion" (me_unix e) (r_Model req)
    [mkChoice 0 (mkMessage "assistant" (text_content (join " " words)) "" [] "") finish] (Some (mkUsage p n (p + n) None)).

(** [chat]; [body] is [None] when it does not decode. *)
Definition chat (e : mock_env) (body : option ChatRequest) (s : Server) : mock_answer * Server :=
  let m := sv_mode s in
  (match body with
   | None => MockError 400
   | Some req =>
       let ttft := wrap64 ((if negb (String.eqb (me_ttft e) "") then atoi_or_zero (me_ttft e) else md_TTFTMs m) * 1000000) in
       let st := failStatus e m in
       if negb (st =? 0) then MockError st
       else
         let '(still, gone) := sleepCtx e 0 ttft in
         if negb still then MockNothing
         else
           let words := reply req m in
           let r := mock_response s e req words in
           let gap := if 0 <? md_TokensPerSec m then Z.quot second (md_TokensPerSec m) else 0 in
           if negb (r_Stream req) then
             if (sleepCtx e gone (wrap64 (gap * Z.of_nat (length words)))).1 then MockResponse r else MockNothing
           else
             let '(cs, all) := stream_words e (mk_chunk r) gap true words gone in
             if negb all then MockStream cs false
             else
               let finish := match cr_Choices r with ch :: _ => ch_FinishReason ch | [] => "" end in
               let usage := match r_StreamOptions req with Some o => so_IncludeUsage o | None => false end in
               MockStream (cs ++ [mk_chunk r (mkChunkDelta "" "" []) (Some finish)] ++ (if usage then [base_chunk r [] (cr_Usage r)] else [])) true
   end, counted s).

(** *** What it answers *)

Lemma reply_bounded req m : md_Reply m = "" -> 0 < Z.min (ChatRequest_EffectiveMaxTokens req 32) 32 ->
  Z.of_nat (length (reply req m)) = Z.min (ChatRequest_EffectiveMaxTokens req 32) 32.
Proof. intros Hm Hp. unfold reply. rewrite Hm. cbn [negb String.eqb]. rewrite length_take, length_app, length_replicate. lia. Qed.

Lemma EffectiveMaxTokens_pos req : 0 < ChatRequest_EffectiveMaxTokens req 32.
Proof.
  unfold ChatRequest_EffectiveMaxTokens, positive_ptr.
  destruct (r_MaxCompletionTokens req) as [v|]; [destruct (Z.ltb_spec 0 v); [done|]|]; (destruct (r_MaxTokens req) as [w|]; [destruct (Z.ltb_spec 0 w); [done|lia]|lia]).
Qed.

Definition word_deltas (first : bool) (words : list string) : list ChunkDelta :=
  match words with
  | [] => []
  | w :: ws => (if first then mkChunkDelta "assistant" w [] else mkChunkDelta "" (" " +:+ w) []) :: map (fun w => mkChunkDelta "" (" " +:+ w) []) ws
  end.

Lemma stream_words_all e chunk gap : me_patience e = None -> forall words first gone,
  stream_words e chunk gap first words gone = (map (fun d => chunk d None) (word_deltas first words), true).
Proof.
  intros Hp. assert (forall gone d, exists g, sleepCtx e gone d = (true, g)) as Hs by (intros; unfold sleepCtx; rewrite Hp; destruct (d <=? 0); by eexists).
  induction words as [|w words IH]; intros first gone; [done|]. cbn [stream_words]. destruct (Hs gone gap) as [g ->]. rewrite IH. cbn [word_deltas map].
  destruct words; by destruct first.
Qed.

Lemma word_deltas_text words : concat_strings (map cd_Content (word_deltas true words)) = join " " words.
Proof.
  destruct words as [|w ws]; [done|]. cbn [word_deltas map cd_Content]. revert w. induction ws as [|v ws IH]; intros w; [cbn; by rewrite sapp_nil_r|].
  cbn [map cd_Content concat_strings]. change (join " " (w :: v :: ws)) with (w +:+ " " +:+ join " " (v :: ws)). rewrite <- (IH v). cbn [concat_strings cd_Content map]. by rewrite !sapp_assoc.
Qed.

Lemma MockStream_inj a b c d : MockStream a b = MockStream c d -> a = c.
Proof. by intros [= -> _]. Qed.

(** The two ways of answering agree: the chunks of a stream assemble to the answer that the same
    request gets without streaming, with the usage when it was asked for. *)
Theorem mock_stream_is_answer s e req cs : me_patience e = None -> (chat e (Some req) s).1 = MockStream cs true ->
  exists r, r = mock_response s e req (reply req (sv_mode s)) /\
    option_map Assembler_Response (Assembler_AddAll empty_assembler cs) =
    Some (mkChatResponse (cr_ID r) (cr_Object r) (cr_Created r) (cr_Model r) (cr_Choices r)
            (if match r_StreamOptions req with Some o => so_IncludeUsage o | None => false end then cr_Usage r else None)).
Proof.
  intros Hp. unfold chat. cbn [fst]. destruct (negb (failStatus e (sv_mode s) =? 0)); [done|]. destruct (sleepCtx e 0 _) as [still gone]. destruct (negb still); [done|].
  destruct (negb (r_Stream req)); [by destruct (sleepCtx e gone _).1|]. rewrite stream_words_all by done. cbn [negb].
  set (r := mock_response s e req (reply req (sv_mode s))). set (words := reply req (sv_mode s)) in *. intros E%MockStream_inj. rewrite <- E. clear E. exists r. split; [done|].
  assert (cr_ID r <> "") as Hid by done. set (fin := match cr_Choices r with ch :: _ => ch_FinishReason ch | [] => "" end).
  assert (Assembler_AddAll empty_assembler (map (fun d => mk_chunk r d None) (word_deltas true words) ++ [mk_chunk r (mkChunkDelta "" "" []) (Some fin)]) =
    Some (asm_state r (join " " words) [] fin None)) as Hasm.
  { rewrite AddAll_app. destruct words as [|w ws].
    - cbn [word_deltas map Assembler_AddAll mbind option_bind]. by rewrite (Add_first r Hid).
    - rewrite (AddAll_text_first r Hid); [|done|]; [|cbn [word_deltas]; constructor; [done|]; apply Forall_map, Forall_forall; done].
      cbn [mbind option_bind]. rewrite word_deltas_text. cbn [Assembler_AddAll]. rewrite (Add_text r Hid) by done. cbn [mbind option_bind cd_Content default]. by rewrite sapp_nil_r. }
  rewrite app_assoc, AddAll_app, Hasm. cbn [mbind option_bind]. destruct (match r_StreamOptions req with Some o => so_IncludeUsage o | None => false end); done.
Qed.

(** ** Embeddings (embed.go) *)

(** FNV-1a of 32 bits. *)
Definition fnv32a (s : string) : Z := for_range (bytes_of s) 2166136261 (fun h c => Z.lxor h (byte_val c) * 16777619 mod 4294967296).

Example fnv32a_ex : fnv32a "" = 2166136261 /\ fnv32a "a" = 3826002220 /\ fnv32a "foobar" = 3214735720.
Proof. by vm_compute. Qed.

Definition f32_add : spec_float -> spec_float -> spec_float := SFadd 24 128.
Definition f32_mul : spec_float -> spec_float -> spec_float := SFmul 24 128.
(** [float32(x)] *)
Definition to_f32 (x : spec_float) : spec_float := match x with S754_finite s m e => binary_round 24 128 s m e | x => x end.
Definition f32_one : spec_float := binary_normalize 24 128 1 0 false.
(** [float64(x)] of a float32, exact. *)
Definition from_f32 (x : spec_float) : spec_float := match x with S754_finite s m e => binary_round 53 1024 s m e | x => x end.

Definition word_cut : string := ".,?!;:" +:+ dquote +:+ "'()".
Definition trim_word (w : string) : string := let cut c := scontains_byte c word_cut in trim_right cut (trim_left cut w).

Definition hash_word (dim : nat) (v : list spec_float) (w : string) : list spec_float :=
  let w := trim_word w in
  if String.eqb w "" then v
  else
    let sum := fnv32a w in
    let sign := if Z.odd sum then SFopp f32_one else f32_one in
    alter (fun x => f32_add x sign) (Z.to_nat (Z.shiftr sum 1 mod Z.of_nat dim)) v.

Definition HashEmbedding (text : string) (dim : nat) : list spec_float :=
  let v := for_range (Fields (lower_ascii text)) (replicate dim f0) (hash_word dim) in
  let n := for_range v f0 (fun n x => fadd n (from_f32 (f32_mul x x))) in
  if feqb n f0 then v
  else let inv := to_f32 (fdiv f1 (fsqrt n)) in map (fun x => f32_mul x inv) v.

Lemma HashEmbedding_length text dim : length (HashEmbedding text dim) = dim.
Proof.
  unfold HashEmbedding. assert (length (for_range (Fields (lower_ascii text)) (replicate dim f0) (hash_word dim)) = dim) as H.
  { unfold for_range. assert (forall l v, length v = dim -> length (fold_left (hash_word dim) l v) = dim) as H; [|by apply H; rewrite length_replicate].
    induction l as [|w l IH]; intros v Hv; [done|]. cbn [fold_left]. apply IH. unfold hash_word. destruct (String.eqb _ ""); [done|]. by rewrite length_alter. }
  destruct (feqb _ f0); [done|]. by rewrite length_map.
Qed.

Lemma fnv32a_range s : 0 <= fnv32a s < 4294967296.
Proof.
  unfold fnv32a, for_range. assert (forall l h, 0 <= h < 4294967296 -> 0 <= fold_left (fun h c => Z.lxor h (byte_val c) * 16777619 mod 4294967296) l h < 4294967296) as H; [|by apply H].
  induction l as [|c l IH]; intros h Hh; [done|]. cbn [fold_left]. apply IH, Z.mod_pos_bound. lia.
Qed.

(** A word always finds its place. *)
Lemma hash_word_in_range w dim : (0 < dim)%nat -> (Z.to_nat (Z.shiftr (fnv32a w) 1 mod Z.of_nat dim) < dim)%nat.
Proof. intros Hd. pose proof (Z.mod_pos_bound (Z.shiftr (fnv32a w) 1) (Z.of_nat dim) ltac:(lia)). lia. Qed.

(** [embeddings]: a negative or absent number of dimensions is 256. *)
Definition embeddings (e : mock_env) (body : option EmbeddingRequest) (s : Server) : (Z + EmbeddingResponse) * Server :=
  (match body with
   | None => inl 400
   | Some req =>
       let st := failStatus e (sv_mode s) in
       if negb (st =? 0) then inl st
       else
         let dim := match eq_Dimensions req with Some d => if 0 <? d then Z.to_nat d else 256%nat | None => 256%nat end in
         let tokens := for_range (eq_Input req) 0 (fun n t => n + Z.of_nat (length (Fields t))) in
         inr (mkEmbeddingResponse "list" (imap (fun i t => mkEmbedding "embedding" (Z.of_nat i) (HashEmbedding t dim)) (eq_Input req)) (eq_Model req) (mkUsage tokens 0 tokens None))
   end, counted s).

(** ** cmd/cacheeval *)

Module CacheEval.
Record ReplayItem := mkReplayItem { ri_ID : string; ri_Group : string; ri_Phase : Z; ri_Prompt : string }.
Record IndexedDoc := mkIndexedDoc { id_ID : string; id_Group : string; id_Prompt : string; id_Answer : string; id_Embedding : list spec_float }.

(** [for i := range a]: [None] where [b] is shorter. *)
Fixpoint cos_sums (a b : list spec_float) (dot na nb : spec_float) : option (spec_float * spec_float * spec_float) :=
  match a with
  | [] => Some (dot, na, nb)
  | x :: a =>
      match b with
      | [] => None
      | y :: b => cos_sums a b (fadd dot (from_f32 (f32_mul x y))) (fadd na (from_f32 (f32_mul x x))) (fadd nb (from_f32 (f32_mul y y)))
      end
  end.

Definition cosineSim (a b : list spec_float) : option spec_float :=
  match cos_sums a b f0 f0 f0 with
  | None => None
  | Some (dot, na, nb) => Some (if feqb na f0 || feqb nb f0 then f0 else fdiv dot (fmul (fsqrt na) (fsqrt nb)))
  end.

Definition eval_dim : nat := 128.

Definition index_item (p : ReplayItem) : IndexedDoc := mkIndexedDoc (ri_ID p) (ri_Group p) (ri_Prompt p) ("Answer for " +:+ ri_Prompt p) (HashEmbedding (ri_Prompt p) eval_dim).

Definition no_doc : IndexedDoc := mkIndexedDoc "" "" "" "" [].

(** The first document with the greatest similarity above -1. *)
Definition better (emb : list spec_float) (best : spec_float * IndexedDoc) (doc : IndexedDoc) : option (spec_float * IndexedDoc) :=
  sim ← cosineSim emb (id_Embedding doc); Some (if fgtb sim best.1 then (sim, doc) else best).

Fixpoint best_match (emb : list spec_float) (docs : list IndexedDoc) (best : spec_float * IndexedDoc) : option (spec_float * IndexedDoc) :=
  match docs with [] => Some best | d :: ds => better emb best d ≫= best_match emb ds end.

Definition evaluate_item (indexed : list IndexedDoc) (p : ReplayItem) : option (spec_float * LabeledPoint) :=
  '(sim, doc) ← best_match (HashEmbedding (ri_Prompt p) eval_dim) indexed (f_of_Z (-1), no_doc);
  Some (sim, mkPoint sim (String.eqb (ri_Group p) (id_Group doc) && negb (has_prefix "n" (ri_Group p))) "dataset").

(** The first [total] pairs of the two phases, and the calibration over them; [None] is a panic. *)
Definition evaluate (items : list ReplayItem) (limitPairs : Z) (targetFHR : spec_float) : option (Z * (spec_float * list CurvePoint)) :=
  let phase n := List.filter (fun i => ri_Phase i =? n) items in
  let total := Nat.min (length (phase 1)) (length (phase 2)) in
  let total := if (0 <? limitPairs) && (limitPairs <? Z.of_nat total) then Z.to_nat limitPairs else total in
  let indexed := map index_item (take total (phase 1)) in
  points ← mapM (evaluate_item indexed) (take total (phase 2));
  Some (Z.of_nat total, TuneCacheFromData (map fst points) (map snd points) targetFHR).

(** *** It does not panic *)

Lemma cos_sums_total a : forall b dot na nb, length a = length b -> is_Some (cos_sums a b dot na nb).
Proof. induction a as [|x a IH]; intros [|y b] dot na nb Hl; [by eexists|done..|]. cbn. apply IH. by injection Hl. Qed.

Lemma best_match_total emb docs : forall best, Forall (fun d => length (id_Embedding d) = length emb) docs ->
  exists r, best_match emb docs best = Some r /\ (r = best \/ r.2 ∈ docs).
Proof.
  induction docs as [|d docs IH]; intros best; [exists best; by split; [|left]|]. intros [Hd Hds]%Forall_cons. cbn [best_match]. unfold better, cosineSim.
  destruct (cos_sums_total emb (id_Embedding d) f0 f0 f0 ltac:(done)) as [[[dot na] nb] ->]. cbn [mbind option_bind].
  match goal with |- context [fgtb ?s ?b] => set (sim := s); destruct (fgtb sim best.1) end.
  - destruct (IH (sim, d) Hds) as (r & -> & [->|Hr]); [exists (sim, d)|exists r]; (split; [done|right]); [by left|by right].
  - destruct (IH best Hds) as (r & -> & [->|Hr]); [exists best; by split; [|left]|exists r; split; [done|right; by right]].
Qed.

(** A calibration is computed for every dataset, over as many points as there are pairs. *)
Theorem evaluation_total items limit target : exists total result, evaluate items limit target = Some (total, result) /\ 0 <= total <= Z.of_nat (length items).
Proof.
  unfold evaluate. match goal with |- context [take ?t (List.filter _ items)] => set (total := t) end. set (indexed := map index_item _).
  assert (Forall (fun d => length (id_Embedding d) = eval_dim) indexed) as Hi by (apply Forall_map, Forall_forall; intros i _; apply HashEmbedding_length).
  destruct (mapM_is_Some_2 (evaluate_item indexed) (take total (List.filter (fun i => ri_Phase i =? 2) items))) as [points ->].
  { apply Forall_forall. intros p _. unfold evaluate_item, compose. destruct (best_match_total (HashEmbedding (ri_Prompt p) eval_dim) indexed (f_of_Z (-1), no_doc)) as ([sim doc] & -> & _).
    { eapply Forall_impl; [exact Hi|]. intros d ->. by rewrite HashEmbedding_length. }
    by eexists. }
  exists (Z.of_nat total), (TuneCacheFromData (map fst points) (map snd points) target). split; [done|].
  assert (Z.of_nat (length (List.filter (fun i => ri_Phase i =? 1) items)) <= Z.of_nat (length items)) by (clear; induction items as [|i l IH]; cbn [List.filter length]; [lia|destruct (ri_Phase i =? 1); cbn [length]; lia]).
  unfold total. destruct ((0 <? limit) && _) eqn:E; [|lia]. apply andb_true_iff in E as [E1%Z.ltb_lt E2%Z.ltb_lt]. lia.
Qed.

(** A prompt that is repeated word for word is found. *)
Example repeated_prompt_found :
  option_map (fun r => lp_Acceptable r.2) (evaluate_item (map index_item [mkReplayItem "1" "g1" 1 "how do magnets work"; mkReplayItem "2" "g2" 1 "What is rust?"]) (mkReplayItem "3" "g2" 2 "what is Rust")) = Some true.
Proof. by vm_compute. Qed.
End CacheEval.
