(* ===== verification/Queries.v ===== *)
(** * The queries over shadow evidence (src/internal/proof/store.go)

    What the reports, the monitors and the label worker read from ClickHouse: the queries are
    written over the rows of the four tables, as their SQL says.  [FINAL] keeps, of the labels
    with the same shadow row and rater, the one with the newest time, as the table's engine
    does (src/internal/analytics/migrations/002_proof.sql).  Rows without an ORDER BY come in
    the order of their table.  Discharges what [Judge] assumes of [UnlabeledShadow]. *)

From S2P Require Import Prelude GoStrings GoFloat GoSort Config Api SmartRoute Credentials Judge Stats Evidence.

Open Scope string_scope.
Open Scope list_scope.
Open Scope Z_scope.

Record tables := mkTables { tb_shadow : list ShadowRow; tb_labels : list CacheLabel; tb_routing : list RoutingShadow; tb_decisions : list RoutingDecision }.

(** ** FINAL *)

Definition same_key (a b : CacheLabel) : bool := String.eqb (lb_ShadowID a) (lb_ShadowID b) && String.eqb (lb_Rater a) (lb_Rater b).

(** A row replaces the one of its key unless that is newer. *)
Fixpoint replace_label (l : CacheLabel) (acc : list CacheLabel) : list CacheLabel :=
  match acc with
  | [] => [l]
  | x :: acc => if same_key l x then (if lb_TS x <=? lb_TS l then l else x) :: acc else x :: replace_label l acc
  end.

Definition final (ls : list CacheLabel) : list CacheLabel := for_range ls [] (fun acc l => replace_label l acc).

Definition rated (rater : string) (ls : list CacheLabel) : list CacheLabel := List.filter (fun l => String.eqb (lb_Rater l) rater) ls.
Definition labels_for (id : string) (ls : list CacheLabel) : list CacheLabel := List.filter (fun l => String.eqb (lb_ShadowID l) id) ls.

(** ** The queries; [ok] is whether the database answers. *)

Definition newest_first (a b : ShadowRow) : bool := sw_TS b <? sw_TS a.

Definition UnlabeledShadow (ok : bool) (shadow : list ShadowRow) (labels : list CacheLabel) (route : string) (lo hi : spec_float) (limit : Z) : string + list ShadowRow :=
  if negb ok then inl db_error
  else
    let judged_ids := map lb_ShadowID (rated "judge" (final labels)) in
    let wanted r := String.eqb (sw_Route r) route && fgeb (sw_Similarity r) (to_float32 lo) && fltb (sw_Similarity r) (to_float32 hi) &&
                    negb (existsb (String.eqb (sw_ID r)) judged_ids) in
    inr (take (Z.to_nat limit) (stable_sort newest_first (List.filter wanted shadow))).

Definition since_rows (route : string) (since : Time) (t : tables) : list ShadowRow :=
  List.filter (fun r => String.eqb (sw_Route r) route && (since <=? sw_TS r)) (tb_shadow t).

(** One point per shadow row with a label: a human's label, or else the judge's. *)
Definition point_of (labels : list CacheLabel) (r : ShadowRow) : option LabeledPoint :=
  match labels_for (sw_ID r) labels with
  | [] => None
  | ls =>
      let first rater := match rated rater ls with l :: _ => lb_Acceptable l | [] => false end in
      Some (match rated "human" ls with
            | [] => mkPoint (sw_Similarity r) (first "judge") "judge"
            | _ => mkPoint (sw_Similarity r) (first "human") "human"
            end)
  end.

(** The first query may break off after some rows, which is not looked at. *)
Definition CurveInputs (ok1 ok2 : bool) (broken : option nat) (t : tables) (route : string) (since : Time) : string + list spec_float * list LabeledPoint :=
  if negb ok1 then inl db_error
  else
    let sims := map sw_Similarity (since_rows route since t) in
    let sims := match broken with Some n => take n sims | None => sims end in
    if negb ok2 then inl db_error
    else inr (sims, omap (point_of (final (tb_labels t))) (since_rows route since t)).

(** The labels of rows that both have judged, aligned. *)
Definition pairs_of (labels : list CacheLabel) (shadow : list ShadowRow) (route : string) : list (bool * bool) :=
  flat_map (fun j => flat_map (fun h =>
      map (fun _ => (lb_Acceptable j, lb_Acceptable h)) (List.filter (fun s => String.eqb (sw_ID s) (lb_ShadowID j) && String.eqb (sw_Route s) route) shadow))
    (labels_for (lb_ShadowID j) (rated "human" labels))) (rated "judge" labels).

Definition HumanAndJudge (ok : bool) (t : tables) (route : string) : string + list bool * list bool :=
  if negb ok then inl db_error
  else let ps := pairs_of (final (tb_labels t)) (tb_shadow t) route in inr (map fst ps, map snd ps).

Definition RoutingDeltas (ok : bool) (t : tables) (route : string) (since : Time) : string + list spec_float :=
  if negb ok then inl db_error
  else inr (map (fun r => fsub (ro_CheapScore r) (ro_StrongScore r))
              (List.filter (fun r => String.eqb (ro_Route r) route && String.eqb (ro_Decision r) "cheap" && (since <=? ro_TS r)) (tb_routing t))).

Definition RoutingSavings (ok : bool) (t : tables) (route : string) (since : Time) : string + Z * Z * spec_float * Z :=
  if negb ok then inl db_error
  else
    let rows := List.filter (fun d => String.eqb (rd_Route d) route && (since <=? rd_TS d)) (tb_decisions t) in
    let cnt := Z.of_nat (length rows) in let cheap := Z.of_nat (length (List.filter (fun d => String.eqb (rd_Decision d) "cheap") rows)) in
    inr (wrap64 (foldr Z.add 0 (map rd_CostMicros rows)), wrap64 (foldr Z.add 0 (map rd_CounterfactualMicros rows)),
         if 0 <? cnt then fdiv (f_of_Z cheap) (f_of_Z cnt) else f0, cnt).

(** All labels of the rows, and those that are not acceptable. *)
Definition evaluated (t : tables) (route : string) (since : Time) : list CacheLabel :=
  flat_map (fun l => map (fun _ => l) (List.filter (fun s => String.eqb (sw_ID s) (lb_ShadowID l)) (since_rows route since t))) (final (tb_labels t)).

Definition CacheErrorRate (ok : bool) (t : tables) (route : string) (since : Time) : string + Z * Z :=
  if negb ok then inl db_error
  else let ls := evaluated t route since in inr (Z.of_nat (length ls), Z.of_nat (length (List.filter (fun l => negb (lb_Acceptable l)) ls))).

(** ** What is final *)

Lemma same_key_spec a b : same_key a b = true <-> lb_ShadowID a = lb_ShadowID b /\ lb_Rater a = lb_Rater b.
Proof. unfold same_key. by rewrite andb_true_iff, !String.eqb_eq. Qed.

Definition label_key (l : CacheLabel) : string * string := (lb_ShadowID l, lb_Rater l).

Lemma same_key_eq a b : same_key a b = true <-> label_key a = label_key b.
Proof. rewrite same_key_spec. unfold label_key. split; [by intros [-> ->]|by intros [= -> ->]]. Qed.

Lemma replace_label_keys l acc : map label_key (replace_label l acc) = if existsb (same_key l) acc then map label_key acc else map label_key acc ++ [label_key l].
Proof.
  induction acc as [|x acc IH]; [done|]. cbn [replace_label existsb map]. destruct (same_key l x) eqn:E; cbn [orb map].
  - apply same_key_eq in E. by destruct (lb_TS x <=? lb_TS l); [rewrite E|].
  - rewrite IH. by destruct (existsb (same_key l) acc).
Qed.

Lemma existsb_key l acc : existsb (same_key l) acc = true <-> label_key l ∈ map label_key acc.
Proof.
  rewrite existsb_exists, list_elem_of_fmap. split.
  - intros (x & Hx & E%same_key_eq). exists x. split; [done|]. by apply list_elem_of_In.
  - intros (x & E & Hx). exists x. split; [by apply list_elem_of_In|]. by apply same_key_eq.
Qed.

Lemma final_fold ls : forall acc, NoDup (map label_key acc) ->
  NoDup (map label_key (fold_left (fun acc l => replace_label l acc) ls acc)) /\
  forall k, k ∈ map label_key (fold_left (fun acc l => replace_label l acc) ls acc) <-> k ∈ map label_key acc \/ k ∈ map label_key ls.
Proof.
  induction ls as [|l ls IH]; intros acc Hnd; cbn [fold_left map]; [split; [done|]; intros k; rewrite elem_of_nil; tauto|].
  assert (NoDup (map label_key (replace_label l acc))) as Hnd'.
  { rewrite replace_label_keys. destruct (existsb _ acc) eqn:E; [done|]. apply NoDup_app. split_and!; [done| |apply NoDup_singleton].
    intros k Hk ->%list_elem_of_singleton. apply existsb_key in Hk. congruence. }
  destruct (IH _ Hnd') as [H1 H2]. split; [done|]. intros k. rewrite H2, replace_label_keys, elem_of_cons. destruct (existsb _ acc) eqn:E.
  - apply existsb_key in E. split; [tauto|]. intros [?|[->|?]]; tauto.
  - rewrite elem_of_app, list_elem_of_singleton. tauto.
Qed.

(** [FINAL] has one label per row and rater, for exactly the pairs that were labelled. *)
Lemma final_keys ls : NoDup (map label_key (final ls)) /\ forall k, k ∈ map label_key (final ls) <-> k ∈ map label_key ls.
Proof. destruct (final_fold ls [] ltac:(constructor)) as [H1 H2]. split; [done|]. intros k. rewrite (H2 k). cbn. rewrite elem_of_nil. tauto. Qed.

(** The label that [FINAL] keeps is none other's elder. *)
Lemma final_newest ls l : l ∈ ls -> exists x, x ∈ final ls /\ label_key x = label_key l /\ lb_TS l <= lb_TS x.
Proof.
  assert (forall ls acc l, l ∈ acc \/ l ∈ ls -> exists x, x ∈ fold_left (fun acc l => replace_label l acc) ls acc /\ label_key x = label_key l /\ lb_TS l <= lb_TS x) as H; [|intros Hl; apply H; by right].
  clear. assert (forall l acc, exists x, x ∈ replace_label l acc /\ label_key x = label_key l /\ lb_TS l <= lb_TS x) as Hnew.
  { intros l acc. induction acc as [|y acc (x & Hx & Hk & Ht)]; [exists l; split; [by left|done]|]. cbn [replace_label]. destruct (same_key l y) eqn:E; [|exists x; split; [by right|done]].
    apply same_key_eq in E. destruct (Z.leb_spec (lb_TS y) (lb_TS l)); [exists l|exists y]; (split; [by left|split; [done|lia]]). }
  assert (forall l acc y, y ∈ acc -> exists x, x ∈ replace_label l acc /\ label_key x = label_key y /\ lb_TS y <= lb_TS x) as Hold.
  { intros l acc. induction acc as [|z acc IH]; intros y Hy; [by apply elem_of_nil in Hy|]. cbn [replace_label]. apply elem_of_cons in Hy as [->|Hy].
    - destruct (same_key l z) eqn:E; [|exists z; split; [by left|done]]. apply same_key_eq in E. destruct (Z.leb_spec (lb_TS z) (lb_TS l)); [exists l|exists z]; (split; [by left|split; [done|lia]]).
    - destruct (same_key l z); [exists y; split; [by right|done]|]. destruct (IH y Hy) as (x & Hx & Hr). exists x. split; [by right|done]. }
  intros ls. induction ls as [|l0 ls IH]; intros acc l Hl; cbn [fold_left]; [destruct Hl as [?|Hl]; [by exists l|by apply elem_of_nil in Hl]|].
  assert ((exists y, y ∈ replace_label l0 acc /\ label_key y = label_key l /\ lb_TS l <= lb_TS y) -> exists x, x ∈ fold_left (fun acc l => replace_label l acc) ls (replace_label l0 acc) /\ label_key x = label_key l /\ lb_TS l <= lb_TS x) as Hvia.
  { intros (y & Hy & Hk & Ht). destruct (IH (replace_label l0 acc) y (or_introl Hy)) as (x & Hx & Hk' & Ht'). exists x. split; [done|]. split; [congruence|lia]. }
  destruct Hl as [Hl|[->|Hl]%elem_of_cons]; [by apply Hvia, Hold|by apply Hvia, Hnew|by apply IH; right].
Qed.

(** ** What the label worker may rely on *)

Lemma judged_final ls id : id ∈ map lb_ShadowID (rated "judge" (final ls)) <-> id ∈ judged ls.
Proof.
  destruct (final_keys ls) as [_ Hk]. unfold judged, rated. assert (forall l : list CacheLabel, id ∈ map lb_ShadowID (List.filter (fun l => String.eqb (lb_Rater l) "judge") l) <-> (id, "judge") ∈ map label_key l) as H.
  { intros l. rewrite !list_elem_of_fmap. split.
    - intros (x & -> & [Hx E%String.eqb_eq]%list_elem_of_In%filter_In). exists x. split; [unfold label_key; by rewrite E|by apply list_elem_of_In].
    - intros (x & [= -> E] & Hx). exists x. split; [done|]. apply list_elem_of_In, filter_In. split; [by apply list_elem_of_In|by apply String.eqb_eq]. }
  rewrite H, Hk, <- H. rewrite !list_elem_of_fmap. split; intros (x & -> & Hx); exists x; (split; [done|]).
  - apply list_elem_of_In, filter_In in Hx as [Hx E%String.eqb_eq]. apply list_elem_of_filter. split; [done|by apply list_elem_of_In].
  - apply list_elem_of_filter in Hx as [E Hx]. apply list_elem_of_In, filter_In. split; [by apply list_elem_of_In|by apply String.eqb_eq].
Qed.

Lemma NoDup_map_filter {A B} (f : A -> B) (p : A -> bool) l : NoDup (map f l) -> NoDup (map f (List.filter p l)).
Proof.
  induction l as [|x l IH]; [done|]. cbn [map List.filter]. intros [Hx Hl]%NoDup_cons. destruct (p x); [|by apply IH]. cbn [map]. constructor; [|by apply IH].
  intros (y & E & Hy)%list_elem_of_fmap. apply Hx. apply list_elem_of_fmap. exists y. split; [done|]. apply list_elem_of_In, filter_In in Hy as [Hy _]. by apply list_elem_of_In.
Qed.

(** The rows that come to be labelled are different ones, of the route and the range of similarity
    asked for, at most as many as asked for, and the judge has labelled none of them. *)
Theorem unlabelled_rows shadow ls route lo hi limit rows : NoDup (map sw_ID shadow) -> UnlabeledShadow true shadow ls route lo hi limit = inr rows ->
  NoDup (map sw_ID rows) /\ (length rows <= Z.to_nat limit)%nat /\
  forall r, r ∈ rows -> r ∈ shadow /\ sw_ID r ∉ judged ls /\ sw_Route r = route /\ fgeb (sw_Similarity r) (to_float32 lo) = true /\ fltb (sw_Similarity r) (to_float32 hi) = true.
Proof.
  intros Hnd [= <-]. match goal with |- context [stable_sort newest_first ?l] => set (w := l) end. pose proof (stable_sort_perm newest_first w) as Hp. split; [|split; [by rewrite length_take; lia|]].
  - change (NoDup (sw_ID <$> take (Z.to_nat limit) (stable_sort newest_first w))). eapply (sublist_NoDup _ (sw_ID <$> stable_sort newest_first w)); [|apply fmap_sublist, sublist_take].
    rewrite Hp. by apply (NoDup_map_filter sw_ID).
  - intros r Hr. apply (elem_of_sublist _ (stable_sort newest_first w)) in Hr; [|apply sublist_take]. rewrite Hp in Hr. unfold w in Hr. apply list_elem_of_In, filter_In in Hr as [Hin Hw].
    rewrite !andb_true_iff, String.eqb_eq, negb_true_iff in Hw. destruct Hw as [[[Hr Hlo] Hhi] Hn]. split_and!; [by apply list_elem_of_In| |done..].
    intros Hj. apply judged_final in Hj. assert (existsb (String.eqb (sw_ID r)) (map lb_ShadowID (rated "judge" (final ls))) = true); [|congruence].
    apply existsb_exists. exists (sw_ID r). split; [by apply list_elem_of_In|apply String.eqb_refl].
Qed.

(** ** What the reports read *)

(** A row of evidence gives one point, and a human's label goes before the judge's. *)
Theorem curve_points ok1 ok2 broken t route since sims points : CurveInputs ok1 ok2 broken t route since = inr (sims, points) ->
  (length points <= length (since_rows route since t))%nat /\
  (broken = None -> length sims = length (since_rows route since t)) /\
  forall r l, r ∈ since_rows route since t -> l ∈ rated "human" (labels_for (sw_ID r) (final (tb_labels t))) ->
    mkPoint (sw_Similarity r) (lb_Acceptable l) "human" ∈ points.
Proof.
  unfold CurveInputs. destruct ok1; [|done]. destruct ok2; [|done]. cbn [negb]. intros [= <- <-]. split; [|split].
  - induction (since_rows route since t) as [|r rs IH]; [done|]. cbn. destruct (point_of _ r); cbn; lia.
  - intros ->. by rewrite length_map.
  - intros r l Hr Hl. apply list_elem_of_omap. exists r. split; [done|]. unfold point_of.
    assert (NoDup (map label_key (rated "human" (labels_for (sw_ID r) (final (tb_labels t)))))) as Hnd by (apply NoDup_map_filter, NoDup_map_filter, final_keys).
    assert (forall x, x ∈ rated "human" (labels_for (sw_ID r) (final (tb_labels t))) -> label_key x = (sw_ID r, "human")) as Hkey.
    { intros x Hx%list_elem_of_In. unfold rated, labels_for in Hx. apply filter_In in Hx as [[_ E2%String.eqb_eq]%filter_In E1%String.eqb_eq]. unfold label_key. by rewrite E1, E2. }
    destruct (labels_for (sw_ID r) (final (tb_labels t))) as [|x xs] eqn:El; [by apply elem_of_nil in Hl|]. rewrite <- El in *. clear El.
    destruct (rated "human" (labels_for (sw_ID r) (final (tb_labels t)))) as [|y ys]; [by apply elem_of_nil in Hl|].
    apply elem_of_cons in Hl as [->|Hl]; [done|]. exfalso. cbn in Hnd. apply NoDup_cons in Hnd as [Hn _]. apply Hn. apply list_elem_of_fmap. exists l. split; [|done].
    rewrite (Hkey y ltac:(by left)), (Hkey l ltac:(by right)). done.
Qed.

(** Judge and human are compared on as many labels of each. *)
Lemma pairs_aligned ok t route js hs : HumanAndJudge ok t route = inr (js, hs) -> length js = length hs.
Proof. unfold HumanAndJudge. destruct ok; [|done]. intros [= <- <-]. by rewrite !length_map. Qed.

Lemma error_rate_bounded ok t route since total bad : CacheErrorRate ok t route since = inr (total, bad) -> 0 <= bad <= total.
Proof. unfold CacheErrorRate. destruct ok; [|done]. intros [= <- <-]. pose proof (List.filter_length_le (fun l => negb (lb_Acceptable l)) (evaluated t route since)). lia. Qed.

(** ** Examples *)

Module Demo.
Definition demo_row (id : string) : ShadowRow := mkShadowRow id 100 "t1" "chat" (f_lit 9 10) (f_lit 95 100) "" "" "" "" "semantic".
Definition demo_label (id rater : string) (ts : Time) (ok : bool) : CacheLabel := mkCacheLabel id ts rater "" ok "" "".
Definition demo_tables : tables :=
  mkTables [demo_row "a"; demo_row "b"] [demo_label "a" "judge" 101 false; demo_label "a" "human" 102 true; demo_label "b" "judge" 103 true; demo_label "b" "judge" 102 false] [] [].

(** A human has overruled the judge: the curve has one acceptable point for the row, while the
    rate that decides about a rollback counts both labels, and the judge's as an error. *)
Example overruled_label_still_counts :
  CurveInputs true true None demo_tables "chat" 0 = inr ([f_lit 95 100; f_lit 95 100], [mkPoint (f_lit 95 100) true "human"; mkPoint (f_lit 95 100) true "judge"]) /\
  CacheErrorRate true demo_tables "chat" 0 = inr (3, 1).
Proof. by vm_compute. Qed.

(** A query that breaks off gives a shorter list of similarities and no error. *)
Example broken_curve : exists points, CurveInputs true true (Some 1%nat) demo_tables "chat" 0 = inr ([f_lit 95 100], points).
Proof. eexists. by vm_compute. Qed.
End Demo.
