(* ===== verification/Endpoints.v ===== *)
(** * The small parts of the HTTP server
      (src/internal/server: probes.go, models.go, health_admin.go, routes.go, client_ip.go) *)

From S2P Require Import Prelude GoStrings Breaker Config Api Execute Route Health Policy Serve.

Open Scope string_scope.
Open Scope list_scope.
Open Scope Z_scope.

(** ** Probes, listings and the routes of the gateway
      (src/internal/server: probes.go, models.go, health_admin.go, routes.go)

    Checks of dependencies run in time: each has a result after some time or none; the probe's
    context ends after two seconds, or earlier when its client goes away.  The pattern matching
    of the router is its documented behaviour for these literal paths. *)

(** *** Probes *)

(** What a check does when it is called: it returns, after a while, or never comes back. *)
Inductive check_result := Returns (after : Duration) (err : option go_error) | Hangs.

(** [dep_Check] is [None] for a nil function. *)
Record ReadinessDependency := mkDependency { dep_Name : string; dep_Check : option check_result }.

Definition readinessTimeout : Duration := 2 * second.

(** The end of the probe's context, and how it ended. *)
Definition context_end (gone : option Duration) : Duration * go_error :=
  match gone with
  | Some g => if g <? readinessTimeout then (g, ErrCanceled) else (readinessTimeout, ErrDeadlineExceeded)
  | None => (readinessTimeout, ErrDeadlineExceeded)
  end.

(** [runReadinessCheck] from [now] on: the error and the time it is known.  A result that comes
    after the end of the context is not used. *)
Definition runReadinessCheck (gone : option Duration) (now : Duration) (c : check_result) : option go_error * Duration :=
  let '(stop, why) := context_end gone in
  match c with
  | Returns d err => if stop <=? now + d then (Some why, Z.max now stop) else (err, now + d)
  | Hangs => (Some why, Z.max now stop)
  end.

(** What a runtime has: a configuration, a router, providers and prices. *)
Record runtime_parts := mkParts { pt_Config : bool; pt_Router : bool; pt_Registry : bool; pt_Pricing : bool }.

(** [state] is [None] for a nil state, its content [None] before the first is stored. *)
Definition runtimeReady (state : option (option runtime_parts)) : bool :=
  match state with Some (Some p) => pt_Config p && pt_Router p && pt_Registry p && pt_Pricing p | _ => false end.

Inductive probe_answer := Ready | NotReady (dependency reason : string).

Definition is_deadline (e : go_error) : bool := match e with ErrDeadlineExceeded => true | _ => false end.

(** Whether the context has ended by its deadline. *)
Definition timed_out (gone : option Duration) (now : Duration) : bool := let '(stop, why) := context_end gone in (stop <=? now) && is_deadline why.

Fixpoint check_dependencies (gone : option Duration) (now : Duration) (ds : list ReadinessDependency) : probe_answer * Duration :=
  match ds with
  | [] => (Ready, now)
  | d :: ds =>
      match dep_Check d with
      | None => check_dependencies gone now ds
      | Some c =>
          match runReadinessCheck gone now c with
          | (Some err, now) =>
              (NotReady (if String.eqb (dep_Name d) "" then "dependency" else dep_Name d) (if is_deadline err || timed_out gone now then "timeout" else "unavailable"), now)
          | (None, now) => check_dependencies gone now ds
          end
      end
  end.

Definition ReadinessHandler (state : option (option runtime_parts)) (gone : option Duration) (ds : list ReadinessDependency) : Z * probe_answer * Duration :=
  if negb (runtimeReady state) then (503, NotReady "runtime" "not_initialized", 0)
  else match check_dependencies gone 0 ds with
       | (Ready, t) => (200, Ready, t)
       | (a, t) => (503, a, t)
       end.

Definition LivenessHandler : Z := 200.

(** [Readiness] of handlers that may be nil. *)
Definition Readiness (h : option (option (option runtime_parts))) := ReadinessHandler (match h with Some st => st | None => None end).

(** **** A probe is answered in time *)

Lemma context_end_bounds gone : (context_end gone).1 <= readinessTimeout.
Proof. destruct gone as [g|]; cbn; [|lia]. destruct (Z.ltb_spec g readinessTimeout); cbn; lia. Qed.

Lemma runReadinessCheck_time gone now c err t : 0 <= now -> match c with Returns d _ => 0 <= d | Hangs => True end -> runReadinessCheck gone now c = (err, t) ->
  now <= t <= Z.max now readinessTimeout /\ (err = None -> t < (context_end gone).1).
Proof.
  intros Hn Hd. unfold runReadinessCheck. pose proof (context_end_bounds gone) as Hb. destruct (context_end gone) as [stop why]. cbn [fst] in *. destruct c as [d e|].
  - cbn in Hd. destruct (Z.leb_spec stop (now + d)); intros [= <- <-]; [split; [lia|done]|split; [lia|done]].
  - intros [= <- <-]. split; [lia|done].
Qed.

Definition prompt_checks (ds : list ReadinessDependency) : Prop := Forall (fun d => match dep_Check d with Some (Returns t _) => 0 <= t | _ => True end) ds.

(** The total time of the checks that came back, in order. *)
Fixpoint all_pass (stop now : Duration) (ds : list ReadinessDependency) : Prop :=
  match ds with
  | [] => True
  | d :: ds => match dep_Check d with
               | None => all_pass stop now ds
               | Some (Returns t None) => now + t < stop /\ all_pass stop (now + t) ds
               | Some _ => False
               end
  end.

Lemma check_dependencies_spec gone ds : forall now a t, 0 <= now <= readinessTimeout -> prompt_checks ds -> check_dependencies gone now ds = (a, t) ->
  now <= t <= readinessTimeout /\ (a = Ready <-> all_pass (context_end gone).1 now ds).
Proof.
  induction ds as [|d ds IH]; intros now a t Hn Hp; cbn [check_dependencies all_pass]; [intros [= <- <-]; split; [lia|done]|]. apply Forall_cons in Hp as [Hd Hp].
  destruct (dep_Check d) as [c|] eqn:Ec; [|by apply IH].
  destruct (runReadinessCheck gone now c) as [err t'] eqn:Er. pose proof (runReadinessCheck_time gone now c err t' ltac:(lia) ltac:(by destruct c) Er) as [Ht Hok].
  destruct err as [e|]; [intros [= <- <-]; split; [lia|split; [done|]]|].
  - unfold runReadinessCheck in Er. destruct (context_end gone) as [stop why]. cbn [fst]. destruct c as [u [e'|]|]; [done| |done]. destruct (Z.leb_spec stop (now + u)); [lia|]. by injection Er.
  - intros E. destruct (IH t' a t ltac:(lia) Hp E) as [Ht' Hiff]. split; [lia|]. rewrite Hiff. unfold runReadinessCheck in Er.
    destruct (context_end gone) as [stop why]. cbn [fst] in *. destruct c as [u e'|]; [|done]. destruct (Z.leb_spec stop (now + u)); [done|]. injection Er as -> <-.
    split; [intros H1; split; [lia|done]|by intros [_ ?]].
Qed.

(** The probe answers within its two seconds whatever the checks do, and says ready exactly when
    the runtime is complete and every check passes before the end of the context. *)
Theorem readiness_bounded state gone ds : prompt_checks ds ->
  let '(status, a, t) := ReadinessHandler state gone ds in
  0 <= t <= readinessTimeout /\ (status = 200 <-> runtimeReady state = true /\ all_pass (context_end gone).1 0 ds) /\ (status = 200 <-> a = Ready).
Proof.
  assert (0 <= 0 <= readinessTimeout) as H0 by by vm_compute. intros Hp. unfold ReadinessHandler. destruct (runtimeReady state); cbn [negb]; [|split; [done|split; split; try done; by intros [? _]]].
  destruct (check_dependencies gone 0 ds) as [a t] eqn:E. pose proof (check_dependencies_spec gone ds 0 a t H0 Hp E) as [Ht Hiff].
  destruct a; (split; [done|]); split; try done; rewrite <- Hiff; split; try done; by intros [_ ?].
Qed.

(** *** Listings *)

Record modelEntry := mkModelEntry { me_ID : string; me_Object : string; me_OwnedBy : string }.

Definition Models (rt : Router) (p : Principal) : list modelEntry :=
  omap (fun r => if CanUseRoute p (ro_Name r) then Some (mkModelEntry (ro_Name r) "model" "proofgate") else None) (Router_Routes rt).

(** A model that is listed can be asked for, with its kind of request, by the key that listed it. *)
Theorem listed_models_resolve cfg p m : NoDup (map rc_Name (Routes cfg)) -> Forall (fun rc => rc_Targets rc <> []) (Routes cfg) -> m ∈ Models (New cfg) p ->
  exists route, rr_routes (New cfg) !! me_ID m = Some route /\ ro_Name route = me_ID m /\ resolveRoute (New cfg) p (me_ID m) (ro_Embeddings route) = Some (inr route).
Proof.
  intros Hnd Hne (r & Hr & Hm)%list_elem_of_omap. destruct (CanUseRoute p (ro_Name r)) eqn:Hu; [|done]. injection Hm as <-. cbn [me_ID].
  assert (forall rcs r0, rr_order (for_range rcs r0 add_route) = rr_order r0 ++ map route_of_config rcs) as Horder.
  { unfold for_range. clear. induction rcs as [|rc rcs IH]; intros r0; cbn [fold_left map]; [by rewrite app_nil_r|]. rewrite IH. cbn [rr_order add_route]. by rewrite <- app_assoc. }
  unfold Router_Routes, New in Hr. rewrite Horder in Hr. cbn [rr_order app] in Hr. apply list_elem_of_fmap in Hr as (rc & -> & Hrc).
  destruct (add_routes_lookup (Routes cfg) (mkRouter ∅ [] (list_to_set (map pv_Name (Providers cfg))) (Pricing cfg) (capability_of_config <$> Capabilities cfg) None) Hnd) as [Hl _].
  exists (route_of_config rc). split; [by apply Hl|]. split; [done|]. unfold resolveRoute, Resolve. change (ro_Name (route_of_config rc)) with (rc_Name rc) in *.
  replace (rr_routes (New cfg) !! rc_Name rc) with (Some (route_of_config rc)) by (symmetry; by apply Hl). cbn [ro_Name route_of_config]. rewrite Hu. by rewrite Bool.eqb_reflx.
Qed.

(** [Health] is [None] where tracking is switched off. *)
Definition HealthAdmin (h : option Tracker) : gmap string Stats := match h with None => ∅ | Some t => Snapshot t end.

(** *** Routes *)

Inductive endpoint := EHealthz | EChat | EEmbeddings | EModels | EMcp (server : string).

(** What a request meets: nothing, a path without its method, or an endpoint, behind the
    authentication or not. *)
Inductive dispatched := NoRoute | WrongMethod | Open (e : endpoint) | Authenticated (e : endpoint).

(** "/mcp/{server}": one segment, not empty. *)
Definition mcp_server (path : string) : option string :=
  if has_prefix "/mcp/" path then let s := sdrop 5 path in if String.eqb s "" || scontains_byte "/" s then None else Some s else None.

Definition dispatch (mcp : bool) (method path : string) : dispatched :=
  let on m d := if String.eqb method m then d else WrongMethod in
  if String.eqb path "/healthz" then on "GET" (Open EHealthz)
  else if String.eqb path "/v1/chat/completions" then on "POST" (Authenticated EChat)
  else if String.eqb path "/v1/embeddings" then on "POST" (Authenticated EEmbeddings)
  else if String.eqb path "/v1/models" then on "GET" (Authenticated EModels)
  else match mcp_server path with
       | Some s => if mcp then Authenticated (EMcp s) else NoRoute
       | None => NoRoute
       end.

(** Only the health probe is served without a key. *)
Lemma only_healthz_is_open mcp method path e : dispatch mcp method path = Open e -> e = EHealthz /\ path = "/healthz" /\ method = "GET".
Proof.
  unfold dispatch. destruct (String.eqb_spec path "/healthz"); [destruct (String.eqb_spec method "GET"); [by intros [= <-]|done]|].
  repeat (destruct (String.eqb path _); [by destruct (String.eqb method _)|]). by destruct (mcp_server path), mcp.
Qed.

(** **** Recover

    What a handler wrote before it returned or panicked; a status that is set late is ignored. *)

Record written := mkWritten { wr_status : option Z; wr_body : list string }.

Definition write_error (e : ApiError) (w : written) : written :=
  mkWritten (match wr_status w with None => Some (ae_Status e) | st => st end) (wr_body w ++ [ae_Message e]).

Definition Recover (handler : written * bool) : written := let '(w, panicked) := handler in if panicked then write_error Internal w else w.

(** A panic before anything is written is a 500; after that the error is appended to what was sent. *)
Lemma recover_late w : wr_status w <> None -> Recover (w, true) = mkWritten (wr_status w) (wr_body w ++ [ae_Message Internal]).
Proof. unfold Recover, write_error. by destruct (wr_status w). Qed.

Example recover_early : wr_status (Recover (mkWritten None [], true)) = Some 500.
Proof. done. Qed.

(** *** Examples *)

Example slow_dependency_times_out :
  ReadinessHandler (Some (Some (mkParts true true true true))) None
    [mkDependency "postgres" (Some (Returns (3 * second / 2) None)); mkDependency "redis" (Some (Returns second None))] = (503, NotReady "redis" "timeout", 2 * second) /\
  ReadinessHandler (Some (Some (mkParts true true true true))) None [mkDependency "" (Some (Returns 5 (Some (ErrOther "refused"))))] = (503, NotReady "dependency" "unavailable", 5) /\
  ReadinessHandler (Some None) None [] = (503, NotReady "runtime" "not_initialized", 0).
Proof. by vm_compute. Qed.

(** ** The address of a client (src/internal/server/client_ip.go)

    [ClientIP] over a request's remote address and its X-Forwarded-For header.
    [net.SplitHostPort] (the host, or [None] on an error), [net.ParseIP] and
    [IPNet.Contains] are parameters. *)

Section ClientIP.
Context {IP IPNet : Type} (SplitHostPort : string -> option string) (ParseIP : string -> option IP) (Contains : IPNet -> IP -> bool).
Context (trusted : list IPNet).

Definition is_trusted (ip : IP) : bool := existsb (fun network => Contains network ip) trusted.

(** One hop of the chain: the client, if this entry decides it. *)
Definition hop (part : string) : option string :=
  let candidate := trim_space part in
  if String.eqb candidate "" then None
  else match ParseIP candidate with
       | None => None
       | Some ip => if is_trusted ip then None else Some candidate
       end.

(** The first hop that decides. *)
Fixpoint first_hop (parts : list string) : option string :=
  match parts with
  | [] => None
  | p :: parts' => match hop p with Some c => Some c | None => first_hop parts' end
  end.

Definition remote_host (remoteAddr : string) : string := trim_space (default remoteAddr (SplitHostPort remoteAddr)).

(** [lines] are the X-Forwarded-For lines of the header; [Header.Get] reads the first. *)
Definition ClientIP (remoteAddr : string) (lines : list string) : string :=
  let xff := default "" (head lines) in
  let remoteHost := remote_host remoteAddr in
  match trusted, ParseIP remoteHost with
  | [], _ | _, None => remoteHost
  | _, Some remoteIP =>
      if negb (is_trusted remoteIP) then remoteHost
      else if String.eqb xff "" then remoteHost
      else
        let parts := split_byte "," xff in
        match first_hop (rev parts) with
        | Some candidate => candidate
        | None =>
            let first := trim_space (default "" (head parts)) in
            if negb (String.eqb first "") then first else remoteHost
        end
  end.

(** *** Lemmas *)

Lemma first_hop_app l1 l2 : first_hop (l1 ++ l2) = match first_hop l1 with Some c => Some c | None => first_hop l2 end.
Proof. induction l1 as [|p l1 IH]; simpl; [done|]. by destruct (hop p). Qed.

Lemma first_hop_none l : Forall (fun p => hop p = None) l -> first_hop l = None.
Proof. induction 1 as [|p l H _ IH]; [done|]. simpl. by rewrite H. Qed.

(** The text that hops are appended to. *)
Definition with_hops (s : string) (hops : list string) : string := fold_left (fun s h => s +:+ "," +:+ h) hops s.

Lemma split_with_hops hops s : Forall (fun h => scontains_byte "," h = false) hops ->
  split_byte "," (with_hops s hops) = split_byte "," s ++ hops.
Proof.
  revert s. induction hops as [|h hops IH]; intros s H; [by rewrite app_nil_r|]. apply Forall_cons in H as [Hh H].
  unfold with_hops in *. cbn [fold_left]. rewrite IH by done.
  change ("," +:+ h) with (String "," h). by rewrite split_byte_app, (split_byte_one _ h), <- app_assoc.
Qed.
End ClientIP.

(** An address is a trusted proxy's, or one that counts as a client's. *)
Definition proxy_hop {IP IPNet} (ParseIP : string -> option IP) (Contains : IPNet -> IP -> bool) trusted (h : string) : Prop :=
  exists ip, ParseIP (trim_space h) = Some ip /\ is_trusted Contains trusted ip = true.
Definition client_hop {IP IPNet} (ParseIP : string -> option IP) (Contains : IPNet -> IP -> bool) trusted (h : string) : Prop :=
  trim_space h <> "" /\ exists ip, ParseIP (trim_space h) = Some ip /\ is_trusted Contains trusted ip = false.

(** C36. A request that does not come from a trusted proxy has its sender's address, whatever
    the header says.  Behind a chain of trusted proxies that keep to the rules, the address is
    the one the outermost of them appended, whatever the client wrote into the line before it
    and whatever further lines hold: the rules are that each appends its peer's address to the
    first line of X-Forwarded-For, bare and readable, and that the outermost one's peer is
    outside the trusted networks and the others' peers are in them.  (A proxy that appends a
    port or a line of its own does not keep to them: [forged_address_returned].) *)
Theorem ClientIP_unspoofable {IP IPNet : Type} (SplitHostPort : string -> option string) (ParseIP : string -> option IP)
  (Contains : IPNet -> IP -> bool) (trusted : list IPNet) (remoteAddr : string) :
  let remote := remote_host SplitHostPort remoteAddr in
  (~ proxy_hop ParseIP Contains trusted (default remoteAddr (SplitHostPort remoteAddr)) ->
    forall lines, ClientIP SplitHostPort ParseIP Contains trusted remoteAddr lines = remote) /\
  (proxy_hop ParseIP Contains trusted (default remoteAddr (SplitHostPort remoteAddr)) ->
    forall written client proxies more,
      Forall (fun h => scontains_byte "," h = false) (client :: proxies) ->
      client_hop ParseIP Contains trusted client -> Forall (proxy_hop ParseIP Contains trusted) proxies ->
      ClientIP SplitHostPort ParseIP Contains trusted remoteAddr (with_hops written (client :: proxies) :: more) = trim_space client).
Proof.
  intros remote. unfold ClientIP. fold remote. split.
  - intros Hno lines. destruct trusted as [|n ns]; [done|]. destruct (ParseIP remote) as [ip|] eqn:Ep; [|done].
    destruct (is_trusted Contains (n :: ns) ip) eqn:Et; [|done]. destruct Hno. by exists ip.
  - intros (rip & Hp & Ht) written client proxies more Hc (Hne & ip & Hip & Hu) Hpr. destruct trusted as [|n ns] eqn:En; [done|]. rewrite <- En in *.
    assert (ParseIP remote = Some rip) as -> by done. rewrite Ht. cbn [negb].
    cbv zeta. change (default "" (head (with_hops written (client :: proxies) :: more))) with (with_hops written (client :: proxies)).
    destruct (String.eqb_spec (with_hops written (client :: proxies)) "") as [E|_].
    { pose proof (split_with_hops (client :: proxies) written Hc) as Hs. rewrite E in Hs. apply (f_equal length) in Hs.
      rewrite length_app in Hs. destruct written; cbn in Hs; [lia|]. repeat case_match; cbn in Hs; lia. }
    rewrite split_with_hops by done. rewrite rev_app_distr. cbn [rev]. rewrite !first_hop_app.
    rewrite first_hop_none.
    + cbn [first_hop]. unfold hop. destruct (String.eqb_spec (trim_space client) ""); [done|]. by rewrite Hip, Hu.
    + apply Forall_rev. eapply Forall_impl; [exact Hpr|]. intros h (ip' & Hip' & Ht'). unfold hop.
      destruct (String.eqb (trim_space h) ""); [done|]. by rewrite Hip', Ht'.
Qed.

(** *** Examples *)

(** Addresses of the documentation ranges; 10.x is the proxies' network. *)
Definition demo_ip (s : string) : option string :=
  if existsb (String.eqb s) ["10.0.0.1"; "10.0.0.2"; "203.0.113.9"; "198.51.100.4"; "192.0.2.66"] then Some s else None.
Definition demo_net (network : string) (ip : string) : bool := has_prefix network ip.
Definition no_port (s : string) : option string := let '(h, _, ok) := cut s ":" in if ok then Some h else None.
Definition demo_client (remoteAddr : string) (lines : list string) : string := ClientIP no_port demo_ip demo_net ["10."] remoteAddr lines.

Example client_ex : map (fun x => demo_client x.1 x.2)
  [("203.0.113.9:55", ["192.0.2.66"]); ("10.0.0.1:55", []); ("10.0.0.1:55", ["192.0.2.66, 203.0.113.9 ,10.0.0.2"]);
   ("10.0.0.1:55", ["10.0.0.2"]); ("10.0.0.1:55", ["nonsense"])] =
  ["203.0.113.9"; "10.0.0.1"; "203.0.113.9"; "10.0.0.2"; "nonsense"].
Proof. vm_compute. reflexivity. Qed.

Lemma ClientIP_unspoofable_witness : demo_client "10.0.0.1:55" ["192.0.2.66, 203.0.113.9 ,10.0.0.2"] = "203.0.113.9".
Proof.
  destruct (ClientIP_unspoofable no_port demo_ip demo_net ["10."] "10.0.0.1:55") as [_ H].
  refine (H _ "192.0.2.66" " 203.0.113.9 " ["10.0.0.2"] [] _ _ _).
  - exists "10.0.0.1". by split.
  - by repeat constructor.
  - split; [done|]. exists "203.0.113.9". by split.
  - constructor; [|constructor]. exists "10.0.0.2". by split.
Defined.

(** A proxy that appends the address with its port, or adds a header line of its
    own, leaves the client's invention in charge. *)
Theorem forged_address_returned :
  demo_client "10.0.0.1:55" ["192.0.2.66,203.0.113.9:4711"] = "192.0.2.66" /\
  demo_client "10.0.0.1:55" ["192.0.2.66"; "203.0.113.9"] = "192.0.2.66".
Proof. split; vm_compute; reflexivity. Qed.
