(* ===== verification/Migrations.v ===== *)
(** * Schema migrations (src/internal/store/migrate.go, analytics/clickhouse.go)

    Any number of gateways start on one database: each takes the advisory lock, and applies in
    one transaction each the migrations whose name is not recorded.  What the SQL of a migration
    does is the database's; here it is the sequence in which the migrations were committed.
    ClickHouse keeps no record: every start runs every statement again. *)

From Stdlib Require Import Sorting.Sorted.
From S2P Require Import Prelude GoStrings GoSort Credentials.

Open Scope string_scope.
Open Scope list_scope.
Open Scope Z_scope.

(** ** PostgreSQL *)

Section Postgres.
(** The embedded files, sorted by name. *)
Context (names : list string).

(** A start of a gateway: before the lock, with the migrations still to look at, or returned. *)
Inductive migrator := Waiting | Running (rest : list string) | Returned (ok : bool).

(** The lock and its holder, what was committed, and the starts. *)
Record schema := mkSchema { sc_lock : option nat; sc_applied : list string; sc_procs : list migrator }.

Definition with_proc (i : nat) (p : migrator) (lock : option nat) (applied : list string) (s : schema) : schema := mkSchema lock applied (<[i := p]> (sc_procs s)).

(** The transaction of a migration: nothing of it is there when it is refused; the answer to its
    commit may be lost. *)
Definition apply_migration (n : string) (f : fate) (applied : list string) : list string * bool :=
  match f with Commits => (applied ++ [n], true) | Refused => (applied, false) | Unanswered => (applied ++ [n], false) end.

(** One round of the loop of [Migrate]: [reads] is whether the table and the file can be read and a
    transaction begun; an error returns, and the deferred unlock runs. *)
Definition migrate_step (i : nat) (reads : bool) (f : fate) (s : schema) : schema :=
  match sc_procs s !! i with
  | Some (Running []) => with_proc i (Returned true) None (sc_applied s) s
  | Some (Running (n :: rest)) =>
      if negb reads then with_proc i (Returned false) None (sc_applied s) s
      else if bool_decide (n ∈ sc_applied s) then with_proc i (Running rest) (sc_lock s) (sc_applied s) s
      else let '(applied, ok) := apply_migration n f (sc_applied s) in
           if ok then with_proc i (Running rest) (sc_lock s) applied s else with_proc i (Returned false) None applied s
  | _ => s
  end.

Inductive migrate : schema -> schema -> Prop :=
| mg_start s : migrate s (mkSchema (sc_lock s) (sc_applied s) (sc_procs s ++ [Waiting]))
| mg_lock s i : sc_procs s !! i = Some Waiting -> sc_lock s = None -> migrate s (with_proc i (Running names) (Some i) (sc_applied s) s)
| mg_give_up s i : sc_procs s !! i = Some Waiting -> migrate s (with_proc i (Returned false) (sc_lock s) (sc_applied s) s)
| mg_round s i reads f : (exists rest, sc_procs s !! i = Some (Running rest)) -> migrate s (migrate_step i reads f s).

Definition no_schema : schema := mkSchema None [] [].

(** What was committed is the first migrations in order; who runs holds the lock, and those before
    the place it has come to are all committed. *)
Definition schema_ok (s : schema) : Prop :=
  (exists k, (k <= length names)%nat /\ sc_applied s = take k names) /\
  (forall i rest, sc_procs s !! i = Some (Running rest) -> sc_lock s = Some i /\ exists pre, names = pre ++ rest /\ pre ⊆ sc_applied s) /\
  (forall i, sc_procs s !! i = Some (Returned true) -> sc_applied s = names).

Context (names_distinct : NoDup names).

Lemma take_snoc_eq k pre n rest : (k <= length names)%nat -> names = pre ++ n :: rest -> pre ⊆ take k names -> n ∉ take k names -> take k names ++ [n] = take (S k) names /\ (S k <= length names)%nat.
Proof using names_distinct.
  intros Hk E Hpre Hn. assert (k = length pre) as ->.
  { destruct (Nat.lt_trichotomy k (length pre)) as [Hlt|[->|Hgt]]; [|done|].
    - exfalso. destruct (lookup_lt_is_Some_2 pre k Hlt) as [x Hx]. assert (x ∈ take k names) as Hin by (apply Hpre; by eapply list_elem_of_lookup_2).
      apply elem_of_take in Hin as (j & Hj & Hlt'). assert (names !! k = Some x) as Hk' by (rewrite E; by apply lookup_app_l_Some). pose proof (NoDup_lookup _ _ _ _ names_distinct Hj Hk'). lia.
    - exfalso. apply Hn. apply elem_of_take. exists (length pre). split; [|lia]. by rewrite E, list_lookup_middle. }
  rewrite E, length_app. cbn [length]. split; [|lia]. rewrite take_app_length. replace (S (length pre)) with (length (pre ++ [n])) by (rewrite length_app; cbn; lia).
  rewrite (cons_middle n pre rest), app_assoc. by rewrite take_app_length.
Qed.

Lemma schema_ok_step s s' : migrate s s' -> schema_ok s -> schema_ok s'.
Proof using names_distinct.
  intros Hs (Hk & Hrun & Hret). destruct Hs as [s|s i Hi Hlock|s i Hi|s i reads f [rest Hi]].
  - split_and!; [done| |]; cbn; intros j; [intros rest|]; rewrite lookup_app; (destruct (sc_procs s !! j) as [p|] eqn:E; [intros [= ->]; eauto|]); by destruct (j - length (sc_procs s))%nat.
  - split_and!; [done| |]; cbn; intros j; [intros rest|]; rewrite list_lookup_insert_Some.
    + intros [(<- & [= <-] & _)|[Hj Hp]]; [split; [done|]; exists []; split; [done|apply list_subseteq_nil]|]. destruct (Hrun _ _ Hp). congruence.
    + intros [(_ & ? & _)|[_ Hp]]; [done|by eapply Hret].
  - split_and!; [done| |]; cbn; intros j; [intros rest|]; rewrite list_lookup_insert_Some; (intros [(_ & ? & _)|[_ Hp]]; [done|eauto]).
  - destruct (Hrun _ _ Hi) as (Hl & pre & Epre & Hsub). destruct Hk as (k & Hk & Ek).
    assert (forall applied, (exists k, (k <= length names)%nat /\ applied = take k names) -> sc_applied s ⊆ applied ->
      forall p lock, (match p with Running r => lock = Some i /\ exists pre, names = pre ++ r /\ pre ⊆ applied | Returned true => applied = names | _ => True end) ->
      (lock = sc_lock s \/ lock = None) -> (lock = None -> match p with Running _ => False | _ => True end) ->
      (sc_applied s = names -> applied = names) -> schema_ok (with_proc i p lock applied s)) as Hset.
    { intros applied Hp Hs p lock Hpi Hlo Hno Hfull. split_and!; [done| |]; cbn; intros j; [intros r|]; rewrite list_lookup_insert_Some.
      - intros [(<- & -> & _)|[Hj Hpj]]; [done|]. destruct (Hrun _ _ Hpj) as [? _]. exfalso. apply Hj. congruence.
      - intros [(<- & -> & _)|[_ Hpj]]; [done|]. apply Hfull. by eapply Hret. }
    unfold migrate_step. rewrite Hi. destruct rest as [|n rest].
    + apply Hset; [by exists k|done| |by right|done|done]. rewrite Ek. rewrite app_nil_r in Epre. subst pre.
      destruct (Nat.eq_dec k (length names)) as [->|Hne]; [by rewrite firstn_all|]. exfalso. destruct (lookup_lt_is_Some_2 names k ltac:(lia)) as [x Hx].
      assert (x ∈ take k names) as Hin by (rewrite <- Ek; apply Hsub; by eapply list_elem_of_lookup_2). apply elem_of_take in Hin as (j & Hj & ?). pose proof (NoDup_lookup _ _ _ _ names_distinct Hj Hx). lia.
    + destruct reads; cbn [negb]; [|apply Hset; [by exists k|done|done|by right|done|done]].
      case_bool_decide as Hn.
      { apply Hset; [by exists k|done| |by left|congruence|done]. split; [done|]. exists (pre ++ [n]). split; [by rewrite <- app_assoc|]. intros x [Hx| ->%list_elem_of_singleton]%elem_of_app; [by apply Hsub|done]. }
      assert (sc_applied s ++ [n] = take (S k) names /\ (S k <= length names)%nat) as [Enew HSk] by (rewrite Ek in *; by eapply take_snoc_eq).
      assert (sc_applied s <> names) as Hnf by (intros E; apply Hn; rewrite E, Epre; apply elem_of_app; right; by left).
      destruct f; cbn [apply_migration].
      * apply Hset; [by exists (S k)|set_solver| |by left|congruence|done]. split; [done|]. exists (pre ++ [n]). split; [by rewrite <- app_assoc|set_solver].
      * apply Hset; [by exists k|done|done|by right|done|done].
      * apply Hset; [by exists (S k)|set_solver|done|by right|done|done].
Qed.

(** However many gateways start at once, and whichever transaction fails or loses the answer to its
    commit: each migration is committed at most once and only after all before it, and a start
    that returns without error has them all. *)
Theorem migrations_once_in_order s : rtc migrate no_schema s ->
  (exists k, sc_applied s = take k names) /\ NoDup (sc_applied s) /\ (forall i, sc_procs s !! i = Some (Returned true) -> sc_applied s = names).
Proof using names_distinct.
  intros Hr. assert (schema_ok s) as ((k & _ & Ek) & _ & Hret).
  { assert (schema_ok no_schema) as H0 by (split_and!; [exists O; split; [lia|done]|done|done]).
    revert H0. induction Hr as [|? ? ? Hs _ IH]; [done|]. intros H0. by apply IH, (schema_ok_step _ _ Hs). }
  split; [by exists k|]. split; [|done]. rewrite Ek. eapply sublist_NoDup; [exact names_distinct|apply sublist_take].
Qed.
End Postgres.

(** ** ClickHouse *)

Module CH.

(** [strings.Split] by a separator of any length, [strings.TrimSuffix]. *)
Fixpoint split_fuel (fuel : nat) (sep s : string) : list string :=
  match fuel with
  | O => [s]
  | S fuel => match cut s sep with (a, b, true) => a :: split_fuel fuel sep b | (_, _, false) => [s] end
  end.
Definition Split (s sep : string) : list string := split_fuel (S (String.length s)) sep s.
Definition TrimSuffix (s suf : string) : string := if has_suffix suf s then stake (String.length s - String.length suf) s else s.

(** The statements of a file. *)
Definition statement (stmt : string) : string := trim_space (TrimSuffix (trim_space stmt) ";").
Definition separator : string := newline +:+ ";;" +:+ newline.
Definition statements (file : string) : list string := List.filter (fun s => negb (String.eqb s "")) (map statement (Split file separator)).

(** The loops of [Migrate] and of [ApplyRetention]: [conn.Exec] of each statement, until one
    fails.  [exec] says what it does and whether it answers without error. *)
Section Exec.
Context {DB : Type} (exec : string -> DB -> DB * bool).
Fixpoint exec_all (l : list string) (db : DB) : DB * bool :=
  match l with
  | [] => (db, true)
  | s :: l => let '(db, ok) := exec s db in if ok then exec_all l db else (db, false)
  end.

(** [files] are the embedded files' texts in the order of their names. *)
Definition Migrate (files : list string) : DB -> DB * bool := exec_all (concat (map statements files)).

Definition column_ttl (table column : string) (hours : Z) : string :=
  "ALTER TABLE " +:+ table +:+ " MODIFY COLUMN " +:+ column +:+ " String TTL toDateTime(ts) + INTERVAL " +:+ itoa hours +:+ " HOUR".
Definition row_ttl (table : string) (days : Z) : string :=
  "ALTER TABLE " +:+ table +:+ " MODIFY TTL toDateTime(ts) + INTERVAL " +:+ itoa days +:+ " DAY".
Definition shadow_columns : list string := ["query"; "candidate_query"; "candidate_answer"; "actual_answer"].
Definition routing_columns : list string := ["prompt"; "cheap_answer"; "strong_answer"].
Definition retention_stmts (hours days : Z) : list string :=
  map (fun c => column_ttl "cache_shadow" c hours) shadow_columns ++ [row_ttl "cache_shadow" days] ++
  map (fun c => column_ttl "routing_shadow" c hours) routing_columns ++ [row_ttl "routing_shadow" days].
Definition or_default (n d : Z) : Z := if n <=? 0 then d else n.
Definition ApplyRetention (textTTLHours ttlDays : Z) : DB -> DB * bool :=
  exec_all (retention_stmts (or_default textTTLHours 72) (or_default ttlDays 30)).

(** Start of a gateway (main.go): migrations, whose error ends it, then the retention, whose error
    it logs. *)
Definition ch_start (files : list string) (textTTLHours ttlDays : Z) (db : DB) : DB * bool :=
  let '(db, ok) := Migrate files db in
  if ok then (fst (ApplyRetention textTTLHours ttlDays db), true) else (db, false).
End Exec.

(** Statements run before an error are the first ones, in order. *)
Lemma exec_all_trace (answers : string -> bool) l : exists k,
  fst (exec_all (fun s (tr : list string) => (tr ++ [s], answers s)) l []) = take k l /\
  (snd (exec_all (fun s tr => (tr ++ [s], answers s)) l []) = true -> k = length l).
Proof.
  enough (forall tr, exists k, fst (exec_all (fun s (tr : list string) => (tr ++ [s], answers s)) l tr) = tr ++ take k l /\ (snd (exec_all (fun s tr => (tr ++ [s], answers s)) l tr) = true -> k = length l)) as H by exact (H []).
  induction l as [|s l IH]; intros tr; cbn; [exists O; by rewrite app_nil_r|].
  destruct (answers s); [|exists 1%nat; done]. destruct (IH (tr ++ [s])) as (k & -> & Hk). exists (S k). rewrite <- app_assoc. split; [done|]. intros H. by rewrite (Hk H).
Qed.

(** ** What the statements leave as the life of a text

    ClickHouse's part is read from the text of the statement: each table and column has the
    expression of the last statement that set it; every statement is executed without error. *)
Notation ttls := (gmap string string).
Definition modify (stmt : string) (t : ttls) : ttls :=
  match cut stmt " TTL toDateTime(ts) + " with (what, life, true) => <[what := life]> t | _ => t end.
Definition life (hours : Z) : string := "INTERVAL " +:+ itoa hours +:+ " HOUR".
Definition of_column (table column : string) : string := "ALTER TABLE " +:+ table +:+ " MODIFY COLUMN " +:+ column +:+ " String".
Definition text_lives (t : ttls) : list (option string) :=
  map (fun c => t !! of_column "cache_shadow" c) shadow_columns ++ map (fun c => t !! of_column "routing_shadow" c) routing_columns.

(** 004_retention.sql. *)
Definition retention_004 : string := concat_strings
  (map (fun c => column_ttl "cache_shadow" c 72 +:+ separator) shadow_columns ++
   map (fun c => column_ttl "routing_shadow" c 72 +:+ separator) ["prompt"; "cheap_answer"] ++ [column_ttl "routing_shadow" "strong_answer" 72 +:+ newline]).

Example retention_004_statements : statements retention_004 = map (fun c => column_ttl "cache_shadow" c 72) shadow_columns ++ map (fun c => column_ttl "routing_shadow" c 72) routing_columns.
Proof. vm_compute. reflexivity. Qed.

(** Every statement answers without error. *)
Definition accepted (stmt : string) (t : ttls) : ttls * bool := (modify stmt t, true).
Lemma exec_accepted l t : exec_all accepted l t = (fold_left (fun t s => modify s t) l t, true).
Proof. revert t. induction l as [|s l IH]; intros t; cbn; [done|apply IH]. Qed.

(** What sets a column's life is its own statement. *)
Lemma modify_column table column h t : table ∈ ["cache_shadow"; "routing_shadow"] -> column ∈ shadow_columns ++ routing_columns ->
  modify (column_ttl table column h) t = <[of_column table column := life h]> t.
Proof.
  intros Ht Hc. unfold shadow_columns, routing_columns in Hc. cbn [app] in Hc.
  repeat match goal with H : _ ∈ _ :: _ |- _ => apply elem_of_cons in H as [->|H] | H : _ ∈ [] |- _ => by apply elem_of_nil in H end; reflexivity.
Qed.
Lemma modify_row table d t : table ∈ ["cache_shadow"; "routing_shadow"] -> modify (row_ttl table d) t = <["ALTER TABLE " +:+ table +:+ " MODIFY" := "INTERVAL " +:+ itoa d +:+ " DAY"]> t.
Proof. intros [->|[->|[]%elem_of_nil]%elem_of_cons]%elem_of_cons; reflexivity. Qed.

Ltac find_name := unfold shadow_columns, routing_columns; cbn [app]; repeat (exact (list_elem_of_here _ _) || apply list_elem_of_further).
Ltac run_retention :=
  cbn [fold_left map app shadow_columns routing_columns];
  repeat ((rewrite modify_column by find_name) || (rewrite modify_row by find_name)).
Ltac lookup_ttl :=
  repeat (rewrite lookup_insert_eq || (rewrite lookup_insert_ne by (intros E; vm_compute in E; discriminate E))).

(** Once [ApplyRetention] has returned, the texts of both tables live as configured, whatever was
    set before. *)
Lemma retention_configured hours days t : text_lives (fst (ApplyRetention accepted hours days t)) = replicate 7 (Some (life (or_default hours 72))).
Proof.
  unfold ApplyRetention, retention_stmts. rewrite exec_accepted. cbn [fst]. generalize (or_default hours 72), (or_default days 30). clear hours days. intros h d.
  run_retention. unfold text_lives. cbn [map app shadow_columns routing_columns replicate]. by lookup_ttl.
Qed.

(** But every start first runs 004_retention.sql again: until [ApplyRetention] has run, the texts
    of a deployment configured for longer live 72 hours. *)
Lemma restart_shortens_lives t : text_lives (fst (Migrate accepted [retention_004] t)) = replicate 7 (Some (life 72)).
Proof.
  unfold Migrate. cbn [map concat]. rewrite retention_004_statements, app_nil_r, exec_accepted. cbn [fst].
  run_retention. unfold text_lives. cbn [map app shadow_columns routing_columns replicate]. by lookup_ttl.
Qed.
End CH.
